(* ===== verification/_CoqProject ===== *)
-Q . S2P
Prelude.v
DsTree.v
DsTreeRep.v
DsTreeInv.v
DsTreeInsert.v
DsTreeRemove.v
DsTreeWalk.v
DsTreeThms.v
DsDlist.v
DsDlistRep.v
DsList.v
DsListRep.v
QmQueue.v
QmLog.v
QmQueueThms.v
Synclist.v
SynclistThms.v
PolicyTags.v
PolicyTagsRep.v
PolicyTagsInv.v
PolicyTagsProps.v
FcmFilter.v
FcmFilterMgr.v
FcmFilterEval.v
FcmFilterInv.v
FcmFilterThms.v
FcmFilterProps.v
FsmPolicy.v
FsmPolicyRun.v
FsmPolicyThms.v
FsmPolicyProps.v
CommonUtil.v
CommonUtilThms.v
CommonText.v
Cm2Types.v
Cm2Event.v
Cm2Stability.v
Cm2Inv.v
Cm2Thms.v
Cm2Run.v
Cm2Props.v
Evsched.v
EvschedInv.v
EvschedThms.v
EvschedProps.v
KeySeq.v
KeySeqTree.v
GkCache.v
GkCacheInv.v
GkCacheOps.v
GkCacheAdd.v
GkCacheFlow.v
GkFlush.v
GkFlushThms.v
GkCacheRun.v
GkCacheProps.v
DnsCache.v
DnsCacheSpec.v
DnsCacheProps.v
OsnTypes.v
OsnTypesThms.v
OsnTypesProps.v
NetHeader.v
NetHeaderProps.v
Psfs.v
PsfsRec.v
PsfsRead.v
PsfsLoad.v
PsfsSync.v
PsfsSpec.v
PsfsFault.v
PsfsProps.v
PmTm.v
PmTmThms.v
PmTmProps.v
InetUnit.v
InetUnitRep.v
InetUnitProps.v
InetBase.v
InetBaseProps.v
