(* ===== verification/Prelude.v ===== *)
(** * OpenSync: containers, policies, caches, packets, storage, queues and managers

    A verification development for the C code under src/src.  OpenSync is a set of
    manager processes that share an OVSDB database, and of the libraries they are
    built from.  Modelled here are the libraries that carry the logic (containers,
    policy tags, filters, policies, the two caches of verdicts, packet headers, address
    types, strings, the task scheduler, the persistent store, the services of network
    interfaces) and parts of three managers (message queue, connection manager, thermal
    management).

    ** Conventions

    This file holds what all parts share: integers at their width ([wrapu], [wraps]),
    a state and fault monad [M] with its total-correctness predicate [wp], pointers
    and the string functions of the C library.  A program is a function from a store to
    a result and the new store; [None] is undefined behaviour or an abort: NULL or freed
    memory dereferenced, an access outside an array, a division by zero, a failed
    assertion, a member of a union read that was not written, or a loop that ran out of
    fuel.  [wp m Q s] says that [m] ends without any of these and that [Q] holds
    afterwards, so every theorem of this form is a theorem about termination and safety
    too.

    Fuel is given to loops and recursion that follow pointers or [goto]; it is at
    most twice the number of nodes (containers), the length of the text, array or capture
    (strings, search, extension headers), the bytes of the file and the failures still to come
    (persistent store), one more than the number of units (interfaces), and 108 passes per event for the state machine of the connection manager,
    and is proved to be enough in each case.

    ** Parts

    - Containers, src/lib/ds.  [DsTree] is the intrusive red-black tree as a program on
      a node store, with [DsTreeRep] (trees and zippers in the store), [DsTreeInv] (the
      red-black invariant), [DsTreeInsert], [DsTreeRemove], [DsTreeWalk] and [DsTreeThms]
      (C1, C2, C39; also
      traversal, the health check, stale iterators and the comparators).  [DsDlist] and [DsDlistRep] are the doubly linked list and its refinement
      to sequences, with the interface [ListOps]/[ListLaws] that its users rely on
      ([DsDlistRep.ds_dlist_remove_refines]).  [DsList] and [DsListRep] are the
      singly linked list with its iterators, as a pointer program and on sequences, and the
      simulation between the two (C38).
    - Trees as sequences.  [KeySeq] is a tree of structures seen as the ascending sequence of
      these structures, with comparison functions as a class ([KeyOrder]); [KeySeqTree] proves that
      the red-black tree in memory implements it (C31).
    - Message queue, src/qm/src/qm_queue.c.  [QmQueue], [QmLog], [QmQueueThms]: the
      bounded FIFO over the list interface, ownership of items, the remote log buffer,
      all sequences of operations as a step relation (C21,
      C22, C23).
    - Synchronised lists, src/lib/synclist.  [Synclist], [SynclistThms]: mark and sweep
      over the tree with the client's callback as an argument (C24).
    - Policy tags, src/lib/policy_tags.  [PolicyTags] (tag lists, tags, groups, row
      handlers, templates), [PolicyTagsRep], [PolicyTagsInv], [PolicyTagsProps] (C25, C26).
    - Flow filters, src/lib/fcm_filter.  [FcmFilter] (rules and their evaluation),
      [FcmFilterMgr] (tables, rows, clients), [FcmFilterEval], [FcmFilterInv],
      [FcmFilterThms], [FcmFilterProps] (C13, C27).
    - Flow policies, src/lib/fsm_policy.  [FsmPolicy] (checks, replies, the walk over a
      table), [FsmPolicyRun], [FsmPolicyThms], [FsmPolicyProps]
      (C14, [FsmPolicyProps.cat_search_correct]).  Policies look
      up devices, names and addresses in the tags of [PolicyTags].
    - Gatekeeper cache, src/lib/gatekeeper_cache.  [GkCache] (the manager, the trees of a
      device, the keyed hash, adding, lookup, deletion and expiry), [GkFlush] (the comparison
      functions of gatekeeper_cache_cmp.c and the flush by policies), [GkCacheInv] (the
      invariant), [GkCacheOps], [GkCacheAdd], [GkCacheFlow], [GkFlushThms] (the
      operations), [GkCacheRun] (the hash, sequences of calls)
      and [GkCacheProps] (C8, C12, C32,
      C33, C34).  A flush uses the rules of [FsmPolicy].
    - Cache of verdicts by address, src/lib/dns_cache.  [DnsCache] (all of dns_cache.c),
      [DnsCacheSpec] (an abstract map shared by users, and what the tree has to do with it) and
      [DnsCacheProps] (C7).
    - Packet headers, src/lib/ustack.  [NetHeader] (net_header_parse.c over the captured bytes)
      and [NetHeaderProps] (C9).
    - Address types, src/lib/osn/src/osn_types.c.  [OsnTypes] (with the functions of the C library
      that parse numbers and addresses), [OsnTypesThms] (text, masks, bits) and [OsnTypesProps]
      (C35, C36, C37).
    - String helpers, src/lib/common/src/util.c.  [CommonUtil] (copies, words, URIs, base
      64, shell words), [CommonUtilThms] ([CommonUtilThms.base64_roundtrip]), [CommonText]
      (formatted output, lines, hexadecimal, private addresses, channel lists, with their
      theorems).
    - Task scheduler, src/lib/evsched.  [Evsched] (the whole of evsched.c over the sequences
      of [DsList]), [EvschedInv] (order, insertion, calls from inside of a task), [EvschedThms] (the loops of the timer callback) and [EvschedProps]
      (C5).
    - Connection manager, src/cm2/src.  [Cm2Types] (cm2.h), [Cm2Event] (cm2_event.c, the
      synchronous resolver cm2_resolve.c and cm2_resolve_sync.c, the database callbacks
      that feed it), [Cm2Stability] (cm2_stability.c), [Cm2Inv], [Cm2Thms] (the
      invariant and the measure of the passes), [Cm2Run] (the reconnect cycle, sequences
      of events) and [Cm2Props] (C3,
      C20, C40).  Addresses
      are parsed by [CommonUtil].
    - Persistent store, src/lib/psfs with src/lib/osp/src/osp_ps_psfs.c and the pruning command
      of src/tools/osps.  [Psfs] is all of psfs.c over files, descriptors, locks and system calls
      that fail or fall short by a plan, with other processes that interfere; [PsfsRec]
      (the checksum, records written and read), [PsfsRead] (the journal), [PsfsLoad] (the tree of
      records and loading), [PsfsSync] (both ways to sync), [PsfsSpec] (the
      abstract store: a map on disk and a map in memory), [PsfsFault] (failing calls,
      interference) and [PsfsProps] (C4, C6,
      C10, C19, C28, C29).
    - Thermal management, src/pm/src/pm_tm.c and pm_tm_ovsdb.c.  [PmTm] (the period, over what
      sensors, fan and overriding rows answer), [PmTmThms] (one period, a source
      that stays hot) and [PmTmProps] (C11, C15,
      C30).
    - Network interfaces, src/lib/inet.  [InetUnit] (all of inet_unit.c: trees of services on a
      store, over the client's function), [InetUnitRep] (the tree as a forest, and the operations
      on it), [InetUnitProps] (C17, C18), [InetBase] (the
      setters, services and the commit of inet_base.c over drivers that answer anything) and
      [InetBaseProps] (C16).  Addresses are those of [OsnTypes], the
      lists of the class are those of [KeySeq].

    The trees that the tag, filter and policy libraries and the caches keep are used through the
    sequence of their entries, which is the view that C1,
    C2, [DsTreeThms.ds_tree_traversal_in_order] and
    C31 establish for the pointer program.

    ** What the theorems show

    - Containers: the pointer programs implement ordered maps and sequences, write nothing
      else, and detect what they promise to detect.
    - Queue and synchronised list: the clients of the containers keep their bounds, counters and
      ownership under every sequence of operations, and synchronise exactly.
    - Tags, filters and policies compute what their rows say: differences of
      tag lists apply, groups follow their members, tables mirror rows, the first
      decisive rule wins, the provider is asked at most once.  What a rule means is stated apart from
      the code, and the values for which the code decides otherwise are excluded by hypotheses.
    - Caches: every sequence of calls runs without a fault; what is added is found, exactly
      what expired or what a policy hits is removed, and the counters follow; the cache by address
      is a map.
    - Packets and addresses: complete packets, with options as their only extension headers, are parsed exactly; text and addresses are inverse;
      masks and prefixes have the meaning of their bits.
    - Connection manager: it handles every sequence of events (within the bounds below) in bounded time and rests in a
      state that agrees with the connection; a device that is
      no extender and stays without its manager goes back to the redirector at the 11th timeout;
      when the managers are restarted; never are both address families blocked, and one that is
      blocked with a positive counter returns.
    - Persistent store: with every sequence of calls and restarts it is a map, a crash between
      an erase and the next sync apart; a sync that is cut off anywhere leaves whole records only, if no
      value holds the magic number of records; every file loads in bounded time; a changed
      record is not returned; a store that is opened is the one with the name.
    - Thermal management: no access outside of the table, states move one at a time, a reboot
      exactly after three periods in the last state, and always when a source stays too hot.
    - Network interfaces: services start after what they depend on and stop before it; after a
      commit those run that the configuration asks for, and the addresses are the configured ones.
      A start that failed is marked as done by the code and not repeated, so the theorems speak of
      the services whose last start did not fail.
    - Strings and scheduler: base 64 decodes what it encoded, the scheduler runs exactly the
      tasks that are due and not cancelled, in order, and its timer is never late.

    Some theorems state what goes wrong (parts of C33, and theorems beside the
    claims such as [GkCacheProps.gkc_ipv6_flows_alias], [OsnTypesProps.osn_ip6_addr_type_exact],
    [Cm2Props.cm2_restart_decision], [CommonUtilThms.parse_uri_correct], [PsfsProps.psfs_load_after_prune],
    [PsfsProps.psfs_prune_loses_record], [PsfsProps.psfs_close_unloaded],
    [PsfsProps.psfs_next_deleted], [PsfsProps.psfs_torn_value_read_as_record],
    [PsfsProps.psfs_erase_at_once], [PsfsProps.psfs_long_name_loses],
    [PmTmProps.tm_blind_cools_down], [PmTmProps.tm_init_failed_faults], [SynclistThms.synclist_add_replace_faults],
    [PolicyTagsProps.om_tag_group_update_loses_source], [FcmFilterProps.fcm_missing_row_faults],
    [FcmFilterProps.fcm_dport_proto_ignored], [FcmFilterProps.fcm_prefix_taken_for_value],
    [FsmPolicyProps.fsm_wildcard_faults], [FsmPolicyProps.fqdn_exact_is_prefix],
    [GkCacheProps.gkc_flush_category_by_confidence], [GkCacheProps.gkc_flush_starts], [GkCacheProps.gkc_add_flow_blocked_wraps],
    [DnsCacheProps.dns_refcount_wraps], [NetHeaderProps.is_ipv6_extension_exact],
    [NetHeaderProps.net_header_truncated_faults], [NetHeaderProps.net_header_extensions_missed], [OsnTypesProps.osn_ip6_is_subnet_edges],
    [Cm2Props.cm2_blocked_family_stuck], [Cm2Props.cm2_backoff_faults],
    [CommonUtilThms.strargv_overrun], [EvschedProps.evsched_update_aborts],
    [InetUnitProps.inet_unit_failed_counts_as_started], [InetBaseProps.inet_stuck_service_stays_down]).

    ** Assumptions

    Code outside src/src is an argument: callbacks of clients, plugins, [fnmatch],
    [getaddrinfo], [inet_ntop] for IPv6, [inet_pton] in the flush; for the policies also the lookup in the cache by
    address.  The connection manager asks an environment that may
    answer every question differently; C3 and C20 assume that
    its clock does not go back and advances by less than the shortest timeout during one event,
    that the backoff range is not empty, that an address is not made of colons only, and that the
    thresholds of the router and internet checks are positive;
    C5 assumes that the clock does not go back and that task functions neither
    update other tasks nor ask for the time of late ones.  The caches are called with requests that have a device and arrays of
    the right length; the sizes of the gatekeeper cache are below 2^31, its flush policies
    have no wildcard operations, and the cache by address has at most 255 users.  Plugins do not fault,
    and a provider that stores categories stores those it decides by.  Names in the persistent
    store have at most 63 characters, and thermal tables have the documented shape.  Each such assumption has a
    witness.  Option numbers of an interface are within its arrays, and only a name server that is there
    is removed.  Memory is little endian, [char] is signed, [long] and [size_t] have 64 bits.
    Allocation does not fail; logging is left out.

    ** Not modelled

    Database access and generated schema code, protobuf reports, capture of packets,
    processes and the platform layers, because they are input and output or
    generated; the vendored parsers.  Of the modelled parts: fcm_report_filter.c, the
    loading of policy rows, the creation and destruction of the objects of an interface, its
    notifications and the classes derived from it, link selection in cm2_ovsdb.c, the asynchronous resolver,
    printing of caches and packets to the log, helpers of util.c that run processes, read
    files or format with varargs.

    Beyond the parts above, the link selection of the connection manager, the state machines of bm,
    ltem and dm, and reference-counted links (lib/reflink) have logic of their own that is not
    modelled. *)
From Stdlib Require Export Ascii.
From stdpp Require Export base strings numbers gmap list.


(** ** Machine integers *)

(** The value of a [w]-bit unsigned integer. *)
Definition wrapu (w : Z) (z : Z) : Z := (z `mod` 2 ^ w)%Z.

(** The value of a [w]-bit two's complement integer. *)
Definition wraps (w : Z) (z : Z) : Z :=
  ((z + 2 ^ (w - 1)) `mod` 2 ^ w - 2 ^ (w - 1))%Z.

(** C's conversion of a truth value to an [int]. *)
Definition b2z (b : bool) : Z := if b then 1%Z else 0%Z.

(** ** Strings of the C library *)

(** [atoi], for a number that fits an [int]. *)
Definition is_space (c : ascii) : bool :=
  let n := nat_of_ascii c in ((9 <=? n) && (n <=? 13)) || (n =? 32).
Definition digit (c : ascii) : option Z :=
  let n := nat_of_ascii c in if (48 <=? n) && (n <=? 57) then Some (Z.of_nat (n - 48)) else None.
Fixpoint digits (acc : Z) (s : string) : Z :=
  match s with
  | EmptyString => acc
  | String c s => match digit c with Some d => digits (10 * acc + d) s | None => acc end
  end.
Fixpoint atoi (s : string) : Z :=
  match s with
  | EmptyString => 0
  | String c s' =>
      if is_space c then atoi s'
      else if bool_decide (c = "-"%char) then (- digits 0 s')%Z
      else if bool_decide (c = "+"%char) then digits 0 s'
      else digits 0 s
  end.

Lemma string_length_app s t : String.length (s +:+ t) = String.length s + String.length t.
Proof. induction s as [|c s IH]; [done|]. change (String c s +:+ t) with (String c (s +:+ t)). cbn. by rewrite IH. Qed.
(** A prefix that is long enough is the whole string. *)
Lemma substring_full s n : String.length s ≤ n → String.substring 0 n s = s.
Proof. revert n. induction s as [|c s IH]; intros [|n] Hn; cbn in *; try done; [lia|]. by rewrite IH by lia. Qed.

(** ** A state and fault monad

    A computation over the store [S] returns a value and the new store, or
    [None] when the C program has no defined continuation: a NULL or dangling
    pointer was dereferenced, an [ASSERT] failed, or a loop ran longer than
    its fuel.  Theorems about the components show [Some], so they exclude all
    three. *)
Definition M (S A : Type) : Type := S → option (A * S).

#[export] Instance M_ret S : MRet (M S) := λ A a s, Some (a, s).
#[export] Instance M_bind S : MBind (M S) := λ A B f m s,
  match m s with Some (a, s') => f a s' | None => None end.

Definition fault {S A} : M S A := λ _, None.
Definition gets {S A} (f : S → A) : M S A := λ s, Some (f s, s).
Definition modify {S} (f : S → S) : M S unit := λ s, Some (tt, f s).
(** Fault unless the option holds a value: a pointer dereference. *)
Definition deref {S A} (o : option A) : M S A :=
  match o with Some a => mret a | None => fault end.

(** Run a computation for its final store; a fault keeps the store. *)
Definition run {S A} (m : M S A) (s : S) : option A := fst <$> m s.

(** ** Pointers and iterators (src/lib/ds/inc/ds.h)

    The address of an intrusive node.  Nodes are embedded in their containers
    at a constant offset, so an address also names the container
    ([NODE_TO_CONT] and [CONT_TO_NODE] are the identity here). *)
Abbreviation loc := positive (only parsing).
(** A C pointer; [None] is NULL. *)
Abbreviation ptr := (option positive) (only parsing).

(** The result of an iterator operation: [DS_ITER_ERROR] or a pointer. *)
Inductive iter_ret := DS_ITER_ERROR | iter_ptr (p : ptr).

(** The [ASSERT] after an iterator operation: an iteration error aborts. *)
Definition iter_assert {S} (r : iter_ret) : M S ptr :=
  match r with DS_ITER_ERROR => fault | iter_ptr p => mret p end.

(** ** Total correctness *)

(** [wp m Q s]: from the store [s], [m] terminates without a fault and its
    value and final store satisfy [Q]. *)
Definition wp {S A} (m : M S A) (Q : A → S → Prop) (s : S) : Prop :=
  match m s with Some (a, s') => Q a s' | None => False end.

Section wp_rules.
Context {S : Type}.
Implicit Types s : S.

Lemma wp_ret {A} (a : A) (Q : A → S → Prop) s : Q a s → wp (mret a) Q s.
Proof. done. Qed.

Lemma wp_bind {A B} (m : M S A) (f : A → M S B) Q s :
  wp m (λ a s', wp (f a) Q s') s → wp (m ≫= f) Q s.
Proof. unfold wp, mbind, M_bind. by destruct (m s) as [[]|]. Qed.

Lemma wp_mono {A} (m : M S A) (Q Q' : A → S → Prop) s :
  wp m Q s → (∀ a s', Q a s' → Q' a s') → wp m Q' s.
Proof. unfold wp. destruct (m s) as [[]|]; naive_solver. Qed.

Lemma wp_gets {A} (f : S → A) (Q : A → S → Prop) s : Q (f s) s → wp (gets f) Q s.
Proof. done. Qed.

Lemma wp_modify (f : S → S) (Q : unit → S → Prop) s : Q tt (f s) → wp (modify f) Q s.
Proof. done. Qed.

Lemma wp_deref {A} (o : option A) a (Q : A → S → Prop) s :
  o = Some a → Q a s → wp (deref o) Q s.
Proof. by intros -> ?. Qed.

Lemma wp_some {A} (m : M S A) Q s :
  wp m Q s ↔ ∃ a s', m s = Some (a, s') ∧ Q a s'.
Proof. unfold wp. destruct (m s) as [[]|]; naive_solver. Qed.
End wp_rules.

Create HintDb wp discriminated.
#[export] Hint Resolve wp_ret wp_gets wp_modify : wp.

(** One step of a monadic program: push the postcondition into a bind. *)
Ltac wp_seq := apply wp_bind.
Ltac wp_pure := first [apply wp_ret | apply wp_gets | apply wp_modify]; cbn beta.
(** Use a specification of the first command and continue from its result. *)
Ltac wp_use H := eapply wp_mono; [eapply H | cbn beta].
