(* ===== verification/DsTree.v ===== *)
(** The intrusive red-black tree of [lib/ds] (src/lib/ds/src/ds_tree.c and
    src/lib/ds/src/ds_tree.c.h): the pointer program over an explicit node
    store. *)
From S2P Require Import Prelude.

(** [otn_prop]: [OTN_PROP_BLACK] is 0, [OTN_PROP_RED] is 1. *)
Inductive color := OTN_PROP_RED | OTN_PROP_BLACK.
#[export] Instance color_eq_dec : EqDecision color.
Proof. solve_decision. Defined.

Section ds_tree.
Context {K : Type}.

(** [struct ds_tree_node] *)
Record ds_tree_node := Node {
  otn_key : K;
  otn_prop : color;
  otn_parent : ptr;
  otn_child0 : ptr;
  otn_child1 : ptr }.

(** [struct ds_tree] together with the memory of its nodes.  [ot_cmp_fn] is
    the variable [cmp] below. *)
Record ds_tree := Tree {
  ot_root : ptr;
  ot_ndel : Z;
  nodes : gmap positive ds_tree_node }.

(** [otn_child[dir]]; directions are the index 0 ([false]) or 1 ([true]). *)
Definition otn_child (n : ds_tree_node) (dir : bool) : ptr :=
  if dir then otn_child1 n else otn_child0 n.
Definition set_prop (c : color) (n : ds_tree_node) :=
  Node (otn_key n) c (otn_parent n) (otn_child0 n) (otn_child1 n).
Definition set_parent (p : ptr) (n : ds_tree_node) :=
  Node (otn_key n) (otn_prop n) p (otn_child0 n) (otn_child1 n).
Definition set_child (dir : bool) (p : ptr) (n : ds_tree_node) :=
  if dir then Node (otn_key n) (otn_prop n) (otn_parent n) (otn_child0 n) p
  else Node (otn_key n) (otn_prop n) (otn_parent n) p (otn_child1 n).

Definition with_nodes (f : gmap positive ds_tree_node → gmap positive ds_tree_node)
    (s : ds_tree) : ds_tree := Tree (ot_root s) (ot_ndel s) (f (nodes s)).
Definition with_root (p : ptr) (s : ds_tree) : ds_tree :=
  Tree p (ot_ndel s) (nodes s).
Definition with_ndel (z : Z) (s : ds_tree) : ds_tree :=
  Tree (ot_root s) z (nodes s).

Abbreviation M := (M ds_tree).

(** [*p]: reading through a pointer to a live node. *)
Definition load (p : loc) : M ds_tree_node := λ s,
  match nodes s !! p with Some n => Some (n, s) | None => None end.
(** An assignment to a field of [*p]. *)
Definition store (p : loc) (f : ds_tree_node → ds_tree_node) : M unit :=
  n ← load p; modify (with_nodes (<[p := f n]>)).
Definition rd_child (p : loc) (dir : bool) : M ptr :=
  n ← load p; mret (otn_child n dir).
Definition rd_parent (p : loc) : M ptr := n ← load p; mret (otn_parent n).
Definition rd_prop (p : loc) : M color := n ← load p; mret (otn_prop n).
Definition rd_key (p : loc) : M K := n ← load p; mret (otn_key n).
Definition rd_root : M ptr := gets ot_root.

(** [if (p != NULL) body] *)
Definition when_ptr (p : ptr) (body : loc → M unit) : M unit :=
  match p with Some l => body l | None => mret tt end.

(** [OTN_IS_RED(x)] *)
Definition OTN_IS_RED (x : ptr) : M bool :=
  match x with
  | None => mret false
  | Some l => c ← rd_prop l; mret (bool_decide (c = OTN_PROP_RED))
  end.

(** [__ds_tree_init] *)
Definition __ds_tree_init (mem : gmap positive ds_tree_node) : ds_tree :=
  Tree None 0 mem.

(** [ds_bst_rotate] *)
Definition ds_bst_rotate (node : loc) (dir : bool) : M loc :=
  c ← rd_child node dir;
  save ← deref c;
  np ← rd_parent node;
  store save (set_parent np);;
  b ← rd_child save (negb dir);
  store node (set_child dir b);;
  nc ← rd_child node dir;
  when_ptr nc (λ x, store x (set_parent (Some node)));;
  store save (set_child (negb dir) (Some node));;
  store node (set_parent (Some save));;
  sp ← rd_parent save;
  match sp with
  | None => modify (with_root (Some save))
  | Some p =>
      pc ← rd_child p true;
      store p (set_child (bool_decide (Some node = pc)) (Some save))
  end;;
  mret save.

(** [ds_rbt_rotate] *)
Definition ds_rbt_rotate (node : loc) (dir : bool) : M loc :=
  save ← ds_bst_rotate node dir;
  store node (set_prop OTN_PROP_RED);;
  store save (set_prop OTN_PROP_BLACK);;
  mret save.

(** [ds_rbt_rotate_double] *)
Definition ds_rbt_rotate_double (node : loc) (dir : bool) : M loc :=
  c ← rd_child node dir;
  c ← deref c;
  ds_rbt_rotate c (negb dir);;
  ds_rbt_rotate node dir.

(** [ds_tree_insert_rebalance] *)
Definition ds_tree_insert_rebalance (base : loc) : M unit :=
  r ← OTN_IS_RED (Some base);
  pp ← rd_parent base;
  rp ← OTN_IS_RED pp;
  if r && rp then
    p ← deref pp;
    gp ← rd_parent p;
    gbase ← deref gp;
    gc ← rd_child gbase true;
    pc ← rd_child p true;
    let gdir := bool_decide (Some p = gc) in
    let pdir := bool_decide (Some base = pc) in
    (if eqb gdir pdir then ds_rbt_rotate gbase gdir
     else ds_rbt_rotate_double gbase gdir);;
    mret tt
  else mret tt.

(** Results of the key comparison and tree walks that use it. *)
Section cmp.
(** [ot_cmp_fn] *)
Variable cmp : K → K → Z.

(** [ot_cmp_fn(a, b) < 0] as an index. *)
Definition cmp_dir (a b : K) : bool := (cmp a b <? 0)%Z.

(** One turn of the descent loop of [ds_tree_node_insert]: the colour flip
    and the repair of the violation it may cause. *)
Definition ds_tree_insert_visit (base : loc) : M unit :=
  c0 ← rd_child base false;
  c1 ← rd_child base true;
  r0 ← OTN_IS_RED c0;
  r1 ← OTN_IS_RED c1;
  (if r0 && r1 then
     store base (set_prop OTN_PROP_RED);;
     l0 ← deref c0;
     store l0 (set_prop OTN_PROP_BLACK);;
     l1 ← deref c1;
     store l1 (set_prop OTN_PROP_BLACK)
   else mret tt);;
  ds_tree_insert_rebalance base.

(** The [while (base->otn_child[dir] != NULL)] loop of
    [ds_tree_node_insert]; it returns the last [base] and [dir]. *)
Fixpoint ds_tree_insert_descend (fuel : nat) (key : K) (base : loc) (dir : bool)
    : M (loc * bool) :=
  c ← rd_child base dir;
  match c with
  | None => mret (base, dir)
  | Some _ =>
      match fuel with
      | O => fault
      | S fuel =>
          ds_tree_insert_visit base;;
          c ← rd_child base dir;
          base ← deref c;
          k ← rd_key base;
          ds_tree_insert_descend fuel key base (cmp_dir k key)
      end
  end.

(** [ds_tree_node_insert] *)
Definition ds_tree_node_insert (node : loc) (key : K) : M unit :=
  store node (λ _, Node key OTN_PROP_RED None None None);;
  root ← rd_root;
  match root with
  | None =>
      modify (with_root (Some node));;
      store node (set_prop OTN_PROP_BLACK)
  | Some base =>
      k ← rd_key base;
      fuel ← gets (λ s, 2 * size (nodes s) + 2);
      '(base, dir) ← ds_tree_insert_descend fuel key base (cmp_dir k key);
      store base (set_child dir (Some node));;
      store node (set_parent (Some base));;
      c ← rd_child base dir;
      c ← deref c;
      ds_tree_insert_rebalance c;;
      root ← rd_root;
      root ← deref root;
      store root (set_prop OTN_PROP_BLACK)
  end.

(** [ds_tree_find] *)
Fixpoint ds_tree_find_loop (fuel : nat) (key : K) (node : ptr) : M ptr :=
  match node with
  | None => mret None
  | Some n =>
      k ← rd_key n;
      let c := cmp k key in
      if (c =? 0)%Z then mret (Some n)
      else match fuel with
           | O => fault
           | S fuel => x ← rd_child n (c <? 0)%Z; ds_tree_find_loop fuel key x
           end
  end.

Definition ds_tree_find (key : K) : M ptr :=
  root ← rd_root;
  fuel ← gets (λ s, size (nodes s));
  ds_tree_find_loop fuel key root.
End cmp.

(** ** Removal *)

(** [ds_tree_remove_leaf] *)
Definition ds_tree_remove_leaf (node : loc) : M ptr :=
  parent ← rd_parent node;
  c0 ← rd_child node false;
  let dir := bool_decide (c0 = None) in
  r ← OTN_IS_RED (Some node);
  c ← rd_child node dir;
  rc ← OTN_IS_RED c;
  retval ←
    (if r : bool then mret None
     else if rc : bool then
       l ← deref c;
       store l (set_prop OTN_PROP_BLACK);;
       mret None
     else mret parent);
  np ← rd_parent node;
  c ← rd_child node dir;
  match np with
  | None => modify (with_root c)
  | Some p =>
      pc ← rd_child p true;
      store p (set_child (bool_decide (Some node = pc)) c)
  end;;
  c ← rd_child node dir;
  when_ptr c (λ x, np ← rd_parent node; store x (set_parent np));;
  mret retval.

(** [ds_tree_node_replace] *)
Definition ds_tree_node_replace (pold pnew : loc) : M unit :=
  c ← rd_prop pold;
  store pnew (set_prop c);;
  p ← rd_parent pold;
  store pnew (set_parent p);;
  c0 ← rd_child pold false;
  store pnew (set_child false c0);;
  c1 ← rd_child pold true;
  store pnew (set_child true c1);;
  c0 ← rd_child pold false;
  when_ptr c0 (λ x, store x (set_parent (Some pnew)));;
  c1 ← rd_child pold true;
  when_ptr c1 (λ x, store x (set_parent (Some pnew)));;
  p ← rd_parent pold;
  match p with
  | None => modify (with_root (Some pnew))
  | Some p =>
      pc ← rd_child p true;
      store p (set_child (bool_decide (Some pold = pc)) (Some pnew))
  end.

(** The second half of [ds_tree_remove_rebalance]: the sibling [s] is not red. *)
Definition ds_tree_remove_rebalance_sib (node : loc) (dir : bool) (s : ptr) : M bool :=
  match s with
  | None => mret true
  | Some s =>
      s0 ← rd_child s false;
      s1 ← rd_child s true;
      r0 ← OTN_IS_RED s0;
      r1 ← OTN_IS_RED s1;
      if negb r0 && negb r1 then
        store s (set_prop OTN_PROP_RED);;
        rn ← OTN_IS_RED (Some node);
        if rn : bool then store node (set_prop OTN_PROP_BLACK);; mret false
        else mret true
      else
        prop ← rd_prop node;
        sc ← rd_child s (negb dir);
        rsc ← OTN_IS_RED sc;
        node ← (if rsc : bool then ds_rbt_rotate node (negb dir)
                else ds_rbt_rotate_double node (negb dir));
        store node (set_prop prop);;
        c0 ← rd_child node false;
        c0 ← deref c0;
        store c0 (set_prop OTN_PROP_BLACK);;
        c1 ← rd_child node true;
        c1 ← deref c1;
        store c1 (set_prop OTN_PROP_BLACK);;
        mret false
  end.

(** [ds_tree_remove_rebalance]; a red sibling is rotated up first. *)
Definition ds_tree_remove_rebalance (node : loc) (dir : bool) : M bool :=
  s ← rd_child node (negb dir);
  rs ← OTN_IS_RED s;
  s ← (if rs : bool then ds_rbt_rotate node (negb dir);; rd_child node (negb dir)
       else mret s);
  ds_tree_remove_rebalance_sib node dir s.

(** [while (rnode->otn_child[dir] != NULL) rnode = rnode->otn_child[dir];] *)
Fixpoint ds_tree_node_walk (fuel : nat) (node : loc) (dir : bool) : M loc :=
  c ← rd_child node dir;
  match c with
  | None => mret node
  | Some l => match fuel with O => fault | S fuel => ds_tree_node_walk fuel l dir end
  end.

(** The [while (base != NULL)] loop of [ds_tree_node_remove]. *)
Fixpoint ds_tree_remove_climb (fuel : nat) (base : ptr) (dir : bool) : M unit :=
  match base with
  | None => mret tt
  | Some b =>
      match fuel with
      | O => fault
      | S fuel =>
          go ← ds_tree_remove_rebalance b dir;
          if go : bool then
            pp ← rd_parent b;
            dir ← match pp with
                  | Some p => pc ← rd_child p true; mret (bool_decide (Some b = pc))
                  | None => mret dir
                  end;
            ds_tree_remove_climb fuel pp dir
          else mret tt
      end
  end.

(** [ds_tree_node_remove]; the initial [dir = -1] is never read before it is
    assigned: without a parent the leaf removal leaves nothing to climb. *)
Definition ds_tree_node_remove (node : loc) : M unit :=
  fuel ← gets (λ s, size (nodes s));
  c0 ← rd_child node false;
  c1 ← rd_child node true;
  '(base, dir) ←
    match c0, c1 with
    | Some l, Some _ =>
        rnode ← ds_tree_node_walk fuel l true;
        rp ← rd_parent rnode;
        rp ← deref rp;
        pc ← rd_child rp true;
        let dir := bool_decide (pc = Some rnode) in
        base ← ds_tree_remove_leaf rnode;
        ds_tree_node_replace node rnode;;
        mret (if bool_decide (base = Some node) then Some rnode else base, dir)
    | _, _ =>
        p ← rd_parent node;
        dir ← match p with
              | Some p => pc ← rd_child p true; mret (bool_decide (Some node = pc))
              | None => mret false
              end;
        base ← ds_tree_remove_leaf node;
        mret (base, dir)
    end;
  ds_tree_remove_climb fuel base dir;;
  root ← rd_root;
  when_ptr root (λ r, store r (set_prop OTN_PROP_BLACK));;
  store node (set_child false None);;
  store node (set_child true None);;
  modify (λ s, with_ndel (wrapu 32 (ot_ndel s + 1)) s).

(** ** Traversal *)

(** [ds_tree_node_min] and [ds_tree_node_max] *)
Definition ds_tree_node_min (node : ptr) : M ptr :=
  match node with
  | None => mret None
  | Some n => fuel ← gets (λ s, size (nodes s)); m ← ds_tree_node_walk fuel n false; mret (Some m)
  end.
Definition ds_tree_node_max (node : ptr) : M ptr :=
  match node with
  | None => mret None
  | Some n => fuel ← gets (λ s, size (nodes s)); m ← ds_tree_node_walk fuel n true; mret (Some m)
  end.

(** The climbing loops of [ds_tree_node_next] ([dir = true]) and
    [ds_tree_node_prev] ([dir = false]): go up while we are the [dir] child. *)
Fixpoint ds_tree_node_climb (fuel : nat) (node : ptr) (dir : bool) : M ptr :=
  match node with
  | None => mret None
  | Some n =>
      match fuel with
      | O => fault
      | S fuel =>
          pp ← rd_parent n;
          d ← match pp with
              | Some p => pc ← rd_child p dir; mret (bool_decide (Some n = pc))
              | None => mret false
              end;
          if d : bool then ds_tree_node_climb fuel pp dir else mret pp
      end
  end.

(** [ds_tree_node_next] *)
Definition ds_tree_node_next (node : ptr) : M ptr :=
  match node with
  | None => mret None
  | Some n =>
      c ← rd_child n true;
      match c with
      | Some _ => ds_tree_node_min c
      | None => fuel ← gets (λ s, size (nodes s)); ds_tree_node_climb fuel (Some n) true
      end
  end.

(** [ds_tree_node_prev] *)
Definition ds_tree_node_prev (node : ptr) : M ptr :=
  match node with
  | None => mret None
  | Some n =>
      c ← rd_child n false;
      match c with
      | Some _ => ds_tree_node_max c
      | None => fuel ← gets (λ s, size (nodes s)); ds_tree_node_climb fuel (Some n) false
      end
  end.

(** [ds_tree_is_empty], [ds_tree_head], [ds_tree_tail] *)
Definition ds_tree_is_empty : M bool := r ← rd_root; mret (bool_decide (r = None)).
Definition ds_tree_head : M ptr := r ← rd_root; ds_tree_node_min r.
Definition ds_tree_tail : M ptr := r ← rd_root; ds_tree_node_max r.

(** [ds_tree_remove_head], [ds_tree_remove_tail] *)
Definition ds_tree_remove_head : M ptr :=
  head ← ds_tree_head;
  match head with
  | None => mret None
  | Some h => ds_tree_node_remove h;; mret (Some h)
  end.
Definition ds_tree_remove_tail : M ptr :=
  tail ← ds_tree_tail;
  match tail with
  | None => mret None
  | Some t => ds_tree_node_remove t;; mret (Some t)
  end.

(** ** Iterators *)

(** [struct ds_tree_iter]; [oti_root] is the tree of the store. *)
Record ds_tree_iter := Iter { oti_curr : ptr; oti_next : ptr; oti_ndel : Z }.

(** [ds_tree_ifirst] *)
Definition ds_tree_ifirst : M (ptr * ds_tree_iter) :=
  ndel ← gets ot_ndel;
  root ← rd_root;
  match root with
  | None => mret (None, Iter None None ndel)
  | Some _ =>
      curr ← ds_tree_node_min root;
      next ← ds_tree_node_next curr;
      mret (curr, Iter curr next ndel)
  end.

(** [ds_tree_inext_err] *)
Definition ds_tree_inext_err (iter : ds_tree_iter) : M (iter_ret * ds_tree_iter) :=
  ndel ← gets ot_ndel;
  if bool_decide (oti_ndel iter = ndel) then
    match oti_next iter with
    | None => mret (iter_ptr None, Iter None (oti_next iter) (oti_ndel iter))
    | Some c =>
        next ← ds_tree_node_next (Some c);
        mret (iter_ptr (Some c), Iter (Some c) next (oti_ndel iter))
    end
  else mret (DS_ITER_ERROR, iter).

(** [ds_tree_inext] *)
Definition ds_tree_inext (iter : ds_tree_iter) : M (ptr * ds_tree_iter) :=
  '(r, iter) ← ds_tree_inext_err iter;
  p ← iter_assert r;
  mret (p, iter).

(** [ds_tree_iremove_err] *)
Definition ds_tree_iremove_err (iter : ds_tree_iter) : M (iter_ret * ds_tree_iter) :=
  ndel ← gets ot_ndel;
  if bool_decide (oti_ndel iter = ndel) then
    match oti_curr iter with
    | None => mret (iter_ptr None, iter)
    | Some curr =>
        ds_tree_node_remove curr;;
        mret (iter_ptr (Some curr), Iter None (oti_next iter) (wrapu 32 (oti_ndel iter + 1)))
    end
  else mret (DS_ITER_ERROR, iter).

(** [ds_tree_iremove] *)
Definition ds_tree_iremove (iter : ds_tree_iter) : M (ptr * ds_tree_iter) :=
  '(r, iter) ← ds_tree_iremove_err iter;
  p ← iter_assert r;
  mret (p, iter).

(** ** The health check *)

(** [ds_tree_check_r]; one level of the recursion per unit of fuel. *)
Fixpoint ds_tree_check_r (fuel : nat) (node : loc) : M Z :=
  match fuel with
  | O => fault
  | S fuel =>
      let check_child (c : bool) : M Z :=
        x ← rd_child node c;
        match x with
        | None => mret 0%Z
        | Some l =>
            lp ← rd_parent l;
            if bool_decide (lp = Some node) then ds_tree_check_r fuel l else mret (-1)%Z
        end in
      rc0 ← check_child false;
      if (rc0 <? 0)%Z then mret (-1)%Z else
      rc1 ← check_child true;
      if (rc1 <? 0)%Z then mret (-1)%Z else
      if negb (rc0 =? rc1)%Z then mret (-1)%Z else
      r ← OTN_IS_RED (Some node);
      if negb r then mret (rc0 + 1)%Z else
      c0 ← rd_child node false;
      r0 ← OTN_IS_RED c0;
      if r0 : bool then mret (-1)%Z else
      c1 ← rd_child node true;
      r1 ← OTN_IS_RED c1;
      if r1 : bool then mret (-1)%Z else mret rc0
  end.

(** [ds_tree_check] *)
Definition ds_tree_check : M Z :=
  root ← rd_root;
  match root with
  | None => mret 0%Z
  | Some r =>
      red ← OTN_IS_RED (Some r);
      if red : bool then mret (-1)%Z else
      fuel ← gets (λ s, size (nodes s));
      ds_tree_check_r fuel r
  end.
End ds_tree.
Arguments otn_child : simpl never.
Arguments ds_tree_node_min : simpl never.
Arguments ds_tree_node_max : simpl never.
Arguments ds_tree_node_next : simpl never.
Arguments ds_tree_node_prev : simpl never.
Arguments set_child : simpl never.
Arguments set_parent : simpl never.
Arguments set_prop : simpl never.
Arguments ds_tree_node : clear implicits.
Arguments ds_tree : clear implicits.

(** ** Key comparators *)

(** [ds_int_cmp]: the difference of two [int] keys, an [int] again. *)
Definition ds_int_cmp (a b : Z) : Z := wraps 32 (a - b).

(** [ds_void_cmp]: the difference of two 64-bit [intptr_t], converted to [int]. *)
Definition ds_void_cmp (a b : Z) : Z := wraps 32 (wraps 64 (a - b)).

(** [ds_str_cmp]: [strcmp], of which only the sign of the result is specified;
    characters compare as unsigned bytes and a proper prefix is smaller. *)
Fixpoint ds_str_cmp (a b : string) : Z :=
  match a, b with
  | EmptyString, EmptyString => 0
  | EmptyString, String _ _ => -1
  | String _ _, EmptyString => 1
  | String c a, String d b =>
      if bool_decide (c = d) then ds_str_cmp a b
      else Z.of_nat (Ascii.nat_of_ascii c) - Z.of_nat (Ascii.nat_of_ascii d)
  end%Z.
