(* ===== verification/DsTreeRep.v ===== *)
(** Trees and zippers represented in the node store of [DsTree]. *)
From S2P Require Import Prelude DsTree.

Section rep.
Context {K : Type}.
Implicit Types (h : gmap positive (ds_tree_node K)) (s : ds_tree K).

(** The shape of a tree: colours, node addresses and keys. *)
Inductive tree := E | T (c : color) (l : tree) (n : positive) (k : K) (r : tree).

(** A step of the path from a subtree to the root: the direction taken at node
    [n] and the subtree on the other side. *)
Inductive frame := Fr (d : bool) (c : color) (n : positive) (k : K) (sib : tree).

(** The tree with root [n] that has [x] as its child [d] and [y] as the other. *)
Definition tn (d : bool) (c : color) (x : tree) (n : positive) (k : K) (y : tree) : tree :=
  if d then T c y n k x else T c x n k y.

Definition plug1 (f : frame) (t : tree) : tree :=
  match f with Fr d c n k sib => tn d c t n k sib end.
Fixpoint plug (C : list frame) (t : tree) : tree :=
  match C with [] => t | f :: C => plug C (plug1 f t) end.

Definition ptr_of (t : tree) : option positive :=
  match t with E => None | T _ _ n _ _ => Some n end.
Definition parent_of (C : list frame) : option positive :=
  match C with [] => None | Fr _ _ n _ _ :: _ => Some n end.
Definition tcolor (t : tree) : color :=
  match t with E => OTN_PROP_BLACK | T c _ _ _ _ => c end.

(** The node addresses of a tree, in order; those of a context. *)
Fixpoint locs (t : tree) : list positive :=
  match t with E => [] | T _ l n _ r => locs l ++ n :: locs r end.
Fixpoint locs_ctx (C : list frame) : list positive :=
  match C with [] => [] | Fr _ _ n _ sib :: C => n :: locs sib ++ locs_ctx C end.

(** The entries of a tree, in order. *)
Fixpoint inorder (t : tree) : list (positive * K) :=
  match t with E => [] | T _ l n k r => inorder l ++ (n, k) :: inorder r end.
Fixpoint tsize (t : tree) : nat :=
  match t with E => 0 | T _ l _ _ r => S (tsize l + tsize r) end.

(** The store holds the tree [t] below the parent [par]. *)
Fixpoint rep h (par : option positive) (t : tree) : Prop :=
  match t with
  | E => True
  | T c l n k r =>
      h !! n = Some (Node k c par (ptr_of l) (ptr_of r)) ∧
      rep h (Some n) l ∧ rep h (Some n) r
  end.

Definition fnode (d : bool) (c : color) (k : K) (par q sib : option positive) : ds_tree_node K :=
  if d then Node k c par sib q else Node k c par q sib.

(** The store holds the path [C] above a subtree whose root pointer is [q]. *)
Fixpoint rep_ctx h (q : option positive) (C : list frame) : Prop :=
  match C with
  | [] => True
  | Fr d c n k sib :: C =>
      h !! n = Some (fnode d c k (parent_of C) q (ptr_of sib)) ∧
      rep h (Some n) sib ∧ rep_ctx h (Some n) C
  end.
Fixpoint root_of (q : option positive) (C : list frame) : option positive :=
  match C with [] => q | Fr _ _ n _ _ :: C => root_of (Some n) C end.

(** The store holds the tree [plug C t], with all its nodes distinct; the rest
    of the memory is that of [F] and [nd] removals were made. *)
Record zip (F : gmap positive (ds_tree_node K)) (nd : Z) s (C : list frame) (t : tree) : Prop := Zip {
  zip_rep : rep (nodes s) (parent_of C) t;
  zip_ctx : rep_ctx (nodes s) (ptr_of t) C;
  zip_root : ot_root s = root_of (ptr_of t) C;
  zip_nodup : NoDup (locs t ++ locs_ctx C);
  zip_frame : ∀ l, l ∉ locs t → l ∉ locs_ctx C → nodes s !! l = F !! l;
  zip_ndel : ot_ndel s = nd }.

(** *** Structural lemmas *)

Lemma ptr_of_tn d c x n k y : ptr_of (tn d c x n k y) = Some n.
Proof. by destruct d. Qed.

Lemma tn_negb d c x n k y : tn (negb d) c x n k y = tn d c y n k x.
Proof. by destruct d. Qed.

Lemma locs_tn d c x n k y : locs (tn d c x n k y) ≡ₚ n :: locs x ++ locs y.
Proof. destruct d; simpl; solve_Permutation. Qed.

Lemma rep_tn h par d c x n k y :
  rep h par (tn d c x n k y) ↔
  h !! n = Some (fnode d c k par (ptr_of x) (ptr_of y)) ∧ rep h (Some n) x ∧ rep h (Some n) y.
Proof. destruct d; simpl; naive_solver. Qed.

Lemma rep_frame h h' par t :
  rep h par t → (∀ l, l ∈ locs t → h' !! l = h !! l) → rep h' par t.
Proof.
  revert par. induction t as [|c l IHl n k r IHr]; intros par; simpl; [done|].
  intros (Hn & Hl & Hr) Hf. rewrite Hf by set_solver.
  split_and!; [done|apply IHl|apply IHr]; set_solver.
Qed.

Lemma rep_ctx_frame h h' q C :
  rep_ctx h q C → (∀ l, l ∈ locs_ctx C → h' !! l = h !! l) → rep_ctx h' q C.
Proof.
  revert q. induction C as [|[d c n k sib] C IH]; intros q; simpl; [done|].
  intros (Hn & Hs & HC) Hf. rewrite Hf by set_solver.
  split_and!; [done|eapply rep_frame; [done|]|apply IH; [done|]]; set_solver.
Qed.

Lemma zip_cons F nd s C d c n k sib t :
  zip F nd s (Fr d c n k sib :: C) t ↔ zip F nd s C (tn d c t n k sib).
Proof.
  assert (locs t ++ n :: locs sib ++ locs_ctx C ≡ₚ
          locs (tn d c t n k sib) ++ locs_ctx C) as Hp.
  { rewrite locs_tn. solve_Permutation. }
  split; intros [Hr Hc Hroot Hnd Hf Hd]; split; simpl in *; try done.
  - apply rep_tn. naive_solver.
  - rewrite ptr_of_tn. naive_solver.
  - by rewrite ptr_of_tn.
  - by rewrite <- Hp.
  - intros l. rewrite locs_tn. set_solver.
  - apply rep_tn in Hr. naive_solver.
  - apply rep_tn in Hr. rewrite ptr_of_tn in Hc. naive_solver.
  - by rewrite ptr_of_tn in Hroot.
  - by rewrite Hp.
  - intros l. setoid_rewrite locs_tn in Hf. set_solver.
Qed.

Lemma zip_plug F nd s C t : zip F nd s C t ↔ zip F nd s [] (plug C t).
Proof.
  revert t. induction C as [|[d c n k sib] C IH]; intros t; [done|].
  by rewrite zip_cons, IH.
Qed.

Lemma locs_plug C t : locs (plug C t) ≡ₚ locs t ++ locs_ctx C.
Proof.
  revert t. induction C as [|[d c n k sib] C IH]; intros t; simpl; [by rewrite app_nil_r|].
  rewrite IH, locs_tn. solve_Permutation.
Qed.

Lemma plug_app C1 C2 t : plug (C1 ++ C2) t = plug C2 (plug C1 t).
Proof. revert t. induction C1; intros t; simpl; auto. Qed.

(** *** Node accesses *)

Lemma wp_load p n Q s : nodes s !! p = Some n → Q n s → wp (load p) Q s.
Proof. unfold wp, load. by intros -> ?. Qed.

Lemma wp_store p f n Q s :
  nodes s !! p = Some n → Q tt (with_nodes (<[p := f n]>) s) → wp (store p f) Q s.
Proof. intros Hp HQ. apply wp_bind. by eapply wp_load. Qed.

Lemma wp_rd_child p d n Q s : nodes s !! p = Some n → Q (otn_child n d) s → wp (rd_child p d) Q s.
Proof. intros Hp HQ. apply wp_bind. by eapply wp_load. Qed.
Lemma wp_rd_parent p n Q s : nodes s !! p = Some n → Q (otn_parent n) s → wp (rd_parent p) Q s.
Proof. intros Hp HQ. apply wp_bind. by eapply wp_load. Qed.
Lemma wp_rd_prop p n Q s : nodes s !! p = Some n → Q (otn_prop n) s → wp (rd_prop p) Q s.
Proof. intros Hp HQ. apply wp_bind. by eapply wp_load. Qed.
Lemma wp_rd_key p n Q s : nodes s !! p = Some n → Q (otn_key n) s → wp (rd_key p) Q s.
Proof. intros Hp HQ. apply wp_bind. by eapply wp_load. Qed.
Lemma wp_rd_root Q s : Q (ot_root s) s → wp (rd_root) Q s.
Proof. done. Qed.

(** *** The node of a frame *)

Lemma otn_child_fnode d c k par q sib : otn_child (fnode d c k par q sib) d = q.
Proof. by destruct d. Qed.
Lemma otn_child_fnode_negb d c k par q sib : otn_child (fnode d c k par q sib) (negb d) = sib.
Proof. by destruct d. Qed.
Lemma otn_parent_fnode d c k par q sib : otn_parent (fnode d c k par q sib) = par.
Proof. by destruct d. Qed.
Lemma otn_prop_fnode d c k par q sib : otn_prop (fnode d c k par q sib) = c.
Proof. by destruct d. Qed.
Lemma otn_key_fnode d c k par q sib : otn_key (fnode d c k par q sib) = k.
Proof. by destruct d. Qed.
Lemma set_child_fnode d c k par q sib q' :
  set_child d q' (fnode d c k par q sib) = fnode d c k par q' sib.
Proof. by destruct d. Qed.
Lemma set_child_fnode_negb d c k par q sib q' :
  set_child (negb d) q' (fnode d c k par q sib) = fnode d c k par q q'.
Proof. by destruct d. Qed.
Lemma set_parent_fnode d c k par q sib par' :
  set_parent par' (fnode d c k par q sib) = fnode d c k par' q sib.
Proof. by destruct d. Qed.
Lemma set_prop_fnode d c k par q sib c' :
  set_prop c' (fnode d c k par q sib) = fnode d c' k par q sib.
Proof. by destruct d. Qed.

(** The test [node == parent->otn_child[1]] recovers the direction. *)
Lemma child_dir_fnode d c k par n sib :
  sib ≠ Some n →
  bool_decide (Some n = otn_child (fnode d c k par (Some n) sib) true) = d.
Proof.
  intros Hne. destruct d; unfold otn_child; simpl; [by apply bool_decide_eq_true_2|].
  apply bool_decide_eq_false_2. congruence.
Qed.

End rep.
Arguments fnode : simpl never.
Arguments tree : clear implicits.
Arguments frame : clear implicits.

#[export] Hint Rewrite @otn_child_fnode @otn_child_fnode_negb @otn_parent_fnode @otn_prop_fnode
  @otn_key_fnode @set_child_fnode @set_child_fnode_negb @set_parent_fnode @set_prop_fnode
  @ptr_of_tn : fnode.

(** ** Symbolic execution *)

(** Two addresses, or an address and a subtree, are apart. *)
Ltac apart :=
  solve
  [ assumption
  | match goal with
    | H : ?x ≠ ?y |- ?y ≠ ?x => exact (not_eq_sym H)
    | H : ?l ∈ ?X, H' : ?y ∉ ?X |- ?l ≠ ?y => intros ->; exact (H' H)
    | H : ?l ∈ ?X, H' : ?y ∉ ?X |- ?y ≠ ?l => intros ->; exact (H' H)
    | H : ?l ∈ ?X, H' : ?X ## ?Y |- ?l ∉ ?Y => exact (H' l H)
    | H : ?l ∈ ?X, H' : ?Y ## ?X |- ?l ∉ ?Y => exact (λ H'', H' l H'' H)
    end ].

(** Lookups in a store after updates at addresses known to be distinct. *)
Ltac lk :=
  simpl; repeat first
    [ rewrite lookup_insert_eq
    | rewrite lookup_insert_ne by apart
    | match goal with
      | H : ∀ l, l ∉ _ → nodes ?s !! l = _ |- context [nodes ?s !! _] =>
          rewrite H by apart
      end ];
  try done; try eassumption.

(** A subtree is untouched by such updates. *)
Ltac frame H := eapply rep_frame; [exact H | intros; lk].

(** One command of a tree program. *)
Ltac wp_step :=
  lazymatch goal with
  | |- wp (mbind _ _) _ _ => apply wp_bind
  | |- wp (rd_child _ _) _ _ => eapply wp_rd_child; [solve [lk]|]
  | |- wp (rd_parent _) _ _ => eapply wp_rd_parent; [solve [lk]|]
  | |- wp (rd_prop _) _ _ => eapply wp_rd_prop; [solve [lk]|]
  | |- wp (rd_key _) _ _ => eapply wp_rd_key; [solve [lk]|]
  | |- wp (store _ _) _ _ => eapply wp_store; [solve [lk]|]
  | |- wp rd_root _ _ => apply wp_rd_root
  | |- wp (deref _) _ _ => eapply wp_deref; [done|]
  | |- wp (modify _) _ _ => apply wp_modify
  | |- wp (gets _) _ _ => apply wp_gets
  | |- wp (mret _) _ _ => apply wp_ret
  end; cbn beta; autorewrite with fnode; simpl.

Section specs.
Context {K : Type}.
Implicit Types (h F : gmap positive (ds_tree_node K)) (s : ds_tree K) (t A B D : tree K)
  (C : list (frame K)).

Lemma ptr_of_elem t n : ptr_of t = Some n → n ∈ locs t.
Proof. destruct t; simpl; [done|]. intros [= ->]. set_solver. Qed.

Lemma rep_set_parent h par par' t :
  rep h par t → NoDup (locs t) →
  match t with
  | E => True
  | T c l n k r => rep (<[n := Node k c par' (ptr_of l) (ptr_of r)]> h) par' t
  end.
Proof.
  destruct t as [|c l n k r]; simpl; [done|]. intros (Hn & Hl & Hr) Hnd.
  rewrite lookup_insert_eq.
  apply NoDup_app in Hnd as (_ & Hd & [Hnr _]%NoDup_cons).
  split_and!; [done| |]; (eapply rep_frame; [done|]); intros x Hx;
    rewrite lookup_insert_ne; set_solver.
Qed.

(** Two stores agree outside a set of addresses and on the removal counter. *)
Definition agree s s' (X : list positive) : Prop :=
  (∀ l, l ∉ X → nodes s' !! l = nodes s !! l) ∧ ot_ndel s' = ot_ndel s.

(** Pointing the root of a subtree to another parent. *)
Lemma wp_reparent s par par' t Q :
  rep (nodes s) par t → NoDup (locs t) →
  (∀ s', rep (nodes s') par' t → agree s s' (locs t) → ot_root s' = ot_root s → Q tt s') →
  wp (when_ptr (ptr_of t) (λ x, store x (set_parent par'))) Q s.
Proof.
  intros Hr Hnd HQ. pose proof (rep_set_parent _ par par' t Hr Hnd) as Hp.
  destruct t as [|c l n k r]; simpl; [by apply HQ|]. simpl in Hr. destruct Hr as (Hn & _ & _).
  eapply wp_store; [done|]. apply HQ; [done| |done].
  split; [|done]. intros l' Hl'. simpl. rewrite lookup_insert_ne; set_solver.
Qed.

(** Replacing the child [old] of the node above by [new]. *)
Lemma wp_relink s C old new Q :
  rep_ctx (nodes s) (Some old) C → NoDup (locs_ctx C) → old ∉ locs_ctx C →
  ot_root s = root_of (Some old) C →
  (∀ s', rep_ctx (nodes s') new C → agree s s' (locs_ctx C) → ot_root s' = root_of new C → Q tt s') →
  wp (match parent_of C with
      | None => modify (with_root new)
      | Some p =>
          pc ← rd_child p true;
          store p (set_child (bool_decide (Some old = pc)) new)
      end) Q s.
Proof.
  intros Hc Hnd Hold Hroot HQ. destruct C as [|[d c n k sib] C]; simpl in *.
  { apply wp_modify. by apply HQ. }
  destruct Hc as (Hn & Hs & Hc). repeat wp_step.
  rewrite child_dir_fnode by (intros ?%ptr_of_elem; set_solver).
  rewrite set_child_fnode. apply NoDup_cons in Hnd as [? ?].
  apply HQ; [|split; [|done]|done]; simpl.
  - rewrite lookup_insert_eq. split_and!; [done|eapply rep_frame|eapply rep_ctx_frame];
      try done; intros; rewrite lookup_insert_ne; set_solver.
  - intros l Hl. rewrite lookup_insert_ne; set_solver.
Qed.


Lemma ds_bst_rotate_spec F nd s C d c c2 A save ks B node kn D Q :
  zip F nd s C (tn d c (tn d c2 A save ks B) node kn D) →
  (∀ s', zip F nd s' C (tn d c2 A save ks (tn d c B node kn D)) → Q save s') →
  wp (ds_bst_rotate node d) Q s.
Proof.
  intros [Hr Hc Hroot Hnd Hf Hdel] HQ.
  setoid_rewrite locs_tn in Hf. setoid_rewrite locs_tn in Hf.
  rewrite !locs_tn in Hnd. rewrite ptr_of_tn in Hc, Hroot.
  apply rep_tn in Hr as (Hn & (Hs & HA & HB)%rep_tn & HD). rewrite ptr_of_tn in Hn.
  assert (node ≠ save ∧ (node ∉ locs A) ∧ (node ∉ locs B) ∧ (node ∉ locs D) ∧
    (node ∉ locs_ctx C) ∧ (save ∉ locs A) ∧ (save ∉ locs B) ∧ (save ∉ locs D) ∧
    (save ∉ locs_ctx C) ∧ NoDup (locs B) ∧ NoDup (locs_ctx C) ∧ locs B ## locs A ∧
    locs B ## locs D ∧ locs B ## locs_ctx C ∧ locs_ctx C ## locs A ∧ locs_ctx C ## locs D) as Hd.
  { simpl in Hnd. rewrite <- !app_assoc in Hnd.
    rewrite !NoDup_cons, !NoDup_app in Hnd. set_solver. }
  destruct_and! Hd. unfold ds_bst_rotate. repeat wp_step.
  eapply (wp_reparent _ (Some save)); [simpl; frame HB|done|].
  intros s1 HB1 [Hag1 Hd1] Hr1. simpl in *. repeat wp_step.
  eapply (wp_relink _ C node (Some save)); simpl; [|done|done|congruence|].
  { eapply rep_ctx_frame; [done|]. intros; lk. }
  intros s2 HC2 [Hag2 Hd2] Hr2. simpl in *. wp_step. apply HQ. split; [..|congruence].
  - apply rep_tn. rewrite ptr_of_tn. split_and!; [lk|frame HA|].
    apply rep_tn. split_and!; [lk|frame HB1|frame HD].
  - by rewrite ptr_of_tn.
  - by rewrite ptr_of_tn.
  - rewrite !locs_tn. revert Hnd. clear. intros Hnd.
    assert (∀ a b (x y z w : list positive),
      (a :: x ++ b :: y ++ z) ++ w ≡ₚ (b :: (a :: x ++ y) ++ z) ++ w) as ->;
      [intros; solve_Permutation|done].
  - intros l Hl1 Hl2. rewrite !locs_tn in Hl1.
    assert (l ≠ node ∧ l ≠ save ∧ (l ∉ locs A) ∧ (l ∉ locs B) ∧ (l ∉ locs D)) as Hne by set_solver.
    destruct_and! Hne. lk. apply Hf; set_solver.
Qed.

(** The focus is a node of the store. *)
Lemma zip_lookup F nd s C d c x n k y :
  zip F nd s C (tn d c x n k y) →
  nodes s !! n = Some (fnode d c k (parent_of C) (ptr_of x) (ptr_of y)).
Proof. intros [(Hn & _)%rep_tn _ _ _ _ _]. done. Qed.

(** So is the node above the focus. *)
Lemma zip_lookup_ctx F nd s C d c n k sib t :
  zip F nd s (Fr d c n k sib :: C) t →
  nodes s !! n = Some (fnode d c k (parent_of C) (ptr_of t) (ptr_of sib)).
Proof. rewrite zip_cons. apply zip_lookup. Qed.

(** Painting the focus. *)
Lemma wp_paint F nd s C d c c' x n k y Q :
  zip F nd s C (tn d c x n k y) →
  (∀ s', zip F nd s' C (tn d c' x n k y) → Q tt s') →
  wp (store n (set_prop c')) Q s.
Proof.
  intros Hz HQ. pose proof (zip_lookup _ _ _ _ _ _ _ _ _ _ Hz) as Hn.
  destruct Hz as [(_ & Hx & Hy)%rep_tn Hc Hroot Hnd Hf Hdel].
  rewrite ptr_of_tn in Hc, Hroot. rewrite locs_tn in Hnd. setoid_rewrite locs_tn in Hf.
  assert ((n ∉ locs x) ∧ (n ∉ locs y) ∧ (n ∉ locs_ctx C)) as Hd.
  { simpl in Hnd. apply NoDup_cons in Hnd. set_solver. }
  destruct_and! Hd. repeat wp_step. apply HQ. split; simpl; try done.
  - apply rep_tn. split_and!; [lk|frame Hx|frame Hy].
  - rewrite ptr_of_tn. eapply rep_ctx_frame; [done|]. intros; lk.
  - by rewrite ptr_of_tn.
  - by rewrite locs_tn.
  - intros l. rewrite locs_tn. intros Hl1 Hl2.
    rewrite lookup_insert_ne by set_solver. by apply Hf.
Qed.

(** Reading the colour of a subtree. *)
Lemma wp_is_red s par t Q :
  rep (nodes s) par t → Q (bool_decide (tcolor t = OTN_PROP_RED)) s →
  wp (OTN_IS_RED (ptr_of t)) Q s.
Proof.
  destruct t as [|c l n k r]; simpl; [by intros _ ?; apply wp_ret|].
  intros (Hn & _) HQ. repeat wp_step. done.
Qed.

(** [ds_rbt_rotate]: the rotation, with the new root black above the old red one. *)
Lemma ds_rbt_rotate_spec F nd s C d c c2 A save ks B node kn D Q :
  zip F nd s C (tn d c (tn d c2 A save ks B) node kn D) →
  (∀ s', zip F nd s' C (tn d OTN_PROP_BLACK A save ks (tn d OTN_PROP_RED B node kn D)) → Q save s') →
  wp (ds_rbt_rotate node d) Q s.
Proof.
  intros Hz HQ. unfold ds_rbt_rotate. wp_seq.
  eapply ds_bst_rotate_spec; [done|]. intros s1 Hz1. wp_seq.
  rewrite <- (negb_involutive d) in Hz1 at 1. rewrite tn_negb, <- zip_cons in Hz1.
  eapply (wp_paint F nd _ _ d); [done|]. intros s2 Hz2. wp_seq.
  rewrite zip_cons, <- tn_negb, negb_involutive in Hz2.
  eapply (wp_paint F nd _ _ d); [done|]. intros s3 Hz3. by apply wp_ret, HQ.
Qed.

(** [ds_rbt_rotate_double]: the inner grandchild becomes the root. *)
Lemma ds_rbt_rotate_double_spec F nd s C d c c2 c3 Y1 b kb Y2 p kp A node kn D Q :
  zip F nd s C (tn d c (tn (negb d) c2 (tn (negb d) c3 Y1 b kb Y2) p kp A) node kn D) →
  (∀ s', zip F nd s' C (tn d OTN_PROP_BLACK (tn (negb d) OTN_PROP_RED Y2 p kp A) b kb
                           (tn d OTN_PROP_RED Y1 node kn D)) → Q b s') →
  wp (ds_rbt_rotate_double node d) Q s.
Proof.
  intros Hz HQ. unfold ds_rbt_rotate_double.
  pose proof (zip_lookup _ _ _ _ _ _ _ _ _ _ Hz) as Hn. rewrite ptr_of_tn in Hn.
  repeat wp_step. rewrite <- zip_cons in Hz.
  eapply ds_rbt_rotate_spec; [done|]. intros s1 Hz1.
  rewrite zip_cons, (tn_negb d _ Y1) in Hz1.
  eapply ds_rbt_rotate_spec; [done|]. done.
Qed.
End specs.
