(* ===== verification/DsTreeInv.v ===== *)
(** The red-black invariant and the order of the entries, on shapes. *)
From Stdlib Require Import Sorting.Sorted.
From S2P Require Import Prelude DsTree DsTreeRep.

Abbreviation RED := OTN_PROP_RED.
Abbreviation BLACK := OTN_PROP_BLACK.

Section inv.
Context {K : Type}.
Implicit Types (t x y A B : tree K) (C : list (frame K)).

(** [rb t m]: no red node has a red child and every path down from the root of
    [t] has [m] black nodes. *)
Inductive rb : tree K → nat → Prop :=
| rb_E : rb E 0
| rb_R l n k r m :
    rb l m → rb r m → tcolor l = BLACK → tcolor r = BLACK → rb (T RED l n k r) m
| rb_B l n k r m : rb l m → rb r m → rb (T BLACK l n k r) (S m).

(** A path that accepts a subtree of colour [c] and black height [m]. *)
Fixpoint rbc C (c : color) (m : nat) : Prop :=
  match C with
  | [] => True
  | Fr _ RED _ _ sib :: C => c = BLACK ∧ rb sib m ∧ tcolor sib = BLACK ∧ rbc C RED m
  | Fr _ BLACK _ _ sib :: C => rb sib m ∧ rbc C BLACK (S m)
  end.

(** The invariant of the data structure: a red-black tree with a black root. *)
Definition rbtree (t : tree K) : Prop := tcolor t = BLACK ∧ ∃ m, rb t m.

Lemma rb_tn_red d x n k y m :
  rb (tn d RED x n k y) m ↔ rb x m ∧ rb y m ∧ tcolor x = BLACK ∧ tcolor y = BLACK.
Proof.
  split.
  - intros H. destruct d; inversion H; subst; done.
  - intros (?&?&?&?). destruct d; by apply rb_R.
Qed.
Lemma rb_tn_black d x n k y m :
  rb (tn d BLACK x n k y) m ↔ ∃ m', m = S m' ∧ rb x m' ∧ rb y m'.
Proof.
  split.
  - intros H. destruct d; inversion H; subst; eauto.
  - intros (m'&->&?&?). destruct d; by apply rb_B.
Qed.
Lemma tcolor_tn d c x n k y : tcolor (tn d c x n k y) = c.
Proof. by destruct d. Qed.

(** A path that accepts a red subtree accepts a black one. *)
Lemma rbc_black C c m : rbc C c m → rbc C BLACK m.
Proof. destruct C as [|[d [] n k sib] C]; simpl; naive_solver. Qed.

Lemma rb_plug C t m : rb t m → rbc C (tcolor t) m → ∃ m', rb (plug C t) m'.
Proof.
  revert t m. induction C as [|[d [] n k sib] C IH]; intros t m Ht HC; simpl in *; [eauto| |].
  - destruct HC as (Hc & Hs & Hsc & HC). eapply IH; [by apply rb_tn_red|]. by rewrite tcolor_tn.
  - destruct HC as (Hs & HC). eapply IH; [apply rb_tn_black; eauto|]. by rewrite tcolor_tn.
Qed.

Lemma rb_unplug C t m : rb (plug C t) m → ∃ m', rb t m' ∧ rbc C (tcolor t) m'.
Proof.
  revert t. induction C as [|[d [] n k sib] C IH]; intros t H; simpl in *; [eauto| |].
  - apply IH in H as (m' & H%rb_tn_red & HC). rewrite tcolor_tn in HC. naive_solver.
  - apply IH in H as (m' & (m''&->&?&?)%rb_tn_black & HC). rewrite tcolor_tn in HC. naive_solver.
Qed.

(** Blackening the root keeps the heights equal. *)
Lemma rb_blacken d c x n k y m : rb (tn d c x n k y) m → ∃ m', rb (tn d BLACK x n k y) m'.
Proof.
  destruct c; [|eauto]. rewrite rb_tn_red. intros (?&?&?&?). exists (S m).
  apply rb_tn_black. eauto.
Qed.

(** *** The entries of a context *)

Fixpoint lft C : list (positive * K) :=
  match C with
  | [] => []
  | Fr d _ n k sib :: C => if d then lft C ++ inorder sib ++ [(n, k)] else lft C
  end.
Fixpoint rgt C : list (positive * K) :=
  match C with
  | [] => []
  | Fr d _ n k sib :: C => if d then rgt C else (n, k) :: inorder sib ++ rgt C
  end.

Lemma inorder_plug C t : inorder (plug C t) = lft C ++ inorder t ++ rgt C.
Proof.
  revert t. induction C as [|[[] c n k sib] C IH]; intros t; simpl.
  - by rewrite app_nil_r.
  - rewrite IH. simpl. by rewrite <- !app_assoc.
  - rewrite IH. simpl. by rewrite <- !app_assoc.
Qed.

(** Repainting and rotating keep the entries. *)
Lemma inorder_paint d c c' x n k y : inorder (tn d c x n k y) = inorder (tn d c' x n k y).
Proof. by destruct d. Qed.
Lemma inorder_rotate d c c2 c' c2' A s ks B n kn D :
  inorder (tn d c (tn d c2 A s ks B) n kn D) = inorder (tn d c' A s ks (tn d c2' B n kn D)).
Proof. destruct d; simpl; by rewrite <- ?app_assoc. Qed.
Lemma inorder_tn_ext d c c' x x' n k y y' :
  inorder x = inorder x' → inorder y = inorder y' →
  inorder (tn d c x n k y) = inorder (tn d c' x' n k y').
Proof. destruct d; simpl; congruence. Qed.
Lemma inorder_rotate_double d c c2 c3 c' c2' c3' Y1 b kb Y2 p kp A n kn D :
  inorder (tn d c (tn (negb d) c2 (tn (negb d) c3 Y1 b kb Y2) p kp A) n kn D) =
  inorder (tn d c' (tn (negb d) c2' Y2 p kp A) b kb (tn d c3' Y1 n kn D)).
Proof. destruct d; simpl; rewrite <- ?app_assoc; simpl; by rewrite <- ?app_assoc. Qed.
Lemma inorder_plug_ext C t t' :
  inorder t = inorder t' → inorder (plug C t) = inorder (plug C t').
Proof. rewrite !inorder_plug. congruence. Qed.

Lemma locs_inorder t : locs t = (inorder t).*1.
Proof. induction t as [|c l IHl n k r IHr]; simpl; [done|]. by rewrite fmap_app, IHl, IHr. Qed.
Lemma length_locs t : length (locs t) = tsize t.
Proof. induction t; simpl; [done|]. rewrite length_app. simpl. lia. Qed.
Lemma length_inorder t : length (inorder t) = tsize t.
Proof. rewrite <- length_locs, locs_inorder. by rewrite length_fmap. Qed.

(** All the nodes of a represented tree are in the store, so loops over it
    need no more fuel than the store has nodes. *)
Lemma rep_dom h par t l : rep h par t → l ∈ locs t → is_Some (h !! l).
Proof.
  revert par. induction t as [|c t1 IH1 n k t2 IH2]; intros par; simpl; [set_solver|].
  intros (Hn & H1 & H2). rewrite elem_of_app, elem_of_cons. naive_solver.
Qed.
Lemma zip_size F nd s t : zip F nd s [] t → tsize t ≤ size (nodes s).
Proof.
  intros [Hr _ _ Hnd _ _]. simpl in Hnd. rewrite app_nil_r in Hnd.
  rewrite <- length_locs, <- size_dom.
  rewrite <- (size_list_to_set (C := gset positive)) by done. apply subseteq_size.
  intros l. rewrite elem_of_list_to_set, elem_of_dom. eauto using rep_dom.
Qed.

(** *** The abstract value of a tree *)

(** [holds s L]: the store holds a well-formed red-black tree whose entries,
    in order, are [L]. *)
Definition holds (s : ds_tree K) (L : list (positive * K)) : Prop :=
  ∃ t, zip (nodes s) (ot_ndel s) s [] t ∧ rbtree t ∧ inorder t = L.

Lemma zip_holds F nd s t L :
  zip F nd s [] t → rbtree t → inorder t = L →
  holds s L ∧ ot_ndel s = nd ∧ (∀ l, l ∉ L.*1 → nodes s !! l = F !! l).
Proof.
  intros [? ? ? ? Hf ?] ? <-. split_and!; [|done|].
  - eexists. split_and!; [|done|done]. by split.
  - intros l. rewrite <- locs_inorder. intros Hl. apply Hf; [done|]. simpl. set_solver.
Qed.

Lemma holds_nodup s L : holds s L → NoDup L.*1.
Proof.
  intros (t & Hz & _ & <-). apply zip_nodup in Hz. simpl in Hz.
  by rewrite app_nil_r, locs_inorder in Hz.
Qed.
Lemma holds_dom s L l : holds s L → l ∈ L.*1 → is_Some (nodes s !! l).
Proof.
  intros (t & Hz & _ & <-). rewrite <- locs_inorder.
  eapply rep_dom. by apply zip_rep in Hz.
Qed.

(** *** Sorted entries *)

Section order.
Context (cmp : K → K → Z).

(** What a tree needs of its comparison function. *)
Class KeyOrder : Prop := {
  cmp_anti a b : (cmp a b < 0 ↔ 0 < cmp b a)%Z;
  cmp_trans a b c : (cmp a b ≤ 0 → cmp b c ≤ 0 → cmp a c ≤ 0)%Z }.

Definition entry_le (a b : positive * K) : Prop := (cmp a.2 b.2 ≤ 0)%Z.
(** Entries in the order of their keys. *)
Definition sorted : list (positive * K) → Prop := StronglySorted entry_le.

(** Where a new entry goes: before the first entry that is not smaller. *)
Fixpoint list_ins (n : positive) (key : K) (L : list (positive * K)) : list (positive * K) :=
  match L with
  | [] => [(n, key)]
  | (m, k) :: L' => if cmp_dir cmp k key then (m, k) :: list_ins n key L' else (n, key) :: L
  end.

Lemma sorted_app L1 L2 :
  sorted (L1 ++ L2) ↔ sorted L1 ∧ sorted L2 ∧ ∀ a b, a ∈ L1 → b ∈ L2 → entry_le a b.
Proof.
  unfold sorted. induction L1 as [|a L1 IH]; simpl.
  - split; [|tauto]. intros H. split_and!; [constructor|done|set_solver].
  - split.
    + intros [H1 H2]%StronglySorted_inv. apply IH in H1 as (?&?&?).
      apply Forall_app in H2 as [H2 H3]. rewrite Forall_forall in H3.
      split_and!; [by constructor|done|]. intros b c [->|?]%elem_of_cons; auto.
    + intros ([H1 H2]%StronglySorted_inv & H3 & H4). constructor.
      * apply IH. split_and!; [done|done|]. intros. apply H4; set_solver.
      * apply Forall_app. split; [done|]. apply Forall_forall. intros. apply H4; set_solver.
Qed.

Context {Hcmp : KeyOrder}.

Lemma cmp_refl a : cmp a a = 0%Z.
Proof. pose proof (cmp_anti a a). lia. Qed.
Lemma cmp_le_lt a b c : (cmp a b ≤ 0 → cmp b c < 0 → cmp a c < 0)%Z.
Proof.
  intros Hab Hbc. pose proof (cmp_trans b a c). pose proof (cmp_trans c a b).
  pose proof (cmp_anti a c). pose proof (cmp_anti c a). pose proof (cmp_anti b c). lia.
Qed.
Lemma cmp_lt_le a b c : (cmp a b < 0 → cmp b c ≤ 0 → cmp a c < 0)%Z.
Proof.
  intros Hab Hbc. pose proof (cmp_trans b c a).
  pose proof (cmp_anti a c). pose proof (cmp_anti c a). pose proof (cmp_anti a b). lia.
Qed.

Lemma list_ins_app n key L1 L2 :
  Forall (λ a, cmp_dir cmp a.2 key = true) L1 → Forall (λ a, cmp_dir cmp a.2 key = false) L2 →
  list_ins n key (L1 ++ L2) = L1 ++ (n, key) :: L2.
Proof.
  intros H1 H2. induction H1 as [|[m k] L1 Hk _ IH]; simpl in *.
  - destruct H2 as [|[m k] L2 Hk _]; simpl in *; [done|]. by rewrite Hk.
  - by rewrite Hk, IH.
Qed.

Lemma list_ins_perm n key L : list_ins n key L ≡ₚ (n, key) :: L.
Proof.
  induction L as [|[m k] L IH]; simpl; [done|]. destruct (cmp_dir _ _ _); [|done].
  rewrite IH. apply Permutation_swap.
Qed.

Lemma list_ins_sorted n key L : sorted L → sorted (list_ins n key L).
Proof.
  unfold sorted. induction 1 as [|[m k] L HL IH Hall]; simpl.
  - repeat constructor.
  - unfold cmp_dir in *. destruct (cmp k key <? 0)%Z eqn:E.
    + constructor; [done|]. rewrite list_ins_perm. constructor; [|done].
      unfold entry_le. simpl. lia.
    + assert (cmp key k ≤ 0)%Z by (pose proof (cmp_anti k key); pose proof (cmp_anti key k); lia).
      constructor; [by constructor|]. constructor; [done|].
      eapply Forall_impl; [done|]. intros [m' k'] Hk. unfold entry_le in *. simpl in *.
      by eapply cmp_trans.
Qed.
End order.
End inv.
Create HintDb rb.
#[export] Hint Constructors rb : rb.

(** *** Strings are ordered by [strcmp] *)

#[export] Instance ds_str_cmp_order : KeyOrder ds_str_cmp.
Proof.
  assert (∀ c d, Ascii.nat_of_ascii c = Ascii.nat_of_ascii d → c = d) as Hinj.
  { intros c d H. by rewrite <- (Ascii.ascii_nat_embedding c), H, Ascii.ascii_nat_embedding. }
  split.
  - intros a. induction a as [|c a IH]; intros [|d b]; simpl; [lia..|].
    case_bool_decide as Hc; case_bool_decide as Hd; [apply IH|congruence|congruence|lia].
  - intros a. induction a as [|c a IH]; intros [|d b] [|e z]; simpl; try lia.
    do 3 case_bool_decide; subst; try done; try lia; [apply IH|].
    assert (Ascii.nat_of_ascii d ≠ Ascii.nat_of_ascii e) by naive_solver. lia.
Qed.
