(* ===== verification/DsTreeInsert.v ===== *)
(** Insertion: [ds_tree_node_insert] keeps the red-black invariant and puts the
    new entry at its place in the order. *)
From S2P Require Import Prelude DsTree DsTreeRep DsTreeInv.

Section insert.
Context {K : Type}.
Implicit Types (t x y A B U : tree K) (C : list (frame K)) (s : ds_tree K).

(** The root of a frame's sibling is another node than the focus. *)
Lemma zip_sib_ne F nd s C d c n k sib t q :
  zip F nd s (Fr d c n k sib :: C) t → ptr_of t = Some q → ptr_of sib ≠ Some q.
Proof.
  intros Hz Hq%ptr_of_elem Hs%ptr_of_elem. apply zip_nodup in Hz. simpl in Hz.
  apply NoDup_app in Hz as (_ & Hd & _). eapply Hd; [done|]. set_solver.
Qed.

Definition head_red C : bool :=
  match C with Fr _ RED _ _ _ :: _ => true | _ => false end.

(** No violation: nothing happens. *)
Lemma ds_tree_insert_rebalance_noop F nd s C c l n k r Q :
  zip F nd s C (T c l n k r) → c = BLACK ∨ head_red C = false → Q tt s →
  wp (ds_tree_insert_rebalance n) Q s.
Proof.
  intros Hz Hc HQ. unfold ds_tree_insert_rebalance. wp_seq.
  pose proof (zip_rep _ _ _ _ _ Hz) as Hrep. pose proof Hrep as (Hn & _ & _).
  eapply (wp_is_red _ _ (T c l n k r)); [done|]. wp_seq. wp_step. wp_seq.
  destruct C as [|[d c' p kp sib] C]; simpl.
  - wp_step. rewrite andb_false_r. by apply wp_ret.
  - apply zip_lookup_ctx in Hz. repeat wp_step.
    destruct Hc as [->|Hc]; [by apply wp_ret|].
    destruct c'; [done|]. rewrite andb_false_r. by apply wp_ret.
Qed.

(** A straight red branch: one rotation at the grandparent. *)
Lemma ds_tree_insert_rebalance_single F nd s C d cg g kg U p kp A l n k r Q :
  zip F nd s (Fr d RED p kp A :: Fr d cg g kg U :: C) (T RED l n k r) →
  (∀ s', zip F nd s' (Fr d BLACK p kp (tn d RED A g kg U) :: C) (T RED l n k r) → Q tt s') →
  wp (ds_tree_insert_rebalance n) Q s.
Proof.
  intros Hz HQ. unfold ds_tree_insert_rebalance. wp_seq.
  pose proof (zip_rep _ _ _ _ _ Hz) as Hrep. pose proof Hrep as (Hn & _ & _).
  eapply (wp_is_red _ _ (T RED l n k r)); [done|]. simpl in Hn.
  pose proof (zip_lookup_ctx _ _ _ _ _ _ _ _ _ _ Hz) as Hp.
  pose proof (zip_sib_ne _ _ _ _ _ _ _ _ _ _ n Hz eq_refl) as Hne.
  rewrite zip_cons in Hz. pose proof (zip_lookup_ctx _ _ _ _ _ _ _ _ _ _ Hz) as Hg.
  pose proof (zip_sib_ne _ _ _ _ _ _ _ _ _ _ p Hz (ptr_of_tn _ _ _ _ _ _)) as Hne2.
  rewrite ptr_of_tn in Hg. simpl in Hp. repeat wp_step.
  rewrite !child_dir_fnode by done. rewrite eqb_reflx.
  rewrite zip_cons in Hz. eapply ds_rbt_rotate_spec; [done|]. intros s' Hz'.
  apply wp_ret, HQ. by rewrite zip_cons.
Qed.

(** A twisted red branch: a double rotation. *)
Lemma ds_tree_insert_rebalance_double F nd s C d cg g kg U p kp A Y1 n k Y2 Q :
  zip F nd s (Fr (negb d) RED p kp A :: Fr d cg g kg U :: C) (tn (negb d) RED Y1 n k Y2) →
  (∀ s', zip F nd s' C (tn d BLACK (tn (negb d) RED Y2 p kp A) n k (tn d RED Y1 g kg U)) → Q tt s') →
  wp (ds_tree_insert_rebalance n) Q s.
Proof.
  intros Hz HQ. unfold ds_tree_insert_rebalance. wp_seq.
  pose proof (zip_rep _ _ _ _ _ Hz) as Hrep.
  rewrite <- (ptr_of_tn (negb d) RED Y1 n k Y2) at 1.
  eapply (wp_is_red _ _ _); [done|]. apply rep_tn in Hrep as (Hn & _ & _). simpl in Hn.
  pose proof (zip_lookup_ctx _ _ _ _ _ _ _ _ _ _ Hz) as Hp.
  pose proof (zip_sib_ne _ _ _ _ _ _ _ _ _ _ n Hz (ptr_of_tn _ _ _ _ _ _)) as Hne.
  rewrite zip_cons in Hz. pose proof (zip_lookup_ctx _ _ _ _ _ _ _ _ _ _ Hz) as Hg.
  pose proof (zip_sib_ne _ _ _ _ _ _ _ _ _ _ p Hz (ptr_of_tn _ _ _ _ _ _)) as Hne2.
  rewrite ptr_of_tn in Hg. rewrite ptr_of_tn in Hp. simpl in Hp. rewrite tcolor_tn. repeat wp_step.
  rewrite !child_dir_fnode by done. rewrite (eqb_negb2 d).
  rewrite zip_cons in Hz. eapply ds_rbt_rotate_double_spec; [done|]. intros s' Hz'.
  by apply wp_ret, HQ.
Qed.

(** The colour flip of the descent. *)
Lemma wp_flip F nd s C c c0 l0 n0 k0 r0 n k c1 l1 n1 k1 r1 Q :
  zip F nd s C (T c (T c0 l0 n0 k0 r0) n k (T c1 l1 n1 k1 r1)) →
  (∀ s', zip F nd s' C (T RED (T BLACK l0 n0 k0 r0) n k (T BLACK l1 n1 k1 r1)) → Q tt s') →
  wp (store n (set_prop RED);;
      l0 ← deref (Some n0); store l0 (set_prop BLACK);;
      l1 ← deref (Some n1); store l1 (set_prop BLACK)) Q s.
Proof.
  intros Hz HQ. wp_seq. eapply (wp_paint _ _ _ _ false); [done|]. intros s1 Hz1.
  repeat wp_step. rewrite <- (zip_cons _ _ _ _ false) in Hz1.
  eapply (wp_paint _ _ _ _ false); [done|]. intros s2 Hz2. rewrite zip_cons in Hz2.
  repeat wp_step. rewrite <- (tn_negb false), <- zip_cons in Hz2. simpl in Hz2.
  eapply (wp_paint _ _ _ _ false); [done|]. intros s3 Hz3. rewrite zip_cons in Hz3.
  by apply HQ.
Qed.

(** *** The descent *)

Section descent.
Context (cmp : K → K → Z) (key : K).

(** Every step of the path goes to the side of [key]. *)
Definition route C : Prop := Forall (λ '(Fr d _ _ k _), d = cmp_dir cmp k key) C.

(** A black node with two black children: the descent passes it unchanged. *)
Definition calm t : Prop :=
  match t with E => False | T c l _ _ r => c = BLACK ∧ tcolor l = BLACK ∧ tcolor r = BLACK end.

(** The loop invariant of the descent at a node with colour [c] whose child on
    the side of [key] is [x] and whose other child is [y].  Only the root may be
    red under no parent.  When the node is red, a red child would be repaired
    by a rotation at its parent, whose other child is black; when its parent is
    red, the node is not flipped or the same holds one level up. *)
Record ins_inv C (c : color) x (n : positive) (k : K) y (m : nat) : Prop := {
  ii_rb : rb (tn (cmp_dir cmp k key) c x n k y) m;
  ii_rbc : rbc C c m;
  ii_route : route C;
  ii_red : c = RED →
    match C with Fr _ _ _ _ sib :: _ => tcolor sib = BLACK | [] => False end ∨ calm x;
  ii_above : head_red C = true →
    (tcolor x = BLACK ∧ tcolor y = BLACK) ∨
    match C with
    | _ :: Fr _ BLACK _ _ sib :: _ => tcolor sib = BLACK
    | _ => False
    end }.

(** The number of turns left: a double rotation costs one more. *)
Definition ins_measure x y : nat :=
  2 * tsize x + if bool_decide (tcolor x = RED ∧ tcolor y = RED) then 1 else 0.

(** [next_ok C c x n k y M]: after a turn at [n], the next node [x] again
    satisfies the invariant, with a measure below [M]. *)
Definition next_ok C c x n k y (M : nat) : Prop :=
  ∃ c2 x2 n2 k2 y2 m2,
    x = tn (cmp_dir cmp k2 key) c2 x2 n2 k2 y2 ∧
    ins_inv (Fr (cmp_dir cmp k key) c n k y :: C) c2 x2 n2 k2 y2 m2 ∧
    ins_measure x2 y2 < M.

(** Any node can be seen from the side of [key]. *)
Lemma tree_tn t : t ≠ E → ∃ c x n k y, t = tn (cmp_dir cmp k key) c x n k y.
Proof.
  destruct t as [|c l n k r]; [done|]. intros _. destruct (cmp_dir cmp k key) eqn:E.
  - exists c, r, n, k, l. by rewrite E.
  - exists c, l, n, k, r. by rewrite E.
Qed.

Lemma tsize_tn d c x n k y : tsize (tn d c x n k y) = S (tsize x + tsize y).
Proof. destruct d; simpl; lia. Qed.

Lemma ins_measure_le x y : ins_measure x y ≤ 2 * tsize x + 1.
Proof. unfold ins_measure. case_bool_decide; lia. Qed.

(** Descending without a flip. *)
Lemma next_ok_plain C c x n k y m :
  ins_inv C c x n k y m → x ≠ E → ¬ (tcolor x = RED ∧ tcolor y = RED) →
  next_ok C c x n k y (ins_measure x y).
Proof.
  intros [Hrb Hrbc Hroute Hred Habove] Hx Hflip.
  destruct (tree_tn x Hx) as (c2&x2&n2&k2&y2&->). rewrite tcolor_tn in Hflip.
  assert (ins_measure x2 y2 < ins_measure (tn (cmp_dir cmp k2 key) c2 x2 n2 k2 y2) y).
  { pose proof (ins_measure_le x2 y2). unfold ins_measure at 2. rewrite tsize_tn. lia. }
  destruct c.
  - (* a red node *)
    apply rb_tn_red in Hrb as (Hrx & Hry & Hcx & Hcy). rewrite tcolor_tn in Hcx. subst c2.
    exists BLACK, x2, n2, k2, y2, m. split_and!; [done| |done]. split; simpl; try done.
    + by constructor.
    + intros _. destruct (Hred eq_refl) as [Hs|Hs].
      * right. destruct C as [|[? [] ? ? ?] ?]; [done| |done]. by destruct Hrbc.
      * left. by destruct (cmp_dir cmp k2 key), Hs as (_ & ? & ?).
  - (* a black node *)
    apply rb_tn_black in Hrb as (m' & -> & Hrx & Hry).
    exists c2, x2, n2, k2, y2, m'. split_and!; [done| |done]. split; simpl; try done.
    + by constructor.
    + intros ->. left. destruct (tcolor y) eqn:E; [|done]. exfalso. by apply Hflip.
Qed.

Definition blacken t : tree K :=
  match t with E => E | T _ l n k r => T BLACK l n k r end.

Lemma calm_blacken x m : rb x m → tcolor x = RED → calm (blacken x) ∧ rb (blacken x) (S m).
Proof. intros H. destruct H; simpl; [done| |done]. intros _. auto with rb. Qed.
Lemma calm_black x : calm x → tcolor x = BLACK.
Proof. by destruct x; [|intros [-> _]]. Qed.
Lemma tsize_blacken x : tsize (blacken x) = tsize x.
Proof. by destruct x. Qed.
Lemma blacken_tn d c x n k y : blacken (tn d c x n k y) = tn d BLACK x n k y.
Proof. by destruct d. Qed.
Lemma inorder_blacken x : inorder (blacken x) = inorder x.
Proof. by destruct x. Qed.

(** Descending to a calm node. *)
Lemma next_ok_calm C c x n k y m M :
  calm x → rb x m → rbc (Fr (cmp_dir cmp k key) c n k y :: C) BLACK m → route C →
  2 * tsize x ≤ M → next_ok C c x n k y M.
Proof.
  intros Hc Hrb Hrbc Hroute HM.
  destruct (tree_tn x ltac:(by destruct x)) as (c2&x2&n2&k2&y2&->).
  assert (c2 = BLACK ∧ tcolor x2 = BLACK ∧ tcolor y2 = BLACK) as (-> & Hx & Hy).
  { revert Hc. clear. by destruct (cmp_dir cmp k2 key); intros (?&?&?). }
  exists BLACK, x2, n2, k2, y2, m. split_and!; [done| |].
  - split; [done|done|by constructor|done|by left].
  - rewrite tsize_tn in HM. unfold ins_measure. rewrite Hx. simpl. lia.
Qed.

(** After a flip below a node that is not red. *)
Lemma next_ok_flip C x n k y m :
  ins_inv C BLACK x n k y m → tcolor x = RED → tcolor y = RED → head_red C = false →
  next_ok C RED (blacken x) n k (blacken y) (ins_measure x y).
Proof.
  intros [(m' & -> & Hx & Hy)%rb_tn_black Hrbc Hroute _ _] Hcx Hcy Hh.
  destruct (calm_blacken _ _ Hx Hcx), (calm_blacken _ _ Hy Hcy).
  apply (next_ok_calm _ _ _ _ _ _ (S m')); auto.
  - simpl. split_and!; auto using calm_black. by destruct C as [|[? [] ? ? ?] ?].
  - rewrite tsize_blacken. unfold ins_measure. lia.
Qed.

(** After a flip below a red node, when the branch is straight. *)
Lemma next_ok_single C d cg g kg U p kp A x n k y m :
  ins_inv (Fr d RED p kp A :: Fr d cg g kg U :: C) BLACK x n k y m →
  tcolor x = RED → tcolor y = RED →
  next_ok (Fr d BLACK p kp (tn d RED A g kg U) :: C) RED (blacken x) n k (blacken y)
    (ins_measure x y).
Proof.
  intros [(m' & -> & Hx & Hy)%rb_tn_black Hrbc Hroute _ Ha] Hcx Hcy.
  destruct (calm_blacken _ _ Hx Hcx), (calm_blacken _ _ Hy Hcy).
  destruct (Ha eq_refl) as [[? _]|Hu]; [congruence|]. destruct cg; [done|].
  destruct Hrbc as (_ & HA & HcA & (HU & HC)).
  apply (next_ok_calm _ _ _ _ _ _ (S m')); auto.
  - simpl. split_and!; auto using calm_black. by apply rb_tn_red.
  - apply Forall_cons in Hroute as [? [? ?]%Forall_cons]. by constructor.
  - rewrite tsize_blacken. unfold ins_measure. lia.
Qed.

(** The same when the branch is twisted: the next node is the old parent or the
    old grandparent. *)
Lemma next_ok_double C d cg g kg U p kp A x n k y m Y1 Y2 :
  ins_inv (Fr (negb d) RED p kp A :: Fr d cg g kg U :: C) BLACK x n k y m →
  tcolor x = RED → tcolor y = RED →
  tn (cmp_dir cmp k key) RED (blacken x) n k (blacken y) = tn (negb d) RED Y1 n k Y2 →
  ∃ x' y',
    tn d BLACK (tn (negb d) RED Y2 p kp A) n k (tn d RED Y1 g kg U) =
      tn (cmp_dir cmp k key) BLACK x' n k y' ∧
    next_ok C BLACK x' n k y' (ins_measure x y).
Proof.
  intros [(m' & -> & Hx & Hy)%rb_tn_black Hrbc Hroute _ Ha] Hcx Hcy Heq.
  destruct (calm_blacken _ _ Hx Hcx) as [Hbx Hrx], (calm_blacken _ _ Hy Hcy) as [Hby Hry].
  destruct (Ha eq_refl) as [[? _]|Hu]; [congruence|]. destruct cg; [done|].
  destruct Hrbc as (_ & HA & HcA & (HU & HC)).
  apply Forall_cons in Hroute as [Hp [Hg HrC]%Forall_cons].
  assert (ins_measure x y = 2 * tsize x + 1) as HM.
  { unfold ins_measure. rewrite Hcx, Hcy. done. }
  pose proof (tsize_blacken x) as Hsz.
  assert (∀ e A' q kq W, rb (blacken x) (S m') → rb A' (S m') → tcolor A' = BLACK →
    e = cmp_dir cmp kq key → rb W (S m') →
    next_ok C BLACK (tn e RED (blacken x) q kq A') n k W (ins_measure x y)) as Hnext.
  { intros e A' q kq W Hb HA' HcA' -> HW. exists RED, (blacken x), q, kq, A', (S m').
    split_and!; [done| |unfold ins_measure at 1; rewrite (calm_black _ Hbx); simpl; lia].
    split; simpl; try done; [apply rb_tn_red; auto using calm_black|by constructor|auto]. }
  destruct (decide (cmp_dir cmp k key = d)) as [<-|Hd].
  - rewrite tn_negb in Heq.
    assert (Y2 = blacken x ∧ Y1 = blacken y) as [-> ->]
      by (destruct (cmp_dir cmp k key); by injection Heq).
    eexists _, _. split; [done|]. apply Hnext; auto. apply rb_tn_red; auto using calm_black.
  - assert (cmp_dir cmp k key = negb d) as He by (by destruct d, (cmp_dir cmp k key)).
    rewrite He in Heq.
    assert (Y1 = blacken x ∧ Y2 = blacken y) as [-> ->] by (destruct d; by injection Heq).
    eexists _, _. split; [rewrite He; by rewrite (tn_negb d BLACK)|]. apply Hnext; auto.
    apply rb_tn_red; auto using calm_black.
Qed.

(** The repair after a flip, in all its cases. *)
Lemma ds_tree_insert_rebalance_flip F nd s C x n k y m Q :
  zip F nd s C (tn (cmp_dir cmp k key) RED (blacken x) n k (blacken y)) →
  ins_inv C BLACK x n k y m → tcolor x = RED → tcolor y = RED →
  (∀ s' C' c' x' y',
     zip F nd s' C' (tn (cmp_dir cmp k key) c' x' n k y') →
     next_ok C' c' x' n k y' (ins_measure x y) →
     inorder (plug C' (tn (cmp_dir cmp k key) c' x' n k y')) =
       inorder (plug C (tn (cmp_dir cmp k key) BLACK x n k y)) → Q tt s') →
  wp (ds_tree_insert_rebalance n) Q s.
Proof.
  intros Hz Hinv Hx Hy HQ.
  assert (∀ C, inorder (plug C (tn (cmp_dir cmp k key) RED (blacken x) n k (blacken y))) =
    inorder (plug C (tn (cmp_dir cmp k key) BLACK x n k y))) as Hino.
  { intros C'. apply inorder_plug_ext, inorder_tn_ext; apply inorder_blacken. }
  assert (∃ l r, tn (cmp_dir cmp k key) RED (blacken x) n k (blacken y) = T RED l n k r)
    as (l & r & Hlr) by (destruct (cmp_dir cmp k key); eexists _, _; done).
  destruct (head_red C) eqn:Hh.
  - destruct C as [|[dp [] p kp A] C]; try done.
    destruct (ii_above _ _ _ _ _ _ _ Hinv eq_refl) as [[? _]|Hu]; [congruence|].
    destruct C as [|[dg [] g kg U] C]; try done.
    destruct (decide (dp = dg)) as [->|Hne].
    + rewrite Hlr in Hz. eapply ds_tree_insert_rebalance_single; [done|].
      intros s' Hz'. rewrite <- Hlr in Hz'. eapply HQ; [done|by eapply next_ok_single|].
      rewrite <- (Hino (_ :: _ :: C)). cbn [plug plug1]. apply inorder_plug_ext. symmetry.
      apply inorder_rotate.
    + assert (dp = negb dg) as -> by (by destruct dp, dg).
      assert (∃ Y1 Y2, tn (cmp_dir cmp k key) RED (blacken x) n k (blacken y) =
        tn (negb dg) RED Y1 n k Y2) as (Y1 & Y2 & HY).
      { destruct dg, (cmp_dir cmp k key); eexists _, _; done. }
      destruct (next_ok_double _ _ _ _ _ _ _ _ _ _ _ _ _ _ Y1 Y2 Hinv Hx Hy HY) as (x' & y' & He & Hok).
      rewrite HY in Hz. eapply ds_tree_insert_rebalance_double; [done|]. intros s' Hz'.
      rewrite He in Hz'. eapply HQ; [done..|].
      rewrite <- (Hino (_ :: _ :: C)). rewrite <- He, HY. cbn [plug plug1].
      apply inorder_plug_ext. symmetry.
      apply inorder_rotate_double.
  - rewrite Hlr in Hz. eapply ds_tree_insert_rebalance_noop; [done|by right|].
    rewrite <- Hlr in Hz. eapply HQ; [done|by eapply next_ok_flip|apply Hino].
Qed.

(** One turn of the loop. *)
Lemma ds_tree_insert_visit_spec F nd s C c x n k y m Q :
  zip F nd s C (tn (cmp_dir cmp k key) c x n k y) →
  ins_inv C c x n k y m → x ≠ E →
  (∀ s' C' c' x' y',
     zip F nd s' C' (tn (cmp_dir cmp k key) c' x' n k y') →
     next_ok C' c' x' n k y' (ins_measure x y) →
     inorder (plug C' (tn (cmp_dir cmp k key) c' x' n k y')) =
       inorder (plug C (tn (cmp_dir cmp k key) c x n k y)) → Q tt s') →
  wp (ds_tree_insert_visit n) Q s.
Proof.
  intros Hz Hinv Hx HQ.
  assert (∃ l r, tn (cmp_dir cmp k key) c x n k y = T c l n k r ∧
    tn (cmp_dir cmp k key) RED (blacken x) n k (blacken y) = T RED (blacken l) n k (blacken r) ∧
    (tcolor l = RED ∧ tcolor r = RED ↔ tcolor x = RED ∧ tcolor y = RED)) as (l & r & Hlr & Hb & Hcol).
  { destruct (cmp_dir cmp k key); eexists _, _; split_and!; [done|done|tauto|done..]. }
  unfold ds_tree_insert_visit.
  pose proof Hz as Hz0. rewrite Hlr in Hz0.
  pose proof (zip_rep _ _ _ _ _ Hz0) as (Hn & Hl & Hr).
  do 4 wp_step. wp_seq. eapply wp_is_red; [done|]. wp_seq. eapply wp_is_red; [done|]. wp_seq.
  destruct (decide (tcolor l = RED ∧ tcolor r = RED)) as [[Hcl Hcr]|Hno].
  - rewrite !bool_decide_eq_true_2 by done. simpl.
    destruct Hcol as [Hcol _]. destruct Hcol as [Hcx Hcy]; [done|].
    assert (c = BLACK) as ->.
    { destruct c; [|done]. destruct Hinv as [(_&_&?&_)%rb_tn_red _ _ _ _]. congruence. }
    destruct l as [|c0 l0 n0 k0 r0]; [done|]. destruct r as [|c1 l1 n1 k1 r1]; [done|].
    eapply wp_flip; [done|]. intros s1 Hz1.
    change (T RED _ n k _) with (T RED (blacken (T c0 l0 n0 k0 r0)) n k (blacken (T c1 l1 n1 k1 r1))) in Hz1.
    rewrite <- Hb in Hz1. by eapply ds_tree_insert_rebalance_flip.
  - replace (_ && _) with false by (destruct (tcolor l), (tcolor r); naive_solver).
    apply wp_ret. eapply ds_tree_insert_rebalance_noop; [done| |].
    + destruct c; [|by left]. right. pose proof (ii_rbc _ _ _ _ _ _ _ Hinv) as HC.
      by destruct C as [|[? [] ? ? ?] ?]; [|destruct HC|].
    + eapply HQ; [done| |done]. eapply next_ok_plain; [done..|]. by rewrite <- Hcol.
Qed.

(** The loop reaches a node without a child on the side of [key]. *)
Lemma ds_tree_insert_descend_spec F nd fuel s C c x n k y m Q :
  zip F nd s C (tn (cmp_dir cmp k key) c x n k y) →
  ins_inv C c x n k y m → ins_measure x y < fuel →
  (∀ s' C' c' n' k' y' m',
     zip F nd s' C' (tn (cmp_dir cmp k' key) c' E n' k' y') →
     ins_inv C' c' E n' k' y' m' →
     inorder (plug C' (tn (cmp_dir cmp k' key) c' E n' k' y')) =
       inorder (plug C (tn (cmp_dir cmp k key) c x n k y)) →
     Q (n', cmp_dir cmp k' key) s') →
  wp (ds_tree_insert_descend cmp fuel key n (cmp_dir cmp k key)) Q s.
Proof.
  revert s C c x n k y m.
  induction fuel as [|fuel IH]; intros s C c x n k y m Hz Hinv Hfuel HQ; [lia|].
  pose proof (zip_lookup _ _ _ _ _ _ _ _ _ _ Hz) as Hn. simpl. repeat wp_step.
  destruct x as [|cx lx nx kx rx] eqn:Hx; simpl; [by apply wp_ret; eapply HQ|].
  rewrite <- Hx in *. wp_seq. eapply ds_tree_insert_visit_spec; [done..|by subst|].
  intros s' C' c' x' y' Hz' (c2&x2&n2&k2&y2&m2&->&Hinv2&HM) Hino.
  pose proof (zip_lookup _ _ _ _ _ _ _ _ _ _ Hz') as Hn'. rewrite ptr_of_tn in Hn'.
  rewrite <- zip_cons in Hz'. pose proof (zip_lookup _ _ _ _ _ _ _ _ _ _ Hz') as Hn2.
  repeat wp_step. eapply IH; [done|done|lia|].
  intros s'' C'' c'' n'' k'' y'' m'' Hz'' Hinv'' Hino''. eapply HQ; [done..|].
  by rewrite Hino'', <- Hino.
Qed.

(** *** Linking the new node *)

Lemma wp_attach {R} F nd s C d c n k y node (m : M (ds_tree K) R) Q :
  zip F nd s C (tn d c E n k y) →
  node ∉ locs (plug C (tn d c E n k y)) → F !! node = Some (Node key RED None None None) →
  (∀ s', zip F nd s' (Fr d c n k y :: C) (T RED E node key E) → wp m Q s') →
  wp (store n (set_child d (Some node));; store node (set_parent (Some n));; m) Q s.
Proof.
  intros Hz Hnode HF HQ.
  assert ((node ∉ locs (tn d c E n k y)) ∧ (node ∉ locs_ctx C)) as [Hn1 Hn2].
  { rewrite locs_plug in Hnode. set_solver. }
  pose proof (zip_lookup _ _ _ _ _ _ _ _ _ _ Hz) as Hn.
  destruct Hz as [(_ & _ & Hy)%rep_tn Hc Hroot Hnd Hf Hdel].
  rewrite ptr_of_tn in Hc, Hroot. rewrite locs_tn in Hnd, Hn1. setoid_rewrite locs_tn in Hf.
  simpl in *. assert (nodes s !! node = Some (Node key RED None None None)) as Hnew.
  { rewrite <- HF. by apply Hf. }
  assert (node ≠ n ∧ (node ∉ locs y) ∧ (n ∉ locs y) ∧ (n ∉ locs_ctx C)) as Hd.
  { apply NoDup_cons in Hnd. set_solver. }
  destruct_and! Hd. do 4 wp_step. apply HQ. split; simpl; try done.
  - split_and!; [lk|done|done].
  - split_and!; [lk|frame Hy|]. eapply rep_ctx_frame; [done|]. intros; lk.
  - apply NoDup_cons. split; [set_solver|done].
  - intros l Hl1 Hl2. rewrite !lookup_insert_ne by set_solver. apply Hf; set_solver.
Qed.

(** The repair after linking. *)
Lemma ds_tree_insert_rebalance_new F nd s C c n k y m node Q :
  zip F nd s (Fr (cmp_dir cmp k key) c n k y :: C) (T RED E node key E) →
  ins_inv C c E n k y m →
  (∀ s' t' m', zip F nd s' [] t' → rb t' m' →
     inorder t' = inorder (plug (Fr (cmp_dir cmp k key) c n k y :: C) (T RED E node key E)) →
     Q tt s') →
  wp (ds_tree_insert_rebalance node) Q s.
Proof.
  intros Hz [Hrb Hrbc Hroute Hred _] HQ. destruct c.
  - (* below a red node *)
    destruct (Hred eq_refl) as [HU|[]]. destruct C as [|[dg [] g kg U] C]; [done|by destruct Hrbc|].
    apply rb_tn_red in Hrb as (HE & Hy & _ & Hcy). inversion HE; subst m.
    destruct Hrbc as (HrU & HC).
    destruct (decide (cmp_dir cmp k key = dg)) as [<-|Hne].
    + eapply ds_tree_insert_rebalance_single; [done|]. intros s' Hz'.
      rewrite zip_plug in Hz'. destruct (rb_plug (Fr (cmp_dir cmp k key) BLACK n k (tn (cmp_dir cmp k key) RED y g kg U) :: C)
        (T RED E node key E) 0) as [m' Hm']; [auto with rb| |].
      { simpl. split; [|done]. by apply rb_tn_red. }
      eapply HQ; [done..|]. cbn [plug plug1]. apply inorder_plug_ext. symmetry.
      apply inorder_rotate.
    + assert (cmp_dir cmp k key = negb dg) as He by (by destruct dg, (cmp_dir cmp k key)).
      rewrite He in Hz, HQ.
      assert (T RED E node key E = tn (negb dg) RED E node key E) as Ht by (by destruct dg).
      rewrite Ht in Hz, HQ. eapply ds_tree_insert_rebalance_double; [done|]. intros s' Hz'.
      rewrite zip_plug in Hz'.
      destruct (rb_plug C (tn dg BLACK (tn (negb dg) RED E n k y) node key (tn dg RED E g kg U)) 1)
        as [m' Hm'].
      { apply rb_tn_black. exists 0. split_and!; [done|by apply rb_tn_red..]. }
      { by rewrite tcolor_tn. }
      eapply HQ; [done..|]. cbn [plug plug1]. apply inorder_plug_ext. symmetry.
      apply inorder_rotate_double.
  - (* below a black node *)
    eapply ds_tree_insert_rebalance_noop; [done|by right|].
    rewrite zip_plug in Hz.
    apply rb_tn_black in Hrb as (m' & -> & HE & Hy). inversion HE; subst m'.
    destruct (rb_plug (Fr (cmp_dir cmp k key) BLACK n k y :: C) (T RED E node key E) 0)
      as [m' Hm']; [auto with rb|done|]. by eapply HQ.
Qed.

(** The path to the new node separates the smaller entries from the others. *)
Lemma route_split `{!KeyOrder cmp} C :
  route C → sorted cmp (lft C ++ rgt C) →
  Forall (λ a, cmp_dir cmp a.2 key = true) (lft C) ∧ Forall (λ a, cmp_dir cmp a.2 key = false) (rgt C).
Proof.
  unfold route. induction 1 as [|[d c n k sib] C Hd HC IH]; simpl; [done|].
  destruct d; intros Hs.
  - rewrite <- !app_assoc in Hs. simpl in Hs.
    apply (sorted_app cmp) in Hs as (H1 & (H2 & H3 & H23)%(sorted_app cmp) & H12).
    destruct IH as [IH1 IH2].
    { apply (sorted_app cmp). split_and!; [done|by inversion H3|]. intros. apply H12; set_solver. }
    split; [|done]. apply Forall_app. split; [done|]. apply Forall_app. split; [|by repeat constructor].
    apply Forall_forall. intros a Ha. specialize (H23 a (n, k) Ha ltac:(set_solver)).
    unfold entry_le, cmp_dir in *. simpl in *. pose proof (cmp_le_lt cmp a.2 k key). lia.
  - apply (sorted_app cmp) in Hs as (H1 & H2 & H12). inversion H2 as [|? ? H3 H4]; subst.
    apply (sorted_app cmp) in H3 as (H5 & H6 & H56). apply Forall_app in H4 as [H4 H7].
    destruct IH as [IH1 IH2].
    { apply (sorted_app cmp). split_and!; [done|done|]. intros. apply H12; set_solver. }
    split; [done|]. constructor; [done|]. apply Forall_app. split; [|done].
    apply Forall_forall. intros a Ha. rewrite Forall_forall in H4. specialize (H4 a Ha).
    unfold entry_le, cmp_dir in *. simpl in *. pose proof (cmp_le_lt cmp k a.2 key). lia.
Qed.
End descent.

(** *** Insertion *)

Lemma lft_rgt_new cmp key C c n k y node :
  inorder (plug (Fr (cmp_dir cmp k key) c n k y :: C) (T RED E node key E)) =
  lft (Fr (cmp_dir cmp k key) c n k y :: C) ++
    (node, key) :: rgt (Fr (cmp_dir cmp k key) c n k y :: C).
Proof. by rewrite inorder_plug. Qed.

(** Painting the root, at the end of insertion. *)
Lemma wp_paint_root F nd s t m Q :
  zip F nd s [] t → rb t m → t ≠ E →
  (∀ s' t', zip F nd s' [] t' → rbtree t' → inorder t' = inorder t → Q tt s') →
  wp (root ← rd_root; root ← deref root; store root (set_prop BLACK)) Q s.
Proof.
  intros Hz Hrb Hne HQ. destruct t as [|c l n k r]; [done|]. wp_seq. wp_step.
  rewrite (zip_root _ _ _ _ _ Hz). simpl. repeat wp_step.
  eapply (wp_paint _ _ _ _ false); [done|]. intros s' Hz'. eapply HQ; [done| |done].
  split; [done|]. by eapply (rb_blacken false).
Qed.

Lemma ds_tree_node_insert_zip cmp `{!KeyOrder cmp} s t m node key old Q :
  zip (nodes s) (ot_ndel s) s [] t → tcolor t = BLACK → rb t m → sorted cmp (inorder t) →
  nodes s !! node = Some old → node ∉ locs t →
  (∀ s' t', zip (<[node := Node key RED None None None]> (nodes s)) (ot_ndel s) s' [] t' →
     rbtree t' → inorder t' = list_ins cmp node key (inorder t) → Q tt s') →
  wp (ds_tree_node_insert cmp node key) Q s.
Proof.
  intros Hz Hblack Hm Hsorted Hold Hnode Hfin. unfold ds_tree_node_insert. do 2 wp_step.
  set (new := Node key RED None None None) in *.
  set (s1 := with_nodes _ s). set (F := <[node := new]> (nodes s)) in *.
  assert (zip F (ot_ndel s) s1 [] t) as Hz1.
  { destruct Hz as [Hr _ Hroot Hnd _ _]. split; try done. simpl in *. frame Hr. }
  assert (nodes s1 = F ∧ ot_ndel s1 = ot_ndel s) as [HF Hd1] by done. clearbody s1.
  wp_seq. wp_step. rewrite (zip_root _ _ _ _ _ Hz1). simpl.
  destruct t as [|c l n k r]; simpl.
  - (* the first node *)
    assert (nodes s1 !! node = Some new) by (rewrite HF; apply lookup_insert_eq).
    repeat wp_step. eapply (Hfin _ (T BLACK E node key E)); [|split; eauto with rb|done].
    split; simpl; try done.
    + split_and!; [lk|done|done].
    + apply NoDup_singleton.
    + intros l Hl _. rewrite HF, lookup_insert_ne by set_solver. done.
  - simpl in Hblack. subst c.
    pose proof (zip_rep _ _ _ _ _ Hz1) as (Hn & _ & _).
    pose proof (zip_size _ _ _ _ Hz1) as Hsize.
    destruct (tree_tn cmp key (T BLACK l n k r)) as (c & x & n' & k' & y & Ht); [done|].
    assert (n' = n ∧ k' = k ∧ c = BLACK) as (-> & -> & ->)
      by (destruct (cmp_dir cmp k' key); unfold tn in Ht; by injection Ht).
    repeat wp_step. rewrite Ht in *. rewrite tsize_tn in Hsize. pose proof (ins_measure_le x y).
    eapply (ds_tree_insert_descend_spec _ _ F (ot_ndel s) _ _ [] BLACK x n k y m);
      [done|split; simpl; try done; by constructor|simpl in *; lia|].
    intros s2 C2 c2 n2 k2 y2 m2 Hz2 Hinv2 Hino2. cbn beta.
    assert (node ∉ locs (plug C2 (tn (cmp_dir cmp k2 key) c2 E n2 k2 y2))) as Hn2.
    { rewrite locs_inorder, Hino2, <- locs_inorder. done. }
    eapply (wp_attach cmp key); [done|done|apply lookup_insert_eq|]. intros s3 Hz3.
    pose proof (zip_lookup_ctx _ _ _ _ _ _ _ _ _ _ Hz3) as Hn3. simpl in Hn3.
    do 4 wp_step. wp_seq. eapply ds_tree_insert_rebalance_new; [done..|].
    intros s4 t4 m4 Hz4 Hrb4 Hino4. rewrite lft_rgt_new in Hino4.
    eapply wp_paint_root; [done|done|intros ->; by destruct (lft _)|].
    intros s5 t5 Hz5 Hrb5 Hino5. eapply Hfin; [done..|]. rewrite Hino5, Hino4. simpl in Hino2.
    change (plug C2 (tn _ c2 E n2 k2 y2))
      with (plug (Fr (cmp_dir cmp k2 key) c2 n2 k2 y2 :: C2) E) in Hino2.
    rewrite inorder_plug in Hino2. rewrite <- Hino2 in Hsorted |- *.
    destruct (route_split cmp key (Fr (cmp_dir cmp k2 key) c2 n2 k2 y2 :: C2)) as [Hl Hr];
      [constructor; [done|apply Hinv2]|done|]. symmetry. by apply list_ins_app.
Qed.

(** [ds_tree_node_insert] on a store that holds a tree. *)
Lemma ds_tree_node_insert_holds cmp `{!KeyOrder cmp} s L node key old :
  holds s L → sorted cmp L → nodes s !! node = Some old → node ∉ L.*1 →
  wp (ds_tree_node_insert cmp node key)
    (λ _ s', holds s' (list_ins cmp node key L) ∧ ot_ndel s' = ot_ndel s ∧
       ∀ l, l ≠ node → l ∉ L.*1 → nodes s' !! l = nodes s !! l) s.
Proof.
  intros (t & Hz & [Hblack [m Hm]] & <-) Hsorted Hold Hnode.
  eapply ds_tree_node_insert_zip; [done..|by rewrite locs_inorder|].
  intros s' t' Hz' Hrb' Hino. destruct (zip_holds _ _ _ _ _ Hz' Hrb' Hino) as (? & ? & Hf).
  split_and!; [done..|]. intros l Hl1 Hl2. rewrite Hf; [by rewrite lookup_insert_ne|].
  rewrite (list_ins_perm cmp). set_solver.
Qed.
End insert.
