(* ===== verification/DsTreeRemove.v ===== *)
(** Removal: [ds_tree_node_remove] keeps the red-black invariant and the order
    of the remaining entries. *)
From S2P Require Import Prelude DsTree DsTreeRep DsTreeInv DsTreeInsert.

Section remove.
Context {K : Type}.
Implicit Types (t x y A B U : tree K) (C : list (frame K)) (s : ds_tree K).

(** *** The climb *)

(** The black height of a node of colour [c] above subtrees of height [m]. *)
Definition bh (c : color) (m : nat) : nat := match c with RED => m | BLACK => S m end.

Lemma rb_tn d c x n k y m :
  rb x m → rb y m → (c = RED → tcolor x = BLACK ∧ tcolor y = BLACK) →
  rb (tn d c x n k y) (bh c m).
Proof.
  intros Hx Hy Hc. destruct c; simpl.
  - destruct (Hc eq_refl). by apply rb_tn_red.
  - apply rb_tn_black. eauto.
Qed.

(** A subtree that keeps its height and is no more red fits the old context. *)
Lemma rb_replug C c t m : rbc C c m → rb t m → tcolor t = c ∨ tcolor t = BLACK →
  ∃ m', rb (plug C t) m'.
Proof.
  intros HC Ht [<-|Hc]; eapply rb_plug; try done. rewrite Hc. by eapply rbc_black.
Qed.

(** Painting both children of the focus black. *)
Lemma wp_paint2 {R} F nd s C c c0 l0 n0 k0 r0 n k c1 l1 n1 k1 r1 (m : M (ds_tree K) R) Q :
  zip F nd s C (T c (T c0 l0 n0 k0 r0) n k (T c1 l1 n1 k1 r1)) →
  (∀ s', zip F nd s' C (T c (T BLACK l0 n0 k0 r0) n k (T BLACK l1 n1 k1 r1)) → wp m Q s') →
  wp (c0 ← rd_child n false; c0 ← deref c0; store c0 (set_prop BLACK);;
      c1 ← rd_child n true; c1 ← deref c1; store c1 (set_prop BLACK);; m) Q s.
Proof.
  intros Hz HQ. pose proof (zip_rep _ _ _ _ _ Hz) as (Hn & _ & _). do 4 wp_step. wp_seq.
  apply (zip_cons _ _ _ _ false) in Hz.
  eapply (wp_paint _ _ _ _ false); [done|]. intros s2 Hz2. rewrite zip_cons in Hz2.
  pose proof (zip_rep _ _ _ _ _ Hz2) as (Hn2 & _ & _). do 4 wp_step. wp_seq.
  rewrite <- (tn_negb false), <- zip_cons in Hz2. simpl in Hz2.
  eapply (wp_paint _ _ _ _ false); [done|]. intros s3 Hz3. rewrite zip_cons in Hz3.
  by apply HQ.
Qed.

Lemma tn_T d c x n k y : ∃ l r, tn d c x n k y = T c l n k r ∧
  ((l = x ∧ r = y) ∨ (l = y ∧ r = x)).
Proof. destruct d; eexists _, _; split; eauto. Qed.

(** The rotation cases of the repair, when the result is painted. *)
Lemma wp_paint_rotated F nd s C d c c' A q kq B Q :
  zip F nd s C (tn d c A q kq B) → A ≠ E → B ≠ E →
  (∀ s', zip F nd s' C (tn d c' (blacken A) q kq (blacken B)) → Q false s') →
  wp (store q (set_prop c');;
      c0 ← rd_child q false; c0 ← deref c0; store c0 (set_prop BLACK);;
      c1 ← rd_child q true; c1 ← deref c1; store c1 (set_prop BLACK);; mret false) Q s.
Proof.
  intros Hz HA HB HQ. wp_seq. eapply wp_paint; [done|]. intros s1 Hz1.
  destruct d; simpl in Hz1;
    (destruct A as [|cA lA nA kA rA]; [done|]; destruct B as [|cB lB nB kB rB]; [done|]);
    (eapply wp_paint2; [done|]; intros s2 Hz2; apply wp_ret, HQ; done).
Qed.

(** The repair when the sibling is black: the subtree gets its height back, or
    the whole subtree is now short and the loop goes on above it. *)
Lemma ds_tree_remove_rebalance_sib_spec F nd s C d c x n k y m Q :
  zip F nd s C (tn d c x n k y) →
  rb x m → tcolor x = BLACK → rb y (S m) → tcolor y = BLACK → rbc C c (bh c (S m)) →
  (∀ s' t' m', zip F nd s' C t' → rb (plug C t') m' →
     inorder t' = inorder (tn d c x n k y) → Q false s') →
  (∀ s' y', c = BLACK → zip F nd s' C (tn d BLACK x n k y') →
     rb (tn d BLACK x n k y') (S m) → inorder y' = inorder y → Q true s') →
  wp (ds_tree_remove_rebalance_sib n d (ptr_of y)) Q s.
Proof.
  intros Hz Hx Hcx Hy Hcy HC Hfalse Htrue.
  destruct y as [|cy y0 sn sk y1]; [by inversion Hy|]. simpl in Hcy. subst cy.
  inversion Hy as [|?|? ? ? ? ? Hy0 Hy1]; subst.
  unfold ds_tree_remove_rebalance_sib. cbn [ptr_of].
  pose proof (zip_lookup _ _ _ _ _ _ _ _ _ _ Hz) as Hn. cbn [ptr_of] in Hn.
  pose proof Hz as Hz0. rewrite <- tn_negb, <- zip_cons in Hz0.
  pose proof (zip_rep _ _ _ _ _ Hz0) as (Hs & Hr0 & Hr1).
  do 4 wp_step. wp_seq. eapply wp_is_red; [done|]. wp_seq. eapply wp_is_red; [done|].
  destruct (decide (tcolor y0 = BLACK ∧ tcolor y1 = BLACK)) as [[Hc0 Hc1]|Hno].
  - rewrite Hc0, Hc1. simpl. wp_seq.
    eapply (wp_paint _ _ _ _ false); [done|]. intros s1 Hz1. rewrite zip_cons in Hz1.
    rewrite tn_negb in Hz1. pose proof (zip_lookup _ _ _ _ _ _ _ _ _ _ Hz1) as Hn1.
    assert (∀ c0, rb (tn d BLACK x n k (tn c0 RED y0 sn sk y1)) (S m)) as Hrb.
    { intros c0. apply (rb_tn d BLACK); [done|by apply rb_tn_red|done]. }
    repeat wp_step. destruct c; simpl.
    + wp_seq. eapply wp_paint; [done|]. intros s2 Hz2. apply wp_ret.
      destruct (rb_replug C RED (tn d BLACK x n k (tn false RED y0 sn sk y1)) (S m)) as [m' Hm'];
        [done|done|right; by rewrite tcolor_tn|].
      eapply Hfalse; [done|done|]. by apply inorder_tn_ext.
    + apply wp_ret. eapply Htrue; [done|done|apply Hrb|done].
  - replace (_ && _) with false by (destruct (tcolor y0), (tcolor y1); naive_solver).
    repeat wp_step. rewrite <- (tn_negb d) in Hz.
    assert (∃ a b, T BLACK y0 sn sk y1 = tn (negb d) BLACK a sn sk b ∧ rb a m ∧ rb b m ∧
      (tcolor a = BLACK → tcolor b = RED)) as (a & b & Hab & Ha & Hb & Hcab).
    { destruct d; eexists _, _; (split; [done|]); split_and!; try done;
        destruct (tcolor y0), (tcolor y1); naive_solver. }
    assert (otn_child (Node sk BLACK (Some n) (ptr_of y0) (ptr_of y1)) (negb d) = ptr_of a) as ->.
    { by destruct d; injection Hab as -> ->. }
    assert (rep (nodes s) (Some sn) a) as Hra by (by destruct d; injection Hab as -> ->).
    eapply wp_is_red; [done|]. rewrite Hab in *. wp_seq.
    destruct (tcolor a) eqn:Hca; simpl.
    + eapply ds_rbt_rotate_spec; [done|]. intros s1 Hz1.
      eapply wp_paint_rotated; [done|by destruct a|by destruct d|].
      intros s2 Hz2. destruct (calm_blacken _ _ Ha Hca) as [Hcalm Hba].
      destruct (rb_replug C c (tn (negb d) c (blacken a) sn sk (tn (negb d) BLACK b n k x)) (bh c (S m)))
        as [m' Hm']; [done| |left; by rewrite tcolor_tn|].
      { apply rb_tn; [done|by apply (rb_tn _ BLACK)|].
        rewrite tcolor_tn. eauto using calm_black. }
      rewrite blacken_tn in Hz2. eapply Hfalse; [done|done|].
      rewrite <- (tn_negb d c _ n k x), (inorder_rotate _ _ _ c BLACK). apply inorder_tn_ext; [|done].
      apply inorder_blacken.
    + specialize (Hcab eq_refl). destruct b as [|cb b0 q kq b1]; [done|]. simpl in Hcab. subst cb.
      inversion Hb as [|? ? ? ? ? Hb0 Hb1 Hcb0 Hcb1|]; subst.
      assert (∃ Y1 Y2, T RED b0 q kq b1 = tn d RED Y1 q kq Y2 ∧ rb Y1 m ∧ rb Y2 m)
        as (Y1 & Y2 & HY & HY1 & HY2).
      { destruct d; eexists _, _; (split; [done|]); done. }
      assert (tn (negb d) BLACK a sn sk (T RED b0 q kq b1) =
        tn (negb (negb d)) BLACK (tn (negb (negb d)) RED Y1 q kq Y2) sn sk a) as Hdd
        by (by rewrite tn_negb, HY, negb_involutive).
      rewrite Hdd in *.
      eapply ds_rbt_rotate_double_spec; [done|]. intros s1 Hz1.
      eapply wp_paint_rotated; [done|by destruct d|by destruct d|].
      intros s2 Hz2.
      rewrite !blacken_tn in Hz2.
      destruct (rb_replug C c (tn (negb d) c (tn (negb (negb d)) BLACK Y2 sn sk a) q kq
        (tn (negb d) BLACK Y1 n k x)) (bh c (S m))) as [m' Hm'];
        [done| |left; by rewrite tcolor_tn|].
      { apply rb_tn; [by apply (rb_tn _ BLACK)|by apply (rb_tn _ BLACK)|]. by rewrite !tcolor_tn. }
      eapply Hfalse; [done|done|].
      rewrite <- (tn_negb d c _ n k x). symmetry.
      apply inorder_rotate_double.
Qed.

(** The whole repair. *)
Lemma ds_tree_remove_rebalance_spec F nd s C d c x n k y m Q :
  zip F nd s C (tn d c x n k y) →
  rb x m → tcolor x = BLACK → rb y (S m) → (c = RED → tcolor y = BLACK) → rbc C c (bh c (S m)) →
  (∀ s' t' m', zip F nd s' [] t' → rb t' m' →
     inorder t' = inorder (plug C (tn d c x n k y)) → Q false s') →
  (∀ s' y', c = BLACK → zip F nd s' C (tn d BLACK x n k y') →
     rb (tn d BLACK x n k y') (S m) → inorder y' = inorder y → Q true s') →
  wp (ds_tree_remove_rebalance n d) Q s.
Proof.
  intros Hz Hx Hcx Hy Hcy HC Hfalse Htrue. unfold ds_tree_remove_rebalance.
  pose proof (zip_lookup _ _ _ _ _ _ _ _ _ _ Hz) as Hn.
  pose proof (zip_rep _ _ _ _ _ Hz) as (_ & _ & Hry)%rep_tn.
  do 2 wp_step. wp_seq. eapply wp_is_red; [done|]. wp_seq.
  destruct (tcolor y) eqn:Hc; simpl.
  - destruct c; [by specialize (Hcy eq_refl)|].
    destruct y as [|cy y0 sn sk y1]; [done|]. simpl in Hc. subst cy.
    inversion Hy as [|? ? ? ? ? Hy0 Hy1 Hc0 Hc1|]; subst.
    assert (∃ a b, T RED y0 sn sk y1 = tn (negb d) RED a sn sk b ∧ rb a (S m) ∧ rb b (S m) ∧
      tcolor b = BLACK) as (a & b & Hab & Ha & Hb & Hcb).
    { destruct d; eexists _, _; (split; [done|]); done. }
    rewrite Hab in *. rewrite <- (tn_negb d) in Hz.
    wp_seq. eapply ds_rbt_rotate_spec; [done|]. intros s1 Hz1.
    rewrite (tn_negb d BLACK a), <- zip_cons, tn_negb in Hz1.
    pose proof (zip_lookup _ _ _ _ _ _ _ _ _ _ Hz1) as Hn1. wp_step.
    eapply ds_tree_remove_rebalance_sib_spec; [done..| |]; [|done].
    intros s' t' m' Hz' Hrb' Hino. rewrite zip_plug in Hz'. eapply Hfalse; [done|done|].
    cbn [plug plug1]. apply inorder_plug_ext. rewrite <- (tn_negb d BLACK _ n k x).
    rewrite (inorder_rotate _ _ _ BLACK RED), tn_negb. apply inorder_tn_ext; [|done].
    by rewrite Hino, tn_negb.
  - apply wp_ret. eapply ds_tree_remove_rebalance_sib_spec; [done..| |]; [|done].
    intros s' t' m' Hz' Hrb' Hino. rewrite zip_plug in Hz'. eapply Hfalse; [done|done|].
    by apply inorder_plug_ext.
Qed.

(** The climbing loop repairs a tree in which the focus is one black node short. *)
Lemma ds_tree_remove_climb_spec F nd fuel s C d0 x m Q :
  zip F nd s C x → rb x m → tcolor x = BLACK → rbc C BLACK (S m) → length C ≤ fuel →
  (∀ d c n k sib C', C = Fr d c n k sib :: C' → d0 = d) →
  (∀ s' t' m', zip F nd s' [] t' → rb t' m' → inorder t' = inorder (plug C x) → Q tt s') →
  wp (ds_tree_remove_climb fuel (parent_of C) d0) Q s.
Proof.
  revert s C d0 x m. induction fuel as [|fuel IH]; intros s C d0 x m Hz Hx Hcx HC Hlen Hd HQ.
  { destruct C as [|[]]; simpl in *; [|lia]. apply wp_ret. by eapply HQ. }
  destruct C as [|[d c n k sib] C]; simpl; [apply wp_ret; by eapply HQ|].
  rewrite (Hd _ _ _ _ _ _ eq_refl). rewrite zip_cons in Hz. wp_seq.
  assert (rb sib (S m) ∧ (c = RED → tcolor sib = BLACK) ∧ rbc C c (bh c (S m))) as (Hs & Hsc & HC').
  { destruct c; simpl in *; naive_solver. }
  eapply ds_tree_remove_rebalance_spec; [done..| |].
  { intros s' t' m' Hz' Hrb' Hino. apply wp_ret. by eapply HQ. }
  intros s' y' -> Hz' Hrb' Hino. pose proof (zip_lookup _ _ _ _ _ _ _ _ _ _ Hz') as Hn.
  repeat wp_step.
  assert (inorder (tn d BLACK x n k y') = inorder (tn d BLACK x n k sib)) as Hino'
    by (by apply inorder_tn_ext).
  simpl in Hlen. destruct C as [|[d1 c1 n1 k1 sib1] C1]; simpl.
  - apply wp_ret. eapply (IH _ []); [done|done|by rewrite tcolor_tn|done|simpl; lia|done|].
    intros s2 t2 m2 Hz2 Hrb2 Hino2. eapply HQ; [done..|]. by rewrite Hino2.
  - pose proof (zip_lookup_ctx _ _ _ _ _ _ _ _ _ _ Hz') as Hn1. rewrite ptr_of_tn in Hn1.
    pose proof (zip_sib_ne _ _ _ _ _ _ _ _ _ _ n Hz' (ptr_of_tn _ _ _ _ _ _)) as Hne.
    repeat wp_step. rewrite child_dir_fnode by done.
    eapply (IH _ (Fr d1 c1 n1 k1 sib1 :: C1)); [done|done|by rewrite tcolor_tn|done|simpl in *; lia| |].
    { by intros ??????[=]. }
    intros s2 t2 m2 Hz2 Hrb2 Hino2. eapply HQ; [done..|]. rewrite Hino2.
    exact (inorder_plug_ext (Fr d1 c1 n1 k1 sib1 :: C1) _ _ Hino').
Qed.

(** *** Unlinking a node with at most one child *)

Lemma wp_unlink {R} F nd s C d c x n k (m : M (ds_tree K) R) Q :
  zip F nd s C (tn d c x n k E) →
  (∀ s', zip (<[n := fnode d c k (parent_of C) (ptr_of x) None]> F) nd s' C x → wp m Q s') →
  wp (np ← rd_parent n;
      ch ← rd_child n d;
      match np with
      | None => modify (with_root ch)
      | Some p =>
          pc ← rd_child p true;
          store p (set_child (bool_decide (Some n = pc)) ch)
      end;;
      ch ← rd_child n d;
      when_ptr ch (λ z, np ← rd_parent n; store z (set_parent np));; m) Q s.
Proof.
  intros Hz HQ. pose proof (zip_lookup _ _ _ _ _ _ _ _ _ _ Hz) as Hn.
  destruct Hz as [(_ & Hx & _)%rep_tn Hc Hroot Hnd Hf Hdel].
  rewrite ptr_of_tn in Hc, Hroot. rewrite locs_tn in Hnd. setoid_rewrite locs_tn in Hf.
  simpl in *. rewrite app_nil_r in Hnd. setoid_rewrite app_nil_r in Hf.
  apply NoDup_cons in Hnd as [Hnew Hnd]. pose proof Hnd as Hnd0.
  apply NoDup_app in Hnd as (Hndx & Hdisj & HndC).
  assert ((n ∉ locs x) ∧ (n ∉ locs_ctx C) ∧ locs x ## locs_ctx C) as (?&?&?) by set_solver.
  do 4 wp_step. wp_seq.
  eapply (wp_relink _ C n (ptr_of x)); [done..|]. intros s1 HC1 [Hag1 Hd1] Hr1.
  assert (nodes s1 !! n = Some (fnode d c k (parent_of C) (ptr_of x) None)) by lk.
  assert (rep (nodes s1) (Some n) x) as Hx1 by frame Hx.
  do 2 wp_step. wp_seq.
  assert (wp (when_ptr (ptr_of x) (λ z, store z (set_parent (parent_of C)))) (λ _ s', wp m Q s') s1)
    as Hwp.
  { eapply (wp_reparent _ (Some n)); [done..|]. intros s2 Hx2 [Hag2 Hd2] Hr2. apply HQ.
    split; [done| |congruence|done| |congruence].
    - eapply rep_ctx_frame; [done|]. intros; lk.
    - intros l Hl1 Hl2. destruct (decide (l = n)) as [->|Hne]; [lk|lk; apply Hf; set_solver]. }
  destruct x as [|cx lx nx kx rx]; [done|]. simpl in *. by repeat wp_step.
Qed.

Lemma ds_tree_remove_leaf_spec F nd s C d c x n k Q :
  zip F nd s C (tn d c x n k E) → (d = false → x ≠ E) →
  (∀ s' x', x' = match c, tcolor x with BLACK, RED => blacken x | _, _ => x end →
     zip (<[n := fnode d c k (parent_of C) (ptr_of x) None]> F) nd s' C x' →
     Q (match c, tcolor x with BLACK, BLACK => parent_of C | _, _ => None end) s') →
  wp (ds_tree_remove_leaf n) Q s.
Proof.
  intros Hz Hd HQ. unfold ds_tree_remove_leaf.
  pose proof (zip_lookup _ _ _ _ _ _ _ _ _ _ Hz) as Hn.
  pose proof (zip_rep _ _ _ _ _ Hz) as (_ & Hx & _)%rep_tn.
  do 4 wp_step.
  assert (bool_decide (otn_child (fnode d c k (parent_of C) (ptr_of x) None) false = None) = d)
    as Hdir.
  { destruct d; [done|]. apply bool_decide_eq_false_2. destruct x; [by destruct Hd|done]. }
  rewrite Hdir. do 6 wp_step. wp_seq. eapply wp_is_red; [done|]. wp_seq.
  destruct c; simpl.
  - apply wp_ret. eapply wp_unlink; [done|]. intros s' Hz'. apply wp_ret. by eapply HQ.
  - destruct (tcolor x) eqn:Hcx; simpl.
    + destruct x as [|cx lx nx kx rx]; [done|]. do 3 wp_step. rewrite <- zip_cons in Hz.
      eapply (wp_paint _ _ _ _ false); [done|]. intros s1 Hz1. apply wp_ret.
      rewrite zip_cons in Hz1. eapply wp_unlink; [done|]. intros s' Hz'. apply wp_ret.
      by eapply HQ.
    + apply wp_ret. eapply wp_unlink; [done|]. intros s' Hz'. apply wp_ret. by eapply HQ.
Qed.

(** *** Replacing a node *)

Lemma ds_tree_node_replace_spec F nd s C c L pold ko R pnew nn Q :
  zip F nd s C (T c L pold ko R) →
  F !! pnew = Some nn → pnew ∉ locs (T c L pold ko R) → pnew ∉ locs_ctx C →
  (∀ s', zip (<[pold := Node ko c (parent_of C) (ptr_of L) (ptr_of R)]> F) nd s' C
       (T c L pnew (otn_key nn) R) → Q tt s') →
  wp (ds_tree_node_replace pold pnew) Q s.
Proof.
  intros [Hr Hc Hroot Hnd Hf Hdel] HF Hn1 Hn2 HQ. simpl in *.
  destruct Hr as (Hold & HL & HR).
  assert (nodes s !! pnew = Some nn) as Hnew by (rewrite <- HF; by apply Hf).
  assert (pnew ≠ pold ∧ (pnew ∉ locs L) ∧ (pnew ∉ locs R) ∧ (pold ∉ locs L) ∧ (pold ∉ locs R) ∧
    (pold ∉ locs_ctx C) ∧ locs L ## locs R ∧ locs L ## locs_ctx C ∧ locs R ## locs_ctx C ∧
    NoDup (locs L) ∧ NoDup (locs R) ∧ NoDup (locs_ctx C)) as Hd.
  { rewrite <- app_assoc, NoDup_app in Hnd. simpl in Hnd. rewrite NoDup_cons, NoDup_app in Hnd.
    set_solver. }
  destruct_and! Hd. unfold ds_tree_node_replace. do 16 wp_step.
  match goal with |- wp _ _ ?s0 => set (s1 := s0) end.
  assert (nodes s1 = <[pnew := Node (otn_key nn) c (parent_of C) (ptr_of L) (ptr_of R)]> (nodes s)) as Hs1.
  { unfold s1. simpl. by rewrite !insert_insert_eq. }
  assert (ot_root s1 = ot_root s ∧ ot_ndel s1 = ot_ndel s) as [Hrt1 Hdel1] by done. clearbody s1.
  assert (∀ l, l ≠ pnew → nodes s1 !! l = nodes s !! l) as Hag.
  { intros l Hl. by rewrite Hs1, lookup_insert_ne. }
  assert (nodes s1 !! pnew = Some (Node (otn_key nn) c (parent_of C) (ptr_of L) (ptr_of R))) as Hnew1
    by (by rewrite Hs1, lookup_insert_eq).
  clear Hs1.
  assert (nodes s1 !! pold = Some (Node ko c (parent_of C) (ptr_of L) (ptr_of R))) as Hold1
    by (by rewrite Hag).
  do 2 wp_step. wp_seq. unfold otn_child at 1. simpl.
  eapply (wp_reparent _ (Some pold)); [eapply rep_frame; [done|]; intros; apply Hag; apart|done|].
  intros s2 HL2 [Hag2 Hdel2] Hrt2.
  assert (nodes s2 !! pold = Some (Node ko c (parent_of C) (ptr_of L) (ptr_of R))) as Hold2.
  { rewrite Hag2, Hag by (apart || done). done. }
  do 2 wp_step. wp_seq. unfold otn_child at 1. simpl.
  eapply (wp_reparent _ (Some pold));
    [eapply rep_frame; [done|]; intros; rewrite Hag2, Hag by (apart || done); done|done|].
  intros s3 HR3 [Hag3 Hdel3] Hrt3.
  assert (nodes s3 !! pold = Some (Node ko c (parent_of C) (ptr_of L) (ptr_of R))) as Hold3 by lk.
  do 2 wp_step.
  eapply (wp_relink _ C pold (Some pnew)); [|done|done|congruence|].
  { eapply rep_ctx_frame; [done|]. intros. lk. apply Hag. apart. }
  intros s4 HC4 [Hag4 Hdel4] Hrt4. apply HQ. split; simpl; [|done|done| | |congruence].
  - split_and!; [lk|frame HL2|frame HR3].
  - rewrite <- app_assoc in *. simpl in *. rewrite NoDup_app, NoDup_cons in *. set_solver.
  - intros l Hl1 Hl2. destruct (decide (l = pold)) as [->|Hne]; [lk|].
    assert ((l ∉ locs L) ∧ (l ∉ locs R) ∧ l ≠ pnew) as (?&?&?) by set_solver.
    lk. rewrite Hag by done. apply Hf; set_solver.
Qed.

(** *** The largest node of a subtree *)

Lemma ds_tree_node_walk_spec F nd fuel s C d c x n k y Q :
  zip F nd s C (tn d c x n k y) → tsize x ≤ fuel →
  (∀ C1 c' n' k' y', zip F nd s (C1 ++ C) (tn d c' E n' k' y') →
     plug C1 (tn d c' E n' k' y') = tn d c x n k y →
     Forall (λ '(Fr d' _ _ _ _), d' = d) C1 → Q n' s) →
  wp (ds_tree_node_walk fuel n d) Q s.
Proof.
  revert C c x n k y Q. induction fuel as [|fuel IH]; intros C c x n k y Q Hz Hsize HQ;
    pose proof (zip_lookup _ _ _ _ _ _ _ _ _ _ Hz) as Hn; simpl; do 2 wp_step;
    (destruct x as [|cx lx nx kx rx] eqn:Hx; simpl; [apply wp_ret; by eapply (HQ [])|]);
    [simpl in Hsize; lia|].
  assert (∃ x' y', T cx lx nx kx rx = tn d cx x' nx kx y' ∧ tsize x' ≤ fuel) as (x' & y' & Hxy & Hs').
  { simpl in Hsize. destruct d; eexists _, _; (split; [done|]); lia. }
  rewrite Hxy, <- zip_cons in Hz. eapply IH; [done|done|].
  intros C1 c' n' k' y'' Hz' Hplug HC1. eapply (HQ (C1 ++ [_])).
  - by rewrite <- app_assoc.
  - by rewrite plug_app, Hplug, Hxy.
  - apply Forall_app. split; [done|]. by constructor.
Qed.

(** *** Removal *)

Lemma zip_app F nd s C1 C2 t : zip F nd s (C1 ++ C2) t ↔ zip F nd s C2 (plug C1 t).
Proof.
  revert t. induction C1 as [|[d c n k sib] C1 IH]; intros t; [done|]. simpl.
  by rewrite zip_cons, IH.
Qed.

Lemma tsize_plug C t : length C + tsize t ≤ tsize (plug C t).
Proof.
  revert t. induction C as [|[d c n k sib] C IH]; intros t; simpl; [done|].
  pose proof (IH (tn d c t n k sib)). rewrite tsize_tn in *. lia.
Qed.

(** Every node of a tree is the focus of some zipper. *)
Lemma locs_focus t n : n ∈ locs t → ∃ C c l k r, t = plug C (T c l n k r).
Proof.
  induction t as [|c l IHl n' k r IHr]; simpl; [set_solver|].
  rewrite elem_of_app, elem_of_cons. intros [Hl|[->|Hr]].
  - destruct (IHl Hl) as (C & c0 & l0 & k0 & r0 & ->).
    exists (C ++ [Fr false c n' k r]), c0, l0, k0, r0. by rewrite plug_app.
  - by exists [], c, l, k, r.
  - destruct (IHr Hr) as (C & c0 & l0 & k0 & r0 & ->).
    exists (C ++ [Fr true c n' k l]), c0, l0, k0, r0. by rewrite plug_app.
Qed.

(** What is left where a node with at most one child was: the tree is repaired,
    or it is one black node short below the parent. *)
Definition leaf_left C x' (ret : option positive) : Prop :=
  (ret = None ∧ ∃ m', rb (plug C x') m') ∨
  (ret = parent_of C ∧ rb x' 0 ∧ tcolor x' = BLACK ∧ rbc C BLACK 1).

Lemma leaf_left_intro C d c x n k m :
  rb (tn d c x n k E) m → rbc C c m →
  leaf_left C (match c, tcolor x with BLACK, RED => blacken x | _, _ => x end)
    (match c, tcolor x with BLACK, BLACK => parent_of C | _, _ => None end).
Proof.
  intros Hrb HC. destruct c.
  - apply rb_tn_red in Hrb as (Hx & _ & Hcx & _). left. split; [done|].
    eapply rb_replug; [done..|]. by right.
  - apply rb_tn_black in Hrb as (m' & -> & Hx & HE). inversion HE; subst m'.
    destruct (tcolor x) eqn:Hcx; [left; split; [done|]|right; done].
    destruct (calm_blacken _ _ Hx Hcx). eapply rb_replug; [done..|right].
    eauto using calm_black.
Qed.

(** The climb after the unlinking. *)
Lemma wp_climb_leaf F nd fuel s C d0 x ret Q :
  zip F nd s C x → leaf_left C x ret → length C ≤ fuel →
  (∀ d c n k sib C', C = Fr d c n k sib :: C' → d0 = d) →
  (∀ s' t' m', zip F nd s' [] t' → rb t' m' → inorder t' = inorder (plug C x) → Q tt s') →
  wp (ds_tree_remove_climb fuel ret d0) Q s.
Proof.
  intros Hz [[-> [m Hm]]|(-> & Hx & Hcx & HC)] Hlen Hd HQ.
  - apply zip_plug in Hz. destruct fuel; apply wp_ret; by eapply HQ.
  - by eapply ds_tree_remove_climb_spec.
Qed.

(** The last statements of [ds_tree_node_remove]. *)
Lemma wp_remove_finish F nd s t m node nn Q :
  zip F nd s [] t → rb t m → node ∉ locs t → F !! node = Some nn →
  (∀ s' t' X, zip (<[node := X]> F) (wrapu 32 (nd + 1)) s' [] t' → rbtree t' →
     inorder t' = inorder t → Q tt s') →
  wp (root ← rd_root;
      when_ptr root (λ r, store r (set_prop OTN_PROP_BLACK));;
      store node (set_child false None);;
      store node (set_child true None);;
      modify (λ s, with_ndel (wrapu 32 (ot_ndel s + 1)) s)) Q s.
Proof.
  intros Hz Hm Hnode HF HQ. do 2 wp_step. rewrite (zip_root _ _ _ _ _ Hz). wp_seq.
  assert (∀ s1 t1, zip F nd s1 [] t1 → rbtree t1 → inorder t1 = inorder t →
    wp (store node (set_child false None);; store node (set_child true None);;
        modify (λ s, with_ndel (wrapu 32 (ot_ndel s + 1)) s)) Q s1) as Hrest.
  { intros s1 t1 [Hr _ Hroot Hnd Hf Hdel] Hrb Hino. simpl in *.
    assert (node ∉ locs t1) as Hn1 by (rewrite locs_inorder, Hino, <- locs_inorder; done).
    assert (nodes s1 !! node = Some nn) by (rewrite <- HF; apply Hf; [done|apply not_elem_of_nil]).
    repeat wp_step. eapply HQ; [|done|done]. split; simpl; try done.
    - frame Hr.
    - intros l Hl1 Hl2. rewrite insert_insert_eq. destruct (decide (l = node)) as [->|Hne].
      + by rewrite !lookup_insert_eq.
      + rewrite !lookup_insert_ne by done. by apply Hf.
    - by rewrite Hdel. }
  destruct t as [|c l n k r]; simpl.
  - apply wp_ret. eapply Hrest; [done|by split; eauto|done].
  - eapply (wp_paint _ _ _ _ false); [done|]. intros s1 Hz1. eapply Hrest; [done| |done].
    split; [done|]. by eapply (rb_blacken false).
Qed.

(** The state before the climb: [node] is out of the tree, whose entries are
    otherwise unchanged. *)
Definition unlinked (F : gmap positive (ds_tree_node K)) nd C l r (node : positive) s' C' x' ret (dir : bool) : Prop :=
  ∃ F' nn, zip F' nd s' C' x' ∧ leaf_left C' x' ret ∧
    (∀ d c n k sib C0, C' = Fr d c n k sib :: C0 → dir = d) ∧
    inorder (plug C' x') = lft C ++ (inorder l ++ inorder r) ++ rgt C ∧
    F' !! node = Some nn ∧ (∀ p, p ∉ (inorder (plug C' x')).*1 → p ≠ node → F' !! p = F !! p).

(** The direction from the parent to the focus. *)
Lemma wp_parent_dir F nd s C t n Q :
  zip F nd s C t → ptr_of t = Some n →
  (∀ d0, (∀ d c n k sib C0, C = Fr d c n k sib :: C0 → d0 = d) → Q d0 s) →
  wp (match parent_of C with
      | Some p => pc ← rd_child p true; mret (bool_decide (Some n = pc))
      | None => mret false
      end) Q s.
Proof.
  intros Hz Hn HQ. destruct C as [|[d c p k sib] C]; simpl.
  - apply wp_ret. by apply HQ.
  - pose proof (zip_lookup_ctx _ _ _ _ _ _ _ _ _ _ Hz) as Hp. rewrite Hn in Hp.
    pose proof (zip_sib_ne _ _ _ _ _ _ _ _ _ _ n Hz Hn). repeat wp_step.
    rewrite child_dir_fnode by done. apply HQ. by intros ??????[=].
Qed.

Lemma leaf_tn c l n k r : l = E ∨ r = E → ∃ d x, T c l n k r = tn d c x n k E ∧
  (d = false → x ≠ E) ∧ inorder x = inorder l ++ inorder r.
Proof.
  intros H. destruct l as [|cl ll nl kl rl].
  - by exists true, r.
  - destruct H as [H| ->]; [done|]. exists false, (T cl ll nl kl rl). by rewrite app_nil_r.
Qed.

Lemma inorder_blackened c x :
  inorder (match c, tcolor x with BLACK, RED => blacken x | _, _ => x end) = inorder x.
Proof. destruct c, (tcolor x); auto using inorder_blacken. Qed.

(** Removing a node with at most one child. *)
Lemma wp_remove_outer F nd s C c l node k r m Q :
  zip F nd s C (T c l node k r) → rb (T c l node k r) m → rbc C c m → l = E ∨ r = E →
  (∀ s' C' x' ret dir, unlinked F nd C l r node s' C' x' ret dir → Q (ret, dir) s') →
  wp (p ← rd_parent node;
      dir ← match p with
            | Some p => pc ← rd_child p true; mret (bool_decide (Some node = pc))
            | None => mret false
            end;
      base ← ds_tree_remove_leaf node; mret (base, dir)) Q s.
Proof.
  intros Hz Hrb HC Hlr HQ. destruct (leaf_tn c l node k r Hlr) as (d & x & Ht & Hd & Hino).
  pose proof (zip_rep _ _ _ _ _ Hz) as (Hn & _ & _). do 2 wp_step. wp_seq.
  eapply wp_parent_dir; [done|done|]. intros d0 Hd0. wp_seq. rewrite Ht in *.
  eapply ds_tree_remove_leaf_spec; [done|done|]. intros s' x' Hx' Hz'. apply wp_ret.
  eapply HQ. eexists _, _. split_and!; [done|subst x'; by eapply leaf_left_intro|done| | |].
  - rewrite inorder_plug, Hx', inorder_blackened. by rewrite Hino.
  - by rewrite lookup_insert_eq.
  - intros p _ Hp. by rewrite lookup_insert_ne.
Qed.

Lemma rbc_app_key C1 C2 d c n k n' k' sib c0 m :
  rbc (C1 ++ Fr d c n k sib :: C2) c0 m → rbc (C1 ++ Fr d c n' k' sib :: C2) c0 m.
Proof.
  revert c0 m. induction C1 as [|[d1 [] n1 k1 sib1] C1 IH]; intros c0 m; simpl; [done|naive_solver..].
Qed.

(** Renaming the node of one frame of a repaired path. *)
Lemma leaf_left_rename C1 d c n k n' k' sib C2 x ret :
  n ∉ (λ '(Fr _ _ p _ _), p) <$> C1 →
  leaf_left (C1 ++ Fr d c n k sib :: C2) x ret →
  leaf_left (C1 ++ Fr d c n' k' sib :: C2) x (if bool_decide (ret = Some n) then Some n' else ret).
Proof.
  intros Hn [[-> [m Hm]]|(-> & Hx & Hcx & HC)].
  - left. split; [done|]. apply rb_unplug in Hm as (m' & Hx & HC).
    eapply rb_plug; [done|]. by eapply rbc_app_key.
  - right. split_and!; [|done|done|by eapply rbc_app_key].
    destruct C1 as [|[d1 c1 n1 k1 sib1] C1]; simpl in *.
    + by rewrite bool_decide_eq_true_2.
    + rewrite bool_decide_eq_false_2; [done|]. intros [= ->]. set_solver.
Qed.

Lemma inorder_path C1 d c n k sib C2 t :
  inorder (plug (C1 ++ Fr d c n k sib :: C2) t) =
  lft C2 ++ inorder (tn d c (plug C1 t) n k sib) ++ rgt C2.
Proof. rewrite plug_app. simpl. by rewrite inorder_plug. Qed.

(** A path to the right has nothing on its right, a path to the left nothing
    on its left. *)
Lemma rgt_right C : Forall (λ '(Fr d' _ _ _ _), d' = true) C → rgt C = [].
Proof. by induction 1 as [|[d ? ? ? ?] C -> _ IH]. Qed.
Lemma lft_left C : Forall (λ '(Fr d' _ _ _ _), d' = false) C → lft C = [].
Proof. by induction 1 as [|[d ? ? ? ?] C -> _ IH]. Qed.

Lemma plug_right_inorder C1 c n k y :
  Forall (λ '(Fr d' _ _ _ _), d' = true) C1 →
  ∃ A : list (positive * K), (∀ t, inorder (plug C1 t) = A ++ inorder t) ∧
    inorder (plug C1 (T c y n k E)) = A ++ inorder y ++ [(n, k)].
Proof.
  intros Hr%rgt_right. exists (lft C1).
  split; intros; rewrite inorder_plug, Hr; simpl; by rewrite ?app_nil_r.
Qed.

(** Finding the predecessor of a node with two children, and its direction. *)
Lemma wp_predecessor {R} F nd fuel s C c l node k r lp (f : positive → bool → M (ds_tree K) R) Q :
  zip F nd s C (T c l node k r) → ptr_of l = Some lp → tsize l ≤ fuel →
  (∀ C1 c' n' k' y' dir,
     Forall (λ '(Fr d' _ _ _ _), d' = true) C1 → plug C1 (T c' y' n' k' E) = l →
     zip F nd s (C1 ++ Fr false c node k r :: C) (T c' y' n' k' E) →
     (∀ d c0 n0 k0 sib C0, C1 ++ Fr false c node k r :: C = Fr d c0 n0 k0 sib :: C0 → dir = d) →
     wp (f n' dir) Q s) →
  wp (rnode ← ds_tree_node_walk fuel lp true;
      rp ← rd_parent rnode;
      rp ← deref rp;
      pc ← rd_child rp true;
      f rnode (bool_decide (pc = Some rnode))) Q s.
Proof.
  intros Hz Hl Hfuel HQ.
  assert (∃ cl xl kl yl, l = tn true cl xl lp kl yl) as (cl & xl & kl & yl & Hl').
  { destruct l as [|cl ll nl kl rl]; [done|]. injection Hl as ->. by exists cl, rl, kl, ll. }
  apply (zip_cons _ _ _ _ false) in Hz. rewrite Hl' in Hz. wp_seq.
  eapply ds_tree_node_walk_spec; [done|rewrite Hl', tsize_tn in Hfuel; lia|].
  intros C1 c' n' k' y' Hz' Hplug HC1. rewrite <- Hl' in Hplug. simpl in Hz', Hplug.
  pose proof (HQ C1 c' n' k' y') as HQ'.
  set (C2 := C1 ++ Fr false c node k r :: C) in *.
  assert (∃ d1 c1 p1 k1 sib1 C3, C2 = Fr d1 c1 p1 k1 sib1 :: C3) as (d1&c1&p1&k1&sib1&C3&HC3).
  { unfold C2. destruct C1 as [|[] ?]; simpl; eauto 10. }
  clearbody C2. subst C2.
  pose proof (zip_rep _ _ _ _ _ Hz') as (Hn' & _ & _). simpl in Hn'. do 4 wp_step.
  pose proof (zip_sib_ne _ _ _ _ _ _ _ _ _ _ n' Hz' eq_refl) as Hne1.
  pose proof (zip_lookup_ctx _ _ _ _ _ _ _ _ _ _ Hz') as Hp1. simpl in Hp1. do 2 wp_step.
  rewrite (bool_decide_ext _
    (Some n' = otn_child (fnode d1 c1 k1 (parent_of C3) (Some n') (ptr_of sib1)) true))
    by (split; congruence).
  rewrite child_dir_fnode by done. apply HQ'; [done..|]. by intros ??????[=].
Qed.

(** Unlinking the predecessor and putting it in place of the node. *)
Lemma wp_swap_predecessor F nd s C C1 c l node k r c' n' k' y' dir m Q :
  zip F nd s (C1 ++ Fr false c node k r :: C) (T c' y' n' k' E) →
  Forall (λ '(Fr d' _ _ _ _), d' = true) C1 → plug C1 (T c' y' n' k' E) = l →
  rb (plug (C1 ++ Fr false c node k r :: C) (T c' y' n' k' E)) m →
  (∀ d c0 n0 k0 sib C0, C1 ++ Fr false c node k r :: C = Fr d c0 n0 k0 sib :: C0 → dir = d) →
  (∀ s' C' x' ret dir, unlinked F nd C l r node s' C' x' ret dir → Q (ret, dir) s') →
  wp (base ← ds_tree_remove_leaf n';
      ds_tree_node_replace node n';;
      mret (if bool_decide (base = Some node) then Some n' else base, dir)) Q s.
Proof.
  intros Hz HC1 Hplug Hrb Hdir HQ.
  destruct (plug_right_inorder C1 c' n' k' y' HC1) as (A & HA & HA'). rewrite Hplug in HA'.
  pose proof (zip_nodup _ _ _ _ _ Hz) as Hnd. rewrite <- locs_plug, locs_inorder in Hnd.
  rewrite inorder_path, Hplug in Hnd. cbn [tn inorder] in Hnd. rewrite HA' in Hnd.
  assert (n' ∉ (lft C ++ A ++ inorder y' ++ (node, k) :: inorder r ++ rgt C).*1 ∧ node ≠ n' ∧
    node ∉ (A ++ inorder y').*1) as (Hn' & Hnn & HnA).
  { revert Hnd. clear. rewrite !fmap_app, !fmap_cons, !fmap_app. cbn [fst].
    rewrite <- !app_assoc. simpl. rewrite !NoDup_app, !NoDup_cons, !NoDup_app. set_solver. }
  apply rb_unplug in Hrb as (m' & Hrb & Hrbc). simpl in Hrbc.
  destruct (leaf_tn c' y' n' k' E) as (d & x & Ht & Hd & Hinox); [by right|].
  rewrite Ht in Hz, Hrb. wp_seq. eapply ds_tree_remove_leaf_spec; [done|done|].
  intros s1 x' Hx' Hz1.
  pose proof (leaf_left_intro _ _ _ _ _ _ _ Hrb Hrbc) as Hleaf. rewrite <- Hx' in Hleaf.
  set (ret := match c', tcolor x with BLACK, BLACK => parent_of _ | _, _ => None end) in *.
  assert (inorder x' = inorder y') as Hinox'.
  { rewrite Hx', inorder_blackened, Hinox. simpl. by rewrite app_nil_r. }
  clear Hx' Hinox. clearbody ret.
  rewrite zip_app, zip_cons in Hz1. simpl in Hz1.
  assert (inorder (plug C1 x') = A ++ inorder y') as HA1 by (by rewrite HA, Hinox').
  assert (n' ∉ locs (plug C (T c (plug C1 x') node k r))) as Hn1.
  { rewrite locs_inorder, inorder_plug. cbn [inorder]. by rewrite HA1, <- !app_assoc. }
  rewrite locs_plug in Hn1. wp_seq.
  eapply ds_tree_node_replace_spec; [done|apply lookup_insert_eq|set_solver|set_solver|].
  intros s2 Hz2. rewrite otn_key_fnode in Hz2. apply wp_ret.
  apply (zip_cons _ _ _ _ false) in Hz2. rewrite <- zip_app in Hz2.
  eapply HQ. eexists _, _. split_and!; [done|eapply leaf_left_rename; [|done]| | | |].
  - intros Hin. apply HnA. rewrite <- HA1, <- locs_inorder, locs_plug.
    apply elem_of_app. right. revert Hin. clear.
    induction C1 as [|[d c n k sib] C1 IH]; simpl; set_solver.
  - intros d2 c2 n2 k2 sib2 C0 Heq. destruct C1 as [|f C1]; simpl in *; simplify_eq; by eapply Hdir.
  - rewrite inorder_path. cbn [tn inorder]. by rewrite HA1, HA', <- !app_assoc.
  - by rewrite lookup_insert_eq.
  - intros p Hp Hpn. rewrite lookup_insert_ne by done. rewrite lookup_insert_ne; [done|].
    intros <-. apply Hp. rewrite inorder_path. cbn [tn inorder].
    rewrite !fmap_app, fmap_cons. set_solver.
Qed.

(** Dropping an entry from the abstract value. *)
Definition list_del (node : positive) (L : list (positive * K)) : list (positive * K) :=
  filter (λ a, a.1 ≠ node) L.

Lemma list_del_notin node L : node ∉ L.*1 → list_del node L = L.
Proof.
  unfold list_del. induction L as [|[n k] L IH]; intros Hn; [done|].
  rewrite filter_cons_True by set_solver. rewrite IH; set_solver.
Qed.
Lemma list_del_elem node L p : p ∈ (list_del node L).*1 ↔ p ∈ L.*1 ∧ p ≠ node.
Proof.
  unfold list_del. rewrite !list_elem_of_fmap. split.
  - intros (a & -> & [Ha Hin]%list_elem_of_filter). eauto.
  - intros [(a & -> & Hin) Hne]. exists a. by rewrite list_elem_of_filter.
Qed.
Lemma list_del_mid node k L1 L2 :
  NoDup ((L1 ++ (node, k) :: L2).*1) → list_del node (L1 ++ (node, k) :: L2) = L1 ++ L2.
Proof.
  intros Hnd. rewrite fmap_app, fmap_cons in Hnd. simpl in Hnd.
  apply NoDup_app in Hnd as (_ & Hd & [Hn _]%NoDup_cons).
  unfold list_del. rewrite filter_app, filter_cons_False by (simpl; naive_solver).
  fold (list_del node L1) (list_del node L2). rewrite !list_del_notin; [done|done|].
  intros Hin. apply (Hd node Hin). set_solver.
Qed.

Lemma ds_tree_node_remove_zip F nd s C c l node k r m Q :
  zip F nd s C (T c l node k r) → rb (plug C (T c l node k r)) m →
  (∀ s' t' F', zip F' (wrapu 32 (nd + 1)) s' [] t' → rbtree t' →
     inorder t' = lft C ++ (inorder l ++ inorder r) ++ rgt C →
     (∀ p, p ∉ (inorder t').*1 → p ≠ node → F' !! p = F !! p) → is_Some (F' !! node) → Q tt s') →
  wp (ds_tree_node_remove node) Q s.
Proof.
  intros Hz Hm HQ. pose proof Hz as Hz0. apply zip_plug in Hz0.
  pose proof (zip_size _ _ _ _ Hz0) as Hsize. pose proof (tsize_plug C (T c l node k r)) as Hts.
  pose proof (zip_nodup _ _ _ _ _ Hz0) as Hnd. simpl in Hnd. rewrite app_nil_r in Hnd.
  rewrite locs_inorder, inorder_plug in Hnd. cbn [inorder] in Hnd.
  pose proof (zip_rep _ _ _ _ _ Hz) as (Hn & _ & _).
  destruct (rb_unplug _ _ _ Hm) as (m' & Hrb & Hrbc). simpl in Hrbc.
  unfold ds_tree_node_remove. do 6 wp_step. wp_seq. set (fuel := size (nodes s)) in *.
  assert (∀ s' C' x' ret dir, unlinked F nd C l r node s' C' x' ret dir →
    wp (ds_tree_remove_climb fuel ret dir;;
        root ← rd_root;
        when_ptr root (λ r, store r (set_prop OTN_PROP_BLACK));;
        store node (set_child false None);;
        store node (set_child true None);;
        modify (λ s, with_ndel (wrapu 32 (ot_ndel s + 1)) s)) Q s') as Hrest.
  { intros s' C' x' ret dir (F' & nn & Hz' & Hleaf & Hdir & Hino & HF' & Hf). wp_seq.
    pose proof (tsize_plug C' x') as Hts'. rewrite <- (length_inorder (plug C' x')) in Hts'.
    pose proof (length_inorder (plug C (T c l node k r))) as Hlen.
    rewrite inorder_plug in Hlen. cbn [inorder] in Hlen. rewrite Hino in Hts'.
    rewrite !length_app in *. simpl in *.
    eapply wp_climb_leaf; [done|done|lia|done|]. intros s2 t2 m2 Hz2 Hrb2 Hino2.
    eapply wp_remove_finish; [done|done| |done|].
    - rewrite locs_inorder, Hino2, Hino. revert Hnd. clear.
      rewrite !fmap_app, fmap_cons. rewrite !NoDup_app, NoDup_cons. set_solver.
    - intros s3 t3 X Hz3 Hrb3 Hino3. eapply HQ; [done|done|by rewrite Hino3, Hino2| |].
      + intros p Hp Hpn. rewrite lookup_insert_ne by done. apply Hf; [|done].
        by rewrite <- Hino2, <- Hino3.
      + rewrite lookup_insert_eq. eauto. }
  destruct (ptr_of l) as [lp|] eqn:Hl, (ptr_of r) as [rp|] eqn:Hr; unfold otn_child; simpl;
    [|eapply wp_remove_outer; [done..| |done]..].
  - eapply (wp_predecessor _ _ _ _ _ _ _ _ _ _ _ (λ rnode dir, base ← ds_tree_remove_leaf rnode;
      ds_tree_node_replace node rnode;;
      mret (if bool_decide (base = Some node) then Some rnode else base, dir))); [done|done| |].
    { simpl in *. lia. }
    intros C1 c' n' k' y' dir HC1 Hplug Hz' Hdir.
    eapply (wp_swap_predecessor F nd s C); [done|done|done| |done|done].
    rewrite plug_app. simpl. by rewrite Hplug.
  - right. by destruct r.
  - left. by destruct l.
  - left. by destruct l.
Qed.

(** [ds_tree_node_remove] on a store that holds a tree with that node. *)
Lemma ds_tree_node_remove_holds s L node :
  holds s L → node ∈ L.*1 →
  wp (ds_tree_node_remove node)
    (λ _ s', holds s' (list_del node L) ∧ ot_ndel s' = wrapu 32 (ot_ndel s + 1) ∧
       is_Some (nodes s' !! node) ∧ ∀ l, l ∉ L.*1 → nodes s' !! l = nodes s !! l) s.
Proof.
  intros (t & Hz & [Hblack [m Hm]] & <-) Hin. rewrite <- locs_inorder in Hin.
  pose proof (zip_nodup _ _ _ _ _ Hz) as Hnd. simpl in Hnd. rewrite app_nil_r, locs_inorder in Hnd.
  destruct (locs_focus t node Hin) as (C & c & l & k & r & ->). apply zip_plug in Hz.
  eapply ds_tree_node_remove_zip; [done|done|].
  intros s' t' F' Hz' Hrb' Hino Hf [X HX].
  assert (inorder t' = list_del node (inorder (plug C (T c l node k r)))) as Hino'.
  { rewrite inorder_plug in Hnd |- *. cbn [inorder] in *. rewrite <- !app_assoc in *. simpl in *.
    rewrite app_assoc in Hnd |- *. rewrite list_del_mid by done. by rewrite Hino, <- !app_assoc. }
  destruct (zip_holds _ _ _ _ _ Hz' Hrb' Hino') as (? & ? & Hf'). split_and!; [done..| |].
  - rewrite Hf'; [by eexists|]. by intros [_ ?]%list_del_elem.
  - intros p Hp. assert (p ∉ (list_del node (inorder (plug C (T c l node k r)))).*1) as Hp'.
    { by intros [? _]%list_del_elem. }
    rewrite Hf' by done. apply Hf; [by rewrite Hino'|]. intros ->. apply Hp.
    rewrite <- locs_inorder, locs_plug. set_solver.
Qed.
End remove.
