(* ===== verification/DsTreeWalk.v ===== *)
(** Lookup, ordered traversal, iterators and the health check of [DsTree]. *)
From Stdlib Require Import Sorting.Sorted.
From S2P Require Import Prelude DsTree DsTreeRep DsTreeInv DsTreeInsert DsTreeRemove.

Section walk.
Context {K : Type}.
Implicit Types (t x y l r : tree K) (C : list (frame K)) (s : ds_tree K) (L : list (positive * K)).

(** *** Height *)

Fixpoint height t : nat :=
  match t with E => 0 | T _ l _ _ r => S (height l `max` height r) end.

Lemma rb_height t m : rb t m → height t ≤ 2 * m + match tcolor t with RED => 1 | BLACK => 0 end.
Proof.
  induction 1 as [|l n k r m Hl IHl Hr IHr Hcl Hcr|l n k r m Hl IHl Hr IHr]; simpl in *; [lia|..].
  - rewrite Hcl in IHl. rewrite Hcr in IHr. lia.
  - destruct (tcolor l), (tcolor r); lia.
Qed.
Lemma rb_size t m : rb t m → 2 ^ m ≤ S (tsize t).
Proof. induction 1; simpl in *; lia. Qed.

(** A red-black tree with [n] entries is at most [2 * log2 (n + 1)] high. *)
Lemma rbtree_height t : rbtree t → height t ≤ 2 * Nat.log2 (S (tsize t)).
Proof.
  intros [Hc [m Hm]]. pose proof (rb_height t m Hm) as Hh. rewrite Hc in Hh.
  pose proof (rb_size t m Hm) as Hs. apply Nat.log2_le_mono in Hs.
  rewrite Nat.log2_pow2 in Hs by lia. lia.
Qed.

Lemma height_tsize t : height t ≤ tsize t.
Proof. induction t; simpl; lia. Qed.

(** Part of a sorted list is sorted. *)
Lemma sorted_filter (cmp : K → K → Z) (P : positive * K → Prop) `{∀ e, Decision (P e)} L :
  sorted cmp L → sorted cmp (filter P L).
Proof.
  unfold sorted. induction 1 as [|a L _ IH Ha]; [constructor|].
  destruct (decide (P a)); [rewrite filter_cons_True by done|by rewrite filter_cons_False].
  constructor; [done|]. rewrite Forall_forall in *. intros b [_ Hb]%list_elem_of_filter. auto.
Qed.

(** *** Lookup *)

Section find.
Context (cmp : K → K → Z) `{!KeyOrder cmp}.

(** A result of a lookup: a node with that key, or no such entry. *)
Definition found (key : K) L (res : option positive) : Prop :=
  match res with
  | Some n => ∃ k, (n, k) ∈ L ∧ cmp k key = 0%Z
  | None => ∀ n k, (n, k) ∈ L → cmp k key ≠ 0%Z
  end.

Lemma ds_tree_find_loop_spec s fuel key par t :
  rep (nodes s) par t → sorted cmp (inorder t) → height t ≤ fuel →
  wp (ds_tree_find_loop cmp fuel key (ptr_of t)) (λ res s', s' = s ∧ found key (inorder t) res) s.
Proof.
  revert par t. induction fuel as [|fuel IH]; intros par t Hr Hs Hh;
    (destruct t as [|c l n k r]; [by apply wp_ret; split; [|set_solver]|]); simpl in *; [lia|].
  destruct Hr as (Hn & Hl & Hr).
  apply (sorted_app cmp) in Hs as (Hsl & Hsr' & Hle). inversion Hsr' as [|? ? Hsr Hge]; subst.
  rewrite Forall_forall in Hge. repeat wp_step.
  destruct (cmp k key =? 0)%Z eqn:Heq.
  { apply wp_ret. split; [done|]. exists k. split; [set_solver|lia]. }
  do 2 wp_step. destruct (cmp k key <? 0)%Z eqn:Hlt; unfold otn_child; simpl.
  - eapply wp_mono; [eapply IH; [done|done|lia]|]. simpl. intros res s' [-> Hf]. split; [done|].
    destruct res as [n'|]; simpl in *; [destruct Hf as (k' & ? & ?); exists k'; set_solver|].
    intros n' k'. rewrite elem_of_app, elem_of_cons. intros [Hin|[[= -> ->]|Hin]]; [|lia|eauto].
    specialize (Hle (n', k') (n, k) Hin ltac:(set_solver)). unfold entry_le in Hle. simpl in Hle.
    pose proof (cmp_le_lt cmp k' k key Hle). lia.
  - eapply wp_mono; [eapply IH; [done|done|lia]|]. simpl. intros res s' [-> Hf]. split; [done|].
    destruct res as [n'|]; simpl in *; [destruct Hf as (k' & ? & ?); exists k'; set_solver|].
    intros n' k'. rewrite elem_of_app, elem_of_cons. intros [Hin|[[= -> ->]|Hin]]; [eauto|lia|].
    specialize (Hge (n', k') Hin). unfold entry_le in Hge. simpl in Hge. intros Hz.
    pose proof (cmp_trans cmp k k' key Hge). lia.
Qed.

Lemma ds_tree_find_holds s L key :
  holds s L → sorted cmp L →
  wp (ds_tree_find cmp key) (λ res s', s' = s ∧ found key L res) s.
Proof.
  intros (t & Hz & _ & <-) Hs. unfold ds_tree_find. do 2 wp_step. rewrite (zip_root _ _ _ _ _ Hz).
  do 2 wp_step. pose proof (zip_size _ _ _ _ Hz). pose proof (height_tsize t).
  eapply ds_tree_find_loop_spec; [by apply zip_rep in Hz|done|lia].
Qed.

(** More fuel does not change the result of a lookup. *)
Lemma ds_tree_find_loop_fuel fuel fuel' key p s res :
  ds_tree_find_loop cmp fuel key p s = Some res → fuel ≤ fuel' →
  ds_tree_find_loop cmp fuel' key p s = Some res.
Proof.
  revert fuel' p s. induction fuel as [|fuel IH]; intros fuel' [n|] s; simpl;
    try (by destruct fuel'); intros Hrun Hle;
    (destruct fuel' as [|fuel']; [done || lia|]); simpl;
    unfold rd_key, rd_child, mbind, M_bind, mret, M_ret in *;
    destruct (load n s) as [[nd s']|]; try done; destruct (cmp _ _ =? 0)%Z; try done.
  destruct (load n s') as [[nd' s'']|]; [|done]. apply IH; [done|lia].
Qed.
End find.

(** *** The extreme nodes and the neighbours *)

Lemma ds_tree_node_walk_head F nd fuel s C c l n k r Q :
  zip F nd s C (T c l n k r) → tsize (T c l n k r) ≤ fuel →
  (∀ p, Some p = fst <$> head (inorder (T c l n k r)) → Q p s) →
  wp (ds_tree_node_walk fuel n false) Q s.
Proof.
  intros Hz Hf HQ. simpl in Hf. eapply (ds_tree_node_walk_spec _ _ _ _ _ false); [done|lia|].
  intros C1 c' n' k' y' _ Hplug HC1. apply HQ. simpl in Hplug. rewrite <- Hplug, inorder_plug.
  by rewrite lft_left.
Qed.
Lemma ds_tree_node_walk_last F nd fuel s C c l n k r Q :
  zip F nd s C (T c l n k r) → tsize (T c l n k r) ≤ fuel →
  (∀ p, Some p = fst <$> last (inorder (T c l n k r)) → Q p s) →
  wp (ds_tree_node_walk fuel n true) Q s.
Proof.
  intros Hz Hf HQ. simpl in Hf. eapply (ds_tree_node_walk_spec _ _ _ _ _ true); [done|lia|].
  intros C1 c' n' k' y' _ Hplug HC1. apply HQ. simpl in Hplug. rewrite <- Hplug, inorder_plug.
  rewrite rgt_right by done. simpl. by rewrite app_nil_r, app_assoc, last_snoc.
Qed.

Lemma zip_size_focus F nd s C t : zip F nd s C t → length C + tsize t ≤ size (nodes s).
Proof. intros Hz%zip_plug%zip_size. pose proof (tsize_plug C t). lia. Qed.

(** The smallest and the largest node of a subtree. *)
Lemma ds_tree_node_min_spec F nd s C t Q :
  zip F nd s C t → Q (fst <$> head (inorder t)) s → wp (ds_tree_node_min (ptr_of t)) Q s.
Proof.
  intros Hz HQ. pose proof (zip_size_focus _ _ _ _ _ Hz).
  destruct t as [|c l n k r]; [by apply wp_ret|]. unfold ds_tree_node_min. cbn [ptr_of].
  do 2 wp_step. wp_seq. eapply ds_tree_node_walk_head; [done|lia|].
  intros p Hp. apply wp_ret. by rewrite Hp.
Qed.
Lemma ds_tree_node_max_spec F nd s C t Q :
  zip F nd s C t → Q (fst <$> last (inorder t)) s → wp (ds_tree_node_max (ptr_of t)) Q s.
Proof.
  intros Hz HQ. pose proof (zip_size_focus _ _ _ _ _ Hz).
  destruct t as [|c l n k r]; [by apply wp_ret|]. unfold ds_tree_node_max. cbn [ptr_of].
  do 2 wp_step. wp_seq. eapply ds_tree_node_walk_last; [done|lia|].
  intros p Hp. apply wp_ret. by rewrite Hp.
Qed.

(** Climbing to the first ancestor on the other side. *)
Lemma ds_tree_node_climb_spec F nd fuel s C t n (dir : bool) Q :
  zip F nd s C t → ptr_of t = Some n → length C < fuel →
  Q (fst <$> (if dir : bool then head (rgt C) else last (lft C))) s →
  wp (ds_tree_node_climb fuel (Some n) dir) Q s.
Proof.
  revert C t n. induction fuel as [|fuel IH]; intros C t n Hz Hn Hlen HQ; [lia|]. simpl.
  assert (∃ c l k r, t = T c l n k r) as (c & l & k & r & ->).
  { destruct t; [done|]. injection Hn as ->. eauto 10. }
  pose proof (zip_rep _ _ _ _ _ Hz) as (Hnode & _ & _). do 2 wp_step. wp_seq.
  destruct C as [|[d c' p kp sib] C]; simpl.
  - apply wp_ret. simpl. apply wp_ret. by destruct dir.
  - pose proof (zip_lookup_ctx _ _ _ _ _ _ _ _ _ _ Hz) as Hp.
    pose proof (zip_sib_ne _ _ _ _ _ _ _ _ _ _ n Hz eq_refl) as Hne. simpl in Hp.
    repeat wp_step.
    assert (bool_decide (Some n = otn_child (fnode d c' kp (parent_of C) (Some n) (ptr_of sib)) dir) =
      eqb d dir) as ->.
    { unfold otn_child, fnode. destruct d, dir; simpl;
        first [by apply bool_decide_eq_true_2 | apply bool_decide_eq_false_2; congruence]. }
    rewrite zip_cons in Hz. destruct (eqb d dir) eqn:Heq.
    + apply eqb_prop in Heq. subst d. eapply IH; [done|by rewrite ptr_of_tn|simpl in *; lia|].
      by destruct dir.
    + apply wp_ret. destruct d, dir; try done; simpl in HQ.
      by rewrite app_assoc, last_snoc in HQ.
Qed.

(** The successor and the predecessor of the focus. *)
Lemma ds_tree_node_next_spec F nd s C c l n k r Q :
  zip F nd s C (T c l n k r) → Q (fst <$> head (inorder r ++ rgt C)) s →
  wp (ds_tree_node_next (Some n)) Q s.
Proof.
  intros Hz HQ. unfold ds_tree_node_next. pose proof (zip_size_focus _ _ _ _ _ Hz) as Hsize.
  pose proof (zip_rep _ _ _ _ _ Hz) as (Hn & _ & _). do 2 wp_step. unfold otn_child. simpl.
  destruct r as [|cr lr nr kr rr]; simpl.
  - do 2 wp_step. eapply ds_tree_node_climb_spec; [done|done|simpl in Hsize; lia|done].
  - rewrite <- (ptr_of_tn false cr lr nr kr rr).
    apply (zip_cons _ _ _ _ true) in Hz. eapply ds_tree_node_min_spec; [done|].
    simpl in *. destruct (inorder lr); simpl in *; done.
Qed.
Lemma ds_tree_node_prev_spec F nd s C c l n k r Q :
  zip F nd s C (T c l n k r) → Q (fst <$> last (lft C ++ inorder l)) s →
  wp (ds_tree_node_prev (Some n)) Q s.
Proof.
  intros Hz HQ. unfold ds_tree_node_prev. pose proof (zip_size_focus _ _ _ _ _ Hz) as Hsize.
  pose proof (zip_rep _ _ _ _ _ Hz) as (Hn & _ & _). do 2 wp_step. unfold otn_child. simpl.
  destruct l as [|cr lr nr kr rr]; simpl in *.
  - rewrite app_nil_r in HQ. do 2 wp_step.
    eapply ds_tree_node_climb_spec; [done|done|simpl in Hsize; lia|done].
  - rewrite <- (ptr_of_tn false cr lr nr kr rr).
    apply (zip_cons _ _ _ _ false) in Hz. eapply ds_tree_node_max_spec; [done|].
    simpl in *. rewrite last_app in HQ. destruct (last (inorder lr ++ _)) eqn:Hl; [done|].
    apply last_None in Hl. by destruct (inorder lr).
Qed.

(** *** Traversal of the abstract value *)

Lemma holds_focus s L1 n k L2 :
  holds s (L1 ++ (n, k) :: L2) →
  ∃ C c l r, zip (nodes s) (ot_ndel s) s C (T c l n k r) ∧
    L1 = lft C ++ inorder l ∧ L2 = inorder r ++ rgt C.
Proof.
  intros Hh. pose proof (holds_nodup _ _ Hh) as Hnd.
  destruct Hh as (t & Hz & Hrb & Hino).
  destruct (locs_focus t n) as (C & c & l & k' & r & ->).
  { rewrite locs_inorder, Hino, fmap_app. set_solver. }
  rewrite inorder_plug in Hino. cbn [inorder] in Hino. rewrite <- !app_assoc in Hino.
  cbn [app] in Hino. rewrite app_assoc in Hino. symmetry in Hino.
  exists C, c, l, r. apply zip_plug in Hz.
  rewrite fmap_app, fmap_cons in Hnd. cbn [fst] in Hnd.
  assert (L1 = lft C ++ inorder l ∧ (n, k) = (n, k') ∧ L2 = inorder r ++ rgt C) as (-> & [= <-] & ->);
    [|done].
  revert Hino Hnd. generalize (lft C ++ inorder l) (inorder r ++ rgt C). clear.
  induction L1 as [|[n1 k1] L1 IH]; intros [|[n2 k2] L3] L4; simpl; intros Heq Hnd; simplify_eq.
  - done.
  - apply NoDup_cons in Hnd as [Hnd _]. rewrite fmap_app, fmap_cons in Hnd. set_solver.
  - apply NoDup_cons in Hnd as [Hnd _]. set_solver.
  - apply NoDup_cons in Hnd as [_ Hnd]. destruct (IH L3 L4) as (-> & ? & ->); done.
Qed.

Lemma ds_tree_head_holds s L :
  holds s L → wp ds_tree_head (λ p s', s' = s ∧ p = fst <$> head L) s.
Proof.
  intros (t & Hz & _ & <-). unfold ds_tree_head. do 2 wp_step. rewrite (zip_root _ _ _ _ _ Hz).
  by eapply ds_tree_node_min_spec.
Qed.
Lemma ds_tree_tail_holds s L :
  holds s L → wp ds_tree_tail (λ p s', s' = s ∧ p = fst <$> last L) s.
Proof.
  intros (t & Hz & _ & <-). unfold ds_tree_tail. do 2 wp_step. rewrite (zip_root _ _ _ _ _ Hz).
  by eapply ds_tree_node_max_spec.
Qed.
Lemma ds_tree_node_next_holds s L1 n k L2 :
  holds s (L1 ++ (n, k) :: L2) →
  wp (ds_tree_node_next (Some n)) (λ p s', s' = s ∧ p = fst <$> head L2) s.
Proof.
  intros (C & c & l & r & Hz & _ & ->)%holds_focus. by eapply ds_tree_node_next_spec.
Qed.
Lemma ds_tree_node_prev_holds s L1 n k L2 :
  holds s (L1 ++ (n, k) :: L2) →
  wp (ds_tree_node_prev (Some n)) (λ p s', s' = s ∧ p = fst <$> last L1) s.
Proof.
  intros (C & c & l & r & Hz & -> & _)%holds_focus. by eapply ds_tree_node_prev_spec.
Qed.

(** *** Iterators *)

(** The iterator [it] has the entries [L2] still to visit. *)
Definition iter_rest s L2 (it : ds_tree_iter) : Prop :=
  oti_next it = fst <$> head L2 ∧ oti_ndel it = ot_ndel s.

Lemma ds_tree_ifirst_holds s L :
  holds s L →
  wp ds_tree_ifirst (λ '(p, it) s', s' = s ∧ p = fst <$> head L ∧ oti_curr it = p ∧
    iter_rest s (tail L) it) s.
Proof.
  intros Hh. unfold ds_tree_ifirst. do 4 wp_step. pose proof Hh as (t & Hz & _ & Hino).
  rewrite (zip_root _ _ _ _ _ Hz). simpl. destruct t as [|c l n k r].
  { simpl in *. subst L. by apply wp_ret. }
  simpl. wp_seq. rewrite <- (ptr_of_tn false c l n k r).
  eapply ds_tree_node_min_spec; [done|]. simpl. wp_seq. simpl in Hino. rewrite Hino.
  destruct L as [|[n0 k0] L]; [by destruct (inorder l)|]. simpl.
  eapply wp_mono; [by eapply (ds_tree_node_next_holds _ [])|]. intros p s' [-> ->].
  by apply wp_ret.
Qed.

Lemma ds_tree_inext_holds s L1 L2 it :
  holds s (L1 ++ L2) → iter_rest s L2 it →
  wp (ds_tree_inext it) (λ '(p, it') s', s' = s ∧ p = fst <$> head L2 ∧ oti_curr it' = p ∧
    iter_rest s (tail L2) it') s.
Proof.
  intros Hh [Hnext Hndel]. unfold ds_tree_inext, ds_tree_inext_err. wp_seq. do 2 wp_step.
  rewrite bool_decide_eq_true_2 by done. rewrite Hnext.
  destruct L2 as [|[n k] L2]; simpl; [by repeat wp_step|].
  wp_seq. eapply wp_mono; [by eapply ds_tree_node_next_holds|]. intros p s' [-> ->].
  by repeat wp_step.
Qed.

Lemma ds_tree_iremove_holds s L1 n k L2 it :
  holds s (L1 ++ (n, k) :: L2) → iter_rest s L2 it → oti_curr it = Some n →
  wp (ds_tree_iremove it) (λ '(p, it') s', p = Some n ∧ oti_curr it' = None ∧
    holds s' (L1 ++ L2) ∧ iter_rest s' L2 it' ∧ is_Some (nodes s' !! n) ∧
    ∀ a, a ∉ (L1 ++ (n, k) :: L2).*1 → nodes s' !! a = nodes s !! a) s.
Proof.
  intros Hh [Hnext Hndel] Hcurr. unfold ds_tree_iremove, ds_tree_iremove_err. wp_seq. do 2 wp_step.
  rewrite bool_decide_eq_true_2 by done. rewrite Hcurr. wp_seq.
  eapply wp_mono; [eapply ds_tree_node_remove_holds; [done|]|].
  { rewrite fmap_app. set_solver. }
  rewrite list_del_mid by (by eapply holds_nodup).
  intros [] s' (Hh' & Hd' & Hlive & Hf). repeat wp_step. split_and!; try done.
  split; [done|]. simpl. by rewrite Hndel.
Qed.

(** An iterator over a tree that lost a node since is recognized. *)
Lemma ndel_changes z : (0 ≤ z < 2 ^ 32)%Z → wrapu 32 (z + 1) ≠ z.
Proof.
  intros Hz. unfold wrapu. destruct (decide (z = 2 ^ 32 - 1)%Z) as [->|Hne].
  - by vm_compute.
  - rewrite Z.mod_small by lia. lia.
Qed.

(** *** The health check *)

(** The black height of a subtree without violations. *)
Fixpoint bh_of t : option nat :=
  match t with
  | E => Some 0
  | T c l _ _ r =>
      match bh_of l, bh_of r with
      | Some a, Some b =>
          if decide (a = b) then
            match c with
            | BLACK => Some (S a)
            | RED => if decide (tcolor l = BLACK ∧ tcolor r = BLACK) then Some a else None
            end
          else None
      | _, _ => None
      end
  end.

Lemma bh_of_rb t m : bh_of t = Some m ↔ rb t m.
Proof.
  split.
  - revert m. induction t as [|c l IHl n k r IHr]; simpl; intros m Hm; [simplify_eq; constructor|].
    destruct (bh_of l) as [a|], (bh_of r) as [b|]; try done. case_decide; [subst b|done].
    destruct c; [case_decide; [|done]|]; simplify_eq; [apply rb_R|apply rb_B]; naive_solver.
  - induction 1 as [|l n k r m Hl IHl Hr IHr Hcl Hcr|l n k r m Hl IHl Hr IHr]; simpl; [done|..];
      rewrite IHl, IHr, decide_True by done; [|done]. by rewrite decide_True.
Qed.

Definition check_result (o : option nat) : Z :=
  match o with Some m => Z.of_nat m | None => (-1)%Z end.

Lemma check_result_neg o : (check_result o <? 0)%Z = bool_decide (o = None).
Proof. destruct o as [m|]; [|done]. change (bool_decide _) with false. apply Z.ltb_ge. simpl. lia. Qed.

Lemma ds_tree_check_r_spec s fuel par c l n k r :
  rep (nodes s) par (T c l n k r) → height (T c l n k r) ≤ fuel →
  wp (ds_tree_check_r fuel n) (λ z s', s' = s ∧ z = check_result (bh_of (T c l n k r))) s.
Proof.
  revert par c l n k r. induction fuel as [|fuel IH]; intros par c l n k r Hrep Hh; [simpl in Hh; lia|].
  pose proof Hrep as (Hn & Hl & Hr). simpl in Hh.
  assert (∀ (d : bool) x, ptr_of x = otn_child (Node k c par (ptr_of l) (ptr_of r)) d →
    rep (nodes s) (Some n) x → height x ≤ fuel →
    wp (y ← rd_child n d;
        match y with
        | None => mret 0%Z
        | Some p => lp ← rd_parent p;
            if bool_decide (lp = Some n) then ds_tree_check_r fuel p else mret (-1)%Z
        end) (λ z s', s' = s ∧ z = check_result (bh_of x)) s) as Hchild.
  { intros d x Hx Hrx Hhx. do 2 wp_step. rewrite <- Hx.
    destruct x as [|cx lx nx kx rx]; [by apply wp_ret|]. pose proof Hrx as (Hnx & _ & _).
    simpl. do 2 wp_step. rewrite bool_decide_eq_true_2 by done. by eapply IH. }
  cbn [ds_tree_check_r]. wp_seq. eapply wp_mono; [apply (Hchild false l); [done|done|lia]|].
  intros rc0 s' [-> ->]. rewrite check_result_neg. cbn [bh_of].
  destruct (bh_of l) as [a|]; simpl; [|by apply wp_ret].
  wp_seq. eapply wp_mono; [apply (Hchild true r); [done|done|lia]|].
  intros rc1 s' [-> ->]. rewrite check_result_neg.
  destruct (bh_of r) as [b|]; simpl; [|by apply wp_ret].
  destruct (decide (a = b)) as [->|Hab].
  2: { replace (Z.of_nat a =? Z.of_nat b)%Z with false by lia. by apply wp_ret. }
  rewrite Z.eqb_refl. simpl. repeat wp_step. destruct c; simpl.
  2: { apply wp_ret. split; [done|lia]. }
  do 2 wp_step. unfold otn_child at 1. simpl. wp_seq. eapply wp_is_red; [done|].
  destruct (tcolor l); simpl; [by apply wp_ret|].
  do 2 wp_step. unfold otn_child at 1. simpl. wp_seq. eapply wp_is_red; [done|].
  by destruct (tcolor r); apply wp_ret.
Qed.

(** The check decides the red-black invariant of any represented tree. *)
Lemma ds_tree_check_zip F nd s t :
  zip F nd s [] t →
  wp ds_tree_check (λ z s', s' = s ∧ (0 ≤ z ↔ rbtree t)%Z) s.
Proof.
  intros Hz. unfold ds_tree_check. do 2 wp_step. rewrite (zip_root _ _ _ _ _ Hz).
  pose proof (zip_size _ _ _ _ Hz) as Hsize. pose proof (height_tsize t) as Hh.
  apply zip_rep in Hz. destruct t as [|c l n k r]; simpl.
  { apply wp_ret. split; [done|]. split; [|done]. intros _. split; [done|]. exists 0. constructor. }
  pose proof Hz as (Hn & _ & _). repeat wp_step. destruct c; simpl.
  { apply wp_ret. split; [done|]. split; [done|]. by intros [? _]. }
  do 2 wp_step. eapply wp_mono; [eapply ds_tree_check_r_spec; [done|lia]|].
  intros z s' [-> ->]. split; [done|]. unfold rbtree. setoid_rewrite <- bh_of_rb.
  destruct (bh_of _) as [m|]; simpl; split; [eauto|lia|done|naive_solver].
Qed.
End walk.
