(* ===== verification/DsTreeThms.v ===== *)
(** What [lib/ds] promises its clients about red-black trees. *)
From Stdlib Require Import Sorting.Sorted.
From S2P Require Import Prelude DsTree DsTreeRep DsTreeInv DsTreeInsert DsTreeRemove DsTreeWalk.

Section client.
Context {K : Type}.
Implicit Types (s : ds_tree K) (L : list (positive * K)).

Lemma ds_tree_init_holds (mem : gmap positive (ds_tree_node K)) : holds (__ds_tree_init mem) [].
Proof.
  exists E. split_and!; [|split; [done|exists 0; constructor]|done].
  split; simpl; try done. apply NoDup_nil_2.
Qed.

(** A tree of one node. *)
Lemma singleton_holds (n : positive) (k : K) (nd : Z) mem :
  holds (Tree (Some n) nd (<[n := Node k BLACK None None None]> mem)) [(n, k)].
Proof.
  exists (T BLACK E n k E). split_and!; [|split; [done|exists 1; auto with rb]|done].
  split; simpl; try done.
  - by rewrite lookup_insert_eq.
  - apply NoDup_singleton.
Qed.

(** C1. [ds_tree_insert] terminates on every red-black tree and adds exactly
    the new entry, in front of the first entry whose key is not smaller: the
    result is again a red-black tree (balanced, black root, consistent parent
    pointers), its entries are sorted, the deletion counter is unchanged and no
    memory outside the tree and the new node is written. *)
Theorem ds_tree_insert_correct (cmp : K → K → Z) `{!KeyOrder cmp} s L node key old :
  holds s L → sorted cmp L → nodes s !! node = Some old → node ∉ L.*1 →
  ∃ s', ds_tree_node_insert cmp node key s = Some (tt, s') ∧
    holds s' (list_ins cmp node key L) ∧ sorted cmp (list_ins cmp node key L) ∧
    list_ins cmp node key L ≡ₚ (node, key) :: L ∧
    ot_ndel s' = ot_ndel s ∧
    ∀ l, l ≠ node → l ∉ L.*1 → nodes s' !! l = nodes s !! l.
Proof.
  intros Hh Hs Hn Hnew.
  pose proof (ds_tree_node_insert_holds cmp s L node key old Hh Hs Hn Hnew) as Hwp.
  apply wp_some in Hwp as ([] & s' & Hrun & Hh' & Hd & Hf). exists s'.
  split_and!; auto using list_ins_sorted, list_ins_perm.
Qed.

(** C2. [ds_tree_remove] terminates on every red-black tree and every node in
    it: afterwards the tree is again a red-black tree, holds the other entries
    in the same order, the deletion counter advanced by one modulo 2^32, and no
    memory outside the tree is written; in particular the entries of a sorted
    tree stay sorted. *)
Theorem ds_tree_remove_correct (cmp : K → K → Z) s L1 node key L2 :
  holds s (L1 ++ (node, key) :: L2) → sorted cmp (L1 ++ (node, key) :: L2) →
  ∃ s', ds_tree_node_remove node s = Some (tt, s') ∧
    holds s' (L1 ++ L2) ∧ sorted cmp (L1 ++ L2) ∧
    ot_ndel s' = wrapu 32 (ot_ndel s + 1) ∧
    ∀ l, l ∉ (L1 ++ (node, key) :: L2).*1 → nodes s' !! l = nodes s !! l.
Proof.
  intros Hh Hs. pose proof (holds_nodup _ _ Hh) as Hnd.
  pose proof (ds_tree_node_remove_holds s _ node Hh) as Hwp.
  rewrite list_del_mid in Hwp by done.
  apply wp_some in Hwp as ([] & s' & Hrun & Hh' & Hd & _ & Hf); [|rewrite fmap_app; set_solver].
  apply sorted_app in Hs as (H1 & H2%StronglySorted_inv & H12). destruct H2 as [H2 _].
  exists s'. split_and!; try done. apply sorted_app.
  split_and!; [done|done|]. intros a b Ha Hb. apply H12; set_solver.
Qed.

(** C39. [ds_tree_find] on a sorted red-black tree of [n] entries returns a node
    with an equal key if there is one and NULL if there is none, changes
    nothing, and descends at most [2 * log2 (n + 1)] times. *)
Theorem ds_tree_find_logarithmic (cmp : K → K → Z) `{!KeyOrder cmp} s L key :
  holds s L → sorted cmp L →
  ∃ res, found cmp key L res ∧
    ds_tree_find_loop cmp (2 * Nat.log2 (S (length L))) key (ot_root s) s = Some (res, s) ∧
    ds_tree_find cmp key s = Some (res, s).
Proof.
  intros (t & Hz & Hrb & <-) Hs. rewrite length_inorder.
  pose proof (zip_rep _ _ _ _ _ Hz) as Hr. pose proof (zip_size _ _ _ _ Hz) as Hsize.
  pose proof (rbtree_height t Hrb) as Hlog. pose proof (height_tsize t) as Hh.
  rewrite (zip_root _ _ _ _ _ Hz). unfold root_of. simpl plug.
  destruct (proj1 (wp_some _ _ _) (ds_tree_find_loop_spec cmp s _ key _ t Hr Hs (le_n _)))
    as (res & s' & Hrun & -> & Hfound).
  exists res. split_and!; [done|by eapply ds_tree_find_loop_fuel|].
  unfold ds_tree_find, rd_root, gets, mbind, M_bind. rewrite (zip_root _ _ _ _ _ Hz).
  eapply ds_tree_find_loop_fuel; [done|]. lia.
Qed.

(** The neighbours of a node, and the first and last node, are those of the
    in-order list of entries: a walk with [ds_tree_head] and [ds_tree_next]
    visits every entry once in ascending order, one with [ds_tree_tail] and
    [ds_tree_prev] in descending order, and both end with NULL. *)
Theorem ds_tree_traversal_in_order s L1 node key L2 :
  holds s (L1 ++ (node, key) :: L2) →
  ds_tree_node_next (Some node) s = Some (fst <$> head L2, s) ∧
  ds_tree_node_prev (Some node) s = Some (fst <$> last L1, s) ∧
  ds_tree_head s = Some (fst <$> head (L1 ++ (node, key) :: L2), s) ∧
  ds_tree_tail s = Some (fst <$> last (L1 ++ (node, key) :: L2), s).
Proof.
  intros Hh. split_and!.
  - apply ds_tree_node_next_holds, wp_some in Hh as (? & ? & ? & -> & ->). done.
  - apply ds_tree_node_prev_holds, wp_some in Hh as (? & ? & ? & -> & ->). done.
  - apply ds_tree_head_holds, wp_some in Hh as (? & ? & ? & -> & ->). done.
  - apply ds_tree_tail_holds, wp_some in Hh as (? & ? & ? & -> & ->). done.
Qed.

(** [ds_tree_check] decides the red-black invariant: on a store that holds a
    tree of any shape and colouring with consistent links it returns a
    non-negative black height exactly when the root is black, no red node has a
    red child and all paths have the same number of black nodes. *)
Theorem ds_tree_check_decides s (t : tree K) :
  zip (nodes s) (ot_ndel s) s [] t →
  ∃ z, ds_tree_check s = Some (z, s) ∧ (0 ≤ z ↔ rbtree t)%Z.
Proof.
  intros Hz%ds_tree_check_zip%wp_some. destruct Hz as (z & s' & Hrun & -> & Hz). eauto.
Qed.

(** An iterator detects that a node was removed from its tree behind its
    back: once [ds_tree_remove] deleted any node, both [ds_tree_inext_err] and
    [ds_tree_iremove_err] return [DS_ITER_ERROR] and leave tree and iterator
    alone, and the asserting variants stop the program. *)
Theorem ds_tree_iter_stale s L node it :
  holds s L → node ∈ L.*1 → oti_ndel it = ot_ndel s → (0 ≤ ot_ndel s < 2 ^ 32)%Z →
  ∃ s', ds_tree_node_remove node s = Some (tt, s') ∧
    ds_tree_inext_err it s' = Some ((DS_ITER_ERROR, it), s') ∧
    ds_tree_iremove_err it s' = Some ((DS_ITER_ERROR, it), s') ∧
    ds_tree_inext it s' = None ∧ ds_tree_iremove it s' = None.
Proof.
  intros Hh Hn Hit Hr. destruct (proj1 (wp_some _ _ _) (ds_tree_node_remove_holds s L node Hh Hn))
    as ([] & s' & Hrun & _ & Hd & _). exists s'.
  assert (oti_ndel it ≠ ot_ndel s') as Hne.
  { rewrite Hd, Hit. apply not_eq_sym. by apply ndel_changes. }
  assert (ds_tree_inext_err it s' = Some ((DS_ITER_ERROR, it), s')) as H1.
  { unfold ds_tree_inext_err, gets, mbind, M_bind. by rewrite bool_decide_eq_false_2. }
  assert (ds_tree_iremove_err it s' = Some ((DS_ITER_ERROR, it), s')) as H2.
  { unfold ds_tree_iremove_err, gets, mbind, M_bind. by rewrite bool_decide_eq_false_2. }
  split_and!; try done.
  - unfold ds_tree_inext, mbind, M_bind. by rewrite H1.
  - unfold ds_tree_iremove, mbind, M_bind. by rewrite H2.
Qed.
End client.

(** [ds_int_cmp] has the sign of the comparison of its two [int] keys
    exactly when their difference is representable: it is a total order on
    keys that are less than 2^31 apart and inverts the order of all others. *)
Theorem ds_int_cmp_sign (a b : Z) :
  (- 2 ^ 31 ≤ a < 2 ^ 31)%Z → (- 2 ^ 31 ≤ b < 2 ^ 31)%Z →
  (Z.sgn (ds_int_cmp a b) = Z.sgn (a - b) ↔ - 2 ^ 31 ≤ a - b < 2 ^ 31)%Z.
Proof.
  intros Ha Hb. unfold ds_int_cmp, wraps. change (2 ^ (32 - 1))%Z with (2 ^ 31)%Z.
  assert (a - b < - 2 ^ 31 ∨ - 2 ^ 31 ≤ a - b < 2 ^ 31 ∨ 2 ^ 31 ≤ a - b)%Z as [H|[H|H]] by lia.
  - rewrite <- (Z.mod_unique_pos _ _ (-1) (a - b + 2 ^ 31 + 2 ^ 32)) by lia. lia.
  - rewrite Z.mod_small by lia. rewrite Z.add_simpl_r. lia.
  - rewrite <- (Z.mod_unique_pos _ _ 1 (a - b + 2 ^ 31 - 2 ^ 32)) by lia. lia.
Qed.

(** [ds_void_cmp] truncates the difference of two 64-bit pointers to [int]:
    it calls two addresses equal exactly when they are a multiple of 4 GiB
    apart, so it does not distinguish all pointers. *)
Theorem ds_void_cmp_truncates (a b : Z) :
  ds_void_cmp a b = 0%Z ↔ ∃ k : Z, (a - b = k * 2 ^ 32)%Z.
Proof.
  unfold ds_void_cmp, wraps. change (32 - 1)%Z with 31%Z. change (64 - 1)%Z with 63%Z.
  set (d := (a - b)%Z).
  pose proof (Z.div_mod (d + 2 ^ 63) (2 ^ 64) ltac:(lia)) as H64.
  set (e := ((d + 2 ^ 63) `mod` 2 ^ 64 - 2 ^ 63)%Z) in *.
  pose proof (Z.div_mod (e + 2 ^ 31) (2 ^ 32) ltac:(lia)) as H32.
  split.
  - intros H. exists (2 ^ 32 * ((d + 2 ^ 63) `div` 2 ^ 64) + (e + 2 ^ 31) `div` 2 ^ 32)%Z.
    fold d. lia.
  - intros [k Hk]. rewrite <- (Z.mod_unique_pos (e + 2 ^ 31) (2 ^ 32)
      (k - 2 ^ 32 * ((d + 2 ^ 63) `div` 2 ^ 64)) (2 ^ 31)); [done|lia|]. fold d in Hk. lia.
Qed.

(** *** Witnesses *)

(** A tree with the one key foo and a free node. *)
Definition foo_tree : ds_tree string :=
  Tree (Some 1%positive) 0
    (<[1%positive := Node "foo" BLACK None None None]>
      {[2%positive := Node "" BLACK None None None]}).

Lemma ds_tree_insert_correct_witness :
  ∃ s', ds_tree_node_insert ds_str_cmp 2%positive "bar" foo_tree = Some (tt, s') ∧
    holds s' [(2%positive, "bar"); (1%positive, "foo")].
Proof.
  destruct (ds_tree_insert_correct ds_str_cmp foo_tree [(1%positive, "foo")] 2%positive "bar"
    (Node "" BLACK None None None)) as (s' & Hrun & Hh & _).
  - apply singleton_holds.
  - repeat constructor.
  - vm_compute. reflexivity.
  - simpl. intros H%list_elem_of_singleton. discriminate.
  - exists s'. split; [exact Hrun|exact Hh].
Defined.

Lemma ds_tree_remove_correct_witness :
  ∃ s', ds_tree_node_remove 1%positive foo_tree = Some (tt, s') ∧ holds s' [] ∧ ot_ndel s' = 1%Z.
Proof.
  destruct (ds_tree_remove_correct ds_str_cmp foo_tree [] 1%positive "foo" [])
    as (s' & Hrun & Hh & _ & Hd & _).
  - apply singleton_holds.
  - repeat constructor.
  - exists s'. split; [exact Hrun|]. split; [exact Hh|exact Hd].
Defined.

Lemma ds_tree_find_logarithmic_witness :
  ∃ res, found ds_str_cmp "foo" [(1%positive, "foo")] res ∧
    ds_tree_find ds_str_cmp "foo" foo_tree = Some (res, foo_tree).
Proof.
  destruct (ds_tree_find_logarithmic ds_str_cmp foo_tree [(1%positive, "foo")] "foo")
    as (res & Hf & _ & Hrun).
  - apply singleton_holds.
  - repeat constructor.
  - exists res. split; [exact Hf|exact Hrun].
Defined.

Lemma ds_tree_traversal_in_order_witness :
  ds_tree_node_next (Some 1%positive) foo_tree = Some (None, foo_tree) ∧
  ds_tree_head foo_tree = Some (Some 1%positive, foo_tree).
Proof.
  destruct (ds_tree_traversal_in_order foo_tree [] 1%positive "foo" []) as (Hn & _ & Hh & _).
  - apply singleton_holds.
  - split; [exact Hn|exact Hh].
Defined.

Lemma ds_tree_check_decides_witness :
  ∃ z, ds_tree_check foo_tree = Some (z, foo_tree) ∧
    (0 ≤ z ↔ rbtree (T BLACK E 1%positive "foo" E))%Z.
Proof.
  apply ds_tree_check_decides. split; simpl; try done. apply NoDup_singleton.
Defined.

Lemma ds_tree_iter_stale_witness :
  ∃ s', ds_tree_node_remove 1%positive foo_tree = Some (tt, s') ∧
    ds_tree_inext (Iter (Some 1%positive) None 0) s' = None.
Proof.
  destruct (ds_tree_iter_stale foo_tree [(1%positive, "foo")] 1%positive
    (Iter (Some 1%positive) None 0)) as (s' & Hrun & _ & _ & Hn & _).
  - apply singleton_holds.
  - simpl. by apply list_elem_of_singleton.
  - reflexivity.
  - simpl. lia.
  - exists s'. split; [exact Hrun|exact Hn].
Defined.

Lemma ds_int_cmp_sign_witness :
  (Z.sgn (ds_int_cmp 2147483647 (-1)) = Z.sgn (2147483647 - -1) ↔
    - 2 ^ 31 ≤ 2147483647 - -1 < 2 ^ 31)%Z.
Proof. apply (ds_int_cmp_sign 2147483647 (-1)); lia. Defined.
