(* ===== verification/DsDlist.v ===== *)
(** The intrusive doubly linked list of [lib/ds]
    (src/lib/ds/src/ds_dlist.c.h): the pointer program over an explicit node
    store, and its refinement to sequences of nodes. *)
From S2P Require Import Prelude.

(** [struct ds_dlist_node] *)
Record ds_dlist_node := DNode { odn_prev : ptr; odn_next : ptr }.

(** [struct ds_dlist] together with the memory of its nodes. *)
Record ds_dlist := DList {
  od_head : ptr;
  od_tail : ptr;
  od_ndel : Z;
  dnodes : gmap positive ds_dlist_node }.

Definition set_prev (p : ptr) (n : ds_dlist_node) := DNode p (odn_next n).
Definition set_next (p : ptr) (n : ds_dlist_node) := DNode (odn_prev n) p.
Definition with_head (p : ptr) (s : ds_dlist) := DList p (od_tail s) (od_ndel s) (dnodes s).
Definition with_tail (p : ptr) (s : ds_dlist) := DList (od_head s) p (od_ndel s) (dnodes s).
Definition with_dndel (z : Z) (s : ds_dlist) := DList (od_head s) (od_tail s) z (dnodes s).
Definition with_dnodes f (s : ds_dlist) :=
  DList (od_head s) (od_tail s) (od_ndel s) (f (dnodes s)).

(** [*p], and an assignment to a field of [*p]. *)
Definition dload (p : loc) : M ds_dlist ds_dlist_node := λ s,
  match dnodes s !! p with Some n => Some (n, s) | None => None end.
Definition dstore (p : loc) (f : ds_dlist_node → ds_dlist_node) : M ds_dlist unit :=
  n ← dload p; modify (with_dnodes (<[p := f n]>)).
Definition rd_next (p : loc) : M ds_dlist ptr := n ← dload p; mret (odn_next n).
Definition rd_prev (p : loc) : M ds_dlist ptr := n ← dload p; mret (odn_prev n).

(** The lvalue [into] of [ds_dlist_insert_into]: the head pointer of the list or
    the [odn_next] field of a node. *)
Inductive place := at_head | at_next (l : loc).
Definition rd_place (p : place) : M ds_dlist ptr :=
  match p with at_head => gets od_head | at_next l => rd_next l end.
Definition wr_place (p : place) (v : ptr) : M ds_dlist unit :=
  match p with at_head => modify (with_head v) | at_next l => dstore l (set_next v) end.

(** [__ds_dlist_init] *)
Definition __ds_dlist_init (mem : gmap positive ds_dlist_node) : ds_dlist :=
  DList None None 0 mem.

(** [ds_dlist_insert_into] *)
Definition ds_dlist_insert_into (into : place) (node : loc) : M ds_dlist unit :=
  v ← rd_place into;
  dstore node (set_next v);;
  wr_place into (Some node);;
  nx ← rd_next node;
  match nx with
  | None =>
      t ← gets od_tail;
      dstore node (set_prev t);;
      modify (with_tail (Some node))
  | Some n =>
      p ← rd_prev n;
      dstore node (set_prev p);;
      nx ← rd_next node;
      n ← deref nx;
      dstore n (set_prev (Some node))
  end.

(** [ds_dlist_node_remove] *)
Definition ds_dlist_node_remove (node : loc) : M ds_dlist unit :=
  p ← rd_prev node;
  match p with
  | None => nx ← rd_next node; modify (with_head nx)
  | Some p => nx ← rd_next node; dstore p (set_next nx)
  end;;
  nx ← rd_next node;
  match nx with
  | None => p ← rd_prev node; modify (with_tail p)
  | Some n => p ← rd_prev node; dstore n (set_prev p)
  end;;
  dstore node (set_prev None);;
  dstore node (set_next None);;
  modify (λ s, with_dndel (wrapu 32 (od_ndel s + 1)) s).

(** [ds_dlist_is_empty], [ds_dlist_next], [ds_dlist_prev], [ds_dlist_head],
    [ds_dlist_tail] *)
Definition ds_dlist_is_empty : M ds_dlist bool := gets (λ s, bool_decide (od_head s = None)).
Definition ds_dlist_next (data : loc) : M ds_dlist ptr := rd_next data.
Definition ds_dlist_prev (data : loc) : M ds_dlist ptr := rd_prev data.
Definition ds_dlist_head : M ds_dlist ptr := gets od_head.
Definition ds_dlist_tail : M ds_dlist ptr := gets od_tail.

(** [ds_dlist_insert_head], [ds_dlist_insert_after], [ds_dlist_insert_before],
    [ds_dlist_insert_tail] *)
Definition ds_dlist_insert_head (data : loc) : M ds_dlist unit :=
  ds_dlist_insert_into at_head data.
Definition ds_dlist_insert_after (after data : loc) : M ds_dlist unit :=
  ds_dlist_insert_into (at_next after) data.
Definition ds_dlist_insert_before (before data : loc) : M ds_dlist unit :=
  p ← rd_prev before;
  match p with
  | None => ds_dlist_insert_head data
  | Some p => ds_dlist_insert_into (at_next p) data
  end.
Definition ds_dlist_insert_tail (data : loc) : M ds_dlist unit :=
  t ← gets od_tail;
  match t with
  | None => ds_dlist_insert_head data
  | Some t => ds_dlist_insert_into (at_next t) data
  end.

(** [ds_dlist_remove] and the removals relative to the ends or to a node *)
Definition ds_dlist_remove (data : loc) : M ds_dlist unit := ds_dlist_node_remove data.
Definition remove_ptr (rm : ptr) : M ds_dlist ptr :=
  match rm with
  | None => mret None
  | Some n => ds_dlist_node_remove n;; mret (Some n)
  end.
Definition ds_dlist_remove_head : M ds_dlist ptr := rm ← gets od_head; remove_ptr rm.
Definition ds_dlist_remove_tail : M ds_dlist ptr := rm ← gets od_tail; remove_ptr rm.
Definition ds_dlist_remove_after (after : loc) : M ds_dlist ptr :=
  node ← rd_next after; remove_ptr node.
Definition ds_dlist_remove_before (before : loc) : M ds_dlist ptr :=
  node ← rd_prev before; remove_ptr node.

(** *** Iterators *)

(** [struct ds_dlist_iter]; [odi_list] is the list of the store. *)
Record ds_dlist_iter := DIter { odi_curr : ptr; odi_next : ptr; odi_ndel : Z }.

Definition ds_dlist_ifirst : M ds_dlist (ptr * ds_dlist_iter) :=
  curr ← gets od_head;
  next ← match curr with None => mret None | Some c => rd_next c end;
  ndel ← gets od_ndel;
  mret (curr, DIter curr next ndel).

Definition ds_dlist_inext_err (iter : ds_dlist_iter) : M ds_dlist (iter_ret * ds_dlist_iter) :=
  ndel ← gets od_ndel;
  if bool_decide (ndel = odi_ndel iter) then
    match odi_next iter with
    | None => mret (iter_ptr None, DIter None (odi_next iter) (odi_ndel iter))
    | Some c => nx ← rd_next c; mret (iter_ptr (Some c), DIter (Some c) nx (odi_ndel iter))
    end
  else mret (DS_ITER_ERROR, iter).

Definition ds_dlist_iinsert_err (iter : ds_dlist_iter) (data : loc) : M ds_dlist iter_ret :=
  ndel ← gets od_ndel;
  if bool_decide (ndel = odi_ndel iter) then
    match odi_curr iter with
    | None => mret (iter_ptr None)
    | Some c => ds_dlist_insert_before c data;; mret (iter_ptr (Some data))
    end
  else mret DS_ITER_ERROR.

Definition ds_dlist_iremove_err (iter : ds_dlist_iter) : M ds_dlist (iter_ret * ds_dlist_iter) :=
  ndel ← gets od_ndel;
  if bool_decide (ndel = odi_ndel iter) then
    match odi_curr iter with
    | None => mret (iter_ptr None, iter)
    | Some node =>
        ds_dlist_node_remove node;;
        mret (iter_ptr (Some node), DIter None (odi_next iter) (wrapu 32 (odi_ndel iter + 1)))
    end
  else mret (DS_ITER_ERROR, iter).

Definition ds_dlist_inext (iter : ds_dlist_iter) : M ds_dlist (ptr * ds_dlist_iter) :=
  '(r, iter) ← ds_dlist_inext_err iter; p ← iter_assert r; mret (p, iter).
Definition ds_dlist_iinsert (iter : ds_dlist_iter) (data : loc) : M ds_dlist ptr :=
  r ← ds_dlist_iinsert_err iter data; iter_assert r.
Definition ds_dlist_iremove (iter : ds_dlist_iter) : M ds_dlist (ptr * ds_dlist_iter) :=
  '(r, iter) ← ds_dlist_iremove_err iter; p ← iter_assert r; mret (p, iter).
