(* ===== verification/DsDlistRep.v ===== *)
(** Refinement of [DsDlist] to sequences of nodes, and the interface through
    which the users of the list see it. *)
From S2P Require Import Prelude DsDlist.

(** *** Shape *)

(** [dseg mem p L q]: the nodes [L] are linked to each other in order, the first
    one back to [p] and the last one forward to [q]. *)
Fixpoint dseg (mem : gmap positive ds_dlist_node) (p : ptr) (L : list positive) (q : ptr) : Prop :=
  match L with
  | [] => True
  | n :: L' => mem !! n = Some (DNode p (default q (Some <$> head L'))) ∧ dseg mem (Some n) L' q
  end.

(** The list of the store is the sequence [L]. *)
Definition drep (s : ds_dlist) (L : list positive) : Prop :=
  od_head s = head L ∧ od_tail s = last L ∧ NoDup L ∧ dseg (dnodes s) None L None.

Lemma dseg_ext mem mem' p L q :
  (∀ l, l ∈ L → mem' !! l = mem !! l) → dseg mem p L q → dseg mem' p L q.
Proof.
  revert p. induction L as [|n L IH]; intros p Hm; simpl; [done|]. intros [Hn HL].
  split; [rewrite Hm by set_solver; done|]. apply IH; [|done]. set_solver.
Qed.
Lemma dseg_insert mem p L q l v : l ∉ L → dseg mem p L q → dseg (<[l := v]> mem) p L q.
Proof. intros Hl. apply dseg_ext. intros a Ha. apply lookup_insert_ne. set_solver. Qed.

Lemma dseg_snoc mem p L a q :
  dseg mem p (L ++ [a]) q ↔
    dseg mem p L (Some a) ∧ mem !! a = Some (DNode (default p (Some <$> last L)) q).
Proof.
  revert p. induction L as [|n L IH]; intros p; simpl; [tauto|]. rewrite IH.
  destruct L as [|n' L]; simpl; [tauto|].
  destruct (last (n' :: L)) eqn:E; [simpl; tauto|]. by apply last_None in E.
Qed.

Lemma dseg_app mem p L1 L2 q :
  dseg mem p (L1 ++ L2) q ↔
    dseg mem p L1 (default q (Some <$> head L2)) ∧
    dseg mem (default p (Some <$> last L1)) L2 q.
Proof.
  revert p. induction L1 as [|n L1 IH]; intros p; simpl; [tauto|]. rewrite IH.
  destruct L1 as [|n' L1]; simpl; [destruct L2; simpl; tauto|].
  destruct (last (n' :: L1)) eqn:E; [simpl; tauto|]. by apply last_None in E.
Qed.

Lemma dseg_lookup mem p L q l : dseg mem p L q → l ∈ L → is_Some (mem !! l).
Proof.
  revert p. induction L as [|n L IH]; intros p; simpl; [set_solver|].
  intros [Hn HL] [->|?]%elem_of_cons; eauto.
Qed.

(** The first node with its back link replaced, the last one with its forward
    link replaced. *)
Lemma dseg_relink_head mem p p' n L q :
  n ∉ L → dseg mem p (n :: L) q →
  dseg (<[n := DNode p' (default q (Some <$> head L))]> mem) p' (n :: L) q.
Proof. intros Hn [_ HL]. split; [by rewrite lookup_insert_eq|]. by apply dseg_insert. Qed.
Lemma dseg_relink_last mem p L a q q' :
  a ∉ L → dseg mem p (L ++ [a]) q →
  dseg (<[a := DNode (default p (Some <$> last L)) q']> mem) p (L ++ [a]) q'.
Proof.
  rewrite !dseg_snoc. intros Ha [HL _]. split; [by apply dseg_insert|by rewrite lookup_insert_eq].
Qed.

(** *** Stepping *)

Lemma wp_dload p n (Q : ds_dlist_node → ds_dlist → Prop) s :
  dnodes s !! p = Some n → Q n s → wp (dload p) Q s.
Proof. unfold wp, dload. by intros ->. Qed.
Lemma wp_dstore p f n (Q : unit → ds_dlist → Prop) s :
  dnodes s !! p = Some n → Q tt (with_dnodes (<[p := f n]>) s) → wp (dstore p f) Q s.
Proof. intros Hp HQ. apply wp_bind. by eapply wp_dload. Qed.
Lemma wp_rd_next p n (Q : ptr → ds_dlist → Prop) s :
  dnodes s !! p = Some n → Q (odn_next n) s → wp (rd_next p) Q s.
Proof. intros Hp HQ. apply wp_bind. by eapply wp_dload. Qed.
Lemma wp_rd_prev p n (Q : ptr → ds_dlist → Prop) s :
  dnodes s !! p = Some n → Q (odn_prev n) s → wp (rd_prev p) Q s.
Proof. intros Hp HQ. apply wp_bind. by eapply wp_dload. Qed.

(** Find a node in the store through the preceding updates. *)
Ltac dlk := cbn [dnodes with_dnodes with_head with_tail with_dndel];
  repeat first [rewrite lookup_insert_eq | rewrite lookup_insert_ne by done]; eassumption || reflexivity.
Ltac dl_step :=
  lazymatch goal with
  | |- wp (dstore _ _) _ _ => eapply wp_dstore; [dlk|]
  | |- wp (rd_next _) _ _ => eapply wp_rd_next; [dlk|]
  | |- wp (rd_prev _) _ _ => eapply wp_rd_prev; [dlk|]
  | |- wp (deref _) _ _ => eapply wp_deref; [reflexivity|]
  | |- wp (mret _) _ _ => apply wp_ret
  | |- wp (gets _) _ _ => apply wp_gets
  | |- wp (modify _) _ _ => apply wp_modify
  | |- wp (_ ≫= _) _ _ => apply wp_bind
  end;
  cbn beta iota; cbn [odn_next odn_prev set_next set_prev od_head od_tail od_ndel dnodes
    with_dnodes with_head with_tail with_dndel].

(** *** Insertion *)

(** The place between [L1] and what follows it. *)
Definition place_after (L1 : list positive) : place :=
  match last L1 with None => at_head | Some l => at_next l end.

(** What an update of the list leaves alone. *)
Definition dframe (s s' : ds_dlist) (L : list positive) : Prop :=
  ∀ l, l ∉ L → dnodes s' !! l = dnodes s !! l.

Lemma ds_dlist_insert_into_empty s node old :
  drep s [] → dnodes s !! node = Some old →
  wp (ds_dlist_insert_into at_head node) (λ _ s', drep s' [node] ∧ od_ndel s' = od_ndel s ∧
    dframe s s' [node]) s.
Proof.
  intros (Hh & Ht & _ & _) Hn. unfold ds_dlist_insert_into, rd_place, wr_place.
  repeat dl_step. rewrite Hh. cbn [head]. repeat dl_step. split_and!; simpl; try done.
  - split_and!; try done; [apply NoDup_singleton|]. simpl. rewrite Ht. split; [|done].
    by rewrite lookup_insert_eq.
  - intros l Hl. simpl. by rewrite !lookup_insert_ne by set_solver.
Qed.

Lemma ds_dlist_insert_into_front s b L node old :
  drep s (b :: L) → node ∉ b :: L → dnodes s !! node = Some old →
  wp (ds_dlist_insert_into at_head node) (λ _ s', drep s' (node :: b :: L) ∧
    od_ndel s' = od_ndel s ∧ dframe s s' (node :: b :: L)) s.
Proof.
  intros (Hh & Ht & Hnd & Hseg) Hnew Hn. pose proof Hseg as [Hb _]. simpl in Hh.
  apply NoDup_cons in Hnd as HbL. assert (b ≠ node) by set_solver.
  unfold ds_dlist_insert_into, rd_place, wr_place. repeat dl_step. rewrite Hh. repeat dl_step.
  split_and!; [split_and!| |]; simpl; try done.
  - by apply NoDup_cons.
  - split; [by rewrite lookup_insert_ne, lookup_insert_eq by done|].
    apply (dseg_relink_head _ None); [tauto|]. by do 2 (apply dseg_insert; [done|]).
  - intros l Hl. simpl. by rewrite !lookup_insert_ne by set_solver.
Qed.

Lemma ds_dlist_insert_into_back s L a node old :
  drep s (L ++ [a]) → node ∉ L ++ [a] → dnodes s !! node = Some old →
  wp (ds_dlist_insert_into (at_next a) node) (λ _ s', drep s' (L ++ [a; node]) ∧
    od_ndel s' = od_ndel s ∧ dframe s s' (L ++ [a; node])) s.
Proof.
  intros (Hh & Ht & Hnd & Hseg) Hnew Hn. rewrite last_snoc in Ht.
  pose proof (proj2 (proj1 (dseg_snoc _ _ _ _ _) Hseg)) as Ha.
  apply NoDup_app in Hnd as HL. assert (a ≠ node) by set_solver. assert (a ∉ L) by set_solver.
  change [a; node] with ([a] ++ [node]). rewrite app_assoc.
  unfold ds_dlist_insert_into, rd_place, wr_place. repeat dl_step. rewrite Ht.
  split_and!; [split_and!| |]; simpl.
  - rewrite Hh. by destruct L.
  - by rewrite last_snoc.
  - apply NoDup_app. split_and!; [done|set_solver|apply NoDup_singleton].
  - rewrite dseg_snoc, last_snoc. split; [|by rewrite lookup_insert_eq].
    apply dseg_insert; [done|]. eapply dseg_relink_last; [done|]. by apply dseg_insert.
  - done.
  - intros l Hl. simpl. by rewrite !lookup_insert_ne by set_solver.
Qed.

Lemma ds_dlist_insert_into_middle s L1 a b L2 node old :
  drep s (L1 ++ a :: b :: L2) → node ∉ L1 ++ a :: b :: L2 → dnodes s !! node = Some old →
  wp (ds_dlist_insert_into (at_next a) node) (λ _ s', drep s' (L1 ++ a :: node :: b :: L2) ∧
    od_ndel s' = od_ndel s ∧ dframe s s' (L1 ++ a :: node :: b :: L2)) s.
Proof.
  intros (Hh & Ht & Hnd & Hseg) Hnew Hn.
  rewrite (app_assoc L1 [a] (b :: L2) : L1 ++ a :: _ = _) in Hseg, Hnd, Ht.
  rewrite (app_assoc L1 [a] (node :: b :: L2) : L1 ++ a :: _ = _).
  apply dseg_app in Hseg as [H1 H2]. simpl in H1. rewrite last_snoc in H2.
  pose proof H2 as [Hb _]. pose proof (proj2 (proj1 (dseg_snoc _ _ _ _ _) H1)) as Ha.
  simpl in Hb.
  apply NoDup_app in Hnd as (Hnd1 & Hd & Hnd2). apply NoDup_app in Hnd1 as HL1.
  apply NoDup_cons in Hnd2 as Hnd2'.
  assert (a ≠ node) by set_solver. assert (b ≠ node) by set_solver. assert (a ≠ b) by set_solver.
  assert (a ∉ L1) by set_solver.
  unfold ds_dlist_insert_into, rd_place, wr_place. repeat dl_step.
  split_and!; [split_and!| |]; simpl.
  - rewrite Hh. by destruct L1.
  - rewrite Ht, !last_app. simpl. done.
  - apply NoDup_app. split_and!; [done|set_solver|]. apply NoDup_cons. split; [set_solver|done].
  - apply dseg_app. rewrite last_snoc. simpl. split.
    + apply dseg_insert; [set_solver|]. apply dseg_insert; [set_solver|].
      eapply dseg_relink_last; [done|]. apply dseg_insert; [set_solver|done].
    + split; [by rewrite lookup_insert_ne, lookup_insert_eq by done|].
      apply (dseg_relink_head _ (Some a)); [tauto|]. do 3 (apply dseg_insert; [set_solver|]). done.
  - done.
  - intros l Hl. simpl. by rewrite !lookup_insert_ne by set_solver.
Qed.

(** The new node goes between [L1] and [L2]. *)
Lemma ds_dlist_insert_into_spec s L1 L2 node old :
  drep s (L1 ++ L2) → node ∉ L1 ++ L2 → dnodes s !! node = Some old →
  wp (ds_dlist_insert_into (place_after L1) node) (λ _ s', drep s' (L1 ++ node :: L2) ∧
    od_ndel s' = od_ndel s ∧ dframe s s' (L1 ++ node :: L2)) s.
Proof.
  intros Hs Hnew Hn. unfold place_after. destruct L1 as [|a L1 _] using rev_ind; simpl.
  - destruct L2 as [|b L2]; [by eapply ds_dlist_insert_into_empty|].
    by eapply ds_dlist_insert_into_front.
  - rewrite last_snoc. destruct L2 as [|b L2]; rewrite <- ?app_assoc, ?app_nil_r in *.
    + by eapply ds_dlist_insert_into_back.
    + by eapply ds_dlist_insert_into_middle.
Qed.

(** *** Removal *)

(** The links around a removed node. *)
Lemma ds_dlist_unlink s L1 node L2 Q :
  drep s (L1 ++ node :: L2) →
  (∀ h t mem,
    h = head (L1 ++ L2) → t = last (L1 ++ L2) → dseg mem None (L1 ++ L2) None →
    mem !! node = Some (DNode None None) →
    (∀ l, l ∉ L1 ++ node :: L2 → mem !! l = dnodes s !! l) →
    Q tt (DList h t (wrapu 32 (od_ndel s + 1)) mem)) →
  wp (ds_dlist_node_remove node) Q s.
Proof.
  intros (Hh & Ht & Hnd & Hseg) HQ. apply dseg_app in Hseg as [H1 [Hn H2]]. simpl in *.
  apply NoDup_app in Hnd as (Hnd1 & Hd & [Hnew Hnd2]%NoDup_cons).
  assert (node ∉ L1) by set_solver.
  unfold ds_dlist_node_remove. do 2 dl_step. revert HQ.
  destruct L1 as [|a L1 _] using rev_ind; destruct L2 as [|b L2]; intros HQ;
    simpl in Hh, Ht, H1, Hn, H2; try rewrite last_snoc in *; cbn [fmap option_fmap option_map default] in *;
    simpl.
  - repeat dl_step. apply HQ; try done; simpl.
    + simpl. by rewrite lookup_insert_eq.
    + intros l Hl. simpl. by rewrite !lookup_insert_ne by set_solver.
  - assert (b ≠ node) by set_solver. destruct H2 as [Hb H2]. repeat dl_step. apply HQ; try done.
    + do 2 (apply dseg_insert; [set_solver|]). apply NoDup_cons in Hnd2 as [? _].
      by apply (dseg_relink_head _ (Some node)).
    + simpl. by rewrite lookup_insert_eq.
    + intros l Hl. simpl. by rewrite !lookup_insert_ne by set_solver.
  - assert (a ≠ node) by set_solver. pose proof H1 as [_ Ha]%dseg_snoc. repeat dl_step.
    rewrite app_nil_r in *. apply HQ; simpl.
    + rewrite Hh. by destruct L1.
    + by rewrite ?last_snoc.
    + do 2 (apply dseg_insert; [set_solver|]). apply NoDup_app in Hnd1.
      eapply dseg_relink_last; [set_solver|done].
    + simpl. by rewrite lookup_insert_eq.
    + intros l Hl. simpl. by rewrite !lookup_insert_ne by set_solver.
  - assert (a ≠ node) by set_solver. assert (b ≠ node) by set_solver.
    assert (a ≠ b) by set_solver.
    pose proof H1 as [_ Ha]%dseg_snoc. pose proof H2 as [Hb _]. repeat dl_step.
    apply NoDup_app in Hnd1. apply NoDup_cons in Hnd2 as [? _]. apply HQ; simpl.
    + rewrite Hh. by destruct L1.
    + rewrite Ht, !last_app. simpl. done.
    + do 2 (apply dseg_insert; [set_solver|]). apply dseg_app. rewrite last_snoc. split.
      * apply dseg_insert; [set_solver|]. eapply dseg_relink_last; [set_solver|done].
      * apply (dseg_relink_head _ (Some node)); [done|]. apply dseg_insert; [set_solver|done].
    + simpl. by rewrite lookup_insert_eq.
    + intros l Hl. simpl. by rewrite !lookup_insert_ne by set_solver.
Qed.

Lemma ds_dlist_node_remove_spec s L1 node L2 :
  drep s (L1 ++ node :: L2) →
  wp (ds_dlist_node_remove node) (λ _ s', drep s' (L1 ++ L2) ∧
    od_ndel s' = wrapu 32 (od_ndel s + 1) ∧ dnodes s' !! node = Some (DNode None None) ∧
    dframe s s' (L1 ++ node :: L2)) s.
Proof.
  intros Hs. eapply ds_dlist_unlink; [done|]. intros h t mem -> -> Hseg Hn Hf.
  destruct Hs as (_ & _ & Hnd & _). split_and!; [split_and!| | |]; try done.
  apply NoDup_app in Hnd as (? & ? & [? ?]%NoDup_cons). apply NoDup_app. set_solver.
Qed.

(** *** Neighbours *)

Lemma drep_lookup s L1 n L2 :
  drep s (L1 ++ n :: L2) → dnodes s !! n = Some (DNode (last L1) (head L2)).
Proof.
  intros (_ & _ & _ & Hseg). apply dseg_app in Hseg as [_ [-> _]].
  destruct (last L1), L2; done.
Qed.
Lemma drep_nodup s L : drep s L → NoDup L.
Proof. by intros (_ & _ & ? & _). Qed.
Lemma drep_live s L l : drep s L → l ∈ L → is_Some (dnodes s !! l).
Proof. intros (_ & _ & _ & Hseg). by eapply dseg_lookup. Qed.

(** *** The interface *)

(** A store with one list in it: what the users of the list rely on.  [lst_live]
    are the addresses of allocated nodes, [lst_alloc] and [lst_free] are the
    effects of allocating and freeing the container of a node. *)
Class ListOps (S : Type) := {
  lst_empty : S;
  lst_alloc : positive → S → S;
  lst_insert_tail : positive → M S unit;
  lst_remove : positive → M S unit;
  lst_remove_head : M S ptr;
  lst_head : M S ptr;
  lst_tail : M S ptr;
  lst_free : positive → S → S;
  lst_live : S → gset positive;
  lst_rep : S → list positive → Prop }.

Class ListLaws (S : Type) `{!ListOps S} : Prop := {
  lst_rep_nodup s L : lst_rep s L → NoDup L;
  lst_rep_live s L l : lst_rep s L → l ∈ L → l ∈ lst_live s;
  lst_head_law s L : lst_rep s L → lst_head s = Some (head L, s);
  lst_tail_law s L : lst_rep s L → lst_tail s = Some (last L, s);
  lst_insert_tail_law s L n :
    lst_rep s L → n ∉ L → n ∈ lst_live s →
    wp (lst_insert_tail n) (λ _ s', lst_rep s' (L ++ [n]) ∧ lst_live s' = lst_live s) s;
  lst_remove_law s L1 n L2 :
    lst_rep s (L1 ++ n :: L2) →
    wp (lst_remove n) (λ _ s', lst_rep s' (L1 ++ L2) ∧ lst_live s' = lst_live s) s;
  lst_remove_head_law s L :
    lst_rep s L →
    wp lst_remove_head (λ p s', p = head L ∧ lst_rep s' (tail L) ∧ lst_live s' = lst_live s) s;
  lst_empty_law : lst_rep lst_empty [] ∧ lst_live lst_empty = ∅;
  lst_alloc_law s L n : lst_rep s L → n ∉ lst_live s → lst_rep (lst_alloc n s) L;
  lst_alloc_live s n : lst_live (lst_alloc n s) = {[n]} ∪ lst_live s;
  lst_free_law s L n : lst_rep s L → n ∉ L → lst_rep (lst_free n s) L;
  lst_free_live s n : lst_live (lst_free n s) = lst_live s ∖ {[n]} }.

Lemma ds_dlist_insert_tail_spec s L node :
  drep s L → node ∉ L → node ∈ dom (dnodes s) →
  wp (ds_dlist_insert_tail node) (λ _ s', drep s' (L ++ [node]) ∧ od_ndel s' = od_ndel s ∧
    dframe s s' (L ++ [node])) s.
Proof.
  intros Hs Hnew [old Hn]%elem_of_dom. unfold ds_dlist_insert_tail. do 2 dl_step.
  pose proof (ds_dlist_insert_into_spec s L [] node old) as Hins.
  rewrite app_nil_r in Hins. specialize (Hins Hs Hnew Hn).
  destruct Hs as (_ & -> & _). unfold place_after in Hins. by destruct (last L).
Qed.

Lemma remove_ptr_spec s L1 L2 (p : ptr) :
  drep s (L1 ++ L2) → p = head L2 →
  wp (remove_ptr p) (λ q s', q = p ∧ drep s' (L1 ++ tail L2) ∧ dframe s s' (L1 ++ L2) ∧
    ∀ n, p = Some n → dnodes s' !! n = Some (DNode None None)) s.
Proof.
  intros Hs ->. destruct L2 as [|n L2]; simpl.
  { by apply wp_ret. }
  apply wp_bind. eapply wp_mono; [by apply ds_dlist_node_remove_spec|].
  intros _ s' (Hs' & Hd & Hn & Hf). apply wp_ret. split_and!; try done. by intros ? [= <-].
Qed.

Lemma dframe_dom s s' L :
  dframe s s' L → (∀ l, l ∈ L → is_Some (dnodes s !! l)) → (∀ l, l ∈ L → is_Some (dnodes s' !! l)) →
  dom (dnodes s') = dom (dnodes s).
Proof.
  intros Hf H1 H2. apply set_eq. intros l. rewrite !elem_of_dom.
  destruct (decide (l ∈ L)) as [Hl|Hl]; [naive_solver|]. by rewrite Hf.
Qed.

#[export] Instance ds_dlist_ops : ListOps ds_dlist := {
  lst_empty := __ds_dlist_init ∅;
  lst_alloc n := with_dnodes (<[n := DNode None None]>);
  lst_insert_tail := ds_dlist_insert_tail;
  lst_remove := ds_dlist_remove;
  lst_remove_head := ds_dlist_remove_head;
  lst_head := ds_dlist_head;
  lst_tail := ds_dlist_tail;
  lst_free n := with_dnodes (delete n);
  lst_live s := dom (dnodes s);
  lst_rep := drep }.

Lemma remove_dom s s' L1 n L2 :
  drep s (L1 ++ n :: L2) → drep s' (L1 ++ L2) → dnodes s' !! n = Some (DNode None None) →
  dframe s s' (L1 ++ n :: L2) → dom (dnodes s') = dom (dnodes s).
Proof.
  intros Hs Hs' Hn Hf. eapply dframe_dom; [done|intros; by eapply drep_live|].
  intros l Hl. destruct (decide (l = n)) as [->|Hne]; [eauto|].
  apply (drep_live _ _ _ Hs'). set_solver.
Qed.

#[export] Instance ds_dlist_laws : ListLaws ds_dlist.
Proof.
  split; simpl.
  - apply drep_nodup.
  - intros s L l Hs Hl. apply elem_of_dom. by eapply drep_live.
  - intros s L (Hh & _). unfold ds_dlist_head, gets. by rewrite Hh.
  - intros s L (_ & Ht & _). unfold ds_dlist_tail, gets. by rewrite Ht.
  - intros s L n Hs Hnew Hn. eapply wp_mono; [by apply ds_dlist_insert_tail_spec|].
    intros _ s' (Hs' & _ & Hf). split; [done|]. eapply dframe_dom; [done| |].
    + intros l. rewrite elem_of_app, list_elem_of_singleton. intros [Hl| ->]; [by eapply drep_live|].
      by apply elem_of_dom.
    + intros l. by eapply drep_live.
  - intros s L1 n L2 Hs. eapply wp_mono; [by apply ds_dlist_node_remove_spec|].
    intros _ s' (Hs' & _ & Hn & Hf). split; [done|]. by eapply remove_dom.
  - intros s L Hs. unfold ds_dlist_remove_head. do 2 dl_step.
    eapply wp_mono; [apply (remove_ptr_spec _ []); [done|apply Hs]|].
    intros q s' (-> & Hs' & Hf & Hn). split_and!; [apply Hs|done|]. destruct L as [|n L].
    + apply set_eq. intros l. rewrite !elem_of_dom. by rewrite Hf by set_solver.
    + apply (remove_dom s s' [] n L Hs Hs'); [apply Hn; apply Hs|done].
  - split; [|apply dom_empty_L]. split_and!; try done. apply NoDup_nil_2.
  - intros s L n (Hh & Ht & Hnd & Hseg) Hn. split_and!; try done. simpl. apply dseg_insert; [|done].
    intros Hl. destruct Hn. apply elem_of_dom. by eapply dseg_lookup.
  - intros s n. by rewrite dom_insert_L.
  - intros s L n (Hh & Ht & Hnd & Hseg) Hn. split_and!; try done. simpl.
    eapply dseg_ext; [|done]. intros l Hl. apply lookup_delete_ne. set_solver.
  - intros s n. by rewrite dom_delete_L.
Qed.

(** *** Properties *)

(** [op] returns [r] and leaves the list [L], having written nodes of [W] only. *)
Definition dl_yields {A} (s : ds_dlist) (op : M ds_dlist A) (r : A) (L W : list positive) : Prop :=
  ∃ s', op s = Some (r, s') ∧ drep s' L ∧ dframe s s' W.

(** The four insertions of the list refine insertion into a sequence: given a
    list of nodes around the node [x] and an allocated node outside it, inserting
    before [x], after [x], at the head or at the tail terminates, puts the node
    at that position, keeps the order of all others and both directions of the
    links consistent, and writes no node outside the list. *)
Theorem ds_dlist_insert_refines s L1 x L2 node old :
  drep s (L1 ++ x :: L2) → node ∉ L1 ++ x :: L2 → dnodes s !! node = Some old →
  let inserts (op : M ds_dlist unit) L :=
    ∃ s', op s = Some (tt, s') ∧ drep s' L ∧ od_ndel s' = od_ndel s ∧ dframe s s' L in
  inserts (ds_dlist_insert_before x node) (L1 ++ node :: x :: L2) ∧
  inserts (ds_dlist_insert_after x node) (L1 ++ x :: node :: L2) ∧
  inserts (ds_dlist_insert_head node) (node :: L1 ++ x :: L2) ∧
  inserts (ds_dlist_insert_tail node) (L1 ++ x :: L2 ++ [node]).
Proof.
  intros Hs Hnew Hn inserts.
  assert (∀ op L, wp op (λ _ s', drep s' L ∧ od_ndel s' = od_ndel s ∧ dframe s s' L) s →
    inserts op L) as Hwp.
  { intros op L ([] & s' & ? & ?)%wp_some. by exists s'. }
  split_and!; apply Hwp; clear Hwp.
  - unfold ds_dlist_insert_before, ds_dlist_insert_head. dl_step.
    eapply wp_rd_prev; [by apply drep_lookup|]. simpl.
    pose proof (ds_dlist_insert_into_spec s L1 (x :: L2) node old Hs Hnew Hn) as Hins.
    unfold place_after in Hins. by destruct (last L1).
  - pose proof (ds_dlist_insert_into_spec s (L1 ++ [x]) L2 node old) as Hins.
    unfold place_after in Hins. rewrite last_snoc, <- !app_assoc in Hins. by apply Hins.
  - by apply (ds_dlist_insert_into_spec s [] (L1 ++ x :: L2) node old).
  - assert (L1 ++ x :: L2 ++ [node] = (L1 ++ x :: L2) ++ [node]) as -> by (by rewrite <- app_assoc).
    apply ds_dlist_insert_tail_spec; [done|done|]. apply elem_of_dom. eauto.
Qed.

(** The removals of the list refine removal from a sequence: removing the
    node [x], its successor, its predecessor, the head or the tail terminates,
    takes out exactly that node and reports it, unlinks it, and reports NULL and
    changes nothing where there is no such node. *)
Theorem ds_dlist_remove_refines s L1 x L2 :
  drep s (L1 ++ x :: L2) →
  dl_yields s (ds_dlist_remove x) tt (L1 ++ L2) (L1 ++ x :: L2) ∧
  dl_yields s (ds_dlist_remove_after x) (head L2) (L1 ++ x :: tail L2) (L1 ++ x :: L2) ∧
  dl_yields s (ds_dlist_remove_before x) (last L1) (removelast L1 ++ x :: L2) (L1 ++ x :: L2) ∧
  dl_yields s ds_dlist_remove_head (head (L1 ++ x :: L2)) (tail (L1 ++ x :: L2)) (L1 ++ x :: L2) ∧
  dl_yields s ds_dlist_remove_tail (last (L1 ++ x :: L2)) (removelast (L1 ++ x :: L2)) (L1 ++ x :: L2).
Proof.
  intros Hs.
  assert (∀ LL LL' (op : M ds_dlist ptr) p,
    LL ++ LL' = L1 ++ x :: L2 → p = head LL' → op s = remove_ptr p s →
    dl_yields s op p (LL ++ tail LL') (L1 ++ x :: L2)) as Hrm.
  { intros LL LL' op p Heq Hp Hop. unfold dl_yields. rewrite Hop. rewrite <- Heq in Hs.
    destruct (proj1 (wp_some _ _ _) (remove_ptr_spec s LL LL' p Hs Hp)) as (q & s' & Hrun & -> & ? & ? & _).
    exists s'. by rewrite <- Heq. }
  pose proof (drep_lookup _ _ _ _ Hs) as Hx. pose proof Hs as (Hh & Ht & _ & _).
  assert (∀ (L : list positive) a, last L = Some a → L = removelast L ++ [a]) as Hlast.
  { intros L a. destruct L as [|b L _] using rev_ind; [done|].
    rewrite last_snoc, removelast_last. by intros [= ->]. }
  split_and!.
  - destruct (proj1 (wp_some _ _ _) (ds_dlist_node_remove_spec s L1 x L2 Hs)) as ([] & s' & ? & ? & ? & ? & ?).
    by exists s'.
  - specialize (Hrm (L1 ++ [x]) L2 (ds_dlist_remove_after x) (head L2)). rewrite <- !app_assoc in Hrm.
    apply Hrm; [done|done|]. unfold ds_dlist_remove_after, rd_next, dload, mbind, M_bind.
    by rewrite Hx.
  - assert (ds_dlist_remove_before x s = remove_ptr (last L1) s) as Hop.
    { unfold ds_dlist_remove_before, rd_prev, dload, mbind, M_bind. by rewrite Hx. }
    destruct (last L1) as [a|] eqn:Ha.
    + apply Hlast in Ha. apply (Hrm (removelast L1) (a :: x :: L2)); [|done|done].
      rewrite Ha at 2. by rewrite <- app_assoc.
    + apply last_None in Ha as ->. specialize (Hrm (x :: L2) [] _ None (app_nil_r _) eq_refl Hop).
      by rewrite app_nil_r in Hrm.
  - apply (Hrm [] (L1 ++ x :: L2)); [done|done|]. unfold ds_dlist_remove_head, gets, mbind, M_bind.
    by rewrite Hh.
  - destruct (last (L1 ++ x :: L2)) as [a|] eqn:Ha.
    2: { by apply last_None in Ha; destruct L1. }
    pose proof (Hlast _ _ Ha) as Hl. specialize (Hrm (removelast (L1 ++ x :: L2)) [a]).
    rewrite app_nil_r in Hrm. apply Hrm; [done|done|].
    unfold ds_dlist_remove_tail, gets, mbind, M_bind. by rewrite Ht.
Qed.

(** *** Witnesses *)

(** A list with the one node 1 and a free node 2. *)
Definition one_list : ds_dlist :=
  DList (Some 1%positive) (Some 1%positive) 0
    (<[1%positive := DNode None None]> {[2%positive := DNode None None]}).
Lemma one_list_rep : drep one_list [1%positive].
Proof. split_and!; try done. apply NoDup_singleton. Qed.

Lemma ds_dlist_insert_refines_witness :
  ∃ s', ds_dlist_insert_before 1%positive 2%positive one_list = Some (tt, s') ∧
    drep s' [2%positive; 1%positive].
Proof.
  destruct (ds_dlist_insert_refines one_list [] 1%positive [] 2%positive (DNode None None))
    as ((s' & Hrun & Hs' & _) & _).
  - apply one_list_rep.
  - simpl. intros H%list_elem_of_singleton. discriminate.
  - reflexivity.
  - exists s'. split; [exact Hrun|exact Hs'].
Defined.

Lemma ds_dlist_remove_refines_witness :
  ∃ s', ds_dlist_remove_head one_list = Some (Some 1%positive, s') ∧ drep s' [].
Proof.
  destruct (ds_dlist_remove_refines one_list [] 1%positive [])
    as (_ & _ & _ & (s' & Hrun & Hs' & _) & _).
  - apply one_list_rep.
  - exists s'. split; [exact Hrun|exact Hs'].
Defined.
