(* ===== verification/DsList.v ===== *)
(** The intrusive singly linked list of [lib/ds] (src/lib/ds/src/ds_list.c.h): the pointer
    program over an explicit node store, the same operations on sequences, and the
    simulation between them. *)
From S2P Require Import Prelude.

(** ** The pointer program *)

(** The address of a [ds_list_node]: the dummy root inside of the list, or a node. *)
Inductive spot := at_root | at_node (l : loc).
#[export] Instance spot_eq_dec : EqDecision spot.
Proof. solve_decision. Defined.

(** [struct ds_list] together with the memory of its nodes: the field [oln_next] of each.
    [ol_root] is the field of the dummy root. *)
Record ds_list := SList {
  ol_root : ptr;
  ol_tail : option spot;
  ol_ndel : Z;
  snodes : gmap positive ptr }.
(** [struct ds_list_iter]; [oli_list] is the list of the store. *)
Record ds_list_iter := SIter { oli_prev : spot; oli_curr : ptr; oli_ndel : Z }.

Definition with_ol_root (p : ptr) (s : ds_list) := SList p (ol_tail s) (ol_ndel s) (snodes s).
Definition with_ol_tail (t : option spot) (s : ds_list) := SList (ol_root s) t (ol_ndel s) (snodes s).
Definition with_ol_ndel (z : Z) (s : ds_list) := SList (ol_root s) (ol_tail s) z (snodes s).
Definition with_snodes f (s : ds_list) := SList (ol_root s) (ol_tail s) (ol_ndel s) (f (snodes s)).
(** [p->oln_next] and an assignment to it. *)
Definition get_next (p : spot) : M ds_list ptr :=
  match p with at_root => gets ol_root | at_node l => o ← gets (λ s, snodes s !! l); deref o end.
Definition put_next (p : spot) (v : ptr) : M ds_list unit :=
  match p with
  | at_root => modify (with_ol_root v)
  | at_node l => get_next p;; modify (with_snodes (<[l := v]>))
  end.

Definition __ds_list_init (mem : gmap positive ptr) : ds_list := SList None None 0 mem.
(** [ds_list_node_insert_after], [ds_list_node_remove_after] *)
Definition ds_list_node_insert_after (after : spot) (node : loc) : M ds_list unit :=
  t ← gets ol_tail;
  after ← match t with
    | None => modify (with_ol_tail (Some at_root));; mret at_root
    | Some _ => mret after
    end;
  nx ← get_next after;
  put_next (at_node node) nx;;
  put_next after (Some node);;
  nx ← get_next (at_node node);
  match nx with None => modify (with_ol_tail (Some (at_node node))) | Some _ => mret tt end.
Definition ds_list_node_remove_after (after : spot) : M ds_list ptr :=
  rm ← get_next after;
  match rm with
  | None => mret None
  | Some rm =>
      nx ← get_next (at_node rm);
      put_next after nx;;
      nx ← get_next after;
      match nx with None => modify (with_ol_tail (Some after)) | Some _ => mret tt end;;
      put_next (at_node rm) None;;
      modify (λ s, with_ol_ndel (wrapu 32 (ol_ndel s + 1)) s);;
      mret (Some rm)
  end.

(** The basic interface. *)
Definition ds_list_is_empty : M ds_list bool := gets (λ s, bool_decide (ol_root s = None)).
Definition ds_list_next (curr : loc) : M ds_list ptr := get_next (at_node curr).
Definition ds_list_head : M ds_list ptr := gets ol_root.
Definition ds_list_tail : M ds_list ptr :=
  gets (λ s, match ol_tail s with Some (at_node l) => Some l | _ => None end).
Definition ds_list_insert_head (data : loc) : M ds_list unit := ds_list_node_insert_after at_root data.
(** [ds_list_insert_tail]: for a list without a tail pointer the first argument is
    replaced by the root. *)
Definition ds_list_insert_tail (data : loc) : M ds_list unit :=
  t ← gets ol_tail; ds_list_node_insert_after (default at_root t) data.
Definition ds_list_insert_after (after data : loc) : M ds_list unit := ds_list_node_insert_after (at_node after) data.
Definition ds_list_remove_after (after : loc) : M ds_list ptr := ds_list_node_remove_after (at_node after).
Definition ds_list_remove_head : M ds_list ptr := ds_list_node_remove_after at_root.

(** Iterators. *)
Definition ds_list_ifirst : M ds_list (ptr * ds_list_iter) :=
  s ← gets (λ s, s); mret (ol_root s, SIter at_root (ol_root s) (ol_ndel s)).
Definition ds_list_inext_err (iter : ds_list_iter) : M ds_list (iter_ret * ds_list_iter) :=
  ndel ← gets ol_ndel;
  if bool_decide (ndel = oli_ndel iter) then
    match oli_curr iter with
    | Some c => nx ← get_next (at_node c); mret (iter_ptr nx, SIter (at_node c) nx (oli_ndel iter))
    | None => nx ← get_next (oli_prev iter); mret (iter_ptr nx, SIter (oli_prev iter) nx (oli_ndel iter))
    end
  else mret (DS_ITER_ERROR, iter).
Definition ds_list_iinsert_err (iter : ds_list_iter) (data : loc) : M ds_list (iter_ret * ds_list_iter) :=
  ndel ← gets ol_ndel;
  if bool_decide (ndel = oli_ndel iter) then
    match oli_curr iter with
    | None => mret (iter_ptr None, iter)
    | Some c =>
        ds_list_node_insert_after (oli_prev iter) data;;
        mret (iter_ptr (Some data), SIter (at_node data) (Some c) (oli_ndel iter))
    end
  else mret (DS_ITER_ERROR, iter).
Definition ds_list_iremove_err (iter : ds_list_iter) : M ds_list (iter_ret * ds_list_iter) :=
  ndel ← gets ol_ndel;
  if bool_decide (ndel = oli_ndel iter) then
    match oli_curr iter with
    | None => mret (iter_ptr None, iter)
    | Some c =>
        ds_list_node_remove_after (oli_prev iter);;
        put_next (at_node c) None;;
        mret (iter_ptr (Some c), SIter (oli_prev iter) None (wrapu 32 (oli_ndel iter + 1)))
    end
  else mret (DS_ITER_ERROR, iter).
Definition ds_list_inext (iter : ds_list_iter) : M ds_list (ptr * ds_list_iter) :=
  '(r, iter) ← ds_list_inext_err iter; p ← iter_assert r; mret (p, iter).
Definition ds_list_iinsert (iter : ds_list_iter) (data : loc) : M ds_list (ptr * ds_list_iter) :=
  '(r, iter) ← ds_list_iinsert_err iter data; p ← iter_assert r; mret (p, iter).
Definition ds_list_iremove (iter : ds_list_iter) : M ds_list (ptr * ds_list_iter) :=
  '(r, iter) ← ds_list_iremove_err iter; p ← iter_assert r; mret (p, iter).

(** ** The operations on sequences

    The nodes in order and the number of deletions.  [None] as a result of [next_of] and
    of the operations means that the place is not one of the list. *)
Record node_seq := NSeq { items : list positive; ndel : Z }.
Fixpoint after_node (l : positive) (L : list positive) : option (list positive) :=
  match L with [] => None | x :: L => if bool_decide (x = l) then Some L else after_node l L end.
Definition after_spot (p : spot) (L : list positive) : option (list positive) :=
  match p with at_root => Some L | at_node l => after_node l L end.
Definition next_of (p : spot) (L : list positive) : option ptr := head <$> after_spot p L.
(** The list with what follows the place replaced. *)
Definition splice (p : spot) (f : list positive → list positive) (L : list positive) : option (list positive) :=
  rest ← after_spot p L; Some (take (length L - length rest) L ++ f rest).
Definition q_next (p : spot) : M node_seq ptr := o ← gets (λ q, next_of p (items q)); deref o.
Definition q_insert (p : spot) (n : loc) : M node_seq unit :=
  q ← gets (λ q, q);
  L ← (if bool_decide (n ∈ items q) then fault else deref (splice p (cons n) (items q)));
  modify (λ _, NSeq L (ndel q)).
Definition q_remove (p : spot) : M node_seq ptr :=
  q ← gets (λ q, q);
  r ← q_next p;
  match r with
  | None => mret None
  | Some n =>
      L ← deref (splice p tail (items q));
      modify (λ _, NSeq L (wrapu 32 (ndel q + 1)));; mret (Some n)
  end.
Definition q_head : M node_seq ptr := gets (λ q, head (items q)).
Definition q_insert_tail (n : loc) : M node_seq unit :=
  q ← gets (λ q, q);
  q_insert (match last (items q) with Some l => at_node l | None => at_root end) n.
Definition q_ifirst : M node_seq (ptr * ds_list_iter) :=
  gets (λ q, (head (items q), SIter at_root (head (items q)) (ndel q))).
Definition q_inext (iter : ds_list_iter) : M node_seq (ptr * ds_list_iter) :=
  nd ← gets ndel;
  if bool_decide (nd = oli_ndel iter) then
    let p := match oli_curr iter with Some c => at_node c | None => oli_prev iter end in
    nx ← q_next p; mret (nx, SIter p nx (oli_ndel iter))
  else fault.
Definition q_iinsert (iter : ds_list_iter) (data : loc) : M node_seq (ptr * ds_list_iter) :=
  nd ← gets ndel;
  if bool_decide (nd = oli_ndel iter) then
    match oli_curr iter with
    | None => mret (None, iter)
    | Some c => q_insert (oli_prev iter) data;; mret (Some data, SIter (at_node data) (Some c) (oli_ndel iter))
    end
  else fault.
(** The current node must still follow the previous one. *)
Definition q_iremove (iter : ds_list_iter) : M node_seq (ptr * ds_list_iter) :=
  nd ← gets ndel;
  if bool_decide (nd = oli_ndel iter) then
    match oli_curr iter with
    | None => mret (None, iter)
    | Some c =>
        r ← q_remove (oli_prev iter);
        if bool_decide (r = Some c) then mret (Some c, SIter (oli_prev iter) None (wrapu 32 (oli_ndel iter + 1)))
        else fault
    end
  else fault.
