(* ===== verification/DsListRep.v ===== *)
(** The pointer program of [DsList] simulates its operations on sequences. *)
From S2P Require Import Prelude DsList.

(** *** Shape *)

(** [lseg mem h L q]: from the pointer [h] the nodes [L] are linked in order, the last
    one to [q]. *)
Fixpoint lseg (mem : gmap positive ptr) (h : ptr) (L : list positive) (q : ptr) : Prop :=
  match L with
  | [] => h = q
  | n :: L => h = Some n ∧ ∃ h', mem !! n = Some h' ∧ lseg mem h' L q
  end.
Definition spot_of (L1 : list positive) : spot := match last L1 with Some l => at_node l | None => at_root end.
(** The tail pointer: the last node; NULL or the root for an empty list. *)
Definition tail_ok (t : option spot) (L : list positive) : Prop :=
  match last L with Some l => t = Some (at_node l) | None => t = None ∨ t = Some at_root end.
Record srep (s : ds_list) (q : node_seq) : Prop := {
  sr_seg : lseg (snodes s) (ol_root s) (items q) None;
  sr_nodup : NoDup (items q);
  sr_tail : tail_ok (ol_tail s) (items q);
  sr_ndel : ol_ndel s = ndel q }.
(** Only nodes of [W] were written, and no node was freed or allocated. *)
Definition sframe (s s' : ds_list) (W : list positive) : Prop :=
  (∀ l, l ∉ W → snodes s' !! l = snodes s !! l) ∧ dom (snodes s') = dom (snodes s).

Lemma lseg_app mem h L1 L2 q : lseg mem h (L1 ++ L2) q ↔ ∃ m, lseg mem h L1 m ∧ lseg mem m L2 q.
Proof.
  revert h. induction L1 as [|n L1 IH]; intros h; cbn [app lseg]; [naive_solver|].
  setoid_rewrite IH. naive_solver.
Qed.
Lemma lseg_ext mem mem' h L q : (∀ l, l ∈ L → mem' !! l = mem !! l) → lseg mem h L q → lseg mem' h L q.
Proof.
  revert h. induction L as [|n L IH]; intros h Hm; [done|]. intros (-> & h' & Hn & HL). split; [done|].
  exists h'. split; [by rewrite Hm by set_solver|]. apply IH; [|done]. set_solver.
Qed.
Lemma lseg_head mem h L q : lseg mem h L q → h = match L with [] => q | n :: _ => Some n end.
Proof. destruct L; [done|]. by intros [-> _]. Qed.
Lemma lseg_live mem h L q l : lseg mem h L q → l ∈ L → l ∈ dom mem.
Proof.
  revert h. induction L as [|n L IH]; intros h; [set_solver|]. intros (_ & h' & Hn & HL) [->|?]%elem_of_cons; [|eauto].
  by eapply elem_of_dom_2.
Qed.

(** *** Places *)

Lemma after_node_split l L rest : after_node l L = Some rest → ∃ L1, L = L1 ++ l :: rest.
Proof.
  induction L as [|x L IH]; [done|]. cbn [after_node]. case_bool_decide as E.
  - intros [= ->]. subst. by exists [].
  - intros [L1 ->]%IH. by exists (x :: L1).
Qed.
Lemma after_spot_split p L rest : after_spot p L = Some rest → ∃ L1, L = L1 ++ rest ∧ p = spot_of L1.
Proof.
  destruct p as [|l]; cbn [after_spot]; [intros [= ->]; by exists []|].
  intros [L1 ->]%after_node_split. exists (L1 ++ [l]). rewrite <-app_assoc. unfold spot_of. by rewrite last_snoc.
Qed.
Lemma after_node_app l L1 L2 : l ∉ L1 → after_node l (L1 ++ l :: L2) = Some L2.
Proof.
  induction L1 as [|x L1 IH]; intros Hl; cbn [app after_node]; [by rewrite bool_decide_eq_true_2|].
  rewrite bool_decide_eq_false_2 by set_solver. apply IH. set_solver.
Qed.
Lemma after_spot_of L1 L2 : NoDup (L1 ++ L2) → after_spot (spot_of L1) (L1 ++ L2) = Some L2.
Proof.
  destruct L1 as [|l L1 _] using rev_ind; [done|]. intros Hn. unfold spot_of. rewrite last_snoc, <-app_assoc.
  apply after_node_app. rewrite <-app_assoc in Hn. apply NoDup_app in Hn. set_solver.
Qed.
Lemma splice_of L1 L2 f : NoDup (L1 ++ L2) → splice (spot_of L1) f (L1 ++ L2) = Some (L1 ++ f L2).
Proof.
  intros Hn. unfold splice. rewrite after_spot_of by done. cbn. f_equal. f_equal.
  rewrite length_app, Nat.add_sub. by rewrite take_app_length.
Qed.

(** *** Access *)

Lemma get_next_at s L1 L2 : lseg (snodes s) (ol_root s) (L1 ++ L2) None →
  get_next (spot_of L1) s = Some (head L2, s).
Proof.
  intros (m & H1 & H2)%lseg_app. apply lseg_head in H2 as ->. destruct L1 as [|l L1 _] using rev_ind.
  { apply lseg_head in H1. unfold get_next, spot_of, gets. cbn. rewrite H1. by destruct L2. }
  apply lseg_app in H1 as (m & _ & -> & h' & Hl & E). cbn in E. subst h'.
  unfold get_next, spot_of, gets, mbind, M_bind. rewrite last_snoc, Hl. by destruct L2.
Qed.
(** Writing the link of a place. *)
Definition set_link_of (L1 : list positive) (v : ptr) (s : ds_list) : ds_list :=
  match last L1 with Some l => with_snodes (<[l := v]>) s | None => with_ol_root v s end.
Lemma put_next_at s L1 L2 v : lseg (snodes s) (ol_root s) (L1 ++ L2) None →
  put_next (spot_of L1) v s = Some (tt, set_link_of L1 v s).
Proof.
  intros Hs. pose proof (get_next_at s L1 L2 Hs) as Hg. revert Hg. unfold put_next, spot_of, set_link_of.
  destruct (last L1); [|done]. intros Hg. unfold mbind, M_bind. by rewrite Hg.
Qed.
Lemma put_next_node s l v : l ∈ dom (snodes s) →
  put_next (at_node l) v s = Some (tt, with_snodes (<[l := v]>) s).
Proof. intros [x Hx]%elem_of_dom. unfold put_next, get_next, gets, mbind, M_bind. by rewrite Hx. Qed.
Lemma set_link_seg s L1 m v : lseg (snodes s) (ol_root s) L1 m → NoDup L1 →
  lseg (snodes (set_link_of L1 v s)) (ol_root (set_link_of L1 v s)) L1 v.
Proof.
  destruct L1 as [|l L1 _] using rev_ind; [done|]. unfold set_link_of. rewrite last_snoc. cbn [snodes ol_root with_snodes].
  intros (m' & H1 & -> & _)%lseg_app (_ & Hl & _)%NoDup_app. apply lseg_app. exists (Some l). split.
  - eapply lseg_ext; [|done]. intros x Hx. apply lookup_insert_ne. intros ->. apply (Hl x); set_solver.
  - split; [done|]. exists v. by rewrite lookup_insert_eq.
Qed.
Lemma set_link_other s L1 v l : l ∉ L1 → snodes (set_link_of L1 v s) !! l = snodes s !! l.
Proof.
  intros Hl. unfold set_link_of. destruct (last L1) as [x|] eqn:E; [|done]. cbn. apply lookup_insert_ne.
  intros ->. apply Hl. apply last_Some in E as [? ->]. set_solver.
Qed.
Lemma set_link_dom s L1 m v : lseg (snodes s) (ol_root s) L1 m → dom (snodes (set_link_of L1 v s)) = dom (snodes s).
Proof.
  intros Hs. unfold set_link_of. destruct (last L1) as [x|] eqn:E; [|done]. cbn. rewrite dom_insert_L.
  apply last_Some in E as [L ->]. pose proof (lseg_live _ _ _ _ x Hs). set_solver.
Qed.

(** *** Insertion and removal *)

Lemma wp_eq {S A} (m : M S A) (Q : A → S → Prop) s a s' : m s = Some (a, s') → Q a s' → wp m Q s.
Proof. unfold wp. by intros ->. Qed.
Lemma lseg_to_head mem L : ∀ h, lseg mem h L None → h = head L.
Proof. intros h. destruct L; [done|]. by intros [-> _]. Qed.
Lemma NoDup_middle {A} (L1 : list A) n L2 : NoDup (L1 ++ L2) → n ∉ L1 ++ L2 → NoDup (L1 ++ n :: L2).
Proof. intros (? & ? & ?)%NoDup_app ?. apply NoDup_app. split_and!; [done|set_solver|]. apply NoDup_cons. set_solver. Qed.

Lemma NoDup_without {A} (L1 : list A) n L2 : NoDup (L1 ++ n :: L2) → NoDup (L1 ++ L2).
Proof. intros (? & ? & [? ?]%NoDup_cons)%NoDup_app. apply NoDup_app. split_and!; [done|set_solver|done]. Qed.

(** Once the tail pointer is set. *)
Lemma insert_after_linked s L1 L2 n nd (Q : unit → ds_list → Prop) :
  srep s (NSeq (L1 ++ L2) nd) → n ∉ L1 ++ L2 → n ∈ dom (snodes s) → ol_tail s ≠ None →
  (∀ s', srep s' (NSeq (L1 ++ n :: L2) nd) → sframe s s' (L1 ++ n :: L2) → Q tt s') →
  wp (ds_list_node_insert_after (spot_of L1) n) Q s.
Proof.
  intros [Hseg Hnd Ht Hdel] Hn Hlive Hsome HQ. cbn [items ndel] in *. unfold ds_list_node_insert_after.
  apply wp_bind, wp_gets, wp_bind. destruct (ol_tail s) as [t|] eqn:Et; [|done]. apply wp_ret.
  apply wp_bind. eapply wp_eq; [by apply get_next_at|]. apply wp_bind. eapply wp_eq; [by apply put_next_node|].
  set (s1 := with_snodes _ s). assert (lseg (snodes s1) (ol_root s1) (L1 ++ L2) None) as Hs1.
  { eapply lseg_ext; [|exact Hseg]. intros l Hl. apply lookup_insert_ne. by intros ->. }
  apply wp_bind. eapply wp_eq; [by eapply put_next_at|]. set (s2 := set_link_of L1 (Some n) s1).
  assert (snodes s2 !! n = Some (head L2)) as Hn2.
  { unfold s2. rewrite set_link_other by set_solver. apply lookup_insert_eq. }
  apply lseg_app in Hs1 as (m & H1 & H2).
  assert (lseg (snodes s2) (ol_root s2) (L1 ++ n :: L2) None) as Hs2.
  { apply lseg_app. exists (Some n). split; [eapply set_link_seg; [done|]; by apply NoDup_app in Hnd as [? _]|].
    split; [done|]. exists (head L2). split; [done|]. rewrite <-(lseg_to_head _ _ _ H2).
    eapply lseg_ext; [|done]. intros l Hl. apply set_link_other. apply NoDup_app in Hnd. set_solver. }
  assert (ol_tail s2 = ol_tail s ∧ ol_ndel s2 = ol_ndel s) as [Et2 En2].
  { unfold s2, set_link_of. by destruct (last L1). }
  assert (sframe s s2 (L1 ++ n :: L2)) as Hf.
  { split; [intros l Hl; unfold s2; rewrite set_link_other by set_solver; apply lookup_insert_ne; set_solver|].
    unfold s2. erewrite set_link_dom by done. cbn. rewrite dom_insert_L. set_solver. }
  apply wp_bind. eapply wp_eq; [unfold get_next, gets, mbind, M_bind; by rewrite Hn2|].
  destruct L2 as [|b L2]; cbn [head].
  - apply wp_modify, HQ; [|done]. split; cbn [items ndel]; try done; [by apply NoDup_middle| |cbn; congruence].
    unfold tail_ok. by rewrite last_snoc.
  - apply wp_ret, HQ; [|done]. split; cbn [items ndel]; try done; [by apply NoDup_middle| |congruence].
    revert Ht. unfold tail_ok. rewrite !last_app. cbn. rewrite Et2, Et. done.
Qed.
Lemma insert_after_spec s L1 L2 n nd (Q : unit → ds_list → Prop) :
  srep s (NSeq (L1 ++ L2) nd) → n ∉ L1 ++ L2 → n ∈ dom (snodes s) →
  (∀ s', srep s' (NSeq (L1 ++ n :: L2) nd) → sframe s s' (L1 ++ n :: L2) → Q tt s') →
  wp (ds_list_node_insert_after (spot_of L1) n) Q s.
Proof.
  intros Hs Hn Hlive HQ. destruct (ol_tail s) as [t|] eqn:Et; [eapply insert_after_linked; [done..|by rewrite Et|done]|].
  pose proof (sr_tail _ _ Hs) as Ht. unfold tail_ok in Ht. cbn [items] in Ht. rewrite Et in Ht.
  destruct (last (L1 ++ L2)) eqn:El; [done|]. apply last_None, app_eq_nil in El as [-> ->].
  assert (wp (ds_list_node_insert_after (spot_of []) n) Q (with_ol_tail (Some at_root) s)) as Hw.
  { apply (insert_after_linked _ [] [] n nd); try done. destruct Hs. split; try done. by right. }
  revert Hw. unfold ds_list_node_insert_after, wp, mbind, M_bind, gets, modify. cbn. by rewrite Et.
Qed.

Lemma remove_after_spec s L1 n L2 nd (Q : ptr → ds_list → Prop) :
  srep s (NSeq (L1 ++ n :: L2) nd) →
  (∀ s', srep s' (NSeq (L1 ++ L2) (wrapu 32 (nd + 1))) → snodes s' !! n = Some None →
    sframe s s' (L1 ++ n :: L2) → Q (Some n) s') →
  wp (ds_list_node_remove_after (spot_of L1)) Q s.
Proof.
  intros [Hseg Hnd Ht Hdel] HQ. cbn [items ndel] in *. unfold ds_list_node_remove_after.
  apply wp_bind. eapply wp_eq; [by apply get_next_at|]. cbn [head].
  assert (n ∉ L1 ++ L2) as Hn by (apply NoDup_app in Hnd as (? & ? & [? ?]%NoDup_cons); set_solver).
  assert (get_next (at_node n) s = Some (head L2, s)) as Hg.
  { pose proof (get_next_at s (L1 ++ [n]) L2) as Hg. unfold spot_of in Hg. rewrite last_snoc, <-app_assoc in Hg. by apply Hg. }
  apply wp_bind. eapply wp_eq; [done|]. apply wp_bind. eapply wp_eq; [by eapply put_next_at|].
  set (s1 := set_link_of L1 (head L2) s). pose proof Hseg as (m & H1 & _ & h & Hh & H2)%lseg_app.
  assert (lseg (snodes s1) (ol_root s1) (L1 ++ L2) None) as Hs1.
  { apply lseg_app. exists (head L2). split; [eapply set_link_seg; [done|]; by apply NoDup_app in Hnd as [? _]|].
    rewrite <-(lseg_to_head _ _ _ H2). eapply lseg_ext; [|done]. intros l Hl. apply set_link_other.
    apply NoDup_app in Hnd. set_solver. }
  assert (ol_tail s1 = ol_tail s ∧ ol_ndel s1 = ol_ndel s ∧ dom (snodes s1) = dom (snodes s)) as (Et & En & Ed).
  { split_and!; [unfold s1, set_link_of; by destruct (last L1)..|by eapply set_link_dom]. }
  apply wp_bind. eapply wp_eq; [by apply get_next_at|]. apply wp_bind.
  assert (n ∈ dom (snodes s)) as Hlive by (eapply lseg_live; [exact Hseg|set_solver]).
  assert (∀ t, tail_ok t (L1 ++ L2) →
    wp (put_next (at_node n) None;; modify (λ s, with_ol_ndel (wrapu 32 (ol_ndel s + 1)) s);; mret (Some n)) Q
      (with_ol_tail t s1)) as Hend.
  { intros t Hto. apply wp_bind. eapply wp_eq; [apply put_next_node; cbn; by rewrite Ed|].
    apply wp_bind, wp_modify, wp_ret, HQ.
    - split; cbn; [|by eapply NoDup_without|done|congruence].
      eapply lseg_ext; [|exact Hs1]. intros l Hl. apply lookup_insert_ne. by intros ->.
    - apply lookup_insert_eq.
    - split; cbn; [|rewrite dom_insert_L; set_solver].
      intros l Hl. rewrite lookup_insert_ne by set_solver. apply set_link_other. set_solver. }
  destruct L2 as [|b L2]; cbn [head].
  - apply wp_modify, Hend. unfold tail_ok, spot_of. rewrite app_nil_r. destruct (last L1); [done|by right].
  - apply wp_ret. assert (s1 = with_ol_tail (ol_tail s) s1) as -> by (rewrite <-Et; by destruct s1).
    apply Hend. revert Ht. unfold tail_ok. by rewrite !last_app.
Qed.

(** *** Simulation *)

(** Where the operation on sequences is defined, the pointer program ends with the same
    result and a list that represents the new sequence, and has written only its nodes
    and [new]. *)
Definition simulates {A} (new : list positive) (cop : M ds_list A) (aop : M node_seq A) : Prop :=
  ∀ s q r q', srep s q → (∀ n, n ∈ new → n ∈ dom (snodes s)) → aop q = Some (r, q') →
    ∃ s', cop s = Some (r, s') ∧ srep s' q' ∧ sframe s s' (new ++ items q).

Lemma sframe_refl s W : sframe s s W.
Proof. done. Qed.
Lemma sframe_sub s s' W W' : sframe s s' W → W ⊆ W' → sframe s s' W'.
Proof. intros [H ?] Hs. split; [|done]. intros l Hl. apply H. set_solver. Qed.
Lemma sim_wp {A} new (cop : M ds_list A) (aop : M node_seq A) :
  (∀ s q r q', srep s q → (∀ n, n ∈ new → n ∈ dom (snodes s)) → aop q = Some (r, q') →
    wp cop (λ r' s', r' = r ∧ srep s' q' ∧ sframe s s' (new ++ items q)) s) → simulates new cop aop.
Proof. intros H s q r q' Hs Hn Ha. pose proof (H s q r q' Hs Hn Ha) as (r' & s' & E & -> & ?)%wp_some. eauto. Qed.

Lemma next_sim p : simulates [] (get_next p) (q_next p).
Proof.
  intros s q r q' Hs _. unfold q_next, next_of, mbind, M_bind, gets, deref.
  destruct (after_spot p (items q)) as [rest|] eqn:E; [|done]. intros [= <- <-].
  apply after_spot_split in E as (L1 & E & ->). exists s. split; [|by split].
  apply get_next_at. rewrite <-E. apply Hs.
Qed.
Lemma insert_sim p n : simulates [n] (ds_list_node_insert_after p n) (q_insert p n).
Proof.
  apply sim_wp. intros s [L nd] r q' Hs Hn. unfold q_insert, mbind, M_bind, gets, modify. cbn [items ndel].
  case_bool_decide as Hin; [done|]. unfold splice. destruct (after_spot p L) as [rest|] eqn:E; [|done].
  apply after_spot_split in E as (L1 & -> & ->). cbn. rewrite length_app, Nat.add_sub, take_app_length.
  intros [= <- <-]. eapply insert_after_spec; [done..|apply Hn; set_solver|]. intros s' Hs' Hf. split_and!; try done.
  eapply sframe_sub; [done|]. set_solver.
Qed.
Lemma remove_sim p : simulates [] (ds_list_node_remove_after p) (q_remove p).
Proof.
  apply sim_wp. intros s [L nd] r q' Hs _. unfold q_remove, q_next, next_of, splice, mbind, M_bind, gets, modify. cbn [items ndel].
  destruct (after_spot p L) as [rest|] eqn:E; [|done]. apply after_spot_split in E as (L1 & -> & ->). cbn.
  rewrite length_app, Nat.add_sub, take_app_length. destruct rest as [|n rest]; cbn.
  - intros [= <- <-]. unfold ds_list_node_remove_after. apply wp_bind.
    eapply wp_eq; [apply (get_next_at s L1 []), Hs|]. by apply wp_ret.
  - intros [= <- <-]. eapply remove_after_spec; [done|]. by intros s' Hs' _ Hf.
Qed.
Lemma insert_tail_sim n : simulates [n] (ds_list_insert_tail n) (q_insert_tail n).
Proof.
  intros s q r q' Hs Hn Ha. unfold q_insert_tail, mbind, M_bind, gets in Ha.
  destruct (insert_sim _ n s q r q' Hs Hn Ha) as (s' & E & ?). exists s'. split; [|done].
  unfold ds_list_insert_tail, mbind, M_bind, gets. rewrite <-E. f_equal. pose proof (sr_tail _ _ Hs) as Ht.
  unfold tail_ok in Ht. destruct (last (items q)); [by rewrite Ht|]. by destruct Ht as [-> | ->].
Qed.
Lemma ifirst_sim : simulates [] ds_list_ifirst q_ifirst.
Proof.
  intros s q r q' Hs _ [= <- <-]. exists s. split; [|done]. unfold ds_list_ifirst, mbind, M_bind, gets, mret, M_ret.
  by rewrite (lseg_to_head _ _ _ (sr_seg _ _ Hs)), (sr_ndel _ _ Hs).
Qed.
Lemma inext_sim it : simulates [] (ds_list_inext it) (q_inext it).
Proof.
  intros s q r q' Hs Hn. unfold q_inext, ds_list_inext, ds_list_inext_err, mbind, M_bind, gets. rewrite (sr_ndel _ _ Hs).
  case_bool_decide; [|done].
  destruct (q_next _ q) as [[nx q1]|] eqn:E; [|done]. intros [= <- <-].
  apply (next_sim _ s) in E as (s' & E & ?); [|done..]. exists s'. split; [|done].
  destruct (oli_curr it) as [c|]; rewrite E; done.
Qed.
Lemma iinsert_sim it n : simulates [n] (ds_list_iinsert it n) (q_iinsert it n).
Proof.
  intros s q r q' Hs Hn. unfold q_iinsert, ds_list_iinsert, ds_list_iinsert_err, mbind, M_bind, gets. rewrite (sr_ndel _ _ Hs).
  case_bool_decide; [|done]. destruct (oli_curr it) as [c|]; [|intros [= <- <-]; by exists s].
  destruct (q_insert _ n q) as [[[] q1]|] eqn:E; [|done]. intros [= <- <-].
  apply (insert_sim _ _ s) in E as (s' & E & ?); [|done..]. exists s'. split; [|done]. by rewrite E.
Qed.
Lemma iremove_sim it : simulates [] (ds_list_iremove it) (q_iremove it).
Proof.
  apply sim_wp. intros s [L nd] r q' Hs Hn Ha. unfold ds_list_iremove, ds_list_iremove_err.
  do 2 apply wp_bind. apply wp_gets. rewrite (sr_ndel _ _ Hs). revert Ha.
  unfold q_iremove. unfold mbind at 1, M_bind at 1, gets at 1. cbn [ndel]. case_bool_decide; [|done].
  destruct (oli_curr it) as [c|]; [|intros [= <- <-]; by apply wp_ret].
  unfold mbind at 1, M_bind at 1. destruct (q_remove _ _) as [[o q1]|] eqn:E; [|done].
  destruct (bool_decide_reflect (o = Some c)) as [->|]; [|done]. intros [= <- <-].
  unfold q_remove, q_next, next_of, splice, mbind, M_bind, gets, modify in E. cbn [items ndel] in E.
  destruct (after_spot (oli_prev it) L) as [rest|] eqn:Ea; [|done]. apply after_spot_split in Ea as (L1 & -> & Ep).
  cbn in E. rewrite length_app, Nat.add_sub, take_app_length in E. rewrite Ep.
  destruct rest as [|n rest]; [done|]. injection E as <- <-.
  apply wp_bind. eapply remove_after_spec; [done|]. intros s' Hs' Hc' Hf.
  apply wp_bind. eapply wp_eq; [apply put_next_node; by eapply elem_of_dom_2|]. apply wp_ret, wp_bind, wp_ret, wp_ret.
  assert (with_snodes (<[n := None]>) s' = s') as ->; [|done].
  unfold with_snodes. rewrite insert_id by done. by destruct s'.
Qed.

(** *** Iterators in the middle of a sequence *)

Lemma q_next_at L1 L2 nd : NoDup (L1 ++ L2) → q_next (spot_of L1) (NSeq (L1 ++ L2) nd) = Some (head L2, NSeq (L1 ++ L2) nd).
Proof. intros Hn. unfold q_next, next_of, mbind, M_bind, gets. cbn. by rewrite after_spot_of. Qed.
Lemma q_next_node L1 c L2 nd : NoDup (L1 ++ c :: L2) →
  q_next (at_node c) (NSeq (L1 ++ c :: L2) nd) = Some (head L2, NSeq (L1 ++ c :: L2) nd).
Proof.
  intros Hn. pose proof (q_next_at (L1 ++ [c]) L2 nd) as H. unfold spot_of in H. rewrite last_snoc, <-app_assoc in H. by apply H.
Qed.
Lemma q_inext_curr p L1 c L2 nd : NoDup (L1 ++ c :: L2) →
  q_inext (SIter p (Some c) nd) (NSeq (L1 ++ c :: L2) nd)
  = Some ((head L2, SIter (at_node c) (head L2) nd), NSeq (L1 ++ c :: L2) nd).
Proof.
  intros Hn. unfold q_inext, mbind, M_bind, gets. cbn [ndel oli_ndel oli_curr]. rewrite bool_decide_eq_true_2 by done.
  by rewrite q_next_node.
Qed.
Lemma q_inext_removed L1 L2 nd : NoDup (L1 ++ L2) →
  q_inext (SIter (spot_of L1) None nd) (NSeq (L1 ++ L2) nd)
  = Some ((head L2, SIter (spot_of L1) (head L2) nd), NSeq (L1 ++ L2) nd).
Proof.
  intros Hn. unfold q_inext, mbind, M_bind, gets. cbn [ndel oli_ndel oli_curr oli_prev]. rewrite bool_decide_eq_true_2 by done.
  by rewrite q_next_at.
Qed.
Lemma q_insert_at L1 L2 n nd : NoDup (L1 ++ L2) → n ∉ L1 ++ L2 →
  q_insert (spot_of L1) n (NSeq (L1 ++ L2) nd) = Some (tt, NSeq (L1 ++ n :: L2) nd).
Proof.
  intros Hn Hnew. unfold q_insert, mbind, M_bind, gets. cbn [items ndel]. rewrite bool_decide_eq_false_2 by done.
  by rewrite splice_of.
Qed.
Lemma q_iinsert_at L1 c L2 n nd : NoDup (L1 ++ c :: L2) → n ∉ L1 ++ c :: L2 →
  q_iinsert (SIter (spot_of L1) (Some c) nd) n (NSeq (L1 ++ c :: L2) nd)
  = Some ((Some n, SIter (at_node n) (Some c) nd), NSeq (L1 ++ n :: c :: L2) nd).
Proof.
  intros Hn Hnew. unfold q_iinsert, mbind, M_bind, gets. cbn [ndel oli_ndel oli_curr oli_prev].
  rewrite bool_decide_eq_true_2 by done. by rewrite q_insert_at.
Qed.
Lemma q_insert_tail_at L n nd : NoDup L → n ∉ L → q_insert_tail n (NSeq L nd) = Some (tt, NSeq (L ++ [n]) nd).
Proof. intros Hn Hnew. pose proof (q_insert_at L [] n nd) as H. rewrite app_nil_r in H. by apply H. Qed.
Lemma q_iremove_at L1 c L2 nd : NoDup (L1 ++ c :: L2) →
  q_iremove (SIter (spot_of L1) (Some c) nd) (NSeq (L1 ++ c :: L2) nd)
  = Some ((Some c, SIter (spot_of L1) None (wrapu 32 (nd + 1))), NSeq (L1 ++ L2) (wrapu 32 (nd + 1))).
Proof.
  intros Hn. unfold q_iremove, q_remove, mbind, M_bind, gets. cbn [ndel oli_ndel oli_curr oli_prev].
  rewrite bool_decide_eq_true_2 by done. rewrite q_next_at by done. cbn [head items].
  rewrite splice_of by done. cbn. by rewrite bool_decide_eq_true_2.
Qed.

(** C38.  The singly linked list implements sequences: its insertions, removals and
    iterators end without a fault and do to the chain of nodes what the operations on
    sequences do, as long as the place they are given is one of the list and a node that
    is inserted is allocated and not in the list.  They keep the tail pointer right and
    write no other node.  An iterator that missed a removal aborts. *)
Theorem ds_list_implements_sequences :
  simulates [] ds_list_head q_head ∧
  (∀ p, simulates [] (get_next p) (q_next p)) ∧
  (∀ p n, simulates [n] (ds_list_node_insert_after p n) (q_insert p n)) ∧
  (∀ n, simulates [n] (ds_list_insert_tail n) (q_insert_tail n)) ∧
  (∀ p, simulates [] (ds_list_node_remove_after p) (q_remove p)) ∧
  simulates [] ds_list_ifirst q_ifirst ∧
  (∀ it, simulates [] (ds_list_inext it) (q_inext it)) ∧
  (∀ it n, simulates [n] (ds_list_iinsert it n) (q_iinsert it n)) ∧
  (∀ it, simulates [] (ds_list_iremove it) (q_iremove it)) ∧
  (∀ s it n, ol_ndel s ≠ oli_ndel it →
     ds_list_inext it s = None ∧ ds_list_iinsert it n s = None ∧ ds_list_iremove it s = None).
Proof.
  split_and!; auto using next_sim, insert_sim, insert_tail_sim, remove_sim, ifirst_sim, inext_sim, iinsert_sim, iremove_sim.
  - intros s q r q' Hs _ [= <- <-]. exists s. split; [|done]. unfold ds_list_head, gets.
    by rewrite (lseg_to_head _ _ _ (sr_seg _ _ Hs)).
  - intros s it n Hne. unfold ds_list_inext, ds_list_iinsert, ds_list_iremove, ds_list_inext_err, ds_list_iinsert_err,
      ds_list_iremove_err, mbind, M_bind, gets. by rewrite bool_decide_eq_false_2.
Qed.
