(* ===== verification/QmQueue.v ===== *)
(** The message queue of the queue manager (src/qm/src/qm_queue.c): the bounded
    FIFO of items to publish and the buffer of remote log lines.

    The queue uses the intrusive list only through the interface [ListOps]; the
    laws [ListLaws] are what the proofs rely on.  Items live in a store of their
    own; freeing an item also frees the list node embedded in it. *)
From S2P Require Import Prelude DsDlistRep.

(** qm.h *)
Definition QM_MAX_QUEUE_DEPTH : Z := 200.
Definition QM_MAX_QUEUE_SIZE_BYTES : Z := 2 * 1024 * 1024.
Definition QM_LOG_QUEUE_SIZE : Z := 100 * 1024.

(** qm_conn.h: the values of [data_type], [response] and [error] used here. *)
Definition QM_DATA_LOG : Z := 3.
Definition QM_RESPONSE_ERROR : Z := 0.
Definition QM_ERROR_QUEUE : Z := 103.

(** The fields of [qm_request_t] the queue reads. *)
Record qm_request := Request { data_type : Z; data_size : Z }.

(** [qm_item_t]; the buffers an item owns are part of its value. *)
Record qm_item := Item {
  req : qm_request;
  topic : option (list Z);
  isize : Z;
  buf : option (list Z);
  timestamp : Z }.

(** The fields of [qm_response_t] the queue writes. *)
Record qm_response := Response { response : Z; error : Z; qdrop : Z }.

(** The globals of qm_queue.c, the store of items and the response under
    construction. *)
Record qm_state (S : Type) := Qm {
  queue : S;
  qlength : Z;
  qsize : Z;
  items : gmap positive qm_item;
  g_qm_log_buf : option (list Z);
  g_qm_log_buf_size : Z;
  g_qm_log_drop_count : Z;
  qm_log_enabled : bool;
  res : qm_response }.
Arguments Qm {S}.
Arguments queue {S}.
Arguments qlength {S}.
Arguments qsize {S}.
Arguments items {S}.
Arguments g_qm_log_buf {S}.
Arguments g_qm_log_buf_size {S}.
Arguments g_qm_log_drop_count {S}.
Arguments qm_log_enabled {S}.
Arguments res {S}.

(** ** C strings in a buffer *)

(** [strlen]; [None] when the buffer has no terminator. *)
Fixpoint strlen (b : list Z) : option nat :=
  match b with
  | [] => None
  | c :: b => if (c =? 0)%Z then Some 0 else S <$> strlen b
  end.

(** [strchr]: the suffix that starts with [c]; the outer [None] is a read past
    the buffer. *)
Fixpoint strchr (c : Z) (b : list Z) : option (option (list Z)) :=
  match b with
  | [] => None
  | d :: b' => if (d =? c)%Z then Some (Some b) else if (d =? 0)%Z then Some None else strchr c b'
  end.

(** [printf("%d")] of an [int]: at most ten digits. *)
Fixpoint dec_go (fuel : nat) (n : Z) (acc : list Z) : list Z :=
  match fuel with
  | O => acc
  | S fuel =>
      let acc := (48 + n `mod` 10)%Z :: acc in
      if (n <? 10)%Z then acc else dec_go fuel (n `div` 10) acc
  end.
Definition fmt_d (n : Z) : list Z :=
  if (n <? 0)%Z then 45%Z :: dec_go 10 (- n) [] else dec_go 10 n [].

Definition bytes (s : string) : list Z :=
  (λ a, Z.of_N (Ascii.N_of_ascii a)) <$> String.list_ascii_of_string s.

(** [snprintf(drop_str, 64, ...)] *)
Definition drop_str_of (count : Z) : list Z :=
  take 63 (bytes "--- DROPPED " ++ fmt_d count ++ bytes " LINES ---").

(** [memcpy(b + off, src, n)] into a buffer; [None] when it does not fit. *)
Definition blit (off : Z) (src : list Z) (b : list Z) : option (list Z) :=
  if (0 <=? off)%Z && (off + Z.of_nat (length src) <=? Z.of_nat (length b))%Z
  then Some (take (Z.to_nat off) b ++ src ++ drop (Z.to_nat off + length src) b)
  else None.

(** [REALLOC] to [n] bytes; new bytes are indeterminate, here [junk]. *)
Definition realloc (junk : Z) (b : option (list Z)) (n : Z) : list Z :=
  resize (Z.to_nat n) junk (default [] b).

(** [strscpy] (src/lib/common/src/util.c) for its effect on [dest]; [src] are the
    characters of the source string. *)
Definition strscpy (dest src : list Z) (n : Z) : option (list Z) :=
  if (n =? 0)%Z then Some dest
  else blit 0 (take (Z.to_nat (n - 1)) src ++ [0%Z]) dest.

(** Counting the lines of a full log: [while (nl && *nl)].  The loop consumes at
    least one byte per round, so the length of the buffer is enough fuel. *)
Fixpoint count_lines (fuel : nat) (nl : list Z) (count : Z) : option Z :=
  match fuel, nl with
  | S fuel, c :: rest =>
      if (c =? 0)%Z then Some count
      else
        match strchr 10 rest with
        | None => None
        | Some None => Some (wraps 32 (count + 1))
        | Some (Some nl) => count_lines fuel nl (wraps 32 (count + 1))
        end
  | _, _ => None
  end.

Section qm_queue.
Context {S : Type} `{!ListOps S}.
(** [CONFIG_LOG_REMOTE], and the content of fresh memory. *)
Context (CONFIG_LOG_REMOTE : bool) (junk : Z).

Abbreviation QM := (M (qm_state S)).

Definition with_queue q (s : qm_state S) : qm_state S :=
  Qm q (qlength s) (qsize s) (items s) (g_qm_log_buf s) (g_qm_log_buf_size s)
    (g_qm_log_drop_count s) (qm_log_enabled s) (res s).
Definition with_counts l z (s : qm_state S) : qm_state S :=
  Qm (queue s) l z (items s) (g_qm_log_buf s) (g_qm_log_buf_size s)
    (g_qm_log_drop_count s) (qm_log_enabled s) (res s).
Definition with_items f (s : qm_state S) : qm_state S :=
  Qm (queue s) (qlength s) (qsize s) (f (items s)) (g_qm_log_buf s) (g_qm_log_buf_size s)
    (g_qm_log_drop_count s) (qm_log_enabled s) (res s).
Definition with_log b z d (s : qm_state S) : qm_state S :=
  Qm (queue s) (qlength s) (qsize s) (items s) b z d (qm_log_enabled s) (res s).
Definition with_res f (s : qm_state S) : qm_state S :=
  Qm (queue s) (qlength s) (qsize s) (items s) (g_qm_log_buf s) (g_qm_log_buf_size s)
    (g_qm_log_drop_count s) (qm_log_enabled s) (f (res s)).

(** An operation of the list on [g_qm_queue.queue]. *)
Definition on_queue {A} (m : M S A) : QM A := λ s,
  match m (queue s) with Some (a, q) => Some (a, with_queue q s) | None => None end.
Definition item (p : loc) : QM qm_item := λ s,
  match items s !! p with Some i => Some (i, s) | None => None end.
Definition set_item (p : loc) (f : qm_item → qm_item) : QM unit :=
  i ← item p; modify (with_items (<[p := f i]>)).

(** [qm_queue_item_free]: the item, its topic and its buffer. *)
Definition qm_queue_item_free (qi : ptr) : QM unit :=
  match qi with
  | None => mret tt
  | Some p =>
      i ← item p;
      modify (λ s, with_queue (lst_free p (queue s)) (with_items (delete p) s))
  end.

(** [qm_queue_length], [qm_queue_size] *)
Definition qm_queue_length : QM Z := gets qlength.
Definition qm_queue_size : QM Z := gets qsize.

(** [qm_queue_head], [qm_queue_tail]: the result and [*qitem]. *)
Definition qm_queue_head : QM (bool * ptr) :=
  q ← on_queue lst_head; mret (bool_decide (q ≠ None), q).
Definition qm_queue_tail : QM (bool * ptr) :=
  q ← on_queue lst_tail; mret (bool_decide (q ≠ None), q).

(** [qm_queue_remove] *)
Definition qm_queue_remove (qitem : ptr) : QM bool :=
  match qitem with
  | None => mret false
  | Some p =>
      on_queue (lst_remove p);;
      modify (λ s, with_counts (wraps 32 (qlength s - 1)) (qsize s) s);;
      i ← item p;
      modify (λ s, with_counts (qlength s) (wraps 32 (qsize s - isize i)) s);;
      qm_queue_item_free qitem;;
      mret true
  end.

(** [qm_queue_drop_head] *)
Definition qm_queue_drop_head : QM bool :=
  '(ok, q) ← qm_queue_head;
  if ok : bool then qm_queue_remove q else mret false.

(** The loop of [qm_queue_make_room]; the sum is computed in [size_t]. *)
Definition qm_full (z : Z) (s : qm_state S) : bool :=
  ((QM_MAX_QUEUE_DEPTH <=? qlength s) ||
   (QM_MAX_QUEUE_SIZE_BYTES <? wrapu 64 (qsize s + z)))%Z.
Fixpoint make_room_loop (fuel : nat) (z : Z) : QM unit :=
  full ← gets (qm_full z);
  if full : bool then
    match fuel with
    | O => fault
    | Datatypes.S fuel =>
        qm_queue_drop_head;;
        modify (with_res (λ r, Response (response r) (error r) (wrapu 32 (qdrop r + 1))));;
        make_room_loop fuel z
    end
  else mret tt.

(** [qm_queue_make_room]; every round frees an item, so the number of items is
    enough fuel. *)
Definition qm_queue_make_room (qi : loc) : QM bool :=
  i ← item qi;
  if (QM_MAX_QUEUE_SIZE_BYTES <? isize i)%Z then mret false
  else
    fuel ← gets (λ s, size (items s));
    make_room_loop fuel (isize i);;
    mret true.

(** [qm_queue_append_item]; [now] is what [time_monotonic] returns.  The result
    and [*qitem]. *)
Definition qm_queue_append_item (now : Z) (qi : loc) : QM (bool * ptr) :=
  set_item qi (λ i, Item (req i) (topic i) (data_size (req i)) (buf i) (timestamp i));;
  set_item qi (λ i, Item (req i) (topic i) (isize i) (buf i) now);;
  ok ← qm_queue_make_room qi;
  if negb ok then mret (false, Some qi)
  else
    on_queue (lst_insert_tail qi);;
    modify (λ s, with_counts (wraps 32 (qlength s + 1)) (qsize s) s);;
    i ← item qi;
    modify (λ s, with_counts (qlength s) (wraps 32 (qsize s + isize i)) s);;
    mret (true, None).

(** [qm_queue_get] *)
Definition qm_queue_get : QM (bool * ptr) :=
  q ← on_queue lst_remove_head;
  match q with
  | None => mret (false, None)
  | Some p =>
      modify (λ s, with_counts (wraps 32 (qlength s - 1)) (qsize s) s);;
      i ← item p;
      modify (λ s, with_counts (qlength s) (wraps 32 (qsize s - isize i)) s);;
      mret (true, Some p)
  end.

(** ** The log buffer *)

(** [msg[i]] *)
Definition msg_at (msg : option (list Z)) (i : Z) : QM Z :=
  b ← deref msg;
  if (i <? 0)%Z then fault else deref (b !! Z.to_nat i).
(** [if (size > 0 && msg[size - 1] == c) size--;] *)
Definition omit_last (msg : option (list Z)) (c z : Z) : QM Z :=
  if (0 <? z)%Z then
    b ← msg_at msg (z - 1);
    mret (if (b =? c)%Z then (z - 1)%Z else z)
  else mret z.
(** [g_qm_log_buf[g_qm_log_buf_size] = c] *)
Definition log_put (c : Z) : QM unit :=
  b ← gets g_qm_log_buf;
  b ← deref b;
  z ← gets g_qm_log_buf_size;
  b ← deref (blit z [c] b);
  modify (λ s, with_log (Some b) z (g_qm_log_drop_count s) s).
Definition set_log_size (z : Z) : QM unit :=
  modify (λ s, with_log (g_qm_log_buf s) z (g_qm_log_drop_count s) s).

(** The block of [qm_queue_append_log] that runs when the log is full: count and
    drop all lines.  The result is [drop_str]. *)
Definition log_full : QM (list Z) :=
  log_put 0;;
  b ← gets g_qm_log_buf;
  b ← deref b;
  d ← gets g_qm_log_drop_count;
  d ← deref (count_lines (length b) b d);
  modify (λ s, with_log None 0 d s);;
  mret (if (d =? 0)%Z then [] else drop_str_of d).

(** The end of [qm_queue_append_log]: write [drop_str] and the message. *)
Definition log_write (drop_str msg : list Z) (z : Z) : QM unit :=
  bz ← gets g_qm_log_buf_size;
  let new_size := (bz + z)%Z in
  let new_size := if (bz =? 0)%Z then new_size else (new_size + 1)%Z in
  let new_size := if bool_decide (drop_str = []) then new_size
                  else (new_size + (Z.of_nat (length drop_str) + 1))%Z in
  modify (λ s, with_log (Some (realloc junk (g_qm_log_buf s) (new_size + 1)))
                 (g_qm_log_buf_size s) (g_qm_log_drop_count s) s);;
  (if bool_decide (drop_str = []) then mret tt
   else
     b ← gets g_qm_log_buf;
     b ← deref b;
     b ← deref (strscpy b drop_str new_size);
     l ← deref (strlen b);
     modify (λ s, with_log (Some b) (Z.of_nat l) (g_qm_log_drop_count s) s));;
  bz ← gets g_qm_log_buf_size;
  (if (bz =? 0)%Z then mret tt
   else log_put 10;; set_log_size (bz + 1);; log_put 0);;
  bz ← gets g_qm_log_buf_size;
  if (bz + z <=? new_size)%Z then
    if ((z <? 0) || (Z.of_nat (length msg) <? z))%Z then fault
    else
      b ← gets g_qm_log_buf;
      b ← deref b;
      b ← deref (blit bz (take (Z.to_nat z) msg) b);
      modify (λ s, with_log (Some b) new_size (g_qm_log_drop_count s) s);;
      log_put 0
  else mret tt.

Definition too_big_msg : list Z := bytes "--- DROPPED TOO BIG ---".
Definition count_qdrop : QM unit :=
  modify (with_res (λ r, Response (response r) (error r) (wrapu 32 (qdrop r + 1)))).

(** [qm_queue_append_log] *)
Definition qm_queue_append_log (qitem : loc) : QM bool :=
  if negb CONFIG_LOG_REMOTE then mret true else
  en ← gets qm_log_enabled;
  if negb en then
    modify (λ s, with_log (g_qm_log_buf s) (g_qm_log_buf_size s)
                   (wraps 32 (g_qm_log_drop_count s + 1)) s);;
    mret true
  else
    qi ← item qitem;
    let msg := buf qi in
    let z := wraps 32 (data_size (req qi)) in
    z ← omit_last msg 0 z;
    z ← omit_last msg 10 z;
    if (z =? 0)%Z then count_qdrop;; mret true
    else
      '(msg, z) ← (if (QM_LOG_QUEUE_SIZE <=? z)%Z
                   then count_qdrop;; mret (too_big_msg, Z.of_nat (length too_big_msg))
                   else m ← deref msg; mret (m, z));
      bz ← gets g_qm_log_buf_size;
      drop_str ← (if (QM_LOG_QUEUE_SIZE <? bz + z + 1)%Z then log_full else mret []);
      log_write drop_str msg z;;
      mret true.

(** [qm_queue_put]: the result and [*qitem]. *)
Definition qm_queue_put (now : Z) (qitem : loc) : QM (bool * ptr) :=
  i ← item qitem;
  if (data_type (req i) =? QM_DATA_LOG)%Z then
    result ← qm_queue_append_log qitem;
    qm_queue_item_free (Some qitem);;
    mret (result, None)
  else
    '(result, q) ← qm_queue_append_item now qitem;
    (if result : bool then mret tt
     else modify (with_res (λ r, Response QM_RESPONSE_ERROR QM_ERROR_QUEUE (qdrop r))));;
    mret (result, q).

(** [qm_mqtt_timer_handler_log] (src/qm/src/qm_mqtt.c) for its effect on the log:
    whether the broker is connected after [qm_mqtt_reconnect] and what
    [mosqev_publish] returns are inputs; the result is the text published. *)
Definition qm_mqtt_timer_handler_log (connected published : bool) : QM (option (list Z)) :=
  z ← gets g_qm_log_buf_size;
  if (z =? 0)%Z then mret None
  else if negb connected then mret None
  else
    b ← gets g_qm_log_buf;
    b ← deref b;
    modify (λ s, with_log None 0 (g_qm_log_drop_count s) s);;
    (if published
     then modify (λ s, with_log (g_qm_log_buf s) (g_qm_log_buf_size s) 0 s)
     else modify (λ s, with_log (g_qm_log_buf s) (g_qm_log_buf_size s)
                         (wraps 32 (g_qm_log_drop_count s + 1)) s));;
    mret (if published then Some (take (Z.to_nat z) b) else None).
End qm_queue.
