(* ===== verification/QmLog.v ===== *)
(** The log buffer of the queue manager: every write of [qm_queue_append_log]
    stays inside the buffer, and what the buffer holds afterwards. *)
From S2P Require Import Prelude DsDlistRep QmQueue.

(** *** Buffers *)

Lemma blit_app off src pre mid post :
  off = Z.of_nat (length pre) → length mid = length src →
  blit off src (pre ++ mid ++ post) = Some (pre ++ src ++ post).
Proof.
  intros -> Hlen. unfold blit. rewrite !length_app, Hlen.
  rewrite (proj2 (Z.leb_le _ _)), (proj2 (Z.leb_le _ _)) by lia. simpl.
  rewrite Nat2Z.id, take_app_length, (app_assoc pre mid post), drop_app_length'; [done|].
  rewrite length_app. lia.
Qed.

Lemma blit_one off c pre r R :
  off = Z.of_nat (length pre) → blit off [c] (pre ++ r :: R) = Some (pre ++ c :: R).
Proof. intros Ho. by apply (blit_app off [c] pre [r] R). Qed.

Lemma blit_front src mid post :
  length mid = length src → blit 0 src (mid ++ post) = Some (src ++ post).
Proof. intros Hl. by apply (blit_app 0 src [] mid post). Qed.

Lemma strlen_app X R : Forall (λ c, c ≠ 0%Z) X → strlen (X ++ 0%Z :: R) = Some (length X).
Proof.
  induction 1 as [|c X Hc HX IH]; simpl; [done|].
  rewrite (proj2 (Z.eqb_neq _ _)) by done. by rewrite IH.
Qed.

(** The lines of a C string: one, and one per newline after its first byte. *)
Definition is_nl (c : Z) : Prop := c = 10%Z.
#[export] Instance is_nl_dec c : Decision (is_nl c).
Proof. unfold is_nl. apply _. Defined.
Fixpoint cstr (X : list Z) : list Z :=
  match X with [] => [] | c :: X => if (c =? 0)%Z then [] else c :: cstr X end.
Definition lines (X : list Z) : nat :=
  match cstr X with [] => 0 | _ :: t => S (length (filter is_nl t)) end.

Lemma strchr_nl X :
  (filter is_nl (cstr X) = [] ∧ strchr 10 (X ++ [0%Z]) = Some None) ∨
  ∃ X1 X2, X = X1 ++ 10%Z :: X2 ∧ strchr 10 (X ++ [0%Z]) = Some (Some ((10%Z :: X2) ++ [0%Z])) ∧
    filter is_nl (cstr X) = 10%Z :: filter is_nl (cstr X2).
Proof.
  induction X as [|c X IH]; simpl; [by left|]. destruct (c =? 10)%Z eqn:Hc.
  - apply Z.eqb_eq in Hc as ->. right. by exists [], X.
  - apply Z.eqb_neq in Hc. destruct (c =? 0)%Z; [by left|].
    rewrite filter_cons_False by done. destruct IH as [IH|(X1 & X2 & -> & Hs & Hf)]; [by left|right].
    by exists (c :: X1), X2.
Qed.

Lemma count_lines_spec fuel X d :
  length X < fuel →
  count_lines fuel (X ++ [0%Z]) d = Some (Nat.iter (lines X) (λ d, wraps 32 (d + 1)) d).
Proof.
  revert X d. induction fuel as [|fuel IH]; intros X d Hlen; [lia|].
  destruct X as [|c X]; simpl; [done|]. unfold lines. simpl in *.
  destruct (c =? 0)%Z eqn:Hc; [done|].
  destruct (strchr_nl X) as [[Hf ->]|(X1 & X2 & -> & -> & Hf)]; rewrite Hf; [done|].
  rewrite IH by (rewrite length_app in Hlen; simpl in *; lia). f_equal.
  change (lines (10%Z :: X2)) with (S (length (filter is_nl (cstr X2)))).
  simpl length. by rewrite (Nat.iter_succ_r (S _)).
Qed.

(** *** Numbers *)

Lemma dec_go_ok fuel n acc :
  (0 ≤ n)%Z → Forall (λ c, c ≠ 0%Z) acc →
  Forall (λ c, c ≠ 0%Z) (dec_go fuel n acc) ∧ length (dec_go fuel n acc) ≤ fuel + length acc.
Proof.
  revert n acc. induction fuel as [|fuel IH]; intros n acc Hn Hacc; simpl; [done|].
  assert (Forall (λ c, c ≠ 0%Z) ((48 + n `mod` 10)%Z :: acc)).
  { constructor; [|done]. pose proof (Z.mod_pos_bound n 10). lia. }
  destruct (n <? 10)%Z; [split; [done|simpl; lia]|].
  destruct (IH (n `div` 10)%Z ((48 + n `mod` 10)%Z :: acc)) as [? Hlen]; [|done|].
  { apply Z.div_pos; lia. }
  split; [done|]. simpl in Hlen. lia.
Qed.

Lemma drop_str_ok d :
  Forall (λ c, c ≠ 0%Z) (drop_str_of d) ∧ 0 < length (drop_str_of d) ≤ 63.
Proof.
  unfold drop_str_of. split_and!.
  - apply Forall_take. rewrite !Forall_app. split_and!.
    + by repeat constructor.
    + unfold fmt_d. destruct (d <? 0)%Z eqn:Hd; [constructor; [done|]|]; apply dec_go_ok; (lia || constructor).
    + by repeat constructor.
  - rewrite length_take, !length_app. simpl. lia.
  - rewrite length_take. lia.
Qed.

Section log.
Context {S : Type} `{!ListOps S}.
Context (CONFIG_LOG_REMOTE : bool) (junk : Z).
Implicit Types s : qm_state S.

(** The log holds the text [B]; an empty log has no buffer. *)
Definition log_holds s (B : list Z) : Prop :=
  g_qm_log_buf_size s = Z.of_nat (length B) ∧
  g_qm_log_buf s = match B with [] => None | _ => Some (B ++ [0%Z]) end.

(** The rest of the state is untouched. *)
Definition same_queue s s' : Prop :=
  queue s' = queue s ∧ qlength s' = qlength s ∧ qsize s' = qsize s ∧ items s' = items s ∧
  qm_log_enabled s' = qm_log_enabled s.

(** The buffer holds [X] followed by the indeterminate bytes [R]. *)
Definition log_raw s (X R : list Z) : Prop :=
  g_qm_log_buf s = Some (X ++ R) ∧ g_qm_log_buf_size s = Z.of_nat (length X).

Lemma wp_log_put c s X r R (Q : unit → qm_state S → Prop) :
  log_raw s X (r :: R) →
  Q tt (with_log (Some (X ++ c :: R)) (Z.of_nat (length X)) (g_qm_log_drop_count s) s) →
  wp (log_put c) Q s.
Proof.
  intros [Hb Hz] HQ. unfold log_put. apply wp_bind, wp_gets, wp_bind. rewrite Hb. apply wp_ret.
  apply wp_bind, wp_gets, wp_bind. rewrite Hz, blit_one by done. apply wp_ret.
  by apply wp_modify.
Qed.

(** Writing the message over the last [length M + 1] bytes. *)
Lemma wp_log_msg s X R M new_size (Q : unit → qm_state S → Prop) :
  log_raw s X R → length R = length M + 1 →
  new_size = Z.of_nat (length (X ++ M)) →
  Q tt (with_log (Some ((X ++ M) ++ [0%Z])) new_size (g_qm_log_drop_count s) s) →
  wp (b ← gets g_qm_log_buf;
      b ← deref b;
      b ← deref (blit (Z.of_nat (length X)) M b);
      modify (λ s, with_log (Some b) new_size (g_qm_log_drop_count s) s);;
      log_put 0) Q s.
Proof.
  intros [Hb Hz] HR -> HQ. apply wp_bind, wp_gets, wp_bind. rewrite Hb. apply wp_ret.
  apply wp_bind. rewrite <- (take_drop (length M) R).
  assert (length (drop (length M) R) = 1) as Hd by (rewrite length_drop; lia).
  destruct (drop (length M) R) as [|r [|]] eqn:Hdr; [done| |done].
  rewrite blit_app by (done || rewrite length_take; lia). apply wp_ret.
  apply wp_bind, wp_modify. eapply (wp_log_put _ _ (X ++ M) r []).
  { split; [|done]. simpl. by rewrite app_assoc. }
  done.
Qed.

(** The common tail of [log_write]: a newline after the text [X], then the
    message. *)
Lemma wp_log_append s X R msg z new_size (Q : unit → qm_state S → Prop) :
  log_raw s X R → X ≠ [] → (0 < z ≤ Z.of_nat (length msg))%Z →
  Z.of_nat (length R) = (z + 2)%Z → new_size = (Z.of_nat (length X) + 1 + z)%Z →
  (∀ s', log_holds s' (X ++ 10%Z :: take (Z.to_nat z) msg) → same_queue s s' → res s' = res s →
    g_qm_log_drop_count s' = g_qm_log_drop_count s → Q tt s') →
  wp (bz ← gets g_qm_log_buf_size;
      (if (bz =? 0)%Z then mret tt else log_put 10;; set_log_size (bz + 1);; log_put 0);;
      bz ← gets g_qm_log_buf_size;
      if (bz + z <=? new_size)%Z then
        if ((z <? 0) || (Z.of_nat (length msg) <? z))%Z then fault
        else
          b ← gets g_qm_log_buf;
          b ← deref b;
          b ← deref (blit bz (take (Z.to_nat z) msg) b);
          modify (λ s, with_log (Some b) new_size (g_qm_log_drop_count s) s);;
          log_put 0
      else mret tt) Q s.
Proof.
  intros [Hb Hz] HX Hmsg HR Hnew HQ. apply wp_bind, wp_gets. rewrite Hz.
  assert (0 < length X) by (destruct X; simpl; [done|lia]).
  rewrite (proj2 (Z.eqb_neq _ _)) by lia. apply wp_bind, wp_bind.
  destruct R as [|r1 [|r2 R]]; simpl in HR; [lia..|].
  eapply (wp_log_put _ _ X r1 (r2 :: R)); [by split|]. apply wp_bind, wp_modify. simpl.
  eapply (wp_log_put _ _ (X ++ [10%Z]) r2 R).
  { split; simpl; [by rewrite <- app_assoc|]. rewrite length_app. simpl. lia. }
  apply wp_bind, wp_gets. simpl.
  rewrite (proj2 (Z.leb_le _ _)) by (rewrite length_app; simpl; lia).
  rewrite (proj2 (Z.ltb_ge _ _)), (proj2 (Z.ltb_ge _ _)) by lia. simpl.
  eapply (wp_log_msg _ (X ++ [10%Z]) (0%Z :: R)); simpl.
  - by split.
  - rewrite length_take. lia.
  - rewrite !length_app, length_take. simpl. lia.
  - apply HQ; try done. split; simpl.
    + rewrite Hnew, length_app. simpl. rewrite length_take. lia.
    + rewrite <- !app_assoc. simpl. destruct X; done.
Qed.

(** What [qm_queue_append_log] leaves in the log. *)
Definition log_join (B D M : list Z) : list Z :=
  match D, B with
  | [], [] => M
  | [], _ => B ++ 10%Z :: M
  | _, _ => D ++ 10%Z :: M
  end.

Lemma log_join_drop B D M : D ≠ [] → log_join B D M = D ++ 10%Z :: M.
Proof. by destruct D. Qed.
Lemma log_join_text B M : B ≠ [] → log_join B [] M = B ++ 10%Z :: M.
Proof. by destruct B. Qed.
Lemma nil_length_pos (X : list Z) : X ≠ [] → 0 < length X.
Proof. destruct X; simpl; [done|lia]. Qed.

Lemma realloc_some B n : length B < n →
  ∃ R, realloc junk (Some (B ++ [0%Z])) (Z.of_nat n) = B ++ R ∧ length R = n - length B.
Proof.
  intros Hn. unfold realloc. simpl. rewrite Nat2Z.id. rewrite resize_ge by (rewrite length_app; simpl; lia).
  rewrite <- app_assoc. eexists. split; [done|]. rewrite !length_app, length_replicate. simpl. lia.
Qed.

Lemma log_write_spec s B D msg z (Q : unit → qm_state S → Prop) :
  log_holds s B → (D = [] ∨ B = []) → Forall (λ c, c ≠ 0%Z) D →
  (0 < z ≤ Z.of_nat (length msg))%Z →
  (∀ s', log_holds s' (log_join B D (take (Z.to_nat z) msg)) → same_queue s s' → res s' = res s →
    g_qm_log_drop_count s' = g_qm_log_drop_count s → Q tt s') →
  wp (log_write junk D msg z) Q s.
Proof.
  intros [Hz Hb] HDB HD Hmsg HQ. unfold log_write. apply wp_bind, wp_gets. rewrite Hz.
  destruct (decide (B = [])) as [->|HB]; [destruct (decide (D = [])) as [->|HDn]|].
  - (* an empty log *)
    simpl. apply wp_bind, wp_modify, wp_bind, wp_ret, wp_bind, wp_gets. simpl. rewrite Hz. simpl.
    apply wp_bind, wp_ret, wp_bind, wp_gets. simpl. rewrite ?Hz. simpl.
    rewrite (proj2 (Z.leb_le _ _)) by lia.
    rewrite (proj2 (Z.ltb_ge _ _)), (proj2 (Z.ltb_ge _ _)) by lia. simpl.
    eapply (wp_log_msg _ [] (realloc junk (g_qm_log_buf s) (z + 1))); simpl.
    + split; done.
    + unfold realloc. rewrite length_resize, length_take. lia.
    + rewrite length_take. lia.
    + apply HQ; try done. split; simpl; [rewrite length_take; lia|].
      destruct (take _ _) eqn:Ht; [|done]. apply (f_equal length) in Ht. rewrite length_take in Ht.
      simpl in Ht. lia.
  - (* lines were dropped *)
    rewrite bool_decide_false by done. pose proof (nil_length_pos D HDn).
    rewrite log_join_drop in HQ by done. simpl in Hz, Hb.
    apply wp_bind, wp_modify, wp_bind, wp_bind, wp_gets, wp_bind, wp_ret. simpl.
    apply wp_bind. unfold strscpy. rewrite (proj2 (Z.eqb_neq _ _)) by lia.
    rewrite (take_ge D) by lia. rewrite Hb.
    set (R := realloc junk None _).
    assert (Z.of_nat (length R) = z + Z.of_nat (length D) + 2)%Z as HR.
    { unfold R, realloc. rewrite length_resize. lia. }
    rewrite <- (take_drop (length D + 1) R).
    rewrite blit_front by (rewrite length_take, length_app; simpl; lia).
    apply wp_ret. simpl app. apply wp_bind. rewrite <- app_assoc. cbn [app]. rewrite strlen_app by done.
    apply wp_ret, wp_modify.
    eapply (wp_log_append _ D (0%Z :: drop (length D + 1) R)); try done.
    + simpl. rewrite length_drop. lia.
    + lia.
  - (* a log with text *)
    destruct HDB as [->|]; [|done]. pose proof (nil_length_pos B HB).
    rewrite (proj2 (Z.eqb_neq _ _)) by lia. rewrite log_join_text in HQ by done.
    simpl bool_decide. cbn iota. apply wp_bind, wp_modify, wp_bind, wp_ret.
    assert (g_qm_log_buf s = Some (B ++ [0%Z])) as -> by (by destruct B).
    destruct (realloc_some B (Z.to_nat (Z.of_nat (length B) + z + 1 + 1))) as (R & HR & Hlen);
      [lia|]. rewrite Z2Nat.id in HR by lia. rewrite HR.
    eapply (wp_log_append _ B R); try done; lia.
Qed.

(** Dropping all lines of a full log. *)
Definition dropped_lines (d : Z) (B : list Z) : Z := Nat.iter (lines B) (λ d, wraps 32 (d + 1)) d.

Lemma log_full_spec s B (Q : list Z → qm_state S → Prop) :
  log_holds s B → B ≠ [] →
  (let d := dropped_lines (g_qm_log_drop_count s) B in
   Q (if (d =? 0)%Z then [] else drop_str_of d) (with_log None 0 d s)) →
  wp log_full Q s.
Proof.
  intros [Hz Hb] HB HQ. unfold log_full. apply wp_bind.
  assert (g_qm_log_buf s = Some (B ++ [0%Z])) as Hb' by (by destruct B).
  eapply (wp_log_put _ _ B 0%Z []); [by split|]. apply wp_bind, wp_gets, wp_bind, wp_ret, wp_bind, wp_gets.
  apply wp_bind. rewrite count_lines_spec by (rewrite length_app; simpl; lia).
  apply wp_ret, wp_bind, wp_modify, wp_ret. done.
Qed.

(** *** The message *)

(** A message without its last byte if that is [c]. *)
Definition trim (c : Z) (m : list Z) : list Z :=
  if bool_decide (last m = Some c) then removelast m else m.
(** The text of a log message: without a final NUL, then a final newline. *)
Definition log_body (m : list Z) : list Z := trim 10 (trim 0 m).

Lemma take_trim c m (n : nat) :
  n ≤ length m →
  trim c (take n m) =
    take (if bool_decide (m !! pred n = Some c ∧ 0 < n) then pred n else n) m.
Proof.
  intros Hn. unfold trim. destruct n as [|n]; simpl.
  - by rewrite bool_decide_false by lia.
  - destruct (lookup_lt_is_Some_2 m n) as [x Hx]; [lia|].
    rewrite (take_S_r _ _ _ Hx), last_snoc, removelast_last, Hx.
    destruct (decide (x = c)) as [->|Hne].
    + rewrite !bool_decide_true by (done || (split; [done|lia])). done.
    + rewrite !bool_decide_false by naive_solver. by rewrite (take_S_r _ _ _ Hx).
Qed.

Lemma omit_last_spec m c (n : nat) s (Q : Z → qm_state S → Prop) :
  n ≤ length m →
  (∀ n', n' ≤ n → take n' m = trim c (take n m) → Q (Z.of_nat n') s) →
  wp (omit_last (Some m) c (Z.of_nat n)) Q s.
Proof.
  intros Hn HQ. unfold omit_last. rewrite take_trim in HQ by done.
  destruct n as [|n].
  { apply wp_ret. apply (HQ 0); [done|]. by rewrite bool_decide_false by lia. }
  rewrite (proj2 (Z.ltb_lt _ _)) by lia. apply wp_bind. unfold msg_at. apply wp_bind, wp_ret.
  rewrite (proj2 (Z.ltb_ge _ _)) by lia.
  destruct (lookup_lt_is_Some_2 m n) as [x Hx]; [lia|].
  replace (Z.to_nat (Z.of_nat (Datatypes.S n) - 1)) with n by lia. rewrite Hx. apply wp_ret, wp_ret.
  simpl in HQ. rewrite Hx in HQ. destruct (x =? c)%Z eqn:Hxc.
  - apply Z.eqb_eq in Hxc as ->. replace (Z.of_nat (Datatypes.S n) - 1)%Z with (Z.of_nat n) by lia.
    apply HQ; [lia|]. by rewrite bool_decide_true by (split; [done|lia]).
  - apply Z.eqb_neq in Hxc. apply (HQ (Datatypes.S n)); [done|].
    rewrite bool_decide_false by naive_solver. done.
Qed.

(** *** The abstract log *)

(** The line a message becomes, and the log after it: the text of the buffer and
    the number of dropped lines. *)
Definition log_line (m : list Z) : list Z :=
  if (QM_LOG_QUEUE_SIZE <=? Z.of_nat (length (log_body m)))%Z then too_big_msg else log_body m.
Definition log_next (B : list Z) (d : Z) (m : list Z) : list Z * Z :=
  let M := log_line m in
  if bool_decide (log_body m = []) then (B, d)
  else if (QM_LOG_QUEUE_SIZE <? Z.of_nat (length B) + Z.of_nat (length M) + 1)%Z then
    let d := dropped_lines d B in
    (log_join [] (if (d =? 0)%Z then [] else drop_str_of d) M, d)
  else (log_join B [] M, d).
(** Messages reported as dropped: empty ones and those that are too big. *)
Definition log_qdrops (m : list Z) : nat :=
  if bool_decide (log_body m = []) then 1
  else if (QM_LOG_QUEUE_SIZE <=? Z.of_nat (length (log_body m)))%Z then 1 else 0.

Definition log_bounded (B : list Z) : Prop :=
  (Z.of_nat (length B) ≤ QM_LOG_QUEUE_SIZE + 63)%Z.

Lemma log_line_length m :
  log_body m ≠ [] → (0 < Z.of_nat (length (log_line m)) < QM_LOG_QUEUE_SIZE)%Z.
Proof.
  intros Hm%nil_length_pos. unfold log_line. destruct (_ <=? _)%Z eqn:Hle; [done|lia].
Qed.
Lemma length_log_join B D M : (length (log_join B D M) ≤ match D with [] => length B | _ => length D end + 1 + length M).
Proof. destruct D, B; simpl; rewrite ?length_app; simpl; lia. Qed.

Lemma log_next_bounded B d m : log_bounded B → log_bounded (log_next B d m).1.
Proof.
  intros HB. unfold log_next. destruct (bool_decide _) eqn:Hm; [done|].
  apply bool_decide_eq_false in Hm. pose proof (log_line_length m Hm) as Hl. unfold log_bounded in *.
  destruct (_ <? _)%Z eqn:Hf; simpl.
  - destruct (_ =? 0)%Z.
    + pose proof (length_log_join [] [] (log_line m)). simpl in *. lia.
    + set (d' := dropped_lines d B). pose proof (length_log_join [] (drop_str_of d') (log_line m)).
      destruct (drop_str_ok d') as [_ ?]. destruct (drop_str_of d'); simpl in *; lia.
  - pose proof (length_log_join B [] (log_line m)). simpl in *. lia.
Qed.

(** The response after [k] more messages were counted as dropped. *)
Definition add_qdrop (k : nat) (r : qm_response) : qm_response :=
  Nat.iter k (λ r, Response (response r) (error r) (wrapu 32 (qdrop r + 1))) r.

(** The last part of [qm_queue_append_log], for a line [M]. *)
Lemma log_append_line s B M msg z (Q : bool → qm_state S → Prop) :
  log_holds s B → M = take (Z.to_nat z) msg → (0 < z ≤ Z.of_nat (length msg))%Z →
  (z < QM_LOG_QUEUE_SIZE)%Z →
  let full := (QM_LOG_QUEUE_SIZE <? Z.of_nat (length B) + z + 1)%Z in
  let d := dropped_lines (g_qm_log_drop_count s) B in
  (∀ s', same_queue s s' → res s' = res s →
    log_holds s' (if full then log_join [] (if (d =? 0)%Z then [] else drop_str_of d) M
                  else log_join B [] M) →
    g_qm_log_drop_count s' = (if full then d else g_qm_log_drop_count s) → Q true s') →
  wp (bz ← gets g_qm_log_buf_size;
      drop_str ← (if (QM_LOG_QUEUE_SIZE <? bz + z + 1)%Z then log_full else mret []);
      log_write junk drop_str msg z;;
      mret true) Q s.
Proof.
  intros Hlog -> Hz Hsmall full d HQ. pose proof Hlog as [Hbz _].
  apply wp_bind, wp_gets, wp_bind. rewrite Hbz. subst full.
  destruct (_ <? _)%Z eqn:Hfull.
  - eapply log_full_spec; [done| |].
    { intros ->. apply Z.ltb_lt in Hfull. simpl in Hfull. lia. }
    fold d. cbn zeta. apply wp_bind. eapply (log_write_spec _ []); [done|by right| |done|].
    { destruct (d =? 0)%Z; [constructor|apply drop_str_ok]. }
    intros s' Hlog' Hq Hr Hd. apply wp_ret. by apply HQ.
  - apply wp_ret, wp_bind. eapply log_write_spec; [done|by left|constructor|done|].
    intros s' Hlog' Hq Hr Hd. apply wp_ret. by apply HQ.
Qed.

Lemma qm_queue_append_log_spec s B p i m :
  log_holds s B → items s !! p = Some i → buf i = Some m →
  data_size (req i) = Z.of_nat (length m) → (data_size (req i) < 2 ^ 31)%Z →
  CONFIG_LOG_REMOTE = true → qm_log_enabled s = true →
  let next := log_next B (g_qm_log_drop_count s) m in
  wp (qm_queue_append_log CONFIG_LOG_REMOTE junk p) (λ r s', r = true ∧ same_queue s s' ∧
    log_holds s' next.1 ∧ g_qm_log_drop_count s' = next.2 ∧
    res s' = add_qdrop (log_qdrops m) (res s)) s.
Proof.
  intros Hlog Hi Hm Hds Hsmall Hcfg Hen next. unfold qm_queue_append_log. rewrite Hcfg. simpl negb.
  cbn iota. apply wp_bind, wp_gets. rewrite Hen. simpl negb. cbn iota.
  apply wp_bind. unfold wp at 1, item. rewrite Hi. cbn beta iota. rewrite Hm, Hds.
  assert (wraps 32 (Z.of_nat (length m)) = Z.of_nat (length m)) as ->.
  { unfold wraps. change (32 - 1)%Z with 31%Z. rewrite Z.mod_small by lia. lia. }
  apply wp_bind. apply omit_last_spec; [done|]. intros n1 Hn1 Ht1. rewrite firstn_all in Ht1.
  apply wp_bind. apply omit_last_spec; [done|]. intros n2 Hn2 Ht2. rewrite Ht1 in Ht2.
  fold (log_body m) in Ht2.
  assert (length (log_body m) = n2) as Hlen by (rewrite <- Ht2, length_take; lia).
  subst next. unfold log_next, log_qdrops. destruct (Z.of_nat n2 =? 0)%Z eqn:Hz.
  { rewrite bool_decide_true by (apply nil_length_inv; lia). apply wp_bind, wp_modify, wp_ret.
    split_and!; try done. }
  rewrite bool_decide_false by (intros Hb; rewrite Hb in Hlen; simpl in Hlen; lia).
  rewrite Hlen. unfold log_line. rewrite Hlen. apply wp_bind. destruct (_ <=? _)%Z eqn:Hbig.
  - apply wp_bind, wp_modify, wp_ret. eapply (log_append_line _ B); [done|done|done|done|].
    intros s' Hq Hr Hl' Hd'. simpl in Hq, Hr, Hl', Hd'. split_and!; try done.
    + by destruct (_ <? _)%Z.
    + rewrite Hd'. by destruct (_ <? _)%Z.
  - apply wp_bind, wp_ret, wp_ret. rewrite Hlen.
    eapply (log_append_line _ B (log_body m)); [done|by rewrite Nat2Z.id|lia|lia|].
    intros s' Hq Hr Hl' Hd'. split_and!; try done.
    + by destruct (_ <? _)%Z.
    + rewrite Hd'. by destruct (_ <? _)%Z.
Qed.
End log.
