(* ===== verification/QmQueueThms.v ===== *)
(** The queue of the queue manager is a bounded FIFO, and its log buffer is
    never overrun. *)
From S2P Require Import Prelude DsDlist DsDlistRep QmQueue QmLog.

Lemma wraps_small z : (- 2 ^ 31 ≤ z < 2 ^ 31)%Z → wraps 32 z = z.
Proof.
  intros Hz. unfold wraps. change (32 - 1)%Z with 31%Z. rewrite Z.mod_small by lia. lia.
Qed.

Section qm_queue.
Context {S : Type} `{!ListOps S} `{!ListLaws S}.
Context (CONFIG_LOG_REMOTE : bool) (junk : Z).
Implicit Types (s : qm_state S) (L : list positive) (m : gmap positive qm_item).

(** *** The abstract queue *)

(** The bytes of the items [L]. *)
Fixpoint total m L : Z :=
  match L with
  | [] => 0
  | p :: L => match m !! p with Some i => isize i | None => 0 end + total m L
  end%Z.

(** How many items at the head have to go before one of [z] bytes fits. *)
Fixpoint n_evict m (z : Z) L : nat :=
  match L with
  | [] => 0
  | p :: L' =>
      if ((QM_MAX_QUEUE_DEPTH <=? Z.of_nat (length L)) || (QM_MAX_QUEUE_SIZE_BYTES <? total m L + z))%Z
      then Datatypes.S (n_evict m z L') else 0
  end.

(** The queue holds the items [L], the counters are exact and within bounds. *)
Record qm_ok s L : Prop := {
  ok_rep : lst_rep (queue s) L;
  ok_live : lst_live (queue s) = dom (items s);
  ok_sizes p i : p ∈ L → items s !! p = Some i → (0 ≤ isize i)%Z;
  ok_length : qlength s = Z.of_nat (length L);
  ok_size : qsize s = total (items s) L;
  ok_depth : (qlength s ≤ QM_MAX_QUEUE_DEPTH)%Z;
  ok_bytes : (qsize s ≤ QM_MAX_QUEUE_SIZE_BYTES)%Z }.

(** The log is untouched. *)
Definition same_log s s' : Prop :=
  g_qm_log_buf s' = g_qm_log_buf s ∧ g_qm_log_buf_size s' = g_qm_log_buf_size s ∧
  g_qm_log_drop_count s' = g_qm_log_drop_count s ∧ qm_log_enabled s' = qm_log_enabled s.

Lemma same_log_trans s1 s2 s3 : same_log s1 s2 → same_log s2 s3 → same_log s1 s3.
Proof. intros (?&?&?&?) (?&?&?&?). split_and!; congruence. Qed.

Lemma total_ext m m' L : (∀ p, p ∈ L → m' !! p = m !! p) → total m' L = total m L.
Proof.
  induction L as [|p L IH]; intros Hm; simpl; [done|]. rewrite Hm by set_solver.
  by rewrite IH by set_solver.
Qed.
Lemma total_app m L1 L2 : total m (L1 ++ L2) = (total m L1 + total m L2)%Z.
Proof. induction L1; simpl; lia. Qed.
Lemma total_nonneg m L :
  (∀ p i, p ∈ L → m !! p = Some i → (0 ≤ isize i)%Z) → (0 ≤ total m L)%Z.
Proof.
  induction L as [|p L IH]; intros Hm; simpl; [done|].
  assert (0 ≤ total m L)%Z by (apply IH; set_solver).
  destruct (m !! p) as [i|] eqn:Hp; simpl; [|lia]. specialize (Hm p i ltac:(set_solver) Hp). lia.
Qed.

Lemma ok_item s L p : qm_ok s L → p ∈ L → is_Some (items s !! p).
Proof.
  intros Hok Hp. apply elem_of_dom. rewrite <- (ok_live _ _ Hok).
  eapply lst_rep_live; [apply Hok|done].
Qed.
Lemma ok_size_nonneg s L : qm_ok s L → (0 ≤ total (items s) L)%Z.
Proof. intros Hok. apply total_nonneg. intros. by eapply (ok_sizes _ _ Hok). Qed.
Lemma ok_ranges s L :
  qm_ok s L → (0 ≤ qlength s ≤ 200)%Z ∧ (0 ≤ qsize s ≤ 2097152)%Z.
Proof.
  intros Hok. pose proof (ok_size_nonneg _ _ Hok). destruct Hok as [_ _ _ Hl Hz Hd Hb].
  unfold QM_MAX_QUEUE_DEPTH, QM_MAX_QUEUE_SIZE_BYTES in *. lia.
Qed.

(** The items of the queue are among the allocated ones. *)
Lemma fuel_enough s L : qm_ok s L → length L ≤ size (items s).
Proof.
  intros Hok. rewrite <- size_dom, <- (ok_live _ _ Hok).
  rewrite <- (size_list_to_set (C := gset positive)) by apply (lst_rep_nodup _ _ (ok_rep _ _ Hok)).
  apply subseteq_size. intros l. rewrite elem_of_list_to_set. apply lst_rep_live, Hok.
Qed.

(** *** Stepping *)

Lemma wp_on_queue {A} (op : M S A) (Q : A → qm_state S → Prop) s :
  wp op (λ a q, Q a (with_queue q s)) (queue s) → wp (on_queue op) Q s.
Proof. unfold wp, on_queue. by destruct (op (queue s)) as [[]|]. Qed.
Lemma wp_item p i (Q : qm_item → qm_state S → Prop) s :
  items s !! p = Some i → Q i s → wp (item p) Q s.
Proof. unfold wp, item. by intros ->. Qed.
Lemma wp_set_item p f i (Q : unit → qm_state S → Prop) s :
  items s !! p = Some i → Q tt (with_items (<[p := f i]>) s) → wp (set_item p f) Q s.
Proof. intros Hp HQ. apply wp_bind. by eapply wp_item. Qed.

(** *** Removal *)

Lemma qm_queue_remove_spec s L1 p L2 i :
  qm_ok s (L1 ++ p :: L2) → items s !! p = Some i →
  wp (qm_queue_remove (Some p)) (λ r s', r = true ∧ qm_ok s' (L1 ++ L2) ∧
    items s' = delete p (items s) ∧ res s' = res s ∧ same_log s s') s.
Proof.
  intros Hok Hi. pose proof (ok_ranges _ _ Hok) as Hr.
  pose proof (lst_rep_nodup _ _ (ok_rep _ _ Hok)) as Hnd.
  destruct Hok as [Hrep Hlive Hsz Hl Hz Hd Hb]. unfold qm_queue_remove.
  apply wp_bind, wp_on_queue. eapply wp_mono; [by apply lst_remove_law|].
  intros _ q [Hq Hlq]. cbn beta. apply wp_bind, wp_modify, wp_bind. eapply wp_item; [done|].
  apply wp_bind, wp_modify, wp_bind. unfold qm_queue_item_free. apply wp_bind.
  eapply wp_item; [done|]. apply wp_modify, wp_ret. apply NoDup_app in Hnd as (Hnd1 & Hdj & [Hnp Hnd2]%NoDup_cons).
  assert (p ∉ L1 ++ L2) as Hp by set_solver.
  rewrite total_app in Hz. cbn [total] in Hz. rewrite Hi in Hz.
  assert (0 ≤ isize i)%Z by (apply (Hsz p i); [set_solver|done]).
  assert (total (delete p (items s)) (L1 ++ L2) = (total (items s) L1 + total (items s) L2)%Z) as Htot.
  { rewrite <- total_app. apply total_ext. intros a Ha. apply lookup_delete_ne. set_solver. }
  assert (0 ≤ total (items s) L1 + total (items s) L2)%Z.
  { rewrite <- total_app. apply total_nonneg. intros a j Ha. apply Hsz. set_solver. }
  rewrite length_app in Hl. simpl in Hl.
  split_and!; [done| |done|done|done]. split; simpl.
  - by apply lst_free_law.
  - rewrite lst_free_live, Hlq, Hlive. by rewrite dom_delete_L.
  - intros a j Ha Hj. eapply Hsz; [|by apply lookup_delete_Some in Hj as [_ Hj]]. set_solver.
  - rewrite length_app, wraps_small by lia. lia.
  - rewrite Htot, wraps_small by lia. lia.
  - rewrite wraps_small by lia. lia.
  - rewrite wraps_small by lia. lia.
Qed.

Lemma qm_queue_head_spec s L (Q : bool * ptr → qm_state S → Prop) :
  qm_ok s L → Q (bool_decide (head L ≠ None), head L) s → wp qm_queue_head Q s.
Proof.
  intros Hok HQ. unfold qm_queue_head. apply wp_bind, wp_on_queue. unfold wp.
  rewrite (lst_head_law _ _ (ok_rep _ _ Hok)). by destruct s.
Qed.

Lemma qm_queue_drop_head_spec s p L i :
  qm_ok s (p :: L) → items s !! p = Some i →
  wp qm_queue_drop_head (λ r s', r = true ∧ qm_ok s' L ∧
    items s' = delete p (items s) ∧ res s' = res s ∧ same_log s s') s.
Proof.
  intros Hok Hi. unfold qm_queue_drop_head. apply wp_bind. eapply qm_queue_head_spec; [done|].
  by apply (qm_queue_remove_spec s [] p L i).
Qed.

(** *** Making room *)

(** The items without those of [D]. *)
Definition freed m (D : list positive) : gmap positive qm_item := foldr delete m D.

Lemma freed_lookup m D p : freed m D !! p = if decide (p ∈ D) then None else m !! p.
Proof.
  induction D as [|a D IH]; [by rewrite decide_False by set_solver|].
  change (freed m (a :: D)) with (delete a (freed m D)).
  destruct (decide (p = a)) as [->|Hne].
  - rewrite lookup_delete_eq, decide_True by set_solver. done.
  - rewrite lookup_delete_ne, IH by done. destruct (decide (p ∈ D)).
    + by rewrite decide_True by set_solver.
    + by rewrite decide_False by set_solver.
Qed.
Lemma freed_delete m p D : freed (delete p m) D = delete p (freed m D).
Proof. induction D as [|a D IH]; simpl; [done|]. by rewrite IH, delete_delete. Qed.

Lemma n_evict_ext m m' z L :
  (∀ p, p ∈ L → m' !! p = m !! p) → n_evict m' z L = n_evict m z L.
Proof.
  induction L as [|p L IH]; intros Hm; [done|]. cbn [n_evict]. rewrite (total_ext m m') by done.
  rewrite IH by set_solver. done.
Qed.

Lemma add_qdrop_succ k r :
  add_qdrop k (Response (response r) (error r) (wrapu 32 (qdrop r + 1))) =
  add_qdrop (Datatypes.S k) r.
Proof. unfold add_qdrop. by rewrite Nat.iter_succ_r. Qed.

Lemma qm_full_spec s L z :
  qm_ok s L → (0 ≤ z ≤ QM_MAX_QUEUE_SIZE_BYTES)%Z →
  qm_full z s = ((QM_MAX_QUEUE_DEPTH <=? Z.of_nat (length L)) ||
    (QM_MAX_QUEUE_SIZE_BYTES <? total (items s) L + z))%Z.
Proof.
  intros Hok Hz. pose proof (ok_ranges _ _ Hok). unfold qm_full, wrapu.
  unfold QM_MAX_QUEUE_SIZE_BYTES in *. rewrite (ok_length _ _ Hok), <- (ok_size _ _ Hok).
  by rewrite Z.mod_small by lia.
Qed.

Lemma make_room_done s z : qm_ok s [] → (0 ≤ z ≤ QM_MAX_QUEUE_SIZE_BYTES)%Z → qm_full z s = false.
Proof.
  intros Hok Hz. rewrite (qm_full_spec s [] z Hok Hz). simpl.
  apply Z.ltb_ge. lia.
Qed.

(** The loop drops the oldest items, and no more than necessary. *)
Lemma make_room_loop_spec fuel s L z :
  qm_ok s L → (0 ≤ z ≤ QM_MAX_QUEUE_SIZE_BYTES)%Z → length L ≤ fuel →
  let k := n_evict (items s) z L in
  wp (make_room_loop fuel z) (λ _ s', qm_ok s' (drop k L) ∧
    items s' = freed (items s) (take k L) ∧ res s' = add_qdrop k (res s) ∧
    same_log s s' ∧ qm_full z s' = false) s.
Proof.
  revert s L. induction fuel as [|fuel IH]; intros s L Hok Hz Hlen k;
    simpl make_room_loop; apply wp_bind, wp_gets; pose proof (qm_full_spec s L z Hok Hz) as Hfull.
  - destruct L as [|p L]; [|simpl in Hlen; lia]. pose proof (make_room_done s z Hok Hz) as Hf.
    rewrite Hf. by apply wp_ret.
  - destruct L as [|p L].
    { pose proof (make_room_done s z Hok Hz) as Hf. rewrite Hf. by apply wp_ret. }
    subst k. cbn [n_evict]. rewrite <- Hfull. destruct (qm_full z s) eqn:Hf; [|done].
    destruct (ok_item s _ p Hok) as [i Hi]; [set_solver|].
    assert (p ∉ L) as HpL by (pose proof (lst_rep_nodup _ _ (ok_rep _ _ Hok)); by apply NoDup_cons_1_1).
    apply wp_bind. eapply wp_mono; [by eapply qm_queue_drop_head_spec|].
    intros _ s1 (_ & Hok1 & Hit1 & Hres1 & Hlog1). apply wp_bind, wp_modify.
    set (s2 := with_res _ s1).
    assert (qm_ok s2 L) as Hok2 by (by destruct Hok1; split).
    eapply wp_mono; [apply (IH s2 L Hok2 Hz); simpl in Hlen; lia|].
    assert (n_evict (items s2) z L = n_evict (items s) z L) as ->.
    { apply n_evict_ext. intros a Ha. simpl. rewrite Hit1. apply lookup_delete_ne. set_solver. }
    intros _ s' (Hok' & Hit' & Hres' & Hlog' & Hf'). cbn [drop take]. split_and!; try done.
    + rewrite Hit'. simpl. rewrite Hit1. apply freed_delete.
    + rewrite Hres'. simpl. rewrite Hres1. apply add_qdrop_succ.
    + by eapply same_log_trans.
Qed.

(** *** Appending *)

(** The item as it enters the queue. *)
Definition stamped (now : Z) (i : qm_item) : qm_item :=
  Item (req i) (topic i) (data_size (req i)) (buf i) now.

Lemma qm_ok_insert s L p i :
  qm_ok s L → p ∉ L → is_Some (items s !! p) → qm_ok (with_items (<[p := i]>) s) L.
Proof.
  intros [Hrep Hlive Hsz Hl Hz Hd Hb] Hp Hi. split; simpl; try done.
  - rewrite dom_insert_L, Hlive. apply elem_of_dom in Hi. set_solver.
  - intros a j Ha. rewrite lookup_insert_ne by set_solver. by apply Hsz.
  - rewrite Hz. apply total_ext. intros a Ha. rewrite lookup_insert_ne by set_solver. done.
Qed.

(** Appending an item to a queue with room for it. *)
Lemma enqueue_spec s L p i (Q : bool * ptr → qm_state S → Prop) :
  qm_ok s L → p ∉ L → items s !! p = Some i → (0 ≤ isize i)%Z →
  (Z.of_nat (length L) < QM_MAX_QUEUE_DEPTH)%Z →
  (total (items s) L + isize i ≤ QM_MAX_QUEUE_SIZE_BYTES)%Z →
  (∀ s', qm_ok s' (L ++ [p]) → items s' = items s → res s' = res s → same_log s s' →
    Q (true, None) s') →
  wp (on_queue (lst_insert_tail p);;
      modify (λ s, with_counts (wraps 32 (qlength s + 1)) (qsize s) s);;
      i ← item p;
      modify (λ s, with_counts (qlength s) (wraps 32 (qsize s + isize i)) s);;
      mret (true, None)) Q s.
Proof.
  intros Hok Hp Hi Hsz Hd Hb HQ. pose proof (ok_ranges _ _ Hok). pose proof (ok_length _ _ Hok).
  pose proof (ok_size _ _ Hok). unfold QM_MAX_QUEUE_DEPTH, QM_MAX_QUEUE_SIZE_BYTES in *.
  apply wp_bind, wp_on_queue. eapply wp_mono; [apply lst_insert_tail_law; [apply Hok|done|]|].
  { rewrite (ok_live _ _ Hok). apply elem_of_dom. eauto. }
  intros _ q [Hq Hlq]. cbn beta. apply wp_bind, wp_modify, wp_bind. eapply wp_item; [done|].
  apply wp_bind, wp_modify, wp_ret. apply HQ; try done. split; simpl.
  - done.
  - rewrite Hlq. apply (ok_live _ _ Hok).
  - intros a j [Ha|Ha]%elem_of_app Hj; [by apply (ok_sizes _ _ Hok a)|].
    apply list_elem_of_singleton in Ha as ->. congruence.
  - rewrite length_app, wraps_small by lia. simpl. lia.
  - rewrite total_app, wraps_small by lia. simpl. rewrite Hi. lia.
  - rewrite wraps_small by lia. unfold QM_MAX_QUEUE_DEPTH. lia.
  - rewrite wraps_small by lia. unfold QM_MAX_QUEUE_SIZE_BYTES. lia.
Qed.

Lemma qm_queue_append_item_spec now s L p i :
  qm_ok s L → p ∉ L → items s !! p = Some i → (0 ≤ data_size (req i))%Z →
  let m := <[p := stamped now i]> (items s) in
  let k := n_evict m (data_size (req i)) L in
  wp (qm_queue_append_item now p) (λ r s',
    if (QM_MAX_QUEUE_SIZE_BYTES <? data_size (req i))%Z
    then r = (false, Some p) ∧ qm_ok s' L ∧ items s' = m ∧ res s' = res s ∧ same_log s s'
    else r = (true, None) ∧ qm_ok s' (drop k L ++ [p]) ∧ items s' = freed m (take k L) ∧
         res s' = add_qdrop k (res s) ∧ same_log s s') s.
Proof.
  intros Hok Hp Hi Hds m k. unfold qm_queue_append_item.
  apply wp_bind. eapply wp_set_item; [done|]. apply wp_bind.
  eapply wp_set_item; [simpl; by rewrite lookup_insert_eq|]. simpl.
  set (s1 := with_items _ _). assert (items s1 = m) as Hm1 by apply insert_insert_eq.
  assert (qm_ok s1 L) as Hok1.
  { apply qm_ok_insert; [|done|simpl; rewrite lookup_insert_eq; eauto].
    apply qm_ok_insert; [done|done|eauto]. }
  assert (items s1 !! p = Some (stamped now i)) as Hi1 by (rewrite Hm1; apply lookup_insert_eq).
  unfold qm_queue_make_room. apply wp_bind, wp_bind. eapply wp_item; [done|]. simpl isize.
  destruct (_ <? _)%Z eqn:Hbig.
  { apply wp_ret. simpl. by apply wp_ret. }
  apply wp_bind, wp_gets, wp_bind. eapply wp_mono; [apply (make_room_loop_spec _ s1 L); [done|lia|]|].
  { eapply fuel_enough; done. }
  rewrite Hm1. fold k. intros _ s2 (Hok2 & Hit2 & Hres2 & Hlog2 & Hf2). apply wp_ret. simpl.
  assert (p ∉ take k L) by (intros ?%subseteq_take; done).
  assert (p ∉ drop k L) by (intros ?%subseteq_drop; done).
  assert (items s2 !! p = Some (stamped now i)) as Hi2.
  { rewrite Hit2, freed_lookup, decide_False by done. apply lookup_insert_eq. }
  rewrite (qm_full_spec s2 (drop k L)) in Hf2 by (done || lia).
  eapply (enqueue_spec s2 (drop k L) p (stamped now i)); simpl; try done; [lia..|].
  intros s' Hok' Hit' Hres' Hlog'. split_and!; try done.
  - by rewrite Hit'.
  - by rewrite Hres'.
  - by eapply same_log_trans, Hlog'.
Qed.

(** *** Taking from the queue *)

Lemma qm_queue_get_spec s L :
  qm_ok s L →
  wp qm_queue_get (λ r s', r = (bool_decide (L ≠ []), head L) ∧ qm_ok s' (tail L) ∧
    items s' = items s ∧ res s' = res s ∧ same_log s s') s.
Proof.
  intros Hok. pose proof (ok_ranges _ _ Hok) as Hr. unfold qm_queue_get.
  apply wp_bind, wp_on_queue. eapply wp_mono; [apply lst_remove_head_law, Hok|].
  intros q q' (-> & Hq & Hlq). cbn beta. destruct Hok as [Hrep Hlive Hsz Hl Hz Hd Hb].
  destruct L as [|p L]; simpl.
  - apply wp_ret. split_and!; try done. split; simpl; try done. by rewrite Hlq.
  - assert (is_Some (items s !! p)) as [i Hi].
    { apply elem_of_dom. rewrite <- Hlive. eapply lst_rep_live; [done|set_solver]. }
    apply wp_bind, wp_modify, wp_bind. eapply wp_item; [done|]. apply wp_bind, wp_modify, wp_ret.
    simpl in Hl, Hz, Hq. rewrite Hi in Hz. assert (0 ≤ isize i)%Z by (apply (Hsz p); [set_solver|done]).
    assert (0 ≤ total (items s) L)%Z by (apply total_nonneg; intros a j Ha; apply Hsz; set_solver).
    split_and!; try done. split; simpl; rewrite ?wraps_small by lia; try lia.
    + done.
    + by rewrite Hlq.
    + intros a j Ha. apply Hsz. set_solver.
Qed.

Lemma qm_queue_item_free_spec s L p :
  qm_ok s L → p ∉ L → is_Some (items s !! p) →
  wp (qm_queue_item_free (Some p)) (λ _ s', qm_ok s' L ∧ items s' = delete p (items s) ∧
    res s' = res s ∧ same_log s s') s.
Proof.
  intros [Hrep Hlive Hsz Hl Hz Hd Hb] Hp [i Hi]. unfold qm_queue_item_free. apply wp_bind.
  eapply wp_item; [done|]. apply wp_modify. split_and!; try done. split; simpl; try done.
  - by apply lst_free_law.
  - by rewrite lst_free_live, Hlive, dom_delete_L.
  - intros a j Ha. rewrite lookup_delete_ne by set_solver. by apply Hsz.
  - rewrite Hz. symmetry. apply total_ext. intros a Ha. apply lookup_delete_ne. set_solver.
Qed.

(** *** Putting into the queue *)

(** An item as the network side hands it over: its buffer is the message. *)
Definition valid_item (i : qm_item) : Prop :=
  ∃ msg, buf i = Some msg ∧ data_size (req i) = Z.of_nat (length msg) ∧ (data_size (req i) < 2 ^ 31)%Z.

Definition is_log (i : qm_item) : bool := (data_type (req i) =? QM_DATA_LOG)%Z.

Lemma same_queue_ok s s' L : same_queue s s' → qm_ok s L → qm_ok s' L.
Proof.
  intros (Hq & Hl & Hz & Hi & _) [? ? ? ? ? ? ?].
  split; rewrite ?Hq, ?Hl, ?Hz, ?Hi; done.
Qed.

(** The log after a message, by configuration. *)
Definition log_step s (B : list Z) (msg : list Z) : list Z * Z :=
  if CONFIG_LOG_REMOTE then
    if qm_log_enabled s then log_next B (g_qm_log_drop_count s) msg
    else (B, wraps 32 (g_qm_log_drop_count s + 1))
  else (B, g_qm_log_drop_count s).
Definition log_step_qdrops s (msg : list Z) : nat :=
  if CONFIG_LOG_REMOTE && qm_log_enabled s then log_qdrops msg else 0.

Lemma append_log_any s B p i msg :
  log_holds s B → items s !! p = Some i → buf i = Some msg →
  data_size (req i) = Z.of_nat (length msg) → (data_size (req i) < 2 ^ 31)%Z →
  wp (qm_queue_append_log CONFIG_LOG_REMOTE junk p) (λ r s', r = true ∧ same_queue s s' ∧
    log_holds s' (log_step s B msg).1 ∧ g_qm_log_drop_count s' = (log_step s B msg).2 ∧
    res s' = add_qdrop (log_step_qdrops s msg) (res s)) s.
Proof.
  intros Hlog Hi Hm Hds Hsz. unfold log_step, log_step_qdrops.
  destruct CONFIG_LOG_REMOTE eqn:Hcfg; simpl; [|by apply wp_ret].
  destruct (qm_log_enabled s) eqn:Hen; [by eapply (qm_queue_append_log_spec true)|].
  unfold qm_queue_append_log. simpl. apply wp_bind, wp_gets. rewrite Hen. simpl.
  by apply wp_bind, wp_modify, wp_ret.
Qed.

Lemma qm_queue_put_log s L B p i msg now :
  qm_ok s L → log_holds s B → p ∉ L → items s !! p = Some i → is_log i = true → buf i = Some msg →
  data_size (req i) = Z.of_nat (length msg) → (data_size (req i) < 2 ^ 31)%Z →
  wp (qm_queue_put CONFIG_LOG_REMOTE junk now p) (λ r s', r = (true, None) ∧ qm_ok s' L ∧
    items s' = delete p (items s) ∧ qm_log_enabled s' = qm_log_enabled s ∧
    log_holds s' (log_step s B msg).1 ∧ g_qm_log_drop_count s' = (log_step s B msg).2 ∧
    res s' = add_qdrop (log_step_qdrops s msg) (res s)) s.
Proof.
  intros Hok Hlog Hp Hi Hty Hm Hds Hsz. unfold qm_queue_put. apply wp_bind. eapply wp_item; [done|].
  unfold is_log in Hty. rewrite Hty. apply wp_bind. eapply wp_mono; [by eapply append_log_any|].
  intros r s1 (-> & Hq & Hl1 & Hd1 & Hr1). pose proof Hq as (_ & _ & _ & Hit & Hen).
  apply wp_bind. eapply wp_mono; [eapply (qm_queue_item_free_spec s1 L);
    [by eapply same_queue_ok|done|rewrite Hit; eauto]|].
  intros [] s2 (Hok2 & Hit2 & Hr2 & Hb2 & Hz2 & Hd2 & He2). apply wp_ret.
  split_and!; try done; try congruence. destruct Hl1. split; congruence.
Qed.

Lemma qm_queue_put_item s L p i now :
  qm_ok s L → p ∉ L → items s !! p = Some i → is_log i = false → (0 ≤ data_size (req i))%Z →
  let m := <[p := stamped now i]> (items s) in
  let k := n_evict m (data_size (req i)) L in
  wp (qm_queue_put CONFIG_LOG_REMOTE junk now p) (λ r s', same_log s s' ∧
    if (QM_MAX_QUEUE_SIZE_BYTES <? data_size (req i))%Z
    then r = (false, Some p) ∧ qm_ok s' L ∧ items s' = m ∧
         res s' = Response QM_RESPONSE_ERROR QM_ERROR_QUEUE (qdrop (res s))
    else r = (true, None) ∧ qm_ok s' (drop k L ++ [p]) ∧ items s' = freed m (take k L) ∧
         res s' = add_qdrop k (res s)) s.
Proof.
  intros Hok Hp Hi Hty Hds m k. unfold qm_queue_put. apply wp_bind. eapply wp_item; [done|].
  unfold is_log in Hty. rewrite Hty. apply wp_bind.
  eapply wp_mono; [by eapply qm_queue_append_item_spec|]. fold m k.
  intros [r q] s1. destruct (_ <? _)%Z; intros ([= -> ->] & Hok1 & Hit1 & Hr1 & Hl1); simpl.
  - apply wp_bind, wp_modify, wp_ret. split_and!; try done; [by destruct Hok1; split|].
    simpl. by rewrite Hr1.
  - by apply wp_bind, wp_ret, wp_ret.
Qed.

(** There is room for [z] more bytes behind the items [L]. *)
Definition has_room m (z : Z) L : Prop :=
  (Z.of_nat (length L) < QM_MAX_QUEUE_DEPTH ∧ total m L + z ≤ QM_MAX_QUEUE_SIZE_BYTES)%Z.

(** The evicted prefix is the shortest one that makes room. *)
Lemma n_evict_room m z L : (z ≤ QM_MAX_QUEUE_SIZE_BYTES)%Z → has_room m z (drop (n_evict m z L) L).
Proof.
  intros Hz. induction L as [|p L IH]; cbn [n_evict].
  - split; simpl; [done|lia].
  - destruct (_ || _)%Z eqn:Hf; [done|]. simpl drop. apply orb_false_iff in Hf as [H1 H2].
    unfold has_room. lia.
Qed.
Lemma n_evict_minimal m z L j : j < n_evict m z L → ¬ has_room m z (drop j L).
Proof.
  revert j. induction L as [|p L IH]; intros j; cbn [n_evict]; [lia|].
  destruct (_ || _)%Z eqn:Hf; [|lia]. destruct j as [|j]; [|simpl; intros; apply IH; lia].
  intros _ [H1 H2]. cbn [drop] in *. apply orb_true_iff in Hf as [Hf|Hf]; lia.
Qed.

(** *** Sequences of operations *)

(** A fresh item from the network side. *)
Definition alloc_item (p : positive) (i : qm_item) s : qm_state S :=
  with_queue (lst_alloc p (queue s)) (with_items (<[p := i]>) s).
Definition qm_init (enabled : bool) (r : qm_response) : qm_state S :=
  Qm lst_empty 0 0 ∅ None 0 0 enabled r.

(** The states of the queue manager, with the items its callers own: messages
    arrive, are put, taken out to be published, or dropped; owned items are
    freed; the log is published by its timer; the log can be switched on and off
    and every request brings a response of its own. *)
Inductive qm_reach : qm_state S → gset positive → Prop :=
| reach_init en r : qm_reach (qm_init en r) ∅
| reach_alloc s O p i :
    qm_reach s O → items s !! p = None → valid_item i → qm_reach (alloc_item p i s) ({[p]} ∪ O)
| reach_put s O p now b q s' :
    qm_reach s O → p ∈ O → qm_queue_put CONFIG_LOG_REMOTE junk now p s = Some ((b, q), s') →
    qm_reach s' (if decide (q = None) then O ∖ {[p]} else O)
| reach_get s O b p s' :
    qm_reach s O → qm_queue_get s = Some ((b, Some p), s') → qm_reach s' ({[p]} ∪ O)
| reach_drop s O b s' :
    qm_reach s O → qm_queue_drop_head s = Some (b, s') → qm_reach s' O
| reach_free s O p s' :
    qm_reach s O → p ∈ O → qm_queue_item_free (Some p) s = Some (tt, s') → qm_reach s' (O ∖ {[p]})
| reach_publish s O c ok t s' :
    qm_reach s O → qm_mqtt_timer_handler_log c ok s = Some (t, s') → qm_reach s' O
| reach_request s O en r :
    qm_reach s O →
    qm_reach (Qm (queue s) (qlength s) (qsize s) (items s) (g_qm_log_buf s) (g_qm_log_buf_size s)
                (g_qm_log_drop_count s) en r) O.

(** The invariant: every allocated item is either queued or owned by a caller. *)
Record qm_inv s (O : gset positive) L B : Prop := {
  inv_ok : qm_ok s L;
  inv_log : log_holds s B;
  inv_bound : log_bounded B;
  inv_split : dom (items s) = O ∪ list_to_set L;
  inv_disj p : p ∈ O → p ∉ L;
  inv_valid p i : items s !! p = Some i → valid_item i }.

Lemma inv_owned s O L B p : qm_inv s O L B → p ∈ O → ∃ i, items s !! p = Some i ∧ valid_item i.
Proof.
  intros Hinv Hp. assert (p ∈ dom (items s)) as [i Hi]%elem_of_dom.
  { rewrite (inv_split _ _ _ _ Hinv). set_solver. }
  exists i. split; [done|]. by eapply inv_valid.
Qed.

Lemma same_log_holds s s' B : same_log s s' → log_holds s B → log_holds s' B.
Proof. intros (H1 & H2 & _) [H3 H4]. split; congruence. Qed.

Lemma log_step_bounded s B msg : log_bounded B → log_bounded (log_step s B msg).1.
Proof.
  intros HB. unfold log_step. destruct CONFIG_LOG_REMOTE, (qm_log_enabled s); simpl; try done.
  by apply log_next_bounded.
Qed.

(** Putting an owned item keeps the invariant. *)
Lemma qm_inv_put s O L B p now :
  qm_inv s O L B → p ∈ O →
  wp (qm_queue_put CONFIG_LOG_REMOTE junk now p) (λ r s', ∃ L' B',
    qm_inv s' (if decide (r.2 = None) then O ∖ {[p]} else O) L' B') s.
Proof.
  intros Hinv Hp. destruct (inv_owned _ _ _ _ _ Hinv Hp) as (i & Hi & msg & Hm & Hds & Hsz).
  destruct Hinv as [Hok Hlog HB Hsplit Hdisj Hval]. pose proof (Hdisj p Hp) as HpL.
  destruct (is_log i) eqn:Hty.
  - eapply wp_mono; [by eapply qm_queue_put_log|].
    intros r s' (-> & Hok' & Hit' & _ & Hlog' & _). exists L, (log_step s B msg).1.
    rewrite decide_True by done. split; try done.
    + by apply log_step_bounded.
    + rewrite Hit', dom_delete_L, Hsplit. set_solver.
    + set_solver.
    + intros a j. rewrite Hit', lookup_delete_Some. intros [_ Hj]. by eapply Hval.
  - set (m := <[p := stamped now i]> (items s)).
    assert (∀ a j, m !! a = Some j → valid_item j) as Hvalm.
    { intros a j. unfold m. rewrite lookup_insert_Some. intros [[<- <-]|[_ Hj]]; [|by eapply Hval].
      exists msg. done. }
    assert (dom m = O ∪ list_to_set L) as Hdm by (unfold m; rewrite dom_insert_L; set_solver).
    eapply wp_mono; [eapply qm_queue_put_item; try done; lia|]. fold m.
    intros r s' [Hl' Hcase]. apply same_log_holds with (B := B) in Hl'; [|done].
    destruct (_ <? _)%Z; destruct Hcase as (-> & Hok' & Hit' & _).
    + exists L, B. rewrite decide_False by done. split; try done; by rewrite Hit'.
    + set (k := n_evict _ _ _) in *. exists (drop k L ++ [p]), B. rewrite decide_True by done.
      pose proof (lst_rep_nodup _ _ (ok_rep _ _ Hok)) as Hnd. rewrite <- (take_drop k L) in Hnd, Hdm.
      apply NoDup_app in Hnd as (_ & Hd & _). split; try done.
      * apply set_eq. intros a. rewrite Hit', elem_of_dom, freed_lookup.
        rewrite elem_of_union, elem_of_difference, elem_of_list_to_set, elem_of_app, list_elem_of_singleton.
        destruct (decide (a ∈ take k L)) as [Ha|Ha].
        -- split; [by intros [? ?]|]. assert (a ∈ L) by (by eapply subseteq_take). set_solver.
        -- rewrite <- elem_of_dom, Hdm. destruct (decide (a = p)); set_solver.
      * intros a [Ha Hne]%elem_of_difference. specialize (Hdisj a Ha).
        rewrite elem_of_app, list_elem_of_singleton. intros [?%subseteq_drop| ->]; set_solver.
      * intros a j. rewrite Hit', freed_lookup. case_decide; [done|]. apply Hvalm.
Qed.

Lemma qm_inv_get s O L B :
  qm_inv s O L B →
  wp qm_queue_get (λ r s', r = (bool_decide (L ≠ []), head L) ∧
    qm_inv s' (match head L with Some p => {[p]} ∪ O | None => O end) (tail L) B) s.
Proof.
  intros [Hok Hlog HB Hsplit Hdisj Hval]. eapply wp_mono; [by apply qm_queue_get_spec|].
  intros r s' (-> & Hok' & Hit' & _ & Hl'). split; [done|].
  pose proof (lst_rep_nodup _ _ (ok_rep _ _ Hok)) as Hnd.
  split; try done; [by eapply same_log_holds|..]; rewrite ?Hit'; try done; destruct L as [|p L]; simpl in *; try set_solver.
  apply NoDup_cons in Hnd. set_solver.
Qed.

Lemma qm_inv_drop s O L B :
  qm_inv s O L B → wp qm_queue_drop_head (λ _ s', qm_inv s' O (tail L) B) s.
Proof.
  intros Hinv. pose proof Hinv as [Hok Hlog HB Hsplit Hdisj Hval]. destruct L as [|p L].
  { unfold qm_queue_drop_head. apply wp_bind. eapply qm_queue_head_spec; [done|]. simpl.
    by apply wp_ret. }
  destruct (ok_item s _ p Hok) as [i Hi]; [set_solver|].
  eapply wp_mono; [by eapply qm_queue_drop_head_spec|]. intros r s' (_ & Hok' & Hit' & _ & Hl').
  pose proof (lst_rep_nodup _ _ (ok_rep _ _ Hok)) as Hnd. apply NoDup_cons in Hnd.
  split; try done; [by eapply same_log_holds|..]; rewrite ?Hit'.
  - rewrite dom_delete_L, Hsplit. simpl. assert (p ∉ O) by (intros Hp%Hdisj; set_solver). set_solver.
  - set_solver.
  - intros a j [_ Hj]%lookup_delete_Some. by eapply Hval.
Qed.

Lemma qm_inv_free s O L B p :
  qm_inv s O L B → p ∈ O →
  wp (qm_queue_item_free (Some p)) (λ _ s', qm_inv s' (O ∖ {[p]}) L B) s.
Proof.
  intros Hinv Hp. destruct (inv_owned _ _ _ _ _ Hinv Hp) as (i & Hi & _).
  destruct Hinv as [Hok Hlog HB Hsplit Hdisj Hval].
  eapply wp_mono; [eapply qm_queue_item_free_spec; [done|by apply Hdisj|eauto]|].
  intros [] s' (Hok' & Hit' & _ & Hl'). split; try done; [by eapply same_log_holds|..].
  - rewrite Hit', dom_delete_L, Hsplit. specialize (Hdisj p Hp). set_solver.
  - set_solver.
  - intros a j. rewrite Hit', lookup_delete_Some. intros [_ Hj]. by eapply Hval.
Qed.

Lemma qm_inv_alloc s O L B p i :
  qm_inv s O L B → items s !! p = None → valid_item i →
  qm_inv (alloc_item p i s) ({[p]} ∪ O) L B.
Proof.
  intros [[Hrep Hlive Hsz Hl Hz Hd Hb] Hlog HB Hsplit Hdisj Hval] Hp Hi.
  assert (p ∉ dom (items s)) as Hnew by (by apply not_elem_of_dom).
  assert (p ∉ L) as HpL by set_solver.
  split; try done.
  - split; simpl; try done.
    + apply lst_alloc_law; [done|]. by rewrite Hlive.
    + by rewrite lst_alloc_live, dom_insert_L, Hlive.
    + intros a j Ha. rewrite lookup_insert_ne by set_solver. by apply Hsz.
    + rewrite Hz. symmetry. apply total_ext. intros a Ha. apply lookup_insert_ne. set_solver.
  - simpl. rewrite dom_insert_L, Hsplit. set_solver.
  - intros a Ha. destruct (decide (a = p)) as [->|]; [done|]. apply Hdisj. set_solver.
  - intros a j. simpl. rewrite lookup_insert_Some. intros [[_ <-]|[_ Hj]]; [done|]. by eapply Hval.
Qed.

Lemma qm_inv_publish s O L B c ok :
  qm_inv s O L B →
  wp (qm_mqtt_timer_handler_log c ok) (λ t s', ∃ B', qm_inv s' O L B' ∧
    t = if c && ok && bool_decide (B ≠ []) then Some B else None) s.
Proof.
  intros Hinv. pose proof Hinv as [Hok [Hz Hb] HB Hsplit Hdisj Hval]. unfold qm_mqtt_timer_handler_log.
  apply wp_bind, wp_gets. rewrite Hz. destruct (decide (B = [])) as [->|HBn].
  { simpl. apply wp_ret. exists []. split; [done|]. by destruct c, ok. }
  pose proof (nil_length_pos B HBn). rewrite (proj2 (Z.eqb_neq _ _)) by lia.
  rewrite bool_decide_true by done. destruct c; simpl; [|apply wp_ret; by exists B].
  assert (g_qm_log_buf s = Some (B ++ [0%Z])) as Hb' by (by destruct B).
  apply wp_bind, wp_gets, wp_bind. rewrite Hb'. apply wp_ret, wp_bind, wp_modify, wp_bind.
  destruct ok; apply wp_modify, wp_ret; exists []; (split; [|simpl; rewrite ?Nat2Z.id, ?take_app_length; done]);
    (split; try done; by destruct Hok; split).
Qed.

Lemma qm_reach_inv s O : qm_reach s O → ∃ L B, qm_inv s O L B.
Proof.
  induction 1 as [en r|s O p i _ (L & B & IH)|s O p now b q s' _ (L & B & IH) Hp Hrun
    |s O b p s' _ (L & B & IH) Hrun|s O b s' _ (L & B & IH) Hrun|s O p s' _ (L & B & IH) Hp Hrun
    |s O c ok t s' _ (L & B & IH) Hrun|s O en r _ (L & B & IH)].
  - exists [], []. destruct lst_empty_law as [He Hl]. split; try done.
  - exists L, B. by apply qm_inv_alloc.
  - pose proof (qm_inv_put _ _ _ _ _ now IH Hp) as Hwp. unfold wp in Hwp. by rewrite Hrun in Hwp.
  - pose proof (qm_inv_get _ _ _ _ IH) as Hwp. unfold wp in Hwp. rewrite Hrun in Hwp.
    destruct Hwp as [[= _ Hhd] Hinv]. rewrite <- Hhd in Hinv. eauto.
  - pose proof (qm_inv_drop _ _ _ _ IH) as Hwp. unfold wp in Hwp. rewrite Hrun in Hwp. eauto.
  - pose proof (qm_inv_free _ _ _ _ _ IH Hp) as Hwp. unfold wp in Hwp. rewrite Hrun in Hwp. eauto.
  - pose proof (qm_inv_publish _ _ _ _ c ok IH) as Hwp. unfold wp in Hwp. rewrite Hrun in Hwp.
    destruct Hwp as (B' & Hinv & _). eauto.
  - exists L, B. destruct IH as [[] [] ? ? ? ?]. by repeat split.
Qed.

(** *** Properties *)

(** C21. [qm_queue_put] of a message that is not a log line.  A message larger
    than the whole queue is refused with [QM_ERROR_QUEUE], the queue is unchanged
    and the caller keeps the item.  Any other message is appended at the tail and
    owned by the queue from then on; to make room exactly the shortest prefix of
    oldest items is freed, each counted in [qdrop]. *)
Theorem qm_queue_put_correct s L p i now :
  qm_ok s L → p ∉ L → items s !! p = Some i → is_log i = false → (0 ≤ data_size (req i))%Z →
  let m := <[p := stamped now i]> (items s) in
  ∃ s' k, same_log s s' ∧
    if (QM_MAX_QUEUE_SIZE_BYTES <? data_size (req i))%Z
    then qm_queue_put CONFIG_LOG_REMOTE junk now p s = Some ((false, Some p), s') ∧
         qm_ok s' L ∧ items s' = m ∧
         res s' = Response QM_RESPONSE_ERROR QM_ERROR_QUEUE (qdrop (res s))
    else qm_queue_put CONFIG_LOG_REMOTE junk now p s = Some ((true, None), s') ∧
         qm_ok s' (drop k L ++ [p]) ∧ items s' = freed m (take k L) ∧
         res s' = add_qdrop k (res s) ∧ has_room m (data_size (req i)) (drop k L) ∧
         ∀ j, j < k → ¬ has_room m (data_size (req i)) (drop j L).
Proof.
  intros Hok Hp Hi Hty Hds m.
  destruct (proj1 (wp_some _ _ _) (qm_queue_put_item s L p i now Hok Hp Hi Hty Hds))
    as (r & s' & Hrun & Hlog & Hcase).
  exists s', (n_evict m (data_size (req i)) L). split; [done|].
  destruct (_ <? _)%Z eqn:Hbig; destruct Hcase as (-> & Hok' & Hit' & Hr'); split_and!; try done.
  - apply n_evict_room. lia.
  - intros j. apply n_evict_minimal.
Qed.

(** [qm_queue_get] is first-in first-out: it returns the oldest item, now
    owned by the caller with its contents untouched, and keeps the others in
    order with exact counters; on an empty queue it returns false and changes
    nothing. *)
Theorem qm_queue_get_fifo s L :
  qm_ok s L →
  ∃ s', qm_queue_get s = Some ((bool_decide (L ≠ []), head L), s') ∧ qm_ok s' (tail L) ∧
    items s' = items s ∧ res s' = res s ∧ same_log s s'.
Proof.
  intros Hok. destruct (proj1 (wp_some _ _ _) (qm_queue_get_spec s L Hok))
    as (r & s' & Hrun & -> & Hrest). eauto.
Qed.

(** C22. In every reachable state of the queue manager at most
    [QM_MAX_QUEUE_DEPTH] messages and [QM_MAX_QUEUE_SIZE_BYTES] bytes are queued,
    the two counters are exact, and every allocated item is either queued or
    owned by a caller but not both: nothing leaks and nothing is freed twice.
    The log buffer holds at most 63 bytes more than [QM_LOG_QUEUE_SIZE]. *)
Theorem qm_reach_safe s O :
  qm_reach s O →
  ∃ L B, lst_rep (queue s) L ∧ NoDup L ∧
    qlength s = Z.of_nat (length L) ∧ (qlength s ≤ QM_MAX_QUEUE_DEPTH)%Z ∧
    qsize s = total (items s) L ∧ (0 ≤ qsize s ≤ QM_MAX_QUEUE_SIZE_BYTES)%Z ∧
    dom (items s) = O ∪ list_to_set L ∧ (∀ p, p ∈ O → p ∉ L) ∧
    log_holds s B ∧ (g_qm_log_buf_size s ≤ QM_LOG_QUEUE_SIZE + 63)%Z.
Proof.
  intros (L & B & Hinv)%qm_reach_inv. pose proof Hinv as [Hok Hlog HB Hsplit Hdisj _].
  pose proof (ok_ranges _ _ Hok) as [_ [Hz _]]. exists L, B.
  split_and!; try done; try apply Hok.
  - eapply lst_rep_nodup, Hok.
  - destruct Hlog as [-> _]. apply HB.
Qed.

(** C23. No operation of the queue manager faults in a reachable state: putting
    an owned item (a log line or not), taking the oldest item, dropping it,
    freeing an owned item and publishing the log all terminate without touching
    freed memory or writing outside a buffer. *)
Theorem qm_reach_no_fault s O p now c ok :
  qm_reach s O → p ∈ O →
  is_Some (qm_queue_put CONFIG_LOG_REMOTE junk now p s) ∧ is_Some (qm_queue_get s) ∧
  is_Some (qm_queue_drop_head s) ∧ is_Some (qm_queue_item_free (Some p) s) ∧
  is_Some (qm_mqtt_timer_handler_log c ok s).
Proof.
  intros (L & B & Hinv)%qm_reach_inv Hp.
  assert (∀ {A} (op : M (qm_state S) A) Q, wp op Q s → is_Some (op s)) as Hsome.
  { intros A op Q Hwp. apply wp_some in Hwp as (a & s' & -> & _). eauto. }
  split_and!; eapply Hsome.
  - by eapply qm_inv_put.
  - by eapply qm_inv_get.
  - by eapply qm_inv_drop.
  - by eapply qm_inv_free.
  - by eapply qm_inv_publish.
Qed.

(** [qm_queue_put] of a log line with remote logging enabled: the message,
    stripped of a final NUL and newline, is appended to the text on a line of its
    own; a message as large as the buffer is replaced by a notice; when the text
    would exceed the buffer all its lines are dropped, counted, and replaced by a
    line with the count.  The item is freed, the queue is untouched. *)
Theorem qm_queue_put_log_correct s L B p i msg now :
  qm_ok s L → log_holds s B → p ∉ L → items s !! p = Some i → is_log i = true → buf i = Some msg →
  data_size (req i) = Z.of_nat (length msg) → (data_size (req i) < 2 ^ 31)%Z →
  CONFIG_LOG_REMOTE = true → qm_log_enabled s = true →
  let next := log_next B (g_qm_log_drop_count s) msg in
  ∃ s', qm_queue_put CONFIG_LOG_REMOTE junk now p s = Some ((true, None), s') ∧
    qm_ok s' L ∧ items s' = delete p (items s) ∧
    log_holds s' next.1 ∧ g_qm_log_drop_count s' = next.2 ∧
    res s' = add_qdrop (log_qdrops msg) (res s).
Proof.
  intros Hok Hlog Hp Hi Hty Hm Hds Hsz Hcfg Hen next.
  destruct (proj1 (wp_some _ _ _) (qm_queue_put_log s L B p i msg now Hok Hlog Hp Hi Hty Hm Hds Hsz))
    as (r & s' & Hrun & -> & Hok' & Hit' & _ & Hl' & Hd' & Hr').
  unfold log_step, log_step_qdrops in *. rewrite Hcfg, Hen in *. by exists s'.
Qed.
End qm_queue.

(** *** Witnesses *)

(** A text message and a log line, each alone in the store of an empty queue. *)
Definition text_item : qm_item := Item (Request 1 3) None 0 (Some (bytes "abc")) 0.
Definition log_item : qm_item := Item (Request 3 3) None 0 (Some (bytes "abc")) 0.
Definition qm_with (i : qm_item) : qm_state ds_dlist :=
  alloc_item 1%positive i (qm_init true (Response 1 0 0)).

Lemma qm_with_reach cfg junk i : valid_item i → qm_reach cfg junk (qm_with i) ({[1%positive]} ∪ ∅).
Proof. intros Hi. apply reach_alloc; [apply reach_init|done|done]. Qed.
Lemma qm_with_ok i : qm_ok (qm_with i) [].
Proof.
  split; try done.
  - apply lst_alloc_law; [apply lst_empty_law|set_solver].
  - intros p j Hp. inversion Hp.
Qed.

Lemma qm_queue_put_correct_witness :
  ∃ s', qm_queue_put true 0 7 1%positive (qm_with text_item) = Some ((true, None), s') ∧
    qm_ok s' [1%positive].
Proof.
  destruct (qm_queue_put_correct true 0 (qm_with text_item) [] 1%positive text_item 7)
    as (s' & k & _ & Hrun & Hok & _).
  - apply qm_with_ok.
  - intros H. inversion H.
  - reflexivity.
  - reflexivity.
  - simpl. lia.
  - exists s'. split; [exact Hrun|]. rewrite drop_nil in Hok. exact Hok.
Defined.

Lemma qm_queue_get_fifo_witness :
  ∃ s', qm_queue_get (qm_with text_item) = Some ((false, None), s') ∧ qm_ok s' [].
Proof.
  destruct (qm_queue_get_fifo (qm_with text_item) []) as (s' & Hrun & Hok & _).
  - apply qm_with_ok.
  - exists s'. split; [exact Hrun|exact Hok].
Defined.

Lemma text_item_valid : valid_item text_item.
Proof. exists (bytes "abc"). split; [done|]. simpl. split; [done|lia]. Qed.

Lemma qm_reach_safe_witness :
  (qlength (qm_with text_item) ≤ QM_MAX_QUEUE_DEPTH)%Z ∧
  ∃ L : list positive, dom (items (qm_with text_item)) = ({[1%positive]} ∪ ∅) ∪ list_to_set L.
Proof.
  destruct (qm_reach_safe true 0 (qm_with text_item) ({[1%positive]} ∪ ∅))
    as (L & B & _ & _ & _ & Hlen & _ & _ & Hdom & _).
  - apply qm_with_reach. apply text_item_valid.
  - split; [exact Hlen|exists L; exact Hdom].
Defined.

Lemma qm_reach_no_fault_witness :
  is_Some (qm_queue_put true 0 7 1%positive (qm_with text_item)).
Proof.
  apply (qm_reach_no_fault true 0 (qm_with text_item) ({[1%positive]} ∪ ∅) 1%positive 7 true true).
  - apply qm_with_reach. apply text_item_valid.
  - set_solver.
Defined.

Lemma qm_queue_put_log_correct_witness :
  ∃ s', qm_queue_put true 0 7 1%positive (qm_with log_item) = Some ((true, None), s') ∧
    log_holds s' (bytes "abc").
Proof.
  destruct (qm_queue_put_log_correct true 0 (qm_with log_item) [] [] 1%positive log_item (bytes "abc") 7)
    as (s' & Hrun & _ & _ & Hlog & _).
  - apply qm_with_ok.
  - split; reflexivity.
  - intros H. inversion H.
  - reflexivity.
  - reflexivity.
  - reflexivity.
  - reflexivity.
  - simpl. lia.
  - reflexivity.
  - reflexivity.
  - exists s'. split; [exact Hrun|exact Hlog].
Defined.
