(* ===== verification/Synclist.v ===== *)
(** Synchronized lists (src/lib/synclist/src/synclist.c): a red-black tree whose
    elements are created, updated and destroyed by a callback of the client, with
    a mark-and-sweep synchronization cycle. *)
From S2P Require Import Prelude DsTree.

Section synclist.
(** [K]: the part of an element the comparison function reads; [W]: whatever
    state the client's callback keeps. *)
Context {K W : Type} (cmp : K → K → Z).

(** [struct synclist] and the memory of the elements: the tree nodes, the fields
    read by the comparison, and [sl_active].  [fn_calls] records the calls of the
    callback. *)
Record synclist := Sync {
  sl_tree : ds_tree K;
  sl_keys : gmap positive K;
  sl_active : gmap positive bool;
  fn_calls : list (ptr * ptr);
  client : W }.

Abbreviation SM := (M synclist).

(** The callback [sl_fn]: client code. *)
Context (sl_fn : ptr → ptr → SM ptr).

Definition with_tree t (s : synclist) := Sync t (sl_keys s) (sl_active s) (fn_calls s) (client s).
Definition with_active f (s : synclist) :=
  Sync (sl_tree s) (sl_keys s) (f (sl_active s)) (fn_calls s) (client s).
Definition with_calls c (s : synclist) := Sync (sl_tree s) (sl_keys s) (sl_active s) c (client s).

Definition on_tree {A} (m : M (ds_tree K) A) : SM A := λ s,
  match m (sl_tree s) with Some (a, t) => Some (a, with_tree t s) | None => None end.
Definition key_at (p : loc) : SM K := λ s,
  match sl_keys s !! p with Some k => Some (k, s) | None => None end.
(** [list->sl_fn(list, pold, pnew)] *)
Definition call_fn (pold pnew : ptr) : SM ptr :=
  modify (λ s, with_calls (fn_calls s ++ [(pold, pnew)]) s);;
  sl_fn pold pnew.
(** [psn->sl_active = b]; writing through NULL is a fault. *)
Definition set_active (p : ptr) (b : bool) : SM unit :=
  p ← deref p;
  old ← gets (λ s, sl_active s !! p);
  deref old;;
  modify (with_active (<[p := b]>)).
Definition rd_active (p : loc) : SM bool :=
  a ← gets (λ s, sl_active s !! p);
  deref a.

(** [__synclist_init] *)
Definition __synclist_init (mem : gmap positive (ds_tree_node K)) keys act w : synclist :=
  Sync (__ds_tree_init mem) keys act [] w.

(** [ds_tree_insert(&list->sl_tree, pcur, pcur)]: the element is its own key. *)
Definition tree_insert (pcur : loc) : SM unit :=
  k ← key_at pcur; on_tree (ds_tree_node_insert cmp pcur k).

(** [synclist_add] *)
Definition synclist_add (pnew : loc) : SM ptr :=
  k ← key_at pnew;
  pold ← on_tree (ds_tree_find cmp k);
  pcur ← call_fn pold (Some pnew);
  match pcur, pold with
  | Some c, None =>
      tree_insert c;;
      set_active pcur true;;
      mret pcur
  | Some c, Some o =>
      pcur ← (if bool_decide (c ≠ o) then
                call_fn pold None;;
                on_tree (ds_tree_node_remove o);;
                pcur ← call_fn None pcur;
                match pcur with
                | Some c => tree_insert c;; mret pcur
                | None => mret pcur
                end
              else mret pcur);
      set_active pcur true;;
      mret pcur
  | None, Some o =>
      on_tree (ds_tree_node_remove o);;
      call_fn pold None;;
      mret None
  | None, None => mret None
  end.

(** [synclist_del] *)
Definition synclist_del (item : loc) : SM unit :=
  k ← key_at item;
  obj ← on_tree (ds_tree_find cmp k);
  match obj with
  | None => mret tt
  | Some o =>
      on_tree (ds_tree_node_remove o);;
      call_fn obj None;;
      mret tt
  end.

(** [synclist_begin]: [ds_tree_foreach] with one round per unit of fuel. *)
Fixpoint synclist_begin_loop (fuel : nat) (pdata : ptr) : SM unit :=
  match pdata with
  | None => mret tt
  | Some p =>
      match fuel with
      | O => fault
      | S fuel =>
          set_active pdata false;;
          next ← on_tree (ds_tree_node_next (Some p));
          synclist_begin_loop fuel next
      end
  end.
Definition synclist_begin : SM unit :=
  fuel ← gets (λ s, size (nodes (sl_tree s)));
  head ← on_tree ds_tree_head;
  synclist_begin_loop fuel head.

(** [synclist_end]: [ds_tree_foreach_iter] with one round per unit of fuel; the
    third argument [false] of the callback is NULL. *)
Fixpoint synclist_end_loop (fuel : nat) (pdata : ptr) (iter : ds_tree_iter) : SM unit :=
  match pdata with
  | None => mret tt
  | Some p =>
      match fuel with
      | O => fault
      | S fuel =>
          active ← rd_active p;
          iter ← (if active : bool then mret iter
                  else
                    '(_, iter) ← on_tree (ds_tree_iremove iter);
                    call_fn pdata None;;
                    mret iter);
          '(next, iter) ← on_tree (ds_tree_inext iter);
          synclist_end_loop fuel next iter
      end
  end.
Definition synclist_end : SM unit :=
  fuel ← gets (λ s, size (nodes (sl_tree s)));
  '(first, iter) ← on_tree ds_tree_ifirst;
  synclist_end_loop fuel first iter.
End synclist.
Arguments Sync {K W}.
Arguments sl_tree {K W}.
Arguments sl_keys {K W}.
Arguments sl_active {K W}.
Arguments fn_calls {K W}.
Arguments client {K W}.
