(* ===== verification/SynclistThms.v ===== *)
(** What synchronized lists promise, for callbacks that keep their contract. *)
From Stdlib Require Import Sorting.Sorted.
From S2P Require Import Prelude DsTree DsTreeRep DsTreeInv DsTreeInsert DsTreeRemove DsTreeWalk.
From S2P Require Import DsTreeThms Synclist.

(** The abstract value of a tree depends on its own nodes only. *)
Lemma holds_ext {K} (s s' : ds_tree K) L :
  holds s L → ot_root s' = ot_root s → (∀ l, l ∈ L.*1 → nodes s' !! l = nodes s !! l) → holds s' L.
Proof.
  intros (t & Hz & Hrb & <-) Hroot Hn. exists t. split_and!; [|done|done].
  destruct Hz as [Hr _ Hz Hnd _ _]. rewrite <- locs_inorder in Hn.
  split; simpl in *; try done; [by eapply rep_frame|congruence].
Qed.

(** Equivalent predicates select and reject the same elements. *)
Lemma filter_iff {A} (P Q : A → Prop) `{∀ x, Decision (P x)} `{∀ x, Decision (Q x)} (L : list A) :
  (∀ a, a ∈ L → P a ↔ Q a) →
  filter P L = filter Q L ∧ filter (λ a, ¬ P a) L = filter (λ a, ¬ Q a) L.
Proof.
  intros Hiff. induction L as [|a L IH]; [done|].
  destruct IH as [IH1 IH2]; [intros; apply Hiff; set_solver|]. specialize (Hiff a ltac:(set_solver)).
  destruct (decide (P a)) as [Hd|Hd].
  - rewrite (filter_cons_True P), (filter_cons_True Q), !filter_cons_False by tauto.
    by rewrite IH1, IH2.
  - rewrite (filter_cons_False P), (filter_cons_False Q), !filter_cons_True by tauto.
    by rewrite IH1, IH2.
Qed.

Section synclist.
Context {K W : Type} (cmp : K → K → Z) `{!KeyOrder cmp}.
Context (sl_fn : ptr → ptr → M (synclist (K := K) (W := W)) ptr).
Implicit Types (s : synclist (K := K) (W := W)) (L : list (positive * K)).

(** The list holds the elements [L]: a sorted tree of live elements whose keys
    are unchanged since they were inserted. *)
Record sl_ok s L : Prop := {
  sl_holds : holds (sl_tree s) L;
  sl_sorted : sorted cmp L;
  sl_live n k : (n, k) ∈ L → sl_keys s !! n = Some k ∧ is_Some (sl_active s !! n) }.

(** What the callback leaves alone: the listed elements. *)
Record fn_frame s s' L : Prop := {
  fr_root : ot_root (sl_tree s') = ot_root (sl_tree s);
  fr_ndel : ot_ndel (sl_tree s') = ot_ndel (sl_tree s);
  fr_nodes l : l ∈ L.*1 → nodes (sl_tree s') !! l = nodes (sl_tree s) !! l;
  fr_keys l : l ∈ L.*1 → sl_keys s' !! l = sl_keys s !! l;
  fr_active l : l ∈ L.*1 → sl_active s' !! l = sl_active s !! l;
  fr_calls : fn_calls s' = fn_calls s }.

Definition allocated s (p : positive) : Prop :=
  is_Some (nodes (sl_tree s) !! p) ∧ is_Some (sl_keys s !! p) ∧ is_Some (sl_active s !! p).

(** The contract of a callback that updates elements in place.  Called with a
    new value it returns NULL or, for an element on the list, that element, or,
    without one, an allocated element that is not on the list.  Called with
    NULL for an element that left the list it may destroy it.  It never touches
    other listed elements. *)
Class SyncCallback : Prop := {
  fn_create s L pnew :
    sl_ok s L →
    wp (sl_fn None (Some pnew)) (λ r s', fn_frame s s' L ∧
      ∀ p, r = Some p → p ∉ L.*1 ∧ allocated s' p) s;
  fn_update s L o pnew :
    sl_ok s L → o ∈ L.*1 →
    wp (sl_fn (Some o) (Some pnew)) (λ r s', fn_frame s s' L ∧ (r = None ∨ r = Some o)) s;
  fn_destroy s L o :
    sl_ok s L → o ∉ L.*1 →
    wp (sl_fn (Some o) None) (λ _ s', fn_frame s s' L) s }.

Context `{!SyncCallback}.

Lemma fn_frame_ok s s' L : sl_ok s L → fn_frame s s' L → sl_ok s' L.
Proof.
  intros [Hh Hs Hl] [Hr Hd Hn Hk Ha _]. split; [by eapply holds_ext|done|].
  intros n k Hin. assert (n ∈ L.*1) by (by apply (list_elem_of_fmap_2 fst _ (n, k))).
  rewrite Hk, Ha by done. by apply Hl.
Qed.

Lemma wp_on_tree {A} (op : M (ds_tree K) A) (Q : A → synclist → Prop) s :
  wp op (λ a t, Q a (with_tree t s)) (sl_tree s) → wp (on_tree op) Q s.
Proof. unfold wp, on_tree. by destruct (op (sl_tree s)) as [[]|]. Qed.
Lemma wp_key_at p k (Q : K → synclist → Prop) s :
  sl_keys s !! p = Some k → Q k s → wp (key_at p) Q s.
Proof. unfold wp, key_at. by intros ->. Qed.
Lemma wp_set_active p b (Q : unit → synclist → Prop) s :
  is_Some (sl_active s !! p) → Q tt (with_active (<[p := b]>) s) → wp (set_active (Some p) b) Q s.
Proof.
  intros [a Ha] HQ. unfold set_active. apply wp_bind, wp_ret, wp_bind, wp_gets, wp_bind.
  rewrite Ha. by apply wp_ret, wp_modify.
Qed.
Lemma wp_rd_active p b (Q : bool → synclist → Prop) s :
  sl_active s !! p = Some b → Q b s → wp (rd_active p) Q s.
Proof. intros Ha HQ. unfold rd_active. apply wp_bind, wp_gets. rewrite Ha. by apply wp_ret. Qed.
Lemma wp_call_fn pold pnew (Q : ptr → synclist → Prop) s :
  wp (sl_fn pold pnew) Q (with_calls (fn_calls s ++ [(pold, pnew)]) s) → wp (call_fn sl_fn pold pnew) Q s.
Proof. intros HQ. unfold call_fn. by apply wp_bind, wp_modify. Qed.

Lemma with_calls_ok s c L : sl_ok s L → sl_ok (with_calls c s) L.
Proof. by intros [? ? ?]. Qed.

(** *** Lookup, insertion and removal on the list *)

Lemma wp_find s L k (Q : ptr → synclist → Prop) :
  sl_ok s L → (∀ p, found cmp k L p → Q p s) → wp (on_tree (ds_tree_find cmp k)) Q s.
Proof.
  intros Hok HQ. apply wp_on_tree.
  eapply wp_mono; [apply (ds_tree_find_holds cmp (sl_tree s) L); apply Hok|].
  intros p t [-> Hf]. destruct s. by apply HQ.
Qed.

Lemma tree_insert_spec s L p k (Q : unit → synclist → Prop) :
  sl_ok s L → p ∉ L.*1 → allocated s p → sl_keys s !! p = Some k →
  (∀ t, sl_ok (with_tree t s) (list_ins cmp p k L) → Q tt (with_tree t s)) →
  wp (tree_insert cmp p) Q s.
Proof.
  intros [Hh Hs Hl] Hp ([old Hn] & _ & Ha) Hk HQ. unfold tree_insert. apply wp_bind.
  eapply wp_key_at; [done|]. apply wp_on_tree.
  eapply wp_mono; [by eapply (ds_tree_node_insert_holds cmp)|].
  intros [] t (Hh' & _ & _). apply HQ. split; simpl.
  - done.
  - by apply list_ins_sorted.
  - intros n k'. rewrite list_ins_perm. intros [[= -> ->]|Hin]%elem_of_cons; [done|by apply Hl].
Qed.

Lemma tree_remove_spec s L o (Q : unit → synclist → Prop) :
  sl_ok s L → o ∈ L.*1 →
  (∀ t, sl_ok (with_tree t s) (list_del o L) → Q tt (with_tree t s)) →
  wp (on_tree (ds_tree_node_remove o)) Q s.
Proof.
  intros [Hh Hs Hl] Ho HQ. apply wp_on_tree.
  eapply wp_mono; [by eapply ds_tree_node_remove_holds|].
  intros [] t (Hh' & _). apply HQ. split; simpl.
  - done.
  - by apply sorted_filter.
  - intros n k [_ Hin]%list_elem_of_filter. by apply Hl.
Qed.

(** *** [synclist_add] *)

(** The list after [synclist_add], by what was found and what the callback
    answered. *)
Definition added s' L (pold r : ptr) L' : Prop :=
  match pold, r with
  | None, Some c => ∃ k, sl_keys s' !! c = Some k ∧ c ∉ L.*1 ∧ L' = list_ins cmp c k L
  | Some o, Some c => c = o ∧ L' = L
  | Some o, None => L' = list_del o L
  | None, None => L' = L
  end.
(** The calls of the callback. *)
Definition add_calls (pnew : positive) (pold r : ptr) : list (ptr * ptr) :=
  match pold, r with
  | Some o, None => [(pold, Some pnew); (pold, None)]
  | _, _ => [(pold, Some pnew)]
  end.

Lemma found_elem k L p : found cmp k L (Some p) → p ∈ L.*1.
Proof. intros (k' & Hin & _). by apply (list_elem_of_fmap_2 fst _ (p, k')). Qed.

Lemma with_active_ok s L p b : sl_ok s L → sl_ok (with_active (<[p := b]>) s) L.
Proof.
  intros [Hh Hs Hl]. split; [done|done|]. intros n k Hin. destruct (Hl n k Hin) as [? ?].
  split; [done|]. simpl. destruct (decide (n = p)) as [->|]; [rewrite lookup_insert_eq; eauto|].
  by rewrite lookup_insert_ne.
Qed.

Lemma synclist_add_spec s L pnew k :
  sl_ok s L → sl_keys s !! pnew = Some k →
  wp (synclist_add cmp sl_fn pnew) (λ r s', ∃ pold L',
    found cmp k L pold ∧ added s' L pold r L' ∧ sl_ok s' L' ∧
    (∀ n, n ∈ L'.*1 → sl_active s' !! n = if decide (r = Some n) then Some true else sl_active s !! n) ∧
    fn_calls s' = fn_calls s ++ add_calls pnew pold r) s.
Proof.
  intros Hok Hk. unfold synclist_add. apply wp_bind. eapply wp_key_at; [done|]. apply wp_bind.
  eapply wp_find; [done|]. intros pold Hf. apply wp_bind, wp_call_fn.
  pose proof (with_calls_ok s (fn_calls s ++ [(pold, Some pnew)]) L Hok) as Hok1.
  destruct pold as [o|].
  - pose proof (found_elem _ _ _ Hf) as Ho. eapply wp_mono; [by apply (fn_update _ L)|].
    intros r s2 [Hfr Hr]. pose proof (fn_frame_ok _ _ _ Hok1 Hfr) as Hok2.
    pose proof (fr_calls _ _ _ Hfr) as Hc2. simpl in Hc2. destruct Hr as [-> | ->].
    + apply wp_bind. eapply tree_remove_spec; [done|done|]. intros t Hok3.
      apply wp_bind, wp_call_fn.
      pose proof (with_calls_ok _ (fn_calls s2 ++ [(Some o, None)]) _ Hok3) as Hok4.
      eapply wp_mono; [apply (fn_destroy _ (list_del o L)); [done|by intros [_ ?]%list_del_elem]|].
      intros r s5 Hfr5. apply wp_ret. exists (Some o), (list_del o L). split_and!; try done.
      * by eapply fn_frame_ok.
      * intros n Hn. rewrite (fr_active _ _ _ Hfr5) by done. simpl.
        apply list_del_elem in Hn as [Hn _]. by rewrite (fr_active _ _ _ Hfr).
      * rewrite (fr_calls _ _ _ Hfr5). simpl. by rewrite Hc2, <- app_assoc.
    + rewrite bool_decide_eq_false_2 by naive_solver. apply wp_bind, wp_ret, wp_bind.
      apply wp_set_active.
      { apply list_elem_of_fmap in Ho as ([n k'] & -> & Hin). by apply (sl_live _ _ Hok2 n k'). }
      apply wp_ret. exists (Some o), L. split_and!; try done; [by apply with_active_ok|].
      intros n Hn. simpl. case_decide as Hd; [injection Hd as ->; by rewrite lookup_insert_eq|].
      rewrite lookup_insert_ne by congruence. by rewrite (fr_active _ _ _ Hfr).
  - eapply wp_mono; [by apply (fn_create _ L)|]. intros r s2 [Hfr Hr].
    pose proof (fn_frame_ok _ _ _ Hok1 Hfr) as Hok2.
    pose proof (fr_calls _ _ _ Hfr) as Hc2. simpl in Hc2. destruct r as [c|].
    + destruct (Hr c eq_refl) as [Hc Hal]. pose proof Hal as (_ & [kc Hkc] & Hac).
      apply wp_bind. eapply tree_insert_spec; [done|done|done|done|]. intros t Hok3.
      apply wp_bind, wp_set_active; [done|]. apply wp_ret. exists None, (list_ins cmp c kc L).
      split_and!; try done; [by exists kc|by apply with_active_ok|].
      intros n Hn. simpl. case_decide as Hd; [injection Hd as ->; by rewrite lookup_insert_eq|].
      rewrite lookup_insert_ne by congruence. rewrite (fr_active _ _ _ Hfr); [done|].
      rewrite list_ins_perm in Hn. set_solver.
    + apply wp_ret. exists None, L. split_and!; try done.
      intros n Hn. simpl. by rewrite (fr_active _ _ _ Hfr).
Qed.

(** *** [synclist_del] *)

Lemma synclist_del_spec s L item k :
  sl_ok s L → sl_keys s !! item = Some k →
  wp (synclist_del cmp sl_fn item) (λ _ s', ∃ obj, found cmp k L obj ∧
    match obj with
    | None => s' = s
    | Some o => sl_ok s' (list_del o L) ∧ fn_calls s' = fn_calls s ++ [(obj, None)] ∧
        ∀ n, n ∈ L.*1 → n ≠ o → sl_active s' !! n = sl_active s !! n
    end) s.
Proof.
  intros Hok Hk. unfold synclist_del. apply wp_bind. eapply wp_key_at; [done|]. apply wp_bind.
  eapply wp_find; [done|]. intros [o|] Hf; [|apply wp_ret; by exists None].
  pose proof (found_elem _ _ _ Hf) as Ho. apply wp_bind. eapply tree_remove_spec; [done|done|].
  intros t Hok2. apply wp_bind, wp_call_fn.
  eapply wp_mono; [apply (fn_destroy _ (list_del o L));
    [by apply with_calls_ok|by intros [_ ?]%list_del_elem]|].
  intros r s' Hfr. apply wp_ret. exists (Some o). split_and!; [done| | |].
  - by eapply fn_frame_ok, Hfr; apply with_calls_ok.
  - by rewrite (fr_calls _ _ _ Hfr).
  - intros n Hn Hne. rewrite (fr_active _ _ _ Hfr); [done|]. by apply list_del_elem.
Qed.

(** *** [synclist_begin] *)

Lemma synclist_begin_loop_spec fuel s L1 L2 :
  sl_ok s (L1 ++ L2) → length L2 ≤ fuel →
  wp (synclist_begin_loop fuel (fst <$> head L2)) (λ _ s',
    sl_ok s' (L1 ++ L2) ∧ sl_tree s' = sl_tree s ∧ fn_calls s' = fn_calls s ∧
    ∀ n, sl_active s' !! n = if decide (n ∈ L2.*1) then Some false else sl_active s !! n) s.
Proof.
  revert s L1 L2. induction fuel as [|fuel IH]; intros s L1 L2 Hok Hlen.
  { destruct L2; [|simpl in Hlen; lia]. simpl. by apply wp_ret. }
  destruct L2 as [|[n k] L2]; [by apply wp_ret|]. cbn [head fmap option_fmap option_map synclist_begin_loop].
  apply wp_bind, wp_set_active.
  { apply (sl_live _ _ Hok n k). set_solver. }
  set (s1 := with_active _ s). assert (sl_ok s1 (L1 ++ (n, k) :: L2)) as Hok1 by (by apply with_active_ok).
  apply wp_bind, wp_on_tree. eapply wp_mono; [eapply ds_tree_node_next_holds, Hok1|].
  intros p t [-> ->]. specialize (IH s1 (L1 ++ [(n, k)]) L2). rewrite <- app_assoc in IH.
  replace (with_tree (sl_tree s1) s1) with s1 by (by destruct s).
  eapply wp_mono; [apply IH; [done|simpl in Hlen; lia]|].
  intros _ s' (Hok' & Ht & Hc & Ha). split_and!; try done. intros a. rewrite Ha. subst s1.
  cbn [sl_active with_active]. rewrite fmap_cons. cbn [fst]. destruct (decide (a = n)) as [->|Hne].
  - rewrite lookup_insert_eq, (decide_True (P := n ∈ n :: _)) by set_solver. by case_decide.
  - rewrite lookup_insert_ne by done. destruct (decide (a ∈ L2.*1)).
    + by rewrite decide_True by set_solver.
    + by rewrite decide_False by set_solver.
Qed.

Lemma holds_length (t : ds_tree K) L : holds t L → length L ≤ size (nodes t).
Proof.
  intros (x & Hz & _ & <-). rewrite length_inorder. by eapply zip_size.
Qed.

Lemma synclist_begin_spec s L :
  sl_ok s L →
  wp synclist_begin (λ _ s', sl_ok s' L ∧ fn_calls s' = fn_calls s ∧
    ∀ n, n ∈ L.*1 → sl_active s' !! n = Some false) s.
Proof.
  intros Hok. unfold synclist_begin. apply wp_bind, wp_gets, wp_bind, wp_on_tree.
  eapply wp_mono; [eapply ds_tree_head_holds, Hok|]. intros p t [-> ->].
  replace (with_tree (sl_tree s) s) with s by (by destruct s).
  eapply wp_mono; [apply (synclist_begin_loop_spec _ s [] L Hok), holds_length, Hok|].
  intros _ s' (Hok' & _ & Hc & Ha). split_and!; try done. intros n Hn.
  by rewrite Ha, decide_True.
Qed.

(** *** [synclist_end] *)

(** The element was added since the last [synclist_begin]. *)
Definition is_active s (a : positive * K) : Prop := sl_active s !! a.1 = Some true.
#[export] Instance is_active_dec s a : Decision (is_active s a).
Proof. unfold is_active. apply _. Defined.

(** The calls that purge the elements [L]. *)
Definition purge_calls L : list (ptr * ptr) := (λ a, (Some a.1, None)) <$> L.

Lemma is_active_ext s s' L :
  (∀ n, n ∈ L.*1 → sl_active s' !! n = sl_active s !! n) →
  filter (is_active s') L = filter (is_active s) L ∧
  filter (λ a, ¬ is_active s' a) L = filter (λ a, ¬ is_active s a) L.
Proof.
  intros Ha. assert (∀ a, a ∈ L → is_active s' a ↔ is_active s a) as Hiff.
  { intros a Hin. unfold is_active. rewrite Ha; [done|]. by apply list_elem_of_fmap_2. }
  by apply filter_iff.
Qed.

Lemma synclist_end_loop_spec fuel s L1 L2 it :
  sl_ok s (L1 ++ L2) → oti_curr it = fst <$> head L2 → iter_rest (sl_tree s) (tail L2) it →
  length L2 ≤ fuel →
  wp (synclist_end_loop sl_fn fuel (fst <$> head L2) it) (λ _ s',
    sl_ok s' (L1 ++ filter (is_active s) L2) ∧
    fn_calls s' = fn_calls s ++ purge_calls (filter (λ a, ¬ is_active s a) L2) ∧
    ∀ n, n ∈ (L1 ++ filter (is_active s) L2).*1 → sl_active s' !! n = sl_active s !! n) s.
Proof.
  revert s L1 L2 it. induction fuel as [|fuel IH]; intros s L1 L2 it Hok Hcur Hit Hlen.
  { destruct L2; [|simpl in Hlen; lia]. apply wp_ret. by rewrite !app_nil_r in *. }
  destruct L2 as [|[n k] L2].
  { apply wp_ret. by rewrite !app_nil_r in *. }
  cbn [head tail fmap option_fmap option_map synclist_end_loop] in *. simpl in Hlen.
  destruct (sl_live _ _ Hok n k) as [_ [b Hb]]; [set_solver|].
  apply wp_bind. eapply wp_rd_active; [done|]. destruct b.
  - (* kept *)
    apply wp_bind, wp_ret, wp_bind, wp_on_tree.
    replace (L1 ++ (n, k) :: L2) with ((L1 ++ [(n, k)]) ++ L2) in Hok by (by rewrite <- app_assoc).
    eapply wp_mono; [eapply (ds_tree_inext_holds _ (L1 ++ [(n, k)])); [apply Hok|done]|].
    intros [p it'] t (-> & -> & Hcur' & Hit').
    replace (with_tree (sl_tree s) s) with s by (by destruct s).
    rewrite filter_cons_True, filter_cons_False by (unfold is_active; naive_solver).
    replace (L1 ++ (n, k) :: filter (is_active s) L2) with
      ((L1 ++ [(n, k)]) ++ filter (is_active s) L2) by (by rewrite <- app_assoc).
    apply IH; [done|done|done|lia].
  - (* purged *)
    rewrite filter_cons_False, filter_cons_True by (unfold is_active; simpl; congruence).
    apply wp_bind, wp_bind, wp_on_tree.
    eapply wp_mono; [by eapply ds_tree_iremove_holds; [apply Hok| |]|].
    intros [p it1] t (-> & Hc1 & Hh1 & Hr1 & _). simpl.
    assert (sl_ok (with_tree t s) (L1 ++ L2)) as Hok1.
    { destruct Hok as [_ Hs Hl]. split; [done| |].
      - apply sorted_app in Hs as (H1 & H2 & H12). apply sorted_app.
        apply StronglySorted_inv in H2 as [H2 _]. split_and!; [done|done|].
        intros a b Ha Hin. apply H12; set_solver.
      - intros a ka Hin. apply Hl. set_solver. }
    assert (n ∉ (L1 ++ L2).*1) as Hn.
    { pose proof (holds_nodup _ _ (sl_holds _ _ Hok)) as Hnd.
      rewrite fmap_app, fmap_cons in Hnd. rewrite fmap_app.
      apply NoDup_app in Hnd as (_ & Hd & [? _]%NoDup_cons). set_solver. }
    apply wp_bind, wp_call_fn.
    eapply wp_mono; [apply (fn_destroy _ (L1 ++ L2)); [by apply with_calls_ok|done]|].
    intros r s2 Hfr. assert (sl_ok s2 (L1 ++ L2)) as Hok2.
    { eapply fn_frame_ok, Hfr. by apply with_calls_ok. }
    apply wp_ret, wp_bind, wp_on_tree.
    assert (iter_rest (sl_tree s2) L2 it1) as Hr2.
    { destruct Hr1 as [? Hd]. split; [done|]. rewrite (fr_ndel _ _ _ Hfr). done. }
    eapply wp_mono; [eapply (ds_tree_inext_holds _ L1); [apply Hok2|done]|].
    intros [p it2] t2 (-> & -> & Hc2 & Hit2).
    replace (with_tree (sl_tree s2) s2) with s2 by (by destruct s2).
    assert (∀ a, a ∈ (L1 ++ L2).*1 → sl_active s2 !! a = sl_active s !! a) as Hact.
    { intros a Ha. by rewrite (fr_active _ _ _ Hfr). }
    destruct (is_active_ext s s2 L2) as [E1 E2].
    { intros a Ha. apply Hact. rewrite fmap_app. set_solver. }
    eapply wp_mono; [apply (IH s2 L1 L2); [done|done|done|lia]|]. rewrite E1, E2.
    intros _ s' (Hok' & Hcalls & Ha'). split_and!; [done| |].
    + rewrite Hcalls, (fr_calls _ _ _ Hfr). simpl. by rewrite <- app_assoc.
    + intros a Ha. rewrite Ha' by done. apply Hact. rewrite !fmap_app in *.
      apply elem_of_app in Ha as [?|(x & -> & [_ ?]%list_elem_of_filter)%list_elem_of_fmap]; [set_solver|].
      apply elem_of_app. right. by apply list_elem_of_fmap_2.
Qed.

Lemma synclist_end_spec s L :
  sl_ok s L →
  wp (synclist_end sl_fn) (λ _ s', sl_ok s' (filter (is_active s) L) ∧
    fn_calls s' = fn_calls s ++ purge_calls (filter (λ a, ¬ is_active s a) L) ∧
    ∀ n, n ∈ (filter (is_active s) L).*1 → sl_active s' !! n = sl_active s !! n) s.
Proof.
  intros Hok. unfold synclist_end. apply wp_bind, wp_gets, wp_bind, wp_on_tree.
  eapply wp_mono; [eapply ds_tree_ifirst_holds, Hok|]. intros [p it] t (-> & -> & Hc & Hr).
  replace (with_tree (sl_tree s) s) with s by (by destruct s).
  apply (synclist_end_loop_spec _ s [] L it Hok Hc Hr), holds_length, Hok.
Qed.

(** *** Properties *)

(** Additions and deletions between [synclist_begin] and [synclist_end]; the set
    are the elements that were returned by an addition. *)
Inductive sl_run : synclist → gset positive → synclist → Prop :=
| run_nil s : sl_run s ∅ s
| run_add s A s1 pnew k r s2 :
    sl_run s A s1 → sl_keys s1 !! pnew = Some k → synclist_add cmp sl_fn pnew s1 = Some (r, s2) →
    sl_run s (match r with Some c => {[c]} ∪ A | None => A end) s2
| run_del s A s1 item k s2 :
    sl_run s A s1 → sl_keys s1 !! item = Some k → synclist_del cmp sl_fn item s1 = Some (tt, s2) →
    sl_run s A s2.

(** Exactly the elements of [A] are marked. *)
Definition marked s L (A : gset positive) : Prop :=
  ∀ n, n ∈ L.*1 → sl_active s !! n = Some (bool_decide (n ∈ A)).

Lemma marked_add s s' L L' A pold r k :
  marked s L A → found cmp k L pold → added s' L pold r L' →
  (∀ n, n ∈ L'.*1 → sl_active s' !! n = if decide (r = Some n) then Some true else sl_active s !! n) →
  marked s' L' (match r with Some c => {[c]} ∪ A | None => A end).
Proof.
  intros Hm Hf Hadd Ha n Hn. rewrite Ha by done. destruct r as [c|].
  - case_decide as Hd; [injection Hd as ->; rewrite bool_decide_true; set_solver|].
    assert (n ∈ L.*1) as HnL.
    { destruct pold as [o|]; simpl in Hadd; [destruct Hadd as [_ ->]; done|].
      destruct Hadd as (kc & _ & _ & ->). rewrite list_ins_perm in Hn. set_solver. }
    rewrite Hm by done. f_equal. apply bool_decide_ext. set_solver.
  - rewrite decide_False by done. apply Hm. destruct pold as [o|]; simpl in Hadd; subst L'; [|done].
    by apply list_del_elem in Hn as [? _].
Qed.

Lemma marked_filter s L A :
  marked s L A →
  filter (is_active s) L = filter (λ a, a.1 ∈ A) L ∧
  filter (λ a, ¬ is_active s a) L = filter (λ a, a.1 ∉ A) L.
Proof.
  intros Hm. assert (∀ a, a ∈ L → is_active s a ↔ a.1 ∈ A) as Hiff.
  { intros a Ha. unfold is_active. rewrite Hm by (by apply list_elem_of_fmap_2).
    destruct (decide (a.1 ∈ A)).
    - by rewrite bool_decide_true.
    - by rewrite bool_decide_false. }
  by apply filter_iff.
Qed.

Lemma sl_run_marked s A s' L :
  sl_run s A s' → sl_ok s L → marked s L ∅ → ∃ L', sl_ok s' L' ∧ marked s' L' A.
Proof.
  induction 1 as [s|s A s1 pnew k r s2 _ IH Hk Hrun|s A s1 item k s2 _ IH Hk Hrun]; intros Hok Hm.
  - eauto.
  - destruct (IH Hok Hm) as (L1 & Hok1 & Hm1). pose proof (synclist_add_spec _ _ _ _ Hok1 Hk) as Hwp.
    unfold wp in Hwp. rewrite Hrun in Hwp. destruct Hwp as (pold & L' & Hf & Hadd & Hok' & Ha & _).
    exists L'. split; [done|]. by eapply marked_add.
  - destruct (IH Hok Hm) as (L1 & Hok1 & Hm1). pose proof (synclist_del_spec _ _ _ _ Hok1 Hk) as Hwp.
    unfold wp in Hwp. rewrite Hrun in Hwp. destruct Hwp as ([o|] & Hf & Hres); [|subst; eauto].
    destruct Hres as (Hok2 & _ & Ha). exists (list_del o L1). split; [done|].
    intros n [Hn Hne]%list_del_elem. rewrite Ha by done. by apply Hm1.
Qed.

(** [synclist_add] terminates and follows its decision table, for every
    callback that keeps its contract: a key that is not on the list is created
    (or discarded) by one callback; an element with that key is updated in place,
    or, if the callback returns NULL, taken off the list and destroyed by a second
    callback.  An element it returns is marked active, all other marks are kept,
    and the list stays a sorted tree of live elements. *)
Theorem synclist_add_correct s L pnew k :
  sl_ok s L → sl_keys s !! pnew = Some k →
  ∃ r s' pold L', synclist_add cmp sl_fn pnew s = Some (r, s') ∧
    found cmp k L pold ∧ added s' L pold r L' ∧ sl_ok s' L' ∧
    (∀ n, n ∈ L'.*1 → sl_active s' !! n = if decide (r = Some n) then Some true else sl_active s !! n) ∧
    fn_calls s' = fn_calls s ++ add_calls pnew pold r.
Proof.
  intros Hok Hk. destruct (proj1 (wp_some _ _ _) (synclist_add_spec s L pnew k Hok Hk))
    as (r & s' & Hrun & pold & L' & Hrest). exists r, s', pold, L'. tauto.
Qed.

(** C24. A synchronization cycle is a mark and sweep: after [synclist_begin], any
    additions and deletions, and [synclist_end], the list holds exactly those of
    its elements that were returned by an addition of this cycle, in order; every
    other element was taken off the list and then destroyed by exactly one
    callback, although the list is modified while it is iterated. *)
Theorem synclist_cycle_mark_sweep s L :
  sl_ok s L →
  ∃ s1, synclist_begin s = Some (tt, s1) ∧ fn_calls s1 = fn_calls s ∧
    ∀ A s2, sl_run s1 A s2 →
    ∃ L2 s3, sl_ok s2 L2 ∧ synclist_end sl_fn s2 = Some (tt, s3) ∧
      sl_ok s3 (filter (λ a, a.1 ∈ A) L2) ∧
      fn_calls s3 = fn_calls s2 ++ purge_calls (filter (λ a, a.1 ∉ A) L2).
Proof.
  intros Hok. destruct (proj1 (wp_some _ _ _) (synclist_begin_spec s L Hok))
    as ([] & s1 & Hb & Hok1 & Hc1 & Ha1). exists s1. split_and!; [done|done|].
  intros A s2 Hrun. destruct (sl_run_marked _ _ _ L Hrun Hok1) as (L2 & Hok2 & Hm2).
  { intros n Hn. rewrite Ha1 by done. by rewrite bool_decide_false by set_solver. }
  destruct (proj1 (wp_some _ _ _) (synclist_end_spec s2 L2 Hok2)) as ([] & s3 & He & Hok3 & Hc3 & _).
  exists L2, s3. destruct (marked_filter s2 L2 A Hm2) as [E1 E2]. by rewrite <- E1, <- E2.
Qed.

(** The replacement branch of [synclist_add] relies on callbacks that do
    not destroy: when the callback answers an update with another element and, as
    it does for [synclist_del] and [synclist_end], frees the old one when it is
    called with NULL, the old node is still in the tree and its removal accesses
    freed memory; when the third callback returns NULL, [sl_active] is written
    through a NULL pointer. *)
Theorem synclist_add_replace_faults s pnew k o c r s1 s2 :
  sl_keys s !! pnew = Some k → ds_tree_find cmp k (sl_tree s) = Some (Some o, sl_tree s) →
  call_fn sl_fn (Some o) (Some pnew) s = Some (Some c, s1) → c ≠ o →
  call_fn sl_fn (Some o) None s1 = Some (r, s2) →
  (nodes (sl_tree s2) !! o = None → synclist_add cmp sl_fn pnew s = None) ∧
  (∀ t s3, ds_tree_node_remove o (sl_tree s2) = Some (tt, t) →
    call_fn sl_fn None (Some c) (with_tree t s2) = Some (None, s3) →
    synclist_add cmp sl_fn pnew s = None).
Proof.
  intros Hk Hfind H1 Hco H2.
  assert (on_tree (ds_tree_find cmp k) s = Some (Some o, s)) as Hf.
  { unfold on_tree. rewrite Hfind. by destruct s. }
  unfold synclist_add, mbind, M_bind. unfold key_at at 1 2. rewrite Hk, Hf, H1.
  rewrite bool_decide_true by done. rewrite H2. split.
  - intros Hn. unfold on_tree at 1, ds_tree_node_remove, gets, rd_child, load, mbind, M_bind.
    by rewrite Hn.
  - intros t s3 Hrm H3. unfold on_tree at 1. rewrite Hrm, H3. done.
Qed.
End synclist.

(** *** Witnesses *)

(** A client that copies a new element to fresh memory, updates in place and
    frees what leaves the list. *)
Section demo.
Context {K : Type} (blank : K).

Definition demo_alloc (k : K) (c : positive) (s : synclist (K := K) (W := unit)) : synclist :=
  Sync (Tree (ot_root (sl_tree s)) (ot_ndel (sl_tree s))
          (<[c := Node blank BLACK None None None]> (nodes (sl_tree s))))
    (<[c := k]> (sl_keys s)) (<[c := false]> (sl_active s)) (fn_calls s) tt.
Definition demo_free (o : positive) (s : synclist (K := K) (W := unit)) : synclist :=
  Sync (Tree (ot_root (sl_tree s)) (ot_ndel (sl_tree s)) (delete o (nodes (sl_tree s))))
    (delete o (sl_keys s)) (delete o (sl_active s)) (fn_calls s) tt.
Definition demo_fn (pold pnew : ptr) : M (synclist (K := K) (W := unit)) ptr :=
  match pold, pnew with
  | None, Some p => λ s,
      match sl_keys s !! p with
      | Some k => let c := fresh (dom (nodes (sl_tree s))) in Some (Some c, demo_alloc k c s)
      | None => Some (None, s)
      end
  | Some o, Some _ => mret (Some o)
  | Some o, None => λ s, Some (None, demo_free o s)
  | None, None => mret None
  end.

Lemma fn_frame_refl (s : synclist (K := K) (W := unit)) L : fn_frame s s L.
Proof. by split. Qed.

#[export] Instance demo_callback cmp : SyncCallback cmp demo_fn.
Proof.
  split.
  - intros s L pnew Hok. unfold wp, demo_fn. destruct (sl_keys s !! pnew) as [k|].
    2: { split; [apply fn_frame_refl|done]. }
    set (c := fresh _). assert (c ∉ L.*1) as Hc.
    { intros Hin. apply (is_fresh (dom (nodes (sl_tree s)))). apply elem_of_dom.
      eapply holds_dom; [apply Hok|done]. }
    split.
    + split; simpl; try done; intros l Hl; rewrite lookup_insert_ne by set_solver; done.
    + intros p [= <-]. split; [done|]. unfold allocated. simpl. rewrite !lookup_insert_eq. eauto.
  - intros s L o pnew Hok Ho. apply wp_ret. split; [apply fn_frame_refl|by right].
  - intros s L o Hok Ho. unfold wp, demo_fn. split; simpl; try done;
      intros l Hl; rewrite lookup_delete_ne by set_solver; done.
Qed.
End demo.

(** A list with the one element 1, key foo; 2 is an element of the caller. *)
Definition foo_list : synclist (K := string) (W := unit) :=
  Sync (Tree (Some 1%positive) 0 (<[1%positive := Node "foo" BLACK None None None]> ∅))
    (<[1%positive := "foo"]> {[2%positive := "foo"]}) {[1%positive := true]} [] tt.

Lemma foo_list_ok : sl_ok ds_str_cmp foo_list [(1%positive, "foo")].
Proof.
  split.
  - apply singleton_holds.
  - repeat constructor.
  - intros n k Hin. apply list_elem_of_singleton in Hin as [= -> ->]. split; [done|by eexists].
Qed.

Lemma synclist_add_correct_witness :
  ∃ r s' pold L', synclist_add ds_str_cmp (demo_fn "") 2%positive foo_list = Some (r, s') ∧
    found ds_str_cmp "foo" [(1%positive, "foo")] pold ∧
    added ds_str_cmp s' [(1%positive, "foo")] pold r L' ∧ sl_ok ds_str_cmp s' L'.
Proof.
  destruct (synclist_add_correct ds_str_cmp (demo_fn "") foo_list [(1%positive, "foo")] 2%positive "foo")
    as (r & s' & pold & L' & Hrun & Hf & Hadd & Hok & _).
  - exact foo_list_ok.
  - reflexivity.
  - exists r, s', pold, L'. split; [exact Hrun|]. split; [exact Hf|]. split; [exact Hadd|exact Hok].
Defined.

Lemma synclist_cycle_mark_sweep_witness :
  ∃ (A : gset positive) s1 L2 s3, A = ∅ ∧ synclist_begin foo_list = Some (tt, s1) ∧ sl_ok ds_str_cmp s1 L2 ∧
    synclist_end (demo_fn "") s1 = Some (tt, s3) ∧
    sl_ok ds_str_cmp s3 (filter (λ a, a.1 ∈ A) L2).
Proof.
  destruct (synclist_cycle_mark_sweep ds_str_cmp (demo_fn "") foo_list [(1%positive, "foo")])
    as (s1 & Hb & _ & Hrest).
  - exact foo_list_ok.
  - destruct (Hrest ∅ s1) as (L2 & s3 & H1 & H2 & H3 & _).
    + constructor.
    + exists ∅, s1, L2, s3. split; [reflexivity|]. split; [exact Hb|]. split; [exact H1|]. split; [exact H2|exact H3].
Defined.

(** A client that replaces elements and frees the old ones. *)
Definition replace_fn (pold pnew : ptr) : M (synclist (K := string) (W := unit)) ptr :=
  match pold, pnew with
  | Some o, Some p => λ s, let c := fresh (dom (nodes (sl_tree s))) in Some (Some c, demo_alloc "" "foo" c s)
  | _, _ => demo_fn "" pold pnew
  end.

Lemma synclist_add_replace_faults_witness :
  synclist_add ds_str_cmp replace_fn 2%positive foo_list = None.
Proof.
  destruct (call_fn replace_fn (Some 1%positive) (Some 2%positive) foo_list) as [[c s1]|] eqn:H1;
    [|vm_compute in H1; discriminate H1].
  destruct c as [c|]; [|vm_compute in H1; discriminate H1].
  destruct (call_fn replace_fn (Some 1%positive) None s1) as [[r s2]|] eqn:H2;
    [|vm_compute in H2; discriminate H2].
  apply (synclist_add_replace_faults ds_str_cmp replace_fn foo_list 2%positive "foo" 1%positive c r s1 s2).
  - reflexivity.
  - vm_compute. reflexivity.
  - exact H1.
  - vm_compute in H1. injection H1 as <- _. discriminate.
  - exact H2.
  - vm_compute in H1. injection H1 as _ <-. vm_compute in H2. injection H2 as _ <-. vm_compute. reflexivity.
Defined.
