(* ===== verification/PolicyTags.v ===== *)
(** Policy tags (src/lib/policy_tags): lists of tagged values, tags, groups of
    tags, and the templates that refer to them.

    The red-black trees of this library map strings to entries.  They appear here
    as the sequences of entries they hold in order, which is what the theorems on
    [DsTree] establish: insertion puts a new entry before the first one that is
    not smaller, [ds_tree_foreach] visits the entries in order, and lookup returns
    an entry with that key if there is one, given here by its position.  Which of
    several entries with the same key a lookup returns depends on the shape of the
    tree, so lookup is a parameter with that law.  Allocations do not fail: the
    allocator of the program asserts success. *)
From Stdlib Require Import Ascii.
From S2P Require Import Prelude DsTree.

(** *** Trees with string keys *)

Class TreeFind : Type := tree_find : ∀ {A : Type}, string → list (string * A) → option nat.

(** What [ds_tree_find] guarantees. *)
Class TreeFindLaws `{TreeFind} : Prop := {
  tree_find_some {A} k (l : list (string * A)) i : tree_find k l = Some i → ∃ a, l !! i = Some (k, a);
  tree_find_none {A} k (l : list (string * A)) : tree_find k l = None → k ∉ l.*1 }.

(** [ds_tree_insert] *)
Fixpoint tr_insert {A} (k : string) (a : A) (l : list (string * A)) : list (string * A) :=
  match l with
  | [] => [(k, a)]
  | (k', b) :: l' =>
      if (ds_str_cmp k' k <? 0)%Z then (k', b) :: tr_insert k a l' else (k, a) :: l
  end.

(** [ds_tree_remove] of the entry at a position. *)
Definition tr_remove {A} (i : nat) (l : list (string * A)) : list (string * A) :=
  take i l ++ drop (S i) l.

(** *** Tag lists (policy_tag_list.c) *)

Definition OM_TLE_FLAG_DEVICE : Z := 1.
Definition OM_TLE_FLAG_LOCAL : Z := 2.
Definition OM_TLE_FLAG_CLOUD : Z := 4.
Definition OM_TLE_FLAG_GROUP : Z := 8.
Definition OM_TLE_FLAG_NONE : Z := 16.

(** A tree of [om_tag_list_entry_t]: value and flags. *)
Abbreviation tag_list := (list (string * Z)).

(** [om_tag_list_diff_t] *)
Record om_tag_list_diff_t := Diff { removed : tag_list; added : tag_list; updated : tag_list }.

(** [flags && !(tle->flags & flags)] *)
Definition flags_skip (flags tle_flags : Z) : bool :=
  negb (flags =? 0)%Z && (Z.land tle_flags flags =? 0)%Z.

(** [om_tag_list_entry_add] *)
Definition om_tag_list_entry_add (list : tag_list) (value : string) (flags : Z) : tag_list :=
  tr_insert value flags list.

Section policy_tags.
Context `{TreeFind}.

(** [om_tag_list_entry_find_by_value] *)
Definition om_tag_list_entry_find_by_value (list : tag_list) (value : string) : option nat :=
  tree_find value list.

(** [om_tag_list_entry_find_by_val_flags] *)
Definition om_tag_list_entry_find_by_val_flags (list : tag_list) (value : string) (flags : Z) :
    option (string * Z) :=
  snd <$> list_find (λ e, flags_skip flags e.2 = false ∧ e.1 = value) list.

(** Whether a lookup in a possibly missing list finds the value. *)
Definition in_list (list : option tag_list) (value : string) : bool :=
  match list with
  | None => false
  | Some l => bool_decide (om_tag_list_entry_find_by_value l value ≠ None)
  end.

(** [om_tag_list_diff] *)
Definition diff_add (test : string * Z → bool) (acc : tag_list) (e : string * Z) : tag_list :=
  if test e then om_tag_list_entry_add acc e.1 e.2 else acc.
Definition diff_update (new : tag_list) (acc : tag_list) (e : string * Z) : tag_list :=
  match om_tag_list_entry_find_by_value new e.1 with
  | None => acc
  | Some i =>
      match new !! i with
      | None => acc
      | Some ntle => if (e.2 =? ntle.2)%Z then acc else om_tag_list_entry_add acc ntle.1 ntle.2
      end
  end.
Definition om_tag_list_diff (old_list new_list : option tag_list) : om_tag_list_diff_t :=
  Diff
    match old_list with
    | None => []
    | Some old => foldl (diff_add (λ e, negb (in_list new_list e.1))) [] old
    end
    match new_list with
    | None => []
    | Some new => foldl (diff_add (λ e, negb (in_list old_list e.1))) [] new
    end
    match old_list, new_list with
    | Some old, Some new => foldl (diff_update new) [] old
    | _, _ => []
    end.

(** [om_tag_list_apply_diff] *)
Definition apply_remove (list : tag_list) (d : string * Z) : tag_list :=
  match om_tag_list_entry_find_by_value list d.1 with
  | Some i => tr_remove i list
  | None => list
  end.
Definition apply_add (list : tag_list) (d : string * Z) : tag_list :=
  match om_tag_list_entry_find_by_value list d.1 with
  | Some _ => list
  | None => om_tag_list_entry_add list d.1 d.2
  end.
Definition apply_update (list : tag_list) (d : string * Z) : tag_list :=
  match om_tag_list_entry_find_by_value list d.1 with
  | Some i => alter (λ e, (e.1, d.2)) i list
  | None => list
  end.
Definition om_tag_list_apply_diff (list : tag_list) (diff : om_tag_list_diff_t) : tag_list :=
  let list := foldl apply_remove list (removed diff) in
  let list := foldl apply_add list (added diff) in
  foldl apply_update list (updated diff).

(** [om_tag_list_append_list] *)
Definition append_entry (filter_flags : Z) (dest : tag_list) (tle : string * Z) : tag_list :=
  if flags_skip filter_flags tle.2 then dest
  else
    match om_tag_list_entry_find_by_value dest tle.1 with
    | Some i => alter (λ e, (e.1, Z.lor e.2 tle.2)) i dest
    | None => om_tag_list_entry_add dest tle.1 tle.2
    end.
Definition om_tag_list_append_list (dest src : tag_list) (filter_flags : Z) : tag_list :=
  foldl (append_entry filter_flags) dest src.

(** *** Tags (policy_tags.c) *)

(** [om_tag_t], [om_tag_group_t] *)
Record om_tag_t := Tag { tname : string; tgroup : bool; values : tag_list }.
Record om_tag_group_t := Group { gname : string; tags : tag_list }.

(** The rows of the tables Openflow_Tag, Openflow_Local_Tag and
    Openflow_Tag_Group. *)
Record schema_Openflow_Tag := STag {
  stag_name : string; device_value : list string; cloud_value : list string }.
Record schema_Openflow_Local_Tag := SLocal { local_name : string; local_values : list string }.
Record schema_Openflow_Tag_Group := SGroup { sgroup_name : string; stags : list string }.

(** A call of [service_tag_update]. *)
Record tag_event := Event {
  ev_name : string; ev_group : bool;
  ev_removed : option tag_list; ev_added : option tag_list; ev_updated : option tag_list }.

(** The two global trees, whether a manager is registered, and the calls made to
    it. *)
Record pt_state := Pt {
  om_tags : list (string * om_tag_t);
  om_tag_groups : list (string * om_tag_group_t);
  has_mgr : bool;
  events : list tag_event }.

Abbreviation PM := (M pt_state).

Definition with_tags f (s : pt_state) := Pt (f (om_tags s)) (om_tag_groups s) (has_mgr s) (events s).
Definition with_groups f (s : pt_state) := Pt (om_tags s) (f (om_tag_groups s)) (has_mgr s) (events s).

(** [if (my_mgr->service_tag_update != NULL) my_mgr->service_tag_update(...)] *)
Definition service_tag_update (e : tag_event) : PM unit :=
  modify (λ s, if has_mgr s then Pt (om_tags s) (om_tag_groups s) true (events s ++ [e]) else s).

(** [om_tag_find_by_name]: the position of the tag in the global tree. *)
Definition find_tag (name : string) (group : bool) (tags : list (string * om_tag_t)) : option nat :=
  fst <$> list_find (λ t, tname t.2 = name ∧ tgroup t.2 = group) tags.
Definition om_tag_find_by_name (name : string) (group : bool) : PM (option nat) :=
  gets (λ s, find_tag name group (om_tags s)).
(** [*tag] *)
Definition tag_at (i : nat) : PM om_tag_t :=
  t ← gets (λ s, om_tags s !! i); t ← deref t; mret t.2.

(** [om_tag_alloc] *)
Definition om_tag_alloc (name : string) (group : bool) : om_tag_t := Tag name group [].

(** *** Groups (policy_tag_groups.c) *)

(** [om_tag_group_create_list_from_schema] *)
Definition group_entry (name : string) : string * Z :=
  match name with
  | String "@"%char n => (n, OM_TLE_FLAG_DEVICE)
  | String "#"%char n => (n, OM_TLE_FLAG_CLOUD)
  | String "*"%char n => (n, OM_TLE_FLAG_LOCAL)
  | _ => (name, 0%Z)
  end.
Definition om_tag_group_create_list_from_schema (sgroup : schema_Openflow_Tag_Group) : tag_list :=
  foldl (λ l n, om_tag_list_entry_add l (group_entry n).1 (group_entry n).2) [] (stags sgroup).

(** [om_tag_group_append_members] *)
Definition append_member (all : list (string * om_tag_t)) (dest : tag_list) (tle : string * Z) : tag_list :=
  match find_tag tle.1 false all with
  | None => dest
  | Some i =>
      match all !! i with
      | Some t => om_tag_list_append_list dest (values t.2) tle.2
      | None => dest
      end
  end.
Definition om_tag_group_append_members (group : om_tag_group_t) (dest : tag_list) : PM tag_list :=
  all ← gets om_tags;
  mret (foldl (append_member all) dest (tags group)).

(** [om_tag_group_update], with [om_tag_update] as an argument. *)
Definition group_update (update : nat → tag_list → PM bool) (group : om_tag_group_t) : PM bool :=
  gtag ← om_tag_find_by_name (gname group) true;
  match gtag with
  | None => mret true
  | Some gtag =>
      new_values ← om_tag_group_append_members group [];
      update gtag new_values;;
      mret true
  end.

(** [om_tag_group_update_by_tag]: [ds_tree_foreach] over the groups. *)
Fixpoint update_groups (update : nat → tag_list → PM bool) (tag_name : string)
    (groups : list (string * om_tag_group_t)) : PM unit :=
  match groups with
  | [] => mret tt
  | (_, g) :: groups =>
      (match om_tag_list_entry_find_by_value (tags g) tag_name with
       | Some _ => group_update update g;; mret tt
       | None => mret tt
       end);;
      update_groups update tag_name groups
  end.
Definition group_update_by_tag (update : nat → tag_list → PM bool) (tag_name : string) : PM bool :=
  groups ← gets om_tag_groups;
  update_groups update tag_name groups;;
  mret true.

(** [om_tag_update] of the tag at a position.  It calls itself only through
    [om_tag_group_update_by_tag] for a tag that is not a group tag, and then for
    group tags: a fuel of 1 is enough. *)
Fixpoint tag_update (fuel : nat) (i : nat) (new_values : tag_list) : PM bool :=
  tag ← tag_at i;
  let diff := om_tag_list_diff (Some (values tag)) (Some new_values) in
  service_tag_update (Event (tname tag) (tgroup tag)
    (Some (removed diff)) (Some (added diff)) (Some (updated diff)));;
  modify (with_tags (alter (λ t, (t.1, Tag (tname t.2) (tgroup t.2)
    (om_tag_list_apply_diff (values t.2) diff))) i));;
  (if tgroup tag then mret tt
   else match fuel with
        | O => fault
        | S fuel => group_update_by_tag (tag_update fuel) (tname tag);; mret tt
        end);;
  mret true.
Definition om_tag_update (i : nat) (new_values : tag_list) : PM bool := tag_update 1 i new_values.
Definition om_tag_group_update (group : om_tag_group_t) : PM bool := group_update om_tag_update group.
Definition om_tag_group_update_by_tag (tag_name : string) : PM bool :=
  group_update_by_tag om_tag_update tag_name.

(** [om_tag_add] *)
Definition om_tag_add (tag : om_tag_t) : PM bool :=
  dup ← om_tag_find_by_name (tname tag) (tgroup tag);
  match dup with
  | Some _ => mret false
  | None =>
      modify (with_tags (tr_insert (tname tag) tag));;
      service_tag_update (Event (tname tag) (tgroup tag) None (Some (values tag)) None);;
      (if tgroup tag then mret tt else om_tag_group_update_by_tag (tname tag);; mret tt);;
      mret true
  end.

(** [om_tag_remove] *)
Definition om_tag_remove (i : nat) : PM bool :=
  tag ← tag_at i;
  modify (with_tags (tr_remove i));;
  service_tag_update (Event (tname tag) (tgroup tag) (Some (values tag)) None None);;
  (if tgroup tag then mret tt else om_tag_group_update_by_tag (tname tag);; mret tt);;
  mret true.

(** [om_tag_add_list_from_schema], [om_local_tag_add_list_from_schema] *)
Definition add_cloud (list : tag_list) (v : string) : tag_list :=
  match om_tag_list_entry_find_by_value list v with
  | Some i => alter (λ e, (e.1, Z.lor e.2 OM_TLE_FLAG_CLOUD)) i list
  | None => om_tag_list_entry_add list v OM_TLE_FLAG_CLOUD
  end.
Definition om_tag_add_list_from_schema (list : tag_list) (stag : schema_Openflow_Tag) : tag_list :=
  foldl add_cloud
    (foldl (λ l v, om_tag_list_entry_add l v OM_TLE_FLAG_DEVICE) list (device_value stag))
    (cloud_value stag).
Definition om_local_tag_add_list_from_schema (list : tag_list) (stag : schema_Openflow_Local_Tag) :
    tag_list :=
  foldl (λ l v, om_tag_list_entry_add l v OM_TLE_FLAG_LOCAL) list (local_values stag).

(** [om_tag_alloc_from_schema], [om_local_tag_alloc_from_schema] *)
Definition om_tag_alloc_from_schema (stag : schema_Openflow_Tag) : om_tag_t :=
  let tag := om_tag_alloc (stag_name stag) false in
  Tag (tname tag) (tgroup tag) (om_tag_add_list_from_schema (values tag) stag).
Definition om_local_tag_alloc_from_schema (stag : schema_Openflow_Local_Tag) : om_tag_t :=
  let tag := om_tag_alloc (local_name stag) false in
  Tag (tname tag) (tgroup tag) (om_local_tag_add_list_from_schema (values tag) stag).

(** The handlers of row changes *)
Definition om_tag_add_from_schema (stag : schema_Openflow_Tag) : PM bool :=
  om_tag_add (om_tag_alloc_from_schema stag).
Definition om_tag_remove_from_schema (stag : schema_Openflow_Tag) : PM bool :=
  tag ← om_tag_find_by_name (stag_name stag) false;
  match tag with None => mret false | Some i => om_tag_remove i end.
Definition om_tag_update_from_schema (stag : schema_Openflow_Tag) : PM bool :=
  tag ← om_tag_find_by_name (stag_name stag) false;
  match tag with
  | None => mret false
  | Some i => om_tag_update i (om_tag_add_list_from_schema [] stag)
  end.
Definition om_local_tag_add_from_schema (stag : schema_Openflow_Local_Tag) : PM bool :=
  om_tag_add (om_local_tag_alloc_from_schema stag).
Definition om_local_tag_remove_from_schema (stag : schema_Openflow_Local_Tag) : PM bool :=
  tag ← om_tag_find_by_name (local_name stag) false;
  match tag with None => mret false | Some i => om_tag_remove i end.
Definition om_local_tag_update_from_schema (stag : schema_Openflow_Local_Tag) : PM bool :=
  tag ← om_tag_find_by_name (local_name stag) false;
  match tag with
  | None => mret false
  | Some i => om_tag_update i (om_local_tag_add_list_from_schema [] stag)
  end.

(** [om_tag_group_find_by_name] *)
Definition om_tag_group_find_by_name (name : string) : PM (option nat) :=
  gets (λ s, tree_find name (om_tag_groups s)).
Definition group_at (i : nat) : PM om_tag_group_t :=
  g ← gets (λ s, om_tag_groups s !! i); g ← deref g; mret g.2.

(** [om_tag_group_add_from_schema] *)
Definition om_tag_group_add_from_schema (sgroup : schema_Openflow_Tag_Group) : PM bool :=
  dup ← om_tag_group_find_by_name (sgroup_name sgroup);
  match dup with
  | Some _ => mret false
  | None =>
      let group := Group (sgroup_name sgroup) (om_tag_group_create_list_from_schema sgroup) in
      modify (with_groups (tr_insert (gname group) group));;
      let gtag := om_tag_alloc (gname group) true in
      vals ← om_tag_group_append_members group (values gtag);
      om_tag_add (Tag (tname gtag) (tgroup gtag) vals)
  end.

(** [om_tag_group_remove_from_schema] *)
Definition om_tag_group_remove_from_schema (sgroup : schema_Openflow_Tag_Group) : PM bool :=
  gi ← om_tag_group_find_by_name (sgroup_name sgroup);
  match gi with
  | None => mret false
  | Some gi =>
      group ← group_at gi;
      modify (with_groups (tr_remove gi));;
      gtag ← om_tag_find_by_name (gname group) true;
      match gtag with
      | Some i => om_tag_remove i;; mret true
      | None => mret true
      end
  end.

(** [om_tag_group_update_from_schema] *)
Definition om_tag_group_update_from_schema (sgroup : schema_Openflow_Tag_Group) : PM bool :=
  gi ← om_tag_group_find_by_name (sgroup_name sgroup);
  match gi with
  | None => mret false
  | Some gi =>
      group ← group_at gi;
      let new_values := om_tag_group_create_list_from_schema sgroup in
      let diff := om_tag_list_diff (Some (tags group)) (Some new_values) in
      modify (with_groups (alter (λ g, (g.1, Group (gname g.2)
        (om_tag_list_apply_diff (tags g.2) diff))) gi));;
      group ← group_at gi;
      om_tag_group_update group
  end.

(** *** Templates (policy_tag_utils.c) *)

Definition tle_flag_map : list (string * Z) :=
  [("device", OM_TLE_FLAG_DEVICE); ("cloud", OM_TLE_FLAG_CLOUD);
   ("local", OM_TLE_FLAG_LOCAL); ("group", OM_TLE_FLAG_GROUP)].
(** [om_tag_get_tle_flag] *)
Definition om_tag_get_tle_flag (flag_enum : Z) : option string :=
  (λ e, e.2.1) <$> list_find (λ m, flag_enum = m.2) tle_flag_map.

Inductive tag_type := NOT_A_OPENSYNC_TAG | OPENSYNC_TAG | OPENSYNC_GROUP_TAG.
#[export] Instance tag_type_eq_dec : EqDecision tag_type.
Proof. solve_decision. Defined.

(** [name[i]]; the terminator and what follows it is [None]. *)
Definition char_at (i : nat) (name : string) (c : Ascii.ascii) : bool :=
  bool_decide (String.get i name = Some c).

(** [om_tag_get_type]; NULL and a name that is no tag both give -1. *)
Definition om_tag_get_type (name : option string) : tag_type :=
  match name with
  | None => NOT_A_OPENSYNC_TAG
  | Some name =>
      if negb (char_at 0 name "$"%char) then NOT_A_OPENSYNC_TAG
      else if String.length name <? 3 then NOT_A_OPENSYNC_TAG
      else
        let last := String.length name - 1 in
        if char_at 1 name "{"%char && char_at last name "}"%char then OPENSYNC_TAG
        else if char_at 1 name "["%char && char_at last name "]"%char then OPENSYNC_GROUP_TAG
        else NOT_A_OPENSYNC_TAG
  end.

(** [om_get_type_of_tag]; -1 for NULL. *)
Definition om_get_type_of_tag (name : option string) : Z :=
  match name with
  | None => -1
  | Some n =>
      match om_tag_get_type name with
      | NOT_A_OPENSYNC_TAG => OM_TLE_FLAG_NONE
      | _ =>
          if char_at 2 n "@"%char then OM_TLE_FLAG_DEVICE
          else if char_at 2 n "#"%char then OM_TLE_FLAG_CLOUD
          else if char_at 2 n "*"%char then OM_TLE_FLAG_LOCAL
          else OM_TLE_FLAG_NONE
      end
  end.

(** [name + n] *)
Definition skip (n : nat) (s : string) : string := String.substring n (String.length s - n) s.

(** [STRSCPY_LEN(name, s, -1)] into a buffer of 256 bytes. *)
Definition copy_name (s : string) : string :=
  let l := String.length s `min` 257 in
  if l =? 0 then "" else String.substring 0 ((l - 1) `min` 255) s.

(** The name part of a template and the source it asks for. *)
Definition split_template (tag_name : string) : string * Z :=
  let tag_s := skip 2 tag_name in
  match tag_s with
  | String "@"%char r => (copy_name r, OM_TLE_FLAG_DEVICE)
  | String "#"%char r => (copy_name r, OM_TLE_FLAG_CLOUD)
  | String "*"%char r => (copy_name r, OM_TLE_FLAG_LOCAL)
  | _ => (copy_name tag_s, 0%Z)
  end.

(** [om_tag_find] *)
Definition om_tag_find (tag_name : option string) : PM (option nat) :=
  match tag_name with
  | None => mret None
  | Some n =>
      match om_tag_get_type tag_name with
      | NOT_A_OPENSYNC_TAG => mret None
      | ty => om_tag_find_by_name (split_template n).1 (bool_decide (ty = OPENSYNC_GROUP_TAG))
      end
  end.

(** [om_tag_in] *)
Definition om_tag_in (value tag_name : option string) : PM bool :=
  match tag_name, value with
  | Some n, Some v =>
      match om_tag_get_type tag_name with
      | NOT_A_OPENSYNC_TAG => mret false
      | ty =>
          let '(name, match_flags) := split_template n in
          tag ← om_tag_find_by_name name (bool_decide (ty = OPENSYNC_GROUP_TAG));
          match tag with
          | None => mret false
          | Some i =>
              tag ← tag_at i;
              match om_tag_list_entry_find_by_value (values tag) v with
              | None => mret false
              | Some j =>
                  e ← deref (values tag !! j);
                  if negb (match_flags =? 0)%Z && (Z.land e.2 match_flags =? 0)%Z
                  then mret false else mret true
              end
          end
      end
  | _, _ => mret false
  end.
End policy_tags.
