(* ===== verification/PolicyTagsRep.v ===== *)
(** Tag lists as finite maps, and the lemmas on differences of tag lists, on group tags that
    follow their members and on templates. *)
From Stdlib Require Import Sorting.Sorted.
From S2P Require Import Prelude DsTree DsTreeInv PolicyTags.

Section sorted_map.
Context {A : Type}.
Implicit Types l : list (string * A).

(** Sorted by key, without duplicates. *)
Definition key_lt (a b : string * A) : Prop := (ds_str_cmp a.1 b.1 < 0)%Z.
Definition wf l : Prop := StronglySorted key_lt l.

Lemma ds_str_cmp_eq a b : ds_str_cmp a b = 0%Z ↔ a = b.
Proof.
  split; [|intros ->; apply (cmp_refl ds_str_cmp)].
  revert b. induction a as [|c a IH]; intros [|d b]; simpl; try done.
  case_bool_decide as Hc; [intros H; subst; f_equal; auto|]. intros H. destruct Hc.
  rewrite <- (Ascii.ascii_nat_embedding c), <- (Ascii.ascii_nat_embedding d). f_equal. lia.
Qed.
Lemma key_lt_trans a b c : key_lt a b → key_lt b c → key_lt a c.
Proof. unfold key_lt. intros ? ?. eapply (cmp_le_lt ds_str_cmp); [|done]. lia. Qed.
Lemma key_lt_irrefl a : ¬ key_lt a a.
Proof. unfold key_lt. rewrite (cmp_refl ds_str_cmp). lia. Qed.
Lemma key_total a b : ¬ (ds_str_cmp a b < 0)%Z → a ≠ b → (ds_str_cmp b a < 0)%Z.
Proof.
  intros Hn Hne. pose proof (cmp_anti ds_str_cmp b a). assert (ds_str_cmp a b ≠ 0%Z) by (by rewrite ds_str_cmp_eq).
  lia.
Qed.

Lemma wf_nil : wf [].
Proof. constructor. Qed.
Lemma wf_cons a l : wf (a :: l) ↔ wf l ∧ ∀ b, b ∈ l → key_lt a b.
Proof.
  unfold wf. split.
  - intros [H1 H2]%StronglySorted_inv. split; [done|]. by apply Forall_forall.
  - intros [H1 H2]. constructor; [done|]. by apply Forall_forall.
Qed.
Lemma wf_app l1 l2 : wf (l1 ++ l2) ↔ wf l1 ∧ wf l2 ∧ ∀ a b, a ∈ l1 → b ∈ l2 → key_lt a b.
Proof.
  induction l1 as [|x l1 IH]; simpl.
  - split; [|tauto]. intros H. split_and!; [apply wf_nil|done|set_solver].
  - rewrite !wf_cons, IH. set_solver.
Qed.

Lemma wf_nodup l : wf l → NoDup l.*1.
Proof.
  induction l as [|a l IH]; [constructor|]. rewrite wf_cons, fmap_cons, NoDup_cons.
  intros [Hl Ha]. split; [|auto]. intros (b & Hb & Hin)%list_elem_of_fmap.
  apply (key_lt_irrefl a). specialize (Ha b Hin). unfold key_lt in *. by rewrite Hb in Ha |- *.
Qed.

(** A sorted list is determined by the map it represents. *)
Definition to_map l : gmap string A := list_to_map l.
Lemma to_map_elem l k a : wf l → to_map l !! k = Some a ↔ (k, a) ∈ l.
Proof. intros Hl. unfold to_map. symmetry. by apply elem_of_list_to_map, wf_nodup. Qed.
Lemma to_map_none l k : to_map l !! k = None ↔ k ∉ l.*1.
Proof. symmetry. apply not_elem_of_list_to_map. Qed.

Lemma wf_elem_eq l1 l2 : wf l1 → wf l2 → (∀ a, a ∈ l1 ↔ a ∈ l2) → l1 = l2.
Proof.
  revert l2. induction l1 as [|a l1 IH]; intros [|b l2] H1 H2 Heq; [done| | |].
  - specialize (Heq b). set_solver.
  - specialize (Heq a). set_solver.
  - rewrite wf_cons in H1, H2. destruct H1 as [H1 Ha], H2 as [H2 Hb].
    assert (a = b) as ->.
    { assert (a ∈ b :: l2) as [|Hal]%elem_of_cons by (apply Heq; set_solver); [done|].
      assert (b ∈ a :: l1) as [|Hbl]%elem_of_cons by (apply Heq; set_solver); [done|].
      destruct (key_lt_irrefl a). eapply key_lt_trans; eauto. }
    f_equal. apply IH; [done|done|]. intros x. specialize (Heq x). rewrite !elem_of_cons in Heq.
    split; intros Hx.
    + destruct (proj1 Heq (or_intror Hx)) as [->|]; [|done]. destruct (key_lt_irrefl b). auto.
    + destruct (proj2 Heq (or_intror Hx)) as [->|]; [|done]. destruct (key_lt_irrefl b). auto.
Qed.
Lemma wf_map_eq l1 l2 : wf l1 → wf l2 → (∀ k, to_map l1 !! k = to_map l2 !! k) → l1 = l2.
Proof.
  intros H1 H2 Hm. apply wf_elem_eq; [done|done|]. intros [k a].
  rewrite <- (to_map_elem l1), <- (to_map_elem l2) by done. by rewrite Hm.
Qed.

(** *** Operations *)

Lemma tr_insert_perm k a l : tr_insert k a l ≡ₚ (k, a) :: l.
Proof.
  induction l as [|[k' b] l IH]; simpl; [done|]. destruct (_ <? _)%Z; [|done].
  rewrite IH. apply Permutation_swap.
Qed.
Lemma tr_insert_wf k a l : wf l → k ∉ l.*1 → wf (tr_insert k a l).
Proof.
  intros Hl Hk. induction l as [|[k' b] l IH]; simpl.
  { apply wf_cons. split; [done|set_solver]. }
  rewrite wf_cons in Hl. destruct Hl as [Hl Hb]. rewrite fmap_cons in Hk.
  destruct (_ <? _)%Z eqn:Hc.
  - apply wf_cons. split; [apply IH; set_solver|]. intros x. rewrite tr_insert_perm.
    intros [->|Hx]%elem_of_cons; [|auto]. unfold key_lt. simpl. lia.
  - assert (key_lt (k, a) (k', b)) as Hlt by (apply key_total; simpl; [lia|set_solver]).
    rewrite !wf_cons. split_and!; [done|done|]. intros x [->|Hx]%elem_of_cons; [done|].
    eapply key_lt_trans; eauto.
Qed.
Lemma tr_insert_map k a l : wf l → k ∉ l.*1 → to_map (tr_insert k a l) = <[k := a]> (to_map l).
Proof.
  intros Hl Hk. unfold to_map. rewrite (list_to_map_proper _ ((k, a) :: l)); [done| |apply tr_insert_perm].
  by apply wf_nodup, tr_insert_wf.
Qed.

Lemma lookup_split l i k a : l !! i = Some (k, a) → l = take i l ++ (k, a) :: drop (S i) l.
Proof. intros Hi. by rewrite take_drop_middle. Qed.
Lemma tr_remove_wf l i : wf l → wf (tr_remove i l).
Proof.
  intros Hl. unfold tr_remove. destruct (l !! i) as [[k a]|] eqn:Hi.
  - rewrite (lookup_split _ _ _ _ Hi) in Hl. rewrite wf_app, wf_cons in Hl. rewrite wf_app.
    destruct Hl as (H1 & [H2 Hk] & H12). split_and!; [done|done|]. intros x y Hx Hy. apply H12; [done|].
    set_solver.
  - apply lookup_ge_None in Hi. rewrite take_ge, drop_ge, app_nil_r by lia. done.
Qed.
Lemma tr_remove_map l i k a : wf l → l !! i = Some (k, a) → to_map (tr_remove i l) = delete k (to_map l).
Proof.
  intros Hl Hi. apply map_eq. intros k'. pose proof (wf_nodup _ Hl) as Hnd.
  assert (∀ x, x ∈ tr_remove i l ↔ x ∈ l ∧ x.1 ≠ k) as Hel.
  { intros x. unfold tr_remove. rewrite (lookup_split _ _ _ _ Hi) in Hnd.
    assert (x ∈ l ↔ x ∈ take i l ∨ x = (k, a) ∨ x ∈ drop (S i) l) as ->.
    { rewrite (lookup_split _ _ _ _ Hi) at 1. by rewrite elem_of_app, elem_of_cons. }
    rewrite fmap_app, fmap_cons in Hnd. apply NoDup_app in Hnd as (_ & Hd & [Hn _]%NoDup_cons).
    rewrite elem_of_app. simpl in *. split.
    - intros [Hx|Hx]; (split; [tauto|]); intros <-.
      + apply (Hd x.1); [by apply list_elem_of_fmap_2|set_solver].
      + apply Hn. by apply list_elem_of_fmap_2.
    - intros [[Hx|[->|Hx]] Hne]; [tauto|done|tauto]. }
  destruct (decide (k' = k)) as [->|Hne].
  - rewrite lookup_delete_eq. apply to_map_none. intros (x & Hk & Hx)%list_elem_of_fmap.
    apply Hel in Hx as [_ ?]. congruence.
  - rewrite lookup_delete_ne by done. apply option_eq. intros b.
    rewrite !to_map_elem by (done || by apply tr_remove_wf). rewrite Hel. naive_solver.
Qed.

Lemma alter_fst (f : A → A) i l : (alter (λ e, (e.1, f e.2)) i l).*1 = l.*1.
Proof.
  revert i. induction l as [|a l IH]; intros [|i]; simpl; [done|done|done|]. f_equal. apply IH.
Qed.
Lemma wf_fst l l' : l.*1 = l'.*1 → wf l → wf l'.
Proof.
  revert l'. induction l as [|a l IH]; intros [|b l'] Heq Hl; try done.
  injection Heq as H1 H2. change (l.*1 = l'.*1) in H2. rewrite wf_cons in Hl |- *. destruct Hl as [Hl Ha]. split; [by apply IH|].
  intros c Hc. assert (c.1 ∈ l.*1) as (d & Hd & Hdl)%list_elem_of_fmap.
  { rewrite H2. by apply list_elem_of_fmap_2. }
  specialize (Ha d Hdl). unfold key_lt in *. congruence.
Qed.
Lemma alter_wf (f : A → A) i l : wf l → wf (alter (λ e, (e.1, f e.2)) i l).
Proof. apply wf_fst. by rewrite alter_fst. Qed.
Lemma alter_map (f : A → A) i l k a :
  wf l → l !! i = Some (k, a) → to_map (alter (λ e, (e.1, f e.2)) i l) = <[k := f a]> (to_map l).
Proof.
  intros Hl Hi. set (l' := alter _ i l). assert (wf l') as Hl' by (by apply alter_wf).
  assert (l' !! i = Some (k, f a)) as Hi' by (unfold l'; by rewrite list_lookup_alter_eq, Hi).
  apply map_eq. intros k'. destruct (decide (k' = k)) as [->|Hne].
  - rewrite lookup_insert_eq. apply to_map_elem; [done|]. by apply list_elem_of_lookup_2 in Hi'.
  - rewrite lookup_insert_ne by done. apply option_eq. intros b. rewrite !to_map_elem by done.
    rewrite !list_elem_of_lookup. split; intros [j Hj]; exists j.
    + destruct (decide (j = i)) as [->|]; [congruence|]. by rewrite <- Hj; unfold l'; rewrite list_lookup_alter_ne.
    + destruct (decide (j = i)) as [->|]; [congruence|]. unfold l'. by rewrite list_lookup_alter_ne.
Qed.
End sorted_map.

(** *** Lookup *)

Section lookup.
Context `{TreeFindLaws}.

Lemma find_map {A} k (l : list (string * A)) :
  wf l →
  match tree_find k l with
  | Some i => ∃ a, l !! i = Some (k, a) ∧ to_map l !! k = Some a
  | None => k ∉ l.*1 ∧ to_map l !! k = None
  end.
Proof.
  intros Hl. destruct (tree_find k l) as [i|] eqn:Hf.
  - apply tree_find_some in Hf as [a Ha]. exists a. split; [done|]. apply to_map_elem; [done|].
    by apply list_elem_of_lookup_2 in Ha.
  - apply tree_find_none in Hf. split; [done|]. by apply to_map_none.
Qed.
End lookup.

(** ** Properties of policy tags: differences of tag lists, group tags that follow
    their members, and templates. *)

Section lists.
Context `{TreeFindLaws}.
Implicit Types (l acc es old new : tag_list).

(** *** Differences *)

Lemma to_map_cons k f es k' :
  to_map ((k, f) :: es) !! k' = if decide (k' = k) then Some f else to_map es !! k'.
Proof.
  unfold to_map. simpl. destruct (decide (k' = k)) as [->|]; [apply lookup_insert_eq|].
  by apply lookup_insert_ne.
Qed.

(** A loop that inserts what [g] selects of each entry. *)
Lemma collect_spec (step : tag_list → string * Z → tag_list) (g : string * Z → option Z) es acc :
  (∀ acc e, e ∈ es →
    step acc e = match g e with Some v => om_tag_list_entry_add acc e.1 v | None => acc end) →
  wf acc → NoDup es.*1 → (∀ k, k ∈ es.*1 → k ∉ acc.*1) →
  wf (foldl step acc es) ∧
  ∀ k, to_map (foldl step acc es) !! k =
    match to_map es !! k with Some f => g (k, f) | None => to_map acc !! k end.
Proof.
  revert acc. induction es as [|[k f] es IH]; intros acc Hstep Hacc Hnd Hdis; [done|].
  rewrite fmap_cons, NoDup_cons in Hnd. destruct Hnd as [Hk Hnd]. cbn [fst] in *.
  assert (k ∉ acc.*1) as Hka by (apply Hdis; set_solver). cbn [foldl].
  rewrite Hstep by set_solver. destruct (g (k, f)) as [v|] eqn:Hg; cbn [fst].
  - destruct (IH (om_tag_list_entry_add acc k v)) as [Hwf Hmap].
    + intros; apply Hstep; set_solver.
    + by apply tr_insert_wf.
    + done.
    + intros k' Hk'. unfold om_tag_list_entry_add. rewrite tr_insert_perm, fmap_cons.
      specialize (Hdis k'). set_solver.
    + split; [done|]. intros k'. rewrite Hmap, to_map_cons.
      unfold om_tag_list_entry_add. rewrite tr_insert_map by done.
      destruct (decide (k' = k)) as [->|Hne]; [|by rewrite lookup_insert_ne].
      rewrite (proj2 (to_map_none es k)) by done. by rewrite lookup_insert_eq, Hg.
  - destruct (IH acc) as [Hwf Hmap]; [intros; apply Hstep; set_solver|done|done|set_solver|].
    split; [done|]. intros k'. rewrite Hmap, to_map_cons.
    destruct (decide (k' = k)) as [->|Hne]; [|done].
    rewrite (proj2 (to_map_none es k)) by done. rewrite Hg. by apply to_map_none.
Qed.

Lemma diff_update_step new acc e :
  wf new →
  diff_update new acc e =
    match match to_map new !! e.1 with
          | Some f' => if decide (e.2 = f') then None else Some f'
          | None => None
          end with
    | Some v => om_tag_list_entry_add acc e.1 v
    | None => acc
    end.
Proof.
  intros Hnew. pose proof (find_map e.1 new Hnew) as Hf.
  unfold diff_update, om_tag_list_entry_find_by_value. destruct (tree_find e.1 new) as [i|].
  - destruct Hf as (f' & -> & ->). cbn [fst snd]. destruct (decide (e.2 = f')) as [->|].
    + by rewrite Z.eqb_refl.
    + by rewrite (proj2 (Z.eqb_neq _ _)).
  - by destruct Hf as [_ ->].
Qed.

Lemma apply_remove_spec ds l :
  wf l → wf (foldl apply_remove l ds) ∧
  ∀ k, to_map (foldl apply_remove l ds) !! k = if decide (k ∈ ds.*1) then None else to_map l !! k.
Proof.
  revert l. induction ds as [|[d f] ds IH]; intros l Hl; [split; [done|]; intros k; by rewrite decide_False by set_solver|].
  cbn [foldl]. pose proof (find_map d l Hl) as Hf.
  assert (wf (apply_remove l (d, f)) ∧ to_map (apply_remove l (d, f)) = delete d (to_map l)) as [H1 H2].
  { unfold apply_remove, om_tag_list_entry_find_by_value. simpl. destruct (tree_find d l) as [i|].
    - destruct Hf as (a & Hi & _). split; [by apply tr_remove_wf|]. by eapply tr_remove_map.
    - destruct Hf as [_ Hf]. split; [done|]. by rewrite delete_id. }
  destruct (IH _ H1) as [Hwf Hmap]. split; [done|]. intros k. rewrite Hmap, H2, fmap_cons. cbn [fst].
  destruct (decide (k = d)) as [->|Hne].
  - rewrite lookup_delete_eq, (decide_True (P := d ∈ d :: _)) by set_solver. by case_decide.
  - rewrite lookup_delete_ne by done. destruct (decide (k ∈ ds.*1)).
    + by rewrite decide_True by set_solver.
    + by rewrite decide_False by set_solver.
Qed.

Lemma apply_add_spec ds l :
  wf l → wf (foldl apply_add l ds) ∧
  ∀ k, to_map (foldl apply_add l ds) !! k =
    match to_map l !! k with Some f => Some f | None => to_map ds !! k end.
Proof.
  revert l. induction ds as [|[d f] ds IH]; intros l Hl.
  { split; [done|]. intros k. simpl. by destruct (to_map l !! k). }
  cbn [foldl]. pose proof (find_map d l Hl) as Hf.
  assert (wf (apply_add l (d, f)) ∧ ∀ k, to_map (apply_add l (d, f)) !! k =
    match to_map l !! k with Some g => Some g | None => if decide (k = d) then Some f else None end) as [H1 H2].
  { unfold apply_add, om_tag_list_entry_find_by_value, om_tag_list_entry_add. simpl.
    destruct (tree_find d l) as [i|].
    - destruct Hf as (a & _ & Hm). split; [done|]. intros k. destruct (to_map l !! k) eqn:Hk; [done|].
      rewrite decide_False; [done|]. congruence.
    - destruct Hf as [Hn Hm]. split; [by apply tr_insert_wf|]. intros k. rewrite tr_insert_map by done.
      destruct (decide (k = d)) as [->|]; [by rewrite lookup_insert_eq, Hm|].
      rewrite lookup_insert_ne by done. by destruct (to_map l !! k). }
  destruct (IH _ H1) as [Hwf Hmap]. split; [done|]. intros k. rewrite Hmap, H2, to_map_cons.
  destruct (to_map l !! k); [done|]. by destruct (decide (k = d)).
Qed.

Lemma apply_update_spec ds l :
  wf l → NoDup ds.*1 → wf (foldl apply_update l ds) ∧
  ∀ k, to_map (foldl apply_update l ds) !! k =
    match to_map l !! k, to_map ds !! k with
    | Some _, Some f => Some f
    | o, _ => o
    end.
Proof.
  revert l. induction ds as [|[d f] ds IH]; intros l Hl Hnd.
  { split; [done|]. intros k. simpl. by destruct (to_map l !! k). }
  rewrite fmap_cons, NoDup_cons in Hnd. destruct Hnd as [Hd Hnd]. cbn [fst] in *.
  cbn [foldl]. pose proof (find_map d l Hl) as Hf.
  assert (wf (apply_update l (d, f)) ∧ ∀ k, to_map (apply_update l (d, f)) !! k =
    match to_map l !! k with Some g => Some (if decide (k = d) then f else g) | None => None end) as [H1 H2].
  { unfold apply_update, om_tag_list_entry_find_by_value. simpl. destruct (tree_find d l) as [i|].
    - destruct Hf as (a & Hi & Hm). split; [by apply (alter_wf (λ _, f))|]. intros k.
      rewrite (alter_map (λ _, f) _ _ _ _ Hl Hi). destruct (decide (k = d)) as [->|].
      + by rewrite lookup_insert_eq, Hm.
      + rewrite lookup_insert_ne by done. by destruct (to_map l !! k).
    - destruct Hf as [_ Hm]. split; [done|]. intros k. destruct (to_map l !! k) eqn:Hk; [|done].
      rewrite decide_False; [done|]. congruence. }
  destruct (IH _ H1 Hnd) as [Hwf Hmap]. split; [done|]. intros k. rewrite Hmap, H2, to_map_cons.
  destruct (to_map l !! k); [|done]. destruct (decide (k = d)) as [->|]; [|done].
  by rewrite (proj2 (to_map_none ds d)).
Qed.

(** A list and its difference to another list determine the other list. *)
Lemma in_list_map l k : wf l → in_list (Some l) k = bool_decide (to_map l !! k ≠ None).
Proof.
  intros Hl. pose proof (find_map k l Hl) as Hf. unfold in_list, om_tag_list_entry_find_by_value.
  destruct (tree_find k l) as [i|].
  - destruct Hf as (a & _ & ->). by rewrite !bool_decide_true.
  - destruct Hf as [_ ->]. done.
Qed.

Lemma elem_keys l k : k ∈ l.*1 ↔ to_map l !! k ≠ None.
Proof. rewrite to_map_none. destruct (decide (k ∈ l.*1)); naive_solver. Qed.

Lemma diff_maps old new :
  wf old → wf new →
  let d := om_tag_list_diff (Some old) (Some new) in
  wf (removed d) ∧ wf (added d) ∧ wf (updated d) ∧
  ∀ k, to_map (removed d) !! k =
         match to_map old !! k, to_map new !! k with Some f, None => Some f | _, _ => None end ∧
       to_map (added d) !! k =
         match to_map old !! k, to_map new !! k with None, Some f => Some f | _, _ => None end ∧
       to_map (updated d) !! k =
         match to_map old !! k, to_map new !! k with
         | Some f, Some g => if decide (f = g) then None else Some g
         | _, _ => None
         end.
Proof.
  intros Ho Hn d.
  assert (∀ l : tag_list, ∀ k, k ∈ l.*1 → k ∉ ([] : tag_list).*1) as Hdis by set_solver.
  destruct (collect_spec (diff_add (λ e, negb (in_list (Some new) e.1)))
    (λ e, if negb (in_list (Some new) e.1) then Some e.2 else None) old []) as [R1 R2];
    [intros acc e _; unfold diff_add; by destruct (negb _)|apply wf_nil|by apply wf_nodup|apply Hdis|].
  destruct (collect_spec (diff_add (λ e, negb (in_list (Some old) e.1)))
    (λ e, if negb (in_list (Some old) e.1) then Some e.2 else None) new []) as [A1 A2];
    [intros acc e _; unfold diff_add; by destruct (negb _)|apply wf_nil|by apply wf_nodup|apply Hdis|].
  destruct (collect_spec (diff_update new)
    (λ e, match to_map new !! e.1 with
          | Some f' => if decide (e.2 = f') then None else Some f'
          | None => None
          end) old []) as [U1 U2];
    [intros; by apply diff_update_step|apply wf_nil|by apply wf_nodup|apply Hdis|].
  split_and!; try done. intros k. subst d. unfold om_tag_list_diff. cbn [removed added updated].
  rewrite R2, A2, U2. cbn [fst snd].
  rewrite !in_list_map by done. destruct (to_map old !! k), (to_map new !! k); done.
Qed.

Lemma diff_apply old new :
  wf old → wf new → om_tag_list_apply_diff old (om_tag_list_diff (Some old) (Some new)) = new.
Proof.
  intros Ho Hn. destruct (diff_maps old new Ho Hn) as (Hr & Ha & Hu & Hd).
  set (d := om_tag_list_diff _ _) in *. unfold om_tag_list_apply_diff.
  destruct (apply_remove_spec (removed d) old Ho) as [W1 M1].
  destruct (apply_add_spec (added d) _ W1) as [W2 M2].
  destruct (apply_update_spec (updated d) _ W2 (wf_nodup _ Hu)) as [W3 M3].
  apply wf_map_eq; [done|done|]. intros k. rewrite M3, M2, M1. destruct (Hd k) as (E1 & E2 & E3).
  rewrite E2, E3. destruct (decide (k ∈ (removed d).*1)) as [Hk|Hk].
  - apply elem_keys in Hk. rewrite E1 in Hk. by destruct (to_map old !! k), (to_map new !! k).
  - rewrite elem_keys, E1 in Hk. destruct (to_map old !! k), (to_map new !! k); try done.
    + by case_decide; subst.
    + by destruct Hk.
Qed.

(** *** Building lists *)

(** What a filter keeps of an entry's flags. *)
Definition kept (filter_flags f : Z) : option Z :=
  if flags_skip filter_flags f then None else Some f.
Definition join_flags (a b : option Z) : option Z :=
  match a, b with
  | Some f, Some g => Some (Z.lor f g)
  | Some f, None => Some f
  | None, o => o
  end.

Lemma append_entry_spec ff dest e :
  wf dest → wf (append_entry ff dest e) ∧
  ∀ k, to_map (append_entry ff dest e) !! k =
    if decide (k = e.1) then join_flags (to_map dest !! k) (kept ff e.2) else to_map dest !! k.
Proof.
  intros Hd. unfold append_entry, kept. destruct (flags_skip ff e.2).
  { split; [done|]. intros k. case_decide; [|done]. by destruct (to_map dest !! k). }
  pose proof (find_map e.1 dest Hd) as Hf. unfold om_tag_list_entry_find_by_value, om_tag_list_entry_add.
  destruct (tree_find e.1 dest) as [i|].
  - destruct Hf as (f & Hi & Hm). split; [by apply (alter_wf (λ f, Z.lor f e.2))|]. intros k.
    rewrite (alter_map (λ f, Z.lor f e.2) _ _ _ _ Hd Hi). destruct (decide (k = e.1)) as [->|].
    + by rewrite lookup_insert_eq, Hm.
    + by rewrite lookup_insert_ne.
  - destruct Hf as [Hn Hm]. split; [by apply tr_insert_wf|]. intros k. rewrite tr_insert_map by done.
    destruct (decide (k = e.1)) as [->|]; [by rewrite lookup_insert_eq, Hm|by rewrite lookup_insert_ne].
Qed.

Lemma append_list_spec ff src dest :
  wf dest → wf src → wf (om_tag_list_append_list dest src ff) ∧
  ∀ k, to_map (om_tag_list_append_list dest src ff) !! k =
    join_flags (to_map dest !! k) (to_map src !! k ≫= kept ff).
Proof.
  unfold om_tag_list_append_list. revert dest. induction src as [|[k0 f0] src IH]; intros dest Hd Hs.
  { split; [done|]. intros k. simpl. by destruct (to_map dest !! k). }
  pose proof (wf_nodup _ Hs) as Hnd. rewrite fmap_cons, NoDup_cons in Hnd. destruct Hnd as [Hk _].
  cbn [fst] in *. rewrite wf_cons in Hs. destruct Hs as [Hs _].
  destruct (append_entry_spec ff dest (k0, f0) Hd) as [W1 M1]. cbn [foldl].
  destruct (IH _ W1 Hs) as [W2 M2]. split; [done|]. intros k. rewrite M2, M1, to_map_cons. cbn [fst snd].
  destruct (decide (k = k0)) as [->|]; [|done]. rewrite (proj2 (to_map_none src k0)) by done. simpl.
  by destruct (to_map dest !! k0), (kept ff f0).
Qed.

Lemma add_all_wf (f : Z) vs l :
  wf l → NoDup vs → (∀ v, v ∈ vs → v ∉ l.*1) →
  wf (foldl (λ l v, om_tag_list_entry_add l v f) l vs).
Proof.
  revert l. induction vs as [|v vs IH]; intros l Hl Hnd Hdis; [done|].
  apply NoDup_cons in Hnd as [Hv Hnd]. simpl. apply IH; [|done|].
  - apply tr_insert_wf; [done|]. apply Hdis. set_solver.
  - intros w Hw. unfold om_tag_list_entry_add. rewrite tr_insert_perm, fmap_cons.
    specialize (Hdis w). set_solver.
Qed.
Lemma add_cloud_wf l v : wf l → wf (add_cloud l v).
Proof.
  intros Hl. pose proof (find_map v l Hl) as Hf.
  unfold add_cloud, om_tag_list_entry_find_by_value, om_tag_list_entry_add.
  destruct (tree_find v l) as [i|].
  - by apply (alter_wf (λ f, Z.lor f OM_TLE_FLAG_CLOUD)).
  - apply tr_insert_wf; tauto.
Qed.
Lemma schema_list_wf stag :
  NoDup (device_value stag) → wf (om_tag_add_list_from_schema [] stag).
Proof.
  intros Hnd. unfold om_tag_add_list_from_schema.
  assert (wf (foldl (λ l v, om_tag_list_entry_add l v OM_TLE_FLAG_DEVICE) [] (device_value stag))) as Hwf.
  { apply add_all_wf; [apply wf_nil|done|set_solver]. }
  revert Hwf. generalize (foldl (λ l v, om_tag_list_entry_add l v OM_TLE_FLAG_DEVICE) [] (device_value stag)).
  induction (cloud_value stag) as [|v vs IH]; intros l Hl; [done|]. simpl. by apply IH, add_cloud_wf.
Qed.
Lemma local_list_wf stag :
  NoDup (local_values stag) → wf (om_local_tag_add_list_from_schema [] stag).
Proof. intros Hnd. apply add_all_wf; [apply wf_nil|done|set_solver]. Qed.
End lists.
