(* ===== verification/PolicyTagsInv.v ===== *)
(** Group tags follow their members: the invariant of the global trees of tags
    and groups, kept by every handler of a row change. *)
From S2P Require Import Prelude DsTree DsTreeInv PolicyTags PolicyTagsRep.

Section tags.
Context `{TreeFindLaws}.
Implicit Types (ts : list (string * om_tag_t)) (s : pt_state).

(** *** The tags as a function *)

Definition tag_id (t : string * om_tag_t) : string * bool := (tname t.2, tgroup t.2).

(** At most one tag per name and kind, all with sorted values. *)
Record tags_ok ts : Prop := {
  tags_nodup : NoDup (tag_id <$> ts);
  tags_wf t : t ∈ ts → wf (values t.2) }.

(** The values of a tag. *)
Definition tag_vals ts (n : string) (g : bool) : option tag_list :=
  match find_tag n g ts with
  | Some i => (λ t, values t.2) <$> ts !! i
  | None => None
  end.

Lemma find_tag_some ts n g i :
  find_tag n g ts = Some i → ∃ k v, ts !! i = Some (k, Tag n g v).
Proof.
  unfold find_tag. destruct (list_find _ _) as [[j [k [n' g' v]]]|] eqn:Hf; [|done].
  intros [= <-]. apply list_find_Some in Hf as (Hj & [<- <-] & _). eauto.
Qed.
Lemma find_tag_none ts n g : find_tag n g ts = None → ∀ k v, (k, Tag n g v) ∉ ts.
Proof.
  unfold find_tag. destruct (list_find _ _) eqn:Hf; [done|]. intros _ k v Hin.
  apply list_find_None in Hf. rewrite Forall_forall in Hf. by apply (Hf _ Hin).
Qed.

Lemma tags_unique ts k k' n g v v' :
  tags_ok ts → (k, Tag n g v) ∈ ts → (k', Tag n g v') ∈ ts → v = v'.
Proof.
  intros [Hnd _] [i Hi]%list_elem_of_lookup [j Hj]%list_elem_of_lookup.
  assert (i = j) as ->.
  { eapply (NoDup_lookup (tag_id <$> ts) i j (n, g)); [done|..]; by rewrite list_lookup_fmap, ?Hi, ?Hj. }
  congruence.
Qed.

Lemma tag_vals_elem ts n g v : tags_ok ts → tag_vals ts n g = Some v ↔ ∃ k, (k, Tag n g v) ∈ ts.
Proof.
  intros Hok. unfold tag_vals. destruct (find_tag n g ts) as [i|] eqn:Hf.
  - apply find_tag_some in Hf as (k & v' & Hi). rewrite Hi. simpl. apply list_elem_of_lookup_2 in Hi. split.
    + intros [= <-]. eauto.
    + intros [k' Hin]. f_equal. by eapply tags_unique.
  - split; [done|]. intros [k Hin]. by apply (find_tag_none _ _ _ Hf) in Hin.
Qed.
Lemma tag_vals_wf ts n g v : tags_ok ts → tag_vals ts n g = Some v → wf v.
Proof. intros Hok [k Hin]%tag_vals_elem; [|done]. by apply (tags_wf _ Hok (k, Tag n g v)). Qed.

(** Two lists of tags with the same tags apart from one. *)
Lemma tag_vals_upd ts ts' n g (o : option tag_list) :
  tags_ok ts → tags_ok ts' →
  (∀ n' g' v, (n', g') ≠ (n, g) → (∃ k, (k, Tag n' g' v) ∈ ts') ↔ (∃ k, (k, Tag n' g' v) ∈ ts)) →
  (∀ v, (∃ k, (k, Tag n g v) ∈ ts') ↔ o = Some v) →
  ∀ n' g', tag_vals ts' n' g' = if decide ((n', g') = (n, g)) then o else tag_vals ts n' g'.
Proof.
  intros Hok Hok' Hother Hthis n' g'. apply option_eq. intros v. rewrite tag_vals_elem by done.
  case_decide as Hd.
  - injection Hd as -> ->. apply Hthis.
  - rewrite tag_vals_elem by done. by apply Hother.
Qed.

Lemma insert_tag ts (t : om_tag_t) :
  tags_ok ts → wf (values t) → tag_vals ts (tname t) (tgroup t) = None →
  let ts' := tr_insert (tname t) t ts in
  tags_ok ts' ∧ ∀ n g, tag_vals ts' n g =
    if decide ((n, g) = (tname t, tgroup t)) then Some (values t) else tag_vals ts n g.
Proof.
  intros Hok Hwf Hnone ts'. destruct t as [n g v]. simpl in *.
  assert (∀ k v, (k, Tag n g v) ∉ ts) as Hno.
  { intros k v' Hin. assert (tag_vals ts n g = Some v') by (apply tag_vals_elem; eauto). congruence. }
  assert (tags_ok ts') as Hok'.
  { destruct Hok as [Hnd Hw]. split.
    - unfold ts'. rewrite (tr_insert_perm n (Tag n g v) ts), fmap_cons. apply NoDup_cons. split; [|done].
      intros ([k [n' g' v']] & Heq & Hin)%list_elem_of_fmap. injection Heq as <- <-. by apply Hno in Hin.
    - intros t. unfold ts'. rewrite tr_insert_perm. intros [->|Hin]%elem_of_cons; [done|auto]. }
  split; [done|]. apply tag_vals_upd; [done|done| |]; unfold ts'; setoid_rewrite tr_insert_perm;
    setoid_rewrite elem_of_cons.
  - intros n' g' v' Hne. split; intros [k Hk]; exists k; [|tauto]. destruct Hk as [Hk|]; [congruence|done].
  - intros v'. split.
    + intros [k [[= _ ->]|Hin]]; [done|by apply Hno in Hin].
    + intros [= <-]. exists n. by left.
Qed.

Lemma remove_tag ts i k n g v :
  tags_ok ts → ts !! i = Some (k, Tag n g v) →
  tags_ok (tr_remove i ts) ∧ ∀ n' g', tag_vals (tr_remove i ts) n' g' =
    if decide ((n', g') = (n, g)) then None else tag_vals ts n' g'.
Proof.
  intros Hok Hi. assert (ts ≡ₚ (k, Tag n g v) :: tr_remove i ts) as Hp.
  { unfold tr_remove. rewrite (lookup_split _ _ _ _ Hi) at 1. by rewrite Permutation_middle. }
  assert (tags_ok (tr_remove i ts) ∧ ∀ k v, (k, Tag n g v) ∉ tr_remove i ts) as [Hok' Hno].
  { destruct Hok as [Hnd Hw]. rewrite Hp, fmap_cons in Hnd. apply NoDup_cons in Hnd as [Hn Hnd]. split.
    - split; [done|]. intros t Ht. apply Hw. rewrite Hp. set_solver.
    - intros k' v' Hin. apply Hn. by apply (list_elem_of_fmap_2 tag_id) in Hin. }
  split; [done|]. apply tag_vals_upd; [done|done| |].
  - intros n' g' v' Hne.
    assert (∀ x, x ∈ ts ↔ x = (k, Tag n g v) ∨ x ∈ tr_remove i ts) as Hel.
    { intros x. rewrite Hp at 1. apply elem_of_cons. }
    setoid_rewrite Hel. split; intros [k' Hk']; exists k'; [tauto|].
    destruct Hk' as [Hk'|]; [congruence|done].
  - intros v'. split; [|done]. intros [k' Hin]. by apply Hno in Hin.
Qed.

Definition set_vals (w : tag_list) (t : string * om_tag_t) : string * om_tag_t :=
  (t.1, Tag (tname t.2) (tgroup t.2) w).

Lemma alter_tag ts i k n g v w :
  tags_ok ts → ts !! i = Some (k, Tag n g v) → wf w →
  let ts' := alter (set_vals w) i ts in
  tags_ok ts' ∧ ∀ n' g', tag_vals ts' n' g' =
    if decide ((n', g') = (n, g)) then Some w else tag_vals ts n' g'.
Proof.
  intros Hok Hi Hw ts'. assert (ts' = <[i := (k, Tag n g w)]> ts) as Hts'.
  { apply list_eq. intros j. unfold ts'. destruct (decide (j = i)) as [->|].
    - by rewrite list_lookup_alter_eq, Hi, list_lookup_insert_eq by (by eapply lookup_lt_Some).
    - by rewrite list_lookup_alter_ne, list_lookup_insert_ne by done. }
  assert (tag_id <$> ts' = tag_id <$> ts) as Hids.
  { rewrite Hts', list_fmap_insert. apply list_insert_id. by rewrite list_lookup_fmap, Hi. }
  assert (ts' !! i = Some (k, Tag n g w)) as Hi'.
  { rewrite Hts'. apply list_lookup_insert_eq. by eapply lookup_lt_Some. }
  assert (∀ t, t ∈ ts' → t = (k, Tag n g w) ∨ t ∈ ts) as Hel.
  { intros t [j Hj]%list_elem_of_lookup. destruct (decide (j = i)) as [->|]; [left; congruence|right].
    rewrite Hts', list_lookup_insert_ne in Hj by done. by apply list_elem_of_lookup_2 in Hj. }
  assert (tags_ok ts') as Hok'.
  { destruct Hok as [Hnd Hwf]. split; [by rewrite Hids|]. intros t [->|Ht]%Hel; [done|auto]. }
  split; [done|]. apply tag_vals_upd; [done|done| |].
  - intros n' g' v' Hne. split; intros [k' Hin]; exists k'.
    + apply Hel in Hin as [Hin|]; [congruence|done].
    + apply list_elem_of_lookup in Hin as [j Hj]. apply list_elem_of_lookup. exists j.
      rewrite Hts', list_lookup_insert_ne; [done|]. intros ->. congruence.
  - intros v'. split.
    + intros [k' Hin]. f_equal. eapply tags_unique; [exact Hok'| |exact Hin].
      by apply list_elem_of_lookup_2 in Hi'.
    + intros [= <-]. exists k. by apply list_elem_of_lookup_2 in Hi'.
Qed.

(** *** The values of a group *)

(** What [om_tag_group_append_members] computes for a group. *)
Definition group_values ts (g : om_tag_group_t) : tag_list :=
  foldl (append_member ts) [] (tags g).

Lemma append_member_vals ts dest e :
  append_member ts dest e =
    match tag_vals ts e.1 false with
    | Some v => om_tag_list_append_list dest v e.2
    | None => dest
    end.
Proof.
  unfold append_member, tag_vals. destruct (find_tag e.1 false ts) as [i|] eqn:Hf; [|done].
  apply find_tag_some in Hf as (k & v & ->). done.
Qed.

Lemma group_values_wf ts g : tags_ok ts → wf (group_values ts g).
Proof.
  intros Hok. unfold group_values.
  assert (∀ es dest, wf dest → wf (foldl (append_member ts) dest es)) as Hgen; [|apply Hgen, wf_nil].
  induction es as [|e es IH]; intros dest Hd; [done|]. cbn [foldl]. apply IH.
  rewrite append_member_vals. destruct (tag_vals ts e.1 false) as [v|] eqn:Hv; [|done].
  apply append_list_spec; [done|]. by eapply tag_vals_wf.
Qed.

(** Only the member tags matter. *)
Lemma group_values_ext ts ts' g :
  (∀ n, n ∈ (tags g).*1 → tag_vals ts' n false = tag_vals ts n false) →
  group_values ts' g = group_values ts g.
Proof.
  unfold group_values. generalize ([] : tag_list) as dest. induction (tags g) as [|e es IH]; intros dest Heq; [done|].
  cbn [foldl]. rewrite !append_member_vals, Heq by set_solver. apply IH. set_solver.
Qed.

(** *** Updating tags *)

Lemma wp_tag_at s i k t (Q : om_tag_t → pt_state → Prop) :
  om_tags s !! i = Some (k, t) → Q t s → wp (tag_at i) Q s.
Proof.
  intros Hi HQ. unfold tag_at. apply wp_bind, wp_gets. rewrite Hi. apply wp_bind, wp_ret.
  by apply wp_ret.
Qed.
Lemma wp_group_at s i k g (Q : om_tag_group_t → pt_state → Prop) :
  om_tag_groups s !! i = Some (k, g) → Q g s → wp (group_at i) Q s.
Proof.
  intros Hi HQ. unfold group_at. apply wp_bind, wp_gets. rewrite Hi. apply wp_bind, wp_ret.
  by apply wp_ret.
Qed.
Lemma wp_service s e (Q : unit → pt_state → Prop) :
  (∀ ev, Q tt (Pt (om_tags s) (om_tag_groups s) (has_mgr s) ev)) → wp (service_tag_update e) Q s.
Proof.
  intros HQ. unfold service_tag_update. apply wp_modify. destruct s as [t g [] ev]; simpl; apply HQ.
Qed.

(** The first half of [om_tag_update]: the tag takes its new values. *)
Lemma set_values ts i k n g v w :
  tags_ok ts → ts !! i = Some (k, Tag n g v) → wf w →
  alter (λ t, (t.1, Tag (tname t.2) (tgroup t.2)
    (om_tag_list_apply_diff (values t.2) (om_tag_list_diff (Some v) (Some w))))) i ts =
  alter (set_vals w) i ts.
Proof.
  intros Hok Hi Hw. apply list_eq. intros j. destruct (decide (j = i)) as [->|].
  - rewrite !list_lookup_alter_eq, Hi. unfold set_vals. simpl. do 3 f_equal. apply diff_apply; [|done].
    apply list_elem_of_lookup_2 in Hi. by apply (tags_wf _ Hok) in Hi.
  - by rewrite !list_lookup_alter_ne.
Qed.

Lemma tag_update_group fuel s i k n v w (Q : bool → pt_state → Prop) :
  tags_ok (om_tags s) → om_tags s !! i = Some (k, Tag n true v) → wf w →
  (∀ ev, Q true (Pt (alter (set_vals w) i (om_tags s)) (om_tag_groups s) (has_mgr s) ev)) →
  wp (tag_update fuel i w) Q s.
Proof.
  intros Hok Hi Hw HQ. destruct fuel as [|fuel]; cbn [tag_update]; apply wp_bind;
    (eapply wp_tag_at; [done|]); apply wp_bind, wp_service; intros ev;
    apply wp_bind, wp_modify; simpl; apply wp_bind, wp_ret, wp_ret;
    unfold with_tags; simpl; rewrite (set_values _ _ _ _ _ _ _ Hok Hi Hw); apply HQ.
Qed.

(** The tags other than group tags are those of [s]. *)
Definition same_plain s s' : Prop :=
  om_tag_groups s' = om_tag_groups s ∧
  ∀ n, tag_vals (om_tags s') n false = tag_vals (om_tags s) n false.

Lemma group_update_spec fuel s g :
  tags_ok (om_tags s) →
  wp (group_update (tag_update fuel) g) (λ _ s', tags_ok (om_tags s') ∧ same_plain s s' ∧
    ∀ n, tag_vals (om_tags s') n true =
      if decide (n = gname g ∧ tag_vals (om_tags s) n true ≠ None)
      then Some (group_values (om_tags s) g) else tag_vals (om_tags s) n true) s.
Proof.
  intros Hok. unfold group_update, om_tag_find_by_name. apply wp_bind, wp_gets.
  destruct (find_tag (gname g) true (om_tags s)) as [i|] eqn:Hf.
  - pose proof Hf as (k & v & Hi)%find_tag_some. apply wp_bind, wp_bind, wp_gets, wp_ret, wp_bind.
    fold (group_values (om_tags s) g). eapply tag_update_group; [done|done|by apply group_values_wf|].
    intros ev. apply wp_ret. destruct (alter_tag (om_tags s) i k (gname g) true v
      (group_values (om_tags s) g) Hok Hi (group_values_wf _ _ Hok)) as [Hok' Hv]. simpl.
    split_and!; [done|split; [done|]|]; simpl.
    + intros n. rewrite Hv. by rewrite decide_False by congruence.
    + intros n. rewrite Hv. destruct (decide (n = gname g)) as [->|Hne].
      * assert (tag_vals (om_tags s) (gname g) true ≠ None) by (unfold tag_vals; by rewrite Hf, Hi).
        by rewrite !decide_True by done.
      * by rewrite !decide_False by naive_solver.
  - apply wp_ret. split_and!; try done. intros n. rewrite decide_False; [done|].
    intros [-> Hne]. unfold tag_vals in Hne. by rewrite Hf in Hne.
Qed.

(** The group tags after the update of all groups with the member [name]. *)
Definition refreshed (name : string) (gs : list (string * om_tag_group_t)) s s' : Prop :=
  ∀ n, tag_vals (om_tags s') n true =
    match tag_vals (om_tags s) n true with
    | None => None
    | Some v =>
        match list_find (λ e, gname e.2 = n ∧ name ∈ (tags e.2).*1) gs with
        | Some (_, e) => Some (group_values (om_tags s) e.2)
        | None => Some v
        end
    end.

Lemma find_member (g : om_tag_group_t) name :
  match om_tag_list_entry_find_by_value (tags g) name with
  | Some _ => name ∈ (tags g).*1
  | None => name ∉ (tags g).*1
  end.
Proof.
  unfold om_tag_list_entry_find_by_value. destruct (tree_find name (tags g)) as [i|] eqn:Hf.
  - apply tree_find_some in Hf as [a Ha%list_elem_of_lookup_2].
    by apply (list_elem_of_fmap_2 fst) in Ha.
  - by apply tree_find_none in Hf.
Qed.

Lemma update_groups_spec fuel name gs s :
  tags_ok (om_tags s) → NoDup ((λ e, gname e.2) <$> gs) →
  wp (update_groups (tag_update fuel) name gs) (λ _ s', tags_ok (om_tags s') ∧ same_plain s s' ∧
    refreshed name gs s s') s.
Proof.
  revert s. induction gs as [|[k g] gs IH]; intros s Hok Hnd.
  { apply wp_ret. split_and!; try done. intros n. by destruct (tag_vals _ _ _). }
  rewrite fmap_cons, NoDup_cons in Hnd. destruct Hnd as [Hg Hnd]. cbn [snd] in *.
  cbn [update_groups]. pose proof (find_member g name) as Hm. apply wp_bind.
  destruct (om_tag_list_entry_find_by_value (tags g) name) as [j|].
  - apply wp_bind. eapply wp_mono; [by apply group_update_spec|].
    intros _ s1 (Hok1 & [Hgr1 Hpl1] & Hv1). apply wp_ret.
    eapply wp_mono; [by apply IH|]. intros _ s2 (Hok2 & [Hgr2 Hpl2] & Hv2).
    split_and!; [done|split; [congruence|intros n; by rewrite Hpl2]|].
    intros n. rewrite Hv2, Hv1. cbn [list_find]. cbn [snd].
    destruct (tag_vals (om_tags s) n true) as [v|] eqn:Hv; [|by rewrite decide_False by naive_solver].
    destruct (decide (n = gname g)) as [->|Hne].
    + rewrite !decide_True by done. simpl.
      destruct (list_find _ gs) as [[i e]|] eqn:Hfd; [|done]. apply list_find_Some in Hfd as (Hi & [He _] & _).
      destruct Hg. apply list_elem_of_lookup_2 in Hi.
      rewrite <- He. by apply (list_elem_of_fmap_2 (λ e, gname e.2)).
    + rewrite decide_False by naive_solver. rewrite (decide_False (P := gname g = n ∧ _)) by naive_solver.
      destruct (list_find _ gs) as [[i e]|]; [|done]. simpl. f_equal. apply group_values_ext. intros; apply Hpl1.
  - apply wp_ret. eapply wp_mono; [by apply IH|]. intros _ s2 (Hok2 & Hs2 & Hv2).
    split_and!; [done|done|]. intros n. rewrite Hv2. cbn [list_find snd].
    rewrite (decide_False (P := gname g = n ∧ _)) by naive_solver.
    by destruct (tag_vals _ _ _); [destruct (list_find _ gs) as [[]|]|].
Qed.

(** *** The invariant *)

(** Every group has exactly one group tag, whose values are those of its members;
    every group tag belongs to a group. *)
Record pt_inv s : Prop := {
  inv_tags : tags_ok (om_tags s);
  inv_sorted : wf (om_tag_groups s);
  inv_key e : e ∈ om_tag_groups s → e.1 = gname e.2;
  inv_tag e : e ∈ om_tag_groups s →
    tag_vals (om_tags s) (gname e.2) true = Some (group_values (om_tags s) e.2);
  inv_group n v : tag_vals (om_tags s) n true = Some v → ∃ e, e ∈ om_tag_groups s ∧ gname e.2 = n }.

Lemma wf_names (gs : list (string * om_tag_group_t)) :
  wf gs → (∀ e, e ∈ gs → e.1 = gname e.2) → NoDup ((λ e, gname e.2) <$> gs).
Proof.
  intros Hwf%wf_nodup Hk. rewrite (list_fmap_ext _ fst); [done|].
  intros i e He%list_elem_of_lookup_2. by rewrite Hk.
Qed.
Lemma inv_names s : pt_inv s → NoDup ((λ e, gname e.2) <$> om_tag_groups s).
Proof. intros Hinv. apply wf_names; apply Hinv. Qed.
Lemma group_unique (gs : list (string * om_tag_group_t)) e e' :
  NoDup ((λ e, gname e.2) <$> gs) → e ∈ gs → e' ∈ gs → gname e.2 = gname e'.2 → e = e'.
Proof.
  intros Hnd [i Hi]%list_elem_of_lookup [j Hj]%list_elem_of_lookup Heq.
  assert (i = j) as ->; [|congruence].
  eapply (NoDup_lookup ((λ e, gname e.2) <$> gs) i j (gname e.2)); [done|..];
    rewrite list_lookup_fmap, ?Hi, ?Hj; simpl; congruence.
Qed.

(** After a change of the tag [name] the update of its groups restores the
    invariant. *)
Lemma refresh_inv fuel s s1 name (Q : bool → pt_state → Prop) :
  pt_inv s → tags_ok (om_tags s1) → om_tag_groups s1 = om_tag_groups s →
  (∀ n, tag_vals (om_tags s1) n true = tag_vals (om_tags s) n true) →
  (∀ n, n ≠ name → tag_vals (om_tags s1) n false = tag_vals (om_tags s) n false) →
  (∀ s', pt_inv s' → same_plain s1 s' → Q true s') →
  wp (group_update_by_tag (tag_update fuel) name) Q s1.
Proof.
  intros Hinv Hok1 Hgr Htrue Hfalse HQ. pose proof (inv_names s Hinv) as Hnd.
  unfold group_update_by_tag. apply wp_bind, wp_gets, wp_bind. rewrite Hgr.
  eapply wp_mono; [by apply update_groups_spec|]. intros _ s' (Hok' & [Hgr' Hpl'] & Hv').
  apply wp_ret, HQ; [|done].
  assert (∀ e, group_values (om_tags s') e = group_values (om_tags s1) e) as Hgv.
  { intros e. apply group_values_ext. intros n _. apply Hpl'. }
  split; rewrite ?Hgr', ?Hgr; try apply Hinv; [done| |].
  - intros e He. rewrite Hv', Htrue, (inv_tag s Hinv e He), Hgv.
    destruct (list_find _ _) as [[i e']|] eqn:Hfd.
    + apply list_find_Some in Hfd as (Hi%list_elem_of_lookup_2 & [Hname _] & _).
      by rewrite (group_unique _ e' e Hnd).
    + apply list_find_None in Hfd. rewrite Forall_forall in Hfd. f_equal. symmetry.
      apply group_values_ext. intros n Hn. apply Hfalse. intros ->. by apply (Hfd e He).
  - intros n v. rewrite Hv', Htrue. destruct (tag_vals (om_tags s) n true) eqn:Hn; [|done].
    intros _. by eapply (inv_group s Hinv).
Qed.

(** *** The handlers *)

Lemma om_tag_add_plain s t (Q : bool → pt_state → Prop) :
  pt_inv s → tgroup t = false → wf (values t) →
  (∀ s', pt_inv s' →
    (∀ n, tag_vals (om_tags s') n false =
      if decide (n = tname t) then
        match tag_vals (om_tags s) n false with None => Some (values t) | o => o end
      else tag_vals (om_tags s) n false) →
    Q (bool_decide (tag_vals (om_tags s) (tname t) false = None)) s') →
  wp (om_tag_add t) Q s.
Proof.
  intros Hinv Hg Hw HQ. unfold om_tag_add, om_tag_find_by_name. apply wp_bind, wp_gets. rewrite Hg.
  destruct (find_tag (tname t) false (om_tags s)) as [i|] eqn:Hf.
  - apply wp_ret. pose proof Hf as (k & v & Hi)%find_tag_some.
    assert (tag_vals (om_tags s) (tname t) false = Some v) as Hv by (unfold tag_vals; by rewrite Hf, Hi).
    specialize (HQ s Hinv). rewrite Hv in HQ. apply HQ. intros n. case_decide; [|done]. subst n. by rewrite Hv.
  - assert (tag_vals (om_tags s) (tname t) false = None) as Hv by (unfold tag_vals; by rewrite Hf).
    rewrite Hv in HQ. apply wp_bind, wp_modify, wp_bind, wp_service. intros ev. simpl.
    destruct (insert_tag (om_tags s) t) as [Hok' Hv']; [apply Hinv|done|by rewrite Hg|].
    apply wp_bind, wp_bind. eapply (refresh_inv 1 s); [done|done|done| | |].
    + intros n. simpl. rewrite Hv', Hg. by rewrite decide_False by congruence.
    + intros n Hne. simpl. rewrite Hv', Hg. by rewrite decide_False by congruence.
    + intros s' Hinv' [_ Hpl]. apply wp_ret, wp_ret, HQ; [done|]. intros n. rewrite Hpl. simpl.
      rewrite Hv', Hg. destruct (decide (n = tname t)) as [->|]; [by rewrite decide_True, Hv|].
      by rewrite decide_False by congruence.
Qed.

Lemma om_tag_remove_plain s i k n v (Q : bool → pt_state → Prop) :
  pt_inv s → om_tags s !! i = Some (k, Tag n false v) →
  (∀ s', pt_inv s' →
    (∀ n', tag_vals (om_tags s') n' false = if decide (n' = n) then None else tag_vals (om_tags s) n' false) →
    Q true s') →
  wp (om_tag_remove i) Q s.
Proof.
  intros Hinv Hi HQ. unfold om_tag_remove. apply wp_bind. eapply wp_tag_at; [done|].
  apply wp_bind, wp_modify, wp_bind, wp_service. intros ev. simpl.
  destruct (remove_tag (om_tags s) i k n false v) as [Hok' Hv']; [apply Hinv|done|].
  apply wp_bind, wp_bind. eapply (refresh_inv 1 s); [done|done|done| | |].
  - intros n'. simpl. rewrite Hv'. by rewrite decide_False by congruence.
  - intros n' Hne. simpl. rewrite Hv'. by rewrite decide_False by congruence.
  - intros s' Hinv' [_ Hpl]. apply wp_ret, wp_ret, HQ; [done|]. intros n'. rewrite Hpl. simpl. rewrite Hv'.
    destruct (decide (n' = n)) as [->|]; [by rewrite decide_True|by rewrite decide_False by congruence].
Qed.

Lemma om_tag_update_plain s i k n v w (Q : bool → pt_state → Prop) :
  pt_inv s → om_tags s !! i = Some (k, Tag n false v) → wf w →
  (∀ s', pt_inv s' →
    (∀ n', tag_vals (om_tags s') n' false = if decide (n' = n) then Some w else tag_vals (om_tags s) n' false) →
    Q true s') →
  wp (om_tag_update i w) Q s.
Proof.
  intros Hinv Hi Hw HQ. unfold om_tag_update. cbn [tag_update]. apply wp_bind. eapply wp_tag_at; [done|].
  apply wp_bind, wp_service. intros ev. apply wp_bind, wp_modify. unfold with_tags. simpl.
  rewrite (set_values _ _ _ _ _ _ _ (inv_tags s Hinv) Hi Hw).
  destruct (alter_tag (om_tags s) i k n false v w (inv_tags s Hinv) Hi Hw) as [Hok' Hv'].
  apply wp_bind, wp_bind. eapply (refresh_inv 0 s); [done|done|done| | |].
  - intros n'. simpl. rewrite Hv'. by rewrite decide_False by congruence.
  - intros n' Hne. simpl. rewrite Hv'. by rewrite decide_False by congruence.
  - intros s' Hinv' [_ Hpl]. apply wp_ret, wp_ret, HQ; [done|]. intros n'. rewrite Hpl. simpl. rewrite Hv'.
    destruct (decide (n' = n)) as [->|]; [by rewrite decide_True|by rewrite decide_False by congruence].
Qed.

Lemma gs_alter_wf (gs : list (string * om_tag_group_t)) i (f : om_tag_group_t → om_tag_group_t) :
  wf gs → wf (alter (λ g, (g.1, f g.2)) i gs).
Proof. apply alter_wf. Qed.

(** Adding a group: its tag is created with the values of its members. *)
Lemma om_tag_group_add_inv s sg :
  pt_inv s → wp (om_tag_group_add_from_schema sg) (λ _ s', pt_inv s' ∧
    ∀ n, tag_vals (om_tags s') n false = tag_vals (om_tags s) n false) s.
Proof.
  intros Hinv. unfold om_tag_group_add_from_schema, om_tag_group_find_by_name. apply wp_bind, wp_gets.
  pose proof (find_map (sgroup_name sg) _ (inv_sorted s Hinv)) as Hf.
  destruct (tree_find (sgroup_name sg) (om_tag_groups s)) as [i|]; [by apply wp_ret|].
  destruct Hf as [Hnew _]. set (g := Group _ _). apply wp_bind, wp_modify, wp_bind.
  unfold om_tag_group_append_members. apply wp_bind, wp_gets, wp_ret. simpl.
  change (foldl (append_member (om_tags s)) [] (om_tag_group_create_list_from_schema sg))
    with (group_values (om_tags s) g).
  assert (tag_vals (om_tags s) (sgroup_name sg) true = None) as Hnone.
  { destruct (tag_vals (om_tags s) (sgroup_name sg) true) as [v|] eqn:Hv; [|done].
    apply (inv_group s Hinv) in Hv as (e & He & Hn). destruct Hnew. 
    rewrite <- Hn, <- (inv_key s Hinv e He). by apply list_elem_of_fmap_2. }
  unfold om_tag_add, om_tag_find_by_name. apply wp_bind, wp_gets. simpl.
  assert (find_tag (sgroup_name sg) true (om_tags s) = None) as ->.
  { unfold tag_vals in Hnone. destruct (find_tag _ _ _) eqn:Hf; [|done].
    apply find_tag_some in Hf as (? & ? & Hi). by rewrite Hi in Hnone. }
  apply wp_bind, wp_modify, wp_bind, wp_service. intros ev. apply wp_bind, wp_ret, wp_ret. simpl.
  destruct (insert_tag (om_tags s) (Tag (sgroup_name sg) true (group_values (om_tags s) g))) as [Hok' Hv'];
    [apply Hinv|by apply group_values_wf, Hinv|done|]. cbn [tname tgroup values] in *.
  set (ts' := tr_insert _ _ (om_tags s)) in *.
  assert (∀ e, group_values ts' e = group_values (om_tags s) e) as Hgv.
  { intros e. apply group_values_ext. intros n _. rewrite Hv'. by rewrite decide_False by congruence. }
  split.
  2: { intros n. simpl. rewrite Hv'. by rewrite decide_False by congruence. }
  split; simpl; [done| | | |].
  - apply tr_insert_wf; [apply Hinv|done].
  - intros e. rewrite tr_insert_perm. intros [->|He]%elem_of_cons; [done|by apply (inv_key s Hinv)].
  - intros e. rewrite tr_insert_perm. intros [->|He]%elem_of_cons; rewrite Hv', Hgv; simpl.
    + by rewrite decide_True.
    + rewrite decide_False; [by apply (inv_tag s Hinv)|]. intros [= Hn]. destruct Hnew.
       rewrite <- Hn, <- (inv_key s Hinv e He).
      by apply list_elem_of_fmap_2.
  - intros n v. rewrite Hv'. setoid_rewrite tr_insert_perm. setoid_rewrite elem_of_cons.
    case_decide as Hd; [injection Hd as ->; intros _; exists (sgroup_name sg, g); auto|].
    intros (e & He & Hn)%(inv_group s Hinv). eauto.
Qed.

(** Removing a group removes its tag. *)
Lemma om_tag_group_remove_inv s sg :
  pt_inv s → wp (om_tag_group_remove_from_schema sg) (λ _ s', pt_inv s' ∧
    ∀ n, tag_vals (om_tags s') n false = tag_vals (om_tags s) n false) s.
Proof.
  intros Hinv. unfold om_tag_group_remove_from_schema, om_tag_group_find_by_name. apply wp_bind, wp_gets.
  pose proof (find_map (sgroup_name sg) _ (inv_sorted s Hinv)) as Hf.
  destruct (tree_find (sgroup_name sg) (om_tag_groups s)) as [gi|]; [|by apply wp_ret].
  destruct Hf as (g & Hgi & _). apply wp_bind. eapply wp_group_at; [done|].
  pose proof (list_elem_of_lookup_2 _ _ _ Hgi) as Hel.
  pose proof (inv_key s Hinv _ Hel) as Hname. pose proof (inv_tag s Hinv _ Hel) as Htag. simpl in Hname, Htag.
  apply wp_bind, wp_modify, wp_bind, wp_gets. simpl.
  destruct (find_tag (gname g) true (om_tags s)) as [i|] eqn:Hfd.
  2: { unfold tag_vals in Htag. by rewrite Hfd in Htag. }
  pose proof Hfd as (k & v & Hi)%find_tag_some. apply wp_bind. unfold om_tag_remove. apply wp_bind.
  eapply wp_tag_at; [done|]. apply wp_bind, wp_modify, wp_bind, wp_service. intros ev.
  apply wp_bind, wp_ret, wp_ret, wp_ret. simpl.
  destruct (remove_tag (om_tags s) i k (gname g) true v (inv_tags s Hinv) Hi) as [Hok' Hv'].
  assert (∀ e, group_values (tr_remove i (om_tags s)) e = group_values (om_tags s) e) as Hgv.
  { intros e. apply group_values_ext. intros n _. rewrite Hv'. by rewrite decide_False by congruence. }
  pose proof (inv_names s Hinv) as Hnd.
  assert (∀ e, e ∈ tr_remove gi (om_tag_groups s) ↔ e ∈ om_tag_groups s ∧ gname e.2 ≠ gname g) as Hrem.
  { intros e. pose proof (tr_remove_map _ _ _ _ (inv_sorted s Hinv) Hgi) as Hm.
    pose proof (tr_remove_wf _ gi (inv_sorted s Hinv)) as Hwf.
    destruct e as [ke e]. rewrite <- (to_map_elem (tr_remove gi _)), Hm, lookup_delete_Some by done.
    rewrite to_map_elem by apply Hinv. split.
    - intros [Hne Hin]. split; [done|]. pose proof (inv_key s Hinv _ Hin). simpl in *. congruence.
    - intros [Hin Hne]. split; [|done]. pose proof (inv_key s Hinv _ Hin). simpl in *. congruence. }
  split.
  2: { intros n. simpl. rewrite Hv'. by rewrite decide_False by congruence. }
  split; simpl; [done| | | |].
  - by apply tr_remove_wf, Hinv.
  - intros e [He _]%Hrem. by apply (inv_key s Hinv).
  - intros e [He Hne]%Hrem. rewrite Hv', Hgv, decide_False by congruence. by apply (inv_tag s Hinv).
  - intros n v'. rewrite Hv'. case_decide as Hd; [done|].
    intros (e & He & Hn)%(inv_group s Hinv). exists e. split; [|done]. apply Hrem. split; [done|congruence].
Qed.

(** Changing the members of a group recomputes its tag. *)
Lemma om_tag_group_update_inv s sg :
  pt_inv s → wp (om_tag_group_update_from_schema sg) (λ _ s', pt_inv s' ∧
    ∀ n, tag_vals (om_tags s') n false = tag_vals (om_tags s) n false) s.
Proof.
  intros Hinv. unfold om_tag_group_update_from_schema, om_tag_group_find_by_name. apply wp_bind, wp_gets.
  pose proof (find_map (sgroup_name sg) _ (inv_sorted s Hinv)) as Hf.
  destruct (tree_find (sgroup_name sg) (om_tag_groups s)) as [gi|]; [|by apply wp_ret].
  destruct Hf as (g & Hgi & _). apply wp_bind. eapply wp_group_at; [done|].
  apply wp_bind, wp_modify, wp_bind.
  set (upd := λ g' : om_tag_group_t, Group (gname g') (om_tag_list_apply_diff (tags g')
    (om_tag_list_diff (Some (tags g)) (Some (om_tag_group_create_list_from_schema sg))))).
  set (gs' := alter (λ g, (g.1, upd g.2)) gi (om_tag_groups s)). assert (gs' !! gi = Some (sgroup_name sg, upd g)) as Hgi'.
  { unfold gs'. by rewrite list_lookup_alter_eq, Hgi. }
  eapply wp_group_at; [done|]. unfold om_tag_group_update, om_tag_update.
  eapply wp_mono; [apply group_update_spec, Hinv|]. intros _ s' (Hok' & [Hgr' Hpl'] & Hv').
  change (om_tag_groups s' = gs') in Hgr'. simpl in Hpl', Hv'. split; [|done].
  assert (∀ e, group_values (om_tags s') e = group_values (om_tags s) e) as Hgv.
  { intros e. apply group_values_ext. intros n _. apply Hpl'. }
  pose proof (inv_names s Hinv) as Hnd.
  assert (∀ e, e ∈ gs' → (e = (sgroup_name sg, upd g)) ∨ (e ∈ om_tag_groups s ∧ gname e.2 ≠ gname g)) as Hel.
  { intros e [j Hj]%list_elem_of_lookup. destruct (decide (j = gi)) as [->|Hne]; [left; congruence|right].
    unfold gs' in Hj. rewrite list_lookup_alter_ne in Hj by done. split; [by apply list_elem_of_lookup_2 in Hj|].
    intros Heq. apply Hne. eapply (NoDup_lookup _ _ _ (gname g) Hnd); rewrite list_lookup_fmap, ?Hj, ?Hgi; simpl; congruence. }
  pose proof (list_elem_of_lookup_2 _ _ _ Hgi) as Hg.
  pose proof (inv_key s Hinv _ Hg) as Hname. pose proof (inv_tag s Hinv _ Hg) as Htag. simpl in Hname, Htag.
  split; rewrite ?Hgr'; [done| | | |].
  - apply (gs_alter_wf _ gi upd), Hinv.
  - intros e [->|[He _]]%Hel; [done|by apply (inv_key s Hinv)].
  - intros e [->|[He Hne]]%Hel; rewrite Hv', Hgv; simpl.
    + rewrite decide_True; [done|]. by rewrite Htag.
    + rewrite decide_False by naive_solver. by apply (inv_tag s Hinv).
  - intros n v. rewrite Hv'. intros Hn.
    assert (is_Some (tag_vals (om_tags s) n true)) as [v' (e & He & Hen)%(inv_group s Hinv)].
    { case_decide as Hd; [|eauto]. destruct Hd as [_ Hd]. destruct (tag_vals (om_tags s) n true); [eauto|done]. }
    apply list_elem_of_lookup in He as [j Hj]. destruct (decide (j = gi)) as [->|Hne].
    + exists (sgroup_name sg, upd g). split; [by apply list_elem_of_lookup_2 in Hgi'|]. rewrite Hgi in Hj. injection Hj as <-. exact Hen.
    + exists e. split; [|done]. apply list_elem_of_lookup. exists j. unfold gs'.
      by rewrite list_lookup_alter_ne.
Qed.
End tags.
