(* ===== verification/PolicyTagsProps.v ===== *)
(** What policy tags promise. *)
From Stdlib Require Import Ascii.
From S2P Require Import Prelude DsTree DsTreeInv PolicyTags PolicyTagsRep PolicyTagsInv.

(** *** Templates *)

(** Which values of a tag a template asks for. *)
Inductive source := src_any | src_device | src_cloud | src_local.
Definition src_flag (s : source) : Z :=
  match s with
  | src_any => 0
  | src_device => OM_TLE_FLAG_DEVICE
  | src_cloud => OM_TLE_FLAG_CLOUD
  | src_local => OM_TLE_FLAG_LOCAL
  end.
Definition src_prefix (s : source) : string :=
  match s with src_any => "" | src_device => "@" | src_cloud => "#" | src_local => "*" end.

(** A template for the tag or the tag group [name]. *)
Definition template (group : bool) (src : source) (name : string) : string :=
  if group then "$[" +:+ src_prefix src +:+ name +:+ "]" else "${" +:+ src_prefix src +:+ name +:+ "}".

(** The name does not start with a source character. *)
Definition plain_name (name : string) : bool :=
  negb (char_at 0 name "@"%char || char_at 0 name "#"%char || char_at 0 name "*"%char).

Lemma sapp_nil b : "" +:+ b = b.
Proof. done. Qed.
Lemma sapp_cons c a b : String c a +:+ b = String c (a +:+ b).
Proof. done. Qed.
Lemma length_sapp a b : String.length (a +:+ b) = String.length a + String.length b.
Proof. induction a as [|c a IH]; [done|]. rewrite sapp_cons. simpl. by rewrite IH. Qed.
Lemma get_snoc a c : String.get (String.length a) (a +:+ String c "") = Some c.
Proof. induction a as [|d a IH]; [done|]. by rewrite sapp_cons. Qed.
Lemma substring_prefix a b : String.substring 0 (String.length a) (a +:+ b) = a.
Proof. induction a as [|c a IH]; [by destruct b|]. rewrite sapp_cons. simpl. by rewrite IH. Qed.

Lemma skip_2 c d s : skip 2 (String c (String d s)) = s.
Proof. unfold skip. simpl. rewrite Nat.sub_0_r. by apply substring_full. Qed.

Lemma copy_name_closed name c :
  String.length name ≤ 255 → copy_name (name +:+ String c "") = name.
Proof.
  intros Hlen. unfold copy_name. rewrite length_sapp. simpl String.length.
  rewrite Nat.min_l by lia. rewrite (proj2 (Nat.eqb_neq _ _)) by lia.
  rewrite Nat.add_sub, Nat.min_l by lia. apply substring_prefix.
Qed.

Definition close (group : bool) : ascii := if group then "]"%char else "}"%char.
Lemma template_shape group src name :
  template group src name =
    String "$"%char (String (if group then "["%char else "{"%char)
      (src_prefix src +:+ name +:+ String (close group) "")).
Proof. by destruct group. Qed.

Lemma sapp_assoc a b c : a +:+ (b +:+ c) = (a +:+ b) +:+ c.
Proof. induction a as [|d a IH]; [done|]. by rewrite !sapp_cons, IH. Qed.

Lemma template_type group src name :
  om_tag_get_type (Some (template group src name)) =
    if group then OPENSYNC_GROUP_TAG else OPENSYNC_TAG.
Proof.
  rewrite template_shape, sapp_assoc. set (body := src_prefix src +:+ name). cbn [om_tag_get_type].
  change (char_at 0 (String "$"%char _) "$"%char) with true. cbn [negb].
  cbn [String.length]. rewrite length_sapp. simpl String.length.
  rewrite (proj2 (Nat.ltb_ge _ _)) by lia.
  replace (S (S (String.length body + 1)) - 1) with (S (S (String.length body))) by lia.
  assert (∀ d, char_at (S (S (String.length body))) (String "$"%char (String (if group then "["%char else "{"%char)
    (body +:+ String (close group) ""))) d = bool_decide (close group = d)) as Hlast.
  { intros d. unfold char_at. simpl. rewrite get_snoc. apply bool_decide_ext. naive_solver. }
  rewrite !Hlast. by destruct group.
Qed.

Lemma template_split group src name :
  String.length name ≤ 255 → (src = src_any → plain_name name = true) →
  split_template (template group src name) = (name, src_flag src).
Proof.
  intros Hlen Hplain. unfold split_template. rewrite template_shape, skip_2.
  destruct src; cbn [src_prefix]; rewrite ?sapp_cons, ?sapp_nil; simpl;
    rewrite ?copy_name_closed by done; try done.
  specialize (Hplain eq_refl). destruct name as [|c n]; [by destruct group|].
  unfold plain_name, char_at in Hplain. simpl in Hplain.
  pose proof (copy_name_closed (String c n) (close group) Hlen) as Hcopy. rewrite sapp_cons in Hcopy |- *.
  destruct c as [[] [] [] [] [] [] [] []]; first [rewrite Hcopy; done | by vm_compute in Hplain].
Qed.

Section props.
Context `{TreeFindLaws}.

(** Lookup in the tag a template names. *)
Lemma om_tag_in_spec s group src name v :
  tags_ok (om_tags s) → String.length name ≤ 255 → (src = src_any → plain_name name = true) →
  ∃ b, om_tag_in (Some v) (Some (template group src name)) s = Some (b, s) ∧
    (b = true ↔ ∃ vals f, tag_vals (om_tags s) name group = Some vals ∧ (v, f) ∈ vals ∧
      flags_skip (src_flag src) f = false).
Proof.
  intros Hok Hlen Hplain.
  assert (om_tag_in (Some v) (Some (template group src name)) =
    (tag ← om_tag_find_by_name name group;
     match tag with
     | None => mret false
     | Some i =>
         tag ← tag_at i;
         match om_tag_list_entry_find_by_value (values tag) v with
         | None => mret false
         | Some j =>
             e ← deref (values tag !! j);
             if flags_skip (src_flag src) e.2 then mret false else mret true
         end
     end)) as ->.
  { unfold om_tag_in. rewrite template_type, (template_split _ _ _ Hlen Hplain). by destruct group. }
  unfold om_tag_find_by_name, gets, mbind, M_bind. unfold tag_vals.
  destruct (find_tag name group (om_tags s)) as [i|] eqn:Hf.
  2: { exists false. split; [done|]. split; [done|]. intros (? & ? & ? & _). done. }
  pose proof Hf as (k & vals & Hi)%find_tag_some. unfold tag_at, gets, mbind, M_bind. rewrite Hi. simpl.
  pose proof (tags_wf _ Hok _ (list_elem_of_lookup_2 _ _ _ Hi)) as Hwf. simpl in Hwf.
  pose proof (find_map v vals Hwf) as Hfv. unfold om_tag_list_entry_find_by_value.
  destruct (tree_find v vals) as [j|].
  - destruct Hfv as (f & Hj & Hmap). rewrite Hj. simpl.
    exists (negb (flags_skip (src_flag src) f)).
    split; [by destruct (flags_skip _ f)|]. rewrite negb_true_iff. split.
    + intros Hs. exists vals, f. split_and!; [done| |done]. by apply to_map_elem.
    + intros (vals' & f' & [= <-] & Hin & Hs). apply to_map_elem in Hin; [|done]. congruence.
  - destruct Hfv as [Hn _]. exists false. split; [done|]. split; [done|].
    intros (vals' & f & [= <-] & Hin & _). destruct Hn. by apply (list_elem_of_fmap_2 fst) in Hin.
Qed.

(** A value of a group comes from one of its members. *)
Lemma join_flags_is_some a b : is_Some (join_flags a b) ↔ is_Some a ∨ is_Some b.
Proof.
  destruct a, b; simpl; split; eauto; intros [[? ?]|[? ?]]; done.
Qed.

Lemma group_values_elem ts g v :
  tags_ok ts →
  v ∈ (group_values ts g).*1 ↔
    ∃ e vals f, e ∈ tags g ∧ tag_vals ts e.1 false = Some vals ∧ (v, f) ∈ vals ∧ flags_skip e.2 f = false.
Proof.
  intros Hok. unfold group_values.
  assert (∀ es dest, wf dest → wf (foldl (append_member ts) dest es) ∧
    (is_Some (to_map (foldl (append_member ts) dest es) !! v) ↔ is_Some (to_map dest !! v) ∨
      ∃ e vals f, e ∈ es ∧ tag_vals ts e.1 false = Some vals ∧ (v, f) ∈ vals ∧ flags_skip e.2 f = false)) as Hgen.
  { induction es as [|e es IH]; intros dest Hd; cbn [foldl].
    { split; [done|]. set_solver. }
    assert (wf (append_member ts dest e) ∧ (is_Some (to_map (append_member ts dest e) !! v) ↔
      is_Some (to_map dest !! v) ∨ ∃ vals f, tag_vals ts e.1 false = Some vals ∧ (v, f) ∈ vals ∧
        flags_skip e.2 f = false)) as [Hw Hiff].
    { rewrite append_member_vals. destruct (tag_vals ts e.1 false) as [vals|] eqn:Hv.
      2: { split; [done|]. naive_solver. }
      pose proof (tag_vals_wf _ _ _ _ Hok Hv) as Hwf.
      destruct (append_list_spec e.2 vals dest Hd Hwf) as [Hw Hm]. split; [done|]. rewrite Hm, join_flags_is_some.
      apply or_iff_compat_l. split.
      - intros [f Hf]. apply bind_Some in Hf as (f' & Hf' & Hk). unfold kept in Hk.
        destruct (flags_skip e.2 f') eqn:Hs; [done|]. exists vals, f'. split_and!; [done| |done].
        by apply to_map_elem.
      - intros (vals' & f & [= <-] & Hin & Hs). apply to_map_elem in Hin; [|done]. rewrite Hin. simpl.
        unfold kept. rewrite Hs. eauto. }
    destruct (IH _ Hw) as [Hw2 Hiff2]. split; [done|]. rewrite Hiff2, Hiff. split.
    - intros [[?|(vals & f & ?)]|(e' & vals & f & He & ?)]; [by left|right..].
      + exists e, vals, f. set_solver.
      + exists e', vals, f. set_solver.
    - intros [?|(e' & vals & f & He & Hrest)]; [tauto|]. apply elem_of_cons in He as [->|He]; [|eauto 10].
      left. right. eauto. }
  rewrite elem_keys, not_eq_None_Some.
  destruct (Hgen (tags g) [] wf_nil) as [_ ->]. split; [intros [[? ?]|?]; done|by right].
Qed.

(** C25. A difference of two tag lists is exact and replaying it is a round trip:
    for all sorted lists without duplicate values, [om_tag_list_diff] puts a value
    in [removed], [added] or [updated] exactly when it is only in the old list,
    only in the new list, or in both with different flags, and
    [om_tag_list_apply_diff] of it turns the old list into the new one. *)
Theorem om_tag_list_diff_roundtrip old new :
  wf old → wf new →
  let d := om_tag_list_diff (Some old) (Some new) in
  om_tag_list_apply_diff old d = new ∧
  (∀ v, v ∈ (removed d).*1 ↔ v ∈ old.*1 ∧ v ∉ new.*1) ∧
  (∀ v, v ∈ (added d).*1 ↔ v ∉ old.*1 ∧ v ∈ new.*1) ∧
  (∀ v f, (v, f) ∈ updated d ↔ (v, f) ∈ new ∧ ∃ f', (v, f') ∈ old ∧ f' ≠ f).
Proof.
  intros Ho Hn d. destruct (diff_maps old new Ho Hn) as (Hr & Ha & Hu & Hd). fold d in Hr, Ha, Hu, Hd.
  split_and!; [by apply diff_apply| | |].
  - intros v. rewrite !elem_keys. rewrite (proj1 (Hd v)).
    destruct (to_map old !! v), (to_map new !! v); naive_solver.
  - intros v. rewrite !elem_keys. rewrite (proj1 (proj2 (Hd v))).
    destruct (to_map old !! v), (to_map new !! v); naive_solver.
  - intros v f. rewrite <- (to_map_elem (updated d)) by done. rewrite <- (to_map_elem new) by done.
    setoid_rewrite <- (to_map_elem old); [|done]. rewrite (proj2 (proj2 (Hd v))).
    destruct (to_map old !! v), (to_map new !! v); try case_decide; naive_solver.
Qed.

(** The row changes the library handles. *)
Inductive tag_op :=
| TagAdd (r : schema_Openflow_Tag) | TagRemove (r : schema_Openflow_Tag) | TagUpdate (r : schema_Openflow_Tag)
| LocalAdd (r : schema_Openflow_Local_Tag) | LocalRemove (r : schema_Openflow_Local_Tag)
| LocalUpdate (r : schema_Openflow_Local_Tag)
| GroupAdd (r : schema_Openflow_Tag_Group) | GroupRemove (r : schema_Openflow_Tag_Group)
| GroupUpdate (r : schema_Openflow_Tag_Group).

Definition run_op (op : tag_op) : M pt_state bool :=
  match op with
  | TagAdd r => om_tag_add_from_schema r
  | TagRemove r => om_tag_remove_from_schema r
  | TagUpdate r => om_tag_update_from_schema r
  | LocalAdd r => om_local_tag_add_from_schema r
  | LocalRemove r => om_local_tag_remove_from_schema r
  | LocalUpdate r => om_local_tag_update_from_schema r
  | GroupAdd r => om_tag_group_add_from_schema r
  | GroupRemove r => om_tag_group_remove_from_schema r
  | GroupUpdate r => om_tag_group_update_from_schema r
  end.

(** The columns of a row are sets. *)
Definition valid_op (op : tag_op) : Prop :=
  match op with
  | TagAdd r | TagUpdate r => NoDup (device_value r)
  | LocalAdd r | LocalUpdate r => NoDup (local_values r)
  | _ => True
  end.

Definition pt_init (mgr : bool) : pt_state := Pt [] [] mgr [].

Lemma pt_init_inv mgr : pt_inv (pt_init mgr).
Proof.
  split; simpl; try set_solver.
  - split; [apply NoDup_nil_2|set_solver].
  - apply wf_nil.
Qed.

Lemma remove_op name s :
  pt_inv s →
  wp (tag ← om_tag_find_by_name name false;
      match tag with None => mret false | Some i => om_tag_remove i end) (λ _ s', pt_inv s') s.
Proof.
  intros Hinv. unfold om_tag_find_by_name. apply wp_bind, wp_gets.
  destruct (find_tag name false (om_tags s)) as [i|] eqn:Hf; [|by apply wp_ret].
  apply find_tag_some in Hf as (k & v & Hi). by eapply om_tag_remove_plain.
Qed.
Lemma update_op name s w :
  pt_inv s → wf w →
  wp (tag ← om_tag_find_by_name name false;
      match tag with None => mret false | Some i => om_tag_update i w end) (λ _ s', pt_inv s') s.
Proof.
  intros Hinv Hw. unfold om_tag_find_by_name. apply wp_bind, wp_gets.
  destruct (find_tag name false (om_tags s)) as [i|] eqn:Hf; [|by apply wp_ret].
  apply find_tag_some in Hf as (k & v & Hi). by eapply om_tag_update_plain.
Qed.

Lemma run_op_inv s op : pt_inv s → valid_op op → wp (run_op op) (λ _ s', pt_inv s') s.
Proof.
  intros Hinv Hval. destruct op as [r|r|r|r|r|r|r|r|r]; simpl in *.
  - eapply om_tag_add_plain; [done|done|by apply schema_list_wf|done].
  - by apply remove_op.
  - apply update_op; [done|by apply schema_list_wf].
  - eapply om_tag_add_plain; [done|done|by apply local_list_wf|done].
  - by apply remove_op.
  - apply update_op; [done|by apply local_list_wf].
  - eapply wp_mono; [by apply om_tag_group_add_inv|]. by intros _ s' [? _].
  - eapply wp_mono; [by apply om_tag_group_remove_inv|]. by intros _ s' [? _].
  - eapply wp_mono; [by apply om_tag_group_update_inv|]. by intros _ s' [? _].
Qed.

(** The states after any sequence of row changes. *)
Fixpoint run_ops (ops : list tag_op) (s : pt_state) : option pt_state :=
  match ops with
  | [] => Some s
  | op :: ops => match run_op op s with Some (_, s') => run_ops ops s' | None => None end
  end.

Lemma run_ops_inv ops s :
  pt_inv s → Forall valid_op ops → ∃ s', run_ops ops s = Some s' ∧ pt_inv s'.
Proof.
  revert s. induction ops as [|op ops IH]; intros s Hinv Hval; [eauto|].
  apply Forall_cons in Hval as [Hop Hval]. simpl.
  destruct (proj1 (wp_some _ _ _) (run_op_inv s op Hinv Hop)) as (b & s1 & -> & Hinv1). by apply IH.
Qed.

(** C26. After any sequence of additions, removals and updates of tags, local
    tags and tag groups, none of which faults, the group tags are up to date:
    there is one group tag per group, and its values are exactly the values of
    the group's member tags that pass the member's source filter, with the flags
    combined.  A change of a tag reaches all groups it is a member of. *)
Theorem group_tags_follow_members ops mgr :
  Forall valid_op ops →
  ∃ s, run_ops ops (pt_init mgr) = Some s ∧
    (∀ n v, tag_vals (om_tags s) n true = Some v →
      ∃ e, e ∈ om_tag_groups s ∧ gname e.2 = n ∧ v = group_values (om_tags s) e.2) ∧
    (∀ e, e ∈ om_tag_groups s →
      tag_vals (om_tags s) (gname e.2) true = Some (group_values (om_tags s) e.2)) ∧
    ∀ e v, e ∈ om_tag_groups s → v ∈ (group_values (om_tags s) e.2).*1 ↔
      ∃ m vals f, m ∈ tags e.2 ∧ tag_vals (om_tags s) m.1 false = Some vals ∧
        (v, f) ∈ vals ∧ flags_skip m.2 f = false.
Proof.
  intros Hval. destruct (run_ops_inv ops _ (pt_init_inv mgr) Hval) as (s & Hrun & Hinv).
  exists s. split_and!; [done| |apply Hinv|].
  - intros n v Hv. destruct (inv_group s Hinv n v Hv) as (e & He & Hn). exists e. split_and!; [done|done|].
    pose proof (inv_tag s Hinv e He) as Ht. rewrite Hn in Ht. congruence.
  - intros e v He. apply group_values_elem, Hinv.
Qed.

(** [om_tag_in] decides membership for every template: for a tag or group
    name of at most 255 characters and each source (any, device, cloud, local),
    it returns true exactly when there is such a tag and it has the value with a
    matching flag; it changes nothing and does not fault. *)
Theorem om_tag_in_correct s group src name v :
  pt_inv s → String.length name ≤ 255 → (src = src_any → plain_name name = true) →
  ∃ b, om_tag_in (Some v) (Some (template group src name)) s = Some (b, s) ∧
    (b = true ↔ ∃ vals f, tag_vals (om_tags s) name group = Some vals ∧ (v, f) ∈ vals ∧
      (src = src_any ∨ Z.land f (src_flag src) ≠ 0%Z)).
Proof.
  intros Hinv Hlen Hplain.
  destruct (om_tag_in_spec s group src name v (inv_tags s Hinv) Hlen Hplain) as (b & Hrun & Hb).
  exists b. split; [done|]. rewrite Hb.
  assert (∀ f, flags_skip (src_flag src) f = false ↔ src = src_any ∨ Z.land f (src_flag src) ≠ 0%Z) as Hfl.
  { intros f. unfold flags_skip. rewrite andb_false_iff, negb_false_iff, Z.eqb_eq, Z.eqb_neq.
    split; (intros [Hs|]; [left|by right]); destruct src; done. }
  by setoid_rewrite Hfl.
Qed.

(** Updating a group loses a member that is listed with two sources: the
    update of a group from the device values of a tag to its device and cloud
    values leaves a single member, whatever entry the lookup returns, although
    the new list has two. *)
Theorem om_tag_group_update_loses_source (t name : string) :
  let old := om_tag_group_create_list_from_schema (SGroup name [String "@"%char t]) in
  let new := om_tag_group_create_list_from_schema (SGroup name [String "@"%char t; String "#"%char t]) in
  length new = 2 ∧ length (om_tag_list_apply_diff old (om_tag_list_diff (Some old) (Some new))) = 1.
Proof.
  intros old new. assert (old = [(t, OM_TLE_FLAG_DEVICE)]) as Hold by done.
  assert (new = [(t, OM_TLE_FLAG_CLOUD); (t, OM_TLE_FLAG_DEVICE)]) as Hnew.
  { unfold new, om_tag_group_create_list_from_schema, om_tag_list_entry_add. simpl.
    by rewrite (proj2 (Z.ltb_ge _ _)) by (rewrite (cmp_refl ds_str_cmp); done). }
  rewrite Hold, Hnew. clear old new Hold Hnew. split; [done|].
  assert (∀ l : tag_list, t ∈ l.*1 → in_list (Some l) t = true) as Hin.
  { intros l Hl. unfold in_list, om_tag_list_entry_find_by_value.
    destruct (tree_find t l) eqn:Hf; [done|]. by apply tree_find_none in Hf. }
  unfold om_tag_list_diff. cbn [foldl]. unfold diff_add. cbn [fst].
  rewrite !Hin by set_solver. cbn [negb].
  unfold om_tag_list_apply_diff. cbn [removed added updated foldl].
  assert (∀ ds l, length (foldl apply_update l ds) = length l) as Hlen.
  { induction ds as [|d ds IH]; intros l; [done|]. cbn [foldl]. rewrite IH. unfold apply_update.
    destruct (om_tag_list_entry_find_by_value l d.1); [by rewrite length_alter|done]. }
  by rewrite Hlen.
Qed.
End props.

(** *** Witnesses *)

(** A lookup that returns the first entry with the key. *)
#[export] Instance find_first : TreeFind := λ A k l, fst <$> list_find (λ e, e.1 = k) l.
#[export] Instance find_first_laws : TreeFindLaws.
Proof.
  split; intros A k l; unfold tree_find, find_first.
  - intros i Hf. destruct (list_find _ l) as [[j [k' a]]|] eqn:Hl; [|done]. injection Hf as <-.
    apply list_find_Some in Hl as (Hj & Hk & _). simpl in Hk. subst. eauto.
  - intros Hf. destruct (list_find _ l) eqn:Hl; [done|]. apply list_find_None in Hl.
    intros (e & -> & He)%list_elem_of_fmap. rewrite Forall_forall in Hl. by apply (Hl e He).
Qed.

Lemma om_tag_list_diff_roundtrip_witness :
  let old := [("a", 1%Z); ("b", 1%Z)] in
  let new := [("b", 4%Z); ("c", 1%Z)] in
  om_tag_list_apply_diff old (om_tag_list_diff (Some old) (Some new)) = new.
Proof.
  apply (om_tag_list_diff_roundtrip [("a", 1%Z); ("b", 1%Z)] [("b", 4%Z); ("c", 1%Z)]).
  - repeat constructor.
  - repeat constructor.
Defined.

Lemma group_tags_follow_members_witness :
  ∃ s, run_ops [TagAdd (STag "t" ["x"] ["y"]); GroupAdd (SGroup "g" ["#t"])] (pt_init true) = Some s ∧
    ∀ e, e ∈ om_tag_groups s →
      tag_vals (om_tags s) (gname e.2) true = Some (group_values (om_tags s) e.2).
Proof.
  destruct (group_tags_follow_members [TagAdd (STag "t" ["x"] ["y"]); GroupAdd (SGroup "g" ["#t"])] true)
    as (s & Hrun & _ & Htag & _).
  - constructor; [apply NoDup_singleton|]. constructor; [exact I|constructor].
  - exists s. split; [exact Hrun|exact Htag].
Defined.

Lemma om_tag_in_correct_witness :
  ∃ b, om_tag_in (Some "x") (Some (template false src_device "t")) (pt_init true) = Some (b, pt_init true).
Proof.
  destruct (om_tag_in_correct (pt_init true) false src_device "t" "x") as (b & Hrun & _).
  - apply pt_init_inv.
  - simpl. lia.
  - discriminate.
  - exists b. exact Hrun.
Defined.

Lemma om_tag_group_update_loses_source_witness :
  let old := om_tag_group_create_list_from_schema (SGroup "g" ["@t"]) in
  let new := om_tag_group_create_list_from_schema (SGroup "g" ["@t"; "#t"]) in
  length new = 2 ∧ length (om_tag_list_apply_diff old (om_tag_list_diff (Some old) (Some new))) = 1.
Proof. exact (om_tag_group_update_loses_source "t" "g"). Defined.
