(* ===== verification/FcmFilter.v ===== *)
(** Flow filters: the evaluation of filter rules (src/lib/fcm_filter/src/fcm_filter.c).

    A rule has a condition per attribute of a flow: a set of values and an
    operation, "in" or "out".  Here are the conditions and their conjunction for
    one rule; the tables of rules are in [FcmFilterMgr]. *)
From S2P Require Import Prelude PolicyTags.

(** *** Enumerations (fcm_filter.h) *)
Inductive fcm_verdict := FCM_DEFAULT_FALSE | FCM_DEFAULT_TRUE | FCM_RULED_FALSE | FCM_RULED_TRUE.
Inductive fcm_action := FCM_EXCLUDE | FCM_INCLUDE | FCM_DEFAULT_INCLUDE.
Inductive fcm_op := FCM_OP_NONE | FCM_OP_IN | FCM_OP_OUT.
Inductive fcm_math_op :=
  | FCM_MATH_NONE | FCM_MATH_LT | FCM_MATH_LEQ | FCM_MATH_GT | FCM_MATH_GEQ | FCM_MATH_EQ | FCM_MATH_NEQ.
#[export] Instance fcm_verdict_eq_dec : EqDecision fcm_verdict.
Proof. solve_decision. Defined.
#[export] Instance fcm_action_eq_dec : EqDecision fcm_action.
Proof. solve_decision. Defined.
#[export] Instance fcm_op_eq_dec : EqDecision fcm_op.
Proof. solve_decision. Defined.
#[export] Instance fcm_math_op_eq_dec : EqDecision fcm_math_op.
Proof. solve_decision. Defined.

(** [appname_op] and [app_tag_op] are integers: 0 until set, and -1 for a string
    that is neither operation. *)
Definition FCM_APPNAME_OP_IN : Z := 1.
Definition FCM_APPNAME_OP_OUT : Z := 2.
Definition FCM_APPTAG_OP_IN : Z := 1.
Definition FCM_APPTAG_OP_OUT : Z := 2.

(** *** Rules and requests *)

(** [struct ip_port], 16-bit ports *)
Record ip_port := IpPort { port_min : Z; port_max : Z }.

(** [struct str_set *], [struct int_set *]: a NULL pointer or an array. *)
Abbreviation str_set := (option (list (option string))).
Abbreviation int_set := (option (list Z)).

(** [struct fcm_filter_rule] *)
Record fcm_filter_rule := Rule {
  rule_name : option string;
  index : Z;
  smac_rule_present : bool; smac_op : fcm_op; smac : str_set;
  dmac_rule_present : bool; dmac_op : fcm_op; dmac : str_set;
  vlanid_rule_present : bool; vlanid_op : fcm_op; vlanid : int_set;
  src_ip_rule_present : bool; src_ip_op : fcm_op; src_ip : str_set;
  dst_ip_rule_present : bool; dst_ip_op : fcm_op; dst_ip : str_set;
  src_port_rule_present : bool; src_port_op : fcm_op; src_port : list ip_port;
  dst_port_rule_present : bool; dst_port_op : fcm_op; dst_port : list ip_port;
  proto_rule_present : bool; proto_op : fcm_op; proto : int_set;
  pktcnt_rule_present : bool; pktcnt_op : fcm_math_op; pktcnt : Z;
  appname_present : bool; appname_op : Z; appnames : str_set;
  app_tag_present : bool; app_tag_op : Z; app_tags : str_set;
  other_config : option (list (string * string));
  action : fcm_action }.

(** [fcm_filter_l3_info_t], [fcm_filter_l2_info_t] (the fields the filter reads),
    [fcm_filter_stats_t], and the application name of each [struct flow_tags] of a
    [struct flow_key]. *)
Record fcm_filter_l3_info_t := L3 {
  l3_src_ip : string; l3_dst_ip : string; sport : Z; dport : Z; l4_proto : Z }.
Record fcm_filter_l2_info_t := L2 { l2_src_mac : string; l2_dst_mac : string; vlan_id : Z }.
Record fcm_filter_stats_t := Stats { pkt_cnt : Z }.
Record flow_key := FlowKey { flow_app_names : list (option string) }.

(** [struct fcm_filter_req]; the table is a pointer. *)
Record fcm_filter_req := Req {
  l2_info : option fcm_filter_l2_info_t;
  l3_info : option fcm_filter_l3_info_t;
  pkts : option fcm_filter_stats_t;
  req_table : option positive;
  fkey : option flow_key }.

(** Computations that read the tags. *)
Abbreviation PM := (M pt_state).

Section fcm_filter.
Context `{TreeFind}.

(** *** Conditions *)

(** [snprintf(buf, n, "%s", s)] *)
Definition snprintf_s (n : nat) (s : string) : string := String.substring 0 (n - 1) s.

(** The common body of the three tag lookups: an exact match in the tag of that
    name, or [strncmp(value, schema_tag, strlen(value)) == 0]. *)
Definition find_in_tag (value schema_tag : option string) : PM bool :=
  match schema_tag with
  | None => mret true
  | Some t =>
      rc ← om_tag_in value schema_tag;
      if (rc : bool) then mret true
      else v ← deref value; mret (String.prefix v t)
  end.
Definition fcm_find_app_names_in_tag (app_name schema_tag : option string) : PM bool :=
  find_in_tag app_name schema_tag.
Definition fcm_find_ip_addr_in_tag (ip_addr schema_tag : option string) : PM bool :=
  find_in_tag ip_addr schema_tag.
Definition fcm_find_device_in_tag (mac_s schema_tag : option string) : PM bool :=
  find_in_tag mac_s schema_tag.

(** A loop that returns true at the first element that passes the test. *)
Fixpoint any {A} (f : A → PM bool) (l : list A) : PM bool :=
  match l with
  | [] => mret false
  | a :: l => rc ← f a; if (rc : bool) then mret true else any f l
  end.

(** [fcm_app_name_in_set]: [app->appnames->nelems] is read in the inner loop, so
    only for a flow with a tag. *)
Definition fcm_app_name_in_set (app : fcm_filter_rule) (fkey : flow_key) : PM bool :=
  any (λ app_name, names ← deref (appnames app);
         any (fcm_find_app_names_in_tag app_name) names) (flow_app_names fkey).

(** [fcm_src_ip_in_set], [fcm_dst_ip_in_set] *)
Definition fcm_src_ip_in_set (rule : fcm_filter_rule) (l3 : fcm_filter_l3_info_t) : PM bool :=
  let ipaddr := snprintf_s 128 (l3_src_ip l3) in
  set ← deref (src_ip rule);
  any (fcm_find_ip_addr_in_tag (Some ipaddr)) set.
Definition fcm_dst_ip_in_set (rule : fcm_filter_rule) (l3 : fcm_filter_l3_info_t) : PM bool :=
  let ipaddr := snprintf_s 128 (l3_dst_ip l3) in
  set ← deref (dst_ip rule);
  any (fcm_find_ip_addr_in_tag (Some ipaddr)) set.

(** The test of a port against one entry. *)
Definition port_match (port : Z) (p : ip_port) : bool :=
  (negb (port_max p =? 0) && ((port_min p <=? port) && (port <=? port_max p)))%Z
  || (port_min p =? port)%Z.
(** [fcm_sport_in_set], [fcm_dport_in_set]: the second returns true at its end too. *)
Definition fcm_sport_in_set (rule : fcm_filter_rule) (l3 : fcm_filter_l3_info_t) : bool :=
  if existsb (port_match (sport l3)) (src_port rule) then true else false.
Definition fcm_dport_in_set (rule : fcm_filter_rule) (l3 : fcm_filter_l3_info_t) : bool :=
  if existsb (port_match (dport l3)) (dst_port rule) then true else true.

(** [fcm_proto_in_set]: true at its end too. *)
Definition fcm_proto_in_set (rule : fcm_filter_rule) (l3 : fcm_filter_l3_info_t) : PM bool :=
  set ← deref (proto rule);
  mret (if existsb (λ p, (p =? l4_proto l3)%Z) set then true else true).

(** [fcm_smac_in_set], [fcm_dmac_in_set], [fcm_vlanid_in_set] *)
Definition fcm_smac_in_set (rule : fcm_filter_rule) (l2 : fcm_filter_l2_info_t) : PM bool :=
  let mac_s := snprintf_s 32 (l2_src_mac l2) in
  set ← deref (smac rule);
  any (fcm_find_device_in_tag (Some mac_s)) set.
Definition fcm_dmac_in_set (rule : fcm_filter_rule) (l2 : fcm_filter_l2_info_t) : PM bool :=
  let mac_s := snprintf_s 32 (l2_dst_mac l2) in
  set ← deref (dmac rule);
  any (fcm_find_device_in_tag (Some mac_s)) set.
Definition fcm_vlanid_in_set (rule : fcm_filter_rule) (l2 : fcm_filter_l2_info_t) : PM bool :=
  set ← deref (vlanid rule);
  mret (existsb (λ v, (v =? wraps 32 (vlan_id l2))%Z) set).

(** [fcm_check_option], [fcm_check_app_option] *)
Definition fcm_check_option (option : fcm_op) (present : bool) : fcm_verdict :=
  match option, present with
  | FCM_OP_NONE, _ => FCM_DEFAULT_TRUE
  | FCM_OP_OUT, true => FCM_RULED_FALSE
  | FCM_OP_IN, false => FCM_RULED_FALSE
  | _, _ => FCM_RULED_TRUE
  end.
Definition fcm_check_app_option (option : Z) (present : bool) : fcm_verdict :=
  if present && (option =? FCM_APPNAME_OP_OUT)%Z then FCM_RULED_FALSE
  else if negb present && (option =? FCM_APPNAME_OP_IN)%Z then FCM_RULED_FALSE
  else FCM_RULED_TRUE.

(** *** One filter per attribute *)
Definition fcm_src_ip_filter (rule : fcm_filter_rule) (l3 : fcm_filter_l3_info_t) : PM fcm_verdict :=
  if negb (src_ip_rule_present rule) then mret FCM_DEFAULT_TRUE
  else rc ← fcm_src_ip_in_set rule l3; mret (fcm_check_option (src_ip_op rule) rc).
Definition fcm_dst_ip_filter (rule : fcm_filter_rule) (l3 : fcm_filter_l3_info_t) : PM fcm_verdict :=
  if negb (dst_ip_rule_present rule) then mret FCM_DEFAULT_TRUE
  else rc ← fcm_dst_ip_in_set rule l3; mret (fcm_check_option (dst_ip_op rule) rc).
Definition fcm_sport_filter (rule : fcm_filter_rule) (l3 : fcm_filter_l3_info_t) : PM fcm_verdict :=
  if negb (src_port_rule_present rule) then mret FCM_DEFAULT_TRUE
  else mret (fcm_check_option (src_port_op rule) (fcm_sport_in_set rule l3)).
Definition fcm_dport_filter (rule : fcm_filter_rule) (l3 : fcm_filter_l3_info_t) : PM fcm_verdict :=
  if negb (dst_port_rule_present rule) then mret FCM_DEFAULT_TRUE
  else mret (fcm_check_option (dst_port_op rule) (fcm_dport_in_set rule l3)).
Definition fcm_l4_proto_filter (rule : fcm_filter_rule) (l3 : fcm_filter_l3_info_t) : PM fcm_verdict :=
  if negb (proto_rule_present rule) then mret FCM_DEFAULT_TRUE
  else rc ← fcm_proto_in_set rule l3; mret (fcm_check_option (proto_op rule) rc).
Definition fcm_smacs_filter (rule : fcm_filter_rule) (l2 : fcm_filter_l2_info_t) : PM fcm_verdict :=
  if negb (smac_rule_present rule) then mret FCM_DEFAULT_TRUE
  else rc ← fcm_smac_in_set rule l2; mret (fcm_check_option (smac_op rule) rc).
Definition fcm_dmacs_filter (rule : fcm_filter_rule) (l2 : fcm_filter_l2_info_t) : PM fcm_verdict :=
  if negb (dmac_rule_present rule) then mret FCM_DEFAULT_TRUE
  else rc ← fcm_dmac_in_set rule l2; mret (fcm_check_option (dmac_op rule) rc).
Definition fcm_vlanid_filter (rule : fcm_filter_rule) (l2 : fcm_filter_l2_info_t) : PM fcm_verdict :=
  if negb (vlanid_rule_present rule) then mret FCM_DEFAULT_TRUE
  else rc ← fcm_vlanid_in_set rule l2; mret (fcm_check_option (vlanid_op rule) rc).
Definition fcm_app_name_filter (app : fcm_filter_rule) (fkey : flow_key) : PM fcm_verdict :=
  if negb (appname_present app) then mret FCM_DEFAULT_TRUE
  else rc ← fcm_app_name_in_set app fkey; mret (fcm_check_app_option (appname_op app) rc).

(** [fcm_pkt_cnt_filter] *)
Definition fcm_pkt_cnt_filter (rule : fcm_filter_rule) (pkts : option fcm_filter_stats_t) : fcm_verdict :=
  match pkts with
  | None => FCM_DEFAULT_TRUE
  | Some pkts =>
      let ruled (b : bool) := if b then FCM_RULED_TRUE else FCM_RULED_FALSE in
      match pktcnt_op rule with
      | FCM_MATH_NONE => FCM_DEFAULT_TRUE
      | FCM_MATH_LEQ => ruled (pkt_cnt pkts <=? pktcnt rule)%Z
      | FCM_MATH_LT => ruled (pkt_cnt pkts <? pktcnt rule)%Z
      | FCM_MATH_GT => ruled (pktcnt rule <? pkt_cnt pkts)%Z
      | FCM_MATH_GEQ => ruled (pktcnt rule <=? pkt_cnt pkts)%Z
      | FCM_MATH_EQ => ruled (pkt_cnt pkts =? pktcnt rule)%Z
      | FCM_MATH_NEQ => ruled (negb (pkt_cnt pkts =? pktcnt rule)%Z)
      end
  end.

(** [fcm_action_filter] *)
Definition fcm_action_filter (rule : fcm_filter_rule) : bool :=
  bool_decide (action rule = FCM_DEFAULT_INCLUDE) || bool_decide (action rule = FCM_INCLUDE).

(** *** A rule against a request *)

(** [verdict == FCM_RULED_FALSE ? false : true] *)
Definition allows (v : fcm_verdict) : bool := negb (bool_decide (v = FCM_RULED_FALSE)).

(** The conditions of one iteration of [fcm_apply_filter]: whether the rule applies. *)
Definition rule_allow (rule : fcm_filter_rule) (req : fcm_filter_req) : PM bool :=
  allow ← match l3_info req with
          | None => mret true
          | Some l3 =>
              src_ip_allow ← fcm_src_ip_filter rule l3;
              dst_ip_allow ← fcm_dst_ip_filter rule l3;
              sport_allow ← fcm_sport_filter rule l3;
              dport_allow ← fcm_dport_filter rule l3;
              proto_allow ← fcm_l4_proto_filter rule l3;
              mret (allows src_ip_allow && allows dst_ip_allow && allows sport_allow
                    && allows dport_allow && allows proto_allow)
          end;
  allow ← match l2_info req with
          | None => mret allow
          | Some l2 =>
              smac_allow ← fcm_smacs_filter rule l2;
              dmac_allow ← fcm_dmacs_filter rule l2;
              vlanid_allow ← fcm_vlanid_filter rule l2;
              mret (allow && allows smac_allow && allows dmac_allow && allows vlanid_allow)
          end;
  allow ← match fkey req with
          | None => mret allow
          | Some fkey =>
              name_allow ← fcm_app_name_filter rule fkey;
              mret (allow && allows name_allow)
          end;
  match pkts req with
  | None => mret (allow && bool_decide (pktcnt_op rule = FCM_MATH_NONE))
  | Some _ => mret (allow && allows (fcm_pkt_cnt_filter rule (pkts req)))
  end.

End fcm_filter.
