(* ===== verification/FcmFilterMgr.v ===== *)
(** Flow filters: the tables of rules, their rows in the database and their
    clients (fcm_filter_ovsdb.c, fcm_filter_client.c and the rest of
    fcm_filter.c in src/lib/fcm_filter/src, and the conversions of
    src/lib/ovsdb/src/ovsdb_utils.c).

    Filters and tables are objects of a store: a table points to its filters
    twice, by the lookup array and by the list of rules, and clients and requests
    point to tables.  An access to a freed object, to NULL or beyond an array
    faults.  The tree of tables is the sequence of its entries, with lookup a
    parameter as in [PolicyTags]. *)
From Stdlib Require Import Ascii.
From S2P Require Import Prelude DsTree PolicyTags FcmFilter.

Definition FCM_MAX_FILTER_BY_NAME : Z := 64.
Definition FCM_MAX_FILTERS : nat := 60.
Definition FILTER_NAME_SIZE : nat := 32.

(** *** Rows of the table FCM_Filter *)
Record schema_FCM_Filter := SFilter {
  s_name : string; s_index : Z;
  s_smac_op : option string; s_smac : list string;
  s_dmac_op : option string; s_dmac : list string;
  s_vlanid_op : option string; s_vlanid : list Z;
  s_src_ip_op : option string; s_src_ip : list string;
  s_dst_ip_op : option string; s_dst_ip : list string;
  s_src_port_op : option string; s_src_port : list string;
  s_dst_port_op : option string; s_dst_port : list string;
  s_proto_op : option string; s_proto : list Z;
  s_pktcnt_op : option string; s_pktcnt : Z;
  s_appname_op : option string; s_appnames : list string;
  s_apptag_op : option string; s_apptags : list string;
  s_other_config : list (string * string);
  s_action : string }.

(** An optional column is a flag [x_exists] and a buffer, empty when absent. *)
Definition exists_ (o : option string) : bool := bool_decide (is_Some o).
Definition column (o : option string) : string := default "" o.

(** *** Conversions *)

(** [schema2str_set], [schema2int_set], [schema2tree]; [None] is NULL. *)
Definition schema2str_set (set : list string) : str_set :=
  match set with [] => None | _ => Some (Some <$> set) end.
Definition schema2int_set (set : list Z) : int_set := Some set.
Definition schema2tree (kvs : list (string * string)) : option (list (string * string)) :=
  match kvs with [] => None | _ => Some (foldl (λ t kv, tr_insert kv.1 kv.2 t) [] kvs) end.

(** [fcm_check_conversion] *)
Definition fcm_check_conversion {A} (converted : option A) (len : nat) : bool :=
  if len =? 0 then true else match converted with None => false | Some _ => true end.

(** [strstr(s, "-")], just after the match. *)
Fixpoint after_dash (s : string) : option string :=
  match s with
  | EmptyString => None
  | String c s' => if bool_decide (c = "-"%char) then Some s' else after_dash s'
  end.

(** [port_to_int1d]; the ports are 16-bit. *)
Definition port_to_int (s : string) : ip_port :=
  IpPort (wrapu 16 (atoi s))
    match after_dash s with Some pos => wrapu 16 (atoi pos) | None => 0 end.
Definition port_to_int1d (array : list string) : list ip_port := port_to_int <$> array.

(** [convert_math_str_enum], [convert_str_enum], [convert_action_enum]: the
    strings are compared up to the length of the keyword. *)
Definition convert_math_str_enum (op_string : string) : fcm_math_op :=
  if String.prefix "leq" op_string then FCM_MATH_LEQ
  else if String.prefix "lt" op_string then FCM_MATH_LT
  else if String.prefix "gt" op_string then FCM_MATH_GT
  else if String.prefix "geq" op_string then FCM_MATH_GEQ
  else if String.prefix "eq" op_string then FCM_MATH_EQ
  else if String.prefix "neq" op_string then FCM_MATH_NEQ
  else FCM_MATH_NONE.
Definition convert_str_enum (op_string : string) : fcm_op :=
  if String.prefix "in" op_string then FCM_OP_IN
  else if String.prefix "out" op_string then FCM_OP_OUT
  else FCM_OP_NONE.
Definition convert_action_enum (op_string : string) : fcm_action :=
  if String.prefix "include" op_string then FCM_INCLUDE
  else if String.prefix "exclude" op_string then FCM_EXCLUDE
  else FCM_DEFAULT_INCLUDE.

(** The zeroed rule of a new filter. *)
Definition zero_rule : fcm_filter_rule :=
  Rule None 0 false FCM_OP_NONE None false FCM_OP_NONE None false FCM_OP_NONE None
    false FCM_OP_NONE None false FCM_OP_NONE None false FCM_OP_NONE [] false FCM_OP_NONE []
    false FCM_OP_NONE None false FCM_MATH_NONE 0 false 0 None false 0 None None FCM_EXCLUDE.

(** A set that is converted when its operation is present, with the check. *)
Definition convert_set {A B} (present : bool) (conv : list A → option B) (set : list A) : option (option B) :=
  if present then
    let c := conv set in if fcm_check_conversion c (length set) then Some c else None
  else Some None.
Definition convert_ports (present : bool) (set : list string) : list ip_port :=
  if present then port_to_int1d set else [].

(** [copy_from_schema_struct] into a zeroed rule; [None] is the error -1, after
    which the rule is freed. *)
Definition copy_from_schema_struct (f : schema_FCM_Filter) : option fcm_filter_rule :=
  smac ← convert_set (exists_ (s_smac_op f)) schema2str_set (s_smac f);
  dmac ← convert_set (exists_ (s_dmac_op f)) schema2str_set (s_dmac f);
  vlanid ← convert_set (exists_ (s_vlanid_op f)) schema2int_set (s_vlanid f);
  src_ip ← convert_set (exists_ (s_src_ip_op f)) schema2str_set (s_src_ip f);
  dst_ip ← convert_set (exists_ (s_dst_ip_op f)) schema2str_set (s_dst_ip f);
  let src_port := convert_ports (exists_ (s_src_port_op f)) (s_src_port f) in
  let dst_port := convert_ports (exists_ (s_dst_port_op f)) (s_dst_port f) in
  proto ← convert_set (exists_ (s_proto_op f)) schema2int_set (s_proto f);
  other_config ← convert_set true schema2tree (s_other_config f);
  Some (Rule (Some (s_name f)) (s_index f)
    (exists_ (s_smac_op f)) (convert_str_enum (column (s_smac_op f))) smac
    (exists_ (s_dmac_op f)) (convert_str_enum (column (s_dmac_op f))) dmac
    (exists_ (s_vlanid_op f)) (convert_str_enum (column (s_vlanid_op f))) vlanid
    (exists_ (s_src_ip_op f)) (convert_str_enum (column (s_src_ip_op f))) src_ip
    (exists_ (s_dst_ip_op f)) (convert_str_enum (column (s_dst_ip_op f))) dst_ip
    (exists_ (s_src_port_op f)) (convert_str_enum (column (s_src_port_op f))) src_port
    (exists_ (s_dst_port_op f)) (convert_str_enum (column (s_dst_port_op f))) dst_port
    (exists_ (s_proto_op f)) (convert_str_enum (column (s_proto_op f))) proto
    (exists_ (s_pktcnt_op f)) (convert_math_str_enum (column (s_pktcnt_op f))) (s_pktcnt f)
    (appname_present zero_rule) (appname_op zero_rule) (appnames zero_rule)
    (app_tag_present zero_rule) (app_tag_op zero_rule) (app_tags zero_rule)
    other_config (convert_action_enum (s_action f))).

(** [fcm_filter_set_app_names], [fcm_filter_set_app_tags]: the new fields, [None]
    when the function returns false. *)
Definition app_op_of (s : string) : Z :=
  if bool_decide (s = "out") then FCM_APPNAME_OP_OUT
  else if bool_decide (s = "in") then FCM_APPNAME_OP_IN else (-1)%Z.
Definition set_app (op : option string) (set : list string) : option (bool * Z * str_set) :=
  match op with
  | None => Some (false, 0%Z, None)
  | Some o =>
      if (app_op_of o =? -1)%Z then None
      else
        let c := schema2str_set set in
        if fcm_check_conversion c (length set) then Some (true, app_op_of o, c) else None
  end.
Definition with_app_names (r : fcm_filter_rule) (a : bool * Z * str_set) : fcm_filter_rule :=
  Rule (rule_name r) (index r) (smac_rule_present r) (smac_op r) (smac r)
    (dmac_rule_present r) (dmac_op r) (dmac r) (vlanid_rule_present r) (vlanid_op r) (vlanid r)
    (src_ip_rule_present r) (src_ip_op r) (src_ip r) (dst_ip_rule_present r) (dst_ip_op r) (dst_ip r)
    (src_port_rule_present r) (src_port_op r) (src_port r)
    (dst_port_rule_present r) (dst_port_op r) (dst_port r)
    (proto_rule_present r) (proto_op r) (proto r) (pktcnt_rule_present r) (pktcnt_op r) (pktcnt r)
    a.1.1 a.1.2 a.2 (app_tag_present r) (app_tag_op r) (app_tags r) (other_config r) (action r).
Definition with_app_tags (r : fcm_filter_rule) (a : bool * Z * str_set) : fcm_filter_rule :=
  Rule (rule_name r) (index r) (smac_rule_present r) (smac_op r) (smac r)
    (dmac_rule_present r) (dmac_op r) (dmac r) (vlanid_rule_present r) (vlanid_op r) (vlanid r)
    (src_ip_rule_present r) (src_ip_op r) (src_ip r) (dst_ip_rule_present r) (dst_ip_op r) (dst_ip r)
    (src_port_rule_present r) (src_port_op r) (src_port r)
    (dst_port_rule_present r) (dst_port_op r) (dst_port r)
    (proto_rule_present r) (proto_op r) (proto r) (pktcnt_rule_present r) (pktcnt_op r) (pktcnt r)
    (appname_present r) (appname_op r) (appnames r) a.1.1 a.1.2 a.2 (other_config r) (action r).
Definition fcm_filter_set_app_names (app : fcm_filter_rule) (rule : schema_FCM_Filter) : option fcm_filter_rule :=
  with_app_names app <$> set_app (s_appname_op rule) (s_appnames rule).
Definition fcm_filter_set_app_tags (app : fcm_filter_rule) (rule : schema_FCM_Filter) : option fcm_filter_rule :=
  with_app_tags app <$> set_app (s_apptag_op rule) (s_apptags rule).

(** The rule a row is converted to: the first steps of [fcm_filter_insert_schema]. *)
Definition rule_of_row (sfilter : schema_FCM_Filter) : option fcm_filter_rule :=
  rule ← copy_from_schema_struct sfilter;
  rule ← fcm_filter_set_app_names rule sfilter;
  fcm_filter_set_app_tags rule sfilter.

(** *** The manager *)

(** [struct fcm_filter]: its table and its rule. *)
Record fcm_filter := Filter { f_table : option positive; filter_rule : fcm_filter_rule }.
(** [struct filter_table].  The tree [filters] is initialised and walked but
    nothing is ever inserted into it. *)
Record filter_table := Table {
  t_name : string;
  filters : list (Z * positive);
  filter_rules : list positive;
  lookup_array : list (option positive) }.
(** [struct fcm_filter_client]; callbacks are addresses. *)
Record fcm_filter_client := Client {
  session : option positive;
  c_name : option string;
  c_table : option positive;
  update_client : option positive;
  session_name : option positive }.

(** The filter manager with the objects it has allocated, the tags, and the calls
    of [update_client] made so far: callback, session and table. *)
Record fcm_state := Fcm {
  fs_tags : pt_state;
  fs_filters : gmap positive fcm_filter;
  fs_tables : gmap positive filter_table;
  fcm_filters : list (string * positive);
  clients : list fcm_filter_client;
  initialized : bool;
  updates : list (positive * option positive * positive) }.

Abbreviation FM := (M fcm_state).

Definition with_filters f (s : fcm_state) : fcm_state :=
  Fcm (fs_tags s) (f (fs_filters s)) (fs_tables s) (fcm_filters s) (clients s) (initialized s) (updates s).
Definition with_tables f (s : fcm_state) : fcm_state :=
  Fcm (fs_tags s) (fs_filters s) (f (fs_tables s)) (fcm_filters s) (clients s) (initialized s) (updates s).
Definition with_tree f (s : fcm_state) : fcm_state :=
  Fcm (fs_tags s) (fs_filters s) (fs_tables s) (f (fcm_filters s)) (clients s) (initialized s) (updates s).
Definition with_clients f (s : fcm_state) : fcm_state :=
  Fcm (fs_tags s) (fs_filters s) (fs_tables s) (fcm_filters s) (f (clients s)) (initialized s) (updates s).
Definition with_initialized b (s : fcm_state) : fcm_state :=
  Fcm (fs_tags s) (fs_filters s) (fs_tables s) (fcm_filters s) (clients s) b (updates s).
Definition with_updates f (s : fcm_state) : fcm_state :=
  Fcm (fs_tags s) (fs_filters s) (fs_tables s) (fcm_filters s) (clients s) (initialized s) (f (updates s)).

(** A computation on the tags. *)
Definition tags_do {A} (m : M pt_state A) : FM A := λ s,
  match m (fs_tags s) with
  | Some (a, t) => Some (a, Fcm t (fs_filters s) (fs_tables s) (fcm_filters s) (clients s)
      (initialized s) (updates s))
  | None => None
  end.

(** Accesses through pointers. *)
Definition filter_at (p : positive) : FM fcm_filter := f ← gets (λ s, fs_filters s !! p); deref f.
Definition table_at (p : positive) : FM filter_table := t ← gets (λ s, fs_tables s !! p); deref t.
Definition set_filter (p : positive) (f : fcm_filter) : FM unit := filter_at p;; modify (with_filters <[p := f]>).
Definition set_table (p : positive) (t : filter_table) : FM unit := table_at p;; modify (with_tables <[p := t]>).
(** [lookup_array[i]]: the index must be within the array. *)
Definition slot (i : Z) : FM nat :=
  if bool_decide (0 ≤ i < Z.of_nat FCM_MAX_FILTERS)%Z then mret (Z.to_nat i) else fault.
Definition slot_get (t : positive) (i : Z) : FM (option positive) :=
  i ← slot i; tab ← table_at t; deref (lookup_array tab !! i).
Definition slot_set (t : positive) (i : Z) (v : option positive) : FM unit :=
  i ← slot i; tab ← table_at t;
  set_table t (Table (t_name tab) (filters tab) (filter_rules tab) (<[i := v]> (lookup_array tab))).

Section mgr.
Context `{TreeFind}.

(** [ds_tree_find(&mgr->fcm_filters, name)]: names are compared with [strncmp] up
    to 32 characters, and the names of tables are shorter. *)
Definition find_table (name : string) : FM (option positive) :=
  gets (λ s, i ← tree_find (String.substring 0 FILTER_NAME_SIZE name) (fcm_filters s);
             snd <$> fcm_filters s !! i).

(** *** Clients (fcm_filter_client.c) *)

Definition default_name : string := "fcm_filter_1".
(** [client_cmp] *)
Definition addr (p : option positive) : Z := match p with None => 0 | Some p => Z.pos p end.
Definition client_cmp (a b : fcm_filter_client) : Z :=
  if (addr (session a) <? addr (session b))%Z then -1
  else if (addr (session b) <? addr (session a))%Z then 1
  else ds_str_cmp (default default_name (c_name a)) (default default_name (c_name b)).
(** The tree of clients as a sequence; its keys are distinct. *)
Definition find_client (c : fcm_filter_client) (cs : list fcm_filter_client) : option nat :=
  fst <$> list_find (λ c', client_cmp c' c = 0%Z) cs.
Fixpoint insert_client (c : fcm_filter_client) (cs : list fcm_filter_client) : list fcm_filter_client :=
  match cs with
  | [] => [c]
  | c' :: cs' => if (client_cmp c' c <? 0)%Z then c' :: insert_client c cs' else c :: cs
  end.

(** [fcm_filter_register_client]: the caller's client after the call. *)
Definition fcm_filter_register_client (client : fcm_filter_client) : FM fcm_filter_client :=
  match session client with
  | None => mret client
  | Some _ =>
      p_client ← gets (λ s, i ← find_client client (clients s); c ← clients s !! i; Some (i, c));
      match p_client with
      | Some (i, p_client) =>
          modify (with_clients <[i := Client (session p_client) (c_name p_client) (c_table p_client)
                    (update_client client) (session_name client)]>);;
          mret (Client (session client) (c_name client) (c_table p_client)
                 (update_client client) (session_name client))
      | None =>
          let name := default default_name (c_name client) in
          table ← find_table name;
          modify (with_clients (insert_client
            (Client (session client) (Some name) table (update_client client) (session_name client))));;
          mret (Client (session client) (c_name client) table (update_client client) (session_name client))
      end
  end.

(** [fcm_filter_deregister_client]: the caller's client after the call. *)
Definition fcm_filter_deregister_client (client : fcm_filter_client) : FM fcm_filter_client :=
  match session client with
  | None => mret client
  | Some _ =>
      p_client ← gets (λ s, find_client client (clients s));
      match p_client with
      | None => mret client
      | Some i =>
          modify (with_clients (λ cs, take i cs ++ drop (S i) cs));;
          mret (Client None (c_name client) None (update_client client) (session_name client))
      end
  end.

(** [fcm_filter_update_clients] *)
Fixpoint update_loop (name : string) (t : positive) (cs : list fcm_filter_client) : FM unit :=
  match cs with
  | [] => mret tt
  | c :: cs =>
      (if bool_decide (default default_name (c_name c) = name) then
         match update_client c with
         | Some cb => modify (with_updates (λ l, l ++ [(cb, session c, t)]))
         | None => mret tt
         end
       else mret tt);;
      update_loop name t cs
  end.
Definition fcm_filter_update_clients (table : positive) : FM unit :=
  tab ← table_at table;
  cs ← gets clients;
  update_loop (t_name tab) table cs.

(** *** Rows of the database (fcm_filter_ovsdb.c) *)

(** [fcm_filter_insert_schema] *)
Definition fcm_filter_insert_schema (table : positive) (sfilter : schema_FCM_Filter) : FM (option positive) :=
  match rule_of_row sfilter with
  | None => mret None
  | Some rule =>
      ffilter ← gets (λ s, fresh (dom (fs_filters s)));
      modify (with_filters <[ffilter := Filter (Some table) rule]>);;
      slot_set table (s_index sfilter) (Some ffilter);;
      tab ← table_at table;
      set_table table (Table (t_name tab) (filters tab) (filter_rules tab ++ [ffilter]) (lookup_array tab));;
      mret (Some ffilter)
  end.

(** [fcm_filter_lookup] *)
Definition fcm_filter_lookup (filter : schema_FCM_Filter) : FM (option positive) :=
  table ← find_table (s_name filter);
  match table with
  | None => mret None
  | Some table =>
      sfilter ← slot_get table (s_index filter);
      sfilter ← deref sfilter;
      f ← filter_at sfilter;
      set_filter sfilter (Filter (Some table) (filter_rule f));;
      mret (Some sfilter)
  end.

(** [fcm_filter_get]; [get_table] finds or creates the table. *)
Definition new_table (name : string) : filter_table :=
  Table (String.substring 0 (FILTER_NAME_SIZE - 1) name) [] [] (replicate FCM_MAX_FILTERS None).
Definition get_table (name : string) : FM positive :=
  table ← find_table name;
  match table with
  | Some t => mret t
  | None =>
      t ← gets (λ s, fresh (dom (fs_tables s)));
      modify (with_tables <[t := new_table name]>);;
      modify (with_tree (tr_insert (t_name (new_table name)) t));;
      mret t
  end.
Definition fcm_filter_get (sfilter : schema_FCM_Filter) : FM (option positive) :=
  table ← get_table (s_name sfilter);
  ffilter ← slot_get table (s_index sfilter);
  match ffilter with
  | Some f => mret (Some f)
  | None =>
      f ← fcm_filter_insert_schema table sfilter;
      slot_set table (s_index sfilter) f;;
      fcm_filter_update_clients table;;
      slot_get table (s_index sfilter)
  end.

(** [fcm_add_filter] *)
Definition fcm_add_filter (filter : schema_FCM_Filter) : FM unit :=
  let idx := s_index filter in
  if bool_decide (idx < 0 ∨ Z.of_nat FCM_MAX_FILTERS ≤ idx)%Z then mret tt
  else fcm_filter_get filter;; mret tt.

(** [ds_dlist_remove] of a member of the list. *)
Definition dl_remove (p : positive) (l : list positive) : FM (list positive) :=
  if bool_decide (p ∈ l) then mret (List.remove Pos.eq_dec p l) else fault.

(** [fcm_free_filter] (fcm_filter.c): [free_schema_struct] and [free_filter_app]
    release what the rule owns, then the filter itself is freed. *)
Definition fcm_free_filter (ffilter : positive) : FM unit :=
  f ← filter_at ffilter;
  let idx := index (filter_rule f) in
  table ← deref (f_table f);
  tab ← table_at table;
  l ← dl_remove ffilter (filter_rules tab);
  set_table table (Table (t_name tab) (filters tab) l (lookup_array tab));;
  modify (with_filters (delete ffilter));;
  slot_set table idx None.

(** [fcm_delete_filter], [fcm_update_filter] *)
Definition fcm_delete_filter (filter : schema_FCM_Filter) : FM unit :=
  rule ← fcm_filter_lookup filter;
  match rule with
  | None => mret tt
  | Some rule => fcm_free_filter rule
  end.
Definition fcm_update_filter (old_rec sfilter : schema_FCM_Filter) : FM unit :=
  let index := s_index sfilter in
  if bool_decide (index < 0 ∨ FCM_MAX_FILTER_BY_NAME ≤ index)%Z then mret tt
  else fcm_delete_filter sfilter;; fcm_add_filter sfilter.

(** The database notifications *)
Inductive mon_type := OVSDB_UPDATE_NEW | OVSDB_UPDATE_DEL | OVSDB_UPDATE_MODIFY.
Definition callback_FCM_Filter (mon : mon_type) (old_rec new_rec : schema_FCM_Filter) : FM unit :=
  match mon with
  | OVSDB_UPDATE_NEW => fcm_add_filter new_rec
  | OVSDB_UPDATE_DEL => fcm_delete_filter old_rec
  | OVSDB_UPDATE_MODIFY => fcm_update_filter old_rec new_rec
  end.
Definition callback_Openflow_Tag (mon : mon_type) (old_rec tag : schema_Openflow_Tag) : FM unit :=
  tags_do match mon with
          | OVSDB_UPDATE_NEW => om_tag_add_from_schema tag
          | OVSDB_UPDATE_DEL => om_tag_remove_from_schema old_rec
          | OVSDB_UPDATE_MODIFY => om_tag_update_from_schema tag
          end;; mret tt.
Definition callback_Openflow_Tag_Group (mon : mon_type) (old_rec tag : schema_Openflow_Tag_Group) : FM unit :=
  tags_do match mon with
          | OVSDB_UPDATE_NEW => om_tag_group_add_from_schema tag
          | OVSDB_UPDATE_DEL => om_tag_group_remove_from_schema old_rec
          | OVSDB_UPDATE_MODIFY => om_tag_group_update_from_schema tag
          end;; mret tt.

(** [fcm_filter_init]; the registration of the monitors ([ovsdb_init]) has no
    effect on this state. *)
Definition fcm_filter_init : FM Z :=
  i ← gets initialized;
  if (i : bool) then mret 1%Z
  else
    modify (with_tree (λ _, []));;
    modify (with_clients (λ _, []));;
    modify (with_initialized true);;
    mret 0%Z.

(** *** Applying a table (fcm_filter.c) *)

(** The loop of [fcm_apply_filter] over the entries of the lookup array.  [trace]
    is [LOG_SEVERITY_ENABLED(LOG_SEVERITY_TRACE)]: the action of the rule is only
    read at that level. *)
Fixpoint apply_loop (trace : bool) (entries : list (option positive)) (req : fcm_filter_req)
    (action_op : bool) : FM bool :=
  match entries with
  | [] => mret false
  | None :: entries => apply_loop trace entries req action_op
  | Some p :: entries =>
      rule ← filter_at p;
      allow ← tags_do (rule_allow (filter_rule rule) req);
      let action_op := if trace then fcm_action_filter (filter_rule rule) else action_op in
      if (allow : bool) then mret (allow && action_op) else apply_loop trace entries req action_op
  end.
(** [fcm_apply_filter]: the value of [req->action]. *)
Definition fcm_apply_filter (trace : bool) (req : fcm_filter_req) : FM bool :=
  match req_table req with
  | None => mret true
  | Some table => tab ← table_at table; apply_loop trace (lookup_array tab) req true
  end.

(** *** [fcm_filter_cleanup] *)
Fixpoint free_filters (fs : list (Z * positive)) : FM unit :=
  match fs with
  | [] => mret tt
  | (_, f) :: fs => fcm_free_filter f;; free_filters fs
  end.
(** [while (!ds_dlist_is_empty(&table->filter_rules))]: every iteration removes the
    head. *)
Fixpoint free_rules (table : positive) (rules : list positive) : FM unit :=
  match rules with
  | [] => mret tt
  | rule :: rules =>
      filter_at rule;;
      tab ← table_at table;
      set_table table (Table (t_name tab) (filters tab) rules (lookup_array tab));;
      modify (with_filters (delete rule));;
      free_rules table rules
  end.
Fixpoint free_tables (ts : list (string * positive)) : FM unit :=
  match ts with
  | [] => mret tt
  | (_, t) :: ts =>
      tab ← table_at t;
      free_filters (filters tab);;
      tab ← table_at t;
      free_rules t (filter_rules tab);;
      modify (with_tree (λ l, List.filter (λ e, negb (bool_decide (e.2 = t))) l));;
      modify (with_tables (delete t));;
      free_tables ts
  end.
Definition fcm_filter_cleanup : FM unit :=
  modify (with_clients (λ _, []));;
  ts ← gets fcm_filters;
  free_tables ts;;
  modify (with_initialized false).
End mgr.
