(* ===== verification/FcmFilterEval.v ===== *)
(** What the conditions of a filter rule mean, and that their evaluation decides
    it without a fault and without a change of state. *)
From S2P Require Import Prelude DsTree PolicyTags PolicyTagsRep PolicyTagsInv FcmFilter.

(** [m] returns a value that [f] maps to true exactly when [P] holds. *)
Definition decides {S A} (f : A → bool) (m : M S A) (P : Prop) (s : S) : Prop :=
  ∃ a, m s = Some (a, s) ∧ (f a = true ↔ P).

Section decides.
Context {S : Type}.
Implicit Types s : S.

Lemma decides_ret {A} (f : A → bool) a P s : (f a = true ↔ P) → decides f (mret a) P s.
Proof. intros ?. by exists a. Qed.
Lemma decides_bind {A B} (f : A → bool) (g : B → bool) (m : M S A) (k : A → M S B) P Q s :
  decides f m P s → (∀ a, (f a = true ↔ P) → decides g (k a) Q s) → decides g (m ≫= k) Q s.
Proof.
  intros (a & Hm & Ha) Hk. destruct (Hk a Ha) as (b & Hb & HQ). exists b. split; [|done].
  unfold mbind, M_bind. by rewrite Hm.
Qed.
Lemma decides_iff {A} (f : A → bool) (m : M S A) P Q s : (P ↔ Q) → decides f m P s → decides f m Q s.
Proof. intros HPQ (a & Hm & Ha). exists a. split; [done|]. by rewrite Ha. Qed.
Lemma decides_deref {A B} (f : B → bool) (o : option A) a (k : A → M S B) P s :
  o = Some a → decides f (k a) P s → decides f (x ← deref o; k x) P s.
Proof. by intros -> ?. Qed.
End decides.

Section eval.
Context `{TreeFindLaws}.
Implicit Types st : pt_state.

Lemma om_tag_in_total st v t : ∃ b, om_tag_in v t st = Some (b, st).
Proof.
  unfold om_tag_in. destruct t as [t|]; [|by exists false]. destruct v as [v|]; [|by exists false].
  destruct (split_template t) as [name fl].
  assert (∀ g, ∃ b, (tag ← om_tag_find_by_name name g;
     match tag with
     | None => mret false
     | Some i => tag ← tag_at i;
         match om_tag_list_entry_find_by_value (values tag) v with
         | None => mret false
         | Some j => e ← deref (values tag !! j);
             if negb (fl =? 0)%Z && (Z.land e.2 fl =? 0)%Z then mret false else mret true
         end
     end : M pt_state bool) st = Some (b, st)) as Hall.
  { intros g. unfold om_tag_find_by_name, gets, mbind, M_bind.
    destruct (find_tag name g (om_tags st)) as [i|] eqn:Hf; [|by exists false].
    apply find_tag_some in Hf as (k & vs & Hi). unfold tag_at, gets, mbind, M_bind. rewrite Hi. simpl.
    unfold om_tag_list_entry_find_by_value. destruct (tree_find v vs) as [j|] eqn:Hj; [|by exists false].
    apply tree_find_some in Hj as [a Ha]. rewrite Ha. simpl. destruct (_ && _); eauto. }
  destruct (om_tag_get_type _); [by exists false|apply Hall|apply Hall].
Qed.

(** *** The meaning of the conditions *)

(** A value matches an entry of a set: it is in the tag that the entry names, or
    the entry starts with it. *)
Definition tag_match st (v : string) (entry : option string) : Prop :=
  match entry with
  | None => True
  | Some t => om_tag_in (Some v) entry st = Some (true, st) ∨ String.prefix v t = true
  end.
Definition in_set st (v : string) (set : str_set) : Prop :=
  ∃ l e, set = Some l ∧ e ∈ l ∧ tag_match st v e.
Definition port_in (port : Z) (p : ip_port) : Prop :=
  (port_max p ≠ 0 ∧ port_min p ≤ port ≤ port_max p ∨ port_min p = port)%Z.
(** A condition with its operation. *)
Definition cond (present : bool) (op : fcm_op) (P : Prop) : Prop :=
  present = true → match op with FCM_OP_NONE => True | FCM_OP_IN => P | FCM_OP_OUT => ¬ P end.
Definition app_cond (present : bool) (op : Z) (P : Prop) : Prop :=
  present = true → (op = FCM_APPNAME_OP_IN → P) ∧ (op = FCM_APPNAME_OP_OUT → ¬ P).
Definition count_cond (op : fcm_math_op) (cnt bound : Z) : Prop :=
  match op with
  | FCM_MATH_NONE => True
  | FCM_MATH_LT => cnt < bound
  | FCM_MATH_LEQ => cnt ≤ bound
  | FCM_MATH_GT => bound < cnt
  | FCM_MATH_GEQ => bound ≤ cnt
  | FCM_MATH_EQ => cnt = bound
  | FCM_MATH_NEQ => cnt ≠ bound
  end%Z.

(** A value is in a set of strings: it is one of them, or it is in a tag that one
    of them names. *)
Definition member st (v : string) (set : str_set) : Prop :=
  ∃ l t, set = Some l ∧ Some t ∈ l ∧ (t = v ∨ om_tag_in (Some v) (Some t) st = Some (true, st)).
Definition port_member (port : Z) (ports : list ip_port) : Prop := ∃ p, p ∈ ports ∧ port_in port p.
Definition int_member (i : Z) (set : int_set) : Prop := ∃ l, set = Some l ∧ i ∈ l.

(** The conditions of a rule, for given meanings of the membership in its sets. *)
Section conditions.
Variables ip_in mac_in app_in : string → str_set → Prop.
Variable dport_in : Z → list ip_port → Prop.
Variable proto_in : Z → int_set → Prop.

Definition l3_conds (r : fcm_filter_rule) (l3 : fcm_filter_l3_info_t) : Prop :=
  cond (src_ip_rule_present r) (src_ip_op r) (ip_in (l3_src_ip l3) (src_ip r)) ∧
  cond (dst_ip_rule_present r) (dst_ip_op r) (ip_in (l3_dst_ip l3) (dst_ip r)) ∧
  cond (src_port_rule_present r) (src_port_op r) (port_member (sport l3) (src_port r)) ∧
  cond (dst_port_rule_present r) (dst_port_op r) (dport_in (dport l3) (dst_port r)) ∧
  cond (proto_rule_present r) (proto_op r) (proto_in (l4_proto l3) (proto r)).
Definition l2_conds (r : fcm_filter_rule) (l2 : fcm_filter_l2_info_t) : Prop :=
  cond (smac_rule_present r) (smac_op r) (mac_in (l2_src_mac l2) (smac r)) ∧
  cond (dmac_rule_present r) (dmac_op r) (mac_in (l2_dst_mac l2) (dmac r)) ∧
  cond (vlanid_rule_present r) (vlanid_op r) (int_member (wraps 32 (vlan_id l2)) (vlanid r)).
Definition app_conds (r : fcm_filter_rule) (k : flow_key) : Prop :=
  app_cond (appname_present r) (appname_op r) (∃ n, Some n ∈ flow_app_names k ∧ app_in n (appnames r)).
Definition pkts_match (r : fcm_filter_rule) (pkts : option fcm_filter_stats_t) : Prop :=
  match pkts with
  | None => pktcnt_op r = FCM_MATH_NONE
  | Some p => count_cond (pktcnt_op r) (pkt_cnt p) (pktcnt r)
  end.
Definition rule_conds (r : fcm_filter_rule) (req : fcm_filter_req) : Prop :=
  (∀ l3, l3_info req = Some l3 → l3_conds r l3) ∧
  (∀ l2, l2_info req = Some l2 → l2_conds r l2) ∧
  (∀ k, fkey req = Some k → app_conds r k) ∧
  pkts_match r (pkts req).
End conditions.

(** When a rule applies to a request: every value is in, or out of, the set of the
    rule, as the operation asks. *)
Definition rule_matches st : fcm_filter_rule → fcm_filter_req → Prop :=
  rule_conds (member st) (member st) (member st) port_member int_member.

(** What the evaluation decides: a string need only be the start of an entry, and
    the destination port and the protocol are in every set. *)
Definition rule_evals st : fcm_filter_rule → fcm_filter_req → Prop :=
  rule_conds (λ v, in_set st (snprintf_s 128 v)) (λ v, in_set st (snprintf_s 32 v)) (in_set st)
    (λ _ _, True) (λ _ _, True).

(** The rules and requests for which that is the same: the entries of the sets of
    strings that start with a value are that value, addresses fit their buffers,
    and the destination port and the protocol are in the sets of the rule. *)
Definition plain_set (v : string) (set : str_set) : Prop :=
  ∀ l e, set = Some l → e ∈ l → ∃ t, e = Some t ∧ (String.prefix v t = true → t = v).
Record l3_plain (r : fcm_filter_rule) (l3 : fcm_filter_l3_info_t) : Prop := {
  lp_src : String.length (l3_src_ip l3) < 128 ∧ plain_set (l3_src_ip l3) (src_ip r);
  lp_dst : String.length (l3_dst_ip l3) < 128 ∧ plain_set (l3_dst_ip l3) (dst_ip r);
  lp_dport : dst_port_rule_present r = true → port_member (dport l3) (dst_port r);
  lp_proto : proto_rule_present r = true → int_member (l4_proto l3) (proto r) }.
Record l2_plain (r : fcm_filter_rule) (l2 : fcm_filter_l2_info_t) : Prop := {
  lp_smac : String.length (l2_src_mac l2) < 32 ∧ plain_set (l2_src_mac l2) (smac r);
  lp_dmac : String.length (l2_dst_mac l2) < 32 ∧ plain_set (l2_dst_mac l2) (dmac r) }.
Record rule_plain (r : fcm_filter_rule) (req : fcm_filter_req) : Prop := {
  rp_l3 : ∀ l3, l3_info req = Some l3 → l3_plain r l3;
  rp_l2 : ∀ l2, l2_info req = Some l2 → l2_plain r l2;
  rp_app : ∀ k n, fkey req = Some k → Some n ∈ flow_app_names k → plain_set n (appnames r) }.

(** The sets of the conditions that are present are not NULL. *)
Record rule_wf (r : fcm_filter_rule) : Prop := {
  wf_smac : smac_rule_present r = true → is_Some (smac r);
  wf_dmac : dmac_rule_present r = true → is_Some (dmac r);
  wf_vlanid : vlanid_rule_present r = true → is_Some (vlanid r);
  wf_src_ip : src_ip_rule_present r = true → is_Some (src_ip r);
  wf_dst_ip : dst_ip_rule_present r = true → is_Some (dst_ip r);
  wf_proto : proto_rule_present r = true → is_Some (proto r);
  wf_appnames : appname_present r = true → is_Some (appnames r) }.
(** The tags of the flow have application names. *)
Definition req_wf (req : fcm_filter_req) : Prop :=
  ∀ k n, fkey req = Some k → n ∈ flow_app_names k → is_Some n.

(** *** Evaluation decides the conditions *)

Lemma find_in_tag_spec st v e : decides id (find_in_tag (Some v) e) (tag_match st v e) st.
Proof.
  destruct e as [t|]; [|by apply decides_ret].
  unfold find_in_tag. destruct (om_tag_in_total st (Some v) (Some t)) as [b Hb].
  eapply (decides_bind id id _ _ (b = true)); [by exists b|]. intros b' Hb'. unfold id in Hb'.
  assert (b' = b) as -> by (destruct b, b'; naive_solver). unfold tag_match.
  destruct b; [apply decides_ret; naive_solver|]. eapply decides_deref; [done|]. apply decides_ret.
  unfold id. rewrite Hb. split; [by right|]. intros [[=]|]; done.
Qed.

Lemma any_spec {A} (f : A → PM bool) (P : A → Prop) (l : list A) st :
  (∀ a, a ∈ l → decides id (f a) (P a) st) → decides id (any f l) (∃ a, a ∈ l ∧ P a) st.
Proof.
  induction l as [|a l IH]; intros Hf; simpl.
  { apply decides_ret. split; [done|]. intros (a & Ha & _). by apply elem_of_nil in Ha. }
  eapply decides_bind; [apply Hf; set_solver|]. intros [] Hb; unfold id in Hb.
  - apply decides_ret. set_solver.
  - eapply decides_iff; [|apply IH; intros; apply Hf; set_solver]. set_solver.
Qed.

Lemma in_set_spec st v set (f : option string → PM bool) :
  is_Some set → (∀ e, decides id (f e) (tag_match st v e) st) →
  decides id (l ← deref set; any f l) (in_set st v set) st.
Proof.
  intros [l ->] Hf. simpl. eapply decides_iff; [|by apply any_spec]. unfold in_set. naive_solver.
Qed.

Lemma existsb_elem {A} (f : A → bool) (l : list A) : existsb f l = true ↔ ∃ a, a ∈ l ∧ f a = true.
Proof. rewrite existsb_exists. by setoid_rewrite list_elem_of_In. Qed.

Lemma app_name_in_set_spec st r k :
  is_Some (appnames r) → (∀ n, n ∈ flow_app_names k → is_Some n) →
  decides id (fcm_app_name_in_set r k) (∃ n, Some n ∈ flow_app_names k ∧ in_set st n (appnames r)) st.
Proof.
  intros Hset Hn. unfold fcm_app_name_in_set.
  eapply (decides_iff _ _ (∃ o, o ∈ flow_app_names k ∧ ∃ n, o = Some n ∧ in_set st n (appnames r)));
    [naive_solver|].
  apply any_spec. intros o Ho. destruct (Hn o Ho) as [n ->].
  eapply decides_iff; [|apply (in_set_spec st n); [done|intros e; apply find_in_tag_spec]]. naive_solver.
Qed.

(** A filter: the check of the operation after the test of the set. *)
Lemma check_option_spec present op b P :
  (b = true ↔ P) → present = true → (allows (fcm_check_option op b) = true ↔ cond present op P).
Proof. intros Hb ->. unfold cond. destruct op, b; unfold allows; simpl; naive_solver. Qed.
Lemma check_app_option_spec op b P :
  (b = true ↔ P) → (allows (fcm_check_app_option op b) = true ↔ app_cond true op P).
Proof.
  intros Hb. unfold app_cond, fcm_check_app_option, FCM_APPNAME_OP_IN, FCM_APPNAME_OP_OUT, allows.
  destruct b; simpl; destruct (Z.eqb_spec op 1), (Z.eqb_spec op 2); naive_solver lia.
Qed.
Lemma filter_spec st present op (m : PM bool) (P : Prop) :
  (present = true → decides id m P st) →
  decides allows (if negb present then mret FCM_DEFAULT_TRUE
                  else rc ← m; mret (fcm_check_option op rc)) (cond present op P) st.
Proof.
  intros Hm. destruct present; simpl; [|by apply decides_ret].
  eapply decides_bind; [by apply Hm|]. intros b Hb. apply decides_ret. by apply check_option_spec.
Qed.

Lemma cond_pure st present op b (P : Prop) :
  (b = true ↔ P) →
  decides allows (if negb present then mret FCM_DEFAULT_TRUE else mret (fcm_check_option op b))
    (cond present op P) st.
Proof.
  intros Hb. destruct present; simpl; [|by apply decides_ret]. apply decides_ret. by apply check_option_spec.
Qed.
Lemma port_match_spec port p : port_match port p = true ↔ port_in port p.
Proof. unfold port_match, port_in. lia. Qed.

Lemma pkt_cnt_filter_spec r p :
  allows (fcm_pkt_cnt_filter r (Some p)) = true ↔ count_cond (pktcnt_op r) (pkt_cnt p) (pktcnt r).
Proof.
  unfold fcm_pkt_cnt_filter, count_cond. destruct (pktcnt_op r); simpl; [done|..];
    match goal with |- context [if ?b then FCM_RULED_TRUE else _] => destruct b eqn:Hb end;
    unfold allows; simpl; lia.
Qed.

(** *** The conditions of a rule together *)

Local Abbreviation l3_evals st :=
  (l3_conds (λ v, in_set st (snprintf_s 128 v)) (λ _ _, True) (λ _ _, True)).
Local Abbreviation l2_evals st := (l2_conds (λ v, in_set st (snprintf_s 32 v))).
Local Abbreviation app_evals st := (app_conds (in_set st)).

Lemma l3_allow_spec st r l3 :
  rule_wf r →
  decides id (src_ip_allow ← fcm_src_ip_filter r l3;
              dst_ip_allow ← fcm_dst_ip_filter r l3;
              sport_allow ← fcm_sport_filter r l3;
              dport_allow ← fcm_dport_filter r l3;
              proto_allow ← fcm_l4_proto_filter r l3;
              mret (allows src_ip_allow && allows dst_ip_allow && allows sport_allow
                    && allows dport_allow && allows proto_allow)) (l3_evals st r l3) st.
Proof.
  intros Hwf.
  eapply decides_bind; [apply filter_spec; intros Hp;
    apply in_set_spec; [by apply (wf_src_ip r)|intros e; apply find_in_tag_spec]|intros a1 H1].
  eapply decides_bind; [apply filter_spec; intros Hp;
    apply in_set_spec; [by apply (wf_dst_ip r)|intros e; apply find_in_tag_spec]|intros a2 H2].
  eapply decides_bind; [apply (cond_pure _ _ _ _ (∃ p, p ∈ src_port r ∧ port_in (sport l3) p))|intros a3 H3].
  { unfold fcm_sport_in_set. setoid_rewrite <- port_match_spec. rewrite <- existsb_elem.
    by destruct (existsb _ _). }
  eapply decides_bind; [apply (cond_pure _ _ _ _ True)|intros a4 H4].
  { unfold fcm_dport_in_set. by destruct (existsb _ _). }
  eapply decides_bind; [apply (filter_spec _ _ _ _ True); intros Hp|intros a5 H5].
  { destruct (wf_proto r Hwf Hp) as [l Hl]. eapply decides_deref; [done|]. apply decides_ret.
    by destruct (existsb _ _). }
  apply decides_ret. unfold id, l3_conds. rewrite !andb_true_iff. tauto.
Qed.

Lemma l2_allow_spec st r l2 allow (P : Prop) :
  rule_wf r → (allow = true ↔ P) →
  decides id (smac_allow ← fcm_smacs_filter r l2;
              dmac_allow ← fcm_dmacs_filter r l2;
              vlanid_allow ← fcm_vlanid_filter r l2;
              mret (allow && allows smac_allow && allows dmac_allow && allows vlanid_allow))
    (P ∧ l2_evals st r l2) st.
Proof.
  intros Hwf HP.
  eapply decides_bind; [apply filter_spec; intros Hp;
    apply in_set_spec; [by apply (wf_smac r)|intros e; apply find_in_tag_spec]|intros a1 H1].
  eapply decides_bind; [apply filter_spec; intros Hp;
    apply in_set_spec; [by apply (wf_dmac r)|intros e; apply find_in_tag_spec]|intros a2 H2].
  eapply decides_bind; [apply (filter_spec _ _ _ _ (∃ l, vlanid r = Some l ∧ wraps 32 (vlan_id l2) ∈ l));
    intros Hp|intros a3 H3].
  { destruct (wf_vlanid r Hwf Hp) as [l Hl]. eapply decides_deref; [done|]. apply decides_ret.
    unfold id. rewrite existsb_elem. setoid_rewrite Z.eqb_eq. naive_solver. }
  apply decides_ret. unfold id, l2_conds. rewrite !andb_true_iff. tauto.
Qed.

Lemma app_filter_spec st r k :
  rule_wf r → (∀ n, n ∈ flow_app_names k → is_Some n) →
  decides allows (fcm_app_name_filter r k) (app_evals st r k) st.
Proof.
  intros Hwf Hn. unfold fcm_app_name_filter, app_conds.
  destruct (appname_present r) eqn:Hp; cbn [negb]; [|by apply decides_ret].
  eapply decides_bind; [apply app_name_in_set_spec; [by apply (wf_appnames r)|done]|].
  intros b Hb. apply decides_ret. by apply check_app_option_spec.
Qed.

Lemma rule_allow_spec st r req :
  rule_wf r → req_wf req → decides id (rule_allow r req) (rule_evals st r req) st.
Proof.
  intros Hwf Hreq. unfold rule_allow.
  eapply (decides_bind id _ _ _ (∀ l3, l3_info req = Some l3 → l3_evals st r l3)); [|intros b1 H1].
  { destruct (l3_info req) as [l3|]; [|by apply decides_ret].
    eapply decides_iff; [|by apply l3_allow_spec]. naive_solver. }
  eapply (decides_bind id _ _ _ ((∀ l3, l3_info req = Some l3 → l3_evals st r l3) ∧
    ∀ l2, l2_info req = Some l2 → l2_evals st r l2)); [|intros b2 H2].
  { destruct (l2_info req) as [l2|]; [|apply decides_ret; naive_solver].
    eapply decides_iff; [|by apply l2_allow_spec]. naive_solver. }
  eapply (decides_bind id _ _ _ (((∀ l3, l3_info req = Some l3 → l3_evals st r l3) ∧
    ∀ l2, l2_info req = Some l2 → l2_evals st r l2) ∧ ∀ k, fkey req = Some k → app_evals st r k));
    [|intros b3 H3].
  { destruct (fkey req) as [k|] eqn:Hk; [|apply decides_ret; unfold id in *; rewrite H2; by split; [|intros []]].
    eapply decides_bind; [apply app_filter_spec; [done|intros n; by apply Hreq]|].
    intros a Ha. apply decides_ret. unfold id in *. rewrite andb_true_iff, H2, Ha.
    split; (intros [HP HA]; split; [exact HP|]); [by intros ? [= <-]|by apply HA]. }
  unfold rule_evals, rule_conds, id in *. destruct (pkts req) as [p|]; apply decides_ret;
    rewrite andb_true_iff, H3; cbn [pkts_match].
  - rewrite pkt_cnt_filter_spec. tauto.
  - rewrite bool_decide_eq_true. tauto.
Qed.

(** *** The evaluation of plain rules *)

Lemma and_cong (P P' Q Q' : Prop) : (P ↔ P') → (Q ↔ Q') → P ∧ Q ↔ P' ∧ Q'.
Proof. tauto. Qed.
Lemma impl_cong {A} (x : option A) (P Q : A → Prop) :
  (∀ a, x = Some a → P a ↔ Q a) → (∀ a, x = Some a → P a) ↔ (∀ a, x = Some a → Q a).
Proof. intros HPQ. split; intros HP a Ha; by apply (HPQ a Ha), HP. Qed.
Lemma prefix_self (s : string) : String.prefix s s = true.
Proof. by apply String.prefix_correct, substring_full. Qed.
Lemma cond_iff present op P Q : (present = true → (P ↔ Q)) → cond present op P ↔ cond present op Q.
Proof. intros HPQ. unfold cond. destruct op; tauto. Qed.
Lemma in_set_member st v set : plain_set v set → in_set st v set ↔ member st v set.
Proof.
  intros Hp. unfold in_set, member. split.
  - intros (l & e & -> & He & Hm). destruct (Hp l e eq_refl He) as (t & -> & Ht).
    exists l, t. simpl in Hm. naive_solver.
  - intros (l & t & -> & He & [->|Hm]); exists l; eexists; (split_and!; [done|done|]); simpl; [|by left].
    right. by apply prefix_self.
Qed.
Lemma snprintf_member st n v set :
  String.length v < n ∧ plain_set v set → in_set st (snprintf_s n v) set ↔ member st v set.
Proof. intros [Hlen Hp]. unfold snprintf_s. rewrite substring_full by lia. by apply in_set_member. Qed.

Lemma rule_evals_matches st r req : rule_plain r req → rule_evals st r req ↔ rule_matches st r req.
Proof.
  intros [H3 H2 Ha]. repeat (apply and_cong); [| | |done]; apply impl_cong.
  - intros l3 Hl. destruct (H3 l3 Hl) as [Hs Hd Hp Hpr].
    repeat apply and_cong; apply cond_iff; intros Hpres; [by apply snprintf_member..|done| |].
    + specialize (Hp Hpres). tauto.
    + specialize (Hpr Hpres). tauto.
  - intros l2 Hl. destruct (H2 l2 Hl) as [Hs Hd].
    repeat apply and_cong; apply cond_iff; intros Hpres; [by apply snprintf_member..|done].
  - intros k Hk. unfold app_conds, app_cond.
    assert ((∃ n, Some n ∈ flow_app_names k ∧ in_set st n (appnames r)) ↔
      ∃ n, Some n ∈ flow_app_names k ∧ member st n (appnames r)) as ->; [|done].
    split; intros (n & Hn & Hin); exists n; (split; [done|]); by apply (in_set_member st n _ (Ha k n Hk Hn)).
Qed.
End eval.
