(* ===== verification/FcmFilterInv.v ===== *)
(** The filter tables mirror the rows of the database: the invariant of the
    filter manager, kept by the handlers of row changes. *)
From S2P Require Import Prelude DsTree PolicyTags PolicyTagsRep PolicyTagsInv FcmFilter FcmFilterMgr.
From S2P Require Import FcmFilterEval.

(** Rows the manager can represent: the name fits the buffer of a table, the index
    is within the lookup array, the application operations are known, and the
    string sets of the conditions that are present are not empty. *)
Record valid_row (row : schema_FCM_Filter) : Prop := {
  row_name : String.length (s_name row) < FILTER_NAME_SIZE;
  row_index : (0 ≤ s_index row < Z.of_nat FCM_MAX_FILTERS)%Z;
  row_appname : ∀ op, s_appname_op row = Some op → op = "in" ∨ op = "out";
  row_apptag : ∀ op, s_apptag_op row = Some op → op = "in" ∨ op = "out";
  row_smac : is_Some (s_smac_op row) → s_smac row ≠ [];
  row_dmac : is_Some (s_dmac_op row) → s_dmac row ≠ [];
  row_src_ip : is_Some (s_src_ip_op row) → s_src_ip row ≠ [];
  row_dst_ip : is_Some (s_dst_ip_op row) → s_dst_ip row ≠ [];
  row_appnames : is_Some (s_appname_op row) → s_appnames row ≠ [] }.

(** *** Conversion of a valid row *)

Lemma convert_str_set present set : convert_set present schema2str_set set =
  Some (if present then schema2str_set set else None).
Proof. unfold convert_set. destruct present; [|done]. by destruct set. Qed.
Lemma convert_int_set present set : convert_set present schema2int_set set =
  Some (if present then Some set else None).
Proof. unfold convert_set. destruct present; [|done]. by destruct set. Qed.
Lemma convert_tree kvs : convert_set true schema2tree kvs = Some (schema2tree kvs).
Proof. by destruct kvs. Qed.
Lemma set_app_spec op set :
  (∀ o, op = Some o → o = "in" ∨ o = "out") →
  ∃ z, set_app op set = Some (exists_ op, z, if exists_ op then schema2str_set set else None).
Proof.
  intros Hop. unfold set_app, exists_. destruct op as [o|]; [|by exists 0%Z].
  destruct (Hop o eq_refl) as [-> | ->]; by destruct set; eexists.
Qed.
Lemma schema2str_set_some set : set ≠ [] → is_Some (schema2str_set set).
Proof. by destruct set; [|eexists]. Qed.
Lemma exists_some o : exists_ o = true → is_Some o.
Proof. unfold exists_. by rewrite bool_decide_eq_true. Qed.

(** A valid row is converted, keeping its index, to a rule that can be evaluated. *)
Lemma valid_row_rule row :
  valid_row row → ∃ r, rule_of_row row = Some r ∧ index r = s_index row ∧ rule_wf r.
Proof.
  intros [_ _ Happ Htag Hsm Hdm Hsi Hdi Hnames].
  destruct (set_app_spec _ (s_appnames row) Happ) as [z1 H1].
  destruct (set_app_spec _ (s_apptags row) Htag) as [z2 H2].
  unfold rule_of_row, copy_from_schema_struct, fcm_filter_set_app_names, fcm_filter_set_app_tags.
  rewrite !convert_str_set, !convert_int_set, convert_tree, H1, H2. simpl.
  eexists. split_and!; [done|done|].
  constructor; simpl; intros Hp; rewrite Hp; try (by eexists);
    apply exists_some in Hp; apply schema2str_set_some; auto.
Qed.

(** *** The invariant *)

Section inv.
Context `{TreeFindLaws}.
Implicit Types (s : fcm_state) (rows : gmap (string * Z) schema_FCM_Filter).

(** The slot of a row points to a filter with the rule of the row; other slots are
    empty. *)
Definition slot_ok s (p : positive) (o : option schema_FCM_Filter) (v : option (option positive)) : Prop :=
  match o with
  | Some row => ∃ f r, v = Some (Some f) ∧ fs_filters s !! f = Some (Filter (Some p) r) ∧
      rule_of_row row = Some r
  | None => v = Some None
  end.

Record table_ok s rows (k : string) (p : positive) (t : filter_table) : Prop := {
  tab_name : t_name t = k;
  tab_filters : filters t = [];
  tab_len : length (lookup_array t) = FCM_MAX_FILTERS;
  tab_slot i : i < FCM_MAX_FILTERS → slot_ok s p (rows !! (k, Z.of_nat i)) (lookup_array t !! i);
  tab_nodup : NoDup (filter_rules t);
  tab_rules f : f ∈ filter_rules t ↔ ∃ i, lookup_array t !! i = Some (Some f) }.

Record fm_inv rows s : Prop := {
  fm_tags : pt_inv (fs_tags s);
  fm_wf : wf (fcm_filters s);
  fm_table k p : (k, p) ∈ fcm_filters s → ∃ t, fs_tables s !! p = Some t ∧ table_ok s rows k p t;
  fm_rows k row : rows !! k = Some row →
    valid_row row ∧ k = (s_name row, s_index row) ∧ s_name row ∈ (fcm_filters s).*1 }.

(** *** Lookups *)

Lemma find_table_spec rows s name (Q : option positive → fcm_state → Prop) :
  wf (fcm_filters s) → String.length name < FILTER_NAME_SIZE →
  (∀ p, (name, p) ∈ fcm_filters s → Q (Some p) s) →
  (name ∉ (fcm_filters s).*1 → Q None s) →
  wp (find_table name) Q s.
Proof.
  intros Hwf Hlen Hsome Hnone. apply wp_gets. rewrite substring_full by lia.
  pose proof (find_map name _ Hwf) as Hf. destruct (tree_find name _) as [i|]; simpl.
  - destruct Hf as (p & Hi & _). rewrite Hi. simpl. apply Hsome. by apply list_elem_of_lookup_2 in Hi.
  - by apply Hnone, Hf.
Qed.

Lemma wp_table_at s p t (Q : filter_table → fcm_state → Prop) :
  fs_tables s !! p = Some t → Q t s → wp (table_at p) Q s.
Proof. intros Hp HQ. apply wp_bind, wp_gets. by eapply wp_deref. Qed.
Lemma wp_filter_at s p f (Q : fcm_filter → fcm_state → Prop) :
  fs_filters s !! p = Some f → Q f s → wp (filter_at p) Q s.
Proof. intros Hp HQ. apply wp_bind, wp_gets. by eapply wp_deref. Qed.
Lemma wp_set_table s p t t' (Q : unit → fcm_state → Prop) :
  fs_tables s !! p = Some t → Q tt (with_tables <[p := t']> s) → wp (set_table p t') Q s.
Proof. intros Hp HQ. apply wp_bind. eapply wp_table_at; [done|]. by apply wp_modify. Qed.
Lemma wp_set_filter s p f f' (Q : unit → fcm_state → Prop) :
  fs_filters s !! p = Some f → Q tt (with_filters <[p := f']> s) → wp (set_filter p f') Q s.
Proof. intros Hp HQ. apply wp_bind. eapply wp_filter_at; [done|]. by apply wp_modify. Qed.
Lemma wp_slot_get s p t (i : nat) v (Q : option positive → fcm_state → Prop) :
  i < FCM_MAX_FILTERS → fs_tables s !! p = Some t → lookup_array t !! i = Some v → Q v s →
  wp (slot_get p (Z.of_nat i)) Q s.
Proof.
  intros Hi Hp Hv HQ. unfold slot_get, slot. apply wp_bind. rewrite bool_decide_eq_true_2 by lia.
  apply wp_ret. rewrite Nat2Z.id. apply wp_bind. eapply wp_table_at; [done|]. by eapply wp_deref.
Qed.
Definition set_slot (t : filter_table) (i : nat) (v : option positive) : filter_table :=
  Table (t_name t) (filters t) (filter_rules t) (<[i := v]> (lookup_array t)).
Lemma wp_slot_set s p t (i : nat) v (Q : unit → fcm_state → Prop) :
  i < FCM_MAX_FILTERS → fs_tables s !! p = Some t →
  Q tt (with_tables <[p := set_slot t i v]> s) → wp (slot_set p (Z.of_nat i) v) Q s.
Proof.
  intros Hi Hp HQ. unfold slot_set, slot. apply wp_bind. rewrite bool_decide_eq_true_2 by lia.
  apply wp_ret. rewrite Nat2Z.id. apply wp_bind. eapply wp_table_at; [done|]. by eapply wp_set_table.
Qed.

(** *** Changes of the invariant *)

(** The filters of other tables and slots are not the one at [f]. *)
Lemma slot_ok_other s s' p o v :
  (∀ f x, v = Some (Some f) → fs_filters s !! f = Some x → fs_filters s' !! f = Some x) →
  slot_ok s p o v → slot_ok s' p o v.
Proof. intros Hf. destruct o as [row|]; [|done]. intros (f & r & -> & Hs & Hr). exists f, r. eauto. Qed.

Lemma fm_row_slot rows s k p row :
  fm_inv rows s → (k, p) ∈ fcm_filters s → rows !! (k, s_index row) = Some row →
  ∃ t f r, fs_tables s !! p = Some t ∧ table_ok s rows k p t ∧
    lookup_array t !! Z.to_nat (s_index row) = Some (Some f) ∧
    fs_filters s !! f = Some (Filter (Some p) r) ∧ rule_of_row row = Some r ∧
    index r = s_index row ∧ rule_wf r.
Proof.
  intros Hinv Hp Hrow. destruct (fm_table rows s Hinv k p Hp) as (t & Ht & Hok).
  destruct (fm_rows rows s Hinv _ _ Hrow) as (Hv & Hk & _). pose proof (row_index row Hv) as Hi.
  pose proof (tab_slot _ _ _ _ _ Hok (Z.to_nat (s_index row))) as Hs.
  rewrite Z2Nat.id, Hrow in Hs by lia. destruct Hs as (f & r & Hl & Hf & Hr); [lia|].
  destruct (valid_row_rule row Hv) as (r' & Hr' & Hx & Hw). assert (r' = r) as -> by congruence.
  exists t, f, r. done.
Qed.

(** A filter in a slot determines the table and the slot. *)
Lemma slot_unique rows s k p t i f :
  fm_inv rows s → (k, p) ∈ fcm_filters s → fs_tables s !! p = Some t →
  lookup_array t !! i = Some (Some f) →
  ∃ r, fs_filters s !! f = Some (Filter (Some p) r) ∧ index r = Z.of_nat i.
Proof.
  intros Hinv Hp Ht Hi. destruct (fm_table rows s Hinv k p Hp) as (t' & Ht' & Hok).
  assert (t' = t) as -> by congruence. pose proof (lookup_lt_Some _ _ _ Hi) as Hlt.
  rewrite (tab_len _ _ _ _ _ Hok) in Hlt. pose proof (tab_slot _ _ _ _ _ Hok i Hlt) as Hs.
  rewrite Hi in Hs. destruct (rows !! _) as [row|] eqn:Hrow; [|done].
  destruct Hs as (f' & r & [= <-] & Hf & Hr). exists r. split; [done|].
  destruct (fm_rows rows s Hinv _ _ Hrow) as (Hv & [= _ Hx] & _).
  destruct (valid_row_rule row Hv) as (r' & Hr' & Hx' & _). congruence.
Qed.

Lemma same_key rows s k k' p :
  fm_inv rows s → (k, p) ∈ fcm_filters s → (k', p) ∈ fcm_filters s → k = k'.
Proof.
  intros Hinv (t & Ht & Hok)%(fm_table rows s Hinv) (t' & Ht' & Hok')%(fm_table rows s Hinv).
  assert (t' = t) as -> by congruence. by rewrite <- (tab_name _ _ _ _ _ Hok), <- (tab_name _ _ _ _ _ Hok').
Qed.

(** A new empty table. *)
Lemma new_table_inv rows s s' p name :
  fm_inv rows s → name ∉ (fcm_filters s).*1 → fs_tables s !! p = None →
  String.length name < FILTER_NAME_SIZE →
  fs_tags s' = fs_tags s → fs_filters s' = fs_filters s →
  fs_tables s' = <[p := new_table name]> (fs_tables s) →
  fcm_filters s' = tr_insert name p (fcm_filters s) → fm_inv rows s'.
Proof.
  intros Hinv Hname Hp Hlen Ht Hf Htab Htree. destruct Hinv as [H1 H2 H3 H4].
  split; [by rewrite Ht|rewrite Htree; by apply tr_insert_wf| |].
  - intros k q. rewrite Htree, tr_insert_perm. intros [[= -> ->]|Hq]%elem_of_cons.
    + exists (new_table name). rewrite Htab, lookup_insert_eq. split; [done|].
      constructor; cbn [new_table t_name filters filter_rules lookup_array];
        [apply substring_full; unfold FILTER_NAME_SIZE in *; lia|done|by rewrite length_replicate| |constructor|].
      * intros i Hi. rewrite lookup_replicate_2 by done.
        destruct (rows !! _) as [row|] eqn:Hrow; [|done]. destruct (H4 _ _ Hrow) as (_ & [= -> _] & Hin). done.
      * intros f. split; [by intros ?%elem_of_nil|]. intros [i Hi]. by apply lookup_replicate in Hi as [? _].
    + destruct (H3 k q Hq) as (t & Hqt & Hok). exists t. rewrite Htab, lookup_insert_ne by congruence.
      split; [done|]. destruct Hok. constructor; try done. intros i Hi.
      eapply slot_ok_other; [|by apply tab_slot0]. intros f x _. by rewrite Hf.
  - intros k row Hrow. destruct (H4 k row Hrow) as (? & ? & Hin). split_and!; [done|done|].
    rewrite Htree, tr_insert_perm. set_solver.
Qed.

(** A filter for a new row. *)
Definition filled (t : filter_table) (i : nat) (f : positive) : filter_table :=
  Table (t_name t) (filters t) (filter_rules t ++ [f]) (<[i := Some f]> (lookup_array t)).

(** A change of one table. *)
Lemma change_inv rows rows' s s' name p t' :
  fm_inv rows s → (name, p) ∈ fcm_filters s →
  fs_tags s' = fs_tags s → fcm_filters s' = fcm_filters s → fs_tables s' = <[p := t']> (fs_tables s) →
  table_ok s' rows' name p t' →
  (∀ k i, k ≠ name → rows' !! (k, i) = rows !! (k, i)) →
  (∀ i row, rows' !! (name, i) = Some row → valid_row row ∧ (name, i) = (s_name row, s_index row)) →
  (∀ g q r, q ≠ p → fs_filters s !! g = Some (Filter (Some q) r) →
     fs_filters s' !! g = Some (Filter (Some q) r)) →
  fm_inv rows' s'.
Proof.
  intros Hinv Hp E1 E2 E3 Hok' Hrows Hname Hkeep.
  split; [by rewrite E1; apply Hinv|by rewrite E2; apply (fm_wf rows s)| |].
  - intros k q. rewrite E2. intros Hq. destruct (fm_table rows s Hinv k q Hq) as (t & Ht & Hok).
    destruct (decide (q = p)) as [->|Hne].
    { assert (k = name) as -> by (by eapply same_key). exists t'. by rewrite E3, lookup_insert_eq. }
    exists t. rewrite E3, lookup_insert_ne by done. split; [done|].
    assert (k ≠ name) as Hk.
    { intros ->. destruct Hne. apply (to_map_elem _ _ _ (fm_wf rows s Hinv)) in Hq, Hp. congruence. }
    destruct Hok as [N1 N2 N3 N4 N5 N6]. constructor; try done. intros j Hj. rewrite Hrows by done.
    specialize (N4 j Hj). destruct (rows !! _) as [row|]; [|done].
    destruct N4 as (f & r & Hl & Hf & Hr). exists f, r. auto.
  - intros [k i] row Hrow. rewrite E2. destruct (decide (k = name)) as [->|Hk].
    + destruct (Hname i row Hrow) as [Hv Hx]. split_and!; [done|done|].
      injection Hx as <- _. by apply (list_elem_of_fmap_2 fst) in Hp.
    + rewrite Hrows in Hrow by done. by apply (fm_rows rows s Hinv).
Qed.

Lemma filled_ok rows s s' p t row r f :
  fm_inv rows s → (s_name row, p) ∈ fcm_filters s → fs_tables s !! p = Some t → valid_row row →
  rows !! (s_name row, s_index row) = None → rule_of_row row = Some r → fs_filters s !! f = None →
  fs_filters s' = <[f := Filter (Some p) r]> (fs_filters s) →
  table_ok s' (<[(s_name row, s_index row) := row]> rows) (s_name row) p
    (filled t (Z.to_nat (s_index row)) f).
Proof.
  intros Hinv Hp Ht Hv Hnew Hr Hf E3. pose proof (row_index row Hv) as Hi.
  destruct (fm_table rows s Hinv _ p Hp) as (t' & Ht' & Hok). assert (t' = t) as -> by congruence.
  assert (f ∉ filter_rules t) as Hfr.
  { rewrite (tab_rules _ _ _ _ _ Hok). intros [j Hj].
    destruct (slot_unique rows s _ p t j f Hinv Hp Ht Hj) as (? & ? & _). congruence. }
  destruct Hok as [N1 N2 N3 N4 N5 N6].
  assert (lookup_array t !! Z.to_nat (s_index row) = Some None) as Hempty.
  { specialize (N4 (Z.to_nat (s_index row))). rewrite Z2Nat.id, Hnew in N4 by lia. apply N4. lia. }
  constructor; simpl; [done|done|by rewrite length_insert| | |].
  - intros j Hj. destruct (decide (j = Z.to_nat (s_index row))) as [->|Hne].
    + rewrite Z2Nat.id, lookup_insert_eq, list_lookup_insert_eq by lia. exists f, r.
      rewrite E3, lookup_insert_eq. done.
    + rewrite lookup_insert_ne, list_lookup_insert_ne by (done || intros [= ?]; lia).
      eapply slot_ok_other; [|by apply N4]. intros g x _ Hg. rewrite E3, lookup_insert_ne; congruence.
  - apply NoDup_app. split_and!; [done|set_solver|apply NoDup_singleton].
  - intros g. rewrite elem_of_app, list_elem_of_singleton, N6. split.
    + intros [[j Hj]| ->].
      * exists j. rewrite list_lookup_insert_ne; [done|]. intros <-. congruence.
      * exists (Z.to_nat (s_index row)). by rewrite list_lookup_insert_eq by lia.
    + intros [j Hj]. destruct (decide (j = Z.to_nat (s_index row))) as [->|Hne].
      * rewrite list_lookup_insert_eq in Hj by lia. right. congruence.
      * rewrite list_lookup_insert_ne in Hj by done. eauto.
Qed.

Lemma fill_inv rows s s' p t row r f :
  fm_inv rows s → (s_name row, p) ∈ fcm_filters s → fs_tables s !! p = Some t → valid_row row →
  rows !! (s_name row, s_index row) = None → rule_of_row row = Some r → fs_filters s !! f = None →
  fs_tags s' = fs_tags s → fcm_filters s' = fcm_filters s →
  fs_filters s' = <[f := Filter (Some p) r]> (fs_filters s) →
  fs_tables s' = <[p := filled t (Z.to_nat (s_index row)) f]> (fs_tables s) →
  fm_inv (<[(s_name row, s_index row) := row]> rows) s'.
Proof.
  intros Hinv Hp Ht Hv Hnew Hr Hf E1 E2 E3 E4.
  eapply change_inv; [done|done|done|done|done|by eapply filled_ok|..].
  - intros k i Hk. rewrite lookup_insert_ne; congruence.
  - intros i row'. rewrite lookup_insert_Some. intros [[[= <-] <-]|[_ Hrow]]; [done|].
    by destruct (fm_rows rows s Hinv _ _ Hrow) as (? & ? & _).
  - intros g q x _ Hg. rewrite E3, lookup_insert_ne; congruence.
Qed.

(** The filter of a deleted row. *)
Definition cleared (t : filter_table) (i : nat) (f : positive) : filter_table :=
  Table (t_name t) (filters t) (List.remove Pos.eq_dec f (filter_rules t)) (<[i := None]> (lookup_array t)).

Lemma elem_of_remove (f g : positive) l : g ∈ List.remove Pos.eq_dec f l ↔ g ∈ l ∧ g ≠ f.
Proof.
  rewrite !list_elem_of_In. split; [apply in_remove|]. intros [? ?]. by apply in_in_remove.
Qed.
Lemma NoDup_remove (f : positive) l : NoDup l → NoDup (List.remove Pos.eq_dec f l).
Proof.
  induction 1 as [|g l Hg Hl IH]; simpl; [constructor|]. destruct (Pos.eq_dec f g); [done|].
  constructor; [|done]. rewrite elem_of_remove. naive_solver.
Qed.

Lemma clear_inv rows s s' p t row f :
  fm_inv rows s → (s_name row, p) ∈ fcm_filters s → fs_tables s !! p = Some t →
  (0 ≤ s_index row < Z.of_nat FCM_MAX_FILTERS)%Z →
  lookup_array t !! Z.to_nat (s_index row) = Some (Some f) →
  fs_tags s' = fs_tags s → fcm_filters s' = fcm_filters s →
  fs_filters s' = delete f (fs_filters s) →
  fs_tables s' = <[p := cleared t (Z.to_nat (s_index row)) f]> (fs_tables s) →
  fm_inv (delete (s_name row, s_index row) rows) s'.
Proof.
  intros Hinv Hp Ht Hi Hslot E1 E2 E3 E4.
  destruct (slot_unique rows s _ p t _ f Hinv Hp Ht Hslot) as (r & Hf & Hx).
  assert (∀ j g, lookup_array t !! j = Some (Some g) → j ≠ Z.to_nat (s_index row) → g ≠ f) as Hother.
  { intros j g Hj Hne ->. destruct (slot_unique rows s _ p t _ f Hinv Hp Ht Hj) as (r' & Hf' & Hx').
    rewrite Hf in Hf'. injection Hf' as <-. lia. }
  destruct (fm_table rows s Hinv _ p Hp) as (t' & Ht' & Hok). assert (t' = t) as -> by congruence.
  eapply change_inv; [done|done|done|done|done| |..].
  - destruct Hok as [N1 N2 N3 N4 N5 N6].
    constructor; simpl; [done|done|by rewrite length_insert| |by apply NoDup_remove|].
    + intros j Hj. destruct (decide (j = Z.to_nat (s_index row))) as [->|Hne].
      * rewrite Z2Nat.id, lookup_delete_eq, list_lookup_insert_eq by lia. done.
      * rewrite lookup_delete_ne, list_lookup_insert_ne by (done || intros [= ?]; lia).
        eapply slot_ok_other; [|by apply N4]. intros g x Hg. rewrite E3, lookup_delete_ne; [done|].
        intros ->. by eapply Hother.
    + intros g. rewrite elem_of_remove, N6. split.
      * intros [[j Hj] Hne]. exists j. rewrite list_lookup_insert_ne; [done|]. intros <-. congruence.
      * intros [j Hj]. destruct (decide (j = Z.to_nat (s_index row))) as [->|Hne].
        -- rewrite list_lookup_insert_eq in Hj by lia. done.
        -- rewrite list_lookup_insert_ne in Hj by done. eauto.
  - intros k i Hk. rewrite lookup_delete_ne; congruence.
  - intros i row'. rewrite lookup_delete_Some. intros [_ Hrow].
    by destruct (fm_rows rows s Hinv _ _ Hrow) as (? & ? & _).
  - intros g q x Hne Hg. rewrite E3, lookup_delete_ne; [done|]. intros ->. congruence.
Qed.
End inv.
