(* ===== verification/FcmFilterThms.v ===== *)
(** Properties of the flow filters: the decision of a table, the tables as a
    mirror of the database, and what goes wrong. *)
From S2P Require Import Prelude DsTree PolicyTags PolicyTagsRep PolicyTagsInv PolicyTagsProps FcmFilter.
From S2P Require Import FcmFilterMgr FcmFilterEval FcmFilterInv.

Section ops.
Context `{TreeFindLaws}.
Implicit Types (s : fcm_state) (rows : gmap (string * Z) schema_FCM_Filter).

(** *** The handlers keep the invariant *)

(** Only the objects, the tree and the tags matter. *)
Lemma fm_inv_ext rows s s' :
  (pt_inv (fs_tags s) → pt_inv (fs_tags s')) → fs_filters s' = fs_filters s → fs_tables s' = fs_tables s →
  fcm_filters s' = fcm_filters s → fm_inv rows s → fm_inv rows s'.
Proof.
  intros E1 E2 E3 E4 [H1 H2 H3 H4]. split; [auto|by rewrite E4| |by rewrite E4].
  intros k p. rewrite E3, E4. intros Hp. destruct (H3 k p Hp) as (t & Ht & Hok). exists t. split; [done|].
  destruct Hok as [N1 N2 N3 N4 N5 N6]. constructor; try done. intros i Hi.
  eapply slot_ok_other; [|by apply N4]. intros f x _. by rewrite E2.
Qed.

Lemma update_loop_spec name t cs s (Q : unit → fcm_state → Prop) :
  (∀ u, Q tt (with_updates (λ _, u) s)) → wp (update_loop name t cs) Q s.
Proof.
  revert s. induction cs as [|c cs IH]; intros s HQ; simpl.
  { apply wp_ret. destruct s. apply HQ. }
  apply wp_bind. destruct (bool_decide _); [|by apply wp_ret, IH].
  destruct (update_client c); [|by apply wp_ret, IH]. apply wp_modify, IH. intros u. apply HQ.
Qed.
Lemma update_clients_spec t tab s (Q : unit → fcm_state → Prop) :
  fs_tables s !! t = Some tab → (∀ u, Q tt (with_updates (λ _, u) s)) →
  wp (fcm_filter_update_clients t) Q s.
Proof.
  intros Ht HQ. apply wp_bind. eapply wp_table_at; [done|]. apply wp_bind, wp_gets. by apply update_loop_spec.
Qed.

(** The table of a row, created if need be. *)
Lemma get_table_spec rows s name (Q : positive → fcm_state → Prop) :
  fm_inv rows s → String.length name < FILTER_NAME_SIZE →
  (∀ p s', fm_inv rows s' → (name, p) ∈ fcm_filters s' → Q p s') →
  wp (get_table name) Q s.
Proof.
  intros Hinv Hlen HQ. apply wp_bind.
  eapply find_table_spec; [done|by apply (fm_wf rows s)|done| |].
  - intros p Hp. apply wp_ret. by apply HQ.
  - intros Hnew. apply wp_bind, wp_gets. set (t := fresh _). apply wp_bind, wp_modify, wp_bind, wp_modify, wp_ret.
    assert (t_name (new_table name) = name) as Hn.
    { cbn [new_table t_name]. apply substring_full. unfold FILTER_NAME_SIZE in *. lia. }
    apply HQ; [|cbn -[tr_insert new_table]; rewrite Hn, tr_insert_perm; set_solver].
    eapply (new_table_inv rows s _ t name); [done|done| |done|done|done|done|].
    { apply not_elem_of_dom, is_fresh. }
    cbn -[tr_insert new_table]. by rewrite Hn.
Qed.

Lemma insert_schema_spec rows s row p t (Q : option positive → fcm_state → Prop) :
  fm_inv rows s → valid_row row → rows !! (s_name row, s_index row) = None →
  (s_name row, p) ∈ fcm_filters s → fs_tables s !! p = Some t →
  (∀ f s', fs_tables s' !! p = Some (filled t (Z.to_nat (s_index row)) f) →
     fm_inv (<[(s_name row, s_index row) := row]> rows) s' → Q (Some f) s') →
  wp (fcm_filter_insert_schema p row) Q s.
Proof.
  intros Hinv Hv Hnew Hp Ht HQ. pose proof (row_index row Hv) as Hi.
  destruct (valid_row_rule row Hv) as (r & Hr & _). unfold fcm_filter_insert_schema. rewrite Hr.
  apply wp_bind, wp_gets. set (f := fresh _). apply wp_bind, wp_modify, wp_bind.
  rewrite <- (Z2Nat.id (s_index row)) by lia. eapply wp_slot_set; [lia|done|].
  apply wp_bind. eapply wp_table_at; [by apply lookup_insert_eq|]. apply wp_bind.
  eapply wp_set_table; [by apply lookup_insert_eq|]. apply wp_ret.
  apply HQ; [apply lookup_insert_eq|].
  eapply (fill_inv rows s _ p t row r f); [done|done|done|done|done|done| |done|done|done|].
  - apply not_elem_of_dom, is_fresh.
  - cbn. by rewrite insert_insert_eq.
Qed.

Lemma fcm_filter_get_spec rows s row (Q : option positive → fcm_state → Prop) :
  fm_inv rows s → valid_row row → rows !! (s_name row, s_index row) = None →
  (∀ f s', fm_inv (<[(s_name row, s_index row) := row]> rows) s' → Q f s') →
  wp (fcm_filter_get row) Q s.
Proof.
  intros Hinv Hv Hnew HQ. pose proof (row_index row Hv) as Hi. unfold fcm_filter_get. apply wp_bind.
  eapply get_table_spec; [done|apply Hv|]. intros p s1 Hinv1 Hp.
  destruct (fm_table rows s1 Hinv1 _ p Hp) as (t & Ht & Hok).
  assert (lookup_array t !! Z.to_nat (s_index row) = Some None) as Hslot.
  { pose proof (tab_slot _ _ _ _ _ Hok (Z.to_nat (s_index row))) as Hs.
    rewrite Z2Nat.id, Hnew in Hs by lia. apply Hs. lia. }
  pose proof (tab_len _ _ _ _ _ Hok) as Hlen.
  apply wp_bind. rewrite <- (Z2Nat.id (s_index row)) by lia.
  eapply wp_slot_get; [lia|done|done|]. apply wp_bind.
  eapply insert_schema_spec; [done|done|done|done|done|]. intros f s2 Ht2 Hinv2.
  apply wp_bind. eapply wp_slot_set; [lia|done|].
  assert (set_slot (filled t (Z.to_nat (s_index row)) f) (Z.to_nat (s_index row)) (Some f)
    = filled t (Z.to_nat (s_index row)) f) as ->.
  { unfold set_slot, filled. cbn. by rewrite list_insert_insert_eq. }
  apply wp_bind. eapply update_clients_spec; [apply lookup_insert_eq|]. intros u.
  eapply wp_slot_get; [lia|apply lookup_insert_eq|apply list_lookup_insert_eq; lia|].
  apply HQ. eapply fm_inv_ext; [..|exact Hinv2]; try done. cbn. by apply insert_id.
Qed.

Lemma fcm_add_filter_spec rows s row (Q : unit → fcm_state → Prop) :
  fm_inv rows s → valid_row row → rows !! (s_name row, s_index row) = None →
  (∀ s', fm_inv (<[(s_name row, s_index row) := row]> rows) s' → Q tt s') →
  wp (fcm_add_filter row) Q s.
Proof.
  intros Hinv Hv Hnew HQ. pose proof (row_index row Hv) as Hi. unfold fcm_add_filter.
  rewrite bool_decide_eq_false_2 by lia. apply wp_bind. eapply fcm_filter_get_spec; [done..|].
  intros f s' Hs'. apply wp_ret. auto.
Qed.

Lemma fcm_delete_filter_spec rows s row row0 (Q : unit → fcm_state → Prop) :
  fm_inv rows s → rows !! (s_name row, s_index row) = Some row0 →
  (∀ s', fm_inv (delete (s_name row, s_index row) rows) s' → Q tt s') →
  wp (fcm_delete_filter row) Q s.
Proof.
  intros Hinv Hrow HQ. destruct (fm_rows rows s Hinv _ _ Hrow) as (Hv & [= Hn Hx] & Hin).
  pose proof (row_index row0 Hv) as Hi. pose proof (row_name row0 Hv) as Hlen.
  unfold fcm_delete_filter, fcm_filter_lookup. apply wp_bind, wp_bind.
  eapply find_table_spec; [done|by apply (fm_wf rows s)|by rewrite Hn| |intros Hno; by rewrite Hn in Hno].
  intros p Hp. rewrite Hx in Hrow.
  destruct (fm_row_slot rows s (s_name row) p row0 Hinv Hp Hrow) as (t & f & r & Ht & Hok & Hslot & Hf & Hr & Hxr & _).
  apply wp_bind. rewrite Hx, <- (Z2Nat.id (s_index row0)) by lia. eapply wp_slot_get; [lia|done|done|].
  apply wp_bind. eapply wp_deref; [done|]. apply wp_bind. eapply wp_filter_at; [done|].
  apply wp_bind. eapply wp_set_filter; [done|]. apply wp_ret. unfold fcm_free_filter.
  apply wp_bind. eapply wp_filter_at; [apply lookup_insert_eq|]. apply wp_bind.
  eapply wp_deref; [done|]. apply wp_bind. eapply wp_table_at; [done|]. apply wp_bind.
  unfold dl_remove. rewrite bool_decide_eq_true_2 by (apply (tab_rules _ _ _ _ _ Hok); eauto). apply wp_ret.
  apply wp_bind. eapply wp_set_table; [done|]. apply wp_bind, wp_modify. cbn [filter_rule].
  rewrite Hxr, <- (Z2Nat.id (s_index row0)) by lia. eapply wp_slot_set; [lia|apply lookup_insert_eq|].
  apply HQ. rewrite <- Hx in Hi, Hslot. rewrite <- ?Hx.
  eapply (clear_inv rows s _ p t row f); [done|done|done|done|done|done|done| |].
  - cbn. by rewrite delete_insert_eq.
  - cbn. by rewrite insert_insert_eq.
Qed.

(** *** Sequences of events *)

Inductive fcm_event :=
| EvFilter (mon : mon_type) (old_rec new_rec : schema_FCM_Filter)
| EvTag (mon : mon_type) (old_rec new_rec : schema_Openflow_Tag)
| EvTagGroup (mon : mon_type) (old_rec new_rec : schema_Openflow_Tag_Group)
| EvRegister (client : fcm_filter_client)
| EvDeregister (client : fcm_filter_client).

Definition run_event (e : fcm_event) : M fcm_state unit :=
  match e with
  | EvFilter mon o n => callback_FCM_Filter mon o n
  | EvTag mon o n => callback_Openflow_Tag mon o n
  | EvTagGroup mon o n => callback_Openflow_Tag_Group mon o n
  | EvRegister c => fcm_filter_register_client c;; mret tt
  | EvDeregister c => fcm_filter_deregister_client c;; mret tt
  end.
Definition row_key (row : schema_FCM_Filter) : string * Z := (s_name row, s_index row).

(** The rows of the database after an event. *)
Definition rows_after (e : fcm_event) rows : gmap (string * Z) schema_FCM_Filter :=
  match e with
  | EvFilter OVSDB_UPDATE_NEW _ n | EvFilter OVSDB_UPDATE_MODIFY _ n => <[row_key n := n]> rows
  | EvFilter OVSDB_UPDATE_DEL o _ => delete (row_key o) rows
  | _ => rows
  end.

(** Rows are valid and have distinct keys, and a modification keeps the key. *)
Definition valid_event rows (e : fcm_event) : Prop :=
  match e with
  | EvFilter OVSDB_UPDATE_NEW _ n => valid_row n ∧ rows !! row_key n = None
  | EvFilter OVSDB_UPDATE_DEL o _ => rows !! row_key o = Some o
  | EvFilter OVSDB_UPDATE_MODIFY o n => valid_row n ∧ row_key n = row_key o ∧ rows !! row_key o = Some o
  | EvTag OVSDB_UPDATE_DEL _ _ => True
  | EvTag _ _ n => NoDup (device_value n)
  | _ => True
  end.

Lemma tags_do_inv {A} rows s (m : M pt_state A) :
  fm_inv rows s → wp m (λ _ t, pt_inv t) (fs_tags s) → wp (tags_do m) (λ _ s', fm_inv rows s') s.
Proof.
  intros Hinv Hm. unfold wp, tags_do in *. destruct (m (fs_tags s)) as [[a t]|]; [|done].
  by eapply fm_inv_ext; [..|exact Hinv].
Qed.
Lemma tags_event_inv {A} rows s (m : M pt_state A) op :
  fm_inv rows s → valid_op op → (∀ st, wp (run_op op) (λ _ t, pt_inv t) st → wp m (λ _ t, pt_inv t) st) →
  wp (tags_do m;; mret tt) (λ _ s', fm_inv rows s') s.
Proof.
  intros Hinv Hop Hm. apply wp_bind. eapply wp_mono; [apply tags_do_inv; [done|]|by intros; apply wp_ret].
  apply Hm, run_op_inv; [apply Hinv|done].
Qed.

Lemma run_event_inv rows s e :
  fm_inv rows s → valid_event rows e → wp (run_event e) (λ _ s', fm_inv (rows_after e rows) s') s.
Proof.
  intros Hinv Hval. destruct e as [[] o n|[] o n|[] o n|c|c]; cbn [run_event rows_after valid_event] in *.
  - destruct Hval as [Hv Hnew]. by eapply fcm_add_filter_spec.
  - eapply fcm_delete_filter_spec; [done|done|]. done.
  - destruct Hval as (Hv & Hk & Hold). pose proof (row_index n Hv) as Hi.
    unfold callback_FCM_Filter, fcm_update_filter.
    rewrite bool_decide_eq_false_2 by (unfold FCM_MAX_FILTER_BY_NAME, FCM_MAX_FILTERS in *; lia).
    apply wp_bind. rewrite <- Hk in Hold. eapply fcm_delete_filter_spec; [done|exact Hold|].
    intros s1 Hinv1. eapply fcm_add_filter_spec; [done|done|apply lookup_delete_eq|].
    intros s2. by rewrite insert_delete_eq.
  - by apply (tags_event_inv _ _ _ (TagAdd n)).
  - by apply (tags_event_inv _ _ _ (TagRemove o)).
  - by apply (tags_event_inv _ _ _ (TagUpdate n)).
  - by apply (tags_event_inv _ _ _ (GroupAdd n)).
  - by apply (tags_event_inv _ _ _ (GroupRemove o)).
  - by apply (tags_event_inv _ _ _ (GroupUpdate n)).
  - apply wp_bind. unfold fcm_filter_register_client. destruct (session c); [|by apply wp_ret, wp_ret].
    apply wp_bind, wp_gets. destruct (find_client c (clients s) ≫= _) as [[i pc]|].
    + apply wp_bind, wp_modify, wp_ret, wp_ret. by eapply fm_inv_ext; [..|exact Hinv].
    + apply wp_bind, wp_gets, wp_bind, wp_modify, wp_ret, wp_ret. by eapply fm_inv_ext; [..|exact Hinv].
  - apply wp_bind. unfold fcm_filter_deregister_client. destruct (session c); [|by apply wp_ret, wp_ret].
    apply wp_bind, wp_gets. destruct (find_client c (clients s)); [|by apply wp_ret, wp_ret].
    apply wp_bind, wp_modify, wp_ret, wp_ret. by eapply fm_inv_ext; [..|exact Hinv].
Qed.

Fixpoint run_events (es : list fcm_event) (s : fcm_state) : option fcm_state :=
  match es with
  | [] => Some s
  | e :: es => match run_event e s with Some (_, s') => run_events es s' | None => None end
  end.
Fixpoint valid_events rows (es : list fcm_event) : Prop :=
  match es with
  | [] => True
  | e :: es => valid_event rows e ∧ valid_events (rows_after e rows) es
  end.
Definition final_rows rows (es : list fcm_event) : gmap (string * Z) schema_FCM_Filter :=
  foldl (λ rows e, rows_after e rows) rows es.

Lemma run_events_inv rows s es :
  fm_inv rows s → valid_events rows es →
  ∃ s', run_events es s = Some s' ∧ fm_inv (final_rows rows es) s'.
Proof.
  revert rows s. induction es as [|e es IH]; intros rows s Hinv Hval; [eauto|].
  destruct Hval as [He Hval]. cbn [run_events].
  destruct (proj1 (wp_some _ _ _) (run_event_inv rows s e Hinv He)) as ([] & s1 & -> & Hinv1).
  by apply IH.
Qed.

(** The state of a zeroed manager after [fcm_filter_init]. *)
Definition fcm_zero (mgr : bool) : fcm_state := Fcm (pt_init mgr) ∅ ∅ [] [] false [].
Definition fcm_start (mgr : bool) : fcm_state := Fcm (pt_init mgr) ∅ ∅ [] [] true [].
Lemma fcm_init_start mgr : fcm_filter_init (fcm_zero mgr) = Some (0%Z, fcm_start mgr).
Proof. done. Qed.
Lemma fcm_start_inv mgr : fm_inv ∅ (fcm_start mgr).
Proof.
  split; [apply pt_init_inv|apply wf_nil|by intros k p ?%elem_of_nil|].
  intros k row Hk. by rewrite lookup_empty in Hk.
Qed.

(** The rule in a slot of a table. *)
Definition rule_at s (p : positive) (i : nat) : option fcm_filter_rule :=
  t ← fs_tables s !! p; e ← lookup_array t !! i; f ← e; filter_rule <$> fs_filters s !! f.

Lemma rule_at_rows rows s k p i :
  fm_inv rows s → (k, p) ∈ fcm_filters s → i < FCM_MAX_FILTERS →
  rule_at s p i = rows !! (k, Z.of_nat i) ≫= rule_of_row.
Proof.
  intros Hinv Hp Hi. destruct (fm_table rows s Hinv k p Hp) as (t & Ht & Hok).
  pose proof (tab_slot _ _ _ _ _ Hok i Hi) as Hs. unfold rule_at. rewrite Ht. cbn [mbind option_bind].
  destruct (rows !! _) as [row|]; cbn [slot_ok mbind option_bind] in *.
  - destruct Hs as (f & r & -> & Hf & Hr). cbn [mbind option_bind]. by rewrite Hf.
  - by rewrite Hs.
Qed.

(** *** The decision of a table *)

Lemma rule_at_wf rows s k p i r :
  fm_inv rows s → (k, p) ∈ fcm_filters s → i < FCM_MAX_FILTERS → rule_at s p i = Some r → rule_wf r.
Proof.
  intros Hinv Hp Hi. rewrite (rule_at_rows rows s k p i Hinv Hp Hi).
  destruct (rows !! _) as [row|] eqn:Hrow; [|done]. simpl. intros Hr.
  destruct (fm_rows rows s Hinv _ _ Hrow) as (Hv & _).
  destruct (valid_row_rule row Hv) as (r' & Hr' & _ & Hw). congruence.
Qed.

(** The first rule from slot [i] on that applies, and no earlier one does. *)
Definition first_match s (req : fcm_filter_req) (p : positive) (i j : nat) (r : fcm_filter_rule) : Prop :=
  i ≤ j < FCM_MAX_FILTERS ∧ rule_at s p j = Some r ∧ rule_matches (fs_tags s) r req ∧
  ∀ j' r', i ≤ j' < j → rule_at s p j' = Some r' → ¬ rule_matches (fs_tags s) r' req.

Lemma tags_do_decides s (m : M pt_state bool) P :
  decides id m P (fs_tags s) → ∃ b, tags_do m s = Some (b, s) ∧ (b = true ↔ P).
Proof. intros (b & Hm & Hb). exists b. split; [|done]. unfold tags_do. rewrite Hm. by destruct s. Qed.

Lemma first_match_cons s req p i :
  (∀ r, rule_at s p i = Some r → ¬ rule_matches (fs_tags s) r req) →
  ∀ P : fcm_filter_rule → Prop,
  (∃ j r, first_match s req p (S i) j r ∧ P r) ↔ (∃ j r, first_match s req p i j r ∧ P r).
Proof.
  intros Hno P. split; intros (j & r & (Hj & Hr & Hm & Hmin) & HP); exists j, r; (split; [|done]).
  - split_and!; [lia|lia|done|done|]. intros j' r' Hj'.
    destruct (decide (j' = i)) as [->|]; [apply Hno|apply Hmin; lia].
  - assert (j ≠ i) by (intros ->; by eapply Hno). split_and!; [lia|lia|done|done|].
    intros j' r' Hj'. apply Hmin. lia.
Qed.

Lemma apply_loop_spec rows s k p t trace req i action_op :
  fm_inv rows s → (k, p) ∈ fcm_filters s → fs_tables s !! p = Some t → req_wf req → i ≤ FCM_MAX_FILTERS →
  (∀ j r, j < FCM_MAX_FILTERS → rule_at s p j = Some r → rule_plain r req) →
  (trace = false → action_op = true) →
  ∃ b, apply_loop trace (drop i (lookup_array t)) req action_op s = Some (b, s) ∧
    (b = true ↔ ∃ j r, first_match s req p i j r ∧ (trace = true → action r ≠ FCM_EXCLUDE)).
Proof.
  intros Hinv Hp Ht Hreq Hi Hplain. remember (FCM_MAX_FILTERS - i) as n eqn:Hn. revert i Hi Hn action_op.
  destruct (fm_table rows s Hinv k p Hp) as (t' & Ht' & Hok). assert (t' = t) as -> by congruence.
  pose proof (tab_len _ _ _ _ _ Hok) as Hlen.
  induction n as [|n IH]; intros i Hi Hn action_op Hact.
  { exists false. rewrite drop_ge by lia. split; [done|]. split; [done|]. intros (j & r & (? & _) & _). lia. }
  destruct (lookup_lt_is_Some_2 (lookup_array t) i) as [e He]; [lia|].
  rewrite (drop_S _ e) by done. assert (i < FCM_MAX_FILTERS) as Hlt by lia.
  destruct e as [f|]; cbn [apply_loop].
  2: { destruct (IH (S i)) with (action_op := action_op) as (b & -> & Hb); [lia|lia|done|].
    exists b. split; [done|]. rewrite Hb. apply first_match_cons. unfold rule_at. rewrite Ht. cbn. by rewrite He. }
  destruct (slot_unique rows s k p t i f Hinv Hp Ht He) as (r & Hf & _).
  assert (rule_at s p i = Some r) as Hr.
  { unfold rule_at. rewrite Ht. cbn [mbind option_bind]. rewrite He. cbn [mbind option_bind]. by rewrite Hf. }
  destruct (tags_do_decides s _ _ (rule_allow_spec (fs_tags s) r req
    (rule_at_wf rows s k p i r Hinv Hp Hlt Hr) Hreq)) as (b & Hb & Hm).
  rewrite rule_evals_matches in Hm by by apply (Hplain i).
  unfold filter_at, gets, mbind, M_bind. rewrite Hf. cbn [deref mret M_ret filter_rule]. rewrite Hb.
  destruct b.
  - eexists. split; [done|]. rewrite andb_true_l. split.
    + intros Ha. exists i, r. split; [by split_and!; [lia|lia|done|by apply Hm|intros; lia]|].
      intros ->. unfold fcm_action_filter in Ha. by destruct (action r).
    + intros (j & r' & (Hj & Hr' & _ & Hmin) & Ha).
      assert (j = i) as ->. { destruct (decide (j = i)); [done|]. destruct (Hmin i r ltac:(lia) Hr). by apply Hm. }
      assert (r' = r) as -> by congruence. destruct trace; [|auto].
      unfold fcm_action_filter. specialize (Ha eq_refl). by destruct (action r).
  - destruct (IH (S i)) with (action_op := if trace then fcm_action_filter r else action_op)
      as (b & -> & Hb'); [lia|lia|by destruct trace|].
    exists b. split; [done|]. rewrite Hb'. apply first_match_cons. intros r' Hr'.
    assert (r' = r) as -> by congruence. intros Hx. by apply Hm in Hx.
Qed.
End ops.
