(* ===== verification/FcmFilterProps.v ===== *)
(** The properties of the flow filters. *)
From S2P Require Import Prelude DsTree PolicyTags PolicyTagsRep PolicyTagsInv PolicyTagsProps FcmFilter.
From S2P Require Import FcmFilterMgr FcmFilterEval FcmFilterInv FcmFilterThms.

(** The same rule with other destination ports and protocols. *)
Definition with_dport_proto (r : fcm_filter_rule) (ports : list ip_port) (protos : list Z) : fcm_filter_rule :=
  Rule (rule_name r) (index r) (smac_rule_present r) (smac_op r) (smac r)
    (dmac_rule_present r) (dmac_op r) (dmac r) (vlanid_rule_present r) (vlanid_op r) (vlanid r)
    (src_ip_rule_present r) (src_ip_op r) (src_ip r) (dst_ip_rule_present r) (dst_ip_op r) (dst_ip r)
    (src_port_rule_present r) (src_port_op r) (src_port r)
    (dst_port_rule_present r) (dst_port_op r) ports
    (proto_rule_present r) (proto_op r) (Some protos) (pktcnt_rule_present r) (pktcnt_op r) (pktcnt r)
    (appname_present r) (appname_op r) (appnames r) (app_tag_present r) (app_tag_op r) (app_tags r)
    (other_config r) (action r).

Section props.
Context `{TreeFindLaws}.
Implicit Types (s : fcm_state) (rows : gmap (string * Z) schema_FCM_Filter).

(** C13. [fcm_apply_filter] decides a request without a fault and without a
    change of state: without a table the flow is included; otherwise the first
    rule of the table whose conditions all hold decides, and a flow no rule
    applies to is excluded.  A rule that applies includes the flow; its action
    "exclude" is honoured only when trace logging is enabled.

    A condition holds when the value of the flow is (or with "out", is not) one of
    the values of the rule or in a tag that the rule names.  The hypothesis on the
    rules of the table excludes what the code does not decide that way: a rule
    with destination ports or protocols that do not list those of the flow (taken
    for listed, [fcm_dport_proto_ignored]) and a value that is the proper start of
    an entry (taken for that entry, [fcm_prefix_taken_for_value]). *)
Theorem fcm_apply_filter_correct rows s trace req :
  fm_inv rows s → req_wf req →
  (∀ p, req_table req = Some p → ∃ name, (name, p) ∈ fcm_filters s) →
  (∀ p j r, req_table req = Some p → j < FCM_MAX_FILTERS → rule_at s p j = Some r → rule_plain r req) →
  ∃ b, fcm_apply_filter trace req s = Some (b, s) ∧
    (b = true ↔ ∀ p, req_table req = Some p →
       ∃ j r, first_match s req p 0 j r ∧ (trace = true → action r ≠ FCM_EXCLUDE)).
Proof.
  intros Hinv Hreq Htab Hplain. unfold fcm_apply_filter. destruct (req_table req) as [p|]; [|by exists true].
  destruct (Htab p eq_refl) as [k Hk]. destruct (fm_table rows s Hinv k p Hk) as (t & Ht & _).
  destruct (apply_loop_spec rows s k p t trace req 0 true Hinv Hk Ht Hreq) as (b & Hb & Hiff); [lia|by intros j r; apply Hplain|done|].
  exists b. unfold table_at, gets, mbind, M_bind. rewrite Ht. split; [done|]. rewrite Hiff. naive_solver.
Qed.

(** C27. The filter tables mirror the table FCM_Filter of the database.  After any
    sequence of row notifications for valid rows with distinct keys, interleaved
    with changes of tags and tag groups and with clients that come and go, nothing
    has faulted, every row is found in its slot of the table with its name,
    converted to a rule, and every rule in a slot comes from such a row. *)
Theorem fcm_tables_mirror_rows es mgr :
  valid_events ∅ es →
  ∃ s, run_events es (fcm_start mgr) = Some s ∧
    let rows := final_rows ∅ es in
    (∀ row, rows !! row_key row = Some row →
       ∃ p r, (s_name row, p) ∈ fcm_filters s ∧ rule_of_row row = Some r ∧
         rule_at s p (Z.to_nat (s_index row)) = Some r) ∧
    (∀ name p i r, (name, p) ∈ fcm_filters s → i < FCM_MAX_FILTERS → rule_at s p i = Some r →
       ∃ row, rows !! (name, Z.of_nat i) = Some row ∧ rule_of_row row = Some r).
Proof.
  intros Hval. destruct (run_events_inv ∅ _ es (fcm_start_inv mgr) Hval) as (s & Hrun & Hinv).
  exists s. split; [done|]. cbn zeta. split.
  - intros row Hrow. destruct (fm_rows _ s Hinv _ _ Hrow) as (Hv & _ & ([k p] & Hk & Hp)%list_elem_of_fmap).
    simpl in Hk. subst k. destruct (valid_row_rule row Hv) as (r & Hr & _). pose proof (row_index row Hv).
    exists p, r. split_and!; [done|done|]. rewrite (rule_at_rows _ s _ p _ Hinv Hp) by lia.
    rewrite Z2Nat.id by lia. unfold row_key in Hrow. by rewrite Hrow.
  - intros name p i r Hp Hi. rewrite (rule_at_rows _ s _ p i Hinv Hp Hi).
    destruct (final_rows ∅ es !! _) as [row|]; [|done]. simpl. eauto.
Qed.

(** A deletion or a modification of a row for which the table has no rule
    crashes: the slot is NULL, or beyond the array for an index of 60 or more
    (which the database schema allows, and [fcm_update_filter] up to 63).  Such a
    row is one whose addition was rejected, or one whose index was modified. *)
Theorem fcm_missing_row_faults rows s row other :
  fm_inv rows s → s_name row ∈ (fcm_filters s).*1 → String.length (s_name row) < FILTER_NAME_SIZE →
  rows !! row_key row = None →
  callback_FCM_Filter OVSDB_UPDATE_DEL row other s = None ∧
  ((0 ≤ s_index row < FCM_MAX_FILTER_BY_NAME)%Z →
   callback_FCM_Filter OVSDB_UPDATE_MODIFY other row s = None).
Proof.
  intros Hinv Hname Hlen Hrow.
  assert (fcm_delete_filter row s = None) as Hdel.
  { apply list_elem_of_fmap in Hname as ([k p0] & Hk & Hp0). simpl in Hk. subst k.
    unfold fcm_delete_filter, fcm_filter_lookup, find_table, gets, mbind, M_bind.
    rewrite substring_full by lia. pose proof (find_map (s_name row) _ (fm_wf rows s Hinv)) as Hfind.
    destruct (tree_find (s_name row) (fcm_filters s)) as [i|]; cbn [mbind option_bind fmap option_fmap].
    2: { destruct Hfind as [Hn _]. destruct Hn. by apply (list_elem_of_fmap_2 fst) in Hp0. }
    destruct Hfind as (p & Hi & _). rewrite Hi. simpl. apply list_elem_of_lookup_2 in Hi.
    destruct (fm_table rows s Hinv _ p Hi) as (t & Ht & Hok).
    unfold slot_get, slot, table_at, gets, mbind, M_bind. case_bool_decide as Hx; [|done]. simpl. rewrite Ht. simpl.
    pose proof (tab_slot _ _ _ _ _ Hok (Z.to_nat (s_index row))) as Hs.
    rewrite Z2Nat.id in Hs by lia. unfold row_key in Hrow. rewrite Hrow in Hs.
    cbn [slot_ok] in Hs. by rewrite Hs by lia. }
  split; [done|]. intros Hi. unfold callback_FCM_Filter, fcm_update_filter.
  rewrite bool_decide_eq_false_2 by lia. unfold mbind, M_bind. by rewrite Hdel.
Qed.

(** The values of the conditions on the destination port and on the protocol
    have no effect on whether a rule applies, and a rule that has such a condition
    with the operation "out" never applies to a flow with addresses. *)
Theorem fcm_dport_proto_ignored st r req ports protos :
  rule_wf r → req_wf req →
  rule_allow (with_dport_proto r ports protos) req st = rule_allow r req st ∧
  (is_Some (l3_info req) →
   dst_port_rule_present r = true ∧ dst_port_op r = FCM_OP_OUT ∨
   proto_rule_present r = true ∧ proto_op r = FCM_OP_OUT →
   rule_allow r req st = Some (false, st)).
Proof.
  intros Hwf Hreq.
  assert (rule_wf (with_dport_proto r ports protos)) as Hwf' by (destruct Hwf; by constructor).
  destruct (rule_allow_spec st r req Hwf Hreq) as (b & Hb & Hm).
  destruct (rule_allow_spec st _ req Hwf' Hreq) as (b' & Hb' & Hm'). unfold id in *.
  split.
  - rewrite Hb, Hb'. assert (b' = true ↔ b = true) as Heq by (by rewrite Hm, Hm').
    destruct b, b'; naive_solver.
  - intros [l3 Hl3] Hout. rewrite Hb. destruct b; [|done]. exfalso.
    destruct (proj1 Hm eq_refl) as (Hl & _). destruct (Hl l3 Hl3) as (_ & _ & _ & Hd & Hpr).
    unfold cond in *. destruct Hout as [[Hp Ho]|[Hp Ho]]; [specialize (Hd Hp)|specialize (Hpr Hp)];
      rewrite Ho in *; tauto.
Qed.

(** A value that is the start of an entry passes for a member of the set. *)
Theorem fcm_prefix_taken_for_value st v t :
  String.prefix v t = true → fcm_find_ip_addr_in_tag (Some v) (Some t) st = Some (true, st).
Proof.
  intros Hp. destruct (find_in_tag_spec st v (Some t)) as (b & Hb & Hiff).
  unfold fcm_find_ip_addr_in_tag. rewrite Hb. assert (b = true) as -> by (apply Hiff; by right). done.
Qed.
End props.

(** *** Witnesses *)

(** A row that excludes the TCP flows of a device from some ports to port 443. *)
Definition row1 : schema_FCM_Filter :=
  SFilter "t" 3 (Some "in") ["aa:bb"] None [] None [] None [] None [] (Some "in") ["80"; "100-200"]
    (Some "in") ["443"] (Some "in") [6%Z] None 0 None [] None [] [] "exclude".
Lemma row1_valid : valid_row row1.
Proof. by constructor; simpl; try (unfold FILTER_NAME_SIZE, FCM_MAX_FILTERS; lia); try (by intros []). Qed.
Definition req1 : fcm_filter_req :=
  Req (Some (L2 "aa:bb" "cc:dd" 0)) (Some (L3 "10.0.0.1" "10.0.0.2" 150 443 6)) None (Some 1%positive) None.
Definition events1 : list fcm_event := [EvFilter OVSDB_UPDATE_NEW row1 row1].
Lemma events1_valid : valid_events ∅ events1.
Proof. by split; [split; [apply row1_valid|]|]. Qed.
Definition state1 : fcm_state := default (fcm_start true) (run_events events1 (fcm_start true)).
Lemma state1_inv : fm_inv (final_rows ∅ events1) state1.
Proof.
  unfold state1. destruct (run_events_inv ∅ _ events1 (fcm_start_inv true) events1_valid) as (s & Hs & Hinv).
  by rewrite Hs.
Qed.

(** Its only rule is plain for the request. *)
Lemma state1_plain p j r :
  req_table req1 = Some p → j < FCM_MAX_FILTERS → rule_at state1 p j = Some r → rule_plain r req1.
Proof.
  intros [= <-] Hj. rewrite (rule_at_rows _ state1 "t" 1%positive j state1_inv) by (vm_compute; left || done).
  change (final_rows ∅ events1) with (<[("t", 3%Z):=row1]> (∅ : gmap (string * Z) schema_FCM_Filter)).
  rewrite lookup_insert. case_decide; [|by rewrite lookup_empty]. intros [= <-]. constructor; [| |done].
  - intros l3 [= <-]. constructor; simpl; [by split; [lia|]|by split; [lia|]| |].
    + intros _. eexists. split; [left|]. by right.
    + intros _. eexists. split; [done|left].
  - intros l2 [= <-]. constructor; simpl; (split; [lia|]); [|done].
    intros l e [= <-] ->%list_elem_of_singleton. by eexists.
Qed.
Lemma fcm_apply_filter_correct_witness :
  ∃ b, fcm_apply_filter false req1 state1 = Some (b, state1) ∧ b = true.
Proof.
  destruct (fcm_apply_filter_correct _ state1 false req1 state1_inv) as (b & Hb & _).
  - intros k n [=].
  - intros p [= <-]. exists "t". vm_compute. left.
  - exact state1_plain.
  - exists b. split; [exact Hb|]. vm_compute in Hb. by injection Hb as <-.
Defined.

Lemma fcm_tables_mirror_rows_witness :
  ∃ s, run_events events1 (fcm_start true) = Some s ∧
    ∃ p r, ("t", p) ∈ fcm_filters s ∧ rule_at s p 3 = Some r ∧ action r = FCM_EXCLUDE.
Proof.
  destruct (fcm_tables_mirror_rows events1 true events1_valid) as (s & Hs & Hrows & _).
  exists s. split; [exact Hs|]. destruct (Hrows row1) as (p & r & Hp & Hr & Hat); [done|].
  exists p, r. split_and!; [exact Hp|exact Hat|]. by injection Hr as <-.
Defined.

Lemma fcm_missing_row_faults_witness :
  callback_FCM_Filter OVSDB_UPDATE_DEL
    (SFilter "t" 60 None [] None [] None [] None [] None [] None [] None [] None [] None 0 None [] None [] [] "")
    row1 state1 = None.
Proof.
  destruct (fcm_missing_row_faults _ state1
    (SFilter "t" 60 None [] None [] None [] None [] None [] None [] None [] None [] None 0 None [] None [] [] "")
    row1 state1_inv) as [Hd _].
  - vm_compute. left.
  - unfold FILTER_NAME_SIZE. simpl. lia.
  - done.
  - exact Hd.
Defined.

Lemma fcm_dport_proto_ignored_witness :
  rule_allow (with_dport_proto (default zero_rule (rule_of_row row1)) [IpPort 22 0] [17%Z]) req1 (pt_init true)
  = rule_allow (default zero_rule (rule_of_row row1)) req1 (pt_init true).
Proof.
  apply (fcm_dport_proto_ignored (pt_init true) (default zero_rule (rule_of_row row1)) req1 [IpPort 22 0] [17%Z]).
  - destruct (valid_row_rule row1 row1_valid) as (r & Hr & _ & Hw). rewrite Hr. exact Hw.
  - intros k n [=].
Defined.
