(* ===== verification/FsmPolicy.v ===== *)
(** Policies of the flow service manager: matching a request against the policies
    of a table (src/lib/fsm_policy/src/fsm_policy.c, and the sorting of categories
    in fsm_policy_ovsdb.c).

    A request is checked by device, name, address, category and risk level, and the
    policy found sets the fields of the reply.  Categorisation and risk come from a
    provider, the gatekeeper from another plugin, and cached verdicts from the DNS
    cache: these are arguments of the model, functions on the state of the request. *)
From Stdlib Require Import Ascii.
From S2P Require Import Prelude DsTree PolicyTags FcmFilter FcmFilterMgr.

(** *** Enumerations (fsm_policy.h) *)
Inductive fsm_action :=
  | FSM_ACTION_NONE | FSM_BLOCK | FSM_ALLOW | FSM_OBSERVED | FSM_NO_MATCH | FSM_REDIRECT | FSM_FORWARD
  | FSM_UPDATE_TAG | FSM_GATEKEEPER_REQ | FSM_FLUSH_CACHE | FSM_FLUSH_ALL_CACHE.
Inductive fqdn_cat := FSM_FQDN_CAT_NOP | FSM_FQDN_CAT_FAILED | FSM_FQDN_CAT_PENDING | FSM_FQDN_CAT_SUCCESS.
Inductive fqdn_lookup := FSM_FQDN_OP_XM | FSM_FQDN_OP_SFR | FSM_FQDN_OP_SFL | FSM_FQDN_OP_WILD.
Inductive mac_ops := MAC_OP_OUT | MAC_OP_IN.
Inductive fqdn_ops :=
  | FQDN_OP_IN | FQDN_OP_SFR_IN | FQDN_OP_SFL_IN | FQDN_OP_WILD_IN
  | FQDN_OP_OUT | FQDN_OP_SFR_OUT | FQDN_OP_SFL_OUT | FQDN_OP_WILD_OUT | FQDN_OP_TRUE.
Inductive cat_ops := CAT_OP_OUT | CAT_OP_IN | CAT_OP_TRUE.
Inductive risk_ops :=
  | RISK_OP_EQ | RISK_OP_NEQ | RISK_OP_GT | RISK_OP_LT | RISK_OP_GTE | RISK_OP_LTE | RISK_OP_TRUE.
Inductive ip_ops := IP_OP_OUT | IP_OP_IN | IP_OP_TRUE.
Inductive url_svc := IP2ACTION_BC_SVC | IP2ACTION_WP_SVC | IP2ACTION_GK_SVC.
Inductive fsm_req_type :=
  | FSM_UNKNOWN_REQ_TYPE | FSM_FQDN_REQ | FSM_URL_REQ | FSM_HOST_REQ | FSM_SNI_REQ | FSM_IPV4_REQ
  | FSM_IPV6_REQ | FSM_APP_REQ | FSM_IPV4_FLOW_REQ | FSM_IPV6_FLOW_REQ.
(** Report values are ordered: the highest wins. *)
Definition FSM_REPORT_NONE : Z := 0.
Definition FSM_REPORT_BLOCKED : Z := 1.
Definition FSM_REPORT_ALL : Z := 2.
Definition FSM_MAX_POLICIES : nat := 60.

#[export] Instance fsm_action_eq_dec : EqDecision fsm_action.
Proof. solve_decision. Defined.
#[export] Instance fqdn_cat_eq_dec : EqDecision fqdn_cat.
Proof. solve_decision. Defined.
#[export] Instance fqdn_lookup_eq_dec : EqDecision fqdn_lookup.
Proof. solve_decision. Defined.
#[export] Instance mac_ops_eq_dec : EqDecision mac_ops.
Proof. solve_decision. Defined.
#[export] Instance fqdn_ops_eq_dec : EqDecision fqdn_ops.
Proof. solve_decision. Defined.
#[export] Instance cat_ops_eq_dec : EqDecision cat_ops.
Proof. solve_decision. Defined.
#[export] Instance ip_ops_eq_dec : EqDecision ip_ops.
Proof. solve_decision. Defined.
#[export] Instance fsm_req_type_eq_dec : EqDecision fsm_req_type.
Proof. solve_decision. Defined.

(** *** Policies, requests and replies *)

(** [struct fsm_policy_rules] *)
Record fsm_policy_rules := Rules {
  mac_rule_present : bool; mac_op : mac_ops; macs : str_set;
  fqdn_rule_present : bool; fqdn_op : fqdn_ops; fqdns : str_set;
  cat_rule_present : bool; cat_op : cat_ops; categories : int_set;
  risk_rule_present : bool; risk_op : risk_ops; risk_level : Z;
  ip_rule_present : bool; ip_op : ip_ops; ipaddrs : str_set }.

(** [struct fsm_policy] *)
Record fsm_policy := Policy {
  table_name : string; idx : Z; p_rule_name : option string;
  rules : fsm_policy_rules;
  redirects : str_set;
  p_other_config : option (list (string * string));
  p_action : fsm_action; report_type : Z }.

(** [struct fsm_url_reply]: the union holds the member of the service. *)
Inductive url_info := BcInfo (reputation : Z) | WpInfo (risk : Z) | GkInfo (confidence : Z).
Record fsm_url_reply := UrlReply { service_id : url_svc; url_categories : list Z; reply_info : url_info }.

(** [struct fsm_policy_req], with the pointers it is reached by: [req_info] is
    [fqdn_req->req_info], [None] if that is NULL, and [ip_version] is
    [acc->key->ip_version]. *)
Record fsm_policy_req := PReq {
  device_id : option (list Z);
  req_type : fsm_req_type;
  url : option string;
  ip_addr : string;
  ip_version : option Z;
  req_info : option (option fsm_url_reply);
  req_policy : option fsm_policy;
  req_rule_name : option string;
  req_action : fsm_action;
  policy_index : Z;
  report : bool }.

(** [struct fsm_policy_reply]; the callbacks are present or NULL. *)
Record fsm_policy_reply := PReply {
  cat_match : Z; r_action : fsm_action; rd_ttl : Z; categorized : fqdn_cat; log : Z;
  r_policy : option string; policy_idx : Z; r_rule_name : option string;
  updatev4_tag : option string; updatev6_tag : option string; excluded_devices : option string;
  redirect : bool; r_redirects : list string;
  from_cache : bool; cat_unknown_to_service : bool;
  has_categories_check : bool; has_risk_level_check : bool; has_gatekeeper_req : bool;
  has_policy_response : bool }.

(** What the DNS cache holds for a device and an address. *)
Record ip2action := Ip2Action {
  lk_service : url_svc; lk_categories : list Z; lk_info : url_info; lk_cat_unknown : bool }.

(** The calls of plugin code, in order. *)
Inductive plugin_call := CallCategories (p : fsm_policy) | CallRisk (p : fsm_policy) | CallGatekeeper | CallResponse.

Record fsm_state := Fsm {
  fsm_tags : pt_state; fsm_req : fsm_policy_req; fsm_reply : fsm_policy_reply; calls : list plugin_call }.
Abbreviation FSM := (M fsm_state).

Definition upd_req f (s : fsm_state) : fsm_state := Fsm (fsm_tags s) (f (fsm_req s)) (fsm_reply s) (calls s).
Definition upd_reply f (s : fsm_state) : fsm_state := Fsm (fsm_tags s) (fsm_req s) (f (fsm_reply s)) (calls s).
Definition call (c : plugin_call) : FSM unit :=
  modify (λ s, Fsm (fsm_tags s) (fsm_req s) (fsm_reply s) (calls s ++ [c])).
Definition with_tag_state {A} (m : M pt_state A) : FSM A := λ s,
  match m (fsm_tags s) with
  | Some (a, t) => Some (a, Fsm t (fsm_req s) (fsm_reply s) (calls s))
  | None => None
  end.

(** Field updates of the reply. *)
Definition set_r_action a (r : fsm_policy_reply) : fsm_policy_reply :=
  PReply (cat_match r) a (rd_ttl r) (categorized r) (log r) (r_policy r) (policy_idx r) (r_rule_name r)
    (updatev4_tag r) (updatev6_tag r) (excluded_devices r) (redirect r) (r_redirects r) (from_cache r)
    (cat_unknown_to_service r) (has_categories_check r) (has_risk_level_check r) (has_gatekeeper_req r)
    (has_policy_response r).
Definition set_log v (r : fsm_policy_reply) : fsm_policy_reply :=
  PReply (cat_match r) (r_action r) (rd_ttl r) (categorized r) v (r_policy r) (policy_idx r) (r_rule_name r)
    (updatev4_tag r) (updatev6_tag r) (excluded_devices r) (redirect r) (r_redirects r) (from_cache r)
    (cat_unknown_to_service r) (has_categories_check r) (has_risk_level_check r) (has_gatekeeper_req r)
    (has_policy_response r).
Definition set_cat_match v (r : fsm_policy_reply) : fsm_policy_reply :=
  PReply v (r_action r) (rd_ttl r) (categorized r) (log r) (r_policy r) (policy_idx r) (r_rule_name r)
    (updatev4_tag r) (updatev6_tag r) (excluded_devices r) (redirect r) (r_redirects r) (from_cache r)
    (cat_unknown_to_service r) (has_categories_check r) (has_risk_level_check r) (has_gatekeeper_req r)
    (has_policy_response r).
Definition set_cached unknown (r : fsm_policy_reply) : fsm_policy_reply :=
  PReply (cat_match r) (r_action r) (rd_ttl r) FSM_FQDN_CAT_SUCCESS (log r) (r_policy r) (policy_idx r)
    (r_rule_name r) (updatev4_tag r) (updatev6_tag r) (excluded_devices r) (redirect r) (r_redirects r) true
    unknown (has_categories_check r) (has_risk_level_check r) (has_gatekeeper_req r) (has_policy_response r).
Definition set_tags v4 v6 (r : fsm_policy_reply) : fsm_policy_reply :=
  PReply (cat_match r) (r_action r) (rd_ttl r) (categorized r) (log r) (r_policy r) (policy_idx r) (r_rule_name r)
    v4 v6 (excluded_devices r) (redirect r) (r_redirects r) (from_cache r)
    (cat_unknown_to_service r) (has_categories_check r) (has_risk_level_check r) (has_gatekeeper_req r)
    (has_policy_response r).
Definition set_excluded v (r : fsm_policy_reply) : fsm_policy_reply :=
  PReply (cat_match r) (r_action r) (rd_ttl r) (categorized r) (log r) (r_policy r) (policy_idx r) (r_rule_name r)
    (updatev4_tag r) (updatev6_tag r) v (redirect r) (r_redirects r) (from_cache r)
    (cat_unknown_to_service r) (has_categories_check r) (has_risk_level_check r) (has_gatekeeper_req r)
    (has_policy_response r).
Definition set_record (p : fsm_policy) (r : fsm_policy_reply) : fsm_policy_reply :=
  PReply (cat_match r) (r_action r) (rd_ttl r) (categorized r) (log r) (Some (table_name p)) (idx p)
    (p_rule_name p) (updatev4_tag r) (updatev6_tag r) (excluded_devices r) (redirect r) (r_redirects r)
    (from_cache r) (cat_unknown_to_service r) (has_categories_check r) (has_risk_level_check r)
    (has_gatekeeper_req r) (has_policy_response r).
Definition set_redirect (b : bool) ttl rds (r : fsm_policy_reply) : fsm_policy_reply :=
  PReply (cat_match r) (r_action r) ttl (categorized r) (log r) (r_policy r) (policy_idx r) (r_rule_name r)
    (updatev4_tag r) (updatev6_tag r) (excluded_devices r) b rds (from_cache r)
    (cat_unknown_to_service r) (has_categories_check r) (has_risk_level_check r) (has_gatekeeper_req r)
    (has_policy_response r).
(** Field updates of the request. *)
Definition set_url_reply v (r : fsm_policy_req) : fsm_policy_req :=
  PReq (device_id r) (req_type r) (url r) (ip_addr r) (ip_version r) (Some v) (req_policy r)
    (req_rule_name r) (req_action r) (policy_index r) (report r).
Definition set_req_policy v (r : fsm_policy_req) : fsm_policy_req :=
  PReq (device_id r) (req_type r) (url r) (ip_addr r) (ip_version r) (req_info r) v
    (req_rule_name r) (req_action r) (policy_index r) (report r).
Definition set_report b name act i (r : fsm_policy_req) : fsm_policy_req :=
  PReq (device_id r) (req_type r) (url r) (ip_addr r) (ip_version r) (req_info r) (req_policy r)
    name act i b.

(** *** Categories: sorting and searching *)

(** [fsm_cat_cmp] *)
Definition fsm_cat_cmp (c1 c2 : Z) : Z := wraps 32 (c1 - c2).

(** [qsort] with that comparison. *)
Fixpoint sort_insert (c : Z) (l : list Z) : list Z :=
  match l with
  | [] => [c]
  | d :: l' => if (fsm_cat_cmp c d <=? 0)%Z then c :: l else d :: sort_insert c l'
  end.
Definition qsort (l : list Z) : list Z := foldr sort_insert [] l.
(** [fsm_policy_sort_cats] *)
Definition fsm_policy_sort_cats (categories : int_set) : int_set := qsort <$> categories.

(** [bsearch]: bisection of the interval [l, u); the fuel bounds its length. *)
Fixpoint bsearch (fuel : nat) (key : Z) (base : list Z) (l u : nat) : option nat :=
  match fuel with
  | O => None
  | S fuel =>
      if l <? u then
        let i := (l + u) / 2 in
        let c := fsm_cat_cmp key (nth i base 0%Z) in
        if (c <? 0)%Z then bsearch fuel key base l i
        else if (0 <? c)%Z then bsearch fuel key base (S i) u
        else Some i
      else None
  end.
(** [cat_search] *)
Definition cat_search (val : Z) (p : fsm_policy) : bool :=
  match categories (rules p) with
  | None => false
  | Some set => bool_decide (is_Some (bsearch (S (length set)) val set 0 (length set)))
  end.

(** *** Strings *)

(** [snprintf] with [PRI_os_macaddr_lower_t]. *)
Definition hex_digit (n : Z) : ascii :=
  match String.get (Z.to_nat n) "0123456789abcdef" with Some c => c | None => "0"%char end.
Definition hex2 (b : Z) : string := String (hex_digit (b / 16)) (String (hex_digit (b mod 16)) "").
Fixpoint mac_str (mac : list Z) : string :=
  match mac with
  | [] => ""
  | [b] => hex2 b
  | b :: mac => hex2 b +:+ String ":" (mac_str mac)
  end.

(** The first token of [strtok_r] with the delimiter ".". *)
Fixpoint token (s : string) : string :=
  match s with
  | EmptyString => ""
  | String c s' => if bool_decide (c = "."%char) then "" else String c (token s')
  end.
Fixpoint strtok (s : string) : option string :=
  match s with
  | EmptyString => None
  | String c s' => if bool_decide (c = "."%char) then strtok s' else Some (token s)
  end.

Section fsm.
Context `{TreeFind}.
(** [fnmatch(pattern, string, 0) == 0] *)
Variable fnmatch : string → string → bool.
(** [dns_cache_ip2action_lookup] for a device and an address. *)
Variable dns_cache_lookup : option (list Z) → string → option ip2action.
(** The plugins. *)
Variable categories_check : fsm_policy → FSM bool.
Variable risk_level_check : fsm_policy → FSM bool.
Variable gatekeeper_req : FSM bool.

(** *** Device *)

(** [find_mac_in_set] *)
Fixpoint mac_in_entries (mac_s : string) (entries : list (option string)) : FSM bool :=
  match entries with
  | [] => mret false
  | e :: entries =>
      rc ← with_tag_state (om_tag_in (Some mac_s) e);
      if (rc : bool) then mret true
      else
        entry ← deref e;
        if String.prefix mac_s entry then mret true else mac_in_entries mac_s entries
  end.
Definition find_mac_in_set (mac : list Z) (macs_set : list (option string)) : FSM bool :=
  mac_in_entries (mac_str mac) macs_set.
(** [fsm_device_in_set] *)
Definition fsm_device_in_set (p : fsm_policy) : FSM bool :=
  match macs (rules p) with
  | None => mret false
  | Some macs_set =>
      mac ← gets (λ s, device_id (fsm_req s));
      mac ← deref mac;
      find_mac_in_set mac macs_set
  end.
(** [fsm_mac_check] *)
Definition fsm_mac_check (policy : fsm_policy) : FSM bool :=
  let rules := rules policy in
  if negb (mac_rule_present rules) then mret true
  else
    rc ← fsm_device_in_set policy;
    if rc && bool_decide (mac_op rules = MAC_OP_OUT) then mret false
    else if negb rc && bool_decide (mac_op rules = MAC_OP_IN) then mret false
    else mret true.

(** *** Name *)

(** [fsm_policy_wildmatch]: the first labels are compared in fresh copies of the
    two strings.  If they match, the copies are freed and the next iteration calls
    [strtok_r] on the saved pointers into them. *)
Definition fsm_policy_wildmatch {S : Type} (pattern domain : string) : M S bool :=
  match strtok pattern, strtok domain with
  | None, None => mret true
  | Some sub1, Some sub2 => if fnmatch sub1 sub2 then fault else mret false
  | _, _ => mret false
  end.

(** [fsm_fqdn_in_set] *)
Fixpoint fqdn_in_entries (op : fqdn_lookup) (fqdn_req : option string) (entries : list (option string)) :
    FSM bool :=
  match entries with
  | [] => mret false
  | e :: entries =>
      entry_set ← deref e;
      fqdn ← deref fqdn_req;
      if String.length fqdn <? String.length entry_set then fqdn_in_entries op fqdn_req entries
      else if bool_decide (op = FSM_FQDN_OP_WILD) then fsm_policy_wildmatch entry_set fqdn
      else
        let fqdn' := if bool_decide (op = FSM_FQDN_OP_SFR)
                     then skip (String.length fqdn - String.length entry_set) fqdn else fqdn in
        if String.prefix entry_set fqdn' then mret true else fqdn_in_entries op fqdn_req entries
  end.
Definition fsm_fqdn_in_set (p : fsm_policy) (op : fqdn_lookup) : FSM bool :=
  match fqdns (rules p) with
  | None => mret false
  | Some set => u ← gets (λ s, url (fsm_req s)); fqdn_in_entries op u set
  end.

(** [fsm_fqdn_check] *)
Definition fqdn_in_policy (op : fqdn_ops) : bool :=
  match op with FQDN_OP_IN | FQDN_OP_SFR_IN | FQDN_OP_SFL_IN | FQDN_OP_WILD_IN => true | _ => false end.
Definition fqdn_lookup_of (op : fqdn_ops) : fqdn_lookup :=
  match op with
  | FQDN_OP_SFR_IN | FQDN_OP_SFR_OUT => FSM_FQDN_OP_SFR
  | FQDN_OP_SFL_IN | FQDN_OP_SFL_OUT => FSM_FQDN_OP_SFL
  | FQDN_OP_WILD_IN | FQDN_OP_WILD_OUT => FSM_FQDN_OP_WILD
  | _ => FSM_FQDN_OP_XM
  end.
Definition fsm_fqdn_check (policy : fsm_policy) : FSM bool :=
  let rules := rules policy in
  if negb (fqdn_rule_present rules) then mret true
  else
    let in_policy := fqdn_in_policy (fqdn_op rules) in
    rc ← fsm_fqdn_in_set policy (fqdn_lookup_of (fqdn_op rules));
    if rc && negb in_policy then mret false
    else if negb rc && in_policy then mret false
    else mret true.

(** *** Address *)

(** [fsm_ip_in_set] *)
Fixpoint ip_in_entries (u : string) (entries : list (option string)) : FSM bool :=
  match entries with
  | [] => mret false
  | e :: entries =>
      entry_set ← deref e;
      if (String.length entry_set =? String.length u) && String.prefix entry_set u then mret true
      else ip_in_entries u entries
  end.
Definition fsm_ip_in_set (p : fsm_policy) : FSM bool :=
  v ← gets (λ s, ip_version (fsm_req s));
  v ← deref v;
  if negb ((v =? 4)%Z || (v =? 6)%Z) then mret false
  else
    match ipaddrs (rules p) with
    | None => mret false
    | Some set => u ← gets (λ s, url (fsm_req s)); u ← deref u; ip_in_entries u set
    end.
(** [fsm_ip_check] *)
Definition fsm_ip_check (policy : fsm_policy) : FSM bool :=
  let rules := rules policy in
  if negb (ip_rule_present rules) then mret true
  else
    let in_policy := bool_decide (ip_op rules = IP_OP_IN) in
    rc ← fsm_ip_in_set policy;
    if rc && negb in_policy then mret false
    else if negb rc && in_policy then mret false
    else mret true.

(** *** Category and risk *)

(** [req->fqdn_req->req_info->reply] *)
Definition url_reply : FSM (option fsm_url_reply) := i ← gets (λ s, req_info (fsm_req s)); deref i.

(** [fsm_fqdncats_in_set] *)
Fixpoint cats_in_set (cats : list Z) (p : fsm_policy) : FSM bool :=
  match cats with
  | [] => mret false
  | c :: cats =>
      if cat_search c p then modify (upd_reply (set_cat_match c));; mret true
      else cats_in_set cats p
  end.
Definition fsm_fqdncats_in_set (p : fsm_policy) : FSM bool :=
  reply ← url_reply;
  reply ← deref reply;
  cats_in_set (url_categories reply) p.

(** [fsm_dns_cache_lookup] *)
Definition fsm_dns_cache_lookup : FSM bool :=
  rt ← gets (λ s, req_type (fsm_req s));
  if negb (bool_decide (rt = FSM_IPV4_REQ) || bool_decide (rt = FSM_IPV6_REQ)) then mret false
  else
    cached ← gets (λ s, from_cache (fsm_reply s));
    if (cached : bool) then mret true
    else
      lkp ← gets (λ s, dns_cache_lookup (device_id (fsm_req s)) (ip_addr (fsm_req s)));
      match lkp with
      | None => mret false
      | Some l =>
          modify (upd_reply (set_cached (lk_cat_unknown l)));;
          url_reply;;
          modify (upd_req (set_url_reply (Some (UrlReply (lk_service l) (lk_categories l) (lk_info l)))));;
          mret true
      end.

(** [risk_level_compare] *)
Definition reply_risk (r : fsm_url_reply) : Z :=
  match service_id r, reply_info r with
  | IP2ACTION_WP_SVC, WpInfo v => v
  | IP2ACTION_BC_SVC, BcInfo v => v
  | IP2ACTION_GK_SVC, GkInfo v => wraps 32 v
  | _, _ => -1
  end.
Definition risk_level_compare (r : fsm_url_reply) (policy : fsm_policy) : bool :=
  let risk := reply_risk r in
  let bound := risk_level (rules policy) in
  match risk_op (rules policy) with
  | RISK_OP_EQ => (risk =? bound)%Z
  | RISK_OP_GT => (bound <? risk)%Z
  | RISK_OP_GTE => (bound <=? risk)%Z
  | RISK_OP_LT => (risk <? bound)%Z
  | RISK_OP_LTE => (risk <=? bound)%Z
  | RISK_OP_NEQ => negb (risk =? bound)%Z
  | RISK_OP_TRUE => false
  end.

(** [fsm_cat_check] *)
Definition fsm_cat_check (policy : fsm_policy) : FSM bool :=
  fsm_dns_cache_lookup;;
  let rules := rules policy in
  if negb (cat_rule_present rules) then mret true
  else
    has ← gets (λ s, has_categories_check (fsm_reply s));
    if negb has then mret false
    else
      cat ← gets (λ s, categorized (fsm_reply s));
      if bool_decide (cat ≠ FSM_FQDN_CAT_NOP) then
        rc ← fsm_fqdncats_in_set policy;
        if rc && bool_decide (cat_op rules = CAT_OP_OUT) then mret false
        else if negb rc && bool_decide (cat_op rules = CAT_OP_IN) then mret false
        else mret true
      else call (CallCategories policy);; categories_check policy.

(** [fsm_risk_level_check] *)
Definition fsm_risk_level_check (policy : fsm_policy) : FSM bool :=
  if negb (risk_rule_present (rules policy)) then mret true
  else
    has ← gets (λ s, has_risk_level_check (fsm_reply s));
    if negb has then mret false
    else
      rc ← fsm_dns_cache_lookup;
      if (rc : bool) then
        reply ← url_reply; reply ← deref reply; mret (risk_level_compare reply policy)
      else call (CallRisk policy);; risk_level_check policy.

(** *** The reply *)

(** [ds_tree_find] in the map of other options. *)
Definition option_value (key : string) (tree : list (string * string)) : option string :=
  i ← tree_find key tree; snd <$> tree !! i.

(** [set_action] *)
Definition set_action (p : fsm_policy) : FSM unit :=
  match p_action p with
  | FSM_GATEKEEPER_REQ => mret tt
  | FSM_ACTION_NONE => modify (upd_reply (set_r_action FSM_OBSERVED))
  | a => modify (upd_reply (set_r_action a))
  end.
(** [set_excluded_devices_tag] *)
Definition set_excluded_devices_tag (p : fsm_policy) : FSM unit :=
  match p_other_config p ≫= option_value "excluded_devices" with
  | None => mret tt
  | Some v => modify (upd_reply (set_excluded (Some v)))
  end.
(** [set_tag_update]: the second tag is only looked up after the first. *)
Definition set_tag_update (p : fsm_policy) : FSM unit :=
  match p_other_config p ≫= option_value "tagv4_name" with
  | None => mret tt
  | Some v4 =>
      modify (upd_reply (λ r, set_tags (Some v4) (updatev6_tag r) r));;
      match p_other_config p ≫= option_value "tagv6_name" with
      | None => mret tt
      | Some v6 => modify (upd_reply (λ r, set_tags (updatev4_tag r) (Some v6) r))
      end
  end.
(** [set_reporting] *)
Definition set_reporting (p : fsm_policy) : FSM unit :=
  modify (upd_reply (λ r, set_log (if (log r <? report_type p)%Z then report_type p else log r) r)).
(** [set_policy_record] *)
Definition set_policy_record (p : fsm_policy) : FSM unit := modify (upd_reply (set_record p)).

(** [set_policy_redirects]; [STRSCPY] into one of the two buffers of 256 bytes.
    The ttl is a [long] converted to [int]. *)
Fixpoint copy_redirects (i : nat) (entries : list (option string)) (dst : list string) : FSM (list string) :=
  match entries with
  | [] => mret dst
  | e :: entries =>
      v ← deref e;
      deref (dst !! i);;
      copy_redirects (S i) entries (<[i := snprintf_s 256 v]> dst)
  end.
Definition set_redirects_ttl (p : fsm_policy) (ttl : Z) : FSM unit :=
  match redirects p with
  | None => mret tt
  | Some set =>
      dst ← gets (λ s, r_redirects (fsm_reply s));
      dst ← copy_redirects 0 set dst;
      modify (upd_reply (set_redirect true ttl dst))
  end.
Definition set_policy_redirects (p : fsm_policy) : FSM unit :=
  if bool_decide (p_action p = FSM_GATEKEEPER_REQ) then mret tt
  else
    modify (upd_reply (λ r, set_redirect false (-1) (r_redirects r) r));;
    match p_other_config p with
    | None => set_redirects_ttl p (-1)
    | Some tree =>
        match option_value "rd_ttl" tree with
        | None => mret tt
        | Some v =>
            let ttl := atoi v in
            if bool_decide (- 2 ^ 63 ≤ ttl < 2 ^ 63)%Z then set_redirects_ttl p (wraps 32 ttl) else mret tt
        end
    end.

(** [fsm_gk_reply_updates] and the end of [fsm_apply_policies]: the updates for the
    matching policy. *)
Definition reply_updates (p : fsm_policy) : FSM unit :=
  set_reporting p;;
  set_tag_update p;;
  set_excluded_devices_tag p;;
  set_action p;;
  set_policy_record p;;
  set_policy_redirects p.
Definition fsm_gk_reply_updates : FSM unit :=
  p ← gets (λ s, req_policy (fsm_req s));
  match p with None => mret tt | Some p => reply_updates p end.
(** [process_gk_response_cb] *)
Definition process_gk_response_cb : FSM unit :=
  cat ← gets (λ s, categorized (fsm_reply s));
  (if bool_decide (cat = FSM_FQDN_CAT_SUCCESS) then fsm_gk_reply_updates else mret tt);;
  has ← gets (λ s, has_policy_response (fsm_reply s));
  if negb has then mret tt else call CallResponse.

(** *** The gatekeeper *)

(** [fsm_gatekeeper_check] *)
Definition fsm_gatekeeper_check (p : fsm_policy) : FSM bool :=
  if negb (bool_decide (p_action p = FSM_GATEKEEPER_REQ)) then mret true
  else
    has ← gets (λ s, has_gatekeeper_req (fsm_reply s));
    if negb has then mret false
    else
      modify (upd_req (set_req_policy (Some p)));;
      call CallGatekeeper;;
      rc ← gatekeeper_req;
      (if negb rc then
         modify (upd_reply (λ r, set_log FSM_REPORT_NONE (set_r_action FSM_NO_MATCH r)))
       else mret tt);;
      mret rc.
(** [fsm_gk_check_required] *)
Definition fsm_gk_check_required (policy : fsm_policy) : FSM bool :=
  if negb (bool_decide (p_action policy = FSM_GATEKEEPER_REQ)) then mret false
  else gets (λ s, has_gatekeeper_req (fsm_reply s)).

(** *** [fsm_apply_policies] *)

(** The five checks of one policy, in order; a failed check skips the rest. *)
Definition policy_check (p : fsm_policy) : FSM bool :=
  rc ← fsm_mac_check p;
  if negb rc then mret false else
  rc ← fsm_fqdn_check p;
  if negb rc then mret false else
  rc ← fsm_ip_check p;
  if negb rc then mret false else
  rc ← fsm_cat_check p;
  if negb rc then mret false else
  fsm_risk_level_check p.

(** What a matching policy writes to the request. *)
Definition note_match (p : fsm_policy) : FSM unit :=
  if bool_decide (p_action p = FSM_GATEKEEPER_REQ) then mret tt
  else
    modify (upd_req (λ r, set_report (report r || (report_type p =? FSM_REPORT_ALL)%Z) (p_rule_name p)
      (if bool_decide (p_action p = FSM_ACTION_NONE) then FSM_OBSERVED else p_action p) (idx p) r)).

(** The loop: the last policy that matched. *)
Fixpoint policy_loop (entries : list (option fsm_policy)) (last_match : option fsm_policy) :
    FSM (option fsm_policy) :=
  match entries with
  | [] => mret last_match
  | None :: entries => policy_loop entries last_match
  | Some p :: entries =>
      rc ← policy_check p;
      if negb rc then policy_loop entries last_match
      else
        note_match p;;
        if bool_decide (p_action p ≠ FSM_ACTION_NONE) then mret (Some p)
        else policy_loop entries (Some p)
  end.

Definition fsm_apply_policies (table : option (list (option fsm_policy))) : FSM fsm_action :=
  match table with
  | None =>
      modify (upd_reply (λ r, set_log FSM_REPORT_NONE (set_r_action FSM_NO_MATCH r)));;
      mret FSM_NO_MATCH
  | Some lookup_array =>
      modify (upd_req (λ r, set_report false (req_rule_name r) (req_action r) (policy_index r) r));;
      last ← policy_loop lookup_array None;
      (match last with
       | Some p =>
           gk ← fsm_gk_check_required p;
           (if (gk : bool) then fsm_gatekeeper_check p;; mret tt else mret tt);;
           reply_updates p
       | None => modify (upd_reply (λ r, set_log FSM_REPORT_NONE (set_r_action FSM_NO_MATCH r)))
       end);;
      action ← gets (λ s, r_action (fsm_reply s));
      has ← gets (λ s, has_policy_response (fsm_reply s));
      (if (has : bool) then call CallResponse else mret tt);;
      mret action
  end.
End fsm.

(** [fsm_policy_initialize_reply]: [redirect] is a [bool], set from -1. *)
Definition fsm_policy_initialize_reply : fsm_policy_reply :=
  PReply (-1) FSM_ACTION_NONE (-1) FSM_FQDN_CAT_NOP FSM_REPORT_NONE None 0 None None None None
    true [""; ""] false false false false false false.
