(* ===== verification/FsmPolicyRun.v ===== *)
(** The checks of a policy (what they mean, and that their evaluation decides it) and the walk
    over the policies of a table. *)
From Stdlib Require Import Sorting.Sorted.
From S2P Require Import Prelude DsTree PolicyTags PolicyTagsRep PolicyTagsInv FcmFilter FcmFilterMgr.
From S2P Require Import FcmFilterEval FsmPolicy.

(** *** Sorted categories *)

Definition cat_small (c : Z) : Prop := (- 2 ^ 30 ≤ c < 2 ^ 30)%Z.
Lemma fsm_cat_cmp_small a b : cat_small a → cat_small b → fsm_cat_cmp a b = (a - b)%Z.
Proof. unfold cat_small, fsm_cat_cmp, wraps. intros. rewrite Z.mod_small; lia. Qed.

Lemma sort_insert_perm c l : sort_insert c l ≡ₚ c :: l.
Proof.
  induction l as [|d l IH]; simpl; [done|]. destruct (_ <=? _)%Z; [done|].
  rewrite IH. apply Permutation_swap.
Qed.
Lemma qsort_perm l : qsort l ≡ₚ l.
Proof. induction l as [|c l IH]; simpl; [done|]. unfold qsort in *. simpl. by rewrite sort_insert_perm, IH. Qed.

Lemma sort_insert_sorted c l :
  cat_small c → Forall cat_small l → StronglySorted Z.le l → StronglySorted Z.le (sort_insert c l).
Proof.
  intros Hc Hl Hs. induction Hs as [|d l Hs IH Hd]; simpl; [repeat constructor|].
  apply Forall_cons in Hl as [Hds Hl]. rewrite fsm_cat_cmp_small by done.
  destruct (Z.leb_spec (c - d) 0).
  - constructor; [by constructor|]. constructor; [lia|]. eapply Forall_impl; [done|]. simpl. lia.
  - constructor; [by apply IH|]. rewrite sort_insert_perm. constructor; [lia|done].
Qed.
Lemma qsort_sorted l : Forall cat_small l → StronglySorted Z.le (qsort l).
Proof.
  induction 1 as [|c l Hc Hl IH]; simpl; [constructor|]. apply sort_insert_sorted; [done| |done].
  by rewrite qsort_perm.
Qed.

Lemma sorted_nth l i j :
  StronglySorted Z.le l → i ≤ j → j < length l → (nth i l 0 ≤ nth j l 0)%Z.
Proof.
  intros Hs. revert i j. induction Hs as [|a l Hs IH Ha]; intros i j Hij Hj; simpl in *; [lia|].
  destruct i as [|i], j as [|j]; try lia.
  - rewrite Forall_forall in Ha. apply Ha. apply list_elem_of_In, nth_In. lia.
  - apply IH; lia.
Qed.

(** Bisection finds a value of the interval if there is one. *)
Lemma bsearch_spec fuel key base l u :
  cat_small key → Forall cat_small base → StronglySorted Z.le base → u ≤ length base → u - l < fuel →
  is_Some (bsearch fuel key base l u) ↔ ∃ i, l ≤ i < u ∧ nth i base 0%Z = key.
Proof.
  intros Hk Hb Hs. revert l u. induction fuel as [|fuel IH]; intros l u Hu Hf; [lia|]. cbn [bsearch].
  destruct (Nat.ltb_spec l u) as [Hlu|Hlu]; [|split; [by intros []|intros (i & ? & _); lia]].
  set (i := (l + u) / 2).
  assert (l ≤ i < u) as Hi.
  { unfold i. split; [apply Nat.div_le_lower_bound; lia|apply Nat.Div0.div_lt_upper_bound; lia]. }
  assert (cat_small (nth i base 0%Z)) as Hn.
  { rewrite Forall_forall in Hb. apply Hb. apply list_elem_of_In, nth_In. lia. }
  rewrite fsm_cat_cmp_small by done.
  destruct (Z.ltb_spec (key - nth i base 0%Z) 0); [|destruct (Z.ltb_spec 0 (key - nth i base 0%Z))].
  - rewrite IH by lia. split; intros (j & Hj & Heq); exists j; (split; [|done]); [lia|].
    assert (¬ i ≤ j); [|lia]. intros Hij. pose proof (sorted_nth base i j Hs Hij). lia.
  - rewrite IH by lia. split; intros (j & Hj & Heq); exists j; (split; [|done]); [lia|].
    assert (¬ j ≤ i); [|lia]. intros Hij. pose proof (sorted_nth base j i Hs Hij). lia.
  - split; [|eauto]. intros _. exists i. split; [done|lia].
Qed.

(** The categories of a policy are sorted and small. *)
Definition cats_wf (set : int_set) : Prop :=
  ∀ l, set = Some l → StronglySorted Z.le l ∧ Forall cat_small l.
Definition cat_in (c : Z) (set : int_set) : Prop := ∃ l, set = Some l ∧ c ∈ l.

Lemma cat_search_spec c p :
  cat_small c → cats_wf (categories (rules p)) → cat_search c p = true ↔ cat_in c (categories (rules p)).
Proof.
  intros Hc Hwf. unfold cat_search, cat_in. destruct (categories (rules p)) as [l|]; [|split; [done|by intros (? & ? & _)]].
  destruct (Hwf l eq_refl) as [Hs Hb]. rewrite bool_decide_eq_true, bsearch_spec by (done || lia).
  split.
  - intros (i & Hi & <-). exists l. split; [done|]. apply list_elem_of_In, nth_In. lia.
  - intros (l' & [= <-] & Hin). apply list_elem_of_In, (In_nth _ _ 0%Z) in Hin as (i & Hi & Heq).
    exists i. split; [lia|done].
Qed.

(** *** Names *)

Lemma sapp_cons_eq c a b : String c a +:+ b = String c (a +:+ b).
Proof. done. Qed.
Lemma sapp_nil_eq a : "" +:+ a = a.
Proof. done. Qed.
Lemma sapp_length a b : String.length (a +:+ b) = String.length a + String.length b.
Proof. induction a as [|c a IH]; [done|]. rewrite sapp_cons_eq. simpl. by rewrite IH. Qed.

Lemma prefix_app a s : String.prefix a s = true ↔ ∃ b, s = a +:+ b.
Proof.
  revert s. induction a as [|c a IH]; intros s.
  - split; [|by destruct s]. intros _. exists s. by rewrite sapp_nil_eq.
  - destruct s as [|d s]; [split; [done|intros [b Hb]; by rewrite sapp_cons_eq in Hb]|].
    simpl. destruct (Ascii.ascii_dec c d) as [->|Hne].
    + rewrite IH. split; intros [b Hb]; exists b; rewrite sapp_cons_eq in *; congruence.
    + split; [done|]. intros [b Hb]. rewrite sapp_cons_eq in Hb. congruence.
Qed.
Lemma skip_split n s : n ≤ String.length s → ∃ pre, s = pre +:+ skip n s ∧ String.length pre = n.
Proof.
  unfold skip. revert s. induction n as [|n IH]; intros s Hn.
  - exists "". rewrite sapp_nil_eq, Nat.sub_0_r, substring_full by done. done.
  - destruct s as [|c s]; simpl in *; [lia|]. destruct (IH s) as (pre & Hs & Hl); [lia|].
    exists (String c pre). rewrite sapp_cons_eq. simpl. by rewrite <- Hs, Hl.
Qed.
Lemma sapp_inj a b c d : String.length a = String.length c → a +:+ b = c +:+ d → a = c ∧ b = d.
Proof.
  revert c. induction a as [|x a IH]; intros [|y c] Hl Heq; simpl in Hl; try done.
  rewrite !sapp_cons_eq in Heq. injection Heq as -> Heq. destruct (IH c) as [-> ->]; [lia|done|done].
Qed.
Lemma sapp_nil_r a : a +:+ "" = a.
Proof. induction a as [|c a IH]; [done|]. by rewrite sapp_cons_eq, IH. Qed.

(** What an entry of the set matches, by lookup: exact match, start from right,
    start from left. *)
Definition name_match (op : fqdn_lookup) (name entry : string) : Prop :=
  match op with
  | FSM_FQDN_OP_SFR => ∃ pre, name = pre +:+ entry
  | FSM_FQDN_OP_SFL => ∃ post, name = entry +:+ post
  | _ => name = entry
  end.
(** What the comparison decides: an exact match is one from the left. *)
Definition name_test (op : fqdn_lookup) (name entry : string) : Prop :=
  match op with
  | FSM_FQDN_OP_SFR => ∃ pre, name = pre +:+ entry
  | _ => ∃ post, name = entry +:+ post
  end.

Lemma name_test_long op name entry :
  op ≠ FSM_FQDN_OP_WILD → String.length name < String.length entry → ¬ name_test op name entry.
Proof.
  intros Hop Hlen. destruct op; simpl; intros [x ->]; rewrite sapp_length in Hlen; lia || done.
Qed.
Lemma name_test_prefix op name entry :
  op ≠ FSM_FQDN_OP_WILD → String.length entry ≤ String.length name →
  String.prefix entry (if bool_decide (op = FSM_FQDN_OP_SFR)
    then skip (String.length name - String.length entry) name else name) = true ↔ name_test op name entry.
Proof.
  intros Hop Hlen. rewrite prefix_app. destruct op; simpl; try done.
  destruct (skip_split (String.length name - String.length entry) name) as (pre & Hn & Hl); [lia|].
  split.
  - intros [b Hb]. rewrite Hb in Hn. assert (b = "") as ->.
    { apply (f_equal String.length) in Hn. rewrite !sapp_length in Hn. destruct b; [done|simpl in Hn; lia]. }
    exists pre. by rewrite sapp_nil_r in Hn.
  - intros [pre' Hpre]. exists "". rewrite sapp_nil_r.
    assert (String.length name = String.length pre' + String.length entry) by (rewrite Hpre; apply sapp_length).
    destruct (sapp_inj pre (skip (String.length name - String.length entry) name) pre' entry);
      [lia|congruence|done].
Qed.

(** *** The state during the checks *)

Lemma with_tag_decides s m P :
  decides id m P (fsm_tags s) → decides id (with_tag_state m) P s.
Proof. intros (b & Hm & Hb). exists b. split; [|done]. unfold with_tag_state. rewrite Hm. by destruct s. Qed.

(** No NULL entries. *)
Definition set_wf (set : str_set) : Prop := ∀ l e, set = Some l → e ∈ l → is_Some e.

Lemma mac_in_entries_spec `{TreeFindLaws} s mac entries :
  (∀ e, e ∈ entries → is_Some e) →
  decides id (mac_in_entries mac entries) (∃ e, e ∈ entries ∧ tag_match (fsm_tags s) mac e) s.
Proof.
  induction entries as [|e entries IH]; intros Hwf; cbn [mac_in_entries].
  { apply decides_ret. split; [done|]. intros (e & He & _). by apply elem_of_nil in He. }
  destruct (Hwf e) as [t ->]; [set_solver|].
  destruct (om_tag_in_total (fsm_tags s) (Some mac) (Some t)) as [b Hb].
  eapply (decides_bind id id _ _ (b = true)); [apply with_tag_decides; by exists b|].
  intros b' Hb'. unfold id in Hb'. assert (b' = b) as -> by (destruct b, b'; naive_solver).
  destruct b.
  { apply decides_ret. split; [|done]. intros _. exists (Some t). split; [set_solver|by left]. }
  eapply decides_deref; [done|]. destruct (String.prefix mac t) eqn:Hp.
  { apply decides_ret. split; [|done]. intros _. exists (Some t). split; [set_solver|by right]. }
  eapply decides_iff; [|apply IH; intros; apply Hwf; set_solver]. split.
  - intros (e & He & Hm). exists e. split; [set_solver|done].
  - intros (e & [->|He]%elem_of_cons & Hm); [|eauto]. destruct Hm; congruence.
Qed.

Lemma fqdn_in_entries_spec fnmatch s op name entries :
  op ≠ FSM_FQDN_OP_WILD → (∀ e, e ∈ entries → is_Some e) →
  decides id (fqdn_in_entries fnmatch op (Some name) entries) (∃ e, Some e ∈ entries ∧ name_test op name e) s.
Proof.
  intros Hop. induction entries as [|e entries IH]; intros Hwf; cbn [fqdn_in_entries].
  { apply decides_ret. split; [done|]. intros (e & He & _). by apply elem_of_nil in He. }
  destruct (Hwf e) as [t ->]; [set_solver|]. do 2 (eapply decides_deref; [done|]).
  assert (∀ P, ¬ name_test op name t → decides id P (∃ e, Some e ∈ entries ∧ name_test op name e) s →
    decides id P (∃ e, Some e ∈ Some t :: entries ∧ name_test op name e) s) as Hskip.
  { intros P Hno. apply decides_iff. split; intros (e & He & Hm); exists e; (split; [|done]); [set_solver|].
    apply elem_of_cons in He as [[= ->]|]; done. }
  assert (decides id (fqdn_in_entries fnmatch op (Some name) entries)
    (∃ e, Some e ∈ entries ∧ name_test op name e) s) as IH' by (apply IH; intros; apply Hwf; set_solver).
  destruct (Nat.ltb_spec (String.length name) (String.length t)) as [Hlt|Hge].
  { apply Hskip; [by apply name_test_long|done]. }
  rewrite bool_decide_eq_false_2 by done. cbn zeta.
  pose proof (name_test_prefix op name t Hop Hge) as Hm. destruct (String.prefix t _).
  - apply decides_ret. split; [|done]. intros _. exists t. split; [set_solver|]. by apply Hm.
  - apply Hskip; [|done]. intros Hn. by apply Hm in Hn.
Qed.

Lemma prefix_len_eq a b : String.length a = String.length b → String.prefix a b = true → a = b.
Proof.
  intros Hl [c ->]%prefix_app. rewrite sapp_length in Hl. destruct c; [by rewrite sapp_nil_r|simpl in Hl; lia].
Qed.
Lemma ip_in_entries_spec s u entries :
  (∀ e, e ∈ entries → is_Some e) → decides id (ip_in_entries u entries) (Some u ∈ entries) s.
Proof.
  induction entries as [|e entries IH]; intros Hwf; cbn [ip_in_entries].
  { apply decides_ret. split; [done|]. by intros ?%elem_of_nil. }
  destruct (Hwf e) as [t ->]; [set_solver|]. eapply decides_deref; [done|].
  destruct (_ && _) eqn:Ht.
  - apply andb_true_iff in Ht as [Hl%Nat.eqb_eq Hp]. apply (prefix_len_eq t u Hl) in Hp as ->.
    apply decides_ret. set_solver.
  - eapply decides_iff; [|apply IH; intros; apply Hwf; set_solver]. split; [set_solver|].
    intros [[= ->]|]%elem_of_cons; [|done]. rewrite Nat.eqb_refl in Ht. simpl in Ht.
    assert (String.prefix t t = true) as Hpp by (apply prefix_app; exists ""; by rewrite sapp_nil_r). congruence.
Qed.

(** ** The walk over the policies of a table: the specification of the plugins, the
    state of a request while policies are checked, and what the checks decide. *)

(** What is fixed during the check of a request: the tags, the request, the
    plugins that are present, what the provider says of a policy's categories and
    risk, and whether it stores the categories of the request, and which. *)
Record world := World {
  w_tags : pt_state; w_device : list Z; w_type : fsm_req_type; w_url : string; w_ip : string; w_version : Z;
  w_has_cat : bool; w_has_risk : bool; w_has_gk : bool; w_has_response : bool;
  w_cat : fsm_policy → bool; w_stores : bool; w_cats : list Z; w_risk : fsm_policy → bool }.

(** The request and the reply without what categorisation writes. *)
Definition req_out (r : fsm_policy_req) : fsm_policy_req := set_url_reply None r.
Definition reply_out (r : fsm_policy_reply) : fsm_policy_reply := set_cat_match 0 (set_cached false r).

Record same_out (s s' : fsm_state) : Prop := {
  out_tags : fsm_tags s' = fsm_tags s;
  out_req : req_out (fsm_req s') = req_out (fsm_req s);
  out_reply : reply_out (fsm_reply s') = reply_out (fsm_reply s) }.
#[export] Instance same_out_refl : Reflexive same_out.
Proof. by intros s. Qed.
#[export] Instance same_out_trans : Transitive same_out.
Proof. intros a b c [] []. split; congruence. Qed.

Record facts (w : world) (s : fsm_state) : Prop := {
  f_tags : fsm_tags s = w_tags w;
  f_device : device_id (fsm_req s) = Some (w_device w);
  f_type : req_type (fsm_req s) = w_type w;
  f_url : url (fsm_req s) = Some (w_url w);
  f_ip : ip_addr (fsm_req s) = w_ip w;
  f_version : ip_version (fsm_req s) = Some (w_version w);
  f_cat : has_categories_check (fsm_reply s) = w_has_cat w;
  f_risk : has_risk_level_check (fsm_reply s) = w_has_risk w;
  f_gk : has_gatekeeper_req (fsm_reply s) = w_has_gk w;
  f_response : has_policy_response (fsm_reply s) = w_has_response w }.

Lemma facts_out w s s' : same_out s s' → facts w s → facts w s'.
Proof.
  intros [Ht Hq Hr] [F1 F2 F3 F4 F5 F6 F7 F8 F9 F10].
  pose proof (f_equal device_id Hq). pose proof (f_equal req_type Hq). pose proof (f_equal url Hq).
  pose proof (f_equal ip_addr Hq). pose proof (f_equal ip_version Hq).
  pose proof (f_equal has_categories_check Hr). pose proof (f_equal has_risk_level_check Hr).
  pose proof (f_equal has_gatekeeper_req Hr). pose proof (f_equal has_policy_response Hr).
  simpl in *. split; congruence.
Qed.

(** The number of categorisation requests made to the provider. *)
Fixpoint cat_calls (l : list plugin_call) : nat :=
  match l with
  | [] => 0
  | CallCategories _ :: l => S (cat_calls l)
  | _ :: l => cat_calls l
  end.
Lemma cat_calls_app l1 l2 : cat_calls (l1 ++ l2) = cat_calls l1 + cat_calls l2.
Proof. induction l1 as [|[] l1 IH]; simpl; congruence. Qed.

(** The categories are unknown, or known from the provider. *)
Definition knows (cats : list Z) (s : fsm_state) : Prop :=
  categorized (fsm_reply s) ≠ FSM_FQDN_CAT_NOP ∧
  ∃ rep, req_info (fsm_req s) = Some (Some rep) ∧ url_categories rep = cats.
(** What a provider may change. *)
Record provider_step (w : world) (s s' : fsm_state) : Prop := {
  ps_out : same_out s s';
  ps_calls : calls s' = calls s;
  ps_cache : from_cache (fsm_reply s') = from_cache (fsm_reply s);
  ps_know : w_stores w = true ∧ knows (w_cats w) s' ∨
    categorized (fsm_reply s') = categorized (fsm_reply s) ∧ req_info (fsm_req s') = req_info (fsm_req s) }.

(** *** What the checks mean *)

Definition mac_ok `{TreeFind} (w : world) (p : fsm_policy) : Prop :=
  mac_rule_present (rules p) = true →
  match mac_op (rules p) with
  | MAC_OP_IN => member (w_tags w) (mac_str (w_device w)) (macs (rules p))
  | MAC_OP_OUT => ¬ member (w_tags w) (mac_str (w_device w)) (macs (rules p))
  end.
Definition name_in (w : world) (p : fsm_policy) : Prop :=
  ∃ l e, fqdns (rules p) = Some l ∧ Some e ∈ l ∧
    name_match (fqdn_lookup_of (fqdn_op (rules p))) (w_url w) e.
Definition fqdn_ok (w : world) (p : fsm_policy) : Prop :=
  fqdn_rule_present (rules p) = true →
  if fqdn_in_policy (fqdn_op (rules p)) then name_in w p else ¬ name_in w p.
Definition ip_in (w : world) (p : fsm_policy) : Prop :=
  (w_version w = 4 ∨ w_version w = 6)%Z ∧ ∃ l, ipaddrs (rules p) = Some l ∧ Some (w_url w) ∈ l.
Definition ip_ok (w : world) (p : fsm_policy) : Prop :=
  ip_rule_present (rules p) = true →
  if bool_decide (ip_op (rules p) = IP_OP_IN) then ip_in w p else ¬ ip_in w p.
Definition cat_cond (p : fsm_policy) (cats : list Z) : Prop :=
  match cat_op (rules p) with
  | CAT_OP_IN => ∃ c, c ∈ cats ∧ cat_in c (categories (rules p))
  | CAT_OP_OUT => ¬ ∃ c, c ∈ cats ∧ cat_in c (categories (rules p))
  | CAT_OP_TRUE => True
  end.

(** Policies whose evaluation for a request is what they say: no NULL entries, no
    wildcards (which fault), no operation "true" on names, addresses or risks
    (which the database cannot give), sorted categories, at most two redirects, no
    entry of the devices that only starts with the device, and no entry of an
    exact match that the name only starts with. *)
Record policy_wf (w : world) (p : fsm_policy) : Prop := {
  p_macs : plain_set (mac_str (w_device w)) (macs (rules p));
  p_fqdns : set_wf (fqdns (rules p));
  p_wild : fqdn_lookup_of (fqdn_op (rules p)) ≠ FSM_FQDN_OP_WILD;
  p_true : fqdn_op (rules p) ≠ FQDN_OP_TRUE ∧ ip_op (rules p) ≠ IP_OP_TRUE ∧ risk_op (rules p) ≠ RISK_OP_TRUE;
  p_exact : ∀ l e post, fqdn_lookup_of (fqdn_op (rules p)) = FSM_FQDN_OP_XM → fqdns (rules p) = Some l →
    Some e ∈ l → w_url w = e +:+ post → w_url w = e;
  p_ips : set_wf (ipaddrs (rules p));
  p_cats : cats_wf (categories (rules p));
  p_redirects : set_wf (redirects p);
  p_redirects_len : ∀ l, redirects p = Some l → length l ≤ 2 }.

(** For them the comparison of names is the match of names. *)
Lemma name_test_match w p l e :
  policy_wf w p → fqdns (rules p) = Some l → Some e ∈ l →
  name_test (fqdn_lookup_of (fqdn_op (rules p))) (w_url w) e ↔
  name_match (fqdn_lookup_of (fqdn_op (rules p))) (w_url w) e.
Proof.
  intros Hp Hl He. pose proof (λ post Hop, p_exact w p Hp l e post Hop Hl He) as Hx.
  pose proof (p_wild w p Hp). destruct (fqdn_lookup_of _); simpl; try done. split.
  - intros [post ?]. by eapply Hx.
  - intros ->. exists "". by rewrite sapp_nil_r.
Qed.

Section checks.
Context `{TreeFindLaws}.
Implicit Types (fnmatch : string → string → bool) (w : world) (s : fsm_state) (p : fsm_policy).

(** The outcome of a check with its operation. *)
Lemma mac_check_spec w s p :
  facts w s → policy_wf w p → decides id (fsm_mac_check p) (mac_ok w p) s.
Proof.
  intros Hf Hp. unfold fsm_mac_check, mac_ok. destruct (mac_rule_present (rules p)); cbn [negb].
  2: { apply decides_ret. done. }
  eapply (decides_bind id id _ _ (member (w_tags w) (mac_str (w_device w)) (macs (rules p)))).
  - pose proof (p_macs w p Hp) as Hplain. eapply decides_iff; [by apply in_set_member|].
    unfold fsm_device_in_set. destruct (macs (rules p)) as [l|] eqn:Hl.
    2: { apply decides_ret. unfold in_set. naive_solver. }
    destruct (mac_in_entries_spec s (mac_str (w_device w)) l) as (b & Hb & Hiff).
    { intros e He. destruct (Hplain l e eq_refl He) as (t & -> & _). done. }
    exists b. split.
    + unfold gets, mbind, M_bind. by rewrite (f_device w s Hf).
    + rewrite Hiff, (f_tags w s Hf). unfold in_set. naive_solver.
  - unfold id. intros b Hb. destruct (mac_op (rules p)), b; cbn; apply decides_ret; naive_solver.
Qed.

Lemma fqdn_check_spec fnmatch w s p :
  facts w s → policy_wf w p → decides id (fsm_fqdn_check fnmatch p) (fqdn_ok w p) s.
Proof.
  intros Hf Hp. unfold fsm_fqdn_check, fqdn_ok. destruct (fqdn_rule_present (rules p)); cbn [negb].
  2: { apply decides_ret. done. }
  eapply (decides_bind id id _ _ (name_in w p)).
  - unfold fsm_fqdn_in_set, name_in. destruct (fqdns (rules p)) as [l|] eqn:Hl.
    2: { apply decides_ret. naive_solver. }
    destruct (fqdn_in_entries_spec fnmatch s _ (w_url w) l (p_wild w p Hp)) as (b & Hb & Hiff).
    { intros e He. by apply (p_fqdns w p Hp l). }
    exists b. split.
    + unfold gets, mbind, M_bind. by rewrite (f_url w s Hf).
    + rewrite Hiff. split.
      * intros (e & He & Hm). exists l, e. split_and!; [done|done|]. by apply (name_test_match w p l).
      * intros (l' & e & [= <-] & He & Hm). exists e. split; [done|]. by apply (name_test_match w p l).
  - unfold id. intros b Hb. destruct (fqdn_in_policy _), b; cbn; apply decides_ret; naive_solver.
Qed.

Lemma ip_check_spec w s p :
  facts w s → policy_wf w p → decides id (fsm_ip_check p) (ip_ok w p) s.
Proof.
  intros Hf Hp. unfold fsm_ip_check, ip_ok. destruct (ip_rule_present (rules p)); cbn [negb].
  2: { apply decides_ret. done. }
  eapply (decides_bind id id _ _ (ip_in w p)).
  - unfold fsm_ip_in_set, ip_in, gets, mbind, M_bind, decides. rewrite (f_version w s Hf). cbn [deref mret M_ret].
    destruct ((w_version w =? 4)%Z || (w_version w =? 6)%Z) eqn:Hv; cbn [negb].
    2: { exists false. split; [done|]. split; [done|]. intros [Hx _]. lia. }
    destruct (ipaddrs (rules p)) as [l|] eqn:Hl.
    2: { exists false. split; [done|]. naive_solver. }
    destruct (ip_in_entries_spec s (w_url w) l) as (b & Hb & Hiff).
    { intros e He. by apply (p_ips w p Hp l). }
    exists b. rewrite (f_url w s Hf). split; [done|]. rewrite Hiff.
    assert (w_version w = 4 ∨ w_version w = 6)%Z by lia. naive_solver.
  - unfold id. intros b Hb. destruct (bool_decide _), b; cbn; apply decides_ret; naive_solver.
Qed.
End checks.

(** *** Plugins *)

(** The code a request is checked with that is not part of this library. *)
Record plugins := Plugins {
  pl_fnmatch : string → string → bool;
  pl_cache : option (list Z) → string → option ip2action;
  pl_categories : fsm_policy → M fsm_state bool;
  pl_risk : fsm_policy → M fsm_state bool;
  pl_gatekeeper : M fsm_state bool }.

(** The gatekeeper writes its verdict to the reply; it leaves the log level, the
    report flag and the calls alone. *)
Record gk_step (s s' : fsm_state) : Prop := {
  gs_tags : fsm_tags s' = fsm_tags s;
  gs_report : report (fsm_req s') = report (fsm_req s);
  gs_log : log (fsm_reply s') = log (fsm_reply s);
  gs_redirects : length (r_redirects (fsm_reply s')) = length (r_redirects (fsm_reply s));
  gs_calls : calls s' = calls s }.

(** What the plugins promise.  None of them faults; the provider decides on the
    categories of a policy ([w_cat]) and on its risk ([w_risk]).  It may store the
    categories of the request: then it decides by them.  A provider that stores
    nothing, as the null provider of [wc_null_plugin], decides as it likes; the
    gatekeeper may write any verdict. *)
Class PluginLaws (pl : plugins) (w : world) : Prop := {
  law_categories p s : facts w s →
    ∃ s', pl_categories pl p s = Some (w_cat w p, s') ∧ provider_step w s s' ∧
      (w_stores w = true → knows (w_cats w) s');
  law_stored p : w_stores w = true → (w_cat w p = true ↔ cat_cond p (w_cats w));
  law_risk p s : facts w s → ∃ s', pl_risk pl p s = Some (w_risk w p, s') ∧ provider_step w s s';
  law_gatekeeper s : facts w s → ∃ b s', pl_gatekeeper pl s = Some (b, s') ∧ gk_step s s' }.

(** The verdict in the DNS cache, which applies to address requests. *)
Definition cached (pl : plugins) (w : world) : option ip2action :=
  if bool_decide (w_type w = FSM_IPV4_REQ) || bool_decide (w_type w = FSM_IPV6_REQ)
  then pl_cache pl (Some (w_device w)) (w_ip w) else None.
Definition cached_reply (l : ip2action) : fsm_url_reply := UrlReply (lk_service l) (lk_categories l) (lk_info l).
(** The categories the policies are checked with. *)
Definition eff_cats (pl : plugins) (w : world) : list Z :=
  match cached pl w with Some l => lk_categories l | None => w_cats w end.

Definition cat_ok (pl : plugins) (w : world) (p : fsm_policy) : Prop :=
  cat_rule_present (rules p) = true → w_has_cat w = true ∧
    match cached pl w with
    | Some l => cat_cond p (lk_categories l)
    | None => w_cat w p = true
    end.
Definition risk_cond (op : risk_ops) (risk bound : Z) : Prop :=
  match op with
  | RISK_OP_EQ => risk = bound
  | RISK_OP_NEQ => risk ≠ bound
  | RISK_OP_GT => bound < risk
  | RISK_OP_LT => risk < bound
  | RISK_OP_GTE => bound ≤ risk
  | RISK_OP_LTE => risk ≤ bound
  | RISK_OP_TRUE => True
  end%Z.
Definition risk_ok (pl : plugins) (w : world) (p : fsm_policy) : Prop :=
  risk_rule_present (rules p) = true → w_has_risk w = true ∧
    match cached pl w with
    | Some l => risk_cond (risk_op (rules p)) (reply_risk (cached_reply l)) (risk_level (rules p))
    | None => w_risk w p = true
    end.
(** When a policy matches the request. *)
Definition matches `{TreeFind} (pl : plugins) (w : world) (p : fsm_policy) : Prop :=
  mac_ok w p ∧ fqdn_ok w p ∧ ip_ok w p ∧ cat_ok pl w p ∧ risk_ok pl w p.

(** What is known about the categories so far; a provider that stores them has been
    asked at most once, and none is asked for a cached verdict. *)
Definition knowledge (pl : plugins) (w : world) (s : fsm_state) : Prop :=
  match cached pl w with
  | Some l => cat_calls (calls s) = 0 ∧
      (categorized (fsm_reply s) = FSM_FQDN_CAT_NOP ∧ from_cache (fsm_reply s) = false ∧
         is_Some (req_info (fsm_req s)) ∨
       categorized (fsm_reply s) ≠ FSM_FQDN_CAT_NOP ∧ from_cache (fsm_reply s) = true ∧
         req_info (fsm_req s) = Some (Some (cached_reply l)))
  | None => from_cache (fsm_reply s) = false ∧
      (categorized (fsm_reply s) = FSM_FQDN_CAT_NOP ∧ is_Some (req_info (fsm_req s)) ∧
         (w_stores w = true → cat_calls (calls s) = 0) ∨
       w_stores w = true ∧ knows (w_cats w) s ∧ cat_calls (calls s) ≤ 1)
  end.
Definition inv (pl : plugins) (w : world) (s : fsm_state) : Prop := facts w s ∧ knowledge pl w s.

Section walk.
Context `{TreeFindLaws} (pl : plugins) (w : world) `{!PluginLaws pl w}.
Implicit Types (s : fsm_state) (p : fsm_policy).

Lemma inv_frame s s' :
  same_out s s' → calls s' = calls s → from_cache (fsm_reply s') = from_cache (fsm_reply s) →
  categorized (fsm_reply s') = categorized (fsm_reply s) → req_info (fsm_req s') = req_info (fsm_req s) →
  inv pl w s → inv pl w s'.
Proof.
  intros Hout Hc Hf Hk Hi [HF HK]. split; [by eapply facts_out|]. unfold knowledge, knows in *.
  by rewrite Hc, Hf, Hk, Hi.
Qed.

Lemma dns_lookup_spec s :
  inv pl w s →
  wp (fsm_dns_cache_lookup (pl_cache pl)) (λ b s', inv pl w s' ∧ same_out s s' ∧
    match cached pl w with
    | None => b = false ∧ s' = s
    | Some l => b = true ∧ categorized (fsm_reply s') ≠ FSM_FQDN_CAT_NOP ∧
        req_info (fsm_req s') = Some (Some (cached_reply l))
    end) s.
Proof.
  intros [HF HK]. unfold fsm_dns_cache_lookup. apply wp_bind, wp_gets. rewrite (f_type w s HF).
  destruct (bool_decide (w_type w = FSM_IPV4_REQ) || bool_decide (w_type w = FSM_IPV6_REQ)) eqn:Hty; cbn [negb].
  2: { apply wp_ret. unfold cached. by rewrite Hty. }
  assert (cached pl w = pl_cache pl (Some (w_device w)) (w_ip w)) as Hcd by (unfold cached; by rewrite Hty).
  pose proof HK as HK'. unfold knowledge in HK'.
  apply wp_bind, wp_gets. destruct (from_cache (fsm_reply s)) eqn:Hc.
  - apply wp_ret. destruct (cached pl w) as [l|] eqn:Hl; [|by destruct HK' as [? _]].
    destruct HK' as (_ & [(_ & ? & _)|(? & _ & ?)]); [done|]. by split_and!.
  - apply wp_bind, wp_gets. rewrite (f_device w s HF), (f_ip w s HF), <- Hcd. clear Hcd Hty.
    destruct (cached pl w) as [l|] eqn:Hl; [|by apply wp_ret].
    destruct HK' as (Hcalls & [(_ & _ & o & Ho)|(_ & ? & _)]); [|done].
    apply wp_bind, wp_modify, wp_bind. apply wp_bind, wp_gets. eapply wp_deref; [exact Ho|].
    apply wp_bind, wp_modify, wp_ret.
    assert (same_out s (upd_req (set_url_reply (Some (UrlReply (lk_service l) (lk_categories l) (lk_info l))))
      (upd_reply (set_cached (lk_cat_unknown l)) s))) as Hout by done.
    split_and!; [|done|done|done|done]. split; [by eapply facts_out|].
    unfold knowledge. rewrite Hl. split; [done|]. by right.
Qed.

Lemma cats_in_set_spec s p cats :
  inv pl w s → policy_wf w p → Forall cat_small cats →
  wp (cats_in_set cats p) (λ b s', inv pl w s' ∧ same_out s s' ∧
    (b = true ↔ ∃ c, c ∈ cats ∧ cat_in c (categories (rules p)))) s.
Proof.
  intros Hinv Hp. induction 1 as [|c cats Hc Hcats IH]; cbn [cats_in_set].
  { apply wp_ret. split_and!; [done|done|]. split; [done|]. intros (c & Hc & _). by apply elem_of_nil in Hc. }
  pose proof (cat_search_spec c p Hc (p_cats w p Hp)) as Hs. destruct (cat_search c p).
  - apply wp_bind, wp_modify, wp_ret. split_and!; [|done|].
    + by eapply (inv_frame s).
    + split; [|done]. intros _. exists c. split; [set_solver|]. by apply Hs.
  - eapply wp_mono; [exact IH|]. intros b s' (? & ? & Hb). split_and!; [done|done|]. rewrite Hb.
    split; intros (d & Hd & Hin); exists d; (split; [|done]); [set_solver|].
    apply elem_of_cons in Hd as [->|]; [|done]. by apply Hs in Hin.
Qed.

(** The check against known categories. *)
Lemma known_cats_spec s p :
  inv pl w s → policy_wf w p → Forall cat_small (eff_cats pl w) → categorized (fsm_reply s) ≠ FSM_FQDN_CAT_NOP →
  wp (rc ← fsm_fqdncats_in_set p;
      if rc && bool_decide (cat_op (rules p) = CAT_OP_OUT) then mret false
      else if negb rc && bool_decide (cat_op (rules p) = CAT_OP_IN) then mret false
      else mret true)
    (λ b s', inv pl w s' ∧ same_out s s' ∧ (b = true ↔ cat_cond p (eff_cats pl w))) s.
Proof.
  intros Hinv Hp Hsmall Hk. apply wp_bind. unfold fsm_fqdncats_in_set, url_reply.
  assert (∃ rep, req_info (fsm_req s) = Some (Some rep) ∧ url_categories rep = eff_cats pl w) as (rep & Hrep & Hcats).
  { destruct Hinv as [_ HK]. unfold knowledge, eff_cats in *. destruct (cached pl w) as [l|].
    - destruct HK as (_ & [(? & _)|(_ & _ & ?)]); [done|]. by eexists.
    - destruct HK as (_ & [(? & _)|(_ & (_ & rep & ? & ?) & _)]); [done|]. by eexists. }
  do 2 apply wp_bind. apply wp_gets. eapply wp_deref; [exact Hrep|]. apply wp_bind.
  eapply wp_deref; [done|]. rewrite Hcats. eapply wp_mono; [by apply cats_in_set_spec|].
  intros b s' (Hi & Ho & Hb). unfold cat_cond.
  destruct b, (cat_op (rules p)); cbn; apply wp_ret; naive_solver.
Qed.

(** Known categories are those of the cache, or agree with the provider. *)
Lemma known_verdict s p :
  inv pl w s → categorized (fsm_reply s) ≠ FSM_FQDN_CAT_NOP → cached pl w = None →
  w_cat w p = true ↔ cat_cond p (w_cats w).
Proof.
  intros [_ HK] Hk Hc. unfold knowledge in HK. rewrite Hc in HK.
  destruct HK as (_ & [(? & _)|(Hst & _)]); [done|]. by apply (law_stored (pl := pl)).
Qed.

Lemma risk_level_compare_spec r p :
  risk_op (rules p) ≠ RISK_OP_TRUE →
  risk_level_compare r p = true ↔ risk_cond (risk_op (rules p)) (reply_risk r) (risk_level (rules p)).
Proof. intros Hop. unfold risk_level_compare, risk_cond. destruct (risk_op (rules p)); try lia; done. Qed.

Lemma provider_inv s s' :
  inv pl w s → cached pl w = None → provider_step w s s' → inv pl w s'.
Proof.
  intros Hinv Hc [Hout Hcalls Hcache Hknow]. destruct Hknow as [[Hst Hk]|[Hcat Hri]].
  - destruct Hinv as [HF HK]. split; [by eapply facts_out|]. unfold knowledge in *. rewrite Hc in *.
    rewrite Hcache, Hcalls. destruct HK as [? HK]. split; [done|]. right. split_and!; [done|done|].
    destruct HK as [(_ & _ & HK)|(_ & _ & ?)]; [rewrite HK by done; lia|lia].
  - by eapply inv_frame.
Qed.

Lemma cat_check_spec s p :
  inv pl w s → policy_wf w p → Forall cat_small (eff_cats pl w) →
  wp (fsm_cat_check (pl_cache pl) (pl_categories pl) p)
    (λ b s', inv pl w s' ∧ same_out s s' ∧ (b = true ↔ cat_ok pl w p)) s.
Proof.
  intros Hinv Hp Hsmall. unfold fsm_cat_check, cat_ok. apply wp_bind.
  eapply wp_mono; [by apply dns_lookup_spec|]. intros b0 s1 (Hinv1 & Hout1 & Hb0).
  destruct (cat_rule_present (rules p)); cbn [negb]; [|by apply wp_ret].
  apply wp_bind, wp_gets. rewrite (f_cat w s1 (proj1 Hinv1)).
  destruct (w_has_cat w); cbn [negb].
  2: { apply wp_ret. split_and!; [done|done|]. naive_solver. }
  apply wp_bind, wp_gets. case_bool_decide as Hk.
  - eapply wp_mono; [by apply known_cats_spec|]. intros b s2 (Hinv2 & Hout2 & Hb).
    split_and!; [done|by etrans|]. rewrite Hb. pose proof (known_verdict s1 p Hinv1 Hk) as Hv.
    unfold eff_cats in *. destruct (cached pl w); naive_solver.
  - destruct Hinv1 as [HF1 HK1].
    assert (cached pl w = None) as Hnc.
    { destruct (cached pl w); [|done]. by destruct Hb0 as (_ & ? & _). }
    rewrite Hnc. unfold knowledge in HK1. rewrite Hnc in HK1.
    destruct HK1 as (Hfc & [(Hnop & Hri & Hcalls)|(_ & [? _] & _)]); [|done].
    apply wp_bind. apply wp_modify.
    set (s1' := Fsm (fsm_tags s1) (fsm_req s1) (fsm_reply s1) (calls s1 ++ [CallCategories p])).
    assert (facts w s1') as HF1' by (by eapply facts_out; [|exact HF1]).
    destruct (law_categories p s1' HF1') as (s2 & Hrun & [Hout2 Hcalls2 Hcache2 Hkn2] & Hkn).
    unfold wp. rewrite Hrun. split_and!.
    + split; [by eapply facts_out|]. unfold knowledge. rewrite Hnc, Hcache2, Hcalls2. split; [done|].
      simpl. rewrite cat_calls_app. simpl. destruct (w_stores w) eqn:Hst.
      * right. split_and!; [done|by apply Hkn|rewrite Hcalls by done; lia].
      * left. destruct Hkn2 as [[? _]|[-> ->]]; [done|]. by split_and!.
    + etrans; [exact Hout1|]. transitivity s1'; [by split|exact Hout2].
    + naive_solver.
Qed.

Lemma risk_check_spec s p :
  inv pl w s → policy_wf w p →
  wp (fsm_risk_level_check (pl_cache pl) (pl_risk pl) p)
    (λ b s', inv pl w s' ∧ same_out s s' ∧ (b = true ↔ risk_ok pl w p)) s.
Proof.
  intros Hinv Hp. unfold fsm_risk_level_check, risk_ok.
  destruct (risk_rule_present (rules p)); cbn [negb]; [|by apply wp_ret].
  apply wp_bind, wp_gets. rewrite (f_risk w s (proj1 Hinv)). destruct (w_has_risk w); cbn [negb].
  2: { apply wp_ret. split_and!; [done|done|]. naive_solver. }
  apply wp_bind. eapply wp_mono; [by apply dns_lookup_spec|]. intros b0 s1 (Hinv1 & Hout1 & Hb0).
  destruct (cached pl w) as [l|] eqn:Hc.
  - destruct Hb0 as (-> & _ & Hri). do 2 apply wp_bind. apply wp_gets. eapply wp_deref; [exact Hri|].
    apply wp_bind. eapply wp_deref; [done|]. apply wp_ret. split_and!; [done|done|].
    rewrite (risk_level_compare_spec _ p) by apply (p_true w p Hp). naive_solver.
  - destruct Hb0 as (-> & ->). apply wp_bind, wp_modify.
    set (s' := Fsm (fsm_tags s) (fsm_req s) (fsm_reply s) (calls s ++ [CallRisk p])).
    assert (inv pl w s') as Hinv'.
    { destruct Hinv as [HF HK]. split; [by eapply facts_out; [|exact HF]|].
      unfold knowledge in *. rewrite Hc in *. simpl. rewrite cat_calls_app. simpl. rewrite Nat.add_0_r. exact HK. }
    destruct (law_risk p s' (proj1 Hinv')) as (s2 & Hrun & Hstep). unfold wp. rewrite Hrun.
    split_and!; [by eapply provider_inv| |naive_solver].
    transitivity s'; [by split|exact (ps_out _ _ _ Hstep)].
Qed.

Lemma policy_check_spec s p :
  inv pl w s → policy_wf w p → Forall cat_small (eff_cats pl w) →
  wp (policy_check (pl_fnmatch pl) (pl_cache pl) (pl_categories pl) (pl_risk pl) p)
    (λ b s', inv pl w s' ∧ same_out s s' ∧ (b = true ↔ matches pl w p)) s.
Proof.
  intros Hinv Hp Hsmall. unfold policy_check, matches.
  destruct (mac_check_spec w s p (proj1 Hinv) Hp) as (b1 & H1 & M1).
  destruct (fqdn_check_spec (pl_fnmatch pl) w s p (proj1 Hinv) Hp) as (b2 & H2 & M2).
  destruct (ip_check_spec w s p (proj1 Hinv) Hp) as (b3 & H3 & M3). unfold id in *.
  apply wp_bind. unfold wp at 1. rewrite H1. destruct b1; cbn [negb]; [|apply wp_ret; naive_solver].
  apply wp_bind. unfold wp at 1. rewrite H2. destruct b2; cbn [negb]; [|apply wp_ret; naive_solver].
  apply wp_bind. unfold wp at 1. rewrite H3. destruct b3; cbn [negb]; [|apply wp_ret; naive_solver].
  apply wp_bind. eapply wp_mono; [by apply cat_check_spec|]. intros b4 s4 (Hinv4 & Hout4 & M4).
  destruct b4; cbn [negb]; [|apply wp_ret; naive_solver].
  eapply wp_mono; [by apply risk_check_spec|]. intros b5 s5 (Hinv5 & Hout5 & M5).
  split_and!; [done|by etrans|]. rewrite M5. naive_solver.
Qed.
End walk.
