(* ===== verification/FsmPolicyThms.v ===== *)
(** The walk over the policies of a table and the updates of the reply. *)
From Stdlib Require Import Sorting.Sorted.
From S2P Require Import Prelude DsTree PolicyTags PolicyTagsRep PolicyTagsInv PolicyTagsProps FcmFilter.
From S2P Require Import FcmFilterMgr FcmFilterEval FsmPolicy FsmPolicyRun.

Section props.
Context `{TreeFindLaws}.
Implicit Types (s : fsm_state) (p : fsm_policy).

(** [p] decides: no earlier matching policy has an action, and either [p] has one
    or no later policy matches. *)
Definition deciding (pl : plugins) (w : world) (entries pre : list (option fsm_policy)) p : Prop :=
  ∃ post, entries = pre ++ Some p :: post ∧ matches pl w p ∧
    (∀ q, Some q ∈ pre → matches pl w q → p_action q = FSM_ACTION_NONE) ∧
    (p_action p ≠ FSM_ACTION_NONE ∨ ∀ q, Some q ∈ post → ¬ matches pl w q).
(** A matching policy that asks for a report. *)
Definition reports (pl : plugins) (w : world) p : Prop :=
  matches pl w p ∧ p_action p ≠ FSM_GATEKEEPER_REQ ∧ report_type p = FSM_REPORT_ALL.

Lemma note_match_spec pl w s p :
  inv pl w s →
  wp (note_match p) (λ _ s', inv pl w s' ∧ fsm_reply s' = fsm_reply s ∧
    (report (fsm_req s') = true ↔ report (fsm_req s) = true ∨
       p_action p ≠ FSM_GATEKEEPER_REQ ∧ report_type p = FSM_REPORT_ALL)) s.
Proof.
  intros [HF HK]. unfold note_match. case_bool_decide as Hgk.
  - apply wp_ret. split_and!; [done|done|]. naive_solver.
  - apply wp_modify. split_and!; [|done|].
    + split; [by destruct HF; split|exact HK].
    + simpl. rewrite orb_true_iff, Z.eqb_eq. naive_solver.
Qed.

Section walk.
Context (pl : plugins) (w : world) `{!PluginLaws pl w} (Hsmall : Forall cat_small (eff_cats pl w)).

Definition loop_post s (last : option fsm_policy) (entries : list (option fsm_policy))
    (r : option fsm_policy) s' : Prop :=
  inv pl w s' ∧ reply_out (fsm_reply s') = reply_out (fsm_reply s) ∧
  (r = last ∧ (∀ p, Some p ∈ entries → ¬ matches pl w p) ∧ report (fsm_req s') = report (fsm_req s) ∨
   ∃ pre p, r = Some p ∧ deciding pl w entries pre p ∧
     (report (fsm_req s') = true ↔ report (fsm_req s) = true ∨
        ∃ q, (Some q ∈ pre ∨ q = p) ∧ reports pl w q)).

Lemma deciding_cons e entries pre p :
  (∀ q, e = Some q → matches pl w q → p_action q = FSM_ACTION_NONE) →
  deciding pl w entries pre p → deciding pl w (e :: entries) (e :: pre) p.
Proof.
  intros He (post & -> & Hm & Hpre & Hpost). exists post. split_and!; [done|done| |done].
  intros q [Hq|Hq]%elem_of_cons; [by apply He|by apply Hpre].
Qed.

Lemma policy_loop_spec entries last s :
  inv pl w s → (∀ p, Some p ∈ entries → policy_wf w p) →
  wp (policy_loop (pl_fnmatch pl) (pl_cache pl) (pl_categories pl) (pl_risk pl) entries last)
    (loop_post s last entries) s.
Proof.
  revert last s. induction entries as [|e entries IH]; intros last s Hinv Hwf; cbn [policy_loop].
  { apply wp_ret. split_and!; [done|done|]. left. split_and!; [done| |done]. intros p Hp. by apply elem_of_nil in Hp. }
  assert (∀ p, Some p ∈ entries → policy_wf w p) as Hwf' by set_solver.
  assert (∀ s1, inv pl w s1 → reply_out (fsm_reply s1) = reply_out (fsm_reply s) →
    report (fsm_req s1) = report (fsm_req s) → (∀ p, e = Some p → ¬ matches pl w p) →
    wp (policy_loop (pl_fnmatch pl) (pl_cache pl) (pl_categories pl) (pl_risk pl) entries last)
      (loop_post s last (e :: entries)) s1) as Hskip.
  { intros s1 Hinv1 Ho1 Hr1 Hno. eapply wp_mono; [by apply IH|].
    intros r s' (Hinv' & Ho' & Hcase). split_and!; [done|congruence|]. rewrite Hr1 in Hcase.
    destruct Hcase as [(-> & Hn & Hrep)|(pre & p & -> & Hd & Hrep)].
    - left. split_and!; [done| |done]. intros p [Hp|Hp]%elem_of_cons; [by apply Hno|by apply Hn].
    - right. exists (e :: pre), p. split_and!; [done| |].
      + apply deciding_cons; [|done]. intros q -> Hq. by destruct (Hno q).
      + rewrite Hrep. split; (intros [?|(q & Hq & Hrq)]; [by left|right; exists q]); (split; [|done]); [set_solver|].
        destruct Hq as [[Hq|Hq]%elem_of_cons| ->]; [|by left|by right]. destruct (Hno q); [done|apply Hrq]. }
  destruct e as [p|]; [|by apply Hskip]. apply wp_bind.
  eapply wp_mono; [apply (policy_check_spec pl w); [done|apply Hwf; set_solver|done]|].
  intros b s1 (Hinv1 & Hout1 & Hb). pose proof (f_equal report (out_req _ _ Hout1)) as Hr1. simpl in Hr1.
  destruct b; cbn [negb].
  2: { apply Hskip; [done|apply Hout1|done|]. intros q [= <-] Hq. by apply Hb in Hq. }
  assert (matches pl w p) as Hm by (by apply Hb).
  apply wp_bind. eapply wp_mono; [by apply note_match_spec|]. intros [] s2 (Hinv2 & Ho2 & Hr2). rewrite Hr1 in Hr2.
  assert (reply_out (fsm_reply s2) = reply_out (fsm_reply s)) as Ho2' by (rewrite Ho2; apply Hout1).
  assert (∀ post : list (option fsm_policy), (report (fsm_req s2) = true ↔ report (fsm_req s) = true ∨
    ∃ q, (Some q ∈ ([] : list (option fsm_policy)) ∨ q = p) ∧ reports pl w q)) as Hrep0.
  { intros _. rewrite Hr2. unfold reports. split; [naive_solver|].
    intros [?|(q & [Hq| ->] & Hrq)]; [by left|by apply elem_of_nil in Hq|naive_solver]. }
  case_bool_decide as Hact.
  - apply wp_ret. split_and!; [done|done|]. right. exists [], p. split_and!; [done| |by apply Hrep0].
    exists entries. split_and!; [done|done| |by left]. intros q Hq. by apply elem_of_nil in Hq.
  - eapply wp_mono; [by apply IH|]. intros r s' (Hinv' & Ho' & Hcase).
    split_and!; [done|congruence|]. right. destruct Hcase as [(-> & Hn & Hrep)|(pre & p' & -> & Hd & Hrep)].
    + exists [], p. split_and!; [done| |by rewrite Hrep; apply Hrep0]. exists entries.
      split_and!; [done|done| |by right]. intros q Hq. by apply elem_of_nil in Hq.
    + exists (Some p :: pre), p'. split_and!; [done| |].
      * apply deciding_cons; [|done]. by intros q [= <-].
      * rewrite Hrep, (Hrep0 []). clear Hrep Hrep0 Hskip IH. split.
        -- intros [[?|(q & [Hq| ->] & Hrq)]|(q & Hq & Hrq)]; [by left|by apply elem_of_nil in Hq| |].
           ++ right. exists p. split; [left; set_solver|done].
           ++ right. exists q. split; [set_solver|done].
        -- intros [?|(q & Hq & Hrq)]; [by left; left|].
           destruct Hq as [[[= ->]|Hq]%elem_of_cons| ->]; [left; right; exists p; set_solver| |]; right; eauto.
Qed.
End walk.

(** *** The reply *)

(** What the updates for a policy leave alone, and the fields they set. *)
Record updated_for p s s' : Prop := {
  u_tags : fsm_tags s' = fsm_tags s;
  u_req : fsm_req s' = fsm_req s;
  u_calls : calls s' = calls s;
  u_response : has_policy_response (fsm_reply s') = has_policy_response (fsm_reply s);
  u_action : r_action (fsm_reply s') =
    match p_action p with
    | FSM_GATEKEEPER_REQ => r_action (fsm_reply s)
    | FSM_ACTION_NONE => FSM_OBSERVED
    | a => a
    end;
  u_log : log (fsm_reply s') = Z.max (log (fsm_reply s)) (report_type p);
  u_policy : r_policy (fsm_reply s') = Some (table_name p);
  u_idx : policy_idx (fsm_reply s') = idx p;
  u_rule : r_rule_name (fsm_reply s') = p_rule_name p }.

Lemma copy_redirects_spec i entries dst s (Q : list string → fsm_state → Prop) :
  (∀ e, e ∈ entries → is_Some e) → i + length entries ≤ length dst →
  (∀ dst', Q dst' s) → wp (copy_redirects i entries dst) Q s.
Proof.
  revert i dst. induction entries as [|e entries IH]; intros i dst Hwf Hlen HQ; cbn [copy_redirects].
  { by apply wp_ret. }
  destruct (Hwf e) as [v ->]; [set_solver|]. simpl in Hlen. apply wp_bind. eapply wp_deref; [done|].
  destruct (lookup_lt_is_Some_2 dst i) as [x Hx]; [lia|].
  apply wp_bind. eapply wp_deref; [done|]. apply IH; [set_solver|rewrite length_insert; lia|done].
Qed.

Lemma set_redirects_spec w p s (Q : unit → fsm_state → Prop) :
  policy_wf w p → length (r_redirects (fsm_reply s)) = 2 →
  (∀ b ttl dst, Q tt (upd_reply (set_redirect b ttl dst) s)) → wp (set_policy_redirects p) Q s.
Proof.
  intros Hp Hlen HQ. unfold set_policy_redirects.
  assert (s = upd_reply (set_redirect (redirect (fsm_reply s)) (rd_ttl (fsm_reply s)) (r_redirects (fsm_reply s))) s)
    as Hs by (by destruct s as [t q []]).
  case_bool_decide; [apply wp_ret; by rewrite Hs|].
  apply wp_bind, wp_modify.
  assert (∀ ttl, wp (set_redirects_ttl p ttl) Q
    (upd_reply (λ r, set_redirect false (-1) (r_redirects r) r) s)) as Httl.
  { intros ttl. unfold set_redirects_ttl. destruct (redirects p) as [l|] eqn:Hl; [|by apply wp_ret, HQ].
    apply wp_bind, wp_gets, wp_bind. apply copy_redirects_spec.
    - intros e. by apply (p_redirects w p Hp l).
    - pose proof (p_redirects_len w p Hp l Hl). simpl. lia.
    - intros dst. apply wp_modify. apply HQ. }
  destruct (p_other_config p) as [tree|]; [|apply Httl].
  destruct (option_value _ _); [|by apply wp_ret, HQ]. case_bool_decide; [apply Httl|by apply wp_ret, HQ].
Qed.

Lemma reply_updates_spec w p s :
  policy_wf w p → length (r_redirects (fsm_reply s)) = 2 →
  wp (reply_updates p) (λ _ s', updated_for p s s') s.
Proof.
  intros Hp Hlen. unfold reply_updates. apply wp_bind, wp_modify.
  assert ((if (log (fsm_reply s) <? report_type p)%Z then report_type p else log (fsm_reply s))
    = Z.max (log (fsm_reply s)) (report_type p)) as Hlog by (destruct (Z.ltb_spec (log (fsm_reply s)) (report_type p)); lia).
  apply wp_bind. unfold set_tag_update.
  assert (∀ s1 (Q : unit → fsm_state → Prop), (∀ v, Q tt (upd_reply (set_excluded v) s1)) →
    wp (set_excluded_devices_tag p) Q s1) as Hexc.
  { intros s1 Q HQ. unfold set_excluded_devices_tag. destruct (_ ≫= _); [by apply wp_modify|].
    apply wp_ret. specialize (HQ (excluded_devices (fsm_reply s1))). by destruct s1 as [? ? []]. }
  assert (∀ v4 v6, wp (set_excluded_devices_tag p;; set_action p;; set_policy_record p;; set_policy_redirects p)
    (λ _ s', updated_for p s s') (upd_reply (set_tags v4 v6)
      (upd_reply (λ r, set_log (if (log r <? report_type p)%Z then report_type p else log r) r) s))) as Hrest.
  { intros v4 v6. apply wp_bind, Hexc. intros v. apply wp_bind. unfold set_action.
    destruct (p_action p) eqn:Hact; (apply wp_ret || apply wp_modify); apply wp_bind, wp_modify;
      (apply (set_redirects_spec w); [done|done|]); intros b ttl dst; split; simpl; rewrite ?Hact; done. }
  destruct (p_other_config p ≫= option_value "tagv4_name") as [v4|].
  - apply wp_bind, wp_modify. destruct (p_other_config p ≫= option_value "tagv6_name") as [v6|].
    + apply wp_modify. apply (Hrest (Some v4) (Some v6)).
    + apply wp_ret. apply (Hrest (Some v4) (updatev6_tag (fsm_reply s))).
  - apply wp_ret. specialize (Hrest (updatev4_tag (fsm_reply s)) (updatev6_tag (fsm_reply s))).
    by destruct s as [? ? []].
Qed.

(** The action and the log level before the updates for a policy: those the reply
    had, or after a gatekeeper that was asked its action, and "no match" without a
    log if it failed. *)
Definition before_updates pl (w : world) p (r : fsm_policy_reply) (a : fsm_action) (l : Z) : Prop :=
  if bool_decide (p_action p = FSM_GATEKEEPER_REQ) && w_has_gk w then
    ∃ s0 b s1, facts w s0 ∧ req_policy (fsm_req s0) = Some p ∧ pl_gatekeeper pl s0 = Some (b, s1) ∧
      if b : bool then a = r_action (fsm_reply s1) ∧ l = log r else a = FSM_NO_MATCH ∧ l = FSM_REPORT_NONE
  else a = r_action r ∧ l = log r.

Lemma gatekeeper_spec {A} pl w s p (m : M fsm_state A) `{!PluginLaws pl w} (Q : A → fsm_state → Prop) :
  facts w s →
  (∀ s', fsm_tags s' = fsm_tags s → report (fsm_req s') = report (fsm_req s) →
     cat_calls (calls s') = cat_calls (calls s) →
     length (r_redirects (fsm_reply s')) = length (r_redirects (fsm_reply s)) →
     before_updates pl w p (fsm_reply s) (r_action (fsm_reply s')) (log (fsm_reply s')) → wp m Q s') →
  wp (gk ← fsm_gk_check_required p;
      (if (gk : bool) then fsm_gatekeeper_check (pl_gatekeeper pl) p;; mret tt else mret tt);; m) Q s.
Proof.
  intros HF HQ. unfold fsm_gk_check_required, fsm_gatekeeper_check, before_updates in *.
  destruct (bool_decide (p_action p = FSM_GATEKEEPER_REQ)); cbn [negb andb] in *.
  2: { apply wp_bind, wp_ret, wp_bind, wp_ret. by apply HQ. }
  apply wp_bind, wp_gets. rewrite (f_gk w s HF). destruct (w_has_gk w) eqn:Hgk.
  2: { apply wp_bind, wp_ret. by apply HQ. }
  apply wp_bind, wp_bind, wp_bind, wp_gets. rewrite (f_gk w s HF), Hgk. cbn [negb].
  apply wp_bind, wp_modify, wp_bind, wp_modify, wp_bind. unfold wp at 1.
  match goal with |- match pl_gatekeeper pl ?x with _ => _ end => set (s0 := x) end.
  assert (facts w s0) as HF0 by (by destruct HF; split).
  destruct (law_gatekeeper (pl := pl) (w := w) s0 HF0) as (b & s1 & Hrun & [Ht Hr Hl Hrd Hc]). rewrite Hrun.
  assert (cat_calls (calls s1) = cat_calls (calls s)) as Hcc by (rewrite Hc; simpl; rewrite cat_calls_app; simpl; lia).
  destruct b; cbn [negb]; apply wp_bind; (apply wp_ret || apply wp_modify); apply wp_ret, wp_ret;
    (apply HQ; [done|done|done|done|]; eexists s0, _, s1; by split_and!).
Qed.

(** The state in which a request starts: nothing is known, nobody was asked. *)
Record start (w : world) s : Prop := {
  st_facts : facts w s;
  st_cat : categorized (fsm_reply s) = FSM_FQDN_CAT_NOP;
  st_cache : from_cache (fsm_reply s) = false;
  st_info : is_Some (req_info (fsm_req s));
  st_calls : calls s = [];
  st_redirects : length (r_redirects (fsm_reply s)) = 2 }.

Lemma start_inv pl w s : start w s → inv pl w s.
Proof.
  intros [HF H1 H2 H3 H4 _]. split; [done|]. unfold knowledge. rewrite H1, H2, H4.
  destruct (cached pl w); naive_solver.
Qed.

(** The action and the log level a deciding policy gives. *)
Definition decided pl (w : world) (r : fsm_policy_reply) p (a : fsm_action) (l : Z) : Prop :=
  ∃ a' l', before_updates pl w p r a' l' ∧ l = Z.max l' (report_type p) ∧
    a = match p_action p with
        | FSM_GATEKEEPER_REQ => a'
        | FSM_ACTION_NONE => FSM_OBSERVED
        | a => a
        end.

Definition apply_policies (pl : plugins) := fsm_apply_policies (pl_fnmatch pl) (pl_cache pl)
  (pl_categories pl) (pl_risk pl) (pl_gatekeeper pl).

(** A provider that stores the categories is asked at most once, and none is asked
    for a cached verdict. *)
Definition calls_bound pl (w : world) s : Prop :=
  match cached pl w with
  | Some _ => cat_calls (calls s) = 0
  | None => w_stores w = true → cat_calls (calls s) ≤ 1
  end.
Definition apply_post (pl : plugins) (w : world) s (entries : list (option fsm_policy)) (a : fsm_action) s' : Prop :=
  a = r_action (fsm_reply s') ∧
  calls_bound pl w s' ∧
  ((∀ p, Some p ∈ entries → ¬ matches pl w p) ∧ a = FSM_NO_MATCH ∧ log (fsm_reply s') = FSM_REPORT_NONE ∧
     report (fsm_req s') = false ∨
   ∃ pre p, deciding pl w entries pre p ∧ decided pl w (fsm_reply s) p a (log (fsm_reply s')) ∧
     r_policy (fsm_reply s') = Some (table_name p) ∧ policy_idx (fsm_reply s') = idx p ∧
     r_rule_name (fsm_reply s') = p_rule_name p ∧
     (report (fsm_req s') = true ↔ ∃ q, (Some q ∈ pre ∨ q = p) ∧ reports pl w q)).

Lemma knowledge_calls pl w s : inv pl w s → calls_bound pl w s.
Proof.
  intros [_ HK]. unfold knowledge, calls_bound in *. destruct (cached pl w); [by destruct HK|].
  intros Hst. destruct HK as (_ & [(_ & _ & HK)|(_ & _ & ?)]); [rewrite HK by done|]; lia.
Qed.
Lemma calls_bound_eq pl w s s' :
  cat_calls (calls s') = cat_calls (calls s) → calls_bound pl w s → calls_bound pl w s'.
Proof. unfold calls_bound. by intros ->. Qed.

(** The end of the function: the response callback. *)
Lemma respond_spec s (Q : fsm_action → fsm_state → Prop) :
  (∀ cs, cat_calls cs = cat_calls (calls s) →
     Q (r_action (fsm_reply s)) (Fsm (fsm_tags s) (fsm_req s) (fsm_reply s) cs)) →
  wp (action ← gets (λ s, r_action (fsm_reply s));
      has ← gets (λ s, has_policy_response (fsm_reply s));
      (if (has : bool) then call CallResponse else mret tt);;
      mret action) Q s.
Proof.
  intros HQ. apply wp_bind, wp_gets, wp_bind, wp_gets, wp_bind.
  destruct (has_policy_response (fsm_reply s)); [apply wp_modify, wp_ret|apply wp_ret, wp_ret].
  - apply HQ. rewrite cat_calls_app. simpl. lia.
  - specialize (HQ (calls s)). destruct s. by apply HQ.
Qed.

Lemma apply_policies_spec pl w s entries `{!PluginLaws pl w} :
  start w s → (∀ p, Some p ∈ entries → policy_wf w p) → Forall cat_small (eff_cats pl w) →
  wp (apply_policies pl (Some entries)) (apply_post pl w s entries) s.
Proof.
  intros Hst Hwf Hsmall. pose proof (start_inv pl w s Hst) as Hinv. unfold apply_policies, fsm_apply_policies.
  apply wp_bind, wp_modify. set (s0 := upd_req _ s).
  assert (inv pl w s0) as Hinv0 by (destruct Hinv as [[] ?]; by split).
  apply wp_bind. eapply wp_mono; [by apply (policy_loop_spec pl w Hsmall)|].
  intros r s1 (Hinv1 & Hout1 & Hcase). pose proof (knowledge_calls pl w s1 Hinv1) as Hcalls1.
  destruct Hcase as [(-> & Hno & Hrep)|(pre & p & -> & Hd & Hrep)].
  { apply wp_bind, wp_modify, respond_spec. intros cs Hcs. split_and!; [done| |by left].
    by eapply calls_bound_eq. }
  assert (policy_wf w p) as Hp.
  { destruct Hd as (post & -> & _). apply Hwf. set_solver. }
  assert (r_action (fsm_reply s1) = r_action (fsm_reply s) ∧ log (fsm_reply s1) = log (fsm_reply s) ∧
    length (r_redirects (fsm_reply s1)) = 2) as (Ha1 & Hl1 & Hr1).
  { split_and!; [exact (f_equal r_action Hout1)|exact (f_equal log Hout1)|].
    pose proof (f_equal r_redirects Hout1) as Hx. simpl in Hx. rewrite Hx. apply Hst. }
  apply wp_bind. apply (gatekeeper_spec pl w); [done|apply Hinv1|]. intros s2 Ht Hq Hcs Hrd Hbefore.
  eapply wp_mono; [apply (reply_updates_spec w); [done|congruence]|]. intros [] s3 U. apply respond_spec.
  intros cs' Hcs'. split_and!; [done| |right].
  { eapply calls_bound_eq; [|exact Hcalls1]. cbn [calls]. by rewrite Hcs', (u_calls _ _ _ U), Hcs. }
  exists pre, p. split_and!; [done| |apply U|apply U|apply U|].
  - exists (r_action (fsm_reply s2)), (log (fsm_reply s2)). split_and!; [|apply U|apply U].
    unfold before_updates in *. by rewrite Ha1, Hl1 in Hbefore.
  - cbn [fsm_req]. rewrite (u_req _ _ _ U), Hq, Hrep. simpl. naive_solver.
Qed.
End props.
