(* ===== verification/FsmPolicyProps.v ===== *)
(** The properties of the flow service policies. *)
From S2P Require Import Prelude DsTree PolicyTags PolicyTagsRep PolicyTagsInv PolicyTagsProps FcmFilter.
From S2P Require Import FcmFilterMgr FcmFilterEval FsmPolicy FsmPolicyRun FsmPolicyThms.

(** A policy with a set of categories, as [fsm_prepare_policy] leaves it. *)
Definition with_categories (p : fsm_policy) (set : list Z) : fsm_policy :=
  let r := rules p in
  Policy (table_name p) (idx p) (p_rule_name p)
    (Rules (mac_rule_present r) (mac_op r) (macs r) (fqdn_rule_present r) (fqdn_op r) (fqdns r)
      (cat_rule_present r) (cat_op r) (fsm_policy_sort_cats (Some set)) (risk_rule_present r) (risk_op r)
      (risk_level r) (ip_rule_present r) (ip_op r) (ipaddrs r))
    (redirects p) (p_other_config p) (p_action p) (report_type p).
(** A policy with another operation on names. *)
Definition with_fqdn_op (p : fsm_policy) (op : fqdn_ops) : fsm_policy :=
  let r := rules p in
  Policy (table_name p) (idx p) (p_rule_name p)
    (Rules (mac_rule_present r) (mac_op r) (macs r) (fqdn_rule_present r) op (fqdns r)
      (cat_rule_present r) (cat_op r) (categories r) (risk_rule_present r) (risk_op r)
      (risk_level r) (ip_rule_present r) (ip_op r) (ipaddrs r))
    (redirects p) (p_other_config p) (p_action p) (report_type p).

(** C14. [fsm_apply_policies] walks the table in the order of the indices: a policy
    without an action lets the walk go on, the first matching policy with an action
    ends it, and the last match decides.  The reply names the deciding policy, gets
    its action ("observed" for none, and for a gatekeeper policy what the gatekeeper
    writes, or "no match" if it fails) and the highest log level, the request is
    flagged for a report exactly when a match on the way asks for one, and without
    a match the action is "no match".  Nothing faults.

    A policy matches when the device, the name (exactly, from the right or from the
    left), the address, the categories and the risk are as it says.  [policy_wf]
    excludes the policies that the code does not evaluate that way: the wildcard
    operations, which fault ([fsm_wildcard_faults]), an exact match with a proper
    start of the name ([fqdn_exact_is_prefix]), a device that is the proper start of
    an entry, the operation "true", which the database cannot give, and unsorted
    categories, NULL entries or more than two redirects. *)
Theorem fsm_apply_policies_correct `{TreeFindLaws} pl w s entries `{!PluginLaws pl w} :
  start w s → (∀ p, Some p ∈ entries → policy_wf w p) → Forall cat_small (eff_cats pl w) →
  ∃ s', apply_policies pl (Some entries) s = Some (r_action (fsm_reply s'), s') ∧
  ((∀ p, Some p ∈ entries → ¬ matches pl w p) ∧ r_action (fsm_reply s') = FSM_NO_MATCH ∧
     log (fsm_reply s') = FSM_REPORT_NONE ∧ report (fsm_req s') = false ∨
   ∃ pre p, deciding pl w entries pre p ∧
     decided pl w (fsm_reply s) p (r_action (fsm_reply s')) (log (fsm_reply s')) ∧
     r_policy (fsm_reply s') = Some (table_name p) ∧ policy_idx (fsm_reply s') = idx p ∧
     r_rule_name (fsm_reply s') = p_rule_name p ∧
     (report (fsm_req s') = true ↔ ∃ q, (Some q ∈ pre ∨ q = p) ∧ reports pl w q)).
Proof.
  intros Hst Hwf Hsmall.
  destruct (proj1 (wp_some _ _ _) (apply_policies_spec pl w s entries Hst Hwf Hsmall)) as (a & s' & Hrun & -> & _ & Hpost).
  by exists s'.
Qed.

(** A provider that stores the categories of a request is asked for them at most
    once, however many policies of the table check categories, and no provider is
    asked when the DNS cache has a verdict. *)
Theorem fsm_categorized_once `{TreeFindLaws} pl w s entries `{!PluginLaws pl w} :
  start w s → (∀ p, Some p ∈ entries → policy_wf w p) → Forall cat_small (eff_cats pl w) →
  ∃ a s', apply_policies pl (Some entries) s = Some (a, s') ∧
    (w_stores w = true → cat_calls (calls s') ≤ 1) ∧ (is_Some (cached pl w) → cat_calls (calls s') = 0).
Proof.
  intros Hst Hwf Hsmall.
  destruct (proj1 (wp_some _ _ _) (apply_policies_spec pl w s entries Hst Hwf Hsmall)) as (a & s' & Hrun & _ & Hc & _).
  exists a, s'. split; [done|]. unfold calls_bound in Hc.
  destruct (cached pl w); [rewrite Hc; split; [lia|done]|split; [done|by intros []]].
Qed.

(** The binary search of a category in the categories of a policy, sorted by
    [qsort], finds exactly its members, for categories whose difference does not
    overflow an [int]. *)
Theorem cat_search_correct p set c :
  Forall cat_small set → cat_small c → cat_search c (with_categories p set) = true ↔ c ∈ set.
Proof.
  intros Hset Hc. rewrite cat_search_spec; [|done|].
  - simpl. unfold cat_in. setoid_rewrite <- (qsort_perm set) at 2. naive_solver.
  - intros l [= <-]. split; [by apply qsort_sorted|]. by rewrite qsort_perm.
Qed.

(** The wildcard operations cannot be used: the check of a name whose first
    label matches that of the first entry faults (the copies of the strings are
    freed while they are being split), and otherwise the result is that of this
    first entry alone. *)
Theorem fsm_wildcard_faults fnmatch p s u e entries a b :
  fqdn_rule_present (rules p) = true → fqdn_lookup_of (fqdn_op (rules p)) = FSM_FQDN_OP_WILD →
  fqdns (rules p) = Some (Some e :: entries) → url (fsm_req s) = Some u →
  String.length e ≤ String.length u → strtok e = Some a → strtok u = Some b →
  (fnmatch a b = true → fsm_fqdn_check fnmatch p s = None) ∧
  (fnmatch a b = false → fsm_fqdn_check fnmatch p s = Some (negb (fqdn_in_policy (fqdn_op (rules p))), s)).
Proof.
  intros Hp Hop Hset Hu Hlen Ha Hb.
  assert (fsm_fqdn_in_set fnmatch p FSM_FQDN_OP_WILD s = fsm_policy_wildmatch fnmatch e u s) as Hin.
  { unfold fsm_fqdn_in_set. rewrite Hset. unfold gets, mbind, M_bind. rewrite Hu. cbn [fqdn_in_entries].
    unfold mbind, M_bind. cbn [deref mret M_ret]. rewrite (proj2 (Nat.ltb_ge _ _)) by lia.
    by rewrite bool_decide_eq_true_2. }
  unfold fsm_fqdn_check. rewrite Hp, Hop. cbn [negb]. unfold mbind, M_bind. rewrite Hin.
  unfold fsm_policy_wildmatch. rewrite Ha, Hb. split; intros ->; [done|]. by destruct (fqdn_in_policy _).
Qed.

(** The operations "in" and "out" on names are not exact: they accept every
    name that starts with an entry, exactly like the start-from-left operations. *)
Theorem fqdn_exact_is_prefix fnmatch p s :
  fsm_fqdn_check fnmatch (with_fqdn_op p FQDN_OP_IN) s = fsm_fqdn_check fnmatch (with_fqdn_op p FQDN_OP_SFL_IN) s ∧
  fsm_fqdn_check fnmatch (with_fqdn_op p FQDN_OP_OUT) s = fsm_fqdn_check fnmatch (with_fqdn_op p FQDN_OP_SFL_OUT) s.
Proof.
  assert (∀ u l t, fqdn_in_entries fnmatch FSM_FQDN_OP_XM u l t = fqdn_in_entries fnmatch FSM_FQDN_OP_SFL u l t) as Hin.
  { intros u l t. induction l as [|e l IH]; [done|]. cbn [fqdn_in_entries]. unfold mbind, M_bind.
    destruct e as [e|]; [|done]. destruct u as [u|]; [|done]. cbn [deref mret M_ret].
    destruct (_ <? _); [done|]. rewrite !bool_decide_eq_false_2 by done. cbn zeta.
    destruct (String.prefix e u); [done|exact IH]. }
  assert (∀ op op', fsm_fqdn_in_set fnmatch (with_fqdn_op p op) FSM_FQDN_OP_XM s
    = fsm_fqdn_in_set fnmatch (with_fqdn_op p op') FSM_FQDN_OP_SFL s) as Hset.
  { intros op op'. unfold fsm_fqdn_in_set. cbn [with_fqdn_op rules fqdns]. destruct (fqdns (rules p)); [|done]. apply Hin. }
  unfold fsm_fqdn_check. cbn [with_fqdn_op rules fqdn_rule_present fqdn_op fqdn_in_policy fqdn_lookup_of].
  destruct (fqdn_rule_present (rules p)); [|done]. cbn [negb]. unfold mbind, M_bind.
  by rewrite (Hset FQDN_OP_IN FQDN_OP_SFL_IN), (Hset FQDN_OP_OUT FQDN_OP_SFL_OUT).
Qed.

(** *** Witnesses *)

(** A provider that finds one category, an empty cache and a gatekeeper that allows. *)
Definition set_categorized (r : fsm_policy_reply) : fsm_policy_reply :=
  PReply (cat_match r) (r_action r) (rd_ttl r) FSM_FQDN_CAT_SUCCESS (log r) (r_policy r) (policy_idx r)
    (r_rule_name r) (updatev4_tag r) (updatev6_tag r) (excluded_devices r) (redirect r) (r_redirects r)
    (from_cache r) (cat_unknown_to_service r) (has_categories_check r) (has_risk_level_check r)
    (has_gatekeeper_req r) (has_policy_response r).
Definition cat_verdict (p : fsm_policy) : bool :=
  let found := existsb (Z.eqb 7) (default [] (categories (rules p))) in
  match cat_op (rules p) with CAT_OP_IN => found | CAT_OP_OUT => negb found | CAT_OP_TRUE => true end.
Definition pl1 : plugins :=
  Plugins (λ _ _, true) (λ _ _, None)
    (λ p s, Some (cat_verdict p,
       upd_req (set_url_reply (Some (UrlReply IP2ACTION_BC_SVC [7%Z] (BcInfo 0)))) (upd_reply set_categorized s)))
    (λ _ s, Some (true, s))
    (λ s, Some (true, upd_reply (set_r_action FSM_ALLOW) s)).
Definition world1 : world :=
  World (pt_init true) [1; 2; 3; 4; 5; 6]%Z FSM_FQDN_REQ "www.example.com" "" 4 true false true true
    cat_verdict true [7%Z] (λ _, true).
#[export] Instance pl1_laws : PluginLaws pl1 world1.
Proof.
  split.
  - intros p s HF. eexists. split_and!; [done| |by split; [|eexists]].
    split; [by split|done|done|]. left. split; [done|]. by split; [|eexists].
  - intros p _. simpl. unfold cat_verdict, cat_cond, cat_in. destruct (categories (rules p)) as [l|]; simpl.
    + assert (existsb (Z.eqb 7) l = true ↔ ∃ c, c ∈ [7%Z] ∧ ∃ l', Some l = Some l' ∧ c ∈ l') as Hl.
      { rewrite existsb_elem. setoid_rewrite Z.eqb_eq. setoid_rewrite list_elem_of_singleton. naive_solver. }
      destruct (cat_op (rules p)); [|done|done]. rewrite negb_true_iff, <- not_true_iff_false. by rewrite Hl.
    + destruct (cat_op (rules p)); naive_solver.
  - intros p s HF. exists s. split; [done|]. split; [done|done|done|by right].
  - intros s HF. eexists _, _. by split.
Qed.

(** The null provider (wc_null_policy.c) answers false and stores nothing; with any
    gatekeeper that only writes its verdict it satisfies the laws too. *)
Definition wc_null (cache : option (list Z) → string → option ip2action) (gk : M fsm_state bool) : plugins :=
  Plugins (λ _ _, true) cache (λ _ s, Some (false, s)) (λ _ s, Some (false, s)) gk.
Lemma wc_null_laws cache gk w :
  w_cat w = (λ _, false) → w_stores w = false → w_risk w = (λ _, false) →
  (∀ s, facts w s → ∃ b s', gk s = Some (b, s') ∧ gk_step s s') → PluginLaws (wc_null cache gk) w.
Proof.
  intros Hc Hs Hr Hgk. split; rewrite ?Hc, ?Hs, ?Hr; [| |intros p s _|exact Hgk]; [intros p s _|done|].
  - exists s. split_and!; [done| |done]. split; [done|done|done|by right].
  - exists s. split; [done|]. split; [done|done|done|by right].
Qed.

Definition state1 : fsm_state :=
  Fsm (pt_init true)
    (PReq (Some [1; 2; 3; 4; 5; 6]%Z) FSM_FQDN_REQ (Some "www.example.com") "" (Some 4%Z) (Some None) None None
      FSM_ACTION_NONE 0 false)
    (PReply (-1) FSM_ACTION_NONE (-1) FSM_FQDN_CAT_NOP FSM_REPORT_NONE None 0 None None None None true [""; ""]
      false false true false true true) [].
Lemma state1_start : start world1 state1.
Proof. split; [by split|done|done|by eexists|done|done]. Qed.
(** Observe category 7 of a name, then block names that end in ".com". *)
Definition policy (n : string) (i : Z) (r : fsm_policy_rules) (a : fsm_action) : fsm_policy :=
  Policy "t" i (Some n) r None None a FSM_REPORT_ALL.
Definition table1 : list (option fsm_policy) :=
  [Some (policy "observe" 0 (Rules false MAC_OP_IN None true FQDN_OP_IN (Some [Some "www.example.com"]) true CAT_OP_IN
           (Some [3; 7]%Z) false RISK_OP_EQ 0 false IP_OP_IN None) FSM_ACTION_NONE);
   None;
   Some (policy "block" 2 (Rules true MAC_OP_IN (Some [Some "01:02:03:04:05:06"]) true FQDN_OP_SFR_IN
           (Some [Some ".com"]) false CAT_OP_IN None false RISK_OP_EQ 0 false IP_OP_IN None) FSM_BLOCK)].
Lemma table1_wf p : Some p ∈ table1 → policy_wf world1 p.
Proof.
  assert (∀ set : str_set, forallb (forallb (λ e, bool_decide (is_Some e))) (option_list set) = true → set_wf set) as Hset.
  { intros set Hs l e -> He. simpl in Hs. rewrite andb_true_r, forallb_forall in Hs.
    eapply bool_decide_eq_true_1, Hs, list_elem_of_In, He. }
  intros [[= ->]|[?|[[= ->]|?%elem_of_nil]%elem_of_cons]%elem_of_cons]%elem_of_cons; try done;
    (split; try (by apply Hset); try done).
  - intros l e post _ [= <-] He _. apply list_elem_of_singleton in He as [= ->]. done.
  - intros l [= <-]. split; [repeat constructor; lia|repeat constructor; unfold cat_small; lia].
  - intros l e [= <-] ->%list_elem_of_singleton. eexists. split; [done|]. done.
Qed.

Lemma fsm_apply_policies_correct_witness :
  ∃ s', apply_policies pl1 (Some table1) state1 = Some (FSM_BLOCK, s').
Proof.
  destruct (fsm_apply_policies_correct pl1 world1 state1 table1 state1_start table1_wf) as (s' & Hrun & _).
  - repeat constructor; unfold cat_small; lia.
  - pose proof Hrun as Hc. vm_compute in Hc. injection Hc as _ Hs. exists s'. rewrite Hrun. by rewrite <- Hs.
Defined.

Lemma fsm_categorized_once_witness :
  ∃ a s', apply_policies pl1 (Some table1) state1 = Some (a, s') ∧ cat_calls (calls s') ≤ 1.
Proof.
  destruct (fsm_categorized_once pl1 world1 state1 table1 state1_start table1_wf) as (a & s' & Hrun & Hc & _).
  - repeat constructor; unfold cat_small; lia.
  - exists a, s'. split; [exact Hrun|by apply Hc].
Defined.

Lemma cat_search_correct_witness :
  cat_search 7 (with_categories (policy "p" 0 (Rules false MAC_OP_IN None false FQDN_OP_IN None true CAT_OP_IN None
    false RISK_OP_EQ 0 false IP_OP_IN None) FSM_BLOCK) [9; 7; 3]%Z) = true.
Proof.
  apply cat_search_correct.
  - repeat constructor; unfold cat_small; lia.
  - unfold cat_small. lia.
  - right. left.
Defined.

Lemma fsm_wildcard_faults_witness :
  fsm_fqdn_check (λ _ _, true)
    (policy "p" 0 (Rules false MAC_OP_IN None true FQDN_OP_WILD_IN (Some [Some "*.example.com"]) false CAT_OP_IN None
      false RISK_OP_EQ 0 false IP_OP_IN None) FSM_BLOCK) state1 = None.
Proof.
  apply (fsm_wildcard_faults (λ _ _, true)
    (policy "p" 0 (Rules false MAC_OP_IN None true FQDN_OP_WILD_IN (Some [Some "*.example.com"]) false CAT_OP_IN None
      false RISK_OP_EQ 0 false IP_OP_IN None) FSM_BLOCK) state1 "www.example.com" "*.example.com" [] "*" "www");
    try reflexivity.
  simpl. lia.
Defined.
