(* ===== verification/CommonUtil.v ===== *)
(** String helpers of lib/common (src/lib/common/src/util.c).

    Functions that only read their input take a [string], the characters before the
    terminating NUL.  A copy into a buffer of [size] bytes keeps [size - 1] characters
    ([strscpy]).  [strargv], [base64_encode] and [base64_decode] work on bytes in
    buffers: a buffer is a list, an access outside of it is a fault. *)
From S2P Require Import Prelude.

(** ** Copies *)

Definition E2BIG : Z := 7.
Definition EINVAL : Z := 22.

(** [strscpy]: the new content of the buffer ([None]: untouched) and the result. *)
Definition strscpy (src : string) (size : nat) : option string * Z :=
  if size =? 0 then (None, - E2BIG)%Z
  else
    let len := Nat.min (String.length src) (size - 1) in
    (Some (String.substring 0 len src),
     if len <? String.length src then (- E2BIG)%Z else Z.of_nat len).

(** [strscpy_len] *)
Definition strscpy_len (src : string) (size : nat) (src_len : Z) : option string * Z :=
  if size =? 0 then (None, - E2BIG)%Z
  else
    let src_len :=
      if (src_len <? 0)%Z then (Z.min (Z.of_nat (String.length src)) (Z.of_nat size - src_len) + src_len)%Z
      else Z.min (Z.of_nat (String.length src)) src_len in
    if (src_len <? 0)%Z then (Some "", - EINVAL)%Z
    else
      let len := Nat.min (Z.to_nat src_len) (size - 1) in
      (Some (String.substring 0 len src),
       if (Z.of_nat len <? src_len)%Z then (- E2BIG)%Z else Z.of_nat len).

(** [strscat] on a buffer that holds [dest] (no terminator among the [size] bytes when
    [dest] has [size] characters or more). *)
Definition strscat (dest src : string) (size : nat) : option string * Z :=
  if size =? 0 then (None, - E2BIG)%Z
  else
    let dlen := Nat.min (String.length dest) size in
    let free := size - dlen in
    if free =? 0 then (None, - E2BIG)%Z
    else
      let '(new, slen) := strscpy src free in
      ((λ s, String.substring 0 dlen dest +:+ s) <$> new,
       if (slen <? 0)%Z then slen else (Z.of_nat dlen + slen)%Z).

(** What a [STRSCPY] into an array of [size] bytes leaves there. *)
Definition STRSCPY (src : string) (size : nat) : string := String.substring 0 (size - 1) src.

(** [delimiter_append], [comma_append]: the new content of [dest]. *)
Definition delimiter_append (dest : string) (size : nat) (src : string) (i : Z) (d : ascii) : string :=
  let size := Z.of_nat size in
  if (0 <? i)%Z then
    let size := (size - Z.of_nat (String.length dest))%Z in
    if (size <=? 1)%Z then dest
    else
      let size := (size - 1)%Z in
      if (size <=? 1)%Z then dest +:+ String d ""
      else dest +:+ String d (default "" (strscpy src (Z.to_nat size)).1)
  else default dest (strscpy src (Z.to_nat size)).1.
Definition comma_append (dest : string) (size : nat) (src : string) (i : Z) : string :=
  delimiter_append dest size src i ",".

(** ** Characters and words *)

Fixpoint strchr (s : string) (c : ascii) : bool :=
  match s with EmptyString => false | String d s => bool_decide (d = c) || strchr s c end.

(** [strchomp]: drop the characters of [delim] at the end. *)
Fixpoint strchomp (str delim : string) : string :=
  match str with
  | EmptyString => ""
  | String c s =>
      let s' := strchomp s delim in
      if bool_decide (s' = "") && strchr delim c then "" else String c s'
  end.
(** [remove_character] *)
Fixpoint remove_character (str : string) (character : ascii) : string :=
  match str with
  | EmptyString => ""
  | String c s => let s' := remove_character s character in if bool_decide (c = character) then s' else String c s'
  end.
(** [str_trimws] *)
Fixpoint rtrimws (str : string) : string :=
  match str with
  | EmptyString => ""
  | String c s => let s' := rtrimws s in if bool_decide (s' = "") && is_space c then "" else String c s'
  end.
Fixpoint ltrimws (str : string) : string :=
  match str with String c s => if is_space c then ltrimws s else str | EmptyString => "" end.
Definition str_trimws (s : string) : string := ltrimws (rtrimws s).

(** [is_inarray], [count_nt_array], [filter_out_nt_array], [is_array_in_array];
    the array [None] is NULL. *)
Definition is_inarray (key : string) (argv : list string) : bool := existsb (String.eqb key) argv.
Definition count_nt_array (array : option (list string)) : Z :=
  match array with None => 0 | Some l => Z.of_nat (length l) end.
Definition filter_out_nt_array (array flt : list string) : list string * Z :=
  let l := List.filter (λ s, negb (is_inarray s flt)) array in (l, Z.of_nat (length l)).
Definition is_array_in_array (src dest : option (list string)) : bool :=
  match src, dest with
  | None, None => true
  | Some src, Some dest => forallb (λ s, is_inarray s dest) src
  | _, _ => false
  end.

(** [strtok_r] with one delimiter: the next token and the rest. *)
Fixpoint token_to (d : ascii) (s : string) : string * string :=
  match s with
  | EmptyString => ("", "")
  | String c s' => if bool_decide (c = d) then ("", s') else let '(t, r) := token_to d s' in (String c t, r)
  end.
Fixpoint strtok_r (d : ascii) (s : string) : option (string * string) :=
  match s with
  | EmptyString => None
  | String c s' => if bool_decide (c = d) then strtok_r d s' else Some (token_to d s)
  end.
(** The calls after the first one: a call after the end returns NULL again. *)
Definition strtok_next (d : ascii) (o : option (string * string)) : option (string * string) :=
  '(_, r) ← o; strtok_r d r.

Definition UTIL_URI_MAX_LENG : nat := 512.
(** [parse_uri]: [strcmp] of a missing protocol is a fault. *)
Definition parse_uri {S} (uri : string) (proto_size host_size : nat) : M S (option (string * string * Z)) :=
  if bool_decide (uri = "") then mret None
  else
    let tmp := STRSCPY uri UTIL_URI_MAX_LENG in
    let t1 := strtok_r ":" tmp in
    let t2 := strtok_next ":" t1 in
    let t3 := strtok_next ":" t2 in
    let tport := match t3 with Some (pstr, _) => atoi pstr | None => 0%Z end in
    tproto ← deref (fst <$> t1);
    if negb (bool_decide (tproto = "ssl")) && negb (bool_decide (tproto = "tcp")) then mret None
    else
      match t2 with
      | None => mret None
      | Some (thost, _) =>
          if bool_decide (thost = "") || (tport <=? 0)%Z then mret None
          else mret (Some (STRSCPY tproto proto_size, STRSCPY thost host_size, tport))
      end.

(** ** Base 64 *)

Definition base64_table : list ascii :=
  String.list_ascii_of_string "ABCDEFGHIJKLMNOPQRSTUVWXYZabcdefghijklmnopqrstuvwxyz0123456789+/".
Definition table64 (m : Z) : ascii := nth (Z.to_nat (Z.land m 63)) base64_table zero.
(** One round of [base64_encode] for three bytes, two and one; the values [m] are
    8-bit. *)
Definition encode3 (b0 b1 b2 : Z) : list ascii :=
  [table64 (Z.shiftr b0 2); table64 (wrapu 8 (Z.lor (Z.shiftr b1 4) (Z.shiftl b0 4)));
   table64 (wrapu 8 (Z.lor (Z.shiftr b2 6) (Z.shiftl b1 2))); table64 b2].
Definition encode2 (b0 b1 : Z) : list ascii :=
  [table64 (Z.shiftr b0 2); table64 (wrapu 8 (Z.lor (Z.shiftr b1 4) (Z.shiftl b0 4)));
   table64 (wrapu 8 (Z.shiftl b1 2)); "="%char].
Definition encode1 (b0 : Z) : list ascii :=
  [table64 (Z.shiftr b0 2); table64 (wrapu 8 (Z.shiftl b0 4)); "="%char; "="%char].
Fixpoint encode_blocks (input : list Z) : list ascii :=
  match input with
  | [] => []
  | [b0] => encode1 b0
  | [b0; b1] => encode2 b0 b1
  | b0 :: b1 :: b2 :: input => encode3 b0 b1 b2 ++ encode_blocks input
  end.
(** [base64_encode]: the characters before the terminating NUL; [None] is -1. *)
Definition base64_encode (out_sz : Z) (input : list Z) : option (list ascii) :=
  if (out_sz <=? (Z.of_nat (length input) + 2) `quot` 3 * 4)%Z then None else Some (encode_blocks input).

(** The position of a character in the table.  The table is an array of 64 characters
    without a terminator, so the search for any other character leaves it: a fault. *)
Definition index64 {S} (c : ascii) : M S Z :=
  match list_find (λ d, d = c) base64_table with Some (i, _) => mret (Z.of_nat i) | None => fault end.
(** The loop of [base64_decode]; a single remaining character is translated and adds
    nothing. *)
Fixpoint decode_blocks {S} (input : list ascii) : M S (list Z) :=
  match input with
  | [] => mret []
  | [c0] => m0 ← index64 c0; mret []
  | [c0; c1] =>
      m0 ← index64 c0; m1 ← index64 c1;
      mret [wrapu 8 (Z.lor (Z.shiftl m0 2) (Z.shiftr m1 4))]
  | [c0; c1; c2] =>
      m0 ← index64 c0; m1 ← index64 c1; m2 ← index64 c2;
      mret [wrapu 8 (Z.lor (Z.shiftl m0 2) (Z.shiftr m1 4)); wrapu 8 (Z.lor (Z.shiftl m1 4) (Z.shiftr m2 2))]
  | c0 :: c1 :: c2 :: c3 :: input =>
      m0 ← index64 c0; m1 ← index64 c1; m2 ← index64 c2; m3 ← index64 c3;
      rest ← decode_blocks input;
      mret (wrapu 8 (Z.lor (Z.shiftl m0 2) (Z.shiftr m1 4)) :: wrapu 8 (Z.lor (Z.shiftl m1 4) (Z.shiftr m2 2))
            :: wrapu 8 (Z.lor (Z.shiftl m2 6) m3) :: rest)
  end.
(** Drop a "=" at the end. *)
Definition clip_pad (input : list ascii) : list ascii :=
  match last input with Some c => if bool_decide (c = "="%char) then removelast input else input | None => input end.
(** [base64_decode]: the bytes; [None] is -1. *)
Definition base64_decode {S} (out_sz : Z) (input : list ascii) : M S (option (list Z)) :=
  let input_sz := Z.of_nat (length input) in
  if (input_sz =? 0)%Z then mret (Some [])
  else if negb (input_sz `mod` 4 =? 0)%Z then mret None
  else
    let input := clip_pad (clip_pad input) in
    let input_sz := Z.of_nat (length input) in
    if (out_sz <? Z.shiftr input_sz 2 * 3 + Z.shiftr (Z.land input_sz 3 * 3) 2)%Z then mret None
    else l ← decode_blocks input; mret (Some l).

(** ** Shell words *)

Inductive tok_state := TOK_SPACE | TOK_WORD | TOK_QUOTE | TOK_END.
#[export] Instance tok_state_eq_dec : EqDecision tok_state.
Proof. solve_decision. Defined.
Definition NUL : ascii := zero.
Definition DQUOTE : ascii := ascii_of_nat 34.
(** The local variables of [strargv]; the store is the buffer. *)
Record argv_state := Argv { scmd : nat; dcmd : nat; quote_char : ascii; tok : tok_state }.
Abbreviation BM := (M (list ascii)).
Definition getc (i : nat) : BM ascii := λ buf, match buf !! i with Some c => Some (c, buf) | None => None end.
Definition putc (i : nat) (c : ascii) : BM unit :=
  λ buf, match buf !! i with Some _ => Some (tt, <[i := c]> buf) | None => None end.
(** [*dcmd++ = *scmd++] *)
Definition copyc (a : argv_state) : BM argv_state :=
  c ← getc (scmd a);
  putc (dcmd a) c;;
  mret (Argv (S (scmd a)) (S (dcmd a)) (quote_char a) (tok a)).
(** A backslash at [scmd]. *)
Definition escape (a : argv_state) : BM argv_state :=
  let a := Argv (S (scmd a)) (dcmd a) (quote_char a) (tok a) in
  c ← getc (scmd a);
  if bool_decide (c = NUL) then putc (scmd a) "\";; mret a else copyc a.
Definition is_quote (c : ascii) : bool :=
  bool_decide (c = DQUOTE) || bool_decide (c = "'"%char) || bool_decide (c = NUL).
Definition set_tok (t : tok_state) (a : argv_state) : argv_state := Argv (scmd a) (dcmd a) (quote_char a) t.
Definition word_step (with_quotes : bool) (a : argv_state) : BM argv_state :=
  c ← getc (scmd a);
  a ← (if bool_decide (c = "\"%char) then escape a else mret a);
  c ← getc (scmd a);
  if is_quote c then (if negb with_quotes then mret (set_tok TOK_QUOTE a) else copyc a)
  else if is_space c then mret (set_tok TOK_END a)
  else copyc a.
Definition quote_step (a : argv_state) : BM argv_state :=
  a ← (if bool_decide (quote_char a = NUL)
       then c ← getc (scmd a); mret (Argv (S (scmd a)) (dcmd a) c (tok a)) else mret a);
  c ← getc (scmd a);
  if bool_decide (c = NUL) then mret (set_tok TOK_END a)
  else if bool_decide (quote_char a = DQUOTE) && bool_decide (c = "\"%char) then escape a
  else if bool_decide (c = quote_char a) then mret (Argv (S (scmd a)) (dcmd a) NUL TOK_WORD)
  else copyc a.
Fixpoint skip_space (fuel : nat) (i : nat) : BM nat :=
  match fuel with
  | O => fault
  | S fuel => c ← getc i; if is_space c then skip_space fuel (S i) else mret i
  end.
(** The loop; [None] is the early [return NULL]. *)
Fixpoint argv_loop (fuel : nat) (with_quotes : bool) (a : argv_state) : BM (option argv_state) :=
  match fuel with
  | O => fault
  | S fuel =>
      c ← getc (scmd a);
      if bool_decide (tok a = TOK_END) || bool_decide (c = NUL) then mret (Some a)
      else
        match tok a with
        | TOK_SPACE =>
            i ← skip_space (S fuel) (scmd a);
            c ← getc i;
            if bool_decide (c = NUL) then mret None
            else argv_loop fuel with_quotes (Argv i (dcmd a) (quote_char a) TOK_WORD)
        | TOK_WORD => a ← word_step with_quotes a; argv_loop fuel with_quotes a
        | TOK_QUOTE => a ← quote_step a; argv_loop fuel with_quotes a
        | TOK_END => mret (Some a)
        end
  end.
(** [strargv] from the position [cmd]: whether a word was found, which is then at [cmd],
    and the next position ([None]: NULL). *)
Definition strargv (fuel : nat) (cmd : option nat) (with_quotes : bool) : BM (bool * option nat) :=
  match cmd with
  | None => mret (false, None)
  | Some p =>
      r ← argv_loop fuel with_quotes (Argv p p NUL TOK_SPACE);
      match r with
      | None => mret (false, Some p)
      | Some a =>
          c ← getc (scmd a);
          putc (dcmd a) NUL;;
          mret (true, if bool_decide (c = NUL) then None else Some (S (scmd a)))
      end
  end.
