(* ===== verification/CommonUtilThms.v ===== *)
(** String helpers of lib/common: base 64 round trip and the meaning of [parse_uri]. *)
From coqutil Require Import Z.bitblast.
From stdpp Require Import pretty.
From S2P Require Import Prelude CommonUtil.
#[local] Open Scope Z_scope.

(** ** Base 64 *)

(** Equality of bytes, bit by bit. *)
Ltac byte_bits :=
  apply Z.bits_inj'; let n := fresh "n" in let Hn := fresh "Hn" in intros n Hn; unfold wrapu;
  repeat rewrite ?Z.testbit_mod_pow2, ?Z.lor_spec, ?Z.land_spec, ?Z.shiftl_spec', ?Z.shiftr_spec' by lia;
  destruct (Z.ltb_spec n 8) as [Hlt|Hge];
  [|repeat match goal with |- context [?x <? 8] => rewrite (proj2 (Z.ltb_ge x 8)) by lia end;
    cbn [andb]; rewrite ?andb_false_r; reflexivity];
  assert (n = 0 ∨ n = 1 ∨ n = 2 ∨ n = 3 ∨ n = 4 ∨ n = 5 ∨ n = 6 ∨ n = 7) as Hc by lia; clear Hn Hlt;
  destruct Hc as [->|[->|[->|[->|[->|[->|[->| ->]]]]]]];
  repeat match goal with
    | |- context [Z.testbit ?c ?k] => is_var c; let k' := eval vm_compute in k in
        progress change (Z.testbit c k) with (Z.testbit c k')
    end;
  repeat match goal with |- context [Z.testbit ?c (Z.neg ?k)] => rewrite (Z.testbit_neg_r c (Z.neg k)) by lia end;
  repeat match goal with |- context [Z.testbit ?c ?k] => is_var c; destruct (Z.testbit c k) end; reflexivity.

Definition is_byte (b : Z) : Prop := 0 ≤ b < 256.
Lemma byte_wrap b : is_byte b → b = wrapu 8 b.
Proof. intros Hb. unfold wrapu. rewrite Z.mod_small; [done|]. apply Hb. Qed.

Lemma land63_lt m : (Z.to_nat (Z.land m 63) < 64)%nat.
Proof.
  change 63 with (Z.ones 6). rewrite Z.land_ones by lia. pose proof (Z.mod_pos_bound m (2 ^ 6)). lia.
Qed.
Lemma table_index : Forall (λ i, list_find (λ d, d = nth i base64_table zero) base64_table
  = Some (i, nth i base64_table zero) ∧ nth i base64_table zero ≠ "="%char) (seq 0 64).
Proof. repeat constructor; done. Qed.
Lemma index_table {S} m : @index64 S (table64 m) = mret (Z.land m 63).
Proof.
  unfold index64, table64. pose proof (proj1 (Forall_forall _ _) table_index (Z.to_nat (Z.land m 63))) as [-> _].
  - apply elem_of_seq. pose proof (land63_lt m). lia.
  - rewrite Z2Nat.id; [done|]. apply Z.land_nonneg. by right.
Qed.
Lemma table_not_pad m : table64 m ≠ "="%char.
Proof.
  apply (proj1 (Forall_forall _ _) table_index). apply elem_of_seq. pose proof (land63_lt m). lia.
Qed.

(** Induction on blocks of three bytes. *)
Lemma blocks_ind (P : list Z → Prop) :
  P [] → (∀ a, P [a]) → (∀ a b, P [a; b]) → (∀ a b c l, P l → P (a :: b :: c :: l)) → ∀ l, P l.
Proof. intros H0 H1 H2 H3. fix IH 1. intros [|a [|b [|c l]]]; [done..|]. apply H3, IH. Qed.

(** The encoding without the padding. *)
Fixpoint encode_raw (input : list Z) : list ascii :=
  match input with
  | [] => []
  | [b0] => take 2 (encode1 b0)
  | [b0; b1] => take 3 (encode2 b0 b1)
  | b0 :: b1 :: b2 :: input => encode3 b0 b1 b2 ++ encode_raw input
  end.
Lemma clip_not_pad l c : c ≠ "="%char → clip_pad (l ++ [c]) = l ++ [c].
Proof. intros Hc. unfold clip_pad. rewrite last_snoc. by rewrite bool_decide_eq_false_2. Qed.
Lemma clip_one l : clip_pad (l ++ ["="%char]) = l.
Proof. unfold clip_pad. rewrite last_snoc. cbn. by rewrite removelast_last. Qed.
Lemma encode_raw_end l : l ≠ [] → ∃ l' c, encode_raw l = l' ++ [c] ∧ c ≠ "="%char.
Proof.
  induction l as [| a | a b | a b c l IH] using blocks_ind; intros Hl; [done| | |].
  - eexists [_], _. split; [done|apply table_not_pad].
  - eexists [_; _], _. split; [done|apply table_not_pad].
  - destruct l as [|d l]; [eexists [_; _; _], _; split; [done|apply table_not_pad]|].
    destruct IH as (l' & x & E & Hx); [done|]. eexists (encode3 a b c ++ l'), x. split; [|done].
    change (encode_raw (a :: b :: c :: d :: l)) with (encode3 a b c ++ encode_raw (d :: l)).
    by rewrite E, (assoc_L (++)).
Qed.
Lemma clip_encode l : clip_pad (clip_pad (encode_blocks l)) = encode_raw l.
Proof.
  assert (∃ p, encode_blocks l = encode_raw l ++ p ∧ (p = [] ∨ p = ["="%char] ∨ p = ["="%char; "="%char])) as (p & -> & Hp).
  { induction l as [| a | a b | a b c l (p & IH & Hp)] using blocks_ind.
    - by exists []; auto.
    - exists ["="%char; "="%char]. by auto.
    - exists ["="%char]. by auto.
    - exists p. split; [|done].
      change (encode_blocks (a :: b :: c :: l)) with (encode3 a b c ++ encode_blocks l).
      by rewrite IH, (assoc_L (++)). }
  destruct (decide (l = [])) as [->|Hl].
  { destruct Hp as [->|[->| ->]]; done. }
  destruct (encode_raw_end l Hl) as (l' & c & -> & Hc). destruct Hp as [->|[->| ->]].
  - by rewrite app_nil_r, !clip_not_pad.
  - by rewrite clip_one, clip_not_pad.
  - change ["="%char; "="%char] with (["="%char] ++ ["="%char]). by rewrite (assoc_L (++)), !clip_one.
Qed.
Lemma decode_encode {S} l (s : S) : Forall is_byte l → decode_blocks (encode_raw l) s = Some (l, s).
Proof.
  induction l as [| a | a b | a b c l IH] using blocks_ind; intros Hl; [done| | |];
    repeat match goal with H : Forall is_byte (_ :: _) |- _ => apply Forall_cons in H as [? H] end;
    repeat match goal with H : is_byte ?x |- _ => rewrite (byte_wrap x H); clear H end;
    cbn [encode_raw take encode1 encode2 encode3 app decode_blocks]; rewrite !index_table;
    unfold mbind, M_bind, mret, M_ret.
  - do 2 f_equal. f_equal. byte_bits.
  - do 2 f_equal. f_equal; [byte_bits|f_equal; byte_bits].
  - rewrite IH by done. do 2 f_equal. f_equal; [byte_bits|f_equal; [byte_bits|f_equal; byte_bits]].
Qed.
(** The space the decoder asks for is the number of bytes. *)
Lemma decoded_size l : let n := Z.of_nat (length (encode_raw l)) in
  Z.shiftr n 2 * 3 + Z.shiftr (Z.land n 3 * 3) 2 = Z.of_nat (length l).
Proof.
  cbn zeta. change 3 with (Z.ones 2) at 2. rewrite Z.land_ones, !Z.shiftr_div_pow2 by lia. change (2 ^ 2) with 4.
  induction l as [| a | a b | a b c l IH] using blocks_ind; [done..|].
  change (encode_raw (a :: b :: c :: l)) with (encode3 a b c ++ encode_raw l). rewrite length_app. cbn [length encode3].
  rewrite !Nat2Z.inj_succ, Nat2Z.inj_add. Z.to_euclidean_division_equations. lia.
Qed.
Lemma encoded_size l : Z.of_nat (length (encode_blocks l)) = (Z.of_nat (length l) + 2) `quot` 3 * 4.
Proof.
  induction l as [| a | a b | a b c l IH] using blocks_ind; [done..|].
  change (encode_blocks (a :: b :: c :: l)) with (encode3 a b c ++ encode_blocks l). rewrite length_app, Nat2Z.inj_add, IH.
  cbn [length encode3]. Z.to_euclidean_division_equations. lia.
Qed.

(**  [base64_encode] succeeds exactly when the buffer holds the encoding and its
    terminator; its output has four characters for every three bytes begun, and
    [base64_decode] with room for the bytes returns them. *)
Theorem base64_roundtrip {S} (out_sz dec_sz : Z) (input : list Z) (s : S) :
  Forall is_byte input → Z.of_nat (length input) ≤ dec_sz →
  let len := (Z.of_nat (length input) + 2) `quot` 3 * 4 in
  (base64_encode out_sz input = None ↔ out_sz < len + 1) ∧
  ∀ str, base64_encode out_sz input = Some str →
    Z.of_nat (length str) = len ∧ base64_decode dec_sz str s = Some (Some input, s).
Proof.
  intros Hb Hsz len. unfold base64_encode. fold len. destruct (Z.leb_spec out_sz len) as [Hle|Hlt].
  { split; [split; [lia|done]|done]. }
  split; [split; [done|lia]|]. intros str [= <-]. split; [apply encoded_size|]. unfold base64_decode.
  rewrite encoded_size. fold len. destruct (Z.eqb_spec len 0) as [E|E].
  { destruct input; [done|]. exfalso. unfold len in E. cbn [length] in E. Z.to_euclidean_division_equations. lia. }
  rewrite clip_encode. rewrite decoded_size. unfold len at 1. rewrite Z.mod_mul by lia. cbn [Z.eqb negb].
  rewrite (proj2 (Z.ltb_ge _ _)) by lia. unfold mbind, M_bind. by rewrite decode_encode.
Qed.
Lemma base64_roundtrip_witness :
  let str := String.list_ascii_of_string "AP8QgA==" in
  Z.of_nat (length str) = 8 ∧ base64_decode 4 str tt = Some (Some [0; 255; 16; 128], tt).
Proof. apply (base64_roundtrip 9 4 [0; 255; 16; 128] tt); [by repeat constructor|done|reflexivity]. Defined.
(** A character outside of the table is not reported. *)
Theorem base64_decode_invalid {S} (s : S) : base64_decode 3 ["a"%char; "b"%char; "!"%char; "d"%char] s = None.
Proof. reflexivity. Qed.

(** ** Addresses *)

Definition no_colon (s : string) : Prop := strchr s ":" = false.
Lemma app_String c t r : String c t +:+ r = String c (t +:+ r).
Proof. done. Qed.
Lemma token_to_colon t r : no_colon t → token_to ":" (t +:+ String ":" r) = (t, r).
Proof.
  unfold no_colon. induction t as [|c t IH]; [done|]. rewrite ?app_String. cbn [strchr token_to].
  intros H. apply orb_false_iff in H as [H1 H2].
  rewrite H1, IH by done. done.
Qed.
Lemma token_to_end t : no_colon t → token_to ":" t = (t, "").
Proof.
  unfold no_colon. induction t as [|c t IH]; [done|]. rewrite ?app_String. cbn [strchr token_to].
  intros H. apply orb_false_iff in H as [H1 H2].
  rewrite H1, IH by done. done.
Qed.
Lemma strtok_colon t r : t ≠ "" → no_colon t → strtok_r ":" (t +:+ String ":" r) = Some (t, r).
Proof.
  intros Ht Hn. pose proof (token_to_colon t r Hn) as E. destruct t as [|c t]; [done|]. revert Hn E. unfold no_colon.
  rewrite ?app_String. cbn [strchr token_to strtok_r]. intros H. apply orb_false_iff in H as [H1 H2]. rewrite H1. by intros ->.
Qed.
Lemma strtok_end t : t ≠ "" → no_colon t → strtok_r ":" t = Some (t, "").
Proof.
  intros Ht Hn. pose proof (token_to_end t Hn) as E. destruct t as [|c t]; [done|]. revert Hn E. unfold no_colon.
  rewrite ?app_String. cbn [strchr token_to strtok_r]. intros H. apply orb_false_iff in H as [H1 H2]. rewrite H1. by intros ->.
Qed.
Lemma strtok_none s : strtok_r ":" s = None ↔ ∀ c, strchr s c = true → c = ":"%char.
Proof.
  induction s as [|d s IH]; cbn [strchr strtok_r]; [done|]. case_bool_decide as Hd.
  - subst. rewrite IH. split; intros H c; [rewrite orb_true_iff, bool_decide_eq_true; naive_solver|].
    intros Hc. apply H. by rewrite Hc, orb_true_r.
  - split; [done|]. intros H. destruct Hd. apply H. by rewrite bool_decide_eq_true_2.
Qed.

(** Tokens are not empty and have no delimiter. *)
Lemma token_to_no_colon s : no_colon (token_to ":" s).1.
Proof.
  unfold no_colon. induction s as [|c s IH]; [done|]. cbn [token_to]. case_bool_decide; [done|].
  destruct (token_to _ s) as [t r]. cbn [fst strchr] in *. by rewrite bool_decide_eq_false_2, IH.
Qed.
Lemma strtok_token s t r : strtok_r ":" s = Some (t, r) → t ≠ "" ∧ no_colon t.
Proof.
  induction s as [|c s IH]; [done|]. cbn [strtok_r]. case_bool_decide as Hc; [done|]. intros E.
  pose proof (token_to_no_colon (String c s)) as Hn. assert (token_to ":" (String c s) = (t, r)) as E' by congruence.
  rewrite E' in Hn. split; [|done]. revert E'. cbn [token_to]. rewrite bool_decide_eq_false_2 by done.
  destruct (token_to ":" s). by intros [= <- _].
Qed.
Lemma STRSCPY_token t n : (1 < n)%nat → t ≠ "" → no_colon t → STRSCPY t n ≠ "" ∧ no_colon (STRSCPY t n).
Proof.
  intros Hn Ht Hc. unfold STRSCPY. split.
  { destruct t as [|c t]; [done|]. by destruct n as [|[|n]]; [lia..|]. }
  clear Ht Hn. generalize (n - 1)%nat as m. revert Hc. unfold no_colon.
  induction t as [|c t IH]; intros Hc [|m]; cbn [strchr String.substring] in *; [done..|].
  apply orb_false_iff in Hc as [-> Hc]. by apply IH.
Qed.

(** Decimal numbers. *)
Lemma pretty_char_cases (P : ascii → Prop) x : Forall P (String.list_ascii_of_string "0123456789") → P (pretty_N_char x).
Proof.
  cbn. intros H. repeat (apply Forall_cons in H as [? H]). unfold pretty_N_char. by repeat case_match.
Qed.
Lemma pretty_digit (x : N) : (x < 10)%N → digit (pretty_N_char x) = Some (Z.of_N x).
Proof. intros Hx. by destruct x as [|[[[]|[[]|[]|]|]|[[]|[[]|[]|]|]|]]; cbn in *; try lia. Qed.
Lemma digits_pretty x acc s : acc = 0 → digits acc (pretty_N_go x s) = digits (Z.of_N x) s.
Proof.
  intros ->. revert s. induction (N.lt_wf_0 x) as [x _ IH]. intros s.
  assert (x = 0 ∨ 0 < x)%N as [->|Hx] by lia; [by rewrite pretty_N_go_0|].
  rewrite pretty_N_go_step by done. rewrite IH by (by apply N.div_lt). cbn [digits].
  rewrite pretty_digit by (by apply N.mod_lt). f_equal. pose proof (N.div_mod x 10 ltac:(done)). lia.
Qed.
Lemma no_colon_pretty x s : no_colon s → no_colon (pretty_N_go x s).
Proof.
  revert s. induction (N.lt_wf_0 x) as [x _ IH]. intros s Hs.
  assert (x = 0 ∨ 0 < x)%N as [->|Hx] by lia; [by rewrite pretty_N_go_0|].
  rewrite pretty_N_go_step by done. apply IH; [by apply N.div_lt|]. unfold no_colon. cbn [strchr].
  rewrite Hs, orb_false_r. apply bool_decide_eq_false_2.
  apply (pretty_char_cases (λ c, c ≠ ":"%char)). by repeat constructor.
Qed.

(** A protocol, a host and a port between colons. *)
Lemma parse_uri_parts {S} (p h n : string) (psz hsz : nat) (s : S) :
  p = "ssl" ∨ p = "tcp" → h ≠ "" → no_colon h → n ≠ "" → no_colon n → 0 < atoi n →
  (String.length (p +:+ String ":" (h +:+ String ":" n)) < UTIL_URI_MAX_LENG)%nat →
  (String.length p < psz)%nat → (String.length h < hsz)%nat →
  parse_uri (p +:+ String ":" (h +:+ String ":" n)) psz hsz s = Some (Some (p, h, atoi n), s).
Proof.
  intros Hp Hh Hhc Hn Hnc Ha Hl Hpsz Hhsz. unfold parse_uri.
  assert (p ≠ "" ∧ no_colon p) as [Hp0 Hpc] by (by destruct Hp as [-> | ->]).
  rewrite bool_decide_eq_false_2 by (destruct p; [done|]; by rewrite app_String). cbn zeta.
  assert (STRSCPY (p +:+ String ":" (h +:+ String ":" n)) UTIL_URI_MAX_LENG = p +:+ String ":" (h +:+ String ":" n)) as ->
    by (apply substring_full; lia).
  rewrite strtok_colon by done. cbn [strtok_next mbind option_bind]. rewrite strtok_colon by done.
  cbn [strtok_next mbind option_bind]. rewrite (strtok_end n) by done. cbn [fmap option_fmap option_map fst deref].
  unfold mbind, M_bind, mret, M_ret. rewrite (proj2 (Z.leb_gt _ _)) by done. rewrite (bool_decide_eq_false_2 (h = "")) by done.
  cbn [orb]. unfold STRSCPY. rewrite !substring_full by lia. destruct Hp as [-> | ->]; done.
Qed.
Definition head_digit (s : string) : Prop := match s with String c _ => is_Some (digit c) | EmptyString => False end.
Lemma head_digit_pretty x s : head_digit s ∨ (0 < x)%N → head_digit (pretty_N_go x s).
Proof.
  revert s. induction (N.lt_wf_0 x) as [x _ IH]. intros s Hs.
  assert (x = 0 ∨ 0 < x)%N as [->|Hx] by lia; [rewrite pretty_N_go_0; by destruct Hs|].
  rewrite pretty_N_go_step by done. apply IH; [by apply N.div_lt|]. left. cbn [head_digit].
  rewrite pretty_digit by (by apply N.mod_lt). done.
Qed.
Lemma atoi_digits s : head_digit s → atoi s = digits 0 s.
Proof.
  destruct s as [|c s]; [done|]. cbn [head_digit]. unfold digit. intros [z Hz].
  destruct ((48 <=? nat_of_ascii c)%nat && (nat_of_ascii c <=? 57)%nat) eqn:E; [|done].
  apply andb_prop in E as [E1%Nat.leb_le E2%Nat.leb_le]. unfold atoi, is_space.
  rewrite (proj2 (Nat.leb_gt (nat_of_ascii c) 13)) by lia. rewrite (proj2 (Nat.eqb_neq (nat_of_ascii c) 32)) by lia.
  rewrite andb_false_r. cbn [orb].
  rewrite !bool_decide_eq_false_2; [done|..]; intros ->; vm_compute in E1; lia.
Qed.
Lemma atoi_pretty (n : positive) : atoi (pretty (Z.pos n)) = Z.pos n.
Proof.
  change (pretty (Z.pos n)) with (pretty_N_go (N.pos n) ""). rewrite atoi_digits by (apply head_digit_pretty; by right).
  by rewrite digits_pretty.
Qed.

Lemma parse_uri_sound {S} uri psz hsz p h n (s s' : S) :
  (3 < psz)%nat → (1 < hsz)%nat → parse_uri uri psz hsz s = Some (Some (p, h, n), s') →
  s' = s ∧ (p = "ssl" ∨ p = "tcp") ∧ h ≠ "" ∧ no_colon h ∧ 0 < n.
Proof.
  intros Hp Hh. unfold parse_uri. case_bool_decide; [done|]. cbn zeta.
  destruct (strtok_r ":" _) as [[t r]|]; [|done]. cbn [strtok_next mbind option_bind fmap option_fmap option_map fst deref].
  unfold mbind, M_bind, mret, M_ret. destruct (negb _ && negb _) eqn:Ep; [done|].
  destruct (strtok_r ":" r) as [[t' r']|] eqn:E2; [|done]. destruct (strtok_token _ _ _ E2) as [Hn Hc].
  destruct (_ || _) eqn:Et; [done|]. apply orb_false_iff in Et as [_ Et%Z.leb_gt]. intros [= <- <- <- <-].
  destruct (STRSCPY_token t' hsz Hh Hn Hc) as [? ?]. split_and!; try done.
  apply andb_false_iff in Ep as [Ep|Ep]; apply negb_false_iff, bool_decide_eq_true in Ep as ->;
    [left|right]; apply substring_full; cbn; lia.
Qed.

(**  [parse_uri] recovers protocol, host and port from an address
    protocol:host:port that fits its buffers, whatever the positive port.  What it
    accepts has one of the two protocols, a host without colons and a positive port.
    It has no defined result for a non-empty address that consists of colons only (within
    the 511 characters it looks at): the missing protocol is compared through a NULL pointer.
    For any other address it returns. *)
Theorem parse_uri_correct {S} (s : S) :
  (∀ p h (n : positive) psz hsz,
     p = "ssl" ∨ p = "tcp" → h ≠ "" → no_colon h → Z.pos n < 2 ^ 31 →
     let uri := p +:+ String ":" (h +:+ String ":" (pretty (Z.pos n))) in
     (String.length uri < UTIL_URI_MAX_LENG)%nat → (String.length p < psz)%nat → (String.length h < hsz)%nat →
     parse_uri uri psz hsz s = Some (Some (p, h, Z.pos n), s)) ∧
  (∀ uri psz hsz p h n s', (3 < psz)%nat → (1 < hsz)%nat → parse_uri uri psz hsz s = Some (Some (p, h, n), s') →
     s' = s ∧ (p = "ssl" ∨ p = "tcp") ∧ h ≠ "" ∧ no_colon h ∧ 0 < n) ∧
  (∀ uri psz hsz, parse_uri uri psz hsz s = None ↔
     uri ≠ "" ∧ ∀ c, strchr (STRSCPY uri UTIL_URI_MAX_LENG) c = true → c = ":"%char).
Proof.
  split_and!.
  - intros p h n psz hsz Hp Hh Hhc _ uri Hl Hpsz Hhsz. unfold uri.
    assert (head_digit (pretty (Z.pos n))) as Hd by (apply (head_digit_pretty (N.pos n)); by right).
    rewrite parse_uri_parts; rewrite ?atoi_pretty; try done.
    + by intros E; rewrite E in Hd.
    + by apply (no_colon_pretty (N.pos n)).
  - intros uri psz hsz p h n s' Hp Hh. apply parse_uri_sound; lia.
  - intros uri psz hsz. rewrite <-strtok_none. unfold parse_uri. case_bool_decide as He; [by split; [|intros []]|].
    cbn zeta. destruct (strtok_r ":" _) as [[t r]|]; [|by split]. split; [|by intros []].
    cbn [fmap option_fmap option_map fst deref]. unfold mbind, M_bind, mret, M_ret. destruct (_ && _); [done|].
    destruct (strtok_next ":" _) as [[h r']|]; [|done]. by destruct (_ || _).
Qed.
Lemma parse_uri_correct_witness :
  parse_uri "ssl:redirector.example.com:443" 6 256 tt = Some (Some ("ssl", "redirector.example.com", 443), tt) ∧
  parse_uri "::" 6 256 tt = None.
Proof.
  split; [apply (proj1 (parse_uri_correct tt) "ssl" "redirector.example.com" 443%positive)|apply (proj2 (proj2 (parse_uri_correct tt)))].
  all: try done; try (by left); try (cbn; lia).
  - vm_compute. lia.
  - split; [done|]. intros c. cbn. rewrite !orb_true_iff, !bool_decide_eq_true. naive_solver.
Defined.

(** ** Shell words *)

Definition buffer (s : string) : list ascii := String.list_ascii_of_string s ++ [NUL].
Example strargv_words :
  fst <$> strargv 20 (Some 0%nat) false (buffer "  ls -l") = Some (true, Some 5%nat) ∧
  fst <$> strargv 20 (Some 0%nat) false (buffer "'a b' c") = Some (true, Some 6%nat) ∧
  fst <$> strargv 20 (Some 0%nat) false (buffer "   ") = Some (false, Some 0%nat).
Proof. by vm_compute. Qed.
(** A backslash at the end overwrites the terminator, and the scan leaves the buffer;
    keeping the quotes, any escaped last character does. *)
Theorem strargv_overrun fuel :
  strargv fuel (Some 0%nat) false (buffer "a\") = None ∧ strargv fuel (Some 0%nat) true (buffer "a\b") = None.
Proof. by do 5 (destruct fuel as [|fuel]; [by split|]). Qed.
