(* ===== verification/CommonText.v ===== *)
(** Text helpers of lib/common (src/lib/common/src/util.c): formatted output into a
    buffer, lists of words and lines, hexadecimal output, and the channel lists of the
    5 and 6 GHz bands. *)
From stdpp Require Import pretty.
From S2P Require Import Prelude CommonUtil.

(** ** Formatted output *)

(** [csnprintf] of the text [t] with [size] bytes left: what is written, the result and
    the bytes left.  With no bytes left the position moves back by one. *)
Definition csnprintf (size : Z) (t : string) : string * Z * Z :=
  let ret := Z.of_nat (String.length t) in
  let len := if (size <=? ret)%Z then (size - 1)%Z else ret in
  (String.substring 0 (Z.to_nat len) t, ret, (size - len)%Z).
(** [str_join]; [s] is the room left.  The result is tested against the room that is
    left after the piece was written. *)
Fixpoint str_join_loop (s : Z) (pieces : list string) : string * bool :=
  match pieces with
  | [] => ("", true)
  | t :: pieces =>
      let '(w, r, s) := csnprintf s t in
      if (r <? 0)%Z || (s <? r)%Z then (w, false)
      else let '(w', ok) := str_join_loop s pieces in (w +:+ w', ok)
  end.
(** The pieces: each element followed by the delimiter, the last one alone. *)
Fixpoint pieces (l : list string) (delim : string) : list string :=
  match l with
  | [] => []
  | [t] => [t]
  | t :: l => (t +:+ delim) :: pieces l delim
  end.
Definition str_join (size : Z) (l : list string) (delim : string) : string * bool :=
  str_join_loop size (pieces l delim).
Definition str_join_int (size : Z) (l : list Z) (delim : string) : string * bool :=
  str_join size (pretty <$> l) delim.

(** ** Words and lines *)

(** [strsep] with one delimiter, until it returns NULL: the fields, empty ones
    included. *)
Fixpoint strsep_all (d : ascii) (s : string) : list string :=
  match s with
  | EmptyString => [""]
  | String c s' =>
      match strsep_all d s' with
      | f :: fs => if bool_decide (c = d) then "" :: f :: fs else String c f :: fs
      | [] => []
      end
  end.
(** [strdel]: the words that the comparison tells apart from [needle] (it returns 0 for
    equal ones), each put in front of the others. *)
Definition strdel (heystack needle : string) (strcmp_fun : string → string → Z) : string :=
  let q := foldl (λ q i, if (strcmp_fun i needle =? 0)%Z then q else i +:+ String " " q) "" (strsep_all " " heystack) in
  STRSCPY (strchomp q " ") (S (String.length heystack)).
(** [argvstr] *)
Fixpoint argvstr (argv : list string) : string :=
  match argv with
  | [] => ""
  | [a] => a
  | a :: argv => a +:+ String "," (argvstr argv)
  end.
(** [str_count_lines], [str_split_lines_to]: the lines, a newline at the end does not
    begin another one; the result tells whether [size] was enough. *)
Definition NEWLINE : ascii := ascii_of_nat 10.
Definition text_lines (s : string) : list string :=
  let f := strsep_all NEWLINE s in
  match last f with Some EmptyString => removelast f | _ => f end.
Definition str_count_lines (s : option string) : Z :=
  match s with None => 0 | Some s => Z.of_nat (length (text_lines s)) end.
Definition str_split_lines_to (s : string) (size : nat) : list string * bool :=
  let l := text_lines s in (take size l, length l <=? size).
(** [str_startswith], [str_endswith] *)
Definition str_startswith (str start : string) : bool := bool_decide (String.substring 0 (String.length start) str = start).
Definition str_endswith (str en : string) : bool :=
  if String.length str <? String.length en then false
  else bool_decide (String.substring (String.length str - String.length en) (String.length en) str = en).
(** [str_is_mac_address] *)
Definition isxdigit (c : ascii) : bool :=
  let n := nat_of_ascii c in
  ((48 <=? n) && (n <=? 57)) || ((65 <=? n) && (n <=? 70)) || ((97 <=? n) && (n <=? 102)).
Fixpoint mac_octets (n : nat) (s : string) : bool :=
  match n with
  | O => true
  | S n =>
      match s with
      | String a (String b s) =>
          isxdigit a && isxdigit b &&
          match n with
          | O => true
          | _ => match s with String c s => bool_decide (c = ":"%char) && mac_octets n s | EmptyString => false end
          end
      | _ => false
      end
  end.
Definition str_is_mac_address (mac : string) : bool := mac_octets 6 mac.
(** [str_tolower], [str_toupper] *)
Definition tolower (c : ascii) : ascii :=
  let n := nat_of_ascii c in if (65 <=? n) && (n <=? 90) then ascii_of_nat (n + 32) else c.
Definition toupper (c : ascii) : ascii :=
  let n := nat_of_ascii c in if (97 <=? n) && (n <=? 122) then ascii_of_nat (n - 32) else c.
Fixpoint str_map (f : ascii → ascii) (s : string) : string :=
  match s with EmptyString => "" | String c s => String (f c) (str_map f s) end.
Definition str_tolower : string → string := str_map tolower.
Definition str_toupper : string → string := str_map toupper.
(** [fsa_find_str]: the last entry equal to the string. *)
Fixpoint fsa_find_from (n : nat) (array : list string) (str : string) : Z :=
  match n with
  | O => -1
  | S n => if bool_decide (array !! n = Some str) then Z.of_nat n else fsa_find_from n array str
  end.
Definition fsa_find_str (array : list string) (str : string) : Z := fsa_find_from (length array) array str.
(** [fsa_copy]: at most [dlen] entries, each cut to [dsize - 1] characters. *)
Definition fsa_copy (array : list string) (num dsize dlen : nat) : list string * nat :=
  let l := take (Nat.min num dlen) array in ((λ s, STRSCPY s dsize) <$> l, length l).
(** [bin2hex]: [None] is -1. *)
Definition hex_char (n : Z) : ascii := nth (Z.to_nat n) (String.list_ascii_of_string "0123456789abcdef") zero.
Fixpoint hex_bytes (l : list Z) : string :=
  match l with
  | [] => ""
  | b :: l => String (hex_char (b / 16)) (String (hex_char (b `mod` 16)) (hex_bytes l))
  end.
Definition bin2hex (input : list Z) (out_size : Z) : option string :=
  if (out_size <? Z.of_nat (length input) * 2 + 1)%Z then None else Some (hex_bytes input).

(** ** Private addresses

    The IPv4 address is its value in host byte order, the IPv6 address its 16 bytes. *)
Definition is_private_10 (addr : Z) : bool := (Z.land addr 0xff000000 =? 0x0a000000)%Z.
Definition is_private_172 (addr : Z) : bool := (Z.land addr 0xfff00000 =? 0xac100000)%Z.
Definition is_private_192 (addr : Z) : bool := (Z.land addr 0xffff0000 =? 0xc0a80000)%Z.
Definition is_private_ipv4 (addr : Z) : bool := is_private_10 addr || is_private_172 addr || is_private_192 addr.
Definition is_ipv6_addr_ULA (a : list Z) : bool := bool_decide (a !! 0 = Some 0xfd%Z).
Definition is_ipv6_link_local (a : list Z) : bool :=
  match a with b0 :: b1 :: _ => (b0 =? 0xfe)%Z && (Z.land b1 0xc0 =? 0x80)%Z | _ => false end.
Definition is_ipv6_addr_sitelocal (a : list Z) : bool :=
  match a with b0 :: b1 :: _ => (b0 =? 0xfe)%Z && (Z.land b1 0xc0 =? 0xc0)%Z | _ => false end.
Definition is_private_ipv6 (a : list Z) : bool :=
  is_ipv6_addr_sitelocal a || is_ipv6_addr_ULA a || is_ipv6_link_local a.

(** ** Channels *)

#[local] Open Scope Z_scope.
Definition lists_5g : list Z :=
  [20; 36; 0; 20; 40; 0; 20; 44; 0; 20; 48; 0; 20; 52; 0; 20; 56; 0; 20; 60; 0; 20; 64; 0; 20; 100; 0;
   20; 104; 0; 20; 108; 0; 20; 112; 0; 20; 116; 0; 20; 120; 0; 20; 124; 0; 20; 128; 0; 20; 132; 0;
   20; 136; 0; 20; 140; 0; 20; 144; 0; 20; 149; 0; 20; 153; 0; 20; 157; 0; 20; 161; 0; 20; 165; 0;
   40; 36; 40; 0; 40; 44; 48; 0; 40; 52; 56; 0; 40; 60; 64; 0; 40; 100; 104; 0; 40; 108; 112; 0;
   40; 116; 120; 0; 40; 124; 128; 0; 40; 132; 136; 0; 40; 140; 144; 0; 40; 149; 153; 0; 40; 157; 161; 0;
   80; 36; 40; 44; 48; 0; 80; 52; 56; 60; 64; 0; 80; 100; 104; 108; 112; 0; 80; 116; 120; 124; 128; 0;
   80; 132; 136; 140; 144; 0; 80; 149; 153; 157; 161; 0; 160; 36; 40; 44; 48; 52; 56; 60; 64; 0;
   160; 100; 104; 108; 112; 116; 120; 124; 128; 0; -1].
Definition lists_6g : list Z :=
  [20; 1; 0; 20; 5; 0; 20; 9; 0; 20; 13; 0; 20; 17; 0; 20; 21; 0; 20; 25; 0; 20; 29; 0; 20; 33; 0; 20; 37; 0;
   20; 41; 0; 20; 45; 0; 20; 49; 0; 20; 53; 0; 20; 57; 0; 20; 61; 0; 20; 65; 0; 20; 69; 0; 20; 73; 0;
   20; 77; 0; 20; 81; 0; 20; 85; 0; 20; 89; 0; 20; 93; 0; 20; 97; 0; 20; 101; 0; 20; 105; 0; 20; 109; 0;
   20; 113; 0; 20; 117; 0; 20; 121; 0; 20; 125; 0; 20; 129; 0; 20; 133; 0; 20; 137; 0; 20; 141; 0;
   20; 145; 0; 20; 149; 0; 20; 153; 0; 20; 157; 0; 20; 161; 0; 20; 165; 0; 20; 169; 0; 20; 173; 0;
   20; 177; 0; 20; 181; 0; 20; 185; 0; 20; 189; 0; 20; 193; 0; 20; 197; 0; 20; 201; 0; 20; 205; 0;
   20; 209; 0; 20; 213; 0; 20; 217; 0; 20; 221; 0; 20; 225; 0; 20; 229; 0; 20; 233; 0; 40; 1; 5; 0;
   40; 9; 13; 0; 40; 17; 21; 0; 40; 25; 29; 0; 40; 33; 37; 0; 40; 41; 45; 0; 40; 49; 53; 0; 40; 57; 61; 0;
   40; 65; 69; 0; 40; 73; 77; 0; 40; 81; 85; 0; 40; 89; 93; 0; 40; 97; 101; 0; 40; 105; 109; 0;
   40; 113; 117; 0; 40; 121; 125; 0; 40; 129; 133; 0; 40; 137; 141; 0; 40; 145; 149; 0; 40; 153; 157; 0;
   40; 161; 165; 0; 40; 169; 173; 0; 40; 177; 181; 0; 40; 185; 189; 0; 40; 193; 197; 0; 40; 201; 205; 0;
   40; 209; 213; 0; 40; 217; 221; 0; 40; 225; 229; 0; 80; 1; 5; 9; 13; 0; 80; 17; 21; 25; 29; 0;
   80; 33; 37; 41; 45; 0; 80; 49; 53; 57; 61; 0; 80; 65; 69; 73; 77; 0; 80; 81; 85; 89; 93; 0;
   80; 97; 101; 105; 109; 0; 80; 113; 117; 121; 125; 0; 80; 129; 133; 137; 141; 0; 80; 145; 149; 153; 157; 0;
   80; 161; 165; 169; 173; 0; 80; 177; 181; 185; 189; 0; 80; 193; 197; 201; 205; 0;
   80; 209; 213; 217; 221; 0; 160; 1; 5; 9; 13; 17; 21; 25; 29; 0; 160; 33; 37; 41; 45; 49; 53; 57; 61; 0;
   160; 65; 69; 73; 77; 81; 85; 89; 93; 0; 160; 97; 101; 105; 109; 113; 117; 121; 125; 0;
   160; 129; 133; 137; 141; 145; 149; 153; 157; 0; 160; 161; 165; 169; 173; 177; 181; 185; 189; 0;
   160; 193; 197; 201; 205; 209; 213; 217; 221; 0; -1].
#[local] Close Scope Z_scope.
(** The inner loop from [p]: found, or the rest at the terminating 0. *)
Fixpoint scan_list (chan : Z) (p : list Z) : bool * list Z :=
  match p with
  | [] => (false, [])
  | x :: p' => if (x =? 0)%Z then (false, p) else if (x =? chan)%Z then (true, p) else scan_list chan p'
  end.
(** The outer loop: every element that equals the width begins a list, also a channel
    number does.  The result is the position of the first channel, as the rest of the
    table from there. *)
Fixpoint chan2list (fuel : nat) (chan width : Z) (p : list Z) : option (list Z) :=
  match fuel, p with
  | S fuel, x :: p' =>
      if (x =? -1)%Z then None
      else if (x =? width)%Z then
        let '(found, q) := scan_list chan p' in
        if found : bool then Some p' else chan2list fuel chan width (tail q)
      else chan2list fuel chan width p'
  | _, _ => None
  end.
Definition unii_5g_chan2list (chan width : Z) : option (list Z) := chan2list (length lists_5g) chan width lists_5g.
Definition unii_6g_chan2list (chan width : Z) : option (list Z) := chan2list (length lists_6g) chan width lists_6g.

(** ** Properties *)

Fixpoint concat_all (l : list string) : string :=
  match l with [] => "" | t :: l => t +:+ concat_all l end.
(** When [str_join] reports success and no piece is a single character, the buffer holds
    the joined text. *)
Theorem str_join_sound size l delim w : (0 < size)%Z →
  Forall (λ t, String.length t ≠ 1) (pieces l delim) →
  str_join size l delim = (w, true) → w = concat_all (pieces l delim) ∧ (Z.of_nat (String.length w) < size)%Z.
Proof.
  unfold str_join. generalize (pieces l delim) as ps. intros ps Hs Hp. revert size w Hs.
  induction Hp as [|t ps Ht Hp IH]; intros size w Hs; cbn [str_join_loop concat_all].
  { intros [= <-]. split; [done|]. cbn. lia. }
  unfold csnprintf. destruct (Z.leb_spec size (Z.of_nat (String.length t))) as [Hle|Hlt].
  - destruct (_ || _) eqn:E; [done|]. exfalso. apply orb_false_iff in E as [_ E]. apply Z.ltb_ge in E. lia.
  - destruct (_ || _); [done|]. destruct (str_join_loop _ ps) as [w' ok] eqn:Eo. intros [= <- ->].
    apply IH in Eo as [-> Hl]; [|lia]. rewrite Nat2Z.id, substring_full by done. split; [done|].
    rewrite string_length_app. lia.
Qed.
(** A single character that no longer fits is dropped without a report. *)
Theorem str_join_drops : str_join 3 ["a"; "b"; "c"] "" = ("ab", true).
Proof. reflexivity. Qed.
(** It reports a failure for a text that fits when the room left afterwards is smaller
    than the last piece. *)
Theorem str_join_rejects_fitting : str_join 10 ["abcdef"] "," = ("abcdef", false).
Proof. reflexivity. Qed.
(** [strdel] turns the order of the remaining words around. *)
Theorem strdel_reverses : strdel "a b c d" "b" (λ s t, if bool_decide (s = t) then 0%Z else 1%Z) = "d c a".
Proof. reflexivity. Qed.

(** The rows of a table: the width and its channels. *)
Fixpoint table_rows (cur : list Z) (t : list Z) : list (list Z) :=
  match t with
  | [] => []
  | x :: t => if (x =? 0)%Z then reverse cur :: table_rows [] t else table_rows (x :: cur) t
  end.
(** The channels of the row of this width that has the channel. *)
Definition row_of (table : list Z) (chan width : Z) : option (list Z) :=
  tail ∘ snd <$> list_find (λ r, head r = Some width ∧ chan ∈ tail r) (table_rows [] table).
Definition until_zero (l : list Z) : list Z := default [] (head (table_rows [] l)).
(** The scan finds the channels of the row, although it takes channel numbers that equal
    the width for the beginning of a list. *)
Definition scan_agrees (table : list Z) (chan width : Z) : bool :=
  bool_decide (until_zero <$> chan2list (length table) chan width table = row_of table chan width).
Lemma scan_agrees_all : forallb (λ chan, forallb (λ width, scan_agrees lists_5g chan width && scan_agrees lists_6g chan width)
  [20; 40; 80; 160]%Z) (seqZ 1 255) = true.
Proof. vm_cast_no_check (eq_refl true). Qed.
Lemma scan_agrees_row (table : list Z) (chan width : Z) :
  scan_agrees table chan width = true → until_zero <$> chan2list (length table) chan width table = row_of table chan width.
Proof. apply bool_decide_eq_true. Qed.
Theorem chan2list_correct : Forall (λ chan, Forall (λ width,
    (until_zero <$> unii_5g_chan2list chan width = row_of lists_5g chan width) ∧
    (until_zero <$> unii_6g_chan2list chan width = row_of lists_6g chan width)) [20; 40; 80; 160]%Z) (seqZ 1 255).
Proof.
  apply Forall_forall. intros chan Hc%list_elem_of_In. apply Forall_forall. intros width Hw%list_elem_of_In.
  pose proof (proj1 (forallb_forall _ _) scan_agrees_all chan Hc) as H. cbv beta in H.
  pose proof (proj1 (forallb_forall _ _) H width Hw) as [H1 H2]%andb_prop.
  split; apply scan_agrees_row; assumption.
Qed.
