(* ===== verification/Cm2Types.v ===== *)
(** Connection manager: the data of the state machine (src/cm2/src/cm2.h). *)
From S2P Require Import Prelude.

(** *** Enumerations *)
Inductive cm2_state_e :=
  | CM2_STATE_INIT | CM2_STATE_LINK_SEL | CM2_STATE_WAN_IP | CM2_STATE_NTP_CHECK | CM2_STATE_OVS_INIT
  | CM2_STATE_TRY_RESOLVE | CM2_STATE_RE_CONNECT | CM2_STATE_TRY_CONNECT | CM2_STATE_FAST_RECONNECT
  | CM2_STATE_CONNECTED | CM2_STATE_INTERNET | CM2_STATE_QUIESCE_OVS.
Inductive cm2_reason_e :=
  | CM2_REASON_TIMER | CM2_REASON_AWLAN | CM2_REASON_MANAGER | CM2_REASON_CHANGE | CM2_REASON_LINK_USED
  | CM2_REASON_LINK_NOT_USED | CM2_REASON_SET_NEW_VTAG | CM2_REASON_BLOCK_VTAG | CM2_REASON_OVS_INIT.
Inductive cm2_dest_e := CM2_DEST_REDIR | CM2_DEST_MANAGER.
Inductive cm2_vtag_state_t := CM2_VTAG_NOT_USED | CM2_VTAG_PENDING | CM2_VTAG_USED | CM2_VTAG_BLOCKED.
Inductive cm2_ip_assign_scheme := CM2_IP_NOT_SET | CM2_IP_NONE | CM2_IP_STATIC | CM2_IPV4_DHCP | CM2_IPV6_DHCP.
Inductive cm2_dev_type := CM2_DEVICE_NONE | CM2_DEVICE_ROUTER | CM2_DEVICE_BRIDGE | CM2_DEVICE_LEAF.
#[export] Instance cm2_state_e_eq_dec : EqDecision cm2_state_e.
Proof. solve_decision. Defined.
#[export] Instance cm2_dest_e_eq_dec : EqDecision cm2_dest_e.
Proof. solve_decision. Defined.
#[export] Instance cm2_vtag_state_t_eq_dec : EqDecision cm2_vtag_state_t.
Proof. solve_decision. Defined.
#[export] Instance cm2_dev_type_eq_dec : EqDecision cm2_dev_type.
Proof. solve_decision. Defined.

(** *** Records *)

(** [cm2_ip] *)
Record cm2_ip := Ip {
  assign_scheme : cm2_ip_assign_scheme;
  is_ip : bool;
  resolve_retry : bool;
  blocked : bool }.
(** [cm2_vtag_t] *)
Record cm2_vtag_t := Vtag {
  vt_state : cm2_vtag_state_t;
  vt_failure : Z;
  vt_tag : Z;
  blocked_tag : Z }.
(** [cm2_main_link_t] (without the tunnel flag and the gateway address, which only
    cm2_net.c and the scripts use). *)
Record cm2_main_link_t := Link {
  if_name : string;
  if_type : string;
  is_bridge : bool;
  bridge_name : string;
  is_used : bool;
  restart_pending : bool;
  priority : Z;
  ipv4 : cm2_ip;
  ipv6 : cm2_ip;
  vtag : cm2_vtag_t }.
(** [cm2_retries_cnt] *)
Record cm2_retries_cnt := Cnts {
  ovs_resolve : Z;
  ovs_resolve_fail : Z;
  ovs_con : Z;
  gw_offline : Z;
  skip_restart : Z }.
(** The failure counters of cm2_stability.c (static variables there). *)
Record cm2_fails := Fails {
  ipv4_i_fail : Z;
  ipv6_i_fail : Z;
  ipv4_r_fail : Z;
  ipv6_r_fail : Z }.
(** An entry of [getaddrinfo]: the printed address of a usable family. *)
Inductive addrinfo := AF_INET (text : string) | AF_INET6 (text : string) | AF_OTHER.
(** [cm2_addr_t] of the synchronous resolver; [ai_curr] is a position in [ai_list]. *)
Record cm2_addr_t := Addr {
  updated : bool;
  valid : bool;
  resolved : bool;
  resource : string;
  proto : string;
  hostname : string;
  port : Z;
  ai_list : list addrinfo;
  ai_curr : option nat }.

(** What the program tells its environment: the database, the platform, the
    checker process. *)
Inductive cm2_out :=
  | OBleConfig (status : Z) | OBleConnectable (b : bool) | OBlePhyLink
  | OManagerTarget (target : string) | OManagerAddr (addr : string) | OBootTime
  | ORefreshDhcp (name : string) | ORestartIface (name : string)
  | OPortTrunks (name : string) (tag : Z) | OPortTag (name : string) (tag : Z) (set : bool)
  | OBridgeState (name bridge : string) | OBridgeCfg (bridge name : string) | ODefaultWanBridge (name type : string)
  | OCleanCounters (name : string) | OCloudCounter (name : string) (n : Z)
  | OLinkCounter (name : string) (n : Z) | ORouterCounter (name : string) (n : Z)
  | OInternetCounter (name : string) (n : Z) | ONtpState (name : string) (b : bool)
  | ONetworkState (b : bool) (name : string) | OTcpdump (start : bool) (name : string)
  | OKickEthernet (n : Z) | OFork (opts : Z) | OStabilityInterval (short : bool)
  | ORemoveGre | ODumpDebug | OWdtPing | ORestartManagers | OResolveTimeout
  | OGwOfflineEnable | OGwOfflineDisable | OTimerStart | ODeviceConfig.

(** [cm2_state_t], with the timeout of the state QUIESCE_OVS, which the program keeps in
    the table [cm2_state_info], the number of questions put to the environment and the
    commands issued so far. *)
Record cm2_state_t := G {
  state : cm2_state_e;
  reason : cm2_reason_e;
  dest : cm2_dest_e;
  state_changed : bool;
  connected : bool;
  is_con_stable : bool;
  timestamp : Z;
  disconnects : Z;
  addr_redirector : cm2_addr_t;
  addr_manager : cm2_addr_t;
  run_stability : bool;
  stability_opts_now : Z;
  stability_opts_next : Z;
  stability_update_now : bool;
  stability_update_next : bool;
  stability_repeat : bool;
  link : cm2_main_link_t;
  old_link : cm2_main_link_t;
  ble_status : Z;
  ntp_check : bool;
  have_manager : bool;
  have_awlan : bool;
  min_backoff : Z;
  max_backoff : Z;
  fast_backoff : bool;
  target_type : Z;
  fast_reconnect : bool;
  cnts : cm2_retries_cnt;
  dev_type : cm2_dev_type;
  fails : cm2_fails;
  quiesce_timeout : Z;
  tick : nat;
  outs : list cm2_out }.

(** Field updates *)
Definition set_assign_scheme (v : cm2_ip_assign_scheme) (r : cm2_ip) : cm2_ip :=
  Ip v (is_ip r) (resolve_retry r) (blocked r).
Definition set_is_ip (v : bool) (r : cm2_ip) : cm2_ip :=
  Ip (assign_scheme r) v (resolve_retry r) (blocked r).
Definition set_resolve_retry (v : bool) (r : cm2_ip) : cm2_ip :=
  Ip (assign_scheme r) (is_ip r) v (blocked r).
Definition set_blocked (v : bool) (r : cm2_ip) : cm2_ip :=
  Ip (assign_scheme r) (is_ip r) (resolve_retry r) v.
Definition set_vt_state (v : cm2_vtag_state_t) (r : cm2_vtag_t) : cm2_vtag_t :=
  Vtag v (vt_failure r) (vt_tag r) (blocked_tag r).
Definition set_vt_failure (v : Z) (r : cm2_vtag_t) : cm2_vtag_t :=
  Vtag (vt_state r) v (vt_tag r) (blocked_tag r).
Definition set_blocked_tag (v : Z) (r : cm2_vtag_t) : cm2_vtag_t :=
  Vtag (vt_state r) (vt_failure r) (vt_tag r) v.
Definition set_if_name (v : string) (r : cm2_main_link_t) : cm2_main_link_t :=
  Link v (if_type r) (is_bridge r) (bridge_name r) (is_used r) (restart_pending r) (priority r)
    (ipv4 r) (ipv6 r) (vtag r).
Definition set_if_type (v : string) (r : cm2_main_link_t) : cm2_main_link_t :=
  Link (if_name r) v (is_bridge r) (bridge_name r) (is_used r) (restart_pending r) (priority r)
    (ipv4 r) (ipv6 r) (vtag r).
Definition set_is_used (v : bool) (r : cm2_main_link_t) : cm2_main_link_t :=
  Link (if_name r) (if_type r) (is_bridge r) (bridge_name r) v (restart_pending r) (priority r)
    (ipv4 r) (ipv6 r) (vtag r).
Definition set_restart_pending (v : bool) (r : cm2_main_link_t) : cm2_main_link_t :=
  Link (if_name r) (if_type r) (is_bridge r) (bridge_name r) (is_used r) v (priority r) (ipv4 r)
    (ipv6 r) (vtag r).
Definition set_priority (v : Z) (r : cm2_main_link_t) : cm2_main_link_t :=
  Link (if_name r) (if_type r) (is_bridge r) (bridge_name r) (is_used r) (restart_pending r) v
    (ipv4 r) (ipv6 r) (vtag r).
Definition set_ipv4 (v : cm2_ip) (r : cm2_main_link_t) : cm2_main_link_t :=
  Link (if_name r) (if_type r) (is_bridge r) (bridge_name r) (is_used r) (restart_pending r)
    (priority r) v (ipv6 r) (vtag r).
Definition set_ipv6 (v : cm2_ip) (r : cm2_main_link_t) : cm2_main_link_t :=
  Link (if_name r) (if_type r) (is_bridge r) (bridge_name r) (is_used r) (restart_pending r)
    (priority r) (ipv4 r) v (vtag r).
Definition set_vtag (v : cm2_vtag_t) (r : cm2_main_link_t) : cm2_main_link_t :=
  Link (if_name r) (if_type r) (is_bridge r) (bridge_name r) (is_used r) (restart_pending r)
    (priority r) (ipv4 r) (ipv6 r) v.
Definition set_ovs_resolve (v : Z) (r : cm2_retries_cnt) : cm2_retries_cnt :=
  Cnts v (ovs_resolve_fail r) (ovs_con r) (gw_offline r) (skip_restart r).
Definition set_ovs_resolve_fail (v : Z) (r : cm2_retries_cnt) : cm2_retries_cnt :=
  Cnts (ovs_resolve r) v (ovs_con r) (gw_offline r) (skip_restart r).
Definition set_ovs_con (v : Z) (r : cm2_retries_cnt) : cm2_retries_cnt :=
  Cnts (ovs_resolve r) (ovs_resolve_fail r) v (gw_offline r) (skip_restart r).
Definition set_gw_offline (v : Z) (r : cm2_retries_cnt) : cm2_retries_cnt :=
  Cnts (ovs_resolve r) (ovs_resolve_fail r) (ovs_con r) v (skip_restart r).
Definition set_skip_restart (v : Z) (r : cm2_retries_cnt) : cm2_retries_cnt :=
  Cnts (ovs_resolve r) (ovs_resolve_fail r) (ovs_con r) (gw_offline r) v.
Definition set_updated (v : bool) (r : cm2_addr_t) : cm2_addr_t :=
  Addr v (valid r) (resolved r) (resource r) (proto r) (hostname r) (port r) (ai_list r) (ai_curr r).
Definition set_valid (v : bool) (r : cm2_addr_t) : cm2_addr_t :=
  Addr (updated r) v (resolved r) (resource r) (proto r) (hostname r) (port r) (ai_list r)
    (ai_curr r).
Definition set_resolved (v : bool) (r : cm2_addr_t) : cm2_addr_t :=
  Addr (updated r) (valid r) v (resource r) (proto r) (hostname r) (port r) (ai_list r) (ai_curr r).
Definition set_resource (v : string) (r : cm2_addr_t) : cm2_addr_t :=
  Addr (updated r) (valid r) (resolved r) v (proto r) (hostname r) (port r) (ai_list r) (ai_curr r).
Definition set_proto (v : string) (r : cm2_addr_t) : cm2_addr_t :=
  Addr (updated r) (valid r) (resolved r) (resource r) v (hostname r) (port r) (ai_list r)
    (ai_curr r).
Definition set_hostname (v : string) (r : cm2_addr_t) : cm2_addr_t :=
  Addr (updated r) (valid r) (resolved r) (resource r) (proto r) v (port r) (ai_list r) (ai_curr r).
Definition set_port (v : Z) (r : cm2_addr_t) : cm2_addr_t :=
  Addr (updated r) (valid r) (resolved r) (resource r) (proto r) (hostname r) v (ai_list r)
    (ai_curr r).
Definition set_ai_list (v : list addrinfo) (r : cm2_addr_t) : cm2_addr_t :=
  Addr (updated r) (valid r) (resolved r) (resource r) (proto r) (hostname r) (port r) v (ai_curr r).
Definition set_ai_curr (v : option nat) (r : cm2_addr_t) : cm2_addr_t :=
  Addr (updated r) (valid r) (resolved r) (resource r) (proto r) (hostname r) (port r) (ai_list r) v.
Definition set_state (v : cm2_state_e) (r : cm2_state_t) : cm2_state_t :=
  G v (reason r) (dest r) (state_changed r) (connected r) (is_con_stable r) (timestamp r)
    (disconnects r) (addr_redirector r) (addr_manager r) (run_stability r) (stability_opts_now r)
    (stability_opts_next r) (stability_update_now r) (stability_update_next r) (stability_repeat r)
    (link r) (old_link r) (ble_status r) (ntp_check r) (have_manager r) (have_awlan r)
    (min_backoff r) (max_backoff r) (fast_backoff r) (target_type r) (fast_reconnect r) (cnts r)
    (dev_type r) (fails r) (quiesce_timeout r) (tick r) (outs r).
Definition set_reason (v : cm2_reason_e) (r : cm2_state_t) : cm2_state_t :=
  G (state r) v (dest r) (state_changed r) (connected r) (is_con_stable r) (timestamp r)
    (disconnects r) (addr_redirector r) (addr_manager r) (run_stability r) (stability_opts_now r)
    (stability_opts_next r) (stability_update_now r) (stability_update_next r) (stability_repeat r)
    (link r) (old_link r) (ble_status r) (ntp_check r) (have_manager r) (have_awlan r)
    (min_backoff r) (max_backoff r) (fast_backoff r) (target_type r) (fast_reconnect r) (cnts r)
    (dev_type r) (fails r) (quiesce_timeout r) (tick r) (outs r).
Definition set_dest (v : cm2_dest_e) (r : cm2_state_t) : cm2_state_t :=
  G (state r) (reason r) v (state_changed r) (connected r) (is_con_stable r) (timestamp r)
    (disconnects r) (addr_redirector r) (addr_manager r) (run_stability r) (stability_opts_now r)
    (stability_opts_next r) (stability_update_now r) (stability_update_next r) (stability_repeat r)
    (link r) (old_link r) (ble_status r) (ntp_check r) (have_manager r) (have_awlan r)
    (min_backoff r) (max_backoff r) (fast_backoff r) (target_type r) (fast_reconnect r) (cnts r)
    (dev_type r) (fails r) (quiesce_timeout r) (tick r) (outs r).
Definition set_state_changed (v : bool) (r : cm2_state_t) : cm2_state_t :=
  G (state r) (reason r) (dest r) v (connected r) (is_con_stable r) (timestamp r) (disconnects r)
    (addr_redirector r) (addr_manager r) (run_stability r) (stability_opts_now r)
    (stability_opts_next r) (stability_update_now r) (stability_update_next r) (stability_repeat r)
    (link r) (old_link r) (ble_status r) (ntp_check r) (have_manager r) (have_awlan r)
    (min_backoff r) (max_backoff r) (fast_backoff r) (target_type r) (fast_reconnect r) (cnts r)
    (dev_type r) (fails r) (quiesce_timeout r) (tick r) (outs r).
Definition set_connected (v : bool) (r : cm2_state_t) : cm2_state_t :=
  G (state r) (reason r) (dest r) (state_changed r) v (is_con_stable r) (timestamp r)
    (disconnects r) (addr_redirector r) (addr_manager r) (run_stability r) (stability_opts_now r)
    (stability_opts_next r) (stability_update_now r) (stability_update_next r) (stability_repeat r)
    (link r) (old_link r) (ble_status r) (ntp_check r) (have_manager r) (have_awlan r)
    (min_backoff r) (max_backoff r) (fast_backoff r) (target_type r) (fast_reconnect r) (cnts r)
    (dev_type r) (fails r) (quiesce_timeout r) (tick r) (outs r).
Definition set_is_con_stable (v : bool) (r : cm2_state_t) : cm2_state_t :=
  G (state r) (reason r) (dest r) (state_changed r) (connected r) v (timestamp r) (disconnects r)
    (addr_redirector r) (addr_manager r) (run_stability r) (stability_opts_now r)
    (stability_opts_next r) (stability_update_now r) (stability_update_next r) (stability_repeat r)
    (link r) (old_link r) (ble_status r) (ntp_check r) (have_manager r) (have_awlan r)
    (min_backoff r) (max_backoff r) (fast_backoff r) (target_type r) (fast_reconnect r) (cnts r)
    (dev_type r) (fails r) (quiesce_timeout r) (tick r) (outs r).
Definition set_timestamp (v : Z) (r : cm2_state_t) : cm2_state_t :=
  G (state r) (reason r) (dest r) (state_changed r) (connected r) (is_con_stable r) v
    (disconnects r) (addr_redirector r) (addr_manager r) (run_stability r) (stability_opts_now r)
    (stability_opts_next r) (stability_update_now r) (stability_update_next r) (stability_repeat r)
    (link r) (old_link r) (ble_status r) (ntp_check r) (have_manager r) (have_awlan r)
    (min_backoff r) (max_backoff r) (fast_backoff r) (target_type r) (fast_reconnect r) (cnts r)
    (dev_type r) (fails r) (quiesce_timeout r) (tick r) (outs r).
Definition set_disconnects (v : Z) (r : cm2_state_t) : cm2_state_t :=
  G (state r) (reason r) (dest r) (state_changed r) (connected r) (is_con_stable r) (timestamp r) v
    (addr_redirector r) (addr_manager r) (run_stability r) (stability_opts_now r)
    (stability_opts_next r) (stability_update_now r) (stability_update_next r) (stability_repeat r)
    (link r) (old_link r) (ble_status r) (ntp_check r) (have_manager r) (have_awlan r)
    (min_backoff r) (max_backoff r) (fast_backoff r) (target_type r) (fast_reconnect r) (cnts r)
    (dev_type r) (fails r) (quiesce_timeout r) (tick r) (outs r).
Definition set_addr_redirector (v : cm2_addr_t) (r : cm2_state_t) : cm2_state_t :=
  G (state r) (reason r) (dest r) (state_changed r) (connected r) (is_con_stable r) (timestamp r)
    (disconnects r) v (addr_manager r) (run_stability r) (stability_opts_now r)
    (stability_opts_next r) (stability_update_now r) (stability_update_next r) (stability_repeat r)
    (link r) (old_link r) (ble_status r) (ntp_check r) (have_manager r) (have_awlan r)
    (min_backoff r) (max_backoff r) (fast_backoff r) (target_type r) (fast_reconnect r) (cnts r)
    (dev_type r) (fails r) (quiesce_timeout r) (tick r) (outs r).
Definition set_addr_manager (v : cm2_addr_t) (r : cm2_state_t) : cm2_state_t :=
  G (state r) (reason r) (dest r) (state_changed r) (connected r) (is_con_stable r) (timestamp r)
    (disconnects r) (addr_redirector r) v (run_stability r) (stability_opts_now r)
    (stability_opts_next r) (stability_update_now r) (stability_update_next r) (stability_repeat r)
    (link r) (old_link r) (ble_status r) (ntp_check r) (have_manager r) (have_awlan r)
    (min_backoff r) (max_backoff r) (fast_backoff r) (target_type r) (fast_reconnect r) (cnts r)
    (dev_type r) (fails r) (quiesce_timeout r) (tick r) (outs r).
Definition set_run_stability (v : bool) (r : cm2_state_t) : cm2_state_t :=
  G (state r) (reason r) (dest r) (state_changed r) (connected r) (is_con_stable r) (timestamp r)
    (disconnects r) (addr_redirector r) (addr_manager r) v (stability_opts_now r)
    (stability_opts_next r) (stability_update_now r) (stability_update_next r) (stability_repeat r)
    (link r) (old_link r) (ble_status r) (ntp_check r) (have_manager r) (have_awlan r)
    (min_backoff r) (max_backoff r) (fast_backoff r) (target_type r) (fast_reconnect r) (cnts r)
    (dev_type r) (fails r) (quiesce_timeout r) (tick r) (outs r).
Definition set_stability_opts_now (v : Z) (r : cm2_state_t) : cm2_state_t :=
  G (state r) (reason r) (dest r) (state_changed r) (connected r) (is_con_stable r) (timestamp r)
    (disconnects r) (addr_redirector r) (addr_manager r) (run_stability r) v (stability_opts_next r)
    (stability_update_now r) (stability_update_next r) (stability_repeat r) (link r) (old_link r)
    (ble_status r) (ntp_check r) (have_manager r) (have_awlan r) (min_backoff r) (max_backoff r)
    (fast_backoff r) (target_type r) (fast_reconnect r) (cnts r) (dev_type r) (fails r)
    (quiesce_timeout r) (tick r) (outs r).
Definition set_stability_opts_next (v : Z) (r : cm2_state_t) : cm2_state_t :=
  G (state r) (reason r) (dest r) (state_changed r) (connected r) (is_con_stable r) (timestamp r)
    (disconnects r) (addr_redirector r) (addr_manager r) (run_stability r) (stability_opts_now r) v
    (stability_update_now r) (stability_update_next r) (stability_repeat r) (link r) (old_link r)
    (ble_status r) (ntp_check r) (have_manager r) (have_awlan r) (min_backoff r) (max_backoff r)
    (fast_backoff r) (target_type r) (fast_reconnect r) (cnts r) (dev_type r) (fails r)
    (quiesce_timeout r) (tick r) (outs r).
Definition set_stability_update_now (v : bool) (r : cm2_state_t) : cm2_state_t :=
  G (state r) (reason r) (dest r) (state_changed r) (connected r) (is_con_stable r) (timestamp r)
    (disconnects r) (addr_redirector r) (addr_manager r) (run_stability r) (stability_opts_now r)
    (stability_opts_next r) v (stability_update_next r) (stability_repeat r) (link r) (old_link r)
    (ble_status r) (ntp_check r) (have_manager r) (have_awlan r) (min_backoff r) (max_backoff r)
    (fast_backoff r) (target_type r) (fast_reconnect r) (cnts r) (dev_type r) (fails r)
    (quiesce_timeout r) (tick r) (outs r).
Definition set_stability_update_next (v : bool) (r : cm2_state_t) : cm2_state_t :=
  G (state r) (reason r) (dest r) (state_changed r) (connected r) (is_con_stable r) (timestamp r)
    (disconnects r) (addr_redirector r) (addr_manager r) (run_stability r) (stability_opts_now r)
    (stability_opts_next r) (stability_update_now r) v (stability_repeat r) (link r) (old_link r)
    (ble_status r) (ntp_check r) (have_manager r) (have_awlan r) (min_backoff r) (max_backoff r)
    (fast_backoff r) (target_type r) (fast_reconnect r) (cnts r) (dev_type r) (fails r)
    (quiesce_timeout r) (tick r) (outs r).
Definition set_stability_repeat (v : bool) (r : cm2_state_t) : cm2_state_t :=
  G (state r) (reason r) (dest r) (state_changed r) (connected r) (is_con_stable r) (timestamp r)
    (disconnects r) (addr_redirector r) (addr_manager r) (run_stability r) (stability_opts_now r)
    (stability_opts_next r) (stability_update_now r) (stability_update_next r) v (link r)
    (old_link r) (ble_status r) (ntp_check r) (have_manager r) (have_awlan r) (min_backoff r)
    (max_backoff r) (fast_backoff r) (target_type r) (fast_reconnect r) (cnts r) (dev_type r)
    (fails r) (quiesce_timeout r) (tick r) (outs r).
Definition set_link (v : cm2_main_link_t) (r : cm2_state_t) : cm2_state_t :=
  G (state r) (reason r) (dest r) (state_changed r) (connected r) (is_con_stable r) (timestamp r)
    (disconnects r) (addr_redirector r) (addr_manager r) (run_stability r) (stability_opts_now r)
    (stability_opts_next r) (stability_update_now r) (stability_update_next r) (stability_repeat r)
    v (old_link r) (ble_status r) (ntp_check r) (have_manager r) (have_awlan r) (min_backoff r)
    (max_backoff r) (fast_backoff r) (target_type r) (fast_reconnect r) (cnts r) (dev_type r)
    (fails r) (quiesce_timeout r) (tick r) (outs r).
Definition set_ble_status (v : Z) (r : cm2_state_t) : cm2_state_t :=
  G (state r) (reason r) (dest r) (state_changed r) (connected r) (is_con_stable r) (timestamp r)
    (disconnects r) (addr_redirector r) (addr_manager r) (run_stability r) (stability_opts_now r)
    (stability_opts_next r) (stability_update_now r) (stability_update_next r) (stability_repeat r)
    (link r) (old_link r) v (ntp_check r) (have_manager r) (have_awlan r) (min_backoff r)
    (max_backoff r) (fast_backoff r) (target_type r) (fast_reconnect r) (cnts r) (dev_type r)
    (fails r) (quiesce_timeout r) (tick r) (outs r).
Definition set_ntp_check (v : bool) (r : cm2_state_t) : cm2_state_t :=
  G (state r) (reason r) (dest r) (state_changed r) (connected r) (is_con_stable r) (timestamp r)
    (disconnects r) (addr_redirector r) (addr_manager r) (run_stability r) (stability_opts_now r)
    (stability_opts_next r) (stability_update_now r) (stability_update_next r) (stability_repeat r)
    (link r) (old_link r) (ble_status r) v (have_manager r) (have_awlan r) (min_backoff r)
    (max_backoff r) (fast_backoff r) (target_type r) (fast_reconnect r) (cnts r) (dev_type r)
    (fails r) (quiesce_timeout r) (tick r) (outs r).
Definition set_have_manager (v : bool) (r : cm2_state_t) : cm2_state_t :=
  G (state r) (reason r) (dest r) (state_changed r) (connected r) (is_con_stable r) (timestamp r)
    (disconnects r) (addr_redirector r) (addr_manager r) (run_stability r) (stability_opts_now r)
    (stability_opts_next r) (stability_update_now r) (stability_update_next r) (stability_repeat r)
    (link r) (old_link r) (ble_status r) (ntp_check r) v (have_awlan r) (min_backoff r)
    (max_backoff r) (fast_backoff r) (target_type r) (fast_reconnect r) (cnts r) (dev_type r)
    (fails r) (quiesce_timeout r) (tick r) (outs r).
Definition set_have_awlan (v : bool) (r : cm2_state_t) : cm2_state_t :=
  G (state r) (reason r) (dest r) (state_changed r) (connected r) (is_con_stable r) (timestamp r)
    (disconnects r) (addr_redirector r) (addr_manager r) (run_stability r) (stability_opts_now r)
    (stability_opts_next r) (stability_update_now r) (stability_update_next r) (stability_repeat r)
    (link r) (old_link r) (ble_status r) (ntp_check r) (have_manager r) v (min_backoff r)
    (max_backoff r) (fast_backoff r) (target_type r) (fast_reconnect r) (cnts r) (dev_type r)
    (fails r) (quiesce_timeout r) (tick r) (outs r).
Definition set_min_backoff (v : Z) (r : cm2_state_t) : cm2_state_t :=
  G (state r) (reason r) (dest r) (state_changed r) (connected r) (is_con_stable r) (timestamp r)
    (disconnects r) (addr_redirector r) (addr_manager r) (run_stability r) (stability_opts_now r)
    (stability_opts_next r) (stability_update_now r) (stability_update_next r) (stability_repeat r)
    (link r) (old_link r) (ble_status r) (ntp_check r) (have_manager r) (have_awlan r) v
    (max_backoff r) (fast_backoff r) (target_type r) (fast_reconnect r) (cnts r) (dev_type r)
    (fails r) (quiesce_timeout r) (tick r) (outs r).
Definition set_max_backoff (v : Z) (r : cm2_state_t) : cm2_state_t :=
  G (state r) (reason r) (dest r) (state_changed r) (connected r) (is_con_stable r) (timestamp r)
    (disconnects r) (addr_redirector r) (addr_manager r) (run_stability r) (stability_opts_now r)
    (stability_opts_next r) (stability_update_now r) (stability_update_next r) (stability_repeat r)
    (link r) (old_link r) (ble_status r) (ntp_check r) (have_manager r) (have_awlan r)
    (min_backoff r) v (fast_backoff r) (target_type r) (fast_reconnect r) (cnts r) (dev_type r)
    (fails r) (quiesce_timeout r) (tick r) (outs r).
Definition set_fast_backoff (v : bool) (r : cm2_state_t) : cm2_state_t :=
  G (state r) (reason r) (dest r) (state_changed r) (connected r) (is_con_stable r) (timestamp r)
    (disconnects r) (addr_redirector r) (addr_manager r) (run_stability r) (stability_opts_now r)
    (stability_opts_next r) (stability_update_now r) (stability_update_next r) (stability_repeat r)
    (link r) (old_link r) (ble_status r) (ntp_check r) (have_manager r) (have_awlan r)
    (min_backoff r) (max_backoff r) v (target_type r) (fast_reconnect r) (cnts r) (dev_type r)
    (fails r) (quiesce_timeout r) (tick r) (outs r).
Definition set_fast_reconnect (v : bool) (r : cm2_state_t) : cm2_state_t :=
  G (state r) (reason r) (dest r) (state_changed r) (connected r) (is_con_stable r) (timestamp r)
    (disconnects r) (addr_redirector r) (addr_manager r) (run_stability r) (stability_opts_now r)
    (stability_opts_next r) (stability_update_now r) (stability_update_next r) (stability_repeat r)
    (link r) (old_link r) (ble_status r) (ntp_check r) (have_manager r) (have_awlan r)
    (min_backoff r) (max_backoff r) (fast_backoff r) (target_type r) v (cnts r) (dev_type r)
    (fails r) (quiesce_timeout r) (tick r) (outs r).
Definition set_cnts (v : cm2_retries_cnt) (r : cm2_state_t) : cm2_state_t :=
  G (state r) (reason r) (dest r) (state_changed r) (connected r) (is_con_stable r) (timestamp r)
    (disconnects r) (addr_redirector r) (addr_manager r) (run_stability r) (stability_opts_now r)
    (stability_opts_next r) (stability_update_now r) (stability_update_next r) (stability_repeat r)
    (link r) (old_link r) (ble_status r) (ntp_check r) (have_manager r) (have_awlan r)
    (min_backoff r) (max_backoff r) (fast_backoff r) (target_type r) (fast_reconnect r) v
    (dev_type r) (fails r) (quiesce_timeout r) (tick r) (outs r).
Definition set_dev_type (v : cm2_dev_type) (r : cm2_state_t) : cm2_state_t :=
  G (state r) (reason r) (dest r) (state_changed r) (connected r) (is_con_stable r) (timestamp r)
    (disconnects r) (addr_redirector r) (addr_manager r) (run_stability r) (stability_opts_now r)
    (stability_opts_next r) (stability_update_now r) (stability_update_next r) (stability_repeat r)
    (link r) (old_link r) (ble_status r) (ntp_check r) (have_manager r) (have_awlan r)
    (min_backoff r) (max_backoff r) (fast_backoff r) (target_type r) (fast_reconnect r) (cnts r) v
    (fails r) (quiesce_timeout r) (tick r) (outs r).
Definition set_fails (v : cm2_fails) (r : cm2_state_t) : cm2_state_t :=
  G (state r) (reason r) (dest r) (state_changed r) (connected r) (is_con_stable r) (timestamp r)
    (disconnects r) (addr_redirector r) (addr_manager r) (run_stability r) (stability_opts_now r)
    (stability_opts_next r) (stability_update_now r) (stability_update_next r) (stability_repeat r)
    (link r) (old_link r) (ble_status r) (ntp_check r) (have_manager r) (have_awlan r)
    (min_backoff r) (max_backoff r) (fast_backoff r) (target_type r) (fast_reconnect r) (cnts r)
    (dev_type r) v (quiesce_timeout r) (tick r) (outs r).
Definition set_quiesce_timeout (v : Z) (r : cm2_state_t) : cm2_state_t :=
  G (state r) (reason r) (dest r) (state_changed r) (connected r) (is_con_stable r) (timestamp r)
    (disconnects r) (addr_redirector r) (addr_manager r) (run_stability r) (stability_opts_now r)
    (stability_opts_next r) (stability_update_now r) (stability_update_next r) (stability_repeat r)
    (link r) (old_link r) (ble_status r) (ntp_check r) (have_manager r) (have_awlan r)
    (min_backoff r) (max_backoff r) (fast_backoff r) (target_type r) (fast_reconnect r) (cnts r)
    (dev_type r) (fails r) v (tick r) (outs r).
Definition set_tick (v : nat) (r : cm2_state_t) : cm2_state_t :=
  G (state r) (reason r) (dest r) (state_changed r) (connected r) (is_con_stable r) (timestamp r)
    (disconnects r) (addr_redirector r) (addr_manager r) (run_stability r) (stability_opts_now r)
    (stability_opts_next r) (stability_update_now r) (stability_update_next r) (stability_repeat r)
    (link r) (old_link r) (ble_status r) (ntp_check r) (have_manager r) (have_awlan r)
    (min_backoff r) (max_backoff r) (fast_backoff r) (target_type r) (fast_reconnect r) (cnts r)
    (dev_type r) (fails r) (quiesce_timeout r) v (outs r).
Definition set_outs (v : list cm2_out) (r : cm2_state_t) : cm2_state_t :=
  G (state r) (reason r) (dest r) (state_changed r) (connected r) (is_con_stable r) (timestamp r)
    (disconnects r) (addr_redirector r) (addr_manager r) (run_stability r) (stability_opts_now r)
    (stability_opts_next r) (stability_update_now r) (stability_update_next r) (stability_repeat r)
    (link r) (old_link r) (ble_status r) (ntp_check r) (have_manager r) (have_awlan r)
    (min_backoff r) (max_backoff r) (fast_backoff r) (target_type r) (fast_reconnect r) (cnts r)
    (dev_type r) (fails r) (quiesce_timeout r) (tick r) v.
