(* ===== verification/Cm2Event.v ===== *)
(** Connection manager: resolving addresses (src/cm2/src/cm2_resolve.c and
    cm2_resolve_sync.c), connectivity checks (cm2_stability.c) and the state machine
    (cm2_event.c).

    The environment (clock, database, connectivity checks, name resolution, platform)
    answers questions: [e n] holds its answers at the [n]-th question, so two questions
    may get different answers.  The commands to it are recorded.  [goto start] and the
    re-entrant call for a failed VLAN tag are recursion with fuel. *)
From stdpp Require Import pretty.
From S2P Require Import Prelude CommonUtil Cm2Types.

(** Build configuration. *)
Record cm2_config := Config {
  CONFIG_CM2_OVS_SHORT_BACKOFF : Z;
  CONFIG_CM2_CLOUD_FATAL_THRESHOLD : Z;
  CONFIG_CM2_STABILITY_THRESH_VTAG : Z;
  CONFIG_CM2_STABILITY_THRESH_LINK : Z;
  CONFIG_CM2_STABILITY_THRESH_ROUTER : Z;
  CONFIG_CM2_STABILITY_THRESH_INTERNET : Z;
  CONFIG_CM2_STABILITY_THRESH_FATAL : Z;
  CONFIG_CM2_STABILITY_THRESH_TCPDUMP : Z;
  CONFIG_CM2_STABILITY_USE_RESTORE_SWITCH_CFG : bool;
  CONFIG_CM2_USE_TCPDUMP : bool;
  cm2_is_config_via_ble_enabled : bool;
  cm2_is_wan_bridge : bool }.

(** A row of Wifi_Inet_State, a row of Connection_Manager_Uplink (the columns read here)
    and the outcome of a connectivity check. *)
Record wifi_inet_state := InetState {
  ip_assign_scheme : option string;
  inet_addr : option string }.
Record uplink_row := Uplink {
  up_if_name : string;
  up_if_type : string;
  up_priority : Z;
  up_bridge : option string;
  unreachable_link_counter : Z;
  unreachable_router_counter : Z;
  unreachable_internet_counter : Z }.
Record target_connectivity_check_t := CState {
  link_state : bool;
  router_ipv4_state : bool;
  router_ipv6_state : bool;
  internet_ipv4_state : bool;
  internet_ipv6_state : bool;
  internet_state : bool;
  ntp_state : bool }.

(** The answers of the environment to one question. *)
Record cm2_env := Env {
  time_monotonic : Z;
  cm2_connection_get_used_link : option uplink_row;
  cm2_ovsdb_connection_get_connection_by_ifname : string → option uplink_row;
  cm2_ovsdb_is_ipv6_global_link : string → bool;
  select_Wifi_Inet_State : string → option wifi_inet_state;
  target_device_connectivity_check : string → Z → bool * target_connectivity_check_t;
  fork_ok : bool;
  cm2_cpu_is_low_loadavg : bool;
  getaddrinfo : string → option (list addrinfo);
  cm2_ovsdb_set_Manager_target_ok : string → bool;
  cm2_ovsdb_is_gw_offline_enabled : bool;
  cm2_ovsdb_is_gw_offline_active : bool;
  cm2_ovsdb_is_gw_offline_ready : bool;
  cm2_ovsdb_enable_gw_offline_conf : bool;
  cm2_ovsdb_disable_gw_offline_conf : bool;
  cm2_ovsdb_update_Port_trunks_ok : string → Z → bool;
  cm2_ovsdb_update_Port_tag_ok : string → Z → bool → bool;
  cm2_ovsdb_set_Wifi_Inet_Config_network_state : bool → string → bool;
  cm2_ovsdb_validate_bridge_port_conf : string → string → bool;
  cm2_ovsdb_is_port_w2h : bool;
  active_phy_links : list string;
  urandom : option Z }.

(** *** Constants of cm2_event.c *)
Definition CM2_NO_TIMEOUT : Z := -1.
Definition CM2_DEFAULT_TIMEOUT : Z := 60.
Definition CM2_FAST_RECONNECT_TIMEOUT : Z := 20.
Definition CM2_ONBOARD_LINK_SEL_TIMEOUT : Z := 120.
Definition CM2_RESOLVE_TIMEOUT : Z := 180.
Definition CM2_CONNECT_TIMEOUT : Z := 30.
Definition CM2_MAX_DISCONNECTS : Z := 10.
Definition CM2_STABLE_PERIOD : Z := 300.
Definition CM2_RESOLVE_RETRY_THRESHOLD : Z := 10.
Definition CM2_GW_OFFLINE_RETRY_THRESHOLD : Z := 3.
Definition CM2_GW_SKIP_RESTART_THRESHOLD : Z := 360.
Definition BLOCKING_LINK_THRESHOLD : Z := 3.
Definition UNBLOCKING_LINK_THRESHOLD : Z := 100.
(** Connectivity checks and onboarding status bits. *)
Definition LINK_CHECK : Z := 1.
Definition ROUTER_CHECK : Z := 2.
Definition INTERNET_CHECK : Z := 4.
Definition NTP_CHECK : Z := 8.
Definition IPV4_CHECK : Z := 16.
Definition IPV6_CHECK : Z := 32.
Definition ALL_CHECKS : Z := Z.lor (Z.lor LINK_CHECK ROUTER_CHECK) INTERNET_CHECK.
Definition BLE_ONBOARDING_STATUS_ETHERNET_LINK : Z := 0.
Definition BLE_ONBOARDING_STATUS_WIFI_LINK : Z := 1.
Definition BLE_ONBOARDING_STATUS_ETHERNET_BACKHAUL : Z := 2.
Definition BLE_ONBOARDING_STATUS_WIFI_BACKHAUL : Z := 3.
Definition BLE_ONBOARDING_STATUS_ROUTER_OK : Z := 4.
Definition BLE_ONBOARDING_STATUS_INTERNET_OK : Z := 5.
Definition BLE_ONBOARDING_STATUS_CLOUD_OK : Z := 6.

Abbreviation CM := (M cm2_state_t).
#[local] Open Scope Z_scope.

Section cm2.
Context (cfg : cm2_config) (e : nat → cm2_env).

(** A question to the environment, a command to it. *)
Definition ask {A} (q : cm2_env → A) : CM A :=
  a ← gets (λ s, q (e (tick s)));
  modify (λ s, set_tick (S (tick s)) s);;
  mret a.
Definition out (o : cm2_out) : CM unit := modify (λ s, set_outs (outs s ++ [o]) s).
Definition when (b : bool) (m : CM unit) : CM unit := if b then m else mret tt.
Definition upd_link (f : cm2_main_link_t → cm2_main_link_t) : CM unit := modify (λ s, set_link (f (link s)) s).
Definition upd_cnts (f : cm2_retries_cnt → cm2_retries_cnt) : CM unit := modify (λ s, set_cnts (f (cnts s)) s).
Definition upd_ipv4 (f : cm2_ip → cm2_ip) : CM unit := upd_link (λ l, set_ipv4 (f (ipv4 l)) l).
Definition upd_ipv6 (f : cm2_ip → cm2_ip) : CM unit := upd_link (λ l, set_ipv6 (f (ipv6 l)) l).
Definition upd_vtag (f : cm2_vtag_t → cm2_vtag_t) : CM unit := upd_link (λ l, set_vtag (f (vtag l)) l).

(** *** Small helpers (cm2_main.c, cm2_net.c, cm2_ovsdb.c) *)

Definition is_extender (s : cm2_state_t) : bool := negb (Z.land (target_type s) 1 =? 0).
Definition cm2_is_extender : CM bool := gets is_extender.
Definition cm2_is_eth_type (t : string) : bool :=
  bool_decide (t = "eth") || bool_decide (t = "vlan") || bool_decide (t = "pppoe").
Definition cm2_is_wifi_type (t : string) : bool := bool_decide (t = "vif") || bool_decide (t = "gre").
Definition uplink_name (l : cm2_main_link_t) : string := if is_bridge l then bridge_name l else if_name l.
Definition cm2_get_uplink_name : CM string := gets (λ s, uplink_name (link s)).
Definition get_if_name : CM string := gets (λ s, if_name (link s)).
Definition cm2_update_device_type (iftype : string) : CM unit :=
  if cm2_is_wifi_type iftype then modify (set_dev_type CM2_DEVICE_LEAF)
  else
    bridge_mode ← (if cm2_is_wan_bridge cfg then ask cm2_ovsdb_is_port_w2h else gets (λ s, is_bridge (link s)));
    modify (set_dev_type (if bridge_mode : bool then CM2_DEVICE_BRIDGE else CM2_DEVICE_ROUTER)).
Definition cm2_restart_iface (name : string) : CM unit := out (ORestartIface name).

(** [cm2_util_set_local_ip_cfg] *)
Definition cm2_util_set_local_ip_cfg (istate : wifi_inet_state) (ip : cm2_ip) : cm2_ip :=
  let scheme :=
    match ip_assign_scheme istate with
    | Some t =>
        if bool_decide (t = "static") then CM2_IP_STATIC
        else if bool_decide (t = "none") then CM2_IP_NONE
        else if bool_decide (t = "dhcp") then CM2_IPV4_DHCP
        else assign_scheme ip
    | None => CM2_IP_NOT_SET
    end in
  let has :=
    match inet_addr istate with
    | None => false
    | Some a => negb (bool_decide (a = "") || bool_decide (a = "0.0.0.0"))
    end in
  set_is_ip has (set_assign_scheme scheme ip).
(** [cm2_util_get_ip_inet_state_cfg], [cm2_update_main_link_ip]; the caller only warns
    about the result. *)
Definition cm2_util_get_ip_inet_state_cfg (name : string) : CM unit :=
  row ← ask (λ a, select_Wifi_Inet_State a name);
  match row with
  | None => mret tt
  | Some istate => upd_ipv4 (cm2_util_set_local_ip_cfg istate)
  end.
Definition cm2_update_main_link_ip : CM unit :=
  uplink ← cm2_get_uplink_name;
  global ← ask (λ a, cm2_ovsdb_is_ipv6_global_link a uplink);
  if (global : bool) then upd_ipv6 (λ ip, set_assign_scheme CM2_IPV6_DHCP (set_is_ip true ip))
  else cm2_util_get_ip_inet_state_cfg uplink.

(** [cm2_ovsdb_refresh_dhcp] *)
Definition cm2_ovsdb_refresh_dhcp (name : string) : CM unit :=
  ext ← cm2_is_extender;
  when ext (out (ORefreshDhcp name)).
(** [cm2_ovsdb_set_default_wan_bridge] *)
Definition cm2_ovsdb_set_default_wan_bridge (name type : string) : CM unit :=
  when (cm2_is_wan_bridge cfg || cm2_is_wifi_type type) (out (ODefaultWanBridge name type)).
(** [cm2_ovsdb_update_Port_tag] *)
Definition cm2_ovsdb_update_Port_tag (name : string) (tag : Z) (set : bool) : CM bool :=
  if bool_decide (name = "") then mret false
  else out (OPortTag name tag set);; ask (λ a, cm2_ovsdb_update_Port_tag_ok a name tag set).

(** [cm2_ovsdb_update_Port_trunks] with one trunk. *)
Definition cm2_ovsdb_update_Port_trunks (name : string) (trunk : Z) : CM bool :=
  if bool_decide (name = "") then mret false
  else out (OPortTrunks name trunk);; ask (λ a, cm2_ovsdb_update_Port_trunks_ok a name trunk).

(** *** Onboarding status (cm2_event.c, cm2_ovsdb.c) *)

Definition cm2_ble_onboarding_set_status (on : bool) (status : Z) : CM unit :=
  modify (λ s, set_ble_status
    (if on then Z.lor (ble_status s) (Z.shiftl 1 status)
     else Z.land (ble_status s) (Z.lnot (Z.shiftl 1 status))) s).
Definition cm2_ble_onboarding_apply_config : CM unit :=
  st ← gets ble_status;
  out (OBleConfig st).
Definition cm2_set_ble_state (on : bool) (status : Z) : CM unit :=
  cm2_ble_onboarding_set_status on status;; cm2_ble_onboarding_apply_config.
Definition cm2_set_backhaul_update_ble_state : CM unit :=
  t ← gets (λ s, if_type (link s));
  modify (set_ble_status 0);;
  (if bool_decide (t = "eth") || bool_decide (t = "vlan") then
     cm2_ble_onboarding_set_status true BLE_ONBOARDING_STATUS_ETHERNET_LINK;;
     cm2_ble_onboarding_set_status true BLE_ONBOARDING_STATUS_ETHERNET_BACKHAUL
   else
     cm2_ble_onboarding_set_status true BLE_ONBOARDING_STATUS_WIFI_LINK;;
     cm2_ble_onboarding_set_status true BLE_ONBOARDING_STATUS_WIFI_BACKHAUL);;
  cm2_ble_onboarding_apply_config.
(** [cm2_ovsdb_connection_update_ble_phy_link] *)
Definition cm2_ovsdb_connection_update_ble_phy_link : CM unit :=
  types ← ask active_phy_links;
  cm2_ble_onboarding_set_status (existsb cm2_is_eth_type types) BLE_ONBOARDING_STATUS_ETHERNET_LINK;;
  cm2_ble_onboarding_set_status (existsb (λ t, negb (cm2_is_eth_type t)) types) BLE_ONBOARDING_STATUS_WIFI_LINK;;
  cm2_ble_onboarding_apply_config.

(** *** Connectivity checks (cm2_stability.c) *)

Definition ip_opts (l : cm2_main_link_t) (opts : Z) : Z :=
  let opts := if negb (blocked (ipv4 l)) && is_ip (ipv4 l) then Z.lor opts IPV4_CHECK else opts in
  if negb (blocked (ipv6 l)) && is_ip (ipv6 l) then Z.lor opts IPV6_CHECK else opts.
Definition cm2_util_add_ip_opts (opts : Z) : CM Z := gets (λ s, ip_opts (link s) opts).
Definition has_opt (opts o : Z) : bool := negb (Z.land opts o =? 0).

(** The part of [cm2_util_update_connectivity_failures] for one address family: its
    state, router and Internet counters, before and after the early return. *)
Definition fam := (cm2_ip * Z * Z)%type.
Definition fam_age (other_is_ip : bool) (f : fam) : fam :=
  let '(ip, r, i) := f in
  if negb (is_ip ip) || (blocked ip && negb other_is_ip) then (set_blocked false ip, 0, 0)
  else if blocked ip then (ip, if 0 <? r then r + 1 else r, if 0 <? i then i + 1 else i)
  else f.
Definition fam_count (opts fam_opt : Z) (router internet : bool) (f : fam) : fam :=
  let '(ip, r, i) := f in
  let r := if has_opt opts ROUTER_CHECK && has_opt opts fam_opt then (if router then 0 else r + 1) else r in
  let i := if has_opt opts INTERNET_CHECK && has_opt opts fam_opt then (if internet then 0 else i + 1) else i in
  if (r =? BLOCKING_LINK_THRESHOLD) || (i =? BLOCKING_LINK_THRESHOLD) then (set_blocked true ip, r, i)
  else (ip, r, i).
Definition fam_unblock (f : fam) : fam :=
  let '(ip, r, i) := f in
  if (r =? UNBLOCKING_LINK_THRESHOLD) || (i =? UNBLOCKING_LINK_THRESHOLD) then (set_blocked false ip, 0, 0)
  else f.
(** The first two tests read [blocked] and [is_ip] only, and [is_ip] is not changed, so
    the order of the families does not matter there. *)
Definition update_failures (opts : Z) (c : target_connectivity_check_t) (f4 f6 : fam) : fam * fam :=
  let is4 := is_ip f4.1.1 in
  let is6 := is_ip f6.1.1 in
  let f4 := fam_age is6 f4 in
  let f6 := fam_age is4 f6 in
  if negb (is4 && is6) then (f4, f6)
  else
    let f4 := fam_count opts IPV4_CHECK (router_ipv4_state c) (internet_ipv4_state c) f4 in
    let f6 := fam_count opts IPV6_CHECK (router_ipv6_state c) (internet_ipv6_state c) f6 in
    let '(f4, f6) :=
      if blocked f4.1.1 && blocked f6.1.1
      then ((set_blocked false f4.1.1, f4.1.2, f4.2), (set_blocked false f6.1.1, f6.1.2, f6.2))
      else (f4, f6) in
    (fam_unblock f4, fam_unblock f6).
Definition cm2_util_update_connectivity_failures (opts : Z) (c : target_connectivity_check_t) : CM unit :=
  modify (λ s,
    let l := link s in
    let f := fails s in
    let '(f4, f6) := update_failures opts c (ipv4 l, ipv4_r_fail f, ipv4_i_fail f) (ipv6 l, ipv6_r_fail f, ipv6_i_fail f) in
    set_fails (Fails f4.2 f6.2 f4.1.2 f6.1.2) (set_link (set_ipv4 f4.1.1 (set_ipv6 f6.1.1 l)) s)).

(** [cm2_connection_req_stability_process] up to the test of [db_update]: the result,
    or the row of the main link to continue with. *)
Definition stability_process_status (opts : Z) (status : bool) (c : target_connectivity_check_t) :
    CM (bool + uplink_row) :=
  ext ← cm2_is_extender;
  if negb ext then mret (inl true)
  else
    used ← gets (λ s, is_used (link s));
    if negb used then
      modify (set_ble_status 0);;
      cm2_ovsdb_connection_update_ble_phy_link;;
      mret (inl false)
    else
      name ← get_if_name;
      con ← ask (λ a, cm2_ovsdb_connection_get_connection_by_ifname a name);
      match con with
      | None => mret (inl false)
      | Some con =>
          cm2_util_update_connectivity_failures opts c;;
          when (has_opt opts NTP_CHECK) (modify (set_ntp_check (ntp_state c)));;
          mret (inr con)
      end.
(** [cm2_connection_req_stability_check] with [db_update] false, as the state machine
    calls it. *)
Definition cm2_connection_req_stability_check (opts : Z) : CM bool :=
  name ← get_if_name;
  out OWdtPing;;
  r ← ask (λ a, target_device_connectivity_check a name opts);
  p ← stability_process_status opts r.1 r.2;
  mret (match p with inl b => b | inr _ => r.1 end).

(** [cm2_util_req_stability_check_recalc] *)
Definition cm2_util_req_stability_check_recalc : CM unit :=
  now ← gets stability_opts_now;
  opts ← gets stability_opts_next;
  update ← gets stability_update_next;
  if negb (now =? 0) then mret tt
  else if opts =? 0 then mret tt
  else
    ok ← ask fork_ok;
    if negb ok then mret tt
    else
      out (OFork opts);;
      modify (set_stability_opts_now opts);;
      modify (set_stability_opts_next 0);;
      modify (set_stability_update_now update);;
      modify (set_stability_update_next false).
(** [cm2_connection_req_stability_check_async] *)
Definition cm2_connection_req_stability_check_async (opts : Z) (db_update repeat : bool) : CM unit :=
  opts ← cm2_util_add_ip_opts opts;
  modify (set_stability_opts_next opts);;
  modify (set_stability_update_next db_update);;
  modify (set_stability_repeat repeat);;
  cm2_util_req_stability_check_recalc.

(** *** Addresses (cm2_resolve.c, cm2_resolve_sync.c) *)

Definition get_addr (d : cm2_dest_e) (s : cm2_state_t) : cm2_addr_t :=
  match d with CM2_DEST_REDIR => addr_redirector s | CM2_DEST_MANAGER => addr_manager s end.
Definition cm2_get_addr (d : cm2_dest_e) : CM cm2_addr_t := gets (get_addr d).
Definition cm2_curr_addr : CM cm2_addr_t := gets (λ s, get_addr (dest s) s).
Definition upd_addr (d : cm2_dest_e) (f : cm2_addr_t → cm2_addr_t) : CM unit :=
  modify (λ s, match d with
    | CM2_DEST_REDIR => set_addr_redirector (f (addr_redirector s)) s
    | CM2_DEST_MANAGER => set_addr_manager (f (addr_manager s)) s
    end).

(** [cm2_free_addr_list], [cm2_clear_addr] *)
Definition cm2_free_addr_list (a : cm2_addr_t) : cm2_addr_t := set_ai_curr None (set_ai_list [] a).
Definition cm2_clear_addr (a : cm2_addr_t) : cm2_addr_t :=
  cm2_free_addr_list (set_valid false (set_port 0 (set_hostname "" (set_proto "" (set_resource "" a))))).
Definition CM2_RESOURCE_MAX : nat := 512.
Definition CM2_HOSTNAME_MAX : nat := 256.
Definition CM2_PROTO_MAX : nat := 6.
(** [cm2_parse_resource] *)
Definition cm2_parse_resource (d : cm2_dest_e) : CM bool :=
  a ← cm2_get_addr d;
  u ← parse_uri (resource a) CM2_PROTO_MAX CM2_HOSTNAME_MAX;
  match u with
  | None => upd_addr d cm2_clear_addr;; mret false
  | Some (p, h, n) => upd_addr d (λ a, set_valid true (set_port n (set_hostname h (set_proto p a))));; mret true
  end.
(** [cm2_set_addr] *)
Definition cm2_set_addr (d : cm2_dest_e) (res : string) : CM bool :=
  upd_addr d (λ a, set_updated false (set_resolved false (set_resource (STRSCPY res CM2_RESOURCE_MAX) a)));;
  if bool_decide (res = "") then upd_addr d cm2_clear_addr;; mret false
  else
    ret ← cm2_parse_resource d;
    upd_addr d cm2_free_addr_list;;
    mret ret.
Definition cm2_clear_manager_addr : CM unit :=
  out (OManagerAddr "");;
  cm2_set_addr CM2_DEST_MANAGER "";;
  mret tt.

Definition usable (a : addrinfo) : bool := match a with AF_OTHER => false | _ => true end.
(** [cm2_resolve] *)
Definition cm2_resolve (d : cm2_dest_e) : CM bool :=
  upd_addr d (λ a, set_resolved false (set_updated false a));;
  a ← cm2_get_addr d;
  if negb (valid a) then mret false
  else
    upd_addr d cm2_free_addr_list;;
    r ← ask (λ x, getaddrinfo x (hostname a));
    match r with
    | None => mret false
    | Some l =>
        upd_addr d (set_ai_list l);;
        if existsb usable l then upd_addr d (λ a, set_ai_curr None (set_resolved true a));; mret true
        else mret false
    end.

(** [cm2_get_next_addrinfo]: the next usable entry; [None] is NULL. *)
Definition next_usable (l : list addrinfo) (i : nat) : option nat :=
  (λ p, p.1 + i)%nat <$> list_find (λ a, usable a = true) (drop i l).
Definition cm2_get_next_addrinfo : CM (option nat) :=
  d ← gets dest;
  a ← cm2_curr_addr;
  match next_usable (ai_list a) (match ai_curr a with Some i => S i | None => 0%nat end) with
  | None => mret None
  | Some i => upd_addr d (set_ai_curr (Some i));; mret (Some i)
  end.
(** [cm2_ovsdb_set_Manager_target] *)
Definition cm2_ovsdb_set_Manager_target (target : string) : CM bool :=
  out (OManagerTarget target);; ask (λ a, cm2_ovsdb_set_Manager_target_ok a target).
(** [cm2_write_target_addr] *)
Definition target_string (a : cm2_addr_t) (ai : addrinfo) : option string :=
  match ai with
  | AF_INET t => Some (proto a +:+ ":" +:+ t +:+ ":" +:+ pretty (port a))
  | AF_INET6 t => Some (proto a +:+ ":[" +:+ t +:+ "]:" +:+ pretty (port a))
  | AF_OTHER => None
  end.
Definition cm2_write_target_addr (ai : option nat) : CM bool :=
  d ← gets dest;
  a ← cm2_curr_addr;
  match ai with
  | None => mret false
  | Some i =>
      x ← deref (ai_list a !! i);
      match target_string a x with
      | None => mret false
      | Some t =>
          ret ← cm2_ovsdb_set_Manager_target (STRSCPY t 256);
          when ret (upd_addr d (set_ai_curr (Some i)));;
          mret ret
      end
  end.
Definition cm2_write_current_target_addr : CM bool :=
  a ← cm2_curr_addr;
  ai ← match ai_curr a with Some i => mret (Some i) | None => cm2_get_next_addrinfo end;
  cm2_write_target_addr ai.
Definition cm2_write_next_target_addr : CM bool :=
  ai ← cm2_get_next_addrinfo;
  cm2_write_target_addr ai.
(** [cm2_is_addr_resolved] *)
Definition cm2_is_addr_resolved (a : cm2_addr_t) : bool := resolved a.

(** *** Time and states *)

Definition cm2_reset_time : CM unit := t ← ask time_monotonic; modify (set_timestamp t).
Definition cm2_get_time : CM Z := t ← ask time_monotonic; ts ← gets timestamp; mret (t - ts).
(** [cm2_state_info], [cm2_get_timeout] *)
Definition state_timeout (st : cm2_state_e) (quiesce : Z) : Z :=
  match st with
  | CM2_STATE_INIT => CM2_NO_TIMEOUT
  | CM2_STATE_LINK_SEL => CM2_ONBOARD_LINK_SEL_TIMEOUT
  | CM2_STATE_WAN_IP | CM2_STATE_NTP_CHECK | CM2_STATE_INTERNET => CM2_DEFAULT_TIMEOUT
  | CM2_STATE_OVS_INIT => CM2_NO_TIMEOUT
  | CM2_STATE_TRY_RESOLVE => CM2_RESOLVE_TIMEOUT
  | CM2_STATE_RE_CONNECT | CM2_STATE_TRY_CONNECT => CM2_CONNECT_TIMEOUT
  | CM2_STATE_FAST_RECONNECT => CM2_FAST_RECONNECT_TIMEOUT
  | CM2_STATE_CONNECTED => CM2_NO_TIMEOUT
  | CM2_STATE_QUIESCE_OVS => quiesce
  end.
Definition cm2_get_timeout : CM Z := gets (λ s, state_timeout (state s) (quiesce_timeout s)).
(** [cm2_timeout]; its argument only selects a log message. *)
Definition cm2_timeout : CM bool :=
  seconds ← cm2_get_timeout;
  delta ← cm2_get_time;
  mret (negb (seconds =? CM2_NO_TIMEOUT) && (seconds <=? delta)).
(** [cm2_set_state]; its flag only selects a log message. *)
Definition cm2_set_state (new : cm2_state_e) : CM unit :=
  old ← gets state;
  if bool_decide (old = new) then mret tt
  else modify (set_state new);; cm2_reset_time;; modify (set_state_changed true).
Definition cm2_state_changed : CM bool :=
  changed ← gets state_changed;
  modify (set_state_changed false);;
  mret changed.
Definition connected_to (d : cm2_dest_e) (s : cm2_state_t) : bool :=
  bool_decide (state s = CM2_STATE_CONNECTED) && bool_decide (dest s = d).
Definition cm2_is_connected_to (d : cm2_dest_e) : CM bool := gets (connected_to d).

(** [cm2_compute_backoff]: the divisor is computed in 32 bits, a remainder by zero is a
    fault. *)
Definition cm2_compute_backoff : CM unit :=
  s ← gets (λ s, s);
  let set_backoff b := modify (set_quiesce_timeout (wraps 32 b)) in
  if fast_backoff s then set_backoff (CONFIG_CM2_OVS_SHORT_BACKOFF cfg)
  else
    r ← ask urandom;
    match r with
    | None => set_backoff (max_backoff s)
    | Some rnd =>
        let range := wrapu 32 (max_backoff s - min_backoff s) in
        if range =? 0 then fault
        else set_backoff (wrapu 32 (wrapu 32 rnd `mod` range + min_backoff s))
    end.

(** *** Helpers of the state machine *)

(** The link after [memset]. *)
Definition zero_ip : cm2_ip := Ip CM2_IP_NOT_SET false false false.
Definition zero_link : cm2_main_link_t :=
  Link "" "" false "" false false 0 zero_ip zero_ip (Vtag CM2_VTAG_NOT_USED 0 0 0).
Definition cm2_extender_init_state : CM unit :=
  modify (set_link zero_link);;
  con ← ask cm2_connection_get_used_link;
  match con with
  | Some c =>
      upd_link (λ l, set_is_used true (set_priority (up_priority c)
        (set_if_type (up_if_type c) (set_if_name (up_if_name c) l))))
  | None => upd_link (set_priority (-1))
  end;;
  modify (set_fast_backoff true);;
  modify (set_dev_type CM2_DEVICE_NONE).

(** [cm2_enable_gw_offline] *)
Definition cm2_enable_gw_offline : CM bool :=
  t ← gets (λ s, if_type (link s));
  if cm2_is_wifi_type t then mret false
  else
    con ← cm2_is_connected_to CM2_DEST_MANAGER;
    if (con : bool) then mret false
    else
      enabled ← ask cm2_ovsdb_is_gw_offline_enabled;
      if negb enabled then mret false
      else
        active ← ask cm2_ovsdb_is_gw_offline_active;
        if (active : bool) then mret true
        else
          ready ← ask cm2_ovsdb_is_gw_offline_ready;
          if negb ready then mret false
          else
            upd_cnts (λ c, if gw_offline c <? CM2_GW_OFFLINE_RETRY_THRESHOLD
                           then set_gw_offline (gw_offline c + 1) c else c);;
            n ← gets (λ s, gw_offline (cnts s));
            if negb (n =? CM2_GW_OFFLINE_RETRY_THRESHOLD) then mret true
            else
              out OGwOfflineEnable;;
              r ← ask cm2_ovsdb_enable_gw_offline_conf;
              when (negb r) (upd_cnts (λ c, set_gw_offline (gw_offline c - 1) c));;
              mret true.

Definition cm2_set_new_vtag : CM bool :=
  l ← gets link;
  if bool_decide (vt_state (vtag l) = CM2_VTAG_BLOCKED) && (vt_tag (vtag l) =? blocked_tag (vtag l)) then mret false
  else
    ok ← (if cm2_is_eth_type (if_type l)
          then cm2_ovsdb_update_Port_trunks (if_name l) (vt_tag (vtag l)) else mret true);
    if negb ok then mret false
    else
      ok ← cm2_ovsdb_update_Port_tag (uplink_name l) (vt_tag (vtag l)) true;
      if negb ok then mret false
      else upd_vtag (λ v, set_vt_failure 0 (set_vt_state CM2_VTAG_PENDING v));; mret true.
Definition cm2_block_vtag : CM bool :=
  upd_vtag (λ v, set_blocked_tag (vt_tag v) (set_vt_failure 0 (set_vt_state CM2_VTAG_BLOCKED v)));;
  l ← gets link;
  cm2_ovsdb_update_Port_tag (uplink_name l) (vt_tag (vtag l)) false.
Definition cm2_disable_gw_offline_state : CM unit :=
  n ← gets (λ s, gw_offline (cnts s));
  if negb (n =? CM2_GW_OFFLINE_RETRY_THRESHOLD) then mret tt
  else
    active ← ask cm2_ovsdb_is_gw_offline_active;
    if negb active then mret tt
    else
      out OGwOfflineDisable;;
      r ← ask cm2_ovsdb_disable_gw_offline_conf;
      when r (upd_cnts (set_gw_offline 0)).
Definition cm2_restore_bridge_config : CM unit :=
  s ← gets (λ s, s);
  when (bool_decide (dev_type s = CM2_DEVICE_BRIDGE) && is_bridge (old_link s) && negb (is_bridge (link s))
        && cm2_is_eth_type (if_type (link s)) && bool_decide (if_name (old_link s) = if_name (link s)))
    (out (OBridgeState (if_name (old_link s)) (bridge_name (old_link s)))).

(** *** The state machine

    [self] is [cm2_update_state], which a failed VLAN tag re-enters. *)
Section machine.
Context (self : cm2_reason_e → CM unit).

(** [cm2_vtag_stability_check] (cm2_stability.c) *)
Definition cm2_vtag_stability_check : CM bool :=
  v ← gets (λ s, vtag (link s));
  if bool_decide (vt_state v = CM2_VTAG_PENDING) then
    upd_vtag (λ v, set_vt_failure (vt_failure v + 1) v);;
    when (CONFIG_CM2_STABILITY_THRESH_VTAG cfg <? vt_failure v + 1) (self CM2_REASON_BLOCK_VTAG);;
    mret false
  else mret true.

(** The decision of [cm2_trigger_restart_managers] before its label [restart]. *)
Definition restart_managers_skip : CM bool :=
  t ← gets (λ s, if_type (link s));
  if cm2_is_wifi_type t then mret false
  else
    r ← cm2_vtag_stability_check;
    if negb r then mret true
    else
      dev ← gets dev_type;
      when (cm2_is_config_via_ble_enabled cfg && bool_decide (dev = CM2_DEVICE_NONE)) (out (OBleConnectable true));;
      if bool_decide (dev = CM2_DEVICE_ROUTER) then
        n ← gets (λ s, skip_restart (cnts s));
        name ← get_if_name;
        (if Z.rem n 2 =? 0 then cm2_restart_iface name else cm2_ovsdb_refresh_dhcp name);;
        mret true
      else cm2_enable_gw_offline.
(** [cm2_trigger_restart_managers] *)
Definition cm2_trigger_restart_managers : CM unit :=
  skip ← restart_managers_skip;
  out ODumpDebug;;
  n ← gets (λ s, skip_restart (cnts s));
  when skip (upd_cnts (λ c, set_skip_restart (skip_restart c + 1) c));;
  if skip && (n <? CM2_GW_SKIP_RESTART_THRESHOLD) then cm2_reset_time
  else out OWdtPing;; out ORestartManagers.
(** [cm2_restart_ovs_connection]; its flag only selects a log message. *)
Definition cm2_restart_ovs_connection : CM unit :=
  ext ← cm2_is_extender;
  if (ext : bool) then
    c ← gets cnts;
    if (CONFIG_CM2_CLOUD_FATAL_THRESHOLD cfg =? 0)
       || ((ovs_resolve_fail c <? CONFIG_CM2_CLOUD_FATAL_THRESHOLD cfg)
           && (ovs_con c <? CONFIG_CM2_CLOUD_FATAL_THRESHOLD cfg))
    then cm2_enable_gw_offline;; cm2_set_state CM2_STATE_LINK_SEL
    else cm2_trigger_restart_managers
  else cm2_set_state CM2_STATE_OVS_INIT.
Definition count_resolve_fail : CM unit :=
  when (negb (CONFIG_CM2_CLOUD_FATAL_THRESHOLD cfg =? 0)) (upd_cnts (λ c, set_ovs_resolve_fail (ovs_resolve_fail c + 1) c)).
Definition count_ovs_con : CM unit :=
  when (negb (CONFIG_CM2_CLOUD_FATAL_THRESHOLD cfg =? 0)) (upd_cnts (λ c, set_ovs_con (ovs_con c + 1) c)).
(** The refresh of the link state that several states of an extender begin with. *)
Definition extender_link_check (db_update repeat : bool) : CM unit :=
  ext ← cm2_is_extender;
  when ext (cm2_update_main_link_ip;; cm2_connection_req_stability_check_async ALL_CHECKS db_update repeat).

(** The first switch of [cm2_update_state]; [link_sel] and [uplink] were computed
    before it. *)
Definition update_reason (reason : cm2_reason_e) (link_sel : bool) (uplink : string) : CM unit :=
  match reason with
  | CM2_REASON_LINK_NOT_USED => cm2_set_state CM2_STATE_LINK_SEL
  | CM2_REASON_LINK_USED =>
      cm2_update_main_link_ip;;
      cm2_set_backhaul_update_ble_state;;
      cm2_restore_bridge_config;;
      l ← gets link;
      (if is_bridge l then out (OBridgeCfg (bridge_name l) (if_name l))
       else cm2_ovsdb_set_default_wan_bridge (if_name l) (if_type l));;
      out (OCleanCounters (if_name l));;
      cm2_connection_req_stability_check_async LINK_CHECK false false;;
      cm2_set_state CM2_STATE_WAN_IP
  | CM2_REASON_SET_NEW_VTAG =>
      ok ← cm2_set_new_vtag;
      when ok (cm2_ovsdb_refresh_dhcp uplink;; cm2_set_state CM2_STATE_WAN_IP)
  | CM2_REASON_BLOCK_VTAG =>
      ok ← cm2_block_vtag;
      when ok (cm2_ovsdb_refresh_dhcp uplink;; cm2_set_state CM2_STATE_WAN_IP)
  | CM2_REASON_OVS_INIT =>
      st ← gets state;
      when (negb (bool_decide (st = CM2_STATE_WAN_IP)) && negb link_sel)
        (cm2_ovsdb_set_Manager_target "";;
         modify (set_connected false);;
         modify (set_fast_reconnect false);;
         cm2_set_state CM2_STATE_WAN_IP)
  | _ => mret tt
  end.
(** New addresses of the redirector and of the manager. *)
Definition update_addresses (link_sel : bool) : CM unit :=
  s ← gets (λ s, s);
  if negb (bool_decide (state s = CM2_STATE_OVS_INIT)) && negb (bool_decide (state s = CM2_STATE_TRY_RESOLVE))
     && negb link_sel && updated (addr_redirector s) && valid (addr_redirector s)
  then cm2_set_state CM2_STATE_OVS_INIT;; upd_addr CM2_DEST_REDIR (set_updated false)
  else
    when (negb (connected_to CM2_DEST_MANAGER s) && updated (addr_manager s) && valid (addr_manager s))
      (cm2_set_state CM2_STATE_TRY_RESOLVE;; modify (set_dest CM2_DEST_MANAGER)).

(** The cases of the second switch; [true] means [return]. *)
Definition state_init : CM bool :=
  ext ← cm2_is_extender;
  (if negb ext then cm2_set_state CM2_STATE_OVS_INIT
   else
     cm2_extender_init_state;;
     upd_ipv4 (set_resolve_retry false);;
     upd_ipv6 (set_resolve_retry false);;
     upd_cnts (λ c, set_ovs_resolve_fail 0 (set_ovs_resolve 0 c));;
     cm2_set_state CM2_STATE_LINK_SEL);;
  mret false.

Definition state_link_sel : CM bool :=
  first ← cm2_state_changed;
  when first
    (modify (set_run_stability false);;
     con ← gets connected;
     modify (set_fast_reconnect con);;
     when con (modify (set_fast_backoff true));;
     cm2_ovsdb_set_Manager_target "";;
     modify (set_connected false);;
     modify (set_ble_status 0);;
     cm2_ovsdb_connection_update_ble_phy_link);;
  used ← gets (λ s, is_used (link s));
  (if (used : bool) then
     cm2_connection_req_stability_check_async LINK_CHECK false false;;
     cm2_set_backhaul_update_ble_state;;
     cm2_set_state CM2_STATE_WAN_IP
   else
     late ← cm2_timeout;
     when late cm2_trigger_restart_managers);;
  mret false.

Definition state_wan_ip : CM bool :=
  cm2_state_changed;;
  cm2_update_main_link_ip;;
  l ← gets link;
  ret ← (if is_ip (ipv4 l) || is_ip (ipv6 l) then
           opts ← cm2_util_add_ip_opts ROUTER_CHECK;
           ret ← cm2_connection_req_stability_check opts;
           cm2_set_ble_state ret BLE_ONBOARDING_STATUS_ROUTER_OK;;
           mret ret
         else mret false);
  (if (ret : bool) then cm2_set_state CM2_STATE_NTP_CHECK
   else
     late ← cm2_timeout;
     if (late : bool) then cm2_trigger_restart_managers
     else cm2_ovsdb_set_Manager_target "";; mret tt);;
  mret false.

Definition state_ntp_check : CM bool :=
  first ← cm2_state_changed;
  when first (cm2_connection_req_stability_check_async INTERNET_CHECK true false);;
  opts ← cm2_util_add_ip_opts NTP_CHECK;
  ok ← cm2_connection_req_stability_check opts;
  (if (ok : bool) then
     cm2_set_ble_state true BLE_ONBOARDING_STATUS_INTERNET_OK;;
     fast ← gets fast_reconnect;
     cm2_set_state (if (fast : bool) then CM2_STATE_FAST_RECONNECT else CM2_STATE_OVS_INIT)
   else
     late ← cm2_timeout;
     when late cm2_trigger_restart_managers);;
  mret false.

Definition state_ovs_init : CM bool :=
  s ← gets (λ s, s);
  (if is_extender s && negb (is_used (link s)) then cm2_set_state CM2_STATE_LINK_SEL
   else
     out ORemoveGre;;
     modify (set_connected false);;
     modify (set_is_con_stable false);;
     redir ← gets (λ s, valid (addr_redirector s));
     when redir
       (cm2_clear_manager_addr;;
        modify (set_dest CM2_DEST_REDIR);;
        cm2_set_state CM2_STATE_TRY_RESOLVE;;
        modify (set_disconnects 0));;
     out OBootTime);;
  mret false.

(** TRY_RESOLVE: what follows a successful call of the resolver. *)
Definition resolve_done (uplink : string) : CM bool :=
  a ← cm2_curr_addr;
  if cm2_is_addr_resolved a then
    upd_cnts (λ c, set_ovs_resolve_fail 0 (set_ovs_resolve 0 c));;
    cm2_set_state CM2_STATE_RE_CONNECT;;
    mret false
  else
    late ← cm2_timeout;
    n ← gets (λ s, ovs_resolve (cnts s));
    if late || (CM2_RESOLVE_RETRY_THRESHOLD <? n) then
      upd_cnts (set_ovs_resolve 0);;
      out OResolveTimeout;;
      cm2_ovsdb_refresh_dhcp uplink;;
      count_resolve_fail;;
      cm2_restart_ovs_connection;;
      mret true
    else mret false.
Definition retry_pending (l : cm2_main_link_t) : bool := resolve_retry (ipv4 l) || resolve_retry (ipv6 l).
Definition state_try_resolve (uplink : string) : CM bool :=
  first ← cm2_state_changed;
  l ← gets link;
  if first || retry_pending l then
    extender_link_check false true;;
    l ← gets link;
    when (retry_pending l) (upd_cnts (λ c, set_ovs_resolve (ovs_resolve c + 1) c));;
    d ← gets dest;
    ok ← cm2_resolve d;
    if negb ok then
      count_resolve_fail;;
      cm2_restart_ovs_connection;;
      out OWdtPing;;
      mret true
    else resolve_done uplink
  else resolve_done uplink.

Definition state_re_connect : CM bool :=
  first ← cm2_state_changed;
  when first (modify (set_connected false);; cm2_ovsdb_set_Manager_target "";; mret tt);;
  con ← gets connected;
  if negb con then cm2_set_state CM2_STATE_TRY_CONNECT;; mret false
  else
    late ← cm2_timeout;
    if (late : bool) then count_ovs_con;; cm2_restart_ovs_connection;; mret true
    else mret false.

(** TRY_CONNECT: give up on the current address. *)
Definition connect_failed : CM bool := count_ovs_con;; cm2_restart_ovs_connection;; mret true.
Definition connect_wait : CM bool :=
  con ← gets connected;
  if (con : bool) then cm2_set_state CM2_STATE_CONNECTED;; mret false
  else
    late ← cm2_timeout;
    if (late : bool) then
      extender_link_check false true;;
      ok ← cm2_write_next_target_addr;
      if (ok : bool) then cm2_reset_time;; mret false else connect_failed
    else mret false.
Definition state_try_connect : CM bool :=
  ext ← cm2_is_extender;
  name ← get_if_name;
  when ext (out ORemoveGre;; out (OCloudCounter name (-1)));;
  a ← cm2_curr_addr;
  if updated a then cm2_set_state CM2_STATE_TRY_RESOLVE;; mret false
  else
    first ← cm2_state_changed;
    if (first : bool) then
      extender_link_check false true;;
      ok ← cm2_write_current_target_addr;
      if negb ok then connect_failed else connect_wait
    else connect_wait.

Definition state_fast_reconnect : CM bool :=
  first ← cm2_state_changed;
  when first
    (modify (set_connected false);;
     cm2_ovsdb_set_Manager_target "";;
     cm2_write_current_target_addr;;
     mret tt);;
  con ← gets connected;
  when con (cm2_set_state CM2_STATE_CONNECTED);;
  late ← cm2_timeout;
  when late (cm2_set_state CM2_STATE_QUIESCE_OVS);;
  mret false.

(** CONNECTED, first iteration, on an extender. *)
Definition connected_first : CM unit :=
  cm2_connection_req_stability_check_async ALL_CHECKS true false;;
  cm2_set_ble_state true BLE_ONBOARDING_STATUS_CLOUD_OK;;
  t ← gets (λ s, if_type (link s));
  cm2_update_device_type t;;
  upd_cnts (λ c, set_ovs_con 0 (set_skip_restart 0 c));;
  modify (set_run_stability true);;
  out (OStabilityInterval false);;
  name ← get_if_name;
  out (OCloudCounter name 0);;
  cm2_disable_gw_offline_state.
Definition connected_stable : CM unit :=
  modify (set_is_con_stable true);;
  modify (set_disconnects 0);;
  modify (set_fast_backoff false);;
  when (cm2_is_config_via_ble_enabled cfg) (out (OBleConnectable false));;
  v ← gets (λ s, vt_state (vtag (link s)));
  when (bool_decide (v = CM2_VTAG_PENDING)) (upd_vtag (set_vt_state CM2_VTAG_USED)).
Definition state_connected : CM bool :=
  first ← cm2_state_changed;
  ext ← cm2_is_extender;
  when (first && ext) connected_first;;
  con ← gets connected;
  (if (con : bool) then
     stable ← gets is_con_stable;
     when (negb stable)
       (t ← cm2_get_time;
        when (CM2_STABLE_PERIOD <? t) connected_stable)
   else
     cm2_set_state CM2_STATE_QUIESCE_OVS;;
     modify (set_is_con_stable false));;
  mret false.

Definition count_disconnect : CM unit :=
  modify (λ s, set_disconnects (disconnects s + 1) s).
Definition report_disconnects : CM unit :=
  s ← gets (λ s, s);
  when (is_extender s) (out (OCloudCounter (if_name (link s)) (disconnects s))).
Definition quiesce_first : CM unit :=
  out (OStabilityInterval true);;
  cm2_ovsdb_set_Manager_target "";;
  count_disconnect;;
  cm2_set_ble_state false BLE_ONBOARDING_STATUS_CLOUD_OK;;
  report_disconnects;;
  cm2_compute_backoff.
Definition state_quiesce_ovs : CM bool :=
  out ORemoveGre;;
  first ← cm2_state_changed;
  when first quiesce_first;;
  con ← gets connected;
  when con (cm2_set_state CM2_STATE_CONNECTED);;
  late ← cm2_timeout;
  if (late : bool) then
    count_disconnect;;
    report_disconnects;;
    n ← gets disconnects;
    if CM2_MAX_DISCONNECTS <? n then
      modify (set_fast_backoff false);;
      cm2_restart_ovs_connection;;
      mret true
    else cm2_set_state CM2_STATE_FAST_RECONNECT;; mret false
  else mret false.

Definition update_switch (uplink : string) : CM bool :=
  st ← gets state;
  match st with
  | CM2_STATE_LINK_SEL => state_link_sel
  | CM2_STATE_WAN_IP => state_wan_ip
  | CM2_STATE_NTP_CHECK => state_ntp_check
  | CM2_STATE_OVS_INIT => state_ovs_init
  | CM2_STATE_TRY_RESOLVE => state_try_resolve uplink
  | CM2_STATE_RE_CONNECT => state_re_connect
  | CM2_STATE_TRY_CONNECT => state_try_connect
  | CM2_STATE_FAST_RECONNECT => state_fast_reconnect
  | CM2_STATE_CONNECTED => state_connected
  | CM2_STATE_QUIESCE_OVS => state_quiesce_ovs
  | CM2_STATE_INIT | CM2_STATE_INTERNET => state_init
  end.

(** The test after the switch. *)
Definition update_unhandled : CM unit :=
  late ← cm2_timeout;
  when late
    (out ODumpDebug;;
     ext ← cm2_is_extender;
     when ext cm2_trigger_restart_managers;;
     cm2_set_state CM2_STATE_INIT).
Definition in_link_sel (st : cm2_state_e) : bool :=
  match st with
  | CM2_STATE_INIT | CM2_STATE_LINK_SEL | CM2_STATE_WAN_IP | CM2_STATE_NTP_CHECK => true
  | _ => false
  end.
(** One pass through [cm2_update_state] from the label [start]; [true] means [goto start]. *)
Definition update_pass (reason : cm2_reason_e) : CM bool :=
  old ← gets (λ s, s);
  if negb (have_awlan old) then mret false
  else if negb (have_manager old) then mret false
  else
    let link_sel := in_link_sel (state old) in
    let uplink := uplink_name (link old) in
    update_reason reason link_sel uplink;;
    update_addresses link_sel;;
    returned ← update_switch uplink;
    if (returned : bool) then mret false
    else
      update_unhandled;;
      st ← gets state;
      mret (negb (bool_decide (state old = st))).
End machine.

(** [cm2_update_state] *)
Fixpoint cm2_update_state (fuel : nat) (reason : cm2_reason_e) : CM unit :=
  match fuel with
  | O => fault
  | S fuel =>
      again ← update_pass (cm2_update_state fuel) reason;
      if (again : bool) then cm2_update_state fuel CM2_REASON_CHANGE else mret tt
  end.

(** *** Events *)

(** [cm2_trigger_update], [cm2_event_cb]: the timer, at once or after a second. *)
Definition cm2_trigger_update (r : cm2_reason_e) : CM unit :=
  modify (set_reason r);; out OTimerStart.
Definition cm2_event_cb (fuel : nat) : CM unit :=
  r ← gets reason;
  modify (set_reason CM2_REASON_TIMER);;
  cm2_update_state fuel r.
(** [callback_AWLAN_Node]: a row was deleted, or written with these columns changed. *)
Record awlan_change := Awlan {
  aw_deleted : bool;
  aw_manager_addr : option string;
  aw_redirector_addr : option string;
  aw_device_config : bool;
  aw_backoff : option (Z * Z) }.
Definition callback_AWLAN_Node (fuel : nat) (c : awlan_change) : CM unit :=
  modify (set_have_awlan (negb (aw_deleted c)));;
  match aw_manager_addr c with
  | Some res => ok ← cm2_set_addr CM2_DEST_MANAGER res; upd_addr CM2_DEST_MANAGER (set_updated ok)
  | None => mret tt
  end;;
  match aw_redirector_addr c with
  | Some res => ok ← cm2_set_addr CM2_DEST_REDIR res; upd_addr CM2_DEST_REDIR (set_updated ok)
  | None => mret tt
  end;;
  when (aw_device_config c) (out ODeviceConfig);;
  match aw_backoff c with
  | Some (lo, hi) => modify (set_min_backoff lo);; modify (set_max_backoff hi)
  | None => mret tt
  end;;
  cm2_update_state fuel CM2_REASON_AWLAN.
(** [callback_Manager]: a row was deleted ([None]) or written. *)
Definition callback_Manager (fuel : nat) (is_connected : option bool) : CM unit :=
  (match is_connected with
   | None => modify (set_have_manager false);; modify (set_connected false)
   | Some con => modify (set_have_manager true);; modify (set_connected con)
   end);;
  cm2_update_state fuel CM2_REASON_MANAGER.

End cm2.
