(* ===== verification/Cm2Stability.v ===== *)
(** Connection manager: the connectivity checks that run beside the state machine
    (src/cm2/src/cm2_stability.c).

    A check runs in a child process; its exit status is the result.  The results update
    the counters of the main link in the database, block an address family without
    connectivity and start repairs. *)
From S2P Require Import Prelude CommonUtil Cm2Types Cm2Event.
#[local] Open Scope Z_scope.

Definition CM2_RESTORE_IP : Z := 0.
Definition CM2_RESTORE_SWITCH_DUMP_DATA : Z := 1.
Definition CM2_RESTORE_SWITCH_FIX_PORT_MAP : Z := 2.
Definition CM2_RESTORE_SWITCH_FIX_AUTON : Z := 3.
Definition CM2_RESTORE_MAIN_LINK : Z := 4.
Definition bit (n : Z) : Z := Z.shiftl 1 n.

Section stability.
Context (cfg : cm2_config) (e : nat → cm2_env) (self : cm2_reason_e → CM unit).

(** An [int] remainder. *)
Definition rem_by (a b : Z) : CM Z := if b =? 0 then fault else mret (Z.rem a b).

(** *** Repairs *)

(** [cm2_util_skip_restore_switch_fix_auton] *)
Definition cm2_util_skip_restore_switch_fix_auton : CM bool :=
  dev ← gets dev_type;
  if negb (bool_decide (dev = CM2_DEVICE_BRIDGE)) then mret false
  else
    enabled ← ask e cm2_ovsdb_is_gw_offline_enabled;
    if negb enabled then mret false
    else
      active ← ask e cm2_ovsdb_is_gw_offline_active;
      if (active : bool) then mret true
      else ask e cm2_ovsdb_is_gw_offline_ready.
(** [cm2_restore_switch_cfg_params]: the new value of the options. *)
Definition cm2_restore_switch_cfg_params (counter thresh ropt : Z) : CM Z :=
  if negb (CONFIG_CM2_STABILITY_USE_RESTORE_SWITCH_CFG cfg) then mret ropt
  else
    let ropt := Z.lor ropt (bit CM2_RESTORE_SWITCH_FIX_PORT_MAP) in
    r ← rem_by counter thresh;
    if negb (r =? 0) then mret ropt
    else
      let ropt := Z.lor ropt (bit CM2_RESTORE_SWITCH_DUMP_DATA) in
      skip ← cm2_util_skip_restore_switch_fix_auton;
      mret (if (skip : bool) then ropt else Z.lor ropt (bit CM2_RESTORE_SWITCH_FIX_AUTON)).
(** [cm2_restore_switch_cfg]: the script kick-ethernet.sh. *)
Definition cm2_restore_switch_cfg (opt : Z) : CM unit :=
  when (CONFIG_CM2_STABILITY_USE_RESTORE_SWITCH_CFG cfg)
    (when (Z.testbit opt CM2_RESTORE_SWITCH_DUMP_DATA) (out (OKickEthernet 2));;
     when (Z.testbit opt CM2_RESTORE_SWITCH_FIX_PORT_MAP) (out (OKickEthernet 3));;
     when (Z.testbit opt CM2_RESTORE_SWITCH_FIX_AUTON) (out (OKickEthernet 4))).
(** [cm2_restore_connection] *)
Definition cm2_restore_connection (opt : Z) : CM unit :=
  l ← gets link;
  if opt =? 0 then mret tt
  else if negb (cm2_is_eth_type (if_type l)) then mret tt
  else if Z.testbit opt CM2_RESTORE_IP then cm2_ovsdb_refresh_dhcp (uplink_name l)
  else if Z.testbit opt CM2_RESTORE_MAIN_LINK then cm2_restart_iface (uplink_name l)
  else cm2_restore_switch_cfg opt.
(** [cm2_stability_handle_fatal_state] *)
Definition cm2_stability_handle_fatal_state (counter : Z) : CM unit :=
  if counter <=? 0 then mret tt
  else
    s ← gets (λ s, s);
    if cm2_is_config_via_ble_enabled cfg && bool_decide (dev_type s = CM2_DEVICE_NONE)
       && (negb (is_used (link s)) || cm2_is_eth_type (if_type (link s)))
    then out (OBleConnectable true)
    else
      offline ← cm2_enable_gw_offline e;
      if (offline : bool) then mret tt
      else
        ok ← cm2_vtag_stability_check cfg self;
        dev ← gets dev_type;
        name ← get_if_name;
        when (ok && negb (bool_decide (dev = CM2_DEVICE_ROUTER))
              && (CONFIG_CM2_STABILITY_THRESH_FATAL cfg <? counter + 1))
          (out ODumpDebug;; out (OTcpdump false name);; out OWdtPing;; out ORestartManagers).

(** *** The result of a check *)

Definition next_counter (n : Z) : Z := if n <? 0 then 1 else n + 1.
(** The repairs after [counter] failures; the last test is the program's
    [counter % thresh + 1 == 0]. *)
Definition repairs (counter thresh ropt : Z) : CM Z :=
  ropt ← cm2_restore_switch_cfg_params counter (thresh + 2) ropt;
  r ← rem_by counter thresh;
  let ropt := if r =? 0 then Z.lor ropt (bit CM2_RESTORE_IP) else ropt in
  mret (if r + 1 =? 0 then Z.lor ropt (bit CM2_RESTORE_MAIN_LINK) else ropt).
(** The link of a bridge whose port is gone. *)
Definition broken_bridge (con : uplink_row) : CM bool :=
  l ← gets link;
  match up_bridge con with
  | Some b =>
      if is_bridge l && bool_decide (bridge_name l = b)
      then ok ← ask e (λ a, cm2_ovsdb_validate_bridge_port_conf a b (if_name l)); mret (negb ok)
      else mret false
  | None => mret false
  end.
Definition process_broken_bridge (name : string) (con : uplink_row) : CM unit :=
  let counter := next_counter (unreachable_link_counter con) in
  counter ←
    (if counter =? CONFIG_CM2_STABILITY_THRESH_LINK cfg then
       out (ONetworkState false name);;
       ret ← ask e (λ a, cm2_ovsdb_set_Wifi_Inet_Config_network_state a false name);
       when ret (upd_link (set_restart_pending true));;
       out (ONetworkState true name);;
       if CONFIG_CM2_STABILITY_THRESH_FATAL cfg <? counter + 1
       then cm2_stability_handle_fatal_state counter;; mret 0
       else mret counter
     else mret counter);
  out (OLinkCounter name counter).
Definition process_router (name : string) (con : uplink_row) (c : target_connectivity_check_t) (ropt : Z) : CM Z :=
  let old := unreachable_router_counter con in
  let bad := negb (router_ipv4_state c) && negb (router_ipv6_state c) in
  let counter := if bad then next_counter old else 0 in
  ropt ← (if bad then repairs counter (CONFIG_CM2_STABILITY_THRESH_ROUTER cfg) ropt else mret ropt);
  when (negb bad && CONFIG_CM2_USE_TCPDUMP cfg && (CONFIG_CM2_STABILITY_THRESH_TCPDUMP cfg <=? old))
    (out (OTcpdump false name));;
  out (ORouterCounter name counter);;
  l ← gets link;
  when (CONFIG_CM2_USE_TCPDUMP cfg && (counter =? CONFIG_CM2_STABILITY_THRESH_TCPDUMP cfg)
        && cm2_is_eth_type (if_type l)) (out (OTcpdump true name));;
  when (old + 1 =? CONFIG_CM2_STABILITY_THRESH_FATAL cfg) (out (OTcpdump false name));;
  cm2_stability_handle_fatal_state old;;
  mret ropt.
Definition process_internet (name : string) (con : uplink_row) (c : target_connectivity_check_t) (ropt : Z) : CM Z :=
  let bad := negb (internet_ipv4_state c) && negb (internet_ipv6_state c) in
  let counter := if bad then next_counter (unreachable_internet_counter con) else 0 in
  ropt ← (if bad then repairs counter (CONFIG_CM2_STABILITY_THRESH_INTERNET cfg) ropt else mret ropt);
  out (OInternetCounter name counter);;
  mret ropt.
(** [cm2_connection_req_stability_process] *)
Definition cm2_connection_req_stability_process (opts : Z) (db_update status : bool)
    (c : target_connectivity_check_t) : CM bool :=
  p ← stability_process_status e opts status c;
  match p with
  | inl b => mret b
  | inr con =>
      if negb db_update then mret status
      else
        name ← get_if_name;
        broken ← broken_bridge con;
        if (broken : bool) then process_broken_bridge name con;; mret false
        else
          when (has_opt opts LINK_CHECK)
            (out (OLinkCounter name (if link_state c then 0 else next_counter (unreachable_link_counter con))));;
          ropt ← (if has_opt opts ROUTER_CHECK then process_router name con c 0 else mret 0);
          ropt ← (if has_opt opts INTERNET_CHECK then process_internet name con c ropt else mret ropt);
          when (has_opt opts NTP_CHECK) (out (ONtpState name (ntp_state c)));;
          cm2_restore_connection ropt;;
          mret status
  end.

(** *** The child process *)

(** [cm2_util_cstate2mask], [cm2_util_mask2cstate] *)
Definition cm2_util_cstate2mask (ok : bool) (c : target_connectivity_check_t) : Z :=
  foldr Z.lor 0 (imap (λ i b, if (b : bool) then bit (Z.of_nat i) else 0)
    [ok; link_state c; router_ipv4_state c; router_ipv6_state c; internet_ipv4_state c; internet_ipv6_state c;
     internet_state c; ntp_state c]).
Definition cm2_util_mask2cstate (mask : Z) : bool * target_connectivity_check_t :=
  (Z.testbit mask 0,
   CState (Z.testbit mask 1) (Z.testbit mask 2) (Z.testbit mask 3) (Z.testbit mask 4) (Z.testbit mask 5)
     (Z.testbit mask 6) (Z.testbit mask 7)).
(** [cm2_util_req_stability_cb]: the child ended, with this exit status when it exited. *)
Definition cm2_util_req_stability_cb (status : option Z) : CM unit :=
  let mask := default 255 status in
  let '(ok, c) := cm2_util_mask2cstate mask in
  update ← gets stability_update_now;
  repeat ← gets stability_repeat;
  opts ← gets stability_opts_now;
  modify (set_stability_opts_now 0);;
  modify (set_stability_update_now false);;
  cm2_connection_req_stability_process opts update ok c;;
  when repeat
    (if ok then modify (set_stability_repeat false)
     else
       next ← gets stability_opts_next;
       when (next =? 0) (modify (set_stability_opts_next opts)));;
  cm2_util_req_stability_check_recalc e.
(** [cm2_connection_stability_check], [cm2_stability_cb] *)
Definition cm2_connection_stability_check : CM unit :=
  s ← gets (λ s, s);
  idle ← (if connected s && negb (blocked (ipv4 (link s))) && negb (blocked (ipv6 (link s)))
          then low ← ask e cm2_cpu_is_low_loadavg; mret (negb low) else mret false);
  if (idle : bool) then mret tt
  else
    let opts := Z.lor (Z.lor LINK_CHECK ROUTER_CHECK) NTP_CHECK in
    cm2_connection_req_stability_check_async e (if connected s then opts else Z.lor opts INTERNET_CHECK) true false.
Definition cm2_stability_cb : CM unit :=
  run ← gets run_stability;
  when run cm2_connection_stability_check.
End stability.
