(* ===== verification/Cm2Inv.v ===== *)
(** Connection manager: the abstraction the proofs about the state machine use.

    [view] keeps the fields that decide which state comes next; [vwp m Q v] says that
    [m] terminates without a fault from every state with the view [v] and that [Q]
    holds of its value and of the view it ends in.  Commands that only touch the other
    fields ([keeps]) leave the view alone. *)
From S2P Require Import Prelude CommonUtil Cm2Types Cm2Event.
#[local] Open Scope Z_scope.

Definition view_link (l : cm2_main_link_t) : cm2_main_link_t :=
  set_is_used (is_used l) (set_vtag (Vtag (vt_state (vtag l)) 0 0 0) zero_link).
Definition view (s : cm2_state_t) : cm2_state_t :=
  G (state s) (reason s) (dest s) (state_changed s) (connected s) false (timestamp s) (disconnects s)
    (addr_redirector s) (addr_manager s) false 0 0 false false false (view_link (link s)) zero_link 0 false
    (have_manager s) (have_awlan s) (min_backoff s) (max_backoff s) false (target_type s) false
    (Cnts 0 0 0 0 0) CM2_DEVICE_NONE (Fails 0 0 0 0) (quiesce_timeout s) 0%nat [].

Definition vwp {A} (m : CM A) (Q : A → cm2_state_t → Prop) (v : cm2_state_t) : Prop :=
  ∀ s, view s = v → wp m (λ a s', Q a (view s')) s.
(** A command that terminates and keeps the view. *)
Class keeps {A} (m : CM A) : Prop := keeps_spec s : wp m (λ _ s', view s' = view s) s.

(** *** Rules *)

Lemma vwp_ret {A} (a : A) Q v : Q a v → vwp (mret a) Q v.
Proof. intros ? s <-. by apply wp_ret. Qed.
Lemma vwp_bind {A B} (m : CM A) (f : A → CM B) Q v :
  vwp m (λ a v', vwp (f a) Q v') v → vwp (m ≫= f) Q v.
Proof. intros Hm s Hs. apply wp_bind. eapply wp_mono; [by apply Hm|]. intros a s' H. by apply H. Qed.
Lemma vwp_mono {A} (m : CM A) (Q Q' : A → cm2_state_t → Prop) v :
  vwp m Q v → (∀ a v', Q a v' → Q' a v') → vwp m Q' v.
Proof. intros Hm ? s Hs. eapply wp_mono; [by apply Hm|]. auto. Qed.
(** A field of the view, and any other reading of the state. *)
Lemma vwp_gets {A} (f : cm2_state_t → A) (Q : A → cm2_state_t → Prop) v :
  (∀ s, f (view s) = f s) → Q (f v) v → vwp (gets f) Q v.
Proof. intros Hf HQ s <-. apply wp_gets. by rewrite <-Hf. Qed.
Lemma vwp_gets_any {A} (f : cm2_state_t → A) (Q : A → cm2_state_t → Prop) v :
  (∀ s, view s = v → Q (f s) v) → vwp (gets f) Q v.
Proof. intros HQ s <-. by apply wp_gets, HQ. Qed.
Lemma vwp_modify f (Q : unit → cm2_state_t → Prop) v :
  (∀ s, view (f s) = f (view s)) → Q tt (f v) → vwp (modify f) Q v.
Proof. intros Hf HQ s <-. apply wp_modify. by rewrite Hf. Qed.
Lemma vwp_keeps {A} (m : CM A) `{!keeps m} (Q : A → cm2_state_t → Prop) v : (∀ a, Q a v) → vwp m Q v.
Proof. intros HQ s <-. eapply wp_mono; [by apply keeps_spec|]. by intros a s' ->. Qed.
Lemma vwp_upd_link f (Q : unit → cm2_state_t → Prop) v :
  (∀ l, view_link l = link v → Q tt (set_link (view_link (f l)) v)) → vwp (upd_link f) Q v.
Proof. intros HQ s <-. apply wp_modify. by apply HQ. Qed.
Lemma vwp_when b m Q v : (b = true → vwp m Q v) → (b = false → Q tt v) → vwp (when b m) Q v.
Proof. destruct b; cbn; [auto|]. intros _ H. by apply vwp_ret, H. Qed.

(** *** Commands that keep the view *)

Lemma keeps_ret {A} (a : A) : keeps (mret a).
Proof. done. Qed.
Lemma keeps_bind {A B} (m : CM A) (f : A → CM B) : keeps m → (∀ a, keeps (f a)) → keeps (m ≫= f).
Proof.
  intros Hm Hf s. apply wp_bind. eapply wp_mono; [apply Hm|]. cbn. intros a s' <-. apply Hf.
Qed.
Lemma keeps_gets {A} (f : cm2_state_t → A) : keeps (gets f).
Proof. done. Qed.
Lemma keeps_modify (f : cm2_state_t → cm2_state_t) : (∀ s, view (f s) = view s) → keeps (modify f).
Proof. intros Hf s. apply wp_modify, Hf. Qed.
Lemma keeps_when b m : keeps m → keeps (when b m).
Proof. by destruct b. Qed.
(** Compose the lemmas above along the structure of a helper; calls of other helpers
    are left to the instances. *)
Ltac keeps_step :=
  match goal with
  | |- ∀ _, _ => intros ?
  | |- keeps (mret _) => apply keeps_ret
  | |- keeps (mbind _ _) => apply keeps_bind
  | |- keeps (gets _) => apply keeps_gets
  | |- keeps (modify _) => apply keeps_modify; reflexivity
  | |- keeps (when _ _) => apply keeps_when
  | |- keeps (match ?x with _ => _ end) => destruct x
  | |- keeps _ => apply _
  end.
Ltac solve_keeps := repeat (cbn beta zeta; keeps_step).
#[export] Instance keeps_ask e {A} (q : cm2_env → A) : keeps (ask e q).
Proof. unfold ask. solve_keeps. Qed.
#[export] Instance keeps_out o : keeps (out o).
Proof. unfold out. solve_keeps. Qed.
Lemma keeps_upd_link f : (∀ l, view_link (f l) = view_link l) → keeps (upd_link f).
Proof. intros Hf. apply keeps_modify. intros s. unfold view. cbn. by rewrite Hf. Qed.
#[export] Instance keeps_upd_cnts f : keeps (upd_cnts f).
Proof. by apply keeps_modify. Qed.
#[export] Instance keeps_upd_ipv4 f : keeps (upd_ipv4 f).
Proof. by apply keeps_upd_link. Qed.
#[export] Instance keeps_upd_ipv6 f : keeps (upd_ipv6 f).
Proof. by apply keeps_upd_link. Qed.
Lemma keeps_upd_vtag f : (∀ v, vt_state (f v) = vt_state v) → keeps (upd_vtag f).
Proof. intros Hf. apply keeps_upd_link. intros l. unfold view_link. cbn. by rewrite Hf. Qed.

Section keeps_helpers.
Context (cfg : cm2_config) (e : nat → cm2_env).
#[global] Instance keeps_device_type t : keeps (cm2_update_device_type cfg e t).
Proof. unfold cm2_update_device_type. solve_keeps. Qed.
#[global] Instance keeps_link_ip : keeps (cm2_update_main_link_ip e).
Proof. unfold cm2_update_main_link_ip, cm2_util_get_ip_inet_state_cfg, cm2_get_uplink_name. solve_keeps. Qed.
#[global] Instance keeps_refresh_dhcp n : keeps (cm2_ovsdb_refresh_dhcp n).
Proof. unfold cm2_ovsdb_refresh_dhcp, cm2_is_extender. solve_keeps. Qed.
#[global] Instance keeps_default_bridge n t : keeps (cm2_ovsdb_set_default_wan_bridge cfg n t).
Proof. unfold cm2_ovsdb_set_default_wan_bridge. solve_keeps. Qed.
#[global] Instance keeps_port_tag n t b : keeps (cm2_ovsdb_update_Port_tag e n t b).
Proof. unfold cm2_ovsdb_update_Port_tag. solve_keeps. Qed.
#[global] Instance keeps_port_trunks n t : keeps (cm2_ovsdb_update_Port_trunks e n t).
Proof. unfold cm2_ovsdb_update_Port_trunks. solve_keeps. Qed.
#[global] Instance keeps_ble_status b n : keeps (cm2_ble_onboarding_set_status b n).
Proof. unfold cm2_ble_onboarding_set_status. solve_keeps. Qed.
#[global] Instance keeps_ble_apply : keeps cm2_ble_onboarding_apply_config.
Proof. unfold cm2_ble_onboarding_apply_config. solve_keeps. Qed.
#[global] Instance keeps_ble_state b n : keeps (cm2_set_ble_state b n).
Proof. unfold cm2_set_ble_state. solve_keeps. Qed.
#[global] Instance keeps_backhaul : keeps cm2_set_backhaul_update_ble_state.
Proof. unfold cm2_set_backhaul_update_ble_state. solve_keeps. Qed.
#[global] Instance keeps_phy_link : keeps (cm2_ovsdb_connection_update_ble_phy_link e).
Proof. unfold cm2_ovsdb_connection_update_ble_phy_link. solve_keeps. Qed.
#[global] Instance keeps_failures opts c : keeps (cm2_util_update_connectivity_failures opts c).
Proof.
  unfold cm2_util_update_connectivity_failures. apply keeps_modify. intros s.
  by destruct (update_failures _ _ _ _).
Qed.
#[global] Instance keeps_process_status opts b c : keeps (stability_process_status e opts b c).
Proof. unfold stability_process_status, cm2_is_extender, get_if_name. solve_keeps. Qed.
#[global] Instance keeps_check opts : keeps (cm2_connection_req_stability_check e opts).
Proof. unfold cm2_connection_req_stability_check, get_if_name. solve_keeps. Qed.
#[global] Instance keeps_recalc : keeps (cm2_util_req_stability_check_recalc e).
Proof. unfold cm2_util_req_stability_check_recalc. solve_keeps. Qed.
#[global] Instance keeps_check_async opts b r : keeps (cm2_connection_req_stability_check_async e opts b r).
Proof. unfold cm2_connection_req_stability_check_async, cm2_util_add_ip_opts. solve_keeps. Qed.
#[global] Instance keeps_manager_target t : keeps (cm2_ovsdb_set_Manager_target e t).
Proof. unfold cm2_ovsdb_set_Manager_target. solve_keeps. Qed.
#[global] Instance keeps_gw_offline : keeps (cm2_enable_gw_offline e).
Proof. unfold cm2_enable_gw_offline, cm2_is_connected_to. solve_keeps. Qed.
#[global] Instance keeps_disable_gw_offline : keeps (cm2_disable_gw_offline_state e).
Proof. unfold cm2_disable_gw_offline_state. solve_keeps. Qed.
#[global] Instance keeps_restore_bridge : keeps cm2_restore_bridge_config.
Proof. unfold cm2_restore_bridge_config. solve_keeps. Qed.
#[global] Instance keeps_link_check b r : keeps (extender_link_check e b r).
Proof. unfold extender_link_check, cm2_is_extender. solve_keeps. Qed.
#[global] Instance keeps_count_resolve : keeps (count_resolve_fail cfg).
Proof. unfold count_resolve_fail. solve_keeps. Qed.
#[global] Instance keeps_count_con : keeps (count_ovs_con cfg).
Proof. unfold count_ovs_con. solve_keeps. Qed.
#[global] Instance keeps_connected_first : keeps (connected_first cfg e).
Proof. unfold connected_first, get_if_name. solve_keeps. Qed.
#[global] Instance keeps_report : keeps report_disconnects.
Proof. unfold report_disconnects. solve_keeps. Qed.
End keeps_helpers.
(** The instances are found by the head symbol. *)
#[global] Typeclasses Opaque cm2_update_device_type cm2_update_main_link_ip cm2_ovsdb_refresh_dhcp
  cm2_ovsdb_set_default_wan_bridge cm2_ovsdb_update_Port_tag cm2_ovsdb_update_Port_trunks
  cm2_ble_onboarding_set_status cm2_ble_onboarding_apply_config cm2_set_ble_state cm2_set_backhaul_update_ble_state
  cm2_ovsdb_connection_update_ble_phy_link cm2_util_update_connectivity_failures stability_process_status
  cm2_connection_req_stability_check cm2_util_req_stability_check_recalc cm2_connection_req_stability_check_async
  cm2_ovsdb_set_Manager_target cm2_enable_gw_offline cm2_disable_gw_offline_state cm2_restore_bridge_config
  extender_link_check count_resolve_fail count_ovs_con connected_first report_disconnects ask out upd_cnts upd_ipv4
  upd_ipv6.

(** *** The invariant *)

Definition addr_ok (a : cm2_addr_t) : Prop :=
  (updated a = true → valid a = true) ∧ (∀ i, ai_curr a = Some i → (i < length (ai_list a))%nat).
Definition has_timeout (st : cm2_state_e) : bool :=
  match st with
  | CM2_STATE_INIT | CM2_STATE_OVS_INIT | CM2_STATE_CONNECTED => false
  | _ => true
  end.
Definition pending (v : cm2_state_t) : Prop := vt_state (vtag (link v)) = CM2_VTAG_PENDING.
Definition tables (v : cm2_state_t) : Prop := have_awlan v = true ∧ have_manager v = true.
(** A state that agrees with the flag of the connection. *)
Definition sane (v : cm2_state_t) : Prop :=
  (state v = CM2_STATE_CONNECTED → connected v = true) ∧
  (state v = CM2_STATE_QUIESCE_OVS → connected v = false) ∧
  state v ≠ CM2_STATE_INTERNET.
(** Where the machine may wait for the next event. *)
Definition rest (v : cm2_state_t) : Prop := sane v ∧ state v ≠ CM2_STATE_INIT.

Section invariant.
(** The clock during one event stays in the window [t0, t0 + D), [D] being at most the
    shortest timeout. *)
Context (cfg : cm2_config) (e : nat → cm2_env) (t0 D : Z).
Class clock_ok : Prop := {
  clock_window n : t0 ≤ time_monotonic (e n) < t0 + D;
  clock_short : 0 < D ≤ CM2_FAST_RECONNECT_TIMEOUT;
  clock_backoff : D ≤ CONFIG_CM2_OVS_SHORT_BACKOFF cfg < 2 ^ 31 }.
Definition inv (v : cm2_state_t) : Prop :=
  addr_ok (addr_redirector v) ∧ addr_ok (addr_manager v) ∧
  D ≤ min_backoff v < max_backoff v ∧ max_backoff v < 2 ^ 31 ∧ D ≤ quiesce_timeout v.
(** The current state was entered during this event. *)
Definition fresh (v : cm2_state_t) : Prop := t0 ≤ timestamp v.
(** What every step keeps: a change of state resets the timestamp. *)
Definition chg (v v' : cm2_state_t) : Prop :=
  fresh v' ∨ (state v' = state v ∧ timestamp v' = timestamp v).
Context `{!clock_ok}.

Lemma chg_refl v : chg v v.
Proof. by right. Qed.
Lemma chg_trans v1 v2 v3 : chg v1 v2 → chg v2 v3 → chg v1 v3.
Proof. unfold chg, fresh. intros [?|[? E]] [?|[? E']]; [by left|left; by rewrite E'|by left|right; split; congruence]. Qed.
Lemma chg_fresh v v' : chg v v' → fresh v → fresh v'.
Proof. unfold chg, fresh. intros [?|[_ ->]]; auto. Qed.

(** *** Time and state *)

Lemma vwp_ask {A} (q : cm2_env → A) (Q : A → cm2_state_t → Prop) v : (∀ n, Q (q (e n)) v) → vwp (ask e q) Q v.
Proof. intros HQ s <-. apply wp_bind, wp_gets, wp_bind, wp_modify, wp_ret, HQ. Qed.
Lemma vwp_reset_time_window (Q : unit → cm2_state_t → Prop) v :
  (∀ t, t0 ≤ t < t0 + D → Q tt (set_timestamp t v)) → vwp (cm2_reset_time e) Q v.
Proof.
  intros HQ. apply vwp_bind, vwp_ask. intros n. apply vwp_modify; [done|]. apply HQ, clock_window.
Qed.
Lemma vwp_reset_time (Q : unit → cm2_state_t → Prop) v :
  (∀ t, t0 ≤ t → Q tt (set_timestamp t v)) → vwp (cm2_reset_time e) Q v.
Proof. intros HQ. apply vwp_reset_time_window. intros t Ht. apply HQ. lia. Qed.
Lemma vwp_get_time (Q : Z → cm2_state_t → Prop) v : (∀ d, Q d v) → vwp (cm2_get_time e) Q v.
Proof.
  intros HQ. apply vwp_bind, vwp_ask. intros n. apply vwp_bind, vwp_gets; [done|]. apply vwp_ret, HQ.
Qed.
Lemma timeout_long v : inv v → has_timeout (state v) = true →
  D ≤ state_timeout (state v) (quiesce_timeout v).
Proof.
  intros (_ & _ & _ & _ & Hq). pose proof clock_short as [_ Hs]. unfold CM2_FAST_RECONNECT_TIMEOUT in Hs.
  destruct (state v); cbn; try done; intros _; unfold CM2_ONBOARD_LINK_SEL_TIMEOUT, CM2_DEFAULT_TIMEOUT,
    CM2_RESOLVE_TIMEOUT, CM2_CONNECT_TIMEOUT, CM2_FAST_RECONNECT_TIMEOUT; lia.
Qed.
(** A state that was entered during this event does not time out. *)
Lemma vwp_timeout (Q : bool → cm2_state_t → Prop) v :
  inv v → Q false v → (¬ fresh v → has_timeout (state v) = true → Q true v) → vwp (cm2_timeout e) Q v.
Proof.
  intros Hv Hf Ht. apply vwp_bind, vwp_gets; [done|].
  apply vwp_bind, vwp_bind, vwp_ask. intros n. apply vwp_bind, vwp_gets; [done|]. apply vwp_ret, vwp_ret.
  pose proof (clock_window n) as Hn.
  destruct (has_timeout (state v)) eqn:Eh.
  - pose proof (timeout_long v Hv Eh) as HD.
    destruct (state_timeout _ _ <=? _) eqn:El; [|by rewrite andb_false_r].
    apply Z.leb_le in El. destruct (negb _); [|done]. apply Ht; [unfold fresh; lia|done].
  - destruct (state v); cbn; try done; by cbn in Eh.
Qed.
(** A state that was entered long ago does. *)
Lemma vwp_timeout_late (Q : bool → cm2_state_t → Prop) v :
  has_timeout (state v) = true → inv v → timestamp v + state_timeout (state v) (quiesce_timeout v) ≤ t0 →
  Q true v → vwp (cm2_timeout e) Q v.
Proof.
  intros Hh Hv Hl HQ. apply vwp_bind, vwp_gets; [done|].
  apply vwp_bind, vwp_bind, vwp_ask. intros n. apply vwp_bind, vwp_gets; [done|]. apply vwp_ret, vwp_ret.
  pose proof (clock_window n). pose proof (timeout_long v Hv Hh). pose proof clock_short.
  rewrite (proj2 (Z.leb_le _ _)) by lia. rewrite (proj2 (Z.eqb_neq _ _)); [done|]. unfold CM2_NO_TIMEOUT. lia.
Qed.
Lemma vwp_set_state_window st (Q : unit → cm2_state_t → Prop) v :
  (state v = st → Q tt v) →
  (state v ≠ st → ∀ t, t0 ≤ t < t0 + D → Q tt (set_state_changed true (set_timestamp t (set_state st v)))) →
  vwp (cm2_set_state e st) Q v.
Proof.
  intros H1 H2. apply vwp_bind, vwp_gets; [done|]. case_bool_decide; [by apply vwp_ret, H1|].
  apply vwp_bind, vwp_modify; [done|]. apply vwp_bind, vwp_reset_time_window. intros t Ht.
  apply vwp_modify; [done|]. by apply H2.
Qed.
Lemma vwp_set_state st (Q : unit → cm2_state_t → Prop) v :
  (state v = st → Q tt v) →
  (state v ≠ st → ∀ t, t0 ≤ t → Q tt (set_state_changed true (set_timestamp t (set_state st v)))) →
  vwp (cm2_set_state e st) Q v.
Proof. intros H1 H2. apply vwp_set_state_window; [done|]. intros Hne t Ht. apply H2; [done|lia]. Qed.
Lemma vwp_state_changed (Q : bool → cm2_state_t → Prop) v :
  Q (state_changed v) (set_state_changed false v) → vwp cm2_state_changed Q v.
Proof.
  intros HQ. apply vwp_bind, vwp_gets; [done|]. apply vwp_bind, vwp_modify; [done|]. by apply vwp_ret.
Qed.
Lemma vwp_compute_backoff (Q : unit → cm2_state_t → Prop) v :
  inv v → (∀ q, D ≤ q ≤ Z.max (CONFIG_CM2_OVS_SHORT_BACKOFF cfg) (max_backoff v) → Q tt (set_quiesce_timeout q v)) →
  vwp (cm2_compute_backoff cfg e) Q v.
Proof.
  intros (_ & _ & Hb & Hm & _) HQ. pose proof clock_backoff as Hs. pose proof clock_short as HD.
  assert (∀ q, 0 ≤ q < 2 ^ 31 → wraps 32 q = q) as Hw.
  { intros q Hq. unfold wraps. rewrite Z.mod_small; lia. }
  apply vwp_bind, vwp_gets_any. intros s <-. cbn in Hb, Hm.
  assert (∀ q, D ≤ q ≤ Z.max (CONFIG_CM2_OVS_SHORT_BACKOFF cfg) (max_backoff s) → vwp (modify (set_quiesce_timeout
  (wraps 32 q))) Q (view s)) as Hset.
  { intros q Hq. apply vwp_modify; [done|]. rewrite Hw by lia. by apply HQ. }
  destruct (fast_backoff s); [apply Hset; lia|].
  apply vwp_bind, vwp_ask. intros n. destruct (urandom (e n)) as [r|]; [|apply Hset; lia].
  assert (wrapu 32 (max_backoff s - min_backoff s) = max_backoff s - min_backoff s) as ->.
  { unfold wrapu. rewrite Z.mod_small; lia. }
  cbn zeta. rewrite (proj2 (Z.eqb_neq (_ - _) 0)) by lia.
  pose proof (Z.mod_pos_bound (wrapu 32 r) (max_backoff s - min_backoff s) ltac:(lia)).
  set (x := _ `mod` _) in *. apply Hset. unfold wrapu. rewrite Z.mod_small; lia.
Qed.

(** *** Addresses *)

Definition put_addr (d : cm2_dest_e) (a : cm2_addr_t) (v : cm2_state_t) : cm2_state_t :=
  match d with CM2_DEST_REDIR => set_addr_redirector a v | CM2_DEST_MANAGER => set_addr_manager a v end.
Lemma vwp_upd_addr d f (Q : unit → cm2_state_t → Prop) v :
  Q tt (put_addr d (f (get_addr d v)) v) → vwp (upd_addr d f) Q v.
Proof. intros HQ. apply vwp_modify; destruct d; done. Qed.
Lemma get_put d a v : get_addr d (put_addr d a v) = a.
Proof. by destruct d. Qed.
Lemma put_put d a b v : put_addr d a (put_addr d b v) = put_addr d a v.
Proof. by destruct d. Qed.
Lemma vwp_get_addr d (Q : cm2_addr_t → cm2_state_t → Prop) v : Q (get_addr d v) v → vwp (cm2_get_addr d) Q v.
Proof. intros HQ. apply vwp_gets; [|done]. by destruct d. Qed.
Lemma vwp_curr_addr (Q : cm2_addr_t → cm2_state_t → Prop) v : Q (get_addr (dest v) v) v → vwp cm2_curr_addr Q v.
Proof. intros HQ. apply vwp_gets; [|done]. intros s. cbn. by destruct (dest s). Qed.

Lemma addr_ok_nocurr a : updated a = false → ai_curr a = None → addr_ok a.
Proof. intros Hu Hc. split; [congruence|]. by rewrite Hc. Qed.
Lemma vwp_resolve d (Q : bool → cm2_state_t → Prop) v :
  addr_ok (get_addr d v) →
  (∀ b a, addr_ok a → updated a = false → Q b (put_addr d a v)) → vwp (cm2_resolve e d) Q v.
Proof.
  intros [Hu Hc] HQ. apply vwp_bind, vwp_upd_addr, vwp_bind, vwp_get_addr. rewrite get_put.
  destruct (valid _) eqn:Ev; cbn [negb]; [|by apply vwp_ret, HQ].
  apply vwp_bind, vwp_upd_addr. rewrite get_put, put_put. apply vwp_bind, vwp_ask. intros n.
  destruct (getaddrinfo _ _) as [l|]; [|by apply vwp_ret, HQ].
  apply vwp_bind, vwp_upd_addr. rewrite get_put, put_put.
  destruct (existsb usable l); [|by apply vwp_ret, HQ].
  apply vwp_bind, vwp_upd_addr. rewrite get_put, put_put. by apply vwp_ret, HQ.
Qed.
(** A state whose current address differs in the position only. *)
Definition moved (v v' : cm2_state_t) : Prop :=
  ∃ c, v' = put_addr (dest v) (set_ai_curr c (get_addr (dest v) v)) v ∧
       addr_ok (set_ai_curr c (get_addr (dest v) v)).
Lemma moved_refl v : addr_ok (get_addr (dest v) v) → moved v v.
Proof.
  intros Ha. exists (ai_curr (get_addr (dest v) v)). destruct v as [? ? [] ? ? ? ? ? [] []]; by cbn in *.
Qed.
Lemma next_usable_lt l i j : next_usable l i = Some j → (j < length l)%nat.
Proof.
  unfold next_usable. destruct (list_find _ _) as [[k a]|] eqn:E; [|done]. cbn. intros [= <-].
  apply list_find_Some in E as [E _]. rewrite lookup_drop in E. apply lookup_lt_Some in E. lia.
Qed.
Lemma vwp_next_addrinfo (Q : option nat → cm2_state_t → Prop) v :
  addr_ok (get_addr (dest v) v) →
  (∀ o v', moved v v' → (∀ i, o = Some i → (i < length (ai_list (get_addr (dest v) v)))%nat) → Q o v') →
  vwp (cm2_get_next_addrinfo) Q v.
Proof.
  intros Ha HQ. apply vwp_bind, vwp_gets; [done|]. apply vwp_bind, vwp_curr_addr.
  destruct (next_usable _ _) as [i|] eqn:E.
  - apply vwp_bind, vwp_upd_addr, vwp_ret. apply next_usable_lt in E. apply HQ.
    + exists (Some i). split; [done|]. split; [apply Ha|]. by intros ? [= <-].
    + by intros ? [= <-].
  - apply vwp_ret, HQ; [by apply moved_refl|done].
Qed.
Lemma vwp_write_target o (Q : bool → cm2_state_t → Prop) v :
  addr_ok (get_addr (dest v) v) →
  (∀ i, o = Some i → (i < length (ai_list (get_addr (dest v) v)))%nat) →
  (∀ b v', moved v v' → Q b v') → vwp (cm2_write_target_addr e o) Q v.
Proof.
  intros Ha Ho HQ. apply vwp_bind, vwp_gets; [done|]. apply vwp_bind, vwp_curr_addr.
  destruct o as [i|]; [|by apply vwp_ret, HQ, moved_refl].
  destruct (lookup_lt_is_Some_2 (ai_list (get_addr (dest v) v)) i (Ho _ eq_refl)) as [x Hx].
  rewrite Hx. cbn [deref]. apply vwp_bind, vwp_ret. destruct (target_string _ _); [|by apply vwp_ret, HQ, moved_refl].
  apply vwp_bind, vwp_keeps; [apply _|]. intros r. apply vwp_bind, vwp_when; intros _.
  - apply vwp_upd_addr, vwp_ret, HQ. exists (Some i). split; [done|]. split; [apply Ha|].
    intros ? [= <-]. by apply Ho.
  - by apply vwp_ret, HQ, moved_refl.
Qed.
Lemma moved_trans v1 v2 v3 : moved v1 v2 → moved v2 v3 → moved v1 v3.
Proof.
  intros (c & -> & _) (d & -> & Hd). exists d. destruct v1 as [? ? [] ? ? ? ? ? [] []]; by cbn in *.
Qed.
Lemma moved_ok v v' : moved v v' → dest v' = dest v ∧ addr_ok (get_addr (dest v') v') ∧
  ai_list (get_addr (dest v') v') = ai_list (get_addr (dest v) v).
Proof. intros (c & -> & Hc). by destruct (dest v) eqn:E; cbn; rewrite E; cbn. Qed.
Lemma vwp_write_current (Q : bool → cm2_state_t → Prop) v :
  addr_ok (get_addr (dest v) v) → (∀ b v', moved v v' → Q b v') → vwp (cm2_write_current_target_addr e) Q v.
Proof.
  intros Ha HQ. apply vwp_bind, vwp_curr_addr. apply vwp_bind. destruct (ai_curr _) as [i|] eqn:Ec.
  - apply vwp_ret. apply vwp_write_target; auto. intros ? [= <-]. by apply Ha.
  - apply vwp_next_addrinfo; [done|]. intros o v' Hv' Ho. destruct (moved_ok _ _ Hv') as (E1 & E2 & E3).
    apply vwp_write_target; [done|by rewrite E3|]. intros b v'' Hm. eapply HQ, moved_trans; eauto.
Qed.
Lemma vwp_write_next (Q : bool → cm2_state_t → Prop) v :
  addr_ok (get_addr (dest v) v) → (∀ b v', moved v v' → Q b v') → vwp (cm2_write_next_target_addr e) Q v.
Proof.
  intros Ha HQ. apply vwp_bind, vwp_next_addrinfo; [done|]. intros o v' Hv' Ho.
  destruct (moved_ok _ _ Hv') as (E1 & E2 & E3).
  apply vwp_write_target; [done|by rewrite E3|]. intros b v'' Hm. eapply HQ, moved_trans; eauto.
Qed.
Lemma vwp_clear_manager (Q : unit → cm2_state_t → Prop) v :
  (∀ a, addr_ok a → updated a = false → Q tt (set_addr_manager a v)) → vwp cm2_clear_manager_addr Q v.
Proof.
  intros HQ. apply vwp_bind, vwp_keeps; [apply _|]. intros _. apply vwp_bind, vwp_bind, vwp_upd_addr.
  case_bool_decide; [|done]. apply vwp_bind, vwp_upd_addr, vwp_ret. rewrite get_put, put_put.
  apply vwp_ret, HQ; [by apply addr_ok_nocurr|done].
Qed.
End invariant.
