(* ===== verification/Cm2Thms.v ===== *)
(** Connection manager: one pass of the state machine keeps the invariant, and a pass in
    a state that was entered during this event decreases a measure, so that the loop of
    [cm2_update_state] ends. *)
From S2P Require Import Prelude CommonUtil Cm2Types Cm2Event Cm2Inv.
#[local] Open Scope Z_scope.

(** *** The measure *)

Definition b2n (b : bool) : nat := if b then 1 else 0.
Definition flags (v : cm2_state_t) : nat := b2n (updated (addr_redirector v)) + b2n (updated (addr_manager v)).
Definition rank (v : cm2_state_t) : nat :=
  match state v with
  | CM2_STATE_INIT | CM2_STATE_INTERNET => 12
  | CM2_STATE_LINK_SEL => if is_used (link v) then 11 else 3
  | CM2_STATE_WAN_IP => 10
  | CM2_STATE_NTP_CHECK => 9
  | CM2_STATE_OVS_INIT => 8
  | CM2_STATE_TRY_RESOLVE => 7
  | CM2_STATE_RE_CONNECT => 6
  | CM2_STATE_TRY_CONNECT | CM2_STATE_FAST_RECONNECT => 5
  | CM2_STATE_CONNECTED => if connected v then 1 else 3
  | CM2_STATE_QUIESCE_OVS => if connected v then 3 else 1
  end%nat.
Definition pot (v : cm2_state_t) : nat := (20 * flags v + rank v)%nat.
Lemma rank_bound v : (1 ≤ rank v ≤ 12)%nat.
Proof. unfold rank. destruct (state v), (is_used (link v)), (connected v); lia. Qed.
Lemma flags_bound v : (flags v ≤ 2)%nat.
Proof. unfold flags. destruct (updated (addr_redirector v)), (updated (addr_manager v)); cbn; lia. Qed.
Lemma pot_bound v : (pot v ≤ 52)%nat.
Proof. unfold pot. pose proof (rank_bound v). pose proof (flags_bound v). lia. Qed.

Section machine.
Context (cfg : cm2_config) (e : nat → cm2_env) (t0 D : Z) `{!clock_ok cfg e t0 D}.
#[local] Abbreviation inv := (inv D).
#[local] Abbreviation fresh := (fresh t0).
#[local] Abbreviation chg := (chg t0).

(** What every step of the machine keeps. *)
Record kept (v v' : cm2_state_t) : Prop := Kept {
  kept_inv : inv v';
  kept_tables : tables v → tables v';
  kept_chg : chg v v';
  kept_pending : pending v' → pending v }.
(** The result of a case of the second switch. *)
Record handled (v : cm2_state_t) (returned : bool) (v' : cm2_state_t) : Prop := Handled {
  handled_kept : kept v v';
  handled_rest : rest v';
  handled_pot : fresh v → returned = false →
    (pot v' ≤ pot v)%nat ∧ (state v' ≠ state v → pot v' < pot v)%nat }.
(** The recursive call for a failed VLAN tag. *)
Definition self_ok (self : cm2_reason_e → CM unit) : Prop :=
  ∀ v, inv v → tables v → vwp (self CM2_REASON_BLOCK_VTAG) (λ _ v', kept v v' ∧ rest v') v.

Lemma kept_refl v : inv v → kept v v.
Proof. split; auto using chg_refl. Qed.
Lemma kept_trans v1 v2 v3 : kept v1 v2 → kept v2 v3 → kept v1 v3.
Proof. intros [] []. split; eauto using chg_trans. Qed.

(** Close a goal about concrete updates of the view. *)
Ltac view_cbn := cbn [state reason dest state_changed connected is_con_stable timestamp disconnects addr_redirector
  addr_manager run_stability stability_opts_now link old_link have_manager have_awlan min_backoff max_backoff
  target_type quiesce_timeout set_state set_dest set_state_changed set_connected set_timestamp set_addr_redirector
  set_addr_manager set_disconnects set_link set_quiesce_timeout is_used vtag vt_state put_addr get_addr updated set_updated] in *.

Section with_self.
Context (self : cm2_reason_e → CM unit).
Let ok (v : cm2_state_t) : Prop := pending v → self_ok self.

(** A pending tag only grows older; the re-entrant call is [self_ok]. *)
Lemma vtag_check_spec v : inv v → tables v → ok v → rest v →
  vwp (cm2_vtag_stability_check cfg self) (λ _ v', kept v v' ∧ rest v') v.
Proof.
  intros Hv Ht Hok Hr. apply vwp_bind, vwp_gets_any. intros s <-.
  case_bool_decide as Hp; [|by apply vwp_ret; auto using kept_refl].
  apply vwp_bind, vwp_keeps; [by apply keeps_upd_vtag|]. intros _.
  apply vwp_bind, vwp_when; intros _; [|by apply vwp_ret; auto using kept_refl].
  eapply vwp_mono; [by apply (Hok Hp)|]. intros a v' [Hk Hr']. by apply vwp_ret.
Qed.
Lemma restart_skip_spec v : inv v → tables v → ok v → rest v →
  vwp (restart_managers_skip cfg e self) (λ _ v', kept v v' ∧ rest v') v.
Proof.
  intros Hv Ht Hok Hr. apply vwp_bind, vwp_gets_any. intros s _.
  destruct (cm2_is_wifi_type _); [by apply vwp_ret; auto using kept_refl|].
  apply vwp_bind. eapply vwp_mono; [by apply vtag_check_spec|]. intros b v' [Hk Hr'].
  destruct b; cbn [negb]; [|by apply vwp_ret].
  apply vwp_keeps; [|done]. unfold get_if_name, cm2_restart_iface. solve_keeps.
Qed.
Lemma trigger_restart_spec v : inv v → tables v → ok v → rest v →
  vwp (cm2_trigger_restart_managers cfg e self) (λ _ v', kept v v' ∧ rest v') v.
Proof.
  intros Hv Ht Hok Hr. apply vwp_bind. eapply vwp_mono; [by apply restart_skip_spec|]. intros skip v1 [Hk Hr1].
  apply vwp_bind, vwp_keeps; [apply _|]. intros _. apply vwp_bind, vwp_gets_any. intros s _.
  apply vwp_bind, vwp_keeps; [solve_keeps|]. intros _. destruct (skip && _).
  - eapply vwp_reset_time; [done|]. intros t Ht'. split; [|done]. eapply kept_trans; [done|].
    split; [apply Hk|done|by left|done].
  - apply vwp_keeps; [solve_keeps|done].
Qed.
Lemma restart_ovs_spec v : inv v → tables v → ok v → rest v →
  vwp (cm2_restart_ovs_connection cfg e self) (λ _ v', kept v v' ∧ rest v') v.
Proof.
  intros Hv Ht Hok Hr. apply vwp_bind, vwp_gets; [done|].
  assert (∀ st, st = CM2_STATE_LINK_SEL ∨ st = CM2_STATE_OVS_INIT →
    vwp (cm2_set_state e st) (λ _ v', kept v v' ∧ rest v') v) as Hset.
  { intros st Hst. eapply vwp_set_state; [done|by auto using kept_refl|]. intros _ t Hl.
    split; [split; try done; by left|]. by destruct Hst as [-> | ->]. }
  destruct (is_extender v); [|by apply Hset; right].
  apply vwp_bind, vwp_gets_any. intros s _. destruct (_ || _).
  - apply vwp_bind, vwp_keeps; [apply _|]. intros _. apply Hset. by left.
  - by apply trigger_restart_spec.
Qed.

(** The goals that remain about concrete updates of [v]. *)
Ltac solve_chg := first [by left | right; split; view_cbn; congruence].
Ltac solve_rest := unfold rest, sane in *; view_cbn; repeat split; intros; congruence.
Ltac solve_pot Hst := intros ?Hfr ?Hret; try done; try (exfalso; auto; fail);
  unfold pot, flags, rank in *; view_cbn; rewrite ?Hst in *;
  repeat match goal with H : _ = true |- _ => rewrite H in * | H : _ = false |- _ => rewrite H in * end;
  try (split; [|intros ?]); cbn [b2n] in *; try congruence; try lia.
Ltac solve_handled Hst := split; [split; [done|done|solve_chg|done]|solve_rest|solve_pot Hst].

(** The link starts again without a tag. *)
Lemma vwp_extender_init (Q : unit → cm2_state_t → Prop) v :
  (∀ l, vt_state (vtag l) = CM2_VTAG_NOT_USED → Q tt (set_link l v)) → vwp (cm2_extender_init_state e) Q v.
Proof.
  intros HQ. apply vwp_bind, vwp_modify; [done|]. apply vwp_bind, vwp_ask. intros n. apply vwp_bind.
  destruct (cm2_connection_get_used_link _) as [c|]; apply vwp_upd_link; intros l [= Hl1 Hl2];
    (apply vwp_bind, vwp_keeps; [solve_keeps|]; intros _); (apply vwp_keeps; [solve_keeps|]; intros []);
    by refine (HQ (view_link _) _).
Qed.
Lemma init_spec v : inv v → tables v → state v = CM2_STATE_INIT ∨ state v = CM2_STATE_INTERNET →
  vwp (state_init e) (handled v) v.
Proof.
  intros Hv Ht Hst. apply vwp_bind, vwp_gets; [done|]. apply vwp_bind. destruct (is_extender v); cbn [negb].
  - apply vwp_bind, vwp_extender_init. intros l Hl. do 3 (apply vwp_bind, vwp_keeps; [apply _|]; intros _).
    eapply vwp_set_state; [done|by destruct Hst; view_cbn; congruence|]. intros _ t Hlt. apply vwp_ret.
    split; [split; [done|done|solve_chg|unfold pending; view_cbn; congruence]|solve_rest|].
    destruct Hst as [Hst|Hst]; destruct (is_used l) eqn:?; solve_pot Hst.
  - eapply vwp_set_state; [done|by destruct Hst; congruence|]. intros _ t Hl. apply vwp_ret.
    destruct Hst as [Hst|Hst]; solve_handled Hst.
Qed.
Lemma link_sel_spec v : inv v → tables v → ok v → state v = CM2_STATE_LINK_SEL →
  vwp (state_link_sel cfg e self) (handled v) v.
Proof.
  intros Hv Ht Hok Hst. apply vwp_bind, vwp_state_changed, vwp_bind.
  assert (∀ v1, v1 = set_state_changed false v ∨ v1 = set_connected false (set_state_changed false v) →
    vwp (used ← gets (λ s, is_used (link s));
      (if (used : bool) then
         cm2_connection_req_stability_check_async e LINK_CHECK false false;;
         cm2_set_backhaul_update_ble_state;; cm2_set_state e CM2_STATE_WAN_IP
       else late ← cm2_timeout e; when late (cm2_trigger_restart_managers cfg e self));; mret false)
      (handled v) v1) as Hmain.
  { intros v1 Hv1. assert (inv v1) as Hi1 by (by destruct Hv1 as [-> | ->]).
    apply vwp_bind, vwp_gets; [done|]. apply vwp_bind.
    destruct (is_used (link v1)) eqn:Eu.
    - do 2 (apply vwp_bind, vwp_keeps; [apply _|]; intros _).
      eapply vwp_set_state; [done|destruct Hv1 as [-> | ->]; view_cbn; congruence|]. intros _ t Hl. apply vwp_ret.
      destruct Hv1 as [-> | ->]; solve_handled Hst.
    - apply vwp_bind. eapply vwp_timeout; [done|done| |].
      + apply vwp_ret, vwp_ret. destruct Hv1 as [-> | ->]; solve_handled Hst.
      + intros Hnf _. eapply vwp_mono.
        * apply trigger_restart_spec; destruct Hv1 as [-> | ->]; try done; solve_rest.
        * intros _ v' [Hk Hr]. apply vwp_ret. split; [|done|].
          -- eapply kept_trans; [|done]. destruct Hv1 as [-> | ->]; split; try done; solve_chg.
          -- intros Hf. destruct Hnf. by destruct Hv1 as [-> | ->]. }
  apply vwp_when; intros _; [|by apply Hmain; left].
  apply vwp_bind, vwp_keeps; [solve_keeps|]. intros _. apply vwp_bind, vwp_gets; [done|]. intros.
  do 3 (apply vwp_bind, vwp_keeps; [solve_keeps|]; intros _).
  apply vwp_bind, vwp_modify; [done|]. apply vwp_keeps; [solve_keeps|]. intros _. apply Hmain. by right.
Qed.

(** A case that gave up and restarts the connection. *)
Lemma give_up_spec v v1 (k : CM bool) :
  kept v v1 → tables v1 → ok v1 → rest v1 → (∀ w, vwp k (λ r v', r = true ∧ v' = w) w) →
  vwp (cm2_restart_ovs_connection cfg e self;; k) (λ r v', r = true ∧ handled v r v') v1.
Proof.
  intros Hk Ht Hok Hr Hw. apply vwp_bind. eapply vwp_mono; [apply restart_ovs_spec; try done; apply Hk|].
  intros _ v2 [Hk2 Hr2]. eapply vwp_mono; [apply Hw|]. intros r v' [-> ->].
  split; [done|]. split; [by eapply kept_trans|done|by intros].
Qed.
(** A timeout in a state of the link selection. *)
Lemma late_spec v v1 : kept v v1 → tables v1 → ok v1 → rest v1 → (fresh v → fresh v1) →
  (fresh v → (pot v1 ≤ pot v)%nat ∧ (state v1 ≠ state v → pot v1 < pot v)%nat) →
  ∀ k : CM unit, keeps k →
  vwp (late ← cm2_timeout e; if (late : bool) then cm2_trigger_restart_managers cfg e self else k)
    (λ _ v', handled v false v') v1.
Proof.
  intros Hk Ht Hok Hr Hf Hp k Hkeep. apply vwp_bind. eapply vwp_timeout; [done|apply Hk| |].
  - apply vwp_keeps; [done|]. intros _. split; auto.
  - intros Hnf _. eapply vwp_mono; [apply trigger_restart_spec; try done; apply Hk|].
    intros _ v' [Hk' Hr']. split; [by eapply kept_trans|done|]. intros Hfr. by destruct Hnf; apply Hf.
Qed.
Lemma wan_ip_spec v : inv v → tables v → ok v → state v = CM2_STATE_WAN_IP →
  vwp (state_wan_ip cfg e self) (handled v) v.
Proof.
  intros Hv Ht Hok Hst. apply vwp_bind, vwp_state_changed. apply vwp_bind, vwp_keeps; [apply _|]. intros _.
  apply vwp_bind, vwp_gets_any. intros s _. apply vwp_bind, vwp_keeps.
  { unfold cm2_util_add_ip_opts. solve_keeps. }
  intros r. apply vwp_bind. destruct r.
  - eapply vwp_set_state; [done|view_cbn; congruence|]. intros _ t Hl. apply vwp_ret. solve_handled Hst.
  - eapply vwp_mono; [apply (late_spec v)|]; [..|by intros a v' Hh; apply vwp_ret];
      try done; first [by split; try done; solve_chg | solve_rest].
Qed.
Lemma ntp_check_spec v : inv v → tables v → ok v → state v = CM2_STATE_NTP_CHECK →
  vwp (state_ntp_check cfg e self) (handled v) v.
Proof.
  intros Hv Ht Hok Hst. apply vwp_bind, vwp_state_changed. apply vwp_bind, vwp_keeps; [solve_keeps|]. intros _.
  apply vwp_bind, vwp_gets_any. intros s _. apply vwp_bind, vwp_keeps; [solve_keeps|]. intros r.
  apply vwp_bind. destruct r.
  - apply vwp_bind, vwp_keeps; [apply _|]. intros _. apply vwp_bind, vwp_gets_any. intros s' _.
    destruct (fast_reconnect s'); (eapply vwp_set_state; [done|view_cbn; congruence|]);
      intros _ t Hl; apply vwp_ret; solve_handled Hst.
  - eapply vwp_mono; [apply (late_spec v)|]; [..|by intros a v' Hh; apply vwp_ret];
      try done; first [by split; try done; solve_chg | solve_rest].
Qed.
Lemma ovs_init_spec v : inv v → tables v → state v = CM2_STATE_OVS_INIT →
  vwp (state_ovs_init e) (handled v) v.
Proof.
  intros Hv Ht Hst. apply vwp_bind, vwp_gets_any. intros s <-. apply vwp_bind.
  destruct (is_extender s && negb (is_used (link s))) eqn:Eu.
  - apply andb_prop in Eu as [_ Eu]. apply negb_true_iff in Eu.
    eapply vwp_set_state; [done|by rewrite Hst|]. intros _ t Hl. apply vwp_ret.
    split; [split; [done|done|solve_chg|done]|solve_rest|].
    intros _ _. unfold pot, flags, rank. rewrite Hst. cbn. rewrite Eu.
    destruct (updated (addr_redirector s)), (updated (addr_manager s)); cbn; lia.
  - apply vwp_bind, vwp_keeps; [apply _|]. intros _. apply vwp_bind, vwp_modify; [done|].
    apply vwp_bind, vwp_keeps; [solve_keeps|]. intros _. apply vwp_bind, vwp_gets; [done|].
    apply vwp_bind, vwp_when; intros _.
    + apply vwp_bind, vwp_clear_manager. intros a Ha Hu. apply vwp_bind, vwp_modify; [done|]. apply vwp_bind.
      eapply vwp_set_state; [done|view_cbn; by rewrite Hst|]. intros _ t Hl.
      apply vwp_modify; [done|]. apply vwp_keeps; [apply _|]. intros _. apply vwp_ret.
      destruct Hv as (Hv1 & Hv2 & Hv3).
      split; [split; [done|done|solve_chg|done]|solve_rest|].
      intros _ _. unfold pot, flags, rank. rewrite Hst. cbn. rewrite Hu.
      destruct (updated (addr_redirector s)), (updated (addr_manager s)); cbn; lia.
    + apply vwp_keeps; [apply _|]. intros _. apply vwp_ret. solve_handled Hst.
Qed.

(** The current address replaced by one that was resolved or tried. *)
Lemma inv_put v d a : inv v → addr_ok a → inv (put_addr d a v).
Proof. intros (H1 & H2 & H3). by destruct d. Qed.
Lemma inv_curr v : inv v → addr_ok (get_addr (dest v) v).
Proof. intros (H1 & H2 & _). by destruct (dest v). Qed.
Lemma flags_put v d a : updated a = false → (flags (put_addr d a v) ≤ flags v)%nat.
Proof. intros Hu. unfold flags. destruct d; cbn; rewrite Hu; cbn; destruct (updated _); cbn; lia. Qed.
Lemma flags_put_lt v d a : updated a = false → updated (get_addr d v) = true → (flags (put_addr d a v) < flags v)%nat.
Proof. intros Hu Hd. unfold flags. destruct d; cbn in *; rewrite Hu, Hd; cbn; lia. Qed.
Lemma rank_put v d a : rank (put_addr d a v) = rank v.
Proof. by destruct d. Qed.
Lemma kept_put v d a : inv v → addr_ok a → kept v (put_addr d a v).
Proof. intros. split; [by apply inv_put|by destruct d|right; by destruct d|by destruct d]. Qed.
Lemma rest_put v d a : rest v → rest (put_addr d a v).
Proof. by destruct d. Qed.
Lemma moved_facts v v' : inv v → moved v v' →
  kept v v' ∧ (rest v → rest v') ∧ flags v' = flags v ∧ rank v' = rank v ∧
  state v' = state v ∧ connected v' = connected v ∧ tables v' = tables v ∧ pending v' = pending v ∧
  state_changed v' = state_changed v ∧ timestamp v' = timestamp v.
Proof.
  intros Hv (c & -> & Hc). split; [by apply kept_put|].
  by destruct (dest v) eqn:E; cbn.
Qed.

(** TRY_RESOLVE; when the current address is new, it no longer is afterwards. *)
Definition resolved_post (v : cm2_state_t) (f : nat) (r : bool) (v' : cm2_state_t) : Prop :=
  handled v r v' ∧ (r = false → (flags v' ≤ f)%nat).
Lemma resolve_done_spec v v1 up : kept v v1 → tables v1 → ok v1 → (fresh v → fresh v1) →
  state v = CM2_STATE_TRY_RESOLVE → state v1 = CM2_STATE_TRY_RESOLVE → (flags v1 ≤ flags v)%nat →
  vwp (resolve_done cfg e self up) (resolved_post v (flags v1)) v1.
Proof.
  intros Hk Ht Hok Hf Hst Hst1 Hfl. pose proof (kept_inv _ _ Hk) as Hi.
  assert (rest v1) as Hr by solve_rest.
  apply vwp_bind, vwp_curr_addr. destruct (cm2_is_addr_resolved _).
  - apply vwp_bind, vwp_keeps; [apply _|]. intros _. apply vwp_bind.
    eapply vwp_set_state; [done|congruence|]. intros _ t Hl. apply vwp_ret. split; [|by intros _].
    split; [eapply kept_trans; [done|split; [done|done|solve_chg|done]]|solve_rest|].
    intros _ _. unfold pot, rank, flags in *. view_cbn. rewrite Hst. lia.
  - assert (vwp (upd_cnts (set_ovs_resolve 0);; out OResolveTimeout;; cm2_ovsdb_refresh_dhcp up;;
      count_resolve_fail cfg;; cm2_restart_ovs_connection cfg e self;; mret true) (resolved_post v (flags v1)) v1)
      as Hgive.
    { do 4 (apply vwp_bind, vwp_keeps; [apply _|]; intros _).
      eapply vwp_mono; [apply (give_up_spec v v1); try done; by intros; apply vwp_ret|].
      intros r v' [-> Hh]. by split. }
    assert (vwp (mret false) (resolved_post v (flags v1)) v1) as Hstay.
    { apply vwp_ret. split; [|done]. split; [done..|]. intros _ _. unfold pot, rank. rewrite Hst, Hst1.
      split; [lia|done]. }
    apply vwp_bind. eapply vwp_timeout; [done|done| |]; intros; apply vwp_bind, vwp_gets_any; intros s _;
      cbn [orb]; [|done]. by destruct (_ <? _).
Qed.
Lemma try_resolve_spec v up : inv v → tables v → ok v → state v = CM2_STATE_TRY_RESOLVE →
  vwp (state_try_resolve cfg e self up) (λ r v', handled v r v' ∧
    (r = false → state_changed v = true → updated (get_addr (dest v) v) = true → (flags v' < flags v)%nat)) v.
Proof.
  intros Hv Ht Hok Hst. apply vwp_bind, vwp_state_changed. apply vwp_bind, vwp_gets_any. intros s _.
  assert (kept v (set_state_changed false v)) as Hk by (split; [done|done|solve_chg|done]).
  destruct (state_changed v || retry_pending (link s)) eqn:Ef.
  - apply vwp_bind, vwp_keeps; [apply _|]. intros _. apply vwp_bind, vwp_gets_any. intros s1 _.
    apply vwp_bind, vwp_keeps; [solve_keeps|]. intros _. apply vwp_bind, vwp_gets; [done|]. view_cbn.
    apply vwp_bind, vwp_resolve; [by destruct (dest v) eqn:Ed; cbn; apply Hv|]. intros b a Ha Hu.
    set (v1 := put_addr (dest v) a (set_state_changed false v)).
    assert (kept v v1) as Hk1 by (eapply kept_trans; [done|by apply kept_put]).
    assert (state v1 = CM2_STATE_TRY_RESOLVE) as Hst1 by (by unfold v1; destruct (dest v)).
    assert (tables v1 ∧ ok v1 ∧ (fresh v → fresh v1)) as (Ht1 & Hok1 & Hf1) by (by unfold v1; destruct (dest v)).
    destruct b; cbn [negb].
    + eapply vwp_mono; [apply (resolve_done_spec v); try done; by apply (flags_put (set_state_changed false v))|].
      intros r v' [Hh Hfl]. split; [done|]. intros -> _ Hup. eapply Nat.le_lt_trans; [by apply Hfl|].
      apply (flags_put_lt (set_state_changed false v)); [done|]. by destruct (dest v).
    + apply vwp_bind, vwp_keeps; [apply _|]. intros _.
      eapply vwp_mono; [apply (give_up_spec v v1); [done|done|done| |]|].
      * unfold rest, sane. rewrite Hst1. done.
      * intros w. apply vwp_bind, vwp_keeps; [apply _|]. intros _. by apply vwp_ret.
      * intros r v' [-> Hh]. by split.
  - apply orb_false_iff in Ef as [Ef _].
    eapply vwp_mono; [by apply (resolve_done_spec v)|]. intros r v' [Hh _]. split; [done|]. congruence.
Qed.

(** Give up: count the failure and restart. *)
Lemma connect_failed_spec v v1 : kept v v1 → tables v1 → ok v1 → rest v1 →
  vwp (connect_failed cfg e self) (handled v) v1.
Proof.
  intros. apply vwp_bind, vwp_keeps; [apply _|]. intros _.
  eapply vwp_mono; [apply (give_up_spec v v1); try done; by intros; apply vwp_ret|].
  by intros r v' [_ Hh].
Qed.
Lemma re_connect_spec v : inv v → tables v → ok v → state v = CM2_STATE_RE_CONNECT →
  vwp (state_re_connect cfg e self) (handled v) v.
Proof.
  intros Hv Ht Hok Hst. apply vwp_bind, vwp_state_changed, vwp_bind.
  assert (∀ v1, v1 = set_state_changed false v ∨ v1 = set_connected false (set_state_changed false v) →
    vwp (con ← gets connected;
      if negb con then cm2_set_state e CM2_STATE_TRY_CONNECT;; mret false
      else late ← cm2_timeout e; if (late : bool) then connect_failed cfg e self else mret false)
      (handled v) v1) as Hmain.
  { intros v1 Hv1. assert (inv v1) as Hi1 by (by destruct Hv1 as [-> | ->]).
    assert (state v1 = CM2_STATE_RE_CONNECT) as Hst1 by (by destruct Hv1 as [-> | ->]).
    assert (kept v v1) as Hk by (destruct Hv1 as [-> | ->]; split; try done; solve_chg).
    apply vwp_bind, vwp_gets; [done|]. destruct (connected v1); cbn [negb].
    - apply vwp_bind. eapply vwp_timeout; [done|done| |].
      + apply vwp_ret. destruct Hv1 as [-> | ->]; solve_handled Hst.
      + intros _ _. apply connect_failed_spec; [done|by destruct Hv1 as [-> | ->]..|solve_rest].
    - apply vwp_bind. eapply vwp_set_state; [done|congruence|]. intros _ t Hl. apply vwp_ret.
      destruct Hv1 as [-> | ->]; solve_handled Hst. }
  apply vwp_when; intros _; [|by apply Hmain; left].
  apply vwp_bind, vwp_modify; [done|]. apply vwp_keeps; [solve_keeps|]. intros _. apply Hmain. by right.
Qed.

(** TRY_CONNECT after its first iteration. *)
Lemma connect_wait_spec v v1 : kept v v1 → tables v1 → ok v1 → (fresh v → fresh v1) →
  state v = CM2_STATE_TRY_CONNECT → state v1 = CM2_STATE_TRY_CONNECT → flags v1 = flags v →
  vwp (connect_wait cfg e self) (handled v) v1.
Proof.
  intros Hk Ht Hok Hf Hst Hst1 Hfl. pose proof (kept_inv _ _ Hk) as Hi.
  assert (rest v1) as Hr by solve_rest.
  apply vwp_bind, vwp_gets; [done|]. destruct (connected v1) eqn:Ec.
  - apply vwp_bind. eapply vwp_set_state; [done|congruence|]. intros _ t Hl. apply vwp_ret.
    split; [eapply kept_trans; [done|split; [done|done|solve_chg|done]]|solve_rest|].
    intros _ _. unfold pot, rank, flags in *. view_cbn. rewrite Hst, Ec, Hfl. lia.
  - apply vwp_bind. eapply vwp_timeout; [done|done| |].
    + apply vwp_ret. split; [done..|]. intros _ _. unfold pot, rank. rewrite Hst, Hst1. split; [lia|done].
    + intros Hnf _. apply vwp_bind, vwp_keeps; [apply _|]. intros _.
      apply vwp_bind, vwp_write_next; [by eapply inv_curr|]. intros b v2 Hm.
      destruct (moved_facts v1 v2 Hi Hm) as (Hk2 & Hr2 & Hfl2 & Hrk2 & Hst2 & _ & Ht2 & Hp2 & _).
      assert (kept v v2) as Hk' by (by eapply kept_trans). specialize (Hr2 Hr). destruct b.
      * apply vwp_bind. eapply vwp_reset_time; [done|]. intros t Hl. apply vwp_ret.
        split; [eapply kept_trans; [done|split; [apply Hk2|done|by left|done]]|done|].
        intros Hf'. by destruct Hnf; apply Hf.
      * apply connect_failed_spec; [done|by rewrite Ht2|unfold ok; by rewrite Hp2|done].
Qed.
Lemma try_connect_spec v : inv v → tables v → ok v → state v = CM2_STATE_TRY_CONNECT →
  updated (get_addr (dest v) v) = false → vwp (state_try_connect cfg e self) (handled v) v.
Proof.
  intros Hv Ht Hok Hst Hup. apply vwp_bind, vwp_gets; [done|]. apply vwp_bind, vwp_gets_any. intros s _.
  apply vwp_bind, vwp_keeps; [solve_keeps|]. intros _. apply vwp_bind, vwp_curr_addr. rewrite Hup.
  apply vwp_bind, vwp_state_changed.
  assert (kept v (set_state_changed false v)) as Hk by (split; [done|done|solve_chg|done]).
  set (v1 := set_state_changed false v) in *.
  destruct (state_changed v); [|by apply connect_wait_spec].
  apply vwp_bind, vwp_keeps; [apply _|]. intros _. apply vwp_bind, vwp_write_current; [by eapply (inv_curr v1)|].
  intros b v2 Hm. destruct (moved_facts v1 v2 Hv Hm) as (Hk2 & Hr2 & Hfl2 & _ & Hst2 & _ & Ht2 & Hp2 & _ & Hts2).
  assert (kept v v2) as Hk' by (by eapply kept_trans).
  assert (ok v2) as Hok2 by (unfold ok; by rewrite Hp2).
  destruct b; cbn [negb].
  - apply connect_wait_spec; [done|by rewrite Ht2|done|unfold Cm2Inv.fresh; by rewrite Hts2|done|by rewrite Hst2|by rewrite Hfl2].
  - apply connect_failed_spec; [done|by rewrite Ht2|done|apply Hr2; unfold v1; solve_rest].
Qed.

Lemma fast_reconnect_spec v : inv v → tables v → state v = CM2_STATE_FAST_RECONNECT →
  vwp (state_fast_reconnect e) (handled v) v.
Proof.
  intros Hv Ht Hst. apply vwp_bind, vwp_state_changed, vwp_bind.
  assert (∀ v1, kept v v1 → state v1 = CM2_STATE_FAST_RECONNECT → flags v1 = flags v → (fresh v → fresh v1) →
    vwp (con ← gets connected; when con (cm2_set_state e CM2_STATE_CONNECTED);;
      late ← cm2_timeout e; when late (cm2_set_state e CM2_STATE_QUIESCE_OVS);; mret false) (handled v) v1) as Hmain.
  { intros v1 Hk Hst1 Hfl Hf. pose proof (kept_inv _ _ Hk) as Hi. apply vwp_bind, vwp_gets; [done|].
    apply vwp_bind, vwp_when; intros Ec.
    - eapply vwp_set_state; [done|congruence|]. intros _ t Hl.
      apply vwp_bind. eapply vwp_timeout; [done|done| |by intros]. apply vwp_bind, vwp_ret, vwp_ret.
      split; [eapply kept_trans; [done|split; [done|done|solve_chg|done]]|solve_rest|].
      intros _ _. unfold pot, rank, flags in *. view_cbn. rewrite Hst, Ec, Hfl. lia.
    - apply vwp_bind. eapply vwp_timeout; [done|done| |].
      + apply vwp_bind, vwp_ret, vwp_ret. split; [done|solve_rest|]. intros _ _. unfold pot, rank.
        rewrite Hst, Hst1. split; [lia|done].
      + intros Hnf _. apply vwp_bind. eapply vwp_set_state; [done|congruence|]. intros _ t Hl. apply vwp_ret.
        split; [eapply kept_trans; [done|split; [done|done|solve_chg|done]]|solve_rest|].
        intros Hf'. by destruct Hnf; apply Hf. }
  assert (kept v (set_state_changed false v)) as Hk by (split; [done|done|solve_chg|done]).
  apply vwp_when; intros _; [|by apply Hmain].
  apply vwp_bind, vwp_modify; [done|]. apply vwp_bind, vwp_keeps; [apply _|]. intros _.
  apply vwp_bind. set (v1 := set_connected false _).
  apply vwp_write_current; [by eapply (inv_curr v1)|]. intros b v2 Hm. apply vwp_ret.
  destruct (moved_facts v1 v2 Hv Hm) as (Hk2 & _ & Hfl2 & _ & Hst2 & _ & _ & _ & _ & Hts2).
  apply Hmain; [|by rewrite Hst2|by rewrite Hfl2|unfold Cm2Inv.fresh; by rewrite Hts2].
  eapply kept_trans; [done|]. eapply kept_trans; [|done]. by split; [done|done|right|].
Qed.
Lemma connected_stable_spec v : inv v → state v = CM2_STATE_CONNECTED →
  vwp (connected_stable cfg) (λ _ v', ∃ l, v' = set_link l (set_disconnects 0 v) ∧ (pending v' → pending v) ∧ is_used l = is_used (link v)) v.
Proof.
  intros Hv Hst. apply vwp_bind, vwp_keeps; [solve_keeps|]. intros _. apply vwp_bind, vwp_modify; [done|].
  do 2 (apply vwp_bind, vwp_keeps; [solve_keeps|]; intros _).
  apply vwp_bind, vwp_gets_any. intros s Hs. apply vwp_when; intros Hp.
  - apply vwp_upd_link. intros l Hl. eexists. split; [done|]. split; [done|]. cbn in Hl. by rewrite <-Hl.
  - exists (link v). by destruct v.
Qed.
Lemma connected_spec v : inv v → tables v → state v = CM2_STATE_CONNECTED →
  vwp (state_connected cfg e) (handled v) v.
Proof.
  intros Hv Ht Hst. apply vwp_bind, vwp_state_changed. apply vwp_bind, vwp_gets; [done|].
  apply vwp_bind, vwp_keeps; [solve_keeps|]. intros _. apply vwp_bind, vwp_gets; [done|]. view_cbn.
  set (v1 := set_state_changed false v).
  assert (∀ l n, (pending (set_link l (set_disconnects n v1)) → pending v) → connected v = true →
    handled v false (set_link l (set_disconnects n v1))) as Hsame.
  { intros l n Hp Hc. split; [split; [done|done|by right|done]|unfold v1; solve_rest|].
    intros _ _. unfold pot, rank, flags, v1. cbn. rewrite Hst, Hc. split; [lia|done]. }
  assert (connected v = true → handled v false v1) as Hsame'.
  { intros Hc. specialize (Hsame (link v1) (disconnects v1)). by destruct v; apply Hsame. }
  apply vwp_bind. destruct (connected v) eqn:Ec.
  - apply vwp_bind, vwp_gets_any. intros s _. apply vwp_when; intros _; [|by apply vwp_ret, Hsame'].
    apply vwp_bind. eapply vwp_get_time. intros d. apply vwp_when; intros _; [|by apply vwp_ret, Hsame'].
    eapply vwp_mono; [by apply connected_stable_spec|]. intros _ v' (l & -> & Hp & _). apply vwp_ret. by apply Hsame.
  - apply vwp_bind. eapply vwp_set_state; [done|unfold v1; view_cbn; congruence|]. intros _ t Hl.
    apply vwp_keeps; [solve_keeps|]. intros _. apply vwp_ret. unfold v1.
    split; [split; [done|done|solve_chg|done]|solve_rest|solve_pot Hst].
Qed.

Lemma quiesce_spec v : inv v → tables v → ok v → state v = CM2_STATE_QUIESCE_OVS →
  vwp (state_quiesce_ovs cfg e self) (handled v) v.
Proof.
  intros Hv Ht Hok Hst. apply vwp_bind, vwp_keeps; [apply _|]. intros _.
  apply vwp_bind, vwp_state_changed, vwp_bind.
  assert (∀ q m, D ≤ q → vwp (con ← gets connected; when con (cm2_set_state e CM2_STATE_CONNECTED);;
      late ← cm2_timeout e;
      if (late : bool) then
        count_disconnect;; report_disconnects;;
        n ← gets disconnects;
        if CM2_MAX_DISCONNECTS <? n
        then modify (set_fast_backoff false);; cm2_restart_ovs_connection cfg e self;; mret true
        else cm2_set_state e CM2_STATE_FAST_RECONNECT;; mret false
      else mret false) (handled v) (set_quiesce_timeout q (set_disconnects m (set_state_changed false v)))) as Hmain.
  { intros q m Hq. set (v1 := set_quiesce_timeout q _). destruct Hv as (Hv1 & Hv2 & Hv3 & Hv4 & Hv5).
    assert (inv v1) as Hi by done. assert (kept v v1) as Hk by (by split; [done|done|right|]).
    apply vwp_bind, vwp_gets; [done|]. apply vwp_bind, vwp_when; intros Ec.
    - eapply vwp_set_state; [done|unfold v1; view_cbn; congruence|]. intros _ t Hl.
      apply vwp_bind. eapply vwp_timeout; [done|done| |by intros]. apply vwp_ret.
      split; [eapply kept_trans; [done|split; [done|done|solve_chg|done]]|unfold v1 in *; solve_rest|].
      intros _ _. unfold pot, rank, flags, v1 in *. cbn in *. rewrite Hst, Ec. lia.
    - assert (rest v1) as Hr by (unfold v1 in *; solve_rest).
      apply vwp_bind. eapply vwp_timeout; [done|done| |].
      + apply vwp_ret. split; [done..|]. intros _ _. unfold pot, rank, flags, v1. cbn. split; [lia|done].
      + intros Hnf _. apply vwp_bind, vwp_modify; [done|]. cbn beta.
        set (v2 := set_disconnects _ v1).
        assert (kept v v2) as Hk2 by (eapply kept_trans; [done|by split; [done|done|right|]]).
        apply vwp_bind, vwp_keeps; [apply _|]. intros _.
        apply vwp_bind, vwp_gets_any. intros s _. destruct (_ <? _).
        * apply vwp_bind, vwp_keeps; [solve_keeps|]. intros _.
          eapply vwp_mono; [apply (give_up_spec v v2); try done; by intros; apply vwp_ret|].
          by intros r v' [_ Hh].
        * apply vwp_bind. eapply vwp_set_state; [done|unfold v2, v1; view_cbn; congruence|]. intros _ t Hl. apply vwp_ret.
          split; [eapply kept_trans; [exact Hk2|split; [done|done|solve_chg|done]]|solve_rest|].
          intros Hf'. by destruct Hnf. }
  apply vwp_when; intros _.
  - do 2 (apply vwp_bind, vwp_keeps; [apply _|]; intros _). apply vwp_bind, vwp_modify; [done|]. cbn beta.
    do 2 (apply vwp_bind, vwp_keeps; [apply _|]; intros _). eapply vwp_compute_backoff; [done|done|].
    intros q [Hq _]. by apply Hmain.
  - replace (set_state_changed false v) with
      (set_quiesce_timeout (quiesce_timeout v) (set_disconnects (disconnects v) (set_state_changed false v)))
      by (by destruct v). apply Hmain, Hv.
Qed.

(** *** One pass *)

Lemma switch_spec v up : inv v → tables v → ok v →
  (state v = CM2_STATE_TRY_CONNECT → updated (get_addr (dest v) v) = false) →
  vwp (update_switch cfg e self up) (λ r v', handled v r v' ∧
    (r = false → state v = CM2_STATE_TRY_RESOLVE → state_changed v = true →
     updated (get_addr (dest v) v) = true → (flags v' < flags v)%nat)) v.
Proof.
  intros Hv Ht Hok Hup. apply vwp_bind, vwp_gets; [done|].
  destruct (state v) eqn:Est;
    try (eapply vwp_mono; [|intros r v' Hh; by split]; auto using init_spec, link_sel_spec, wan_ip_spec,
      ntp_check_spec, ovs_init_spec, re_connect_spec, try_connect_spec, fast_reconnect_spec, connected_spec,
      quiesce_spec; fail).
  eapply vwp_mono; [by apply try_resolve_spec|]. intros r v' [Hh Hfl]. split; auto.
Qed.
Lemma unhandled_spec v : inv v → tables v → ok v → rest v →
  vwp (update_unhandled cfg e self) (λ _ v', kept v v' ∧ sane v' ∧ (state v' = CM2_STATE_INIT → ¬ fresh v) ∧
    (fresh v → v' = v)) v.
Proof.
  intros Hv Ht Hok Hr. apply vwp_bind. eapply vwp_timeout; [done|done| |].
  - apply vwp_ret. split; [by apply kept_refl|]. split; [apply Hr|]. split; [by intros E; destruct Hr|done].
  - intros Hnf _. apply vwp_bind, vwp_keeps; [apply _|]. intros _. apply vwp_bind, vwp_gets; [done|].
    assert (∀ v1, kept v v1 → rest v1 → vwp (cm2_set_state e CM2_STATE_INIT)
      (λ _ v', kept v v' ∧ sane v' ∧ (state v' = CM2_STATE_INIT → ¬ fresh v) ∧ (fresh v → v' = v)) v1) as Hset.
    { intros v1 Hk1 Hr1. eapply vwp_set_state; [done|by destruct Hr1|]. intros _ t Hl.
      split; [eapply kept_trans; [done|split; [apply Hk1|done|by left|done]]|]. done. }
    apply vwp_bind, vwp_when; intros _; [|by apply Hset; [apply kept_refl|]].
    eapply vwp_mono; [by apply trigger_restart_spec|]. intros _ v1 [Hk1 Hr1]. by apply Hset.
Qed.

(** A pass may meet a pending tag unless its reason is to block the tag. *)
Definition needs (r : cm2_reason_e) (v : cm2_state_t) : Prop :=
  r = CM2_REASON_SET_NEW_VTAG ∨ (pending v ∧ r ≠ CM2_REASON_BLOCK_VTAG).
Record reasoned (r : cm2_reason_e) (v v' : cm2_state_t) : Prop := Reasoned {
  reasoned_inv : inv v';
  reasoned_tables : tables v → tables v';
  reasoned_chg : chg v v';
  reasoned_needs : pending v' → needs r v;
  reasoned_state : state v' = state v ∨ state v' = CM2_STATE_LINK_SEL ∨ state v' = CM2_STATE_WAN_IP;
  reasoned_change : r = CM2_REASON_CHANGE → v' = v }.
Lemma set_state_reasoned r st v v1 :
  reasoned r v v1 → r ≠ CM2_REASON_CHANGE → st = CM2_STATE_LINK_SEL ∨ st = CM2_STATE_WAN_IP →
  vwp (cm2_set_state e st) (λ _ v', reasoned r v v') v1.
Proof.
  intros [] Hr Hst. eapply vwp_set_state; [done|by split|]. intros _ t Hl. split; try done.
  - by left.
  - view_cbn. tauto.
Qed.
Lemma reason_spec r v ls up : inv v → vwp (update_reason cfg e r ls up) (λ _ v', reasoned r v v') v.
Proof.
  intros Hv.
  assert (r ≠ CM2_REASON_SET_NEW_VTAG → r ≠ CM2_REASON_BLOCK_VTAG → reasoned r v v) as Hsame.
  { intros. split; try done; [apply chg_refl|by right|by left]. }
  assert (∀ vt, reasoned CM2_REASON_SET_NEW_VTAG v (set_link vt v)) as Hnew.
  { intros vt. split; try done; [by right|by left|by left]. }
  assert (v = set_link (link v) v) as Hid by (by destruct v).
  destruct r; cbn [update_reason]; try (by apply vwp_ret, Hsame).
  - do 3 (apply vwp_bind, vwp_keeps; [apply _|]; intros _). apply vwp_bind, vwp_gets_any. intros s _.
    do 3 (apply vwp_bind, vwp_keeps; [solve_keeps|]; intros _). apply set_state_reasoned; auto.
  - apply set_state_reasoned; auto.
  - apply vwp_bind. assert (vwp (cm2_set_new_vtag e) (λ _ v', reasoned CM2_REASON_SET_NEW_VTAG v v') v) as Hn.
    { apply vwp_bind, vwp_gets_any. intros s _.
      assert (∀ b : bool, vwp (mret b) (λ _ v', reasoned CM2_REASON_SET_NEW_VTAG v v') v) as Hb.
      { intros b. apply vwp_ret. rewrite Hid at 2. apply Hnew. }
      destruct (_ && _); [by apply Hb|]. apply vwp_bind, vwp_keeps; [solve_keeps|]. intros [|]; cbn [negb]; [|by apply Hb].
      apply vwp_bind, vwp_keeps; [apply _|]. intros [|]; cbn [negb]; [|by apply Hb].
      apply vwp_bind, vwp_upd_link. intros l _. apply vwp_ret, Hnew. }
    eapply vwp_mono; [done|]. intros b v1 Hv1. apply vwp_when; intros _; [|done].
    apply vwp_bind, vwp_keeps; [apply _|]. intros _. apply set_state_reasoned; auto.
  - apply vwp_bind, vwp_bind, vwp_upd_link. intros l _. apply vwp_bind, vwp_gets_any. intros s _.
    apply vwp_keeps; [apply _|]. intros b.
    set (v1 := set_link _ v).
    assert (reasoned CM2_REASON_BLOCK_VTAG v v1) as Hv1 by (split; first [done | by right | by left]).
    apply vwp_when; intros _; [|done].
    apply vwp_bind, vwp_keeps; [apply _|]. intros _. apply set_state_reasoned; auto.
  - apply vwp_bind, vwp_gets; [done|]. apply vwp_when; intros _; [|by apply Hsame].
    apply vwp_bind, vwp_keeps; [apply _|]. intros _. apply vwp_bind, vwp_modify; [done|].
    apply vwp_bind, vwp_keeps; [solve_keeps|]. intros _. apply set_state_reasoned; [|done|auto].
    split; try done; [by right|by right|by left].
Qed.

(** New addresses: nothing, the redirector or the manager. *)
Inductive addressed (v : cm2_state_t) : cm2_state_t → Prop :=
  | addressed_none : addressed v v
  | addressed_redir v' : state v' = CM2_STATE_OVS_INIT → (flags v' < flags v)%nat → addressed v v'
  | addressed_manager v' : state v' = CM2_STATE_TRY_RESOLVE → dest v' = CM2_DEST_MANAGER →
      updated (addr_manager v') = true → flags v' = flags v →
      state v = CM2_STATE_TRY_RESOLVE ∨ state_changed v' = true → addressed v v'.
Lemma addresses_spec v ls : inv v → (state v = CM2_STATE_TRY_CONNECT → ls = false) →
  vwp (update_addresses e ls) (λ _ v', kept v v' ∧ addressed v v' ∧
    (state v' = CM2_STATE_TRY_CONNECT → updated (get_addr (dest v') v') = false)) v.
Proof.
  intros Hv Hls. apply vwp_bind, vwp_gets_any. intros s <-. destruct Hv as (Hv1 & Hv2 & Hv3).
  destruct (_ && valid (addr_redirector s)) eqn:Ec.
  - apply andb_prop in Ec as [Ec _]. apply andb_prop in Ec as [Ec Eu]. apply andb_prop in Ec as [Ec _].
    apply andb_prop in Ec as [Ec _]. apply negb_true_iff, bool_decide_eq_false in Ec.
    apply vwp_bind. eapply vwp_set_state; [done|done|]. intros _ t Hl. apply vwp_upd_addr.
    split; [split; [|done|by left|done]|split; [apply addressed_redir; [done|]|done]].
    + split; [split; [done|apply Hv1]|done].
    + unfold flags. cbn. cbn in Eu. rewrite Eu. cbn. lia.
  - apply vwp_when; intros Em.
    + apply andb_prop in Em as [Em _]. apply andb_prop in Em as [_ Em].
      apply vwp_bind. eapply vwp_set_state; [done| |].
      * intros Est. apply vwp_modify; [done|]. split; [split; try done; by right|].
        split; [by apply addressed_manager; try done; left|]. view_cbn. congruence.
      * intros Hne t Hl. apply vwp_modify; [done|]. split; [split; try done; by left|].
        split; [by apply addressed_manager; try done; right|]. done.
    + split; [by apply kept_refl|]. split; [constructor|]. intros Est. specialize (Hls Est). cbn in Est.
      rewrite Hls in Ec. unfold connected_to in Em. rewrite Est in Ec, Em. cbn in Ec, Em.
      destruct (dest s) eqn:Ed; cbn; rewrite ?Ed; cbn.
      * destruct (updated (addr_redirector s)) eqn:Eu; [|done]. cbn in Hv1. by rewrite (proj1 Hv1 Eu) in Ec.
      * destruct (updated (addr_manager s)) eqn:Eu; [|done]. cbn in Hv2. by rewrite (proj1 Hv2 Eu) in Em.
Qed.

(** One pass keeps the invariant; a pass that is repeated entered a new state, and it
    decreased the measure unless it was the first one. *)
Definition passed (r : cm2_reason_e) (v : cm2_state_t) (again : bool) (v' : cm2_state_t) : Prop :=
  inv v' ∧ tables v' ∧ chg v v' ∧ (pending v' → needs r v) ∧
  if again then fresh v' ∧ (fresh v → r = CM2_REASON_CHANGE → (pot v' < pot v)%nat) else rest v'.
Lemma pot_addressed v v2 v3 r : addressed v v2 → handled v2 r v3 → fresh v2 → r = false → state v3 ≠ state v →
  (state v2 = CM2_STATE_TRY_RESOLVE → state_changed v2 = true → updated (get_addr (dest v2) v2) = true →
   (flags v3 < flags v2)%nat) → (pot v3 < pot v)%nat.
Proof.
  intros Ha [_ _ Hp] Hf Hr Hne Hfl. specialize (Hp Hf Hr) as [Hle Hlt].
  pose proof (rank_bound v). pose proof (rank_bound v2). pose proof (rank_bound v3).
  destruct Ha as [|v2 Hst Hd|v2 Hst Hd Hu Hd' Hc].
  - by apply Hlt.
  - unfold pot in *. lia.
  - destruct Hc as [Hc|Hc].
    + assert (rank v2 = rank v) as Hrk by (unfold rank; by rewrite Hst, Hc).
      unfold pot in *. rewrite <-Hd', <-Hrk. apply Hlt. congruence.
    + rewrite Hd in Hfl. specialize (Hfl Hst Hc Hu). unfold pot in *. lia.
Qed.
Lemma pass_spec r v : inv v → tables v → (needs r v → self_ok self) →
  vwp (update_pass cfg e self r) (passed r v) v.
Proof.
  intros Hv Ht Hs. apply vwp_bind, vwp_gets_any. intros s Es.
  assert (have_awlan s = true ∧ have_manager s = true ∧ state s = state v) as (-> & -> & Est) by (by subst v; cbn in Ht; destruct Ht).
  cbn [negb]. rewrite Est. apply vwp_bind. eapply vwp_mono; [by apply reason_spec|]. intros _ v1 [Hi1 Ht1 Hc1 Hn1 Hs1 He1].
  apply vwp_bind. eapply vwp_mono; [apply addresses_spec; [done|]|].
  { intros E1. destruct Hs1 as [E|[E|E]]; [|congruence..]. by rewrite <-E, E1. }
  intros _ v2 ([Hi2 Ht2 Hc2 Hp2] & Ha2 & Hu2).
  assert (ok v2) as Hok2 by (intros Hp; auto).
  apply vwp_bind. eapply vwp_mono; [apply switch_spec; auto|]. intros ret v3 (Hh & Hfl).
  destruct (Hh) as [[Hi3 Ht3 Hc3 Hp3] Hr3 _].
  assert (chg v v3) as Hc03 by (eauto using chg_trans). destruct ret.
  { apply vwp_ret. split_and!; auto. }
  assert (ok v3) as Hok3 by (intros Hp; auto).
  apply vwp_bind. eapply vwp_mono; [apply unhandled_spec; auto|]. intros _ v4 ([Hi4 Ht4 Hc4 Hp4] & Hs4 & Hn4 & He4).
  assert (chg v v4) as Hc04 by (eauto using chg_trans).
  apply vwp_bind, vwp_gets; [done|]. apply vwp_ret. split_and!; auto. case_bool_decide as Eq; cbn [negb].
  - split; [done|]. intros Ei. specialize (Hn4 Ei). destruct Hc03 as [?|[E _]]; [done|].
    destruct Hr3 as [_ Hr3]. congruence.
  - split; [by destruct Hc04 as [?|[E _]]|]. intros Hf Hr.
    assert (fresh v2) as Hf2 by (eauto using chg_fresh). rewrite He4 in * by (eauto using chg_fresh).
    rewrite He1 in Ha2 by done. eapply pot_addressed; eauto.
Qed.
End with_self.

(** *** The loop *)

(** The passes after the first one, each with [self] given by [k] passes or more when a
    tag is pending. *)
Lemma update_loop_total k n v : inv v → tables v → fresh v → (pot v + k < n)%nat →
  (pending v → ∀ m, (k ≤ m)%nat → self_ok (cm2_update_state cfg e m)) →
  vwp (cm2_update_state cfg e n CM2_REASON_CHANGE) (λ _ v', kept v v' ∧ rest v') v.
Proof.
  revert v. induction n as [|n IH]; intros v Hv Ht Hf Hn Hs; [lia|].
  apply vwp_bind. eapply vwp_mono; [apply pass_spec; try done|].
  { intros [|[Hp _]]; [done|]. apply Hs; [done|lia]. }
  intros again v' (Hi' & Ht' & Hc' & Hn' & Hag).
  assert (pending v' → pending v) as Hp by (by intros Hp; destruct (Hn' Hp) as [|[]]).
  destruct again; [destruct Hag as [Hf' Hlt]|apply vwp_ret; by split].
  eapply vwp_mono; [apply IH; auto|]. { specialize (Hlt Hf eq_refl). lia. }
  intros _ v'' [Hk Hr]. split; [|done]. by eapply kept_trans.
Qed.
(** An event: a first pass for any reason, then the loop. *)
Lemma update_event k n r v : inv v → tables v → (k + 53 < n)%nat →
  (needs r v → ∀ m, (k ≤ m)%nat → self_ok (cm2_update_state cfg e m)) →
  vwp (cm2_update_state cfg e n r) (λ _ v', inv v' ∧ tables v' ∧ chg v v' ∧ (pending v' → needs r v) ∧ rest v') v.
Proof.
  intros Hv Ht Hn Hs. destruct n as [|n]; [lia|]. apply vwp_bind. eapply vwp_mono; [apply pass_spec; try done|].
  { intros Hneed. apply Hs; [done|lia]. }
  intros again v' (Hi' & Ht' & Hc' & Hn' & Hag). destruct again; [destruct Hag as [Hf' _]|by apply vwp_ret].
  pose proof (pot_bound v'). eapply vwp_mono; [apply (update_loop_total k); auto; lia|].
  intros _ v'' [[] Hr]. split_and!; eauto using chg_trans.
Qed.
Lemma update_block n : (53 < n)%nat → self_ok (cm2_update_state cfg e n).
Proof.
  intros Hn v Hv Ht. eapply vwp_mono; [apply (update_event 0); try done|].
  - by intros [|[]].
  - intros _ v' (? & ? & ? & Hp & ?). split; [|done]. split; auto. intros Hp'. by destruct (Hp Hp') as [|[]].
Qed.
Lemma update_total n r v : inv v → tables v → (107 < n)%nat →
  vwp (cm2_update_state cfg e n r) (λ _ v', inv v' ∧ tables v' ∧ rest v') v.
Proof.
  intros Hv Ht Hn. eapply vwp_mono; [apply (update_event 54); try done|].
  - intros _ m Hm. apply update_block. lia.
  - by intros _ v' (? & ? & _ & _ & ?).
Qed.
End machine.
