(* ===== verification/Cm2Run.v ===== *)
(** Connection manager: the reconnect cycle and sequences of events.

    After the connection to the manager is lost, a device that is not an extender alternates
    between QUIESCE_OVS and FAST_RECONNECT, one timeout each, counting the disconnects, until it
    gives up on the manager. *)
From S2P Require Import Prelude CommonUtil Cm2Types Cm2Event Cm2Inv Cm2Thms Cm2Stability.
#[local] Open Scope Z_scope.

(** Waiting in the state [st] of the cycle, entered by time [t]; [B] bounds the timeouts. *)
Record waiting (cfg : cm2_config) (D B : Z) (st : cm2_state_e) (d t : Z) (v : cm2_state_t) : Prop := Waiting {
  wa_inv : inv D v;
  wa_tables : tables v;
  wa_state : state v = st;
  wa_reason : reason v = CM2_REASON_TIMER;
  wa_first : state_changed v = false;
  wa_connected : connected v = false;
  wa_redir : updated (addr_redirector v) = false;
  wa_manager : updated (addr_manager v) = false;
  wa_extender : is_extender v = false;
  wa_disconnects : disconnects v = d;
  wa_time : timestamp v ≤ t;
  wa_quiesce : quiesce_timeout v ≤ B;
  wa_backoff : Z.max (CONFIG_CM2_OVS_SHORT_BACKOFF cfg) (max_backoff v) ≤ B }.

Section cycle.
Context (cfg : cm2_config) (e : nat → cm2_env) (t0 D B : Z) `{!clock_ok cfg e t0 D}.
Context (HB : CM2_FAST_RECONNECT_TIMEOUT ≤ B).
#[local] Abbreviation waiting := (waiting cfg D B).

(** Reasons that carry no news. *)
Definition plain (r : cm2_reason_e) : bool :=
  match r with
  | CM2_REASON_TIMER | CM2_REASON_AWLAN | CM2_REASON_MANAGER | CM2_REASON_CHANGE => true
  | _ => false
  end.
(** A pass without news: only the second switch matters. *)
Lemma quiet_pass self r v (Q : bool → cm2_state_t → Prop) :
  tables v → plain r = true →
  updated (addr_redirector v) = false → updated (addr_manager v) = false →
  (∀ up, vwp (returned ← update_switch cfg e self up;
     if (returned : bool) then mret false
     else update_unhandled cfg e self;; st ← gets state; mret (negb (bool_decide (state v = st)))) Q v) →
  vwp (update_pass cfg e self r) Q v.
Proof.
  intros Ht Hr H1 H2 HQ. apply vwp_bind, vwp_gets_any. intros s Es. subst v. cbn in H1, H2. destruct Ht as [Ha Hm].
  cbn in Ha, Hm. rewrite Ha, Hm. cbn [negb]. apply vwp_bind.
  assert (vwp (update_reason cfg e r (in_link_sel (state s)) (uplink_name (link s))) (λ _ v', v' = view s) (view s)) as Hw.
  { destruct r; try done; by apply vwp_ret. }
  eapply vwp_mono; [done|]. intros _ ? ->. apply vwp_bind, vwp_bind, vwp_gets_any. intros s' Es'.
  assert (updated (addr_redirector s') = false ∧ updated (addr_manager s') = false) as [E1 E2].
  { pose proof (f_equal addr_redirector Es'). pose proof (f_equal addr_manager Es'). cbn in *. by split; congruence. }
  rewrite E1, E2, !andb_false_r. cbn [andb when]. apply vwp_ret. apply HQ.
Qed.
(** Nothing is late in a state entered during this event. *)
Lemma quiet_unhandled self v (Q : bool → cm2_state_t → Prop) st :
  inv D v → fresh t0 v → Q (negb (bool_decide (st = state v))) v →
  vwp (update_unhandled cfg e self;; st' ← gets state; mret (negb (bool_decide (st = st')))) Q v.
Proof.
  intros Hv Hf HQ. apply vwp_bind, vwp_bind. eapply vwp_timeout; [done|done| |done].
  apply vwp_ret. apply vwp_bind, vwp_gets; [done|]. by apply vwp_ret.
Qed.

Lemma waiting_moved st d t v v' : waiting st d t v → moved v v' → waiting st d t v'.
Proof.
  intros [Hi] (c & -> & Hc). split; try (by destruct (dest v)); by apply inv_put.
Qed.

(** The first pass in FAST_RECONNECT and in QUIESCE_OVS. *)
Lemma fast_first self d t v : waiting CM2_STATE_FAST_RECONNECT d t (set_state_changed false v) → fresh t0 v →
  state_changed v = true →
  vwp (update_pass cfg e self CM2_REASON_CHANGE) (λ again v', again = false ∧ waiting CM2_STATE_FAST_RECONNECT d t v') v.
Proof.
  intros Hw Hf Hsc. destruct (Hw) as [Hi Ht Hst _ _ Hc H1 H2 _ _ _ _ _].
  apply quiet_pass; [done..|]. intros up.
  apply vwp_bind, vwp_bind, vwp_gets; [done|]. cbn in Hst. rewrite Hst.
  apply vwp_bind, vwp_state_changed. rewrite Hsc. apply vwp_bind, vwp_bind, vwp_modify; [done|].
  apply vwp_bind, vwp_keeps; [apply _|]. intros _. apply vwp_bind. set (v1 := set_connected false _).
  assert (waiting CM2_STATE_FAST_RECONNECT d t v1) as Hw1 by (by destruct Hw; split).
  apply vwp_write_current; [by eapply inv_curr|]. intros b v2 Hm. apply vwp_ret.
  assert (waiting CM2_STATE_FAST_RECONNECT d t v2) as Hw2 by (by eapply waiting_moved).
  assert (fresh t0 v2) as Hf2 by (by destruct Hm as (c & -> & _); destruct (dest v1)).
  destruct (Hw2) as [Hi2 _ Hst2 _ _ Hc2].
  apply vwp_bind, vwp_gets; [done|]. rewrite Hc2. apply vwp_bind, vwp_ret.
  apply vwp_bind. eapply vwp_timeout; [done|done| |done]. apply vwp_bind, vwp_ret, vwp_ret.
  apply quiet_unhandled; [done..|]. split; [|done]. by rewrite Hst2.
Qed.
Lemma quiesce_enter self d t v : waiting CM2_STATE_QUIESCE_OVS d t (set_state_changed false v) → fresh t0 v →
  state_changed v = true →
  vwp (update_pass cfg e self CM2_REASON_CHANGE) (λ again v', again = false ∧ waiting CM2_STATE_QUIESCE_OVS (d + 1) t v') v.
Proof.
  intros Hw Hf Hsc. destruct Hw as [Hi Ht Hst Hre _ Hc H1 H2 Hx Hd Hti Hq Hb].
  apply quiet_pass; [done..|]. intros up.
  apply vwp_bind, vwp_bind, vwp_gets; [done|]. cbn in Hst. rewrite Hst.
  apply vwp_bind, vwp_keeps; [apply _|]. intros _. apply vwp_bind, vwp_state_changed. rewrite Hsc. apply vwp_bind.
  do 2 (apply vwp_bind, vwp_keeps; [apply _|]; intros _). apply vwp_bind, vwp_modify; [done|]. cbn beta.
  do 2 (apply vwp_bind, vwp_keeps; [apply _|]; intros _). eapply vwp_compute_backoff; [done|done|].
  intros q Hq'. set (v1 := set_quiesce_timeout q _).
  assert (waiting CM2_STATE_QUIESCE_OVS (d + 1) t v1) as Hw1.
  { split; try done; [|cbn in *; congruence|cbn in *; lia].
    destruct Hi as (Hi1 & Hi2 & Hi3 & Hi4 & _). exact (conj Hi1 (conj Hi2 (conj Hi3 (conj Hi4 (proj1 Hq'))))). }
  assert (fresh t0 v1) as Hf1 by done. destruct (Hw1) as [Hi1 _ Hst1 _ _ Hc1].
  apply vwp_bind, vwp_gets; [done|]. rewrite Hc1. apply vwp_bind, vwp_ret.
  apply vwp_bind. eapply vwp_timeout; [done|done| |done]. apply vwp_ret.
  apply quiet_unhandled; [done..|]. split; [|done]. by rewrite Hst1.
Qed.

(** A timer event after the timeout of each of them. *)
Lemma fast_late n d t v : (1 < n)%nat → waiting CM2_STATE_FAST_RECONNECT d t v → t + B ≤ t0 →
  vwp (cm2_update_state cfg e n CM2_REASON_TIMER) (λ _ v', waiting CM2_STATE_QUIESCE_OVS (d + 1) (t0 + D) v') v.
Proof.
  intros Hn Hw Hl. destruct Hw as [Hi Ht Hst Hre Hsc Hc H1 H2 Hx Hd Hti Hq Hb].
  destruct n as [|[|n]]; [lia..|]. apply vwp_bind, quiet_pass; [done..|]. intros up.
  apply vwp_bind, vwp_bind, vwp_gets; [done|]. rewrite Hst. apply vwp_bind, vwp_state_changed. rewrite Hsc.
  apply vwp_bind, vwp_ret. apply vwp_bind, vwp_gets; [done|]. cbn [set_state_changed connected]. rewrite Hc.
  apply vwp_bind, vwp_ret. apply vwp_bind. eapply vwp_timeout_late; [done|change (has_timeout (state v) = true); by rewrite Hst|done| |].
  { cbn. rewrite Hst. cbn. lia. }
  apply vwp_bind. eapply vwp_set_state_window; [done|intros E; cbn in E; congruence|]. intros _ t' Ht'. apply vwp_ret.
  set (v1 := set_state_changed true _). assert (fresh t0 v1) as Hf by apply Ht'.
  apply quiet_unhandled; [done..|]. rewrite bool_decide_eq_false_2 by done. cbn [negb]. apply vwp_bind.
  eapply vwp_mono; [apply (quiesce_enter _ d (t0 + D)); try done; split; try done; cbn; lia|].
  intros ? v' [-> Hw]. by apply vwp_ret.
Qed.
Lemma quiesce_late n d t v : (1 < n)%nat → waiting CM2_STATE_QUIESCE_OVS d t v → t + B ≤ t0 →
  vwp (cm2_update_state cfg e n CM2_REASON_TIMER) (λ _ v',
    if CM2_MAX_DISCONNECTS <? d + 1 then state v' = CM2_STATE_OVS_INIT
    else waiting CM2_STATE_FAST_RECONNECT (d + 1) (t0 + D) v') v.
Proof.
  intros Hn Hw Hl. destruct Hw as [Hi Ht Hst Hre Hsc Hc H1 H2 Hx Hd Hti Hq Hb].
  destruct n as [|[|n]]; [lia..|]. apply vwp_bind, quiet_pass; [done..|]. intros up.
  apply vwp_bind, vwp_bind, vwp_gets; [done|]. rewrite Hst. apply vwp_bind, vwp_keeps; [apply _|]. intros _.
  apply vwp_bind, vwp_state_changed. rewrite Hsc. apply vwp_bind, vwp_ret.
  apply vwp_bind, vwp_gets; [done|]. cbn [set_state_changed connected]. rewrite Hc.
  apply vwp_bind, vwp_ret. apply vwp_bind. eapply vwp_timeout_late; [done|change (has_timeout (state v) = true); by rewrite Hst|done| |].
  { cbn. rewrite Hst. cbn. lia. }
  apply vwp_bind, vwp_modify; [done|]. cbn beta. apply vwp_bind, vwp_keeps; [apply _|]. intros _.
  apply vwp_bind, vwp_gets; [done|]. cbn [set_disconnects set_state_changed disconnects]. rewrite Hd.
  destruct (_ <? _).
  - apply vwp_bind, vwp_keeps; [solve_keeps|]. intros _. apply vwp_bind, vwp_bind, vwp_gets; [done|].
    replace (is_extender _) with false by (by rewrite <-Hx).
    eapply vwp_set_state_window; [done|intros E; cbn in E; congruence|]. intros _ t' Ht'. by apply vwp_ret, vwp_ret, vwp_ret.
  - apply vwp_bind. eapply vwp_set_state_window; [done|intros E; cbn in E; congruence|]. intros _ t' Ht'. apply vwp_ret.
    set (v1 := set_state_changed true _). assert (fresh t0 v1) as Hf by apply Ht'.
    apply quiet_unhandled; [done..|]. rewrite bool_decide_eq_false_2 by done. cbn [negb]. apply vwp_bind.
    eapply vwp_mono; [apply (fast_first _ (d + 1) (t0 + D)); try done; split; try done; cbn; lia|].
    intros ? v' [-> Hw]. by apply vwp_ret.
Qed.

(** The connection to the manager is lost. *)
Record online (d : Z) (v : cm2_state_t) : Prop := Online {
  on_inv : inv D v;
  on_awlan : have_awlan v = true;
  on_state : state v = CM2_STATE_CONNECTED;
  on_reason : reason v = CM2_REASON_TIMER;
  on_redir : updated (addr_redirector v) = false;
  on_manager : updated (addr_manager v) = false;
  on_extender : is_extender v = false;
  on_disconnects : disconnects v = d;
  on_quiesce : quiesce_timeout v ≤ B;
  on_backoff : Z.max (CONFIG_CM2_OVS_SHORT_BACKOFF cfg) (max_backoff v) ≤ B }.
Lemma lost_spec n d v : (1 < n)%nat → online d v →
  vwp (callback_Manager cfg e n (Some false)) (λ _ v', waiting CM2_STATE_QUIESCE_OVS (d + 1) (t0 + D) v') v.
Proof.
  intros Hn [Hi Ha Hst Hre H1 H2 Hx Hd Hq Hb]. destruct n as [|[|n]]; [lia..|].
  apply vwp_bind, vwp_bind, vwp_modify; [done|]. apply vwp_modify; [done|].
  set (v1 := set_connected false _). apply vwp_bind, quiet_pass; [done..|]. intros up.
  apply vwp_bind, vwp_bind, vwp_gets; [done|]. change (state v1) with (state v). rewrite Hst.
  apply vwp_bind, vwp_state_changed. apply vwp_bind, vwp_gets; [done|].
  change (is_extender _) with (is_extender v). rewrite Hx, andb_false_r.
  apply vwp_bind, vwp_ret. apply vwp_bind, vwp_gets; [done|].
  change (connected _) with false. apply vwp_bind, vwp_bind.
  eapply vwp_set_state_window; [done|intros E; cbn in E; congruence|]. intros _ t' Ht'.
  apply vwp_keeps; [solve_keeps|]. intros _. apply vwp_ret.
  set (v2 := set_state_changed true _). assert (fresh t0 v2) as Hf by apply Ht'.
  apply quiet_unhandled; [done..|]. rewrite bool_decide_eq_false_2 by done. cbn [negb]. apply vwp_bind.
  eapply vwp_mono; [apply (quiesce_enter _ d (t0 + D)); try done; split; try done; cbn; lia|].
  intros ? v' [-> Hw]. by apply vwp_ret.
Qed.
End cycle.

(** *** Runs of timer events *)

Fixpoint cm2_timers (cfg : cm2_config) (fuel : nat) (es : list (nat → cm2_env)) : CM unit :=
  match es with
  | [] => mret tt
  | e :: es => cm2_event_cb cfg e fuel;; cm2_timers cfg fuel es
  end.
(** Each event comes at least [B] seconds after the one before. *)
Inductive late_timers (cfg : cm2_config) (D B : Z) : Z → list (nat → cm2_env) → Prop :=
  | late_nil t : late_timers cfg D B t []
  | late_cons t e t0 es : clock_ok cfg e t0 D → t + B ≤ t0 → late_timers cfg D B (t0 + D) es →
      late_timers cfg D B t (e :: es).
(** The state of the cycle after [d] disconnects. *)
Definition cycle_state (d : Z) : cm2_state_e :=
  if Z.even d then CM2_STATE_FAST_RECONNECT else CM2_STATE_QUIESCE_OVS.

Lemma cycle_state_succ d : cycle_state d = CM2_STATE_FAST_RECONNECT ∧ cycle_state (d + 1) = CM2_STATE_QUIESCE_OVS ∨
  cycle_state d = CM2_STATE_QUIESCE_OVS ∧ cycle_state (d + 1) = CM2_STATE_FAST_RECONNECT ∧ Z.odd d = true.
Proof.
  unfold cycle_state. rewrite Z.add_1_r, Z.even_succ, <-Z.negb_even. destruct (Z.even d); cbn; tauto.
Qed.
Lemma cycle_run cfg D B fuel es d t v : CM2_FAST_RECONNECT_TIMEOUT ≤ B → (1 < fuel)%nat →
  late_timers cfg D B t es → waiting cfg D B (cycle_state d) d t v →
  d ≤ CM2_MAX_DISCONNECTS + 1 → d + Z.of_nat (length es) ≤ CM2_MAX_DISCONNECTS + 2 →
  vwp (cm2_timers cfg fuel es) (λ _ v',
    if d + Z.of_nat (length es) =? CM2_MAX_DISCONNECTS + 2 then state v' = CM2_STATE_OVS_INIT
    else ∃ t', waiting cfg D B (cycle_state (d + Z.of_nat (length es))) (d + Z.of_nat (length es)) t' v') v.
Proof.
  unfold CM2_MAX_DISCONNECTS. intros HB Hn. revert d t v. induction es as [|e es IH]; intros d t v Hl Hw Hd Hlen.
  - apply vwp_ret. cbn [length] in *. rewrite Z.add_0_r in *. rewrite (proj2 (Z.eqb_neq _ _)) by lia. eauto.
  - inversion Hl as [|? ? t0 ? Hck Hle Hl']; subst. cbn [length] in *.
    replace (d + Z.of_nat (S (length es))) with (d + 1 + Z.of_nat (length es)) in * by lia.
    apply vwp_bind, vwp_bind, vwp_gets; [done|]. rewrite (wa_reason _ _ _ _ _ _ _ Hw).
    apply vwp_bind, vwp_modify; [done|].
    replace (set_reason _ v) with v by (destruct Hw; by destruct v; cbn in *; subst).
    destruct (cycle_state_succ d) as [[E1 E2]|(E1 & E2 & Ho)]; rewrite E1 in Hw.
    + assert (d ≠ 11) by (intros ->; done).
      eapply vwp_mono; [by eapply fast_late|]. intros a v' Hw'. eapply IH; [done|by rewrite E2|lia|lia].
    + eapply vwp_mono; [by eapply quiesce_late|]. unfold CM2_MAX_DISCONNECTS. intros a v' Hw'.
      destruct (Z.ltb_spec 10 (d + 1)) as [Hlt|Hlt].
      * assert (d ≠ 10) by (intros ->; done). destruct es; [|cbn in Hlen; lia]. apply vwp_ret.
        cbn [length]. by rewrite (proj2 (Z.eqb_eq _ _)) by lia.
      * eapply IH; [done|by rewrite E2|lia|lia].
Qed.

(** ** Connection manager: sequences of events (timer, triggers, database callbacks,
    connectivity checks) keep the invariant of the state machine. *)

Inductive cm2_event :=
  | EvTimer | EvTrigger (r : cm2_reason_e) | EvManager (is_connected : option bool) | EvAwlan (c : awlan_change)
  | EvCheckDone (status : option Z) | EvStability.
Definition cm2_handle (cfg : cm2_config) (e : nat → cm2_env) (fuel : nat) (ev : cm2_event) : CM unit :=
  match ev with
  | EvTimer => cm2_event_cb cfg e fuel
  | EvTrigger r => cm2_trigger_update r
  | EvManager con => callback_Manager cfg e fuel con
  | EvAwlan c => callback_AWLAN_Node cfg e fuel c
  | EvCheckDone st => cm2_util_req_stability_cb cfg e (cm2_update_state cfg e fuel) st
  | EvStability => cm2_stability_cb e
  end.
(** Each event meets its own environment. *)
Fixpoint cm2_run (cfg : cm2_config) (fuel : nat) (evs : list ((nat → cm2_env) * cm2_event)) : CM unit :=
  match evs with
  | [] => mret tt
  | (e, ev) :: evs => cm2_handle cfg e fuel ev;; cm2_run cfg fuel evs
  end.

(** *** What the environment must respect *)

(** An address that is empty or has a character other than colons. *)
Definition uri_ok (res : string) : Prop := res = "" ∨ is_Some (strtok_r ":" (STRSCPY res UTIL_URI_MAX_LENG)).
Definition opt_ok {A} (P : A → Prop) (o : option A) : Prop := match o with Some a => P a | None => True end.
Definition awlan_ok (D : Z) (c : awlan_change) : Prop :=
  opt_ok uri_ok (aw_manager_addr c) ∧ opt_ok uri_ok (aw_redirector_addr c) ∧
  opt_ok (λ b, D ≤ b.1 < b.2 ∧ b.2 < 2 ^ 31) (aw_backoff c).
Definition legal (cfg : cm2_config) (D : Z) (p : (nat → cm2_env) * cm2_event) : Prop :=
  (∃ t0, clock_ok cfg p.1 t0 D) ∧ match p.2 with EvAwlan c => awlan_ok D c | _ => True end.
(** The invariant between events. *)
Definition settled (D : Z) (v : cm2_state_t) : Prop := inv D v ∧ (tables v → rest v).

(** *** Events *)

(** The repairs after a check keep the view. *)
#[export] Instance keeps_restore cfg opt : keeps (cm2_restore_connection cfg opt).
Proof. unfold cm2_restore_connection, cm2_restore_switch_cfg, cm2_restart_iface. solve_keeps. Qed.
#[export] Instance keeps_skip_auton e : keeps (cm2_util_skip_restore_switch_fix_auton e).
Proof. unfold cm2_util_skip_restore_switch_fix_auton. solve_keeps. Qed.
Lemma keeps_params cfg e counter thresh ropt : thresh ≠ 0 → keeps (cm2_restore_switch_cfg_params cfg e counter thresh ropt).
Proof.
  intros Ht. unfold cm2_restore_switch_cfg_params, rem_by.
  rewrite (proj2 (Z.eqb_neq _ _) Ht). solve_keeps.
Qed.
Lemma keeps_repairs cfg e counter thresh ropt : 0 < thresh → keeps (repairs cfg e counter thresh ropt).
Proof.
  intros Ht. unfold repairs, rem_by. rewrite (proj2 (Z.eqb_neq thresh 0)) by lia.
  apply keeps_bind; [apply keeps_params; lia|]. intros. solve_keeps.
Qed.
#[export] Instance keeps_stability_cb e : keeps (cm2_stability_cb e).
Proof. unfold cm2_stability_cb, cm2_connection_stability_check. solve_keeps. Qed.
#[export] Instance keeps_broken e con : keeps (broken_bridge e con).
Proof. unfold broken_bridge. solve_keeps. Qed.
#[export] Instance keeps_pending b : keeps (upd_link (set_restart_pending b)).
Proof. by apply keeps_upd_link. Qed.

Section events.
Context (cfg : cm2_config) (e : nat → cm2_env) (t0 D : Z) (fuel : nat) `{!clock_ok cfg e t0 D}.
Context (Hfuel : (107 < fuel)%nat).
Context (Hrouter : 0 < CONFIG_CM2_STABILITY_THRESH_ROUTER cfg) (Hinternet : 0 < CONFIG_CM2_STABILITY_THRESH_INTERNET cfg).

(** Without the tables nothing happens; with them the machine comes to rest. *)
Lemma update_settles r v : inv D v → vwp (cm2_update_state cfg e fuel r) (λ _ v', settled D v') v.
Proof.
  intros Hv. destruct (decide (have_awlan v = true ∧ have_manager v = true)) as [Ht|Ht].
  - eapply vwp_mono; [by eapply update_total|]. intros _ v' (? & ? & ?). by split.
  - destruct fuel as [|n]; [lia|]. apply vwp_bind, vwp_bind, vwp_gets_any. intros s <-. cbn in Ht.
    assert (settled D (view s)) by (split; [done|]; by intros ?; destruct Ht).
    destruct (have_awlan s); cbn [negb]; [|by apply vwp_ret, vwp_ret].
    destruct (have_manager s); cbn [negb]; [by destruct Ht|]. by apply vwp_ret, vwp_ret.
Qed.
Lemma vtag_settles v : settled D v →
  vwp (cm2_vtag_stability_check cfg (cm2_update_state cfg e fuel)) (λ _ v', settled D v') v.
Proof.
  intros Hv. apply vwp_bind, vwp_gets_any. intros s _. case_bool_decide; [|by apply vwp_ret].
  apply vwp_bind, vwp_keeps; [by apply keeps_upd_vtag|]. intros _.
  apply vwp_bind, vwp_when; intros _; [|by apply vwp_ret].
  eapply vwp_mono; [apply update_settles, Hv|]. intros a v' Hv'. by apply vwp_ret.
Qed.
Lemma fatal_settles n v : settled D v →
  vwp (cm2_stability_handle_fatal_state cfg e (cm2_update_state cfg e fuel) n) (λ _ v', settled D v') v.
Proof.
  intros Hv. unfold cm2_stability_handle_fatal_state. destruct (n <=? 0); [by apply vwp_ret|].
  apply vwp_bind, vwp_gets_any. intros s _. destruct (_ && _); [by apply vwp_keeps; [apply _|]|].
  apply vwp_bind, vwp_keeps; [apply _|]. intros [|]; [by apply vwp_ret|].
  apply vwp_bind. eapply vwp_mono; [by apply vtag_settles|]. intros ok v' Hv'.
  apply vwp_keeps; [|done]. unfold get_if_name. solve_keeps.
Qed.
Lemma process_settles opts db st c v : settled D v →
  vwp (cm2_connection_req_stability_process cfg e (cm2_update_state cfg e fuel) opts db st c) (λ _ v', settled D v') v.
Proof.
  intros Hv. apply vwp_bind, vwp_keeps; [apply _|]. intros [b|con]; [by apply vwp_ret|].
  destruct db; cbn [negb]; [|by apply vwp_ret].
  apply vwp_bind, vwp_gets_any. intros s _. apply vwp_bind, vwp_keeps; [apply _|]. intros [|].
  - apply vwp_bind, vwp_bind. destruct (_ =? _).
    + do 4 (apply vwp_bind, vwp_keeps; [solve_keeps|]; intros ?). destruct (_ <? _).
      * apply vwp_bind. eapply vwp_mono; [by apply fatal_settles|]. intros ? v' Hv'.
        apply vwp_ret, vwp_keeps; [apply _|]. intros _. by apply vwp_ret.
      * apply vwp_ret, vwp_keeps; [apply _|]. intros _. by apply vwp_ret.
    + apply vwp_ret, vwp_keeps; [apply _|]. intros _. by apply vwp_ret.
  - apply vwp_bind, vwp_keeps; [solve_keeps|]. intros _.
    assert (∀ ropt v', settled D v' → vwp (ropt ← (if has_opt opts INTERNET_CHECK
        then process_internet cfg e (if_name (link s)) con c ropt else mret ropt);
        when (has_opt opts NTP_CHECK) (out (ONtpState (if_name (link s)) (ntp_state c)));;
        cm2_restore_connection cfg ropt;; mret st) (λ _ v', settled D v') v') as Htail.
    { intros ropt v' Hv'. apply vwp_keeps; [|done]. apply keeps_bind; [|intros; solve_keeps].
      unfold process_internet. destruct (has_opt opts INTERNET_CHECK); [|solve_keeps].
      apply keeps_bind; [|solve_keeps]. destruct (_ && _); [by apply keeps_repairs|solve_keeps]. }
    apply vwp_bind. destruct (has_opt opts ROUTER_CHECK); [|by apply vwp_ret, Htail].
    apply vwp_bind, vwp_keeps; [destruct (_ && _); [by apply keeps_repairs|solve_keeps]|]. intros ropt.
    do 2 (apply vwp_bind, vwp_keeps; [solve_keeps|]; intros _). apply vwp_bind, vwp_gets_any. intros s' _.
    do 2 (apply vwp_bind, vwp_keeps; [solve_keeps|]; intros _).
    apply vwp_bind. eapply vwp_mono; [by apply fatal_settles|]. intros ? v' Hv'. by apply vwp_ret, Htail.
Qed.
Lemma check_done_settles st v : settled D v →
  vwp (cm2_util_req_stability_cb cfg e (cm2_update_state cfg e fuel) st) (λ _ v', settled D v') v.
Proof.
  intros Hv. unfold cm2_util_req_stability_cb. destruct (cm2_util_mask2cstate _) as [ok c].
  do 3 (apply vwp_bind, vwp_gets_any; intros ? _).
  do 2 (apply vwp_bind, vwp_keeps; [solve_keeps|]; intros _).
  apply vwp_bind. eapply vwp_mono; [by apply process_settles|]. intros ? v' Hv'.
  apply vwp_keeps; [solve_keeps|done].
Qed.

(** A new address; it is marked as updated only when it was parsed. *)
Lemma vwp_parse_uri uri p h (Q : option (string * string * Z) → cm2_state_t → Prop) v :
  uri = "" ∨ is_Some (strtok_r ":" (STRSCPY uri UTIL_URI_MAX_LENG)) → (∀ o, Q o v) → vwp (parse_uri uri p h) Q v.
Proof.
  intros Hu HQ. unfold parse_uri. case_bool_decide; [by apply vwp_ret|]. cbn zeta.
  destruct Hu as [|[[t r] ->]]; [done|]. cbn [fmap option_fmap option_map fst deref]. apply vwp_bind, vwp_ret.
  destruct (_ && _); [by apply vwp_ret|]. destruct (strtok_next _ _) as [[h' r']|]; [|by apply vwp_ret].
  destruct (_ || _); by apply vwp_ret.
Qed.
Lemma substring_nil n : String.substring 0 n "" = "".
Proof. by destruct n. Qed.
Lemma substring_substring n s : String.substring 0 n (String.substring 0 n s) = String.substring 0 n s.
Proof. revert s. induction n as [|n IH]; intros [|c s]; cbn; try done. by rewrite IH. Qed.
Lemma set_addr_spec d res v : inv D v → uri_ok res →
  vwp (ok ← cm2_set_addr d res; upd_addr d (set_updated ok)) (λ _ v', inv D v') v.
Proof.
  intros Hv Hu.
  assert (∀ a (b : bool), (b = true → valid a = true) → ai_curr a = None →
    inv D (put_addr d (set_updated b a) v)) as Hput.
  { intros a b Hb Ha. apply inv_put; [done|]. split; cbn; [done|]. by rewrite Ha. }
  apply vwp_bind, vwp_bind, vwp_upd_addr. case_bool_decide as He.
  { apply vwp_bind, vwp_upd_addr, vwp_ret, vwp_upd_addr. rewrite !get_put, !put_put. by apply Hput. }
  apply vwp_bind, vwp_bind, vwp_get_addr. rewrite get_put. apply vwp_bind, vwp_parse_uri.
  { right. destruct Hu as [|Hu]; [done|]. cbn [resource set_updated set_resolved set_resource].
    unfold STRSCPY, CM2_RESOURCE_MAX, UTIL_URI_MAX_LENG in *. by rewrite substring_substring. }
  intros [[[p h] n]|]; apply vwp_bind, vwp_upd_addr, vwp_ret; apply vwp_bind, vwp_upd_addr, vwp_ret, vwp_upd_addr;
    rewrite !get_put, !put_put; by apply Hput.
Qed.
Lemma awlan_settles c v : inv D v → awlan_ok D c →
  vwp (callback_AWLAN_Node cfg e fuel c) (λ _ v', settled D v') v.
Proof.
  intros Hv (Hm & Hr & Hb). apply vwp_bind, vwp_modify; [done|].
  apply vwp_bind. eapply vwp_mono with (Q := λ _ v', inv D v').
  { destruct (aw_manager_addr c) as [res|]; [|by apply vwp_ret].
    by apply set_addr_spec. }
  intros ? v1 Hv1. apply vwp_bind. eapply vwp_mono with (Q := λ _ v', inv D v').
  { destruct (aw_redirector_addr c) as [res|]; [|by apply vwp_ret].
    by apply set_addr_spec. }
  intros ? v2 Hv2. apply vwp_bind, vwp_keeps; [solve_keeps|]. intros ?. apply vwp_bind.
  eapply vwp_mono with (Q := λ _ v', inv D v'); [|intros; by apply update_settles].
  destruct (aw_backoff c) as [[lo hi]|]; [|by apply vwp_ret]. destruct Hb as [Hb1 Hb2], Hv2 as (? & ? & ? & ? & ?).
  apply vwp_bind, vwp_modify; [done|]. by apply vwp_modify.
Qed.
Lemma handle_settles ev v : settled D v → match ev with EvAwlan c => awlan_ok D c | _ => True end →
  vwp (cm2_handle cfg e fuel ev) (λ _ v', settled D v') v.
Proof.
  intros [Hv Hr] Hok. destruct ev as [|r|con|c|st|]; cbn [cm2_handle].
  - apply vwp_bind, vwp_gets; [done|]. apply vwp_bind, vwp_modify; [done|]. by apply update_settles.
  - apply vwp_bind, vwp_modify; [done|]. by apply vwp_keeps; [apply _|].
  - apply vwp_bind. destruct con as [con|]; apply vwp_bind, vwp_modify; try done; apply vwp_modify; try done;
      by apply update_settles.
  - by apply awlan_settles.
  - by apply check_done_settles.
  - by apply vwp_keeps; [apply _|].
Qed.
End events.

Lemma run_settles cfg D fuel evs v : (107 < fuel)%nat →
  0 < CONFIG_CM2_STABILITY_THRESH_ROUTER cfg → 0 < CONFIG_CM2_STABILITY_THRESH_INTERNET cfg →
  Forall (legal cfg D) evs → settled D v → vwp (cm2_run cfg fuel evs) (λ _ v', settled D v') v.
Proof.
  intros Hf H1 H2 Hl. revert v. induction Hl as [|[e ev] evs [[t0 Hc] Hev] Hl IH]; intros v Hv; [by apply vwp_ret|].
  apply vwp_bind. eapply vwp_mono; [by eapply handle_settles|]. intros ? v' Hv'. by apply IH.
Qed.
