(* ===== verification/Cm2Props.v ===== *)
(** Connection manager: the main theorems. *)
From S2P Require Import Prelude CommonUtil Cm2Types Cm2Event Cm2Stability Cm2Inv Cm2Thms Cm2Run.
#[local] Open Scope Z_scope.

(** *** Restarting the managers *)

(** The database grants the offline mode of a gateway. *)
Definition offline_granted (enabled active ready : bool) (s : cm2_state_t) : bool :=
  negb (cm2_is_wifi_type (if_type (link s))) && negb (connected_to CM2_DEST_MANAGER s)
  && enabled && (active || ready).
(** Only commands that are not a restart were added, and the counter of skipped
    restarts did not move. *)
Definition quiet_outs (s s' : cm2_state_t) : Prop :=
  skip_restart (cnts s') = skip_restart (cnts s) ∧
  ∃ l, outs s' = outs s ++ l ∧ ORestartManagers ∉ l.
Lemma quiet_eq s s' : outs s' = outs s → skip_restart (cnts s') = skip_restart (cnts s) → quiet_outs s s'.
Proof. intros Eo Ec. split; [done|]. exists []. rewrite app_nil_r. split; [done|]. set_solver. Qed.
Lemma quiet_refl s : quiet_outs s s.
Proof. by apply quiet_eq. Qed.
Lemma quiet_trans s1 s2 s3 : quiet_outs s1 s2 → quiet_outs s2 s3 → quiet_outs s1 s3.
Proof.
  intros [E1 (l1 & O1 & N1)] [E2 (l2 & O2 & N2)]. split; [congruence|].
  exists (l1 ++ l2). rewrite O2, O1, (assoc_L (++)). split; [done|]. set_solver.
Qed.
Lemma quiet_out o (Q : unit → cm2_state_t → Prop) s :
  o ≠ ORestartManagers → (∀ s', quiet_outs s s' → Q tt s') → wp (out o) Q s.
Proof.
  intros Ho HQ. apply wp_modify, HQ. split; [done|]. exists [o]. split; [done|]. set_solver.
Qed.

Section restart.
Context (cfg : cm2_config) (e : nat → cm2_env) (self : cm2_reason_e → CM unit) (enabled active ready : bool).
Context (Henv : ∀ n, cm2_ovsdb_is_gw_offline_enabled (e n) = enabled ∧
  cm2_ovsdb_is_gw_offline_active (e n) = active ∧ cm2_ovsdb_is_gw_offline_ready (e n) = ready).

Lemma wp_ask {A} (q : cm2_env → A) (Q : A → cm2_state_t → Prop) s :
  (∀ n, Q (q (e n)) (set_tick (S (tick s)) s)) → wp (ask e q) Q s.
Proof. intros HQ. apply wp_bind, wp_gets, wp_bind, wp_modify, wp_ret, HQ. Qed.
Lemma gw_offline_wp s :
  wp (cm2_enable_gw_offline e) (λ b s', b = offline_granted enabled active ready s ∧ quiet_outs s s') s.
Proof.
  unfold offline_granted. apply wp_bind, wp_gets. destruct (cm2_is_wifi_type _); [by split; auto using quiet_refl|].
  apply wp_bind, wp_gets. destruct (connected_to _ s); [by split; auto using quiet_refl|].
  cbn [negb andb].
  apply wp_bind, wp_ask. intros n1. destruct (Henv n1) as (-> & _). destruct enabled; [|by split; [|apply quiet_eq]]. cbn [negb].
  apply wp_bind, wp_ask. intros n2. destruct (Henv n2) as (_ & -> & _). destruct active; [by split; [|apply quiet_eq]|].
  apply wp_bind, wp_ask. intros n3. destruct (Henv n3) as (_ & _ & ->). destruct ready; [|by split; [|apply quiet_eq]]. cbn [negb].
  apply wp_bind, wp_modify, wp_bind, wp_gets. cbn zeta.
  set (s1 := set_cnts _ _). assert (quiet_outs s s1) as H1.
  { apply quiet_eq; [done|]. unfold s1. cbn. by destruct (_ <? _). }
  destruct (negb _); [by split|]. apply wp_bind, quiet_out; [done|]. intros s2 H2.
  apply wp_bind, wp_ask. intros n4. apply wp_bind.
  assert (∀ s3, quiet_outs s2 s3 → quiet_outs s s3) as H3 by (eauto using quiet_trans).
  destruct (cm2_ovsdb_enable_gw_offline_conf _); cbn [negb when].
  - apply wp_ret, wp_ret. split; [done|]. by apply H3, quiet_eq.
  - apply wp_modify, wp_ret. split; [done|]. by apply H3, quiet_eq.
Qed.
(** The decision, without a pending tag. *)
Definition skips (s : cm2_state_t) : bool :=
  negb (cm2_is_wifi_type (if_type (link s)))
  && (bool_decide (dev_type s = CM2_DEVICE_ROUTER) || offline_granted enabled active ready s).
Lemma restart_skip_wp s : vt_state (vtag (link s)) ≠ CM2_VTAG_PENDING →
  wp (restart_managers_skip cfg e self) (λ b s', b = skips s ∧ quiet_outs s s') s.
Proof.
  intros Hv. unfold skips. apply wp_bind, wp_gets.
  destruct (cm2_is_wifi_type _) eqn:Ew; [by split; auto using quiet_refl|]. cbn [negb andb].
  apply wp_bind, wp_bind, wp_gets. rewrite bool_decide_eq_false_2 by done. apply wp_ret. cbn [negb].
  apply wp_bind, wp_gets, wp_bind.
  assert (∀ s1, quiet_outs s s1 → link s1 = link s → state s1 = state s → dest s1 = dest s → target_type s1 = target_type s →
    wp (if bool_decide (dev_type s = CM2_DEVICE_ROUTER) then
          n ← gets (λ s, skip_restart (cnts s)); name ← get_if_name;
          (if Z.rem n 2 =? 0 then cm2_restart_iface name else cm2_ovsdb_refresh_dhcp name);; mret true
        else cm2_enable_gw_offline e)
      (λ b s', b = (bool_decide (dev_type s = CM2_DEVICE_ROUTER) || offline_granted enabled active ready s)
        ∧ quiet_outs s s') s1) as Htail.
  { intros s1 Hq Hl Hs Hd _. case_bool_decide; cbn [orb].
    - apply wp_bind, wp_gets, wp_bind, wp_gets, wp_bind. destruct (_ =? _).
      + apply quiet_out; [done|]. intros s2 H2. apply wp_ret. eauto using quiet_trans.
      + apply wp_bind, wp_gets. destruct (is_extender s1); cbn [when].
        * apply quiet_out; [done|]. intros s2 H2. apply wp_ret. eauto using quiet_trans.
        * by apply wp_ret, wp_ret.
    - eapply wp_mono; [apply gw_offline_wp|]. intros b s2 [-> H2]. split; [|by eapply quiet_trans].
      unfold offline_granted, connected_to. by rewrite Hl, Hs, Hd. }
  destruct (_ && _); cbn [when].
  - apply wp_modify, Htail; try done. split; [done|]. exists [OBleConnectable true]. split; [done|set_solver].
  - apply wp_ret, Htail; try done. apply quiet_refl.
Qed.
End restart.

(**  When a restart of the managers is triggered without a VLAN tag pending, the
    managers are restarted exactly if the uplink is a wireless one, or neither the
    device is a router nor the offline mode of the gateway is granted, or 360 restarts
    were skipped before.  The configuration over Bluetooth has no influence, although
    its branch announces that the restart is skipped. *)
Theorem cm2_restart_decision cfg e self enabled active ready s :
  (∀ n, cm2_ovsdb_is_gw_offline_enabled (e n) = enabled ∧
    cm2_ovsdb_is_gw_offline_active (e n) = active ∧ cm2_ovsdb_is_gw_offline_ready (e n) = ready) →
  vt_state (vtag (link s)) ≠ CM2_VTAG_PENDING →
  ∃ s', cm2_trigger_restart_managers cfg e self s = Some (tt, s') ∧
    (ORestartManagers ∈ drop (length (outs s)) (outs s') ↔
     skips enabled active ready s = false ∨ CM2_GW_SKIP_RESTART_THRESHOLD ≤ skip_restart (cnts s)) ∧
    skip_restart (cnts s') = skip_restart (cnts s) + b2z (skips enabled active ready s).
Proof.
  intros Henv Hv. cut (wp (cm2_trigger_restart_managers cfg e self) (λ _ s', 
    (ORestartManagers ∈ drop (length (outs s)) (outs s') ↔
     skips enabled active ready s = false ∨ CM2_GW_SKIP_RESTART_THRESHOLD ≤ skip_restart (cnts s)) ∧
    skip_restart (cnts s') = skip_restart (cnts s) + b2z (skips enabled active ready s)) s).
  { intros H. apply wp_some in H as ([] & s' & ? & ?). eauto. }
  apply wp_bind. eapply wp_mono; [by apply restart_skip_wp|]. intros b s1 [-> H1].
  apply wp_bind, quiet_out; [done|]. intros s2 H2. pose proof (quiet_trans _ _ _ H1 H2) as [E (l & O & N)].
  apply wp_bind, wp_gets, wp_bind. rewrite E. set (b := skips _ _ _ s).
  assert (∀ s3, outs s3 = outs s2 → ORestartManagers ∉ drop (length (outs s)) (outs s3)) as Hno.
  { intros s3 ->. rewrite O, drop_app_length. done. }
  destruct b; cbn [when andb b2z].
  - apply wp_modify. destruct (Z.ltb_spec (skip_restart (cnts s)) CM2_GW_SKIP_RESTART_THRESHOLD).
    + apply wp_bind, wp_ask. intros n. apply wp_modify. cbn. rewrite E. split; [|lia].
      split; [intros Hin; by eapply Hno in Hin|]. intros [?|?]; [done|lia].
    + apply wp_bind, wp_modify, wp_modify. cbn. rewrite E. split; [|lia]. split; [by right|]. intros _.
      rewrite O, <-!(assoc_L (++)), drop_app_length. set_solver.
  - apply wp_ret, wp_bind, wp_modify, wp_modify. cbn. rewrite E. split; [|lia]. split; [by left|]. intros _.
    rewrite O, <-!(assoc_L (++)), drop_app_length. set_solver.
Qed.

(** *** Any sequence of events *)

(** C3.  From a state that satisfies the invariant, any sequence of events (timer,
    triggers, changes of the Manager and AWLAN_Node rows, finished connectivity checks)
    is handled without a fault and in bounded time: 108 passes of [cm2_update_state] per
    event are enough, the re-entrant call for a failed VLAN tag included, as long as the
    clock advances by less than the shortest timeout during one event, the backoff range
    is not empty, an address is not made of colons only and the thresholds of the router
    and internet checks are positive ([legal] states the first three for an event).  With
    both tables present the machine ends in a state that agrees with the connection:
    CONNECTED only when connected, QUIESCE_OVS only when not, never INIT. *)
Theorem cm2_run_settles cfg D fuel evs s :
  (107 < fuel)%nat →
  0 < CONFIG_CM2_STABILITY_THRESH_ROUTER cfg → 0 < CONFIG_CM2_STABILITY_THRESH_INTERNET cfg →
  Forall (legal cfg D) evs → settled D s →
  ∃ s', cm2_run cfg fuel evs s = Some (tt, s') ∧ settled D s'.
Proof.
  intros Hf H1 H2 Hl Hs. pose proof (run_settles cfg D fuel evs (view s) Hf H1 H2 Hl Hs s eq_refl) as Hw.
  apply wp_some in Hw as ([] & s' & ? & ?). eauto.
Qed.

(** *** The reconnect cycle *)


(** *** Blocked address families *)

(** Checks and their results, one after the other. *)
Definition fam_run (checks : list (Z * target_connectivity_check_t)) (p : fam * fam) : fam * fam :=
  foldl (λ p k, update_failures k.1 k.2 p.1 p.2) p checks.
Definition bump (n : Z) : Z := if 0 <? n then n + 1 else n.
(** The families, the option that checks one, and the counters of one. *)
Inductive family := V4 | V6.
Definition fam_opt (x : family) : Z := match x with V4 => IPV4_CHECK | V6 => IPV6_CHECK end.
Definition fam_of (x : family) (p : fam * fam) : fam := match x with V4 => p.1 | V6 => p.2 end.
Definition with_addresses (p : fam * fam) : Prop := is_ip p.1.1.1 = true ∧ is_ip p.2.1.1 = true.
(** What a check does to a family with counters [g] when the other one has [h]. *)
Definition half (g h : fam) : fam :=
  fam_unblock (if blocked g.1.1 && blocked h.1.1 then (set_blocked false g.1.1, g.1.2, g.2) else g).
Definition counted (x : family) (opts : Z) (c : target_connectivity_check_t) (f : fam) : fam :=
  match x with
  | V4 => fam_count opts IPV4_CHECK (router_ipv4_state c) (internet_ipv4_state c) (fam_age true f)
  | V6 => fam_count opts IPV6_CHECK (router_ipv6_state c) (internet_ipv6_state c) (fam_age true f)
  end.
Lemma update_both opts c f4 f6 : with_addresses (f4, f6) →
  update_failures opts c f4 f6 =
    (half (counted V4 opts c f4) (counted V6 opts c f6), half (counted V6 opts c f6) (counted V4 opts c f4)).
Proof.
  intros [H4 H6]. cbn in H4, H6. unfold update_failures, half. rewrite H4, H6. cbn [andb negb].
  fold (counted V4 opts c f4) (counted V6 opts c f6). rewrite (andb_comm (blocked (counted V6 opts c f6).1.1)).
  by destruct (_ && _).
Qed.
Lemma counted_is_ip x opts c f : is_ip (counted x opts c f).1.1 = is_ip f.1.1.
Proof.
  destruct f as [[ip r] i]. destruct x; unfold counted, fam_age, fam_count;
    destruct (negb _ || _); try destruct (blocked _); destruct (_ || _); done.
Qed.
Lemma half_is_ip g h : is_ip (half g h).1.1 = is_ip g.1.1.
Proof. destruct g as [[ip r] i]. unfold half, fam_unblock. cbn. by destruct (_ && _), (_ || _). Qed.
Lemma update_keeps_addresses opts c p : with_addresses p → with_addresses (update_failures opts c p.1 p.2).
Proof.
  intros H. destruct p as [f4 f6]. cbn [fst snd]. rewrite update_both by done.
  unfold with_addresses. cbn [fst snd]. by rewrite !half_is_ip, !counted_is_ip.
Qed.
(** One check while a family is blocked (its option is not set then). *)
Lemma half_blocked x opts c ip r i h : is_ip ip = true → blocked ip = true → has_opt opts (fam_opt x) = false →
  let q := half (counted x opts c (ip, r, i)) h in
  blocked q.1.1 = false ∨
  q = (ip, bump r, bump i) ∧ bump r ≠ UNBLOCKING_LINK_THRESHOLD ∧ bump i ≠ UNBLOCKING_LINK_THRESHOLD.
Proof.
  intros Hip Hb Ho. assert (set_blocked true ip = ip) as Hs by (destruct ip; cbn in *; by subst).
  assert (counted x opts c (ip, r, i) = (ip, bump r, bump i)) as ->.
  { assert (fam_age true (ip, r, i) = (ip, bump r, bump i)) as Ha by (unfold fam_age; by rewrite Hip, Hb).
    destruct x; cbn [fam_opt] in Ho; unfold counted, fam_count; rewrite Ha, Ho, !andb_false_r, Hs;
      by destruct (_ || _). }
  unfold half, fam_unblock. cbn [fst snd]. destruct (blocked ip && blocked h.1.1); cbn zeta;
    destruct ((bump r =? _) || (bump i =? _)) eqn:Eu; try (by left).
  right. apply orb_false_iff in Eu as [E1 E2]. by apply Z.eqb_neq in E1, E2.
Qed.
Lemma blocked_step x opts c ip r i p : fam_of x p = (ip, r, i) → with_addresses p → blocked ip = true →
  has_opt opts (fam_opt x) = false →
  let q := fam_of x (update_failures opts c p.1 p.2) in
  blocked q.1.1 = false ∨
  q = (ip, bump r, bump i) ∧ bump r ≠ UNBLOCKING_LINK_THRESHOLD ∧ bump i ≠ UNBLOCKING_LINK_THRESHOLD.
Proof.
  intros Hx Ha Hb Ho. assert (is_ip ip = true) as Hip.
  { destruct Ha as [H4 H6]. destruct x; cbn in Hx; [rewrite Hx in H4|rewrite Hx in H6]; done. }
  destruct p as [f4 f6]. cbn [fst snd]. rewrite update_both by done.
  destruct x; cbn in Hx; subst; by apply half_blocked.
Qed.
Lemma unblock_keeps f : blocked f.1.1 = false → blocked (fam_unblock f).1.1 = false.
Proof. destruct f as [[ip r] i]. cbn. by destruct (_ || _). Qed.
(** At most one family is blocked. *)
Lemma one_family_usable opts c f4 f6 :
  let p := update_failures opts c f4 f6 in blocked p.1.1.1 && blocked p.2.1.1 = false.
Proof.
  destruct f4 as [[ip4 r4] i4], f6 as [[ip6 r6] i6]. unfold update_failures. cbn -[fam_count fam_unblock fam_age].
  destruct (is_ip ip4) eqn:E4, (is_ip ip6) eqn:E6; cbn [andb negb].
  - destruct (fam_count _ _ _ _ (fam_age _ (ip4, _, _))) as [[jp4 s4] j4],
      (fam_count _ _ _ _ (fam_age _ (ip6, _, _))) as [[jp6 s6] j6].
    cbn [fst snd]. destruct (blocked jp4 && blocked jp6) eqn:Eb; cbn [fst snd].
    + by rewrite unblock_keeps.
    + apply andb_false_iff in Eb as [Eb|Eb]; [by rewrite unblock_keeps|].
      by rewrite (unblock_keeps (jp6, s6, j6)), andb_false_r.
  - cbn. rewrite E6. cbn. apply andb_false_r.
  - cbn. by rewrite E4.
  - cbn. by rewrite E4.
Qed.
Lemma blocked_run x checks : Forall (λ k, has_opt k.1 (fam_opt x) = false) checks →
  ∀ p ip r i, fam_of x p = (ip, r, i) → with_addresses p → blocked ip = true →
  0 ≤ r < UNBLOCKING_LINK_THRESHOLD → 0 ≤ i < UNBLOCKING_LINK_THRESHOLD → 0 < Z.max r i →
  UNBLOCKING_LINK_THRESHOLD - Z.max r i ≤ Z.of_nat (length checks) →
  ∃ n, (n ≤ length checks)%nat ∧ blocked (fam_of x (fam_run (take n checks) p)).1.1 = false.
Proof.
  induction 1 as [|[opts c] checks Ho Hk IH]; intros p ip r i Hx Ha Hb Hr Hi Hm Hlen; cbn [length] in *.
  { unfold UNBLOCKING_LINK_THRESHOLD in *. lia. }
  destruct (blocked_step x opts c ip r i p) as [Hu|(Hp & Hr' & Hi')]; try done.
  { exists 1%nat. split; [lia|]. done. }
  destruct (IH (update_failures opts c p.1 p.2) ip (bump r) (bump i)) as (n & Hn & Hu); try done.
  { by apply update_keeps_addresses. }
  1-4: unfold bump, UNBLOCKING_LINK_THRESHOLD in *; destruct (Z.ltb_spec 0 r), (Z.ltb_spec 0 i); lia.
  exists (S n). split; [lia|]. done.
Qed.

(** C40.  A connectivity check never leaves both address families blocked.  A family,
    IPv4 or IPv6, that is blocked with a positive failure counter is unblocked again after
    at most 100 checks less the larger one of its counters, when both families keep their
    addresses, both of its counters are below 100 and the checks leave the family out, as
    they do while it is blocked.  A blocked family whose counters are 0 is not covered: it
    may stay blocked ([cm2_blocked_family_stuck]). *)
Theorem cm2_blocked_family_returns x checks p ip r i :
  with_addresses p → fam_of x p = (ip, r, i) → blocked ip = true →
  Forall (λ k, has_opt k.1 (fam_opt x) = false) checks →
  0 ≤ r < UNBLOCKING_LINK_THRESHOLD → 0 ≤ i < UNBLOCKING_LINK_THRESHOLD → 0 < Z.max r i →
  (∀ n, (0 < n ≤ length checks)%nat → let q := fam_run (take n checks) p in
     blocked q.1.1.1 && blocked q.2.1.1 = false) ∧
  (UNBLOCKING_LINK_THRESHOLD - Z.max r i ≤ Z.of_nat (length checks) →
   ∃ n, (n ≤ length checks)%nat ∧ blocked (fam_of x (fam_run (take n checks) p)).1.1 = false).
Proof.
  intros Ha Hx Hb Hk Hr Hi Hm. split; [|intros; by eapply blocked_run]. intros [|n] Hn; [lia|].
  destruct (lookup_lt_is_Some_2 checks n) as [k Hlk]; [lia|].
  rewrite (take_S_r _ _ _ Hlk). unfold fam_run. rewrite foldl_app. cbn [foldl]. apply one_family_usable.
Qed.

(** A result that arrives late, of a check that was started before IPv4 was blocked,
    resets the counters but not the block; from then on checks that find IPv6 working
    never unblock IPv4. *)
Theorem cm2_blocked_family_stuck checks ip6 :
  is_ip ip6 = true → blocked ip6 = false →
  Forall (λ k, has_opt k.1 IPV4_CHECK = false ∧ router_ipv6_state k.2 = true ∧ internet_ipv6_state k.2 = true) checks →
  let ip4 := Ip CM2_IPV4_DHCP true false true in
  let good := CState true true true true true true true in
  let opts := Z.lor (Z.lor ALL_CHECKS IPV4_CHECK) IPV6_CHECK in
  (fam_run ((opts, good) :: checks) ((ip4, BLOCKING_LINK_THRESHOLD, 0), (ip6, 0, 0))) = ((ip4, 0, 0), (ip6, 0, 0)).
Proof.
  intros H6 Hb Hk ip4 good opts. unfold fam_run. cbn [foldl].
  assert (update_failures opts good (ip4, BLOCKING_LINK_THRESHOLD, 0) (ip6, 0, 0) = ((ip4, 0, 0), (ip6, 0, 0))) as Hfirst.
  { destruct ip6 as [? x y z]; cbn in *; subst. reflexivity. }
  cbn [fst snd]. rewrite Hfirst. clear Hfirst.
  induction Hk as [|[o c] checks (Ho & Hr & Hi) Hk IH]; [done|]. cbn [foldl fst snd] in *.
  assert (update_failures o c (ip4, 0, 0) (ip6, 0, 0) = ((ip4, 0, 0), (ip6, 0, 0))) as ->; [|done].
  destruct ip6 as [a x y z]; cbn in H6, Hb; subst. unfold update_failures, fam_count.
  cbn -[has_opt]. rewrite Ho. cbn in Hr, Hi. rewrite Hr, Hi.
  by destruct (has_opt o ROUTER_CHECK), (has_opt o INTERNET_CHECK), (has_opt o IPV6_CHECK).
Qed.

(** The repair of the main link is never chosen: [counter % thresh + 1 == 0] does not hold
    for a positive counter. *)
Theorem cm2_main_link_never_restarted cfg e counter thresh ropt s :
  0 < counter → 0 < thresh → Z.testbit ropt CM2_RESTORE_MAIN_LINK = false →
  wp (repairs cfg e counter thresh ropt) (λ r _, Z.testbit r CM2_RESTORE_MAIN_LINK = false) s.
Proof.
  intros Hc Ht Hb. apply wp_bind.
  assert (wp (cm2_restore_switch_cfg_params cfg e counter (thresh + 2) ropt)
    (λ r _, Z.testbit r CM2_RESTORE_MAIN_LINK = false) s) as Hw.
  { unfold cm2_restore_switch_cfg_params. destruct (negb _); [done|]. cbn zeta.
    unfold rem_by. rewrite (proj2 (Z.eqb_neq _ _)) by lia. apply wp_bind, wp_ret.
    destruct (negb _); [by apply wp_ret; rewrite Z.lor_spec, Hb|].
    apply wp_bind. eapply wp_mono; [apply keeps_spec|].
    intros b s' _. apply wp_ret. destruct b; rewrite !Z.lor_spec, Hb; done. }
  eapply wp_mono; [done|]. intros r s' Hr. unfold rem_by. rewrite (proj2 (Z.eqb_neq _ _)) by lia.
  apply wp_bind, wp_ret, wp_ret. pose proof (Z.rem_nonneg counter thresh ltac:(lia) ltac:(lia)).
  rewrite (proj2 (Z.eqb_neq (_ + 1) 0)) by lia. destruct (_ =? 0); [|done]. by rewrite Z.lor_spec, Hr.
Qed.
(** An empty backoff range is a division by zero when the connection is quiesced. *)
Theorem cm2_backoff_faults cfg e s r :
  fast_backoff s = false → min_backoff s = max_backoff s → urandom (e (tick s)) = Some r →
  cm2_compute_backoff cfg e s = None.
Proof.
  intros Hf Hm Hr. unfold cm2_compute_backoff, ask, mbind, M_bind, gets, modify, mret, M_ret. rewrite Hf, Hr, Hm, Z.sub_diag. done.
Qed.

(** *** Examples *)

Definition example_cfg : cm2_config := Config 8 0 10 2 4 6 8 3 true true true false.
Definition example_env (t : Z) : cm2_env :=
  let row := Uplink "eth0" "eth" 4 None 0 0 0 in
  Env t (Some row) (λ _, Some row) (λ _, false) (λ _, Some (InetState (Some "dhcp") (Some "10.0.0.2")))
    (λ _ _, (true, CState true true true true true true true)) true false
    (λ _, Some [AF_INET "192.0.2.1"; AF_INET6 "2001:db8::1"]) (λ _, true) false false false true true
    (λ _ _, true) (λ _ _ _, true) (λ _ _, true) (λ _ _, true) false ["eth"] (Some 12345).
Definition example_addr : cm2_addr_t := Addr false false false "" "" "" 0 [] None.
(** The state after start-up, of an extender ([1]) or not ([0]). *)
Definition example_state (target : Z) : cm2_state_t :=
  G CM2_STATE_INIT CM2_REASON_TIMER CM2_DEST_REDIR false false false 0 0 example_addr example_addr false 0 0 false
    false false zero_link zero_link 0 false false false 30 60 false target false (Cnts 0 0 0 0 0) CM2_DEVICE_NONE
    (Fails 0 0 0 0) 60 0%nat [].
Lemma example_clock t : clock_ok example_cfg (λ _, example_env t) t 8.
Proof. split; cbn; unfold CM2_FAST_RECONNECT_TIMEOUT; lia. Qed.
Lemma example_addr_ok : addr_ok example_addr.
Proof. by apply addr_ok_nocurr. Qed.
Definition example_events : list ((nat → cm2_env) * cm2_event) :=
  [(λ _, example_env 10, EvTimer);
   (λ _, example_env 11, EvManager (Some false));
   (λ _, example_env 12, EvAwlan (Awlan false None (Some "ssl:redirector.example.com:443") false (Some (30, 60))));
   (λ _, example_env 13, EvManager (Some true));
   (λ _, example_env 14, EvAwlan (Awlan false (Some "ssl:manager.example.com:6643") None false None));
   (λ _, example_env 15, EvManager (Some true));
   (λ _, example_env 20, EvCheckDone (Some 255));
   (λ _, example_env 21, EvManager (Some false))].
(** The extender connects to the redirector, then to the manager, and loses it. *)
Example example_run_states :
  (λ p, (state p.2, dest p.2)) <$> cm2_run example_cfg 108 example_events (example_state 1)
  = Some (CM2_STATE_QUIESCE_OVS, CM2_DEST_MANAGER).
Proof. vm_compute. reflexivity. Qed.
Lemma cm2_run_settles_witness :
  ∃ s', cm2_run example_cfg 108 example_events (example_state 1) = Some (tt, s') ∧ settled 8 s'.
Proof.
  apply cm2_run_settles; [lia|done|done| |].
  - repeat (apply List.Forall_cons; [split; [eexists; apply example_clock|]|]); try done.
    + split; [done|]. split; [right; by eexists|]. cbn. lia.
    + split; [right; by eexists|done].
  - split; [|by intros []]. split; [apply example_addr_ok|]. split; [apply example_addr_ok|]. cbn. lia.
Defined.
(** Configuration over Bluetooth does not keep the managers from being restarted. *)
Definition example_ble : cm2_state_t := set_link (set_if_type "eth" (set_if_name "eth0" zero_link)) (example_state 1).
Lemma cm2_restart_decision_witness :
  ∃ s', cm2_trigger_restart_managers example_cfg (λ _, example_env 5) (λ _, fault) example_ble = Some (tt, s') ∧
    (ORestartManagers ∈ drop (length (outs example_ble)) (outs s') ↔
     skips false false false example_ble = false ∨ CM2_GW_SKIP_RESTART_THRESHOLD ≤ skip_restart (cnts example_ble)) ∧
    skip_restart (cnts s') = skip_restart (cnts example_ble) + b2z (skips false false false example_ble).
Proof. apply cm2_restart_decision; [by intros n|done]. Defined.
Example example_ble_outs :
  outs ∘ snd <$> cm2_trigger_restart_managers example_cfg (λ _, example_env 5) (λ _, fault) example_ble
  = Some [OBleConnectable true; ODumpDebug; OWdtPing; ORestartManagers].
Proof. vm_compute. reflexivity. Qed.
Definition example_check : Z * target_connectivity_check_t :=
  (Z.lor ALL_CHECKS IPV6_CHECK, CState true false true false true true true).
Lemma cm2_blocked_family_returns_witness :
  let bad k := (Ip k true false true, 3, 0) in
  let good k := (Ip k true false false, 0, 0) in
  let p4 := (bad CM2_IPV4_DHCP, good CM2_IPV6_DHCP) in
  let p6 := (good CM2_IPV4_DHCP, bad CM2_IPV6_DHCP) in
  let checks4 := replicate 97 example_check in
  let checks6 := replicate 97 (Z.lor ALL_CHECKS IPV4_CHECK, example_check.2) in
  (∃ n, (n ≤ length checks4)%nat ∧ blocked (fam_of V4 (fam_run (take n checks4) p4)).1.1 = false) ∧
  (∃ n, (n ≤ length checks6)%nat ∧ blocked (fam_of V6 (fam_run (take n checks6) p6)).1.1 = false).
Proof.
  intros bad good p4 p6 checks4 checks6. split.
  - eapply (cm2_blocked_family_returns V4); try done. by apply Forall_replicate.
  - eapply (cm2_blocked_family_returns V6); try done. by apply Forall_replicate.
Defined.
