(* ===== verification/Evsched.v ===== *)
(** The task scheduler (src/lib/evsched/src/evsched.c).

    Tasks are objects of a store; the list of scheduled tasks, ordered by the time they are
    due, and the queue of pending ones are sequences of [DsList] with its iterators.  Times
    are in milliseconds, [now] is [ev_now] of the event.  A task function is a program
    over the calls of the interface: it sees their results and decides how to continue. *)
From S2P Require Import Prelude DsList.
#[local] Open Scope Z_scope.

Definition TIME_JUMP_THRESHOLD : Z := 86400 * 1000.
Definition EVSCHED_FIND_BY_FUNC : Z := 1.
Definition EVSCHED_FIND_BY_ARG : Z := 2.

(** [evsched_taskinfo_t] *)
Record evsched_taskinfo_t := Task {
  task_id : Z;
  resched : bool;
  remove : bool;
  ms : Z;
  sched_time : Z;
  trigger_time : Z;
  func : Z;
  func_arg : Z }.
Definition set_resched (b : bool) t := Task (task_id t) b (remove t) (ms t) (sched_time t) (trigger_time t) (func t) (func_arg t).
Definition set_remove (b : bool) t := Task (task_id t) (resched t) b (ms t) (sched_time t) (trigger_time t) (func t) (func_arg t).
Definition set_ms z t := Task (task_id t) (resched t) (remove t) z (sched_time t) (trigger_time t) (func t) (func_arg t).
Definition set_sched z t := Task (task_id t) (resched t) (remove t) (ms t) z (trigger_time t) (func t) (func_arg t).
Definition set_trigger z t := Task (task_id t) (resched t) (remove t) (ms t) (sched_time t) z (func t) (func_arg t).

(** What happened to tasks: their function was called, or they were marked for removal. *)
Inductive trace := Ran (t : positive) | Marked (t : positive).
(** The static variables, the memory of the tasks and the trace.  The timer holds the
    time at which it fires. *)
Record evsched := Sched {
  tasks : gmap positive evsched_taskinfo_t;
  evsched_current : ptr;
  evsched_task_id : Z;
  evsched_tasklist : node_seq;
  evsched_pending : node_seq;
  evsched_timer : option Z;
  evsched_initialized : bool;
  traced : list trace }.
Definition with_tasks f s := Sched (f (tasks s)) (evsched_current s) (evsched_task_id s) (evsched_tasklist s)
  (evsched_pending s) (evsched_timer s) (evsched_initialized s) (traced s).
Definition with_current p s := Sched (tasks s) p (evsched_task_id s) (evsched_tasklist s)
  (evsched_pending s) (evsched_timer s) (evsched_initialized s) (traced s).
Definition with_task_id z s := Sched (tasks s) (evsched_current s) z (evsched_tasklist s)
  (evsched_pending s) (evsched_timer s) (evsched_initialized s) (traced s).
Definition with_tasklist q s := Sched (tasks s) (evsched_current s) (evsched_task_id s) q
  (evsched_pending s) (evsched_timer s) (evsched_initialized s) (traced s).
Definition with_pending q s := Sched (tasks s) (evsched_current s) (evsched_task_id s) (evsched_tasklist s)
  q (evsched_timer s) (evsched_initialized s) (traced s).
Definition with_timer t s := Sched (tasks s) (evsched_current s) (evsched_task_id s) (evsched_tasklist s)
  (evsched_pending s) t (evsched_initialized s) (traced s).
Definition with_initialized b s := Sched (tasks s) (evsched_current s) (evsched_task_id s) (evsched_tasklist s)
  (evsched_pending s) (evsched_timer s) b (traced s).
Definition with_trace e s := Sched (tasks s) (evsched_current s) (evsched_task_id s) (evsched_tasklist s)
  (evsched_pending s) (evsched_timer s) (evsched_initialized s) (traced s ++ [e]).

Abbreviation EM := (M evsched).
(** An operation on one of the two lists. *)
Definition on_tasklist {A} (m : M node_seq A) : EM A := λ s,
  match m (evsched_tasklist s) with Some (a, q) => Some (a, with_tasklist q s) | None => None end.
Definition on_pending {A} (m : M node_seq A) : EM A := λ s,
  match m (evsched_pending s) with Some (a, q) => Some (a, with_pending q s) | None => None end.
Definition tload (t : loc) : EM evsched_taskinfo_t := o ← gets (λ s, tasks s !! t); deref o.
Definition tstore (t : loc) (f : evsched_taskinfo_t → evsched_taskinfo_t) : EM unit :=
  ti ← tload t; modify (with_tasks (<[t := f ti]>)).
(** [FREE] *)
Definition tfree (t : loc) : EM unit := tload t;; modify (with_tasks (delete t)).
Definition when_ (b : bool) (m : EM unit) : EM unit := if b then m else mret tt.

(** ** Helpers *)

Section interface.
Context (now : Z).

(** [evsched_reset_timer] *)
Definition evsched_reset_timer (trigger : Z) : EM unit := modify (with_timer (Some (now + trigger))).

(** [evsched_get_taskinfo] *)
Fixpoint get_loop (fuel : nat) (task : Z) (rm : bool) (tp : ptr) (iter : ds_list_iter) : EM ptr :=
  match fuel, tp with
  | S fuel, Some t =>
      ti ← tload t;
      if task_id ti =? task then
        when_ rm (on_tasklist (q_iremove iter);; mret tt);;
        mret (Some t)
      else
        '(tp, iter) ← on_tasklist (q_inext iter);
        get_loop fuel task rm tp iter
  | S fuel, None => mret None
  | O, _ => fault
  end.
Definition evsched_get_taskinfo (task : Z) (rm : bool) : EM ptr :=
  fuel ← gets (λ s, S (length (items (evsched_tasklist s))));
  '(tp, iter) ← on_tasklist q_ifirst;
  get_loop fuel task rm tp iter.
(** [evsched_task_insert]: the loop after a time jump and the search for the position. *)
Fixpoint jump_loop (fuel : nat) (sched : Z) (tp : ptr) : EM unit :=
  match fuel, tp with
  | S fuel, Some t =>
      ti ← tload t;
      if TIME_JUMP_THRESHOLD <? sched - sched_time ti then
        tstore t (λ ti, set_trigger sched (set_sched sched ti));;
        tp ← on_tasklist (q_next (at_node t));
        jump_loop fuel sched tp
      else mret tt
  | S fuel, None => mret tt
  | O, _ => fault
  end.
Fixpoint insert_loop (fuel : nat) (ntp : loc) (trigger : Z) (tp : ptr) (iter : ds_list_iter) : EM unit :=
  match fuel, tp with
  | S fuel, Some t =>
      ti ← tload t;
      if trigger <? trigger_time ti then on_tasklist (q_iinsert iter ntp);; mret tt
      else
        '(tp, iter) ← on_tasklist (q_inext iter);
        insert_loop fuel ntp trigger tp iter
  | S fuel, None => on_tasklist (q_insert_tail ntp)
  | O, _ => fault
  end.
Definition evsched_task_insert (ntp : loc) (restart : bool) : EM bool :=
  tstore ntp (λ ti, set_resched false (set_trigger (sched_time ti + ms ti) ti));;
  nti ← tload ntp;
  fuel ← gets (λ s, S (length (items (evsched_tasklist s))));
  tp ← on_tasklist q_head;
  match tp with
  | Some t =>
      ti ← tload t;
      when_ (TIME_JUMP_THRESHOLD <? sched_time nti - sched_time ti)
        (jump_loop fuel (sched_time nti) tp;;
         when_ restart (evsched_reset_timer 0))
  | None => mret tt
  end;;
  '(tp, iter) ← on_tasklist q_ifirst;
  insert_loop fuel ntp (trigger_time nti) tp iter;;
  hd ← on_tasklist q_head;
  when_ (restart && bool_decide (hd = Some ntp)) (evsched_reset_timer (trigger_time nti - sched_time nti));;
  mret true.

(** ** The interface *)

(** [evsched_init], [evsched_cleanup] *)
Definition evsched_init : EM bool :=
  ini ← gets evsched_initialized;
  if (ini : bool) then mret true
  else
    modify (with_tasklist (NSeq [] 0));;
    modify (with_pending (NSeq [] 0));;
    modify (with_current None);;
    modify (with_initialized true);;
    mret true.
Fixpoint cleanup_loop (fuel : nat) (tp : ptr) (iter : ds_list_iter) : EM unit :=
  match fuel, tp with
  | S fuel, Some t =>
      '(_, iter) ← on_tasklist (q_iremove iter);
      tfree t;;
      '(tp, iter) ← on_tasklist (q_inext iter);
      cleanup_loop fuel tp iter
  | S fuel, None => mret tt
  | O, _ => fault
  end.
Definition evsched_cleanup : EM bool :=
  ini ← gets evsched_initialized;
  if negb ini then mret true
  else
    modify (with_timer None);;
    fuel ← gets (λ s, S (length (items (evsched_tasklist s))));
    '(tp, iter) ← on_tasklist q_ifirst;
    cleanup_loop fuel tp iter;;
    modify (with_initialized false);;
    mret true.

(** [evsched_task]: the identifier of the new task, 0 on failure. *)
Definition evsched_task (f arg ms : Z) : EM Z :=
  s ← gets (λ s, s);
  if negb (evsched_initialized s) then mret 0
  else
    let ntp := fresh (dom (tasks s)) in
    let id := evsched_task_id s in
    modify (with_task_id (wrapu 32 (id + 1)));;
    modify (with_tasks (<[ntp := Task id false false (wrapu 32 ms) now 0 f arg]>));;
    match evsched_current s with
    | Some _ => on_pending (q_insert_tail ntp);; mret id
    | None =>
        ok ← evsched_task_insert ntp true;
        if (ok : bool) then mret id else tfree ntp;; mret 0
    end.
(** [evsched_task_find] *)
Fixpoint find_loop (fuel : nat) (f arg by_ : Z) (tp : ptr) : EM Z :=
  match fuel, tp with
  | S fuel, Some t =>
      ti ← tload t;
      if (negb (Z.land by_ EVSCHED_FIND_BY_FUNC =? 0) && negb (func ti =? f))
         || (negb (Z.land by_ EVSCHED_FIND_BY_ARG =? 0) && negb (func_arg ti =? arg))
      then tp ← on_tasklist (q_next (at_node t)); find_loop fuel f arg by_ tp
      else mret (task_id ti)
  | S fuel, None => mret 0
  | O, _ => fault
  end.
Definition evsched_task_find (f arg by_ : Z) : EM Z :=
  s ← gets (λ s, s);
  if negb (evsched_initialized s) then mret 0
  else if Z.land by_ (Z.lor EVSCHED_FIND_BY_FUNC EVSCHED_FIND_BY_ARG) =? 0 then mret 0
  else
    tp ← on_tasklist q_head;
    find_loop (S (length (items (evsched_tasklist s)))) f arg by_ tp.
(** [evsched_task_remaining]: the conversion of a negative number to [uint32_t] is
    undefined. *)
Definition evsched_task_remaining (task : Z) : EM Z :=
  ini ← gets evsched_initialized;
  if negb ini then mret 0
  else
    tp ← evsched_get_taskinfo task false;
    match tp with
    | Some t => ti ← tload t; if trigger_time ti <? now then fault else mret (trigger_time ti - now)
    | None => mret 0
    end.
(** The identifier of the current task is compared only when there is one. *)
Definition is_current (task : Z) : EM bool :=
  cur ← gets evsched_current;
  match cur with Some c => ti ← tload c; mret (task_id ti =? task) | None => mret false end.
(** [evsched_task_update] *)
Definition evsched_task_update (task ms : Z) : EM bool :=
  ini ← gets evsched_initialized;
  if negb ini then mret false
  else
    self ← is_current task;
    if (self : bool) then mret false
    else
      tp ← evsched_get_taskinfo task true;
      match tp with
      | None => mret false
      | Some t =>
          tstore t (set_sched now);;
          cur ← gets evsched_current;
          match cur with
          | Some _ => on_pending (q_insert_tail t);; mret true
          | None =>
              tstore t (set_ms (wrapu 32 ms));;
              ok ← evsched_task_insert t true;
              if (ok : bool) then mret true else tfree t;; mret false
          end
      end.
(** [evsched_task_cancel], [evsched_task_cancel_by_find] *)
Definition evsched_task_cancel (task : Z) : EM bool :=
  s ← gets (λ s, s);
  if negb (evsched_initialized s) then mret false
  else
    match evsched_current s with
    | Some c =>
        self ← is_current task;
        if (self : bool) then tstore c (set_resched false);; mret true
        else
          tp ← evsched_get_taskinfo task false;
          match tp with
          | None => mret false
          | Some t => tstore t (set_remove true);; modify (with_trace (Marked t));; mret true
          end
    | None =>
        tp ← evsched_get_taskinfo task true;
        match tp with None => mret false | Some t => tfree t;; mret true end
    end.
Definition evsched_task_cancel_by_find (f arg by_ : Z) : EM bool :=
  task ← evsched_task_find f arg by_;
  if task =? 0 then mret false else evsched_task_cancel task.
(** [evsched_task_reschedule], [evsched_task_reschedule_ms] *)
Definition evsched_task_reschedule : EM bool :=
  cur ← gets evsched_current;
  match cur with Some c => tstore c (set_resched true);; mret true | None => mret false end.
Definition evsched_task_reschedule_ms (ms : Z) : EM bool :=
  cur ← gets evsched_current;
  match cur with
  | Some c => tstore c (λ ti, set_ms (wrapu 32 ms) (set_resched true ti));; mret true
  | None => mret false
  end.

(** ** Task functions *)

Inductive call :=
  | CTask (f arg ms : Z) | CFind (f arg by_ : Z) | CRemaining (task : Z) | CUpdate (task ms : Z)
  | CCancel (task : Z) | CCancelFind (f arg by_ : Z) | CResched | CReschedMs (ms : Z).
(** A function: it ends, or makes a call and continues with its result. *)
Inductive prog := Done | Call (c : call) (k : Z → prog).
Definition do_call (c : call) : EM Z :=
  match c with
  | CTask f arg ms => evsched_task f arg ms
  | CFind f arg by_ => evsched_task_find f arg by_
  | CRemaining task => evsched_task_remaining task
  | CUpdate task ms => b ← evsched_task_update task ms; mret (b2z b)
  | CCancel task => b ← evsched_task_cancel task; mret (b2z b)
  | CCancelFind f arg by_ => b ← evsched_task_cancel_by_find f arg by_; mret (b2z b)
  | CResched => b ← evsched_task_reschedule; mret (b2z b)
  | CReschedMs ms => b ← evsched_task_reschedule_ms ms; mret (b2z b)
  end.
Fixpoint run_prog (p : prog) : EM unit :=
  match p with Done => mret tt | Call c k => r ← do_call c; run_prog (k r) end.

(** ** The timer *)

Context (body : Z → Z → prog).

(** [evsched_timer_callback]: the loops over the tasks that are due, over the marked ones
    and over the pending ones. *)
Definition run_task (t : loc) : EM unit :=
  modify (with_current (Some t));;
  ti ← tload t;
  modify (with_trace (Ran t));;
  run_prog (body (func ti) (func_arg ti));;
  modify (with_current None);;
  ti ← tload t;
  if resched ti then tstore t (set_sched now);; on_pending (q_insert_tail t) else tfree t.
Fixpoint due_loop (fuel : nat) (tp : ptr) (iter : ds_list_iter) : EM unit :=
  match fuel, tp with
  | S fuel, Some t =>
      ti ← tload t;
      if now <? trigger_time ti then mret tt
      else
        '(_, iter) ← on_tasklist (q_iremove iter);
        (if remove ti then tfree t else run_task t);;
        '(tp, iter) ← on_tasklist (q_inext iter);
        due_loop fuel tp iter
  | S fuel, None => mret tt
  | O, _ => fault
  end.
Fixpoint sweep_loop (fuel : nat) (tp : ptr) (iter : ds_list_iter) : EM unit :=
  match fuel, tp with
  | S fuel, Some t =>
      ti ← tload t;
      iter ← (if remove ti then '(_, iter) ← on_tasklist (q_iremove iter); tfree t;; mret iter else mret iter);
      '(tp, iter) ← on_tasklist (q_inext iter);
      sweep_loop fuel tp iter
  | S fuel, None => mret tt
  | O, _ => fault
  end.
Fixpoint pending_loop (fuel : nat) (tp : ptr) (iter : ds_list_iter) : EM unit :=
  match fuel, tp with
  | S fuel, Some t =>
      '(_, iter) ← on_pending (q_iremove iter);
      ok ← evsched_task_insert t false;
      (if (ok : bool) then mret tt else tfree t);;
      '(tp, iter) ← on_pending (q_inext iter);
      pending_loop fuel tp iter
  | S fuel, None => mret tt
  | O, _ => fault
  end.
Definition evsched_timer_callback : EM unit :=
  modify (with_timer None);;
  fuel ← gets (λ s, S (length (items (evsched_tasklist s))));
  '(tp, iter) ← on_tasklist q_ifirst;
  due_loop fuel tp iter;;
  '(tp, iter) ← on_tasklist q_ifirst;
  sweep_loop fuel tp iter;;
  fuel ← gets (λ s, S (length (items (evsched_pending s))));
  '(tp, iter) ← on_pending q_ifirst;
  pending_loop fuel tp iter;;
  tp ← on_tasklist q_head;
  match tp with
  | Some t => ti ← tload t; evsched_reset_timer (trigger_time ti - now)
  | None => mret tt
  end.
End interface.
