(* ===== verification/EvschedInv.v ===== *)
(** The task scheduler: the order of the tasks, insertion, the calls of a task function, and
    what holds while the timer callback runs task functions. *)
From stdpp Require Import sorting.
From S2P Require Import Prelude DsList DsListRep Evsched.
#[local] Open Scope Z_scope.

(** *** Order *)

(** The times at which tasks are due, but not before [w]: after a jump of the clock tasks
    that are late count as due at the time of the jump. *)
Definition trig (T : gmap positive evsched_taskinfo_t) (t : positive) : Z := default 0 (trigger_time <$> T !! t).
Definition ctimes (w : Z) (T : gmap positive evsched_taskinfo_t) (L : list positive) : list Z := (λ t, Z.max w (trig T t)) <$> L.
Definition ordered (w : Z) T L : Prop := StronglySorted Z.le (ctimes w T L).

Lemma ssorted_fmap (f : Z → Z) l : (∀ x y, x ≤ y → f x ≤ f y) → StronglySorted Z.le l → StronglySorted Z.le (f <$> l).
Proof.
  intros Hf. induction 1 as [|x l Hl IH Hx]; cbn; constructor; [done|].
  apply Forall_fmap. eapply Forall_impl; [done|]. cbn. auto.
Qed.
Lemma ctimes_ext w T T' L : (∀ t, t ∈ L → trig T' t = trig T t) → ctimes w T' L = ctimes w T L.
Proof. intros H. apply list_fmap_ext. intros i t Ht. rewrite H; [done|]. by eapply list_elem_of_lookup_2. Qed.
Lemma ordered_later w w' T L : w ≤ w' → ordered w T L → ordered w' T L.
Proof.
  intros Hw H. unfold ordered. assert (ctimes w' T L = Z.max w' <$> ctimes w T L) as ->.
  { unfold ctimes. rewrite <-list_fmap_compose. apply list_fmap_ext. intros. cbn. lia. }
  apply ssorted_fmap; [|done]. lia.
Qed.
Lemma ssorted_sublist (l l' : list Z) : l `sublist_of` l' → StronglySorted Z.le l' → StronglySorted Z.le l.
Proof.
  induction 1 as [|x l l' Hs IH|x l l' Hs IH]; intros Hl; [done| |]; apply StronglySorted_inv in Hl as [Hl Hx]; [|auto].
  constructor; [auto|]. apply Forall_forall. intros y Hy. rewrite Forall_forall in Hx. apply Hx.
  by eapply elem_of_sublist.
Qed.
Lemma ordered_sublist w T L L' : L' `sublist_of` L → ordered w T L → ordered w T L'.
Proof. intros Hs. apply ssorted_sublist. by apply fmap_sublist. Qed.
Lemma ssorted_insert l1 x l2 : StronglySorted Z.le (l1 ++ l2) → Forall (λ y, y ≤ x) l1 → Forall (λ y, x ≤ y) l2 →
  StronglySorted Z.le (l1 ++ x :: l2).
Proof.
  induction l1 as [|y l1 IH]; cbn; intros Hs H1 H2; [by constructor|].
  apply StronglySorted_inv in Hs as [Hs Hy]. apply Forall_cons in H1 as [Hyx H1]. constructor; [auto|].
  apply Forall_app in Hy as [? ?]. apply Forall_app. split; [done|]. by constructor.
Qed.
Lemma ssorted_app_r l1 l2 : StronglySorted Z.le (l1 ++ l2) → StronglySorted Z.le l2.
Proof. induction l1; [done|]. intros H. apply StronglySorted_inv in H as [? _]. auto. Qed.
(** What follows the first task that is due later is due later. *)
Lemma ordered_head_le w T t L : ordered w T (t :: L) → Forall (λ u, Z.max w (trig T t) ≤ Z.max w (trig T u)) L.
Proof. unfold ordered, ctimes. cbn. intros [_ H]%StronglySorted_inv. rewrite Forall_fmap in H. exact H. Qed.
Lemma ordered_insert w T L1 n L2 : ordered w T (L1 ++ L2) → w ≤ trig T n →
  Forall (λ t, trig T t ≤ trig T n) L1 → match head L2 with Some t => trig T n < trig T t | None => True end →
  ordered w T (L1 ++ n :: L2).
Proof.
  intros Ho Hw H1 H2. unfold ordered, ctimes in *. rewrite fmap_app in *. cbn [fmap list_fmap]. apply ssorted_insert; [done| |].
  - apply Forall_fmap. eapply Forall_impl; [done|]. cbn. lia.
  - destruct L2 as [|t L2]; [constructor|]. cbn [head] in H2. apply ssorted_app_r in Ho.
    pose proof (ordered_head_le w T t L2 Ho) as H3. apply Forall_fmap. constructor; cbn; [lia|].
    eapply Forall_impl; [done|]. cbn. lia.
Qed.

(** *** Stepping *)

Lemma wp_tload (s : evsched) t ti (Q : evsched_taskinfo_t → evsched → Prop) : tasks s !! t = Some ti → Q ti s → wp (tload t) Q s.
Proof. intros E HQ. apply wp_bind, wp_gets. by eapply wp_deref. Qed.
Lemma wp_tstore (s : evsched) t f ti (Q : unit → evsched → Prop) :
  tasks s !! t = Some ti → Q tt (with_tasks (<[t := f ti]>) s) → wp (tstore t f) Q s.
Proof. intros E HQ. apply wp_bind. eapply wp_tload; [done|]. by apply wp_modify. Qed.
Lemma wp_tfree (s : evsched) t (Q : unit → evsched → Prop) :
  is_Some (tasks s !! t) → Q tt (with_tasks (delete t) s) → wp (tfree t) Q s.
Proof. intros [ti E] HQ. apply wp_bind. eapply wp_tload; [done|]. by apply wp_modify. Qed.
Lemma wp_tasklist {A} (m : M node_seq A) (s : evsched) a q (Q : A → evsched → Prop) :
  m (evsched_tasklist s) = Some (a, q) → Q a (with_tasklist q s) → wp (on_tasklist m) Q s.
Proof. intros E HQ. unfold wp, on_tasklist. by rewrite E. Qed.
Lemma wp_pending {A} (m : M node_seq A) (s : evsched) a q (Q : A → evsched → Prop) :
  m (evsched_pending s) = Some (a, q) → Q a (with_pending q s) → wp (on_pending m) Q s.
Proof. intros E HQ. unfold wp, on_pending. by rewrite E. Qed.
Lemma with_tasklist_id s q : evsched_tasklist s = q → with_tasklist q s = s.
Proof. intros <-. by destruct s. Qed.
Lemma with_pending_id s q : evsched_pending s = q → with_pending q s = s.
Proof. intros <-. by destruct s. Qed.
Lemma ifirst_eq L nd : q_ifirst (NSeq L nd) = Some ((head L, SIter at_root (head L) nd), NSeq L nd).
Proof. done. Qed.

(** *** Searching *)

Definition live (s : evsched) (L : list positive) : Prop := ∀ t, t ∈ L → is_Some (tasks s !! t).

(** A task that is found is in the list; it is taken out when this was asked for. *)
Lemma get_loop_spec s task (rm : bool) L1 L2 nd fuel p (Q : ptr → evsched → Prop) :
  evsched_tasklist s = NSeq (L1 ++ L2) nd → NoDup (L1 ++ L2) → live s L2 → (length L2 < fuel)%nat →
  (L2 ≠ [] → p = spot_of L1) → Q None s →
  (∀ (M1 : list positive) t M2, L1 ++ L2 = M1 ++ t :: M2 → t ∈ L2 →
    Q (Some t) (if rm then with_tasklist (NSeq (M1 ++ M2) (wrapu 32 (nd + 1))) s else s)) →
  wp (get_loop fuel task rm (head L2) (SIter p (head L2) nd)) Q s.
Proof.
  intros Hl Hnd Hlive Hfuel Hp HN HQ. revert L1 p fuel Hl Hnd Hfuel Hp HQ.
  induction L2 as [|t L2 IH]; intros L1 p [|fuel] Hl Hnd Hfuel Hp HQ; cbn [length head get_loop] in *; try lia; [by apply wp_ret|].
  destruct (Hlive t) as [ti Hti]; [set_solver|]. rewrite Hp by done. apply wp_bind. eapply wp_tload; [done|]. destruct (_ =? _).
  - specialize (HQ L1 t L2 eq_refl (list_elem_of_here _ _)). apply wp_bind. destruct rm; cbn [when_]; [|by apply wp_ret, wp_ret].
    apply wp_bind. eapply wp_tasklist; [rewrite Hl; by apply q_iremove_at|]. by do 2 apply wp_ret.
  - apply wp_bind. eapply wp_tasklist; [rewrite Hl; by apply q_inext_curr|]. cbn beta iota. rewrite with_tasklist_id by done.
    rewrite (assoc_L (++) L1 [t] L2 : L1 ++ t :: L2 = _) in *. apply (IH ltac:(intros ? ?; apply Hlive; set_solver) (L1 ++ [t])); try done; [lia| |].
    + intros _. unfold spot_of. by rewrite last_snoc.
    + intros M1 u M2 E Hu. apply HQ; [done|]. set_solver.
Qed.
Lemma get_taskinfo_spec s task (rm : bool) L nd (Q : ptr → evsched → Prop) :
  evsched_tasklist s = NSeq L nd → NoDup L → live s L → Q None s →
  (∀ L1 t L2, L = L1 ++ t :: L2 → Q (Some t) (if rm then with_tasklist (NSeq (L1 ++ L2) (wrapu 32 (nd + 1))) s else s)) →
  wp (evsched_get_taskinfo task rm) Q s.
Proof.
  intros Hl Hnd Hlive HN HQ. apply wp_bind, wp_gets, wp_bind. eapply wp_tasklist; [rewrite Hl; apply ifirst_eq|].
  rewrite with_tasklist_id by done. cbn beta iota. apply (get_loop_spec s task rm [] L nd); try done.
  - rewrite Hl. cbn. lia.
  - intros M1 t M2 E _. by apply HQ.
Qed.
Lemma find_loop_spec s f arg by_ L1 L2 nd fuel (Q : Z → evsched → Prop) :
  evsched_tasklist s = NSeq (L1 ++ L2) nd → NoDup (L1 ++ L2) → live s L2 → (length L2 < fuel)%nat →
  (∀ r, Q r s) → wp (find_loop fuel f arg by_ (head L2)) Q s.
Proof.
  intros Hl Hnd Hlive Hfuel HQ. revert L1 fuel Hl Hnd Hfuel.
  induction L2 as [|t L2 IH]; intros L1 [|fuel] Hl Hnd Hfuel; cbn [length head find_loop] in *; try lia; [by apply wp_ret|].
  destruct (Hlive t) as [ti Hti]; [set_solver|]. apply wp_bind. eapply wp_tload; [done|]. destruct (_ || _); [|by apply wp_ret].
  apply wp_bind. eapply wp_tasklist; [rewrite Hl; by apply q_next_node|]. rewrite with_tasklist_id by done.
  rewrite (assoc_L (++) L1 [t] L2 : L1 ++ t :: L2 = _) in *. apply (IH ltac:(intros ? ?; apply Hlive; set_solver) (L1 ++ [t])); try done. lia.
Qed.
Lemma find_spec s f arg by_ L nd (Q : Z → evsched → Prop) :
  evsched_tasklist s = NSeq L nd → NoDup L → live s L → (∀ r, Q r s) → wp (evsched_task_find f arg by_) Q s.
Proof.
  intros Hl Hnd Hlive HQ. apply wp_bind, wp_gets. destruct (negb _); [by apply wp_ret|]. destruct (_ =? _); [by apply wp_ret|].
  apply wp_bind. eapply wp_tasklist; [rewrite Hl; done|]. rewrite with_tasklist_id by done.
  apply (find_loop_spec s f arg by_ [] L nd); try done. rewrite Hl. cbn. lia.
Qed.

(** *** Insertion *)

(** The tasks [S] were made due at [sched]. *)
Definition jumped (sched : Z) (T T' : gmap positive evsched_taskinfo_t) (S : list positive) : Prop :=
  ∀ t, T' !! t = if bool_decide (t ∈ S) then (λ ti, set_trigger sched (set_sched sched ti)) <$> T !! t else T !! t.
Lemma jumped_nil sched T : jumped sched T T [].
Proof. intros t. by rewrite bool_decide_eq_false_2 by set_solver. Qed.
Lemma jumped_cons sched T T' t ti S : t ∉ S → T !! t = Some ti →
  jumped sched (<[t := set_trigger sched (set_sched sched ti)]> T) T' S → jumped sched T T' (t :: S).
Proof.
  intros Ht Hti Hj u. rewrite (Hj u). destruct (decide (u = t)) as [->|Hne].
  - rewrite bool_decide_eq_false_2 by done. rewrite bool_decide_eq_true_2 by set_solver. by rewrite lookup_insert_eq, Hti.
  - rewrite lookup_insert_ne by done. rewrite (bool_decide_ext (u ∈ t :: S) (u ∈ S)) by set_solver. done.
Qed.
Lemma jump_loop_spec sched s L1 L2 nd fuel (Q : unit → evsched → Prop) :
  evsched_tasklist s = NSeq (L1 ++ L2) nd → NoDup (L1 ++ L2) → live s L2 → (length L2 < fuel)%nat →
  (∀ T' S R, L2 = S ++ R → jumped sched (tasks s) T' S → Q tt (with_tasks (λ _, T') s)) →
  wp (jump_loop fuel sched (head L2)) Q s.
Proof.
  intros Hl Hnd Hlive Hfuel HQ. revert s L1 fuel Hl Hnd Hlive Hfuel HQ.
  induction L2 as [|t L2 IH]; intros s L1 [|fuel] Hl Hnd Hlive Hfuel HQ; cbn [length head jump_loop] in *; try lia.
  { apply wp_ret. specialize (HQ (tasks s) [] [] eq_refl (jumped_nil _ _)). by destruct s. }
  destruct (Hlive t) as [ti Hti]; [set_solver|]. apply wp_bind. eapply wp_tload; [done|]. destruct (_ <? _).
  2:{ apply wp_ret. specialize (HQ (tasks s) [] (t :: L2) eq_refl (jumped_nil _ _)). by destruct s. }
  apply wp_bind. eapply wp_tstore; [done|]. apply wp_bind.
  eapply wp_tasklist; [cbn; rewrite Hl; by apply q_next_node|]. rewrite with_tasklist_id by done.
  assert (t ∉ L2) as Ht by (apply NoDup_app in Hnd as (_ & _ & [? ?]%NoDup_cons); done).
  rewrite (assoc_L (++) L1 [t] L2 : L1 ++ t :: L2 = _) in *. apply (IH _ (L1 ++ [t])); try done; [|lia|].
  - intros u Hu. cbn. rewrite lookup_insert_ne by set_solver. apply Hlive. set_solver.
  - intros T' S R -> Hj. apply (HQ T' (t :: S) R); [done|]. eapply jumped_cons; [set_solver|done|exact Hj].
Qed.
Lemma jumped_trig sched T T' S t : jumped sched T T' S → is_Some (T !! t) →
  trig T' t = if bool_decide (t ∈ S) then sched else trig T t.
Proof. intros Hj [ti Hti]. unfold trig. rewrite (Hj t), Hti. by case_bool_decide. Qed.
Lemma jumped_ordered w sched T T' S R : (∀ t, t ∈ S ++ R → is_Some (T !! t)) → NoDup (S ++ R) → w ≤ sched →
  jumped sched T T' S → ordered w T (S ++ R) → ordered sched T' (S ++ R).
Proof.
  intros Hlive Hnd Hw Hj Ho. apply (ordered_later w sched) in Ho; [|done]. unfold ordered in *.
  assert (ctimes sched T' (S ++ R) = replicate (length S) sched ++ ctimes sched T R) as ->.
  { unfold ctimes. rewrite fmap_app. f_equal.
    - rewrite <-(const_fmap (λ _, sched) S sched) by done. apply list_fmap_ext. intros i t Ht%list_elem_of_lookup_2.
      rewrite (jumped_trig sched T T' S) by (done || (apply Hlive; set_solver)). rewrite bool_decide_eq_true_2 by done. lia.
    - apply list_fmap_ext. intros i t Ht%list_elem_of_lookup_2.
      rewrite (jumped_trig sched T T' S) by (done || (apply Hlive; set_solver)).
      rewrite bool_decide_eq_false_2; [done|]. apply NoDup_app in Hnd as (_ & Hd & _). intros HS. by apply (Hd t). }
  unfold ctimes in Ho. rewrite fmap_app in Ho. apply ssorted_app_r in Ho. clear Hlive Hnd Hj.
  induction S as [|x S IH]; cbn [length replicate app]; [exact Ho|]. constructor; [done|].
  apply Forall_app. split; [apply Forall_replicate; lia|]. apply Forall_fmap, Forall_forall. intros t _. cbn. lia.
Qed.

Lemma insert_loop_spec s ntp x L1 L2 nd fuel p (Q : unit → evsched → Prop) :
  evsched_tasklist s = NSeq (L1 ++ L2) nd → NoDup (L1 ++ L2) → ntp ∉ L1 ++ L2 → live s L2 → (length L2 < fuel)%nat →
  (L2 ≠ [] → p = spot_of L1) → Forall (λ t, trig (tasks s) t ≤ x) L1 →
  (∀ M1 M2, L1 ++ L2 = M1 ++ M2 → Forall (λ t, trig (tasks s) t ≤ x) M1 →
    match head M2 with Some t => x < trig (tasks s) t | None => True end → Q tt (with_tasklist (NSeq (M1 ++ ntp :: M2) nd) s)) →
  wp (insert_loop fuel ntp x (head L2) (SIter p (head L2) nd)) Q s.
Proof.
  intros Hl Hnd Hnew Hlive Hfuel Hp H1 HQ. revert L1 p fuel Hl Hnd Hnew Hfuel Hp H1 HQ.
  induction L2 as [|t L2 IH]; intros L1 p [|fuel] Hl Hnd Hnew Hfuel Hp H1 HQ; cbn [length head insert_loop] in *; try lia.
  { rewrite app_nil_r in *. eapply wp_tasklist; [rewrite Hl; by apply q_insert_tail_at|]. apply (HQ L1 []); by rewrite ?app_nil_r. }
  destruct (Hlive t) as [ti Hti]; [set_solver|]. rewrite Hp by done. apply wp_bind. eapply wp_tload; [done|].
  assert (trigger_time ti = trig (tasks s) t) as -> by (unfold trig; by rewrite Hti).
  destruct (Z.ltb_spec x (trig (tasks s) t)) as [Hlt|Hge].
  - apply wp_bind. eapply wp_tasklist; [rewrite Hl; by apply q_iinsert_at|]. apply wp_ret. by apply (HQ L1 (t :: L2)).
  - apply wp_bind. eapply wp_tasklist; [rewrite Hl; by apply q_inext_curr|]. cbn beta iota. rewrite with_tasklist_id by done.
    rewrite (assoc_L (++) L1 [t] L2 : L1 ++ t :: L2 = _) in *.
    apply (IH ltac:(intros ? ?; apply Hlive; set_solver) (L1 ++ [t])); try done; [lia| |].
    + intros _. unfold spot_of. by rewrite last_snoc.
    + apply Forall_app. auto.
Qed.

(** The timer fires no later than the first task is due. *)
Definition timer_ok (w : Z) (s : evsched) : Prop :=
  match items (evsched_tasklist s) with
  | [] => True
  | h :: _ => ∃ x, evsched_timer s = Some x ∧ x ≤ Z.max w (trig (tasks s) h)
  end.
(** What an insertion does: the task has its place, the clock of late tasks may have been
    corrected, and everything else is as before. *)
Record inserted (now : Z) (ntp : positive) (nti : evsched_taskinfo_t) (L1 L2 : list positive) (s s' : evsched) : Prop := {
  in_list : items (evsched_tasklist s) = L1 ++ L2;
  in_list' : items (evsched_tasklist s') = L1 ++ ntp :: L2;
  in_current : evsched_current s' = evsched_current s;
  in_pending : evsched_pending s' = evsched_pending s;
  in_init : evsched_initialized s' = evsched_initialized s;
  in_traced : traced s' = traced s;
  in_ntp : tasks s' !! ntp = Some (set_resched false (set_trigger (now + ms nti) nti));
  in_others t : t ≠ ntp → tasks s' !! t = tasks s !! t ∨
    t ∈ L1 ++ L2 ∧ tasks s' !! t = (λ ti, set_trigger now (set_sched now ti)) <$> tasks s !! t;
  in_order : ordered now (tasks s') (L1 ++ ntp :: L2) }.

Section insert.
Context (now w : Z) (Hw : w ≤ now).

(** The loops, once the head of the list was looked at; [S] are the tasks whose clock
    was corrected. *)
Lemma insert_place s s0 ntp nti L nd T' S R :
  evsched_tasklist s = NSeq L nd → NoDup L → ntp ∉ L → live s L → ordered w (tasks s) L →
  tasks s !! ntp = Some nti → 0 ≤ ms nti → sched_time nti = now →
  let nti' := set_resched false (set_trigger (now + ms nti) nti) in
  s0 = with_tasks (<[ntp := nti']>) s → L = S ++ R → jumped now (tasks s0) T' S →
  ∀ timer fuel (Q : unit → evsched → Prop), (length L < fuel)%nat →
  (∀ L1 L2, let s' := with_tasklist (NSeq (L1 ++ ntp :: L2) nd) (with_timer timer (with_tasks (λ _, T') s0)) in
     inserted now ntp nti L1 L2 s s' → Q tt s') →
  wp (insert_loop fuel ntp (now + ms nti) (head L) (SIter at_root (head L) nd)) Q (with_timer timer (with_tasks (λ _, T') s0)).
Proof.
  intros Hl Hnd Hnew Hlive Ho Hn Hms Hs nti' -> HL Hj timer fuel Q Hfuel HQ.
  set (s1 := with_tasks (<[ntp := nti']>) s) in *.
  assert (∀ t, t ≠ ntp → tasks s1 !! t = tasks s !! t) as Hsame by (intros t Ht; cbn; by rewrite lookup_insert_ne).
  assert (∀ t, t ∈ L → is_Some (tasks s1 !! t)) as Hlive1.
  { intros t Ht. rewrite Hsame by (intros ->; done). by apply Hlive. }
  assert (∀ t, t ∈ L → trig (tasks s1) t = trig (tasks s) t) as Htr.
  { intros t Ht. unfold trig. rewrite Hsame; [done|]. by intros ->. }
  assert (T' !! ntp = Some nti') as Hntp.
  { rewrite (Hj ntp), bool_decide_eq_false_2 by set_solver. cbn. by rewrite lookup_insert_eq. }
  assert (ordered now T' L) as Ho'.
  { rewrite HL in *. eapply jumped_ordered; [done..|]. unfold ordered. by rewrite (ctimes_ext w (tasks s)). }
  apply (insert_loop_spec _ ntp _ [] L nd); try done.
  { intros t Ht. cbn. rewrite (Hj t). destruct (Hlive1 t Ht) as [ti ->]. by case_bool_decide. }
  cbn [app]. intros M1 M2 E H1 H2. apply HQ. split; cbn; try done.
  - by rewrite Hl, <-E.
  - intros t Ht. rewrite (Hj t). case_bool_decide as HS; rewrite Hsame by done; [|by left]. right. split; [|done].
    rewrite <-E, HL. set_solver.
  - rewrite E in Ho'. cbn in H1, H2. assert (trig T' ntp = now + ms nti) as En by (unfold trig; by rewrite Hntp).
    apply ordered_insert; [done|lia| |]; by rewrite En.
Qed.
Lemma inserted_timer ntp nti L1 L2 s s' t : inserted now ntp nti L1 L2 s s' → inserted now ntp nti L1 L2 s (with_timer t s').
Proof. by intros []; split. Qed.
(** The timer after the insertion. *)
Lemma insert_timer s ntp nti L1 L2 s' timer (S : list positive) (restart : bool) :
  inserted now ntp nti L1 L2 s s' → ntp ∉ L1 ++ L2 → evsched_timer s' = timer →
  (S = [] ∧ timer = evsched_timer s ∧ (∀ t, t ∈ L1 ++ L2 → tasks s' !! t = tasks s !! t)
   ∨ timer = if restart then Some now else evsched_timer s) →
  let t' := if restart && bool_decide (head (L1 ++ ntp :: L2) = Some ntp) then Some (now + (now + ms nti - now)) else timer in
  if restart then timer_ok w s → timer_ok now (with_timer t' s') else t' = evsched_timer s.
Proof.
  intros Hin Hnew Ht Hcase. destruct restart; cbn [andb]; [|naive_solver].
  intros Hok. unfold timer_ok in *. cbn [evsched_tasklist with_timer evsched_timer tasks]. rewrite (in_list' _ _ _ _ _ _ _ Hin).
  rewrite (in_list _ _ _ _ _ _ _ Hin) in Hok. destruct L1 as [|h L1]; cbn [app head] in *.
  - rewrite bool_decide_eq_true_2 by done. eexists. split; [done|]. unfold trig.
    rewrite (in_ntp _ _ _ _ _ _ _ Hin). cbn. lia.
  - rewrite bool_decide_eq_false_2 by (intros [= ->]; set_solver). destruct Hcase as [(_ & -> & Hsame)| ->].
    + destruct Hok as (x & -> & Hx). exists x. split; [done|]. unfold trig in *. rewrite Hsame by set_solver. lia.
    + exists now. split; [done|]. lia.
Qed.
Lemma insert_spec s ntp nti (restart : bool) L nd (Q : bool → evsched → Prop) :
  evsched_tasklist s = NSeq L nd → NoDup L → ntp ∉ L → live s L → ordered w (tasks s) L →
  tasks s !! ntp = Some nti → 0 ≤ ms nti → sched_time nti = now →
  (∀ L1 L2 s', inserted now ntp nti L1 L2 s s' →
     (if restart then timer_ok w s → timer_ok now s' else evsched_timer s' = evsched_timer s) → Q true s') →
  wp (evsched_task_insert now ntp restart) Q s.
Proof.
  intros Hl Hnd Hnew Hlive Ho Hn Hms Hs HQ. unfold evsched_task_insert. apply wp_bind.
  eapply wp_tstore; [done|]. rewrite Hs. set (nti' := set_resched false (set_trigger (now + ms nti) nti)).
  set (s0 := with_tasks (<[ntp := nti']>) s). assert (tasks s0 !! ntp = Some nti') as Hn0 by apply lookup_insert_eq.
  apply wp_bind. eapply wp_tload; [done|]. apply wp_bind, wp_gets, wp_bind.
  eapply wp_tasklist; [cbn; rewrite Hl; done|]. rewrite with_tasklist_id by done.
  replace (sched_time nti') with now by done. replace (trigger_time nti') with (now + ms nti) by done.
  set (rest := ('(tp, iter) ← on_tasklist q_ifirst;
        insert_loop (S (length (items (evsched_tasklist s0)))) ntp (now + ms nti) tp iter;;
        hd ← on_tasklist q_head;
        when_ (restart && bool_decide (hd = Some ntp)) (evsched_reset_timer now (now + ms nti - now));;
        mret true)).
  assert (∀ T' S R timer, L = S ++ R → jumped now (tasks s0) T' S →
    (S = [] ∧ timer = evsched_timer s ∨ timer = if restart then Some now else evsched_timer s) →
    wp rest Q (with_timer timer (with_tasks (λ _, T') s0))) as Hrest.
  { intros T' S R timer HL Hj Ht. apply wp_bind. eapply wp_tasklist; [cbn; rewrite Hl; apply ifirst_eq|].
    rewrite with_tasklist_id by done. cbn beta iota. apply wp_bind.
    eapply (insert_place s s0 ntp nti L nd T' S R); try done; [cbn; rewrite Hl; cbn; lia|].
    intros L1 L2 s' Hin. assert (L = L1 ++ L2) as E by (rewrite <-(in_list _ _ _ _ _ _ _ Hin), Hl; done).
    apply wp_bind. eapply wp_tasklist; [done|]. cbn [items].
    rewrite with_tasklist_id by done. apply wp_bind.
    pose proof (insert_timer s ntp nti L1 L2 s' timer S restart Hin ltac:(by rewrite <-E) eq_refl) as Hti.
    specialize (HQ L1 L2 _ (inserted_timer _ _ _ _ _ _ (if restart && bool_decide (head (L1 ++ ntp :: L2) = Some ntp)
      then Some (now + (now + ms nti - now)) else timer) Hin)).
    assert (∀ t, S = [] → t ∈ L1 ++ L2 → tasks s' !! t = tasks s !! t) as Hsame.
    { intros t -> Htl. cbn. rewrite (Hj t), bool_decide_eq_false_2 by set_solver. cbn. rewrite lookup_insert_ne; [done|].
      intros ->. by rewrite <-E in Htl. }
    destruct (restart && _); cbn [when_].
    - apply wp_modify, wp_ret, HQ, Hti. naive_solver.
    - apply wp_ret, wp_ret. apply HQ, Hti. naive_solver. }
  cbn [items]. destruct (head L) as [h|] eqn:Eh.
  - destruct L as [|h' L]; [done|]. injection Eh as ->. destruct (Hlive h) as [ti Hti]; [set_solver|].
    assert (tasks s0 !! h = Some ti) as Hti0 by (cbn; rewrite lookup_insert_ne; [done|set_solver]).
    apply wp_bind, wp_bind. eapply wp_tload; [done|]. destruct (_ <? _); cbn [when_].
    + apply wp_bind. eapply (jump_loop_spec now s0 [] (h :: L) nd); try done; [|cbn; rewrite Hl; cbn; lia|].
      { intros t Ht. cbn. rewrite lookup_insert_ne; [by apply Hlive|]. intros ->. done. }
      intros T' S R E Hj. destruct restart; cbn [when_].
      * apply wp_modify. cbn beta. rewrite Z.add_0_r. by eapply Hrest; [..|right].
      * apply wp_ret. apply (Hrest T' S R (evsched_timer s)); [done..|by right].
    + apply wp_ret. apply (Hrest (tasks s0) [] (h :: L) (evsched_timer s)); [done|apply jumped_nil|by left].
  - apply wp_bind, wp_ret. apply (Hrest (tasks s0) [] L (evsched_timer s)); [done|apply jumped_nil|by left].
Qed.
End insert.

(** ** The task scheduler: what holds while the timer callback runs task functions. *)

(** The tasks that ran. *)
Definition ran_of (tr : list trace) : list positive := omap (λ e, match e with Ran t => Some t | Marked _ => None end) tr.
(** Functions that neither move other tasks nor ask for the time of a late one. *)
Definition allowed (c : call) : Prop := match c with CUpdate _ _ | CRemaining _ => False | _ => True end.
Fixpoint quiet (p : prog) : Prop := match p with Done => True | Call c k => allowed c ∧ ∀ r, quiet (k r) end.

(** No task runs once it was marked. *)
Definition mark_stops (tr : list trace) : Prop := ∀ l1 t l2, tr = l1 ++ Marked t :: l2 → Ran t ∉ l2.
Lemma mark_stops_snoc tr e : mark_stops tr → (∀ t, e = Ran t → Marked t ∉ tr) → mark_stops (tr ++ [e]).
Proof.
  intros H He l1 t l2 E. destruct l2 as [|x l2 _] using rev_ind; [set_solver|].
  change (l1 ++ Marked t :: l2 ++ [x]) with (l1 ++ (Marked t :: l2) ++ [x]) in E. rewrite (assoc_L (++)) in E.
  apply app_inj_tail in E as [-> ->]. rewrite elem_of_app, list_elem_of_singleton. intros [Hr|<-]; [by eapply H|].
  apply (He t eq_refl). set_solver.
Qed.

Section callback.
Context (now : Z) (tr0 : list trace) (g : positive → Z).

(** The list [L] with the times [g], the tasks [X] outside of both lists; only listed tasks
    are marked, by a call since the callback began. *)
Record cinv (L X : list positive) (s : evsched) : Prop := {
  c_list : items (evsched_tasklist s) = L;
  c_init : evsched_initialized s = true;
  c_timer : evsched_timer s = None;
  c_nodup : NoDup (L ++ items (evsched_pending s) ++ X);
  c_dom t : t ∈ dom (tasks s) ↔ t ∈ L ++ items (evsched_pending s) ++ X;
  c_ms t ti : tasks s !! t = Some ti → 0 ≤ ms ti;
  c_trig t : t ∈ L → trig (tasks s) t = g t;
  c_mark t ti : tasks s !! t = Some ti → remove ti = true → t ∈ L ∧ Marked t ∈ drop (length tr0) (traced s);
  c_pend t ti : t ∈ items (evsched_pending s) → tasks s !! t = Some ti → sched_time ti = now;
  c_trace : tr0 `prefix_of` traced s;
  c_flag t ti : t ∈ L → Marked t ∈ drop (length tr0) (traced s) → tasks s !! t = Some ti → remove ti = true;
  c_stops : mark_stops (drop (length tr0) (traced s)) }.
(** The call kept the list and added marks to the trace. *)
Record calls (s s' : evsched) : Prop := {
  k_list : evsched_tasklist s' = evsched_tasklist s;
  k_cur : evsched_current s' = evsched_current s;
  k_ran : ran_of (traced s') = ran_of (traced s);
  k_trace : traced s `prefix_of` traced s' }.
Lemma calls_refl s : calls s s.
Proof. done. Qed.
Lemma calls_trans s1 s2 s3 : calls s1 s2 → calls s2 s3 → calls s1 s3.
Proof. intros [] []. split; [congruence..|by etrans]. Qed.

Lemma marked_later (tr tr' : list trace) t : tr `prefix_of` tr' →
  Marked t ∈ drop (length tr0) tr → Marked t ∈ drop (length tr0) tr'.
Proof. intros [k ->]. rewrite drop_app. set_solver. Qed.
Lemma marked_now (tr : list trace) t : tr0 `prefix_of` tr → Marked t ∈ drop (length tr0) (tr ++ [Marked t]).
Proof. intros [k ->]. rewrite <-app_assoc, drop_app_length. set_solver. Qed.

(** *** Changes of the state *)

Lemma cinv_live L X s : cinv L X s → live s L.
Proof. intros H t Ht. apply elem_of_dom, (c_dom _ _ _ H). set_solver. Qed.
Lemma cinv_eta L X s : cinv L X s → evsched_tasklist s = NSeq L (ndel (evsched_tasklist s)).
Proof. intros H. rewrite <-(c_list _ _ _ H). by destruct (evsched_tasklist s). Qed.
Lemma cinv_nodup L X s : cinv L X s → NoDup L.
Proof. intros H. by pose proof (c_nodup _ _ _ H) as [? _]%NoDup_app. Qed.
Lemma cinv_current L X s p : cinv L X s → cinv L X (with_current p s).
Proof. by intros []; split. Qed.
Lemma cinv_task_id L X s z : cinv L X s → cinv L X (with_task_id z s).
Proof. by intros []; split. Qed.
Lemma drop_trace s e : tr0 `prefix_of` traced s → drop (length tr0) (traced s ++ [e]) = drop (length tr0) (traced s) ++ [e].
Proof. intros [k ->]. by rewrite <-app_assoc, !drop_app_length. Qed.
Lemma cinv_ran L X s t : cinv L X s → Marked t ∉ drop (length tr0) (traced s) → cinv L X (with_trace (Ran t) s).
Proof.
  intros [] Hm; split; cbn; rewrite ?drop_trace by done; try done.
  - intros u ti Hu Hr. destruct (c_mark0 u ti Hu Hr). split; [done|]. set_solver.
  - etrans; [done|]. by eexists.
  - intros u ti HL Hu. apply c_flag0; [done|]. set_solver.
  - apply mark_stops_snoc; [done|]. by intros ? [= ->].
Qed.
(** The task outside changes. *)
Lemma cinv_upd_out L c s f ti : cinv L [c] s → tasks s !! c = Some ti → remove (f ti) = remove ti → 0 ≤ ms (f ti) →
  cinv L [c] (with_tasks (<[c := f ti]>) s).
Proof.
  intros [] Hc Hr Hm. assert (c ∉ L ∧ c ∉ items (evsched_pending s)) as [HL HP].
  { apply NoDup_app in c_nodup0 as (_ & ? & [_ [? _]]%NoDup_app). set_solver. }
  split; cbn; try done.
  - intros t. rewrite dom_insert_L. pose proof (c_dom0 t). pose proof (c_dom0 c). set_solver.
  - intros t x [[<- <-]|[? ?]]%lookup_insert_Some; eauto.
  - intros t Ht. rewrite <-c_trig0 by done. unfold trig. rewrite lookup_insert_ne; [done|]. by intros ->.
  - intros t x [[<- <-]|[? ?]]%lookup_insert_Some; [rewrite Hr|]; eauto.
  - intros t x Ht [[<- <-]|[? ?]]%lookup_insert_Some; [done|]. eauto.
  - intros t x Ht Hmk [[<- <-]|[? ?]]%lookup_insert_Some; [done|]. eauto.
Qed.
(** A task of the list is marked. *)
Lemma cinv_mark L X s t ti : cinv L X s → t ∈ L → tasks s !! t = Some ti →
  cinv L X (with_trace (Marked t) (with_tasks (<[t := set_remove true ti]>) s)).
Proof.
  intros [] HtL Ht. assert (∀ u, u ∈ items (evsched_pending s) → u ≠ t) as HP.
  { intros u Hu ->. apply NoDup_app in c_nodup0 as (_ & Hd & _). apply (Hd t); set_solver. }
  split; cbn; try done.
  - intros u. rewrite dom_insert_L. pose proof (c_dom0 u). pose proof (c_dom0 t). set_solver.
  - intros u x [[<- <-]|[? ?]]%lookup_insert_Some; [apply (c_ms0 t ti Ht)|eauto].
  - intros u Hu. rewrite <-c_trig0 by done. unfold trig. destruct (decide (u = t)) as [->|].
    + by rewrite lookup_insert_eq, Ht.
    + by rewrite lookup_insert_ne.
  - intros u x [[<- <-]|[? Hu]]%lookup_insert_Some Hr; [split; [done|by apply marked_now]|].
    destruct (c_mark0 u x Hu Hr). split; [done|]. eapply marked_later; [|done]. by eexists.
  - intros u x Hu [[<- <-]|[? ?]]%lookup_insert_Some; [by destruct (HP t)|]. eauto.
  - etrans; [done|]. by eexists.
  - rewrite drop_trace by done. intros u x Hu Hmk [[<- <-]|[Hne Hx]]%lookup_insert_Some; [done|]. apply (c_flag0 u x); [done| |done].
    apply elem_of_app in Hmk as [?|[=]%list_elem_of_singleton]; [done|congruence].
  - rewrite drop_trace by done. by apply mark_stops_snoc.
Qed.
(** A new task, or one from outside, is queued. *)
Lemma cinv_queue L X s c x q : cinv L X s → evsched_pending s = q → c ∉ L ++ items q ++ X → 0 ≤ ms x → remove x = false → sched_time x = now →
  cinv L X (with_pending (NSeq (items q ++ [c]) (ndel q)) (with_tasks (<[c := x]>) s)).
Proof.
  intros [] <- Hc Hm Hr Hs. split; cbn; try done.
  - rewrite <-app_assoc. assert (L ++ items (evsched_pending s) ++ [c] ++ X ≡ₚ c :: L ++ items (evsched_pending s) ++ X) as ->
      by solve_Permutation. by apply NoDup_cons.
  - intros t. rewrite dom_insert_L. pose proof (c_dom0 t). set_solver.
  - intros t y [[<- <-]|[? ?]]%lookup_insert_Some; eauto.
  - intros t Ht. rewrite <-c_trig0 by done. unfold trig. rewrite lookup_insert_ne; [done|]. intros ->. set_solver.
  - intros t y [[<- <-]|[? ?]]%lookup_insert_Some; [congruence|eauto].
  - intros t y Ht [[<- <-]|[? ?]]%lookup_insert_Some; [done|]. apply (c_pend0 t); [set_solver|done].
  - intros t y Ht Hmk [[<- <-]|[? ?]]%lookup_insert_Some; [set_solver|eauto].
Qed.
(** A task leaves the list or is freed. *)
Lemma cinv_forget L X s : cinv L X s → ∀ t, X = [t] → cinv L [] (with_tasks (delete t) s).
Proof.
  intros [] t ->. assert (t ∉ L ++ items (evsched_pending s)) as Ht.
  { rewrite app_assoc in c_nodup0. apply NoDup_app in c_nodup0 as (_ & ? & _). set_solver. }
  split; cbn; try done.
  - rewrite app_nil_r. rewrite app_assoc in c_nodup0. by apply NoDup_app in c_nodup0 as [? _].
  - intros u. rewrite dom_delete_L. pose proof (c_dom0 u). set_solver.
  - intros u x [_ ?]%lookup_delete_Some. eauto.
  - intros u Hu. rewrite <-c_trig0 by done. unfold trig. rewrite lookup_delete_ne; [done|]. set_solver.
  - intros u x [_ ?]%lookup_delete_Some. eauto.
  - intros u x Hu [_ ?]%lookup_delete_Some. eauto.
  - intros u x Hu Hmk [_ ?]%lookup_delete_Some. eauto.
Qed.
Lemma cinv_take L1 t L2 s ti nd : cinv (L1 ++ t :: L2) [] s → tasks s !! t = Some ti → remove ti = false →
  cinv (L1 ++ L2) [t] (with_tasklist (NSeq (L1 ++ L2) nd) s).
Proof.
  intros [] Ht Hr. assert ((L1 ++ t :: L2) ++ items (evsched_pending s) ++ [] ≡ₚ (L1 ++ L2) ++ items (evsched_pending s) ++ [t]) as HP
    by solve_Permutation.
  split; cbn; try done.
  - by rewrite <-HP.
  - intros u. by rewrite c_dom0, HP.
  - intros u Hu. apply c_trig0. set_solver.
  - intros u x Hu Hx. destruct (c_mark0 u x Hu Hx) as [HuL ?]. split; [|done].
    assert (u ≠ t) by congruence. set_solver.
  - intros u x Hu. apply c_flag0. set_solver.
Qed.
Lemma cinv_unmarked L X s t ti : cinv L X s → t ∈ L → tasks s !! t = Some ti → remove ti = false →
  Marked t ∉ drop (length tr0) (traced s).
Proof. intros H HL Ht Hr Hm. pose proof (c_flag _ _ _ H t ti HL Hm Ht). congruence. Qed.
Lemma cinv_drop L1 t L2 s nd : cinv (L1 ++ t :: L2) [] s →
  cinv (L1 ++ L2) [] (with_tasks (delete t) (with_tasklist (NSeq (L1 ++ L2) nd) s)).
Proof.
  intros []. assert ((L1 ++ t :: L2) ++ items (evsched_pending s) ++ [] ≡ₚ t :: (L1 ++ L2) ++ items (evsched_pending s)) as HP
    by solve_Permutation.
  rewrite HP in c_nodup0. apply NoDup_cons in c_nodup0 as [Ht Hnd].
  split; cbn; try done.
  - by rewrite app_nil_r.
  - intros u. rewrite dom_delete_L. pose proof (c_dom0 u) as Hu. rewrite HP in Hu. set_solver.
  - intros u x [_ ?]%lookup_delete_Some. eauto.
  - intros u Hu. rewrite <-c_trig0 by set_solver. unfold trig. rewrite lookup_delete_ne; [done|]. set_solver.
  - intros u x [? Hu]%lookup_delete_Some Hx. destruct (c_mark0 u x Hu Hx) as [HuL ?]. split; [|done]. set_solver.
  - intros u x Hu [_ ?]%lookup_delete_Some. eauto.
  - intros u x Hu Hmk [_ ?]%lookup_delete_Some. apply (c_flag0 u x); [set_solver|done|done].
Qed.

(** *** Calls of a task function *)

(** What every call keeps. *)
Definition respects (L : list positive) (c : positive) {A} (m : EM A) : Prop :=
  ∀ s, cinv L [c] s → evsched_current s = Some c → wp m (λ _ s', cinv L [c] s' ∧ calls s s') s.
Lemma respects_bind {A B} L c (m : EM A) (f : A → EM B) : respects L c m → (∀ a, respects L c (f a)) → respects L c (m ≫= f).
Proof.
  intros Hm Hf s Hs Hc. apply wp_bind. eapply wp_mono; [by apply Hm|]. intros a s1 [H1 K1].
  eapply wp_mono; [apply Hf; [done|by rewrite (k_cur _ _ K1)]|]. intros b s2 [H2 K2]. split; [done|]. by eapply calls_trans.
Qed.
Lemma respects_ret {A} L c (a : A) : respects L c (mret a).
Proof. intros s Hs _. by apply wp_ret. Qed.
Lemma respects_gets {A} L c (f : evsched → A) : respects L c (gets f).
Proof. intros s Hs _. by apply wp_gets. Qed.
Lemma current_live L c s : cinv L [c] s → is_Some (tasks s !! c).
Proof. intros H. apply elem_of_dom, (c_dom _ _ _ H). set_solver. Qed.
Lemma respects_tstore L c f : (∀ ti, remove (f ti) = remove ti) → (∀ ti, 0 ≤ ms ti → 0 ≤ ms (f ti)) → respects L c (tstore c f).
Proof.
  intros Hr Hm s Hs _. destruct (current_live _ _ _ Hs) as [ti Hti]. eapply wp_tstore; [done|]. split; [|by split].
  apply cinv_upd_out; [done..|]. apply Hm. by eapply c_ms.
Qed.
Lemma wrapu_nonneg w z : 0 ≤ w → 0 ≤ wrapu w z.
Proof. intros. unfold wrapu. apply Z.mod_pos_bound. lia. Qed.
Lemma respects_task L c f arg m : respects L c (evsched_task now f arg m).
Proof.
  intros s Hs Hc. apply wp_bind, wp_gets. destruct (negb _); [by apply wp_ret|]. rewrite Hc. cbn zeta.
  set (ntp := fresh (dom (tasks s))). assert (ntp ∉ dom (tasks s)) as Hf by apply is_fresh. rewrite (c_dom _ _ _ Hs) in Hf.
  apply wp_bind, wp_modify, wp_bind, wp_modify, wp_bind.
  pose proof (c_nodup _ _ _ Hs) as (_ & _ & [Hnd _]%NoDup_app)%NoDup_app.
  destruct (evsched_pending s) as [P nd] eqn:EP. cbn [items] in *.
  eapply wp_pending; [cbn; rewrite EP; apply q_insert_tail_at; [done|set_solver]|]. apply wp_ret. split; [|by split].
  apply (cinv_queue L [c] _ ntp _ (NSeq P nd)); try done; [by apply cinv_task_id|]. by apply wrapu_nonneg.
Qed.
Lemma respects_find L c f arg by_ : respects L c (evsched_task_find f arg by_).
Proof.
  intros s Hs _. eapply find_spec; [by eapply cinv_eta|by eapply cinv_nodup|by eapply cinv_live|by split].
Qed.
Lemma respects_cancel L c task : respects L c (evsched_task_cancel task).
Proof.
  intros s Hs Hc. apply wp_bind, wp_gets. destruct (negb _); [by apply wp_ret|]. rewrite Hc.
  destruct (current_live _ _ _ Hs) as [ti Hti]. apply wp_bind, wp_bind, wp_gets. rewrite Hc. apply wp_bind.
  eapply wp_tload; [done|]. apply wp_ret. destruct (_ =? _).
  - eapply (respects_bind L c _ (λ _, mret true)); [by apply respects_tstore|intros; apply respects_ret|done..].
  - apply wp_bind. eapply get_taskinfo_spec; [by eapply cinv_eta|by eapply cinv_nodup|by eapply cinv_live|..].
    { by apply wp_ret. }
    intros L1 t L2 HL. destruct (cinv_live _ _ _ Hs t) as [x Hx]; [set_solver|].
    apply wp_bind. eapply wp_tstore; [done|]. apply wp_bind, wp_modify, wp_ret. split; [apply cinv_mark; [done|set_solver|done]|].
    split; cbn; try done; [unfold ran_of; by rewrite omap_app, app_nil_r|by eexists].
Qed.
Lemma respects_call L c k : allowed k → respects L c (do_call now k).
Proof.
  destruct k; cbn [allowed do_call]; intros Ha; try done; auto using respects_task, respects_find;
    apply respects_bind; try (intros; apply respects_ret).
  - apply respects_cancel.
  - apply respects_bind; [apply respects_find|]. intros r. destruct (_ =? _); [apply respects_ret|apply respects_cancel].
  - intros s Hs Hc. apply wp_bind, wp_gets. rewrite Hc.
    by apply (respects_bind L c _ (λ _, mret true)); [apply respects_tstore|intros; apply respects_ret| |].
  - intros s Hs Hc. apply wp_bind, wp_gets. rewrite Hc.
    apply (respects_bind L c _ (λ _, mret true)); [apply respects_tstore|intros; apply respects_ret|done|done]; [done|].
    intros ti _. by apply wrapu_nonneg.
Qed.
Lemma respects_prog L c p : quiet p → respects L c (run_prog now p).
Proof.
  induction p as [|k q IH]; cbn [quiet run_prog]; [intros _; apply respects_ret|]. intros [Ha Hq].
  apply respects_bind; [by apply respects_call|]. auto.
Qed.
End callback.
