(* ===== verification/EvschedThms.v ===== *)
(** The task scheduler: the loops of the timer callback and the scheduler between events. *)
From stdpp Require Import sorting.
From S2P Require Import Prelude DsList DsListRep Evsched EvschedInv.
#[local] Open Scope Z_scope.

(** No task runs, none is marked, the memory holds the tasks of the list, which is ordered,
    and those of [X]. *)
Record base (X : list positive) (w : Z) (s : evsched) : Prop := {
  b_current : evsched_current s = None;
  b_nodup : NoDup (items (evsched_tasklist s) ++ X);
  b_dom t : t ∈ dom (tasks s) ↔ t ∈ items (evsched_tasklist s) ++ X;
  b_ms t ti : tasks s !! t = Some ti → 0 ≤ ms ti;
  b_unmarked t ti : tasks s !! t = Some ti → remove ti = false;
  b_order : ordered w (tasks s) (items (evsched_tasklist s)) }.
(** The scheduler between events, the last of which was at [w]: nothing is pending, and the
    timer does not fire late. *)
Record idle (w : Z) (s : evsched) : Prop := {
  id_base : base [] w s;
  id_pending : items (evsched_pending s) = [];
  id_timer : timer_ok w s;
  id_init : evsched_initialized s = false → items (evsched_tasklist s) = [] }.
Lemma base_later X w w' s : w ≤ w' → base X w s → base X w' s.
Proof. intros Hw []. split; try done. by eapply ordered_later. Qed.
Lemma timer_later w w' s : w ≤ w' → timer_ok w s → timer_ok w' s.
Proof. intros Hw. unfold timer_ok. destruct (items _); [done|]. intros (x & ? & ?). exists x. split; [done|]. lia. Qed.
Lemma idle_later w w' s : w ≤ w' → idle w s → idle w' s.
Proof. intros Hw []. split; try done; [by eapply base_later|by eapply timer_later]. Qed.
Lemma base_eta X w s : base X w s → evsched_tasklist s = NSeq (items (evsched_tasklist s)) (ndel (evsched_tasklist s)).
Proof. by destruct (evsched_tasklist s). Qed.
Lemma base_live X w s : base X w s → live s (items (evsched_tasklist s)).
Proof. intros H t Ht. apply elem_of_dom, (b_dom _ _ _ H). set_solver. Qed.
Lemma base_list X w s : base X w s → NoDup (items (evsched_tasklist s)).
Proof. intros H. by pose proof (b_nodup _ _ _ H) as [? _]%NoDup_app. Qed.

(** *** Insertion keeps the base *)

Lemma inserted_fields now ntp nti L1 L2 s s' t ti' :
  inserted now ntp nti L1 L2 s s' → tasks s !! ntp = Some nti → tasks s' !! t = Some ti' →
  ∃ ti, tasks s !! t = Some ti ∧ ms ti' = ms ti ∧ remove ti' = remove ti ∧ (t ∉ ntp :: L1 ++ L2 → ti' = ti).
Proof.
  intros Hin Hn Ht. destruct (decide (t = ntp)) as [->|Hne].
  - rewrite (in_ntp _ _ _ _ _ _ _ Hin) in Ht. injection Ht as <-. exists nti. split_and!; try done. set_solver.
  - destruct (in_others _ _ _ _ _ _ _ Hin t Hne) as [E|[HL E]]; rewrite E in Ht; [by exists ti'|].
    destruct (tasks s !! t) as [ti|]; [|done]. injection Ht as <-. exists ti. split_and!; try done. set_solver.
Qed.
Lemma inserted_dom now ntp nti L1 L2 s s' : inserted now ntp nti L1 L2 s s' → tasks s !! ntp = Some nti →
  dom (tasks s') = dom (tasks s).
Proof.
  intros Hin Hn. apply set_eq. intros t. rewrite !elem_of_dom. destruct (decide (t = ntp)) as [->|Hne].
  - rewrite (in_ntp _ _ _ _ _ _ _ Hin), Hn. by split.
  - destruct (in_others _ _ _ _ _ _ _ Hin t Hne) as [-> | [_ ->]]; [done|]. by rewrite fmap_is_Some.
Qed.
Lemma inserted_base now ntp nti L1 L2 X w s s' : base (ntp :: X) w s → tasks s !! ntp = Some nti →
  inserted now ntp nti L1 L2 s s' → base X now s'.
Proof.
  intros [] Hn Hin. pose proof Hin as []. assert (items (evsched_tasklist s) ++ ntp :: X ≡ₚ items (evsched_tasklist s') ++ X) as HP.
  { rewrite in_list, in_list'. solve_Permutation. }
  split.
  - congruence.
  - by rewrite <-HP.
  - intros t. by rewrite (inserted_dom _ _ _ _ _ _ _ Hin Hn), b_dom0, HP.
  - intros t ti' Ht. destruct (inserted_fields _ _ _ _ _ _ _ _ _ Hin Hn Ht) as (ti & Hti & -> & _). eauto.
  - intros t ti' Ht. destruct (inserted_fields _ _ _ _ _ _ _ _ _ Hin Hn Ht) as (ti & Hti & _ & -> & _). eauto.
  - by rewrite in_list'.
Qed.
Lemma base_insert now w X s ntp nti (restart : bool) (Q : bool → evsched → Prop) : w ≤ now → base (ntp :: X) w s →
  tasks s !! ntp = Some nti → sched_time nti = now →
  (∀ L1 L2 s', inserted now ntp nti L1 L2 s s' → base X now s' →
     (if restart then timer_ok w s → timer_ok now s' else evsched_timer s' = evsched_timer s) → Q true s') →
  wp (evsched_task_insert now ntp restart) Q s.
Proof.
  intros Hw Hb Hn Hs HQ. eapply (insert_spec now w Hw s ntp nti restart); [by eapply base_eta|by eapply base_list| |by eapply base_live
    |apply Hb|done|by eapply b_ms|done|].
  - intros Hin. pose proof (b_nodup _ _ _ Hb) as (_ & Hd & _)%NoDup_app. apply (Hd ntp Hin). set_solver.
  - intros L1 L2 s' Hin. apply (HQ L1 L2); [done|]. by eapply inserted_base.
Qed.

Section callback.
Context (now : Z) (body : Z → Z → prog) (Hquiet : ∀ f arg, quiet (body f arg)).

Section loops.
Context (tr0 : list trace) (g : positive → Z).
#[local] Abbreviation cinv := (cinv now tr0 g).

(** *** Running one task *)

Lemma pend_move L s t nd : cinv L [t] s → evsched_current s = None → ∀ ti, tasks s !! t = Some ti →
  cinv L [] (with_pending (NSeq (items (evsched_pending s) ++ [t]) nd) (with_tasks (<[t := set_sched now ti]>) s)).
Proof using Type. clear Hquiet body.
  intros Hs Hc ti Hti. assert (remove (set_sched now ti) = false) as Hr.
  { destruct (remove ti) eqn:E; [|done]. destruct (c_mark _ _ _ _ _ _ Hs t ti Hti E) as [Ht _].
    pose proof (c_nodup _ _ _ _ _ _ Hs) as (_ & Hd & _)%NoDup_app. destruct (Hd t Ht). set_solver. }
  pose proof (c_ms _ _ _ _ _ _ Hs t ti Hti) as Hm. pose proof (c_nodup _ _ _ _ _ _ Hs) as Hnd.
  pose proof (cinv_forget _ _ _ _ _ _ Hs t eq_refl) as Hf.
  pose proof (cinv_queue now tr0 g L [] _ t (set_sched now ti) (evsched_pending s) Hf eq_refl) as Hq.
  destruct (evsched_pending s) as [P nd0] eqn:EP. cbn [items ndel] in *.
  assert (t ∉ L ++ P ++ []) as Ht by (rewrite app_nil_r; rewrite app_assoc in Hnd; apply NoDup_app in Hnd as (_ & ? & _); set_solver).
  specialize (Hq Ht Hm Hr eq_refl). destruct Hq. cbn in *. rewrite insert_delete_eq in *. by split.
Qed.
Lemma run_task_spec L s t : cinv L [t] s → Marked t ∉ drop (length tr0) (traced s) →
  wp (run_task now body t) (λ _ s', cinv L [] s' ∧ evsched_tasklist s' = evsched_tasklist s ∧ evsched_current s' = None ∧
    ran_of (traced s') = ran_of (traced s) ++ [t] ∧ traced s `prefix_of` traced s') s.
Proof.
  intros Hs Hmk. apply wp_bind, wp_modify. apply (cinv_current _ _ _ _ _ _ (Some t)) in Hs. set (s1 := with_current _ s) in *.
  destruct (current_live _ _ _ _ _ _ Hs) as [ti Hti]. apply wp_bind. eapply wp_tload; [done|]. apply wp_bind, wp_modify, wp_bind.
  eapply wp_mono; [eapply (respects_prog now tr0 g L t); [apply Hquiet|by apply cinv_ran|done]|].
  intros _ s2 [H2 K2]. apply wp_bind, wp_modify. apply (cinv_current _ _ _ _ _ _ None) in H2. set (s3 := with_current None s2) in *.
  destruct (current_live _ _ _ _ _ _ H2) as [x Hx]. apply wp_bind. eapply wp_tload; [done|].
  assert (ran_of (traced s2) = ran_of (traced s) ++ [t] ∧ traced s `prefix_of` traced s2) as [Hran Hpre].
  { rewrite (k_ran _ _ K2). split; [cbn; unfold ran_of; by rewrite omap_app|]. etrans; [|apply K2]. by eexists. }
  pose proof (k_list _ _ K2) as Hlist. destruct (resched x).
  - apply wp_bind. eapply wp_tstore; [done|].
    pose proof (c_nodup _ _ _ _ _ _ H2) as (_ & _ & (Hnd & Hd & _)%NoDup_app)%NoDup_app.
    pose proof (pend_move L s3 t (ndel (evsched_pending s3)) H2 eq_refl x Hx) as Hm.
    destruct (evsched_pending s3) as [P nd] eqn:EP. cbn [items ndel] in *.
    eapply wp_pending; [cbn; change (evsched_pending s2) with (evsched_pending s3); rewrite EP; apply q_insert_tail_at; [done|]|by split_and!].
    intros Ht. apply (Hd t Ht). set_solver.
  - eapply wp_tfree; [by eexists|]. split_and!; try done. by eapply cinv_forget.
Qed.

(** *** The tasks that are due *)

Lemma due_loop_spec L s nd fuel (Q : unit → evsched → Prop) :
  cinv L [] s → evsched_current s = None → evsched_tasklist s = NSeq L nd → (length L < fuel)%nat →
  (∀ s' D L' runs, L = D ++ L' → cinv L' [] s' → evsched_current s' = None →
     Forall (λ t, g t ≤ now) D → match head L' with Some t => now < g t | None => True end →
     runs `sublist_of` D → (∀ t, t ∈ D → t ∈ runs ∨ Marked t ∈ drop (length tr0) (traced s')) →
     ran_of (traced s') = ran_of (traced s) ++ runs → traced s `prefix_of` traced s' → Q tt s') →
  wp (due_loop now body fuel (head L) (SIter at_root (head L) nd)) Q s.
Proof.
  revert L s nd Q. induction fuel as [|fuel IH]; intros [|t L] s nd Q Hs Hc Hl Hfuel HQ; cbn [length head due_loop] in *; try lia.
  { apply wp_ret. apply (HQ s [] [] []); rewrite ?app_nil_r; first [done | set_solver]. }
  destruct (cinv_live _ _ _ _ _ _ Hs t) as [ti Hti]; [set_solver|]. apply wp_bind. eapply wp_tload; [done|].
  assert (trigger_time ti = g t) as ->.
  { rewrite <-(c_trig _ _ _ _ _ _ Hs t) by set_solver. unfold trig. by rewrite Hti. }
  destruct (Z.ltb_spec now (g t)) as [Hlt|Hge].
  { apply wp_ret. apply (HQ s [] (t :: L) []); rewrite ?app_nil_r; first [done | set_solver]. }
  pose proof (cinv_nodup _ _ _ _ _ _ Hs) as Hnd.
  apply wp_bind. eapply wp_tasklist; [rewrite Hl; by apply (q_iremove_at [] t L)|]. cbn beta iota. apply wp_bind.
  set (s1 := with_tasklist _ s).
  assert (∀ s2 runs, cinv L [] s2 → evsched_current s2 = None → evsched_tasklist s2 = evsched_tasklist s1 →
    runs `sublist_of` [t] → (t ∈ runs ∨ Marked t ∈ drop (length tr0) (traced s2)) →
    ran_of (traced s2) = ran_of (traced s) ++ runs → traced s `prefix_of` traced s2 →
    wp ('(tp, iter) ← on_tasklist (q_inext (SIter (spot_of []) None (wrapu 32 (nd + 1)))); due_loop now body fuel tp iter) Q s2) as Hgo.
  { intros s2 runs H2 C2 L2 Hsub Hm Hran Hpre. pose proof (cinv_nodup _ _ _ _ _ _ H2) as Hnd2.
    apply wp_bind. eapply wp_tasklist; [rewrite L2; by apply (q_inext_removed [] L)|]. cbn beta iota.
    rewrite with_tasklist_id by done. apply IH; [done..|lia|].
    intros s' D L' runs' -> H' C' HD Hh Hsub' Hm' Hran' Hpre'.
    apply (HQ s' (t :: D) L' (runs ++ runs')); [done|done|done| |done| | | |by etrans].
    - by constructor.
    - by apply (sublist_app _ [t]).
    - intros u [->|Hu]%elem_of_cons.
      + destruct Hm; [left; set_solver|right]. by eapply marked_later.
      + destruct (Hm' u Hu); [left; set_solver|by right].
    - by rewrite Hran', Hran, <-app_assoc. }
  destruct (remove ti) eqn:Er.
  - eapply wp_tfree; [by eexists|]. destruct (c_mark _ _ _ _ _ _ Hs t ti Hti Er) as [_ Hm].
    apply (Hgo _ []); try done; [by apply (cinv_drop _ _ _ [])|by apply sublist_nil_l|by right|by rewrite app_nil_r].
  - eapply wp_mono; [eapply run_task_spec; [by eapply (cinv_take _ _ _ [])|apply (cinv_unmarked now tr0 g (t :: L) [] s t ti); [done|set_solver|done..]]|].
    intros _ s2 (H2 & L2 & C2 & R2 & P2). apply (Hgo s2 [t]); try done. left. set_solver.
Qed.

(** *** The marked tasks *)

Lemma sweep_loop_spec L1 L2 s nd fuel p (Q : unit → evsched → Prop) :
  cinv (L1 ++ L2) [] s → evsched_tasklist s = NSeq (L1 ++ L2) nd → (length L2 < fuel)%nat → (L2 ≠ [] → p = spot_of L1) →
  (∀ t ti, t ∈ L1 → tasks s !! t = Some ti → remove ti = false) →
  (∀ s' K, cinv (L1 ++ K) [] s' → K `sublist_of` L2 → (∀ t, t ∈ L2 → t ∈ K ∨ Marked t ∈ drop (length tr0) (traced s)) →
     (∀ t ti, tasks s' !! t = Some ti → remove ti = false) → (∀ t, t ∈ L1 ++ K → tasks s' !! t = tasks s !! t) →
     traced s' = traced s → evsched_current s' = evsched_current s → evsched_pending s' = evsched_pending s → Q tt s') →
  wp (sweep_loop fuel (head L2) (SIter p (head L2) nd)) Q s.
Proof using Type. clear Hquiet body.
  revert L1 L2 s nd p Q. induction fuel as [|fuel IH]; intros L1 [|t L2] s nd p Q Hs Hl Hfuel Hp Hu HQ;
    cbn [length head sweep_loop] in *; try lia.
  { apply wp_ret. rewrite app_nil_r in *. apply (HQ s []); try done; rewrite ?app_nil_r; try done; [set_solver|].
    intros t ti Ht. destruct (remove ti) eqn:E; [|done]. destruct (c_mark _ _ _ _ _ _ Hs t ti Ht E) as [HL _].
    by rewrite (Hu t ti HL Ht) in E. }
  rewrite Hp by done. pose proof (cinv_nodup _ _ _ _ _ _ Hs) as Hnd.
  destruct (cinv_live _ _ _ _ _ _ Hs t) as [ti Hti]; [set_solver|]. apply wp_bind. eapply wp_tload; [done|].
  apply wp_bind. destruct (remove ti) eqn:Er.
  - apply wp_bind. eapply wp_tasklist; [rewrite Hl; by apply q_iremove_at|]. cbn beta iota. apply wp_bind. eapply wp_tfree; [by eexists|].
    apply wp_ret, wp_bind. pose proof (cinv_drop now tr0 g L1 t L2 s (wrapu 32 (nd + 1)) Hs) as H1.
    pose proof (cinv_nodup _ _ _ _ _ _ H1) as Hnd1.
    eapply wp_tasklist; [cbn; by apply q_inext_removed|]. cbn beta iota. rewrite with_tasklist_id by done.
    apply (IH L1 L2); try done; [lia| |].
    + intros u x Hu1. cbn. intros [_ Hx]%lookup_delete_Some. by apply (Hu u).
    + intros s' K H' HK Hm Hun Hsame Htr Hc Hpd. apply (HQ s' K); try done; [by constructor| |].
      * intros u [->|HuL]%elem_of_cons; [right; by apply (c_mark _ _ _ _ _ _ Hs t ti)|auto].
      * intros u HuK. rewrite Hsame by done. cbn. apply lookup_delete_ne. intros <-.
        apply NoDup_app in Hnd as (_ & Hd & [Ht _]%NoDup_cons). apply elem_of_app in HuK as [?|HuK]; [apply (Hd t); set_solver|].
        apply Ht. by eapply elem_of_sublist.
  - apply wp_ret, wp_bind. eapply wp_tasklist; [rewrite Hl; by apply q_inext_curr|]. cbn beta iota. rewrite with_tasklist_id by done.
    rewrite (assoc_L (++) L1 [t] L2 : L1 ++ t :: L2 = _) in *. apply (IH (L1 ++ [t])); try done; [lia| | |].
    + intros _. unfold spot_of. by rewrite last_snoc.
    + intros u x [HuL| ->%list_elem_of_singleton]%elem_of_app Hx; [by apply (Hu u)|congruence].
    + intros s' K H' HK Hm Hun Hsame Htr Hc Hpd. rewrite <-app_assoc in H', Hsame. apply (HQ s' (t :: K)); try done; [by constructor|].
      intros u [->|HuL]%elem_of_cons; [left; set_solver|]. destruct (Hm u HuL); [left; set_solver|by right].
Qed.
End loops.

(** *** The pending tasks *)

Record pinv (P : list positive) (s : evsched) : Prop := {
  p_base : base P now s;
  p_pend : items (evsched_pending s) = P;
  p_init : evsched_initialized s = true;
  p_timer : evsched_timer s = None;
  p_sched t ti : t ∈ P → tasks s !! t = Some ti → sched_time ti = now;
  p_late t : t ∈ items (evsched_tasklist s) → now ≤ trig (tasks s) t }.
Lemma pinv_insert t P s s' nti nd L1 L2 : pinv (t :: P) s → tasks s !! t = Some nti →
  inserted now t nti L1 L2 (with_pending (NSeq P nd) s) s' → base P now s' → evsched_timer s' = evsched_timer s → pinv P s'.
Proof using Type. clear Hquiet body.
  intros [] Hn Hin Hb Ht. pose proof Hin as []. split; try done.
  - by rewrite in_pending.
  - by rewrite in_init.
  - congruence.
  - intros u ti' Hu Hti'. destruct (inserted_fields _ _ _ _ _ _ _ _ _ Hin Hn Hti') as (ti & Hti & _ & _ & E).
    rewrite E; [apply (p_sched0 u); [set_solver|done]|]. cbn in in_list. rewrite <-in_list.
    pose proof (b_nodup _ _ _ p_base0) as (_ & Hd & [Htp _]%NoDup_cons)%NoDup_app. intros [->|Hul]%elem_of_cons; [done|].
    apply (Hd u Hul). set_solver.
  - intros u Hu. rewrite in_list' in Hu. destruct (decide (u = t)) as [->|Hne].
    + unfold trig. rewrite in_ntp. cbn. pose proof (b_ms _ _ _ p_base0 t nti Hn). lia.
    + destruct (in_others u Hne) as [E|[_ E]]; unfold trig; rewrite E.
      * apply p_late0. cbn in in_list. rewrite in_list. set_solver.
      * cbn. destruct (base_live _ _ _ Hb u) as [x Hx]; [rewrite in_list'; done|]. cbn in E. rewrite E in Hx.
        destruct (tasks s !! u) as [y|]; [|done]. cbn. lia.
Qed.
Lemma pending_loop_spec P s nd fuel (Q : unit → evsched → Prop) :
  pinv P s → evsched_pending s = NSeq P nd → (length P < fuel)%nat →
  (∀ s', pinv [] s' → items (evsched_tasklist s') ≡ₚ items (evsched_tasklist s) ++ P → traced s' = traced s → Q tt s') →
  wp (pending_loop now fuel (head P) (SIter at_root (head P) nd)) Q s.
Proof using Type. clear Hquiet body.
  revert P s nd Q. induction fuel as [|fuel IH]; intros [|t P] s nd Q Hs Hl Hfuel HQ; cbn [length head pending_loop] in *; try lia.
  { apply wp_ret. apply HQ; [done|by rewrite app_nil_r|done]. }
  pose proof (b_nodup _ _ _ (p_base _ _ Hs)) as (_ & _ & Hnd)%NoDup_app.
  assert (is_Some (tasks s !! t)) as [nti Hn] by (apply elem_of_dom, (b_dom _ _ _ (p_base _ _ Hs)); set_solver).
  apply wp_bind. eapply wp_pending; [rewrite Hl; by apply (q_iremove_at [] t P)|]. cbn beta iota. set (s1 := with_pending _ s).
  assert (base (t :: P) now s1) as Hb1 by (by destruct (p_base _ _ Hs)).
  apply wp_bind. eapply (base_insert now now P s1 t nti false); [done..|apply (p_sched _ _ Hs t); [set_solver|done]|].
  intros L1 L2 s2 Hin Hb2 Ht2. apply wp_bind, wp_ret, wp_bind. apply NoDup_cons in Hnd as [_ Hnd].
  pose proof (pinv_insert t P s s2 nti _ L1 L2 Hs Hn Hin Hb2 Ht2) as H2.
  eapply wp_pending; [rewrite (in_pending _ _ _ _ _ _ _ Hin); by apply (q_inext_removed [] P)|]. cbn beta iota.
  rewrite with_pending_id by apply Hin. apply IH; [done|apply Hin|lia|].
  intros s' H' HP Htr. apply HQ; [done| |].
  - rewrite HP, (in_list' _ _ _ _ _ _ _ Hin). pose proof (in_list _ _ _ _ _ _ _ Hin) as E. cbn in E. rewrite E. solve_Permutation.
  - by rewrite Htr, (in_traced _ _ _ _ _ _ _ Hin).
Qed.
End callback.
