(* ===== verification/EvschedProps.v ===== *)
(** The properties of the task scheduler. *)
From stdpp Require Import sorting.
From S2P Require Import Prelude DsList DsListRep Evsched EvschedInv EvschedThms.
#[local] Open Scope Z_scope.

(** *** The timer callback *)

(** What the callback at [now] does to the tasks: [runs] were run, in the order of the
    list. *)
Record callback_done (now : Z) (runs : list positive) (s s' : evsched) : Prop := {
  cd_idle : idle now s';
  cd_ran : ran_of (traced s') = ran_of (traced s) ++ runs;
  cd_runs : runs `sublist_of` items (evsched_tasklist s);
  cd_due t : t ∈ items (evsched_tasklist s) → trig (tasks s) t ≤ now →
    t ∈ runs ∨ Marked t ∈ drop (length (traced s)) (traced s');
  cd_later t : t ∈ items (evsched_tasklist s) → now < trig (tasks s) t →
    t ∉ runs ∧ (t ∈ items (evsched_tasklist s') ↔ Marked t ∉ drop (length (traced s)) (traced s'));
  cd_cancelled : mark_stops (drop (length (traced s)) (traced s'));
  cd_rest t : t ∈ items (evsched_tasklist s') → now ≤ trig (tasks s') t;
  cd_timer : evsched_timer s' = trig (tasks s') <$> head (items (evsched_tasklist s')) }.

Lemma idle_cinv now w s : idle w s → evsched_initialized s = true →
  cinv now (traced s) (trig (tasks s)) (items (evsched_tasklist s)) [] (with_timer None s).
Proof.
  intros [[] HP Ht _] Hi. split; cbn; try done; rewrite ?HP.
  - done.
  - intros t. by rewrite b_dom.
  - intros t ti E Hr. by rewrite (b_unmarked t ti E) in Hr.
  - set_solver.
  - rewrite drop_all. set_solver.
  - rewrite drop_all. by intros [] ? ? ?.
Qed.
Lemma ordered_all_later now w T L t : w ≤ now → ordered w T (t :: L) → now < trig T t → Forall (λ u, now < trig T u) (t :: L).
Proof.
  intros Hw Ho Ht. constructor; [done|]. apply ordered_head_le in Ho. eapply Forall_impl; [exact Ho|]. cbn. lia.
Qed.
(** After the sweep only tasks that are due later are left. *)
Lemma swept_pinv now w s s2 D L' K : w ≤ now → idle w s → items (evsched_tasklist s) = D ++ L' →
  cinv now (traced s) (trig (tasks s)) K [] s2 → K `sublist_of` L' → (∀ t ti, tasks s2 !! t = Some ti → remove ti = false) →
  evsched_current s2 = None → (∀ t, t ∈ L' → now < trig (tasks s) t) → pinv now (items (evsched_pending s2)) s2.
Proof.
  intros Hw Hs HL [] HK Hun C2 Hlate. rewrite app_nil_r in *. split; try done; [split; try done|].
  - by rewrite c_list.
  - intros t. by rewrite c_dom, c_list.
  - rewrite c_list. apply (ordered_later w now); [done|]. unfold ordered. rewrite (ctimes_ext w (tasks s)) by done.
    eapply ordered_sublist; [|apply (b_order _ _ _ (id_base _ _ Hs))]. rewrite HL. etrans; [done|]. by apply sublist_inserts_l.
  - intros t Ht. rewrite c_list in Ht. rewrite c_trig by done. apply Z.lt_le_incl, Hlate. by eapply elem_of_sublist.
Qed.
Lemma callback_spec now w body s : (∀ f arg, quiet (body f arg)) → w ≤ now → idle w s → evsched_initialized s = true →
  wp (evsched_timer_callback now body) (λ _ s', ∃ runs, callback_done now runs s s') s.
Proof.
  intros Hq Hw Hs Hi. pose proof (idle_cinv now w s Hs Hi) as H0. unfold evsched_timer_callback. apply wp_bind, wp_modify.
  destruct (evsched_tasklist s) as [L nd] eqn:El. cbn [items] in H0. set (g := trig (tasks s)) in *. set (s0 := with_timer None s) in *.
  apply wp_bind, wp_gets, wp_bind.
  eapply wp_tasklist; [cbn; rewrite El; apply ifirst_eq|]. cbn beta iota. rewrite with_tasklist_id by done. apply wp_bind.
  eapply (due_loop_spec now body Hq (traced s) g L s0); [done|apply Hs|done|cbn; rewrite El; cbn; lia|].
  intros s1 D L' runs HL H1 C1 HD Hh Hsub Hm Hran Hpre. apply wp_bind.
  eapply wp_tasklist; [rewrite (cinv_eta _ _ _ _ _ _ H1); apply ifirst_eq|]. cbn beta iota.
  rewrite with_tasklist_id by (by eapply cinv_eta). apply wp_bind.
  eapply (sweep_loop_spec now (traced s) g [] L' s1); [done|by eapply cinv_eta| |done|set_solver|].
  { cbn. rewrite El. cbn. rewrite HL, length_app. lia. }
  cbn [app]. intros s2 K H2 HK Hm2 Hun Hsame Htr C2 HPd.
  assert (∀ t, t ∈ L' → now < g t) as Hlate.
  { destruct L' as [|t L']; [set_solver|]. apply Forall_forall. apply (ordered_all_later now w); [done| |done].
    eapply ordered_sublist; [|apply (b_order _ _ _ (id_base _ _ Hs))]. rewrite El. cbn. rewrite HL. by apply sublist_inserts_l. }
  pose proof (swept_pinv now w s s2 D L' K Hw Hs ltac:(by rewrite El) H2 HK Hun ltac:(by rewrite C2) Hlate) as Hp2.
  destruct (evsched_pending s2) as [P ndp] eqn:EP. cbn [items] in Hp2.
  apply wp_bind, wp_gets, wp_bind.
  eapply wp_pending; [rewrite EP; apply ifirst_eq|]. cbn beta iota. rewrite with_pending_id by done. apply wp_bind.
  eapply (pending_loop_spec now P s2); [done|done|rewrite EP; cbn; lia|]. intros s3 H3 HP Htr3. apply wp_bind.
  eapply wp_tasklist; [done|]. rewrite with_tasklist_id by done.
  assert (∀ x, x = trig (tasks s3) <$> head (items (evsched_tasklist s3)) → ∃ runs, callback_done now runs s (with_timer x s3)) as Hdone.
  { intros x ->. exists runs. pose proof H3 as [Hb3 Hpe3 Hi3 _ _ Hl3]. rewrite (c_list _ _ _ _ _ _ H2) in HP.
    assert (traced s3 = traced s1) as E3 by congruence.
    split; cbn; rewrite ?E3, ?El; cbn [items]; rewrite ?HL; try done.
    - split; cbn; try done; [by destruct Hb3| |by rewrite Hi3]. unfold timer_ok. cbn.
      destruct (items (evsched_tasklist s3)) as [|h l]; [done|]. cbn. eexists. split; [done|]. lia.
    - by apply sublist_inserts_r.
    - intros t Ht Hd. apply Hm. apply elem_of_app in Ht as [?|Ht]; [done|]. apply Hlate in Ht. unfold g in Ht. lia.
    - intros t Ht Hd. split.
      + intros Hr. assert (t ∈ D) as HtD by (by eapply elem_of_sublist). rewrite Forall_forall in HD. apply HD in HtD. unfold g in HtD. lia.
      + apply elem_of_app in Ht as [Ht|Ht]; [rewrite Forall_forall in HD; apply HD in Ht; unfold g in Ht; lia|]. rewrite HP. split.
        * intros [HK2|HP2]%elem_of_app Hmk.
          -- destruct (cinv_live _ _ _ _ _ _ H2 t HK2) as [ti Hti]. rewrite <- Htr in Hmk.
             pose proof (c_flag _ _ _ _ _ _ H2 t ti HK2 Hmk Hti). by rewrite (Hun t ti Hti) in *.
          -- pose proof (c_nodup _ _ _ _ _ _ H1) as (_ & Hdj & _)%NoDup_app. apply (Hdj t Ht). rewrite <- HPd. cbn. set_solver.
        * intros Hmk. destruct (Hm2 t Ht); [set_solver|done].
    - rewrite <-Htr. apply H2. }
  destruct (items (evsched_tasklist s3)) as [|h l] eqn:E3; cbn [head].
  - apply wp_ret. specialize (Hdone None eq_refl). rewrite <-(p_timer _ _ _ H3) in Hdone. by destruct s3.
  - destruct (base_live _ _ _ (p_base _ _ _ H3) h) as [ti Hti]; [rewrite E3; set_solver|]. apply wp_bind. eapply wp_tload; [done|].
    apply wp_modify, Hdone. cbn. unfold trig. rewrite Hti. cbn. f_equal. lia.
Qed.

(** *** Calls between events *)

Lemma timer_ok_ext w s s' : evsched_tasklist s' = evsched_tasklist s → evsched_timer s' = evsched_timer s →
  (∀ t, t ∈ items (evsched_tasklist s) → trig (tasks s') t = trig (tasks s) t) → timer_ok w s → timer_ok w s'.
Proof.
  intros El Et Ht. unfold timer_ok. rewrite El, Et. destruct (items _) as [|h l]; [done|]. by rewrite Ht by set_solver.
Qed.
(** Without one of its tasks the list is still ordered and the timer not late. *)
Lemma timer_ok_without w s L1 t L2 nd : evsched_tasklist s = NSeq (L1 ++ t :: L2) nd → ordered w (tasks s) (L1 ++ t :: L2) →
  timer_ok w s → ∀ nd', timer_ok w (with_tasklist (NSeq (L1 ++ L2) nd') s).
Proof.
  intros El Ho Ht nd'. unfold timer_ok in *. rewrite El in Ht. cbn in *. destruct L1 as [|h L1]; [|done]. cbn in *.
  destruct L2 as [|u L2]; [done|]. destruct Ht as (x & ? & ?). exists x. split; [done|].
  apply ordered_head_le in Ho. apply Forall_cons in Ho as [? _]. lia.
Qed.
Lemma idle_without w s L1 t L2 nd nd' : idle w s → evsched_tasklist s = NSeq (L1 ++ t :: L2) nd →
  let s' := with_tasklist (NSeq (L1 ++ L2) nd') s in base [t] w s' ∧ timer_ok w s'.
Proof.
  intros [[] HP Ht Hi] El. rewrite El in *. cbn [items] in *. split; [|by eapply timer_ok_without].
  assert ((L1 ++ t :: L2) ++ [] ≡ₚ (L1 ++ L2) ++ [t]) as HPe by solve_Permutation. split; cbn; try done.
  - by rewrite <-HPe.
  - intros u. by rewrite b_dom, HPe.
  - eapply ordered_sublist; [|done]. apply sublist_app; [done|]. by apply sublist_cons.
Qed.
(** An insertion makes the scheduler idle again. *)
Lemma idle_insert now w s ntp nti (Q : bool → evsched → Prop) : w ≤ now → base [ntp] w s → timer_ok w s →
  items (evsched_pending s) = [] → evsched_initialized s = true → tasks s !! ntp = Some nti → sched_time nti = now →
  (∀ s', idle now s' → Q true s') → wp (evsched_task_insert now ntp true) Q s.
Proof.
  intros Hw Hb Ht HP Hi Hn Hs HQ. eapply (base_insert now w [] s ntp nti true); [done..|].
  intros L1 L2 s' Hin Hb' Ht'. apply HQ. split; [done|by rewrite (in_pending _ _ _ _ _ _ _ Hin)|auto|].
  rewrite (in_init _ _ _ _ _ _ _ Hin), Hi. done.
Qed.
Lemma base_store X w s t f ti : base X w s → t ∈ X → tasks s !! t = Some ti → 0 ≤ ms (f ti) → remove (f ti) = false →
  base X w (with_tasks (<[t := f ti]>) s).
Proof.
  intros [] Ht Hti Hm Hr. assert (t ∉ items (evsched_tasklist s)) as Hl.
  { apply NoDup_app in b_nodup as (_ & Hd & _). intros Hl. by apply (Hd t). }
  split; cbn; try done.
  - intros u. rewrite dom_insert_L. pose proof (b_dom u). pose proof (b_dom t). set_solver.
  - intros u x [[<- <-]|[? ?]]%lookup_insert_Some; eauto.
  - intros u x [[<- <-]|[? ?]]%lookup_insert_Some; eauto.
  - unfold ordered. rewrite (ctimes_ext w (tasks s)); [done|]. intros u Hu. unfold trig. rewrite lookup_insert_ne; [done|]. by intros ->.
Qed.

Lemma task_idle now w f arg m s : w ≤ now → idle w s → wp (evsched_task now f arg m) (λ _ s', idle now s') s.
Proof.
  intros Hw Hs. apply wp_bind, wp_gets. destruct (evsched_initialized s) eqn:Ei; cbn [negb]; [|by eapply wp_ret, idle_later].
  pose proof Hs as [Hb HP Ht _]. pose proof Hb as []. rewrite b_current. cbn zeta.
  set (ntp := fresh (dom (tasks s))). assert (ntp ∉ dom (tasks s)) as Hf by apply is_fresh.
  assert (ntp ∉ items (evsched_tasklist s)) as Hl by (rewrite b_dom in Hf; set_solver).
  apply wp_bind, wp_modify, wp_bind, wp_modify, wp_bind. eapply (idle_insert now w _ ntp);
    [done| | |done|done|apply lookup_insert_eq|done|intros s' Hs'; by apply wp_ret].
  - split; cbn; try done.
    + rewrite app_nil_r in b_nodup. apply NoDup_app. split_and!; [done|set_solver|apply NoDup_singleton].
    + intros t. rewrite dom_insert_L. pose proof (b_dom t). set_solver.
    + intros t x [[<- <-]|[? ?]]%lookup_insert_Some; [by apply wrapu_nonneg|eauto].
    + intros t x [[<- <-]|[? ?]]%lookup_insert_Some; [done|eauto].
    + unfold ordered. rewrite (ctimes_ext w (tasks s)); [done|]. intros u Hu. unfold trig. rewrite lookup_insert_ne; [done|]. by intros ->.
  - eapply timer_ok_ext; [..|exact Ht]; [done..|]. intros t Htl. unfold trig. cbn. rewrite lookup_insert_ne; [done|]. by intros ->.
Qed.
Lemma find_idle now w f arg by_ s : w ≤ now → idle w s → wp (evsched_task_find f arg by_) (λ _ s', s' = s) s.
Proof.
  intros Hw [Hb _ _ _]. eapply find_spec; [by eapply base_eta|by eapply base_list|by eapply base_live|done].
Qed.
Lemma update_idle now w task m s : w ≤ now → idle w s → wp (evsched_task_update now task m) (λ _ s', idle now s') s.
Proof.
  intros Hw Hs. apply wp_bind, wp_gets. destruct (evsched_initialized s) eqn:Ei; cbn [negb]; [|by eapply wp_ret, idle_later].
  pose proof Hs as [Hb HP Ht _]. apply wp_bind, wp_bind, wp_gets. rewrite (b_current _ _ _ Hb). apply wp_ret, wp_bind.
  pose proof (base_eta _ _ _ Hb) as El.
  eapply get_taskinfo_spec; [done|by eapply base_list|by eapply base_live|by eapply wp_ret, idle_later|].
  intros L1 t L2 HL. rewrite HL in El. destruct (idle_without w s L1 t L2 _ (wrapu 32 (ndel (evsched_tasklist s) + 1)) Hs El) as [Hb1 Ht1].
  set (s1 := with_tasklist _ s) in *. assert (is_Some (tasks s1 !! t)) as [ti Hti] by (apply elem_of_dom, (b_dom _ _ _ Hb1); set_solver).
  pose proof (b_ms _ _ _ Hb1 t ti Hti) as Hm. pose proof (b_unmarked _ _ _ Hb1 t ti Hti) as Hr.
  assert (t ∈ [t]) as Hin by set_solver.
  apply wp_bind. eapply wp_tstore; [done|]. apply wp_bind, wp_gets. cbn. rewrite (b_current _ _ _ Hb).
  apply wp_bind. eapply wp_tstore; [apply lookup_insert_eq|].
  pose proof (base_store _ _ _ _ (set_sched now) _ Hb1 Hin Hti Hm Hr) as Hb2.
  assert (0 ≤ ms (set_ms (wrapu 32 m) (set_sched now ti))) as Hm3 by (by apply wrapu_nonneg).
  pose proof (base_store _ _ _ t (set_ms (wrapu 32 m)) (set_sched now ti) Hb2 Hin (lookup_insert_eq _ _ _) Hm3 Hr) as Hb3.
  apply wp_bind. eapply (idle_insert now w _ t); [done|exact Hb3| |done|done|apply lookup_insert_eq|done|intros s' Hs'; by apply wp_ret].
  eapply timer_ok_ext; [..|exact Ht1]; [done..|]. intros u Hu. unfold trig. cbn.
  assert (u ≠ t) as Hne. { intros ->. pose proof (b_nodup _ _ _ Hb1) as (_ & Hd & _)%NoDup_app. by apply (Hd t). }
  by rewrite !lookup_insert_ne by done.
Qed.
Lemma base_free t w s : base [t] w s → base [] w (with_tasks (delete t) s).
Proof.
  intros []. assert (t ∉ items (evsched_tasklist s)) as Ht.
  { apply NoDup_app in b_nodup as (_ & Hd & _). intros Hl. apply (Hd t Hl). set_solver. }
  split; cbn; try done.
  - rewrite app_nil_r. by apply NoDup_app in b_nodup as [? _].
  - intros u. rewrite dom_delete_L. pose proof (b_dom u). set_solver.
  - intros u x [_ ?]%lookup_delete_Some. eauto.
  - intros u x [_ ?]%lookup_delete_Some. eauto.
  - unfold ordered. rewrite (ctimes_ext w (tasks s)); [done|]. intros u Hu. unfold trig. rewrite lookup_delete_ne; [done|]. by intros <-.
Qed.
Lemma cancel_idle now w task s : w ≤ now → idle w s → wp (evsched_task_cancel task) (λ _ s', idle now s') s.
Proof.
  intros Hw Hs. apply wp_bind, wp_gets. destruct (evsched_initialized s) eqn:Ei; cbn [negb]; [|by eapply wp_ret, idle_later].
  pose proof Hs as [Hb HP Ht _]. rewrite (b_current _ _ _ Hb). apply wp_bind. pose proof (base_eta _ _ _ Hb) as El.
  eapply get_taskinfo_spec; [done|by eapply base_list|by eapply base_live|by eapply wp_ret, idle_later|].
  intros L1 t L2 HL. rewrite HL in El. destruct (idle_without w s L1 t L2 _ (wrapu 32 (ndel (evsched_tasklist s) + 1)) Hs El) as [Hb1 Ht1].
  set (s1 := with_tasklist _ s) in *. apply wp_bind. eapply wp_tfree; [apply elem_of_dom, (b_dom _ _ _ Hb1); set_solver|].
  apply wp_ret. apply (idle_later w now); [done|]. split; [by apply base_free|done| |cbn; by rewrite Ei].
  eapply timer_ok_ext; [..|exact Ht1]; [done..|]. intros u Hu. unfold trig. cbn. rewrite lookup_delete_ne; [done|].
  intros <-. pose proof (b_nodup _ _ _ Hb1) as (_ & Hd & _)%NoDup_app. apply (Hd t Hu). set_solver.
Qed.
Lemma call_idle now w c s : (∀ task, c ≠ CRemaining task) → w ≤ now → idle w s → wp (do_call now c) (λ _ s', idle now s') s.
Proof.
  intros Hc Hw Hs. assert (idle now s) as Hn by (by eapply idle_later). pose proof (b_current _ _ _ (id_base _ _ Hs)) as Hcur.
  destruct c; cbn [do_call].
  - by apply (task_idle now w).
  - eapply wp_mono; [by eapply find_idle|]. by intros _ ? ->.
  - by destruct (Hc task).
  - apply wp_bind. eapply wp_mono; [by eapply update_idle|]. intros b s' H'. by apply wp_ret.
  - apply wp_bind. eapply wp_mono; [by eapply cancel_idle|]. intros b s' H'. by apply wp_ret.
  - apply wp_bind, wp_bind. eapply wp_mono; [by eapply find_idle|]. intros r ? ->. destruct (_ =? _); [by do 2 apply wp_ret|].
    eapply wp_mono; [by eapply cancel_idle|]. intros b s' H'. by apply wp_ret.
  - apply wp_bind, wp_bind, wp_gets. rewrite Hcur. by do 2 apply wp_ret.
  - apply wp_bind, wp_bind, wp_gets. rewrite Hcur. by do 2 apply wp_ret.
Qed.
Lemma remaining_same now w task s r s' : idle w s → do_call now (CRemaining task) s = Some (r, s') → s' = s.
Proof.
  intros [Hb _ _ _] E. pose proof (base_eta _ _ _ Hb) as El. revert E. cbn [do_call].
  cut (∀ m : EM Z, m = evsched_task_remaining now task → m s = Some (r, s') → s' = s); [intros H; by apply H|]. intros m ->.
  unfold evsched_task_remaining. unfold mbind at 1, M_bind at 1, gets at 1. destruct (negb _); [by intros [= _ ->]|].
  unfold mbind at 1, M_bind at 1.
  pose proof (get_taskinfo_spec s task false _ _ (λ _ s1, s1 = s) El (base_list _ _ _ Hb) (base_live _ _ _ Hb) eq_refl
    (λ _ _ _ _, eq_refl)) as Hw. unfold wp in Hw. destruct (evsched_get_taskinfo task false s) as [[p s1]|]; [|done]. subst s1.
  destruct p as [t|]; [|by intros [= _ ->]]. unfold tload, mbind, M_bind, gets, deref.
  destruct (tasks s !! t); [|done]. cbn. destruct (_ <? _); [done|]. by intros [= _ ->].
Qed.

(** *** Starting and stopping *)

Lemma cleanup_loop_spec L w s nd fuel (Q : unit → evsched → Prop) : base [] w s → evsched_tasklist s = NSeq L nd →
  (length L < fuel)%nat →
  (∀ s', base [] w s' → items (evsched_tasklist s') = [] → evsched_pending s' = evsched_pending s → Q tt s') →
  wp (cleanup_loop fuel (head L) (SIter at_root (head L) nd)) Q s.
Proof.
  revert L s nd. induction fuel as [|fuel IH]; intros [|t L] s nd Hb Hl Hfuel HQ; cbn [length head cleanup_loop] in *; try lia.
  { apply wp_ret, HQ; [done|by rewrite Hl|done]. }
  pose proof (base_list _ _ _ Hb) as Hnd. rewrite Hl in Hnd. apply wp_bind.
  eapply wp_tasklist; [rewrite Hl; by apply (q_iremove_at [] t L)|]. cbn beta iota.
  assert (base [t] w (with_tasklist (NSeq L (wrapu 32 (nd + 1))) s)) as Hb1.
  { destruct Hb. rewrite Hl in *. cbn [items] in *. split; cbn; try done.
    - rewrite app_nil_r in b_nodup. by rewrite (comm (++) L [t] : L ++ [t] ≡ₚ _).
    - intros u. rewrite b_dom. set_solver.
    - eapply ordered_sublist; [|done]. by apply sublist_cons. }
  apply wp_bind. eapply wp_tfree; [apply elem_of_dom, (b_dom _ _ _ Hb1); set_solver|]. apply wp_bind. apply NoDup_cons in Hnd as [_ Hnd].
  eapply wp_tasklist; [by apply (q_inext_removed [] L)|]. cbn beta iota. rewrite with_tasklist_id by done.
  apply IH; [by apply base_free|done|lia|]. intros s' Hb' He Hp. by apply HQ.
Qed.
Lemma cleanup_idle now w s : w ≤ now → idle w s → wp evsched_cleanup (λ _ s', idle now s') s.
Proof.
  intros Hw Hs. apply wp_bind, wp_gets. destruct (negb _); [by eapply wp_ret, idle_later|]. pose proof Hs as [Hb HP _ _].
  apply wp_bind, wp_modify, wp_bind, wp_gets, wp_bind.
  eapply wp_tasklist; [cbn; rewrite (base_eta _ _ _ Hb); apply ifirst_eq|]. cbn beta iota.
  rewrite with_tasklist_id by (cbn; by destruct (evsched_tasklist s)). apply wp_bind.
  eapply (cleanup_loop_spec _ w); [by destruct Hb|cbn; by destruct (evsched_tasklist s)|cbn; lia|]. intros s' Hb' He Hp.
  apply wp_bind, wp_modify, wp_ret. apply (idle_later w now); [done|]. split; cbn; try done; [by destruct Hb'|by rewrite Hp|].
  unfold timer_ok. cbn. by rewrite He.
Qed.
Lemma init_idle now w s : w ≤ now → idle w s → wp evsched_init (λ _ s', idle now s') s.
Proof.
  intros Hw Hs. apply wp_bind, wp_gets. pose proof Hs as [Hb HP _ Hi].
  destruct (evsched_initialized s); [by eapply wp_ret, idle_later|]. specialize (Hi eq_refl).
  do 4 apply wp_bind, wp_modify. apply wp_ret. pose proof Hb as []. rewrite Hi in *. by split.
Qed.

(** *** Any sequence of events *)

Definition initial : evsched := Sched ∅ None 1 (NSeq [] 0) (NSeq [] 0) None false [].
(** An event at [now]: starting, stopping, a call from outside of a task, the timer. *)
Inductive step (now : Z) (s s' : evsched) : Prop :=
  | step_init b : evsched_init s = Some (b, s') → step now s s'
  | step_cleanup b : evsched_cleanup s = Some (b, s') → step now s s'
  | step_call c r : do_call now c s = Some (r, s') → step now s s'
  | step_timer body : (∀ f arg, quiet (body f arg)) → evsched_initialized s = true →
      evsched_timer_callback now body s = Some (tt, s') → step now s s'.
(** The states at time [w] after events at times that do not decrease. *)
Inductive reach : Z → evsched → Prop :=
  | reach_initial w : reach w initial
  | reach_step w now s s' : reach w s → w ≤ now → step now s s' → reach now s'.
Lemma wp_result {S A} (m : M S A) Q s a s' : wp m Q s → m s = Some (a, s') → Q a s'.
Proof. unfold wp. intros H E. by rewrite E in H. Qed.
Lemma reach_idle w s : reach w s → idle w s.
Proof.
  induction 1 as [w|w now s s' _ IH Hw Hstep].
  { split; try done. split; try done; [apply NoDup_nil_2|intros t; cbn; rewrite dom_empty; set_solver|constructor]. }
  destruct Hstep as [b E|b E|c r E|body Hq Hi E].
  - by eapply (wp_result _ _ _ _ _ (init_idle now w s Hw IH)).
  - by eapply (wp_result _ _ _ _ _ (cleanup_idle now w s Hw IH)).
  - assert ((∃ task, c = CRemaining task) ∨ ∀ task, c ≠ CRemaining task) as [[task ->]|Hc] by (destruct c; naive_solver).
    + apply (remaining_same now w) in E as ->; [|done]. by eapply idle_later.
    + by eapply (wp_result _ _ _ _ _ (call_idle now w c s Hc Hw IH)).
  - destruct (wp_result _ _ _ _ _ (callback_spec now w body s Hq Hw IH Hi) E) as [runs []]. done.
Qed.

(** C5.  After any events the timer callback at a time [now] ends without a fault when the
    task functions do not update other tasks or ask for the time of late ones.  It runs,
    in the order of the list and each once, the tasks that are due and were not cancelled
    before their turn, and no task once it was cancelled; a task that is not due does not
    run, and stays in the list exactly if it was not cancelled; tasks scheduled meanwhile
    do not run (nor can they, or a task that asked to run again, be cancelled before the
    callback ends, [evsched_cancel_misses_pending]).  Afterwards no task that is
    still scheduled is overdue, the list is ordered, holds every allocated task, and the
    timer is set to the time of its first one.  A task is due by its trigger time, which an
    insertion that takes a long delay for a jump of the clock has moved forward
    ([evsched_long_delay_runs_early]).  Calls from outside of a task (other than the
    query for the time of a late task) do not fault either. *)
Theorem evsched_callback_correct w now body s :
  reach w s → w ≤ now → evsched_initialized s = true → (∀ f arg, quiet (body f arg)) →
  (∃ s' runs, evsched_timer_callback now body s = Some (tt, s') ∧ callback_done now runs s s') ∧
  (∀ c, (∀ task, c ≠ CRemaining task) → ∃ r s', do_call now c s = Some (r, s') ∧ idle now s').
Proof.
  intros Hs%reach_idle Hw Hi Hq. split.
  - pose proof (callback_spec now w body s Hq Hw Hs Hi) as ([] & s' & E & runs & Hd)%wp_some. eauto.
  - intros c Hc. pose proof (call_idle now w c s Hc Hw Hs) as (r & s' & E & ?)%wp_some. eauto.
Qed.

(** *** Examples *)

(** The state after a computation. *)
Definition after {A} (m : EM A) (s : evsched) : evsched := default s (snd <$> m s).
(** Three tasks scheduled at 0, for 100, 20 and 10 ms. *)
Definition example_sched : evsched :=
  after (do_call 0 (CTask 1 7 10)) (after (do_call 0 (CTask 2 7 20)) (after (do_call 0 (CTask 1 7 100)) (after evsched_init initial))).
(** The function 1 runs again after 50 ms and schedules a task; the function 2 cancels the
    first task. *)
Definition example_body (f arg : Z) : prog :=
  if f =? 1 then Call (CReschedMs 50) (λ _, Call (CTask 3 0 5) (λ _, Done))
  else if f =? 2 then Call (CCancel 1) (λ _, Done) else Done.
Example example_callback :
  (λ p, (traced p.2, items (evsched_tasklist p.2), evsched_timer p.2)) <$> evsched_timer_callback 25 example_body example_sched
  = Some ([Ran 3; Ran 2; Marked 1], [4; 3]%positive, Some 30).
Proof. vm_compute. reflexivity. Qed.
Lemma reach_call w now c s : reach w s → w ≤ now → (∀ task, c ≠ CRemaining task) → reach now (after (do_call now c) s).
Proof.
  intros Hs Hw Hc. pose proof (call_idle now w c s Hc Hw (reach_idle w s Hs)) as (r & s' & E & _)%wp_some.
  eapply reach_step; [done..|]. eapply (step_call _ _ _ c r). unfold after. by rewrite E.
Qed.
Lemma example_reach : reach 0 example_sched.
Proof.
  do 3 (apply (reach_call 0); [|done|done]). eapply (reach_step 0); [apply reach_initial|done|]. by eapply step_init.
Qed.
Lemma evsched_callback_correct_witness :
  (∃ s' runs, evsched_timer_callback 25 example_body example_sched = Some (tt, s') ∧ callback_done 25 runs example_sched s') ∧
  (∀ c, (∀ task, c ≠ CRemaining task) → ∃ r s', do_call 25 c example_sched = Some (r, s') ∧ idle 25 s').
Proof.
  apply (evsched_callback_correct 0 25 example_body example_sched); [apply example_reach|done|done|].
  intros f arg. unfold example_body. destruct (_ =? _); [by split_and!|]. by destruct (_ =? _).
Defined.
(** A task that updates another scheduled task makes the iterator of the callback stale: the
    program aborts. *)
Theorem evsched_update_aborts :
  evsched_timer_callback 25 (λ f _, if f =? 2 then Call (CUpdate 1 500) (λ _, Done) else Done) example_sched = None.
Proof. vm_compute. reflexivity. Qed.
(** A task that has asked to run again cannot be cancelled by the tasks that run after it. *)
Theorem evsched_cancel_misses_pending :
  (λ p, items (evsched_tasklist p.2)) <$>
    evsched_timer_callback 25 (λ f _, if f =? 1 then Call CResched (λ _, Done) else Call (CCancel 3) (λ _, Done)) example_sched
  = Some [3; 1]%positive.
Proof. vm_compute. reflexivity. Qed.
(** A task for two days from now is taken for a jump of the clock as soon as another one is
    scheduled after one day: it becomes due at once. *)
Theorem evsched_long_delay_runs_early :
  let day := 24 * 3600 * 1000 in
  (λ p, trig (tasks p.2) 1) <$> (evsched_init;; evsched_task 0 1 0 (2 * day);; evsched_task (day + 1) 2 0 5000) initial
  = Some (day + 1).
Proof. vm_compute. reflexivity. Qed.
