(* ===== verification/KeySeq.v ===== *)
(** Trees seen as sequences of entries in the order of their keys.

    A [ds_tree_t] of structures that embed their node is the sequence of these
    structures in the order of a comparison function of their keys: lookup,
    insertion and removal on the sequence are what the operations on red-black trees do
    to the in-order sequence (KeySeqTree.v).  The caches built on trees look an
    entry up before they insert it, so their sequences are strictly ascending. *)
From Stdlib Require Import Sorting.Sorted.
From S2P Require Import Prelude DsTree DsTreeInv.

(** *** Comparison functions *)

Section orders.
Context {K : Type}.

Lemma cmp_eq_sym (cmp : K → K → Z) `{!KeyOrder cmp} a b : cmp a b = 0%Z → cmp b a = 0%Z.
Proof. intros. pose proof (cmp_anti cmp a b). pose proof (cmp_anti cmp b a). lia. Qed.
Lemma cmp_eq_refl (cmp : K → K → Z) `{!KeyOrder cmp} a : cmp a a = 0%Z.
Proof. pose proof (cmp_anti cmp a a). lia. Qed.
Lemma cmp_lt_trans (cmp : K → K → Z) `{!KeyOrder cmp} a b c :
  (cmp a b < 0 → cmp b c < 0 → cmp a c < 0)%Z.
Proof.
  intros Hab Hbc. pose proof (cmp_trans cmp a b c). pose proof (cmp_trans cmp c a b).
  pose proof (cmp_anti cmp b c). pose proof (cmp_anti cmp c a). pose proof (cmp_anti cmp a c). lia.
Qed.
(** Keys that compare equal compare alike with every other key. *)
Lemma cmp_eq_l (cmp : K → K → Z) `{!KeyOrder cmp} a b c :
  cmp a b = 0%Z → (cmp a c < 0 ↔ cmp b c < 0)%Z ∧ (0 < cmp a c ↔ 0 < cmp b c)%Z.
Proof.
  intros Hab. pose proof (cmp_eq_sym cmp _ _ Hab) as Hba.
  pose proof (cmp_trans cmp a b c). pose proof (cmp_trans cmp b a c).
  pose proof (cmp_trans cmp c a b). pose proof (cmp_trans cmp c b a).
  pose proof (cmp_anti cmp a c). pose proof (cmp_anti cmp c a).
  pose proof (cmp_anti cmp b c). pose proof (cmp_anti cmp c b). lia.
Qed.
Lemma cmp_eq_r (cmp : K → K → Z) `{!KeyOrder cmp} a b c :
  cmp a b = 0%Z → (cmp c a < 0 ↔ cmp c b < 0)%Z ∧ (0 < cmp c a ↔ 0 < cmp c b)%Z.
Proof.
  intros Hab. destruct (cmp_eq_l cmp a b c Hab).
  pose proof (cmp_anti cmp a c). pose proof (cmp_anti cmp c a).
  pose proof (cmp_anti cmp b c). pose proof (cmp_anti cmp c b). lia.
Qed.
Lemma cmp_eq_trans (cmp : K → K → Z) `{!KeyOrder cmp} a b c :
  cmp a b = 0%Z → cmp b c = 0%Z → cmp a c = 0%Z.
Proof. intros Hab ?. destruct (cmp_eq_l cmp a b c Hab). lia. Qed.

(** One comparison after the other. *)
Definition cmp_lex (c1 c2 : K → K → Z) (a b : K) : Z :=
  let c := c1 a b in if (c =? 0)%Z then c2 a b else c.
#[export] Instance cmp_lex_order c1 c2 : KeyOrder c1 → KeyOrder c2 → KeyOrder (cmp_lex c1 c2).
Proof.
  intros H1 H2. split; unfold cmp_lex.
  - intros a b. pose proof (cmp_anti c1 a b). pose proof (cmp_anti c1 b a). pose proof (cmp_anti c2 a b).
    destruct (Z.eqb_spec (c1 a b) 0), (Z.eqb_spec (c1 b a) 0); lia.
  - intros a b c. pose proof (cmp_trans c1 a b c). pose proof (cmp_trans c2 a b c).
    destruct (Z.eqb_spec (c1 a b) 0) as [Eab|], (Z.eqb_spec (c1 b c) 0) as [Ebc|].
    + rewrite (cmp_eq_trans c1 a b c Eab Ebc). done.
    + destruct (cmp_eq_l c1 a b c Eab). destruct (Z.eqb_spec (c1 a c) 0); lia.
    + destruct (cmp_eq_r c1 b c a Ebc). destruct (Z.eqb_spec (c1 a c) 0); lia.
    + pose proof (cmp_lt_trans c1 a b c). destruct (Z.eqb_spec (c1 a c) 0); lia.
Qed.
Lemma cmp_lex_zero c1 c2 a b : cmp_lex c1 c2 a b = 0%Z ↔ c1 a b = 0%Z ∧ c2 a b = 0%Z.
Proof. unfold cmp_lex. destruct (Z.eqb_spec (c1 a b) 0); naive_solver. Qed.

(** The comparison of a part of the key. *)
Lemma cmp_proj_order {A} (f : A → K) cmp : KeyOrder cmp → KeyOrder (λ a b, cmp (f a) (f b)).
Proof. intros. split; intros; [apply cmp_anti; apply _|eapply cmp_trans; eauto]. Qed.
End orders.

#[export] Instance cmp_sub_order : KeyOrder Z.sub.
Proof. split; intros; lia. Qed.

(** [memcmp]: the difference of the first bytes that differ.  The cases of unequal
    lengths are not reached by calls with as many bytes as they ask for. *)
Fixpoint memcmp (a b : list Z) : Z :=
  match a, b with
  | [], [] => 0
  | [], _ => -1
  | _, [] => 1
  | x :: a, y :: b => if (x =? y)%Z then memcmp a b else x - y
  end.
Lemma memcmp_zero a b : memcmp a b = 0%Z ↔ a = b.
Proof.
  revert b. induction a as [|x a IH]; intros [|y b]; simpl; try done.
  destruct (Z.eqb_spec x y); [subst; rewrite IH; naive_solver|]. split; [lia|congruence].
Qed.
#[export] Instance memcmp_order : KeyOrder memcmp.
Proof.
  split.
  - intros a. induction a as [|x a IH]; intros [|y b]; simpl; try lia.
    destruct (Z.eqb_spec x y), (Z.eqb_spec y x); try lia. apply IH.
  - intros a. induction a as [|x a IH]; intros [|y b] [|z c]; simpl; try lia.
    destruct (Z.eqb_spec x y), (Z.eqb_spec y z), (Z.eqb_spec x z); try lia. apply IH.
Qed.

(** *** Sequences *)

Section keyseq.
Context {K A : Type} (cmp : K → K → Z) (key : A → K).

(** [ds_tree_find]: the position of an entry with an equal key. *)
Definition ks_find (k : K) (l : list A) : option nat := fst <$> list_find (λ a, cmp (key a) k = 0%Z) l.
Definition ks_get (k : K) (l : list A) : option A := snd <$> list_find (λ a, cmp (key a) k = 0%Z) l.
(** [ds_tree_insert]: in front of the first entry that is not smaller. *)
Fixpoint ks_insert (a : A) (l : list A) : list A :=
  match l with
  | [] => [a]
  | b :: l' => if (cmp (key b) (key a) <? 0)%Z then b :: ks_insert a l' else a :: l
  end.
(** Ascending, no two entries with equal keys. *)
Definition ks_sorted (l : list A) : Prop := StronglySorted (λ a b, (cmp (key a) (key b) < 0)%Z) l.

Lemma ks_find_get k l i : ks_find k l = Some i → ∃ a, l !! i = Some a ∧ ks_get k l = Some a ∧ cmp (key a) k = 0%Z.
Proof.
  unfold ks_find, ks_get. intros (p & Hp & ->)%fmap_Some. destruct p as [j a]. rewrite Hp.
  apply list_find_Some in Hp as (? & ? & _). naive_solver.
Qed.
Lemma ks_find_none k l : ks_find k l = None ↔ ks_get k l = None.
Proof. unfold ks_find, ks_get. destruct (list_find _ _); naive_solver. Qed.
Lemma ks_get_some k l a : ks_get k l = Some a → a ∈ l ∧ cmp (key a) k = 0%Z.
Proof.
  unfold ks_get. intros ([j b] & Hp & ->)%fmap_Some. apply list_find_Some in Hp as (Hl & ? & _).
  split; [by eapply list_elem_of_lookup_2|done].
Qed.
Lemma ks_get_none k l : ks_get k l = None ↔ Forall (λ a, cmp (key a) k ≠ 0%Z) l.
Proof. unfold ks_get. rewrite fmap_None. apply list_find_None. Qed.
Lemma ks_get_cons k a l : ks_get k (a :: l) = if decide (cmp (key a) k = 0%Z) then Some a else ks_get k l.
Proof. unfold ks_get. simpl. destruct (decide _); [done|]. by destruct (list_find _ l) as [[]|]. Qed.
Lemma ks_find_cons k a l :
  ks_find k (a :: l) = if decide (cmp (key a) k = 0%Z) then Some 0 else S <$> ks_find k l.
Proof. unfold ks_find. simpl. destruct (decide _); [done|]. by destruct (list_find _ l) as [[]|]. Qed.

Lemma ks_insert_perm a l : ks_insert a l ≡ₚ a :: l.
Proof. induction l as [|b l IH]; simpl; [done|]. destruct (_ <? _)%Z; [|done]. rewrite IH. solve_Permutation. Qed.
Lemma ks_insert_length a l : length (ks_insert a l) = S (length l).
Proof. by rewrite ks_insert_perm. Qed.
Lemma ks_sorted_sublist l1 l2 : l1 `sublist_of` l2 → ks_sorted l2 → ks_sorted l1.
Proof.
  unfold ks_sorted. intros Hs. induction 1 as [|b l Hl IH Hb] in l1, Hs |- *.
  - apply sublist_nil_r in Hs as ->. constructor.
  - apply sublist_cons_r in Hs as [Hs|(l1' & -> & Hs)]; [by apply IH|].
    constructor; [by apply IH|]. rewrite Forall_forall in Hb |- *. intros x Hx. apply Hb. by eapply elem_of_sublist.
Qed.
Lemma ks_sorted_delete i l : ks_sorted l → ks_sorted (delete i l).
Proof. apply ks_sorted_sublist. apply sublist_delete. Qed.
Lemma ks_sorted_filter (P : A → Prop) `{!∀ a, Decision (P a)} l : ks_sorted l → ks_sorted (filter P l).
Proof. apply ks_sorted_sublist. apply sublist_filter. Qed.
(** A change that keeps the keys keeps the order. *)
Lemma ks_sorted_keys l1 l2 : key <$> l1 = key <$> l2 → ks_sorted l1 → ks_sorted l2.
Proof.
  intros Hk H. induction H as [|a l Hl IH Ha] in l2, Hk |- *; destruct l2 as [|b l2]; try done; [constructor|].
  injection Hk as Ha' Hk. constructor; [by apply IH|].
  assert (Forall (λ k, (cmp (key b) k < 0)%Z) (key <$> l2)) as Hf; [|by rewrite Forall_fmap in Hf].
  change (list_fmap A K key) with (fmap (M:=list) key) in Hk. rewrite <- Hk, Forall_fmap, <- Ha'. done.
Qed.
Lemma ks_find_keys k l1 l2 : key <$> l1 = key <$> l2 → ks_find k l1 = ks_find k l2.
Proof.
  revert l2. induction l1 as [|a l IH]; intros [|b l2] Hk; try done. injection Hk as Ha Hk.
  by rewrite !ks_find_cons, Ha, (IH l2) by done.
Qed.
Lemma keys_alter f i (l : list A) : (∀ a, l !! i = Some a → key (f a) = key a) → key <$> alter f i l = key <$> l.
Proof.
  intros Hf. apply list_eq. intros j. rewrite !list_lookup_fmap.
  destruct (decide (i = j)) as [->|]; [|by rewrite list_lookup_alter_ne].
  rewrite list_lookup_alter_eq. destruct (l !! j) as [a|] eqn:E; simpl; [by rewrite Hf|done].
Qed.

Context `{!KeyOrder cmp}.

Lemma ks_sorted_insert a l : ks_sorted l → ks_get (key a) l = None → ks_sorted (ks_insert a l).
Proof.
  intros Hs Hn. rewrite ks_get_none in Hn. induction Hs as [|b l Hl IH Hb]; simpl; [repeat constructor|].
  apply Forall_cons in Hn as [Hne Hn]. destruct (Z.ltb_spec (cmp (key b) (key a)) 0) as [Hlt|Hge].
  - constructor; [by apply IH|]. rewrite ks_insert_perm. by constructor.
  - assert (cmp (key a) (key b) < 0)%Z as Hab by (apply (cmp_anti cmp); lia).
    constructor; [by constructor|]. constructor; [done|]. apply (Forall_impl _ _ _ Hb).
    intros x. cbn. by apply (cmp_lt_trans cmp).
Qed.
(** In a strictly ascending sequence the entry found is the only one. *)
Lemma ks_get_elem k l a : ks_sorted l → a ∈ l → cmp (key a) k = 0%Z → ks_get k l = Some a.
Proof.
  induction 1 as [|b l Hl IH Hb]; intros Ha Hk; [by apply not_elem_of_nil in Ha|].
  rewrite ks_get_cons. apply elem_of_cons in Ha as [->|Ha]; [by rewrite decide_True|].
  rewrite decide_False; [by apply IH|]. intros Hbk. rewrite Forall_forall in Hb. specialize (Hb _ Ha). cbn in Hb.
  pose proof (cmp_eq_trans cmp _ _ _ Hbk (cmp_eq_sym cmp _ _ Hk)). lia.
Qed.
Lemma ks_get_insert k a l :
  ks_sorted l → ks_get (key a) l = None →
  ks_get k (ks_insert a l) = if decide (cmp (key a) k = 0%Z) then Some a else ks_get k l.
Proof.
  intros Hs Hn. pose proof (ks_sorted_insert _ _ Hs Hn) as Hs'. destruct (decide _) as [E|NE].
  - apply ks_get_elem; [done| |done]. rewrite ks_insert_perm. set_solver.
  - destruct (ks_get k l) as [b|] eqn:E.
    + apply ks_get_some in E as [Hb E]. apply ks_get_elem; [done| |done]. rewrite ks_insert_perm. set_solver.
    + rewrite ks_get_none in E |- *. rewrite ks_insert_perm. by constructor.
Qed.
Lemma ks_get_delete k i l a : ks_sorted l → l !! i = Some a →
  ks_get k (delete i l) = if decide (cmp (key a) k = 0%Z) then None else ks_get k l.
Proof.
  intros Hs Hi. revert i Hi. induction Hs as [|b l Hl IH Hb]; intros i Hi; [done|].
  destruct i as [|i]; simplify_eq/=.
  - rewrite ks_get_cons. destruct (decide _) as [E|]; [|done]. rewrite ks_get_none.
    apply (Forall_impl _ _ _ Hb). cbn. intros x Hx Hxk.
    pose proof (cmp_eq_trans cmp _ _ _ E (cmp_eq_sym cmp _ _ Hxk)). lia.
  - rewrite !ks_get_cons, (IH i) by done. destruct (decide (cmp (key b) k = 0%Z)) as [Eb|]; [|done].
    rewrite decide_False; [done|]. intros Ea. apply list_elem_of_lookup_2 in Hi.
    rewrite Forall_forall in Hb. specialize (Hb _ Hi). cbn in Hb.
    pose proof (cmp_eq_trans cmp _ _ _ Eb (cmp_eq_sym cmp _ _ Ea)). lia.
Qed.
Lemma ks_get_alter g k i l a : ks_sorted l → l !! i = Some a → key (g a) = key a →
  ks_get k (alter g i l) = if decide (cmp (key a) k = 0%Z) then Some (g a) else ks_get k l.
Proof.
  intros Hs Hi Hk. assert (key <$> alter g i l = key <$> l) as Hks.
  { apply keys_alter. intros b Hb. by simplify_eq. }
  assert (ks_sorted (alter g i l)) as Hs' by (by eapply ks_sorted_keys; [symmetry|]). destruct (decide _) as [E|NE].
  - apply ks_get_elem; [done| |by rewrite Hk]. apply (list_elem_of_lookup_2 _ i). by rewrite list_lookup_alter_eq, Hi.
  - destruct (ks_get k l) as [b|] eqn:Eb.
    + apply ks_get_some in Eb as [[j Hj]%list_elem_of_lookup Eb]. apply ks_get_elem; [done| |done].
      apply (list_elem_of_lookup_2 _ j). rewrite list_lookup_alter_ne; [done|]. intros ->. naive_solver.
    + apply ks_find_none. rewrite (ks_find_keys _ _ _ Hks). by apply ks_find_none.
Qed.
Lemma ks_get_filter (P : A → Prop) `{!∀ a, Decision (P a)} k l : ks_sorted l →
  ks_get k (filter P l) = match ks_get k l with Some a => if decide (P a) then Some a else None | None => None end.
Proof.
  intros Hs. destruct (ks_get k l) as [a|] eqn:E.
  - apply ks_get_some in E as [Ha Hk]. destruct (decide _) as [Hp|Hp].
    + apply ks_get_elem; [by apply ks_sorted_filter| |done]. by apply list_elem_of_filter.
    + rewrite ks_get_none. apply Forall_forall. intros b (Hb & Hbl)%list_elem_of_filter Hbk. apply Hp.
      assert (Some b = Some a) as [= ->]; [|done]. by rewrite <- (ks_get_elem k l b), <- (ks_get_elem k l a).
  - rewrite ks_get_none in E |- *. rewrite Forall_forall in E |- *. intros b (_ & Hb)%list_elem_of_filter. by apply E.
Qed.
End keyseq.
