(* ===== verification/KeySeqTree.v ===== *)
(** The red-black tree in memory implements the sequences of KeySeq.v: what links
    the trees of the caches to the pointer structure of src/lib/ds. *)
From Stdlib Require Import Sorting.Sorted.
From S2P Require Import Prelude DsTree DsTreeRep DsTreeInv DsTreeInsert DsTreeRemove DsTreeWalk DsTreeThms KeySeq.

Section keyseq_tree.
Context {K A : Type} (cmp : K → K → Z) `{!KeyOrder cmp} (key : A → K).

(** The key of a structure with the address of its node. *)
Definition nkey (x : positive * A) : K := key x.2.
(** A tree in memory whose nodes are those of the structures of the sequence. *)
Definition tree_of (s : ds_tree K) (l : list (positive * A)) : Prop :=
  holds s ((λ x, (x.1, nkey x)) <$> l).

Lemma entries_fst (l : list (positive * A)) : ((λ x, (x.1, nkey x)) <$> l).*1 = l.*1.
Proof. rewrite <- list_fmap_compose. by apply list_fmap_ext. Qed.
Lemma entries_sorted l : ks_sorted cmp nkey l → sorted cmp ((λ x, (x.1, nkey x)) <$> l).
Proof.
  induction 1 as [|a l _ IH Ha]; [constructor|]. rewrite fmap_cons. constructor; [done|].
  rewrite Forall_fmap. apply (Forall_impl _ _ _ Ha). unfold entry_le. cbn. intros. lia.
Qed.
Lemma entries_insert n a (l : list (positive * A)) :
  (λ x, (x.1, nkey x)) <$> ks_insert cmp nkey (n, a) l = list_ins cmp n (key a) ((λ x, (x.1, nkey x)) <$> l).
Proof.
  induction l as [|b l IH]; [done|]. simpl. unfold cmp_dir, nkey at 2 4. cbn [snd].
  destruct (_ <? _)%Z; [|done]. rewrite fmap_cons. by f_equal.
Qed.
Lemma entries_delete i n a (l : list (positive * A)) :
  NoDup l.*1 → l !! i = Some (n, a) →
  (λ x, (x.1, nkey x)) <$> delete i l = list_del n ((λ x, (x.1, nkey x)) <$> l).
Proof.
  intros Hnd Hi. rewrite <- (entries_fst l) in Hnd. rewrite <- (take_drop_middle l i (n, a) Hi) in Hnd |- *.
  rewrite fmap_app, fmap_cons in Hnd |- *. rewrite list_del_mid by done.
  rewrite delete_take_drop, fmap_app, take_drop_middle by done. done.
Qed.

(** C31. Lookup, insertion and removal on a tree in memory are those on the sequence:
    the node found is that of the structure found, a new structure goes where the
    sequence puts it and a removal takes out the structure at its position.  The
    comparison function has to be an order, and no two structures may have equal
    keys. *)
Theorem ds_tree_implements_keyseq s l :
  tree_of s l → ks_sorted cmp nkey l →
  (∀ k, ds_tree_find cmp k s = Some (fst <$> ks_get cmp nkey k l, s)) ∧
  (∀ n a old, nodes s !! n = Some old → n ∉ l.*1 → ks_get cmp nkey (key a) l = None →
     ∃ s', ds_tree_node_insert cmp n (key a) s = Some (tt, s') ∧ tree_of s' (ks_insert cmp nkey (n, a) l) ∧
       ks_sorted cmp nkey (ks_insert cmp nkey (n, a) l)) ∧
  (∀ i n a, l !! i = Some (n, a) →
     ∃ r s', ds_tree_node_remove n s = Some (r, s') ∧ tree_of s' (delete i l) ∧ ks_sorted cmp nkey (delete i l)).
Proof.
  intros Ht Hs. pose proof (entries_sorted _ Hs) as Hes. split_and!.
  - intros k. pose proof (ds_tree_find_holds cmp _ _ k Ht Hes) as Hw.
    apply wp_some in Hw as (res & s' & -> & -> & Hf). do 2 f_equal. destruct res as [n|]; simpl in Hf.
    + destruct Hf as (k' & (x & [= -> ->] & Hx)%list_elem_of_fmap & Hk).
      by rewrite (ks_get_elem cmp nkey k l x).
    + symmetry. apply fmap_None, ks_get_none, Forall_forall. intros x Hx. apply (Hf x.1).
      apply list_elem_of_fmap. eauto.
  - intros n a old Hn Hnew Hk. rewrite <- entries_fst in Hnew.
    pose proof (ds_tree_node_insert_holds cmp _ _ _ (key a) _ Ht Hes Hn Hnew) as Hw.
    apply wp_some in Hw as ([] & s' & -> & Hh & _). exists s'. split_and!; [done| |].
    + unfold tree_of. by rewrite entries_insert.
    + by apply ks_sorted_insert.
  - intros i n a Hi. assert (n ∈ ((λ x, (x.1, nkey x)) <$> l).*1) as Hn.
    { rewrite entries_fst. apply list_elem_of_fmap. exists (n, a). split; [done|]. by eapply list_elem_of_lookup_2. }
    pose proof (ds_tree_node_remove_holds _ _ _ Ht Hn) as Hw.
    apply wp_some in Hw as (r & s' & -> & Hh & _). exists r, s'. split_and!; [done| |].
    + unfold tree_of. rewrite (entries_delete _ n a); [done| |done].
      rewrite <- entries_fst. by eapply holds_nodup.
    + by apply ks_sorted_delete.
Qed.
End keyseq_tree.

Lemma ds_tree_implements_keyseq_witness : ∃ s', ds_tree_node_insert ds_str_cmp 2%positive "bar" foo_tree = Some (tt, s') ∧
  tree_of id s' [(2%positive, "bar"); (1%positive, "foo")].
Proof.
  destruct (ds_tree_implements_keyseq ds_str_cmp id foo_tree [(1%positive, "foo")]) as (_ & Hins & _).
  - apply singleton_holds.
  - repeat constructor.
  - destruct (Hins 2%positive "bar" (Node "" BLACK None None None)) as (s' & Hrun & Ht & _).
    + vm_compute. reflexivity.
    + simpl. intros H%list_elem_of_singleton. discriminate.
    + vm_compute. reflexivity.
    + exists s'. split; [exact Hrun|exact Ht].
Defined.
