(* ===== verification/GkCache.v ===== *)
(** The gatekeeper cache: verdicts per device for names, addresses, applications and
    flows (src/lib/gatekeeper_cache/src/gatekeeper_cache.c, gatekeeper_cache_flow_add.c,
    gatekeeper_cache_flow_lookup.c, gatekeeper_cache_flow_del.c and
    gatekeeper_cache_attr_del.c; flushing by policy is in GkFlush.v).

    The trees are sequences in the order of their keys (KeySeq.v).  A pointer to a
    device is its position in the tree of devices, a pointer to a tree names the
    device and the field, and a pointer to an entry adds the position in that tree. *)
From Stdlib Require Import Ascii.
From S2P Require Import Prelude DsTree DsTreeInv KeySeq.
Local Open Scope Z_scope.

(** *** Types (gatekeeper_cache.h) *)

Inductive gk_cache_request_type :=
  | GK_CACHE_UNKNOWN_REQ_TYPES | GK_CACHE_REQ_TYPE_FQDN | GK_CACHE_REQ_TYPE_URL | GK_CACHE_REQ_TYPE_HOST
  | GK_CACHE_REQ_TYPE_SNI | GK_CACHE_REQ_TYPE_IPV4 | GK_CACHE_REQ_TYPE_IPV6 | GK_CACHE_REQ_TYPE_APP
  | GK_CACHE_REQ_TYPE_INBOUND | GK_CACHE_REQ_TYPE_OUTBOUND | GK_CACHE_INTERNAL_TYPE_HOSTNAME
  | GK_CACHE_MAX_REQ_TYPES.
#[export] Instance gk_cache_request_type_eq_dec : EqDecision gk_cache_request_type.
Proof. solve_decision. Defined.
(** The value of an enumerator. *)
Definition req_num (t : gk_cache_request_type) : Z :=
  match t with
  | GK_CACHE_UNKNOWN_REQ_TYPES => -1 | GK_CACHE_REQ_TYPE_FQDN => 0 | GK_CACHE_REQ_TYPE_URL => 1
  | GK_CACHE_REQ_TYPE_HOST => 2 | GK_CACHE_REQ_TYPE_SNI => 3 | GK_CACHE_REQ_TYPE_IPV4 => 4
  | GK_CACHE_REQ_TYPE_IPV6 => 5 | GK_CACHE_REQ_TYPE_APP => 6 | GK_CACHE_REQ_TYPE_INBOUND => 7
  | GK_CACHE_REQ_TYPE_OUTBOUND => 8 | GK_CACHE_INTERNAL_TYPE_HOSTNAME => 9 | GK_CACHE_MAX_REQ_TYPES => 10
  end.

Definition GKC_FLOW_DIRECTION_UNSPECIFIED : Z := 0.
Definition GKC_FLOW_DIRECTION_OUTBOUND : Z := 1.
Definition GKC_FLOW_DIRECTION_INBOUND : Z := 2.
Definition GKC_FLOW_DIRECTION_LAN2LAN : Z := 3.
(** [FSM_ALLOW] of fsm_policy.h *)
Definition ACTION_ALLOW : Z := 2.

(** [struct counter_s] *)
Record counter_s := Counter { total : Z; previous : Z }.
(** [struct attr_generic_s], [struct attr_hostname_s] *)
Record attr_generic_s := AttrGeneric { g_name : string; g_hit_count : counter_s }.
Record attr_hostname_s := AttrHostname {
  h_name : string; count_fqdn : counter_s; count_host : counter_s; count_sni : counter_s }.
(** [union attribute_type]: the members [url], [app_name], [ipv4] and [ipv6] are
    pointers to the same structure, so that any of them reads what another one
    wrote; reading [host_name] after one of them, or the other way round, is a
    fault. *)
Inductive attribute_type := host_name (h : attr_hostname_s) | generic (g : attr_generic_s).

(** [struct fqdn_redirect_s] *)
Record fqdn_redirect_s := Redirect { redirect_ip0 : string; redirect_ip1 : string; redirect_ttl : Z; rd_redirect : bool }.

(** [struct attr_cache] *)
Record attr_cache := AttrCache {
  attr : attribute_type; ac_cache_ttl : Z; ac_cache_ts : Z; ac_action : Z; ac_gk_policy : option string;
  ac_category_id : Z; ac_confidence_level : Z; ac_categorized : Z; ac_fqdn_redirect : option fqdn_redirect_s;
  ac_direction : Z; ac_key : Z }.

(** [struct ip_flow_cache]; addresses are lists of bytes. *)
Record ip_flow_cache := IpFlow {
  src_ip_addr : list Z; dst_ip_addr : list Z; src_port : Z; dst_port : Z; fl_ip_version : Z; protocol : Z;
  fl_direction : Z; fl_action : Z; fl_cache_ttl : Z; fl_gk_policy : option string; fl_category_id : Z;
  fl_confidence_level : Z; fl_cache_ts : Z; fl_hit_count : counter_s }.

(** [struct per_device_cache] *)
Record per_device_cache := PerDevice {
  device_mac : list Z; pd_counter : Z; req_counter : list Z; allowed : list Z; blocked : list Z;
  hostname_tree : list attr_cache; url_tree : list attr_cache; ipv4_tree : list attr_cache;
  ipv6_tree : list attr_cache; app_tree : list attr_cache;
  outbound_tree : list ip_flow_cache; inbound_tree : list ip_flow_cache }.

(** [struct gk_attr_cache_interface], [struct gkc_ip_flow_interface] *)
Record gk_attr_cache_interface := AttrReq {
  ai_device_mac : option (list Z); ai_attribute_type : gk_cache_request_type; ai_attr_name : option string;
  ai_cache_ttl : Z; ai_action : Z; ai_direction : Z; ai_gk_policy : option string; ai_category_id : Z;
  ai_confidence_level : Z; ai_hit_counter : Z; ai_fqdn_redirect : option fqdn_redirect_s; ai_categorized : Z }.
Record gkc_ip_flow_interface := FlowReq {
  fi_device_mac : option (list Z); fi_src_ip_addr : option (list Z); fi_dst_ip_addr : option (list Z);
  fi_src_port : Z; fi_dst_port : Z; fi_ip_version : Z; fi_protocol : Z; fi_direction : Z; fi_action : Z;
  fi_gk_policy : option string; fi_category_id : Z; fi_confidence_level : Z; fi_hit_counter : Z;
  fi_cache_ttl : Z }.

(** [struct gk_cache_mgr], the variable [GK_MAX_CACHE_ENTRIES] and the clock of
    [time]. *)
Record gk_state := Gk {
  initialized : bool; total_entry_count : Z; per_device_tree : list per_device_cache;
  GK_MAX_CACHE_ENTRIES : Z; now : Z }.
Abbreviation GK := (M gk_state).

Definition set_count f (s : gk_state) : gk_state :=
  Gk (initialized s) (f (total_entry_count s)) (per_device_tree s) (GK_MAX_CACHE_ENTRIES s) (now s).
Definition set_devices f (s : gk_state) : gk_state :=
  Gk (initialized s) (total_entry_count s) (f (per_device_tree s)) (GK_MAX_CACHE_ENTRIES s) (now s).
Definition set_init b (s : gk_state) : gk_state :=
  Gk b (total_entry_count s) (per_device_tree s) (GK_MAX_CACHE_ENTRIES s) (now s).
Definition set_max n (s : gk_state) : gk_state :=
  Gk (initialized s) (total_entry_count s) (per_device_tree s) n (now s).
(** [x++] and [x--] on an [uint64_t] *)
Definition incr64 (x : Z) : Z := wrapu 64 (x + 1).
Definition decr64 (x : Z) : Z := wrapu 64 (x - 1).
Definition incr_count (c : counter_s) : counter_s := Counter (incr64 (total c)) (previous c).

(** *** Fields that are trees *)
Inductive attr_field := F_hostname | F_url | F_ipv4 | F_ipv6 | F_app.
#[export] Instance attr_field_eq_dec : EqDecision attr_field.
Proof. solve_decision. Defined.
Definition attr_tree (f : attr_field) (d : per_device_cache) : list attr_cache :=
  match f with
  | F_hostname => hostname_tree d | F_url => url_tree d | F_ipv4 => ipv4_tree d
  | F_ipv6 => ipv6_tree d | F_app => app_tree d
  end.
Definition with_attr_trees (d : per_device_cache) (t : attr_field → list attr_cache) : per_device_cache :=
  PerDevice (device_mac d) (pd_counter d) (req_counter d) (allowed d) (blocked d)
    (t F_hostname) (t F_url) (t F_ipv4) (t F_ipv6) (t F_app) (outbound_tree d) (inbound_tree d).
Definition upd_attr_tree (f : attr_field) (g : list attr_cache → list attr_cache) (d : per_device_cache) :
    per_device_cache :=
  with_attr_trees d (λ f', if decide (f' = f) then g (attr_tree f' d) else attr_tree f' d).
Definition flow_tree (inbound : bool) (d : per_device_cache) : list ip_flow_cache :=
  if inbound then inbound_tree d else outbound_tree d.
Definition upd_flow_tree (inbound : bool) (g : list ip_flow_cache → list ip_flow_cache) (d : per_device_cache) :
    per_device_cache :=
  PerDevice (device_mac d) (pd_counter d) (req_counter d) (allowed d) (blocked d)
    (hostname_tree d) (url_tree d) (ipv4_tree d) (ipv6_tree d) (app_tree d)
    (if inbound then outbound_tree d else g (outbound_tree d))
    (if inbound then g (inbound_tree d) else inbound_tree d).
Definition upd_req_counter g (d : per_device_cache) : per_device_cache :=
  PerDevice (device_mac d) (pd_counter d) (g (req_counter d)) (allowed d) (blocked d)
    (hostname_tree d) (url_tree d) (ipv4_tree d) (ipv6_tree d) (app_tree d) (outbound_tree d) (inbound_tree d).
Definition upd_allowed g (d : per_device_cache) : per_device_cache :=
  PerDevice (device_mac d) (pd_counter d) (req_counter d) (g (allowed d)) (blocked d)
    (hostname_tree d) (url_tree d) (ipv4_tree d) (ipv6_tree d) (app_tree d) (outbound_tree d) (inbound_tree d).
Definition upd_blocked g (d : per_device_cache) : per_device_cache :=
  PerDevice (device_mac d) (pd_counter d) (req_counter d) (allowed d) (g (blocked d))
    (hostname_tree d) (url_tree d) (ipv4_tree d) (ipv6_tree d) (app_tree d) (outbound_tree d) (inbound_tree d).

(** [*pdevice] and an assignment through it *)
Definition device_at (p : nat) : GK per_device_cache := d ← gets (λ s, per_device_tree s !! p); deref d.
Definition upd_device (p : nat) (g : per_device_cache → per_device_cache) : GK unit :=
  modify (set_devices (alter g p)).
(** An update of an element of one of the arrays of counters; [None] as index is out
    of bounds. *)
Definition index_of (t : gk_cache_request_type) : option nat :=
  let n := req_num t in if (0 <=? n) && (n <? req_num GK_CACHE_MAX_REQ_TYPES) then Some (Z.to_nat n) else None.

(** *** Keys and comparison functions *)

(** [gkc_mac_addr_cmp] *)
Definition gkc_mac_addr_cmp (a b : list Z) : Z := memcmp a b.
(** [gkc_uint64_cmp] *)
Definition gkc_uint64_cmp (a b : Z) : Z := if a <? b then -1 else if b <? a then 1 else 0.

(** [MurmurOAAT64]; [char] is a signed type, as on the x86 targets. *)
Definition MURMUR_SEED : Z := 0x749E3E6989DF617.
Definition MURMUR_MUL : Z := 0x5bd1e9955bd1e995.
Definition char_value (c : ascii) : Z := wraps 8 (Z.of_nat (nat_of_ascii c)).
Definition murmur_step (h c : Z) : Z :=
  let h := Z.lxor h (wrapu 64 c) in
  let h := wrapu 64 (h * MURMUR_MUL) in
  Z.lxor h (Z.shiftr h 47).
Fixpoint murmur_loop (h : Z) (key : string) : Z :=
  match key with
  | EmptyString => h
  | String c key => murmur_loop (murmur_step h (char_value c)) key
  end.
Definition MurmurOAAT64 (key : string) : Z := murmur_loop MURMUR_SEED key.

(** [snprintf] with ["%u"], of a [uint8_t] *)
Definition digit_char (n : Z) : ascii := ascii_of_nat (48 + Z.to_nat n).
Definition print_u8 (n : Z) : string :=
  if n <? 10 then String (digit_char n) ""
  else if n <? 100 then String (digit_char (n / 10)) (String (digit_char (n mod 10)) "")
  else String (digit_char (n / 100)) (String (digit_char (n / 10 mod 10)) (String (digit_char (n mod 10)) "")).
(** [get_attr_key] *)
Definition KEY_BUF_LEN : nat := Z.to_nat 4096.
Definition get_attr_key (name : string) (direction : Z) : Z :=
  MurmurOAAT64 (String.substring 0 (KEY_BUF_LEN - 1) (print_u8 direction +:+ String "_" name)).

(** [gkc_flow_entry_cmp] *)
Definition gkc_flow_entry_cmp (key_a key_b : ip_flow_cache) : Z :=
  let cmp := fl_ip_version key_a - fl_ip_version key_b in
  if negb (cmp =? 0) then cmp else
  let ipl := Z.to_nat (if fl_ip_version key_a =? 16 then 16 else 4) in
  let cmp := memcmp (take ipl (src_ip_addr key_a)) (take ipl (src_ip_addr key_b)) in
  if negb (cmp =? 0) then cmp else
  let cmp := memcmp (take ipl (dst_ip_addr key_a)) (take ipl (dst_ip_addr key_b)) in
  if negb (cmp =? 0) then cmp else
  let cmp := protocol key_a - protocol key_b in
  if negb (cmp =? 0) then cmp else
  let cmp := src_port key_a - src_port key_b in
  if negb (cmp =? 0) then cmp else
  dst_port key_a - dst_port key_b.

(** *** Initialisation *)

(** [gk_get_cache_count] *)
Definition gk_get_cache_count : GK Z := gets (λ s, if initialized s then total_entry_count s else 0).
(** [gk_cache_set_size] *)
Definition gk_cache_set_size (n : Z) : GK unit :=
  current_usage ← gk_get_cache_count;
  if current_usage =? 0 then modify (set_max n) else mret tt.
(** [gk_cache_get_size] *)
Definition gk_cache_get_size : GK Z := gets GK_MAX_CACHE_ENTRIES.
(** [gkc_init_per_dev]; an allocation does not fail. *)
Definition gkc_init_per_dev (mac : option (list Z)) : option per_device_cache :=
  match mac with
  | None => None
  | Some mac =>
      let zeros := replicate (Z.to_nat (req_num GK_CACHE_MAX_REQ_TYPES)) 0 in
      Some (PerDevice mac 0 zeros zeros zeros [] [] [] [] [] [] [])
  end.
(** [gk_cache_init_mgr], [gk_cache_init] *)
Definition gk_cache_init_mgr : GK unit :=
  init ← gets initialized;
  if (init : bool) then mret tt
  else modify (set_devices (λ _, []));; modify (set_init true).
Definition gk_cache_init : GK bool := gk_cache_init_mgr;; mret true.

(** *** Lookup *)

(** [gkc_lookup_device_tree] *)
Definition gkc_lookup_device_tree (mac : option (list Z)) : GK (option nat) :=
  match mac with
  | None => mret None
  | Some mac =>
      init ← gets initialized;
      if negb init then mret None
      else gets (λ s, ks_find gkc_mac_addr_cmp device_mac mac (per_device_tree s))
  end.

(** [STRSCPY] into an array of 256 bytes *)
Definition strscpy_256 (s : string) : string := String.substring 0 255 s.

(** [gkc_lookup_redirect_entry]: the new value of [req->fqdn_redirect]. *)
Definition gkc_lookup_redirect_entry (req : gk_attr_cache_interface) (attr_entry : attr_cache) :
    option fqdn_redirect_s :=
  if bool_decide (ai_attribute_type req ≠ GK_CACHE_REQ_TYPE_FQDN) then ai_fqdn_redirect req
  else
    match ai_fqdn_redirect req, ac_fqdn_redirect attr_entry with
    | Some _, Some r => Some (Redirect (strscpy_256 (redirect_ip0 r)) (strscpy_256 (redirect_ip1 r))
                                (redirect_ttl r) (rd_redirect r))
    | r, _ => r
    end.

(** The counter that a request of a type counts, in the entry's union. *)
Definition count_hit (t : gk_cache_request_type) (a : attribute_type) : GK (attribute_type * option Z) :=
  match t, a with
  | GK_CACHE_REQ_TYPE_FQDN, host_name h =>
      let c := incr_count (count_fqdn h) in
      mret (host_name (AttrHostname (h_name h) c (count_host h) (count_sni h)), Some (total c))
  | GK_CACHE_REQ_TYPE_HOST, host_name h =>
      let c := incr_count (count_host h) in
      mret (host_name (AttrHostname (h_name h) (count_fqdn h) c (count_sni h)), Some (total c))
  | GK_CACHE_REQ_TYPE_SNI, host_name h =>
      let c := incr_count (count_sni h) in
      mret (host_name (AttrHostname (h_name h) (count_fqdn h) (count_host h) c), Some (total c))
  | (GK_CACHE_REQ_TYPE_URL | GK_CACHE_REQ_TYPE_IPV4 | GK_CACHE_REQ_TYPE_IPV6 | GK_CACHE_REQ_TYPE_APP), generic g =>
      let c := incr_count (g_hit_count g) in
      mret (generic (AttrGeneric (g_name g) c), Some (total c))
  | (GK_CACHE_REQ_TYPE_FQDN | GK_CACHE_REQ_TYPE_HOST | GK_CACHE_REQ_TYPE_SNI | GK_CACHE_REQ_TYPE_URL
    | GK_CACHE_REQ_TYPE_IPV4 | GK_CACHE_REQ_TYPE_IPV6 | GK_CACHE_REQ_TYPE_APP), _ => fault
  | _, a => mret (a, None)
  end.
Definition set_attr (a : attribute_type) (e : attr_cache) : attr_cache :=
  AttrCache a (ac_cache_ttl e) (ac_cache_ts e) (ac_action e) (ac_gk_policy e) (ac_category_id e)
    (ac_confidence_level e) (ac_categorized e) (ac_fqdn_redirect e) (ac_direction e) (ac_key e).
Definition set_cache_ts (t : Z) (e : attr_cache) : attr_cache :=
  AttrCache (attr e) (ac_cache_ttl e) t (ac_action e) (ac_gk_policy e) (ac_category_id e)
    (ac_confidence_level e) (ac_categorized e) (ac_fqdn_redirect e) (ac_direction e) (ac_key e).

(** A pointer to a tree of attributes, and to an entry of one. *)
Abbreviation tree_ptr := (nat * attr_field)%type (only parsing).
Abbreviation entry_ptr := (nat * attr_field * nat)%type (only parsing).
Definition tree_at (t : tree_ptr) : GK (list attr_cache) := d ← device_at t.1; mret (attr_tree t.2 d).
Definition upd_tree (t : tree_ptr) g : GK unit := upd_device t.1 (upd_attr_tree t.2 g).
Definition entry_at (e : entry_ptr) : GK attr_cache := l ← tree_at e.1; deref (l !! e.2).
Definition upd_entry (e : entry_ptr) (g : attr_cache → attr_cache) : GK unit := upd_tree e.1 (alter g e.2).
(** [ds_tree_find] and [ds_tree_insert] on a tree of attributes *)
Definition tree_find_key (t : tree_ptr) (key : Z) : GK (option entry_ptr) :=
  l ← tree_at t; mret (pair t <$> ks_find gkc_uint64_cmp ac_key key l).
Definition attr_tree_insert (t : tree_ptr) (e : attr_cache) : GK unit :=
  upd_tree t (ks_insert gkc_uint64_cmp ac_key e).

(** What a lookup stores in the request: [hit_count] is an [int], the field of the
    request a [uint64_t], the action a [uint8_t]. *)
Definition fill_request (req : gk_attr_cache_interface) (hits : Z) (e : attr_cache) : gk_attr_cache_interface :=
  AttrReq (ai_device_mac req) (ai_attribute_type req) (ai_attr_name req) (ai_cache_ttl req)
    (wrapu 8 (ac_action e)) (ai_direction req)
    (match ac_gk_policy e with Some p => Some p | None => ai_gk_policy req end)
    (ac_category_id e) (ac_confidence_level e) (wrapu 64 (wraps 32 hits))
    (gkc_lookup_redirect_entry req e) (ac_categorized e).

(** [gkc_lookup_attr_tree]: the result and the request as it is left. *)
Definition gkc_lookup_attr_tree (t : tree_ptr) (req : gk_attr_cache_interface) (update_count : bool) :
    GK (bool * gk_attr_cache_interface) :=
  match ai_attr_name req with
  | None => mret (false, req)
  | Some name =>
      let key := get_attr_key name (ai_direction req) in
      p ← tree_find_key t key;
      match p with
      | None => mret (false, req)
      | Some p =>
          e ← entry_at p;
          hits ← (if update_count then
                    '(a, c) ← count_hit (ai_attribute_type req) (attr e);
                    upd_entry p (set_attr a);;
                    mret (default (ai_hit_counter req) c)
                  else mret (ai_hit_counter req));
          mret (true, fill_request req hits e)
      end
  end.

(** The tree of a type of request, as the [switch] of several functions selects it. *)
Definition field_of (t : gk_cache_request_type) : option attr_field :=
  match t with
  | GK_CACHE_REQ_TYPE_FQDN | GK_CACHE_REQ_TYPE_HOST | GK_CACHE_REQ_TYPE_SNI => Some F_hostname
  | GK_CACHE_REQ_TYPE_URL => Some F_url
  | GK_CACHE_REQ_TYPE_IPV4 => Some F_ipv4
  | GK_CACHE_REQ_TYPE_IPV6 => Some F_ipv6
  | GK_CACHE_REQ_TYPE_APP => Some F_app
  | _ => None
  end.
(** [gkc_lookup_attributes_tree] *)
Definition gkc_lookup_attributes_tree (p : nat) (req : gk_attr_cache_interface) (update_count : bool) :
    GK (bool * gk_attr_cache_interface) :=
  match field_of (ai_attribute_type req) with
  | Some f => gkc_lookup_attr_tree (p, f) req update_count
  | None => mret (false, req)
  end.

(** [attribute_type < GK_CACHE_REQ_TYPE_FQDN || attribute_type >= GK_CACHE_MAX_REQ_TYPES] *)
Definition bad_type (t : gk_cache_request_type) : bool :=
  (req_num t <? req_num GK_CACHE_REQ_TYPE_FQDN) || (req_num GK_CACHE_MAX_REQ_TYPES <=? req_num t).

(** [gkc_lookup_attribute_entry], for a request that is not NULL *)
Definition gkc_lookup_attribute_entry (req : gk_attr_cache_interface) (update_count : bool) :
    GK (bool * gk_attr_cache_interface) :=
  match ai_device_mac req with
  | None => mret (false, req)
  | Some _ =>
      if bad_type (ai_attribute_type req) then mret (false, req)
      else
        p ← gkc_lookup_device_tree (ai_device_mac req);
        match p with
        | None => mret (false, req)
        | Some p =>
            '(ret, req) ← gkc_lookup_attributes_tree p req update_count;
            if negb ret then mret (false, req)
            else
              i ← deref (index_of (ai_attribute_type req));
              upd_device p (upd_req_counter (alter incr64 i));;
              mret (true, req)
        end
  end.

(** [gkc_fetch_attribute_entry], for a request that is not NULL; the key of a NULL
    name has no meaning. *)
Definition gkc_fetch_attribute_entry (req : gk_attr_cache_interface) : GK (option entry_ptr) :=
  match ai_device_mac req with
  | None => mret None
  | Some _ =>
      if bad_type (ai_attribute_type req) then mret None
      else
        p ← gkc_lookup_device_tree (ai_device_mac req);
        match p with
        | None => mret None
        | Some p =>
            name ← deref (ai_attr_name req);
            let key := get_attr_key name (ai_direction req) in
            match field_of (ai_attribute_type req) with
            | Some f => tree_find_key (p, f) key
            | None => mret None
            end
        end
  end.

(** *** Adding attributes *)

(** [gk_add_new_redirect_entry]: the redirect of the new entry. *)
Definition gk_add_new_redirect_entry (input : gk_attr_cache_interface) : option fqdn_redirect_s :=
  match ai_fqdn_redirect input with
  | None => None
  | Some r =>
      if negb (rd_redirect r) then Some (Redirect "" "" 0 false)
      else Some (Redirect (strscpy_256 (redirect_ip0 r)) (strscpy_256 (redirect_ip1 r))
                   (redirect_ttl r) (rd_redirect r))
  end.

(** [gkc_new_attr_entry] *)
Definition new_attr (t : gk_cache_request_type) (name : string) : option attribute_type :=
  let zero := Counter 0 0 in
  let one := Counter 1 0 in
  match t with
  | GK_CACHE_REQ_TYPE_FQDN => Some (host_name (AttrHostname name one zero zero))
  | GK_CACHE_REQ_TYPE_HOST => Some (host_name (AttrHostname name zero one zero))
  | GK_CACHE_REQ_TYPE_SNI => Some (host_name (AttrHostname name zero zero one))
  | GK_CACHE_REQ_TYPE_URL | GK_CACHE_REQ_TYPE_IPV4 | GK_CACHE_REQ_TYPE_IPV6 | GK_CACHE_REQ_TYPE_APP =>
      Some (generic (AttrGeneric name one))
  | _ => None
  end.
Definition gkc_new_attr_entry (entry : gk_attr_cache_interface) : GK (option attr_cache) :=
  t ← gets now;
  match field_of (ai_attribute_type entry) with
  | None => mret None
  | Some _ =>
      name ← deref (ai_attr_name entry);
      a ← deref (new_attr (ai_attribute_type entry) name);
      let redirect := if bool_decide (ai_attribute_type entry = GK_CACHE_REQ_TYPE_FQDN)
                      then gk_add_new_redirect_entry entry else None in
      mret (Some (AttrCache a (wraps 32 (ai_cache_ttl entry)) t (ai_action entry) (ai_gk_policy entry)
        (ai_category_id entry) (ai_confidence_level entry) (ai_categorized entry) redirect
        (ai_direction entry) (get_attr_key name (ai_direction entry))))
  end.

(** [gkc_insert_host_name] *)
Definition gkc_insert_host_name (cache : tree_ptr) (entry : gk_attr_cache_interface) :
    GK (bool * gk_attr_cache_interface) :=
  cached ← gkc_fetch_attribute_entry entry;
  match cached with
  | Some p =>
      e ← entry_at p;
      '(a, c) ← count_hit (ai_attribute_type entry) (attr e);
      match c with
      | None => mret (false, entry)
      | Some _ =>
          t ← gets now;
          upd_entry p (λ e, set_cache_ts t (set_attr a e));;
          mret (false, entry)
      end
  | None =>
      e ← gkc_new_attr_entry entry;
      match e with
      | None => mret (false, entry)
      | Some e => attr_tree_insert cache e;; mret (true, entry)
      end
  end.

(** [gkc_insert_generic]: the lookup writes into the caller's entry. *)
Definition gkc_insert_generic (cache : tree_ptr) (entry : gk_attr_cache_interface) :
    GK (bool * gk_attr_cache_interface) :=
  '(was_inserted, entry) ← gkc_lookup_attribute_entry entry false;
  if (was_inserted : bool) then mret (false, entry)
  else
    e ← gkc_new_attr_entry entry;
    match e with
    | None => mret (false, entry)
    | Some e => attr_tree_insert cache e;; mret (true, entry)
    end.

(** [gkc_add_attr_tree] *)
Definition gkc_add_attr_tree (p : nat) (entry : gk_attr_cache_interface) : GK (bool * gk_attr_cache_interface) :=
  match field_of (ai_attribute_type entry) with
  | Some F_hostname => gkc_insert_host_name (p, F_hostname) entry
  | Some f => gkc_insert_generic (p, f) entry
  | None => mret (false, entry)
  end.

(** [ds_tree_find] on the tree of devices, and if it finds nothing the insertion of a
    new device: the comparison reads through the address if there is a device to
    compare with. *)
Definition find_or_add_device (mac : option (list Z)) : GK (option nat) :=
  ds ← gets per_device_tree;
  match mac with
  | None => match ds with [] => mret None | _ => fault end
  | Some m =>
      match ks_find gkc_mac_addr_cmp device_mac m ds with
      | Some p => mret (Some p)
      | None =>
          d ← deref (gkc_init_per_dev mac);
          modify (set_devices (ks_insert gkc_mac_addr_cmp device_mac d));;
          gets (λ s, ks_find gkc_mac_addr_cmp device_mac m (per_device_tree s))
      end
  end.

(** [gkc_add_attribute_entry] *)
Definition gkc_add_attribute_entry (entry : gk_attr_cache_interface) : GK (bool * gk_attr_cache_interface) :=
  init ← gets initialized;
  if negb init then mret (false, entry) else
  full ← gets (λ s, GK_MAX_CACHE_ENTRIES s <=? total_entry_count s);
  if (full : bool) then mret (false, entry) else
  if (req_num (ai_attribute_type entry) <? req_num GK_CACHE_REQ_TYPE_FQDN)
     || (req_num GK_CACHE_REQ_TYPE_APP <? req_num (ai_attribute_type entry)) then mret (false, entry) else
  p ← find_or_add_device (ai_device_mac entry);
  match p with
  | None => mret (false, entry)
  | Some p =>
      '(ret, entry) ← gkc_add_attr_tree p entry;
      if negb ret then mret (false, entry)
      else
        modify (set_count incr64);;
        i ← deref (index_of (ai_attribute_type entry));
        upd_device p (if ai_action entry =? ACTION_ALLOW then upd_allowed (alter incr64 i)
                      else upd_blocked (alter incr64 i));;
        mret (true, entry)
  end.

(** *** Flows *)

(** [gkc_is_flow_valid], for a request that is not NULL *)
Definition gkc_is_flow_valid (req : gkc_ip_flow_interface) : bool :=
  match fi_device_mac req with
  | None => false
  | Some _ =>
      if negb (fi_direction req =? GKC_FLOW_DIRECTION_INBOUND) && negb (fi_direction req =? GKC_FLOW_DIRECTION_OUTBOUND)
      then false
      else if negb (fi_ip_version req =? 4) && negb (fi_ip_version req =? 6) then false
      else
        match fi_src_ip_addr req, fi_dst_ip_addr req with
        | Some _, Some _ => true
        | _, _ => false
        end
  end.

(** The structure on the stack that a request is compared with; the fields that are
    not set are not read. *)
Definition flow_of (req : gkc_ip_flow_interface) : ip_flow_cache :=
  IpFlow (default [] (fi_src_ip_addr req)) (default [] (fi_dst_ip_addr req)) (fi_src_port req) (fi_dst_port req)
    (fi_ip_version req) (fi_protocol req) (fi_direction req) 0 0 None 0 0 0 (Counter 0 0).
Definition set_hit_count c (e : ip_flow_cache) : ip_flow_cache :=
  IpFlow (src_ip_addr e) (dst_ip_addr e) (src_port e) (dst_port e) (fl_ip_version e) (protocol e)
    (fl_direction e) (fl_action e) (fl_cache_ttl e) (fl_gk_policy e) (fl_category_id e) (fl_confidence_level e)
    (fl_cache_ts e) c.
Definition set_fi_hit_counter n (r : gkc_ip_flow_interface) : gkc_ip_flow_interface :=
  FlowReq (fi_device_mac r) (fi_src_ip_addr r) (fi_dst_ip_addr r) (fi_src_port r) (fi_dst_port r)
    (fi_ip_version r) (fi_protocol r) (fi_direction r) (fi_action r) (fi_gk_policy r) (fi_category_id r)
    (fi_confidence_level r) n (fi_cache_ttl r).

(** [gkc_lookup_flows_tree] on the inbound or the outbound tree of a device *)
Definition gkc_lookup_flows_tree (p : nat) (inbound : bool) (req : gkc_ip_flow_interface) (update_count : bool) :
    GK (bool * gkc_ip_flow_interface) :=
  d ← device_at p;
  match ks_find gkc_flow_entry_cmp id (flow_of req) (flow_tree inbound d) with
  | None => mret (false, req)
  | Some i =>
      e ← deref (flow_tree inbound d !! i);
      let c := if update_count then incr_count (fl_hit_count e) else fl_hit_count e in
      upd_device p (upd_flow_tree inbound (alter (set_hit_count c) i));;
      mret (true, set_fi_hit_counter (total c) req)
  end.
(** [gkc_lookup_flows_for_device] *)
Definition gkc_lookup_flows_for_device (p : nat) (req : gkc_ip_flow_interface) (update_count : bool) :
    GK (bool * gkc_ip_flow_interface) :=
  if negb (gkc_is_flow_valid req) then mret (false, req)
  else if fi_direction req =? GKC_FLOW_DIRECTION_INBOUND then gkc_lookup_flows_tree p true req update_count
  else if fi_direction req =? GKC_FLOW_DIRECTION_OUTBOUND then gkc_lookup_flows_tree p false req update_count
  else mret (false, req).
(** [gkc_lookup_flow], for a request that is not NULL *)
Definition gkc_lookup_flow (req : gkc_ip_flow_interface) (update_count : bool) :
    GK (bool * gkc_ip_flow_interface) :=
  if negb (gkc_is_flow_valid req) then mret (false, req)
  else
    p ← gkc_lookup_device_tree (fi_device_mac req);
    match p with
    | None => mret (false, req)
    | Some p => gkc_lookup_flows_for_device p req update_count
    end.

(** [gkc_new_flow_entry]: [memcpy] reads as many bytes as the version has. *)
Definition gkc_new_flow_entry (req : gkc_ip_flow_interface) : GK (option ip_flow_cache) :=
  match fi_src_ip_addr req, fi_dst_ip_addr req with
  | Some src, Some dst =>
      let ip_len := Z.to_nat (if fi_ip_version req =? 4 then 4 else 16) in
      if decide (length src < ip_len ∨ length dst < ip_len)%nat then fault
      else
        t ← gets now;
        mret (Some (IpFlow (take ip_len src) (take ip_len dst) (fi_src_port req) (fi_dst_port req)
          (fi_ip_version req) (fi_protocol req) 0 (fi_action req) (wraps 32 (fi_cache_ttl req))
          (fi_gk_policy req) 0 0 t (Counter 1 0)))
  | _, _ => mret None
  end.
(** [gkc_add_flow_tree] *)
Definition gkc_add_flow_tree (p : nat) (req : gkc_ip_flow_interface) : GK bool :=
  init ← gets initialized;
  if negb init then mret false else
  if negb (gkc_is_flow_valid req) then mret false else
  e ← gkc_new_flow_entry req;
  match e with
  | None => mret false
  | Some e =>
      (if fi_direction req =? GKC_FLOW_DIRECTION_INBOUND
       then upd_device p (upd_flow_tree true (ks_insert gkc_flow_entry_cmp id e))
       else if fi_direction req =? GKC_FLOW_DIRECTION_OUTBOUND
       then upd_device p (upd_flow_tree false (ks_insert gkc_flow_entry_cmp id e))
       else mret tt);;
      mret true
  end.
(** [gkc_add_flow_entry] *)
Definition gkc_add_flow_entry (entry : gkc_ip_flow_interface) : GK (bool * gkc_ip_flow_interface) :=
  init ← gets initialized;
  if negb init then mret (false, entry) else
  match fi_device_mac entry with
  | None => mret (false, entry)
  | Some _ =>
      '(ret, entry) ← gkc_lookup_flow entry false;
      if (ret : bool) then mret (false, entry) else
      full ← gets (λ s, GK_MAX_CACHE_ENTRIES s <=? total_entry_count s);
      if (full : bool) then mret (false, entry) else
      p ← find_or_add_device (fi_device_mac entry);
      match p with
      | None => mret (false, entry)
      | Some p =>
          ret ← gkc_add_flow_tree p entry;
          if negb ret then mret (false, entry)
          else
            modify (set_count incr64);;
            let attr_type := if fi_direction entry =? GKC_FLOW_DIRECTION_INBOUND
                             then GK_CACHE_REQ_TYPE_INBOUND else GK_CACHE_REQ_TYPE_OUTBOUND in
            i ← deref (index_of attr_type);
            upd_device p (if fi_action entry =? ACTION_ALLOW then upd_allowed (alter incr64 i)
                          else upd_blocked (alter decr64 i));;
            mret (true, entry)
      end
  end.

(** [gkc_is_flow_present] *)
Definition gkc_is_flow_present (cur : ip_flow_cache) (req : gkc_ip_flow_interface) : bool :=
  gkc_flow_entry_cmp cur (flow_of req) =? 0.
(** [gkc_del_flow_from_tree]: the walk stops at the first flow that is the one. *)
Definition gkc_del_flow_from_tree (p : nat) (inbound : bool) (req : gkc_ip_flow_interface) : GK bool :=
  d ← device_at p;
  match list_find (λ e, gkc_is_flow_present e req = true) (flow_tree inbound d) with
  | None => mret false
  | Some (i, _) => upd_device p (upd_flow_tree inbound (delete i));; mret true
  end.
(** [gkc_del_flow_from_dev] *)
Definition gkc_del_flow_from_dev (p : nat) (req : gkc_ip_flow_interface) : GK bool :=
  if fi_direction req =? GKC_FLOW_DIRECTION_INBOUND then gkc_del_flow_from_tree p true req
  else if fi_direction req =? GKC_FLOW_DIRECTION_OUTBOUND then gkc_del_flow_from_tree p false req
  else mret false.
(** [gkc_del_flow] *)
Definition gkc_del_flow (req : gkc_ip_flow_interface) : GK bool :=
  init ← gets initialized;
  if negb init then mret false else
  if negb (gkc_is_flow_valid req) then mret false else
  p ← gkc_lookup_device_tree (fi_device_mac req);
  match p with
  | None => mret false
  | Some p =>
      ret ← gkc_del_flow_from_dev p req;
      if negb ret then mret false
      else modify (set_count decr64);; mret true
  end.

(** *** Deleting attributes (gatekeeper_cache_attr_del.c) *)

(** [gkc_free_attr_entry]: which member of the union is freed. *)
Definition gkc_free_attr_entry (e : attr_cache) (attr_type : gk_cache_request_type) : option unit :=
  match attr_type, attr e with
  | (GK_CACHE_INTERNAL_TYPE_HOSTNAME | GK_CACHE_REQ_TYPE_FQDN | GK_CACHE_REQ_TYPE_HOST | GK_CACHE_REQ_TYPE_SNI),
    host_name _ => Some tt
  | (GK_CACHE_REQ_TYPE_URL | GK_CACHE_REQ_TYPE_IPV4 | GK_CACHE_REQ_TYPE_IPV6 | GK_CACHE_REQ_TYPE_APP),
    generic _ => Some tt
  | (GK_CACHE_INTERNAL_TYPE_HOSTNAME | GK_CACHE_REQ_TYPE_FQDN | GK_CACHE_REQ_TYPE_HOST | GK_CACHE_REQ_TYPE_SNI
    | GK_CACHE_REQ_TYPE_URL | GK_CACHE_REQ_TYPE_IPV4 | GK_CACHE_REQ_TYPE_IPV6 | GK_CACHE_REQ_TYPE_APP), _ => None
  | _, _ => Some tt
  end.

(** The loops over a tree that remove entries while they go: the entries that stay,
    with the action for each entry removed. *)
Fixpoint remove_loop {A} (gone : A → GK bool) (l : list A) : GK (list A) :=
  match l with
  | [] => mret []
  | e :: l =>
      b ← gone e;
      l ← remove_loop gone l;
      mret (if (b : bool) then l else e :: l)
  end.

(** [gk_clean_attribute_tree] *)
Definition gk_clean_attribute_tree (t : tree_ptr) (attr_type : gk_cache_request_type) : GK unit :=
  l ← tree_at t;
  l ← remove_loop (λ e, deref (gkc_free_attr_entry e attr_type);; modify (set_count decr64);; mret true) l;
  upd_tree t (λ _, l).
(** [gk_clean_flow_tree] *)
Definition gk_clean_flow_tree (p : nat) (inbound : bool) : GK unit :=
  d ← device_at p;
  l ← remove_loop (λ e, modify (set_count decr64);; mret true) (flow_tree inbound d);
  upd_device p (upd_flow_tree inbound (λ _, l)).
(** [gk_clean_per_device_entry]; the counts are converted to [int]. *)
Definition gk_clean_per_device_entry (p : nat) : GK Z :=
  before ← gk_get_cache_count;
  gk_clean_attribute_tree (p, F_hostname) GK_CACHE_INTERNAL_TYPE_HOSTNAME;;
  gk_clean_attribute_tree (p, F_url) GK_CACHE_REQ_TYPE_URL;;
  gk_clean_attribute_tree (p, F_ipv4) GK_CACHE_REQ_TYPE_IPV4;;
  gk_clean_attribute_tree (p, F_ipv6) GK_CACHE_REQ_TYPE_IPV6;;
  gk_clean_attribute_tree (p, F_app) GK_CACHE_REQ_TYPE_APP;;
  gk_clean_flow_tree p true;;
  gk_clean_flow_tree p false;;
  after ← gk_get_cache_count;
  mret (wraps 32 (wraps 32 before - after)).
(** [gk_free_cache_tree]: one device after the other is cleaned and removed from the
    front of the tree. *)
Fixpoint free_devices (n : nat) : GK unit :=
  match n with
  | O => mret tt
  | S n => gk_clean_per_device_entry 0;; modify (set_devices tail);; free_devices n
  end.
Definition gk_free_cache_tree : GK unit := ds ← gets per_device_tree; free_devices (length ds).
(** [gk_cache_cleanup], [clear_gatekeeper_cache] *)
Definition gk_cache_cleanup : GK unit :=
  init ← gets initialized;
  if negb init then mret tt
  else gk_free_cache_tree;; modify (set_count (λ _, 0)).
Definition clear_gatekeeper_cache : GK unit := gk_cache_cleanup.
(** [gkc_cleanup_mgr] *)
Definition gkc_cleanup_mgr : GK unit :=
  init ← gets initialized;
  if negb init then mret tt
  else gk_cache_cleanup;; modify (set_init false);; modify (set_count (λ _, 0)).

(** [gkc_attr_ttl_expired], [gkc_flow_ttl_expired] *)
Definition gkc_attr_ttl_expired (t : Z) (e : attr_cache) : bool := negb (t - ac_cache_ts e <? ac_cache_ttl e).
Definition gkc_flow_ttl_expired (t : Z) (e : ip_flow_cache) : bool := negb (t - fl_cache_ts e <? fl_cache_ttl e).
(** [gk_get_attribute_tree] *)
Definition gk_get_attribute_tree (attr_type : gk_cache_request_type) : option attr_field :=
  match attr_type with
  | GK_CACHE_INTERNAL_TYPE_HOSTNAME => Some F_hostname
  | t => field_of t
  end.
(** [gkc_cleanup_ttl_attribute_tree]: the number of entries removed. *)
Definition gkc_cleanup_ttl_attribute_tree (t : tree_ptr) (attr_type : gk_cache_request_type) : GK Z :=
  init ← gets initialized;
  if negb init then mret 0 else
  clock ← gets now;
  l ← tree_at t;
  kept ← remove_loop (λ e,
    if negb (gkc_attr_ttl_expired clock e) then mret false
    else deref (gkc_free_attr_entry e attr_type);; modify (set_count decr64);; mret true) l;
  upd_tree t (λ _, kept);;
  mret (Z.of_nat (length l - length kept)).
(** [gkc_cleanup_ttl_flow_tree] *)
Definition gkc_cleanup_ttl_flow_tree (p : nat) (inbound : bool) : GK Z :=
  init ← gets initialized;
  if negb init then mret 0 else
  clock ← gets now;
  d ← device_at p;
  kept ← remove_loop (λ e,
    if negb (gkc_flow_ttl_expired clock e) then mret false else modify (set_count decr64);; mret true)
    (flow_tree inbound d);
  upd_device p (upd_flow_tree inbound (λ _, kept));;
  mret (Z.of_nat (length (flow_tree inbound d) - length kept)).
(** [gk_cache_check_ttl_per_device] *)
Definition ttl_attr_types : list gk_cache_request_type :=
  [GK_CACHE_INTERNAL_TYPE_HOSTNAME; GK_CACHE_REQ_TYPE_URL; GK_CACHE_REQ_TYPE_IPV4; GK_CACHE_REQ_TYPE_IPV6;
   GK_CACHE_REQ_TYPE_APP].
Fixpoint ttl_attrs (p : nat) (types : list gk_cache_request_type) : GK unit :=
  match types with
  | [] => mret tt
  | t :: types =>
      f ← deref (gk_get_attribute_tree t);
      gkc_cleanup_ttl_attribute_tree (p, f) t;;
      ttl_attrs p types
  end.
Definition gk_cache_check_ttl_per_device (p : nat) : GK unit :=
  ttl_attrs p ttl_attr_types;;
  gkc_cleanup_ttl_flow_tree p true;;
  gkc_cleanup_ttl_flow_tree p false;;
  mret tt.
(** [gk_cache_check_ttl_device_tree]: from one device to the next. *)
Fixpoint ttl_devices (n p : nat) : GK unit :=
  match n with
  | O => mret tt
  | S n => gk_cache_check_ttl_per_device p;; ttl_devices n (S p)
  end.
Definition gk_cache_check_ttl_device_tree : GK unit := ds ← gets per_device_tree; ttl_devices (length ds) 0.
(** [gkc_ttl_cleanup] *)
Definition gkc_ttl_cleanup : GK unit :=
  init ← gets initialized;
  if negb init then mret tt else gk_cache_check_ttl_device_tree.

(** [gkc_is_attr_present] *)
Definition gkc_is_attr_present (e : attr_cache) (attr_type : gk_cache_request_type) (name : string) : GK bool :=
  match attr_type, attr e with
  | (GK_CACHE_INTERNAL_TYPE_HOSTNAME | GK_CACHE_REQ_TYPE_FQDN | GK_CACHE_REQ_TYPE_HOST | GK_CACHE_REQ_TYPE_SNI),
    host_name h => mret (bool_decide (h_name h = name))
  | (GK_CACHE_REQ_TYPE_URL | GK_CACHE_REQ_TYPE_IPV4 | GK_CACHE_REQ_TYPE_IPV6 | GK_CACHE_REQ_TYPE_APP),
    generic g => mret (bool_decide (g_name g = name))
  | (GK_CACHE_INTERNAL_TYPE_HOSTNAME | GK_CACHE_REQ_TYPE_FQDN | GK_CACHE_REQ_TYPE_HOST | GK_CACHE_REQ_TYPE_SNI
    | GK_CACHE_REQ_TYPE_URL | GK_CACHE_REQ_TYPE_IPV4 | GK_CACHE_REQ_TYPE_IPV6 | GK_CACHE_REQ_TYPE_APP), _ => fault
  | _, _ => mret false
  end.
(** [gkc_del_attr]: the first entry of the name. *)
Fixpoint del_attr_walk (attr_type : gk_cache_request_type) (name : string) (i : nat) (l : list attr_cache) :
    GK (option nat) :=
  match l with
  | [] => mret None
  | e :: l =>
      b ← gkc_is_attr_present e attr_type name;
      if (b : bool) then deref (gkc_free_attr_entry e attr_type);; mret (Some i)
      else del_attr_walk attr_type name (S i) l
  end.
Definition gkc_del_attr (t : tree_ptr) (attr_type : gk_cache_request_type) (name : string) : GK bool :=
  l ← tree_at t;
  r ← del_attr_walk attr_type name 0 l;
  match r with
  | None => mret false
  | Some i => upd_tree t (delete i);; mret true
  end.
(** [gkc_del_attr_from_dev] *)
Definition gkc_del_attr_from_dev (p : nat) (req : gk_attr_cache_interface) : GK bool :=
  match ai_attr_name req with
  | None => mret false
  | Some name =>
      match gk_get_attribute_tree (ai_attribute_type req) with
      | Some f => gkc_del_attr (p, f) (ai_attribute_type req) name
      | None => mret false
      end
  end.
(** [gkc_del_attribute], for a request that is not NULL *)
Definition gkc_del_attribute (req : gk_attr_cache_interface) : GK bool :=
  init ← gets initialized;
  if negb init then mret false else
  match ai_device_mac req with
  | None => mret false
  | Some _ =>
      p ← gkc_lookup_device_tree (ai_device_mac req);
      match p with
      | None => mret false
      | Some p =>
          ret ← gkc_del_attr_from_dev p req;
          if negb ret then mret false
          else modify (set_count decr64);; mret true
      end
  end.

(** *** Counters *)

(** [gk_get_device_count] *)
Definition gk_get_device_count : GK Z :=
  gets (λ s, if initialized s then Z.of_nat (length (per_device_tree s)) else 0).
(** [gkc_get_allowed_counter], [gkc_get_blocked_counter] *)
Definition get_counter (field : per_device_cache → list Z) (mac : option (list Z)) (attr_type : gk_cache_request_type) :
    GK Z :=
  match mac with
  | None => mret 0
  | Some _ =>
      if bad_type attr_type then mret 0
      else
        p ← gkc_lookup_device_tree mac;
        match p with
        | None => mret 0
        | Some p =>
            d ← device_at p;
            i ← deref (index_of attr_type);
            deref (field d !! i)
        end
  end.
Definition gkc_get_allowed_counter := get_counter allowed.
Definition gkc_get_blocked_counter := get_counter blocked.
