(* ===== verification/GkCacheInv.v ===== *)
(** The gatekeeper cache: the order of its trees, the invariant of its state, and how
    changes of one device affect the number of entries. *)
From Stdlib Require Import Sorting.Sorted.
From S2P Require Import Prelude DsTree DsTreeInv KeySeq GkCache.
Local Open Scope Z_scope.

(** *** The comparison functions are orders *)

#[export] Instance gkc_mac_addr_cmp_order : KeyOrder gkc_mac_addr_cmp := memcmp_order.
#[export] Instance gkc_uint64_cmp_order : KeyOrder gkc_uint64_cmp.
Proof.
  split; [intros a b|intros a b c]; unfold gkc_uint64_cmp;
    repeat match goal with |- context [?x <? ?y] => destruct (Z.ltb_spec x y) end; lia.
Qed.
Lemma gkc_uint64_cmp_zero a b : gkc_uint64_cmp a b = 0 ↔ a = b.
Proof. unfold gkc_uint64_cmp. destruct (Z.ltb_spec a b), (Z.ltb_spec b a); lia. Qed.
Lemma gkc_mac_addr_cmp_zero a b : gkc_mac_addr_cmp a b = 0 ↔ a = b.
Proof. apply memcmp_zero. Qed.

(** The number of bytes of an address that are compared. *)
Definition flow_ipl (e : ip_flow_cache) : nat := Z.to_nat (if fl_ip_version e =? 16 then 16 else 4).
Definition flow_lex : ip_flow_cache → ip_flow_cache → Z :=
  cmp_lex (λ a b, fl_ip_version a - fl_ip_version b)
    (cmp_lex (λ a b, memcmp (take (flow_ipl a) (src_ip_addr a)) (take (flow_ipl b) (src_ip_addr b)))
       (cmp_lex (λ a b, memcmp (take (flow_ipl a) (dst_ip_addr a)) (take (flow_ipl b) (dst_ip_addr b)))
          (cmp_lex (λ a b, protocol a - protocol b)
             (cmp_lex (λ a b, src_port a - src_port b) (λ a b, dst_port a - dst_port b))))).
Lemma gkc_flow_entry_cmp_lex a b : gkc_flow_entry_cmp a b = flow_lex a b.
Proof.
  unfold gkc_flow_entry_cmp, flow_lex, cmp_lex. cbv zeta.
  destruct (Z.eqb_spec (fl_ip_version a - fl_ip_version b) 0) as [E|]; cbn [negb]; [|done].
  assert (fl_ip_version b = fl_ip_version a) as Hv by lia.
  unfold flow_ipl. rewrite Hv.
  repeat match goal with |- context [?x =? 0] => destruct (Z.eqb_spec x 0); cbn [negb]; [|done] end. done.
Qed.
#[export] Instance gkc_flow_entry_cmp_order : KeyOrder gkc_flow_entry_cmp.
Proof.
  assert (KeyOrder flow_lex) as [Ha Ht].
  { unfold flow_lex. repeat apply cmp_lex_order;
      try apply (cmp_proj_order (K:=Z) _ Z.sub), cmp_sub_order;
      try apply (cmp_proj_order (λ a, take (flow_ipl a) (src_ip_addr a)) memcmp), memcmp_order.
    apply (cmp_proj_order (λ a, take (flow_ipl a) (dst_ip_addr a)) memcmp), memcmp_order. }
  split; [intros a b|intros a b c]; rewrite !gkc_flow_entry_cmp_lex; [apply Ha|apply Ht].
Qed.
Lemma gkc_flow_entry_cmp_zero a b :
  gkc_flow_entry_cmp a b = 0 ↔
  fl_ip_version a = fl_ip_version b ∧
  take (flow_ipl a) (src_ip_addr a) = take (flow_ipl b) (src_ip_addr b) ∧
  take (flow_ipl a) (dst_ip_addr a) = take (flow_ipl b) (dst_ip_addr b) ∧
  protocol a = protocol b ∧ src_port a = src_port b ∧ dst_port a = dst_port b.
Proof.
  rewrite gkc_flow_entry_cmp_lex. unfold flow_lex. rewrite !cmp_lex_zero, !memcmp_zero, !Z.sub_move_0_r. done.
Qed.

(** *** The invariant *)

(** The name of an entry. *)
Definition attr_name (a : attribute_type) : string := match a with host_name h => h_name h | generic g => g_name g end.
(** Which member of the union the entries of a tree have. *)
Definition typed (f : attr_field) (a : attribute_type) : Prop :=
  match f, a with
  | F_hostname, host_name _ => True
  | (F_url | F_ipv4 | F_ipv6 | F_app), generic _ => True
  | _, _ => False
  end.
Record attr_ok (f : attr_field) (e : attr_cache) : Prop := {
  ok_typed : typed f (attr e);
  ok_key : ac_key e = get_attr_key (attr_name (attr e)) (ac_direction e) }.
(** The addresses of a flow have the length of its version. *)
Definition ip_len (version : Z) : nat := Z.to_nat (if version =? 4 then 4 else 16).
Record flow_ok (e : ip_flow_cache) : Prop := {
  ok_version : fl_ip_version e = 4 ∨ fl_ip_version e = 6;
  ok_src : length (src_ip_addr e) = ip_len (fl_ip_version e);
  ok_dst : length (dst_ip_addr e) = ip_len (fl_ip_version e) }.
Definition num_types : nat := Z.to_nat (req_num GK_CACHE_MAX_REQ_TYPES).
Record dev_ok (d : per_device_cache) : Prop := {
  dev_attr_sorted f : ks_sorted gkc_uint64_cmp ac_key (attr_tree f d);
  dev_attr_ok f : Forall (attr_ok f) (attr_tree f d);
  dev_flow_sorted b : ks_sorted gkc_flow_entry_cmp id (flow_tree b d);
  dev_flow_ok b : Forall flow_ok (flow_tree b d);
  dev_arrays : length (req_counter d) = num_types ∧ length (allowed d) = num_types ∧ length (blocked d) = num_types }.

(** The number of entries of a device and of the cache. *)
Definition dev_size (d : per_device_cache) : nat :=
  (length (hostname_tree d) + length (url_tree d) + length (ipv4_tree d) + length (ipv6_tree d)
   + length (app_tree d) + length (outbound_tree d) + length (inbound_tree d))%nat.
Definition devs_size (ds : list per_device_cache) : Z := Z.of_nat (sum_list_with dev_size ds).
(** By how much the counter exceeds the number of entries. *)
Definition slack (s : gk_state) : Z := total_entry_count s - devs_size (per_device_tree s).

Record gk_inv (s : gk_state) : Prop := {
  inv_devs : ks_sorted gkc_mac_addr_cmp device_mac (per_device_tree s);
  inv_dev : Forall dev_ok (per_device_tree s);
  inv_slack : 0 ≤ slack s;
  inv_max : total_entry_count s ≤ GK_MAX_CACHE_ENTRIES s < 2 ^ 64;
  inv_init : initialized s = false → per_device_tree s = [] ∧ total_entry_count s = 0 }.

Lemma devs_size_cons d ds : devs_size (d :: ds) = Z.of_nat (dev_size d) + devs_size ds.
Proof. unfold devs_size. simpl. lia. Qed.
Lemma devs_size_nonneg ds : 0 ≤ devs_size ds.
Proof. unfold devs_size. lia. Qed.
Lemma devs_size_alter g p ds d : ds !! p = Some d →
  devs_size (alter g p ds) = devs_size ds - Z.of_nat (dev_size d) + Z.of_nat (dev_size (g d)).
Proof.
  revert p. induction ds as [|d' ds IH]; intros [|p] Hp; simplify_eq/=.
  - rewrite !devs_size_cons. lia.
  - rewrite !devs_size_cons. change (list_alter g p ds) with (alter g p ds). rewrite IH by done. lia.
Qed.
Lemma devs_size_in p ds d : ds !! p = Some d → Z.of_nat (dev_size d) ≤ devs_size ds.
Proof.
  revert p. induction ds as [|d' ds IH]; intros [|p] Hp; simplify_eq/=; rewrite devs_size_cons.
  - pose proof (devs_size_nonneg ds). lia.
  - specialize (IH _ Hp). lia.
Qed.
Lemma devs_size_insert d ds : devs_size (ks_insert gkc_mac_addr_cmp device_mac d ds) = Z.of_nat (dev_size d) + devs_size ds.
Proof. unfold devs_size. rewrite ks_insert_perm. simpl. lia. Qed.

(** *** A change of one device *)

Lemma list_alter_alter {A} (f g : A → A) i (l : list A) : alter f i (alter g i l) = alter (f ∘ g) i l.
Proof. revert i. induction l as [|a l IH]; intros [|i]; simpl; try done. f_equal. apply IH. Qed.

(** The device at [p] becomes [g] of it, and the counter follows the number of its
    entries. *)
Definition change (p : nat) (g : per_device_cache → per_device_cache) (s : gk_state) : gk_state :=
  match per_device_tree s !! p with
  | Some d => set_count (λ c, c + (Z.of_nat (dev_size (g d)) - Z.of_nat (dev_size d))) (set_devices (alter g p) s)
  | None => s
  end.
Lemma change_lookup p g s d : per_device_tree s !! p = Some d → per_device_tree (change p g s) !! p = Some (g d).
Proof. intros Hp. unfold change. rewrite Hp. simpl. by rewrite list_lookup_alter_eq, Hp. Qed.
Lemma change_init p g s : initialized (change p g s) = initialized s.
Proof. unfold change. by destruct (_ !! p). Qed.
Lemma change_now p g s : now (change p g s) = now s.
Proof. unfold change. by destruct (_ !! p). Qed.
Lemma change_max p g s : GK_MAX_CACHE_ENTRIES (change p g s) = GK_MAX_CACHE_ENTRIES s.
Proof. unfold change. by destruct (_ !! p). Qed.
Lemma change_slack p g s : slack (change p g s) = slack s.
Proof.
  unfold change, slack. destruct (_ !! p) as [d|] eqn:Hp; [|done]. simpl. rewrite (devs_size_alter _ _ _ d Hp). lia.
Qed.
Lemma change_change p g1 g2 s : change p g2 (change p g1 s) = change p (g2 ∘ g1) s.
Proof.
  unfold change. destruct (per_device_tree s !! p) as [d|] eqn:Hp; [|by rewrite Hp].
  simpl. rewrite list_lookup_alter_eq, Hp. simpl. unfold set_count, set_devices. simpl. f_equal; [lia|].
  apply list_alter_alter.
Qed.
Lemma change_ext p g1 g2 s : (∀ d, per_device_tree s !! p = Some d → g1 d = g2 d) → change p g1 s = change p g2 s.
Proof.
  intros Hg. unfold change. destruct (_ !! p) as [d|] eqn:Hp; [|done]. rewrite (Hg d) by done.
  unfold set_count, set_devices. simpl. f_equal. apply list_alter_ext; [|done]. intros x Hx. apply Hg. congruence.
Qed.
(** A change of a device that leaves the number of its entries alone. *)
Lemma change_same p g s d : per_device_tree s !! p = Some d → dev_size (g d) = dev_size d →
  set_devices (alter g p) s = change p g s.
Proof.
  intros Hp Hs. unfold change. rewrite Hp. unfold set_count, set_devices. simpl. f_equal. rewrite Hs. lia.
Qed.
Lemma gk_change_inv p g s d :
  gk_inv s → initialized s = true → per_device_tree s !! p = Some d → dev_ok (g d) → device_mac (g d) = device_mac d →
  (dev_size (g d) ≤ dev_size d)%nat ∨ total_entry_count s < GK_MAX_CACHE_ENTRIES s ∧ dev_size (g d) = S (dev_size d) →
  gk_inv (change p g s).
Proof.
  intros [Hs Hd Hsl Hm Hi] Hinit Hp Hok Hmac Hsz.
  assert (device_mac <$> alter g p (per_device_tree s) = device_mac <$> per_device_tree s) as Hk.
  { apply keys_alter. intros d' Hd'. by simplify_eq. }
  split.
  - unfold change. rewrite Hp. simpl. by eapply ks_sorted_keys; [symmetry|].
  - unfold change. rewrite Hp. simpl. apply Forall_alter; [done|]. intros d' Hd' _. by simplify_eq.
  - by rewrite change_slack.
  - rewrite change_max. unfold change. rewrite Hp. simpl. split; [lia|lia].
  - rewrite change_init. congruence.
Qed.

(** The lookup of a device, and what it is for the other operations. *)
Lemma device_find s mac p : gk_inv s → ks_find gkc_mac_addr_cmp device_mac mac (per_device_tree s) = Some p →
  ∃ d, per_device_tree s !! p = Some d ∧ dev_ok d ∧ device_mac d = mac.
Proof.
  intros Hi (d & Hp & _ & Hm)%ks_find_get. exists d. split_and!; [done| |by apply gkc_mac_addr_cmp_zero].
  eapply Forall_lookup_1; [apply Hi|done].
Qed.
