(* ===== verification/GkCacheOps.v ===== *)
(** The gatekeeper cache: what each operation does to a state that satisfies the
    invariant. *)
From Stdlib Require Import Sorting.Sorted.
From S2P Require Import Prelude DsTree DsTreeInv KeySeq GkCache GkCacheInv.
Local Open Scope Z_scope.

(** *** Views: the cache as a map *)

Definition dev_view (s : gk_state) (mac : list Z) : option per_device_cache :=
  ks_get gkc_mac_addr_cmp device_mac mac (per_device_tree s).
Definition attr_view (s : gk_state) (mac : list Z) (f : attr_field) (key : Z) : option attr_cache :=
  d ← dev_view s mac; ks_get gkc_uint64_cmp ac_key key (attr_tree f d).
Definition flow_view (s : gk_state) (mac : list Z) (inbound : bool) (fl : ip_flow_cache) : option ip_flow_cache :=
  d ← dev_view s mac; ks_get gkc_flow_entry_cmp id fl (flow_tree inbound d).

Lemma dev_view_change s p g d mac :
  gk_inv s → per_device_tree s !! p = Some d → device_mac (g d) = device_mac d →
  dev_view (change p g s) mac = if decide (device_mac d = mac) then Some (g d) else dev_view s mac.
Proof.
  intros Hi Hp Hm. unfold dev_view, change. rewrite Hp. simpl.
  rewrite (ks_get_alter _ _ g mac p _ d) by (done || apply Hi).
  destruct (decide _) as [E|E], (decide _) as [E'|E']; try done; by rewrite gkc_mac_addr_cmp_zero in E.
Qed.

(** *** Changes of counters and time stamps only *)

Definition strip_attr (a : attribute_type) : attribute_type :=
  let zero := Counter 0 0 in
  match a with
  | host_name h => host_name (AttrHostname (h_name h) zero zero zero)
  | generic g => generic (AttrGeneric (g_name g) zero)
  end.
Definition strip (e : attr_cache) : attr_cache := set_cache_ts 0 (set_attr (strip_attr (attr e)) e).
Definition strip_flow (e : ip_flow_cache) : ip_flow_cache := set_hit_count (Counter 0 0) e.
(** Two versions of a device that differ in counters and time stamps. *)
Record touched (d d' : per_device_cache) : Prop := {
  touch_mac : device_mac d' = device_mac d;
  touch_attr f : strip <$> attr_tree f d' = strip <$> attr_tree f d;
  touch_flow b : strip_flow <$> flow_tree b d' = strip_flow <$> flow_tree b d;
  touch_arrays : length (req_counter d') = length (req_counter d) ∧ length (allowed d') = length (allowed d) ∧
    length (blocked d') = length (blocked d) }.

Lemma touched_trans d1 d2 d3 : touched d1 d2 → touched d2 d3 → touched d1 d3.
Proof. intros [? A1 F1 ?] [? A2 F2 ?]. split; [congruence|intros; by rewrite A2|intros; by rewrite F2|naive_solver congruence]. Qed.
Lemma touched_size d d' : touched d d' → dev_size d' = dev_size d.
Proof.
  intros [_ A F _].
  assert (∀ f, length (attr_tree f d') = length (attr_tree f d)) as HA.
  { intros f. specialize (A f). apply (f_equal length) in A. by rewrite !length_fmap in A. }
  assert (∀ b, length (flow_tree b d') = length (flow_tree b d)) as HF.
  { intros b. specialize (F b). apply (f_equal length) in F. by rewrite !length_fmap in F. }
  unfold dev_size. pose proof (HA F_hostname). pose proof (HA F_url). pose proof (HA F_ipv4). pose proof (HA F_ipv6).
  pose proof (HA F_app). pose proof (HF true). pose proof (HF false). simpl in *. lia.
Qed.
Lemma Forall_fmap_eq {A B} (f : A → B) (P : A → Prop) (l1 l2 : list A) :
  (∀ a b, f a = f b → P a → P b) → f <$> l1 = f <$> l2 → Forall P l1 → Forall P l2.
Proof.
  intros Hp. revert l2. induction l1 as [|a l1 IH]; intros [|b l2] E H; try done. injection E as Ea El.
  apply Forall_cons in H as [Ha Hl]. constructor; [by eapply Hp|by apply IH].
Qed.
Lemma strip_key e1 e2 : strip e1 = strip e2 → ac_key e1 = ac_key e2.
Proof. destruct e1, e2. unfold strip, set_cache_ts, set_attr. simpl. by intros [=]. Qed.
Lemma strip_ok f e1 e2 : strip e1 = strip e2 → attr_ok f e1 → attr_ok f e2.
Proof.
  destruct e1 as [a1], e2 as [a2]. intros E [Ht Hk]. unfold strip, set_cache_ts, set_attr in E. simpl in *.
  injection E as Ea. subst. destruct a1, a2; simplify_eq/=; (split; simpl; [by destruct f|congruence]).
Qed.
Lemma strip_flow_id e1 e2 : strip_flow e1 = strip_flow e2 → gkc_flow_entry_cmp e1 e2 = 0.
Proof. destruct e1, e2. intros [=]. subst. apply gkc_flow_entry_cmp_zero. done. Qed.
Lemma fmap_keys {A B C} (f : A → B) (key : A → C) (l1 l2 : list A) :
  (∀ a b, f a = f b → key a = key b) → f <$> l1 = f <$> l2 → key <$> l1 = key <$> l2.
Proof.
  intros Hk. revert l2. induction l1 as [|a l1 IH]; intros [|b l2] E; try done. injection E as Ea El.
  simpl. f_equal; [by apply Hk|by apply IH].
Qed.

(** The part of a flow that is compared. *)
Definition flow_key (e : ip_flow_cache) : ip_flow_cache := 
  IpFlow (src_ip_addr e) (dst_ip_addr e) (src_port e) (dst_port e) (fl_ip_version e) (protocol e) 0 0 0 None 0 0 0 (Counter 0 0).
Lemma ks_flow_key l : ks_sorted gkc_flow_entry_cmp id l ↔ ks_sorted gkc_flow_entry_cmp flow_key l.
Proof. unfold ks_sorted. done. Qed.

Lemma touched_ok d d' : touched d d' → dev_ok d → dev_ok d'.
Proof.
  intros [_ A F Harr] [As Ao Fs Fo Da]. split.
  - intros f. eapply ks_sorted_keys; [|apply As]. eapply fmap_keys; [apply strip_key|symmetry; apply A].
  - intros f. eapply Forall_fmap_eq; [apply (strip_ok f)|symmetry; apply A|apply Ao].
  - intros b. apply ks_flow_key. eapply ks_sorted_keys; [|apply ks_flow_key, Fs].
    eapply (fmap_keys strip_flow); [|symmetry; apply F].
    intros e1 e2. destruct e1, e2. by intros [= -> -> -> -> -> ->].
  - intros b. eapply Forall_fmap_eq; [|symmetry; apply F|apply Fo].
    intros e1 e2. destruct e1, e2. intros [=] [? ? ?]. subst. by split.
  - naive_solver congruence.
Qed.

(** *** Devices and trees *)

Lemma wp_device_at p d Q s : per_device_tree s !! p = Some d → Q d s → wp (device_at p) Q s.
Proof. intros Hp HQ. unfold device_at. wp_seq. wp_pure. rewrite Hp. by eapply wp_deref. Qed.
Lemma wp_tree_at p f d Q s : per_device_tree s !! p = Some d → Q (attr_tree f d) s → wp (tree_at (p, f)) Q s.
Proof. intros Hp HQ. unfold tree_at. wp_seq. eapply wp_device_at; [done|]. by wp_pure. Qed.
Lemma wp_tree_find_key p f k d Q s : per_device_tree s !! p = Some d →
  Q (pair (p, f) <$> ks_find gkc_uint64_cmp ac_key k (attr_tree f d)) s → wp (tree_find_key (p, f) k) Q s.
Proof. intros Hp HQ. unfold tree_find_key. wp_seq. eapply wp_tree_at; [done|]. by wp_pure. Qed.
Lemma wp_entry_at p f i d e Q s : per_device_tree s !! p = Some d → attr_tree f d !! i = Some e →
  Q e s → wp (entry_at (p, f, i)) Q s.
Proof. intros Hp He HQ. unfold entry_at. wp_seq. eapply wp_tree_at; [done|]. by eapply wp_deref. Qed.

Lemma attr_tree_upd f f' g d : attr_tree f (upd_attr_tree f' g d) = if decide (f = f') then g (attr_tree f d) else attr_tree f d.
Proof. destruct f, f'; reflexivity. Qed.
Lemma flow_tree_upd_attr b f g d : flow_tree b (upd_attr_tree f g d) = flow_tree b d.
Proof. by destruct b. Qed.
Lemma flow_tree_upd b b' g d : flow_tree b (upd_flow_tree b' g d) = if decide (b = b') then g (flow_tree b d) else flow_tree b d.
Proof. destruct b, b'; reflexivity. Qed.
Lemma attr_tree_upd_flow f b g d : attr_tree f (upd_flow_tree b g d) = attr_tree f d.
Proof. by destruct f. Qed.

Lemma alter_strip f i (l : list attr_cache) e : l !! i = Some e → strip (f e) = strip e → strip <$> alter f i l = strip <$> l.
Proof. intros Hi Hf. apply (keys_alter strip). intros a Ha. assert (a = e) as -> by congruence. done. Qed.
Lemma touched_entry f g i d e : attr_tree f d !! i = Some e → strip (g e) = strip e →
  touched d (upd_attr_tree f (alter g i) d).
Proof.
  intros He Hg. split; [done| |intros b; by rewrite flow_tree_upd_attr|done].
  intros f'. rewrite attr_tree_upd. destruct (decide _) as [->|]; [|done]. by eapply alter_strip.
Qed.
Lemma touched_flow b g i d e : flow_tree b d !! i = Some e → strip_flow (g e) = strip_flow e →
  touched d (upd_flow_tree b (alter g i) d).
Proof.
  intros He Hg. split; [done|intros f; by rewrite attr_tree_upd_flow| |done].
  intros b'. rewrite flow_tree_upd. destruct (decide _) as [->|]; [|done].
  apply (keys_alter strip_flow). intros a Ha. assert (a = e) as -> by congruence. done.
Qed.
Lemma touched_req_counter g i d : touched d (upd_req_counter (alter g i) d).
Proof. split; [done|by intros []|by intros []|]. simpl. by rewrite length_alter. Qed.

(** The step of the state when a device is touched. *)
Lemma touch_change s p d g : per_device_tree s !! p = Some d → touched d (g d) →
  set_devices (alter g p) s = change p g s.
Proof. intros Hp Ht. by eapply change_same; [|apply touched_size]. Qed.
Lemma touch_inv s p d g : gk_inv s → initialized s = true → per_device_tree s !! p = Some d → touched d (g d) →
  gk_inv (change p g s).
Proof.
  intros Hi Hn Hp Ht. eapply gk_change_inv; [done|done|done| |apply Ht|].
  - eapply touched_ok; [done|]. eapply Forall_lookup_1; [apply Hi|done].
  - left. by rewrite (touched_size _ _ Ht).
Qed.

(** *** Looking up attributes *)

(** The counter that requests of a type count. *)
Definition hits_of (t : gk_cache_request_type) (a : attribute_type) : Z :=
  match t, a with
  | GK_CACHE_REQ_TYPE_FQDN, host_name h => total (count_fqdn h)
  | GK_CACHE_REQ_TYPE_HOST, host_name h => total (count_host h)
  | GK_CACHE_REQ_TYPE_SNI, host_name h => total (count_sni h)
  | _, generic g => total (g_hit_count g)
  | _, _ => 0
  end.
Lemma count_hit_spec t f a s : field_of t = Some f → typed f a →
  ∃ a', count_hit t a s = Some ((a', Some (incr64 (hits_of t a))), s) ∧ strip_attr a' = strip_attr a.
Proof. destruct t; intros [= <-]; destruct a; intros Ht; try done; eexists; split; try done. Qed.

Lemma lookup_attr_tree_spec s p d f req upd :
  per_device_tree s !! p = Some d → dev_ok d → field_of (ai_attribute_type req) = Some f →
  wp (gkc_lookup_attr_tree (p, f) req upd) (λ r s',
    match (name ← ai_attr_name req; ks_get gkc_uint64_cmp ac_key (get_attr_key name (ai_direction req)) (attr_tree f d)) with
    | None => r = (false, req) ∧ s' = s
    | Some e =>
        r = (true, fill_request req (if upd then incr64 (hits_of (ai_attribute_type req) (attr e)) else ai_hit_counter req) e) ∧
        ∃ g, s' = change p g s ∧ touched d (g d)
    end) s.
Proof.
  intros Hp Hok Hf. unfold gkc_lookup_attr_tree. destruct (ai_attr_name req) as [name|]; simpl; [|by wp_pure].
  wp_seq. eapply wp_tree_find_key; [done|].
  destruct (ks_find _ _ _ _) as [i|] eqn:Hk; simpl.
  2: { wp_pure. apply ks_find_none in Hk. by rewrite Hk. }
  apply ks_find_get in Hk as (e & Hi & -> & _). wp_seq. eapply wp_entry_at; [done..|].
  assert (typed f (attr e)) as Ht by (eapply (Forall_lookup_1 _ _ _ _ (dev_attr_ok _ Hok f)); done).
  wp_seq. destruct upd.
  - destruct (count_hit_spec _ _ (attr e) s Hf Ht) as (a' & Hc & Ha). wp_seq.
    unfold wp at 1. rewrite Hc. wp_seq. unfold upd_entry, upd_tree, upd_device. wp_pure. do 2 wp_pure.
    assert (touched d (upd_attr_tree f (alter (set_attr a') i) d)) as Htd.
    { eapply touched_entry; [done|]. unfold strip, set_cache_ts, set_attr. simpl. by rewrite Ha. }
    split; [done|]. eexists. split; [|exact Htd]. by eapply touch_change.
  - wp_pure. wp_pure. split; [done|]. exists id. split; [|by split].
    rewrite <- (change_same p id s d) by done. unfold set_devices. rewrite list_alter_id by done. by destruct s.
Qed.

Lemma lookup_device_spec s mac : wp (gkc_lookup_device_tree (Some mac)) (λ r s', s' = s ∧
  r = if initialized s then ks_find gkc_mac_addr_cmp device_mac mac (per_device_tree s) else None) s.
Proof. unfold gkc_lookup_device_tree. wp_seq. wp_pure. destruct (initialized s); by wp_pure. Qed.

Lemma index_of_some t : bad_type t = false → is_Some (index_of t).
Proof. destruct t; simpl; try done; intros _; by eexists. Qed.

(** A state in which a device was touched, or nothing changed. *)
Definition touch (s s' : gk_state) (mac : list Z) : Prop :=
  ∃ p d g, per_device_tree s !! p = Some d ∧ device_mac d = mac ∧ touched d (g d) ∧ s' = change p g s.

(** [gkc_lookup_attribute_entry] finds the entry of the key, fills the request from it
    and counts; it changes no verdict and never faults. *)
Lemma lookup_attribute_spec s req upd mac :
  gk_inv s → initialized s = true → ai_device_mac req = Some mac →
  wp (gkc_lookup_attribute_entry req upd) (λ r s',
    match (f ← field_of (ai_attribute_type req); name ← ai_attr_name req;
           attr_view s mac f (get_attr_key name (ai_direction req))) with
    | None => r = (false, req) ∧ s' = s
    | Some e =>
        r = (true, fill_request req (if upd then incr64 (hits_of (ai_attribute_type req) (attr e)) else ai_hit_counter req) e) ∧
        touch s s' mac
    end) s.
Proof.
  intros Hi Hinit Hmac. unfold gkc_lookup_attribute_entry. rewrite Hmac.
  destruct (field_of (ai_attribute_type req)) as [f|] eqn:Hf; cbn [mbind option_bind].
  2: { destruct (bad_type _); [by wp_pure|]. wp_seq. wp_use lookup_device_spec. intros r s' [-> _].
       destruct r as [p|]; [|by wp_pure]. wp_seq. unfold gkc_lookup_attributes_tree. rewrite Hf. wp_pure. by wp_pure. }
  assert (bad_type (ai_attribute_type req) = false) as Hb by (by destruct (ai_attribute_type req)).
  rewrite Hb. wp_seq. wp_use lookup_device_spec. intros r s' [-> ->]. rewrite Hinit. unfold attr_view, dev_view.
  destruct (ks_find gkc_mac_addr_cmp device_mac mac (per_device_tree s)) as [p|] eqn:Hp.
  2: { apply ks_find_none in Hp. rewrite Hp. wp_pure. by destruct (ai_attr_name req). }
  pose proof (device_find _ _ _ Hi Hp) as (d & Hd & Hok & Hm).
  apply ks_find_get in Hp as (d' & Hd' & -> & _).
  assert (d' = d) as -> by congruence. simpl. wp_seq. unfold gkc_lookup_attributes_tree. rewrite Hf. wp_use (lookup_attr_tree_spec s p d f); [done..|].
  intros r s'. destruct (ai_attr_name req) as [name|]; simpl; [|intros [-> ->]; by wp_pure].
  destruct (ks_get _ _ _ _) as [e|]; [|intros [-> ->]; by wp_pure].
  intros [-> (g & -> & Hg)]. simpl. destruct (index_of_some _ Hb) as [i Hix]. wp_seq.
  rewrite Hix. eapply wp_deref; [done|]. wp_seq. unfold upd_device. wp_pure. wp_pure. split; [done|].
  exists p, d, (upd_req_counter (alter incr64 i) ∘ g). split_and!; [done..| |].
  - eapply touched_trans; [done|]. apply touched_req_counter.
  - rewrite <- change_change. eapply touch_change; [by apply change_lookup|]. apply touched_req_counter.
Qed.

(** *** The rest of the state and the other entries *)

(** The parts of the manager no operation on entries changes. *)
Definition mgr_same (s s' : gk_state) : Prop :=
  initialized s' = initialized s ∧ GK_MAX_CACHE_ENTRIES s' = GK_MAX_CACHE_ENTRIES s ∧ now s' = now s ∧ slack s' = slack s.
(** All verdicts are the same. *)
Definition same_verdicts (s s' : gk_state) : Prop :=
  (∀ m f k, strip <$> attr_view s' m f k = strip <$> attr_view s m f k) ∧
  (∀ m b fl, strip_flow <$> flow_view s' m b fl = strip_flow <$> flow_view s m b fl).

Lemma mgr_same_change p g s : mgr_same s (change p g s).
Proof. unfold mgr_same. by rewrite change_init, change_max, change_now, change_slack. Qed.
Lemma mgr_same_trans s1 s2 s3 : mgr_same s1 s2 → mgr_same s2 s3 → mgr_same s1 s3.
Proof. unfold mgr_same. intros (?&?&?&?) (?&?&?&?). split_and!; congruence. Qed.
Lemma same_verdicts_trans s1 s2 s3 : same_verdicts s1 s2 → same_verdicts s2 s3 → same_verdicts s1 s3.
Proof. intros [A1 F1] [A2 F2]. split; intros; [by rewrite A2|by rewrite F2]. Qed.

Lemma ks_get_strip {K A B} (cmp : K → K → Z) (key : A → K) (f : A → B) k l1 l2 :
  (∀ a b, f a = f b → cmp (key a) k = cmp (key b) k) → f <$> l1 = f <$> l2 →
  f <$> ks_get cmp key k l1 = f <$> ks_get cmp key k l2.
Proof.
  intros Hf. revert l2. induction l1 as [|a l1 IH]; intros [|b l2] E; try done. injection E as Ea El.
  rewrite !ks_get_cons, (Hf a b) by done. destruct (decide _); [by apply (f_equal Some)|by apply IH].
Qed.
Lemma strip_flow_cmp a b fl : strip_flow a = strip_flow b → gkc_flow_entry_cmp a fl = gkc_flow_entry_cmp b fl.
Proof. destruct a, b. by intros [= -> -> -> -> -> ->]. Qed.

(** A change of a device: the entries of the others, and its own. *)
Lemma attr_view_change s p g d m f k :
  gk_inv s → per_device_tree s !! p = Some d → device_mac (g d) = device_mac d →
  attr_view (change p g s) m f k =
    if decide (device_mac d = m) then ks_get gkc_uint64_cmp ac_key k (attr_tree f (g d)) else attr_view s m f k.
Proof. intros. unfold attr_view. erewrite dev_view_change by done. by destruct (decide _). Qed.
Lemma flow_view_change s p g d m b fl :
  gk_inv s → per_device_tree s !! p = Some d → device_mac (g d) = device_mac d →
  flow_view (change p g s) m b fl =
    if decide (device_mac d = m) then ks_get gkc_flow_entry_cmp id fl (flow_tree b (g d)) else flow_view s m b fl.
Proof. intros. unfold flow_view. erewrite dev_view_change by done. by destruct (decide _). Qed.
Lemma dev_view_at s p d : gk_inv s → per_device_tree s !! p = Some d → dev_view s (device_mac d) = Some d.
Proof.
  intros Hi Hp. unfold dev_view. eapply ks_get_elem; [by apply _|apply Hi|by eapply list_elem_of_lookup_2|].
  apply cmp_eq_refl, _.
Qed.

Lemma touch_same_verdicts s p d g : gk_inv s → per_device_tree s !! p = Some d → touched d (g d) →
  same_verdicts s (change p g s).
Proof.
  intros Hi Hp [Hm A F _]. split.
  - intros m f k. rewrite (attr_view_change _ _ _ d) by done. destruct (decide _) as [<-|]; [|done].
    unfold attr_view. rewrite (dev_view_at s p d) by done. simpl. apply ks_get_strip; [|apply A].
    intros a b Hab. by rewrite (strip_key _ _ Hab).
  - intros m b fl. rewrite (flow_view_change _ _ _ d) by done. destruct (decide _) as [<-|]; [|done].
    unfold flow_view. rewrite (dev_view_at s p d) by done. simpl. apply ks_get_strip; [|apply F].
    intros x y Hxy. by apply strip_flow_cmp.
Qed.

(** A touched device, all together. *)
Record touch_post (s s' : gk_state) : Prop := {
  tp_inv : gk_inv s'; tp_mgr : mgr_same s s'; tp_same : same_verdicts s s';
  tp_count : total_entry_count s' = total_entry_count s }.
Lemma touch_post_change s p d g : gk_inv s → initialized s = true → per_device_tree s !! p = Some d → touched d (g d) →
  touch_post s (change p g s).
Proof.
  intros Hi Hn Hp Ht. split; [by eapply touch_inv|apply mgr_same_change|by eapply touch_same_verdicts|].
  unfold change. rewrite Hp. simpl. rewrite (touched_size _ _ Ht). lia.
Qed.
Lemma touch_post_of s s' mac : gk_inv s → initialized s = true → touch s s' mac → touch_post s s'.
Proof. intros Hi Hn (p & d & g & Hp & _ & Ht & ->). by eapply touch_post_change. Qed.
Lemma touch_post_refl s : gk_inv s → touch_post s s.
Proof. intros. split; [done|by repeat split|by split|done]. Qed.
Lemma touch_post_trans s1 s2 s3 : touch_post s1 s2 → touch_post s2 s3 → touch_post s1 s3.
Proof.
  intros [? ? ? ?] [? ? ? ?]. split; [done|by eapply mgr_same_trans|by eapply same_verdicts_trans|congruence].
Qed.

(** *** Devices *)

Definition empty_device (mac : list Z) : per_device_cache := PerDevice mac 0 (replicate num_types 0) (replicate num_types 0)
  (replicate num_types 0) [] [] [] [] [] [] [].
Lemma empty_device_ok mac : dev_ok (empty_device mac).
Proof.
  split; [intros []; constructor|intros []; constructor|intros []; constructor|intros []; constructor|done].
Qed.
Lemma add_device_inv s mac : gk_inv s → initialized s = true → dev_view s mac = None →
  gk_inv (set_devices (ks_insert gkc_mac_addr_cmp device_mac (empty_device mac)) s).
Proof.
  intros [Hs Hd Hsl Hm Hi] Hn Hv. split; simpl.
  - apply ks_sorted_insert; [apply _|done|exact Hv].
  - rewrite ks_insert_perm. constructor; [apply empty_device_ok|done].
  - unfold slack in *. simpl. rewrite devs_size_insert.
    change (dev_size (empty_device mac)) with 0%nat. lia.
  - done.
  - congruence.
Qed.
Lemma add_device_views s mac : gk_inv s → dev_view s mac = None →
  let s' := set_devices (ks_insert gkc_mac_addr_cmp device_mac (empty_device mac)) s in
  (∀ m f k, attr_view s' m f k = attr_view s m f k) ∧ (∀ m b fl, flow_view s' m b fl = flow_view s m b fl).
Proof.
  intros Hi Hv s'. assert (∀ m, dev_view s' m = if decide (mac = m) then Some (empty_device mac) else dev_view s m) as Hd.
  { intros m. unfold dev_view, s'. simpl. rewrite ks_get_insert by first [apply _|exact Hv|apply Hi]. simpl.
    destruct (decide _) as [E|E], (decide _) as [E'|E']; try done; by rewrite gkc_mac_addr_cmp_zero in E. }
  split.
  - intros m f k. unfold attr_view. rewrite Hd. destruct (decide _) as [<-|]; [|done]. rewrite Hv. by destruct f.
  - intros m b fl. unfold flow_view. rewrite Hd. destruct (decide _) as [<-|]; [|done]. rewrite Hv. by destruct b.
Qed.

Lemma find_or_add_device_spec s mac : gk_inv s → initialized s = true →
  wp (find_or_add_device (Some mac)) (λ r s', ∃ p d, r = Some p ∧ touch_post s s' ∧ per_device_tree s' !! p = Some d ∧
    device_mac d = mac ∧ ks_find gkc_mac_addr_cmp device_mac mac (per_device_tree s') = Some p ∧
    (∀ m f k, attr_view s' m f k = attr_view s m f k) ∧ (∀ m b fl, flow_view s' m b fl = flow_view s m b fl)) s.
Proof.
  intros Hi Hn. unfold find_or_add_device. wp_seq. wp_pure. destruct (ks_find _ _ _ _) as [p|] eqn:Hp.
  - wp_pure. pose proof (device_find _ _ _ Hi Hp) as (d & Hd & _ & Hm). exists p, d.
    split_and!; auto using touch_post_refl.
  - apply ks_find_none in Hp. wp_seq. eapply wp_deref; [done|]. wp_seq. wp_pure. wp_pure.
    change (PerDevice mac 0 _ _ _ [] [] [] [] [] [] []) with (empty_device mac).
    pose proof (add_device_inv s mac Hi Hn Hp) as Hi'. destruct (add_device_views s mac Hi Hp) as [Ha Hf].
    set (s' := set_devices _ s) in *. assert (dev_view s' mac = Some (empty_device mac)) as Hv.
    { unfold dev_view, s'. simpl. rewrite ks_get_insert by first [apply _|exact Hp|apply Hi]. by rewrite decide_True by apply cmp_eq_refl, _. }
    destruct (ks_find gkc_mac_addr_cmp device_mac mac (per_device_tree s')) as [p|] eqn:E.
    2: { apply ks_find_none in E. unfold dev_view in Hv. congruence. }
    pose proof E as (d & Hd & Hg & _)%ks_find_get. unfold dev_view in Hv. exists p, d. split_and!; try done.
    + split; [done| |by split; intros; [rewrite Ha|rewrite Hf]|done].
      repeat split. unfold slack, s'. simpl. rewrite devs_size_insert.
    change (dev_size (empty_device mac)) with 0%nat. lia.
    + assert (d = empty_device mac) as -> by congruence. done.
Qed.
