(* ===== verification/GkCacheAdd.v ===== *)
(** The gatekeeper cache: adding and deleting attributes and flows. *)
From Stdlib Require Import Sorting.Sorted.
From S2P Require Import Prelude DsTree DsTreeInv KeySeq GkCache GkCacheInv GkCacheOps.
Local Open Scope Z_scope.

(** *** Adding an entry to a device *)

(** The entry [gkc_new_attr_entry] makes. *)
Definition new_entry (t : Z) (entry : gk_attr_cache_interface) (name : string) (a : attribute_type) : attr_cache :=
  AttrCache a (wraps 32 (ai_cache_ttl entry)) t (ai_action entry) (ai_gk_policy entry)
    (ai_category_id entry) (ai_confidence_level entry) (ai_categorized entry)
    (if bool_decide (ai_attribute_type entry = GK_CACHE_REQ_TYPE_FQDN) then gk_add_new_redirect_entry entry else None)
    (ai_direction entry) (get_attr_key name (ai_direction entry)).
Lemma new_attr_spec t f name : field_of t = Some f →
  ∃ a, new_attr t name = Some a ∧ typed f a ∧ GkCacheInv.attr_name a = name ∧ hits_of t a = 1.
Proof. destruct t; intros [= <-]; eexists; by split_and!. Qed.
Lemma new_attr_entry_spec s entry f name a :
  field_of (ai_attribute_type entry) = Some f → ai_attr_name entry = Some name →
  new_attr (ai_attribute_type entry) name = Some a →
  gkc_new_attr_entry entry s = Some (Some (new_entry (now s) entry name a), s).
Proof. intros Hf Hn Ha. unfold gkc_new_attr_entry, gets, mbind, M_bind. rewrite Hf, Hn. cbn. by rewrite Ha. Qed.

Lemma insert_attr_ok f e d : dev_ok d → attr_ok f e → ks_get gkc_uint64_cmp ac_key (ac_key e) (attr_tree f d) = None →
  dev_ok (upd_attr_tree f (ks_insert gkc_uint64_cmp ac_key e) d).
Proof.
  intros [As Ao Fs Fo Da] He Hn. split; [| |intros b; by rewrite flow_tree_upd_attr..|done].
  - intros f'. rewrite attr_tree_upd. destruct (decide _) as [->|]; [|done]. by apply ks_sorted_insert; [apply _|..].
  - intros f'. rewrite attr_tree_upd. destruct (decide _) as [->|]; [|done]. rewrite ks_insert_perm. by constructor.
Qed.
Lemma insert_attr_size f e d : dev_size (upd_attr_tree f (ks_insert gkc_uint64_cmp ac_key e) d) = S (dev_size d).
Proof. unfold dev_size. destruct f; simpl; rewrite ks_insert_length; lia. Qed.
Lemma insert_flow_ok b e d : dev_ok d → flow_ok e → ks_get gkc_flow_entry_cmp id e (flow_tree b d) = None →
  dev_ok (upd_flow_tree b (ks_insert gkc_flow_entry_cmp id e) d).
Proof.
  intros [As Ao Fs Fo Da] He Hn. split; [intros f; by rewrite attr_tree_upd_flow..| | |done].
  - intros b'. rewrite flow_tree_upd. destruct (decide _) as [->|]; [|done]. by apply ks_sorted_insert; [apply _|..].
  - intros b'. rewrite flow_tree_upd. destruct (decide _) as [->|]; [|done]. rewrite ks_insert_perm. by constructor.
Qed.
Lemma insert_flow_size b e d : dev_size (upd_flow_tree b (ks_insert gkc_flow_entry_cmp id e) d) = S (dev_size d).
Proof. unfold dev_size. destruct b; simpl; rewrite ks_insert_length; lia. Qed.

(** The counters of verdicts do not matter for the trees. *)
Definition count_verdict (allow : bool) (f : Z → Z) (i : nat) (d : per_device_cache) : per_device_cache :=
  if allow then upd_allowed (alter incr64 i) d else upd_blocked (alter f i) d.
Lemma touched_verdict allow f i d : touched d (count_verdict allow f i d).
Proof.
  unfold count_verdict. destruct allow;
    (split; [done|by intros []|by intros []|]; simpl; by rewrite length_alter).
Qed.

(** The state after a new entry: the device is changed, the counter counts it and the
    verdict is counted. *)
Lemma added_state s p d g allow f i :
  gk_inv s → initialized s = true → per_device_tree s !! p = Some d → dev_size (g d) = S (dev_size d) →
  total_entry_count s < GK_MAX_CACHE_ENTRIES s →
  set_devices (alter (count_verdict allow f i) p) (set_count incr64 (set_devices (alter g p) s)) =
    change p (count_verdict allow f i ∘ g) s.
Proof.
  intros Hi Hn Hp Hg Hm. rewrite <- change_change.
  assert (set_count incr64 (set_devices (alter g p) s) = change p g s) as ->.
  { unfold change. rewrite Hp. unfold set_count, set_devices. simpl. f_equal. rewrite Hg.
    pose proof (inv_max _ Hi). pose proof (inv_slack _ Hi). pose proof (devs_size_nonneg (per_device_tree s)).
    unfold slack in *. unfold incr64, wrapu. rewrite Z.mod_small; lia. }
  eapply touch_change; [by apply change_lookup|]. apply touched_verdict.
Qed.

(** What adding one entry means for the state. *)
Record add_post (s s' : gk_state) : Prop := {
  ap_inv : gk_inv s'; ap_mgr : mgr_same s s'; ap_count : total_entry_count s' = total_entry_count s + 1 }.
Lemma added_post s p d g allow f i :
  gk_inv s → initialized s = true → per_device_tree s !! p = Some d → device_mac (g d) = device_mac d →
  dev_ok (g d) → dev_size (g d) = S (dev_size d) → total_entry_count s < GK_MAX_CACHE_ENTRIES s →
  add_post s (change p (count_verdict allow f i ∘ g) s).
Proof.
  intros Hi Hn Hp Hm Hok Hg Hmax. pose proof (touched_verdict allow f i (g d)) as Ht.
  assert (dev_size ((count_verdict allow f i ∘ g) d) = S (dev_size d)) as Hsz by (simpl; by rewrite (touched_size _ _ Ht)).
  split.
  - eapply gk_change_inv; [done|done|done| | |right; done].
    + by eapply touched_ok.
    + simpl. by rewrite (touch_mac _ _ Ht).
  - apply mgr_same_change.
  - unfold change. rewrite Hp. simpl. simpl in Hsz. rewrite Hsz. lia.
Qed.
Lemma count_verdict_trees allow f i d : (∀ fl, attr_tree fl (count_verdict allow f i d) = attr_tree fl d) ∧
  (∀ b, flow_tree b (count_verdict allow f i d) = flow_tree b d) ∧ device_mac (count_verdict allow f i d) = device_mac d.
Proof. unfold count_verdict. destruct allow; (split_and!; [by intros []|by intros []|done]). Qed.

(** The entries after an insertion. *)
Lemma added_attr_views s p d f e allow h i :
  gk_inv s → per_device_tree s !! p = Some d → ks_get gkc_uint64_cmp ac_key (ac_key e) (attr_tree f d) = None →
  let s' := change p (count_verdict allow h i ∘ upd_attr_tree f (ks_insert gkc_uint64_cmp ac_key e)) s in
  (∀ m f' k, attr_view s' m f' k =
     if decide (m = device_mac d ∧ f' = f ∧ k = ac_key e) then Some e else attr_view s m f' k) ∧
  (∀ m b fl, flow_view s' m b fl = flow_view s m b fl).
Proof.
  intros Hi Hp Hnone s'. set (g := upd_attr_tree f _) in *.
  assert (dev_ok d) as Hokd by (eapply Forall_lookup_1; [apply Hi|done]).
  destruct (count_verdict_trees allow h i (g d)) as (Hta & Htf & Htm).
  assert (device_mac ((count_verdict allow h i ∘ g) d) = device_mac d) as Hmac by (simpl; by rewrite Htm).
  split.
  - intros m f' k. unfold s'. rewrite (attr_view_change _ _ _ d) by done.
    destruct (decide (device_mac d = m)) as [<-|]; [|by rewrite decide_False by naive_solver].
    unfold attr_view at 1. rewrite (dev_view_at s p d) by done. simpl. rewrite Hta. unfold g. rewrite attr_tree_upd.
    destruct (decide (f' = f)) as [->|]; [|by rewrite decide_False by naive_solver].
    rewrite ks_get_insert by first [apply _|done|apply Hokd].
    destruct (decide _) as [E|E], (decide _) as [E'|E']; try done; rewrite gkc_uint64_cmp_zero in E; naive_solver.
  - intros m b fl. unfold s'. rewrite (flow_view_change _ _ _ d) by done. destruct (decide _) as [<-|]; [|done].
    simpl. rewrite Htf. unfold g. rewrite flow_tree_upd_attr. unfold flow_view. by rewrite (dev_view_at s p d).
Qed.
Lemma added_flow_views s p d b e allow h i :
  gk_inv s → per_device_tree s !! p = Some d → ks_get gkc_flow_entry_cmp id e (flow_tree b d) = None →
  let s' := change p (count_verdict allow h i ∘ upd_flow_tree b (ks_insert gkc_flow_entry_cmp id e)) s in
  (∀ m b' fl, flow_view s' m b' fl =
     if decide (m = device_mac d ∧ b' = b ∧ gkc_flow_entry_cmp e fl = 0) then Some e else flow_view s m b' fl) ∧
  (∀ m f k, attr_view s' m f k = attr_view s m f k).
Proof.
  intros Hi Hp Hnone s'. set (g := upd_flow_tree b _) in *.
  assert (dev_ok d) as Hokd by (eapply Forall_lookup_1; [apply Hi|done]).
  destruct (count_verdict_trees allow h i (g d)) as (Hta & Htf & Htm).
  assert (device_mac ((count_verdict allow h i ∘ g) d) = device_mac d) as Hmac by (simpl; by rewrite Htm).
  split.
  - intros m b' fl. unfold s'. rewrite (flow_view_change _ _ _ d) by done.
    destruct (decide (device_mac d = m)) as [<-|]; [|by rewrite decide_False by naive_solver].
    unfold flow_view at 1. rewrite (dev_view_at s p d) by done. simpl. rewrite Htf. unfold g. rewrite flow_tree_upd.
    destruct (decide (b' = b)) as [->|]; [|by rewrite decide_False by naive_solver].
    rewrite ks_get_insert by first [apply _|done|apply Hokd]. unfold id.
    destruct (decide _) as [E|E], (decide _) as [E'|E']; naive_solver.
  - intros m f k. unfold s'. rewrite (attr_view_change _ _ _ d) by done. destruct (decide _) as [<-|]; [|done].
    simpl. rewrite Hta. unfold g. rewrite attr_tree_upd_flow. unfold attr_view. by rewrite (dev_view_at s p d).
Qed.

(** *** Adding an attribute *)

(** The insertion proper, into a tree that has no entry of the key. *)
Lemma insert_entry_spec s p d f entry name :
  gk_inv s → initialized s = true → per_device_tree s !! p = Some d → total_entry_count s < GK_MAX_CACHE_ENTRIES s →
  field_of (ai_attribute_type entry) = Some f → ai_attr_name entry = Some name →
  ks_get gkc_uint64_cmp ac_key (get_attr_key name (ai_direction entry)) (attr_tree f d) = None →
  wp (e ← gkc_new_attr_entry entry;
      '(ret, entry) ← match e with
        | None => mret (false, entry)
        | Some e => attr_tree_insert (p, f) e;; mret (true, entry)
        end;
      if negb ret then mret (false, entry)
      else
        modify (set_count incr64);;
        i ← deref (index_of (ai_attribute_type entry));
        upd_device p (if ai_action entry =? ACTION_ALLOW then upd_allowed (alter incr64 i)
                      else upd_blocked (alter incr64 i));;
        mret (true, entry))
    (λ r s', r = (true, entry) ∧ add_post s s' ∧ ∃ a, new_attr (ai_attribute_type entry) name = Some a ∧
      let e := new_entry (now s) entry name a in
      attr_view s' (device_mac d) f (ac_key e) = Some e ∧
      (∀ m f' k, ¬ (m = device_mac d ∧ f' = f ∧ k = ac_key e) → attr_view s' m f' k = attr_view s m f' k) ∧
      (∀ m b fl, flow_view s' m b fl = flow_view s m b fl)) s.
Proof.
  intros Hi Hn Hp Hmax Hf Hname Hnone.
  destruct (new_attr_spec _ _ name Hf) as (a & Ha & Hta & Hna & _). set (e := new_entry (now s) entry name a).
  assert (attr_ok f e) as Hoke by (split; [done|by simpl; rewrite Hna]).
  assert (dev_ok d) as Hokd by (eapply Forall_lookup_1; [apply Hi|done]).
  wp_seq. unfold wp at 1. rewrite (new_attr_entry_spec s entry f name a) by done. fold e.
  wp_seq. wp_seq. unfold attr_tree_insert, upd_tree, upd_device. simpl. wp_pure. wp_pure. wp_seq. wp_pure.
  assert (bad_type (ai_attribute_type entry) = false) as Hb by (by destruct (ai_attribute_type entry)).
  destruct (index_of_some _ Hb) as [i Hix]. wp_seq. eapply wp_deref; [exact Hix|]. wp_seq. wp_pure. wp_pure.
  set (g := upd_attr_tree f (ks_insert gkc_uint64_cmp ac_key e)).
  set (allow := ai_action entry =? ACTION_ALLOW).
  assert ((if allow then upd_allowed (alter incr64 i) else upd_blocked (alter incr64 i)) = count_verdict allow incr64 i) as ->
    by (by destruct allow).
  rewrite (added_state s p d) by (done || apply insert_attr_size). split; [done|]. split.
  { eapply added_post; try done; [by apply insert_attr_ok|apply insert_attr_size]. }
  exists a. split; [done|]. destruct (added_attr_views s p d f e allow incr64 i Hi Hp Hnone) as [Hav Hfv].
  cbv zeta. fold e. split_and!; [rewrite Hav; by rewrite decide_True| |done].
  intros m f' k Hne. rewrite Hav. by rewrite decide_False.
Qed.

Lemma wp_bind_inv {S A B} (m : M S A) (f : A → M S B) Q s :
  wp (m ≫= f) Q s → wp m (λ a s', wp (f a) Q s') s.
Proof. unfold wp, mbind, M_bind. by destruct (m s) as [[]|]. Qed.
Lemma wp_assoc {S A B C} (m : M S A) (f : A → M S B) (g : B → M S C) Q s :
  wp (a ← m; b ← f a; g b) Q s → wp (m ≫= f) (λ b s', wp (g b) Q s') s.
Proof. intros Hw%wp_bind_inv. wp_seq. eapply wp_mono; [done|]. intros a s' Hw'. by apply wp_bind_inv in Hw'. Qed.

(** The effect of [gkc_add_attribute_entry] on an initialised cache with room for an
    entry: if there is no entry of the key one is made from the request, else the
    verdicts stay as they are. *)
Record added (s : gk_state) (entry : gk_attr_cache_interface) (mac : list Z) (f : attr_field) (name : string)
    (s' : gk_state) : Prop := {
  added_add : add_post s s';
  added_entry : ∃ a, new_attr (ai_attribute_type entry) name = Some a ∧
    attr_view s' mac f (get_attr_key name (ai_direction entry)) = Some (new_entry (now s) entry name a);
  added_others m f' k : ¬ (m = mac ∧ f' = f ∧ k = get_attr_key name (ai_direction entry)) →
    attr_view s' m f' k = attr_view s m f' k;
  added_flows m b fl : flow_view s' m b fl = flow_view s m b fl }.

Lemma add_post_trans s1 s2 s3 : touch_post s1 s2 → add_post s2 s3 → add_post s1 s3.
Proof. intros [? ? ? ?] [? ? ?]. split; [done|by eapply mgr_same_trans|congruence]. Qed.

Definition hostname_type (t : gk_cache_request_type) : bool := bool_decide (field_of t = Some F_hostname).

Section add_attr.
Context (s : gk_state) (entry : gk_attr_cache_interface) (mac : list Z) (f : attr_field) (name : string).
Hypotheses (Hi : gk_inv s) (Hn : initialized s = true) (Hmac : ai_device_mac entry = Some mac)
  (Hname : ai_attr_name entry = Some name) (Hf : field_of (ai_attribute_type entry) = Some f).
Let key := get_attr_key name (ai_direction entry).

Lemma fetch_spec : wp (gkc_fetch_attribute_entry entry) (λ r s', s' = s ∧
  match r with
  | Some (p, f', i) => f' = f ∧ ∃ d e, per_device_tree s !! p = Some d ∧ device_mac d = mac ∧
      attr_tree f d !! i = Some e ∧ attr_view s mac f key = Some e
  | None => attr_view s mac f key = None
  end) s.
Proof using Hi Hn Hmac Hname Hf.
  unfold gkc_fetch_attribute_entry. rewrite Hmac.
  assert (bad_type (ai_attribute_type entry) = false) as -> by (by destruct (ai_attribute_type entry)).
  wp_seq. wp_use lookup_device_spec. intros r s' [-> ->]. rewrite Hn. unfold attr_view, dev_view.
  destruct (ks_find gkc_mac_addr_cmp device_mac mac _) as [p|] eqn:Hp.
  2: { apply ks_find_none in Hp. rewrite Hp. by wp_pure. }
  pose proof (device_find _ _ _ Hi Hp) as (d & Hd & Hok & Hm). apply ks_find_get in Hp as (d' & Hd' & -> & _).
  assert (d' = d) as -> by congruence. wp_seq. eapply wp_deref; [done|]. rewrite Hf. eapply wp_tree_find_key; [done|].
  simpl. fold key. destruct (ks_find _ _ _ _) as [i|] eqn:Hk; simpl; split; try done.
  - apply ks_find_get in Hk as (e & He & Hg & _). split; [done|]. exists d, e. by split_and!.
  - by apply ks_find_none.
Qed.

(** A name that is already there: its counter and its time stamp. *)
Lemma insert_host_name_hit p e : attr_view s mac f key = Some e → f = F_hostname →
  wp (gkc_insert_host_name (p, F_hostname) entry) (λ r s', r = (false, entry) ∧ touch_post s s') s.
Proof using Hi Hn Hmac Hname Hf.
  intros Hv Hfh. unfold gkc_insert_host_name. wp_seq. wp_use fetch_spec. intros r s' [-> Hr].
  destruct r as [[[q f'] i]|]; [|congruence]. destruct Hr as (-> & d & e' & Hd & Hm & He & Hv').
  wp_seq. eapply wp_entry_at; [done..|].
  assert (typed f (attr e')) as Ht.
  { eapply ok_typed, (Forall_lookup_1 _ (attr_tree f d)); [|done]. apply dev_attr_ok.
    eapply Forall_lookup_1; [apply Hi|done]. }
  destruct (count_hit_spec _ _ (attr e') s Hf Ht) as (a' & Hc & Ha). wp_seq. unfold wp at 1. rewrite Hc.
  wp_seq. wp_pure. split; [done|]. cbn [fst snd].
  assert (touched d (upd_attr_tree f (alter (λ e, set_cache_ts (now s) (set_attr a' e)) i) d)) as Htd.
  { eapply touched_entry; [done|]. unfold strip, set_cache_ts, set_attr. simpl. by rewrite Ha. }
  rewrite (touch_change _ _ d) by done. by eapply touch_post_change.
Qed.
(** A generic entry that is already there: the request is filled from it. *)
Lemma insert_generic_hit p e : attr_view s mac f key = Some e →
  wp (gkc_insert_generic (p, f) entry) (λ r s', r = (false, fill_request entry (ai_hit_counter entry) e) ∧ touch_post s s') s.
Proof using Hi Hn Hmac Hname Hf.
  intros Hv. unfold gkc_insert_generic. wp_seq. wp_use (lookup_attribute_spec s entry false mac); [done..|].
  intros r s'. rewrite Hf, Hname. cbn [mbind option_bind]. fold key. rewrite Hv. intros [-> Ht]. wp_pure.
  split; [done|]. by eapply touch_post_of.
Qed.
(** Without an entry of the key, one is made and inserted. *)
Definition insert_new (p : nat) : GK (bool * gk_attr_cache_interface) :=
  e ← gkc_new_attr_entry entry;
  match e with
  | None => mret (false, entry)
  | Some e => attr_tree_insert (p, f) e;; mret (true, entry)
  end.
Lemma add_attr_tree_miss p Q : attr_view s mac f key = None →
  wp (insert_new p) Q s → wp (gkc_add_attr_tree p entry) Q s.
Proof using Hi Hn Hmac Hname Hf.
  intros Hv Hw. assert (wp (gkc_insert_generic (p, f) entry) Q s) as Hg.
  { unfold gkc_insert_generic. wp_seq. wp_use (lookup_attribute_spec s entry false mac); [done..|].
    intros r s'. rewrite Hf, Hname. cbn [mbind option_bind]. fold key. rewrite Hv. by intros [-> ->]. }
  assert (f = F_hostname → wp (gkc_insert_host_name (p, F_hostname) entry) Q s) as Hh.
  { intros Hfh. unfold gkc_insert_host_name. wp_seq. wp_use fetch_spec. intros r s' [-> Hr].
    destruct r as [[[q f'] i]|]; [destruct Hr as (_ & ? & ? & _ & _ & _ & ?); congruence|].
    unfold insert_new in Hw. by rewrite Hfh in Hw. }
  unfold gkc_add_attr_tree. rewrite Hf. destruct f; auto.
Qed.
End add_attr.

Lemma add_attribute_spec s entry mac f name :
  gk_inv s → initialized s = true → ai_device_mac entry = Some mac → ai_attr_name entry = Some name →
  field_of (ai_attribute_type entry) = Some f → total_entry_count s < GK_MAX_CACHE_ENTRIES s →
  wp (gkc_add_attribute_entry entry) (λ r s',
    match attr_view s mac f (get_attr_key name (ai_direction entry)) with
    | Some e => r = (false, if hostname_type (ai_attribute_type entry) then entry
                            else fill_request entry (ai_hit_counter entry) e) ∧ touch_post s s'
    | None => r = (true, entry) ∧ added s entry mac f name s'
    end) s.
Proof.
  intros Hi Hn Hmac Hname Hf Hmax. unfold gkc_add_attribute_entry. wp_seq. wp_pure. rewrite Hn. cbn [negb]. wp_seq. wp_pure.
  destruct (Z.leb_spec (GK_MAX_CACHE_ENTRIES s) (total_entry_count s)); [lia|].
  assert ((req_num (ai_attribute_type entry) <? req_num GK_CACHE_REQ_TYPE_FQDN)
    || (req_num GK_CACHE_REQ_TYPE_APP <? req_num (ai_attribute_type entry)) = false) as ->
    by (by destruct (ai_attribute_type entry)).
  wp_seq. rewrite Hmac. wp_use find_or_add_device_spec; [done..|].
  intros r s1 (p & d & -> & Htp & Hp & Hm & Hfind & Hav & Hfv). destruct Htp as [Hi1 Hmgr1 Hsame1 Hcnt1].
  assert (touch_post s s1) as Htp by done. destruct Hmgr1 as (Hin1 & Hmx1 & Hnow1 & _). rewrite <- Hav.
  assert (initialized s1 = true) as Hn1 by congruence.
  assert (attr_view s1 mac f (get_attr_key name (ai_direction entry)) =
    ks_get gkc_uint64_cmp ac_key (get_attr_key name (ai_direction entry)) (attr_tree f d)) as Hvd.
  { unfold attr_view. rewrite <- Hm, (dev_view_at s1 p d) by done. done. }
  wp_seq. destruct (attr_view s1 mac f _) as [e|] eqn:Hv.
  - assert (hostname_type (ai_attribute_type entry) = bool_decide (f = F_hostname)) as Hht.
    { unfold hostname_type. rewrite Hf. apply bool_decide_ext. split; congruence. }
    rewrite Hht. unfold gkc_add_attr_tree. rewrite Hf. case_bool_decide as Hfh.
    + subst f. wp_use (insert_host_name_hit s1); [done..|]. intros r s' [-> Ht]. wp_pure.
      split; [done|]. by eapply touch_post_trans.
    + assert (wp (gkc_insert_generic (p, f) entry) (λ r s', r = (false, fill_request entry (ai_hit_counter entry) e) ∧
        touch_post s1 s') s1) as Hw by (by eapply insert_generic_hit).
      destruct f; try done; (eapply wp_mono; [exact Hw|]; intros r s' [-> Ht]; wp_pure; split; [done|]; by eapply touch_post_trans).
  - assert (total_entry_count s1 < GK_MAX_CACHE_ENTRIES s1) as Hmax1 by congruence.
    pose proof (insert_entry_spec s1 p d f entry name Hi1 Hn1 Hp Hmax1 Hf Hname (eq_sym Hvd)) as Hw.
    assert (∀ r s', (r = (true, entry) ∧ add_post s1 s' ∧ ∃ a, new_attr (ai_attribute_type entry) name = Some a ∧
        let e := new_entry (now s1) entry name a in
        attr_view s' (device_mac d) f (ac_key e) = Some e ∧
        (∀ m f' k, ¬ (m = device_mac d ∧ f' = f ∧ k = ac_key e) → attr_view s' m f' k = attr_view s1 m f' k) ∧
        (∀ m b fl, flow_view s' m b fl = flow_view s1 m b fl)) →
      r = (true, entry) ∧ added s entry mac f name s') as Hpost.
    { intros r s' (-> & Hadd & a & Ha & He & Ho & Hfl). split; [done|]. split.
      - by eapply add_post_trans.
      - exists a. split; [done|]. rewrite <- Hm, <- Hnow1. exact He.
      - intros m f' k Hne. rewrite Ho; [done|]. by rewrite Hm.
      - intros m b fl. by rewrite Hfl. }
    eapply add_attr_tree_miss; [done..|]. unfold insert_new. apply wp_assoc. eapply wp_mono; [exact Hw|exact Hpost].
Qed.
