(* ===== verification/GkCacheFlow.v ===== *)
(** The gatekeeper cache: flows, the deletion of single entries, and removing entries in bulk. *)
From Stdlib Require Import Sorting.Sorted.
From S2P Require Import Prelude DsTree DsTreeInv KeySeq GkCache GkCacheInv GkCacheOps GkCacheAdd.
Local Open Scope Z_scope.

(** *** Looking up flows *)

(** The tree of a direction. *)
Definition is_inbound (direction : Z) : bool := direction =? GKC_FLOW_DIRECTION_INBOUND.
(** What a valid request has. *)
Record flow_req_ok (req : gkc_ip_flow_interface) (mac : list Z) : Prop := {
  fr_mac : fi_device_mac req = Some mac;
  fr_dir : fi_direction req = GKC_FLOW_DIRECTION_INBOUND ∨ fi_direction req = GKC_FLOW_DIRECTION_OUTBOUND;
  fr_version : fi_ip_version req = 4 ∨ fi_ip_version req = 6;
  fr_src : ∃ a, fi_src_ip_addr req = Some a ∧ (ip_len (fi_ip_version req) ≤ length a)%nat;
  fr_dst : ∃ a, fi_dst_ip_addr req = Some a ∧ (ip_len (fi_ip_version req) ≤ length a)%nat }.
Lemma flow_req_valid req mac : flow_req_ok req mac → gkc_is_flow_valid req = true.
Proof.
  intros [Hm Hd Hv (a & Ha & _) (b & Hb & _)]. unfold gkc_is_flow_valid. rewrite Hm, Ha, Hb.
  destruct Hd as [->| ->], Hv as [->| ->]; done.
Qed.

Lemma lookup_flows_tree_spec s p d b req upd :
  per_device_tree s !! p = Some d →
  wp (gkc_lookup_flows_tree p b req upd) (λ r s',
    match ks_get gkc_flow_entry_cmp id (flow_of req) (flow_tree b d) with
    | None => r = (false, req) ∧ s' = s
    | Some e =>
        r = (true, set_fi_hit_counter (if upd then incr64 (total (fl_hit_count e)) else total (fl_hit_count e)) req) ∧
        ∃ g, s' = change p g s ∧ touched d (g d)
    end) s.
Proof.
  intros Hp. unfold gkc_lookup_flows_tree. wp_seq. eapply wp_device_at; [done|].
  destruct (ks_find _ _ _ _) as [i|] eqn:Hk.
  2: { wp_pure. apply ks_find_none in Hk. by rewrite Hk. }
  apply ks_find_get in Hk as (e & Hi & -> & _). wp_seq. eapply wp_deref; [done|]. wp_seq. unfold upd_device.
  wp_pure. wp_pure. split; [by destruct upd|].
  set (g := upd_flow_tree b _). assert (touched d (g d)) as Ht by (by eapply touched_flow).
  exists g. split; [|done]. by eapply touch_change.
Qed.
Lemma lookup_flow_spec s req upd mac :
  gk_inv s → initialized s = true → flow_req_ok req mac →
  wp (gkc_lookup_flow req upd) (λ r s',
    match flow_view s mac (is_inbound (fi_direction req)) (flow_of req) with
    | None => r = (false, req) ∧ s' = s
    | Some e =>
        r = (true, set_fi_hit_counter (if upd then incr64 (total (fl_hit_count e)) else total (fl_hit_count e)) req) ∧
        touch s s' mac
    end) s.
Proof.
  intros Hi Hn Hreq. unfold gkc_lookup_flow. rewrite (flow_req_valid _ _ Hreq), (fr_mac _ _ Hreq). cbn [negb].
  wp_seq. wp_use lookup_device_spec. intros r s' [-> ->]. rewrite Hn. unfold flow_view, dev_view.
  destruct (ks_find _ _ mac _) as [p|] eqn:Hp.
  2: { apply ks_find_none in Hp. rewrite Hp. by wp_pure. }
  pose proof (device_find _ _ _ Hi Hp) as (d & Hd & Hok & Hm). apply ks_find_get in Hp as (d' & Hd' & -> & _).
  assert (d' = d) as -> by congruence. cbn [mbind option_bind].
  unfold gkc_lookup_flows_for_device. rewrite (flow_req_valid _ _ Hreq). cbn [negb].
  assert (∀ b, wp (gkc_lookup_flows_tree p b req upd) (λ r s',
      match ks_get gkc_flow_entry_cmp id (flow_of req) (flow_tree b d) with
      | None => r = (false, req) ∧ s' = s
      | Some e =>
          r = (true, set_fi_hit_counter (if upd then incr64 (total (fl_hit_count e)) else total (fl_hit_count e)) req) ∧
          touch s s' mac
      end) s) as Hw.
  { intros b. eapply wp_mono; [by apply lookup_flows_tree_spec|]. intros r s'. destruct (ks_get _ _ _ _) as [e|]; [|done].
    intros (-> & g & -> & Ht). split; [done|]. exists p, d, g. by split_and!. }
  unfold is_inbound. destruct (fr_dir _ _ Hreq) as [E|E]; rewrite E; apply Hw.
Qed.

(** *** Adding flows *)

Definition new_flow (t : Z) (req : gkc_ip_flow_interface) : ip_flow_cache :=
  IpFlow (take (ip_len (fi_ip_version req)) (default [] (fi_src_ip_addr req)))
    (take (ip_len (fi_ip_version req)) (default [] (fi_dst_ip_addr req))) (fi_src_port req) (fi_dst_port req)
    (fi_ip_version req) (fi_protocol req) 0 (fi_action req) (wraps 32 (fi_cache_ttl req))
    (fi_gk_policy req) 0 0 t (Counter 1 0).
Lemma new_flow_spec s req mac : flow_req_ok req mac → gkc_new_flow_entry req s = Some (Some (new_flow (now s) req), s).
Proof.
  intros [_ _ _ (a & Ha & La) (b & Hb & Lb)]. unfold gkc_new_flow_entry, new_flow. rewrite Ha, Hb.
  unfold ip_len in *. rewrite decide_False by lia. done.
Qed.
Lemma new_flow_ok t req mac : flow_req_ok req mac → flow_ok (new_flow t req).
Proof.
  intros [_ _ Hv (a & Ha & La) (b & Hb & Lb)]. split; simpl; [done|rewrite Ha|rewrite Hb]; simpl; rewrite length_take; lia.
Qed.
(** The new flow is found by the request it was made from. *)
Lemma new_flow_same t req mac : flow_req_ok req mac → gkc_flow_entry_cmp (new_flow t req) (flow_of req) = 0.
Proof.
  intros [_ _ Hv _ _]. apply gkc_flow_entry_cmp_zero. unfold flow_ipl, ip_len. simpl.
  destruct Hv as [->| ->]; simpl; split_and!; try done; rewrite take_take; f_equal; lia.
Qed.

Lemma add_flow_tree_spec s p req mac Q :
  initialized s = true → flow_req_ok req mac →
  (let e := new_flow (now s) req in
   Q true (set_devices (alter (upd_flow_tree (is_inbound (fi_direction req)) (ks_insert gkc_flow_entry_cmp id e)) p) s)) →
  wp (gkc_add_flow_tree p req) Q s.
Proof.
  intros Hn Hreq HQ. unfold gkc_add_flow_tree. wp_seq. wp_pure. rewrite Hn, (flow_req_valid _ _ Hreq). cbn [negb].
  wp_seq. unfold wp at 1. rewrite (new_flow_spec s req mac Hreq). unfold is_inbound in HQ. wp_seq.
  destruct (fr_dir _ _ Hreq) as [E|E]; rewrite E in HQ |- *; exact HQ.
Qed.

Lemma add_flow_spec s req mac :
  gk_inv s → initialized s = true → flow_req_ok req mac → total_entry_count s < GK_MAX_CACHE_ENTRIES s →
  let b := is_inbound (fi_direction req) in
  wp (gkc_add_flow_entry req) (λ r s',
    match flow_view s mac b (flow_of req) with
    | Some e => r = (false, set_fi_hit_counter (total (fl_hit_count e)) req) ∧ touch_post s s'
    | None => r = (true, req) ∧ add_post s s' ∧ flow_view s' mac b (flow_of req) = Some (new_flow (now s) req) ∧
        (∀ m b' fl, ¬ (m = mac ∧ b' = b ∧ gkc_flow_entry_cmp (flow_of req) fl = 0) →
           flow_view s' m b' fl = flow_view s m b' fl) ∧
        (∀ m f k, attr_view s' m f k = attr_view s m f k)
    end) s.
Proof.
  intros Hi Hn Hreq Hmax b. unfold gkc_add_flow_entry. wp_seq. wp_pure. rewrite Hn, (fr_mac _ _ Hreq). cbn [negb].
  wp_seq. wp_use (lookup_flow_spec s req false mac); [done..|]. intros r s1. fold b.
  destruct (flow_view s mac b (flow_of req)) as [e|] eqn:Hv.
  { intros [-> Ht]. wp_pure. split; [done|]. by eapply touch_post_of. }
  intros [-> ->]. wp_seq. wp_pure. destruct (Z.leb_spec (GK_MAX_CACHE_ENTRIES s) (total_entry_count s)); [lia|].
  wp_seq. rewrite (fr_mac _ _ Hreq). wp_use find_or_add_device_spec; [done..|].
  intros r s1 (p & d & -> & Htp & Hp & Hm & Hfind & Hav & Hfv).
  pose proof Htp as [Hi1 (Hin1 & Hmx1 & Hnow1 & _) _ Hcnt1].
  assert (dev_ok d) as Hokd by (eapply Forall_lookup_1; [apply Hi1|done]).
  assert (ks_get gkc_flow_entry_cmp id (flow_of req) (flow_tree b d) = None) as Hnone.
  { rewrite <- Hfv in Hv. unfold flow_view in Hv. by rewrite <- Hm, (dev_view_at s1 p d) in Hv. }
  set (e := new_flow (now s1) req). pose proof (new_flow_same (now s1) req mac Hreq) as Hsame. fold e in Hsame.
  assert (ks_get gkc_flow_entry_cmp id (id e) (flow_tree b d) = None) as Hnone'.
  { rewrite ks_get_none in Hnone |- *. eapply Forall_impl; [exact Hnone|]. unfold id. intros x Hx Hxe. apply Hx.
    by eapply (cmp_eq_trans gkc_flow_entry_cmp). }
  set (g := upd_flow_tree b (ks_insert gkc_flow_entry_cmp id e)).
  assert (initialized s1 = true) as Hn1 by congruence.
  wp_seq. eapply add_flow_tree_spec; [done..|]. cbv zeta. fold e b g. cbn [negb]. wp_seq. wp_pure. wp_seq.
  assert (∃ i, index_of (if fi_direction req =? GKC_FLOW_DIRECTION_INBOUND then GK_CACHE_REQ_TYPE_INBOUND
                         else GK_CACHE_REQ_TYPE_OUTBOUND) = Some i) as [i Hix] by (destruct (_ =? _); by eexists).
  eapply wp_deref; [exact Hix|]. wp_seq. unfold upd_device. wp_pure. wp_pure.
  set (allow := fi_action req =? ACTION_ALLOW).
  assert ((if allow then upd_allowed (alter incr64 i) else upd_blocked (alter decr64 i)) = count_verdict allow decr64 i) as ->
    by (by destruct allow).
  assert (dev_size (g d) = S (dev_size d)) as Hsz by apply insert_flow_size.
  assert (total_entry_count s1 < GK_MAX_CACHE_ENTRIES s1) as Hmax1 by congruence.
  rewrite (added_state s1 p d) by done. split; [done|].
  split; [eapply add_post_trans; [done|]; eapply added_post; try done; by apply insert_flow_ok; [..|eapply new_flow_ok|]|].
  destruct (added_flow_views s1 p d b e allow decr64 i Hi1 Hp Hnone') as [Hfv' Hav']. fold g in Hfv', Hav'.
  split_and!; [rewrite Hfv'; by rewrite decide_True, <- Hnow1| |intros m f k; by rewrite Hav'].
  intros m b' fl Hne. rewrite Hfv', decide_False; [done|]. intros (-> & -> & Hefl). apply Hne.
  split_and!; [done..|]. eapply (cmp_eq_trans gkc_flow_entry_cmp); [|exact Hefl]. by apply (cmp_eq_sym gkc_flow_entry_cmp).
Qed.

(** *** Deleting one entry *)

(** One entry less in a device. *)
Lemma removed_state s p d g :
  gk_inv s → per_device_tree s !! p = Some d → dev_size d = S (dev_size (g d)) →
  set_count decr64 (set_devices (alter g p) s) = change p g s.
Proof.
  intros Hi Hp Hg. unfold change. rewrite Hp. unfold set_count, set_devices. simpl. f_equal.
  pose proof (inv_max _ Hi). pose proof (inv_slack _ Hi). pose proof (devs_size_in _ _ _ Hp).
  unfold slack in *. unfold decr64, wrapu. rewrite Z.mod_small; lia.
Qed.
Record del_post (s s' : gk_state) : Prop := {
  dp_inv : gk_inv s'; dp_mgr : mgr_same s s'; dp_count : total_entry_count s' = total_entry_count s - 1 }.
Lemma removed_post s p d g :
  gk_inv s → initialized s = true → per_device_tree s !! p = Some d → device_mac (g d) = device_mac d →
  dev_ok (g d) → dev_size d = S (dev_size (g d)) → del_post s (change p g s).
Proof.
  intros Hi Hn Hp Hm Hok Hg. split.
  - eapply gk_change_inv; [done..|left; lia].
  - apply mgr_same_change.
  - unfold change. rewrite Hp. simpl. lia.
Qed.

Lemma delete_attr_ok f i d : dev_ok d → dev_ok (upd_attr_tree f (delete i) d).
Proof.
  intros [As Ao Fs Fo Da]. split; [| |intros b; by rewrite flow_tree_upd_attr..|done];
    intros f'; rewrite attr_tree_upd; destruct (decide _) as [->|]; auto using ks_sorted_delete, Forall_delete.
Qed.
Lemma delete_attr_size f i e d : attr_tree f d !! i = Some e → dev_size d = S (dev_size (upd_attr_tree f (delete i) d)).
Proof.
  intros He. assert (length (attr_tree f d) = S (length (delete i (attr_tree f d)))) as Hl.
  { rewrite length_delete by eauto. pose proof (lookup_lt_Some _ _ _ He). lia. }
  unfold dev_size. destruct f; simpl in *; lia.
Qed.
Lemma delete_flow_ok b i d : dev_ok d → dev_ok (upd_flow_tree b (delete i) d).
Proof.
  intros [As Ao Fs Fo Da]. split; [intros f; by rewrite attr_tree_upd_flow..| | |done];
    intros b'; rewrite flow_tree_upd; destruct (decide _) as [->|]; auto using ks_sorted_delete, Forall_delete.
Qed.
Lemma delete_flow_size b i e d : flow_tree b d !! i = Some e → dev_size d = S (dev_size (upd_flow_tree b (delete i) d)).
Proof.
  intros He. assert (length (flow_tree b d) = S (length (delete i (flow_tree b d)))) as Hl.
  { rewrite length_delete by eauto. pose proof (lookup_lt_Some _ _ _ He). lia. }
  unfold dev_size. destruct b; simpl in *; lia.
Qed.

(** The first entry of a name. *)
Definition first_named (name : string) (l : list attr_cache) : option (nat * attr_cache) :=
  list_find (λ e, attr_name (attr e) = name) l.
Lemma del_attr_walk_spec t f name l i s :
  Forall (attr_ok f) l → gk_get_attribute_tree t = Some f →
  wp (del_attr_walk t name i l) (λ r s', s' = s ∧
    r = (λ x, (i + x.1)%nat) <$> first_named name l) s.
Proof.
  intros Hl Ht. revert i. induction Hl as [|e l He Hl IH]; intros i; simpl; [by wp_pure|].
  assert (gkc_is_attr_present e t name s = Some (bool_decide (attr_name (attr e) = name), s) ∧
    gkc_free_attr_entry e t = Some tt) as [Hpr Hfr].
  { destruct He as [Hty _]. unfold gkc_is_attr_present, gkc_free_attr_entry.
    destruct (attr e), t; simplify_eq/=; done. }
  wp_seq. unfold wp at 1. rewrite Hpr. case_bool_decide as E.
  - unfold first_named. simpl. rewrite decide_True by done. wp_seq. eapply wp_deref; [done|]. wp_pure.
    split; [done|]. simpl. f_equal. lia.
  - wp_use IH. intros r s' [-> ->]. split; [done|].
    unfold first_named. simpl. rewrite decide_False by done.
    destruct (list_find _ l) as [[j x]|]; simpl; [|done]. f_equal. lia.
Qed.

Lemma del_attribute_spec s req mac name :
  gk_inv s → initialized s = true → ai_device_mac req = Some mac → ai_attr_name req = Some name →
  wp (gkc_del_attribute req) (λ r s',
    match (d ← dev_view s mac; f ← gk_get_attribute_tree (ai_attribute_type req);
           pair f <$> first_named name (attr_tree f d)) with
    | None => r = false ∧ s' = s
    | Some (f, (_, e)) => r = true ∧ del_post s s' ∧
        (∀ m f' k, attr_view s' m f' k =
           if decide (m = mac ∧ f' = f ∧ k = ac_key e) then None else attr_view s m f' k) ∧
        (∀ m b fl, flow_view s' m b fl = flow_view s m b fl)
    end) s.
Proof.
  intros Hi Hn Hmac Hname. unfold gkc_del_attribute. wp_seq. wp_pure. rewrite Hn, Hmac. cbn [negb].
  wp_seq. wp_use lookup_device_spec. intros r s' [-> ->]. rewrite Hn. unfold dev_view at 1.
  destruct (ks_find _ _ mac _) as [p|] eqn:Hp.
  2: { apply ks_find_none in Hp. rewrite Hp. by wp_pure. }
  pose proof (device_find _ _ _ Hi Hp) as (d & Hd & Hok & Hm). apply ks_find_get in Hp as (d' & Hd' & -> & _).
  assert (d' = d) as -> by congruence. cbn [mbind option_bind].
  wp_seq. unfold gkc_del_attr_from_dev. rewrite Hname.
  destruct (gk_get_attribute_tree (ai_attribute_type req)) as [f|] eqn:Hf; cbn [mbind option_bind]; [|by wp_pure; wp_pure].
  unfold gkc_del_attr. wp_seq. eapply wp_tree_at; [done|]. wp_seq. wp_use del_attr_walk_spec; [apply Hok|done|].
  intros r s' [-> ->]. destruct (first_named _ _) as [[i e]|] eqn:Hl; simpl; [|by wp_pure; wp_pure].
  apply list_find_Some in Hl as (He & _ & _). wp_seq. unfold upd_tree, upd_device. simpl. wp_pure. wp_pure.
  rewrite (removed_state s p d) by (done || by eapply delete_attr_size).
  split; [done|]. split.
  { eapply removed_post; try done; [by apply delete_attr_ok|by eapply delete_attr_size]. }
  split.
  - intros m f' k. rewrite (attr_view_change _ _ _ d) by done. rewrite attr_tree_upd.
    destruct (decide (device_mac d = m)) as [<-|]; [|rewrite decide_False by naive_solver; done].
    unfold attr_view. rewrite (dev_view_at s p d) by done. simpl.
    destruct (decide (f' = f)) as [->|]; [|by rewrite decide_False by naive_solver].
    rewrite (ks_get_delete _ _ k i _ e) by first [apply _|done|apply Hok].
    destruct (decide _) as [E|E], (decide _) as [E'|E']; try done; rewrite gkc_uint64_cmp_zero in E; naive_solver.
  - intros m b fl. rewrite (flow_view_change _ _ _ d) by done. destruct (decide _) as [<-|]; [|done].
    rewrite flow_tree_upd_attr. unfold flow_view. by rewrite (dev_view_at s p d).
Qed.

Lemma del_flow_from_tree_spec s p d b req :
  per_device_tree s !! p = Some d → dev_ok d →
  wp (gkc_del_flow_from_tree p b req) (λ r s',
    match list_find (λ e, gkc_flow_entry_cmp (id e) (flow_of req) = 0) (flow_tree b d) with
    | None => r = false ∧ s' = s
    | Some (i, e) => r = true ∧ s' = set_devices (alter (upd_flow_tree b (delete i)) p) s
    end) s.
Proof.
  intros Hp Hok. unfold gkc_del_flow_from_tree. wp_seq. eapply wp_device_at; [done|].
  rewrite (list_find_ext (λ e, gkc_is_flow_present e req = true) (λ e, gkc_flow_entry_cmp (id e) (flow_of req) = 0)).
  2: { intros e. unfold gkc_is_flow_present, id. apply Z.eqb_eq. }
  destruct (list_find _ _) as [[i e]|]; [|by wp_pure]. wp_seq. unfold upd_device. wp_pure. by wp_pure.
Qed.
Lemma del_flow_spec s req mac :
  gk_inv s → initialized s = true → flow_req_ok req mac →
  let b := is_inbound (fi_direction req) in
  wp (gkc_del_flow req) (λ r s',
    match flow_view s mac b (flow_of req) with
    | None => r = false ∧ s' = s
    | Some e => r = true ∧ del_post s s' ∧
        (∀ m b' fl, flow_view s' m b' fl =
           if decide (m = mac ∧ b' = b ∧ gkc_flow_entry_cmp (flow_of req) fl = 0) then None else flow_view s m b' fl) ∧
        (∀ m f k, attr_view s' m f k = attr_view s m f k)
    end) s.
Proof.
  intros Hi Hn Hreq b. unfold gkc_del_flow. wp_seq. wp_pure.
  rewrite Hn, (flow_req_valid _ _ Hreq), (fr_mac _ _ Hreq). cbn [negb].
  wp_seq. wp_use lookup_device_spec. intros r s' [-> ->]. rewrite Hn. unfold flow_view at 1, dev_view at 1.
  destruct (ks_find _ _ mac _) as [p|] eqn:Hp.
  2: { apply ks_find_none in Hp. rewrite Hp. by wp_pure. }
  pose proof (device_find _ _ _ Hi Hp) as (d & Hd & Hok & Hm). apply ks_find_get in Hp as (d' & Hd' & -> & _).
  assert (d' = d) as -> by congruence. cbn [mbind option_bind]. wp_seq.
  assert (gkc_del_flow_from_dev p req = gkc_del_flow_from_tree p b req) as ->.
  { unfold gkc_del_flow_from_dev, b, is_inbound. by destruct (fr_dir _ _ Hreq) as [->| ->]. }
  wp_use del_flow_from_tree_spec; [done..|]. intros r s'. unfold ks_get.
  destruct (list_find _ _) as [[i e]|] eqn:Hl; simpl; [|intros [-> ->]; by wp_pure].
  apply list_find_Some in Hl as (He & Hz & _). intros [-> ->]. cbn [negb]. wp_seq. wp_pure. wp_pure.
  rewrite (removed_state s p d) by (done || by eapply delete_flow_size). split; [done|]. split.
  { eapply removed_post; try done; [by apply delete_flow_ok|by eapply delete_flow_size]. }
  split.
  - intros m b' fl. rewrite (flow_view_change _ _ _ d) by done. rewrite flow_tree_upd.
    destruct (decide (device_mac d = m)) as [<-|]; [|rewrite decide_False by naive_solver; done].
    unfold flow_view. rewrite (dev_view_at s p d) by done. simpl.
    destruct (decide (b' = b)) as [->|]; [|by rewrite decide_False by naive_solver].
    rewrite (ks_get_delete _ _ fl i _ e) by first [apply _|done|apply Hok]. unfold id in *.
    pose proof (cmp_eq_trans gkc_flow_entry_cmp e (flow_of req) fl). pose proof (cmp_eq_sym gkc_flow_entry_cmp e (flow_of req)).
    pose proof (cmp_eq_trans gkc_flow_entry_cmp (flow_of req) e fl).
    destruct (decide _) as [E|E], (decide _) as [E'|E']; naive_solver.
  - intros m f k. rewrite (attr_view_change _ _ _ d) by done. destruct (decide _) as [<-|]; [|done].
    rewrite attr_tree_upd_flow. unfold attr_view. by rewrite (dev_view_at s p d).
Qed.

(** ** The gatekeeper cache: removing entries in bulk, by age or all of them. *)

(** *** The loops over one tree *)

Definition kept {A} (P : A → bool) (l : list A) : list A := filter (λ e, P e = false) l.
Lemma Forall_kept {A} (Q : A → Prop) P l : Forall Q l → Forall Q (kept P l).
Proof. rewrite !Forall_forall. intros H e (_ & He)%list_elem_of_filter. auto. Qed.
Lemma ks_sorted_kept {K A} (cmp : K → K → Z) (key : A → K) P l : ks_sorted cmp key l → ks_sorted cmp key (kept P l).
Proof. apply ks_sorted_filter. Qed.
Lemma remove_loop_spec {A} (P : A → bool) (gone : A → GK bool) l s :
  (∀ e s, e ∈ l → wp (gone e) (λ b s', b = P e ∧ s' = if P e then set_count decr64 s else s) s) →
  Z.of_nat (length l) - Z.of_nat (length (kept P l)) ≤ total_entry_count s < 2 ^ 64 →
  wp (remove_loop gone l) (λ l' s', l' = kept P l ∧
    s' = set_count (λ c, c - (Z.of_nat (length l) - Z.of_nat (length (kept P l)))) s) s.
Proof.
  unfold kept. revert s. induction l as [|e l IH]; intros s Hg Hc.
  { simpl. wp_pure. split; [done|]. destruct s. unfold set_count. simpl. f_equal. lia. }
  pose proof (length_filter (λ e, P e = false) l) as Hlen.
  cbn [remove_loop]. wp_seq. wp_use Hg; [set_solver|]. intros b s' [-> ->]. wp_seq. destruct (P e) eqn:HP.
  - rewrite filter_cons_False in Hc |- * by congruence. cbn [length] in *. wp_use IH.
    + intros. apply Hg. set_solver.
    + simpl. unfold decr64, wrapu. rewrite Z.mod_small; lia.
    + intros l' s' [-> ->]. wp_pure. split; [done|]. unfold set_count. simpl. f_equal.
      unfold decr64, wrapu. rewrite Z.mod_small; lia.
  - rewrite filter_cons_True in Hc |- * by congruence. cbn [length] in *. wp_use IH.
    + intros. apply Hg. set_solver.
    + lia.
    + intros l' s' [-> ->]. wp_pure. split; [done|]. unfold set_count. simpl. f_equal. lia.
Qed.

(** *** One device *)

(** A device in a state whose counter covers the entries. *)
Record at_dev (s : gk_state) (p : nat) (d : per_device_cache) : Prop := {
  at_init : initialized s = true; at_lookup : per_device_tree s !! p = Some d; at_ok : dev_ok d;
  at_count : 0 ≤ slack s ∧ total_entry_count s < 2 ^ 64 }.
Lemma at_dev_inv s p d : gk_inv s → initialized s = true → per_device_tree s !! p = Some d → at_dev s p d.
Proof.
  intros Hi Hn Hp. split; [done|done| |].
  - eapply Forall_lookup_1; [apply Hi|done].
  - pose proof (inv_max _ Hi). pose proof (inv_slack _ Hi). lia.
Qed.
Lemma at_dev_change s p d g : at_dev s p d → dev_ok (g d) → (dev_size (g d) ≤ dev_size d)%nat →
  at_dev (change p g s) p (g d).
Proof.
  intros [Hn Hp _ Hc] Hok Hsz. split; [by rewrite change_init|by apply change_lookup|done|].
  rewrite change_slack. unfold change. rewrite Hp. simpl. lia.
Qed.

Definition keep_attrs (P : attr_cache → bool) (f : attr_field) : per_device_cache → per_device_cache :=
  upd_attr_tree f (kept P).
Definition keep_flows (P : ip_flow_cache → bool) (b : bool) : per_device_cache → per_device_cache :=
  upd_flow_tree b (kept P).
Lemma keep_attrs_ok P f d : dev_ok d → dev_ok (keep_attrs P f d).
Proof.
  intros [As Ao Fs Fo Da]. split; [| |intros b; unfold keep_attrs; by rewrite flow_tree_upd_attr..|done];
    intros f'; unfold keep_attrs; rewrite attr_tree_upd;
    destruct (decide _) as [->|]; auto using ks_sorted_kept, Forall_kept.
Qed.
Lemma keep_flows_ok P b d : dev_ok d → dev_ok (keep_flows P b d).
Proof.
  intros [As Ao Fs Fo Da]. split; [intros f; unfold keep_flows; by rewrite attr_tree_upd_flow..| | |done];
    intros b'; unfold keep_flows; rewrite flow_tree_upd;
    destruct (decide _) as [->|]; auto using ks_sorted_kept, Forall_kept.
Qed.
Lemma keep_attrs_size P f d : (Z.of_nat (dev_size (keep_attrs P f d)) =
  Z.of_nat (dev_size d) - (Z.of_nat (length (attr_tree f d)) - Z.of_nat (length (kept P (attr_tree f d)))))%Z.
Proof. pose proof (length_filter (λ e, P e = false) (attr_tree f d)). unfold dev_size. destruct f; simpl; lia. Qed.
Lemma keep_flows_size P b d : (Z.of_nat (dev_size (keep_flows P b d)) =
  Z.of_nat (dev_size d) - (Z.of_nat (length (flow_tree b d)) - Z.of_nat (length (kept P (flow_tree b d)))))%Z.
Proof. pose proof (length_filter (λ e, P e = false) (flow_tree b d)). unfold dev_size. destruct b; simpl; lia. Qed.

Lemma keep_attrs_change s p d P f : per_device_tree s !! p = Some d →
  set_devices (alter (upd_attr_tree f (λ _, kept P (attr_tree f d))) p)
    (set_count (λ c, c - (Z.of_nat (length (attr_tree f d)) - Z.of_nat (length (kept P (attr_tree f d))))) s)
  = change p (keep_attrs P f) s.
Proof.
  intros Hp. unfold change. rewrite Hp, keep_attrs_size. unfold set_devices, set_count. simpl. f_equal; [lia|].
  apply list_alter_ext; [|done]. intros d' Hd'. assert (d' = d) as -> by congruence. by destruct f.
Qed.
Lemma keep_flows_change s p d P b : per_device_tree s !! p = Some d →
  set_devices (alter (upd_flow_tree b (λ _, kept P (flow_tree b d))) p)
    (set_count (λ c, c - (Z.of_nat (length (flow_tree b d)) - Z.of_nat (length (kept P (flow_tree b d))))) s)
  = change p (keep_flows P b) s.
Proof.
  intros Hp. unfold change. rewrite Hp, keep_flows_size. unfold set_devices, set_count. simpl. f_equal; [lia|].
  apply list_alter_ext; [|done]. intros d' Hd'. assert (d' = d) as -> by congruence. by destruct b.
Qed.
Lemma at_dev_attr_room s p d P f : at_dev s p d →
  Z.of_nat (length (attr_tree f d)) - Z.of_nat (length (kept P (attr_tree f d))) ≤ total_entry_count s < 2 ^ 64.
Proof.
  intros [_ Hp _ [Hs Hc]]. split; [|done]. pose proof (keep_attrs_size P f d). pose proof (devs_size_in _ _ _ Hp). unfold slack in Hs. lia.
Qed.
Lemma at_dev_flow_room s p d P b : at_dev s p d →
  Z.of_nat (length (flow_tree b d)) - Z.of_nat (length (kept P (flow_tree b d))) ≤ total_entry_count s < 2 ^ 64.
Proof.
  intros [_ Hp _ [Hs Hc]]. split; [|done]. pose proof (keep_flows_size P b d). pose proof (devs_size_in _ _ _ Hp). unfold slack in Hs. lia.
Qed.
Lemma at_dev_keep_attrs s p d P f : at_dev s p d → at_dev (change p (keep_attrs P f) s) p (keep_attrs P f d).
Proof.
  intros Ha. apply at_dev_change; [done|by apply keep_attrs_ok, (at_ok s p)|].
  pose proof (keep_attrs_size P f d). pose proof (length_filter (λ e, P e = false) (attr_tree f d)). unfold kept in *. lia.
Qed.
Lemma at_dev_keep_flows s p d P b : at_dev s p d → at_dev (change p (keep_flows P b) s) p (keep_flows P b d).
Proof.
  intros Ha. apply at_dev_change; [done|by apply keep_flows_ok, (at_ok s p)|].
  pose proof (keep_flows_size P b d). pose proof (length_filter (λ e, P e = false) (flow_tree b d)). unfold kept in *. lia.
Qed.

(** Freeing an entry of a tree with a type that selects the same tree. *)
Lemma free_attr_typed f e t : attr_ok f e → gk_get_attribute_tree t = Some f → gkc_free_attr_entry e t = Some tt.
Proof. intros [Ht _] Hf. unfold gkc_free_attr_entry. destruct (attr e), t; simplify_eq/=; done. Qed.

(** *** One tree *)

Lemma clean_attribute_tree_spec s p d f t Q : at_dev s p d → gk_get_attribute_tree t = Some f →
  (let s' := change p (keep_attrs (λ _, true) f) s in at_dev s' p (keep_attrs (λ _, true) f d) → Q tt s') →
  wp (gk_clean_attribute_tree (p, f) t) Q s.
Proof.
  intros Ha Ht HQ. unfold gk_clean_attribute_tree. wp_seq. eapply wp_tree_at; [apply Ha|].
  wp_seq. wp_use (remove_loop_spec (λ _ : attr_cache, true)).
  - intros e s' He. wp_seq. eapply wp_deref.
    { eapply free_attr_typed; [|done]. eapply Forall_forall; [apply (dev_attr_ok _ (at_ok _ _ _ Ha))|done]. }
    wp_seq. wp_pure. by wp_pure.
  - by eapply at_dev_attr_room.
  - intros l s' [-> ->]. unfold upd_tree, upd_device. simpl. wp_pure. rewrite keep_attrs_change by apply Ha.
    by apply HQ, at_dev_keep_attrs.
Qed.
Lemma clean_flow_tree_spec s p d b Q : at_dev s p d →
  (let s' := change p (keep_flows (λ _, true) b) s in at_dev s' p (keep_flows (λ _, true) b d) → Q tt s') →
  wp (gk_clean_flow_tree p b) Q s.
Proof.
  intros Ha HQ. unfold gk_clean_flow_tree. wp_seq. eapply wp_device_at; [apply Ha|].
  wp_seq. wp_use (remove_loop_spec (λ _ : ip_flow_cache, true)).
  - intros e s' He. wp_seq. wp_pure. by wp_pure.
  - by eapply at_dev_flow_room.
  - intros l s' [-> ->]. unfold upd_device. wp_pure. rewrite keep_flows_change by apply Ha.
    by apply HQ, at_dev_keep_flows.
Qed.
Lemma ttl_attribute_tree_spec s p d f t Q : at_dev s p d → gk_get_attribute_tree t = Some f →
  (let s' := change p (keep_attrs (gkc_attr_ttl_expired (now s)) f) s in
   ∀ n, at_dev s' p (keep_attrs (gkc_attr_ttl_expired (now s)) f d) → Q n s') →
  wp (gkc_cleanup_ttl_attribute_tree (p, f) t) Q s.
Proof.
  intros Ha Ht HQ. unfold gkc_cleanup_ttl_attribute_tree. wp_seq. wp_pure. rewrite (at_init _ _ _ Ha). cbn [negb].
  wp_seq. wp_pure. wp_seq. eapply wp_tree_at; [apply Ha|]. wp_seq.
  wp_use (remove_loop_spec (gkc_attr_ttl_expired (now s))).
  - intros e s' He. destruct (gkc_attr_ttl_expired (now s) e); cbn [negb]; [|by wp_pure]. wp_seq. eapply wp_deref.
    { eapply free_attr_typed; [|done]. eapply Forall_forall; [apply (dev_attr_ok _ (at_ok _ _ _ Ha))|done]. }
    wp_seq. wp_pure. by wp_pure.
  - by eapply at_dev_attr_room.
  - intros l s' [-> ->]. wp_seq. unfold upd_tree, upd_device. simpl. wp_pure. wp_pure. rewrite keep_attrs_change by apply Ha.
    by apply HQ, at_dev_keep_attrs.
Qed.
Lemma ttl_flow_tree_spec s p d b Q : at_dev s p d →
  (let s' := change p (keep_flows (gkc_flow_ttl_expired (now s)) b) s in
   ∀ n, at_dev s' p (keep_flows (gkc_flow_ttl_expired (now s)) b d) → Q n s') →
  wp (gkc_cleanup_ttl_flow_tree p b) Q s.
Proof.
  intros Ha HQ. unfold gkc_cleanup_ttl_flow_tree. wp_seq. wp_pure. rewrite (at_init _ _ _ Ha). cbn [negb].
  wp_seq. wp_pure. wp_seq. eapply wp_device_at; [apply Ha|]. wp_seq.
  wp_use (remove_loop_spec (gkc_flow_ttl_expired (now s))).
  - intros e s' He. destruct (gkc_flow_ttl_expired (now s) e); cbn [negb]; [|by wp_pure].
    wp_seq. wp_pure. by wp_pure.
  - by eapply at_dev_flow_room.
  - intros l s' [-> ->]. wp_seq. unfold upd_device. wp_pure. wp_pure. rewrite keep_flows_change by apply Ha.
    by apply HQ, at_dev_keep_flows.
Qed.

(** *** A whole device *)

(** A device without the entries that satisfy one of the tests. *)
Definition keep_dev (P : attr_cache → bool) (R : ip_flow_cache → bool) (d : per_device_cache) : per_device_cache :=
  PerDevice (device_mac d) (pd_counter d) (req_counter d) (allowed d) (blocked d)
    (kept P (hostname_tree d)) (kept P (url_tree d)) (kept P (ipv4_tree d)) (kept P (ipv6_tree d)) (kept P (app_tree d))
    (kept R (outbound_tree d)) (kept R (inbound_tree d)).
Lemma keep_dev_trees P R d : (∀ f, attr_tree f (keep_dev P R d) = kept P (attr_tree f d)) ∧
  (∀ b, flow_tree b (keep_dev P R d) = kept R (flow_tree b d)).
Proof. split; by intros []. Qed.
Lemma keep_dev_steps P R d : keep_dev P R d =
  keep_flows R false (keep_flows R true (keep_attrs P F_app (keep_attrs P F_ipv6 (keep_attrs P F_ipv4
    (keep_attrs P F_url (keep_attrs P F_hostname d)))))).
Proof. by destruct d. Qed.
Lemma keep_dev_ok P R d : dev_ok d → dev_ok (keep_dev P R d).
Proof. intros. rewrite keep_dev_steps. by repeat (apply keep_flows_ok || apply keep_attrs_ok). Qed.
Lemma keep_dev_size P R d : (dev_size (keep_dev P R d) ≤ dev_size d)%nat.
Proof.
  assert (∀ l, length (kept P l) ≤ length l)%nat as HP by (intros; apply length_filter).
  assert (∀ l, length (kept R l) ≤ length l)%nat as HR by (intros; apply length_filter).
  pose proof (HP (hostname_tree d)). pose proof (HP (url_tree d)). pose proof (HP (ipv4_tree d)).
  pose proof (HP (ipv6_tree d)). pose proof (HP (app_tree d)). pose proof (HR (outbound_tree d)).
  pose proof (HR (inbound_tree d)). unfold dev_size. simpl. lia.
Qed.
Lemma keep_dev_change s p P R :
  change p (keep_flows R false) (change p (keep_flows R true) (change p (keep_attrs P F_app) (change p (keep_attrs P F_ipv6)
    (change p (keep_attrs P F_ipv4) (change p (keep_attrs P F_url) (change p (keep_attrs P F_hostname) s)))))) =
  change p (keep_dev P R) s.
Proof. rewrite !change_change. apply change_ext. intros d _. by rewrite keep_dev_steps. Qed.

Lemma clean_per_device_spec s p d Q : at_dev s p d →
  (let s' := change p (keep_dev (λ _, true) (λ _, true)) s in
   Q (wraps 32 (wraps 32 (total_entry_count s) - total_entry_count s')) s') → wp (gk_clean_per_device_entry p) Q s.
Proof.
  intros Ha HQ. unfold gk_clean_per_device_entry. wp_seq. unfold gk_get_cache_count. wp_pure. rewrite (at_init _ _ _ Ha).
  do 5 (wp_seq; eapply clean_attribute_tree_spec; [done..|]; cbv zeta; clear Ha; intros Ha).
  do 2 (wp_seq; eapply clean_flow_tree_spec; [done..|]; cbv zeta; clear Ha; intros Ha).
  wp_seq. wp_pure. rewrite (at_init _ _ _ Ha). wp_pure. rewrite keep_dev_change. apply HQ.
Qed.
Lemma ttl_per_device_spec s p d Q : at_dev s p d →
  Q tt (change p (keep_dev (gkc_attr_ttl_expired (now s)) (gkc_flow_ttl_expired (now s))) s) →
  wp (gk_cache_check_ttl_per_device p) Q s.
Proof.
  intros Ha HQ. unfold gk_cache_check_ttl_per_device. wp_seq. unfold ttl_attr_types. cbn [ttl_attrs].
  rewrite <- keep_dev_change in HQ.
  do 5 (wp_seq; eapply wp_deref; [reflexivity|]; wp_seq; eapply ttl_attribute_tree_spec; [exact Ha|reflexivity|];
    cbv zeta; clear Ha; intros _ Ha; rewrite ?change_now in Ha |- *).
  wp_pure. do 2 (wp_seq; eapply ttl_flow_tree_spec; [done..|]; cbv zeta; clear Ha; intros _ Ha; rewrite ?change_now in Ha |- *).
  wp_pure. exact HQ.
Qed.

(** *** The cache *)

(** What [gkc_ttl_cleanup] leaves of a device at time [t]. *)
Definition ttl_dev (t : Z) : per_device_cache → per_device_cache :=
  keep_dev (gkc_attr_ttl_expired t) (gkc_flow_ttl_expired t).

Lemma keep_dev_inv s p d P R : gk_inv s → initialized s = true → per_device_tree s !! p = Some d →
  gk_inv (change p (keep_dev P R) s).
Proof.
  intros Hi Hn Hp. eapply gk_change_inv; [done..| |done|left; apply keep_dev_size].
  apply keep_dev_ok. eapply Forall_lookup_1; [apply Hi|done].
Qed.
Lemma ttl_devices_spec n p s : gk_inv s → initialized s = true → (p + n = length (per_device_tree s))%nat →
  wp (ttl_devices n p) (λ _ s', gk_inv s' ∧ mgr_same s s' ∧
    per_device_tree s' = take p (per_device_tree s) ++ (ttl_dev (now s) <$> drop p (per_device_tree s))) s.
Proof.
  revert p s. induction n as [|n IH]; intros p s Hi Hn Hlen; cbn [ttl_devices].
  { wp_pure. split_and!; [done|by split_and!|]. rewrite drop_ge, take_ge by lia. by rewrite app_nil_r. }
  destruct (lookup_lt_is_Some_2 (per_device_tree s) p) as [d Hp]; [lia|].
  wp_seq. eapply ttl_per_device_spec; [by apply at_dev_inv|]. fold (ttl_dev (now s)).
  pose proof (keep_dev_inv s p d (gkc_attr_ttl_expired (now s)) (gkc_flow_ttl_expired (now s)) Hi Hn Hp) as Hi1.
  fold (ttl_dev (now s)) in Hi1. assert (per_device_tree (change p (ttl_dev (now s)) s) = alter (ttl_dev (now s)) p (per_device_tree s)) as Ht
    by (unfold change; by rewrite Hp).
  wp_use IH; [done|by rewrite change_init|rewrite Ht, length_alter; lia|]. intros _ s' (Hi' & Hm & Hd).
  split_and!; [done|eapply mgr_same_trans; [apply mgr_same_change|done]|].
  rewrite Hd, Ht, change_now. rewrite (take_S_r _ _ (ttl_dev (now s) d)) by (by rewrite list_lookup_alter_eq, Hp).
  rewrite take_alter_ge, drop_alter_lt, (drop_S _ d p) by (done || lia). simpl. by rewrite <- app_assoc.
Qed.
Lemma ttl_cleanup_spec s : gk_inv s → initialized s = true →
  wp gkc_ttl_cleanup (λ _ s', gk_inv s' ∧ mgr_same s s' ∧ per_device_tree s' = ttl_dev (now s) <$> per_device_tree s) s.
Proof.
  intros Hi Hn. unfold gkc_ttl_cleanup. wp_seq. wp_pure. rewrite Hn. cbn [negb]. unfold gk_cache_check_ttl_device_tree.
  wp_seq. wp_pure. wp_use ttl_devices_spec; [done..|]. intros _ s' (? & ? & Hd). split_and!; [done..|]. by rewrite Hd.
Qed.

Lemma free_devices_spec n s : gk_inv s → initialized s = true → length (per_device_tree s) = n →
  wp (free_devices n) (λ _ s', per_device_tree s' = [] ∧ mgr_same s s') s.
Proof.
  revert s. induction n as [|n IH]; intros s Hi Hn Hlen; cbn [free_devices].
  { wp_pure. split; [by apply nil_length_inv|by split_and!]. }
  destruct (per_device_tree s) as [|d ds] eqn:Hds; [done|]. assert (per_device_tree s !! 0%nat = Some d) as Hp by (by rewrite Hds).
  wp_seq. eapply clean_per_device_spec; [by apply at_dev_inv|]. cbv zeta. wp_seq. wp_pure.
  pose proof (keep_dev_inv s 0 d (λ _, true) (λ _, true) Hi Hn Hp) as Hi1.
  set (s1 := change 0 _ s) in *. assert (per_device_tree s1 = keep_dev (λ _, true) (λ _, true) d :: ds) as Hs1.
  { unfold s1, change. rewrite Hp. simpl. by rewrite Hds. }
  assert (dev_size (keep_dev (λ _, true) (λ _, true) d) = 0%nat) as Hz.
  { assert (∀ {A} (l : list A), kept (λ _, true) l = []) as Hk by (intros A l; induction l; [done|by apply IHl]).
    unfold dev_size. simpl. by rewrite !Hk. }
  assert (gk_inv (set_devices tail s1) ∧ mgr_same s (set_devices tail s1)) as [Hi2 Hm2].
  { destruct Hi1 as [A B C D E]. pose proof (mgr_same_change 0 (keep_dev (λ _, true) (λ _, true)) s) as (M1 & M2 & M3 & M4).
    fold s1 in M1, M2, M3, M4. rewrite Hs1 in A, B. apply Forall_cons in B as [_ B]. apply StronglySorted_inv in A as [A _].
    assert (slack (set_devices tail s1) = slack s1) as Hsl.
    { unfold slack. simpl. rewrite Hs1, devs_size_cons, Hz. simpl. lia. }
    split; [|unfold mgr_same; rewrite Hsl; by split_and!].
    split; simpl; rewrite ?Hs1; try done; [by rewrite Hsl|]. intros E'. rewrite M1 in E'. congruence. }
  wp_use IH; [done|by rewrite (proj1 Hm2)|simpl; rewrite Hs1; simpl; by injection Hlen|].
  intros _ s' [Hd Hm]. split; [done|]. by eapply mgr_same_trans.
Qed.
Lemma cleanup_spec s : gk_inv s → initialized s = true →
  gk_cache_cleanup s = Some (tt, Gk true 0 [] (GK_MAX_CACHE_ENTRIES s) (now s)).
Proof.
  intros Hi Hn. assert (wp gk_cache_cleanup (λ _ s', s' = Gk true 0 [] (GK_MAX_CACHE_ENTRIES s) (now s)) s) as Hw.
  { unfold gk_cache_cleanup. wp_seq. wp_pure. rewrite Hn. cbn [negb]. wp_seq. unfold gk_free_cache_tree. wp_seq. wp_pure.
    wp_use free_devices_spec; [done..|]. intros _ s' (Hd & H1 & H2 & H3 & _). wp_pure. unfold set_count. rewrite Hd, H1, H2, H3, Hn. done. }
  apply wp_some in Hw as ([] & s' & -> & ->). done.
Qed.
