(* ===== verification/GkFlush.v ===== *)
(** Flushing the gatekeeper cache by policy
    (src/lib/gatekeeper_cache/src/gatekeeper_cache_cmp.c and
    gatekeeper_cache_flush.c).

    The rules are those of the flow service manager (FsmPolicy.v) with the fields for
    applications, which only flushing reads. *)
From Stdlib Require Import Ascii.
From S2P Require Import Prelude DsTree KeySeq FcmFilter FsmPolicy CommonText GkCache.
Local Open Scope Z_scope.

(** *** Comparison functions (gatekeeper_cache_cmp.c) *)

(** [mac_cmp], [mac_cmp_true], [get_mac_cmp] *)
Definition mac_cmp (a b : list Z) : bool := memcmp a b =? 0.
Definition mac_cmp_true (_ _ : list Z) : bool := true.
Definition get_mac_cmp (op : mac_ops) : list Z → list Z → bool := match op with MAC_OP_IN | MAC_OP_OUT => mac_cmp end.

(** [risk_cmp_eq] and the others, [get_risk_cmp] *)
Definition risk_cmp_eq (a b : Z) : bool := a =? b.
Definition risk_cmp_neq (a b : Z) : bool := negb (a =? b).
Definition risk_cmp_lt (a b : Z) : bool := a <? b.
Definition risk_cmp_gt (a b : Z) : bool := b <? a.
Definition risk_cmp_lte (a b : Z) : bool := a <=? b.
Definition risk_cmp_gte (a b : Z) : bool := b <=? a.
Definition risk_cmp_true (_ _ : Z) : bool := true.
(** The values of the enumerators. *)
Definition risk_num (op : risk_ops) : Z :=
  match op with
  | RISK_OP_EQ => 0 | RISK_OP_NEQ => 1 | RISK_OP_GT => 2 | RISK_OP_LT => 3 | RISK_OP_GTE => 4 | RISK_OP_LTE => 5
  | RISK_OP_TRUE => 6
  end.
Definition FQDN_OP_TRUE_num : Z := 8.
Definition get_risk_cmp (op : Z) : Z → Z → bool :=
  if op =? 0 then risk_cmp_eq else if op =? 1 then risk_cmp_neq else if op =? 3 then risk_cmp_lt
  else if op =? 2 then risk_cmp_gt else if op =? 5 then risk_cmp_lte else if op =? 4 then risk_cmp_gte
  else risk_cmp_true.

(** [cat_cmp_eval], [cat_cmp_in], [cat_cmp_out], [cat_cmp_true], [get_cat_cmp] *)
Definition cat_cmp_eval (c : Z) (s : int_set) : GK bool := l ← deref s; mret (bool_decide (c ∈ l)).
Definition cat_cmp_in (c : Z) (s : int_set) : GK bool := cat_cmp_eval c s.
Definition cat_cmp_out (c : Z) (s : int_set) : GK bool := b ← cat_cmp_eval c s; mret (negb b).
Definition cat_cmp_true (_ : Z) (_ : int_set) : GK bool := mret true.
Definition get_cat_cmp (op : cat_ops) : Z → int_set → GK bool :=
  match op with CAT_OP_IN => cat_cmp_in | CAT_OP_OUT => cat_cmp_out | CAT_OP_TRUE => cat_cmp_true end.

(** [strncmp(a, b, strlen(a)) == 0] *)
Definition starts (a b : string) : bool := String.prefix a b.

(** *** Rules *)

Inductive app_ops := APP_OP_OUT | APP_OP_IN | APP_OP_TRUE.
#[export] Instance app_ops_eq_dec : EqDecision app_ops.
Proof. solve_decision. Defined.
(** [struct fsm_policy_rules] *)
Record flush_rules := FlushRules {
  base : fsm_policy_rules; app_rule_present : bool; app_op : app_ops; apps : str_set }.

(** [str2os_mac_ref] (src/lib/network_metadata/src/network_metadata_utils.c) *)
Definition hex_value (c : ascii) : Z :=
  let n := Z.of_nat (nat_of_ascii c) in
  if (48 <=? n) && (n <=? 57) then n - 48 else Z.of_nat (nat_of_ascii (toupper c)) - 65 + 10.
Fixpoint mac_bytes (s : string) : option (list Z) :=
  match s with
  | String a (String b rest) =>
      if isxdigit a && isxdigit b then
        let v := wrapu 8 (Z.shiftl (hex_value a) 4 + hex_value b) in
        match rest with
        | EmptyString => Some [v]
        | String c rest => if bool_decide (c = ":"%char) then cons v <$> mac_bytes rest else None
        end
      else None
  | _ => None
  end.
Definition str2os_mac_ref (strmac : option string) : option (list Z) :=
  match strmac with
  | None => None
  | Some s => if negb (String.length s =? 17)%nat then None else mac_bytes s
  end.

Section flush.
(** [fnmatch(pattern, string, 0) == 0], [inet_pton(AF_INET, ...)] and
    [inet_pton(AF_INET6, ...)] *)
Variable fnmatch : string → string → bool.
Variable inet_pton4 : string → bool.
Variable inet_pton6 : string → bool.

(** [hostname_cmp], [hostname_cmp_sfr], [hostname_cmp_sfl], [hostname_cmp_wild],
    [hostname_cmp_true], [get_hostname_cmp] *)
Definition hostname_cmp (a b : string) : GK bool := mret (starts a b).
Definition hostname_cmp_sfr (hostname suffix : string) : GK bool := mret (str_endswith hostname suffix).
Definition hostname_cmp_sfl (hostname pre : string) : GK bool := mret (str_startswith hostname pre).
Definition hostname_cmp_wild (hostname wildcard : string) : GK bool := fsm_policy_wildmatch fnmatch wildcard hostname.
Definition hostname_cmp_true (_ _ : string) : GK bool := mret true.
Definition get_hostname_cmp (op : fqdn_ops) : string → string → GK bool :=
  match op with
  | FQDN_OP_IN | FQDN_OP_OUT => hostname_cmp
  | FQDN_OP_SFR_IN | FQDN_OP_SFR_OUT => hostname_cmp_sfr
  | FQDN_OP_SFL_IN | FQDN_OP_SFL_OUT => hostname_cmp_sfl
  | FQDN_OP_WILD_IN | FQDN_OP_WILD_OUT => hostname_cmp_wild
  | FQDN_OP_TRUE => hostname_cmp_true
  end.
(** [app_cmp], [app_cmp_true], [get_app_cmp] *)
Definition app_cmp (a b : string) : GK bool := mret (starts a b).
Definition app_cmp_true (_ _ : string) : GK bool := mret true.
Definition get_app_cmp (op : app_ops) : string → string → GK bool :=
  match op with APP_OP_IN | APP_OP_OUT => app_cmp | APP_OP_TRUE => app_cmp_true end.
(** [ip_cmp], [ip_cmp_true], [get_ip_cmp] *)
Definition ip_cmp (a b : string) : GK bool := mret (starts a b).
Definition ip_cmp_true (_ _ : string) : GK bool := mret true.
Definition get_ip_cmp (op : ip_ops) : string → string → GK bool :=
  match op with IP_OP_IN | IP_OP_OUT => ip_cmp | IP_OP_TRUE => ip_cmp_true end.

(** *** One tree (gatekeeper_cache_flush.c) *)

(** The scan of the names of a rule, up to the first that matches. *)
Fixpoint any_matches (cmp : string → string → GK bool) (name : string) (set : list (option string)) : GK bool :=
  match set with
  | [] => mret false
  | e :: set =>
      e ← deref e;
      b ← cmp name e;
      if (b : bool) then mret true else any_matches cmp name set
  end.
(** The body of the loop over a tree: the checks of risk and category, the scan of the
    names and the decision. *)
Definition need_delete (risk : Z → bool) (category : option (Z → GK bool)) (out_set : bool)
    (cmp : string → string → GK bool) (names : str_set) (name_of : attribute_type → option string) (e : attr_cache) : GK bool :=
  let level := wraps 32 (ac_confidence_level e) in
  if negb (risk level) then mret false else
  rc ← match category with Some c => c level | None => mret true end;
  if negb rc then mret false else
  name ← deref (name_of (attr e));
  set ← deref names;
  found ← any_matches cmp name set;
  mret (if (found : bool) then negb out_set else out_set).
(** The loop over a tree, with the number of entries deleted. *)
Definition flush_tree (t : tree_ptr) (free_type : gk_cache_request_type) (test : attr_cache → GK bool) : GK Z :=
  l ← tree_at t;
  kept ← remove_loop (λ e, b ← test e; if (b : bool) then deref (gkc_free_attr_entry e free_type);; mret true else mret false) l;
  upd_tree t (λ _, kept);;
  mret (Z.of_nat (length l - length kept)).

(** [attr.host_name->name], and [name] of the other members *)
Definition host_name_of (a : attribute_type) : option string := match a with host_name h => Some (h_name h) | _ => None end.
Definition generic_name_of (a : attribute_type) : option string := match a with generic g => Some (g_name g) | _ => None end.

(** The checks of risk and category that a policy asks for. *)
Definition risk_of (r : fsm_policy_rules) (none : Z) (level : Z) : bool :=
  get_risk_cmp (if risk_rule_present r then risk_num (risk_op r) else none) level (risk_level r).
Definition category_of (r : fsm_policy_rules) (level : Z) : GK bool :=
  get_cat_cmp (if cat_rule_present r then cat_op r else CAT_OP_TRUE) level (categories r).

(** [gkc_flush_hostname] *)
Definition fqdn_out (op : fqdn_ops) : bool :=
  match op with FQDN_OP_OUT | FQDN_OP_SFR_OUT | FQDN_OP_SFL_OUT | FQDN_OP_WILD_OUT => true | _ => false end.
Definition flush_hostname_test (r : fsm_policy_rules) : attr_cache → GK bool :=
  need_delete (risk_of r FQDN_OP_TRUE_num) (Some (category_of r)) (fqdn_out (fqdn_op r))
    (get_hostname_cmp (fqdn_op r)) (fqdns r) host_name_of.
Definition gkc_flush_hostname (p : nat) (rules : flush_rules) : GK Z :=
  flush_tree (p, F_hostname) GK_CACHE_REQ_TYPE_HOST (flush_hostname_test (base rules)).
(** [gkc_flush_app] *)
Definition flush_app_test (rules : flush_rules) : attr_cache → GK bool :=
  need_delete (risk_of (base rules) (risk_num RISK_OP_TRUE)) None (bool_decide (app_op rules = APP_OP_OUT))
    (get_app_cmp (app_op rules)) (apps rules) generic_name_of.
Definition gkc_flush_app (p : nat) (rules : flush_rules) : GK Z :=
  flush_tree (p, F_app) GK_CACHE_REQ_TYPE_APP (flush_app_test rules).
(** [gkc_flush_ipv4], [gkc_flush_ipv6], for the set [rules->ipaddrs] points to *)
Definition flush_ip_test (r : fsm_policy_rules) (ipaddrs : str_set) : attr_cache → GK bool :=
  need_delete (risk_of r (risk_num RISK_OP_TRUE)) (Some (category_of r)) (bool_decide (ip_op r = IP_OP_OUT))
    (get_ip_cmp (ip_op r)) ipaddrs generic_name_of.
Definition gkc_flush_ipv4 (p : nat) (rules : flush_rules) (ipaddrs : str_set) : GK Z :=
  flush_tree (p, F_ipv4) GK_CACHE_REQ_TYPE_IPV4 (flush_ip_test (base rules) ipaddrs).
Definition gkc_flush_ipv6 (p : nat) (rules : flush_rules) (ipaddrs : str_set) : GK Z :=
  flush_tree (p, F_ipv6) GK_CACHE_REQ_TYPE_IPV4 (flush_ip_test (base rules) ipaddrs).

(** [gkc_flush_ip]: the addresses are sorted into two sets first. *)
Fixpoint split_ips (set : list (option string)) : GK (list (option string) * list (option string)) :=
  match set with
  | [] => mret ([], [])
  | e :: set =>
      a ← deref e;
      '(v4, v6) ← split_ips set;
      mret (if inet_pton4 a then (Some a :: v4, v6) else if inet_pton6 a then (v4, Some a :: v6) else (v4, v6))
  end.
Definition gkc_flush_ip (p : nat) (rules : flush_rules) : GK Z :=
  orig ← deref (ipaddrs (base rules));
  '(ipv4_set, ipv6_set) ← split_ips orig;
  ret ← gkc_flush_ipv4 p rules (Some ipv4_set);
  if ret <? 0 then mret ret
  else
    ret' ← gkc_flush_ipv6 p rules (Some ipv6_set);
    if ret' <? 0 then mret ret' else mret (ret + ret').

(** *** Devices *)

(** [gkc_flush_per_device] *)
Definition flush_if (present : bool) (flush : GK Z) (total_count : Z) (k : Z → GK Z) : GK Z :=
  if present then ret ← flush; if ret <? 0 then mret ret else k (total_count + ret) else k total_count.
Definition gkc_flush_per_device (p : nat) (rules : flush_rules) : GK Z :=
  flush_if (fqdn_rule_present (base rules)) (gkc_flush_hostname p rules) 0 (λ n,
  flush_if (app_rule_present rules) (gkc_flush_app p rules) n (λ n,
  flush_if (ip_rule_present (base rules)) (gkc_flush_ip p rules) n (λ n, mret n))).

(** The scan of the addresses of a rule. *)
Fixpoint any_mac (cmp : list Z → list Z → bool) (mac : list Z) (set : list (option string)) : bool :=
  match set with
  | [] => false
  | e :: set =>
      match str2os_mac_ref e with
      | Some m => if cmp mac m then true else any_mac cmp mac set
      | None => any_mac cmp mac set
      end
  end.
(** The loop of [gkc_flush_rules]: [n] devices are left, the next one is at [p]. *)
Fixpoint flush_devices (rules : flush_rules) (n p : nat) (total_count : Z) : GK Z :=
  match n with
  | O => mret total_count
  | S n =>
      let r := base rules in
      let flush := ret ← gkc_flush_per_device p rules;
                   if ret <? 0 then mret ret else flush_devices rules n (S p) (total_count + ret) in
      if negb (mac_rule_present r) then flush
      else
        d ← device_at p;
        set ← deref (macs r);
        let out_set := bool_decide (mac_op r = MAC_OP_OUT) in
        let need := if any_mac (get_mac_cmp (mac_op r)) (device_mac d) set then negb out_set else out_set in
        if negb need then flush_devices rules n (S p) total_count
        else if negb (fqdn_rule_present r || ip_rule_present r || app_rule_present rules) then
          ret ← gk_clean_per_device_entry p;
          modify (set_devices (delete p));;
          flush_devices rules n p (total_count + ret)
        else flush
  end.
(** [gkc_flush_rules], for rules that are not NULL *)
Definition gkc_flush_rules (rules : flush_rules) : GK Z :=
  init ← gets initialized;
  if negb init then mret (-1)
  else ds ← gets per_device_tree; flush_devices rules (length ds) 0 0.
(** [gkc_flush_all] *)
Definition gkc_flush_all : GK Z :=
  num_entries ← gk_get_cache_count;
  gk_cache_cleanup;;
  mret (wraps 32 num_entries).
(** [gkc_flush_client]: the action and the rules of the policy. *)
Definition gkc_flush_client (policy : option (fsm_action * flush_rules)) : GK Z :=
  match policy with
  | None => mret (-1)
  | Some (FSM_FLUSH_CACHE, rules) => gkc_flush_rules rules
  | Some (FSM_FLUSH_ALL_CACHE, _) => gkc_flush_all
  | Some _ => mret (-1)
  end.
End flush.
