(* ===== verification/GkFlushThms.v ===== *)
(** Flushing the gatekeeper cache: which entries a policy flushes, that the code flushes
    these, and the operations on devices and on the whole cache. *)
From Stdlib Require Import Sorting.Sorted Ascii.
From S2P Require Import Prelude DsTree DsTreeInv KeySeq FcmFilter FcmFilterEval FsmPolicy FsmPolicyRun CommonText.
From S2P Require Import GkCache GkCacheInv.
From S2P Require Import GkCacheOps GkCacheAdd GkCacheFlow GkFlush.
Local Open Scope Z_scope.

Section spec.
Context (fnmatch : string → string → bool) (inet_pton4 inet_pton6 : string → bool).

(** *** The decision *)

(** Whether a name is in the set of a rule. *)
Definition in_names (cmp : string → string → bool) (name : string) (set : list (option string)) : bool :=
  existsb (λ e, match e with Some b => cmp name b | None => false end) set.
Definition decide_set (found out : bool) : bool := if found then negb out else out.

Definition hostname_match (op : fqdn_ops) (a b : string) : bool :=
  match op with
  | FQDN_OP_IN | FQDN_OP_OUT => starts a b
  | FQDN_OP_SFR_IN | FQDN_OP_SFR_OUT => str_endswith a b
  | FQDN_OP_SFL_IN | FQDN_OP_SFL_OUT => str_startswith a b
  | _ => true
  end.
Definition prefix_match (any : bool) (a b : string) : bool := any || starts a b.

Definition risk_hit (r : fsm_policy_rules) (level : Z) : bool :=
  if risk_rule_present r then get_risk_cmp (risk_num (risk_op r)) level (risk_level r) else true.
Definition cat_hit (r : fsm_policy_rules) (level : Z) : bool :=
  if cat_rule_present r then
    match cat_op r with
    | CAT_OP_IN => bool_decide (level ∈ default [] (categories r))
    | CAT_OP_OUT => bool_decide (level ∉ default [] (categories r))
    | CAT_OP_TRUE => true
    end
  else true.

(** The addresses of a set of each family. *)
Definition is_v4 (e : option string) : bool := match e with Some a => inet_pton4 a | None => false end.
Definition is_v6 (e : option string) : bool := match e with Some a => negb (inet_pton4 a) && inet_pton6 a | None => false end.
(** The decision of the code on an entry of a tree (what it means for plain rules is
    [rule_hits] below): the confidence level passes the checks of risk and of category,
    and the name is, or is not, the start of an entry of the set. *)
Definition flush_hit (rules : flush_rules) (f : attr_field) (e : attr_cache) : bool :=
  let r := base rules in
  let level := wraps 32 (ac_confidence_level e) in
  let name := attr_name (attr e) in
  let ip set := ip_rule_present r && risk_hit r level && cat_hit r level &&
    decide_set (in_names (prefix_match (bool_decide (ip_op r = IP_OP_TRUE))) name set) (bool_decide (ip_op r = IP_OP_OUT)) in
  match f with
  | F_hostname => fqdn_rule_present r && risk_hit r level && cat_hit r level &&
      decide_set (in_names (hostname_match (fqdn_op r)) name (default [] (fqdns r))) (fqdn_out (fqdn_op r))
  | F_app => app_rule_present rules && risk_hit r level &&
      decide_set (in_names (prefix_match (bool_decide (app_op rules = APP_OP_TRUE))) name (default [] (apps rules)))
        (bool_decide (app_op rules = APP_OP_OUT))
  | F_ipv4 => ip (List.filter is_v4 (default [] (ipaddrs r)))
  | F_ipv6 => ip (List.filter is_v6 (default [] (ipaddrs r)))
  | F_url => false
  end.

(** Rules whose sets are there, and that do not use the wildcard operations (those
    fault, see [FsmPolicyProps.fsm_wildcard_faults]). *)
Definition names_wf (set : str_set) : Prop := ∃ l, set = Some l ∧ Forall is_Some l.
Record rules_wf (rules : flush_rules) : Prop := {
  wf_fqdn : fqdn_rule_present (base rules) = true → names_wf (fqdns (base rules)) ∧
    fqdn_op (base rules) ≠ FQDN_OP_WILD_IN ∧ fqdn_op (base rules) ≠ FQDN_OP_WILD_OUT;
  wf_cat : cat_rule_present (base rules) = true → is_Some (categories (base rules));
  wf_ip : ip_rule_present (base rules) = true → names_wf (ipaddrs (base rules));
  wf_app : app_rule_present rules = true → names_wf (apps rules);
  wf_mac : mac_rule_present (base rules) = true → is_Some (macs (base rules)) }.

(** *** The tests are these decisions *)

(** A computation without effect. *)
Definition pure {A} (m : GK A) (a : A) : Prop := ∀ s, m s = Some (a, s).
Lemma pure_bind {A B} (m : GK A) (f : A → GK B) a b : pure m a → pure (f a) b → pure (m ≫= f) b.
Proof. intros Hm Hf s. unfold mbind, M_bind. rewrite Hm. apply Hf. Qed.
Lemma pure_ret {A} (a : A) : pure (mret a) a.
Proof. done. Qed.
Lemma wp_pure_of {A} (m : GK A) a Q s : pure m a → Q a s → wp m Q s.
Proof. intros Hm HQ. unfold wp. by rewrite Hm. Qed.

Lemma any_matches_pure cmp cmp' name l : (∀ a b, pure (cmp a b) (cmp' a b)) → Forall is_Some l →
  pure (any_matches cmp name l) (in_names cmp' name l).
Proof.
  intros Hc Hl. induction Hl as [|e l [b ->] Hl IH]; simpl; [apply pure_ret|].
  apply (pure_bind _ _ b); [done|]. eapply pure_bind; [apply Hc|]. by destruct (cmp' name b).
Qed.
Lemma need_delete_pure risk category cat out cmp cmp' set l name_of e name :
  (∀ x, match category with Some c => pure (c x) (cat x) | None => cat x = true end) → (∀ a b, pure (cmp a b) (cmp' a b)) →
  set = Some l → Forall is_Some l → name_of (attr e) = Some name →
  pure (need_delete risk category out cmp set name_of e)
    (let level := wraps 32 (ac_confidence_level e) in risk level && cat level && decide_set (in_names cmp' name l) out).
Proof.
  intros Hcat Hcmp -> Hl Hn. unfold need_delete. cbv zeta. set (level := wraps 32 _).
  destruct (risk level); cbn [negb andb]; [|apply pure_ret].
  apply (pure_bind _ _ (cat level)).
  { specialize (Hcat level). destruct category; [done|]. rewrite Hcat. apply pure_ret. }
  destruct (cat level); cbn [negb andb]; [|apply pure_ret]. rewrite Hn. apply (pure_bind _ _ name); [done|].
  apply (pure_bind _ _ l); [done|]. eapply pure_bind; [by apply any_matches_pure|]. apply pure_ret.
Qed.

Lemma category_pure r x : (cat_rule_present r = true → is_Some (categories r)) → pure (category_of r x) (cat_hit r x).
Proof.
  intros Hwf. unfold category_of, cat_hit. destruct (cat_rule_present r); [|apply pure_ret].
  destruct (Hwf eq_refl) as [l ->]. destruct (cat_op r); simpl; [| |apply pure_ret].
  - unfold cat_cmp_out. eapply pure_bind; [eapply (pure_bind _ _ l); [done|apply pure_ret]|]. simpl. rewrite bool_decide_not. apply pure_ret.
  - unfold cat_cmp_in, cat_cmp_eval. apply (pure_bind _ _ l); [done|apply pure_ret].
Qed.
Lemma risk_of_hit r none level : (none = FQDN_OP_TRUE_num ∨ none = risk_num RISK_OP_TRUE) → risk_of r none level = risk_hit r level.
Proof. unfold risk_of, risk_hit. destruct (risk_rule_present r); [done|]. by intros [->| ->]. Qed.

Lemma host_typed e : typed F_hostname (attr e) → host_name_of (attr e) = Some (attr_name (attr e)).
Proof. by destruct (attr e). Qed.
Lemma generic_typed f e : f ≠ F_hostname → typed f (attr e) → generic_name_of (attr e) = Some (attr_name (attr e)).
Proof. by destruct f, (attr e). Qed.

Lemma hostname_test_pure rules e : rules_wf rules → fqdn_rule_present (base rules) = true → typed F_hostname (attr e) →
  pure (flush_hostname_test fnmatch (base rules) e) (flush_hit rules F_hostname e).
Proof.
  intros Hwf Hp Ht. destruct (wf_fqdn _ Hwf Hp) as [(l & Hs & Hl) [Hw1 Hw2]].
  unfold flush_hit. rewrite Hp. cbn [andb]. rewrite <- (risk_of_hit _ FQDN_OP_TRUE_num) by auto.
  rewrite Hs. apply (need_delete_pure (risk_of (base rules) FQDN_OP_TRUE_num) _ (cat_hit (base rules)));
    [|  |done|done|by apply host_typed].
  - intros x. apply category_pure. apply Hwf.
  - intros a b. by destruct (fqdn_op (base rules)).
Qed.
Lemma app_test_pure rules e : rules_wf rules → app_rule_present rules = true → typed F_app (attr e) →
  pure (flush_app_test rules e) (flush_hit rules F_app e).
Proof.
  intros Hwf Hp Ht. destruct (wf_app _ Hwf Hp) as (l & Hs & Hl).
  unfold flush_hit. rewrite Hp. cbn [andb]. rewrite <- (risk_of_hit _ (risk_num RISK_OP_TRUE)) by auto.
  rewrite Hs, <- (andb_true_r (risk_of _ _ _)).
  apply (need_delete_pure (risk_of (base rules) (risk_num RISK_OP_TRUE)) None (λ _, true)); [done| |done|done|by apply (generic_typed F_app)].
  intros a b. by destruct (app_op rules).
Qed.
Lemma ip_test_pure rules f e set : rules_wf rules → ip_rule_present (base rules) = true → Forall is_Some set →
  f = F_ipv4 ∨ f = F_ipv6 → typed f (attr e) →
  pure (flush_ip_test (base rules) (Some set) e)
    (let level := wraps 32 (ac_confidence_level e) in risk_hit (base rules) level && cat_hit (base rules) level &&
     decide_set (in_names (prefix_match (bool_decide (ip_op (base rules) = IP_OP_TRUE))) (attr_name (attr e)) set)
       (bool_decide (ip_op (base rules) = IP_OP_OUT))).
Proof.
  intros Hwf Hp Hl Hf Ht. cbv zeta. rewrite <- (risk_of_hit _ (risk_num RISK_OP_TRUE)) by auto.
  apply (need_delete_pure (risk_of (base rules) (risk_num RISK_OP_TRUE)) _ (cat_hit (base rules)));
    [| |done|done|apply (generic_typed f); [destruct Hf; congruence|done]].
  - intros x. apply category_pure. apply Hwf.
  - intros a b. by destruct (ip_op (base rules)).
Qed.
Lemma split_ips_pure l : Forall is_Some l → pure (split_ips inet_pton4 inet_pton6 l) (List.filter is_v4 l, List.filter is_v6 l).
Proof.
  induction 1 as [|e l [a ->] Hl IH]; simpl; [apply pure_ret|]. apply (pure_bind _ _ a); [done|].
  eapply pure_bind; [exact IH|]. intros s. simpl. by destruct (inet_pton4 a), (inet_pton6 a).
Qed.
Lemma filter_is_Some (P : option string → bool) l : Forall is_Some l → Forall is_Some (List.filter P l).
Proof. induction 1; simpl; [done|]. destruct (P x); [by constructor|done]. Qed.

(** *** One device *)

Lemma remove_loop_pure {A} (P : A → bool) (gone : A → GK bool) l : (∀ e, e ∈ l → pure (gone e) (P e)) →
  pure (remove_loop gone l) (kept P l).
Proof.
  intros Hg. induction l as [|e l IH]; [apply pure_ret|]. cbn [remove_loop]. eapply pure_bind; [apply Hg; set_solver|].
  eapply pure_bind; [apply IH; set_solver|]. unfold kept. destruct (P e) eqn:HP.
  - rewrite filter_cons_False by congruence. apply pure_ret.
  - rewrite filter_cons_True by congruence. apply pure_ret.
Qed.
(** The state with one device changed and the counter as it was. *)
Definition edit (p : nat) (g : per_device_cache → per_device_cache) (s : gk_state) : gk_state := set_devices (alter g p) s.
Lemma edit_lookup p g s d : per_device_tree s !! p = Some d → per_device_tree (edit p g s) !! p = Some (g d).
Proof. intros Hp. unfold edit. simpl. by rewrite list_lookup_alter_eq, Hp. Qed.
Lemma edit_edit p g1 g2 s : edit p g2 (edit p g1 s) = edit p (g2 ∘ g1) s.
Proof. unfold edit, set_devices. simpl. f_equal. apply list_alter_alter. Qed.
Lemma edit_ext p g1 g2 s d : per_device_tree s !! p = Some d → g1 d = g2 d → edit p g1 s = edit p g2 s.
Proof. intros Hp Hg. unfold edit, set_devices. f_equal. apply list_alter_ext; [|done]. intros d' Hd'. congruence. Qed.

Lemma flush_tree_spec s p d f t test P Q :
  per_device_tree s !! p = Some d → dev_ok d → (∀ e, typed f (attr e) → gkc_free_attr_entry e t = Some tt) →
  (∀ e, typed f (attr e) → pure (test e) (P e)) →
  Q (Z.of_nat (dev_size d) - Z.of_nat (dev_size (keep_attrs P f d))) (edit p (keep_attrs P f) s) →
  wp (flush_tree (p, f) t test) Q s.
Proof.
  intros Hp Hok Hfree Htest HQ. unfold flush_tree. wp_seq. eapply wp_tree_at; [done|]. wp_seq.
  eapply wp_pure_of; [apply (remove_loop_pure P)|].
  { intros e He. assert (typed f (attr e)) as Ht.
    { eapply ok_typed, Forall_forall; [apply (dev_attr_ok _ Hok f)|done]. }
    eapply pure_bind; [by apply Htest|]. destruct (P e); [|apply pure_ret].
    rewrite Hfree by done. apply (pure_bind _ _ tt); [done|apply pure_ret]. }
  wp_seq. unfold upd_tree, upd_device. simpl. wp_pure. wp_pure.
  pose proof (length_filter (λ e, P e = false) (attr_tree f d)) as Hlen. pose proof (keep_attrs_size P f d) as Hsz.
  unfold kept in *. replace (Z.of_nat (_ - _)) with (Z.of_nat (dev_size d) - Z.of_nat (dev_size (keep_attrs P f d))) by lia.
  rewrite (edit_ext p _ (upd_attr_tree f (λ _, filter (λ e, P e = false) (attr_tree f d))) s d) in HQ; [exact HQ|done|].
  by destruct f.
Qed.

Lemma kept_none {A} (P : A → bool) l : (∀ e, P e = false) → kept P l = l.
Proof. intros HP. unfold kept. induction l as [|e l IH]; [done|]. rewrite filter_cons_True by done. by rewrite IH. Qed.
Lemma keep_attrs_id P f d : (∀ e, P e = false) → keep_attrs P f d = d.
Proof. intros HP. destruct d, f; unfold keep_attrs, upd_attr_tree, with_attr_trees; simpl; by rewrite kept_none. Qed.

(** What the rules leave of a device. *)
Definition flush_dev (rules : flush_rules) (d : per_device_cache) : per_device_cache :=
  with_attr_trees d (λ f, kept (flush_hit rules f) (attr_tree f d)).
Lemma flush_dev_steps rules d : flush_dev rules d =
  keep_attrs (flush_hit rules F_ipv6) F_ipv6 (keep_attrs (flush_hit rules F_ipv4) F_ipv4
    (keep_attrs (flush_hit rules F_app) F_app (keep_attrs (flush_hit rules F_hostname) F_hostname d))).
Proof.
  destruct d. unfold flush_dev, keep_attrs, upd_attr_tree, with_attr_trees. simpl.
  by rewrite (kept_none (flush_hit rules F_url)).
Qed.
Lemma flush_dev_ok rules d : dev_ok d → dev_ok (flush_dev rules d).
Proof. intros. rewrite flush_dev_steps. by repeat apply keep_attrs_ok. Qed.
Lemma keep_attrs_le P f d : (dev_size (keep_attrs P f d) ≤ dev_size d)%nat.
Proof.
  pose proof (keep_attrs_size P f d). pose proof (length_filter (λ e, P e = false) (attr_tree f d)). unfold kept in *. lia.
Qed.
Lemma flush_dev_size rules d : (dev_size (flush_dev rules d) ≤ dev_size d)%nat.
Proof. rewrite flush_dev_steps. by rewrite !keep_attrs_le. Qed.

(** One part of [gkc_flush_per_device]. *)
Lemma flush_if_spec s p d present flush tot k g Q :
  per_device_tree s !! p = Some d → dev_ok d →
  (dev_size (g d) ≤ dev_size d)%nat →
  (present = false → g d = d) →
  (present = true → wp flush (λ n s', n = Z.of_nat (dev_size d) - Z.of_nat (dev_size (g d)) ∧ s' = edit p g s) s) →
  wp (k (tot + (Z.of_nat (dev_size d) - Z.of_nat (dev_size (g d))))) Q (edit p g s) →
  wp (flush_if present flush tot k) Q s.
Proof.
  intros Hp Hok Hle Hno Hyes Hk. unfold flush_if. destruct present.
  - wp_seq. wp_use Hyes; [done|]. intros n s' [-> ->]. destruct (Z.ltb_spec (Z.of_nat (dev_size d) - Z.of_nat (dev_size (g d))) 0); [lia|done].
  - rewrite Hno, Z.sub_diag, Z.add_0_r in Hk by done. rewrite (edit_ext p g id s d) in Hk; [|done|by rewrite Hno].
    unfold edit, set_devices in Hk. rewrite list_alter_id in Hk by done. by destruct s.
Qed.
End spec.

(** ** Flushing the gatekeeper cache: the operations on devices and on the whole cache. *)

Section flush.
Context (fnmatch : string → string → bool) (inet_pton4 inet_pton6 : string → bool).
Context (rules : flush_rules) (Hwf : rules_wf rules).
Abbreviation hit := (flush_hit inet_pton4 inet_pton6 rules).
Abbreviation fdev := (flush_dev inet_pton4 inet_pton6 rules).

Lemma flush_hostname_spec s p d : per_device_tree s !! p = Some d → dev_ok d → fqdn_rule_present (base rules) = true →
  wp (gkc_flush_hostname fnmatch p rules) (λ n s',
    n = Z.of_nat (dev_size d) - Z.of_nat (dev_size (keep_attrs (hit F_hostname) F_hostname d)) ∧
    s' = edit p (keep_attrs (hit F_hostname) F_hostname) s) s.
Proof using Hwf.
  intros Hp Hok Hr. eapply (flush_tree_spec _ _ _ _ _ _ (hit F_hostname)); [done..| | |done].
  - intros e Ht. unfold gkc_free_attr_entry. by destruct (attr e).
  - intros e Ht. by apply hostname_test_pure.
Qed.
Lemma flush_app_spec s p d : per_device_tree s !! p = Some d → dev_ok d → app_rule_present rules = true →
  wp (gkc_flush_app p rules) (λ n s',
    n = Z.of_nat (dev_size d) - Z.of_nat (dev_size (keep_attrs (hit F_app) F_app d)) ∧
    s' = edit p (keep_attrs (hit F_app) F_app) s) s.
Proof using Hwf.
  intros Hp Hok Hr. eapply (flush_tree_spec _ _ _ _ _ _ (hit F_app)); [done..| | |done].
  - intros e Ht. unfold gkc_free_attr_entry. by destruct (attr e).
  - intros e Ht. by apply app_test_pure.
Qed.
Definition keep_ips : per_device_cache → per_device_cache := keep_attrs (hit F_ipv6) F_ipv6 ∘ keep_attrs (hit F_ipv4) F_ipv4.
Lemma flush_ip_spec s p d : per_device_tree s !! p = Some d → dev_ok d → ip_rule_present (base rules) = true →
  wp (gkc_flush_ip inet_pton4 inet_pton6 p rules) (λ n s',
    n = Z.of_nat (dev_size d) - Z.of_nat (dev_size (keep_ips d)) ∧ s' = edit p keep_ips s) s.
Proof using Hwf.
  intros Hp Hok Hr. destruct (wf_ip _ Hwf Hr) as (l & Hs & Hl). unfold gkc_flush_ip. rewrite Hs.
  wp_seq. eapply wp_deref; [done|]. wp_seq. eapply wp_pure_of; [by apply split_ips_pure|].
  assert (∀ f set, f = F_ipv4 ∨ f = F_ipv6 → set = List.filter (if decide (f = F_ipv4) then is_v4 inet_pton4 else is_v6 inet_pton4 inet_pton6) l →
    ∀ e, typed f (attr e) → pure (flush_ip_test (base rules) (Some set) e) (hit f e)) as Htest.
  { intros f set Hf -> e Ht. unfold hit, flush_hit. rewrite Hr, Hs. cbn [andb].
    destruct Hf as [->| ->]; (eapply ip_test_pure; [done|done|by apply filter_is_Some| |exact Ht]; auto). }
  wp_seq. eapply (flush_tree_spec _ _ _ _ _ _ (hit F_ipv4)); [done|done| |apply Htest; auto|].
  { intros e Ht. unfold gkc_free_attr_entry. by destruct (attr e). }
  pose proof (keep_attrs_le (hit F_ipv4) F_ipv4 d). destruct (Z.ltb_spec (Z.of_nat (dev_size d) - Z.of_nat (dev_size (keep_attrs (hit F_ipv4) F_ipv4 d))) 0); [lia|].
  wp_seq. eapply (flush_tree_spec _ _ _ _ _ _ (hit F_ipv6)); [by apply edit_lookup|by apply keep_attrs_ok| |apply Htest; auto|].
  { intros e Ht. unfold gkc_free_attr_entry. by destruct (attr e). }
  set (d4 := keep_attrs (hit F_ipv4) F_ipv4 d) in *. pose proof (keep_attrs_le (hit F_ipv6) F_ipv6 d4).
  destruct (Z.ltb_spec (Z.of_nat (dev_size d4) - Z.of_nat (dev_size (keep_attrs (hit F_ipv6) F_ipv6 d4))) 0); [lia|].
  wp_pure. rewrite edit_edit. split; [|done]. unfold keep_ips. simpl. fold d4. lia.
Qed.

(** [gkc_flush_per_device] removes exactly the entries the rules hit, and returns their
    number; the counter of the cache stays as it is. *)
Lemma flush_per_device_spec s p d : per_device_tree s !! p = Some d → dev_ok d →
  wp (gkc_flush_per_device fnmatch inet_pton4 inet_pton6 p rules) (λ n s',
    n = Z.of_nat (dev_size d) - Z.of_nat (dev_size (fdev d)) ∧ s' = edit p fdev s) s.
Proof using Hwf.
  intros Hp Hok. unfold gkc_flush_per_device.
  set (g1 := keep_attrs (hit F_hostname) F_hostname). set (g2 := keep_attrs (hit F_app) F_app).
  assert (dev_ok (g1 d)) as Hok1 by (by apply keep_attrs_ok). assert (dev_ok (g2 (g1 d))) as Hok2 by (by apply keep_attrs_ok).
  assert (per_device_tree (edit p g1 s) !! p = Some (g1 d)) as Hp1 by (by apply edit_lookup).
  assert (per_device_tree (edit p g2 (edit p g1 s)) !! p = Some (g2 (g1 d))) as Hp2 by (by apply edit_lookup).
  apply (flush_if_spec s p d _ _ _ _ g1); [done|done|apply keep_attrs_le| |by apply flush_hostname_spec|].
  { intros Hr. apply keep_attrs_id. intros e. unfold hit, flush_hit. by rewrite Hr. }
  apply (flush_if_spec _ p (g1 d) _ _ _ _ g2); [done|done|apply keep_attrs_le| |by apply flush_app_spec|].
  { intros Hr. apply keep_attrs_id. intros e. unfold hit, flush_hit. by rewrite Hr. }
  apply (flush_if_spec _ p (g2 (g1 d)) _ _ _ _ keep_ips); [done|done|by unfold keep_ips; simpl; rewrite !keep_attrs_le| |by apply flush_ip_spec|].
  { intros Hr. unfold keep_ips. simpl. rewrite !keep_attrs_id; [done|intros e; unfold hit, flush_hit; by rewrite Hr..]. }
  wp_pure. rewrite !edit_edit. rewrite (edit_ext p fdev (keep_ips ∘ (g2 ∘ g1)) s d); [|done|apply flush_dev_steps].
  split; [|done]. rewrite flush_dev_steps. unfold keep_ips. simpl. fold g1 g2. lia.
Qed.

(** *** Which devices *)

Definition selected (d : per_device_cache) : bool :=
  if mac_rule_present (base rules) then
    let out := bool_decide (mac_op (base rules) = MAC_OP_OUT) in
    if any_mac (get_mac_cmp (mac_op (base rules))) (device_mac d) (default [] (macs (base rules))) then negb out else out
  else true.
(** Whether the rules ask for more than devices. *)
Definition extra : bool := fqdn_rule_present (base rules) || ip_rule_present (base rules) || app_rule_present rules.
(** Whether whole devices are removed. *)
Definition whole : bool := mac_rule_present (base rules) && negb extra.
Definition flushed (ds : list per_device_cache) : list per_device_cache :=
  if whole then kept selected ds else (λ d, if selected d then fdev d else d) <$> ds.

(** The state part of the result: the invariant, and the counter. *)
Record flush_post (s s' : gk_state) : Prop := {
  fp_inv : gk_inv s'; fp_init : initialized s' = initialized s; fp_max : GK_MAX_CACHE_ENTRIES s' = GK_MAX_CACHE_ENTRIES s;
  fp_now : now s' = now s;
  fp_count : total_entry_count s' = if whole then total_entry_count s - (devs_size (per_device_tree s) - devs_size (per_device_tree s'))
                                    else total_entry_count s }.
Lemma edit_inv s p d g : gk_inv s → initialized s = true → per_device_tree s !! p = Some d → dev_ok (g d) → device_mac (g d) = device_mac d →
  (dev_size (g d) ≤ dev_size d)%nat → gk_inv (edit p g s).
Proof using Type.
  intros [Hs Hd Hsl Hm Hi] Hinit Hp Hok Hmac Hsz.
  assert (device_mac <$> alter g p (per_device_tree s) = device_mac <$> per_device_tree s) as Hk.
  { apply keys_alter. intros d' Hd'. by simplify_eq. }
  split; simpl; [by eapply ks_sorted_keys; [symmetry|]| | |done|congruence].
  - apply Forall_alter; [done|]. intros d' Hd' _. by simplify_eq.
  - unfold slack in *. simpl. rewrite (devs_size_alter _ _ _ d) by done. lia.
Qed.

Lemma devs_size_delete p ds d : ds !! p = Some d → devs_size (delete p ds) = devs_size ds - Z.of_nat (dev_size d).
Proof using Type.
  revert p. induction ds as [|d' ds IH]; intros [|p] Hp; simplify_eq/=; rewrite ?devs_size_cons; [lia|].
  change (list_delete p ds) with (delete p ds). rewrite IH by done. lia.
Qed.
Lemma delete_alter {A} (g : A → A) p (l : list A) : delete p (alter g p l) = delete p l.
Proof using Type. revert p. induction l as [|a l IH]; intros [|p]; simpl; try done. f_equal. apply IH. Qed.
(** The state after a device was emptied and removed. *)
Lemma drop_device s p d : gk_inv s → initialized s = true → per_device_tree s !! p = Some d →
  let s1 := set_devices (delete p) (change p (keep_dev (λ _, true) (λ _, true)) s) in
  gk_inv s1 ∧ initialized s1 = true ∧ GK_MAX_CACHE_ENTRIES s1 = GK_MAX_CACHE_ENTRIES s ∧ now s1 = now s ∧
  per_device_tree s1 = delete p (per_device_tree s) ∧ total_entry_count s1 = total_entry_count s - Z.of_nat (dev_size d).
Proof using Type.
  intros Hi Hn Hp s1. pose proof (keep_dev_inv s p d (λ _, true) (λ _, true) Hi Hn Hp) as [A B C D E].
  assert (dev_size (keep_dev (λ _, true) (λ _, true) d) = 0%nat) as Hz.
  { assert (∀ {A} (l : list A), kept (λ _, true) l = []) as Hk by (intros ? l; induction l; [done|by apply IHl]).
    unfold dev_size. simpl. by rewrite !Hk. }
  set (g := keep_dev (λ _, true) (λ _, true)) in *.
  assert (per_device_tree s1 = delete p (per_device_tree s)) as Hd.
  { unfold s1, change. rewrite Hp. simpl. apply delete_alter. }
  assert (total_entry_count s1 = total_entry_count s - Z.of_nat (dev_size d)) as Ht.
  { unfold s1, change. rewrite Hp. simpl. rewrite Hz. lia. }
  assert (initialized s1 = true) as Hn1 by (unfold s1; simpl; by rewrite change_init).
  assert (GK_MAX_CACHE_ENTRIES s1 = GK_MAX_CACHE_ENTRIES s) as Hm1 by (unfold s1; simpl; by rewrite change_max).
  split_and!; [|done|done|unfold s1; simpl; by rewrite change_now|done|done].
  split; rewrite ?Hd, ?Ht, ?Hm1, ?Hn1; [by apply ks_sorted_delete, Hi|by apply Forall_delete, Hi| | |done].
  - unfold slack. rewrite Hd, Ht, (devs_size_delete _ _ d) by done. pose proof (inv_slack _ Hi). unfold slack in *. lia.
  - pose proof (inv_max _ Hi). lia.
Qed.

Lemma flushed_cons d l : flushed (d :: l) =
  if selected d then (if whole then flushed l else fdev d :: flushed l) else d :: flushed l.
Proof using Type.
  unfold flushed, kept. destruct whole; [|simpl; by destruct (selected d)]. destruct (selected d) eqn:E.
  - by rewrite filter_cons_False by congruence.
  - by rewrite filter_cons_True by congruence.
Qed.
Lemma flush_post_refl s : gk_inv s → flush_post s s.
Proof using Type. intros. split; try done. destruct whole; lia. Qed.
Lemma flush_post_trans s1 s2 s3 : flush_post s1 s2 → flush_post s2 s3 → flush_post s1 s3.
Proof using Type. intros [? ? ? ? C1] [? ? ? ? C2]. split; [done|congruence..|]. destruct whole; lia. Qed.

(** What the loop does from the device at [p] on. *)
Definition loop_post (p : nat) (tot : Z) (s : gk_state) (r : Z) (s' : gk_state) : Prop :=
  flush_post s s' ∧ per_device_tree s' = take p (per_device_tree s) ++ flushed (drop p (per_device_tree s)) ∧
  r = tot + (devs_size (per_device_tree s) - devs_size (per_device_tree s')).
Lemma loop_skip p tot s d r s' : per_device_tree s !! p = Some d → selected d = false →
  loop_post (S p) tot s r s' → loop_post p tot s r s'.
Proof using Type.
  intros Hp Hsel (Hf & Hd & ->). split_and!; [done| |done].
  rewrite Hd, (take_S_r _ _ d), (drop_S _ d p), flushed_cons, Hsel by done. by rewrite <- app_assoc.
Qed.
Lemma loop_edit p tot s d r s' : gk_inv s → initialized s = true → per_device_tree s !! p = Some d → selected d = true → whole = false →
  loop_post (S p) (tot + (Z.of_nat (dev_size d) - Z.of_nat (dev_size (fdev d)))) (edit p fdev s) r s' → loop_post p tot s r s'.
Proof using Type.
  intros Hi Hn Hp Hsel Hwh (Hf & Hd & ->). assert (dev_ok d) as Hok by (eapply Forall_lookup_1; [apply Hi|done]).
  assert (gk_inv (edit p fdev s)) as Hi1.
  { eapply edit_inv; [done..|by apply flush_dev_ok|done|apply flush_dev_size]. }
  split_and!.
  - eapply flush_post_trans; [|done]. split; try done. by rewrite Hwh.
  - rewrite Hd. simpl. rewrite (take_S_r _ _ (fdev d)) by (by rewrite list_lookup_alter_eq, Hp).
    rewrite take_alter_ge, drop_alter_lt, (drop_S _ d p), flushed_cons, Hsel, Hwh by (done || lia). by rewrite <- app_assoc.
  - simpl. rewrite (devs_size_alter _ _ _ d) by done. lia.
Qed.
Lemma loop_drop p tot s d r s' : gk_inv s → initialized s = true → per_device_tree s !! p = Some d → selected d = true → whole = true →
  loop_post p (tot + Z.of_nat (dev_size d)) (set_devices (delete p) (change p (keep_dev (λ _, true) (λ _, true)) s)) r s' →
  loop_post p tot s r s'.
Proof using Type.
  intros Hi Hn Hp Hsel Hwh. destruct (drop_device s p d Hi Hn Hp) as (Hi1 & Hn1 & Hm1 & Hw1 & Hd1 & Ht1).
  set (s1 := set_devices (delete p) _) in *. intros (Hf & Hd & ->). pose proof (lookup_lt_Some _ _ _ Hp).
  assert (devs_size (per_device_tree s1) = devs_size (per_device_tree s) - Z.of_nat (dev_size d)) as Hsz
    by (rewrite Hd1; by apply devs_size_delete).
  split_and!; [| |lia].
  - eapply flush_post_trans; [|done]. split; try done; [congruence|]. rewrite Hwh. lia.
  - rewrite Hd, Hd1, (drop_S (per_device_tree s) d p), flushed_cons, Hsel, Hwh by done. rewrite delete_take_drop.
    rewrite take_app_le, take_take, Nat.min_id by (rewrite length_take; lia).
    rewrite drop_app_ge by (rewrite length_take; lia). rewrite length_take_le, Nat.sub_diag by lia. done.
Qed.

Lemma clean_count s p d : gk_inv s → per_device_tree s !! p = Some d → total_entry_count s < 2 ^ 31 →
  wraps 32 (wraps 32 (total_entry_count s) - (total_entry_count s - Z.of_nat (dev_size d))) = Z.of_nat (dev_size d).
Proof using Type.
  intros Hi Hp H31. pose proof (inv_slack _ Hi) as Hsl. pose proof (devs_size_in _ _ _ Hp) as Hin. unfold slack in Hsl.
  unfold wraps. rewrite (Z.mod_small (total_entry_count s + _)) by lia. rewrite Z.mod_small; lia.
Qed.

Lemma flush_devices_spec n : ∀ p tot s,
  gk_inv s → initialized s = true → (p + n = length (per_device_tree s))%nat → total_entry_count s < 2 ^ 31 →
  wp (flush_devices fnmatch inet_pton4 inet_pton6 rules n p tot) (loop_post p tot s) s.
Proof using Hwf.
  induction n as [|n IH]; intros p tot s Hi Hn Hlen H31; cbn [flush_devices].
  { wp_pure. unfold loop_post. rewrite drop_ge, take_ge by lia. unfold flushed, kept.
    split_and!; [by apply flush_post_refl| |lia]. destruct whole; by rewrite app_nil_r. }
  destruct (lookup_lt_is_Some_2 (per_device_tree s) p) as [d Hp]; [lia|].
  assert (dev_ok d) as Hok by (eapply Forall_lookup_1; [apply Hi|done]).
  assert (selected d = true → whole = false → wp (ret ← gkc_flush_per_device fnmatch inet_pton4 inet_pton6 p rules;
      if ret <? 0 then mret ret else flush_devices fnmatch inet_pton4 inet_pton6 rules n (S p) (tot + ret))
    (loop_post p tot s) s) as Hflush.
  { intros Hsel Hwh. wp_seq. wp_use flush_per_device_spec; [done..|]. intros r s1 [-> ->].
    pose proof (flush_dev_size inet_pton4 inet_pton6 rules d) as Hle.
    destruct (Z.ltb_spec (Z.of_nat (dev_size d) - Z.of_nat (dev_size (fdev d))) 0); [lia|].
    wp_use IH; [|done|simpl; rewrite length_alter; lia|done|intros r s'; by apply loop_edit].
    eapply edit_inv; [done..|by apply flush_dev_ok|done|done]. }
  destruct (mac_rule_present (base rules)) eqn:Hmac; cbn [negb].
  2: { apply Hflush; [unfold selected|unfold whole]; by rewrite Hmac. }
  wp_seq. eapply wp_device_at; [done|]. destruct (wf_mac _ Hwf Hmac) as [macs Hmacs]. wp_seq. rewrite Hmacs. eapply wp_deref; [done|].
  assert ((if any_mac (get_mac_cmp (mac_op (base rules))) (device_mac d) macs then negb (bool_decide (mac_op (base rules) = MAC_OP_OUT))
    else bool_decide (mac_op (base rules) = MAC_OP_OUT)) = selected d) as -> by (unfold selected; by rewrite Hmac, Hmacs).
  destruct (selected d) eqn:Hsel; cbn [negb].
  2: { wp_use IH; [done|done|lia|done|]. intros r s'. by apply (loop_skip _ _ _ d). }
  destruct (fqdn_rule_present (base rules) || ip_rule_present (base rules) || app_rule_present rules) eqn:Hex; cbn [negb].
  { apply Hflush; [done|]. unfold whole, extra. by rewrite Hex, andb_false_r. }
  assert (whole = true) as Hwh by (unfold whole, extra; by rewrite Hmac, Hex).
  wp_seq. eapply clean_per_device_spec; [by apply at_dev_inv|]. cbv zeta. wp_seq. wp_pure.
  destruct (drop_device s p d Hi Hn Hp) as (Hi1 & Hn1 & _ & _ & Hd1 & Ht1).
  assert (total_entry_count (change p (keep_dev (λ _, true) (λ _, true)) s) = total_entry_count s - Z.of_nat (dev_size d)) as -> by done.
  rewrite (clean_count s p d) by done. 
  wp_use IH; [done|done|rewrite Hd1, length_delete by eauto; lia|lia|]. intros r s'. by apply loop_drop.
Qed.
End flush.

(** ** What the rules say, and that the code decides it for plain rules *)

Section meaning.
Context (inet_pton4 inet_pton6 : string → bool).
Context (rules : flush_rules).

(** The rule that applies to the entries of a tree, and its set. *)
Definition rule_on (f : attr_field) : bool :=
  match f with
  | F_hostname => fqdn_rule_present (base rules)
  | F_app => app_rule_present rules
  | F_ipv4 | F_ipv6 => ip_rule_present (base rules)
  | F_url => false
  end.
Definition rule_names (f : attr_field) : str_set :=
  match f with
  | F_hostname => fqdns (base rules) | F_app => apps rules | F_ipv4 | F_ipv6 => ipaddrs (base rules) | F_url => None
  end.
Definition rule_out (f : attr_field) : bool :=
  match f with
  | F_hostname => fqdn_out (fqdn_op (base rules))
  | F_app => bool_decide (app_op rules = APP_OP_OUT)
  | _ => bool_decide (ip_op (base rules) = IP_OP_OUT)
  end.
(** Host names match as the operation says, applications and addresses exactly; the
    addresses of a rule concern the tree of their family. *)
Definition name_hit (f : attr_field) (name t : string) : Prop :=
  match f with
  | F_hostname => name_match (fqdn_lookup_of (fqdn_op (base rules))) name t
  | F_ipv4 => is_v4 inet_pton4 (Some t) = true ∧ name = t
  | F_ipv6 => is_v6 inet_pton4 inet_pton6 (Some t) = true ∧ name = t
  | _ => name = t
  end.
Definition name_listed (f : attr_field) (name : string) : Prop :=
  ∃ l t, rule_names f = Some l ∧ Some t ∈ l ∧ name_hit f name t.
(** The rules hit an entry: its name is in, or out of, the set, its risk (which is its
    confidence level) and its category are as they say. *)
Definition rule_hits (f : attr_field) (e : attr_cache) : Prop :=
  rule_on f = true ∧
  (if rule_out f then ¬ name_listed f (attr_name (attr e)) else name_listed f (attr_name (attr e))) ∧
  (risk_rule_present (base rules) = true →
     risk_cond (risk_op (base rules)) (wraps 32 (ac_confidence_level e)) (risk_level (base rules))) ∧
  (cat_rule_present (base rules) = true →
     match cat_op (base rules) with
     | CAT_OP_IN => cat_in (ac_category_id e) (categories (base rules))
     | CAT_OP_OUT => ¬ cat_in (ac_category_id e) (categories (base rules))
     | CAT_OP_TRUE => True
     end).
(** The rules select a device. *)
Definition mac_listed (mac : list Z) : Prop := ∃ l t, macs (base rules) = Some l ∧ t ∈ l ∧ str2os_mac_ref t = Some mac.
Definition mac_selected (mac : list Z) : Prop :=
  mac_rule_present (base rules) = true →
  match mac_op (base rules) with MAC_OP_IN => mac_listed mac | MAC_OP_OUT => ¬ mac_listed mac end.

(** Rules that the code applies as they say: no set of categories (the code looks the
    confidence level up in it) and no operation "true", which the database cannot give. *)
Record rules_plain : Prop := {
  rp_cat : cat_rule_present (base rules) = true → cat_op (base rules) = CAT_OP_TRUE;
  rp_true : fqdn_op (base rules) ≠ FQDN_OP_TRUE ∧ ip_op (base rules) ≠ IP_OP_TRUE ∧ app_op rules ≠ APP_OP_TRUE }.
(** A name that no entry of the set of an exact rule only starts with. *)
Definition name_plain (f : attr_field) (name : string) : Prop :=
  rule_on f = true → (f = F_hostname → fqdn_lookup_of (fqdn_op (base rules)) = FSM_FQDN_OP_XM) → plain_set name (rule_names f).

Lemma in_names_spec cmp name l : in_names cmp name l = true ↔ ∃ t, Some t ∈ l ∧ cmp name t = true.
Proof.
  unfold in_names. rewrite existsb_exists. split.
  - intros ([t|] & Ht & Hc); [|done]. exists t. by rewrite list_elem_of_In.
  - intros (t & Ht & Hc). exists (Some t). by rewrite <- list_elem_of_In.
Qed.
Lemma starts_plain name t l : plain_set name (Some l) → Some t ∈ l → starts name t = true ↔ name = t.
Proof.
  intros Hp Ht. destruct (Hp l _ eq_refl Ht) as (t' & [= <-] & Hpre). split; [intros ?; symmetry; by apply Hpre|].
  intros ->. apply prefix_self.
Qed.
Lemma startswith_spec a b : str_startswith a b = true ↔ ∃ post, a = b +:+ post.
Proof. unfold str_startswith. rewrite bool_decide_eq_true, <- prefix_app. by rewrite String.prefix_correct. Qed.
Lemma substring_length n m s : (String.length (String.substring n m s) ≤ m)%nat.
Proof.
  revert n m. induction s as [|c s IH]; intros [|n] [|m]; simpl; try lia; [specialize (IH 0%nat m); lia|apply IH..].
Qed.
Lemma endswith_spec a b : str_endswith a b = true ↔ ∃ pre, a = pre +:+ b.
Proof.
  unfold str_endswith. destruct (Nat.ltb_spec (String.length a) (String.length b)) as [Hlt|Hge].
  { split; [done|]. intros [pre ->]. rewrite sapp_length in Hlt. lia. }
  pose proof (name_test_prefix FSM_FQDN_OP_SFR a b ltac:(done) Hge) as Hn. cbn [name_test] in Hn.
  rewrite bool_decide_eq_true_2 in Hn by done. rewrite <- Hn, bool_decide_eq_true, String.prefix_correct. unfold PolicyTags.skip.
  replace (String.length a - (String.length a - String.length b))%nat with (String.length b) by lia.
  rewrite substring_full; [done|]. apply substring_length.
Qed.

Lemma filtered_hits P name l : plain_set name (Some l) →
  (∃ t, Some t ∈ List.filter P l ∧ starts name t = true) ↔ (∃ t, Some t ∈ l ∧ P (Some t) = true ∧ name = t).
Proof.
  intros Hp. setoid_rewrite list_elem_of_In. setoid_rewrite filter_In. setoid_rewrite <- list_elem_of_In.
  split; [intros (t & [Ht HP] & Hm)|intros (t & Ht & HP & Hm)]; exists t; split_and!; try done; by apply (starts_plain name t l).
Qed.
Lemma hit_names f name l :
  rules_wf rules → rules_plain → rule_on f = true → rule_names f = Some l → name_plain f name →
  (match f with
   | F_hostname => in_names (hostname_match (fqdn_op (base rules))) name l
   | F_app => in_names (prefix_match (bool_decide (app_op rules = APP_OP_TRUE))) name l
   | F_ipv4 => in_names (prefix_match (bool_decide (ip_op (base rules) = IP_OP_TRUE))) name (List.filter (is_v4 inet_pton4) l)
   | _ => in_names (prefix_match (bool_decide (ip_op (base rules) = IP_OP_TRUE))) name (List.filter (is_v6 inet_pton4 inet_pton6) l)
   end = true ↔ name_listed f name).
Proof.
  intros Hwf [_ (Hf & Hip & Hap)] Hon Hl Hpl. unfold name_plain in Hpl. rewrite Hon, Hl in Hpl. specialize (Hpl eq_refl).
  assert ((f ≠ F_hostname → plain_set name (Some l))) as Hpl' by (intros; by apply Hpl).
  transitivity (∃ t, Some t ∈ l ∧ name_hit f name t); [|unfold name_listed; rewrite Hl; naive_solver].
  rewrite (bool_decide_eq_false_2 (app_op rules = APP_OP_TRUE)), (bool_decide_eq_false_2 (ip_op (base rules) = IP_OP_TRUE)) by done.
  destruct f; simpl in Hon; [|done|..]; rewrite in_names_spec; unfold prefix_match; cbn [orb name_hit].
  - destruct (wf_fqdn _ Hwf Hon) as (_ & Hw1 & Hw2).
    destruct (fqdn_op (base rules)) eqn:Hop; cbn [hostname_match fqdn_lookup_of name_match] in *; try congruence;
      try (setoid_rewrite endswith_spec; done); try (setoid_rewrite startswith_spec; done).
    all: split; intros (t & Ht & Hm); exists t; (split; [done|]); apply (starts_plain name t l); auto.
  - apply filtered_hits. auto.
  - apply filtered_hits. auto.
  - split; intros (t & Ht & Hm); exists t; (split; [done|]); apply (starts_plain name t l); auto.
Qed.

Lemma risk_hit_spec level : risk_hit (base rules) level = true ↔
  (risk_rule_present (base rules) = true → risk_cond (risk_op (base rules)) level (risk_level (base rules))).
Proof.
  unfold risk_hit, risk_cond. destruct (risk_rule_present (base rules)); [|done].
  destruct (risk_op (base rules)); cbn; unfold risk_cmp_eq, risk_cmp_neq, risk_cmp_gt, risk_cmp_lt, risk_cmp_gte, risk_cmp_lte; try lia; done.
Qed.
Lemma decide_set_spec found out (P : Prop) : (found = true ↔ P) → decide_set found out = true ↔ (if out then ¬ P else P).
Proof. intros HP. unfold decide_set. destruct found, out; naive_solver. Qed.

(** For plain rules and names the decision of the code is what the rules say. *)
Lemma flush_hit_spec f e : rules_wf rules → rules_plain → name_plain f (attr_name (attr e)) →
  flush_hit inet_pton4 inet_pton6 rules f e = true ↔ rule_hits f e.
Proof.
  intros Hwf Hr Hn. assert (∃ l, rule_on f = true → rule_names f = Some l) as [l Hl].
  { destruct (rule_on f) eqn:Hon; [|by exists []]. destruct f; simpl in *; [| done|..].
    1: destruct (proj1 (wf_fqdn _ Hwf Hon)) as (l & ? & _). 2-3: destruct (wf_ip _ Hwf Hon) as (l & ? & _).
    4: destruct (wf_app _ Hwf Hon) as (l & ? & _). all: by exists l. }
  pose proof (λ Hon, hit_names f _ l Hwf Hr Hon (Hl Hon) Hn) as Hnames.
  assert (∀ level, cat_hit (base rules) level = true) as Hcat.
  { intros level. unfold cat_hit. destruct (cat_rule_present (base rules)) eqn:Hc; [|done]. by rewrite (rp_cat Hr Hc). }
  assert (cat_rule_present (base rules) = true → match cat_op (base rules) with
     | CAT_OP_IN => cat_in (ac_category_id e) (categories (base rules))
     | CAT_OP_OUT => ¬ cat_in (ac_category_id e) (categories (base rules))
     | CAT_OP_TRUE => True
     end) as Hc by (intros Hc; by rewrite (rp_cat Hr Hc)).
  unfold flush_hit, rule_hits. destruct (rule_on f) eqn:Hon.
  2: { destruct f; simpl in Hon; rewrite ?Hon; naive_solver. }
  specialize (Hl eq_refl). specialize (Hnames eq_refl). pose proof (risk_hit_spec (wraps 32 (ac_confidence_level e))) as Hrisk.
  destruct f; simpl in *; [|done|..]; rewrite Hon, Hl, ?Hcat; cbn [andb default]; rewrite ?andb_true_r, andb_true_iff, Hrisk;
    rewrite (decide_set_spec _ _ _ Hnames); naive_solver.
Qed.

(** *** Devices *)

Lemma any_mac_spec op mac l : any_mac (get_mac_cmp op) mac l = true ↔ ∃ t, t ∈ l ∧ str2os_mac_ref t = Some mac.
Proof.
  assert (∀ m, get_mac_cmp op mac m = true ↔ mac = m) as Hc.
  { intros m. destruct op; simpl; unfold mac_cmp; by rewrite Z.eqb_eq, memcmp_zero. }
  induction l as [|t l IH]; simpl; [set_solver|]. destruct (str2os_mac_ref t) as [m|] eqn:Ht.
  - specialize (Hc m). destruct (get_mac_cmp op mac m) eqn:Hm.
    + split; [|done]. intros _. exists t. destruct (proj1 Hc eq_refl). set_solver.
    + rewrite IH. split; [set_solver|]. intros (t' & [->|?]%elem_of_cons & Ht'); [|eauto]. assert (m = mac) by congruence. naive_solver.
  - rewrite IH. set_solver.
Qed.
Lemma selected_spec d : rules_wf rules → selected rules d = true ↔ mac_selected (device_mac d).
Proof.
  intros Hwf. unfold selected, mac_selected, mac_listed. destruct (mac_rule_present (base rules)) eqn:Hm; [|done].
  destruct (wf_mac _ Hwf Hm) as [l ->]. cbn [default]. pose proof (any_mac_spec (mac_op (base rules)) (device_mac d) l) as Ha.
  destruct (any_mac _ _ _), (mac_op (base rules)); cbn; naive_solver.
Qed.

(** *** The views of the cache after a flush *)

Lemma ks_get_fmap {K A} (cmp : K → K → Z) (key : A → K) (g : A → A) k l : (∀ a, key (g a) = key a) →
  ks_get cmp key k (g <$> l) = g <$> ks_get cmp key k l.
Proof.
  intros Hg. induction l as [|a l IH]; [done|]. rewrite fmap_cons, !ks_get_cons, Hg. by destruct (decide _).
Qed.
Lemma flushed_dev_view s s' m : gk_inv s → per_device_tree s' = flushed inet_pton4 inet_pton6 rules (per_device_tree s) →
  dev_view s' m = d ← dev_view s m;
    if selected rules d then (if whole rules then None else Some (flush_dev inet_pton4 inet_pton6 rules d)) else Some d.
Proof.
  intros Hi Hd. unfold dev_view. rewrite Hd. unfold flushed. destruct (whole rules).
  - unfold kept. rewrite ks_get_filter by first [apply _|apply (inv_devs _ Hi)]. destruct (ks_get _ _ _ _) as [d|]; [|done].
    simpl. by destruct (selected rules d).
  - rewrite ks_get_fmap by (intros d; by destruct (selected rules d)). destruct (ks_get _ _ _ _) as [d|]; [|done].
    simpl. by destruct (selected rules d).
Qed.
Lemma flush_dev_trees d : (∀ f, attr_tree f (flush_dev inet_pton4 inet_pton6 rules d) = kept (flush_hit inet_pton4 inet_pton6 rules f) (attr_tree f d)) ∧
  (∀ b, flow_tree b (flush_dev inet_pton4 inet_pton6 rules d) = flow_tree b d).
Proof. split; [intros []|intros []]; done. Qed.

(** An entry is flushed with its device, or if the rules hit it. *)
Definition entry_flushed (mac : list Z) (f : attr_field) (e : attr_cache) : Prop :=
  mac_selected mac ∧ (whole rules = true ∨ rule_hits f e).
Lemma flushed_attr_view s s' m f k e :
  gk_inv s → per_device_tree s' = flushed inet_pton4 inet_pton6 rules (per_device_tree s) →
  rules_wf rules → rules_plain → (∀ e, attr_view s m f k = Some e → name_plain f (attr_name (attr e))) →
  attr_view s' m f k = Some e ↔ attr_view s m f k = Some e ∧ ¬ entry_flushed m f e.
Proof.
  intros Hi Hd Hwf Hr. unfold attr_view, entry_flushed. rewrite (flushed_dev_view s s' m Hi Hd).
  destruct (dev_view s m) as [d|] eqn:Hm; [|naive_solver]. cbn [mbind option_bind]. intros Hn.
  apply ks_get_some in Hm as [Hin Hk%memcmp_zero]. pose proof (proj1 (Forall_forall _ _) (inv_dev _ Hi) d Hin) as Hok.
  pose proof (selected_spec d Hwf) as Hsel. rewrite Hk in Hsel.
  destruct (selected rules d); [|cbn [mbind option_bind]; naive_solver].
  destruct (whole rules); cbn [mbind option_bind]; [naive_solver|].
  rewrite (proj1 (flush_dev_trees d)). unfold kept. rewrite ks_get_filter by first [apply _|apply Hok].
  destruct (ks_get _ _ _ _) as [e'|] eqn:He'; [|naive_solver].
  pose proof (flush_hit_spec f e' Hwf Hr (Hn e' eq_refl)) as Hh.
  destruct (flush_hit _ _ _ _ e'); simpl; naive_solver.
Qed.
Lemma flushed_flow_view s s' m b fl :
  gk_inv s → per_device_tree s' = flushed inet_pton4 inet_pton6 rules (per_device_tree s) → rules_wf rules →
  (mac_selected m ∧ whole rules = true → flow_view s' m b fl = None) ∧
  (¬ (mac_selected m ∧ whole rules = true) → flow_view s' m b fl = flow_view s m b fl).
Proof.
  intros Hi Hd Hwf. unfold flow_view. rewrite (flushed_dev_view s s' m Hi Hd).
  destruct (dev_view s m) as [d|] eqn:Hm; [|done]. cbn [mbind option_bind].
  apply ks_get_some in Hm as [_ Hk%memcmp_zero]. pose proof (selected_spec d Hwf) as Hsel. rewrite Hk in Hsel.
  destruct (selected rules d), (whole rules); cbn [mbind option_bind]; rewrite ?(proj2 (flush_dev_trees d)); naive_solver.
Qed.
End meaning.
