(* ===== verification/GkCacheRun.v ===== *)
(** The gatekeeper cache: its keys (one step of the hash function is a bijection, so the keys of
    one name in two directions differ) and sequences of operations. *)
From Stdlib Require Import Ascii Sorting.Sorted.
From S2P Require Import Prelude KeySeq GkCache DsTree DsTreeInv FcmFilter FsmPolicy GkCacheInv GkCacheOps.
From S2P Require Import GkCacheAdd GkCacheFlow GkFlush GkFlushThms.
Local Open Scope Z_scope.

(** *** 64-bit words *)

Definition word (x : Z) : Prop := 0 ≤ x < 2 ^ 64.
Lemma word_bits x : 0 ≤ x → (∀ n, 64 ≤ n → Z.testbit x n = false) → word x.
Proof.
  intros Hx Hb. split; [done|]. destruct (Z.eq_dec x 0) as [->|Hne]; [done|].
  apply Z.log2_lt_pow2; [lia|]. destruct (Z.lt_ge_cases (Z.log2 x) 64) as [|Hge]; [done|].
  specialize (Hb _ Hge). rewrite Z.bit_log2 in Hb by lia. done.
Qed.
Lemma bits_word x n : word x → 64 ≤ n → Z.testbit x n = false.
Proof.
  intros [H0 Hx] Hn. destruct (Z.eq_dec x 0) as [->|Hne]; [apply Z.testbit_0_l|].
  apply Z.bits_above_log2; [done|]. apply Z.log2_lt_pow2 in Hx; lia.
Qed.
Lemma word_wrapu x : word (wrapu 64 x).
Proof. apply Z.mod_pos_bound. lia. Qed.
Lemma word_lxor x y : word x → word y → word (Z.lxor x y).
Proof.
  intros Hx Hy. apply word_bits.
  - apply Z.lxor_nonneg. unfold word in *. lia.
  - intros n Hn. by rewrite Z.lxor_spec, !bits_word.
Qed.
Lemma word_shiftr x n : word x → 0 ≤ n → word (Z.shiftr x n).
Proof.
  intros [H0 Hx] Hn. apply word_bits; [by apply Z.shiftr_nonneg|]. intros m Hm. rewrite Z.shiftr_spec by lia.
  apply bits_word; [done|lia].
Qed.
Lemma lxor_inj x y z : Z.lxor x z = Z.lxor y z → x = y.
Proof.
  intros E. rewrite <- (Z.lxor_0_r x), <- (Z.lxor_0_r y), <- (Z.lxor_nilpotent z), <- !Z.lxor_assoc. by rewrite E.
Qed.

(** *** The three operations of a step *)

(** [h ^= h >> 47] is its own inverse. *)
Lemma xorshift_inv x : word x → let y := Z.lxor x (Z.shiftr x 47) in Z.lxor y (Z.shiftr y 47) = x.
Proof.
  intros Hx y. unfold y. rewrite Z.shiftr_lxor, Z.shiftr_shiftr by lia.
  assert (Z.shiftr x (47 + 47) = 0) as ->.
  { apply Z.shiftr_eq_0; [apply Hx|]. destruct (Z.eq_dec x 0) as [->|]; [done|].
    destruct Hx as [? Hx]. apply Z.log2_lt_pow2 in Hx; lia. }
  by rewrite Z.lxor_0_r, Z.lxor_assoc, Z.lxor_nilpotent, Z.lxor_0_r.
Qed.
(** The multiplier is odd, so it has an inverse. *)
Definition MURMUR_INV : Z := 0x542ed195e59b19bd.
Lemma mul_inj x y : word x → word y → wrapu 64 (x * MURMUR_MUL) = wrapu 64 (y * MURMUR_MUL) → x = y.
Proof.
  intros Hx Hy E. assert (∀ z, word z → wrapu 64 (wrapu 64 (z * MURMUR_MUL) * MURMUR_INV) = z) as Hinv.
  { intros z Hz. unfold wrapu. rewrite Z.mul_mod_idemp_l, <- Z.mul_assoc, <- Z.mul_mod_idemp_r by lia.
    assert ((MURMUR_MUL * MURMUR_INV) mod 2 ^ 64 = 1) as -> by (by vm_compute). rewrite Z.mul_1_r. by apply Z.mod_small. }
  rewrite <- (Hinv x), <- (Hinv y) by done. by rewrite E.
Qed.

Lemma murmur_step_word h c : word (murmur_step h c).
Proof. unfold murmur_step. cbv zeta. apply word_lxor; [|apply word_shiftr; [|lia]]; apply word_wrapu. Qed.
Lemma murmur_step_inj h1 h2 c1 c2 : word h1 → word h2 → murmur_step h1 c1 = murmur_step h2 c2 →
  Z.lxor h1 (wrapu 64 c1) = Z.lxor h2 (wrapu 64 c2).
Proof.
  intros H1 H2 E. unfold murmur_step in E. cbv zeta in E.
  apply mul_inj; [apply word_lxor; [done|apply word_wrapu]..|].
  rewrite <- (xorshift_inv (wrapu 64 (Z.lxor h1 _ * MURMUR_MUL))), <- (xorshift_inv (wrapu 64 (Z.lxor h2 _ * MURMUR_MUL))) by apply word_wrapu.
  cbv zeta. by rewrite E.
Qed.
Lemma murmur_loop_inj s h1 h2 : word h1 → word h2 → murmur_loop h1 s = murmur_loop h2 s → h1 = h2.
Proof.
  revert h1 h2. induction s as [|c s IH]; intros h1 h2 H1 H2 E; [done|]. simpl in E.
  apply IH in E; [|apply murmur_step_word..]. apply murmur_step_inj in E; [|done..]. by apply lxor_inj in E.
Qed.

(** *** Keys *)

Lemma char_value_digit d : 0 ≤ d < 10 → char_value (digit_char d) = 48 + d.
Proof.
  intros Hd. assert (∃ n, d = Z.of_nat n ∧ (n < 10)%nat) as (n & -> & Hn) by (exists (Z.to_nat d); lia).
  do 10 (destruct n as [|n]; [by vm_compute|]). lia.
Qed.
Lemma substring_S n c s : String.substring 0 (S n) (String c s) = String c (String.substring 0 n s).
Proof. done. Qed.
(** The key of a name starts from a different state in each direction. *)
Lemma get_attr_key_digit name d : 0 ≤ d < 10 → ∃ rest, ∀ d', 0 ≤ d' < 10 →
  get_attr_key name d' = murmur_loop (murmur_step MURMUR_SEED (48 + d')) rest.
Proof.
  intros _. exists (String.substring 0 (KEY_BUF_LEN - 2) (String "_" name)). intros d' Hd'.
  unfold get_attr_key, print_u8. destruct (Z.ltb_spec d' 10); [|lia]. cbn [String.app].
  assert (KEY_BUF_LEN - 1 = S (KEY_BUF_LEN - 2))%nat as -> by (by vm_compute).
  change (String (digit_char d') "" +:+ String "_" name) with (String (digit_char d') (String "_" name)).
  rewrite substring_S. unfold MurmurOAAT64. cbn [murmur_loop]. by rewrite char_value_digit.
Qed.
Lemma get_attr_key_inj name d1 d2 : 0 ≤ d1 < 10 → 0 ≤ d2 < 10 → get_attr_key name d1 = get_attr_key name d2 → d1 = d2.
Proof.
  intros H1 H2. destruct (get_attr_key_digit name d1 H1) as [rest Hk]. rewrite !Hk by done. intros E.
  apply murmur_loop_inj in E; [|apply murmur_step_word..]. apply murmur_step_inj in E; [|by split..].
  rewrite !(Z.lxor_comm MURMUR_SEED) in E. apply lxor_inj in E. unfold wrapu in E. rewrite !Z.mod_small in E; lia.
Qed.

(** ** The gatekeeper cache: sequences of operations. *)

Section run.
Context (fnmatch : string → string → bool) (inet_pton4 inet_pton6 : string → bool).

(** The calls of the library, and the passing of time. *)
Inductive gk_op :=
  | OpInit | OpSetSize (n : Z)
  | OpAddAttr (e : gk_attr_cache_interface) | OpLookupAttr (r : gk_attr_cache_interface) (update_count : bool)
  | OpDelAttr (r : gk_attr_cache_interface)
  | OpAddFlow (e : gkc_ip_flow_interface) | OpLookupFlow (r : gkc_ip_flow_interface) (update_count : bool)
  | OpDelFlow (r : gkc_ip_flow_interface)
  | OpTtl | OpClear | OpCleanupMgr | OpFlush (policy : option (fsm_action * flush_rules)) | OpTick (t : Z).

Definition exec (op : gk_op) : GK unit :=
  match op with
  | OpInit => gk_cache_init;; mret tt
  | OpSetSize n => gk_cache_set_size n
  | OpAddAttr e => gkc_add_attribute_entry e;; mret tt
  | OpLookupAttr r b => gkc_lookup_attribute_entry r b;; mret tt
  | OpDelAttr r => gkc_del_attribute r;; mret tt
  | OpAddFlow e => gkc_add_flow_entry e;; mret tt
  | OpLookupFlow r b => gkc_lookup_flow r b;; mret tt
  | OpDelFlow r => gkc_del_flow r;; mret tt
  | OpTtl => gkc_ttl_cleanup
  | OpClear => clear_gatekeeper_cache
  | OpCleanupMgr => gkc_cleanup_mgr
  | OpFlush p => gkc_flush_client fnmatch inet_pton4 inet_pton6 p;; mret tt
  | OpTick t => modify (λ s, Gk (initialized s) (total_entry_count s) (per_device_tree s) (GK_MAX_CACHE_ENTRIES s) t)
  end.
Fixpoint exec_all (ops : list gk_op) : GK unit :=
  match ops with [] => mret tt | op :: ops => exec op;; exec_all ops end.

(** The state of the library when it is loaded. *)
Definition gk_initial : gk_state := Gk false 0 [] 100000 0.

(** What the operations need of their arguments: a device address, a name for an entry
    to add, addresses as long as the version of a flow says, rules whose sets are there,
    and a size below 2^31. *)
Definition flow_arg_ok (r : gkc_ip_flow_interface) : Prop := gkc_is_flow_valid r = true → ∃ mac, flow_req_ok r mac.
Definition op_ok (op : gk_op) : Prop :=
  match op with
  | OpSetSize n => 0 ≤ n < 2 ^ 31
  | OpAddAttr e => is_Some (ai_device_mac e) ∧ is_Some (ai_attr_name e)
  | OpLookupAttr r _ | OpDelAttr r => is_Some (ai_device_mac r)
  | OpAddFlow r | OpLookupFlow r _ | OpDelFlow r => flow_arg_ok r
  | OpFlush (Some (_, rules)) => rules_wf rules
  | _ => True
  end.
(** A policy that removes single entries. *)
Definition flushes_entries (op : gk_op) : Prop :=
  match op with OpFlush (Some (FSM_FLUSH_CACHE, rules)) => whole rules = false | _ => False end.

(** The invariant of runs. *)
Definition run_inv (s : gk_state) : Prop := gk_inv s ∧ GK_MAX_CACHE_ENTRIES s < 2 ^ 31.
(** One step: the invariant, and the slack of the counter stays unless entries are
    flushed by policy. *)
Definition step_ok (op : gk_op) (s s' : gk_state) : Prop := run_inv s' ∧ (¬ flushes_entries op → slack s = 0 → slack s' = 0).

Lemma step_touch op s s' : run_inv s → touch_post s s' → step_ok op s s'.
Proof. intros [_ Hm] [Hi (_ & H2 & _ & H4) _ _]. split; [split; [done|lia]|congruence]. Qed.
Lemma step_add op s s' : run_inv s → add_post s s' → step_ok op s s'.
Proof. intros [_ Hm] [Hi (_ & H2 & _ & H4) _]. split; [split; [done|lia]|congruence]. Qed.
Lemma step_del op s s' : run_inv s → del_post s s' → step_ok op s s'.
Proof. intros [_ Hm] [Hi (_ & H2 & _ & H4) _]. split; [split; [done|lia]|congruence]. Qed.
Lemma step_same op s : run_inv s → step_ok op s s.
Proof. by split. Qed.

(** Most operations do nothing before initialisation. *)
Ltac not_init Hn := rewrite ?Hn; cbn [negb]; repeat wp_pure; first [by apply step_same | idtac].

Lemma wp_ignore {A} (m : GK A) (Q : gk_state → Prop) s : wp m (λ _, Q) s → wp (m;; mret tt) (λ _, Q) s.
Proof. intros Hw. wp_seq. eapply wp_mono; [done|]. intros a s' HQ. by wp_pure. Qed.

Lemma step_add_attr e s : run_inv s → op_ok (OpAddAttr e) → wp (exec (OpAddAttr e)) (λ _, step_ok (OpAddAttr e) s) s.
Proof.
  intros Hr ([mac Hmac] & [name Hname]). pose proof Hr as [Hi Hm]. apply wp_ignore.
  destruct (initialized s) eqn:Hn.
  2: { unfold gkc_add_attribute_entry. wp_seq. wp_pure. not_init Hn. }
  destruct (decide (total_entry_count s < GK_MAX_CACHE_ENTRIES s)) as [Hmax|Hmax].
  2: { unfold gkc_add_attribute_entry. wp_seq. wp_pure. rewrite Hn. cbn [negb]. wp_seq. wp_pure.
       destruct (Z.leb_spec (GK_MAX_CACHE_ENTRIES s) (total_entry_count s)); [wp_pure; by apply step_same|lia]. }
  destruct (field_of (ai_attribute_type e)) as [f|] eqn:Hf.
  - eapply wp_mono; [by eapply add_attribute_spec|]. intros r s'. cbn beta.
    destruct (attr_view s mac f _); intros [_ Hp]; [by apply step_touch|]. by apply step_add, (added_add _ _ _ _ _ _ Hp).
  - unfold gkc_add_attribute_entry. wp_seq. wp_pure. rewrite Hn. cbn [negb]. wp_seq. wp_pure.
    destruct (Z.leb_spec (GK_MAX_CACHE_ENTRIES s) (total_entry_count s)); [wp_pure; by apply step_same|].
    destruct (ai_attribute_type e); try done; wp_pure; by apply step_same.
Qed.
Lemma step_lookup_attr r b s : run_inv s → op_ok (OpLookupAttr r b) → wp (exec (OpLookupAttr r b)) (λ _, step_ok (OpLookupAttr r b) s) s.
Proof.
  intros Hr [mac Hmac]. pose proof Hr as [Hi Hm]. apply wp_ignore. destruct (initialized s) eqn:Hn.
  - eapply wp_mono; [by eapply lookup_attribute_spec|]. intros x s'. cbn beta.
    destruct (_ ≫= _); intros [_ Hp]; [|subst; by apply step_same]. eapply step_touch; [done|]. by eapply touch_post_of.
  - unfold gkc_lookup_attribute_entry. rewrite Hmac. destruct (bad_type _); [wp_pure; by apply step_same|].
    wp_seq. wp_use lookup_device_spec. intros x s' [-> ->]. rewrite Hn. wp_pure. by apply step_same.
Qed.
Lemma step_del_attr r s : run_inv s → op_ok (OpDelAttr r) → wp (exec (OpDelAttr r)) (λ _, step_ok (OpDelAttr r) s) s.
Proof.
  intros Hr [mac Hmac]. pose proof Hr as [Hi Hm]. apply wp_ignore. destruct (initialized s) eqn:Hn.
  2: { unfold gkc_del_attribute. wp_seq. wp_pure. not_init Hn. }
  destruct (ai_attr_name r) as [name|] eqn:Hname.
  - eapply wp_mono; [by eapply del_attribute_spec|]. intros x s'. cbn beta.
    destruct (_ ≫= _) as [[f [i e]]|]; [intros (_ & Hp & _); by apply step_del|intros [_ ->]; by apply step_same].
  - unfold gkc_del_attribute. wp_seq. wp_pure. rewrite Hn, Hmac. cbn [negb]. wp_seq. wp_use lookup_device_spec.
    intros x s' [-> _]. destruct x; [|wp_pure; by apply step_same]. wp_seq. unfold gkc_del_attr_from_dev. rewrite Hname.
    wp_pure. wp_pure. by apply step_same.
Qed.

(** An invalid flow is refused, but leaves a device behind. *)
Lemma add_flow_invalid s r : gk_inv s → gkc_is_flow_valid r = false →
  wp (gkc_add_flow_entry r) (λ x s', x.1 = false ∧ touch_post s s') s.
Proof.
  intros Hi Hv. unfold gkc_add_flow_entry. wp_seq. wp_pure.
  destruct (initialized s) eqn:Hn; cbn [negb]; [|wp_pure; auto using touch_post_refl].
  destruct (fi_device_mac r) as [mac|] eqn:Hmac; [|wp_pure; auto using touch_post_refl].
  wp_seq. unfold gkc_lookup_flow. rewrite Hv. cbn [negb]. wp_pure. wp_seq. wp_pure.
  destruct (_ <=? _); [wp_pure; auto using touch_post_refl|].
  wp_seq. rewrite Hmac. wp_use find_or_add_device_spec; [done..|]. intros x s1 (p & d & -> & Htp & _).
  wp_seq. unfold gkc_add_flow_tree. wp_seq. wp_pure.
  destruct (initialized s1); cbn [negb]; [|wp_pure; by wp_pure]. rewrite Hv. cbn [negb]. wp_pure. by wp_pure.
Qed.
Lemma step_add_flow r s : run_inv s → op_ok (OpAddFlow r) → wp (exec (OpAddFlow r)) (λ _, step_ok (OpAddFlow r) s) s.
Proof.
  intros Hr Hok. pose proof Hr as [Hi Hm]. apply wp_ignore. destruct (gkc_is_flow_valid r) eqn:Hv.
  2: { eapply wp_mono; [by apply add_flow_invalid|]. intros x s' [_ Hp]. by apply step_touch. }
  destruct (Hok Hv) as [mac Hreq]. destruct (initialized s) eqn:Hn.
  2: { unfold gkc_add_flow_entry. wp_seq. wp_pure. not_init Hn. }
  destruct (decide (total_entry_count s < GK_MAX_CACHE_ENTRIES s)) as [Hmax|Hmax].
  - eapply wp_mono; [by eapply add_flow_spec|]. intros x s'. cbn beta zeta.
    destruct (flow_view _ _ _ _); [intros [_ Hp]; by apply step_touch|intros (_ & Hp & _); by apply step_add].
  - unfold gkc_add_flow_entry. wp_seq. wp_pure. rewrite Hn, (fr_mac _ _ Hreq). cbn [negb]. wp_seq.
    wp_use (lookup_flow_spec s r false mac); [done..|]. intros x s'.
    destruct (flow_view _ _ _ _); intros [-> Hp]; [wp_pure; eapply step_touch; [done|]; by eapply touch_post_of|].
    subst s'. wp_seq. wp_pure.
    destruct (Z.leb_spec (GK_MAX_CACHE_ENTRIES s) (total_entry_count s)); [wp_pure; by apply step_same|lia].
Qed.
Lemma step_lookup_flow r b s : run_inv s → op_ok (OpLookupFlow r b) → wp (exec (OpLookupFlow r b)) (λ _, step_ok (OpLookupFlow r b) s) s.
Proof.
  intros Hr Hok. pose proof Hr as [Hi Hm]. apply wp_ignore. destruct (gkc_is_flow_valid r) eqn:Hv.
  2: { unfold gkc_lookup_flow. rewrite Hv. cbn [negb]. wp_pure. by apply step_same. }
  destruct (Hok Hv) as [mac Hreq]. destruct (initialized s) eqn:Hn.
  - eapply wp_mono; [by eapply lookup_flow_spec|]. intros x s'. cbn beta.
    destruct (flow_view _ _ _ _); intros [_ Hp]; [|subst; by apply step_same]. eapply step_touch; [done|]. by eapply touch_post_of.
  - unfold gkc_lookup_flow. rewrite Hv, (fr_mac _ _ Hreq). cbn [negb].
    wp_seq. wp_use lookup_device_spec. intros x s' [-> ->]. rewrite Hn. wp_pure. by apply step_same.
Qed.
Lemma step_del_flow r s : run_inv s → op_ok (OpDelFlow r) → wp (exec (OpDelFlow r)) (λ _, step_ok (OpDelFlow r) s) s.
Proof.
  intros Hr Hok. pose proof Hr as [Hi Hm]. apply wp_ignore. destruct (initialized s) eqn:Hn.
  2: { unfold gkc_del_flow. wp_seq. wp_pure. not_init Hn. }
  destruct (gkc_is_flow_valid r) eqn:Hv.
  2: { unfold gkc_del_flow. wp_seq. wp_pure. rewrite Hn, Hv. cbn [negb]. wp_pure. by apply step_same. }
  destruct (Hok Hv) as [mac Hreq]. eapply wp_mono; [by eapply del_flow_spec|]. intros x s'. cbn beta zeta.
  destruct (flow_view _ _ _ _); [intros (_ & Hp & _); by apply step_del|intros [_ ->]; by apply step_same].
Qed.

(** The empty cache. *)
Lemma empty_inv b max t : 0 ≤ max < 2 ^ 31 → run_inv (Gk b 0 [] max t) ∧ slack (Gk b 0 [] max t) = 0.
Proof.
  intros Hmax. split; [|done]. split; [|simpl; lia].
  split; simpl; [constructor|constructor|done|lia|done].
Qed.
Lemma inv_max_nonneg s : gk_inv s → 0 ≤ GK_MAX_CACHE_ENTRIES s.
Proof.
  intros Hi. pose proof (inv_max _ Hi). pose proof (inv_slack _ Hi). pose proof (devs_size_nonneg (per_device_tree s)).
  unfold slack in *. lia.
Qed.
Lemma step_cleanup op s : run_inv s → wp gk_cache_cleanup (λ _, step_ok op s) s.
Proof.
  intros [Hi Hm]. destruct (initialized s) eqn:Hn.
  - unfold wp. rewrite cleanup_spec by done. pose proof (inv_max_nonneg _ Hi).
    destruct (empty_inv true (GK_MAX_CACHE_ENTRIES s) (now s)) as [? ?]; [lia|]. by split.
  - unfold gk_cache_cleanup. wp_seq. wp_pure. rewrite Hn. cbn [negb]. wp_pure. by split.
Qed.
Lemma step_cleanup_mgr s : run_inv s → wp gkc_cleanup_mgr (λ _, step_ok OpCleanupMgr s) s.
Proof.
  intros Hr. pose proof Hr as [Hi Hm]. unfold gkc_cleanup_mgr. wp_seq. wp_pure. destruct (initialized s) eqn:Hn; cbn [negb].
  2: { wp_pure. by apply step_same. }
  wp_seq. unfold wp at 1. rewrite cleanup_spec by done. wp_seq. wp_pure. wp_pure. pose proof (inv_max_nonneg _ Hi).
  destruct (empty_inv false (GK_MAX_CACHE_ENTRIES s) (now s)) as [? ?]; [lia|]. by split.
Qed.
Lemma step_flush p s : run_inv s → op_ok (OpFlush p) → wp (exec (OpFlush p)) (λ _, step_ok (OpFlush p) s) s.
Proof.
  intros Hr Hok. pose proof Hr as [Hi Hm]. apply wp_ignore. destruct p as [[act rules]|]; [|wp_pure; by apply step_same].
  simpl in Hok. destruct act; try (wp_pure; by apply step_same); simpl.
  - unfold gkc_flush_rules. wp_seq. wp_pure. destruct (initialized s) eqn:Hn; cbn [negb]; [|wp_pure; by apply step_same].
    wp_seq. wp_pure. eapply wp_mono; [apply flush_devices_spec; [done|done|done|done|]|].
    + pose proof (inv_max _ Hi). lia.
    + intros n s' ([Hi' _ Hm' _ Hc] & _ & _). split; [split; [done|lia]|]. cbn. intros Hw Hsl.
      destruct (whole rules); [|done]. unfold slack in *. lia.
  - unfold gkc_flush_all. wp_seq. unfold gk_get_cache_count. wp_pure. wp_seq.
    eapply wp_mono; [by apply step_cleanup|]. intros [] s' Hs. by wp_pure.
Qed.
Lemma step_ttl s : run_inv s → wp gkc_ttl_cleanup (λ _, step_ok OpTtl s) s.
Proof.
  intros Hr. pose proof Hr as [Hi Hm]. destruct (initialized s) eqn:Hn.
  - eapply wp_mono; [by apply ttl_cleanup_spec|]. intros [] s' (Hi' & (_ & H2 & _ & H4) & _).
    split; [split; [done|lia]|congruence].
  - unfold gkc_ttl_cleanup. wp_seq. wp_pure. not_init Hn.
Qed.
Lemma step_init s : run_inv s → wp (exec OpInit) (λ _, step_ok OpInit s) s.
Proof.
  intros Hr. pose proof Hr as [Hi Hm]. apply wp_ignore. unfold gk_cache_init, gk_cache_init_mgr. wp_seq. wp_seq. wp_pure.
  destruct (initialized s) eqn:Hn; [wp_pure; wp_pure; by apply step_same|].
  wp_seq. wp_pure. wp_pure. wp_pure. destruct (inv_init _ Hi Hn) as [Hd Ht]. pose proof (inv_max_nonneg _ Hi).
  unfold set_init, set_devices. simpl. rewrite Ht.
  destruct (empty_inv true (GK_MAX_CACHE_ENTRIES s) (now s)) as [? ?]; [lia|]. by split.
Qed.
Lemma step_set_size n s : run_inv s → op_ok (OpSetSize n) → wp (gk_cache_set_size n) (λ _, step_ok (OpSetSize n) s) s.
Proof.
  intros Hr Hok. simpl in Hok. pose proof Hr as [Hi Hm]. unfold gk_cache_set_size, gk_get_cache_count. wp_seq. wp_pure.
  destruct (Z.eqb_spec (if initialized s then total_entry_count s else 0) 0) as [Hz|]; [|wp_pure; by apply step_same].
  wp_pure. destruct Hi as [A B C D E]. assert (total_entry_count s = 0) as Ht by (destruct (initialized s); naive_solver).
  split; [|done]. split; [|simpl; lia]. split; simpl; [done|done|done|lia|done].
Qed.

Lemma step_any op s : run_inv s → op_ok op → wp (exec op) (λ _, step_ok op s) s.
Proof.
  intros Hr Hok. destruct op.
  - by apply step_init.
  - by apply step_set_size.
  - by apply step_add_attr.
  - by apply step_lookup_attr.
  - by apply step_del_attr.
  - by apply step_add_flow.
  - by apply step_lookup_flow.
  - by apply step_del_flow.
  - by apply step_ttl.
  - by apply step_cleanup.
  - by apply step_cleanup_mgr.
  - by apply step_flush.
  - simpl. wp_pure. destruct Hr as [[A B C D E] Hm]. by split.
Qed.

(** Runs keep the invariant and do not fault; the counter is exact as long as no policy
    flushed single entries. *)
Lemma run_ok ops s : run_inv s → Forall op_ok ops →
  ∃ s', exec_all ops s = Some (tt, s') ∧ run_inv s' ∧ (slack s = 0 → Forall (λ op, ¬ flushes_entries op) ops → slack s' = 0).
Proof.
  revert s. induction ops as [|op ops IH]; intros s Hr Hok; [by exists s|].
  apply Forall_cons in Hok as [Hop Hok]. pose proof (step_any op s Hr Hop) as Hw.
  apply wp_some in Hw as ([] & s1 & He & Hr1 & Hs1). destruct (IH s1 Hr1 Hok) as (s' & Hrun & Hr' & Hs').
  exists s'. split_and!; [|done|].
  - simpl. unfold mbind, M_bind. by rewrite He.
  - intros Hsl [Hn Hf]%Forall_cons. auto.
Qed.
Lemma initial_run_inv : run_inv gk_initial ∧ slack gk_initial = 0.
Proof. by apply empty_inv. Qed.

(** A state that a run of the library reaches. *)
Definition reachable (s : gk_state) : Prop := ∃ ops, Forall op_ok ops ∧ exec_all ops gk_initial = Some (tt, s).
Lemma reachable_inv s : reachable s → run_inv s.
Proof.
  intros (ops & Hok & Hrun). destruct (run_ok ops gk_initial) as (s' & Hrun' & Hr & _); [apply initial_run_inv|done|].
  congruence.
Qed.
End run.
