(* ===== verification/GkCacheProps.v ===== *)
(** The gatekeeper cache: its properties. *)
From Stdlib Require Import Sorting.Sorted Ascii.
From S2P Require Import Prelude DsTree DsTreeInv KeySeq FcmFilter FsmPolicy GkCache GkCacheInv GkCacheOps.
From S2P Require Import GkCacheAdd GkCacheFlow GkCacheRun GkFlush GkFlushThms.
Local Open Scope Z_scope.

Section props.
Context (fnmatch : string → string → bool) (inet_pton4 inet_pton6 : string → bool).
Abbreviation run_of := (exec_all fnmatch inet_pton4 inet_pton6).
Abbreviation reached := (reachable fnmatch inet_pton4 inet_pton6).

(** C8. Every sequence of calls of the library, with requests that have a device, a name
    and addresses of the right length, sizes below 2^31 and flush policies without wildcard
    operations (which fault, [FsmPolicyProps.fsm_wildcard_faults]) and with their sets not
    NULL, runs without a fault, whatever the functions of the C library answer: no member of the union is read that was not written, no counter
    outside the arrays is touched and no set is followed through NULL.  In the state reached
    every entry is in the tree of its kind under the key of its name and direction, the
    entries of each tree are in strictly ascending order, and the addresses of a flow have
    the length of its version. *)
Theorem gk_cache_well_typed ops : Forall op_ok ops →
  ∃ s, run_of ops gk_initial = Some (tt, s) ∧
    ∀ d, d ∈ per_device_tree s →
      (∀ f e, e ∈ attr_tree f d → typed f (attr e) ∧ ac_key e = get_attr_key (attr_name (attr e)) (ac_direction e)) ∧
      (∀ f, ks_sorted gkc_uint64_cmp ac_key (attr_tree f d)) ∧
      (∀ b, ks_sorted gkc_flow_entry_cmp id (flow_tree b d)) ∧
      (∀ b e, e ∈ flow_tree b d → flow_ok e).
Proof.
  intros Hok. destruct (run_ok fnmatch inet_pton4 inet_pton6 ops gk_initial) as (s & Hrun & [Hi _] & _); [apply initial_run_inv|done|].
  exists s. split; [done|]. intros d Hd. pose proof (proj1 (Forall_forall _ _) (inv_dev _ Hi) d Hd) as [As Ao Fs Fo _].
  split_and!; [|done|done|].
  - intros f e He. pose proof (proj1 (Forall_forall _ _) (Ao f) e He) as [? ?]. done.
  - intros b e He. exact (proj1 (Forall_forall _ _) (Fo b) e He).
Qed.

(** C32. The counter of entries never exceeds the size set and is never below the number of
    entries, so it does not wrap; as long as no policy flushed single entries it is exactly
    that number. *)
Theorem gk_cache_count ops s : Forall op_ok ops → run_of ops gk_initial = Some (tt, s) →
  devs_size (per_device_tree s) ≤ total_entry_count s ≤ GK_MAX_CACHE_ENTRIES s ∧
  (Forall (λ op, ¬ flushes_entries op) ops → total_entry_count s = devs_size (per_device_tree s)).
Proof.
  intros Hok Hrun. destruct initial_run_inv as [Hr0 Hs0].
  destruct (run_ok fnmatch inet_pton4 inet_pton6 ops gk_initial Hr0 Hok) as (s' & Hrun' & [Hi _] & Hs).
  assert (s' = s) as -> by congruence. pose proof (inv_slack _ Hi). pose proof (inv_max _ Hi). unfold slack in *.
  split; [lia|]. intros Hf. specialize (Hs Hs0 Hf). lia.
Qed.

(** The verdict of an entry as a lookup gives it. *)
Definition verdict_of (r : gk_attr_cache_interface) (e : gk_attr_cache_interface) : Prop :=
  ai_action r = wrapu 8 (ai_action e) ∧ ai_category_id r = ai_category_id e ∧
  ai_confidence_level r = ai_confidence_level e ∧ ai_categorized r = ai_categorized e ∧
  (is_Some (ai_gk_policy e) → ai_gk_policy r = ai_gk_policy e).
Lemma verdict_new t req hits entry name a : verdict_of (fill_request req hits (new_entry t entry name a)) entry.
Proof. unfold verdict_of. simpl. split_and!; try done. by intros [p ->]. Qed.

(** C12. In a cache that is initialised and has room, adding an entry whose key is not there
    succeeds, counts one entry and leaves all others as they are, and every lookup of this
    name and direction for the device, also as another kind of host name, then returns the
    verdict that was added; adding an entry whose key is there fails and leaves every verdict
    as it was, whatever verdict the new entry has. *)
Theorem gkc_add_lookup s entry mac f name :
  reached s → initialized s = true → total_entry_count s < GK_MAX_CACHE_ENTRIES s →
  ai_device_mac entry = Some mac → ai_attr_name entry = Some name → field_of (ai_attribute_type entry) = Some f →
  let key := get_attr_key name (ai_direction entry) in
  ∃ b entry' s1, gkc_add_attribute_entry entry s = Some ((b, entry'), s1) ∧
    match attr_view s mac f key with
    | None =>
        b = true ∧ total_entry_count s1 = total_entry_count s + 1 ∧
        (∀ m f' k, ¬ (m = mac ∧ f' = f ∧ k = key) → attr_view s1 m f' k = attr_view s m f' k) ∧
        (∀ req upd, ai_device_mac req = Some mac → field_of (ai_attribute_type req) = Some f →
           ai_attr_name req = Some name → ai_direction req = ai_direction entry →
           ∃ r s2, gkc_lookup_attribute_entry req upd s1 = Some ((true, r), s2) ∧ verdict_of r entry ∧ same_verdicts s1 s2)
    | Some _ => b = false ∧ total_entry_count s1 = total_entry_count s ∧ same_verdicts s s1
    end.
Proof.
  intros [Hi _]%reachable_inv Hn Hmax Hmac Hname Hf key.
  pose proof (add_attribute_spec s entry mac f name Hi Hn Hmac Hname Hf Hmax) as Hw.
  apply wp_some in Hw as ([b entry'] & s1 & Hrun & Hpost). exists b, entry', s1. split; [done|]. fold key in Hpost.
  destruct (attr_view s mac f key) as [e|] eqn:Hv.
  { destruct Hpost as [[= -> _] [_ _ Hsame Hc]]. done. }
  destruct Hpost as [[= -> _] [[Hi1 Hmgr Hc] (a & _ & He) Ho _]]. split_and!; [done|done|exact Ho|].
  intros req upd Hm' Hf' Hn' Hd'. assert (initialized s1 = true) as Hn1 by (rewrite (proj1 Hmgr); done).
  pose proof (lookup_attribute_spec s1 req upd mac Hi1 Hn1 Hm') as Hl.
  apply wp_some in Hl as (r & s2 & Hrun2 & Hpost2). rewrite Hf', Hn' in Hpost2. cbn [mbind option_bind] in Hpost2.
  rewrite Hd', He in Hpost2. destruct Hpost2 as [-> Ht]. eexists _, s2. split_and!; [done|apply verdict_new|].
  by apply (tp_same _ _ (touch_post_of _ _ _ Hi1 Hn1 Ht)).
Qed.

Lemma attr_expired_iff t e : gkc_attr_ttl_expired t e = bool_decide (ac_cache_ttl e ≤ t - ac_cache_ts e).
Proof. unfold gkc_attr_ttl_expired. case_bool_decide; destruct (Z.ltb_spec (t - ac_cache_ts e) (ac_cache_ttl e)); lia || done. Qed.
Lemma flow_expired_iff t e : gkc_flow_ttl_expired t e = bool_decide (fl_cache_ttl e ≤ t - fl_cache_ts e).
Proof. unfold gkc_flow_ttl_expired. case_bool_decide; destruct (Z.ltb_spec (t - fl_cache_ts e) (fl_cache_ttl e)); lia || done. Qed.

(** C34. [gkc_ttl_cleanup] removes exactly the entries and flows that are as old as their
    time to live or older, and counts them out. *)
Theorem gkc_ttl_cleanup_exact s : reached s → initialized s = true →
  ∃ s', gkc_ttl_cleanup s = Some (tt, s') ∧
    (∀ m f k, attr_view s' m f k = e ← attr_view s m f k; if bool_decide (ac_cache_ttl e ≤ now s - ac_cache_ts e) then None else Some e) ∧
    (∀ m b fl, flow_view s' m b fl = e ← flow_view s m b fl; if bool_decide (fl_cache_ttl e ≤ now s - fl_cache_ts e) then None else Some e) ∧
    total_entry_count s - total_entry_count s' = devs_size (per_device_tree s) - devs_size (per_device_tree s').
Proof.
  intros [Hi _]%reachable_inv Hn. pose proof (ttl_cleanup_spec s Hi Hn) as Hw.
  apply wp_some in Hw as ([] & s' & Hrun & _ & (_ & _ & _ & Hsl) & Hd). exists s'. split; [done|].
  assert (∀ m, dev_view s' m = ttl_dev (now s) <$> dev_view s m) as Hv.
  { intros m. unfold dev_view. rewrite Hd. by apply ks_get_fmap. }
  assert (∀ m d, dev_view s m = Some d → dev_ok d) as Hok.
  { intros m d Hm. apply ks_get_some in Hm as [Hm _]. exact (proj1 (Forall_forall _ _) (inv_dev _ Hi) d Hm). }
  split_and!.
  - intros m f k. unfold attr_view. rewrite Hv. destruct (dev_view s m) as [d|] eqn:E; [|done]. simpl. unfold ttl_dev.
    rewrite (proj1 (keep_dev_trees _ _ d)). unfold kept. rewrite ks_get_filter by first [apply _|apply (Hok m d E)].
    destruct (ks_get _ _ _ _) as [e|]; [|done]. simpl. rewrite <- attr_expired_iff.
    by destruct (gkc_attr_ttl_expired (now s) e).
  - intros m b fl. unfold flow_view. rewrite Hv. destruct (dev_view s m) as [d|] eqn:E; [|done]. simpl. unfold ttl_dev.
    rewrite (proj2 (keep_dev_trees _ _ d)). unfold kept. rewrite ks_get_filter by first [apply _|apply (Hok m d E)].
    destruct (ks_get _ _ _ _) as [e|]; [|done]. simpl. rewrite <- flow_expired_iff.
    by destruct (gkc_flow_ttl_expired (now s) e).
  - unfold slack in Hsl. lia.
Qed.

(** C33. A policy with the action flush_cache removes exactly the entries of the selected
    devices that its rules for names, applications and addresses hit, or the selected
    devices if it has no such rule, and returns how many entries these are.  The rules hit
    an entry by its name (exactly, from the right or from the left), its risk and its
    category ([rule_hits]).  The counter of the cache follows only when whole devices are
    removed: after the removal of single entries it keeps its value, so a cache that was
    full refuses every new entry although it has room.

    The hypotheses on the rules exclude what the code does otherwise: the wildcard
    operations (they fault, [FsmPolicyProps.fsm_wildcard_faults]), missing sets (NULL), sets
    of categories (compared with the confidence level, [gkc_flush_category_by_confidence]),
    an exact rule with an entry that a cached name is only the start of (it hits that name,
    [gkc_flush_starts]), and the operation "true", which the database cannot give. *)
Theorem gkc_flush_rules_exact s rules : reached s → initialized s = true → rules_wf rules → rules_plain rules →
  (∀ m f k e, attr_view s m f k = Some e → name_plain rules f (attr_name (attr e))) →
  ∃ n s', gkc_flush_client fnmatch inet_pton4 inet_pton6 (Some (FSM_FLUSH_CACHE, rules)) s = Some (n, s') ∧
    (∀ m f k e, attr_view s' m f k = Some e ↔
       attr_view s m f k = Some e ∧ ¬ entry_flushed inet_pton4 inet_pton6 rules m f e) ∧
    (∀ m b fl, (mac_selected rules m ∧ whole rules = true → flow_view s' m b fl = None) ∧
       (¬ (mac_selected rules m ∧ whole rules = true) → flow_view s' m b fl = flow_view s m b fl)) ∧
    n = devs_size (per_device_tree s) - devs_size (per_device_tree s') ∧
    total_entry_count s' = (if whole rules then total_entry_count s - n else total_entry_count s) ∧
    (whole rules = false → total_entry_count s = GK_MAX_CACHE_ENTRIES s →
     ∀ e, gkc_add_attribute_entry e s' = Some ((false, e), s')).
Proof.
  intros [Hi Hm]%reachable_inv Hn Hwf Hplain Hnames. assert (total_entry_count s < 2 ^ 31) as H31 by (pose proof (inv_max _ Hi); lia).
  pose proof (flush_devices_spec fnmatch inet_pton4 inet_pton6 rules Hwf (length (per_device_tree s)) 0 0 s Hi Hn eq_refl H31) as Hw.
  apply wp_some in Hw as (n & s' & Hrun & [_ Hn' Hm' _ Hc] & Hd & Hr). exists n, s'. cbn [take drop app] in Hd.
  split_and!.
  - simpl. unfold gkc_flush_rules, gets, mbind, M_bind. by rewrite Hn.
  - intros m f k e. refine (flushed_attr_view _ _ rules s s' m f k e Hi Hd Hwf Hplain _). intros e' He. by eapply Hnames.
  - intros m b fl. exact (flushed_flow_view _ _ rules s s' m b fl Hi Hd Hwf).
  - lia.
  - rewrite Hc. destruct (whole rules); lia.
  - intros Hwh Hfull e. rewrite Hwh in Hc. unfold gkc_add_attribute_entry, gets, mbind, M_bind.
    rewrite Hn', Hn. cbn. rewrite Hm'. destruct (Z.leb_spec (GK_MAX_CACHE_ENTRIES s) (total_entry_count s')); [done|lia].
Qed.

(** The set of categories of a rule is searched for the confidence level of an entry, not
    for its category. *)
Theorem gkc_flush_category_by_confidence r e out cmp names name_of l :
  cat_rule_present r = true → cat_op r = CAT_OP_IN → categories r = Some l → wraps 32 (ac_confidence_level e) ∉ l →
  ∀ s : gk_state, need_delete (λ _, true) (Some (category_of r)) out cmp names name_of e s = Some (false, s).
Proof.
  intros Hp Hop Hl Hn s. unfold need_delete, category_of, mbind, M_bind. rewrite Hp, Hop, Hl.
  cbn [negb get_cat_cmp]. unfold cat_cmp_in, cat_cmp_eval, mbind, M_bind. cbn [deref mret M_ret].
  by rewrite bool_decide_eq_false_2.
Qed.
(** The comparison for equality of names holds when the cached name is the start of the
    name of the rule; applications and addresses are compared in the same way. *)
Theorem gkc_flush_starts name rest (s : gk_state) :
  hostname_cmp name (name +:+ rest) s = Some (true, s) ∧ app_cmp name (name +:+ rest) s = Some (true, s) ∧
  ip_cmp name (name +:+ rest) s = Some (true, s).
Proof.
  assert (starts name (name +:+ rest) = true) as Hs by (apply FsmPolicyRun.prefix_app; by exists rest).
  unfold hostname_cmp, app_cmp, ip_cmp. by rewrite Hs.
Qed.

(** The comparison of flows looks at four bytes of an address in both versions: once an
    IPv6 flow is cached, the lookup of any IPv6 flow of the device with the same direction,
    protocol and ports whose addresses have the same first four bytes is a hit. *)
Theorem gkc_ipv6_flows_alias s req req' mac :
  reached s → initialized s = true → total_entry_count s < GK_MAX_CACHE_ENTRIES s →
  flow_req_ok req mac → flow_req_ok req' mac → fi_ip_version req = 6 → fi_ip_version req' = 6 →
  fi_direction req' = fi_direction req → fi_protocol req' = fi_protocol req →
  fi_src_port req' = fi_src_port req → fi_dst_port req' = fi_dst_port req →
  take 4 <$> fi_src_ip_addr req' = take 4 <$> fi_src_ip_addr req →
  take 4 <$> fi_dst_ip_addr req' = take 4 <$> fi_dst_ip_addr req →
  ∃ b r s1, gkc_add_flow_entry req s = Some ((b, r), s1) ∧
    ∀ upd, ∃ r' s2, gkc_lookup_flow req' upd s1 = Some ((true, r'), s2).
Proof.
  intros [Hi _]%reachable_inv Hn Hmax Hreq Hreq' Hv Hv' Hdir Hpr Hsp Hdp Hsrc Hdst.
  pose proof (add_flow_spec s req mac Hi Hn Hreq Hmax) as Hw. apply wp_some in Hw as ([b r] & s1 & Hrun & Hpost).
  exists b, r, s1. split; [done|]. intros upd. cbv zeta in Hpost.
  assert (gkc_flow_entry_cmp (flow_of req) (flow_of req') = 0) as Hz.
  { apply gkc_flow_entry_cmp_zero. unfold flow_ipl. simpl. rewrite Hv, Hv', Hpr, Hsp, Hdp. simpl.
    destruct Hreq as [_ _ _ (a1 & Ha1 & _) (b1 & Hb1 & _)], Hreq' as [_ _ _ (a2 & Ha2 & _) (b2 & Hb2 & _)].
    rewrite Ha1, Ha2 in Hsrc. rewrite Hb1, Hb2 in Hdst. rewrite Ha1, Ha2, Hb1, Hb2. by simplify_eq/=. }
  assert (∀ st e, gk_inv st → flow_view st mac (is_inbound (fi_direction req)) (flow_of req) = Some e →
    is_Some (flow_view st mac (is_inbound (fi_direction req')) (flow_of req'))) as Hmove.
  { intros st e Hst. rewrite Hdir. unfold flow_view. destruct (dev_view st mac) as [d|] eqn:Hd; [|done]. simpl.
    apply ks_get_some in Hd as [Hd _]. pose proof (proj1 (Forall_forall _ _) (inv_dev _ Hst) d Hd) as Hok.
    intros He. apply ks_get_some in He as [He Hek]. exists e.
    eapply ks_get_elem; [apply _|apply Hok|done|]. by eapply (cmp_eq_trans gkc_flow_entry_cmp). }
  assert (gk_inv s1 ∧ initialized s1 = true ∧ is_Some (flow_view s1 mac (is_inbound (fi_direction req)) (flow_of req))) as (Hi1 & Hn1 & [e He]).
  { destruct (flow_view s mac _ (flow_of req)) as [e|] eqn:Hvw.
    - destruct Hpost as [_ [Hi1 Hmgr Hsame _]]. split_and!; [done|by rewrite (proj1 Hmgr)|].
      pose proof (proj2 Hsame mac (is_inbound (fi_direction req)) (flow_of req)) as Hs. rewrite Hvw in Hs. simpl in Hs.
      destruct (flow_view s1 mac _ _); [done|discriminate].
    - destruct Hpost as (_ & [Hi1 Hmgr _] & He & _). split_and!; [done|by rewrite (proj1 Hmgr)|by rewrite He]. }
  destruct (Hmove s1 e Hi1 He) as [e' He']. pose proof (lookup_flow_spec s1 req' upd mac Hi1 Hn1 Hreq') as Hl.
  apply wp_some in Hl as (r' & s2 & Hrun2 & Hpost2). rewrite He' in Hpost2. destruct Hpost2 as [-> _]. eauto.
Qed.
End props.

(** The key of a name differs between any two directions, however long the name: the
    direction comes first in the string that is hashed, and each step of the hash is a
    bijection of 64-bit words. *)
Theorem get_attr_key_direction name d1 d2 :
  d1 ∈ [GKC_FLOW_DIRECTION_UNSPECIFIED; GKC_FLOW_DIRECTION_OUTBOUND; GKC_FLOW_DIRECTION_INBOUND; GKC_FLOW_DIRECTION_LAN2LAN] →
  d2 ∈ [GKC_FLOW_DIRECTION_UNSPECIFIED; GKC_FLOW_DIRECTION_OUTBOUND; GKC_FLOW_DIRECTION_INBOUND; GKC_FLOW_DIRECTION_LAN2LAN] →
  get_attr_key name d1 = get_attr_key name d2 ↔ d1 = d2.
Proof.
  intros H1 H2. assert (0 ≤ d1 < 10 ∧ 0 ≤ d2 < 10) as [? ?].
  { unfold GKC_FLOW_DIRECTION_UNSPECIFIED, GKC_FLOW_DIRECTION_OUTBOUND, GKC_FLOW_DIRECTION_INBOUND, GKC_FLOW_DIRECTION_LAN2LAN in *.
    set_solver by lia. }
  split; [by apply get_attr_key_inj|congruence].
Qed.

(** *** Witnesses *)

Definition demo_mac : list Z := [2; 0; 0; 0; 0; 1].
Definition demo_entry (name : string) (action : Z) : gk_attr_cache_interface :=
  AttrReq (Some demo_mac) GK_CACHE_REQ_TYPE_FQDN (Some name) 60 action GKC_FLOW_DIRECTION_OUTBOUND (Some "policy") 7 3 0
    (Some (Redirect "10.0.0.1" "fd00::1" 5 true)) 1.
Definition demo_flow (last : Z) (action : Z) : gkc_ip_flow_interface :=
  FlowReq (Some demo_mac) (Some [32; 1; 13; 184; 0; 0; 0; 0; 0; 0; 0; 0; 0; 0; 0; last])
    (Some [32; 1; 13; 184; 0; 0; 0; 0; 0; 0; 0; 0; 0; 0; 1; 1]) 1000 443 6 6 GKC_FLOW_DIRECTION_OUTBOUND action
    None 0 0 0 60.
Definition demo_rules : flush_rules :=
  FlushRules (Rules false MAC_OP_IN None true FQDN_OP_IN (Some [Some "example.com"]) false CAT_OP_IN None
    false RISK_OP_EQ 0 false IP_OP_IN None) false APP_OP_IN None.
Definition demo_ops : list gk_op :=
  [OpInit; OpSetSize 2; OpAddAttr (demo_entry "example.com" 1); OpAddFlow (demo_flow 1 1); OpTick 10].
Definition no_match : string → string → bool := λ _ _, false.
Definition is_addr : string → bool := λ _, true.
Definition demo_state : gk_state :=
  match exec_all no_match is_addr is_addr demo_ops gk_initial with Some (_, s) => s | None => gk_initial end.
Definition demo_empty : gk_state := Gk true 0 [] 100000 0.

Lemma demo_flow_ok last action : flow_req_ok (demo_flow last action) demo_mac.
Proof.
  split; [done|by right|by right|..]; (eexists; split; [done|]); unfold ip_len; simpl; lia.
Qed.
Lemma demo_ops_ok : Forall op_ok demo_ops.
Proof. repeat constructor; try done; try (by eexists). intros _. exists demo_mac. apply demo_flow_ok. Qed.
Lemma demo_run : exec_all no_match is_addr is_addr demo_ops gk_initial = Some (tt, demo_state).
Proof. by vm_compute. Qed.
Lemma demo_reached : reachable no_match is_addr is_addr demo_state.
Proof. exists demo_ops. split; [apply demo_ops_ok|apply demo_run]. Qed.
Lemma empty_reached : reachable no_match is_addr is_addr demo_empty.
Proof. exists [OpInit]. split; [by repeat constructor|done]. Qed.

Lemma gk_cache_well_typed_witness : ∃ s, exec_all no_match is_addr is_addr demo_ops gk_initial = Some (tt, s) ∧
  length (per_device_tree s) = 1%nat.
Proof.
  destruct (gk_cache_well_typed no_match is_addr is_addr demo_ops demo_ops_ok) as (s & Hs & _).
  exists s. split; [exact Hs|]. rewrite demo_run in Hs. injection Hs as <-. by vm_compute.
Defined.
Lemma gk_cache_count_witness : devs_size (per_device_tree demo_state) ≤ total_entry_count demo_state ≤ 2 ∧
  total_entry_count demo_state = devs_size (per_device_tree demo_state).
Proof.
  destruct (gk_cache_count no_match is_addr is_addr demo_ops demo_state demo_ops_ok demo_run) as [H1 H2].
  split; [exact H1|]. apply H2. repeat constructor; intros [].
Defined.
Lemma gkc_add_lookup_witness : ∃ b e s1, gkc_add_attribute_entry (demo_entry "example.com" 1) demo_empty = Some ((b, e), s1) ∧ b = true.
Proof.
  destruct (gkc_add_lookup no_match is_addr is_addr demo_empty (demo_entry "example.com" 1) demo_mac F_hostname "example.com"
    empty_reached eq_refl eq_refl eq_refl eq_refl eq_refl) as (b & e & s1 & Hrun & Hb & _). exists b, e, s1. split; [exact Hrun|exact Hb].
Defined.
Lemma gkc_ttl_cleanup_exact_witness : ∃ s', gkc_ttl_cleanup demo_state = Some (tt, s') ∧
  total_entry_count demo_state - total_entry_count s' = devs_size (per_device_tree demo_state) - devs_size (per_device_tree s').
Proof.
  destruct (gkc_ttl_cleanup_exact no_match is_addr is_addr demo_state demo_reached eq_refl) as (s' & H1 & _ & _ & H2).
  exists s'. split; [exact H1|exact H2].
Defined.
Lemma demo_rules_wf : rules_wf demo_rules.
Proof. split; try done. intros _. split; [|done]. eexists. split; [done|]. repeat constructor. by eexists. Qed.
Lemma demo_rules_plain : rules_plain demo_rules.
Proof. by split. Qed.
Definition demo_key : Z := get_attr_key "example.com" GKC_FLOW_DIRECTION_OUTBOUND.
Lemma demo_names_plain m k e : attr_view demo_state m F_hostname k = Some e → FcmFilterEval.plain_set (attr_name (attr e)) (rule_names demo_rules F_hostname).
Proof.
  unfold attr_view. destruct (dev_view demo_state m) as [d|] eqn:Hd; [|done]. cbn [mbind option_bind]. intros He.
  apply ks_get_some in Hd as [Hd _]. apply ks_get_some in He as [He _].
  intros l t [= <-] ->%list_elem_of_singleton. exists "example.com". split; [done|]. intros _.
  vm_compute in Hd. apply list_elem_of_singleton in Hd as ->. vm_compute in He. by apply list_elem_of_singleton in He as ->.
Qed.
Lemma gkc_flush_rules_exact_witness : ∃ n s',
  gkc_flush_client no_match is_addr is_addr (Some (FSM_FLUSH_CACHE, demo_rules)) demo_state = Some (n, s') ∧
  attr_view s' demo_mac F_hostname demo_key = None ∧ total_entry_count s' = 2 ∧ ∀ e, gkc_add_attribute_entry e s' = Some ((false, e), s').
Proof.
  destruct (gkc_flush_rules_exact no_match is_addr is_addr demo_state demo_rules demo_reached eq_refl demo_rules_wf demo_rules_plain)
    as (n & s' & H1 & H2 & _ & _ & H3 & H4).
  { intros m f k e He Hon _. destruct f; try done. by apply (demo_names_plain m k). }
  exists n, s'. split; [exact H1|]. split_and!; [|exact H3|exact (H4 eq_refl eq_refl)].
  destruct (attr_view s' demo_mac F_hostname demo_key) as [e|] eqn:He; [|done]. exfalso.
  apply H2 in He as [He Hno]. apply Hno. split; [done|right]. vm_compute in He. injection He as <-.
  split; [done|]. split; [|done]. eexists _, _. split; [done|]. split; [left|done].
Defined.
Lemma gkc_ipv6_flows_alias_witness : ∃ b r s1, gkc_add_flow_entry (demo_flow 1 2) demo_empty = Some ((b, r), s1) ∧
  ∃ r' s2, gkc_lookup_flow (demo_flow 99 2) true s1 = Some ((true, r'), s2).
Proof.
  destruct (gkc_ipv6_flows_alias no_match is_addr is_addr demo_empty (demo_flow 1 2) (demo_flow 99 2) demo_mac
    empty_reached eq_refl eq_refl (demo_flow_ok 1 2) (demo_flow_ok 99 2) eq_refl eq_refl eq_refl eq_refl eq_refl eq_refl eq_refl eq_refl)
    as (b & r & s1 & H1 & H2). exists b, r, s1. split; [exact H1|exact (H2 true)].
Defined.
Lemma get_attr_key_direction_witness :
  get_attr_key "example.com" GKC_FLOW_DIRECTION_OUTBOUND = get_attr_key "example.com" GKC_FLOW_DIRECTION_INBOUND ↔ 1 = 2.
Proof.
  apply (get_attr_key_direction "example.com"); [apply list_elem_of_In; by vm_compute; auto|apply list_elem_of_In; by vm_compute; auto].
Defined.

(** The first flow that is blocked sets the counter of blocked flows of its device to
    2^64 - 1: the counter is decremented. *)
Lemma gkc_add_flow_blocked_wraps : ∃ r s1 s2, gkc_add_flow_entry (demo_flow 1 1) demo_empty = Some ((true, r), s1) ∧
  gkc_get_blocked_counter (Some demo_mac) GK_CACHE_REQ_TYPE_OUTBOUND s1 = Some (2 ^ 64 - 1, s2).
Proof. eexists _, _, _. split; vm_compute; reflexivity. Qed.
(** The deletion of a name ignores the direction of the request: with an inbound and an
    outbound entry of one name, the request for one of them deletes the entry whose key
    comes first, which may be the other one. *)
Definition demo_dir (name : string) (direction action : Z) : gk_attr_cache_interface :=
  AttrReq (Some demo_mac) GK_CACHE_REQ_TYPE_URL (Some name) 60 action direction None 7 3 0 None 1.
Lemma gkc_del_ignores_direction :
  let inb := demo_dir "u" GKC_FLOW_DIRECTION_INBOUND 1 in
  let out := demo_dir "u" GKC_FLOW_DIRECTION_OUTBOUND 2 in
  let m := gkc_add_attribute_entry inb;; gkc_add_attribute_entry out;;
           gkc_del_attribute inb;; gkc_lookup_attribute_entry inb false in
  let m' := gkc_add_attribute_entry inb;; gkc_add_attribute_entry out;;
            gkc_del_attribute out;; gkc_lookup_attribute_entry out false in
  (fst <$> run m demo_empty = Some true) ∨ (fst <$> run m' demo_empty = Some true).
Proof. vm_compute. auto. Qed.
