(* ===== verification/DnsCache.v ===== *)
(** The cache of verdicts by address, src/lib/dns_cache/src/dns_cache.c.

    [dns_state] is the manager [struct dns_cache_mgr] with the clock.  Its tree is the
    sequence of its entries in the order of the comparison function (KeySeq.v); an entry
    is named by its position.  [None] is a fault: a NULL pointer followed, an access
    outside an array, or a member of the union read that was not written.  The addresses
    inside of a [sockaddr_storage] are read at their offsets. *)
From Stdlib Require Import Sorting.Sorted.
From S2P Require Import Prelude DsTree DsTreeInv KeySeq.
Local Open Scope Z_scope.

Definition AF_INET : Z := 2.
Definition AF_INET6 : Z := 10.
Definition SERVICE_PROVIDER_MAX_ELEMS : nat := 3.
Definition URL_REPORT_MAX_ELEMS : nat := 8.
Definition IP2ACTION_BC_SVC : Z := 0.
Definition IP2ACTION_WP_SVC : Z := 1.
Definition IP2ACTION_GK_SVC : Z := 2.

(** A [struct sockaddr_storage]: the family and the bytes behind it.  There the address
    of an AF_INET socket follows the port, that of an AF_INET6 socket follows the port
    and the flow information. *)
Record sockaddr_storage := SockAddr { ss_family : Z; ss_data : list Z }.
Definition sin_addr (a : sockaddr_storage) : list Z := drop 2 (ss_data a).
Definition sin6_addr (a : sockaddr_storage) : list Z := drop 6 (ss_data a).

Record ip2action_bc_info := BcInfo { confidence_levels : list Z; reputation : Z }.
Record ip2action_wb_info := WbInfo { risk_level : Z }.
Record ip2action_gk_info := GkInfo { confidence_level : Z; category_id : Z; gk_policy : option string }.
(** The union; [info_zero] is a union whose memory is zero, where every member can be read. *)
Inductive cache_info :=
  info_zero | bc_info (i : ip2action_bc_info) | wb_info (i : ip2action_wb_info) | gk_info (i : ip2action_gk_info).
Definition as_bc (c : cache_info) : option ip2action_bc_info :=
  match c with info_zero => Some (BcInfo (replicate URL_REPORT_MAX_ELEMS 0) 0) | bc_info i => Some i | _ => None end.
Definition as_wb (c : cache_info) : option ip2action_wb_info :=
  match c with info_zero => Some (WbInfo 0) | wb_info i => Some i | _ => None end.
Definition as_gk (c : cache_info) : option ip2action_gk_info :=
  match c with info_zero => Some (GkInfo 0 0 None) | gk_info i => Some i | _ => None end.

(** [struct ip2action] and [struct ip2action_req]; pointers that may be NULL are options.
    [ip_tbl] is what can be read from the pointer on. *)
Record ip2action := Ip2Action {
  device_mac : list Z; ip_addr : sockaddr_storage; action : Z; cache_ttl : Z; cache_ts : Z;
  af_family : Z; ip_tbl : option (list Z); policy_idx : Z; service_id : Z; nelems : nat;
  redirect_flag : bool; categories : list Z; cat_unknown_to_service : bool; info : cache_info }.
Record ip2action_req := Ip2ActionReq {
  rq_device_mac : option (list Z); rq_ip_addr : option sockaddr_storage; rq_cache_ttl : Z; rq_action : Z;
  rq_policy_idx : Z; rq_service_id : Z; rq_nelems : nat; rq_redirect_flag : bool; rq_categories : list Z;
  rq_cat_unknown_to_service : bool; rq_info : cache_info }.

(** [struct dns_cache_mgr] *)
Record dns_state := Dns {
  dns_initialized : bool; refcount : Z; cache_hit_count : list Z; ip2a_tree : list ip2action; entries : Z; clock : Z }.
Abbreviation DNS := (M dns_state).
Definition with_mgr (i : bool) (n : Z) (s : dns_state) : dns_state :=
  Dns i n (cache_hit_count s) (ip2a_tree s) (entries s) (clock s).
Definition with_hits f (s : dns_state) : dns_state :=
  Dns (dns_initialized s) (refcount s) (f (cache_hit_count s)) (ip2a_tree s) (entries s) (clock s).
Definition with_ip2a f (s : dns_state) : dns_state :=
  Dns (dns_initialized s) (refcount s) (cache_hit_count s) (f (ip2a_tree s)) (entries s) (clock s).
Definition with_entries f (s : dns_state) : dns_state :=
  Dns (dns_initialized s) (refcount s) (cache_hit_count s) (ip2a_tree s) (f (entries s)) (clock s).

(** *** Keys *)

(** The members of a [struct ip2action] that the comparison reads. *)
Record i2a_key := I2aKey { k_mac : list Z; k_family : Z; k_tbl : option (list Z) }.
Definition key_of (e : ip2action) : i2a_key := I2aKey (device_mac e) (af_family e) (ip_tbl e).
(** [dns_cache_ip2action_cmp]; the structures have as many bytes as the loop reads. *)
Definition dns_cache_ip2action_cmp (a b : i2a_key) : option Z :=
  let mac_cmp := memcmp (k_mac a) (k_mac b) in
  if negb (mac_cmp =? 0) then Some mac_cmp else
  let fdiff := k_family a - k_family b in
  if negb (fdiff =? 0) then Some fdiff else
  let len := if k_family a =? AF_INET then 4%nat else 16%nat in
  i_a ← k_tbl a;
  i_b ← k_tbl b;
  Some (memcmp (take len i_a) (take len i_b)).
(** The order behind it, without the NULL pointers. *)
Definition key_bytes (k : i2a_key) : list Z :=
  from_option (take (if k_family k =? AF_INET then 4%nat else 16%nat)) [] (k_tbl k).
Definition i2a_order : i2a_key → i2a_key → Z :=
  cmp_lex (λ a b, memcmp (k_mac a) (k_mac b))
    (cmp_lex (λ a b, k_family a - k_family b) (λ a b, memcmp (key_bytes a) (key_bytes b))).

(** [dns_cache_set_ip]: the family and the pointer to the address. *)
Definition dns_cache_set_ip (af : Z) (tbl : option (list Z)) (a : sockaddr_storage) : Z * option (list Z) :=
  let af := if af =? 0 then ss_family a else af in
  (af, if af =? AF_INET then Some (sin_addr a) else if af =? AF_INET6 then Some (sin6_addr a) else tbl).

(** [ds_tree_find] on the tree.  The search meets the entry with the mac and the family of
    the key, if there is one, so it faults if the comparison with some entry does. *)
Definition i2a_find (k : i2a_key) : DNS (option nat) :=
  l ← gets ip2a_tree;
  if forallb (λ e, bool_decide (is_Some (dns_cache_ip2action_cmp (key_of e) k))) l then mret (ks_find i2a_order key_of k l)
  else fault.
Definition i2a_at (p : nat) : DNS ip2action := l ← gets ip2a_tree; deref (l !! p).
Definition incr_entries : DNS unit := modify (with_entries (λ n, wraps 32 (n + 1))).
Definition decr_entries : DNS unit := modify (with_entries (λ n, wraps 32 (n - 1))).

(** *** The manager *)

(** [dns_cache_init_mgr], [dns_cache_init] *)
Definition dns_cache_init_mgr : DNS unit :=
  init ← gets dns_initialized;
  n ← gets refcount;
  if (init : bool) then modify (with_mgr true (wrapu 8 (n + 1)))
  else modify (with_ip2a (λ _, []));; modify (with_mgr true (wrapu 8 (n + 1))).
Definition dns_cache_init : DNS bool := dns_cache_init_mgr;; mret true.
(** The loops that remove entries on their way through the tree; [gone] says which. *)
Fixpoint i2a_remove_loop (gone : ip2action → bool) (l : list ip2action) : DNS (list ip2action) :=
  match l with
  | [] => mret []
  | e :: l =>
      if gone e then decr_entries;; i2a_remove_loop gone l
      else l ← i2a_remove_loop gone l; mret (e :: l)
  end.
(** [dns_cache_cleanup] *)
Definition dns_cache_cleanup : DNS unit :=
  init ← gets dns_initialized;
  if negb init then mret tt
  else l ← gets ip2a_tree; l ← i2a_remove_loop (λ _, true) l; modify (with_ip2a (λ _, l)).
(** [dns_cache_cleanup_mgr] *)
Definition dns_cache_cleanup_mgr : DNS unit :=
  init ← gets dns_initialized;
  if negb init then mret tt else
  n ← gets refcount;
  let n := wrapu 8 (n - 1) in
  modify (with_mgr true n);;
  if negb (n =? 0) then mret tt else
  dns_cache_cleanup;;
  modify (with_hits (λ _, replicate SERVICE_PROVIDER_MAX_ELEMS 0));;
  modify (with_mgr false n).

(** *** Entries *)

(** [dns_cache_update_ip2action] *)
Definition dns_cache_update_ip2action (ts : Z) (to_upd : ip2action_req) (e : ip2action) : ip2action :=
  Ip2Action (device_mac e) (ip_addr e) (rq_action to_upd) (rq_cache_ttl to_upd) ts (af_family e) (ip_tbl e)
    (policy_idx e) (service_id e) (nelems e) (rq_redirect_flag to_upd) (categories e) (cat_unknown_to_service e) (info e).
(** [dns_cache_lookup_ip2action] *)
Definition req_key (mac : list Z) (a : sockaddr_storage) : i2a_key :=
  let '(af, tbl) := dns_cache_set_ip 0 None a in I2aKey mac af tbl.
Definition dns_cache_lookup_ip2action (req : option ip2action_req) : DNS (option nat) :=
  match req with
  | None => mret None
  | Some req =>
      match rq_ip_addr req, rq_device_mac req with
      | Some a, Some mac => i2a_find (req_key mac a)
      | _, _ => mret None
      end
  end.

(** The loops that copy [n] elements from one array to another. *)
Definition copy_elems (n : nat) (dst src : list Z) : option (list Z) :=
  if (n <=? length dst)%nat && (n <=? length src)%nat then Some (take n src ++ drop n dst) else None.
(** [dns_cache_set_wb_cache_entry], [dns_cache_set_bc_cache_entry],
    [dns_cache_set_gk_cache_entry] *)
Definition dns_cache_set_wb_cache_entry (dst src : ip2action_wb_info) : bool * ip2action_wb_info :=
  if risk_level src =? 0 then (false, dst) else (true, WbInfo (risk_level src)).
Definition dns_cache_set_bc_cache_entry (dst src : ip2action_bc_info) (n : nat) : option (bool * ip2action_bc_info) :=
  if reputation src =? 0 then Some (false, dst)
  else if (n =? 0)%nat then Some (false, BcInfo (confidence_levels dst) (reputation src))
  else l ← copy_elems n (confidence_levels dst) (confidence_levels src); Some (true, BcInfo l (reputation src)).
Definition dns_cache_set_gk_cache_entry (dst src : ip2action_gk_info) : bool * ip2action_gk_info :=
  (true, GkInfo (confidence_level src) (category_id src)
           (match gk_policy src with Some p => Some p | None => gk_policy dst end)).
(** The three-way choice by the service that copies from one union to another. *)
Definition set_cache_info (service : Z) (n : nat) (dst src : cache_info) : option (bool * cache_info) :=
  if service =? IP2ACTION_BC_SVC then
    d ← as_bc dst; r ← as_bc src; '(rc, i) ← dns_cache_set_bc_cache_entry d r n; Some (rc, bc_info i)
  else if service =? IP2ACTION_WP_SVC then
    d ← as_wb dst; r ← as_wb src; let '(rc, i) := dns_cache_set_wb_cache_entry d r in Some (rc, wb_info i)
  else if service =? IP2ACTION_GK_SVC then
    d ← as_gk dst; r ← as_gk src; let '(rc, i) := dns_cache_set_gk_cache_entry d r in Some (rc, gk_info i)
  else Some (false, dst).

(** [dns_cache_alloc_ip2action] *)
Definition dns_cache_alloc_ip2action (to_add : ip2action_req) : DNS (option ip2action) :=
  mac ← deref (rq_device_mac to_add);
  a ← deref (rq_ip_addr to_add);
  ts ← gets clock;
  cats ← deref (copy_elems (rq_nelems to_add) (replicate URL_REPORT_MAX_ELEMS 0) (rq_categories to_add));
  '(rc, i) ← deref (set_cache_info (rq_service_id to_add) (rq_nelems to_add) info_zero (rq_info to_add));
  if negb rc then mret None else
  let '(af, tbl) := dns_cache_set_ip 0 None a in
  mret (Some (Ip2Action mac a (rq_action to_add) (rq_cache_ttl to_add) ts af tbl (rq_policy_idx to_add)
    (rq_service_id to_add) (rq_nelems to_add) (rq_redirect_flag to_add) cats (rq_cat_unknown_to_service to_add) i)).
(** [dns_cache_add_entry] *)
Definition dns_cache_add_entry (to_add : option ip2action_req) : DNS bool :=
  init ← gets dns_initialized;
  match to_add with
  | None => mret false
  | Some req =>
      if negb init then mret false else
      i2a ← dns_cache_lookup_ip2action to_add;
      match i2a with
      | Some p =>
          ts ← gets clock;
          modify (with_ip2a (alter (dns_cache_update_ip2action ts req) p));;
          mret true
      | None =>
          e ← dns_cache_alloc_ip2action req;
          match e with
          | None => mret false
          | Some e => incr_entries;; modify (with_ip2a (ks_insert i2a_order key_of e));; mret true
          end
      end
  end.
(** [dns_cache_del_entry] *)
Definition dns_cache_del_entry (to_del : option ip2action_req) : DNS bool :=
  init ← gets dns_initialized;
  if negb init then mret false else
  i2a ← dns_cache_lookup_ip2action to_del;
  match i2a with
  | None => mret true
  | Some p => modify (with_ip2a (delete p));; decr_entries;; mret true
  end.
(** [dns_cache_ttl_cleanup] *)
Definition dns_ttl_expired (now : Z) (e : ip2action) : bool := negb (now - cache_ts e <? cache_ttl e).
Definition dns_cache_ttl_cleanup : DNS bool :=
  init ← gets dns_initialized;
  if negb init then mret false else
  now ← gets clock;
  l ← gets ip2a_tree;
  l ← i2a_remove_loop (dns_ttl_expired now) l;
  modify (with_ip2a (λ _, l));;
  mret true.

(** *** Lookups *)

(** [dns_cache_ip2action_lookup]: the result and the request that was filled in.  What was
    written before the service is not recognised stays written. *)
Definition dns_cache_ip2action_lookup (req : option ip2action_req) : DNS (bool * option ip2action_req) :=
  match req with
  | None => mret (false, None)
  | Some r =>
      i2a ← dns_cache_lookup_ip2action req;
      match i2a with
      | None => mret (false, req)
      | Some p =>
          e ← i2a_at p;
          hits ← gets cache_hit_count;
          (if cat_unknown_to_service e then mret tt
           else if (0 <=? service_id e) && (service_id e <? Z.of_nat (length hits)) then
             modify (with_hits (alter (λ n, wrapu 32 (n + 1)) (Z.to_nat (service_id e))))
           else fault);;
          cats ← deref (copy_elems (nelems e) (rq_categories r) (categories e));
          '(_, i) ← deref (set_cache_info (service_id e) (nelems e) (rq_info r) (info e));
          mret (bool_decide (service_id e ∈ [IP2ACTION_BC_SVC; IP2ACTION_WP_SVC; IP2ACTION_GK_SVC]),
            Some (Ip2ActionReq (rq_device_mac r) (rq_ip_addr r) (cache_ttl e) (action e) (policy_idx e) (service_id e)
              (nelems e) (redirect_flag e) cats (cat_unknown_to_service e) i))
      end
  end.
(** [dns_cache_get_policy_action] *)
Definition dns_cache_get_policy_action (req : option ip2action_req) : DNS (bool * option ip2action_req) :=
  match req with
  | None => mret (false, None)
  | Some r =>
      init ← gets dns_initialized;
      if negb init then mret (false, req) else
      i2a ← dns_cache_lookup_ip2action req;
      match i2a with
      | None => mret (false, req)
      | Some p =>
          e ← i2a_at p;
          mret (true, Some (Ip2ActionReq (rq_device_mac r) (rq_ip_addr r) (rq_cache_ttl r) (action e) (policy_idx e)
            (rq_service_id r) (rq_nelems r) (rq_redirect_flag r) (rq_categories r) (rq_cat_unknown_to_service r) (rq_info r)))
      end
  end.

(** [dns_cache_get_size], [dns_cache_get_refcount], [dns_cache_get_hit_count] *)
Definition dns_cache_get_size : DNS Z := gets (λ s, if dns_initialized s then entries s else -1).
Definition dns_cache_get_refcount : DNS Z := gets (λ s, if dns_initialized s then refcount s else 0).
Definition dns_cache_get_hit_count (service : nat) : DNS Z :=
  init ← gets dns_initialized;
  if negb init then mret 0 else h ← gets cache_hit_count; deref (h !! service).

Definition dns_initial : dns_state := Dns false 0 (replicate SERVICE_PROVIDER_MAX_ELEMS 0) [] 0 0.
