(* ===== verification/DnsCacheSpec.v ===== *)
(** What the cache of verdicts promises: a finite map from addresses of devices to
    verdicts that is shared by a number of users; and how the tree represents it. *)
From Stdlib Require Import Sorting.Sorted.
From S2P Require Import Prelude DsTree DsTreeInv KeySeq DnsCache.
Local Open Scope Z_scope.

(** *** The abstract cache *)

(** A device, a family and the bytes of an address. *)
Definition akey : Type := list Z * Z * list Z.
Definition akey_of (k : i2a_key) : akey := (k_mac k, k_family k, key_bytes k).
Definition req_akey (mac : list Z) (a : sockaddr_storage) : akey := akey_of (req_key mac a).
Record verdict := Verdict {
  v_action : Z; v_ttl : Z; v_ts : Z; v_policy : Z; v_service : Z; v_nelems : nat; v_redirect : bool;
  v_categories : list Z; v_unknown : bool; v_info : cache_info }.
Record spec := Spec { users : nat; s_hits : list Z; s_cache : gmap akey verdict; s_clock : Z }.

(** Calls of the interface and the answers. *)
Inductive dns_op :=
  | DInit | DCleanupMgr | DCleanup | DTtlCleanup | DSize | DTick (n : Z)
  | DAdd (r : ip2action_req) | DDel (r : ip2action_req) | DLookup (r : ip2action_req) | DPolicy (r : ip2action_req).
Inductive dns_reply := RUnit | RBool (b : bool) | RZ (z : Z) | RReq (b : bool) (r : option ip2action_req).

(** Which new entries are accepted: each provider has to say something. *)
Definition accepted (r : ip2action_req) : bool :=
  if rq_service_id r =? IP2ACTION_BC_SVC then
    match rq_info r with bc_info i => negb (reputation i =? 0) && negb (rq_nelems r =? 0)%nat | _ => false end
  else if rq_service_id r =? IP2ACTION_WP_SVC then
    match rq_info r with wb_info i => negb (risk_level i =? 0) | _ => false end
  else rq_service_id r =? IP2ACTION_GK_SVC.
(** [n] elements over those that were there. *)
Definition overlay (n : nat) (new old : list Z) : list Z := take n new ++ drop n old.
Definition stored_info (r : ip2action_req) : cache_info :=
  match rq_info r with
  | bc_info i => bc_info (BcInfo (overlay (rq_nelems r) (confidence_levels i) (replicate URL_REPORT_MAX_ELEMS 0)) (reputation i))
  | info_zero => gk_info (GkInfo 0 0 None)
  | i => i
  end.
Definition verdict_of_req (t : Z) (r : ip2action_req) : verdict :=
  Verdict (rq_action r) (rq_cache_ttl r) t (rq_policy_idx r) (rq_service_id r) (rq_nelems r) (rq_redirect_flag r)
    (overlay (rq_nelems r) (rq_categories r) (replicate URL_REPORT_MAX_ELEMS 0)) (rq_cat_unknown_to_service r) (stored_info r).
(** An entry that is there gets a new action, redirection and time to live; the policy, the
    categories and the provider stay. *)
Definition refresh (t : Z) (r : ip2action_req) (v : verdict) : verdict :=
  Verdict (rq_action r) (rq_cache_ttl r) t (v_policy v) (v_service v) (v_nelems v) (rq_redirect_flag r)
    (v_categories v) (v_unknown v) (v_info v).
(** The request of a client after a hit; its union was zero. *)
Definition found_info (v : verdict) : cache_info :=
  match v_info v with
  | bc_info i => bc_info (BcInfo (overlay (v_nelems v) (confidence_levels i) (replicate URL_REPORT_MAX_ELEMS 0)) (reputation i))
  | i => i
  end.
Definition answer (v : verdict) (r : ip2action_req) : ip2action_req :=
  Ip2ActionReq (rq_device_mac r) (rq_ip_addr r) (v_ttl v) (v_action v) (v_policy v) (v_service v) (v_nelems v)
    (v_redirect v) (overlay (v_nelems v) (v_categories v) (rq_categories r)) (v_unknown v) (found_info v).
Definition policy_answer (v : verdict) (r : ip2action_req) : ip2action_req :=
  Ip2ActionReq (rq_device_mac r) (rq_ip_addr r) (rq_cache_ttl r) (v_action v) (v_policy v) (rq_service_id r) (rq_nelems r)
    (rq_redirect_flag r) (rq_categories r) (rq_cat_unknown_to_service r) (rq_info r).
(** The key a request asks for. *)
Definition asked (r : ip2action_req) : option akey :=
  mac ← rq_device_mac r; a ← rq_ip_addr r; Some (req_akey mac a).
Definition in_use (sp : spec) : bool := (0 <? users sp)%nat.
Definition fresh_verdict (t : Z) (v : verdict) : bool := t - v_ts v <? v_ttl v.
Definition with_cache (m : gmap akey verdict) (sp : spec) : spec := Spec (users sp) (s_hits sp) m (s_clock sp).

Definition spec_step (op : dns_op) (sp : spec) : dns_reply * spec :=
  match op with
  | DInit => (RBool true, Spec (S (users sp)) (s_hits sp) (s_cache sp) (s_clock sp))
  | DCleanupMgr =>
      (RUnit, match users sp with
              | O => sp
              | 1%nat => Spec 0 (replicate SERVICE_PROVIDER_MAX_ELEMS 0) ∅ (s_clock sp)
              | S n => Spec n (s_hits sp) (s_cache sp) (s_clock sp)
              end)
  | DCleanup => (RUnit, with_cache ∅ sp)
  | DTtlCleanup =>
      (RBool (in_use sp), with_cache (filter (λ kv, fresh_verdict (s_clock sp) kv.2 = true) (s_cache sp)) sp)
  | DSize => (RZ (if in_use sp then wraps 32 (Z.of_nat (size (s_cache sp))) else -1), sp)
  | DTick n => (RUnit, Spec (users sp) (s_hits sp) (s_cache sp) (s_clock sp + n))
  | DAdd r =>
      match asked r, in_use sp with
      | Some k, true =>
          match s_cache sp !! k with
          | Some v => (RBool true, with_cache (<[k := refresh (s_clock sp) r v]> (s_cache sp)) sp)
          | None =>
              if accepted r then (RBool true, with_cache (<[k := verdict_of_req (s_clock sp) r]> (s_cache sp)) sp)
              else (RBool false, sp)
          end
      | _, _ => (RBool false, sp)
      end
  | DDel r =>
      match asked r with
      | Some k => (RBool (in_use sp), with_cache (delete k (s_cache sp)) sp)
      | None => (RBool (in_use sp), sp)
      end
  | DLookup r =>
      match asked r ≫= (s_cache sp !!.) with
      | Some v =>
          (RReq true (Some (answer v r)),
           if v_unknown v then sp
           else Spec (users sp) (alter (λ n, wrapu 32 (n + 1)) (Z.to_nat (v_service v)) (s_hits sp)) (s_cache sp) (s_clock sp))
      | None => (RReq false (Some r), sp)
      end
  | DPolicy r =>
      (match asked r ≫= (s_cache sp !!.) with
       | Some v => RReq true (Some (policy_answer v r)) | None => RReq false (Some r) end, sp)
  end.

(** The calls the promise is about: addresses of the two families, arrays of the right
    length with no more elements than they have, a union whose member is that of the service
    (zero for a lookup), and at most 255 users at a time. *)
Definition addr_ok (r : ip2action_req) : Prop :=
  ∀ a, rq_ip_addr r = Some a → ss_family a = AF_INET ∨ ss_family a = AF_INET6.
Definition info_ok (service : Z) (i : cache_info) : Prop :=
  match i with
  | bc_info i => service = IP2ACTION_BC_SVC ∧ length (confidence_levels i) = URL_REPORT_MAX_ELEMS
  | wb_info _ => service = IP2ACTION_WP_SVC
  | gk_info _ => service = IP2ACTION_GK_SVC
  | info_zero => False
  end.
Record add_ok (r : ip2action_req) : Prop := AddOk {
  add_addr : addr_ok r; add_mac : is_Some (rq_device_mac r); add_ip : is_Some (rq_ip_addr r);
  add_nelems : (rq_nelems r ≤ URL_REPORT_MAX_ELEMS)%nat; add_cats : length (rq_categories r) = URL_REPORT_MAX_ELEMS;
  add_info : info_ok (rq_service_id r) (rq_info r) ∨ rq_service_id r ∉ [IP2ACTION_BC_SVC; IP2ACTION_WP_SVC; IP2ACTION_GK_SVC] }.
Definition dns_op_ok (sp : spec) (op : dns_op) : Prop :=
  match op with
  | DInit => (users sp < 255)%nat
  | DAdd r => add_ok r
  | DDel r | DPolicy r => addr_ok r
  | DLookup r => addr_ok r ∧ rq_info r = info_zero ∧ length (rq_categories r) = URL_REPORT_MAX_ELEMS
  | _ => True
  end.

(** *** The tree and the map *)

#[export] Instance i2a_order_order : KeyOrder i2a_order.
Proof.
  unfold i2a_order. apply cmp_lex_order; [apply (cmp_proj_order k_mac), _|].
  apply cmp_lex_order; [apply (cmp_proj_order k_family Z.sub), _|apply (cmp_proj_order key_bytes), _].
Qed.
Lemma i2a_order_zero a b : i2a_order a b = 0 ↔ akey_of a = akey_of b.
Proof.
  unfold i2a_order, akey_of. rewrite !cmp_lex_zero, !memcmp_zero. split.
  - intros (-> & ? & ->). do 2 f_equal. lia.
  - intros [= -> -> ->]. split_and!; [done|lia|done].
Qed.
(** The comparison in the source is this order unless it follows NULL. *)
Lemma i2a_cmp_order a b : is_Some (k_tbl a) → is_Some (k_tbl b) → dns_cache_ip2action_cmp a b = Some (i2a_order a b).
Proof.
  intros [ta Ha] [tb Hb]. unfold dns_cache_ip2action_cmp, i2a_order, cmp_lex, key_bytes. rewrite Ha, Hb.
  destruct (Z.eqb_spec (memcmp (k_mac a) (k_mac b)) 0); [|done].
  destruct (Z.eqb_spec (k_family a - k_family b) 0) as [Hf|]; [|done]. by replace (k_family b) with (k_family a) by lia.
Qed.

Definition verdict_of (e : ip2action) : verdict :=
  Verdict (action e) (cache_ttl e) (cache_ts e) (policy_idx e) (service_id e) (nelems e) (redirect_flag e)
    (categories e) (cat_unknown_to_service e) (info e).
Definition e_akey (e : ip2action) : akey := akey_of (key_of e).
Definition abs (l : list ip2action) : gmap akey verdict := list_to_map ((λ e, (e_akey e, verdict_of e)) <$> l).
Abbreviation i2a_sorted := (ks_sorted i2a_order key_of).
Abbreviation i2a_get := (ks_get i2a_order key_of).

Lemma abs_cons e l : abs (e :: l) = <[e_akey e := verdict_of e]> (abs l).
Proof. done. Qed.
Lemma sorted_nodup l : i2a_sorted l → NoDup (e_akey <$> l).
Proof.
  induction 1 as [|a l Hl IH Ha]; [constructor|]. rewrite fmap_cons. constructor; [|done].
  intros (b & Hab & Hb)%list_elem_of_fmap. rewrite Forall_forall in Ha. specialize (Ha b Hb). cbn in Ha.
  apply i2a_order_zero in Hab. lia.
Qed.
Lemma abs_keys l : ((λ e, (e_akey e, verdict_of e)) <$> l).*1 = e_akey <$> l.
Proof. rewrite <- list_fmap_compose. by apply list_fmap_ext. Qed.
Lemma abs_lookup l k : abs l !! akey_of k = verdict_of <$> i2a_get k l.
Proof.
  induction l as [|e l IH]; [done|]. rewrite abs_cons, ks_get_cons. destruct (decide _) as [E|NE].
  - apply i2a_order_zero in E. unfold e_akey. by rewrite E, lookup_insert_eq.
  - rewrite lookup_insert_ne; [done|]. intros E. apply NE. by apply i2a_order_zero.
Qed.
Lemma abs_perm l1 l2 : l1 ≡ₚ l2 → NoDup (e_akey <$> l1) → abs l1 = abs l2.
Proof. intros Hp Hn. apply list_to_map_proper; [by rewrite abs_keys|by rewrite Hp]. Qed.
Lemma abs_notin l e : NoDup (e_akey <$> e :: l) → abs l !! e_akey e = None.
Proof.
  rewrite fmap_cons. intros [Hn _]%NoDup_cons. apply not_elem_of_list_to_map. by rewrite abs_keys.
Qed.
Lemma abs_insert l e : i2a_sorted l → i2a_get (key_of e) l = None →
  abs (ks_insert i2a_order key_of e l) = <[e_akey e := verdict_of e]> (abs l).
Proof.
  intros Hs Hg. rewrite <- abs_cons. apply abs_perm; [apply ks_insert_perm|].
  apply sorted_nodup. by apply ks_sorted_insert; [apply _|..].
Qed.
Lemma abs_delete l i e : i2a_sorted l → l !! i = Some e → abs (delete i l) = delete (e_akey e) (abs l).
Proof.
  intros Hs Hi. pose proof (sorted_nodup l Hs) as Hn. pose proof (delete_Permutation l i e Hi) as Hp.
  rewrite (abs_perm _ _ Hp Hn), abs_cons, delete_insert_id; [done|]. apply abs_notin. by rewrite <- Hp.
Qed.
Lemma abs_alter l i e g : i2a_sorted l → l !! i = Some e → key_of (g e) = key_of e →
  abs (alter g i l) = <[e_akey e := verdict_of (g e)]> (abs l).
Proof.
  intros Hs Hi Hg. assert (key_of <$> alter g i l = key_of <$> l) as Hk by (apply keys_alter; intros a Ha; congruence).
  assert (i2a_sorted (alter g i l)) as Hs' by (by eapply ks_sorted_keys; [symmetry|]).
  assert (alter g i l !! i = Some (g e)) as Hi' by (by rewrite list_lookup_alter_eq, Hi).
  rewrite (abs_perm _ _ (delete_Permutation _ _ _ Hi') (sorted_nodup _ Hs')), abs_cons.
  rewrite (abs_perm _ _ (delete_Permutation _ _ _ Hi) (sorted_nodup _ Hs)), abs_cons.
  unfold e_akey at 1 2. rewrite Hg, insert_insert_eq. do 2 f_equal.
  rewrite !delete_take_drop, take_alter_ge, drop_alter_lt by lia. done.
Qed.
Lemma abs_filter l (P : ip2action → Prop) (Q : akey * verdict → Prop) `{!∀ e, Decision (P e)} `{!∀ v, Decision (Q v)} :
  (∀ e, P e ↔ Q (e_akey e, verdict_of e)) → NoDup (e_akey <$> l) → abs (filter P l) = filter Q (abs l).
Proof.
  intros HPQ. induction l as [|e l IH]; intros Hn; [symmetry; apply map_filter_empty|].
  pose proof (abs_notin l e Hn) as Hnone. apply NoDup_cons in Hn as [_ Hn].
  destruct (decide (P e)) as [HP|HP].
  - rewrite filter_cons_True by done. rewrite !abs_cons, (IH Hn). by rewrite map_filter_insert_True by (by apply HPQ).
  - assert (¬ Q (e_akey e, verdict_of e)) as HQ by (by rewrite <- HPQ). rewrite filter_cons_False by done.
    rewrite abs_cons, (IH Hn), map_filter_insert_False by done. by rewrite delete_id.
Qed.
Lemma abs_size l : i2a_sorted l → size (abs l) = length l.
Proof.
  intros Hs. unfold abs. rewrite map_size_list_to_map; [by rewrite length_fmap|]. rewrite abs_keys. by apply sorted_nodup.
Qed.
