(* ===== verification/DnsCacheProps.v ===== *)
(** The cache of verdicts implements the abstract cache of DnsCacheSpec.v. *)
From Stdlib Require Import Sorting.Sorted.
From S2P Require Import Prelude DsTree DsTreeInv KeySeq DnsCache DnsCacheSpec.
Local Open Scope Z_scope.

(** *** The implementation, call by call *)

Definition dns_exec (op : dns_op) : DNS dns_reply :=
  match op with
  | DInit => b ← dns_cache_init; mret (RBool b)
  | DCleanupMgr => dns_cache_cleanup_mgr;; mret RUnit
  | DCleanup => dns_cache_cleanup;; mret RUnit
  | DTtlCleanup => b ← dns_cache_ttl_cleanup; mret (RBool b)
  | DSize => n ← dns_cache_get_size; mret (RZ n)
  | DTick n => modify (λ s, Dns (dns_initialized s) (refcount s) (cache_hit_count s) (ip2a_tree s) (entries s) (clock s + n));; mret RUnit
  | DAdd r => b ← dns_cache_add_entry (Some r); mret (RBool b)
  | DDel r => b ← dns_cache_del_entry (Some r); mret (RBool b)
  | DLookup r => '(b, q) ← dns_cache_ip2action_lookup (Some r); mret (RReq b q)
  | DPolicy r => '(b, q) ← dns_cache_get_policy_action (Some r); mret (RReq b q)
  end.
Fixpoint dns_exec_all (ops : list dns_op) : DNS (list dns_reply) :=
  match ops with [] => mret [] | op :: ops => r ← dns_exec op; rs ← dns_exec_all ops; mret (r :: rs) end.
Fixpoint spec_run (ops : list dns_op) (sp : spec) : list dns_reply * spec :=
  match ops with
  | [] => ([], sp)
  | op :: ops => let '(r, sp) := spec_step op sp in let '(rs, sp) := spec_run ops sp in (r :: rs, sp)
  end.
Fixpoint ops_ok (sp : spec) (ops : list dns_op) : Prop :=
  match ops with [] => True | op :: ops => dns_op_ok sp op ∧ ops_ok (spec_step op sp).2 ops end.
Definition spec_initial : spec := Spec 0 (replicate SERVICE_PROVIDER_MAX_ELEMS 0) ∅ 0.

(** *** The state represents the abstract state *)

Definition says (e : ip2action) : Prop :=
  match info e with bc_info i => reputation i ≠ 0 ∧ nelems e ≠ 0%nat | wb_info i => risk_level i ≠ 0 | _ => True end.
Record entry_ok (e : ip2action) : Prop := EntryOk {
  e_tbl : is_Some (ip_tbl e); e_info : info_ok (service_id e) (info e); e_says : says e;
  e_nelems : (nelems e ≤ URL_REPORT_MAX_ELEMS)%nat; e_cats : length (categories e) = URL_REPORT_MAX_ELEMS }.
Record rep (s : dns_state) (sp : spec) : Prop := Rep {
  rep_init : dns_initialized s = in_use sp; rep_ref : refcount s = Z.of_nat (users sp); rep_255 : (users sp ≤ 255)%nat;
  rep_hits : cache_hit_count s = s_hits sp; rep_hlen : length (s_hits sp) = SERVICE_PROVIDER_MAX_ELEMS;
  rep_clock : clock s = s_clock sp; rep_sorted : i2a_sorted (ip2a_tree s);
  rep_entries : entries s = wraps 32 (Z.of_nat (length (ip2a_tree s))); rep_ok : Forall entry_ok (ip2a_tree s);
  rep_cache : s_cache sp = abs (ip2a_tree s); rep_idle : in_use sp = false → ip2a_tree s = [] }.

Lemma wraps_add a d : wraps 32 (wraps 32 a + d) = wraps 32 (a + d).
Proof.
  unfold wraps. f_equal.
  replace ((a + 2 ^ (32 - 1)) `mod` 2 ^ 32 - 2 ^ (32 - 1) + d + 2 ^ (32 - 1)) with ((a + 2 ^ (32 - 1)) `mod` 2 ^ 32 + d) by lia.
  rewrite Zplus_mod_idemp_l. f_equal. lia.
Qed.
Lemma wraps_sub a d : wraps 32 (wraps 32 a - d) = wraps 32 (a - d).
Proof. apply (wraps_add a (- d)). Qed.

Lemma req_key_tbl mac a : ss_family a = AF_INET ∨ ss_family a = AF_INET6 → is_Some (k_tbl (req_key mac a)).
Proof. unfold req_key, dns_cache_set_ip. intros [->| ->]; by eexists. Qed.
Lemma asked_key r k : asked r = Some k →
  ∃ mac a, rq_device_mac r = Some mac ∧ rq_ip_addr r = Some a ∧ k = akey_of (req_key mac a).
Proof.
  unfold asked. destruct (rq_device_mac r) as [mac|]; [|done]. destruct (rq_ip_addr r) as [a|]; [|done].
  cbn. intros [= <-]. eauto.
Qed.
Lemma i2a_find_spec s k : Forall entry_ok (ip2a_tree s) → is_Some (k_tbl k) →
  i2a_find k s = Some (ks_find i2a_order key_of k (ip2a_tree s), s).
Proof.
  intros Hok Hk. unfold i2a_find, gets, mbind, M_bind. replace (forallb _ _) with true; [done|]. symmetry.
  apply forallb_forall. intros e He%list_elem_of_In. rewrite Forall_forall in Hok. apply bool_decide_eq_true_2.
  rewrite i2a_cmp_order; [by eexists|apply (Hok e He)|done].
Qed.
(** The lookup of an entry is the lookup in the map. *)
Lemma lookup_ip2action_spec s sp r : rep s sp → addr_ok r → ∃ res, dns_cache_lookup_ip2action (Some r) s = Some (res, s) ∧
  match res with
  | Some p => ∃ e, ip2a_tree s !! p = Some e ∧ entry_ok e ∧ asked r = Some (e_akey e) ∧
      s_cache sp !! e_akey e = Some (verdict_of e)
  | None => asked r ≫= (s_cache sp !!.) = None
  end.
Proof.
  intros [] Ha. unfold dns_cache_lookup_ip2action, asked, addr_ok in *.
  destruct (rq_ip_addr r) as [a|]; [|exists None; split; [done|by destruct (rq_device_mac r)]].
  destruct (rq_device_mac r) as [mac|]; [|by exists None]. cbn [mbind option_bind].
  rewrite i2a_find_spec by first [done|apply req_key_tbl; by apply Ha]. eexists. split; [done|]. rewrite rep_cache0.
  destruct (ks_find _ _ _ _) as [p|] eqn:Hf.
  - apply ks_find_get in Hf as (e & He & Hg & Hk). apply i2a_order_zero in Hk. exists e. split_and!; [done| | |].
    + rewrite Forall_forall in rep_ok0. apply rep_ok0. by eapply list_elem_of_lookup_2.
    + unfold e_akey, req_akey. by rewrite Hk.
    + unfold e_akey. by rewrite Hk, abs_lookup, Hg.
  - apply ks_find_none in Hf. unfold req_akey. by rewrite abs_lookup, Hf.
Qed.

(** The loops that remove entries. *)
Lemma i2a_remove_loop_spec gone l s m : entries s = wraps 32 (m + Z.of_nat (length l)) →
  i2a_remove_loop gone l s = Some (filter (λ e, gone e = false) l,
    with_entries (λ _, wraps 32 (m + Z.of_nat (length (filter (λ e, gone e = false) l)))) s).
Proof.
  revert s m. induction l as [|e l IH]; intros s m He.
  { cbn -[wraps] in *. unfold with_entries. rewrite <- He. by destruct s. }
  cbn [i2a_remove_loop]. destruct (gone e) eqn:Hg.
  - unfold decr_entries, modify, mbind, M_bind. rewrite filter_cons_False by congruence. rewrite (IH _ m); [done|].
    cbn -[wraps]. rewrite He, wraps_sub. f_equal. rewrite length_cons. lia.
  - unfold mbind, M_bind. rewrite filter_cons_True by done. rewrite (IH s (m + 1)).
    + rewrite length_cons, Nat2Z.inj_succ, <- Z.add_1_l, Z.add_assoc. done.
    + rewrite He, length_cons. f_equal. lia.
Qed.
Lemma filter_true {A} (l : list A) : filter (λ _, true = false) l = [].
Proof. induction l; [done|]. by rewrite filter_cons_False. Qed.

(** *** The simulation *)

Definition sim (op : dns_op) (s : dns_state) (sp : spec) : Prop :=
  ∃ s', dns_exec op s = Some ((spec_step op sp).1, s') ∧ rep s' (spec_step op sp).2.
Ltac dns_unfold := unfold dns_exec, gets, modify, mbind, M_bind, mret, M_ret; cbn -[wraps wrapu spec_step in_use].

Lemma rep_filter s sp gone keep : rep s sp → (∀ e, gone e = false ↔ keep (verdict_of e) = true) →
  rep (with_ip2a (λ _, filter (λ e, gone e = false) (ip2a_tree s))
        (with_entries (λ _, wraps 32 (Z.of_nat (length (filter (λ e, gone e = false) (ip2a_tree s))))) s))
    (with_cache (filter (λ kv, keep kv.2 = true) (s_cache sp)) sp).
Proof.
  intros [] Hg. split; try done; cbn.
  - by apply ks_sorted_filter.
  - apply Forall_forall. intros e [_ He]%list_elem_of_filter. rewrite Forall_forall in rep_ok0. by apply rep_ok0.
  - rewrite rep_cache0. symmetry. by apply abs_filter; [|apply sorted_nodup].
  - intros H%rep_idle0. by rewrite H.
Qed.
Lemma cleanup_run s : entries s = wraps 32 (Z.of_nat (length (ip2a_tree s))) → (dns_initialized s = false → ip2a_tree s = []) →
  dns_cache_cleanup s = Some (tt, with_ip2a (λ _, []) (with_entries (λ _, wraps 32 0) s)).
Proof.
  intros He Hid. unfold dns_cache_cleanup, gets, mbind, M_bind. destruct (dns_initialized s) eqn:Hi; cbn -[wraps].
  - rewrite (i2a_remove_loop_spec _ _ s 0) by done. by rewrite filter_true.
  - destruct s as [i n h l e c]. cbn -[wraps] in *. by rewrite (Hid eq_refl) in *; subst.
Qed.

Lemma sim_init s sp : rep s sp → dns_op_ok sp DInit → sim DInit s sp.
Proof.
  intros Hr Hu. pose proof Hr as []. cbn in Hu. unfold sim. dns_unfold. unfold dns_cache_init, dns_cache_init_mgr. dns_unfold.
  assert (wrapu 8 (refcount s + 1) = Z.of_nat (S (users sp))) as Hw.
  { rewrite rep_ref0. unfold wrapu. rewrite Z.mod_small; lia. }
  clear rep_init0 rep_idle0. rewrite (rep_init _ _ Hr). pose proof (rep_idle _ _ Hr) as Hid.
  destruct (in_use sp) eqn:Hi; dns_unfold; (eexists; split; [done|]).
  - split; try done; cbn -[wrapu]; lia.
  - rewrite (Hid eq_refl) in *. split; try done; cbn -[wrapu]; try done; lia.
Qed.
Lemma sim_cleanup s sp : rep s sp → sim DCleanup s sp.
Proof.
  intros []. unfold sim, dns_exec, mbind, M_bind. rewrite cleanup_run; [|done|by rewrite rep_init0].
  eexists. split; [done|]. split; try done; constructor.
Qed.
Lemma sim_ttl s sp : rep s sp → sim DTtlCleanup s sp.
Proof.
  intros Hr. pose proof Hr as []. unfold sim. cbn [dns_exec spec_step fst snd]. unfold dns_cache_ttl_cleanup. dns_unfold.
  clear rep_init0 rep_idle0. rewrite (rep_init _ _ Hr). pose proof (rep_idle _ _ Hr) as Hid.
  destruct (in_use sp) eqn:Hu; cbn -[wraps].
  - rewrite (i2a_remove_loop_spec _ _ s 0) by done. eexists. split; [done|]. cbn -[wraps].
    apply rep_filter; [done|]. intros e. unfold dns_ttl_expired, fresh_verdict. rewrite rep_clock0. cbn. by destruct (_ <? _).
  - exists s. split; [done|]. destruct Hr. split; try done. cbn. rewrite rep_cache0, (Hid eq_refl). apply map_filter_empty.
Qed.
Lemma sim_size s sp : rep s sp → sim DSize s sp.
Proof.
  intros Hr. pose proof Hr as []. exists s. split; [|done]. cbn [spec_step fst dns_exec].
  unfold mbind, M_bind, dns_cache_get_size, gets. rewrite rep_init0, rep_cache0, abs_size, rep_entries0 by done. done.
Qed.
Lemma sim_tick n s sp : rep s sp → sim (DTick n) s sp.
Proof. intros []. eexists. split; [done|]. split; try done. cbn. lia. Qed.
Lemma sim_cleanup_mgr s sp : rep s sp → sim DCleanupMgr s sp.
Proof.
  intros Hr. pose proof Hr as []. unfold sim, dns_exec, dns_cache_cleanup_mgr, gets, mbind, M_bind. rewrite rep_init0.
  cbn [spec_step fst snd]. unfold in_use in *. destruct (users sp) as [|n] eqn:Hu; cbn [Nat.ltb Nat.leb negb].
  { exists s. split; [done|]. split; try done; unfold in_use; by rewrite Hu. }
  rewrite rep_ref0. replace (wrapu 8 (Z.of_nat (S n) - 1)) with (Z.of_nat n) by (unfold wrapu; rewrite Z.mod_small; lia).
  unfold modify. destruct n as [|n]; cbn [Z.of_nat Z.eqb negb].
  - change (Z.of_nat 0) with 0. cbn [Z.eqb negb]. rewrite cleanup_run by done.
    eexists. split; [done|]. split; try done; first [by constructor|cbn; lia].
  - rewrite (proj2 (Z.eqb_neq (Z.of_nat (S n)) 0)) by lia. eexists. split; [done|]. split; try done; cbn; lia.
Qed.

(** New entries. *)
Lemma copy_elems_ok n (dst src : list Z) : (n ≤ URL_REPORT_MAX_ELEMS)%nat → length dst = URL_REPORT_MAX_ELEMS →
  length src = URL_REPORT_MAX_ELEMS → copy_elems n dst src = Some (overlay n src dst).
Proof. intros Hn Hd Hs. unfold copy_elems. rewrite Hd, Hs. by rewrite (proj2 (Nat.leb_le _ _) Hn). Qed.
Lemma overlay_length n (new old : list Z) : (n ≤ length new)%nat → (n ≤ length old)%nat → length (overlay n new old) = length old.
Proof. intros. unfold overlay. rewrite length_app, length_take, length_drop. lia. Qed.
(** What the choice by the service stores for a new entry. *)
Lemma set_cache_info_new r : add_ok r → ∃ i, set_cache_info (rq_service_id r) (rq_nelems r) info_zero (rq_info r) = Some (accepted r, i) ∧
  (accepted r = true → i = stored_info r ∧ info_ok (rq_service_id r) i ∧
     match i with bc_info b => reputation b ≠ 0 ∧ rq_nelems r ≠ 0%nat | wb_info b => risk_level b ≠ 0 | _ => True end).
Proof.
  intros [_ _ _ Hn _ Hinfo]. unfold set_cache_info, accepted, stored_info. destruct Hinfo as [Hinfo|Hnone].
  - destruct (rq_info r) as [|b|w|g]; cbn in Hinfo; [done|..].
    + destruct Hinfo as [-> Hl]. cbn -[copy_elems replicate overlay]. unfold dns_cache_set_bc_cache_entry.
      destruct (Z.eqb_spec (reputation b) 0); [by eexists|]. destruct (Nat.eqb_spec (rq_nelems r) 0); [by eexists|].
      cbn -[copy_elems replicate overlay]. rewrite copy_elems_ok by done. eexists. split; [done|]. intros _. split_and!; try done.
      split; [done|]. cbn -[overlay replicate]. rewrite overlay_length; [done| |]; [by rewrite Hl|done].
    + rewrite Hinfo. cbn. unfold dns_cache_set_wb_cache_entry. destruct (Z.eqb_spec (risk_level w) 0); [by eexists|].
      destruct w. by eexists.
    + rewrite Hinfo. cbn. eexists. split; [done|]. intros _. split_and!; try done. f_equal. by destruct g as [? ? []].
  - repeat match goal with |- context [?x =? ?y] => rewrite (proj2 (Z.eqb_neq x y)) by (intros E; apply Hnone; rewrite E; set_solver) end.
    by eexists.
Qed.
Lemma alloc_spec s r mac a : add_ok r → rq_device_mac r = Some mac → rq_ip_addr r = Some a → ∃ oe,
  dns_cache_alloc_ip2action r s = Some (oe, s) ∧
  match oe with
  | Some e => accepted r = true ∧ entry_ok e ∧ verdict_of e = verdict_of_req (clock s) r ∧ key_of e = req_key mac a
  | None => accepted r = false
  end.
Proof.
  intros Hok Hm Ha. destruct (set_cache_info_new r Hok) as (i & Hi & Hacc). pose proof (req_key_tbl mac a (add_addr _ Hok a Ha)) as Htbl.
  unfold dns_cache_alloc_ip2action. rewrite Hm, Ha, copy_elems_ok, Hi by first [apply Hok|done].
  unfold gets, mbind, M_bind. cbn -[overlay replicate dns_cache_set_ip]. destruct (accepted r) eqn:E; [|by exists None].
  destruct (Hacc eq_refl) as (-> & Hinfo & Hs). unfold req_key in *.
  destruct (dns_cache_set_ip 0 None a) as [af tbl] eqn:Hset. eexists. split; [done|]. cbn -[overlay replicate]. split_and!; try done.
  split; try done; [apply Hok|]. cbn -[overlay replicate]. rewrite overlay_length; [done|..].
  - rewrite (add_cats _ Hok). apply Hok.
  - apply Hok.
Qed.
Lemma rep_insert s sp e : rep s sp → in_use sp = true → entry_ok e → i2a_get (key_of e) (ip2a_tree s) = None →
  rep (with_ip2a (ks_insert i2a_order key_of e) (with_entries (λ n, wraps 32 (n + 1)) s))
    (with_cache (<[e_akey e := verdict_of e]> (s_cache sp)) sp).
Proof.
  intros [] Hu He Hnew. split; try done; cbn -[wraps abs].
  - by apply ks_sorted_insert; [apply _|..].
  - rewrite rep_entries0, wraps_add, ks_insert_length. f_equal. lia.
  - rewrite ks_insert_perm. by constructor.
  - by rewrite abs_insert, rep_cache0.
  - intros Hn. change (in_use sp = false) in Hn. congruence.
Qed.
Lemma sim_add r s sp : rep s sp → dns_op_ok sp (DAdd r) → sim (DAdd r) s sp.
Proof.
  intros Hr Hok. cbn in Hok. pose proof Hok as [Haddr [mac Hm] [a Ha] _ _ _].
  assert (asked r = Some (akey_of (req_key mac a))) as Hask by (unfold asked; by rewrite Hm, Ha).
  unfold sim, dns_exec, dns_cache_add_entry, gets, mbind, M_bind. cbn [spec_step]. rewrite Hask, (rep_init _ _ Hr).
  destruct (in_use sp) eqn:Hu; cbn [negb]; [|by exists s].
  destruct (lookup_ip2action_spec s sp r Hr Haddr) as (res & -> & Hres). rewrite Hask in Hres. destruct res as [p|].
  - destruct Hres as (e & Hp & He & Hk%(inj Some) & Hv). rewrite Hk, Hv. unfold modify, mret, M_ret. eexists. split; [done|].
    pose proof Hr as []. cbn [snd fst]. split; try done; cbn -[wraps abs].
    + eapply ks_sorted_keys; [symmetry; apply keys_alter|done]. done.
    + by rewrite length_alter.
    + apply Forall_alter; [done|]. intros e' _ []. by split.
    + rewrite rep_cache0, (abs_alter _ _ e), rep_clock0; done.
    + intros Hn. by rewrite rep_idle0 in Hp.
  - cbn [mbind option_bind] in Hres. rewrite Hres. destruct (alloc_spec s r mac a Hok Hm Ha) as (oe & -> & Hoe).
    destruct oe as [e|]; [|rewrite Hoe; by exists s]. destruct Hoe as (-> & He & Hv & Hk). eexists. split; [done|].
    cbn [snd fst]. rewrite <- Hk, <- (rep_clock _ _ Hr), <- Hv. apply rep_insert; try done.
    rewrite (rep_cache _ _ Hr), abs_lookup, <- Hk in Hres. by apply fmap_None in Hres.
Qed.
Lemma sim_del r s sp : rep s sp → dns_op_ok sp (DDel r) → sim (DDel r) s sp.
Proof.
  intros Hr Haddr. cbn in Haddr. unfold sim, dns_exec, dns_cache_del_entry, gets, mbind, M_bind. cbn [spec_step]. rewrite (rep_init _ _ Hr).
  assert (∀ b, asked r ≫= (s_cache sp !!.) = None →
    match asked r with Some k => (RBool b, with_cache (delete k (s_cache sp)) sp) | None => (RBool b, sp) end = (RBool b, sp)) as Hnone.
  { intros b Hn. destruct (asked r) as [k|]; [|done]. cbn in Hn. rewrite delete_id by done. by destruct sp. }
  destruct (in_use sp) eqn:Hu; cbn [negb].
  - destruct (lookup_ip2action_spec s sp r Hr Haddr) as (res & -> & Hres). destruct res as [p|].
    + destruct Hres as (e & Hp & He & -> & Hv). eexists. split; [done|]. pose proof Hr as []. cbn [snd fst].
      split; try done; cbn -[wraps abs].
      * by apply ks_sorted_delete.
      * rewrite rep_entries0, wraps_sub. f_equal. rewrite length_delete by (by eexists).
        apply lookup_lt_Some in Hp. lia.
      * by apply Forall_delete.
      * by rewrite rep_cache0, (abs_delete _ _ e).
      * intros Hn. by rewrite rep_idle0 in Hp.
    + rewrite Hnone by done. by exists s.
  - rewrite Hnone; [by exists s|]. rewrite (rep_cache _ _ Hr), (rep_idle _ _ Hr Hu). by destruct (asked r).
Qed.
Lemma found_info_spec e : entry_ok e → ∃ b, set_cache_info (service_id e) (nelems e) info_zero (info e) = Some (b, found_info (verdict_of e)).
Proof.
  intros [_ Hinfo Hs Hn _]. unfold set_cache_info, found_info, says in *. cbn [v_info verdict_of v_nelems].
  destruct (info e) as [|b|w|g]; cbn in Hinfo; [done|..].
  - destruct Hinfo as [-> Hl], Hs as [Hrep Hne]. cbn -[copy_elems replicate overlay]. unfold dns_cache_set_bc_cache_entry.
    rewrite (proj2 (Z.eqb_neq _ _) Hrep), (proj2 (Nat.eqb_neq _ _) Hne). cbn -[copy_elems replicate overlay].
    rewrite copy_elems_ok by done. by eexists.
  - rewrite Hinfo. cbn. unfold dns_cache_set_wb_cache_entry. rewrite (proj2 (Z.eqb_neq _ _) Hs). destruct w. by eexists.
  - rewrite Hinfo. cbn. destruct g as [? ? []]; by eexists.
Qed.
Lemma info_ok_service z i : info_ok z i → 0 ≤ z < 3 ∧ z ∈ [IP2ACTION_BC_SVC; IP2ACTION_WP_SVC; IP2ACTION_GK_SVC].
Proof.
  unfold IP2ACTION_BC_SVC, IP2ACTION_WP_SVC, IP2ACTION_GK_SVC. intros Hi.
  assert (z = 0 ∨ z = 1 ∨ z = 2) as [-> |[-> | ->]]; [destruct i; cbn in Hi; naive_solver|split; [lia|set_solver]..].
Qed.
Lemma sim_lookup r s sp : rep s sp → dns_op_ok sp (DLookup r) → sim (DLookup r) s sp.
Proof.
  intros Hr (Haddr & Hinfo & Hcats). unfold sim, dns_exec, dns_cache_ip2action_lookup, mbind, M_bind. cbn [spec_step].
  destruct (lookup_ip2action_spec s sp r Hr Haddr) as (res & -> & Hres). destruct res as [p|]; [|rewrite Hres; by exists s].
  destruct Hres as (e & Hp & He & -> & Hv). cbn [mbind option_bind]. rewrite Hv.
  unfold i2a_at, gets, mbind, M_bind. rewrite Hp. cbn [deref]. unfold mret, M_ret. destruct (found_info_spec e He) as [b Hf].
  destruct (info_ok_service _ _ (e_info _ He)) as [Hsvc Hin]. rewrite Hinfo, Hf, copy_elems_ok by first [done|apply He].
  rewrite (bool_decide_eq_true_2 _ Hin). cbn [v_unknown verdict_of]. destruct (cat_unknown_to_service e) eqn:Hunk.
  - exists s. split; [|done]. unfold mret, M_ret, answer. cbn. by rewrite Hunk.
  - rewrite (rep_hits _ _ Hr), (rep_hlen _ _ Hr), (proj2 (Z.leb_le _ _) (proj1 Hsvc)), (proj2 (Z.ltb_lt _ (Z.of_nat SERVICE_PROVIDER_MAX_ELEMS)) (proj2 Hsvc)).
    cbn. eexists. split; [unfold mret, M_ret, answer; cbn; by rewrite Hunk|]. destruct Hr. split; try done; cbn.
    + by rewrite rep_hits0.
    + by rewrite length_alter.
Qed.
Lemma sim_policy r s sp : rep s sp → dns_op_ok sp (DPolicy r) → sim (DPolicy r) s sp.
Proof.
  intros Hr Haddr. cbn in Haddr. exists s. split; [|done]. unfold dns_exec, dns_cache_get_policy_action, gets, mbind, M_bind. cbn [spec_step fst].
  rewrite (rep_init _ _ Hr). destruct (in_use sp) eqn:Hu; cbn [negb].
  - destruct (lookup_ip2action_spec s sp r Hr Haddr) as (res & -> & Hres). destruct res as [p|]; [|by rewrite Hres].
    destruct Hres as (e & Hp & He & -> & Hv). cbn [mbind option_bind]. rewrite Hv. unfold i2a_at, gets, mbind, M_bind. by rewrite Hp.
  - rewrite (rep_cache _ _ Hr), (rep_idle _ _ Hr Hu). by destruct (asked r).
Qed.
Lemma dns_step_sim op s sp : rep s sp → dns_op_ok sp op → sim op s sp.
Proof.
  intros Hr Hok. destruct op; eauto using sim_init, sim_cleanup_mgr, sim_cleanup, sim_ttl, sim_size, sim_tick, sim_add, sim_del,
    sim_lookup, sim_policy.
Qed.
Lemma dns_run_sim ops s sp : rep s sp → ops_ok sp ops →
  ∃ s', dns_exec_all ops s = Some ((spec_run ops sp).1, s') ∧ rep s' (spec_run ops sp).2.
Proof.
  revert s sp. induction ops as [|op ops IH]; intros s sp Hr Hok; [by exists s|]. destruct Hok as [Hop Hok].
  destruct (dns_step_sim op s sp Hr Hop) as (s1 & Hrun & Hr1). destruct (IH s1 _ Hr1 Hok) as (s2 & Hrun2 & Hr2).
  exists s2. cbn [dns_exec_all spec_run]. unfold mbind, M_bind. rewrite Hrun, Hrun2.
  destruct (spec_step op sp) as [r sp1]. cbn in *. by destruct (spec_run ops sp1).
Qed.
Lemma dns_rep_initial : rep dns_initial spec_initial.
Proof. split; try done; cbn; first [by constructor|lia]. Qed.

(** C7. The cache of verdicts is a finite map shared by its users: every sequence of calls
    with requests of the right shape and at most 255 users at a time runs without a fault
    and gets, call by call, the answers of the abstract cache.  There an entry is found
    exactly by the device and the address it was added for, until it is deleted, is
    older than its time to live when a cleanup runs, or the last user has left; adding an
    entry again renews the action, the redirection and the time to live and keeps the policy, the
    categories and the provider of the first one.  The number of entries and the order of the
    tree follow. *)
Theorem dns_cache_refines ops : ops_ok spec_initial ops →
  ∃ s, dns_exec_all ops dns_initial = Some ((spec_run ops spec_initial).1, s) ∧
    i2a_sorted (ip2a_tree s) ∧ abs (ip2a_tree s) = s_cache (spec_run ops spec_initial).2 ∧
    entries s = wraps 32 (Z.of_nat (length (ip2a_tree s))).
Proof.
  intros Hok. destruct (dns_run_sim ops _ _ dns_rep_initial Hok) as (s & Hrun & []). exists s. by split_and!.
Qed.

Definition demo_dns_req (last : Z) (act : Z) : ip2action_req :=
  Ip2ActionReq (Some [2; 0; 0; 0; 0; 1]) (Some (SockAddr AF_INET [0; 53; 10; 0; 0; last])) 60 act 3 IP2ACTION_GK_SVC 1 false
    [7; 0; 0; 0; 0; 0; 0; 0] false (gk_info (GkInfo 1 2 (Some "policy"))).
Definition demo_dns_ask (last : Z) : ip2action_req :=
  Ip2ActionReq (Some [2; 0; 0; 0; 0; 1]) (Some (SockAddr AF_INET [1; 1; 10; 0; 0; last])) 0 0 0 0 0 false
    (replicate 8 0) false info_zero.
Definition demo_dns_ops : list dns_op :=
  [DInit; DAdd (demo_dns_req 1 5); DLookup (demo_dns_ask 1); DLookup (demo_dns_ask 2); DTick 60; DTtlCleanup; DLookup (demo_dns_ask 1);
   DSize; DCleanupMgr].
Lemma demo_addr_ok last : addr_ok (demo_dns_ask last).
Proof. intros a [= <-]. by left. Qed.
Lemma demo_dns_ops_ok : ops_ok spec_initial demo_dns_ops.
Proof.
  repeat split; unfold URL_REPORT_MAX_ELEMS; cbn; try lia; try done; try apply demo_addr_ok; try (by eexists).
  - intros a [= <-]. by left.
Qed.
Lemma dns_cache_refines_witness : ∃ s, dns_exec_all demo_dns_ops dns_initial = Some ((spec_run demo_dns_ops spec_initial).1, s) ∧
  ip2a_tree s = [].
Proof.
  destruct (dns_cache_refines demo_dns_ops demo_dns_ops_ok) as (s & Hrun & _). exists s. split; [exact Hrun|].
  assert (snd <$> dns_exec_all demo_dns_ops dns_initial = Some s) as Hs by (by rewrite Hrun). vm_compute in Hs. by injection Hs as <-.
Defined.

(** The number of users is counted in eight bits: after 257 calls of [dns_cache_init] the
    first user that leaves takes the entries of all others with it. *)
Lemma dns_refcount_wraps : ∃ rs s, dns_exec_all (replicate 257 DInit ++ [DAdd (demo_dns_req 1 5); DCleanupMgr]) dns_initial = Some (rs, s) ∧
  dns_initialized s = false ∧ ip2a_tree s = [].
Proof. eexists _, _. split; [vm_compute; reflexivity|done]. Qed.
(** Addresses of other families have no bytes to compare: the second use of such an
    address for a device follows NULL. *)
Lemma dns_other_family_faults :
  let r := Ip2ActionReq (Some [2; 0; 0; 0; 0; 1]) (Some (SockAddr 1 (replicate 126 0))) 60 1 3 IP2ACTION_GK_SVC 0 false
             (replicate 8 0) false (gk_info (GkInfo 1 2 None)) in
  dns_exec_all [DInit; DAdd r] dns_initial ≠ None ∧ dns_exec_all [DInit; DAdd r; DAdd r] dns_initial = None.
Proof. by vm_compute. Qed.
