(* ===== verification/OsnTypes.v ===== *)
(** The address types of src/lib/osn/src/osn_types.c: IPv4 and IPv6 addresses with
    prefixes and lifetimes, and hardware addresses.

    Addresses are the bytes in memory, in network order.  A result is an [option]; for the
    functions that parse, [None] is the result [false], for the others it is undefined
    behaviour (a shift by the width of the type, a read outside of an address).  The
    functions of the C library that the parsers use are modelled as glibc has them, with
    a [long] of 64 bits; only [inet_ntop] for IPv6 is an argument. *)
From stdpp Require Import pretty.
From S2P Require Import Prelude CommonUtil CommonText DsTree DsTreeInv KeySeq.
Local Open Scope Z_scope.

(** *** Numbers in text *)

(** The value of a digit in bases up to 36. *)
Definition digit_value (c : ascii) : option Z :=
  let n := Z.of_nat (nat_of_ascii c) in
  if (48 <=? n) && (n <=? 57) then Some (n - 48)
  else if (65 <=? n) && (n <=? 90) then Some (n - 55)
  else if (97 <=? n) && (n <=? 122) then Some (n - 87)
  else None.
Definition is_digit (base : Z) (c : ascii) : bool :=
  match digit_value c with Some d => d <? base | None => false end.
(** The number at the front of a string and what follows it. *)
Fixpoint scan_digits (base acc : Z) (s : string) : Z * string :=
  match s with
  | EmptyString => (acc, "")
  | String c s' =>
      match digit_value c with
      | Some d => if d <? base then scan_digits base (base * acc + d) s' else (acc, s)
      | None => (acc, s)
      end
  end.
(** Digits after the sign: [None] if there are none. *)
Definition scan_unsigned (base : Z) (s : string) : option (Z * string) :=
  match s with
  | String c _ => if is_digit base c then Some (scan_digits base 0 s) else None
  | EmptyString => None
  end.
(** The prefixes: "0x" for base 16, and for base 0 also "0" for base 8.  A prefix "0x"
    without a digit after it is the number 0. *)
Definition hex_prefix (s : string) : option string :=
  match s with
  | String c0 (String c1 (String c2 s')) =>
      if bool_decide (c0 = "0"%char) && (bool_decide (c1 = "x"%char) || bool_decide (c1 = "X"%char)) && is_digit 16 c2
      then Some (String c2 s') else None
  | _ => None
  end.
Definition scan_prefixed (base : Z) (s : string) : option (Z * string) :=
  if base =? 16 then scan_unsigned 16 (default s (hex_prefix s))
  else match hex_prefix s with
       | Some s' => scan_unsigned 16 s'
       | None => match s with
                 | String c _ => if bool_decide (c = "0"%char) then scan_unsigned 8 s else scan_unsigned 10 s
                 | EmptyString => None
                 end
       end.
(** White space and the sign: the sign, the number and the rest. *)
Fixpoint scan_number (base : Z) (s : string) : option (bool * (Z * string)) :=
  match s with
  | EmptyString => None
  | String c s' =>
      if is_space c then scan_number base s'
      else if bool_decide (c = "-"%char) then pair true <$> scan_prefixed base s'
      else if bool_decide (c = "+"%char) then pair false <$> scan_prefixed base s'
      else pair false <$> scan_prefixed base s
  end.
Definition LONG_MAX : Z := 2 ^ 63 - 1.
Definition LONG_MIN : Z := - 2 ^ 63.
Definition ULONG_MAX : Z := 2 ^ 64 - 1.
(** [strtol(s, NULL, 0)] *)
Definition strtol0 (s : string) : Z :=
  match scan_number 0 s with
  | None => 0
  | Some (neg, (v, _)) => let v := if (neg : bool) then - v else v in Z.max LONG_MIN (Z.min LONG_MAX v)
  end.
(** [strtoul(s, &pend, 16)]: the value and the text at [pend]. *)
Definition strtoul16 (s : string) : Z * string :=
  match scan_number 16 s with
  | None => (0, s)
  | Some (neg, (v, r)) => (if ULONG_MAX <? v then ULONG_MAX else if (neg : bool) then wrapu 64 (- v) else v, r)
  end.

(** [strsep(&p, d)]: the field and the new [p]. *)
Fixpoint strsep (d : ascii) (s : string) : string * option string :=
  match s with
  | EmptyString => ("", None)
  | String c s' => if bool_decide (c = d) then ("", Some s') else let '(f, r) := strsep d s' in (String c f, r)
  end.
(** The same when [p] may be NULL. *)
Definition strsep_opt (d : ascii) (p : option string) : option string * option string :=
  match p with None => (None, None) | Some s => let '(f, r) := strsep d s in (Some f, r) end.

(** *** [inet_pton] and [inet_ntop] *)

(** An octet: up to 255, without leading zeros. *)
Fixpoint octet_digits (acc : Z) (s : string) : option Z :=
  match s with
  | EmptyString => Some acc
  | String c s' =>
      d ← digit_value c;
      if (10 <=? d) || (acc =? 0) || (255 <? 10 * acc + d) then None else octet_digits (10 * acc + d) s'
  end.
Definition octet (s : string) : option Z :=
  match s with
  | EmptyString => None
  | String c s' => d ← digit_value c; if 10 <=? d then None else octet_digits d s'
  end.
Definition inet_pton4 (s : string) : option (list Z) :=
  l ← mapM octet (strsep_all "." s);
  if (length l =? 4)%nat then Some l else None.
Definition inet_ntop4 (a : list Z) : string := String.concat "." (pretty <$> a).

(** A group of up to four hexadecimal digits, as two bytes. *)
Definition hex_group (s : string) : option (list Z) :=
  if (4 <? String.length s)%nat then None
  else '(v, r) ← scan_unsigned 16 s; if bool_decide (r = "") then Some [Z.shiftr v 8; Z.land v 255] else None.
(** Groups, the last of which may be an IPv4 address. *)
Fixpoint groups (last_v4 : bool) (fs : list string) : option (list Z) :=
  match fs with
  | [] => Some []
  | [f] => match hex_group f with
           | Some b => Some b
           | None => if last_v4 then inet_pton4 f else None
           end
  | f :: fs => b ← hex_group f; r ← groups last_v4 fs; Some (b ++ r)
  end.
(** A colon at the begin or the end has to be doubled. *)
Definition strip_colon (fs : list string) : option (list string) :=
  match fs with
  | "" :: "" :: fs => Some ("" :: fs)
  | "" :: _ => None
  | fs => Some fs
  end.
(** The fields before and after the first empty one. *)
Fixpoint split_gap (fs : list string) : list string * option (list string) :=
  match fs with
  | [] => ([], None)
  | "" :: fs => ([], Some fs)
  | f :: fs => let '(l, r) := split_gap fs in (f :: l, r)
  end.
Definition inet_pton6 (s : string) : option (list Z) :=
  fs ← strip_colon (strsep_all ":" s);
  fs ← reverse <$> strip_colon (reverse fs);
  match split_gap fs with
  | (l, None) => b ← groups true l; if (length b =? 16)%nat then Some b else None
  | (l, Some r) =>
      b ← groups false l;
      c ← groups true r;
      if (length b + length c <=? 14)%nat then Some (b ++ replicate (16 - length b - length c) 0 ++ c) else None
  end.

(** *** IPv4 *)

(** Four bytes as a number ([ntohl]) and back ([htonl]). *)
Definition be32 (b : list Z) : Z := foldl (λ n x, Z.lor (Z.shiftl n 8) x) 0 b.
Definition to_be32 (n : Z) : list Z := (λ k, Z.land (Z.shiftr n k) 255) <$> [24; 16; 8; 0].

Record osn_ip_addr_t := IpAddr { ia_addr : list Z; ia_prefix : Z }.
Definition OSN_IP_ADDR_INIT : osn_ip_addr_t := IpAddr [0; 0; 0; 0] (-1).
Definition OSN_IP_ADDR_LEN : nat := 19.
Definition OSN_IP6_ADDR_LEN : nat := 66.

(** [snprintf(buf + len, sz - len, ...)] *)
Definition append (sz : nat) (buf t : string) : string := buf +:+ String.substring 0 (sz - String.length buf - 1) t.
(** [__FMT_osn_ip_addr]; the buffer has room for every address. *)
Definition FMT_osn_ip_addr (sz : nat) (addr : osn_ip_addr_t) : string :=
  let buf := inet_ntop4 (ia_addr addr) in
  if 0 <=? ia_prefix addr then append sz buf ("/" +:+ pretty (ia_prefix addr)) else buf.
(** [osn_ip_addr_from_str] *)
Definition osn_ip_addr_from_str (str : string) : option osn_ip_addr_t :=
  if (OSN_IP6_ADDR_LEN <=? String.length str)%nat then None else
  let '(paddr, pbuf) := strsep "/" str in
  a ← inet_pton4 paddr;
  match pbuf with
  | None => Some (IpAddr a (-1))
  | Some p => let prefix := wraps 32 (strtol0 p) in
              if (prefix <? 0) || (32 <? prefix) then None else Some (IpAddr a prefix)
  end.
(** [osn_ip_addr_from_in_addr], [osn_ip_addr_from_sockaddr]: of a socket address the family
    and the address. *)
Definition osn_ip_addr_from_in_addr (a : list Z) : osn_ip_addr_t := IpAddr a (ia_prefix OSN_IP_ADDR_INIT).
Definition SOCK_AF_INET : Z := 2.
Definition osn_ip_addr_from_sockaddr (sin : Z * list Z) : option osn_ip_addr_t :=
  if negb (sin.1 =? SOCK_AF_INET) then None else Some (osn_ip_addr_from_in_addr sin.2).
(** [osn_ip_addr_cmp] *)
Definition osn_ip_addr_cmp (a b : osn_ip_addr_t) : Z :=
  let rc := memcmp (ia_addr a) (ia_addr b) in
  if negb (rc =? 0) then rc else wraps 32 (ia_prefix a - ia_prefix b).
(** [osn_ip_addr_to_prefix]: the loop from the highest bit on. *)
Fixpoint to_prefix_loop (n : nat) (laddr ii : Z) : Z :=
  match n with
  | O => ii
  | S n => if Z.land laddr (Z.shiftl 1 (31 - ii)) =? 0 then ii else to_prefix_loop n laddr (ii + 1)
  end.
Definition osn_ip_addr_to_prefix (addr : osn_ip_addr_t) : Z := to_prefix_loop 32 (be32 (ia_addr addr)) 0.
(** [0xFFFFFFFFu >> n], undefined unless 0 <= n < 32 *)
Definition ones_shift (n : Z) : option Z :=
  if (0 <=? n) && (n <? 32) then Some (Z.shiftr 0xFFFFFFFF n) else None.
(** [osn_ip_addr_from_prefix] *)
Definition osn_ip_addr_from_prefix (prefix : Z) : option osn_ip_addr_t :=
  m ← ones_shift prefix;
  Some (IpAddr (to_be32 (wrapu 32 (Z.lnot m))) (ia_prefix OSN_IP_ADDR_INIT)).
(** [osn_ip_addr_subnet] *)
Definition osn_ip_addr_subnet (addr : osn_ip_addr_t) : option osn_ip_addr_t :=
  mask ← (if (ia_prefix addr <? 0) || (31 <? ia_prefix addr) then Some 0xFFFFFFFF
          else m ← ones_shift (ia_prefix addr); Some (wrapu 32 (Z.lnot m)));
  Some (IpAddr (zip_with Z.land (ia_addr addr) (to_be32 mask)) (ia_prefix addr)).
(** [osn_ip_addr_to_bcast] *)
Definition osn_ip_addr_to_bcast (addr : osn_ip_addr_t) : option osn_ip_addr_t :=
  mask ← (if (ia_prefix addr <? 0) || (31 <? ia_prefix addr) then Some 0 else ones_shift (ia_prefix addr));
  Some (IpAddr (zip_with Z.lor (ia_addr addr) (to_be32 mask)) (-1)).

(** *** IPv6 *)

Definition INT_MIN : Z := - 2 ^ 31.
Record osn_ip6_addr_t := Ip6Addr { ia6_addr : list Z; ia6_prefix : Z; ia6_pref_lft : Z; ia6_valid_lft : Z }.
(** [__FMT_osn_ip6_addr] *)
Definition FMT_osn_ip6_addr (inet_ntop6 : list Z → string) (sz : nat) (addr : osn_ip6_addr_t) : string :=
  let buf := inet_ntop6 (ia6_addr addr) in
  let buf := if 0 <=? ia6_prefix addr then append sz buf ("/" +:+ pretty (ia6_prefix addr)) else buf in
  let buf := if -1 <=? ia6_pref_lft addr then append sz buf ("," +:+ pretty (ia6_pref_lft addr)) else buf in
  if -1 <=? ia6_valid_lft addr then append sz buf ("," +:+ pretty (ia6_valid_lft addr)) else buf.
(** [osn_ip6_addr_from_str] *)
Definition osn_ip6_addr_from_str (str : string) : option osn_ip6_addr_t :=
  if (OSN_IP6_ADDR_LEN <=? String.length str)%nat then None else
  let '(paddr, pbuf) := strsep "," str in
  let '(ppref, pbuf) := strsep_opt "," pbuf in
  let '(pvalid, pbuf) := strsep_opt "," pbuf in
  let '(paddr, pbuf) := strsep "/" paddr in
  let '(pprefix, pbuf) := strsep_opt "/" pbuf in
  a ← inet_pton6 paddr;
  prefix ← match pprefix with
           | None => Some (-1)
           | Some p => let prefix := wraps 32 (strtol0 p) in if (prefix <? 0) || (128 <? prefix) then None else Some prefix
           end;
  let lft (p : option string) := match p with None => INT_MIN | Some p => wraps 32 (strtol0 p) end in
  Some (Ip6Addr a prefix (lft ppref) (lft pvalid)).
(** [osn_ip6_addr_cmp] *)
Definition osn_ip6_addr_cmp (a b : osn_ip6_addr_t) : Z :=
  let rc := memcmp (ia6_addr a) (ia6_addr b) in
  if negb (rc =? 0) then rc else
  let rc := wraps 32 (ia6_prefix a - ia6_prefix b) in
  if negb (rc =? 0) then rc else
  let rc := wraps 32 (ia6_pref_lft a - ia6_pref_lft b) in
  if negb (rc =? 0) then rc else
  wraps 32 (ia6_valid_lft b - ia6_valid_lft b).
(** [osn_ip6_addr_nolft_cmp] *)
Definition osn_ip6_addr_nolft_cmp (a b : osn_ip6_addr_t) : Z :=
  let rc := memcmp (ia6_addr a) (ia6_addr b) in
  if negb (rc =? 0) then rc else wraps 32 (ia6_prefix a - ia6_prefix b).

(** [bitcmp]: whole bytes, then the bits of the last one. *)
Fixpoint bitcmp_loop (ii nbits : Z) (a b : list Z) : option Z :=
  match a, b with
  | x :: a, y :: b =>
      if ii + 8 <? nbits then
        if negb (x =? y) then Some (x - y) else bitcmp_loop (ii + 8) nbits a b
      else
        let mask := wrapu 8 (Z.shiftl 255 (Z.land (wrapu 64 (ii - nbits)) 7)) in
        if negb (Z.land x mask =? Z.land y mask) then Some (Z.land x mask - Z.land y mask) else Some 0
  | _, _ => None
  end.
Definition bitcmp (a b : list Z) (nbits : Z) : option Z := bitcmp_loop 0 nbits a b.
(** [osn_ip6_addr_is_subnet]; the number of bits is a [size_t]. *)
Definition osn_ip6_addr_is_subnet (addr subnet : osn_ip6_addr_t) : option bool :=
  let addr_prefix := if ia6_prefix addr =? -1 then 128 else ia6_prefix addr in
  let subnet_prefix := if ia6_prefix subnet =? -1 then 128 else ia6_prefix subnet in
  if addr_prefix <? subnet_prefix then Some false
  else r ← bitcmp (ia6_addr addr) (ia6_addr subnet) (wrapu 64 (ia6_prefix subnet)); Some (r =? 0).

Inductive osn_ip6_addr_kind :=
  | OSN_IP6_ADDR_INVALID | OSN_IP6_ADDR_LOOPBACK | OSN_IP6_ADDR_LOCAL_LINK | OSN_IP6_ADDR_LOCAL_UNIQUE
  | OSN_IP6_ADDR_GLOBAL | OSN_IP6_ADDR_MULTICAST.
(** [osn_ip6_addr_type]: the subnets in the order of the tests. *)
Fixpoint first_subnet (ip6 : osn_ip6_addr_t) (l : list (string * osn_ip6_addr_kind)) : option osn_ip6_addr_kind :=
  match l with
  | [] => Some OSN_IP6_ADDR_INVALID
  | (t, k) :: l =>
      addr ← osn_ip6_addr_from_str t;
      b ← osn_ip6_addr_is_subnet ip6 addr;
      if (b : bool) then Some k else first_subnet ip6 l
  end.
Definition osn_ip6_addr_type (ip6 : osn_ip6_addr_t) : option osn_ip6_addr_kind :=
  addr ← osn_ip6_addr_from_str "::1/128";
  if osn_ip6_addr_cmp ip6 addr =? 0 then Some OSN_IP6_ADDR_LOOPBACK
  else first_subnet ip6 [("fe80::/10", OSN_IP6_ADDR_LOCAL_LINK); ("fc00::/7", OSN_IP6_ADDR_LOCAL_UNIQUE);
                         ("ff::/8", OSN_IP6_ADDR_MULTICAST); ("2000::/3", OSN_IP6_ADDR_GLOBAL)].

(** *** Hardware addresses *)

(** The fields between ':' and '-' ([strsep] until it returns NULL). *)
Fixpoint mac_fields (s : string) : list string :=
  match s with
  | EmptyString => [""]
  | String c s' =>
      match mac_fields s' with
      | f :: fs => if bool_decide (c = ":"%char) || bool_decide (c = "-"%char) then "" :: f :: fs else String c f :: fs
      | [] => []
      end
  end.
Fixpoint mac_loop (mac : list Z) (cmak : nat) (fs : list string) : option (list Z) :=
  match fs with
  | [] => Some mac
  | f :: fs =>
      let '(v, pend) := strtoul16 f in
      let cnum := wraps 64 v in
      if negb (bool_decide (pend = "")) then None
      else if 256 <=? cnum then None
      else if (6 <=? cmak)%nat then None
      else mac_loop (<[cmak := wrapu 8 cnum]> mac) (S cmak) fs
  end.
(** [osn_mac_addr_from_str]; [mac] is what the structure held before. *)
Definition osn_mac_addr_from_str (mac : list Z) (str : string) : option (list Z) :=
  if (64 <=? String.length str)%nat then None else mac_loop mac 0 (mac_fields str).
Definition osn_mac_addr_cmp (a b : list Z) : Z := memcmp a b.
(** [printf] with [PRI_osn_mac_addr] and [FMT_osn_mac_addr] *)
Definition mac_hex_char (n : Z) : ascii := default "0"%char (String.get (Z.to_nat n) "0123456789abcdef").
Definition hex_byte (b : Z) : string := String (mac_hex_char (Z.shiftr b 4)) (String (mac_hex_char (Z.land b 15)) "").
Definition FMT_osn_mac_addr (mac : list Z) : string := String.concat ":" (hex_byte <$> mac).
