(* ===== verification/OsnTypesThms.v ===== *)
(** Facts about the address types: text and numbers, masks and bits. *)
From stdpp Require Import pretty.
From S2P Require Import Prelude CommonUtil CommonText CommonUtilThms DsTree DsTreeInv KeySeq OsnTypes.
Local Open Scope Z_scope.

Definition is_byte (x : Z) : Prop := 0 ≤ x < 256.
(** A property of bytes that was checked on all of them. *)
Lemma all_bytes (P : Z → bool) : forallb P (seqZ 0 256) = true → ∀ x, is_byte x → P x = true.
Proof. intros H x Hx. rewrite forallb_forall in H. apply H. apply list_elem_of_In, elem_of_seqZ. unfold is_byte in *. lia. Qed.
Lemma all_range (P : Z → bool) lo n : forallb P (seqZ lo n) = true → ∀ x, lo ≤ x < lo + n → P x = true.
Proof. intros H x Hx. rewrite forallb_forall in H. apply H. apply list_elem_of_In, elem_of_seqZ. lia. Qed.

(** *** Separators *)

Fixpoint no_char (d : ascii) (s : string) : bool :=
  match s with EmptyString => true | String c s => negb (bool_decide (c = d)) && no_char d s end.
Lemma no_char_cons d c s : no_char d (String c s) = true ↔ c ≠ d ∧ no_char d s = true.
Proof. cbn. rewrite andb_true_iff, negb_true_iff. by rewrite bool_decide_eq_false. Qed.
Lemma str_app_cons c s t : String c s +:+ t = String c (s +:+ t).
Proof. done. Qed.
Lemma no_char_app d s t : no_char d (s +:+ t) = no_char d s && no_char d t.
Proof. induction s as [|c s IH]; [done|]. rewrite str_app_cons. cbn [no_char]. by rewrite IH, andb_assoc. Qed.
Lemma strsep_hit d f r : no_char d f = true → strsep d (f +:+ String d r) = (f, Some r).
Proof.
  induction f as [|c f IH]; intros Hn.
  - change ("" +:+ String d r) with (String d r). cbn [strsep]. by rewrite bool_decide_eq_true_2.
  - apply no_char_cons in Hn as [? ?]. rewrite str_app_cons. cbn [strsep]. by rewrite bool_decide_eq_false_2, IH by done.
Qed.
Lemma strsep_end d f : no_char d f = true → strsep d f = (f, None).
Proof.
  induction f as [|c f IH]; intros Hn; [done|]. cbn [strsep].
  apply no_char_cons in Hn as [? ?]. by rewrite bool_decide_eq_false_2, IH by done.
Qed.
Lemma strsep_all_hit d f r : no_char d f = true → strsep_all d (f +:+ String d r) = f :: strsep_all d r.
Proof.
  assert (∀ s, ∃ g gs, strsep_all d s = g :: gs) as Hne.
  { intros s. induction s as [|c s (g & gs & E)]; cbn; [eauto|]. rewrite E. case_bool_decide; eauto. }
  induction f as [|c f IH]; intros Hn.
  - change ("" +:+ String d r) with (String d r). cbn [strsep_all]. destruct (Hne r) as (g & gs & ->). by rewrite bool_decide_eq_true_2.
  - apply no_char_cons in Hn as [? ?]. rewrite str_app_cons. cbn [strsep_all]. rewrite IH by done. by rewrite bool_decide_eq_false_2.
Qed.
Lemma strsep_all_end d f : no_char d f = true → strsep_all d f = [f].
Proof.
  induction f as [|c f IH]; intros Hn; [done|]. cbn [strsep_all].
  apply no_char_cons in Hn as [? ?]. by rewrite IH, bool_decide_eq_false_2 by done.
Qed.

(** *** Numbers *)

Lemma digit_value_pretty x : (x < 10)%N → digit_value (pretty_N_char x) = Some (Z.of_N x).
Proof.
  intros Hx. assert (x ∈ [0; 1; 2; 3; 4; 5; 6; 7; 8; 9]%N) as Hin.
  { rewrite !elem_of_cons. lia. }
  repeat (apply elem_of_cons in Hin as [->|Hin]; [done|]). by apply not_elem_of_nil in Hin.
Qed.
(** The digits of a number, in front of a text. *)
Lemma scan_digits_pretty x acc s : acc = 0 → scan_digits 10 acc (pretty_N_go x s) = scan_digits 10 (Z.of_N x) s.
Proof.
  intros ->. revert s. induction (N.lt_wf_0 x) as [x _ IH]; intros s.
  assert (x = 0 ∨ 0 < x)%N as [->|Hx] by lia; [by rewrite pretty_N_go_0|].
  rewrite pretty_N_go_step by done. rewrite IH by (by apply N.div_lt). cbn [scan_digits].
  rewrite digit_value_pretty by (by apply N.mod_lt). pose proof (N.mod_lt x 10 ltac:(done)).
  rewrite (proj2 (Z.ltb_lt (Z.of_N (x `mod` 10)%N) 10)) by lia. f_equal. pose proof (N.div_mod x 10 ltac:(done)). lia.
Qed.
Lemma pretty_head x s : (0 < x)%N → ∃ d r, (0 < d < 10)%N ∧ pretty_N_go x s = String (pretty_N_char d) r.
Proof.
  revert s. induction (N.lt_wf_0 x) as [x _ IH]; intros s Hx. rewrite pretty_N_go_step by done.
  destruct (N.eq_0_gt_0_cases (x `div` 10)%N) as [Hz|Hd].
  - rewrite Hz, pretty_N_go_0. eexists _, _. split; [|done]. pose proof (N.div_mod x 10 ltac:(done)).
    pose proof (N.mod_lt x 10 ltac:(done)). lia.
  - apply IH; [by apply N.div_lt|done].
Qed.
Lemma pretty_go_length k x s : (x < 10 ^ N.of_nat k)%N → (String.length (pretty_N_go x s) ≤ k + String.length s)%nat.
Proof.
  revert x s. induction k as [|k IH]; intros x s Hx.
  - assert (x = 0)%N as -> by (cbn in Hx; lia). by rewrite pretty_N_go_0.
  - assert (x = 0 ∨ 0 < x)%N as [->|Hp] by lia; [rewrite pretty_N_go_0; lia|]. rewrite pretty_N_go_step by done.
    rewrite (IH (x `div` 10)%N); [cbn; lia|]. apply N.Div0.div_lt_upper_bound. by rewrite Nat2N.inj_succ, N.pow_succ_r' in Hx.
Qed.
Lemma no_char_pretty_go d x s : no_char d "0123456789" = true → no_char d s = true → no_char d (pretty_N_go x s) = true.
Proof.
  intros Hd. revert s. induction (N.lt_wf_0 x) as [x _ IH]; intros s Hs.
  assert (x = 0 ∨ 0 < x)%N as [->|Hx] by lia; [by rewrite pretty_N_go_0|].
  rewrite pretty_N_go_step by done. apply IH; [by apply N.div_lt|]. apply no_char_cons. split; [|done].
  cbn in Hd. repeat (apply andb_true_iff in Hd as [?%negb_true_iff%bool_decide_eq_false Hd]).
  by apply (pretty_char_cases (λ c, c ≠ d)); repeat constructor.
Qed.

(** The numbers that are printed: a lifetime or a prefix. *)
Definition printed (z : Z) : Prop := -1 ≤ z < 2 ^ 31.
Lemma printed_cases z : printed z → z = -1 ∨ z = 0 ∨ ∃ p, z = Z.pos p.
Proof. unfold printed. intros. destruct z as [|p|p]; [auto|eauto|left; lia]. Qed.
Lemma scan_digits_end base acc : scan_digits base acc "" = (acc, "").
Proof. done. Qed.
Lemma strtol0_pretty z : printed z → strtol0 (pretty z) = z.
Proof.
  intros Hz. destruct (printed_cases z Hz) as [->|[->|[p ->]]]; [done..|].
  change (pretty (Z.pos p)) with (pretty_N_go (N.pos p) "").
  assert (scan_digits 10 0 (pretty_N_go (N.pos p) "") = (Z.pos p, "")) as Hs by (by rewrite scan_digits_pretty).
  destruct (pretty_head (N.pos p) "" ltac:(done)) as (d & r & Hd & E). rewrite E in Hs |- *. unfold strtol0.
  assert (d ∈ [1; 2; 3; 4; 5; 6; 7; 8; 9]%N) as Hin by (rewrite !elem_of_cons; lia).
  assert (scan_number 0 (String (pretty_N_char d) r) = Some (false, scan_digits 10 0 (String (pretty_N_char d) r))) as ->.
  { repeat (apply elem_of_cons in Hin as [->|Hin]; [by destruct r as [|? []]|]). by apply not_elem_of_nil in Hin. }
  rewrite Hs. unfold LONG_MIN, LONG_MAX, printed in *. lia.
Qed.
Lemma wraps_printed z : printed z → wraps 32 z = z.
Proof. intros [? ?]. unfold wraps. rewrite Z.mod_small; lia. Qed.
Lemma pretty_printed z : printed z →
  (String.length (pretty z) ≤ 10)%nat ∧ no_char "," (pretty z) = true ∧ no_char "/" (pretty z) = true.
Proof.
  intros Hz. destruct (printed_cases z Hz) as [->|[->|[p ->]]]; [split_and!; [by apply Nat.leb_le; vm_compute|by vm_compute..]..|].
  change (pretty (Z.pos p)) with (pretty_N_go (N.pos p) ""). split_and!; [|by apply no_char_pretty_go..].
  rewrite (pretty_go_length 10) by (cbn; unfold printed in Hz; lia). cbn. lia.
Qed.

(** *** IPv4 text *)

Definition octet_text_ok (x : Z) : bool :=
  bool_decide (octet (pretty x) = Some x) && no_char "." (pretty x) && no_char "/" (pretty x) &&
  (String.length (pretty x) <=? 3)%nat.
Lemma octet_text x : is_byte x →
  octet (pretty x) = Some x ∧ no_char "." (pretty x) = true ∧ no_char "/" (pretty x) = true ∧ (String.length (pretty x) ≤ 3)%nat.
Proof.
  intros Hx. assert (octet_text_ok x = true) as H by (by apply (all_bytes octet_text_ok); [vm_compute|]).
  unfold octet_text_ok in H. rewrite !andb_true_iff, bool_decide_eq_true, Nat.leb_le in H. naive_solver.
Qed.
Definition dotted (a b c d : Z) : string := pretty a +:+ String "." (pretty b +:+ String "." (pretty c +:+ String "." (pretty d))).
Lemma ntop4_dotted a b c d : inet_ntop4 [a; b; c; d] = dotted a b c d.
Proof. done. Qed.
Lemma dotted_text a b c d : is_byte a → is_byte b → is_byte c → is_byte d →
  inet_pton4 (dotted a b c d) = Some [a; b; c; d] ∧ no_char "/" (dotted a b c d) = true ∧
  (String.length (dotted a b c d) ≤ 15)%nat.
Proof.
  intros (Ha1 & Ha2 & Ha3 & Ha4)%octet_text (Hb1 & Hb2 & Hb3 & Hb4)%octet_text (Hc1 & Hc2 & Hc3 & Hc4)%octet_text
    (Hd1 & Hd2 & Hd3 & Hd4)%octet_text. unfold dotted. split_and!.
  - unfold inet_pton4. rewrite !strsep_all_hit, strsep_all_end by done. cbn [mapM]. by rewrite Ha1, Hb1, Hc1, Hd1.
  - repeat (rewrite no_char_app, andb_true_iff; split; [done|]; apply no_char_cons; split; [done|]). done.
  - repeat (rewrite string_length_app; cbn [String.length]). lia.
Qed.
Lemma append_fits sz buf t : (String.length buf + String.length t < sz)%nat → append sz buf t = buf +:+ t.
Proof. intros H. unfold append. by rewrite substring_full by lia. Qed.

(** *** Masks *)

Lemma lor_byte n x : 0 ≤ n → is_byte x → Z.lor (Z.shiftl n 8) x = n * 256 + x.
Proof.
  intros Hn Hx. assert (Z.land (Z.shiftl n 8) x = 0) as Hz.
  { apply Z.bits_inj'. intros i Hi. rewrite Z.land_spec, Z.bits_0. destruct (Z.lt_ge_cases i 8).
    - by rewrite Z.shiftl_spec_low.
    - rewrite (Z.bits_above_log2 x i); [apply andb_false_r|unfold is_byte in *; lia|].
      destruct (Z.eq_dec x 0) as [->|]; [cbn; lia|]. apply Z.log2_lt_pow2; [unfold is_byte in *; lia|].
      apply (Z.lt_le_trans _ (2 ^ 8)); [apply Hx|]. apply Z.pow_le_mono_r; lia. }
  rewrite <- Z.lxor_lor, <- Z.add_nocarry_lxor by done. rewrite Z.shiftl_mul_pow2 by lia. lia.
Qed.
Lemma be32_value a b c d : is_byte a → is_byte b → is_byte c → is_byte d →
  be32 [a; b; c; d] = a * 2 ^ 24 + b * 2 ^ 16 + c * 2 ^ 8 + d.
Proof.
  intros Ha Hb Hc Hd. unfold be32. cbn [foldl]. unfold is_byte in *.
  rewrite (lor_byte 0 a), (lor_byte _ b), (lor_byte _ c), (lor_byte _ d) by (unfold is_byte; lia). lia.
Qed.
(** A byte and a mask of high or low bits. *)
Definition mask_ok (x : Z) : bool :=
  forallb (λ j, (Z.land x (256 - 2 ^ j) =? x - x `mod` 2 ^ j) && (Z.lor x (2 ^ j - 1) =? x - x `mod` 2 ^ j + 2 ^ j - 1)) (seqZ 0 9).
Lemma byte_mask x j : is_byte x → 0 ≤ j ≤ 8 →
  Z.land x (256 - 2 ^ j) = x - x `mod` 2 ^ j ∧ Z.lor x (2 ^ j - 1) = x - x `mod` 2 ^ j + 2 ^ j - 1.
Proof.
  intros Hx Hj. assert (mask_ok x = true) as H by (by apply (all_bytes mask_ok); [vm_compute|]). unfold mask_ok in H.
  pose proof (all_range _ 0 9 H j ltac:(lia)) as Hj'. apply andb_true_iff in Hj' as [?%Z.eqb_eq ?%Z.eqb_eq]. done.
Qed.
(** The four bytes of a mask, by the number of low bits in each. *)
Definition low_bits (p : Z) : list Z := (λ i, Z.max 0 (Z.min 8 (8 * i + 8 - p))) <$> [0; 1; 2; 3].
Definition masks_ok (p : Z) : bool :=
  bool_decide (to_be32 (wrapu 32 (Z.lnot (Z.shiftr 0xFFFFFFFF p))) = (λ j, 256 - 2 ^ j) <$> low_bits p) &&
  bool_decide (to_be32 (Z.shiftr 0xFFFFFFFF p) = (λ j, 2 ^ j - 1) <$> low_bits p) &&
  (to_prefix_loop 32 (be32 (to_be32 (wrapu 32 (Z.lnot (Z.shiftr 0xFFFFFFFF p))))) 0 =? p) &&
  (be32 (to_be32 (wrapu 32 (Z.lnot (Z.shiftr 0xFFFFFFFF p)))) =? 2 ^ 32 - 2 ^ (32 - p)).
Lemma masks p : 0 ≤ p < 32 →
  to_be32 (wrapu 32 (Z.lnot (Z.shiftr 0xFFFFFFFF p))) = (λ j, 256 - 2 ^ j) <$> low_bits p ∧
  to_be32 (Z.shiftr 0xFFFFFFFF p) = (λ j, 2 ^ j - 1) <$> low_bits p ∧
  to_prefix_loop 32 (be32 (to_be32 (wrapu 32 (Z.lnot (Z.shiftr 0xFFFFFFFF p))))) 0 = p ∧
  be32 (to_be32 (wrapu 32 (Z.lnot (Z.shiftr 0xFFFFFFFF p)))) = 2 ^ 32 - 2 ^ (32 - p).
Proof.
  intros Hp. assert (masks_ok p = true) as H by (apply (all_range masks_ok 0 32); [by vm_compute|lia]).
  unfold masks_ok in H. rewrite !andb_true_iff, !bool_decide_eq_true, !Z.eqb_eq in H.
  destruct H as [[[H1 H2] H3] H4]. exact (conj H1 (conj H2 (conj H3 H4))).
Qed.
(** Clearing or setting the low bits byte by byte is rounding of the number. *)
Definition clamp8 (k : Z) : Z := Z.max 0 (Z.min 8 k).
Definition floor2 (n k : Z) : Z := n - n `mod` 2 ^ k.
Lemma floor2_byte x d k : is_byte d → 0 ≤ k → floor2 (x * 256 + d) k = floor2 x (Z.max 0 (k - 8)) * 256 + floor2 d (clamp8 k).
Proof.
  intros Hd Hk. unfold floor2, clamp8, is_byte in *. destruct (Z.le_ge_cases 8 k) as [H8|H8].
  - rewrite Z.max_r, Z.min_l, Z.max_r by lia. change (2 ^ 8) with 256. rewrite (Z.mod_small d) by lia.
    replace (2 ^ k) with (2 ^ (k - 8) * 256) by (change 256 with (2 ^ 8); rewrite <- Z.pow_add_r by lia; f_equal; lia).
    assert ((x * 256 + d) `mod` 256 = d) as Hm by (rewrite Z.add_comm, Z_mod_plus_full; apply Z.mod_small; lia).
    assert ((x * 256 + d) `div` 256 = x) as Hq by (rewrite Z.add_comm, Z_div_plus_full, Z.div_small; lia).
    rewrite (Z.mul_comm (2 ^ (k - 8)) 256), Z.rem_mul_r, Hm, Hq by lia. lia.
  - rewrite Z.max_l, Z.min_r, Z.max_r by lia. change (2 ^ 0) with 1. rewrite Z.mod_1_r.
    assert (256 = 2 ^ (8 - k) * 2 ^ k) as H256 by (rewrite <- Z.pow_add_r by lia; by replace (8 - k + k) with 8 by lia).
    assert ((x * 256 + d) `mod` 2 ^ k = d `mod` 2 ^ k) as ->; [|lia].
    by rewrite H256, Z.mul_assoc, (Z.add_comm _ d), Z_mod_plus_full.
Qed.
Lemma ones_byte k : 0 ≤ k → 2 ^ k - 1 = (2 ^ Z.max 0 (k - 8) - 1) * 256 + (2 ^ clamp8 k - 1).
Proof.
  intros Hk. unfold clamp8. destruct (Z.le_ge_cases 8 k) as [H8|H8].
  - rewrite Z.max_r, Z.min_l, Z.max_r by lia. replace (2 ^ k) with (2 ^ (k - 8) * 2 ^ 8); [lia|].
    rewrite <- Z.pow_add_r by lia. f_equal. lia.
  - rewrite Z.max_l, Z.min_r, Z.max_r by lia. lia.
Qed.
Lemma low_bits_clamp p : 0 ≤ p < 32 → let k := 32 - p in
  low_bits p = [clamp8 (Z.max 0 (Z.max 0 (Z.max 0 (k - 8) - 8) - 8)); clamp8 (Z.max 0 (Z.max 0 (k - 8) - 8)); clamp8 (Z.max 0 (k - 8)); clamp8 k].
Proof. intros Hp k. unfold low_bits, clamp8, k. cbn [fmap list_fmap].
  assert (∀ (x y : Z) l l', x = y → l = l' → x :: l = y :: l') as Hc by congruence. repeat (apply Hc; [lia|]). done.
Qed.
Lemma clamp8_range k : 0 ≤ clamp8 k ≤ 8.
Proof. unfold clamp8. lia. Qed.
Lemma floor2_range x k : is_byte x → 0 ≤ k ≤ 8 → is_byte (floor2 x k) ∧ is_byte (floor2 x k + 2 ^ k - 1).
Proof.
  intros Hx Hk. unfold floor2, is_byte in *. pose proof (Z.mod_pos_bound x (2 ^ k) ltac:(apply Z.pow_pos_nonneg; lia)).
  pose proof (Z.mod_le x (2 ^ k) ltac:(lia) ltac:(apply Z.pow_pos_nonneg; lia)). split; [lia|].
  assert (x - x `mod` 2 ^ k = 2 ^ k * (x `div` 2 ^ k)) as -> by (pose proof (Z.div_mod x (2 ^ k) ltac:(lia)); lia).
  assert (x `div` 2 ^ k + 1 ≤ 2 ^ (8 - k)) as Hq.
  { apply Z.le_succ_l, Z.div_lt_upper_bound; [lia|]. rewrite <- Z.pow_add_r by lia. replace (k + (8 - k)) with 8 by lia. apply Hx. }
  assert (2 ^ k * (x `div` 2 ^ k + 1) ≤ 2 ^ k * 2 ^ (8 - k)) as Hm by (apply Z.mul_le_mono_nonneg_l; lia).
  rewrite <- Z.pow_add_r in Hm by lia. replace (k + (8 - k)) with 8 in Hm by lia. change (2 ^ 8) with 256 in Hm.
  assert (0 ≤ x `div` 2 ^ k) by (apply Z.div_pos; lia). split; [|lia]. assert (0 ≤ 2 ^ k * (x `div` 2 ^ k)) by (apply Z.mul_nonneg_nonneg; lia). lia.
Qed.

(** *** Bits of an address *)

(** Bit [i], counted from the highest bit of the first byte. *)
Definition bit_of (a : list Z) (i : Z) : bool := Z.testbit (a !!! Z.to_nat (i `div` 8)) (7 - i `mod` 8).
Lemma bit_of_cons_low x a i : 0 ≤ i < 8 → bit_of (x :: a) i = Z.testbit x (7 - i).
Proof. intros. unfold bit_of. by rewrite Z.div_small, Z.mod_small by lia. Qed.
Lemma bit_of_cons_high x a i : 8 ≤ i → bit_of (x :: a) i = bit_of a (i - 8).
Proof.
  intros. unfold bit_of. replace i with (i - 8 + 1 * 8) at 1 2 by lia. rewrite Z_div_plus_full, Z_mod_plus_full by lia.
  replace (Z.to_nat ((i - 8) `div` 8 + 1)) with (S (Z.to_nat ((i - 8) `div` 8))); [done|].
  pose proof (Z.div_pos (i - 8) 8). lia.
Qed.
Lemma byte_bits_eq x y : is_byte x → is_byte y → x = y ↔ ∀ i, 0 ≤ i < 8 → Z.testbit x i = Z.testbit y i.
Proof.
  intros Hx Hy. split; [by intros ->|]. intros H. apply Z.bits_inj'. intros i Hi. destruct (Z.lt_ge_cases i 8); [by apply H|].
  assert (∀ z, is_byte z → Z.testbit z i = false) as Hz; [|by rewrite !Hz].
  intros z Hb. unfold is_byte in Hb. destruct (Z.eq_dec z 0) as [->|]; [apply Z.bits_0|]. apply Z.bits_above_log2; [lia|].
  apply Z.log2_lt_pow2; [lia|]. apply (Z.lt_le_trans _ (2 ^ 8)); [lia|]. apply Z.pow_le_mono_r; lia.
Qed.
(** The mask for the last [k] bits. *)
Definition last_mask (k : Z) : Z := wrapu 8 (Z.shiftl 255 (Z.land (wrapu 64 (- k)) 7)).
Definition last_mask_ok (k : Z) : bool := forallb (λ i, eqb (Z.testbit (last_mask k) i) (8 - k <=? i)) (seqZ 0 8).
Lemma last_mask_bits k i : 0 < k ≤ 8 → 0 ≤ i < 8 → Z.testbit (last_mask k) i = (8 - k <=? i).
Proof.
  intros Hk Hi. assert (last_mask_ok k = true) as H by (apply (all_range last_mask_ok 1 8); [by vm_compute|lia]).
  apply eqb_prop. by apply (all_range _ 0 8 H i).
Qed.
Lemma land_byte x m : is_byte x → 0 ≤ m → is_byte (Z.land x m).
Proof.
  intros Hx Hm. split; [apply Z.land_nonneg; left; apply Hx|]. pose proof (Z.land_nonneg x m).
  assert (Z.land x m = Z.land (Z.land x m) 255) as ->.
  { rewrite <- Z.land_assoc, (Z.land_comm m), Z.land_assoc. f_equal. change 255 with (Z.ones 8). rewrite Z.land_ones by lia.
    symmetry. by apply Z.mod_small. }
  change 255 with (Z.ones 8). rewrite Z.land_ones by lia. by apply Z.mod_pos_bound.
Qed.
Lemma last_bits x y k : is_byte x → is_byte y → 0 < k ≤ 8 →
  Z.land x (last_mask k) = Z.land y (last_mask k) ↔ ∀ i, 0 ≤ i < k → Z.testbit x (7 - i) = Z.testbit y (7 - i).
Proof.
  intros Hx Hy Hk. assert (0 ≤ last_mask k) as Hm by (unfold last_mask, wrapu; apply Z.mod_pos_bound; lia).
  rewrite byte_bits_eq by by apply land_byte. setoid_rewrite Z.land_spec. split.
  - intros H i Hi. specialize (H (7 - i) ltac:(lia)). rewrite last_mask_bits in H by lia.
    rewrite (proj2 (Z.leb_le _ _)) in H by lia. by rewrite !andb_true_r in H.
  - intros H i Hi. rewrite last_mask_bits by lia. destruct (Z.leb_spec (8 - k) i); [|by rewrite !andb_false_r].
    specialize (H (7 - i) ltac:(lia)). replace (7 - (7 - i)) with i in H by lia. by rewrite H.
Qed.
Lemma bitcmp_loop_spec a b ii n : length a = length b → Forall is_byte a → Forall is_byte b →
  0 < n - ii ≤ 8 * Z.of_nat (length a) → 0 ≤ ii →
  ∃ r, bitcmp_loop ii n a b = Some r ∧ (r = 0 ↔ ∀ i, 0 ≤ i < n - ii → bit_of a i = bit_of b i).
Proof.
  revert b ii. induction a as [|x a IH]; intros [|y b] ii Hl Ha Hb Hn Hii; try done; [cbn in Hn; lia|].
  apply Forall_cons in Ha as [Hx Ha]. apply Forall_cons in Hb as [Hy Hb]. cbn [bitcmp_loop length] in *.
  destruct (Z.ltb_spec (ii + 8) n) as [Hlt|Hge].
  - destruct (Z.eqb_spec x y) as [<-|Hne]; cbn [negb].
    + destruct (IH b (ii + 8)) as (r & -> & Hr); [lia|done|done|lia|lia|]. exists r. split; [done|]. rewrite Hr. split.
      * intros H i Hi. destruct (Z.lt_ge_cases i 8); [by rewrite !bit_of_cons_low by lia|].
        rewrite !bit_of_cons_high by lia. apply H. lia.
      * intros H i Hi. specialize (H (i + 8) ltac:(lia)). rewrite !bit_of_cons_high in H by lia.
        by replace (i + 8 - 8) with i in H by lia.
    + eexists. split; [done|]. split; [lia|]. intros H. exfalso. apply Hne. apply byte_bits_eq; [done|done|]. intros i Hi.
      specialize (H (7 - i) ltac:(lia)). rewrite !bit_of_cons_low in H by lia. by replace (7 - (7 - i)) with i in H by lia.
  - replace (ii - n) with (- (n - ii)) by lia. fold (last_mask (n - ii)).
    assert (Z.land x (last_mask (n - ii)) = Z.land y (last_mask (n - ii)) ↔ ∀ i, 0 ≤ i < n - ii → bit_of (x :: a) i = bit_of (y :: b) i) as Hb'.
    { rewrite last_bits by first [done|lia]. split; intros H i Hi; specialize (H i Hi); by rewrite !bit_of_cons_low in * by lia. }
    destruct (Z.eqb_spec (Z.land x (last_mask (n - ii))) (Z.land y (last_mask (n - ii)))) as [E|Hne]; cbn [negb].
    + exists 0. split; [done|]. by rewrite <- Hb'.
    + eexists. split; [done|]. rewrite <- Hb'. lia.
Qed.
