(* ===== verification/OsnTypesProps.v ===== *)
(** The address types: their properties. *)
From stdpp Require Import pretty.
From S2P Require Import Prelude CommonUtil CommonText DsTree DsTreeInv KeySeq OsnTypes OsnTypesThms.
Local Open Scope Z_scope.

(** *** Subnets *)

Lemma masked_value x0 x1 x2 x3 p : is_byte x0 → is_byte x1 → is_byte x2 → is_byte x3 → 0 ≤ p < 32 →
  be32 (zip_with Z.land [x0; x1; x2; x3] ((λ j, 256 - 2 ^ j) <$> low_bits p)) = floor2 (be32 [x0; x1; x2; x3]) (32 - p) ∧
  be32 (zip_with Z.lor [x0; x1; x2; x3] ((λ j, 2 ^ j - 1) <$> low_bits p)) = floor2 (be32 [x0; x1; x2; x3]) (32 - p) + 2 ^ (32 - p) - 1.
Proof.
  intros H0 H1 H2 H3 Hp. pose proof (low_bits_clamp p Hp) as Hlow. cbv zeta in Hlow. rewrite Hlow. cbn [fmap list_fmap zip_with].
  set (k3 := 32 - p). set (k2 := Z.max 0 (k3 - 8)). set (k1 := Z.max 0 (k2 - 8)). set (k0 := Z.max 0 (k1 - 8)).
  assert (0 ≤ k3 ∧ 0 ≤ k2 ∧ 0 ≤ k1 ∧ 0 ≤ k0 ≤ 8) as (Hk3 & Hk2 & Hk1 & Hk0) by (unfold k0, k1, k2, k3; lia).
  assert (clamp8 k0 = k0) as Hc0 by (unfold clamp8; lia).
  assert (∀ x k, is_byte x → Z.land x (256 - 2 ^ clamp8 k) = floor2 x (clamp8 k) ∧
    Z.lor x (2 ^ clamp8 k - 1) = floor2 x (clamp8 k) + 2 ^ clamp8 k - 1 ∧
    is_byte (floor2 x (clamp8 k)) ∧ is_byte (floor2 x (clamp8 k) + 2 ^ clamp8 k - 1)) as Hbyte.
  { intros x k Hx. destruct (byte_mask x (clamp8 k) Hx (clamp8_range k)), (floor2_range x (clamp8 k) Hx (clamp8_range k)). done. }
  destruct (Hbyte x0 k0 H0) as (-> & -> & ? & ?), (Hbyte x1 k1 H1) as (-> & -> & ? & ?),
    (Hbyte x2 k2 H2) as (-> & -> & ? & ?), (Hbyte x3 k3 H3) as (-> & -> & ? & ?).
  rewrite !be32_value by done.
  replace (x0 * 2 ^ 24 + x1 * 2 ^ 16 + x2 * 2 ^ 8 + x3) with (((x0 * 256 + x1) * 256 + x2) * 256 + x3) by lia.
  rewrite !floor2_byte by done. fold k2 k1 k0. rewrite Hc0.
  pose proof (ones_byte k3 Hk3) as O3. pose proof (ones_byte k2 Hk2) as O2. pose proof (ones_byte k1 Hk1) as O1.
  fold k2 in O3. fold k1 in O2. fold k0 in O1. split; lia.
Qed.

(** C37. Of an IPv4 address with a prefix below 32 the subnet is the address rounded down, and
    the broadcast address rounded up, to a block of the size of the subnet; without a prefix,
    or with prefix 32, the address stays.  The netmask of a prefix below 32 has the value it
    should have, and its prefix is the one it was made from. *)
Theorem osn_subnet_correct a p : length a = 4%nat → Forall is_byte a →
  ∃ s b, osn_ip_addr_subnet (IpAddr a p) = Some s ∧ osn_ip_addr_to_bcast (IpAddr a p) = Some b ∧
    ia_prefix s = p ∧ ia_prefix b = -1 ∧
    if bool_decide (0 ≤ p < 32) then
      let size := 2 ^ (32 - p) in
      be32 (ia_addr s) = be32 a - be32 a `mod` size ∧ be32 (ia_addr b) = be32 (ia_addr s) + size - 1 ∧
      ∃ m, osn_ip_addr_from_prefix p = Some m ∧ be32 (ia_addr m) = 2 ^ 32 - size ∧ osn_ip_addr_to_prefix m = p
    else ia_addr s = a ∧ ia_addr b = a.
Proof.
  intros Hl Hb. destruct a as [|x0 [|x1 [|x2 [|x3 []]]]]; try done. repeat (apply Forall_cons in Hb as [? Hb]). clear Hb Hl.
  unfold osn_ip_addr_subnet, osn_ip_addr_to_bcast, osn_ip_addr_from_prefix, osn_ip_addr_to_prefix, ones_shift. cbn [ia_prefix ia_addr].
  case_bool_decide as Hp.
  - rewrite (proj2 (Z.ltb_ge p 0)), (proj2 (Z.ltb_ge 31 p)), (proj2 (Z.leb_le 0 p)), (proj2 (Z.ltb_lt p 32)) by lia.
    cbn [orb andb mbind option_bind]. eexists _, _. split; [done|]. split; [done|]. cbn [ia_addr ia_prefix].
    destruct (masks p Hp) as (Hm & Hbc & Hpre & Hval), (masked_value x0 x1 x2 x3 p) as [Hs Hb]; [done..|]. split_and!; [done|done| | |].
    + by rewrite Hm, Hs.
    + by rewrite Hm, Hs, Hbc, Hb.
    + eexists. split; [done|]. by split.
  - assert ((p <? 0) || (31 <? p) = true) as ->.
    { apply orb_true_iff. destruct (Z.ltb_spec p 0), (Z.ltb_spec 31 p); auto. exfalso. apply Hp. lia. }
    cbn [mbind option_bind]. eexists _, _. split; [done|]. split; [done|]. cbn [ia_addr ia_prefix].
    change (to_be32 0xFFFFFFFF) with ((λ j, 256 - 2 ^ j) <$> [0; 0; 0; 0]). change (to_be32 0) with ((λ j, 2 ^ j - 1) <$> [0; 0; 0; 0]).
    assert (∀ x, is_byte x → Z.land x (256 - 2 ^ 0) = x ∧ Z.lor x (2 ^ 0 - 1) = x) as Hz.
    { intros x Hx. destruct (byte_mask x 0 Hx ltac:(lia)) as [-> ->]. change (2 ^ 0) with 1. rewrite Z.mod_1_r. lia. }
    cbn [fmap list_fmap zip_with]. destruct (Hz x0), (Hz x1), (Hz x2), (Hz x3); try done. split_and!; congruence.
Qed.
Lemma osn_subnet_correct_witness : ∃ s b, osn_ip_addr_subnet (IpAddr [192; 168; 40; 77] 20) = Some s ∧
  osn_ip_addr_to_bcast (IpAddr [192; 168; 40; 77] 20) = Some b ∧ be32 (ia_addr b) = be32 (ia_addr s) + 4095.
Proof.
  destruct (osn_subnet_correct [192; 168; 40; 77] 20) as (s & b & Hs & Hb & _ & _ & _ & Hbc & _);
    [reflexivity|repeat constructor; lia|]. exists s, b. split; [exact Hs|]. split; [exact Hb|]. rewrite Hbc. vm_compute (2 ^ _). lia.
Defined.
(** The netmask of the longest prefix, and of every other one outside of the range, is a
    shift by the width of the type or more. *)
Lemma osn_from_prefix_undefined p : ¬ 0 ≤ p < 32 → osn_ip_addr_from_prefix p = None.
Proof.
  intros Hp. unfold osn_ip_addr_from_prefix, ones_shift. destruct (Z.leb_spec 0 p), (Z.ltb_spec p 32); try done. lia.
Qed.

(** An IPv6 address as the library makes them. *)
Record ip6_ok (x : osn_ip6_addr_t) : Prop := Ip6Ok {
  ip6_len : length (ia6_addr x) = 16%nat; ip6_bytes : Forall is_byte (ia6_addr x); ip6_prefix : -1 ≤ ia6_prefix x ≤ 128;
  ip6_pref : INT_MIN ≤ ia6_pref_lft x < 2 ^ 31; ip6_valid : INT_MIN ≤ ia6_valid_lft x < 2 ^ 31 }.
(** The number of bits an address fixes. *)
Definition plen (x : osn_ip6_addr_t) : Z := if ia6_prefix x =? -1 then 128 else ia6_prefix x.

(** C36. An IPv6 address is in a subnet with a prefix of 1 to 128 bits exactly if its own prefix is not
    shorter and the two agree on all the bits of the prefix of the subnet. *)
Theorem osn_ip6_is_subnet_correct addr subnet : ip6_ok addr → ip6_ok subnet → 0 < ia6_prefix subnet →
  ∃ b, osn_ip6_addr_is_subnet addr subnet = Some b ∧
    (b = true ↔ ia6_prefix subnet ≤ plen addr ∧
       ∀ i, 0 ≤ i < ia6_prefix subnet → bit_of (ia6_addr addr) i = bit_of (ia6_addr subnet) i).
Proof.
  intros [La Ba Pa _ _] [Ls Bs Ps _ _] Hpos. unfold osn_ip6_addr_is_subnet. fold (plen addr).
  rewrite (proj2 (Z.eqb_neq (ia6_prefix subnet) (-1))) by lia. destruct (Z.ltb_spec (plen addr) (ia6_prefix subnet)).
  { exists false. split; [done|]. split; [done|lia]. }
  unfold wrapu. rewrite Z.mod_small by lia.
  destruct (bitcmp_loop_spec (ia6_addr addr) (ia6_addr subnet) 0 (ia6_prefix subnet)) as (r & Hr & Hz); [congruence|done|done|lia|lia|].
  unfold bitcmp. rewrite Hr. eexists. split; [done|]. rewrite Z.eqb_eq, Hz, Z.sub_0_r. naive_solver.
Qed.
Definition demo_ip6 (b0 b1 p : Z) : osn_ip6_addr_t := Ip6Addr (b0 :: b1 :: replicate 14 0) p INT_MIN INT_MIN.
Lemma demo_ip6_ok b0 b1 p : is_byte b0 → is_byte b1 → -1 ≤ p ≤ 128 → ip6_ok (demo_ip6 b0 b1 p).
Proof.
  intros. split; cbn; unfold INT_MIN; try lia. repeat (constructor; [first [done|unfold is_byte; lia]|]). constructor.
Qed.
Lemma osn_ip6_is_subnet_correct_witness : ∃ b, osn_ip6_addr_is_subnet (demo_ip6 254 129 64) (demo_ip6 254 128 10) = Some b.
Proof.
  destruct (osn_ip6_is_subnet_correct (demo_ip6 254 129 64) (demo_ip6 254 128 10)) as (b & Hb & _);
    [apply demo_ip6_ok; unfold is_byte; lia|apply demo_ip6_ok; unfold is_byte; lia|reflexivity|]. exists b. exact Hb.
Defined.
(** With a prefix of 0 bits a byte is compared, and without a prefix the bits of more bytes
    than the addresses have. *)
Lemma osn_ip6_is_subnet_edges :
  osn_ip6_addr_is_subnet (demo_ip6 32 1 64) (demo_ip6 0 0 0) = Some false ∧
  osn_ip6_addr_is_subnet (demo_ip6 32 1 (-1)) (demo_ip6 32 1 (-1)) = None.
Proof. by vm_compute. Qed.

(** *** Kinds of addresses *)

Definition loopback : list Z := replicate 15 0 ++ [1].
Definition kind_of (b0 b1 p : Z) : osn_ip6_addr_kind :=
  if (10 <=? p) && (b0 =? 254) && (128 <=? b1) && (b1 <? 192) then OSN_IP6_ADDR_LOCAL_LINK
  else if (7 <=? p) && (252 <=? b0) && (b0 <? 254) then OSN_IP6_ADDR_LOCAL_UNIQUE
  else if (8 <=? p) && (b0 =? 0) then OSN_IP6_ADDR_MULTICAST
  else if (3 <=? p) && (32 <=? b0) && (b0 <? 64) then OSN_IP6_ADDR_GLOBAL
  else OSN_IP6_ADDR_INVALID.
Definition mask_tests (x : Z) : bool :=
  eqb (Z.land x 192 =? 128) ((128 <=? x) && (x <? 192)) && eqb (Z.land x 254 =? 252) ((252 <=? x) && (x <? 254)) &&
  eqb (Z.land x 255 =? 0) (x =? 0) && eqb (Z.land x 224 =? 32) ((32 <=? x) && (x <? 64)).
Lemma mask_tests_all x : is_byte x →
  (Z.land x 192 =? 128) = ((128 <=? x) && (x <? 192)) ∧ (Z.land x 254 =? 252) = ((252 <=? x) && (x <? 254)) ∧
  (Z.land x 255 =? 0) = (x =? 0) ∧ (Z.land x 224 =? 32) = ((32 <=? x) && (x <? 64)).
Proof.
  intros Hx. assert (mask_tests x = true) as H by (by apply (all_bytes mask_tests); [vm_compute|]). unfold mask_tests in H.
  rewrite !andb_true_iff, !eqb_true_iff in H. destruct H as [[[H1 H2] H3] H4]. exact (conj H1 (conj H2 (conj H3 H4))).
Qed.
(** The test for a subnet whose prefix ends in the first or the second byte. *)
Lemma subnet_byte1 b0 r addr c0 rest p mask l1 l2 : ia6_addr addr = b0 :: r → 0 < p ≤ 8 → last_mask p = mask →
  osn_ip6_addr_is_subnet addr (Ip6Addr (c0 :: rest) p l1 l2) = Some ((p <=? plen addr) && (Z.land b0 mask =? Z.land c0 mask)).
Proof.
  intros Ha Hp <-. unfold osn_ip6_addr_is_subnet. fold (plen addr). cbn [ia6_prefix ia6_addr]. rewrite Ha.
  rewrite (proj2 (Z.eqb_neq p (-1))) by lia. rewrite Z.ltb_antisym. destruct (p <=? plen addr); [|done]. cbn [negb andb].
  unfold wrapu at 1. rewrite Z.mod_small by lia. unfold bitcmp. cbn [bitcmp_loop]. rewrite (proj2 (Z.ltb_ge (0 + 8) p)) by lia.
  replace (0 - p) with (- p) by lia. fold (last_mask p). destruct (Z.eqb_spec (Z.land b0 (last_mask p)) (Z.land c0 (last_mask p))) as [E|NE]; [done|].
  cbn. f_equal. apply Z.eqb_neq. lia.
Qed.
Lemma subnet_byte2 b0 b1 r addr c0 c1 rest p mask l1 l2 : ia6_addr addr = b0 :: b1 :: r → 8 < p ≤ 16 → last_mask (p - 8) = mask →
  osn_ip6_addr_is_subnet addr (Ip6Addr (c0 :: c1 :: rest) p l1 l2) =
  Some ((p <=? plen addr) && (b0 =? c0) && (Z.land b1 mask =? Z.land c1 mask)).
Proof.
  intros Ha Hp <-. unfold osn_ip6_addr_is_subnet. fold (plen addr). cbn [ia6_prefix ia6_addr]. rewrite Ha.
  rewrite (proj2 (Z.eqb_neq p (-1))) by lia. rewrite Z.ltb_antisym. destruct (p <=? plen addr); [|done]. cbn [negb andb].
  unfold wrapu at 1. rewrite Z.mod_small by lia. unfold bitcmp. cbn [bitcmp_loop]. rewrite (proj2 (Z.ltb_lt (0 + 8) p)) by lia.
  destruct (Z.eqb_spec b0 c0) as [->|NE]; cbn [negb andb].
  - rewrite (proj2 (Z.ltb_ge (0 + 8 + 8) p)) by lia. replace (0 + 8 - p) with (- (p - 8)) by lia. fold (last_mask (p - 8)).
    destruct (Z.eqb_spec (Z.land b1 (last_mask (p - 8))) (Z.land c1 (last_mask (p - 8)))) as [E|NE]; [done|].
    cbn. f_equal. apply Z.eqb_neq. lia.
  - cbn. f_equal. apply Z.eqb_neq. lia.
Qed.
Lemma wraps_sub_zero a b : INT_MIN ≤ a < 2 ^ 31 → INT_MIN ≤ b < 2 ^ 31 → (wraps 32 (a - b) =? 0) = (a =? b).
Proof.
  unfold INT_MIN, wraps. intros Ha Hb. destruct (Z.eqb_spec a b) as [->|NE]; [by rewrite Z.sub_diag|]. apply Z.eqb_neq. intros H.
  pose proof (Z.div_mod (a - b + 2 ^ (32 - 1)) (2 ^ 32) ltac:(lia)) as Hd.
  pose proof (Z.mod_pos_bound (a - b + 2 ^ (32 - 1)) (2 ^ 32) ltac:(lia)). change (2 ^ (32 - 1)) with (2 ^ 31) in *.
  assert (a - b = 2 ^ 32 * ((a - b + 2 ^ 31) `div` 2 ^ 32)) as E by lia. set (q := (a - b + 2 ^ 31) `div` 2 ^ 32) in *. lia.
Qed.

Lemma loopback_cmp x : -1 ≤ ia6_prefix x ≤ 128 → INT_MIN ≤ ia6_pref_lft x < 2 ^ 31 →
  (osn_ip6_addr_cmp x (Ip6Addr loopback 128 INT_MIN INT_MIN) =? 0) =
  (bool_decide (ia6_addr x = loopback) && (ia6_prefix x =? 128) && (ia6_pref_lft x =? INT_MIN)).
Proof.
  intros Hp Hlft. unfold osn_ip6_addr_cmp. cbn [ia6_addr ia6_prefix ia6_pref_lft ia6_valid_lft].
  destruct (Z.eqb_spec (memcmp (ia6_addr x) loopback) 0) as [E|NE]; cbn [negb].
  - apply memcmp_zero in E. rewrite bool_decide_eq_true_2 by done. cbn [andb].
    rewrite <- (wraps_sub_zero (ia6_prefix x)) by (unfold INT_MIN; lia).
    destruct (wraps 32 (ia6_prefix x - 128) =? 0) eqn:Ep; cbn [negb andb]; [|by rewrite Ep].
    rewrite <- (wraps_sub_zero (ia6_pref_lft x)) by (unfold INT_MIN in *; lia).
    destruct (wraps 32 (ia6_pref_lft x - INT_MIN) =? 0) eqn:El; cbn [negb]; [done|by rewrite El].
  - rewrite bool_decide_eq_false_2 by (by rewrite <- memcmp_zero). cbn [andb]. by apply Z.eqb_neq.
Qed.

(** The kind of an IPv6 address is decided by its first two bytes and its prefix alone, except
    that the loopback address is known only with the prefix 128 and no lifetime.  The
    addresses that are called multicast are those that begin with a zero byte; the
    multicast addresses (ff00::/8) are called invalid. *)
Theorem osn_ip6_addr_type_exact x b0 b1 r : ip6_ok x → ia6_addr x = b0 :: b1 :: r →
  osn_ip6_addr_type x = Some (if bool_decide (ia6_addr x = loopback) && (ia6_prefix x =? 128) && (ia6_pref_lft x =? INT_MIN)
                              then OSN_IP6_ADDR_LOOPBACK else kind_of b0 b1 (plen x)) ∧
  (b0 = 255 → osn_ip6_addr_type x = Some OSN_IP6_ADDR_INVALID).
Proof.
  intros [Hl Hb Hp Hlft _] Ha. pose proof Hb as Hb'. rewrite Ha in Hb'. apply Forall_cons in Hb' as [H0 [H1 _]%Forall_cons].
  assert (osn_ip6_addr_type x = Some (if bool_decide (ia6_addr x = loopback) && (ia6_prefix x =? 128) && (ia6_pref_lft x =? INT_MIN)
                              then OSN_IP6_ADDR_LOOPBACK else kind_of b0 b1 (plen x))) as Hk.
  { unfold osn_ip6_addr_type.
    change (osn_ip6_addr_from_str "::1/128") with (Some (Ip6Addr loopback 128 INT_MIN INT_MIN)). cbn [mbind option_bind].
    rewrite (loopback_cmp x) by done.
    destruct (bool_decide _ && _ && _); [done|]. unfold kind_of. destruct (mask_tests_all b0 H0) as (_ & M2 & M3 & M4).
    destruct (mask_tests_all b1 H1) as (M1 & _). cbn [first_subnet].
    change (osn_ip6_addr_from_str "fe80::/10") with (Some (Ip6Addr (254 :: 128 :: replicate 14 0) 10 INT_MIN INT_MIN)).
    change (osn_ip6_addr_from_str "fc00::/7") with (Some (Ip6Addr (252 :: replicate 15 0) 7 INT_MIN INT_MIN)).
    change (osn_ip6_addr_from_str "ff::/8") with (Some (Ip6Addr (0 :: 255 :: replicate 14 0) 8 INT_MIN INT_MIN)).
    change (osn_ip6_addr_from_str "2000::/3") with (Some (Ip6Addr (32 :: replicate 15 0) 3 INT_MIN INT_MIN)). cbn [mbind option_bind].
    rewrite (subnet_byte2 b0 b1 r x 254 128 _ 10 192), (subnet_byte1 b0 (b1 :: r) x 252 _ 7 254), (subnet_byte1 b0 (b1 :: r) x 0 _ 8 255),
      (subnet_byte1 b0 (b1 :: r) x 32 _ 3 224) by first [exact Ha|lia|by vm_compute]. cbn [mbind option_bind].
    change (Z.land 128 192) with 128. change (Z.land 252 254) with 252. change (Z.land 0 255) with 0. change (Z.land 32 224) with 32.
    rewrite M1, M2, M3, M4, !andb_assoc. by repeat case_match. }
  split; [done|]. intros ->. rewrite Hk. rewrite bool_decide_eq_false_2 by (rewrite Ha; discriminate). cbn [andb]. unfold kind_of.
  by rewrite !andb_false_r.
Qed.
Lemma osn_ip6_addr_type_exact_witness : osn_ip6_addr_type (demo_ip6 255 2 (-1)) = Some OSN_IP6_ADDR_INVALID ∧
  osn_ip6_addr_type (demo_ip6 0 1 (-1)) = Some OSN_IP6_ADDR_MULTICAST.
Proof.
  split.
  - apply (osn_ip6_addr_type_exact (demo_ip6 255 2 (-1)) 255 2 (replicate 14 0));
      [apply demo_ip6_ok; unfold is_byte; lia|reflexivity|reflexivity].
  - destruct (osn_ip6_addr_type_exact (demo_ip6 0 1 (-1)) 0 1 (replicate 14 0)) as [H _];
      [apply demo_ip6_ok; unfold is_byte; lia|reflexivity|]. rewrite H. vm_compute. reflexivity.
Defined.

(** *** Text *)

Lemma ip_text a p : length a = 4%nat → Forall is_byte a → -1 ≤ p ≤ 32 →
  osn_ip_addr_from_str (FMT_osn_ip_addr OSN_IP_ADDR_LEN (IpAddr a p)) = Some (IpAddr a p).
Proof.
  intros Hl Hb Hp. destruct a as [|x0 [|x1 [|x2 [|x3 []]]]]; try done. repeat (apply Forall_cons in Hb as [? Hb]).
  destruct (dotted_text x0 x1 x2 x3) as (Ht & Hn & Hlen); try done.
  unfold FMT_osn_ip_addr. cbn [ia_prefix ia_addr]. rewrite ntop4_dotted. destruct (Z.leb_spec 0 p) as [Hge|Hlt].
  - assert ((String.length (pretty p) ≤ 2)%nat) as Hpl.
    { apply Nat.leb_le. apply (all_range (λ p, (String.length (pretty p) <=? 2)%nat) 0 33); [by vm_compute|lia]. }
    assert (printed p) as Hpr by (unfold printed; lia).
    change ("/" +:+ pretty p) with (String "/" (pretty p)). rewrite append_fits by (cbn [String.length]; unfold OSN_IP_ADDR_LEN; lia).
    unfold osn_ip_addr_from_str. rewrite string_length_app. cbn [String.length].
    rewrite (proj2 (Nat.leb_gt _ _)) by (unfold OSN_IP6_ADDR_LEN; lia). rewrite strsep_hit, Ht by done. cbn [mbind option_bind].
    rewrite strtol0_pretty, wraps_printed by done.
    rewrite (proj2 (Z.ltb_ge p 0)), (proj2 (Z.ltb_ge 32 p)) by lia. done.
  - unfold osn_ip_addr_from_str. rewrite (proj2 (Nat.leb_gt _ _)) by (unfold OSN_IP6_ADDR_LEN; lia).
    rewrite strsep_end, Ht by done. cbn. do 2 f_equal. lia.
Qed.

(** Two hexadecimal digits. *)
Definition hex_byte_ok (b : Z) : bool :=
  bool_decide (strtoul16 (hex_byte b) = (b, "")) && no_char ":" (hex_byte b) && no_char "-" (hex_byte b).
Lemma hex_byte_text b : is_byte b → strtoul16 (hex_byte b) = (b, "") ∧ no_char ":" (hex_byte b) = true ∧ no_char "-" (hex_byte b) = true.
Proof.
  intros Hb. assert (hex_byte_ok b = true) as H by (by apply (all_bytes hex_byte_ok); [vm_compute|]). unfold hex_byte_ok in H.
  rewrite !andb_true_iff, bool_decide_eq_true in H. naive_solver.
Qed.
Lemma mac_fields_hit f r : no_char ":" f = true → no_char "-" f = true → mac_fields (f +:+ String ":" r) = f :: mac_fields r.
Proof.
  assert (∀ s, ∃ g gs, mac_fields s = g :: gs) as Hne.
  { intros s. induction s as [|c s (g & gs & E)]; cbn [mac_fields]; [eauto|]. rewrite E. destruct (_ || _); eauto. }
  induction f as [|c f IH]; intros H1 H2.
  - change ("" +:+ String ":" r) with (String ":" r). cbn [mac_fields]. by destruct (Hne r) as (g & gs & ->).
  - apply no_char_cons in H1 as [? ?], H2 as [? ?]. rewrite str_app_cons. cbn [mac_fields]. rewrite IH by done.
    by rewrite !bool_decide_eq_false_2 by done.
Qed.
Lemma mac_fields_end f : no_char ":" f = true → no_char "-" f = true → mac_fields f = [f].
Proof.
  induction f as [|c f IH]; intros H1 H2; [done|]. apply no_char_cons in H1 as [? ?], H2 as [? ?]. cbn [mac_fields].
  rewrite IH by done. by rewrite !bool_decide_eq_false_2 by done.
Qed.
Lemma mac_text mac0 mac : length mac0 = 6%nat → length mac = 6%nat → Forall is_byte mac →
  osn_mac_addr_from_str mac0 (FMT_osn_mac_addr mac) = Some mac.
Proof.
  intros H0 Hl Hb. destruct mac as [|x0 [|x1 [|x2 [|x3 [|x4 [|x5 []]]]]]]; try done.
  destruct mac0 as [|y0 [|y1 [|y2 [|y3 [|y4 [|y5 []]]]]]]; try done. repeat (apply Forall_cons in Hb as [? Hb]).
  change (FMT_osn_mac_addr _) with (hex_byte x0 +:+ String ":" (hex_byte x1 +:+ String ":" (hex_byte x2 +:+ String ":"
    (hex_byte x3 +:+ String ":" (hex_byte x4 +:+ String ":" (hex_byte x5)))))).
  unfold osn_mac_addr_from_str. rewrite (proj2 (Nat.leb_gt 64 _)) by (by apply Nat.ltb_lt).
  rewrite !mac_fields_hit, mac_fields_end by (by apply hex_byte_text). cbn [mac_loop].
  assert (∀ b, is_byte b → wraps 64 b = b ∧ wrapu 8 b = b ∧ (256 <=? b) = false) as Hw.
  { intros b Hx. unfold is_byte, wraps, wrapu in *. split_and!; [rewrite Z.mod_small by lia; lia|apply Z.mod_small; lia|apply Z.leb_gt; lia]. }
  repeat match goal with |- context [strtoul16 (hex_byte ?b)] =>
    rewrite (proj1 (hex_byte_text b ltac:(done))); destruct (Hw b ltac:(done)) as (-> & -> & ->) end. done.
Qed.

Section ip6_text.
Context (inet_ntop6 : list Z → string).

(** What [inet_ntop] writes: text that [inet_pton] reads back, without the separators and
    not longer than the longest address. *)
Record text_ok (a : list Z) : Prop := TextOk {
  text_back : inet_pton6 (inet_ntop6 a) = Some a; text_comma : no_char "," (inet_ntop6 a) = true;
  text_slash : no_char "/" (inet_ntop6 a) = true; text_len : (String.length (inet_ntop6 a) ≤ 39)%nat }.
(** Lifetimes: not present or at least -1, and no valid lifetime without a preferred one. *)
Definition lft_ok (x : osn_ip6_addr_t) : Prop :=
  (ia6_pref_lft x = INT_MIN ∨ printed (ia6_pref_lft x)) ∧ (ia6_valid_lft x = INT_MIN ∨ printed (ia6_valid_lft x)) ∧
  (ia6_pref_lft x = INT_MIN → ia6_valid_lft x = INT_MIN).

Lemma str_app_nil (s : string) : s +:+ "" = s.
Proof. induction s as [|c s IH]; [done|]. rewrite str_app_cons. by rewrite IH. Qed.
(** The part in front of the lifetimes. *)
Definition prefix_text (p : Z) : string := if 0 <=? p then String "/" (pretty p) else "".
Lemma prefix_text_facts t p : -1 ≤ p ≤ 128 → no_char "," t = true → no_char "/" t = true →
  no_char "," (t +:+ prefix_text p) = true ∧ (String.length (prefix_text p) ≤ 4)%nat ∧
  strsep "/" (t +:+ prefix_text p) = (t, if 0 <=? p then Some (pretty p) else None).
Proof.
  intros Hp Hc Hs. unfold prefix_text. destruct (Z.leb_spec 0 p) as [Hge|Hlt].
  - assert (printed p) as Hpr by (unfold printed; lia). destruct (pretty_printed p Hpr) as (_ & Hpc & _).
    split_and!; [|..|by apply strsep_hit].
    + rewrite no_char_app, Hc. by apply no_char_cons.
    + assert ((String.length (pretty p) ≤ 3)%nat) as Hl; [|cbn [String.length]; lia].
      apply Nat.leb_le. apply (all_range (λ p, (String.length (pretty p) <=? 3)%nat) 0 129); [by vm_compute|lia].
  - split_and!; [|cbn; lia|].
    + by rewrite no_char_app, Hc.
    + rewrite str_app_nil. by apply strsep_end.
Qed.
(** The text that is written, without a limit. *)
Definition lft_text (x : osn_ip6_addr_t) : string :=
  (if -1 <=? ia6_pref_lft x then String "," (pretty (ia6_pref_lft x)) else "") +:+
  (if -1 <=? ia6_valid_lft x then String "," (pretty (ia6_valid_lft x)) else "").
Lemma append_if sz (b : bool) buf t : (String.length buf + String.length (if b then t else "") < sz)%nat →
  (if b then append sz buf t else buf) = buf +:+ (if b then t else "").
Proof. intros H. destruct b; [by apply append_fits|by rewrite str_app_nil]. Qed.
Lemma str_app_assoc (s t u : string) : (s +:+ t) +:+ u = s +:+ (t +:+ u).
Proof. induction s as [|c s IH]; [done|]. rewrite !str_app_cons. by rewrite IH. Qed.
Lemma lft_length z : z = INT_MIN ∨ printed z → (String.length (if (-1 <=? z)%Z then String "," (pretty z) else "") ≤ 11)%nat.
Proof.
  intros [->|Hz]; [by apply Nat.leb_le|]. destruct (pretty_printed z Hz) as (? & _). destruct (-1 <=? z); cbn [String.length]; lia.
Qed.
Lemma FMT6_text x : text_ok (ia6_addr x) → -1 ≤ ia6_prefix x ≤ 128 → lft_ok x →
  FMT_osn_ip6_addr inet_ntop6 OSN_IP6_ADDR_LEN x = (inet_ntop6 (ia6_addr x) +:+ prefix_text (ia6_prefix x)) +:+ lft_text x ∧
  (String.length (FMT_osn_ip6_addr inet_ntop6 OSN_IP6_ADDR_LEN x) < OSN_IP6_ADDR_LEN)%nat.
Proof.
  intros [Hb Hc Hs Hl] Hp (H1 & H2 & _). destruct (prefix_text_facts _ _ Hp Hc Hs) as (_ & Hpl & _).
  pose proof (lft_length _ H1) as Hl1. pose proof (lft_length _ H2) as Hl2.
  assert (FMT_osn_ip6_addr inet_ntop6 OSN_IP6_ADDR_LEN x = (inet_ntop6 (ia6_addr x) +:+ prefix_text (ia6_prefix x)) +:+ lft_text x) as E.
  { unfold FMT_osn_ip6_addr. change ("/" +:+ pretty (ia6_prefix x)) with (String "/" (pretty (ia6_prefix x))).
    change ("," +:+ pretty (ia6_pref_lft x)) with (String "," (pretty (ia6_pref_lft x))).
    change ("," +:+ pretty (ia6_valid_lft x)) with (String "," (pretty (ia6_valid_lft x))). unfold OSN_IP6_ADDR_LEN.
    rewrite (append_if _ (0 <=? ia6_prefix x)) by (fold (prefix_text (ia6_prefix x)); lia). fold (prefix_text (ia6_prefix x)).
    rewrite (append_if _ (-1 <=? ia6_pref_lft x)) by (rewrite string_length_app; lia).
    rewrite append_if by (rewrite !string_length_app; lia). unfold lft_text. by rewrite str_app_assoc. }
  split; [done|]. rewrite E. unfold lft_text, OSN_IP6_ADDR_LEN. rewrite !string_length_app. lia.
Qed.
Lemma strsep_opt_some d s : strsep_opt d (Some s) = (let '(f, r) := strsep d s in (Some f, r)).
Proof. done. Qed.
(** The fields of the text: the address with its prefix, and the lifetimes. *)
Lemma from_str6_fields paddr x : no_char "," paddr = true → lft_ok x →
  ∃ b1 b2, strsep "," (paddr +:+ lft_text x) = (paddr, b1) ∧
     strsep_opt "," b1 = (if -1 <=? ia6_pref_lft x then Some (pretty (ia6_pref_lft x)) else None, b2) ∧
     (strsep_opt "," b2).1 = (if -1 <=? ia6_valid_lft x then Some (pretty (ia6_valid_lft x)) else None).
Proof.
  intros Hc (H1 & H2 & H12). unfold lft_text. destruct H1 as [E1|H1].
  - rewrite E1, (H12 E1). change (-1 <=? INT_MIN) with false. eexists _, _. change ("" +:+ "") with "". rewrite str_app_nil, strsep_end by done. done.
  - destruct (pretty_printed _ H1) as (_ & Hc1 & _). rewrite (proj2 (Z.leb_le (-1) _)) by apply H1. destruct H2 as [E2|H2].
    + rewrite E2. change (-1 <=? INT_MIN) with false. rewrite str_app_nil, strsep_hit by done. eexists _, _. split; [done|].
      rewrite strsep_opt_some, strsep_end by done. done.
    + destruct (pretty_printed _ H2) as (_ & Hc2 & _). rewrite (proj2 (Z.leb_le (-1) (ia6_valid_lft x))) by apply H2.
      rewrite str_app_cons, strsep_hit by done. eexists _, _. split; [done|]. rewrite strsep_opt_some, strsep_hit by done.
      split; [done|]. by rewrite strsep_opt_some, strsep_end.
Qed.
Lemma ip6_text x : text_ok (ia6_addr x) → -1 ≤ ia6_prefix x ≤ 128 → lft_ok x →
  osn_ip6_addr_from_str (FMT_osn_ip6_addr inet_ntop6 OSN_IP6_ADDR_LEN x) = Some x.
Proof.
  intros Ht Hp Hl. destruct (FMT6_text x Ht Hp Hl) as [E Hlen]. destruct Ht as [Hb Hc Hs _].
  destruct (prefix_text_facts _ _ Hp Hc Hs) as (Hpc & _ & Hsep). unfold osn_ip6_addr_from_str.
  rewrite (proj2 (Nat.leb_gt OSN_IP6_ADDR_LEN _)) by done. rewrite E.
  destruct (from_str6_fields _ x Hpc Hl) as (b1 & b2 & -> & -> & H3). destruct (strsep_opt "," b2) as [pv b3]. cbn in H3. subst pv.
  rewrite Hsep. destruct Hl as (H1 & H2 & _).
  assert (∀ z, z = INT_MIN ∨ printed z →
    match (if -1 <=? z then Some (pretty z) else None) with None => INT_MIN | Some p => wraps 32 (strtol0 p) end = z) as Hlft.
  { intros z [->|Hz]; [done|]. rewrite (proj2 (Z.leb_le (-1) z)) by apply Hz. by rewrite strtol0_pretty, wraps_printed. }
  destruct x as [a p l1 l2]. cbn [ia6_addr ia6_prefix ia6_pref_lft ia6_valid_lft] in *. destruct (Z.leb_spec 0 p) as [Hge|Hlt].
  - assert (printed p) as Hpr by (unfold printed; lia). destruct (pretty_printed p Hpr) as (_ & _ & Hps).
    rewrite strsep_opt_some, strsep_end by done. rewrite Hb. cbn [mbind option_bind]. rewrite strtol0_pretty, wraps_printed by done.
    rewrite (proj2 (Z.ltb_ge p 0)), (proj2 (Z.ltb_ge 128 p)) by lia. cbn [orb mbind option_bind]. by rewrite !Hlft.
  - cbn [strsep_opt]. rewrite Hb. cbn [mbind option_bind]. rewrite !Hlft by done. do 2 f_equal. lia.
Qed.
End ip6_text.

(** C35. Text and addresses agree: an IPv4 address with or without a prefix, a hardware
    address, and an IPv6 address with its prefix and lifetimes are read back as they were
    from the text that is written for them into a buffer of the size the header gives.  Of
    [inet_ntop] for IPv6 it is used that [inet_pton] reads its text back. *)
Theorem osn_text_roundtrip inet_ntop6 :
  (∀ a p, length a = 4%nat → Forall is_byte a → -1 ≤ p ≤ 32 →
     osn_ip_addr_from_str (FMT_osn_ip_addr OSN_IP_ADDR_LEN (IpAddr a p)) = Some (IpAddr a p)) ∧
  (∀ mac0 mac, length mac0 = 6%nat → length mac = 6%nat → Forall is_byte mac →
     osn_mac_addr_from_str mac0 (FMT_osn_mac_addr mac) = Some mac) ∧
  (∀ x, text_ok inet_ntop6 (ia6_addr x) → -1 ≤ ia6_prefix x ≤ 128 → lft_ok x →
     osn_ip6_addr_from_str (FMT_osn_ip6_addr inet_ntop6 OSN_IP6_ADDR_LEN x) = Some x).
Proof. split_and!; [apply ip_text|apply mac_text|apply ip6_text]. Qed.
Definition demo_ntop6 (a : list Z) : string := "fe80::1".
Lemma osn_text_roundtrip_witness :
  let x := Ip6Addr ([254; 128] ++ replicate 13 0 ++ [1]) 64 (-1) 300 in
  FMT_osn_ip6_addr demo_ntop6 OSN_IP6_ADDR_LEN x = "fe80::1/64,-1,300" ∧
  osn_ip6_addr_from_str (FMT_osn_ip6_addr demo_ntop6 OSN_IP6_ADDR_LEN x) = Some x.
Proof.
  split; [vm_compute; reflexivity|]. apply (osn_text_roundtrip demo_ntop6).
  - split; [reflexivity..|]. apply Nat.leb_le. reflexivity.
  - simpl. lia.
  - split; [right; split; simpl; lia|]. split; [right; split; simpl; lia|]. intros H. discriminate H.
Defined.
(** A valid lifetime without a preferred one is read back as the preferred one. *)
Lemma osn_lft_confused : let x := Ip6Addr ([254; 128] ++ replicate 13 0 ++ [1]) 64 INT_MIN 300 in
  osn_ip6_addr_from_str (FMT_osn_ip6_addr demo_ntop6 OSN_IP6_ADDR_LEN x) = Some (Ip6Addr (ia6_addr x) 64 300 INT_MIN).
Proof. by vm_compute. Qed.
(** Addresses that differ in the valid lifetime only are equal, and a difference of the preferred
    lifetimes can overflow: an address without a lifetime is greater than one with. *)
Lemma osn_ip6_addr_cmp_lifetimes :
  osn_ip6_addr_cmp (Ip6Addr loopback 64 10 20) (Ip6Addr loopback 64 10 30) = 0 ∧
  osn_ip6_addr_cmp (Ip6Addr loopback 64 10 20) (Ip6Addr loopback 64 INT_MIN 20) < 0.
Proof. by vm_compute. Qed.
(** Fewer than six fields are accepted and leave the other bytes as they were; a field that does
    not fit a [long] is taken for 255. *)
Lemma osn_mac_addr_lenient : osn_mac_addr_from_str [1; 2; 3; 4; 5; 6] "a0-ffffffffffffffff" = Some [160; 255; 3; 4; 5; 6].
Proof. by vm_compute. Qed.
