(* ===== verification/NetHeader.v ===== *)
(** Parsing of captured packets, src/lib/ustack/src/net_header_parse.c.

    The captured bytes are a list; a pointer into them is an offset, and a read outside of
    them is a fault.  [size_t] has 64 bits, and memory is little endian. *)
From S2P Require Import Prelude OsnTypes.
Local Open Scope Z_scope.

Definition ETH_ALEN : Z := 6.
Definition ETH_HLEN : Z := 14.
Definition ETH_P_IP : Z := 0x0800.
Definition ETH_P_IPV6 : Z := 0x86DD.
Definition ETH_P_8021Q : Z := 0x8100.
Definition DLT_LINUX_SLL : Z := 113.
Definition IPPROTO_ICMP : Z := 1.
Definition IPPROTO_TCP : Z := 6.
Definition IPPROTO_UDP : Z := 17.
Definition IPPROTO_ICMPV6 : Z := 58.

(** [struct net_header_parser] with its [struct eth_header]; the members that point to
    headers are offsets, [None] is NULL. *)
Record net_header_parser := Parser {
  pcap_datalink : Z; packet_len : Z; parsed : Z; dstmac : option Z; srcmac : option Z; ethertype : Z; vlan_id : Z;
  ip_version : Z; ip_protocol : Z; eth_pld : option Z; ip_pld : option Z; data : Z; start : Z; eth_header_available : bool }.
Abbreviation NH := (M net_header_parser).

(** *** Extension headers of IPv6 *)

Definition IPV6_N_EXTS : nat := 11.
Definition IPPROTO_HOPOPTS : Z := 0.
Definition IPPROTO_ROUTING : Z := 43.
Definition IPPROTO_FRAGMENT : Z := 44.
Definition IPPROTO_ESP : Z := 50.
Definition IPPROTO_AH : Z := 51.
Definition IPPROTO_DSTOPTS : Z := 60.
Definition ipv6_extensions_ids : list Z :=
  [IPPROTO_HOPOPTS; IPPROTO_ROUTING; IPPROTO_FRAGMENT; IPPROTO_ESP; IPPROTO_AH; IPPROTO_DSTOPTS; 135; 139; 140; 253; 254].
(** The memory of an array of [int], read as an array of [int16_t]. *)
Definition as_int16 (l : list Z) : list Z := x ← l; [wraps 16 x; wraps 16 (Z.shiftr x 16)].
Definition cmphdr (a b : Z) : Z := a - b.
(** [bsearch] in the interval [l, u); the fuel bounds its length. *)
Fixpoint hdr_bsearch (fuel : nat) (key : Z) (base : list Z) (l u : nat) : option nat :=
  match fuel with
  | O => None
  | S fuel =>
      if (l <? u)%nat then
        let i := ((l + u) / 2)%nat in
        let c := cmphdr key (nth i base 0) in
        if c <? 0 then hdr_bsearch fuel key base l i
        else if 0 <? c then hdr_bsearch fuel key base (S i) u
        else Some i
      else None
  end.
(** [is_ipv6_extension] *)
Definition is_ipv6_extension (id : Z) : bool :=
  bool_decide (is_Some (hdr_bsearch (S IPV6_N_EXTS) id (as_int16 ipv6_extensions_ids) 0 IPV6_N_EXTS)).

Section parser.
Context (buf : list Z).

(** The byte at a pointer, and two bytes in network order ([ntohs]). *)
Definition rd (p : Z) : NH Z := if p <? 0 then fault else deref (buf !! Z.to_nat p).
Definition rd16 (p : Z) : NH Z := a ← rd p; b ← rd (p + 1); mret (a * 256 + b).

(** [parser->parsed += n; parser->data += n;] *)
Definition skip (n : Z) : NH unit := modify (λ p,
  Parser (pcap_datalink p) (packet_len p) (wrapu 64 (parsed p + n)) (dstmac p) (srcmac p) (ethertype p) (vlan_id p)
    (ip_version p) (ip_protocol p) (eth_pld p) (ip_pld p) (data p + n) (start p) (eth_header_available p)).
Definition set_parsed (n : Z) : NH unit := modify (λ p,
  Parser (pcap_datalink p) (packet_len p) n (dstmac p) (srcmac p) (ethertype p) (vlan_id p)
    (ip_version p) (ip_protocol p) (eth_pld p) (ip_pld p) (data p) (start p) (eth_header_available p)).
Definition set_start : NH unit := modify (λ p,
  Parser (pcap_datalink p) (packet_len p) 0 (dstmac p) (srcmac p) (ethertype p) (vlan_id p)
    (ip_version p) (ip_protocol p) (eth_pld p) (ip_pld p) (data p) (data p) (eth_header_available p)).
Definition set_eth (dst src : Z) (et vlan : Z) : NH unit := modify (λ p,
  Parser (pcap_datalink p) (packet_len p) (parsed p) (Some dst) (Some src) et vlan
    (ip_version p) (ip_protocol p) (eth_pld p) (ip_pld p) (data p) (start p) (eth_header_available p)).
Definition set_eth_pld (o : Z) (available : bool) : NH unit := modify (λ p,
  Parser (pcap_datalink p) (packet_len p) (parsed p) (dstmac p) (srcmac p) (ethertype p) (vlan_id p)
    (ip_version p) (ip_protocol p) (Some o) (ip_pld p) (data p) (start p) (available || eth_header_available p)).
Definition set_version (v : Z) : NH unit := modify (λ p,
  Parser (pcap_datalink p) (packet_len p) (parsed p) (dstmac p) (srcmac p) (ethertype p) (vlan_id p)
    v (ip_protocol p) (eth_pld p) (ip_pld p) (data p) (start p) (eth_header_available p)).
Definition set_protocol (v : Z) : NH unit := modify (λ p,
  Parser (pcap_datalink p) (packet_len p) (parsed p) (dstmac p) (srcmac p) (ethertype p) (vlan_id p)
    (ip_version p) v (eth_pld p) (ip_pld p) (data p) (start p) (eth_header_available p)).
Definition set_packet_len (n : Z) : NH unit := modify (λ p,
  Parser (pcap_datalink p) n (parsed p) (dstmac p) (srcmac p) (ethertype p) (vlan_id p)
    (ip_version p) (ip_protocol p) (eth_pld p) (ip_pld p) (data p) (start p) (eth_header_available p)).
Definition set_ip_pld (o : Z) : NH unit := modify (λ p,
  Parser (pcap_datalink p) (packet_len p) (parsed p) (dstmac p) (srcmac p) (ethertype p) (vlan_id p)
    (ip_version p) (ip_protocol p) (eth_pld p) (Some o) (data p) (start p) (eth_header_available p)).
(** [parser->packet_len - parser->parsed] *)
Definition room : NH Z := gets (λ p, wrapu 64 (packet_len p - parsed p)).

(** [net_header_parse_eth] *)
Definition net_header_parse_eth : NH Z :=
  bytes ← gets data;
  set_parsed 0;;
  n ← gets packet_len;
  if n <? ETH_HLEN then mret 0 else
  dl ← gets pcap_datalink;
  let p := 2 * ETH_ALEN + (if dl =? DLT_LINUX_SLL then 2 else 0) in
  et ← rd16 (bytes + p);
  '(et, vlan, p) ← (if et =? ETH_P_8021Q then
                      tci ← rd16 (bytes + p + 2);
                      et ← rd16 (bytes + p + 4);
                      mret (et, Z.land tci 0xfff, p + 4)
                    else mret (et, 0, p));
  set_eth bytes (bytes + ETH_ALEN) et vlan;;
  skip (p + 2);;
  d ← gets data;
  set_eth_pld d true;;
  mret (p + 2).
(** [net_header_get_ethertype] *)
Definition net_header_get_ethertype : NH Z := gets ethertype.
(** [net_header_get_ipv4_hdr], [net_header_get_ipv6_hdr] *)
Definition net_header_get_ipv4_hdr : NH (option Z) :=
  gets (λ p, if negb (ethertype p =? ETH_P_IP) then None else if negb (ip_version p =? 4) then None else eth_pld p).
Definition net_header_get_ipv6_hdr : NH (option Z) :=
  gets (λ p, if negb (ethertype p =? ETH_P_IPV6) then None else if negb (ip_version p =? 6) then None else eth_pld p).

(** [net_header_parse_ipv4] *)
Definition net_header_parse_ipv4 : NH Z :=
  len ← room;
  if len <? 20 then mret 0 else
  hdr ← gets data;
  set_eth_pld hdr false;;
  b0 ← rd hdr;
  tot_len ← rd16 (hdr + 2);
  let ip_hlen := Z.land b0 15 * 4 in
  let ip_dlen := wrapu 64 (tot_len - ip_hlen) in
  if len <? ip_dlen then mret 0 else
  skip ip_hlen;;
  set_version 4;;
  proto ← rd (hdr + 9);
  set_protocol proto;;
  n ← gets parsed;
  set_packet_len (wrapu 64 (n + ip_dlen));;
  mret n.

(** The loop of [net_header_get_ipv6_payload]: each round moves on by at least 8 bytes; the result
    tells whether the end was reached. *)
Fixpoint ext_loop (fuel : nat) (next_header : Z) : NH (option Z) :=
  if negb (is_ipv6_extension next_header) then mret (Some next_header) else
  match fuel with
  | O => fault
  | S fuel =>
      d ← gets data;
      next_header ← rd d;
      ext_len ← rd (d + 1);
      let len := 8 * (ext_len + 1) in
      p ← gets parsed;
      n ← gets packet_len;
      if n <? wrapu 64 (p + len) then mret None
      else skip len;; ext_loop fuel next_header
  end.
(** [net_header_get_ipv6_payload] *)
Definition net_header_get_ipv6_payload : NH Z :=
  hdr ← net_header_get_ipv6_hdr;
  match hdr with
  | None => mret 0
  | Some hdr =>
      nxt ← rd (hdr + 6);
      r ← ext_loop (S (length buf)) nxt;
      match r with
      | None => mret 0
      | Some next_header => set_protocol next_header;; gets parsed
      end
  end.
(** [net_header_parse_ipv6] *)
Definition net_header_parse_ipv6 : NH Z :=
  len ← room;
  let ip_hlen := 40 in
  if len <? ip_hlen then mret 0 else
  hdr ← gets data;
  set_eth_pld hdr false;;
  ip_dlen ← rd16 (hdr + 4);
  if len <? ip_dlen then mret 0 else
  skip ip_hlen;;
  set_version 6;;
  n ← gets parsed;
  set_packet_len (wrapu 64 (n + ip_dlen));;
  len ← net_header_get_ipv6_payload;
  if len =? 0 then mret 0 else gets parsed.
(** [net_header_parse_ip] *)
Definition net_header_parse_ip : NH Z :=
  et ← net_header_get_ethertype;
  if et =? ETH_P_IP then net_header_parse_ipv4
  else if et =? ETH_P_IPV6 then net_header_parse_ipv6
  else mret 0.

(** [net_header_parse_tcp]; the length of the header is read before there is a test. *)
Definition net_header_parse_tcp : NH Z :=
  hdr ← gets data;
  len ← room;
  b ← rd (hdr + 12);
  let tcp_hlen := Z.shiftr b 4 * 4 in
  if len <? tcp_hlen then mret 0 else
  set_ip_pld hdr;;
  skip tcp_hlen;;
  mret tcp_hlen.
(** [net_header_parse_udp], [net_header_parse_icmp], [net_header_parse_icmp6]: a header of eight
    bytes each *)
Definition parse_fixed (hlen : Z) : NH Z :=
  len ← room;
  if len <? hlen then mret 0 else
  hdr ← gets data;
  set_ip_pld hdr;;
  skip hlen;;
  mret hlen.
Definition net_header_parse_udp : NH Z := parse_fixed 8.
Definition net_header_parse_icmp : NH Z := parse_fixed 8.
Definition net_header_parse_icmp6 : NH Z := parse_fixed 8.

(** [net_header_parse] *)
Definition net_header_parse : NH Z :=
  set_start;;
  len ← net_header_parse_eth;
  if len =? 0 then mret 0 else
  et ← net_header_get_ethertype;
  if negb ((et =? ETH_P_IP) || (et =? ETH_P_IPV6)) then mret len else
  len ← net_header_parse_ip;
  if len =? 0 then mret 0 else
  proto ← gets ip_protocol;
  if proto =? IPPROTO_TCP then net_header_parse_tcp
  else if proto =? IPPROTO_UDP then net_header_parse_udp
  else if proto =? IPPROTO_ICMP then net_header_parse_icmp
  else if proto =? IPPROTO_ICMPV6 then net_header_parse_icmp6
  else mret len.

(** [net_header_ip_str]: the text, or [None] for the result [false]; [net_header_srcip_str],
    [net_header_dstip_str] *)
Definition INET_ADDRSTRLEN : Z := 16.
Definition INET6_ADDRSTRLEN : Z := 46.
Fixpoint rd_bytes (n : nat) (p : Z) : NH (list Z) :=
  match n with O => mret [] | S n => b ← rd p; l ← rd_bytes n (p + 1); mret (b :: l) end.
Definition net_header_ip_str (inet_ntop6 : list Z → string) (src : bool) (ip_buf_len : Z) : NH (option string) :=
  v ← gets ip_version;
  if v =? 4 then
    hdr ← net_header_get_ipv4_hdr;
    if ip_buf_len <? INET_ADDRSTRLEN then mret None else
    match hdr with
    | None => mret None
    | Some hdr => a ← rd_bytes 4 (hdr + if src then 12 else 16); mret (Some (inet_ntop4 a))
    end
  else if v =? 6 then
    hdr ← net_header_get_ipv6_hdr;
    match hdr with
    | None => mret None
    | Some hdr =>
        if ip_buf_len <? INET6_ADDRSTRLEN then mret None else
        a ← rd_bytes 16 (hdr + if src then 8 else 24); mret (Some (inet_ntop6 a))
    end
  else mret None.
Definition net_header_srcip_str (inet_ntop6 : list Z → string) := net_header_ip_str inet_ntop6 true.
Definition net_header_dstip_str (inet_ntop6 : list Z → string) := net_header_ip_str inet_ntop6 false.

(** The parser that the callers prepare: zero but for the packet and its length. *)
Definition parser_init (datalink : Z) : net_header_parser :=
  Parser datalink (Z.of_nat (length buf)) 0 None None 0 0 0 0 None None 0 0 false.
End parser.
