(* ===== verification/NetHeaderProps.v ===== *)
(** Parsing of packets: complete packets are parsed exactly. *)
From S2P Require Import Prelude OsnTypes NetHeader.
Local Open Scope Z_scope.

(** *** Packets *)

Definition be16 (a b : Z) : Z := a * 256 + b.
Definition zlen {A} (l : list A) : Z := Z.of_nat (length l).
Lemma zlen_app {A} (l k : list A) : zlen (l ++ k) = zlen l + zlen k.
Proof. unfold zlen. rewrite length_app. lia. Qed.

(** An Ethernet header: the two hardware addresses, two more bytes in a cooked capture, the
    VLAN tag if there is one, and the type. *)
Inductive eth_bytes (datalink : Z) (et vlan : Z) : list Z → Prop :=
  | eth_plain macs cooked h l : length macs = 12%nat → length cooked = (if decide (datalink = DLT_LINUX_SLL) then 2 else 0)%nat →
      et = be16 h l → et ≠ ETH_P_8021Q → vlan = 0 → eth_bytes datalink et vlan (macs ++ cooked ++ [h; l])
  | eth_tagged macs cooked t0 t1 h l : length macs = 12%nat → length cooked = (if decide (datalink = DLT_LINUX_SLL) then 2 else 0)%nat →
      et = be16 h l → vlan = Z.land (be16 t0 t1) 0xfff → eth_bytes datalink et vlan (macs ++ cooked ++ [0x81; 0; t0; t1; h; l]).
(** The extension headers of IPv6 by their numbers, and the size of one by its second byte (RFC
    8200, 4302: a fragment header has 8 bytes, an authentication header counts in words of four). *)
Definition ext_size (id e1 : Z) : Z :=
  if id =? IPPROTO_FRAGMENT then 8 else if id =? IPPROTO_AH then 4 * (e1 + 2) else 8 * (e1 + 1).
(** The headers [ids] between a next header and the protocol. *)
Inductive chain : Z → list Z → list Z → Z → Prop :=
  | chain_end p : p ∉ ipv6_extensions_ids → chain p [] [] p
  | chain_ext nh e0 e1 rest ids exts p : nh ∈ ipv6_extensions_ids → 0 ≤ e1 < 256 → 2 + zlen rest = ext_size nh e1 →
      chain e0 ids exts p → chain nh (nh :: ids) (e0 :: e1 :: rest ++ exts) p.
(** Hop-by-hop and destination options *)
Definition options_only (ids : list Z) : Prop := Forall (λ id, id ∈ [IPPROTO_HOPOPTS; IPPROTO_DSTOPTS]) ids.
(** A header of IPv4 or IPv6 (with its extensions [ids]) in front of its payload. *)
Inductive ip_header (payload : list Z) : Z → Z → Z → list Z → list Z → Prop :=
  | ip_header4 h b0 t0 t1 proto : h !! 0%nat = Some b0 → h !! 2%nat = Some t0 → h !! 3%nat = Some t1 → h !! 9%nat = Some proto →
      5 ≤ Z.land b0 15 → zlen h = Z.land b0 15 * 4 → be16 t0 t1 = zlen h + zlen payload → ip_header payload ETH_P_IP 4 proto [] h
  | ip_header6 h ids exts t0 t1 nh proto : zlen h = 40 → h !! 4%nat = Some t0 → h !! 5%nat = Some t1 → h !! 6%nat = Some nh →
      be16 t0 t1 = zlen exts + zlen payload → chain nh ids exts proto →
      ip_header payload ETH_P_IPV6 6 proto ids (h ++ exts).
(** The header of the transport protocol: its length, or [None] if the protocol is left to others. *)
Definition transport (proto : Z) (payload : list Z) : option Z :=
  if proto =? IPPROTO_TCP then b ← payload !! 12%nat; Some (Z.shiftr b 4 * 4)
  else if bool_decide (proto ∈ [IPPROTO_UDP; IPPROTO_ICMP; IPPROTO_ICMPV6]) then Some 8
  else None.
Definition transport_ok (proto : Z) (payload : list Z) : Prop :=
  match transport proto payload with
  | Some hlen => (if proto =? IPPROTO_TCP then 20 else 8) ≤ hlen ≤ zlen payload
  | None => proto ≠ IPPROTO_TCP
  end.

(** *** Reading *)

Lemma rd_at pre x post k b p : x !! k = Some b → rd (pre ++ x ++ post) (zlen pre + Z.of_nat k) p = Some (b, p).
Proof.
  intros Hk. unfold rd, zlen. rewrite (proj2 (Z.ltb_ge _ _)) by lia.
  replace (Z.to_nat (Z.of_nat (length pre) + Z.of_nat k)) with (length pre + k)%nat by lia.
  rewrite lookup_app_r, Nat.add_sub' by lia. by rewrite (lookup_app_l_Some _ _ _ _ Hk).
Qed.
Lemma rd16_at pre x post k a b p : x !! k = Some a → x !! S k = Some b →
  rd16 (pre ++ x ++ post) (zlen pre + Z.of_nat k) p = Some (be16 a b, p).
Proof.
  intros Ha Hb. unfold rd16, mbind, M_bind. rewrite (rd_at _ _ _ _ a) by done.
  replace (zlen pre + Z.of_nat k + 1) with (zlen pre + Z.of_nat (S k)) by lia. by rewrite (rd_at _ _ _ _ b).
Qed.

(** *** The parts *)

(** Run the commands that only touch the parser. *)
Ltac nh_simpl :=
  unfold set_parsed, set_start, set_eth, set_eth_pld, set_version, set_protocol, set_packet_len, set_ip_pld, skip, room;
  unfold gets, modify, mbind, M_bind, mret, M_ret; cbv beta iota zeta;
  cbn [pcap_datalink packet_len parsed dstmac srcmac ethertype vlan_id ip_version ip_protocol eth_pld ip_pld data start
    eth_header_available orb]; cbv beta iota zeta.

Lemma parse_eth_spec et vlan eth rest dl n pr d s e v iv ipr ep ip st av : eth_bytes dl et vlan eth → zlen (eth ++ rest) ≤ n →
  zlen eth < 2 ^ 32 →
  net_header_parse_eth (eth ++ rest) (Parser dl n pr d s e v iv ipr ep ip 0 st av) =
  Some (zlen eth, Parser dl n (zlen eth) (Some 0) (Some 6) et vlan iv ipr (Some (zlen eth)) ip (zlen eth) st true).
Proof.
  intros He Hn Hs. assert (∃ pre tail, eth = pre ++ tail ∧ zlen pre = 12 + (if dl =? DLT_LINUX_SLL then 2 else 0) ∧
    (∃ h l, tail = [h; l] ∧ et = be16 h l ∧ et ≠ ETH_P_8021Q ∧ vlan = 0 ∨
       ∃ t0 t1, tail = [0x81; 0; t0; t1; h; l] ∧ et = be16 h l ∧ vlan = Z.land (be16 t0 t1) 0xfff)) as (pre & tail & -> & Hpre & Htail).
  { assert (∀ (macs cooked : list Z), length macs = 12%nat → length cooked = (if decide (dl = DLT_LINUX_SLL) then 2 else 0)%nat →
      zlen (macs ++ cooked) = 12 + (if dl =? DLT_LINUX_SLL then 2 else 0)) as Hlen.
    { intros m c Hm Hc. rewrite zlen_app. unfold zlen. rewrite Hm, Hc. destruct (decide _) as [->|]; [done|].
      by rewrite (proj2 (Z.eqb_neq dl DLT_LINUX_SLL)). }
    destruct He as [m c h l Hm Hc ? ? ?|m c t0 t1 h l Hm Hc ? ?].
    - exists (m ++ c), [h; l]. rewrite <- app_assoc. split_and!; [done|by apply Hlen|]. exists h, l. left. done.
    - exists (m ++ c), [0x81; 0; t0; t1; h; l]. rewrite <- app_assoc. split_and!; [done|by apply Hlen|]. exists h, l. right. eauto. }
  assert (14 ≤ zlen (pre ++ tail)) as H14.
  { rewrite zlen_app, Hpre. destruct Htail as (h & l & [(-> & _)|(t0 & t1 & -> & _)]); unfold zlen; cbn [length]; destruct (_ =? _); lia. }
  unfold net_header_parse_eth. nh_simpl.
  rewrite (proj2 (Z.ltb_ge n ETH_HLEN)) by (rewrite zlen_app in Hn; unfold ETH_HLEN, zlen in *; lia). nh_simpl.
  set (off := 2 * ETH_ALEN + (if dl =? DLT_LINUX_SLL then 2 else 0)) in *.
  assert (off = zlen pre) as Hoff by (rewrite Hpre; done). rewrite <- app_assoc, Hoff.
  replace (0 + zlen pre) with (zlen pre + Z.of_nat 0) by lia. replace (zlen pre + Z.of_nat 0 + 2) with (zlen pre + Z.of_nat 2) by lia.
  replace (zlen pre + Z.of_nat 0 + 4) with (zlen pre + Z.of_nat 4) by lia.
  destruct Htail as (h & l & [(-> & -> & Hne & ->)|(t0 & t1 & -> & -> & ->)]).
  - rewrite (rd16_at pre [h; l] rest 0 h l) by done. rewrite (proj2 (Z.eqb_neq _ _) Hne).
    nh_simpl.
    rewrite zlen_app in *. change (zlen [h; l]) with 2 in *. unfold wrapu. rewrite Z.mod_small by (unfold zlen in *; lia). done.
  - rewrite (rd16_at pre _ rest 0 0x81 0) by done. change (be16 129 0 =? ETH_P_8021Q) with true. cbn iota beta.
    rewrite (rd16_at pre _ rest 2 t0 t1) by done. rewrite (rd16_at pre _ rest 4 h l) by done.
    nh_simpl.
    rewrite zlen_app in *. change (zlen [129; 0; t0; t1; h; l]) with 6 in *. unfold wrapu. rewrite Z.mod_small by (unfold zlen in *; lia).
    replace (zlen pre + 4 + 2) with (zlen pre + 6) by lia. done.
Qed.
Lemma wrapu64_small z : 0 ≤ z < 2 ^ 64 → wrapu 64 z = z.
Proof. intros. unfold wrapu. by apply Z.mod_small. Qed.
Lemma zlen_nonneg {A} (l : list A) : 0 ≤ zlen l.
Proof. unfold zlen. lia. Qed.
Lemma lookup_zlen {A} (l : list A) k a : l !! k = Some a → Z.of_nat k < zlen l.
Proof. intros H%lookup_lt_Some. unfold zlen. lia. Qed.

Lemma parse_ipv4_spec pre h payload pad b0 t0 t1 proto n dl d s e v iv ipr ep ip st av :
  h !! 0%nat = Some b0 → h !! 2%nat = Some t0 → h !! 3%nat = Some t1 → h !! 9%nat = Some proto →
  5 ≤ Z.land b0 15 → zlen h = Z.land b0 15 * 4 → be16 t0 t1 = zlen h + zlen payload →
  n = zlen pre + zlen h + zlen payload + zlen pad → n < 2 ^ 32 →
  net_header_parse_ipv4 (pre ++ h ++ payload ++ pad) (Parser dl n (zlen pre) d s e v iv ipr ep ip (zlen pre) st av) =
  Some (zlen pre + zlen h, Parser dl (zlen pre + zlen h + zlen payload) (zlen pre + zlen h) d s e v 4 proto
    (Some (zlen pre)) ip (zlen pre + zlen h) st av).
Proof.
  intros H0 H2 H3 H9 Hihl Hh Ht Hn Hs. pose proof (zlen_nonneg pre). pose proof (zlen_nonneg payload). pose proof (zlen_nonneg pad).
  unfold net_header_parse_ipv4. nh_simpl. rewrite wrapu64_small by lia. rewrite (proj2 (Z.ltb_ge _ 20)) by lia. nh_simpl.
  replace (rd (pre ++ h ++ payload ++ pad) (zlen pre)) with (rd (pre ++ h ++ payload ++ pad) (zlen pre + Z.of_nat 0)) by (f_equal; lia).
  rewrite (rd_at pre h _ 0 b0) by done. change 2 with (Z.of_nat 2) at 1. rewrite (rd16_at pre h _ 2 t0 t1) by done. nh_simpl.
  rewrite Ht, <- Hh, wrapu64_small by lia. rewrite (proj2 (Z.ltb_ge _ (zlen h + zlen payload - zlen h))) by lia. nh_simpl.
  change 9 with (Z.of_nat 9). rewrite (rd_at pre h _ 9 proto) by done. nh_simpl.
  rewrite !wrapu64_small by (rewrite ?wrapu64_small by lia; lia).
  by replace (zlen pre + zlen h + (zlen h + zlen payload - zlen h)) with (zlen pre + zlen h + zlen payload) by lia.
Qed.

(** The fuel of the walk over the extension headers is enough: more of it changes nothing, whatever
    was captured. *)
Lemma ext_loop_fuel buf : Forall (λ b, 0 ≤ b) buf → ∀ fuel k nh p, 0 ≤ data p → zlen buf - data p < Z.of_nat fuel →
  ext_loop buf (fuel + k) nh p = ext_loop buf fuel nh p.
Proof.
  intros Hb. induction fuel as [|fuel IH]; intros k nh p Hd Hf.
  { destruct k; [done|]. cbn [ext_loop Nat.add]. destruct (is_ipv6_extension nh); [|done]. cbn [negb]. nh_simpl. unfold rd.
    rewrite (proj2 (Z.ltb_ge _ _)) by done. rewrite lookup_ge_None_2; [done|]. unfold zlen in *. lia. }
  cbn [ext_loop Nat.add]. destruct (is_ipv6_extension nh); [|done]. cbn [negb]. nh_simpl.
  destruct (rd buf (data p) p) as [[e0 p']|] eqn:E0; [|done]. assert (p' = p) as ->.
  { unfold rd, deref, mret, M_ret in E0. destruct (_ <? _); [done|]. destruct (buf !! _); [congruence|done]. }
  destruct (rd buf (data p + 1) p) as [[e1 p']|] eqn:E1; [|done]. assert (p' = p ∧ 0 ≤ e1) as [-> He].
  { unfold rd, deref, mret, M_ret in E1. destruct (_ <? _); [done|]. destruct (buf !! _) as [b|] eqn:Hl; [|done].
    injection E1 as -> ->. split; [done|].
    rewrite Forall_forall in Hb. apply Hb. by eapply list_elem_of_lookup_2. }
  destruct (packet_len p <? _); [done|]. apply IH; cbn [data]; lia.
Qed.
(** Of the eleven extension headers in the table the search finds three: the array has elements of
    four bytes and is searched as an array of elements of two. *)
Lemma is_ipv6_extension_exact id : 0 ≤ id < 256 → is_ipv6_extension id = bool_decide (id ∈ [0; 51; 60]).
Proof.
  intros Hid. apply eqb_prop.
  assert (forallb (λ id, eqb (is_ipv6_extension id) (bool_decide (id ∈ [0; 51; 60]))) (seqZ 0 256) = true) as H by (by vm_compute).
  rewrite forallb_forall in H. apply H. apply list_elem_of_In, elem_of_seqZ. lia.
Qed.
(** The walk over hop-by-hop and destination options. *)
Lemma ext_loop_spec nh ids exts proto : chain nh ids exts proto → options_only ids → 0 ≤ proto < 256 → ∀ fuel pre post n dl d s e v iv ipr ep ip st av,
  (length exts < fuel)%nat → zlen pre + zlen exts ≤ n → n < 2 ^ 32 →
  ext_loop (pre ++ exts ++ post) fuel nh (Parser dl n (zlen pre) d s e v iv ipr ep ip (zlen pre) st av) =
  Some (Some proto, Parser dl n (zlen pre + zlen exts) d s e v iv ipr ep ip (zlen pre + zlen exts) st av).
Proof.
  induction 1 as [p Hp|nh e0 e1 rest ids exts p Hin He1 Hlen _ IH]; intros Hopt Hpr fuel pre post n dl d s e v iv ipr ep ip st av Hf Hn Hs.
  { assert (is_ipv6_extension p = false) as Hp'.
    { rewrite is_ipv6_extension_exact, bool_decide_eq_false_2 by (done || (contradict Hp; unfold ipv6_extensions_ids; set_solver)). done. }
    clear Hp. rename Hp' into Hp. destruct fuel; cbn [ext_loop]; rewrite Hp; cbn [negb]; unfold zlen at 3 5; cbn [length]; by rewrite !Z.add_0_r. }
  apply Forall_cons in Hopt as [Hnh0 Hopt]. assert (is_ipv6_extension nh = true ∧ ext_size nh e1 = 8 * (e1 + 1)) as [Hnh Hsz].
  { repeat (apply elem_of_cons in Hnh0 as [->|Hnh0]; [done|]). by apply not_elem_of_nil in Hnh0. }
  rewrite Hsz in Hlen. specialize (IH Hopt Hpr).
  destruct fuel as [|fuel]; [cbn in Hf; lia|]. cbn [ext_loop]. rewrite Hnh. cbn [negb]. nh_simpl.
  pose proof (zlen_nonneg pre). pose proof (zlen_nonneg exts).
  replace (rd (pre ++ (e0 :: e1 :: rest ++ exts) ++ post) (zlen pre)) with (rd (pre ++ (e0 :: e1 :: rest ++ exts) ++ post) (zlen pre + Z.of_nat 0)) by (f_equal; lia).
  rewrite (rd_at pre _ post 0 e0) by done. replace (zlen pre + 1) with (zlen pre + Z.of_nat 1) by lia.
  rewrite (rd_at pre _ post 1 e1) by done. nh_simpl.
  assert (zlen (e0 :: e1 :: rest ++ exts) = 8 * (e1 + 1) + zlen exts) as Hz.
  { rewrite <- Hlen. unfold zlen. cbn [length]. rewrite length_app. lia. }
  rewrite wrapu64_small by lia. rewrite (proj2 (Z.ltb_ge n _)) by lia. nh_simpl.
  rewrite wrapu64_small by lia. rewrite Hz.
  specialize (IH fuel (pre ++ e0 :: e1 :: rest) post n dl d s e v iv ipr ep ip st av).
  assert (zlen (pre ++ e0 :: e1 :: rest) = zlen pre + 8 * (e1 + 1)) as Hz' by (rewrite zlen_app, <- Hlen; unfold zlen; cbn [length]; lia).
  rewrite Hz' in IH. rewrite <- app_assoc in IH.
  replace (pre ++ (e0 :: e1 :: rest ++ exts) ++ post) with (pre ++ (e0 :: e1 :: rest) ++ exts ++ post).
  - rewrite IH; [do 3 f_equal; lia| |lia|done]. cbn [length] in Hf. rewrite length_app in Hf. lia.
  - cbn. by rewrite app_assoc.
Qed.
Lemma parse_ipv6_spec pre h ids exts payload pad t0 t1 nh proto n dl d s v iv ipr ep ip st av :
  zlen h = 40 → h !! 4%nat = Some t0 → h !! 5%nat = Some t1 → h !! 6%nat = Some nh →
  be16 t0 t1 = zlen exts + zlen payload → chain nh ids exts proto → options_only ids → 0 ≤ proto < 256 →
  n = zlen pre + zlen (h ++ exts) + zlen payload + zlen pad → n < 2 ^ 32 →
  net_header_parse_ipv6 (pre ++ (h ++ exts) ++ payload ++ pad) (Parser dl n (zlen pre) d s ETH_P_IPV6 v iv ipr ep ip (zlen pre) st av) =
  Some (zlen pre + zlen (h ++ exts), Parser dl (zlen pre + zlen (h ++ exts) + zlen payload) (zlen pre + zlen (h ++ exts))
    d s ETH_P_IPV6 v 6 proto (Some (zlen pre)) ip (zlen pre + zlen (h ++ exts)) st av).
Proof.
  intros H40 H4 H5 H6 Ht Hc Hopt Hpr Hn Hs. rewrite zlen_app in *. pose proof (zlen_nonneg pre). pose proof (zlen_nonneg payload).
  pose proof (zlen_nonneg pad). pose proof (zlen_nonneg exts).
  assert (length (pre ++ (h ++ exts) ++ payload ++ pad) ≥ length exts)%nat as Hfuel by (rewrite !length_app; lia).
  unfold net_header_parse_ipv6. nh_simpl. rewrite wrapu64_small by lia. rewrite (proj2 (Z.ltb_ge _ 40)) by lia. nh_simpl.
  change 4 with (Z.of_nat 4). replace ((h ++ exts) ++ payload ++ pad) with (h ++ exts ++ payload ++ pad) in * by (by rewrite app_assoc).
  rewrite (rd16_at pre h _ 4 t0 t1) by done. rewrite Ht. rewrite (proj2 (Z.ltb_ge _ (zlen exts + zlen payload))) by lia. nh_simpl.
  rewrite !wrapu64_small by (rewrite ?wrapu64_small by lia; lia). unfold net_header_get_ipv6_payload, net_header_get_ipv6_hdr. nh_simpl.
  change (negb (ETH_P_IPV6 =? ETH_P_IPV6)) with false. change (negb (6 =? 6)) with false. cbv iota.
  replace (zlen pre + 6) with (zlen pre + Z.of_nat 6) by lia. rewrite (rd_at pre h _ 6 nh) by done.
  pose proof (ext_loop_spec nh ids exts proto Hc Hopt Hpr (S (length (pre ++ h ++ exts ++ payload ++ pad))) (pre ++ h) (payload ++ pad)
    (zlen pre + 40 + (zlen exts + zlen payload)) dl d s ETH_P_IPV6 v 6 ipr (Some (zlen pre)) ip st av) as Hl.
  rewrite <- app_assoc, zlen_app, H40 in Hl. rewrite Hl by first [lia|done]. nh_simpl.
  rewrite (proj2 (Z.eqb_neq _ 0)) by lia. rewrite H40, !Z.add_assoc. done.
Qed.

(** The transport headers. *)
Lemma parse_transport_spec pre payload pad proto hlen n dl d s e v iv ep ip st av len :
  transport proto payload = Some hlen → 0 < hlen ≤ zlen payload → n = zlen pre + zlen payload → n < 2 ^ 32 →
  (if proto =? IPPROTO_TCP then net_header_parse_tcp (pre ++ payload ++ pad)
   else if proto =? IPPROTO_UDP then net_header_parse_udp else if proto =? IPPROTO_ICMP then net_header_parse_icmp
   else if proto =? IPPROTO_ICMPV6 then net_header_parse_icmp6 else mret len)
  (Parser dl n (zlen pre) d s e v iv proto ep ip (zlen pre) st av) =
  Some (hlen, Parser dl n (zlen pre + hlen) d s e v iv proto ep (Some (zlen pre)) (zlen pre + hlen) st av).
Proof.
  intros Ht Hl Hn Hs. pose proof (zlen_nonneg pre). unfold transport in Ht. destruct (Z.eqb_spec proto IPPROTO_TCP) as [->|Hne].
  - destruct (payload !! 12%nat) as [b|] eqn:Hb; [|done]. cbn in Ht. injection Ht as <-.
    unfold net_header_parse_tcp. nh_simpl. change 12 with (Z.of_nat 12). rewrite (rd_at pre payload pad 12 b) by done. nh_simpl.
    rewrite wrapu64_small by lia. rewrite (proj2 (Z.ltb_ge _ (Z.shiftr b 4 * 4))) by lia. nh_simpl. by rewrite wrapu64_small by lia.
  - case_bool_decide as Hin; [|done]. injection Ht as <-.
    assert (parse_fixed 8 (Parser dl n (zlen pre) d s e v iv proto ep ip (zlen pre) st av) =
      Some (8, Parser dl n (zlen pre + 8) d s e v iv proto ep (Some (zlen pre)) (zlen pre + 8) st av)) as Hfix.
    { unfold parse_fixed. nh_simpl. rewrite wrapu64_small by lia. rewrite (proj2 (Z.ltb_ge _ 8)) by lia. nh_simpl. by rewrite wrapu64_small by lia. }
    repeat (apply elem_of_cons in Hin as [->|Hin]; [exact Hfix|]). by apply not_elem_of_nil in Hin.
Qed.

(** C9. A captured frame with an Ethernet header (plain or with a VLAN tag, also in a cooked
    capture), a complete IPv4 packet, or a complete IPv6 packet whose extension headers are only
    hop-by-hop and destination options, and some padding is parsed exactly: the type, the
    tag, the IP version and the protocol behind the extension headers are those of the frame,
    the packet is cut to its own length, and the transport header is found where it
    begins; nothing outside of the capture is read.  The result is the length of the
    transport header, or the offset of the payload of IP when the protocol is not
    parsed.  With other extension headers this fails: the search does not find them, and it finds
    authentication headers but miscounts them ([is_ipv6_extension_exact],
    [net_header_extensions_missed]). *)
Theorem net_header_parse_complete dl et vlan ver proto ids eth hdr payload pad :
  let buf := eth ++ hdr ++ payload ++ pad in
  zlen buf < 2 ^ 32 → eth_bytes dl et vlan eth → ip_header payload et ver proto ids hdr → options_only ids →
  0 ≤ proto < 256 → transport_ok proto payload →
  ∃ ret p, net_header_parse buf (parser_init buf dl) = Some (ret, p) ∧
    ethertype p = et ∧ vlan_id p = vlan ∧ dstmac p = Some 0 ∧ srcmac p = Some 6 ∧ ip_version p = ver ∧ ip_protocol p = proto ∧
    eth_pld p = Some (zlen eth) ∧ packet_len p = zlen eth + zlen hdr + zlen payload ∧ parsed p = data p ∧
    match transport proto payload with
    | Some hlen => ret = hlen ∧ ip_pld p = Some (zlen eth + zlen hdr) ∧ data p = zlen eth + zlen hdr + hlen
    | None => ret = zlen eth + zlen hdr ∧ data p = ret
    end.
Proof.
  intros buf Hs He Hip Hopt Hpr Ht. pose proof (zlen_nonneg eth). pose proof (zlen_nonneg hdr). pose proof (zlen_nonneg payload). pose proof (zlen_nonneg pad).
  assert (zlen buf = zlen eth + zlen hdr + zlen payload + zlen pad) as Hbuf by (unfold buf; rewrite !zlen_app; lia).
  assert (0 < zlen eth) as Hpos.
  { destruct He; rewrite !zlen_app; unfold zlen; cbn [length]; lia. }
  assert (et = ETH_P_IP ∨ et = ETH_P_IPV6) as Het by (destruct Hip; auto).
  assert (net_header_parse_ip buf (Parser dl (zlen buf) (zlen eth) (Some 0) (Some 6) et vlan 0 0 (Some (zlen eth)) None (zlen eth) 0 true) =
    Some (zlen eth + zlen hdr, Parser dl (zlen eth + zlen hdr + zlen payload) (zlen eth + zlen hdr) (Some 0) (Some 6) et vlan ver proto
      (Some (zlen eth)) None (zlen eth + zlen hdr) 0 true)) as Hparse.
  { destruct Hip; unfold net_header_parse_ip, net_header_get_ethertype; nh_simpl.
    - change (ETH_P_IP =? ETH_P_IP) with true. cbv iota. by eapply parse_ipv4_spec.
    - change (ETH_P_IPV6 =? ETH_P_IP) with false. change (ETH_P_IPV6 =? ETH_P_IPV6) with true. cbv iota. by eapply parse_ipv6_spec. }
  unfold net_header_parse, parser_init. fold (zlen buf). nh_simpl. unfold buf at 1.
  rewrite (parse_eth_spec et vlan) by first [done|fold buf; lia]. nh_simpl. rewrite (proj2 (Z.eqb_neq (zlen eth) 0)) by lia.
  unfold net_header_get_ethertype. nh_simpl.
  assert (negb ((et =? ETH_P_IP) || (et =? ETH_P_IPV6)) = false) as -> by (by destruct Het as [-> | ->]). rewrite Hparse. nh_simpl.
  rewrite (proj2 (Z.eqb_neq (zlen eth + zlen hdr) 0)) by lia. nh_simpl.
  unfold transport_ok in Ht. destruct (transport proto payload) as [hlen|] eqn:Htr.
  - assert (0 < hlen ≤ zlen payload) as Ht' by (destruct (_ =? _); lia). clear Ht. rename Ht' into Ht.
    replace buf with ((eth ++ hdr) ++ payload ++ pad) by (unfold buf; by rewrite <- app_assoc). rewrite <- !zlen_app.
    pose proof (parse_transport_spec (eth ++ hdr) payload pad proto hlen (zlen ((eth ++ hdr) ++ payload)) dl (Some 0) (Some 6) et vlan ver
      (Some (zlen eth)) None 0 true (zlen (eth ++ hdr)) Htr Ht) as Hp. unfold mret, M_ret in Hp. rewrite Hp by (rewrite !zlen_app; lia).
    eexists _, _. split; [done|]. cbn [ethertype vlan_id dstmac srcmac ip_version ip_protocol eth_pld packet_len parsed data ip_pld].
    rewrite !zlen_app. by split_and!.
  - unfold transport in Htr. rewrite (proj2 (Z.eqb_neq _ _) Ht) in *. case_bool_decide as Hin; [done|].
    rewrite !(proj2 (Z.eqb_neq proto _)) by (intros ->; apply Hin; set_solver).
    eexists _, _. split; [done|]. by split_and!.
Qed.

(** *** Witness and edges *)

Definition demo_eth : list Z := [1; 2; 3; 4; 5; 6; 7; 8; 9; 10; 11; 12; 0x81; 0; 0x20; 5; 8; 0].
Definition demo_ip (tot_len : Z) (proto : Z) : list Z :=
  [0x45; 0; 0; tot_len; 0; 0; 0; 0; 64; proto; 0; 0; 192; 168; 1; 2; 10; 0; 0; 1].
Definition demo_udp : list Z := [0; 53; 0; 53; 0; 8; 0; 0].
Lemma demo_eth_ok : eth_bytes 1 ETH_P_IP 5 demo_eth.
Proof. by apply (eth_tagged 1 ETH_P_IP 5 [1; 2; 3; 4; 5; 6; 7; 8; 9; 10; 11; 12] [] 0x20 5 8 0). Qed.
Lemma demo_ip_ok : ip_header demo_udp ETH_P_IP 4 IPPROTO_UDP [] (demo_ip 28 17).
Proof. by apply (ip_header4 _ _ 0x45 0 28 17). Qed.
Lemma net_header_parse_complete_witness : ∃ p, net_header_parse (demo_eth ++ demo_ip 28 17 ++ demo_udp ++ [0; 0])
    (parser_init (demo_eth ++ demo_ip 28 17 ++ demo_udp ++ [0; 0]) 1) = Some (8, p) ∧ vlan_id p = 5 ∧ packet_len p = 46.
Proof.
  destruct (net_header_parse_complete 1 ETH_P_IP 5 4 IPPROTO_UDP [] demo_eth (demo_ip 28 17) demo_udp [0; 0])
    as (ret & p & Hrun & _ & Hv & _ & _ & _ & _ & _ & Hl & _ & Hret & _);
    [reflexivity|exact demo_eth_ok|exact demo_ip_ok|constructor|vm_compute; split; [discriminate|reflexivity]|vm_compute; split; discriminate|].
  exists p. rewrite Hret in Hrun. split; [exact Hrun|]. split; [exact Hv|exact Hl].
Defined.
Lemma net_header_srcip_demo : let buf := demo_eth ++ demo_ip 28 17 ++ demo_udp in
  (_ ← net_header_parse buf; net_header_srcip_str buf (λ _, "") 46) (parser_init buf 1) ≫= (λ r, r.1) = Some "192.168.1.2".
Proof. by vm_compute. Qed.

(** A routing header is taken for the protocol, and behind an authentication header of 12 bytes the
    protocol is read 16 bytes later. *)
Definition demo_ip6 (nh len : Z) : list Z := [0x60; 0; 0; 0; 0; len; nh; 64] ++ replicate 32 1.
Definition demo_eth6 : list Z := [1; 2; 3; 4; 5; 6; 7; 8; 9; 10; 11; 12; 0x86; 0xDD].
Lemma net_header_extensions_missed :
  let routing := demo_eth6 ++ demo_ip6 43 16 ++ [17; 0; 0; 0; 0; 0; 0; 0] ++ demo_udp in
  let auth := demo_eth6 ++ demo_ip6 51 36 ++ [17; 1; 0; 0; 0; 0; 0; 0; 0; 0; 0; 0; 0; 53; 0; 53; 0; 24; 0; 0] ++ replicate 16 7 in
  (ip_protocol ∘ snd) <$> net_header_parse routing (parser_init routing 1) = Some 43 ∧
  ip_pld ∘ snd <$> net_header_parse auth (parser_init auth 1) = Some (Some (14 + 40 + 16)).
Proof. by vm_compute. Qed.
(** A packet that was cut behind its IP header is accepted, because only the length of the payload is
    compared with what was captured, and the transport header is read outside of the capture. *)
Lemma net_header_truncated_faults :
  let eth := [1; 2; 3; 4; 5; 6; 7; 8; 9; 10; 11; 12; 8; 0] in
  net_header_parse (eth ++ demo_ip 40 6) (parser_init (eth ++ demo_ip 40 6) 1) = None.
Proof. by vm_compute. Qed.
(** A frame of 14 bytes with a VLAN tag is read beyond its end. *)
Lemma net_header_tag_faults : let buf := take 14 demo_eth in net_header_parse buf (parser_init buf 1) = None.
Proof. by vm_compute. Qed.
