(* ===== verification/Psfs.v ===== *)
(** The persistent store, src/lib/psfs/src/psfs.c, with its users
    src/lib/osp/src/osp_ps_psfs.c and src/tools/osps/src/osps_psfs.c.

    A store is a journal of records in a file and a tree of the latest records in memory.
    [pworld] holds the handle [psfs_t] with the disk behind it: directories with names of
    files, the contents of the files by inode, and the open descriptors.  The outcome of
    every system call that can fail comes from [pw_plan]: the calls beyond its end succeed.
    [lseek] on a regular file does not fail.  [pw_wait] is what other processes do to the
    disk while a lock is waited for.  Bytes are numbers; a key is its bytes without the
    terminating zero.  The tree is the sequence of its records in the order of their keys
    (KeySeq.v), where [memcmp] has the sign of [strcmp] on keys; a pointer to a
    record in the tree is its key. *)
From Stdlib Require Import Floats.SpecFloat.
From S2P Require Import Prelude DsTreeInv KeySeq.
Local Open Scope Z_scope.

Definition PSFS_MAGIC : Z := 0x50534653.
Definition PSFS_PADDING : Z := 0xFF.
Definition PSFS_CRC32_POLY : Z := 0xEDB88320.
Definition PSFS_CRC32_VERIFY : Z := 0x2144DF1C.
Definition OSP_PS_READ : Z := 1.
Definition OSP_PS_WRITE : Z := 2.
Definition OSP_PS_PRESERVE : Z := 4.
Definition OSP_PS_RDWR : Z := 3.
Definition CONFIG_PSFS_SYNC_MIN : Z := 8.
Definition CONFIG_PSFS_SYNC_WASTED_MAX : Z := 32.
Definition CONFIG_PSFS_SYNC_WASTED_RATIO_MAX : Z := 50.

(** [struct psfs_record]; [pr_off] is not used. *)
Record psfs_record := Rec { pr_key : list Z; pr_data : list Z; pr_dirty : bool; pr_used : Z }.
Definition pr_datasz (r : psfs_record) : Z := Z.of_nat (length (pr_data r)).
Definition set_clean (r : psfs_record) : psfs_record := Rec (pr_key r) (pr_data r) false (pr_used r).
(** [struct psfs] *)
Record psfs := Psfs {
  psfs_name : string; psfs_fd : Z; psfs_dirfd : option bool; psfs_flags : Z;
  psfs_root : list psfs_record; ps_next : option (list Z); psfs_used : Z }.
Definition PSFS_INIT : psfs := Psfs "" (-1) None 0 [] None 0.
(** [struct psfs_dir]: the descriptor of a folder says which of the two it is. *)
Record psfs_dir := PsfsDir { psd_ref : Z; psd_fd : option bool }.

(** *** The system *)

(** What a system call does: its work, nothing (a buffer it would fill holds [g]), or a
    part of its work. *)
Inductive outcome := OK | FAIL (g : Z) | SHORT (n : nat).
(** An open file; writes go to the end. *)
Record ofd := Ofd { of_ino : nat; of_pos : nat; of_rd : bool; of_wr : bool }.
Record disk := Disk { d_names : gmap (bool * string) nat; d_files : gmap nat (list Z); d_next : nat }.
Record pworld := PWorld {
  pw_disk : disk; pw_fds : gmap Z ofd; pw_nfd : Z; pw_plan : list outcome; pw_wait : list (disk → disk);
  pw_dirs : psfs_dir * psfs_dir; pw_ps : psfs }.
Abbreviation PS := (M pworld).

Definition with_disk (f : disk → disk) (w : pworld) : pworld :=
  PWorld (f (pw_disk w)) (pw_fds w) (pw_nfd w) (pw_plan w) (pw_wait w) (pw_dirs w) (pw_ps w).
Definition with_fds (f : gmap Z ofd → gmap Z ofd) (w : pworld) : pworld :=
  PWorld (pw_disk w) (f (pw_fds w)) (pw_nfd w) (pw_plan w) (pw_wait w) (pw_dirs w) (pw_ps w).
Definition with_nfd (n : Z) (w : pworld) : pworld :=
  PWorld (pw_disk w) (pw_fds w) n (pw_plan w) (pw_wait w) (pw_dirs w) (pw_ps w).
Definition with_plan (f : list outcome → list outcome) (w : pworld) : pworld :=
  PWorld (pw_disk w) (pw_fds w) (pw_nfd w) (f (pw_plan w)) (pw_wait w) (pw_dirs w) (pw_ps w).
Definition with_wait (f : list (disk → disk) → list (disk → disk)) (w : pworld) : pworld :=
  PWorld (pw_disk w) (pw_fds w) (pw_nfd w) (pw_plan w) (f (pw_wait w)) (pw_dirs w) (pw_ps w).
Definition with_dirs (d : psfs_dir * psfs_dir) (w : pworld) : pworld :=
  PWorld (pw_disk w) (pw_fds w) (pw_nfd w) (pw_plan w) (pw_wait w) d (pw_ps w).
Definition with_ps (f : psfs → psfs) (w : pworld) : pworld :=
  PWorld (pw_disk w) (pw_fds w) (pw_nfd w) (pw_plan w) (pw_wait w) (pw_dirs w) (f (pw_ps w)).

Definition sys : PS outcome :=
  p ← gets pw_plan;
  modify (with_plan tail);;
  mret (default OK (head p)).
(** The contents of the file behind a descriptor. *)
Definition fd_data (w : pworld) (fd : Z) : option (ofd * list Z) :=
  d ← pw_fds w !! fd;
  c ← d_files (pw_disk w) !! of_ino d;
  Some (d, c).
Definition set_pos (fd : Z) (p : nat) : PS unit :=
  modify (with_fds (alter (λ d, Ofd (of_ino d) p (of_rd d) (of_wr d)) fd)).
Definition set_file (ino : nat) (c : list Z) : PS unit :=
  modify (with_disk (λ d, Disk (d_names d) (<[ino := c]> (d_files d)) (d_next d))).

(** [read]: at least one byte, unless the end of the file is reached. *)
Definition sys_read (fd : Z) (n : nat) : PS (Z * list Z) :=
  o ← sys;
  x ← gets (λ w, fd_data w fd);
  match o, x with
  | FAIL _, _ | _, None => mret (-1, [])
  | _, Some (d, c) =>
      if negb (of_rd d) then mret (-1, []) else
      let k := match o with SHORT m => Nat.min n (S m) | _ => n end in
      let b := take k (drop (of_pos d) c) in
      set_pos fd (of_pos d + length b);;
      mret (Z.of_nat (length b), b)
  end.
(** [writev] of the concatenation of the buffers, with O_APPEND. *)
Definition sys_writev (fd : Z) (b : list Z) : PS Z :=
  o ← sys;
  x ← gets (λ w, fd_data w fd);
  match o, x with
  | FAIL _, _ | _, None => mret (-1)
  | _, Some (d, c) =>
      if negb (of_wr d) then mret (-1) else
      let b := match o with SHORT m => take m b | _ => b end in
      set_file (of_ino d) (c ++ b);;
      set_pos fd (length c + length b);;
      mret (Z.of_nat (length b))
  end.
(** [lseek] to the current and to a given position *)
Definition sys_tell (fd : Z) : PS Z :=
  x ← gets (λ w, pw_fds w !! fd); mret (from_option (λ d, Z.of_nat (of_pos d)) (-1) x).
Definition sys_seek (fd p : Z) : PS unit := set_pos fd (Z.to_nat p).
(** [fstat]: whether it works, and the member [st_size] *)
Definition sys_fstat (fd : Z) : PS (bool * Z) :=
  o ← sys;
  x ← gets (λ w, fd_data w fd);
  match o, x with
  | FAIL g, _ => mret (false, g)
  | _, None => mret (false, 0)
  | _, Some (d, c) => mret (true, Z.of_nat (length c))
  end.
Definition sys_ftruncate (fd : Z) : PS bool :=
  o ← sys;
  x ← gets (λ w, fd_data w fd);
  match o, x with
  | FAIL _, _ | _, None => mret false
  | _, Some (d, c) => if negb (of_wr d) then mret false else set_file (of_ino d) [];; mret true
  end.
(** A call that only succeeds or fails: [fsync], [mkdir], [close] of a folder *)
Definition sys_ok : PS bool :=
  o ← sys; mret match o with FAIL _ => false | _ => true end.
(** [openat] *)
Definition sys_openat (dirfd : option bool) (name : string) (creat trunc rd wr : bool) : PS Z :=
  ok ← sys_ok;
  d ← gets pw_disk;
  match dirfd with
  | None => mret (-1)
  | Some p =>
      if negb ok then mret (-1) else
      n ← gets pw_nfd;
      match d_names d !! (p, name) with
      | Some ino =>
          (if (trunc : bool) then set_file ino [] else mret tt);;
          modify (with_fds <[n := Ofd ino 0 rd wr]>);;
          modify (with_nfd (n + 1));;
          mret n
      | None =>
          if negb creat then mret (-1) else
          let ino := d_next d in
          modify (with_disk (λ _, Disk (<[(p, name) := ino]> (d_names d)) (<[ino := []]> (d_files d)) (S ino)));;
          modify (with_fds <[n := Ofd ino 0 rd wr]>);;
          modify (with_nfd (n + 1));;
          mret n
      end
  end.
Definition sys_close (fd : Z) : PS unit := modify (with_fds (delete fd)).
Definition sys_unlinkat (dirfd : option bool) (name : string) : PS unit :=
  ok ← sys_ok;
  match dirfd with
  | Some p => if (ok : bool) then modify (with_disk (λ d, Disk (delete (p, name) (d_names d)) (d_files d) (d_next d))) else mret tt
  | None => mret tt
  end.
Definition sys_renameat (dirfd : option bool) (old new : string) : PS bool :=
  ok ← sys_ok;
  d ← gets pw_disk;
  match dirfd with
  | None => mret false
  | Some p =>
      match d_names d !! (p, old) with
      | Some ino =>
          if negb ok then mret false else
          modify (with_disk (λ d, Disk (<[(p, new) := ino]> (delete (p, old) (d_names d))) (d_files d) (d_next d)));;
          mret true
      | None => mret false
      end
  end.
(** The member [st_ino] of [fstat] and of [fstatat] *)
Definition sys_fd_ino (fd : Z) : PS (option nat) :=
  ok ← sys_ok; x ← gets (λ w, pw_fds w !! fd); mret (if (ok : bool) then of_ino <$> x else None).
Definition sys_name_ino (dirfd : option bool) (name : string) : PS (option nat) :=
  ok ← sys_ok; d ← gets pw_disk;
  mret (if (ok : bool) then p ← dirfd; d_names d !! (p, name) else None).

(** *** Records *)

(** [psfs_crc32] *)
Definition crc_bit (c : Z) : Z :=
  if Z.testbit c 0 then Z.lxor (Z.shiftr c 1) PSFS_CRC32_POLY else Z.shiftr c 1.
Definition crc_byte (c b : Z) : Z := Nat.iter 8 crc_bit (Z.lxor c b).
Definition not32 (z : Z) : Z := Z.lxor z 0xFFFFFFFF.
Definition psfs_crc32 (crc : Z) (buf : list Z) : Z := not32 (foldl crc_byte (not32 crc) buf).

(** [htonl] in memory, and [ntohl] *)
Definition be32 (z : Z) : list Z :=
  [Z.land (Z.shiftr z 24) 255; Z.land (Z.shiftr z 16) 255; Z.land (Z.shiftr z 8) 255; Z.land z 255].
Definition of_be32 (b : list Z) : Z := foldl (λ a x, 256 * a + x) 0 b.
(** The bytes of the checksum in the order they are written *)
Definition wcrc (crc : Z) : list Z :=
  [Z.land (Z.shiftr crc 0) 255; Z.land (Z.shiftr crc 8) 255; Z.land (Z.shiftr crc 16) 255; Z.land (Z.shiftr crc 24) 255].
Definition padlen (n : Z) : Z := if Z.land n 3 =? 0 then 0 else 4 - Z.land n 3.
Definition wpad (n : Z) : list Z := replicate (Z.to_nat n) PSFS_PADDING.
Definition Zlen (l : list Z) : Z := Z.of_nat (length l).

(** [psfs_record_init] *)
Definition psfs_record_init (key data : list Z) : psfs_record :=
  let ksz := Zlen key + 1 in
  Rec key data false (ksz + Zlen data + 3 * 4).

(** [psfs_record_write] *)
Definition psfs_record_write (fd : Z) (pr : psfs_record) : PS (Z * psfs_record) :=
  '(ok, st_size) ← sys_fstat fd;
  if negb ok then mret (-1, pr) else
  let bpadlen := padlen st_size in
  let wmagic := be32 PSFS_MAGIC in
  let wkey := pr_key pr ++ [0] in
  let ksz := Zlen wkey in
  let wsz := be32 (wrapu 32 (ksz + pr_datasz pr)) in
  let crc := psfs_crc32 0 wmagic in
  let crc := psfs_crc32 crc wsz in
  let crc := psfs_crc32 crc wkey in
  let crc := psfs_crc32 crc (pr_data pr) in
  let retval := 4 + 4 + ksz + pr_datasz pr + 4 in
  let epadlen := padlen retval in
  rc ← sys_writev fd (wpad bpadlen ++ wmagic ++ wsz ++ wkey ++ pr_data pr ++ wcrc crc ++ wpad epadlen);
  if rc <? retval + epadlen + bpadlen then mret (-1, pr) else mret (retval, set_clean pr).

(** [strnlen]: the bytes in front of the first zero *)
Fixpoint cstr (b : list Z) : list Z :=
  match b with
  | [] => []
  | c :: b => if c =? 0 then [] else c :: cstr b
  end.

(** The path at [seek_on_error] *)
Definition seek_on_error (fd coff : Z) : PS (Z * option psfs_record) :=
  sys_seek fd (coff + 4);; mret (-1, None).
(** [psfs_record_read] from the size on *)
Definition psfs_record_body (fd coff : Z) (pr_magic : list Z) : PS (Z * option psfs_record) :=
  let crc := psfs_crc32 0 pr_magic in
  '(rc, wsz) ← sys_read fd 4;
  if rc <? 4 then mret (-1, None) else
  let crc := psfs_crc32 crc wsz in
  let pr_size := of_be32 wsz in
  '(ok, st_size) ← sys_fstat fd;
  if negb ok then seek_on_error fd coff else
  if st_size <? coff + 4 + 4 + pr_size + 4 then seek_on_error fd coff else
  '(rc, buf) ← sys_read fd (Z.to_nat pr_size);
  if rc <? pr_size then seek_on_error fd coff else
  let crc := psfs_crc32 crc buf in
  '(rc, pr_crc) ← sys_read fd 4;
  if rc <? 4 then seek_on_error fd coff else
  let crc := psfs_crc32 crc pr_crc in
  if negb (crc =? PSFS_CRC32_VERIFY) then seek_on_error fd coff else
  let doff := Zlen (cstr buf) in
  if pr_size <=? doff then seek_on_error fd coff else
  let retval := 4 + 4 + pr_size + 4 in
  mret (retval, Some (Rec (cstr buf) (drop (Z.to_nat (doff + 1)) buf) false retval)).
(** [psfs_record_read] from the magic number on *)
Definition psfs_record_magic (fd coff : Z) : PS (Z * option psfs_record) :=
  '(rc, pr_magic) ← sys_read fd 4;
  if rc =? 0 then mret (0, None) else
  if rc <? 4 then mret (-1, None) else
  if negb (bool_decide (pr_magic = be32 PSFS_MAGIC)) then mret (-1, None) else
  psfs_record_body fd coff pr_magic.
(** [psfs_record_read] *)
Definition psfs_record_read (fd : Z) : PS (Z * option psfs_record) :=
  coff ← sys_tell fd;
  if Z.land coff 3 =? 0 then psfs_record_magic fd coff else
  let n := padlen coff in
  '(rc, _) ← sys_read fd (Z.to_nat n);
  if rc =? 0 then mret (0, None) else
  if rc <? n then mret (-1, None) else
  psfs_record_magic fd (coff + n).

(** *** The tree of records *)

Definition with_root (f : list psfs_record → list psfs_record) (p : psfs) : psfs :=
  Psfs (psfs_name p) (psfs_fd p) (psfs_dirfd p) (psfs_flags p) (f (psfs_root p)) (ps_next p) (psfs_used p).
Definition with_next (k : option (list Z)) (p : psfs) : psfs :=
  Psfs (psfs_name p) (psfs_fd p) (psfs_dirfd p) (psfs_flags p) (psfs_root p) k (psfs_used p).
Definition with_used (f : Z → Z) (p : psfs) : psfs :=
  Psfs (psfs_name p) (psfs_fd p) (psfs_dirfd p) (psfs_flags p) (psfs_root p) (ps_next p) (f (psfs_used p)).
Definition with_fd (fd : Z) (p : psfs) : psfs :=
  Psfs (psfs_name p) fd (psfs_dirfd p) (psfs_flags p) (psfs_root p) (ps_next p) (psfs_used p).
Definition rec_find (k : list Z) (l : list psfs_record) : option psfs_record := ks_get memcmp pr_key k l.
Definition rec_insert (r : psfs_record) : PS unit := modify (with_ps (with_root (ks_insert memcmp pr_key r))).
(** A change of a record in the tree *)
Definition rec_put (r : psfs_record) : PS unit :=
  modify (with_ps (with_root (fmap (λ x, if bool_decide (pr_key x = pr_key r) then r else x)))).
(** [ds_tree_next] *)
Definition rec_next (k : list Z) (l : list psfs_record) : option psfs_record :=
  i ← ks_find memcmp pr_key k l; l !! S i.

(** [psfs_drop_record] *)
Definition psfs_drop_record (pr : psfs_record) : PS unit :=
  ps ← gets pw_ps;
  (if bool_decide (ps_next ps = Some (pr_key pr))
   then modify (with_ps (with_next (pr_key <$> rec_next (pr_key pr) (psfs_root ps)))) else mret tt);;
  i ← deref (ks_find memcmp pr_key (pr_key pr) (psfs_root ps));
  modify (with_ps (with_root (delete i)));;
  modify (with_ps (with_used (λ u, u - pr_used pr))).
(** The loops that drop every record, and whether one was dirty *)
Fixpoint drop_loop (l : list psfs_record) : PS bool :=
  match l with
  | [] => mret false
  | pr :: l => psfs_drop_record pr;; d ← drop_loop l; mret (pr_dirty pr || d)
  end.

(** [psfs_rewind], [psfs_next] *)
Definition psfs_rewind : PS unit :=
  modify (λ w, with_ps (with_next (pr_key <$> head (psfs_root (pw_ps w)))) w).
(** The elements behind a position whose size is not zero; the loop moves on to the first. *)
Fixpoint next_live (l : list psfs_record) : option (list Z) :=
  match l with
  | [] => None
  | r :: l => if pr_datasz r =? 0 then next_live l else Some (pr_key r)
  end.
Definition psfs_next : PS (option (list Z)) :=
  ps ← gets pw_ps;
  match ps_next ps with
  | None => mret None
  | Some k =>
      i ← deref (ks_find memcmp pr_key k (psfs_root ps));
      modify (with_ps (with_next (next_live (drop (S i) (psfs_root ps)))));;
      mret (Some k)
  end.

(** [psfs_set]; a value that is NULL is [None] *)
Definition psfs_set (key : list Z) (value : option (list Z)) : PS Z :=
  ps ← gets pw_ps;
  if Z.land (psfs_flags ps) OSP_PS_WRITE =? 0 then mret (-1) else
  let value := default [] value in
  let value_sz := Zlen value in
  let store :=
    let pr := psfs_record_init key value in
    let pr := Rec (pr_key pr) (pr_data pr) true (pr_used pr) in
    rec_insert pr;;
    modify (with_ps (with_used (λ u, u + pr_used pr)));;
    mret value_sz in
  match rec_find key (psfs_root ps) with
  | Some pr =>
      if (pr_datasz pr =? value_sz) && bool_decide (pr_data pr = value) then mret value_sz
      else psfs_drop_record pr;; store
  | None => if value_sz =? 0 then mret 0 else store
  end.
(** [psfs_get]: the result and the bytes copied *)
Definition psfs_get (key : list Z) (value_sz : nat) : PS (Z * list Z) :=
  ps ← gets pw_ps;
  if Z.land (psfs_flags ps) OSP_PS_READ =? 0 then mret (-1, []) else
  match rec_find key (psfs_root ps) with
  | None => mret (0, [])
  | Some pr => mret (pr_datasz pr, take value_sz (pr_data pr))
  end.

(** *** Files *)

(** [psfs_dir_open], [psfs_dir_close] *)
Definition get_dir (p : bool) (w : pworld) : psfs_dir := if p then snd (pw_dirs w) else fst (pw_dirs w).
Definition set_dir (p : bool) (d : psfs_dir) : PS unit :=
  modify (λ w, with_dirs (if p then (fst (pw_dirs w), d) else (d, snd (pw_dirs w))) w).
Definition psfs_dir_open (preserve : bool) : PS (option bool) :=
  psd ← gets (get_dir preserve);
  ok ← (if psd_ref psd =? 0 then
          mk ← sys_ok;
          if negb mk then mret false else
          ok ← sys_ok;
          set_dir preserve (PsfsDir (psd_ref psd) (if (ok : bool) then Some preserve else None));;
          mret ok
        else mret true);
  if negb ok then mret None else
  psd ← gets (get_dir preserve);
  set_dir preserve (PsfsDir (wraps 32 (psd_ref psd + 1)) (psd_fd psd));;
  mret (psd_fd psd).
Definition psfs_dir_close (preserve : bool) : PS bool :=
  psd ← gets (get_dir preserve);
  if psd_ref psd =? 0 then mret false else
  let n := psd_ref psd - 1 in
  set_dir preserve (PsfsDir n (psd_fd psd));;
  if 0 <? n then mret true else sys_ok.

(** [psfs_file_lock]: whoever holds the lock goes on until it is released. *)
Definition psfs_file_lock : PS bool :=
  ws ← gets pw_wait;
  modify (with_disk (match ws with [] => λ d, d | other :: _ => other end));;
  modify (with_wait tail);;
  sys_ok.
Definition psfs_file_unlock : PS bool := sys_ok.

(** [psfs_sync_append] *)
Fixpoint append_loop (fd : Z) (l : list psfs_record) : PS bool :=
  match l with
  | [] => mret true
  | pr :: l =>
      if negb (pr_dirty pr) then append_loop fd l else
      '(rc, pr) ← psfs_record_write fd pr;
      rec_put pr;;
      if rc <=? 0 then mret false else append_loop fd l
  end.
Definition psfs_sync_append : PS bool :=
  ps ← gets pw_ps;
  if Z.land (psfs_flags ps) OSP_PS_WRITE =? 0 then mret false else
  ok ← append_loop (psfs_fd ps) (psfs_root ps);
  if negb ok then mret false else
  sys_ok;;
  mret true.

(** [psfs_sync_prune] *)
Fixpoint prune_loop (tfd : Z) (l : list psfs_record) : PS unit :=
  match l with
  | [] => mret tt
  | pr :: l =>
      if pr_datasz pr =? 0 then psfs_drop_record pr;; prune_loop tfd l else
      '(rc, pr) ← psfs_record_write tfd pr;
      (if rc <=? 0 then mret tt else rec_put (set_clean pr));;
      prune_loop tfd l
  end.
(** The end of the function when something fails *)
Definition prune_error (tfd : Z) : PS bool :=
  (if 0 <=? tfd then sys_close tfd else mret tt);; mret false.
Definition tmp_name (name : string) : string := "." +:+ name +:+ ".tmp".
Definition psfs_sync_prune : PS bool :=
  ps ← gets pw_ps;
  if Z.land (psfs_flags ps) OSP_PS_WRITE =? 0 then mret false else
  let tname := tmp_name (psfs_name ps) in
  sys_unlinkat (psfs_dirfd ps) tname;;
  tfd ← sys_openat (psfs_dirfd ps) tname true true false true;
  if tfd <? 0 then prune_error tfd else
  ok ← psfs_file_lock;
  if negb ok then prune_error tfd else
  prune_loop tfd (psfs_root ps);;
  ok ← sys_ok;
  if negb ok then prune_error tfd else
  ok ← sys_renameat (psfs_dirfd ps) tname (psfs_name ps);
  if negb ok then prune_error tfd else
  ok ← sys_ok;
  if negb ok then prune_error tfd else
  psfs_file_unlock;;
  sys_close (psfs_fd ps);;
  modify (with_ps (with_fd tfd));;
  mret true.

(** The choice of [psfs_sync]; the ratio is a [double]. *)
Definition dbl (z : Z) : spec_float := binary_normalize 53 1024 z 0 false.
Definition wants_prune (st_size used : Z) : bool :=
  let wasted := if used <? st_size then st_size - used else 0 in
  let wasted_ratio := if st_size =? 0 then dbl 0 else SFdiv 53 1024 (dbl wasted) (dbl st_size) in
  if CONFIG_PSFS_SYNC_MIN * 1024 <? st_size then
    if CONFIG_PSFS_SYNC_WASTED_MAX * 1024 <? wasted then true
    else SFltb (dbl CONFIG_PSFS_SYNC_WASTED_RATIO_MAX) (SFmul 53 1024 wasted_ratio (dbl 100))
  else false.
(** [psfs_sync] *)
Definition psfs_sync (force_prune : bool) : PS bool :=
  ps ← gets pw_ps;
  if Z.land (psfs_flags ps) OSP_PS_WRITE =? 0 then mret true else
  '(_, st_size) ← sys_fstat (psfs_fd ps);
  if wants_prune st_size (psfs_used ps) || force_prune then psfs_sync_prune else psfs_sync_append.

(** [psfs_load] *)
Fixpoint load_loop (fuel : nat) : PS unit :=
  match fuel with
  | O => fault
  | S fuel =>
      ps ← gets pw_ps;
      '(rc, pr) ← psfs_record_read (psfs_fd ps);
      match pr with
      | None => if rc =? 0 then mret tt else load_loop fuel
      | Some pr =>
          (match rec_find (pr_key pr) (psfs_root ps) with
           | Some opr => psfs_drop_record opr
           | None => mret tt
           end);;
          (if pr_datasz pr =? 0 then mret tt
           else rec_insert pr;; modify (with_ps (with_used (λ u, u + pr_used pr))));;
          load_loop fuel
      end
  end.
Definition psfs_load (fuel : nat) : PS bool := load_loop fuel;; psfs_rewind;; mret true.

(** [psfs_erase] *)
Definition psfs_erase : PS bool :=
  ps ← gets pw_ps;
  if Z.land (psfs_flags ps) OSP_PS_WRITE =? 0 then mret false else
  ok ← sys_ftruncate (psfs_fd ps);
  if negb ok then mret false else
  sys_seek (psfs_fd ps) 0;;
  drop_loop (psfs_root ps);;
  mret true.

(** [psfs_close] *)
Definition psfs_close : PS bool :=
  synced ← psfs_sync false;
  unlocked ← psfs_file_unlock;
  ps ← gets pw_ps;
  (if 0 <=? psfs_fd ps then sys_close (psfs_fd ps) else mret tt);;
  dirty ← drop_loop (psfs_root ps);
  closed ← psfs_dir_close (negb (Z.land (psfs_flags ps) OSP_PS_PRESERVE =? 0));
  modify (with_ps (λ _, PSFS_INIT));;
  mret (synced && unlocked && negb dirty && closed).

(** [psfs_open]; [STRSCPY] keeps what fits into 64 bytes. *)
Definition open_error (flags : Z) : PS bool :=
  ps ← gets pw_ps;
  (if 0 <=? psfs_fd ps then sys_close (psfs_fd ps) else mret tt);;
  psfs_dir_close (negb (Z.land flags OSP_PS_PRESERVE =? 0));;
  modify (with_ps (λ _, PSFS_INIT));;
  mret false.
Fixpoint open_retry (fuel : nat) (name : string) (flags : Z) : PS bool :=
  match fuel with
  | O => fault
  | S fuel =>
      let w := negb (Z.land flags OSP_PS_WRITE =? 0) in
      ps ← gets pw_ps;
      fd ← sys_openat (psfs_dirfd ps) name w false true w;
      modify (with_ps (with_fd fd));;
      if fd <? 0 then open_error flags else
      ok ← psfs_file_lock;
      if negb ok then open_error flags else
      pst ← sys_fd_ino fd;
      match pst with
      | None => mret false
      | Some pino =>
          tst ← sys_name_ino (psfs_dirfd ps) name;
          match tst with
          | None => mret false
          | Some tino =>
              if (pino =? tino)%nat then mret true else sys_close fd;; open_retry fuel name flags
          end
      end
  end.
Definition psfs_open (fuel : nat) (name : string) (flags : Z) : PS bool :=
  modify (with_ps (λ _, PSFS_INIT));;
  if Z.land flags OSP_PS_RDWR =? 0 then mret false else
  dirfd ← psfs_dir_open (negb (Z.land flags OSP_PS_PRESERVE =? 0));
  modify (with_ps (λ _, Psfs (String.substring 0 63 name) (-1) dirfd flags [] None 0));;
  match dirfd with
  | None => mret false
  | Some _ => open_retry fuel name flags
  end.

(** *** The interface of the platform *)

(** [osp_ps_open] *)
Definition osp_ps_open (fuel : nat) (name : string) (flags : Z) : PS bool :=
  ok ← psfs_open fuel name flags;
  if negb ok then mret false else
  ok ← psfs_load fuel;
  if negb ok then psfs_close;; mret false else mret true.
Definition osp_ps_close : PS bool := psfs_close.
Definition osp_ps_set (key : list Z) (value : option (list Z)) : PS Z := psfs_set key value.
Definition osp_ps_get (key : list Z) (value_sz : nat) : PS (Z * list Z) := psfs_get key value_sz.
Definition osp_ps_erase : PS bool := psfs_erase.
Definition osp_ps_sync : PS bool := psfs_sync false.
Definition osp_ps_rewind : PS unit := psfs_rewind.
Definition osp_ps_next : PS (option (list Z)) := psfs_next.

(** [osps_prune]: the number the command returns *)
Definition osps_prune (fuel : nat) (store : string) (preserve : bool) : PS Z :=
  let pres := if preserve then OSP_PS_PRESERVE else 0 in
  ok ← psfs_open fuel store (Z.lor OSP_PS_READ pres);
  if negb ok then mret 1 else
  ok ← psfs_close;
  if negb ok then mret 1 else
  ok ← psfs_open fuel store (Z.lor OSP_PS_WRITE pres);
  if negb ok then mret 1 else
  ok ← psfs_load fuel;
  retval ← (if negb ok then mret 1 else ok ← psfs_sync true; mret (if negb ok then 1 else 0));
  ok ← psfs_close;
  mret (if negb ok then 1 else retval).
