(* ===== verification/PsfsRec.v ===== *)
(** The checksum of the persistent store (one bit of its register is linear over exclusive or,
    so that a checksum that follows its data cancels out), and records in a file: what a write puts
    there, a read gets back. *)
From S2P Require Import Prelude DsTreeInv KeySeq Psfs.
Local Open Scope Z_scope.

Definition u32 (x : Z) : Prop := 0 ≤ x < 2 ^ 32.
Definition u8 (x : Z) : Prop := 0 ≤ x < 256.

(** *** Words *)

Lemma u32_bits x : 0 ≤ x → (∀ n, 32 ≤ n → Z.testbit x n = false) → u32 x.
Proof.
  intros H0 Hb. split; [done|]. destruct (Z.le_gt_cases (2 ^ 32) x) as [Hge|]; [|done].
  assert (x ≠ 0) as Hx by lia. pose proof (Z.bit_log2 x) as Hl. rewrite Hb in Hl; [by specialize (Hl ltac:(lia))|].
  apply Z.log2_le_pow2; lia.
Qed.
Lemma bits_u32 x n : u32 x → 32 ≤ n → Z.testbit x n = false.
Proof.
  intros [H0 Hx] Hn. destruct (Z.eq_dec x 0) as [->|Hne]; [apply Z.testbit_0_l|].
  apply Z.bits_above_log2; [done|]. apply Z.log2_lt_pow2; [lia|]. eapply Z.lt_le_trans; [done|].
  by apply Z.pow_le_mono_r.
Qed.
Lemma u32_lxor x y : u32 x → u32 y → u32 (Z.lxor x y).
Proof.
  intros Hx Hy. apply u32_bits.
  - apply Z.lxor_nonneg. unfold u32 in *. lia.
  - intros n Hn. by rewrite Z.lxor_spec, !bits_u32.
Qed.
Lemma u32_shiftr x k : u32 x → 0 ≤ k → u32 (Z.shiftr x k).
Proof.
  intros Hx Hk. apply u32_bits.
  - apply Z.shiftr_nonneg. by destruct Hx.
  - intros n Hn. rewrite Z.shiftr_spec by lia. apply bits_u32; [done|lia].
Qed.
Lemma u8_u32 x : u8 x → u32 x.
Proof. unfold u8, u32. lia. Qed.
Lemma not32_u32 x : u32 x → u32 (not32 x).
Proof. intros. apply u32_lxor; [done|]. unfold u32. lia. Qed.
Lemma not32_not32 x : not32 (not32 x) = x.
Proof. unfold not32. by rewrite Z.lxor_assoc, Z.lxor_nilpotent, Z.lxor_0_r. Qed.

(** *** The register *)

Lemma crc_bit_lxor a b : crc_bit (Z.lxor a b) = Z.lxor (crc_bit a) (crc_bit b).
Proof.
  unfold crc_bit. rewrite Z.lxor_spec, Z.shiftr_lxor.
  destruct (Z.testbit a 0), (Z.testbit b 0); simpl.
  - rewrite (Z.lxor_comm (Z.shiftr b 1)), Z.lxor_assoc, <- (Z.lxor_assoc PSFS_CRC32_POLY).
    by rewrite Z.lxor_nilpotent, Z.lxor_0_l.
  - rewrite !Z.lxor_assoc. f_equal. apply Z.lxor_comm.
  - by rewrite Z.lxor_assoc.
  - done.
Qed.
Lemma crc_bits_lxor n a b : Nat.iter n crc_bit (Z.lxor a b) = Z.lxor (Nat.iter n crc_bit a) (Nat.iter n crc_bit b).
Proof. induction n as [|n IH]; [done|]. simpl. by rewrite IH, crc_bit_lxor. Qed.
Lemma crc_bit_shiftl x k : 0 < k → crc_bit (Z.shiftl x k) = Z.shiftl x (k - 1).
Proof.
  intros Hk. unfold crc_bit. rewrite Z.shiftl_spec_low by lia. rewrite Z.shiftr_shiftl_r by lia.
  rewrite <- Z.shiftl_opp_r. f_equal. lia.
Qed.
Lemma crc_bits_shiftl n x : Nat.iter n crc_bit (Z.shiftl x (Z.of_nat n)) = x.
Proof.
  induction n as [|n IH]; [apply Z.shiftl_0_r|]. rewrite Nat.iter_succ_r, crc_bit_shiftl by lia.
  replace (Z.of_nat (S n) - 1) with (Z.of_nat n) by lia. done.
Qed.
Lemma crc_bit_u32 c : u32 c → u32 (crc_bit c).
Proof.
  intros Hc. unfold crc_bit. pose proof (u32_shiftr c 1 Hc ltac:(lia)) as Hs.
  destruct (Z.testbit c 0); [|done]. apply u32_lxor; [done|]. unfold u32, PSFS_CRC32_POLY. lia.
Qed.
Lemma crc_byte_u32 c b : u32 c → u8 b → u32 (crc_byte c b).
Proof.
  intros Hc Hb. unfold crc_byte. assert (u32 (Z.lxor c b)) as Hx by (apply u32_lxor; [done|by apply u8_u32]).
  generalize 8%nat. intros n. induction n as [|n IH]; [done|]. simpl. by apply crc_bit_u32.
Qed.
Lemma crc_fold_u32 c l : u32 c → Forall u8 l → u32 (foldl crc_byte c l).
Proof.
  intros Hc Hl. revert c Hc. induction Hl as [|b l Hb _ IH]; intros c Hc; [done|]. simpl.
  apply IH. by apply crc_byte_u32.
Qed.

(** The bytes of a word go into the register one after the other as the word would at once. *)
Lemma crc_four c b0 b1 b2 b3 :
  foldl crc_byte c [b0; b1; b2; b3] =
  Nat.iter 32 crc_bit (Z.lxor c (Z.lxor b0 (Z.lxor (Z.shiftl b1 8) (Z.lxor (Z.shiftl b2 16) (Z.shiftl b3 24))))).
Proof.
  replace (Z.shiftl b2 16) with (Z.shiftl (Z.shiftl b2 8) 8) by (by rewrite Z.shiftl_shiftl).
  replace (Z.shiftl b3 24) with (Z.shiftl (Z.shiftl (Z.shiftl b3 8) 8) 8) by (by rewrite !Z.shiftl_shiftl).
  change 32%nat with (8 + (8 + (8 + 8)))%nat. rewrite !Nat.iter_add. cbn [foldl]. unfold crc_byte.
  pose proof (crc_bits_lxor 8) as Hx. pose proof (crc_bits_shiftl 8) as Hs. change (Z.of_nat 8) with 8 in Hs.
  set (I := Nat.iter 8 crc_bit) in *. clearbody I. repeat (rewrite Hx || rewrite Hs).
  by rewrite !Z.lxor_assoc.
Qed.

(** A word is made of its bytes. *)
Lemma testbit_byte x k n : 0 ≤ k → Z.testbit (Z.land (Z.shiftr x k) 255) n = Z.testbit x (n + k) && (0 <=? n) && (n <? 8).
Proof.
  intros Hk. destruct (Z.leb_spec 0 n) as [Hn|Hn]; [|by rewrite Z.testbit_neg_r, andb_false_r by lia].
  rewrite Z.land_spec, Z.shiftr_spec by done. change 255 with (Z.ones 8). rewrite Z.testbit_ones_nonneg by lia.
  by rewrite andb_true_r.
Qed.
Lemma bytes_word v : u32 v →
  Z.lxor (Z.land (Z.shiftr v 0) 255) (Z.lxor (Z.shiftl (Z.land (Z.shiftr v 8) 255) 8)
    (Z.lxor (Z.shiftl (Z.land (Z.shiftr v 16) 255) 16) (Z.shiftl (Z.land (Z.shiftr v 24) 255) 24))) = v.
Proof.
  intros Hv. apply Z.bits_inj'. intros n Hn. rewrite !Z.lxor_spec, !Z.shiftl_spec, !testbit_byte by lia.
  rewrite !Z.sub_add, Z.add_0_r.
  destruct (Z.le_gt_cases 32 n) as [Hge|Hlt]; [by rewrite bits_u32|].
  destruct (Z.testbit v n); simpl; [|done].
  repeat match goal with |- context [?a <=? ?b] => destruct (Z.leb_spec a b); try lia; simpl end;
  repeat match goal with |- context [?a <? ?b] => destruct (Z.ltb_spec a b); try lia; simpl end; reflexivity.
Qed.

(** Data that is fed in parts. *)
Lemma psfs_crc32_app c a b : psfs_crc32 (psfs_crc32 c a) b = psfs_crc32 c (a ++ b).
Proof. unfold psfs_crc32. by rewrite not32_not32, foldl_app. Qed.
Lemma psfs_crc32_u32 c l : u32 c → Forall u8 l → u32 (psfs_crc32 c l).
Proof. intros. apply not32_u32, crc_fold_u32; [by apply not32_u32|done]. Qed.
(** The checksum of data followed by its checksum is a constant. *)
Lemma psfs_crc32_residue c l : u32 c → Forall u8 l →
  psfs_crc32 c (l ++ wcrc (psfs_crc32 c l)) = PSFS_CRC32_VERIFY.
Proof.
  intros Hc Hl. pose proof (psfs_crc32_u32 c l Hc Hl) as Hv. rewrite <- psfs_crc32_app.
  unfold psfs_crc32 at 1. unfold wcrc. rewrite crc_four, bytes_word by done.
  unfold not32. rewrite (Z.lxor_comm (psfs_crc32 _ _)), Z.lxor_assoc, Z.lxor_nilpotent. vm_compute. reflexivity.
Qed.

(** *** Damage that is found *)

Lemma crc_bit_zero c : u32 c → crc_bit c = 0 → c = 0.
Proof.
  intros Hc. unfold crc_bit. destruct (Z.testbit c 0) eqn:E; intros H.
  - apply Z.lxor_eq in H. exfalso. assert (Z.testbit (Z.shiftr c 1) 31 = Z.testbit PSFS_CRC32_POLY 31) as Hb by (by rewrite H).
    rewrite Z.shiftr_spec in Hb by lia. by rewrite bits_u32 in Hb.
  - rewrite Z.shiftr_div_pow2 in H by lia. rewrite Z.bit0_odd in E.
    pose proof (Zmod_odd c) as Hm. rewrite E in Hm. destruct Hc. pose proof (Z.div_mod c 2). change (2 ^ 1) with 2 in H. lia.
Qed.
Lemma crc_bit_inj a b : u32 a → u32 b → crc_bit a = crc_bit b → a = b.
Proof.
  intros Ha Hb E. apply Z.lxor_eq, crc_bit_zero; [by apply u32_lxor|].
  by rewrite crc_bit_lxor, E, Z.lxor_nilpotent.
Qed.
Lemma crc_bits_u32 n c : u32 c → u32 (Nat.iter n crc_bit c).
Proof. intros. induction n as [|n IH]; [done|]. by apply crc_bit_u32. Qed.
Lemma crc_bits_inj n a b : u32 a → u32 b → Nat.iter n crc_bit a = Nat.iter n crc_bit b → a = b.
Proof.
  intros Ha Hb. induction n as [|n IH]; [done|]. intros E. apply IH.
  apply crc_bit_inj; [by apply crc_bits_u32..|exact E].
Qed.
Lemma lxor_cancel_r a b c : Z.lxor a c = Z.lxor b c → a = b.
Proof.
  intros E. rewrite <- (Z.lxor_0_r a), <- (Z.lxor_0_r b), <- (Z.lxor_nilpotent c), <- !Z.lxor_assoc. by rewrite E.
Qed.
Lemma crc_fold_inj a b l : u32 a → u32 b → Forall u8 l → foldl crc_byte a l = foldl crc_byte b l → a = b.
Proof.
  intros Ha Hb Hl. revert a b Ha Hb. induction Hl as [|x l Hx _ IH]; intros a b Ha Hb E; [done|]. simpl in E.
  apply IH in E; [|by apply crc_byte_u32..]. unfold crc_byte in E.
  apply crc_bits_inj in E; [by apply lxor_cancel_r in E|apply u32_lxor; [done|by apply u8_u32]..].
Qed.
(** The lowest byte first, as numbers. *)
Lemma word_of_bytes b0 b1 b2 b3 : u8 b0 → u8 b1 → u8 b2 → u8 b3 →
  Z.lxor b0 (Z.lxor (Z.shiftl b1 8) (Z.lxor (Z.shiftl b2 16) (Z.shiftl b3 24))) =
  b0 + 2 ^ 8 * (b1 + 2 ^ 8 * (b2 + 2 ^ 8 * b3)).
Proof.
  assert (∀ b x, u8 b → 0 ≤ x → Z.lxor b (Z.shiftl x 8) = b + 2 ^ 8 * x) as Hstep.
  { intros b x Hb Hx. rewrite <- Z.add_nocarry_lxor; [rewrite Z.shiftl_mul_pow2 by lia; lia|].
    apply Z.bits_inj'. intros n Hn. rewrite Z.land_spec, Z.testbit_0_l.
    destruct (Z.lt_ge_cases n 8); [by rewrite (Z.shiftl_spec_low x), andb_false_r by lia|].
    rewrite <- (Z.mod_small b (2 ^ 8)) by exact Hb. by rewrite Z.mod_pow2_bits_high by lia. }
  intros H0 H1 H2 H3.
  replace (Z.shiftl b3 24) with (Z.shiftl (Z.shiftl (Z.shiftl b3 8) 8) 8) by (by rewrite !Z.shiftl_shiftl).
  replace (Z.shiftl b2 16) with (Z.shiftl (Z.shiftl b2 8) 8) by (by rewrite Z.shiftl_shiftl).
  rewrite <- !Z.shiftl_lxor, (Hstep b2), (Hstep b1), (Hstep b0); unfold u8 in *; lia.
Qed.
(** Damage inside of four bytes changes the checksum, wherever it is. *)
Lemma psfs_crc32_burst c p q s w1 w2 : u32 c → Forall u8 (p ++ w1 ++ s) → Forall u8 w2 →
  length w1 = 4%nat → length w2 = 4%nat → q = p ++ w2 ++ s →
  psfs_crc32 c (p ++ w1 ++ s) = psfs_crc32 c q → w1 = w2.
Proof.
  intros Hc Hf Hw2 L1 L2 -> E. apply Forall_app in Hf as [Hp [Hw1 Hs]%Forall_app].
  unfold psfs_crc32 in E. apply lxor_cancel_r in E. rewrite !foldl_app in E.
  pose proof (crc_fold_u32 (not32 c) p (not32_u32 _ Hc) Hp) as Hr.
  apply crc_fold_inj in E; [|by apply crc_fold_u32..|done].
  destruct w1 as [|a0 [|a1 [|a2 [|a3 []]]]]; try done. destruct w2 as [|b0 [|b1 [|b2 [|b3 []]]]]; try done.
  rewrite !Forall_cons in Hw1, Hw2. destruct Hw1 as (?&?&?&?&_), Hw2 as (?&?&?&?&_).
  rewrite !crc_four, !word_of_bytes in E by done. revert E. generalize (foldl crc_byte (not32 c) p) Hr. intros r Hr' E.
  unfold u8 in *. apply (crc_bits_inj 32) in E; [|apply u32_lxor; [done|unfold u32; lia]..].
  rewrite !(Z.lxor_comm r) in E. apply lxor_cancel_r in E.
  assert (a0 = b0 ∧ a1 = b1 ∧ a2 = b2 ∧ a3 = b3) as (-> & -> & -> & ->) by lia. done.
Qed.

(** ** Records of the persistent store in a file: what a write puts there, a read gets back. *)

(** *** Descriptors *)

(** The world after reads through a descriptor: its position, and [n] outcomes gone. *)
Definition adv (fd : Z) (w : pworld) (p n : nat) : pworld :=
  PWorld (pw_disk w) (alter (λ d, Ofd (of_ino d) p (of_rd d) (of_wr d)) fd (pw_fds w)) (pw_nfd w)
    (drop n (pw_plan w)) (pw_wait w) (pw_dirs w) (pw_ps w).
(** The descriptor is open on the file with the contents [c], at the position [p]. *)
Record fd_view (w : pworld) (fd : Z) (ino : nat) (c : list Z) (p : nat) (rd wr : bool) : Prop := FdView {
  view_fd : pw_fds w !! fd = Some (Ofd ino p rd wr);
  view_file : d_files (pw_disk w) !! ino = Some c }.
(** No call fails. *)
Definition calm (w : pworld) : Prop := pw_plan w = [].

Lemma adv_here w fd ino c p rd wr : fd_view w fd ino c p rd wr → adv fd w p 0 = w.
Proof.
  intros [Hfd _]. destruct w as [d fds n pl wt ds ps]. unfold adv. cbn in *. rewrite drop_0. f_equal.
  apply map_eq. intros i. destruct (decide (i = fd)) as [->|]; [|by rewrite lookup_alter_ne].
  rewrite lookup_alter_eq, Hfd. done.
Qed.
Lemma adv_adv fd w p n q m : adv fd (adv fd w p n) q m = adv fd w q (n + m).
Proof.
  unfold adv. cbn. rewrite drop_drop. f_equal.
  apply map_eq. intros i. destruct (decide (i = fd)) as [->|]; [|by rewrite !lookup_alter_ne].
  rewrite !lookup_alter_eq. by destruct (pw_fds w !! fd).
Qed.
Lemma adv_calm fd w p n : calm w → adv fd w p n = adv fd w p 0.
Proof. unfold calm, adv. intros ->. by rewrite !drop_nil. Qed.
Lemma calm_adv fd w p n : calm w → calm (adv fd w p n).
Proof. unfold calm, adv. cbn. intros ->. by rewrite drop_nil. Qed.
Lemma view_adv w fd ino c p rd wr q n : fd_view w fd ino c p rd wr → fd_view (adv fd w q n) fd ino c q rd wr.
Proof. intros [Hfd Hc]. split; [|done]. unfold adv. cbn. by rewrite lookup_alter_eq, Hfd. Qed.
Lemma view_data w fd ino c p rd wr : fd_view w fd ino c p rd wr → fd_data w fd = Some (Ofd ino p rd wr, c).
Proof. intros [Hfd Hc]. unfold fd_data. rewrite Hfd. cbn. by rewrite Hc. Qed.

Lemma sys_run w : sys w = Some (default OK (head (pw_plan w)), with_plan tail w).
Proof. done. Qed.
Lemma tail_drop1 {A} (l : list A) : tail l = drop 1 l.
Proof. by destruct l. Qed.
Lemma with_tail_adv w fd ino c p rd wr : fd_view w fd ino c p rd wr → with_plan tail w = adv fd w p 1.
Proof.
  intros H. rewrite <- (adv_here _ _ _ _ _ _ _ H) at 1. unfold with_plan, adv. cbn. by rewrite drop_0, tail_drop1.
Qed.
Lemma set_pos_run fd p w : set_pos fd p w = Some (tt, adv fd w p 0).
Proof. unfold set_pos, modify, with_fds, adv. cbn. by rewrite drop_0. Qed.

(** A read that may fail or be short; without failures to come it is complete. *)
Lemma sys_read_spec w fd ino c p wr n : fd_view w fd ino c p true wr →
  (pw_plan w ≠ [] ∧ sys_read fd n w = Some ((-1, []), adv fd w p 1)) ∨
  (∃ k, (k ≤ n)%nat ∧ (n = 0 ∨ 0 < k)%nat ∧ (calm w → k = n) ∧ let b := take k (drop p c) in
    sys_read fd n w = Some ((Zlen b, b), adv fd w (p + length b) 1)).
Proof.
  intros Hv. pose proof (with_tail_adv _ _ _ _ _ _ _ Hv) as Ht.
  pose proof (view_data _ _ _ _ _ _ _ (view_adv _ _ _ _ _ _ _ p 1 Hv)) as Hd.
  unfold sys_read, mbind, M_bind. rewrite sys_run, Ht. unfold gets. rewrite Hd.
  destruct (head (pw_plan w)) as [[| |m]|] eqn:Eo; cbn [from_option id].
  - right. exists n. split_and!; [lia|lia|done|]. cbn [of_rd negb of_pos id]. rewrite set_pos_run, adv_adv. done.
  - left. split; [by destruct (pw_plan w)|done].
  - right. exists (Nat.min n (S m)). split_and!; [lia|lia| |].
    + unfold calm. intros E. by rewrite E in Eo.
    + cbn [of_rd negb of_pos id]. rewrite set_pos_run, adv_adv. done.
  - right. exists n. split_and!; [lia|lia|done|]. cbn [of_rd negb of_pos id]. rewrite set_pos_run, adv_adv. done.
Qed.
Lemma sys_read_calm w fd ino c p wr n : fd_view w fd ino c p true wr → calm w →
  let b := take n (drop p c) in sys_read fd n w = Some ((Zlen b, b), adv fd w (p + length b) 0).
Proof.
  intros Hv Hc. destruct (sys_read_spec _ _ _ _ _ _ n Hv) as [[Hp _]|(k & _ & _ & Hk & E)]; [done|].
  rewrite (Hk Hc) in E. cbv zeta in E |- *. rewrite E. by rewrite adv_calm.
Qed.
Lemma sys_tell_run w fd ino c p rd wr : fd_view w fd ino c p rd wr → sys_tell fd w = Some (Z.of_nat p, w).
Proof. intros [Hfd _]. unfold sys_tell, mbind, M_bind, gets. by rewrite Hfd. Qed.
Lemma sys_fstat_spec w fd ino c p rd wr : fd_view w fd ino c p rd wr →
  (pw_plan w ≠ [] ∧ ∃ g, sys_fstat fd w = Some ((false, g), adv fd w p 1)) ∨
  sys_fstat fd w = Some ((true, Zlen c), adv fd w p 1).
Proof.
  intros Hv. pose proof (with_tail_adv _ _ _ _ _ _ _ Hv) as Ht.
  pose proof (view_data _ _ _ _ _ _ _ (view_adv _ _ _ _ _ _ _ p 1 Hv)) as Hd.
  unfold sys_fstat, mbind, M_bind. rewrite sys_run, Ht. unfold gets. rewrite Hd.
  destruct (head (pw_plan w)) as [[| |m]|] eqn:Eo; cbn [from_option id]; [by right| |by right..].
  left. split; [by destruct (pw_plan w)|]. by eexists.
Qed.
Lemma sys_fstat_calm w fd ino c p rd wr : fd_view w fd ino c p rd wr → calm w →
  sys_fstat fd w = Some ((true, Zlen c), w).
Proof.
  intros Hv Hc. destruct (sys_fstat_spec _ _ _ _ _ _ _ Hv) as [[Hp _]|E]; [done|].
  rewrite E, adv_calm by done. by erewrite adv_here.
Qed.

(** The world after a write: the file holds [c] and the descriptor is at its end. *)
Definition grow (fd : Z) (ino : nat) (c : list Z) (w : pworld) : pworld :=
  adv fd (with_disk (λ d, Disk (d_names d) (<[ino := c]> (d_files d)) (d_next d)) w) (length c) 0.
Lemma view_grow w fd ino c p rd wr c' : fd_view w fd ino c p rd wr →
  fd_view (grow fd ino c' w) fd ino c' (length c') rd wr.
Proof.
  intros [Hfd Hc]. split; unfold grow, adv; cbn; [by rewrite lookup_alter_eq, Hfd|apply lookup_insert_eq].
Qed.
Lemma grow_grow fd ino c c' w : grow fd ino c' (grow fd ino c w) = grow fd ino c' w.
Proof.
  unfold grow, adv, with_disk. cbn. rewrite !drop_0. f_equal; [f_equal; apply insert_insert_eq|].
  apply map_eq. intros i. destruct (decide (i = fd)) as [->|]; [|by rewrite !lookup_alter_ne].
  rewrite !lookup_alter_eq. by destruct (pw_fds w !! fd).
Qed.
Lemma calm_grow fd ino c w : calm w → calm (grow fd ino c w).
Proof. unfold calm, grow, adv. cbn. by intros ->. Qed.
Lemma sys_writev_calm w fd ino c p rd b : fd_view w fd ino c p rd true → calm w →
  sys_writev fd b w = Some (Zlen b, grow fd ino (c ++ b) w).
Proof.
  intros Hv Hc. pose proof (with_tail_adv _ _ _ _ _ _ _ Hv) as Ht. rewrite adv_calm in Ht by done.
  rewrite (adv_here _ _ _ _ _ _ _ Hv) in Ht.
  unfold sys_writev, mbind, M_bind. rewrite sys_run, Ht. unfold gets. rewrite (view_data _ _ _ _ _ _ _ Hv).
  unfold calm in Hc. rewrite Hc. cbn [head from_option id of_wr negb of_ino]. unfold set_file, modify.
  rewrite set_pos_run. unfold grow. by rewrite <- length_app.
Qed.

(** *** The layout of a record *)

Definition payload (r : psfs_record) : list Z := pr_key r ++ 0 :: pr_data r.
Definition rec_head (r : psfs_record) : list Z := be32 PSFS_MAGIC ++ be32 (wrapu 32 (Zlen (payload r))).
Definition rec_body (r : psfs_record) : list Z :=
  rec_head r ++ payload r ++ wcrc (psfs_crc32 0 (rec_head r ++ payload r)).
(** A whole record; in a file it starts at a multiple of four. *)
Definition enc (r : psfs_record) : list Z := rec_body r ++ wpad (padlen (Zlen (rec_body r))).
(** Records whose size fits its member: the key is a C string, the rest are bytes. *)
Record rec_ok (r : psfs_record) : Prop := RecOk {
  ok_key : Forall (λ b, 0 < b < 256) (pr_key r);
  ok_data : Forall u8 (pr_data r);
  ok_size : Zlen (payload r) < 2 ^ 32 }.

Lemma land3 n : Z.land n 3 = n mod 4.
Proof. change 3 with (Z.ones 2). by rewrite Z.land_ones. Qed.
Lemma padlen_mod n : padlen n = (- n) mod 4.
Proof.
  unfold padlen. rewrite land3. destruct (Z.eqb_spec (n mod 4) 0) as [E|E].
  - by rewrite Z.mod_opp_l_z.
  - rewrite Z.mod_opp_l_nz by done. lia.
Qed.
Lemma padlen_range n : 0 ≤ padlen n < 4.
Proof. rewrite padlen_mod. by apply Z.mod_pos_bound. Qed.
Lemma padlen_align n : (n + padlen n) mod 4 = 0.
Proof. rewrite padlen_mod, Zplus_mod_idemp_r. by rewrite Z.add_opp_diag_r. Qed.
Lemma Zlen_app a b : Zlen (a ++ b) = Zlen a + Zlen b.
Proof. unfold Zlen. rewrite length_app. lia. Qed.
Lemma Zlen_cons x a : Zlen (x :: a) = 1 + Zlen a.
Proof. unfold Zlen. simpl. lia. Qed.
Lemma Zlen_nonneg a : 0 ≤ Zlen a.
Proof. unfold Zlen. lia. Qed.
Lemma Zlen_wpad n : Zlen (wpad (padlen n)) = padlen n.
Proof. unfold Zlen, wpad. rewrite length_replicate. pose proof (padlen_range n). lia. Qed.
Lemma Zlen_body r : Zlen (rec_body r) = 8 + Zlen (payload r) + 4.
Proof. unfold rec_body, rec_head. rewrite !Zlen_app. unfold be32, wcrc. rewrite !Zlen_cons. change (Zlen []) with 0. lia. Qed.
Lemma enc_align r : Zlen (enc r) mod 4 = 0.
Proof. unfold enc. rewrite Zlen_app, Zlen_wpad. apply padlen_align. Qed.
Lemma Zlen_payload r : Zlen (payload r) = Zlen (pr_key r) + 1 + Zlen (pr_data r).
Proof. unfold payload. rewrite Zlen_app, Zlen_cons. lia. Qed.

Lemma land255 z : Z.land z 255 = z mod 256.
Proof. change 255 with (Z.ones 8). by rewrite Z.land_ones. Qed.
Lemma of_be32_be32 z : u32 z → of_be32 (be32 z) = z.
Proof.
  intros Hz. unfold u32 in Hz. unfold of_be32, be32. simpl. rewrite !land255, !Z.shiftr_div_pow2 by lia.
  change (2 ^ 24) with 16777216. change (2 ^ 16) with 65536. change (2 ^ 8) with 256. change (2 ^ 32) with 4294967296 in Hz.
  Z.to_euclidean_division_equations. lia.
Qed.
Lemma be32_u8 z : Forall u8 (be32 z).
Proof.
  unfold be32. rewrite !land255. repeat constructor; unfold u8; try apply Z.mod_pos_bound; lia.
Qed.
Lemma wcrc_u8 z : Forall u8 (wcrc z).
Proof. unfold wcrc. rewrite !land255. repeat constructor; unfold u8; apply Z.mod_pos_bound; lia. Qed.
Lemma payload_u8 r : rec_ok r → Forall u8 (payload r).
Proof.
  intros [Hk Hd _]. apply Forall_app. split; [|constructor; [unfold u8; lia|done]].
  apply (Forall_impl _ _ _ Hk). unfold u8. lia.
Qed.
Lemma head_u8 r : Forall u8 (rec_head r).
Proof. apply Forall_app. split; apply be32_u8. Qed.
Lemma cstr_key k d : Forall (λ b, 0 < b < 256) k → cstr (k ++ 0 :: d) = k.
Proof. induction 1 as [|x k Hx _ IH]; [done|]. simpl. destruct (Z.eqb_spec x 0); [lia|]. by rewrite IH. Qed.

(** A write puts padding up to a multiple of four and the record at the end of the file. *)
Lemma record_write_calm w fd ino c p rd pr : fd_view w fd ino c p rd true → calm w →
  psfs_record_write fd pr w =
  Some ((Zlen (rec_body pr), set_clean pr), grow fd ino (c ++ wpad (padlen (Zlen c)) ++ enc pr) w).
Proof.
  intros Hv Hc. unfold psfs_record_write, mbind, M_bind. rewrite (sys_fstat_calm _ _ _ _ _ _ _ Hv Hc).
  cbv beta iota zeta. cbn [negb]. rewrite !psfs_crc32_app.
  change (pr_datasz pr) with (Zlen (pr_data pr)).
  replace (Zlen (pr_key pr ++ [0]) + Zlen (pr_data pr)) with (Zlen (payload pr))
    by (rewrite Zlen_payload, Zlen_app; change (Zlen [0]) with 1; lia).
  replace (4 + 4 + Zlen (pr_key pr ++ [0]) + Zlen (pr_data pr) + 4) with (Zlen (rec_body pr))
    by (rewrite Zlen_body, Zlen_payload, Zlen_app; change (Zlen [0]) with 1; lia).
  match goal with |- context [sys_writev fd ?b w] => replace b with (wpad (padlen (Zlen c)) ++ enc pr) end.
  - rewrite (sys_writev_calm _ _ _ _ _ _ _ Hv Hc). unfold enc. rewrite !Zlen_app, !Zlen_wpad.
    destruct (Z.ltb_spec (padlen (Zlen c) + (Zlen (rec_body pr) + padlen (Zlen (rec_body pr))))
      (Zlen (rec_body pr) + padlen (Zlen (rec_body pr)) + padlen (Zlen c))); [lia|done].
  - unfold enc, rec_body, rec_head, payload. rewrite <- !app_assoc. done.
Qed.

(** *** Reading *)

Lemma read_exact w fd ino A b B wr : fd_view w fd ino (A ++ b ++ B) (length A) true wr → calm w →
  sys_read fd (length b) w = Some ((Zlen b, b), adv fd w (length A + length b) 0).
Proof.
  intros Hv Hc. rewrite (sys_read_calm _ _ _ _ _ _ _ Hv Hc). by rewrite drop_app_length, take_app_length.
Qed.
(** The same, for a descriptor that has moved on from where [w] has it. *)
Lemma read_exact_adv w fd ino c p wr A b B n q : fd_view w fd ino c p true wr → calm w →
  c = A ++ b ++ B → n = length b → q = length A →
  sys_read fd n (adv fd w q 0) = Some ((Zlen b, b), adv fd w (q + length b) 0).
Proof.
  intros Hv Hc -> -> ->. erewrite read_exact; [by rewrite adv_adv|by eapply view_adv|by apply calm_adv].
Qed.
Lemma fstat_adv w fd ino c p wr q : fd_view w fd ino c p true wr → calm w →
  sys_fstat fd (adv fd w q 0) = Some ((true, Zlen c), adv fd w q 0).
Proof. intros Hv Hc. eapply sys_fstat_calm; [by eapply view_adv|by apply calm_adv]. Qed.
Lemma seek_on_error_run w fd p coff : 0 ≤ coff →
  seek_on_error fd coff (adv fd w p 0) = Some ((-1, None), adv fd w (Z.to_nat coff + 4) 0).
Proof.
  intros. unfold seek_on_error, sys_seek, mbind, M_bind. rewrite set_pos_run, adv_adv.
  by replace (Z.to_nat (coff + 4)) with (Z.to_nat coff + 4)%nat by lia.
Qed.
Lemma length_Zlen a : Z.to_nat (Zlen a) = length a.
Proof. unfold Zlen. lia. Qed.

(** A record whose size lies within the file is taken if the checksum is right and the
    key ends, else the search goes on four bytes later. *)
Lemma record_magic_fits w fd ino A wsz buf crc B wr :
  fd_view w fd ino (A ++ (be32 PSFS_MAGIC ++ wsz ++ buf ++ crc) ++ B) (length A) true wr → calm w →
  length wsz = 4%nat → length crc = 4%nat → of_be32 wsz = Zlen buf →
  psfs_record_magic fd (Zlen A) w = Some (
    if (psfs_crc32 0 (be32 PSFS_MAGIC ++ wsz ++ buf ++ crc) =? PSFS_CRC32_VERIFY) && (Zlen (cstr buf) <? Zlen buf)
    then ((12 + Zlen buf, Some (Rec (cstr buf) (drop (S (length (cstr buf))) buf) false (12 + Zlen buf))),
          adv fd w (length A + 12 + length buf) 0)
    else ((-1, None), adv fd w (length A + 4) 0)).
Proof.
  intros Hv Hc Hw Hr Hsz. set (c := A ++ (be32 PSFS_MAGIC ++ wsz ++ buf ++ crc) ++ B) in *.
  rewrite <- (adv_here _ _ _ _ _ _ _ Hv) at 1. unfold psfs_record_magic, mbind, M_bind.
  rewrite (read_exact_adv _ _ _ _ _ _ A (be32 PSFS_MAGIC) (wsz ++ buf ++ crc ++ B) 4 _ Hv Hc)
    by (unfold c; rewrite <- ?app_assoc; done).
  cbv beta iota. rewrite bool_decide_eq_true_2 by done. change (Zlen (be32 PSFS_MAGIC)) with 4.
  cbn [negb Z.eqb Z.ltb Z.compare Pos.compare Pos.compare_cont].
  unfold psfs_record_body, mbind, M_bind.
  rewrite (read_exact_adv _ _ _ _ _ _ (A ++ be32 PSFS_MAGIC) wsz (buf ++ crc ++ B) 4 _ Hv Hc)
    by (unfold c; rewrite <- ?app_assoc, ?length_app; done).
  cbv beta iota. replace (Zlen wsz) with 4 by (unfold Zlen; lia). cbn [Z.ltb Z.compare Pos.compare Pos.compare_cont].
  rewrite (fstat_adv _ _ _ _ _ _ _ Hv Hc). cbv beta iota zeta. cbn [negb]. rewrite Hsz.
  destruct (Z.ltb_spec (Zlen c) (Zlen A + 4 + 4 + Zlen buf + 4)) as [Hlt|_].
  { unfold c in Hlt. rewrite !Zlen_app in Hlt. change (Zlen (be32 PSFS_MAGIC)) with 4 in Hlt. pose proof (Zlen_nonneg B).
    unfold Zlen in *. lia. }
  rewrite (read_exact_adv _ _ _ _ _ _ (A ++ be32 PSFS_MAGIC ++ wsz) buf (crc ++ B) _ _ Hv Hc)
    by (unfold c; rewrite <- ?app_assoc, ?length_app, ?length_Zlen, ?Hw; simpl; done || lia).
  cbv beta iota. rewrite Z.ltb_irrefl.
  rewrite (read_exact_adv _ _ _ _ _ _ (A ++ be32 PSFS_MAGIC ++ wsz ++ buf) crc B _ _ Hv Hc)
    by (unfold c; rewrite <- ?app_assoc, ?length_app, ?Hw; simpl; done || lia).
  cbv beta iota. replace (Zlen crc) with 4 by (unfold Zlen; lia). cbn [Z.ltb Z.compare Pos.compare Pos.compare_cont].
  rewrite !psfs_crc32_app.
  destruct (_ =? PSFS_CRC32_VERIFY); cbn [negb andb]; [|by rewrite seek_on_error_run, length_Zlen by apply Zlen_nonneg].
  rewrite Z.leb_antisym. destruct (Zlen (cstr buf) <? Zlen buf); cbn [negb]; [|by rewrite seek_on_error_run, length_Zlen by apply Zlen_nonneg].
  unfold mret, M_ret. do 2 f_equal; [|f_equal; rewrite ?length_app, ?Hw, ?Hr; simpl; lia].
  f_equal; [lia|]. f_equal. f_equal; [|lia]. f_equal. unfold Zlen. lia.
Qed.
