(* ===== verification/PsfsRead.v ===== *)
(** Reading the journal of a persistent store: which records a file holds. *)
From S2P Require Import Prelude DsTreeInv KeySeq Psfs PsfsRec.
Local Open Scope Z_scope.

(** What the search finds at a multiple of four. *)
Lemma magic_record w fd ino A r B wr :
  fd_view w fd ino (A ++ rec_body r ++ B) (length A) true wr → calm w → rec_ok r →
  psfs_record_magic fd (Zlen A) w = Some
    ((Zlen (rec_body r), Some (Rec (pr_key r) (pr_data r) false (Zlen (rec_body r)))),
     adv fd w (length A + length (rec_body r)) 0).
Proof.
  intros Hv Hc Hr. pose proof (ok_size _ Hr) as Hs. pose proof (Zlen_nonneg (payload r)).
  assert (wrapu 32 (Zlen (payload r)) = Zlen (payload r)) as Hw by (apply Z.mod_small; lia).
  assert (rec_body r = be32 PSFS_MAGIC ++ be32 (wrapu 32 (Zlen (payload r))) ++ payload r ++
    wcrc (psfs_crc32 0 (rec_head r ++ payload r))) as Hb by (unfold rec_body, rec_head; by rewrite <- app_assoc).
  rewrite Hb in Hv.
  rewrite (record_magic_fits _ _ _ _ _ _ _ _ _ Hv Hc); [|done|done|rewrite Hw; apply of_be32_be32; unfold u32; lia].
  rewrite (app_assoc (be32 _)), (app_assoc (_ ++ _)). change (be32 PSFS_MAGIC ++ _) with (rec_head r).
  rewrite psfs_crc32_residue; [|unfold u32; lia|apply Forall_app; split; [apply head_u8|by apply payload_u8]].
  rewrite Z.eqb_refl. cbn [andb]. rewrite (cstr_key (pr_key r) (pr_data r) (ok_key _ Hr) : cstr (payload r) = _).
  destruct (Z.ltb_spec (Zlen (pr_key r)) (Zlen (payload r))) as [_|Hge];
    [|rewrite Zlen_payload in Hge; pose proof (Zlen_nonneg (pr_data r)); lia].
  replace (drop (S (length (pr_key r))) (payload r)) with (pr_data r)
    by (unfold payload; change (0 :: pr_data r) with ([0] ++ pr_data r); rewrite app_assoc, drop_app_length';
        [done|rewrite length_app; simpl; lia]).
  replace (12 + Zlen (payload r)) with (Zlen (rec_body r)) by (rewrite Zlen_body; lia).
  do 3 f_equal. clear Hb. pose proof (Zlen_body r). unfold Zlen in *. lia.
Qed.
Lemma magic_other w fd ino A m B wr :
  fd_view w fd ino (A ++ m ++ B) (length A) true wr → calm w → length m = 4%nat → m ≠ be32 PSFS_MAGIC →
  psfs_record_magic fd (Zlen A) w = Some ((-1, None), adv fd w (length A + 4) 0).
Proof.
  intros Hv Hc Hm Hne. unfold psfs_record_magic, mbind, M_bind.
  rewrite <- (adv_here _ _ _ _ _ _ _ Hv) at 1. rewrite (read_exact_adv _ _ _ _ _ _ A m B 4 _ Hv Hc) by done.
  rewrite bool_decide_eq_false_2 by done. rewrite Hm. replace (Zlen m) with 4 by (unfold Zlen; lia). done.
Qed.
Lemma magic_short w fd ino A m wr :
  fd_view w fd ino (A ++ m) (length A) true wr → calm w → (length m < 4)%nat →
  psfs_record_magic fd (Zlen A) w =
    Some ((if bool_decide (m = []) then 0 else -1, None), adv fd w (length A + length m) 0).
Proof.
  intros Hv Hc Hm. unfold psfs_record_magic, mbind, M_bind. rewrite (sys_read_calm _ _ _ _ _ _ _ Hv Hc).
  rewrite drop_app_length, take_ge by lia. destruct m as [|x m]; [done|].
  destruct (Z.eqb_spec (Zlen (x :: m)) 0) as [E|_]; [unfold Zlen in E; simpl in E; lia|].
  destruct (Z.ltb_spec (Zlen (x :: m)) 4) as [_|E]; [done|unfold Zlen in E; simpl in *; lia].
Qed.
(** A record that is cut off. *)
Lemma magic_torn w fd ino A m wr wsz :
  fd_view w fd ino (A ++ be32 PSFS_MAGIC ++ m) (length A) true wr → calm w →
  take 4 m = take (length m) wsz → length wsz = 4%nat → Zlen m < 4 + of_be32 wsz + 4 →
  ∃ p, (length A < p ≤ length A + 4 + length m)%nat ∧ ((4 ≤ length m)%nat → p = (length A + 4)%nat) ∧
    ((length m < 4)%nat → p = (length A + 4 + length m)%nat) ∧
    psfs_record_magic fd (Zlen A) w = Some ((-1, None), adv fd w p 0).
Proof.
  intros Hv Hc Ht Hw Hs. set (c := A ++ be32 PSFS_MAGIC ++ m) in *.
  rewrite <- (adv_here _ _ _ _ _ _ _ Hv). unfold psfs_record_magic, mbind, M_bind.
  rewrite (read_exact_adv _ _ _ _ _ _ A (be32 PSFS_MAGIC) m 4 _ Hv Hc) by done.
  cbv beta iota. rewrite bool_decide_eq_true_2 by done. change (Zlen (be32 PSFS_MAGIC)) with 4.
  cbn [negb Z.eqb Z.ltb Z.compare Pos.compare Pos.compare_cont]. unfold psfs_record_body, mbind, M_bind.
  assert (fd_view (adv fd w (length A + 4) 0) fd ino c (length A + 4) true wr) as Hv' by by eapply view_adv.
  change (length (be32 PSFS_MAGIC)) with 4%nat.
  rewrite (sys_read_calm _ _ _ _ _ _ 4 Hv') by by apply calm_adv. rewrite adv_adv.
  replace (drop (length A + 4) c) with m.
  2: { unfold c. rewrite app_assoc, drop_app_length'; [done|]. rewrite length_app. done. }
  destruct (decide (length m < 4)%nat) as [Hlt|Hge].
  - rewrite take_ge by lia. exists (length A + 4 + length m)%nat. split_and!; [lia..|].
    rewrite adv_adv. destruct (Z.ltb_spec (Zlen m) 4) as [_|]; [done|unfold Zlen in *; lia].
  - exists (length A + 4)%nat. split_and!; [lia..|]. rewrite Ht, take_ge by lia.
    replace (Zlen wsz) with 4 by (unfold Zlen; lia). cbn [Z.ltb Z.compare Pos.compare Pos.compare_cont].
    rewrite (fstat_adv _ _ _ _ _ _ _ Hv Hc). cbv beta iota zeta. cbn [negb].
    destruct (Z.ltb_spec (Zlen c) (Zlen A + 4 + 4 + of_be32 wsz + 4)) as [_|Hge'].
    + rewrite seek_on_error_run by apply Zlen_nonneg. by rewrite length_Zlen, adv_adv.
    + unfold c in Hge'. rewrite !Zlen_app in Hge'. change (Zlen (be32 PSFS_MAGIC)) with 4 in Hge'. lia.
Qed.

(** *** The records of a file *)

(** A call of [psfs_record_read] at position [p] of the contents [c]. *)
Definition reads (c : list Z) (p : nat) (rc : Z) (r : option psfs_record) (p' : nat) : Prop :=
  ∀ w fd ino wr, fd_view w fd ino c p true wr → calm w → psfs_record_read fd w = Some ((rc, r), adv fd w p' 0).
(** The calls from a position up to the end of the file and the records they return. *)
Inductive loads (c : list Z) : nat → list psfs_record → Prop :=
  | loads_end p p' : reads c p 0 None p' → loads c p []
  | loads_skip p p' rs : reads c p (-1) None p' → (p < p' ≤ length c)%nat → loads c p' rs → loads c p rs
  | loads_rec p p' rc r rs : reads c p rc (Some r) p' → (p < p' ≤ length c)%nat → loads c p' rs → loads c p (r :: rs).

(** From a position in the padding the search starts at the next multiple of four. *)
Lemma reads_align c p A rc r p' :
  (∀ w fd ino wr, fd_view w fd ino c (length A) true wr → calm w →
     psfs_record_magic fd (Zlen A) w = Some ((rc, r), adv fd w p' 0)) →
  (∃ B, c = A ++ B) → Zlen A = Z.of_nat p + padlen (Z.of_nat p) → reads c p rc r p'.
Proof.
  intros Hm (B & ->) HA w fd ino wr Hv Hc. unfold psfs_record_read, mbind, M_bind.
  rewrite (sys_tell_run _ _ _ _ _ _ _ Hv). pose proof (padlen_range (Z.of_nat p)) as Hr.
  destruct (Z.eqb_spec (Z.land (Z.of_nat p) 3) 0) as [E|E].
  - unfold padlen in HA. rewrite E in HA. cbn [Z.eqb] in HA. replace (Z.of_nat p) with (Zlen A) by lia.
    assert (p = length A) as -> by (unfold Zlen in HA; lia). by eapply Hm.
  - cbv beta iota zeta. rewrite (sys_read_calm _ _ _ _ _ _ _ Hv Hc).
    assert (padlen (Z.of_nat p) ≠ 0) as Hnz.
    { unfold padlen. destruct (Z.eqb_spec (Z.land (Z.of_nat p) 3) 0); [done|]. pose proof (Z.mod_pos_bound (Z.of_nat p) 4).
      rewrite land3. lia. }
    assert (length (take (Z.to_nat (padlen (Z.of_nat p))) (drop p (A ++ B))) = Z.to_nat (padlen (Z.of_nat p))) as Hl.
    { rewrite length_take, length_drop, length_app. unfold Zlen in HA. lia. }
    unfold Zlen at 1 2. rewrite Hl, Z2Nat.id by lia.
    destruct (Z.eqb_spec (padlen (Z.of_nat p)) 0); [done|]. rewrite Z.ltb_irrefl, <- HA.
    replace (p + Z.to_nat (padlen (Z.of_nat p)))%nat with (length A) by (unfold Zlen in HA; lia).
    erewrite Hm; [by rewrite adv_adv|by eapply view_adv|by apply calm_adv].
Qed.

(** A record as it is read. *)
Definition as_read (r : psfs_record) : psfs_record := Rec (pr_key r) (pr_data r) false (Zlen (rec_body r)).
Definition journal (rs : list psfs_record) : list Z := concat (enc <$> rs).
Lemma journal_cons r rs : journal (r :: rs) = enc r ++ journal rs.
Proof. done. Qed.
Lemma journal_app rs ts : journal (rs ++ ts) = journal rs ++ journal ts.
Proof. unfold journal. by rewrite fmap_app, concat_app. Qed.
Definition aligned (c : list Z) : Prop := Zlen c mod 4 = 0.
Lemma aligned_app a b : aligned a → aligned b → aligned (a ++ b).
Proof. unfold aligned. intros Ha Hb. rewrite Zlen_app, Z.add_mod, Ha, Hb by lia. done. Qed.
Lemma aligned_journal rs : aligned (journal rs).
Proof. induction rs as [|r rs IH]; [done|]. rewrite journal_cons. apply aligned_app; [apply enc_align|done]. Qed.
(** The position from which the search comes to the end of [A]. *)
Definition leads (p : nat) (A : list Z) : Prop := Zlen A = Z.of_nat p + padlen (Z.of_nat p).

Lemma leads_le p A : leads p A → (p ≤ length A < p + 4)%nat.
Proof. unfold leads, Zlen. pose proof (padlen_range (Z.of_nat p)). lia. Qed.
Lemma leads_align p A : leads p A → Zlen A mod 4 = 0.
Proof. intros ->. apply padlen_align. Qed.
Lemma padlen_shift a b : a mod 4 = 0 → padlen (a + b) = padlen b.
Proof. intros Ha. rewrite !padlen_mod. rewrite (Z.div_mod a 4), Ha by lia.
  replace (- (4 * (a / 4) + 0 + b)) with (- b + (- (a / 4)) * 4) by lia. by rewrite Z.mod_add.
Qed.
Lemma leads_self A : Zlen A mod 4 = 0 → leads (length A) A.
Proof.
  intros HA. unfold leads. change (Z.of_nat (length A)) with (Zlen A). pose proof (padlen_shift (Zlen A) 0 HA) as E.
  rewrite Z.add_0_r in E. rewrite E. by rewrite Z.add_0_r.
Qed.
Lemma leads_enc A r : Zlen A mod 4 = 0 → leads (length A + length (rec_body r)) (A ++ enc r).
Proof.
  intros HA. unfold leads, enc. rewrite !Zlen_app, Zlen_wpad, Nat2Z.inj_add.
  change (Z.of_nat (length A)) with (Zlen A). change (Z.of_nat (length (rec_body r))) with (Zlen (rec_body r)).
  rewrite padlen_shift by done. lia.
Qed.
Lemma reads_record A r B p : rec_ok r → leads p A →
  reads (A ++ rec_body r ++ B) p (Zlen (rec_body r)) (Some (as_read r)) (length A + length (rec_body r)).
Proof.
  intros Hr Hp. apply (reads_align _ _ A); [|by eexists|done]. intros w fd ino wr Hv Hc. by eapply magic_record.
Qed.
Lemma body_pos r : (12 < length (rec_body r))%nat.
Proof. pose proof (Zlen_body r). pose proof (Zlen_payload r). unfold Zlen in *. lia. Qed.

(** Records in front of the rest of a file. *)
Lemma loads_records rs A T ts : Forall rec_ok rs →
  (∀ p, leads p (A ++ journal rs) → loads (A ++ journal rs ++ T) p ts) →
  ∀ p, leads p A → loads (A ++ journal rs ++ T) p ((as_read <$> rs) ++ ts).
Proof.
  intros Hrs. revert A. induction Hrs as [|r rs Hr _ IH]; intros A Ht p Hp.
  { apply Ht. unfold journal. simpl. by rewrite app_nil_r. }
  assert (A ++ journal (r :: rs) ++ T = (A ++ enc r) ++ journal rs ++ T) as Ec
    by (by rewrite journal_cons, <- !app_assoc).
  assert (A ++ journal (r :: rs) ++ T = A ++ rec_body r ++ (wpad (padlen (Zlen (rec_body r))) ++ journal rs ++ T)) as Eb
    by (rewrite Ec; unfold enc; by rewrite <- !app_assoc).
  cbn [fmap list_fmap app]. eapply loads_rec.
  - rewrite Eb. by apply reads_record.
  - rewrite Eb, !length_app. pose proof (leads_le _ _ Hp). pose proof (body_pos r). lia.
  - rewrite Ec in Ht |- *. apply IH; [|by apply leads_enc, (leads_align p)].
    intros q Hq. apply Ht. by rewrite journal_cons, app_assoc.
Qed.
(** The end of a file. *)
Lemma reads_eof c : reads c (length c) 0 None (length c).
Proof.
  intros w fd ino wr Hv Hc. unfold psfs_record_read, psfs_record_magic, mbind, M_bind.
  rewrite (sys_tell_run _ _ _ _ _ _ _ Hv).
  destruct (_ =? 0); rewrite (sys_read_calm _ _ _ _ _ _ _ Hv Hc), drop_all, take_nil; simpl; by rewrite Nat.add_0_r.
Qed.
Lemma loads_eof c : loads c (length c) [].
Proof. eapply loads_end, reads_eof. Qed.
Lemma loads_leads_end A p : leads p A → loads A p [].
Proof.
  intros Hp. apply loads_end with (length A). apply (reads_align _ _ A); [|exists []; by rewrite app_nil_r|done].
  intros w fd ino wr Hv Hc. pose proof (magic_short w fd ino A [] wr) as Hm. rewrite app_nil_r in Hm.
  rewrite (Hm Hv Hc) by (simpl; lia). simpl. by rewrite Nat.add_0_r.
Qed.
Lemma loads_journal rs : Forall rec_ok rs → loads (journal rs) 0 (as_read <$> rs).
Proof.
  intros Hrs. pose proof (loads_records rs [] [] [] Hrs) as H. rewrite !app_nil_r in H. apply H; [|done].
  intros p Hp. by apply loads_leads_end.
Qed.

(** *** Damage *)

(** No word of the bytes, at a multiple of four, is the magic number. *)
Definition no_magic (T : list Z) : Prop := ∀ i, take 4 (drop (4 * i) T) ≠ be32 PSFS_MAGIC.
Lemma loads_inert T : no_magic T → ∀ A p, leads p A → loads (A ++ T) p [].
Proof.
  induction T as [T IH] using (induction_ltof1 _ (@length Z)). unfold ltof in IH. intros Hn A p Hp.
  destruct (decide (length T < 4)%nat) as [Hlt|Hge].
  - destruct (decide (T = [])) as [->|Hne]; [rewrite app_nil_r; by apply loads_leads_end|].
    pose proof (leads_le _ _ Hp). assert (length T ≠ 0)%nat by (by destruct T).
    apply loads_skip with (length (A ++ T)); [|rewrite length_app; lia|apply loads_eof].
    apply (reads_align _ _ A); [|by eexists|done]. intros w fd ino wr Hv Hc.
    rewrite (magic_short _ _ _ _ _ _ Hv Hc Hlt), bool_decide_eq_false_2 by done. by rewrite length_app.
  - rewrite <- (take_drop 4 T). pose proof (leads_le _ _ Hp).
    assert (length (take 4 T) = 4%nat) as Hl by (rewrite length_take; lia).
    apply loads_skip with (length A + 4)%nat; [|rewrite !length_app, Hl; lia|].
    + apply (reads_align _ _ A); [|by eexists|done]. intros w fd ino wr Hv Hc.
      apply (magic_other _ _ _ _ _ _ _ Hv Hc Hl). apply (Hn 0%nat).
    + rewrite app_assoc. apply IH; [rewrite length_drop; lia| |].
      * intros i. rewrite drop_drop. replace (4 + 4 * i)%nat with (4 * S i)%nat by lia. apply Hn.
      * replace (length A + 4)%nat with (length (A ++ take 4 T)) by (rewrite length_app; lia). apply leads_self.
        rewrite Zlen_app. unfold Zlen at 2. rewrite Hl. pose proof (leads_align _ _ Hp) as Ha.
        change (Z.of_nat 4) with (1 * 4). by rewrite Z.mod_add.
Qed.

(** Behind its first word no word of the record is the magic number. *)
Definition tail_safe (r : psfs_record) : Prop := no_magic (drop 4 (rec_body r)).
Lemma no_magic_take T n : no_magic T → no_magic (take n T).
Proof.
  intros Hn i E. apply (Hn i). rewrite <- E. apply (f_equal length) in E.
  rewrite length_take, length_drop, length_take in E. change (length (be32 PSFS_MAGIC)) with 4%nat in E.
  rewrite skipn_firstn_comm, take_take. f_equal. lia.
Qed.
Lemma body_magic r : rec_body r = be32 PSFS_MAGIC ++ drop 4 (rec_body r).
Proof. done. Qed.
Lemma body_size r : rec_ok r → Zlen (drop 4 (rec_body r)) = 4 + of_be32 (be32 (wrapu 32 (Zlen (payload r)))) + 4.
Proof.
  intros [_ _ Hs]. pose proof (Zlen_nonneg (payload r)). unfold wrapu. rewrite Z.mod_small by lia.
  rewrite of_be32_be32 by (unfold u32; lia). pose proof (Zlen_body r) as Hb. rewrite body_magic, Zlen_app in Hb.
  change (Zlen (be32 PSFS_MAGIC)) with 4 in Hb. lia.
Qed.
(** The first word of a record that is cut off behind it is passed over. *)
Lemma reads_torn r n A p m : rec_ok r → (4 ≤ n < length (rec_body r))%nat → leads p A →
  m = take (n - 4) (drop 4 (rec_body r)) →
  reads (A ++ be32 PSFS_MAGIC ++ m) p (-1) None
    (if decide (length m < 4)%nat then length A + 4 + length m else length A + 4)%nat.
Proof.
  intros Hr Hn Hp Em. assert (length m = (n - 4)%nat) as Hm by (rewrite Em, length_take, length_drop; lia).
  apply (reads_align _ _ A); [|by eexists|done]. intros w fd ino wr Hv Hc.
  destruct (magic_torn w fd ino A m wr (be32 (wrapu 32 (Zlen (payload r)))) Hv Hc) as (q & _ & H1 & H2 & ->).
  - rewrite Hm, Em, take_take. change (drop 4 (rec_body r)) with
      (be32 (wrapu 32 (Zlen (payload r))) ++ payload r ++ wcrc (psfs_crc32 0 (rec_head r ++ payload r))).
    destruct (decide (4 ≤ n - 4)%nat) as [Hge|Hlt].
    + rewrite (take_ge (be32 _)) by (simpl; lia). by rewrite Nat.min_l by lia.
    + rewrite Nat.min_r by lia. by rewrite take_app_le by (simpl; lia).
  - done.
  - pose proof (body_size r Hr). pose proof (length_drop (rec_body r) 4). unfold Zlen in *. lia.
  - destruct (decide _) as [Hd|Hd]; [by rewrite (H2 Hd)|by rewrite (H1 ltac:(lia))].
Qed.
Lemma loads_torn_body r n A p : rec_ok r → tail_safe r → (n < length (rec_body r))%nat → leads p A →
  loads (A ++ take n (rec_body r)) p [].
Proof.
  intros Hr Hs Hn Hp. pose proof (leads_le _ _ Hp). destruct (decide (n < 4)%nat) as [H4|H4].
  - apply loads_inert; [|done]. intros i E. apply (f_equal length) in E. rewrite length_take, length_drop, length_take in E.
    change (length (be32 PSFS_MAGIC)) with 4%nat in E. lia.
  - rewrite body_magic. rewrite take_app_ge by (simpl; lia). change (length (be32 PSFS_MAGIC)) with 4%nat.
    set (m := take (n - 4) (drop 4 (rec_body r))).
    pose proof (reads_torn r n A p m Hr ltac:(lia) Hp eq_refl) as Hreads.
    destruct (decide (length m < 4)%nat) as [Hlt|Hge];
      (eapply loads_skip; [exact Hreads|rewrite !length_app; simpl; lia|]).
    + replace (length A + 4 + length m)%nat with (length (A ++ be32 PSFS_MAGIC ++ m));
        [apply loads_eof|rewrite !length_app; simpl; lia].
    + rewrite app_assoc. apply loads_inert; [by apply no_magic_take|].
      replace (length A + 4)%nat with (length (A ++ be32 PSFS_MAGIC)) by (rewrite length_app; simpl; lia).
      apply leads_self. rewrite Zlen_app. change (Zlen (be32 PSFS_MAGIC)) with (1 * 4). rewrite Z.mod_add by lia.
      by apply (leads_align p).
Qed.
(** A record that is complete but for its padding. *)
Lemma loads_torn_pad r n A p : rec_ok r → (length (rec_body r) ≤ n)%nat → leads p A →
  loads (A ++ take n (enc r)) p [as_read r].
Proof.
  intros Hr Hn Hp. unfold enc. rewrite take_app_ge by lia. set (k := (n - length (rec_body r))%nat).
  set (pad := take k (wpad (padlen (Zlen (rec_body r))))). pose proof (leads_le _ _ Hp). pose proof (body_pos r).
  eapply loads_rec; [by apply reads_record|rewrite !length_app; lia|].
  set (q := (length A + length (rec_body r))%nat). rewrite app_assoc.
  assert (padlen (Z.of_nat q) = padlen (Zlen (rec_body r))) as Hpq.
  { unfold q. rewrite Nat2Z.inj_add. apply padlen_shift. by apply (leads_align p). }
  assert (length (wpad (padlen (Zlen (rec_body r)))) = Z.to_nat (padlen (Z.of_nat q))) as Hlw
    by (unfold wpad; by rewrite length_replicate, Hpq).
  assert (length (A ++ rec_body r) = q) as Hq by (by rewrite length_app). pose proof (padlen_range (Z.of_nat q)).
  destruct (decide (length pad = Z.to_nat (padlen (Z.of_nat q)))) as [Hfull|Hpart].
  - apply loads_leads_end. unfold leads. rewrite Zlen_app. unfold Zlen. rewrite Hq, Hfull. lia.
  - assert (length pad < Z.to_nat (padlen (Z.of_nat q)))%nat as Hlt by (unfold pad in *; rewrite length_take in *; lia).
    destruct (decide (pad = [])) as [->|Hne]; [rewrite app_nil_r, <- Hq; apply loads_eof|].
    assert (length pad ≠ 0)%nat by (by destruct pad).
    apply loads_skip with (length ((A ++ rec_body r) ++ pad)); [|rewrite length_app; lia|apply loads_eof].
    intros w fd ino wr Hv Hc. unfold psfs_record_read, mbind, M_bind. rewrite (sys_tell_run _ _ _ _ _ _ _ Hv).
    destruct (Z.eqb_spec (Z.land (Z.of_nat q) 3) 0) as [E|_].
    { assert (padlen (Z.of_nat q) = 0) by (unfold padlen; by rewrite E). lia. }
    cbv beta iota zeta. rewrite (sys_read_calm _ _ _ _ _ _ _ Hv Hc).
    rewrite drop_app_length' by done. rewrite take_ge by lia.
    destruct (Z.eqb_spec (Zlen pad) 0); [unfold Zlen in *; lia|].
    destruct (Z.ltb_spec (Zlen pad) (padlen (Z.of_nat q))); [|unfold Zlen in *; lia].
    unfold mret, M_ret. do 2 f_equal. rewrite length_app, Hq. done.
Qed.
(** A journal that is cut off anywhere holds its first records. *)
Lemma loads_cut ds n A : Forall rec_ok ds → Forall tail_safe ds → aligned A →
  ∃ k, ∀ p, leads p A → loads (A ++ take n (journal ds)) p (as_read <$> take k ds).
Proof.
  intros Hok. revert n A. induction Hok as [|r ds Hr Hok IH]; intros n A Hs HA.
  { exists 0%nat. change (journal []) with (@nil Z). intros p Hp. rewrite take_nil, app_nil_r. by apply loads_leads_end. }
  apply Forall_cons in Hs as [Hrs Hs]. rewrite journal_cons.
  assert (length (rec_body r) ≤ length (enc r))%nat by (unfold enc; rewrite length_app; lia).
  destruct (decide (n < length (rec_body r))%nat) as [Hlt|Hge].
  { exists 0%nat. intros p Hp. rewrite take_app_le by lia. unfold enc. rewrite take_app_le by lia. by apply loads_torn_body. }
  destruct (decide (n < length (enc r))%nat) as [Hlt|Hge'].
  { exists 1%nat. intros p Hp. rewrite take_app_le by lia. apply (loads_torn_pad r n A p Hr); [lia|done]. }
  rewrite take_app_ge, app_assoc by lia.
  destruct (IH (n - length (enc r))%nat (A ++ enc r) Hs) as (k & Hk); [apply aligned_app; [done|apply enc_align]|].
  exists (S k). intros p Hp. eapply loads_rec; [| |apply Hk; by apply leads_enc].
  - unfold enc. rewrite <- !app_assoc. by apply reads_record.
  - pose proof (leads_le _ _ Hp). pose proof (body_pos r). rewrite !length_app. lia.
Qed.
