(* ===== verification/PsfsLoad.v ===== *)
(** The records of a persistent store in memory (the tree, its invariant, what it holds), and
    loading: the tree after it, and that it ends. *)
From Stdlib Require Import Sorting.Sorted.
From S2P Require Import Prelude DsTreeInv KeySeq Psfs PsfsRec PsfsRead.
Local Open Scope Z_scope.

(** *** Lookup by key *)

Lemma memcmp_eq_decide {A} (x y : A) (a b : list Z) :
  (if decide (memcmp a b = 0) then x else y) = if decide (b = a) then x else y.
Proof. destruct (decide (memcmp a b = 0)) as [E|E], (decide (b = a)); try done; rewrite memcmp_zero in E; congruence. Qed.
Lemma rec_find_some k l r : rec_find k l = Some r → r ∈ l ∧ pr_key r = k.
Proof. intros [Hr Hk]%ks_get_some. by rewrite memcmp_zero in Hk. Qed.
Lemma rec_find_elem r l : ks_sorted memcmp pr_key l → r ∈ l → rec_find (pr_key r) l = Some r.
Proof. intros. apply ks_get_elem; [apply _|done..|]. by apply memcmp_zero. Qed.
Lemma rec_find_none k l : rec_find k l = None ↔ Forall (λ r, pr_key r ≠ k) l.
Proof.
  unfold rec_find. rewrite ks_get_none. apply Forall_iff. intros r. by rewrite memcmp_zero.
Qed.
Lemma rec_find_insert k r l : ks_sorted memcmp pr_key l → rec_find (pr_key r) l = None →
  rec_find k (ks_insert memcmp pr_key r l) = if decide (k = pr_key r) then Some r else rec_find k l.
Proof. unfold rec_find. intros. rewrite ks_get_insert by (done || apply _). apply memcmp_eq_decide. Qed.
Lemma rec_find_delete k i l r : ks_sorted memcmp pr_key l → l !! i = Some r →
  rec_find k (delete i l) = if decide (k = pr_key r) then None else rec_find k l.
Proof. intros Hs Hi. unfold rec_find. rewrite (ks_get_delete _ _ _ _ _ r) by done. apply memcmp_eq_decide. Qed.
(** The place of a record of the tree. *)
Lemma ks_find_at r l : ks_sorted memcmp pr_key l → r ∈ l →
  ∃ i, ks_find memcmp pr_key (pr_key r) l = Some i ∧ l !! i = Some r.
Proof.
  intros Hs Hr. destruct (ks_find memcmp pr_key (pr_key r) l) as [i|] eqn:E.
  - exists i. split; [done|]. apply ks_find_get in E as (a & Hi & Hg & _).
    pose proof (rec_find_elem _ _ Hs Hr) as Hf. unfold rec_find in Hf. congruence.
  - apply ks_find_none in E. pose proof (rec_find_elem _ _ Hs Hr) as Hf. unfold rec_find in Hf. congruence.
Qed.

(** *** The invariant *)

Fixpoint used_sum (l : list psfs_record) : Z :=
  match l with [] => 0 | r :: l => pr_used r + used_sum l end.
Lemma used_sum_delete l i r : l !! i = Some r → used_sum (delete i l) = used_sum l - pr_used r.
Proof. revert i. induction l as [|x l IH]; intros [|i] Hi; simplify_eq/=; [lia|]. rewrite IH by done. lia. Qed.
Lemma used_sum_insert r l : used_sum (ks_insert memcmp pr_key r l) = pr_used r + used_sum l.
Proof. induction l as [|x l IH]; simpl; [done|]. destruct (_ <? _); simpl; lia. Qed.

(** The records ascend without two of the same key, the bytes they use are counted, and
    the iteration stands at one of them. *)
Record ps_inv (p : psfs) : Prop := PsInv {
  inv_sorted : ks_sorted memcmp pr_key (psfs_root p);
  inv_used : psfs_used p = used_sum (psfs_root p);
  inv_next : ∀ k, ps_next p = Some k → is_Some (rec_find k (psfs_root p)) }.

(** *** Dropping a record *)

Definition ps_drop (r : psfs_record) (p : psfs) : psfs :=
  match ks_find memcmp pr_key (pr_key r) (psfs_root p) with
  | Some i =>
      with_used (λ u, u - pr_used r) (with_root (delete i)
        (if bool_decide (ps_next p = Some (pr_key r)) then with_next (pr_key <$> rec_next (pr_key r) (psfs_root p)) p else p))
  | None => p
  end.
Lemma with_ps_ps f g w : with_ps f (with_ps g w) = with_ps (λ p, f (g p)) w.
Proof. done. Qed.
Lemma psfs_drop_record_run r w : ks_sorted memcmp pr_key (psfs_root (pw_ps w)) → r ∈ psfs_root (pw_ps w) →
  psfs_drop_record r w = Some (tt, with_ps (λ _, ps_drop r (pw_ps w)) w).
Proof.
  intros Hs Hr. destruct (ks_find_at _ _ Hs Hr) as (i & Hf & Hi).
  unfold psfs_drop_record, ps_drop, mbind, M_bind, gets. rewrite Hf.
  destruct (bool_decide _); unfold modify, mret, M_ret; cbn -[ks_find rec_next]; rewrite ?Hf; done.
Qed.
Lemma ps_drop_root r p : ks_sorted memcmp pr_key (psfs_root p) → r ∈ psfs_root p →
  ∃ i, psfs_root p !! i = Some r ∧ psfs_root (ps_drop r p) = delete i (psfs_root p) ∧
    psfs_used (ps_drop r p) = psfs_used p - pr_used r ∧
    ps_next (ps_drop r p) = if decide (ps_next p = Some (pr_key r)) then pr_key <$> (psfs_root p !! S i) else ps_next p.
Proof.
  intros Hs Hr. destruct (ks_find_at _ _ Hs Hr) as (i & Hf & Hi). exists i. unfold ps_drop, rec_next. rewrite Hf.
  destruct (decide (ps_next p = Some (pr_key r))) as [E|E];
    [rewrite bool_decide_eq_true_2 by done|rewrite bool_decide_eq_false_2 by done]; done.
Qed.
Lemma ps_drop_other r p : psfs_name (ps_drop r p) = psfs_name p ∧ psfs_fd (ps_drop r p) = psfs_fd p ∧
  psfs_dirfd (ps_drop r p) = psfs_dirfd p ∧ psfs_flags (ps_drop r p) = psfs_flags p.
Proof. unfold ps_drop. destruct (ks_find _ _ _ _); [|done]. by destruct (bool_decide _). Qed.
Lemma ks_find_lookup l i a : ks_sorted memcmp pr_key l → l !! i = Some a → ks_find memcmp pr_key (pr_key a) l = Some i.
Proof.
  intros Hs. revert i. induction Hs as [|x l Hl IH Hx]; intros [|i] Hi; simplify_eq/=; rewrite ks_find_cons.
  - by rewrite decide_True by by apply memcmp_zero.
  - rewrite decide_False; [by rewrite (IH i Hi)|].
    rewrite Forall_forall in Hx. specialize (Hx a (list_elem_of_lookup_2 _ _ _ Hi)). cbn in Hx. lia.
Qed.
Lemma sorted_distinct l i j a b : ks_sorted memcmp pr_key l → l !! i = Some a → l !! j = Some b → pr_key a = pr_key b → i = j.
Proof. intros Hs Hi Hj E. apply ks_find_lookup in Hi, Hj; [congruence|done..]. Qed.
Lemma ps_drop_inv r p : ps_inv p → r ∈ psfs_root p → ps_inv (ps_drop r p).
Proof.
  intros [Hs Hu Hn] Hr. destruct (ps_drop_root r p Hs Hr) as (i & Hi & Er & Eu & En). split.
  - rewrite Er. by apply ks_sorted_delete.
  - rewrite Er, Eu, Hu, (used_sum_delete _ _ r) by done. done.
  - intros k. rewrite En, Er, (rec_find_delete _ _ _ r) by done. destruct (decide (ps_next p = Some (pr_key r))) as [E|E].
    + intros (b & Hb & ->)%fmap_Some. rewrite decide_False.
      * rewrite (rec_find_elem b); [by eexists|done|by eapply list_elem_of_lookup_2].
      * intros Ek. pose proof (sorted_distinct _ _ _ _ _ Hs Hb Hi Ek). lia.
    + intros Ek. rewrite decide_False; [by apply Hn|]. congruence.
Qed.
Lemma ps_drop_find k r p : ps_inv p → r ∈ psfs_root p →
  rec_find k (psfs_root (ps_drop r p)) = if decide (k = pr_key r) then None else rec_find k (psfs_root p).
Proof.
  intros [Hs _ _] Hr. destruct (ps_drop_root r p Hs Hr) as (i & Hi & -> & _ & _). by apply rec_find_delete.
Qed.

(** *** Adding a record *)

Definition ps_insert (r : psfs_record) (p : psfs) : psfs :=
  with_used (λ u, u + pr_used r) (with_root (ks_insert memcmp pr_key r) p).
Lemma ps_insert_find k r p : ps_inv p → rec_find (pr_key r) (psfs_root p) = None →
  rec_find k (psfs_root (ps_insert r p)) = if decide (k = pr_key r) then Some r else rec_find k (psfs_root p).
Proof. intros [Hs _ _] Hn. by apply rec_find_insert. Qed.
Lemma ps_insert_inv r p : ps_inv p → rec_find (pr_key r) (psfs_root p) = None → ps_inv (ps_insert r p).
Proof.
  intros Hp Hn. pose proof (λ k, ps_insert_find k r p Hp Hn) as Hf. destruct Hp as [Hs Hu Hx]. split.
  - by apply ks_sorted_insert; [apply _|..].
  - cbn. rewrite used_sum_insert. lia.
  - intros k Hk. rewrite Hf. destruct (decide _); [by eexists|]. by apply Hx.
Qed.
(** One record takes the place of the one with its key, if there is one. *)
Definition ps_vacate (k : list Z) (p : psfs) : psfs :=
  match rec_find k (psfs_root p) with Some r => ps_drop r p | None => p end.
Lemma ps_vacate_inv k p : ps_inv p → ps_inv (ps_vacate k p).
Proof. intros Hp. unfold ps_vacate. destruct (rec_find _ _) as [r|] eqn:E; [|done]. apply rec_find_some in E as [? _]. by apply ps_drop_inv. Qed.
Lemma ps_vacate_find k j p : ps_inv p →
  rec_find j (psfs_root (ps_vacate k p)) = if decide (j = k) then None else rec_find j (psfs_root p).
Proof.
  intros Hp. unfold ps_vacate. destruct (rec_find k (psfs_root p)) as [r|] eqn:E.
  - apply rec_find_some in E as [? <-]. by apply ps_drop_find.
  - destruct (decide (j = k)) as [->|]; done.
Qed.
Lemma ps_vacate_other k p : psfs_name (ps_vacate k p) = psfs_name p ∧ psfs_fd (ps_vacate k p) = psfs_fd p ∧
  psfs_dirfd (ps_vacate k p) = psfs_dirfd p ∧ psfs_flags (ps_vacate k p) = psfs_flags p.
Proof. unfold ps_vacate. destruct (rec_find _ _); [apply ps_drop_other|done]. Qed.

(** *** Reading records into the tree *)

Definition ps_load1 (r : psfs_record) (p : psfs) : psfs :=
  let p := ps_vacate (pr_key r) p in if decide (pr_data r = []) then p else ps_insert r p.
Definition ps_load (p : psfs) (rs : list psfs_record) : psfs := foldl (λ p r, ps_load1 r p) p rs.
Lemma ps_load1_inv r p : ps_inv p → ps_inv (ps_load1 r p).
Proof.
  intros Hp. unfold ps_load1. pose proof (ps_vacate_inv (pr_key r) p Hp) as Hv. destruct (decide _); [done|].
  apply ps_insert_inv; [done|]. rewrite ps_vacate_find by done. by rewrite decide_True.
Qed.
Lemma ps_load_inv rs p : ps_inv p → ps_inv (ps_load p rs).
Proof. revert p. induction rs as [|r rs IH]; intros p Hp; [done|]. apply IH. by apply ps_load1_inv. Qed.
Lemma ps_load1_find k r p : ps_inv p → rec_find k (psfs_root (ps_load1 r p)) =
  if decide (k = pr_key r) then (if decide (pr_data r = []) then None else Some r) else rec_find k (psfs_root p).
Proof.
  intros Hp. unfold ps_load1. pose proof (ps_vacate_inv (pr_key r) p Hp) as Hv. destruct (decide (pr_data r = [])) as [E|E].
  - rewrite ps_vacate_find by done. by destruct (decide _).
  - rewrite ps_insert_find, ps_vacate_find; [|done..|rewrite ps_vacate_find by done; by rewrite decide_True].
    by destruct (decide _).
Qed.
Lemma ps_load1_other r p : psfs_name (ps_load1 r p) = psfs_name p ∧ psfs_fd (ps_load1 r p) = psfs_fd p ∧
  psfs_dirfd (ps_load1 r p) = psfs_dirfd p ∧ psfs_flags (ps_load1 r p) = psfs_flags p.
Proof. unfold ps_load1. destruct (decide _); apply ps_vacate_other. Qed.
Lemma ps_load_other rs p : psfs_name (ps_load p rs) = psfs_name p ∧ psfs_fd (ps_load p rs) = psfs_fd p ∧
  psfs_dirfd (ps_load p rs) = psfs_dirfd p ∧ psfs_flags (ps_load p rs) = psfs_flags p.
Proof.
  revert p. induction rs as [|r rs IH]; intros p; [done|]. destruct (ps_load1_other r p) as (<- & <- & <- & <-). apply IH.
Qed.
(** The last record of a key in a journal. *)
Definition replay (rs : list psfs_record) (k : list Z) : option (list Z) :=
  foldl (λ v r, if decide (k = pr_key r) then (if decide (pr_data r = []) then None else Some (pr_data r)) else v) None rs.

(** *** What the tree holds *)

Definition live (l : list psfs_record) (k : list Z) : option (list Z) :=
  r ← rec_find k l; if decide (pr_data r = []) then None else Some (pr_data r).
Lemma ps_load_live rs p k : ps_inv p → live (psfs_root (ps_load p rs)) k =
  foldl (λ v r, if decide (k = pr_key r) then (if decide (pr_data r = []) then None else Some (pr_data r)) else v)
    (live (psfs_root p) k) rs.
Proof.
  revert p. induction rs as [|r rs IH]; intros p Hp; [done|]. cbn [ps_load foldl].
  change (foldl _ (ps_load1 r p) rs) with (ps_load (ps_load1 r p) rs). rewrite IH by by apply ps_load1_inv.
  f_equal. unfold live. rewrite ps_load1_find by done. destruct (decide (k = pr_key r)); [|done].
  destruct (decide (pr_data r = [])) as [E|E]; [done|]. cbn. by rewrite decide_False.
Qed.
Lemma ps_load_replay rs p k : ps_inv p → psfs_root p = [] → live (psfs_root (ps_load p rs)) k = replay rs k.
Proof. intros Hp E. rewrite ps_load_live by done. by rewrite E. Qed.

(** [psfs_set] *)
Definition new_record (key value : list Z) : psfs_record :=
  Rec key value true (pr_used (psfs_record_init key value)).
Definition ps_set (key value : list Z) (p : psfs) : psfs :=
  if decide (from_option pr_data [] (rec_find key (psfs_root p)) = value) then p
  else ps_insert (new_record key value) (ps_vacate key p).
Lemma psfs_set_run key value w : ps_inv (pw_ps w) → Z.land (psfs_flags (pw_ps w)) OSP_PS_WRITE ≠ 0 →
  psfs_set key value w = Some (Zlen (default [] value), with_ps (λ _, ps_set key (default [] value) (pw_ps w)) w).
Proof.
  intros Hp Hw. unfold psfs_set, mbind, M_bind, gets. destruct (Z.eqb_spec (Z.land (psfs_flags (pw_ps w)) OSP_PS_WRITE) 0); [done|].
  generalize (default [] value). clear value. intros v. unfold ps_set, ps_vacate.
  destruct (rec_find key (psfs_root (pw_ps w))) as [r|] eqn:E; cbn [from_option].
  - apply rec_find_some in E as [Hr _]. destruct (decide (pr_data r = v)) as [Ev|Ev].
    + rewrite bool_decide_eq_true_2 by done. rewrite <- Ev. change (pr_datasz r) with (Zlen (pr_data r)).
      rewrite Z.eqb_refl. destruct w as [? ? ? ? ? ? []]. done.
    + rewrite bool_decide_eq_false_2, andb_false_r by done.
      rewrite psfs_drop_record_run by (done || apply Hp). done.
  - destruct (decide ([] = v)) as [<-|Ev]; [destruct w as [? ? ? ? ? ? []]; done|].
    destruct (Z.eqb_spec (Zlen v) 0) as [E0|_]; [destruct v; [done|unfold Zlen in E0; simpl in E0; lia]|done].
Qed.
Lemma ps_set_inv key v p : ps_inv p → ps_inv (ps_set key v p).
Proof.
  intros Hp. unfold ps_set. destruct (decide _); [done|]. apply ps_insert_inv; [by apply ps_vacate_inv|].
  rewrite ps_vacate_find by done. by rewrite decide_True.
Qed.
(** The record with the key of [psfs_set] is new, unless the value is that of the old one. *)
Lemma ps_set_find key v p k : ps_inv p → rec_find k (psfs_root (ps_set key v p)) =
  if decide (k = key ∧ from_option pr_data [] (rec_find key (psfs_root p)) ≠ v) then Some (new_record key v)
  else rec_find k (psfs_root p).
Proof.
  intros Hp. unfold ps_set. destruct (decide (from_option _ _ _ = v)) as [E|E].
  - by rewrite decide_False by naive_solver.
  - rewrite ps_insert_find, ps_vacate_find; [|done|by apply ps_vacate_inv|rewrite ps_vacate_find by done; by rewrite decide_True].
    cbn. destruct (decide (k = key)); [by rewrite decide_True|by rewrite decide_False by naive_solver].
Qed.
Lemma live_set key v p k : ps_inv p → live (psfs_root (ps_set key v p)) k =
  if decide (k = key) then (if decide (v = []) then None else Some v) else live (psfs_root p) k.
Proof.
  intros Hp. unfold live. rewrite ps_set_find by done.
  destruct (decide (k = key)) as [->|Hne]; [|by rewrite decide_False by naive_solver].
  destruct (decide (from_option pr_data [] (rec_find key (psfs_root p)) = v)) as [E|E].
  - rewrite decide_False by naive_solver. by destruct (rec_find _ _); simplify_eq/=.
  - by rewrite decide_True.
Qed.
Lemma ps_set_other key v p : psfs_name (ps_set key v p) = psfs_name p ∧ psfs_fd (ps_set key v p) = psfs_fd p ∧
  psfs_dirfd (ps_set key v p) = psfs_dirfd p ∧ psfs_flags (ps_set key v p) = psfs_flags p.
Proof. unfold ps_set. destruct (decide _); [done|]. apply ps_vacate_other. Qed.
Lemma psfs_get_run key n w : Z.land (psfs_flags (pw_ps w)) OSP_PS_READ ≠ 0 →
  psfs_get key n w = Some (match live (psfs_root (pw_ps w)) key with Some d => (Zlen d, take n d) | None => (0, []) end, w).
Proof.
  intros Hr. unfold psfs_get, mbind, M_bind, gets. destruct (Z.eqb_spec (Z.land (psfs_flags (pw_ps w)) OSP_PS_READ) 0); [done|].
  unfold live. destruct (rec_find _ _) as [r|]; [|done]. cbn. unfold pr_datasz. destruct (decide (pr_data r = [])) as [E|E]; [|done].
  rewrite E. by rewrite take_nil.
Qed.

(** ** Loading a persistent store: the tree after it, and that it ends. *)

(** What the loop does with a record it has read. *)
Lemma load_record r w {A} (m : PS A) : ps_inv (pw_ps w) →
  ((match rec_find (pr_key r) (psfs_root (pw_ps w)) with Some opr => psfs_drop_record opr | None => mret tt end);;
   (if pr_datasz r =? 0 then mret tt else rec_insert r;; modify (with_ps (with_used (λ u, u + pr_used r))));; m) w =
  m (with_ps (λ _, ps_load1 r (pw_ps w)) w).
Proof.
  intros Hp. assert ((match rec_find (pr_key r) (psfs_root (pw_ps w)) with Some opr => psfs_drop_record opr | None => mret tt end) w
    = Some (tt, with_ps (λ _, ps_vacate (pr_key r) (pw_ps w)) w)) as E.
  { unfold ps_vacate. destruct (rec_find _ _) as [o|] eqn:E; [|destruct w as [? ? ? ? ? ? []]; done].
    apply rec_find_some in E as [Ho _]. apply psfs_drop_record_run; [apply Hp|done]. }
  unfold mbind, M_bind. rewrite E. unfold ps_load1, pr_datasz. destruct (decide (pr_data r = [])) as [Ed|Ed].
  - rewrite Ed. done.
  - destruct (Z.eqb_spec (Z.of_nat (length (pr_data r))) 0); [by destruct (pr_data r)|]. done.
Qed.

Lemma load_loop_calm c p rs : loads c p rs → ∀ w fd ino wr fuel,
  fd_view w fd ino c p true wr → calm w → psfs_fd (pw_ps w) = fd → ps_inv (pw_ps w) → (length c - p < fuel)%nat →
  ∃ q, load_loop fuel w = Some (tt, adv fd (with_ps (λ _, ps_load (pw_ps w) rs) w) q 0).
Proof.
  induction 1 as [p p' Hr|p p' rs Hr Hlt _ IH|p p' rc r rs Hr Hlt _ IH]; intros w fd ino wr fuel Hv Hc Hfd Hp Hf;
    (destruct fuel as [|fuel]; [lia|]); cbn [load_loop]; unfold mbind at 1, M_bind at 1, gets at 1; rewrite Hfd;
    unfold mbind at 1, M_bind at 1; rewrite (Hr _ _ _ _ Hv Hc).
  - exists p'. by destruct w as [? ? ? ? ? ? []].
  - cbn [Z.eqb]. edestruct (IH (adv fd w p' 0) fd ino wr fuel) as (q & ->);
      [by eapply view_adv|by apply calm_adv|done|done|lia|]. exists q.
    do 2 f_equal. apply (adv_adv fd (with_ps (λ _, ps_load (pw_ps w) rs) w)).
  - assert (ps_inv (pw_ps (adv fd w p' 0))) as Hp' by done. cbv beta iota.
    change (psfs_root (pw_ps w)) with (psfs_root (pw_ps (adv fd w p' 0))).
    rewrite (load_record r (adv fd w p' 0) (load_loop fuel) Hp'). change (pw_ps (adv fd w p' 0)) with (pw_ps w).
    assert (fd_view (with_ps (λ _, ps_load1 r (pw_ps w)) (adv fd w p' 0)) fd ino c p' true wr) as Hv'.
    { destruct (view_adv _ _ _ _ _ _ _ p' 0 Hv) as [H1 H2]. by split. }
    edestruct (IH _ fd ino wr fuel Hv') as (q & ->); [by apply (calm_adv fd w)| | |lia|].
    + rewrite <- Hfd. apply (ps_load1_other r).
    + by apply ps_load1_inv.
    + exists q. do 2 f_equal. apply (adv_adv fd (with_ps (λ _, ps_load (ps_load1 r (pw_ps w)) rs) w)).
Qed.
Definition ps_rewind (p : psfs) : psfs := with_next (pr_key <$> head (psfs_root p)) p.
Lemma ps_rewind_inv p : ps_inv p → ps_inv (ps_rewind p).
Proof.
  intros [Hs Hu _]. split; [done..|]. intros k (r & Hr & ->)%fmap_Some.
  change (psfs_root (ps_rewind p)) with (psfs_root p). rewrite (rec_find_elem r); [by eexists|done|].
  destruct (psfs_root p); [done|]. simplify_eq/=. left.
Qed.
Lemma psfs_load_calm c rs w fd ino wr fuel : loads c 0 rs →
  fd_view w fd ino c 0 true wr → calm w → psfs_fd (pw_ps w) = fd → ps_inv (pw_ps w) → (length c < fuel)%nat →
  ∃ q, psfs_load fuel w = Some (true, adv fd (with_ps (λ _, ps_rewind (ps_load (pw_ps w) rs)) w) q 0).
Proof.
  intros Hl Hv Hc Hfd Hp Hf. destruct (load_loop_calm _ _ _ Hl _ _ _ _ fuel Hv Hc Hfd Hp) as (q & Hq); [lia|].
  exists q. unfold psfs_load, mbind, M_bind. rewrite Hq. done.
Qed.

(** *** Termination *)

(** One call of [psfs_record_read], whatever fails: it is at the end of the file, it moves
    on, or it takes one of the failures to come. *)
Definition progress (c : list Z) (w : pworld) (fd : Z) (p : nat) (x : option ((Z * option psfs_record) * pworld)) : Prop :=
  ∃ rc r q n, x = Some ((rc, r), adv fd w q n) ∧ (p ≤ q ≤ length c)%nat ∧
    (calm w → rc ≠ 0 → (p < q)%nat) ∧ (is_Some r → rc ≠ 0) ∧ (0 < n)%nat.

Lemma read_adv w fd ino c p wr q n k : fd_view w fd ino c p true wr → (q ≤ length c)%nat →
  (pw_plan w ≠ [] ∧ sys_read fd k (adv fd w q n) = Some ((-1, []), adv fd w q (S n))) ∨
  (∃ b, (length b ≤ k)%nat ∧ (length b ≤ length c - q)%nat ∧ (Forall u8 c → Forall u8 b) ∧
    sys_read fd k (adv fd w q n) = Some ((Zlen b, b), adv fd w (q + length b) (S n))).
Proof.
  intros Hv Hq. destruct (sys_read_spec _ _ _ _ _ _ k (view_adv _ _ _ _ _ _ _ q n Hv)) as [[Hp E]|(j & Hj & _ & _ & E)].
  - left. rewrite E, adv_adv, Nat.add_1_r. split; [|done]. intros Hn. apply Hp. unfold adv. cbn. by rewrite Hn, drop_nil.
  - right. exists (take j (drop q c)). rewrite E, adv_adv, Nat.add_1_r. split_and!; [|..|done].
    + rewrite length_take. lia.
    + rewrite length_take, length_drop. lia.
    + intros. by apply Forall_take, Forall_drop.
Qed.
Lemma fstat_any w fd ino c p wr q n : fd_view w fd ino c p true wr →
  ∃ ok sz, sys_fstat fd (adv fd w q n) = Some ((ok, sz), adv fd w q (S n)).
Proof.
  intros Hv. destruct (sys_fstat_spec _ _ _ _ _ _ _ (view_adv _ _ _ _ _ _ _ q n Hv)) as [[_ [g E]]|E];
    rewrite E, adv_adv, Nat.add_1_r; eauto.
Qed.
Lemma seek_any w fd p n coff : 0 ≤ coff → seek_on_error fd coff (adv fd w p n) = Some ((-1, None), adv fd w (Z.to_nat coff + 4) n).
Proof.
  intros. unfold seek_on_error, sys_seek, mbind, M_bind. rewrite set_pos_run, adv_adv, Nat.add_0_r.
  by replace (Z.to_nat (coff + 4)) with (Z.to_nat coff + 4)%nat by lia.
Qed.
Lemma of_be32_nonneg b : Forall u8 b → 0 ≤ of_be32 b.
Proof.
  intros Hb. unfold of_be32. assert (∀ a, 0 ≤ a → 0 ≤ foldl (λ a x, 256 * a + x) a b) as H; [|by apply H].
  induction Hb as [|x b Hx _ IH]; intros a Ha; [done|]. simpl. apply IH. unfold u8 in Hx. lia.
Qed.

(** Where a call ends: inside of the file, and not in front of [lo]. *)
Definition ends (c : list Z) (w : pworld) (fd : Z) (lo n : nat) (x : option ((Z * option psfs_record) * pworld)) : Prop :=
  ∃ rc r q m, x = Some ((rc, r), adv fd w q m) ∧ (lo ≤ q ≤ length c)%nat ∧ rc ≠ 0 ∧ (n ≤ m)%nat.
Lemma body_ends w fd ino c p wr coff magic n : fd_view w fd ino c p true wr → Forall u8 c → (coff + 4 ≤ length c)%nat →
  ends c w fd (coff + 4) n (psfs_record_body fd (Z.of_nat coff) magic (adv fd w (coff + 4) n)).
Proof.
  intros Hv Hc Hco. unfold psfs_record_body, mbind, M_bind.
  destruct (read_adv _ _ _ _ _ _ _ n 4 Hv Hco) as [[_ ->]|(b & _ & Hb & Hu & ->)].
  { exists (-1), None, (coff + 4)%nat, (S n). split_and!; lia || done. }
  specialize (Hu Hc). destruct (Zlen b <? 4). { exists (-1), None, (coff + 4 + length b)%nat, (S n). split_and!; lia || done. }
  assert (∀ q m, (n ≤ m)%nat → ends c w fd (coff + 4) n (seek_on_error fd (Z.of_nat coff) (adv fd w q m))) as Hseek.
  { intros q m Hm. rewrite seek_any, Nat2Z.id by lia. exists (-1), None, (coff + 4)%nat, m. split_and!; lia || done. }
  destruct (fstat_any _ _ _ _ _ _ (coff + 4 + length b)%nat (S n) Hv) as (ok & sz & ->).
  destruct ok; cbn [negb]; [|apply Hseek; lia]. destruct (sz <? _); [apply Hseek; lia|].
  destruct (read_adv _ _ _ _ _ _ (coff + 4 + length b) (S (S n)) (Z.to_nat (of_be32 b)) Hv) as [[_ ->]|(d & _ & Hd & _ & ->)]; [lia|..].
  { pose proof (of_be32_nonneg b Hu). destruct (Z.ltb_spec (-1) (of_be32 b)); [|lia]. apply Hseek. lia. }
  destruct (Zlen d <? of_be32 b); [apply Hseek; lia|].
  destruct (read_adv _ _ _ _ _ _ (coff + 4 + length b + length d) (S (S (S n))) 4 Hv) as [[_ ->]|(e & _ & He & _ & ->)]; [lia|apply Hseek; lia|].
  destruct (Zlen e <? 4); [apply Hseek; lia|]. destruct (_ =? PSFS_CRC32_VERIFY); cbn [negb]; [|apply Hseek; lia].
  destruct (of_be32 b <=? _); [apply Hseek; lia|]. pose proof (of_be32_nonneg b Hu).
  eexists _, _, _, _. split_and!; [done|lia..].
Qed.
Ltac progress_done := split_and!; solve [done | lia | by intros [] | by intros ? []| by intros].
Lemma magic_progress w fd ino c p wr coff n : fd_view w fd ino c p true wr → Forall u8 c → (p ≤ coff ≤ length c)%nat →
  progress c w fd p (psfs_record_magic fd (Z.of_nat coff) (adv fd w coff n)).
Proof.
  intros Hv Hc Hco. unfold psfs_record_magic, mbind, M_bind.
  destruct (read_adv _ _ _ _ _ _ coff n 4 Hv) as [[Hp ->]|(b & _ & Hb & Hu & ->)]; [lia|..].
  { exists (-1), None, coff, (S n). progress_done. }
  destruct (Z.eqb_spec (Zlen b) 0) as [E|E].
  { exists 0, None, (coff + length b)%nat, (S n). progress_done. }
  destruct (Z.ltb_spec (Zlen b) 4) as [H4|H4].
  { exists (-1), None, (coff + length b)%nat, (S n). unfold Zlen in *. progress_done. }
  destruct (bool_decide_reflect (b = be32 PSFS_MAGIC)) as [Eb|Eb]; cbn [negb].
  - replace (coff + length b)%nat with (coff + 4)%nat by (by rewrite Eb).
    destruct (body_ends w fd ino c p wr coff b (S n) Hv Hc) as (rc & r & q & m & -> & Hq & Hrc & Hm).
    { rewrite Eb in Hb. change (length (be32 PSFS_MAGIC)) with 4%nat in Hb. unfold Zlen in E. rewrite Eb in E. lia. }
    exists rc, r, q, m. progress_done.
  - exists (-1), None, (coff + length b)%nat, (S n). unfold Zlen in *. progress_done.
Qed.
Lemma record_read_progress w fd ino c p wr : fd_view w fd ino c p true wr → Forall u8 c → (p ≤ length c)%nat →
  progress c w fd p (psfs_record_read fd w).
Proof.
  intros Hv Hc Hp. unfold psfs_record_read, mbind, M_bind. rewrite (sys_tell_run _ _ _ _ _ _ _ Hv).
  pose proof (adv_here _ _ _ _ _ _ _ Hv) as Hw. pose proof (padlen_range (Z.of_nat p)) as Hpad.
  destruct (Z.land (Z.of_nat p) 3 =? 0).
  - pose proof (magic_progress w fd ino c p wr p 0 Hv Hc ltac:(lia)) as H. by rewrite Hw in H.
  - cbv beta iota zeta.
    destruct (read_adv _ _ _ _ _ _ p 0 (Z.to_nat (padlen (Z.of_nat p))) Hv Hp) as [[Hpl E]|(b & Hbl & Hb & _ & E)];
      rewrite Hw in E; rewrite E.
    { destruct (Z.ltb_spec (-1) (padlen (Z.of_nat p))); [|lia]. exists (-1), None, p, 1%nat.
      progress_done. }
    destruct (Z.eqb_spec (Zlen b) 0) as [E0|E0].
    { exists 0, None, (p + length b)%nat, 1%nat. progress_done. }
    destruct (Z.ltb_spec (Zlen b) (padlen (Z.of_nat p))) as [Hlt|Hge].
    { exists (-1), None, (p + length b)%nat, 1%nat. unfold Zlen in *. progress_done. }
    replace (Z.of_nat p + padlen (Z.of_nat p)) with (Z.of_nat (p + length b)) by (unfold Zlen in *; lia).
    apply (magic_progress _ _ ino _ _ wr); [done..|lia].
Qed.

Lemma load_loop_ends fuel : ∀ w ino c p wr, fd_view w (psfs_fd (pw_ps w)) ino c p true wr → Forall u8 c →
  (p ≤ length c)%nat → ps_inv (pw_ps w) → (length (pw_plan w) + (length c - p) < fuel)%nat →
  ∃ w', load_loop fuel w = Some (tt, w') ∧ ps_inv (pw_ps w').
Proof.
  induction fuel as [|fuel IH]; intros w ino c p wr Hv Hc Hp Hi Hf; [lia|].
  destruct (record_read_progress _ _ _ _ _ _ Hv Hc Hp) as (rc & r & q & n & E & Hq & Hmv & Hr & Hn).
  cbn [load_loop]. unfold mbind at 1, M_bind at 1, gets at 1. unfold mbind at 1, M_bind at 1. rewrite E.
  assert (rc ≠ 0 → (length (drop n (pw_plan w)) + (length c - q) < fuel)%nat) as Hless.
  { intros Hrc. rewrite length_drop. destruct (pw_plan w) as [|o pl] eqn:Epl; [specialize (Hmv Epl Hrc)|]; simpl in *; lia. }
  pose proof (view_adv _ _ _ _ _ _ _ q n Hv) as Hv'. destruct r as [r|].
  - cbv beta iota. change (psfs_root (pw_ps w)) with (psfs_root (pw_ps (adv (psfs_fd (pw_ps w)) w q n))).
    rewrite load_record by done. apply (IH _ ino c q wr); [| |lia| |apply Hless, Hr; by eexists].
    + destruct (ps_load1_other r (pw_ps w)) as (_ & Hfd & _). cbn. rewrite Hfd. destruct Hv' as [H1 H2]. by split.
    + done.
    + by apply ps_load1_inv.
  - cbv beta iota. destruct (Z.eqb_spec rc 0) as [->|Hrc]; [by eexists|].
    apply (IH _ ino c q wr); [done|done|lia|done|by apply Hless].
Qed.

(** A descriptor that cannot be read from: every read fails, and no failure is the end. *)
Lemma record_read_unreadable w fd ino c p wr : fd_view w fd ino c p false wr → calm w →
  psfs_record_read fd w = Some ((-1, None), w).
Proof.
  intros Hv Hc. assert (∀ n, sys_read fd n w = Some ((-1, []), w)) as Hr.
  { intros n. unfold sys_read, mbind, M_bind. rewrite sys_run. unfold gets.
    rewrite (with_tail_adv _ _ _ _ _ _ _ Hv), adv_calm, (adv_here _ _ _ _ _ _ _ Hv), (view_data _ _ _ _ _ _ _ Hv) by done.
    unfold calm in Hc. by rewrite Hc. }
  unfold psfs_record_read, psfs_record_magic, mbind, M_bind. rewrite (sys_tell_run _ _ _ _ _ _ _ Hv).
  pose proof (padlen_range (Z.of_nat p)). destruct (_ =? 0); rewrite Hr; [done|].
  destruct (Z.ltb_spec (-1) (padlen (Z.of_nat p))); [done|lia].
Qed.
Lemma load_loop_hangs w ino c p wr fuel : fd_view w (psfs_fd (pw_ps w)) ino c p false wr → calm w → load_loop fuel w = None.
Proof.
  intros Hv Hc. induction fuel as [|fuel IH]; [done|]. cbn [load_loop]. unfold mbind at 1, M_bind at 1, gets at 1.
  unfold mbind at 1, M_bind at 1. rewrite (record_read_unreadable _ _ _ _ _ _ Hv Hc). exact IH.
Qed.
