(* ===== verification/PsfsSync.v ===== *)
(** Writing a persistent store: appending the dirty records, and pruning. *)
From Stdlib Require Import Sorting.Sorted.
From S2P Require Import Prelude DsTreeInv KeySeq Psfs PsfsRec PsfsRead PsfsLoad.
Local Open Scope Z_scope.

(** No call fails and nobody else is at work. *)
Definition quiet (w : pworld) : Prop := calm w ∧ pw_wait w = [].
(** Nothing but the records and one file with its descriptor has changed. *)
Record frame (fd : Z) (ino : nat) (w w' : pworld) : Prop := Frame {
  fr_names : d_names (pw_disk w') = d_names (pw_disk w);
  fr_next : d_next (pw_disk w') = d_next (pw_disk w);
  fr_files : ∀ i, i ≠ ino → d_files (pw_disk w') !! i = d_files (pw_disk w) !! i;
  fr_fds : ∀ i, i ≠ fd → pw_fds w' !! i = pw_fds w !! i;
  fr_nfd : pw_nfd w' = pw_nfd w; fr_dirs : pw_dirs w' = pw_dirs w; fr_wait : pw_wait w' = pw_wait w;
  fr_name : psfs_name (pw_ps w') = psfs_name (pw_ps w); fr_fd : psfs_fd (pw_ps w') = psfs_fd (pw_ps w);
  fr_dirfd : psfs_dirfd (pw_ps w') = psfs_dirfd (pw_ps w); fr_flags : psfs_flags (pw_ps w') = psfs_flags (pw_ps w) }.
Lemma frame_refl fd ino w : frame fd ino w w.
Proof. done. Qed.
Lemma frame_trans fd ino w1 w2 w3 : frame fd ino w1 w2 → frame fd ino w2 w3 → frame fd ino w1 w3.
Proof. intros H1 H2. split; intros; (etrans; [by eapply H2|by eapply H1]). Qed.
Lemma frame_grow fd ino c w : frame fd ino w (grow fd ino c w).
Proof.
  split; intros; try done; unfold grow, adv; cbn.
  - by rewrite lookup_insert_ne.
  - by rewrite lookup_alter_ne.
Qed.
Lemma frame_ps fd ino w f : psfs_name (f (pw_ps w)) = psfs_name (pw_ps w) → psfs_fd (f (pw_ps w)) = psfs_fd (pw_ps w) →
  psfs_dirfd (f (pw_ps w)) = psfs_dirfd (pw_ps w) → psfs_flags (f (pw_ps w)) = psfs_flags (pw_ps w) →
  frame fd ino w (with_ps f w).
Proof. by split. Qed.
Lemma view_ps f w fd ino c p rd wr : fd_view w fd ino c p rd wr → fd_view (with_ps f w) fd ino c p rd wr.
Proof. intros []. by split. Qed.

(** *** Records marked as clean *)

Lemma sorted_keys_nodup l : ks_sorted memcmp pr_key l → NoDup (pr_key <$> l).
Proof.
  induction 1 as [|r l _ IH Hr]; [constructor|]. rewrite fmap_cons. constructor; [|done].
  intros (x & Ex & Hx)%list_elem_of_fmap. rewrite Forall_forall in Hr. specialize (Hr x Hx). cbn in Hr.
  rewrite <- Ex in Hr. assert (memcmp (pr_key r) (pr_key r) = 0) by by apply memcmp_zero. lia.
Qed.
Lemma put_mid pre r r' l : ks_sorted memcmp pr_key (pre ++ r :: l) → pr_key r' = pr_key r →
  (λ x, if bool_decide (pr_key x = pr_key r') then r' else x) <$> (pre ++ r :: l) = pre ++ r' :: l.
Proof.
  intros Hs%sorted_keys_nodup E. rewrite fmap_app, fmap_cons in Hs. apply NoDup_app in Hs as (_ & Hpre & [Hl _]%NoDup_cons).
  assert (∀ k : list psfs_record, (∀ x, x ∈ k → pr_key x ≠ pr_key r) → (λ x, if bool_decide (pr_key x = pr_key r') then r' else x) <$> k = k) as Hid.
  { intros k Hk. rewrite <- (list_fmap_id k) at 2. apply list_fmap_ext. intros i x Hx. apply list_elem_of_lookup_2 in Hx.
    rewrite bool_decide_eq_false_2; [done|]. rewrite E. by apply Hk. }
  rewrite fmap_app, fmap_cons, bool_decide_eq_true_2 by done. f_equal; [|f_equal]; apply Hid; intros x Hx Ex.
  - apply (Hpre (pr_key x)); [by apply list_elem_of_fmap_2|]. rewrite Ex. left.
  - apply Hl. rewrite <- Ex. by apply list_elem_of_fmap_2.
Qed.
Lemma rec_put_run pre r r' l w : psfs_root (pw_ps w) = pre ++ r :: l → ks_sorted memcmp pr_key (pre ++ r :: l) →
  pr_key r' = pr_key r → rec_put r' w = Some (tt, with_ps (with_root (λ _, pre ++ r' :: l)) w).
Proof.
  intros Er Hs E. unfold rec_put, modify. do 2 f_equal. unfold with_ps, with_root. rewrite Er.
  by rewrite (put_mid _ r) by done.
Qed.
Lemma used_sum_app l1 l2 : used_sum (l1 ++ l2) = used_sum l1 + used_sum l2.
Proof. induction l1; simpl; lia. Qed.
(** A change that keeps keys and sizes keeps the invariant. *)
Lemma ps_inv_keys l p : ps_inv p → pr_key <$> l = pr_key <$> psfs_root p → used_sum l = used_sum (psfs_root p) →
  ps_inv (with_root (λ _, l) p).
Proof.
  intros [Hs Hu Hn] Hk Hsum. split; [by eapply ks_sorted_keys; [symmetry|]|cbn; congruence|].
  intros k Hx. apply Hn in Hx as [r Hr]. apply rec_find_some in Hr as [Hr <-].
  assert (pr_key r ∈ pr_key <$> l) as (x & -> & Hx)%list_elem_of_fmap by (rewrite Hk; by apply list_elem_of_fmap_2).
  rewrite rec_find_elem; [by eexists| |done]. by eapply ks_sorted_keys; [symmetry|].
Qed.
Lemma mid_keys pre r r' l : pr_key r' = pr_key r → pr_key <$> (pre ++ r' :: l) = pr_key <$> (pre ++ r :: l).
Proof. intros E. by rewrite !fmap_app, !fmap_cons, E. Qed.

(** *** Appending *)

Definition dirties (l : list psfs_record) : list psfs_record := filter (λ r, pr_dirty r = true) l.
Lemma aligned_pad c : aligned c → wpad (padlen (Zlen c)) = [].
Proof.
  intros Hc. pose proof (padlen_shift (Zlen c) 0 Hc) as E. rewrite Z.add_0_r in E. by rewrite E.
Qed.
Lemma set_clean_id r : pr_dirty r = false → set_clean r = r.
Proof. destruct r. cbn. by intros ->. Qed.
(** One record is written and marked as clean. *)
Lemma write_step fd ino rd r l pre c p w :
  fd_view w fd ino c p rd true → calm w → aligned c → ps_inv (pw_ps w) → psfs_root (pw_ps w) = pre ++ r :: l →
  0 < Zlen (rec_body r) ∧ ∃ w1 w2, psfs_record_write fd r w = Some ((Zlen (rec_body r), set_clean r), w1) ∧
    rec_put (set_clean r) w1 = Some (tt, w2) ∧ frame fd ino w w2 ∧ calm w2 ∧ ps_inv (pw_ps w2) ∧ aligned (c ++ enc r) ∧
    fd_view w2 fd ino (c ++ enc r) (length (c ++ enc r)) rd true ∧ psfs_root (pw_ps w2) = (pre ++ [set_clean r]) ++ l.
Proof.
  intros Hv Hc Ha Hp Hr. split; [rewrite Zlen_body; pose proof (Zlen_nonneg (payload r)); lia|].
  assert (ks_sorted memcmp pr_key (pre ++ r :: l)) as Hs by (rewrite <- Hr; apply Hp).
  rewrite (record_write_calm _ _ _ _ _ _ r Hv Hc), aligned_pad by done. cbn [app]. eexists _, _.
  split; [done|]. split; [by apply (rec_put_run pre r (set_clean r) l)|]. split_and!.
  - eapply frame_trans; [apply frame_grow|]. by apply frame_ps.
  - by apply calm_grow.
  - apply ps_inv_keys; [done|..]; change (psfs_root (pw_ps (grow _ _ _ w))) with (psfs_root (pw_ps w)); rewrite Hr;
      [by apply mid_keys|by rewrite !used_sum_app].
  - apply aligned_app; [done|apply enc_align].
  - apply view_ps. by eapply view_grow.
  - cbn. by rewrite <- app_assoc.
Qed.
Lemma append_loop_calm fd ino rd l : ∀ pre c p w,
  fd_view w fd ino c p rd true → calm w → aligned c → ps_inv (pw_ps w) → psfs_root (pw_ps w) = pre ++ l →
  ∃ w' q, append_loop fd l w = Some (true, w') ∧ frame fd ino w w' ∧ calm w' ∧ ps_inv (pw_ps w') ∧
    fd_view w' fd ino (c ++ journal (dirties l)) q rd true ∧ psfs_root (pw_ps w') = pre ++ (set_clean <$> l).
Proof.
  induction l as [|r l IH]; intros pre c p w Hv Hc Ha Hp Hr.
  { exists w, p. rewrite app_nil_r in Hr |- *. change (journal (dirties [])) with (@nil Z). by rewrite app_nil_r. }
  cbn [append_loop]. unfold dirties. rewrite filter_cons. destruct (pr_dirty r) eqn:Ed; cbn [negb].
  - rewrite decide_True by done.
    destruct (write_step _ _ _ r l pre _ _ _ Hv Hc Ha Hp Hr) as (Hpos & w1 & w2 & E1 & E2 & Hf2 & Hc2 & Hp2 & Ha2 & Hv2 & Hr2).
    unfold mbind, M_bind. rewrite E1, E2. destruct (Z.leb_spec (Zlen (rec_body r)) 0) as [|_]; [lia|].
    destruct (IH _ _ _ w2 Hv2 Hc2 Ha2 Hp2 Hr2) as (w' & q & E & Hf & Hc' & Hp' & Hv' & Hr').
    exists w', q. split_and!; [exact E|by eapply frame_trans|done..| |].
    + rewrite journal_cons, app_assoc. exact Hv'.
    + rewrite Hr', <- app_assoc. done.
  - rewrite decide_False by congruence. destruct (IH (pre ++ [r]) c p w Hv Hc Ha Hp) as (w' & q & E & Hf & Hc' & Hp' & Hv' & Hr').
    + by rewrite <- app_assoc.
    + exists w', q. split_and!; try done. rewrite Hr', <- app_assoc, fmap_cons, set_clean_id by done. done.
Qed.
(** [psfs_sync_append] writes the dirty records behind the journal. *)
Lemma sync_append_calm fd ino rd c p w :
  fd_view w fd ino c p rd true → calm w → aligned c → ps_inv (pw_ps w) →
  Z.land (psfs_flags (pw_ps w)) OSP_PS_WRITE ≠ 0 → psfs_fd (pw_ps w) = fd →
  ∃ w' q, psfs_sync_append w = Some (true, w') ∧ frame fd ino w w' ∧ calm w' ∧ ps_inv (pw_ps w') ∧
    fd_view w' fd ino (c ++ journal (dirties (psfs_root (pw_ps w)))) q rd true ∧
    psfs_root (pw_ps w') = set_clean <$> psfs_root (pw_ps w).
Proof.
  intros Hv Hc Ha Hp Hw Hfd. destruct (append_loop_calm fd ino rd _ [] c p w Hv Hc Ha Hp eq_refl) as (w' & q & E & Hf & Hc' & Hp' & Hv' & Hr').
  exists w', q. split_and!; try done. unfold psfs_sync_append, mbind, M_bind, gets.
  destruct (Z.eqb_spec (Z.land (psfs_flags (pw_ps w)) OSP_PS_WRITE) 0); [done|]. rewrite Hfd, E. cbn [negb].
  unfold sys_ok, mbind, M_bind. rewrite sys_run. rewrite (with_tail_adv _ _ _ _ _ _ _ Hv'), adv_calm by done.
  by rewrite (adv_here _ _ _ _ _ _ _ Hv').
Qed.

(** *** Pruning *)

Definition nonempty (l : list psfs_record) : list psfs_record := filter (λ r, pr_data r ≠ []) l.
Lemma prune_loop_calm fd ino rd l : ∀ pre c p w,
  fd_view w fd ino c p rd true → calm w → aligned c → ps_inv (pw_ps w) → psfs_root (pw_ps w) = pre ++ l →
  ∃ w' q, prune_loop fd l w = Some (tt, w') ∧ frame fd ino w w' ∧ calm w' ∧ ps_inv (pw_ps w') ∧
    fd_view w' fd ino (c ++ journal (nonempty l)) q rd true ∧ psfs_root (pw_ps w') = pre ++ (set_clean <$> nonempty l).
Proof.
  induction l as [|r l IH]; intros pre c p w Hv Hc Ha Hp Hr.
  { exists w, p. rewrite app_nil_r in Hr |- *. change (journal (nonempty [])) with (@nil Z). by rewrite app_nil_r. }
  assert (ks_sorted memcmp pr_key (pre ++ r :: l)) as Hs by (rewrite <- Hr; apply Hp).
  cbn [prune_loop]. unfold nonempty, pr_datasz. rewrite filter_cons. destruct (decide (pr_data r ≠ [])) as [Hd|Hd].
  - destruct (Z.eqb_spec (Z.of_nat (length (pr_data r))) 0); [by destruct (pr_data r)|].
    destruct (write_step _ _ _ r l pre _ _ _ Hv Hc Ha Hp Hr) as (Hpos & w1 & w2 & E1 & E2 & Hf2 & Hc2 & Hp2 & Ha2 & Hv2 & Hr2).
    unfold mbind, M_bind. rewrite E1. destruct (Z.leb_spec (Zlen (rec_body r)) 0) as [|_]; [lia|].
    change (set_clean (set_clean r)) with (set_clean r). rewrite E2.
    destruct (IH _ _ _ w2 Hv2 Hc2 Ha2 Hp2 Hr2) as (w' & q & E & Hf & Hc' & Hp' & Hv' & Hr').
    exists w', q. split_and!; [exact E|by eapply frame_trans|done..| |].
    + rewrite journal_cons, app_assoc. exact Hv'.
    + rewrite Hr', <- app_assoc. done.
  - apply dec_stable in Hd. unfold mbind, M_bind.
    destruct (Z.eqb_spec (Z.of_nat (length (pr_data r))) 0) as [_|Hne]; [|by rewrite Hd in Hne].
    assert (r ∈ psfs_root (pw_ps w)) as Hin by (rewrite Hr; set_solver).
    rewrite psfs_drop_record_run by (done || apply Hp). set (w1 := with_ps _ w).
    destruct (ps_drop_root r (pw_ps w) (inv_sorted _ Hp) Hin) as (i & Hi & Er & _).
    assert (i = length pre) as ->.
    { apply (sorted_distinct (pre ++ r :: l) _ _ r r); [done|by rewrite <- Hr| |done]. by apply list_lookup_middle. }
    destruct (IH pre c p w1) as (w' & q & E & Hf & Hrest).
    + by apply view_ps.
    + done.
    + done.
    + by apply ps_drop_inv.
    + change (psfs_root (pw_ps w1)) with (psfs_root (ps_drop r (pw_ps w))). rewrite Er, Hr. apply delete_middle.
    + exists w', q. split_and!; [exact E| |apply Hrest..]. destruct (ps_drop_other r (pw_ps w)) as (? & ? & ? & ?).
      eapply frame_trans; [|exact Hf]. by apply frame_ps.
Qed.

(** *** System calls that succeed *)

Lemma tail_calm w : calm w → with_plan tail w = w.
Proof. unfold calm. destruct w. cbn. intros ->. done. Qed.
Lemma sys_ok_calm w : calm w → sys_ok w = Some (true, w).
Proof. intros Hc. unfold sys_ok, mbind, M_bind. rewrite sys_run, tail_calm by done. unfold calm in Hc. by rewrite Hc. Qed.
Lemma lock_quiet w : quiet w → psfs_file_lock w = Some (true, w).
Proof.
  intros [Hc Hw]. unfold psfs_file_lock, mbind, M_bind, gets, modify. rewrite Hw.
  replace (with_wait tail (with_disk (λ d, d) w)) with w; [by apply sys_ok_calm|]. destruct w. cbn in *. by subst.
Qed.
(** [openat] of a name that is new. *)
Definition created (w : pworld) (p : bool) (name : string) (rd wr : bool) : pworld :=
  PWorld (Disk (<[(p, name) := d_next (pw_disk w)]> (d_names (pw_disk w))) (<[d_next (pw_disk w) := []]> (d_files (pw_disk w)))
      (S (d_next (pw_disk w)))) (<[pw_nfd w := Ofd (d_next (pw_disk w)) 0 rd wr]> (pw_fds w)) (pw_nfd w + 1)
    (pw_plan w) (pw_wait w) (pw_dirs w) (pw_ps w).
Lemma openat_new w p name trunc rd wr : calm w → d_names (pw_disk w) !! (p, name) = None →
  sys_openat (Some p) name true trunc rd wr w = Some (pw_nfd w, created w p name rd wr).
Proof.
  intros Hc Hn. unfold sys_openat, mbind, M_bind. rewrite sys_ok_calm by done. unfold gets. cbn [negb]. rewrite Hn. done.
Qed.
Lemma view_created w p name rd wr : fd_view (created w p name rd wr) (pw_nfd w) (d_next (pw_disk w)) [] 0 rd wr.
Proof. split; cbn; by rewrite lookup_insert_eq. Qed.
(** [openat] of a name that exists. *)
Definition opened (w : pworld) (ino : nat) (rd wr : bool) : pworld :=
  PWorld (pw_disk w) (<[pw_nfd w := Ofd ino 0 rd wr]> (pw_fds w)) (pw_nfd w + 1)
    (pw_plan w) (pw_wait w) (pw_dirs w) (pw_ps w).
Lemma openat_old w p name creat rd wr ino : calm w → d_names (pw_disk w) !! (p, name) = Some ino →
  sys_openat (Some p) name creat false rd wr w = Some (pw_nfd w, opened w ino rd wr).
Proof.
  intros Hc Hn. unfold sys_openat, mbind, M_bind. rewrite sys_ok_calm by done. unfold gets. cbn [negb]. rewrite Hn. done.
Qed.
Lemma view_opened w ino rd wr c : d_files (pw_disk w) !! ino = Some c → fd_view (opened w ino rd wr) (pw_nfd w) ino c 0 rd wr.
Proof. intros. split; cbn; [by rewrite lookup_insert_eq|done]. Qed.

Lemma tmp_name_ne name : tmp_name name ≠ name.
Proof.
  intros E. apply (f_equal String.length) in E. unfold tmp_name in E. rewrite !string_length_app in E. simpl in E. lia.
Qed.

(** [psfs_sync_prune] leaves a new file with the records that are not deleted. *)
Lemma sync_prune_calm w p : quiet w → ps_inv (pw_ps w) → Z.land (psfs_flags (pw_ps w)) OSP_PS_WRITE ≠ 0 →
  psfs_dirfd (pw_ps w) = Some p → psfs_fd (pw_ps w) ≠ pw_nfd w → 0 ≤ pw_nfd w →
  ∃ w' q ino, psfs_sync_prune w = Some (true, w') ∧ quiet w' ∧ ps_inv (pw_ps w') ∧ psfs_fd (pw_ps w') = pw_nfd w ∧
    fd_view w' (pw_nfd w) ino (journal (nonempty (psfs_root (pw_ps w)))) q false true ∧
    d_names (pw_disk w') !! (p, psfs_name (pw_ps w)) = Some ino ∧ pw_nfd w' = pw_nfd w + 1 ∧ pw_dirs w' = pw_dirs w ∧
    psfs_root (pw_ps w') = set_clean <$> nonempty (psfs_root (pw_ps w)) ∧ psfs_name (pw_ps w') = psfs_name (pw_ps w) ∧
    psfs_dirfd (pw_ps w') = Some p ∧ psfs_flags (pw_ps w') = psfs_flags (pw_ps w).
Proof.
  intros [Hc Hw] Hp Hfl Hd Hfd Hn. unfold psfs_sync_prune, mbind, M_bind, gets.
  destruct (Z.eqb_spec (Z.land (psfs_flags (pw_ps w)) OSP_PS_WRITE) 0); [done|]. rewrite Hd.
  unfold sys_unlinkat, mbind, M_bind. rewrite sys_ok_calm by done. unfold modify.
  set (t := tmp_name (psfs_name (pw_ps w))). set (w0 := with_disk _ w).
  assert (calm w0) as Hc0 by done. assert (d_names (pw_disk w0) !! (p, t) = None) as Ht by apply lookup_delete_eq.
  rewrite (openat_new w0 p t true false true Hc0 Ht). change (pw_nfd w0) with (pw_nfd w).
  destruct (Z.ltb_spec (pw_nfd w) 0); [lia|]. set (w1 := created w0 p t false true).
  rewrite (lock_quiet w1) by (by split). cbn [negb].
  destruct (prune_loop_calm (pw_nfd w) (d_next (pw_disk w0)) false (psfs_root (pw_ps w)) [] [] 0 w1)
    as (w2 & q & E & Hf & Hc2 & Hp2 & Hv2 & Hr2); [exact (view_created w0 p t false true)|done..|]. rewrite E.
  rewrite (sys_ok_calm w2) by done. cbn [negb]. unfold sys_renameat, mbind, M_bind, gets. rewrite (sys_ok_calm w2) by done.
  rewrite (fr_names _ _ _ _ Hf). change (d_names (pw_disk w1)) with (<[(p, t) := d_next (pw_disk w0)]> (d_names (pw_disk w0))).
  rewrite lookup_insert_eq. cbn [negb]. unfold modify. set (w3 := with_disk _ w2).
  assert (calm w3) as Hc3 by done. unfold psfs_file_unlock, sys_close, modify, mret, M_ret. cbn [negb]. rewrite (sys_ok_calm w3) by done.
  cbn [negb]. rewrite (sys_ok_calm w3) by done. eexists _, q, (d_next (pw_disk w0)). split; [done|]. destruct Hf. split_and!; try done.
  - split; [done|]. cbn. by rewrite fr_wait0.
  - destruct Hp2 as [? ? ?]. by split.
  - destruct Hv2 as [Hv2 Hv2']. split; [|done]. cbn. rewrite lookup_delete_ne by done. exact Hv2.
  - cbn. apply lookup_insert_eq.
  - cbn. by rewrite fr_dirfd0.
Qed.
