(* ===== verification/PsfsSpec.v ===== *)
(** The persistent store as a map on disk and a map in memory. *)
From Stdlib Require Import Sorting.Sorted.
From S2P Require Import Prelude DsTreeInv KeySeq Psfs PsfsRec PsfsRead PsfsLoad PsfsSync.
Local Open Scope Z_scope.

(** *** The specification *)

Abbreviation kvmap := (gmap (list Z) (list Z)).
(** What is on disk, what the process that has the store open sees, and whether it has erased
    the store since the last sync. *)
Record astore := AStore { a_disk : kvmap; a_mem : option kvmap; a_erased : bool }.
Inductive pop :=
  | POpen | PSet (k : list Z) (v : option (list Z)) | PGet (k : list Z) (n : nat) | PSync (force : bool) | PErase | PClose | PCrash.
Inductive pans := ABool (b : bool) | ANum (z : Z) | AData (z : Z) (l : list Z) | ANone.
Definition kv_set (k v : list Z) (m : kvmap) : kvmap := match v with [] => delete k m | _ => <[k := v]> m end.
(** [None] for calls the interface does not allow: on a store that is not open, or a
    second [POpen].  The disk changes with a sync and with closing only; what it holds when the
    process stops between an erase and the next sync is left open ([None], too). *)
Definition spec_step (op : pop) (a : astore) : option (pans * astore) :=
  match op, a_mem a with
  | PCrash, _ => if a_erased a then None else Some (ANone, AStore (a_disk a) None false)
  | POpen, None => Some (ABool true, AStore (a_disk a) (Some (a_disk a)) false)
  | PSet k v, Some m =>
      Some (ANum (Zlen (default [] v)), AStore (a_disk a) (Some (kv_set k (default [] v) m)) (a_erased a))
  | PGet k n, Some m => Some (match m !! k with Some d => AData (Zlen d) (take n d) | None => AData 0 [] end, a)
  | PSync _, Some m => Some (ABool true, AStore m (Some m) false)
  | PErase, Some _ => Some (ABool true, AStore (a_disk a) (Some ∅) true)
  | PClose, Some m => Some (ABool true, AStore m None false)
  | _, _ => None
  end.
Fixpoint spec_run (ops : list pop) (a : astore) : option (list pans * astore) :=
  match ops with
  | [] => Some ([], a)
  | op :: ops => '(x, a) ← spec_step op a; '(xs, a) ← spec_run ops a; Some (x :: xs, a)
  end.

(** *** The calls of the store *)

Section store.
Context (pres : bool) (name : string).

Definition ps_flags : Z := if pres then 7 else 3.
(** The fuel of the loops of [osp_ps_open]: more than the bytes of the file. *)
Definition open_fuel (w : pworld) : nat :=
  match d_names (pw_disk w) !! (pres, name) with
  | Some ino => S (length (default [] (d_files (pw_disk w) !! ino)))
  | None => 1
  end.
(** The process ends without a chance to do anything. *)
Definition power_loss : PS unit :=
  modify (λ w, PWorld (pw_disk w) ∅ (pw_nfd w) (pw_plan w) (pw_wait w) (PsfsDir 0 None, PsfsDir 0 None) PSFS_INIT).
Definition run_op (op : pop) : PS pans :=
  match op with
  | POpen => fuel ← gets open_fuel; b ← osp_ps_open fuel name ps_flags; mret (ABool b)
  | PSet k v => z ← osp_ps_set k v; mret (ANum z)
  | PGet k n => '(z, l) ← osp_ps_get k n; mret (AData z l)
  | PSync force => b ← psfs_sync force; mret (ABool b)
  | PErase => b ← osp_ps_erase; mret (ABool b)
  | PClose => b ← osp_ps_close; mret (ABool b)
  | PCrash => power_loss;; mret ANone
  end.
Fixpoint run_ops (ops : list pop) : PS (list pans) :=
  match ops with
  | [] => mret []
  | op :: ops => x ← run_op op; xs ← run_ops ops; mret (x :: xs)
  end.
(** Keys are C strings and records fit the size in front of them. *)
Definition op_ok (op : pop) : Prop :=
  match op with PSet k v => rec_ok (new_record k (default [] v)) | _ => True end.

(** *** Representation *)

Definition file_ok (d : disk) (ino : nat) (D : kvmap) : Prop :=
  ∃ rs, d_files d !! ino = Some (journal rs) ∧ Forall rec_ok rs ∧ ∀ k, replay rs k = D !! k.
Record closed_inv (w : pworld) (D : kvmap) : Prop := ClosedInv {
  cl_quiet : quiet w; cl_nfd : 0 ≤ pw_nfd w; cl_ref : psd_ref (get_dir pres w) = 0;
  cl_file : match d_names (pw_disk w) !! (pres, name) with Some ino => file_ok (pw_disk w) ino D | None => D = ∅ end }.
Definition value_of (r : psfs_record) : option (list Z) := if decide (pr_data r = []) then None else Some (pr_data r).
Record open_inv (w : pworld) (D Mm : kvmap) : Prop := OpenInv {
  op_quiet : quiet w; op_nfd : 0 ≤ psfs_fd (pw_ps w) < pw_nfd w; op_dir : get_dir pres w = PsfsDir 1 (Some pres);
  op_ps : ps_inv (pw_ps w); op_recs : Forall rec_ok (psfs_root (pw_ps w));
  op_name : psfs_name (pw_ps w) = name; op_dirfd : psfs_dirfd (pw_ps w) = Some pres; op_flags : psfs_flags (pw_ps w) = ps_flags;
  op_mem : ∀ k, live (psfs_root (pw_ps w)) k = Mm !! k;
  op_clean : ∀ r, r ∈ psfs_root (pw_ps w) → pr_dirty r = false → D !! pr_key r = value_of r;
  op_loaded : ∀ k, rec_find k (psfs_root (pw_ps w)) = None → D !! k = None;
  op_file : ∃ ino p rd rs, fd_view w (psfs_fd (pw_ps w)) ino (journal rs) p rd true ∧
    d_names (pw_disk w) !! (pres, name) = Some ino ∧ Forall rec_ok rs ∧ ∀ k, replay rs k = D !! k }.
Definition store_inv (w : pworld) (a : astore) : Prop :=
  match a_mem a with
  | None => closed_inv w (a_disk a) ∧ a_erased a = false
  | Some m => open_inv w (if a_erased a then ∅ else a_disk a) m
  end.

(** *** Replaying a journal *)

Definition replay1 (k : list Z) (v : option (list Z)) (r : psfs_record) : option (list Z) :=
  if decide (k = pr_key r) then value_of r else v.
Lemma replay_app rs ds k : replay (rs ++ ds) k = foldl (replay1 k) (replay rs k) ds.
Proof. unfold replay. by rewrite foldl_app. Qed.
Lemma replay_skip k v ds : Forall (λ r, pr_key r ≠ k) ds → foldl (replay1 k) v ds = v.
Proof.
  intros H. revert v. induction H as [|r ds Hr _ IH]; intros v; [done|]. simpl. unfold replay1 at 2.
  rewrite decide_False by congruence. apply IH.
Qed.
Lemma replay_hit r v ds : NoDup (pr_key <$> ds) → r ∈ ds → foldl (replay1 (pr_key r)) v ds = value_of r.
Proof.
  intros Hn Hr. revert v. induction ds as [|x ds IH]; intros v; [by apply not_elem_of_nil in Hr|].
  rewrite fmap_cons in Hn. apply NoDup_cons in Hn as [Hx Hn]. simpl. unfold replay1 at 2.
  apply elem_of_cons in Hr as [->|Hr]; [|by apply IH]. rewrite decide_True by done.
  apply replay_skip, Forall_forall. intros y Hy E. apply Hx. rewrite <- E. by apply list_elem_of_fmap_2.
Qed.
Lemma live_elem r l : ks_sorted memcmp pr_key l → r ∈ l → live l (pr_key r) = value_of r.
Proof. intros Hs Hr. unfold live. by rewrite rec_find_elem. Qed.
Lemma live_none k l : rec_find k l = None → live l k = None.
Proof. unfold live. by intros ->. Qed.
(** The records of a part of the tree decide the keys they have. *)
Lemma replay_part (P : psfs_record → Prop) `{!∀ r, Decision (P r)} l v k :
  ks_sorted memcmp pr_key l → (∀ r, r ∈ l → ¬ P r → pr_key r = k → v = value_of r) →
  (rec_find k l = None → v = None) → foldl (replay1 k) v (filter P l) = live l k.
Proof.
  intros Hs Hv Hn. destruct (rec_find k l) as [r|] eqn:E.
  - apply rec_find_some in E as [Hr <-]. rewrite (live_elem r) by done. destruct (decide (P r)) as [HP|HP].
    + apply replay_hit; [by apply sorted_keys_nodup, ks_sorted_filter|by apply list_elem_of_filter].
    + rewrite replay_skip; [by apply Hv|]. apply Forall_forall. intros x [HPx Hx]%list_elem_of_filter Ex.
      pose proof (rec_find_elem _ _ Hs Hx) as H1. rewrite Ex, (rec_find_elem _ _ Hs Hr) in H1. congruence.
  - rewrite (live_none _ _ E), replay_skip; [by apply Hn|]. rewrite rec_find_none in E.
    rewrite Forall_forall in E |- *. intros x [_ Hx]%list_elem_of_filter. by apply E.
Qed.

(** *** The calls *)

Lemma live_clean l k : live (set_clean <$> l) k = live l k.
Proof.
  unfold live, rec_find. induction l as [|r l IH]; [done|]. rewrite fmap_cons, !ks_get_cons. cbn [pr_key set_clean].
  by destruct (decide _).
Qed.
Lemma rec_ok_clean l : Forall rec_ok l → Forall rec_ok (set_clean <$> l).
Proof. intros H. rewrite Forall_fmap. apply (Forall_impl _ _ _ H). intros r []. by split. Qed.
Lemma flags_write : Z.land ps_flags OSP_PS_WRITE ≠ 0.
Proof. unfold ps_flags. by destruct pres. Qed.
Lemma flags_read : Z.land ps_flags OSP_PS_READ ≠ 0.
Proof. unfold ps_flags. by destruct pres. Qed.
Lemma flags_preserve : negb (Z.land ps_flags OSP_PS_PRESERVE =? 0) = pres.
Proof. unfold ps_flags. by destruct pres. Qed.

Lemma set_ok w D Mm k v : open_inv w D Mm → rec_ok (new_record k (default [] v)) → ∃ w',
  osp_ps_set k v w = Some (Zlen (default [] v), w') ∧ open_inv w' D (kv_set k (default [] v) Mm).
Proof.
  intros H Hok. unfold osp_ps_set. rewrite psfs_set_run by (rewrite ?(op_flags _ _ _ H); apply flags_write || apply H).
  eexists. split; [done|]. set (x := default [] v) in *. destruct (ps_set_other k x (pw_ps w)) as (Hn & Hfd & Hd & Hf).
  pose proof (op_ps _ _ _ H) as Hp. pose proof (ps_set_inv k x _ Hp) as Hp'.
  assert (∀ r, r ∈ psfs_root (ps_set k x (pw_ps w)) → r = new_record k x ∨ r ∈ psfs_root (pw_ps w)) as Hel.
  { intros r Hr. pose proof (rec_find_elem _ _ (inv_sorted _ Hp') Hr) as Hfr. rewrite ps_set_find in Hfr by done.
    destruct (decide _); [left; congruence|right]. by apply rec_find_some in Hfr as [? _]. }
  destruct H as [Hq Hnf Hdir _ Hrs Hnm Hdf Hfl Hm Hcl Hld Hfile].
  split; cbn [with_ps pw_ps]; rewrite ?Hn, ?Hfd, ?Hd, ?Hf; try done.
  - apply Forall_forall. intros r [->|Hr]%Hel; [done|]. rewrite Forall_forall in Hrs. by apply Hrs.
  - intros j. rewrite live_set by done. rewrite Hm. unfold kv_set. destruct (decide (j = k)) as [->|Hne].
    + destruct x; [by rewrite decide_True, lookup_delete_eq|by rewrite decide_False, lookup_insert_eq].
    + destruct x; [by rewrite lookup_delete_ne|by rewrite lookup_insert_ne].
  - intros r [->|Hr]%Hel; [done|]. by apply Hcl.
  - intros j. rewrite ps_set_find by done. destruct (decide _); [done|]. apply Hld.
  - destruct Hfile as (ino & p & rd & rs & Hv & Hrest). exists ino, p, rd, rs. split; [|done]. by apply view_ps.
Qed.
Lemma get_ok w D Mm k n : open_inv w D Mm →
  osp_ps_get k n w = Some (match Mm !! k with Some d => (Zlen d, take n d) | None => (0, []) end, w).
Proof.
  intros H. unfold osp_ps_get. rewrite psfs_get_run by (rewrite (op_flags _ _ _ H); apply flags_read).
  by rewrite (op_mem _ _ _ H).
Qed.
(** After a sync every record of the tree is on disk. *)
Lemma clean_after (l : list psfs_record) (m : kvmap) : ks_sorted memcmp pr_key l → (∀ k, live l k = m !! k) →
  (∀ r, r ∈ l → pr_dirty r = false → m !! pr_key r = value_of r) ∧ (∀ k, rec_find k l = None → m !! k = None).
Proof. intros Hs Hm. split; [intros r Hr _|intros k Hk]; rewrite <- Hm; [by apply live_elem|by apply live_none]. Qed.
Lemma append_ok w D Mm : open_inv w D Mm → ∃ w', psfs_sync_append w = Some (true, w') ∧ open_inv w' Mm Mm ∧
  Forall (λ r, pr_dirty r = false) (psfs_root (pw_ps w')).
Proof.
  intros [[Hc Hw] Hnf Hdir Hp Hrs Hnm Hdf Hfl Hm Hcl Hld (ino & p & rd & rs & Hv & Hname & Hok & Hrep)].
  destruct (sync_append_calm _ _ _ _ _ _ Hv Hc (aligned_journal rs) Hp) as (w' & q & E & Hf & Hc' & Hp' & Hv' & Hr');
    [by rewrite Hfl; apply flags_write|done|]. exists w'. split; [done|].
  assert (∀ k, live (psfs_root (pw_ps w')) k = Mm !! k) as Hm' by (intros k; by rewrite Hr', live_clean).
  destruct (clean_after _ _ (inv_sorted _ Hp') Hm') as [Hcl' Hld']. destruct Hf as [Hfn _ _ _ Hfnf Hfdir Hfw Hfnm Hffd Hfdf Hffl].
  split.
  - split; rewrite ?Hfn, ?Hfnf, ?Hfnm, ?Hffd, ?Hfdf, ?Hffl; try done.
    + split; [done|by rewrite Hfw].
    + unfold get_dir. by rewrite Hfdir.
    + rewrite Hr'. by apply rec_ok_clean.
    + exists ino, q, rd, (rs ++ dirties (psfs_root (pw_ps w))). rewrite journal_app. split_and!; [done..| |].
      * apply Forall_app. split; [done|]. rewrite Forall_forall in Hrs |- *. intros r [_ Hr]%list_elem_of_filter. by apply Hrs.
      * intros k. rewrite replay_app, <- Hm, Hrep. apply replay_part; [apply Hp| |apply Hld].
        intros r Hr Hd <-. apply Hcl; [done|]. by destruct (pr_dirty r).
  - rewrite Hr', Forall_fmap. apply Forall_forall. by intros.
Qed.
Lemma prune_ok w D Mm : open_inv w D Mm → ∃ w', psfs_sync_prune w = Some (true, w') ∧ open_inv w' Mm Mm ∧
  Forall (λ r, pr_dirty r = false) (psfs_root (pw_ps w')).
Proof.
  intros [Hq Hnf Hdir Hp Hrs Hnm Hdf Hfl Hm Hcl Hld Hfile].
  destruct (sync_prune_calm w pres Hq Hp) as (w' & q & ino & E & Hq' & Hp' & Hfd' & Hv' & Hn' & Hnf' & Hdir' & Hr' & Hnm' & Hdf' & Hfl');
    [by rewrite Hfl; apply flags_write|done|lia|lia|]. exists w'. split; [done|].
  assert (∀ k, live (nonempty (psfs_root (pw_ps w))) k = Mm !! k) as Hml.
  { intros k. rewrite <- Hm. unfold live, rec_find, nonempty. rewrite (ks_get_filter memcmp) by (apply _ || apply Hp).
    destruct (ks_get _ _ _ _) as [r|]; [|done]. cbn. destruct (decide (pr_data r = [])) as [Ed|Ed].
    - rewrite decide_False by naive_solver. done.
    - rewrite decide_True by done. cbn. by rewrite decide_False. }
  assert (∀ k, live (psfs_root (pw_ps w')) k = Mm !! k) as Hm' by (intros k; by rewrite Hr', live_clean).
  destruct (clean_after _ _ (inv_sorted _ Hp') Hm') as [Hcl' Hld'].
  assert (Forall rec_ok (nonempty (psfs_root (pw_ps w)))) as Hok.
  { rewrite Forall_forall in Hrs |- *. intros r [_ Hr]%list_elem_of_filter. by apply Hrs. }
  split.
  - split; rewrite ?Hfd', ?Hnf', ?Hnm', ?Hdf', ?Hfl'; try done; [lia| | |].
    + unfold get_dir. by rewrite Hdir'.
    + rewrite Hr'. by apply rec_ok_clean.
    + exists ino, q, false, (nonempty (psfs_root (pw_ps w))). split_and!; [done|by rewrite Hnm in Hn'|done|].
      intros k. change (replay (nonempty (psfs_root (pw_ps w))) k) with (foldl (replay1 k) None (nonempty (psfs_root (pw_ps w)))).
      rewrite <- Hm. apply replay_part; [apply Hp| |done]. intros r Hr Hd <-. unfold value_of. rewrite decide_True; [done|]. by apply dec_stable.
  - rewrite Hr', Forall_fmap. apply Forall_forall. by intros.
Qed.
Lemma sync_ok w D Mm force : open_inv w D Mm → ∃ w', psfs_sync force w = Some (true, w') ∧ open_inv w' Mm Mm ∧
  Forall (λ r, pr_dirty r = false) (psfs_root (pw_ps w')).
Proof.
  intros H. unfold psfs_sync, mbind, M_bind, gets. rewrite (op_flags _ _ _ H).
  destruct (Z.eqb_spec (Z.land ps_flags OSP_PS_WRITE) 0) as [E|_]; [by apply flags_write in E|].
  destruct (op_file _ _ _ H) as (ino & p & rd & rs & Hv & _).
  rewrite (sys_fstat_calm _ _ _ _ _ _ _ Hv) by apply H. destruct (_ || _); [by eapply prune_ok|by eapply append_ok].
Qed.

Lemma drop_loop_run l : ∀ w, psfs_root (pw_ps w) = l → ps_inv (pw_ps w) → ∃ p,
  drop_loop l w = Some (existsb pr_dirty l, with_ps (λ _, p) w) ∧ psfs_root p = [] ∧ ps_inv p ∧
  psfs_name p = psfs_name (pw_ps w) ∧ psfs_fd p = psfs_fd (pw_ps w) ∧ psfs_dirfd p = psfs_dirfd (pw_ps w) ∧ psfs_flags p = psfs_flags (pw_ps w).
Proof.
  induction l as [|r l IH]; intros w Hr Hp.
  { exists (pw_ps w). split_and!; [|done..]. by destruct w. }
  assert (r ∈ psfs_root (pw_ps w)) as Hin by (rewrite Hr; set_solver).
  cbn [drop_loop existsb]. unfold mbind, M_bind. rewrite psfs_drop_record_run by (done || apply Hp).
  destruct (ps_drop_root r (pw_ps w) (inv_sorted _ Hp) Hin) as (i & Hi & Er & _).
  assert (i = 0%nat) as ->. { apply (sorted_distinct (psfs_root (pw_ps w)) _ _ r r); [apply Hp|done|by rewrite Hr|done]. }
  destruct (ps_drop_other r (pw_ps w)) as (Hn & Hfd & Hd & Hf).
  destruct (IH (with_ps (λ _, ps_drop r (pw_ps w)) w)) as (p & E & Hroot & Hinv & H1 & H2 & H3 & H4).
  - change (psfs_root (ps_drop r (pw_ps w)) = l). by rewrite Er, Hr.
  - by apply ps_drop_inv.
  - exists p. rewrite E. cbn [with_ps pw_ps] in *. split_and!; [done|done|done|congruence..].
Qed.
Lemma erase_ok w D Mm : open_inv w D Mm → ∃ w', osp_ps_erase w = Some (true, w') ∧ open_inv w' ∅ ∅.
Proof.
  intros [[Hc Hw] Hnf Hdir Hp Hrs Hnm Hdf Hfl Hm Hcl Hld (ino & p & rd & rs & Hv & Hname & Hok & Hrep)].
  unfold osp_ps_erase, psfs_erase, mbind, M_bind, gets. rewrite Hfl.
  destruct (Z.eqb_spec (Z.land ps_flags OSP_PS_WRITE) 0) as [E|_]; [by apply flags_write in E|].
  unfold sys_ftruncate, mbind, M_bind. rewrite sys_run, tail_calm by done. unfold gets. rewrite (view_data _ _ _ _ _ _ _ Hv).
  unfold calm in Hc. rewrite Hc. cbn [head from_option id of_wr negb of_ino]. unfold set_file, modify, sys_seek, mret, M_ret.
  cbn [negb]. rewrite set_pos_run. change (Z.to_nat 0) with (length (@nil Z)).
  change (adv _ (with_disk _ w) _ 0) with (grow (psfs_fd (pw_ps w)) ino [] w). set (w1 := grow _ _ _ w).
  destruct (drop_loop_run (psfs_root (pw_ps w)) w1 eq_refl Hp) as (p' & -> & Hr' & Hp' & H1 & H2 & H3 & H4).
  eexists. split; [done|]. split; cbn [with_ps pw_ps]; rewrite ?Hr', ?H1, ?H2, ?H3, ?H4; try done.
  - intros r Hr. by apply not_elem_of_nil in Hr.
  - exists ino, 0%nat, rd, []. split_and!; [|done..]. apply view_ps. by apply (view_grow _ _ _ _ _ _ _ []) in Hv.
Qed.
Lemma dir_close_ok w fd : calm w → get_dir pres w = PsfsDir 1 fd →
  ∃ d, psfs_dir_close pres w = Some (true, with_dirs d w) ∧ psd_ref (if pres then d.2 else d.1) = 0.
Proof.
  intros Hc Hd. unfold psfs_dir_close, mbind, M_bind, gets. rewrite Hd. cbn [psd_ref Z.eqb]. unfold set_dir, modify.
  cbn. eexists. rewrite sys_ok_calm by done. split; [done|]. by destruct pres.
Qed.
Lemma existsb_clean l : Forall (λ r, pr_dirty r = false) l → existsb pr_dirty l = false.
Proof. induction 1 as [|r l Hr _ IH]; [done|]. simpl. by rewrite Hr. Qed.
Lemma close_ok w D Mm : open_inv w D Mm → ∃ w', osp_ps_close w = Some (true, w') ∧ closed_inv w' Mm.
Proof.
  intros H. destruct (sync_ok _ _ _ false H) as (w1 & E & H1 & Hclean). unfold osp_ps_close, psfs_close, mbind, M_bind. rewrite E.
  clear H. destruct H1 as [[Hc Hw] Hnf Hdir Hp Hrs Hnm Hdf Hfl Hm Hcl Hld (ino & p & rd & rs & Hv & Hname & Hok & Hrep)].
  unfold psfs_file_unlock. rewrite sys_ok_calm by done. unfold gets.
  destruct (Z.leb_spec 0 (psfs_fd (pw_ps w1))); [|lia]. unfold sys_close, modify, mret, M_ret.
  set (w2 := with_fds _ w1). destruct (drop_loop_run (psfs_root (pw_ps w1)) w2 eq_refl Hp) as (p' & -> & _ & _ & H1 & H2 & H3 & H4).
  set (w3 := with_ps _ w2). rewrite Hfl, flags_preserve.
  destruct (dir_close_ok w3 (Some pres)) as (d & -> & Hd); [done|exact Hdir|].
  rewrite (existsb_clean _ Hclean). eexists. split; [done|]. split.
  - by split.
  - cbn. lia.
  - unfold get_dir. cbn. by destruct pres.
  - cbn. rewrite Hname. exists rs. split_and!; [apply Hv|done..].
Qed.
Lemma crash_ok w D Mm : open_inv w D Mm → ∃ w', power_loss w = Some (tt, w') ∧ closed_inv w' D.
Proof.
  intros [[Hc Hw] Hnf Hdir Hp Hrs Hnm Hdf Hfl Hm Hcl Hld (ino & p & rd & rs & Hv & Hname & Hok & Hrep)].
  eexists. split; [done|]. split; cbn; [by split|lia|by destruct pres|]. rewrite Hname. exists rs. split_and!; [apply Hv|done..].
Qed.
Lemma crash_closed_ok w D : closed_inv w D → ∃ w', power_loss w = Some (tt, w') ∧ closed_inv w' D.
Proof. intros [[Hc Hw] Hnf Href Hfile]. eexists. split; [done|]. split; cbn; [by split|lia|by destruct pres|done]. Qed.

(** *** Opening *)

Lemma ps_load_elem rs : ∀ p r, ps_inv p → r ∈ psfs_root (ps_load p rs) → r ∈ rs ∨ r ∈ psfs_root p.
Proof.
  induction rs as [|x rs IH]; intros p r Hp Hr; [by right|]. cbn [ps_load foldl] in Hr.
  pose proof (ps_load1_inv x p Hp) as Hp1. destruct (IH (ps_load1 x p) r Hp1 Hr) as [H|H]; [set_solver|].
  pose proof (rec_find_elem _ _ (inv_sorted _ Hp1) H) as Hf. rewrite ps_load1_find in Hf by done.
  destruct (decide (pr_key r = pr_key x)); [|by apply rec_find_some in Hf as [? _]; right].
  destruct (decide _); simplify_eq. left. set_solver.
Qed.
Lemma dir_open_ok w : calm w → psd_ref (get_dir pres w) = 0 → ∃ d, psfs_dir_open pres w = Some (Some pres, with_dirs d w) ∧
  (if pres then d.2 else d.1) = PsfsDir 1 (Some pres).
Proof.
  intros Hc Hr. unfold psfs_dir_open, mbind, M_bind, gets. rewrite Hr. cbn [Z.eqb]. rewrite sys_ok_calm by done.
  cbn [negb]. rewrite sys_ok_calm by done. unfold set_dir, modify, mret, M_ret, get_dir. destruct pres; cbn; eauto.
Qed.
Definition fresh_ps (fd : Z) : psfs := Psfs name fd (Some pres) ps_flags [] None 0.
(** [psfs_open] on a store that exists, or that it makes. *)
Lemma open_ok w D fuel : closed_inv w D → (String.length name ≤ 63)%nat → (0 < fuel)%nat → ∃ w' ino rs,
  psfs_open fuel name ps_flags w = Some (true, w') ∧ quiet w' ∧ pw_nfd w' = pw_nfd w + 1 ∧ get_dir pres w' = PsfsDir 1 (Some pres) ∧
  pw_ps w' = fresh_ps (pw_nfd w) ∧ fd_view w' (pw_nfd w) ino (journal rs) 0 true true ∧
  d_names (pw_disk w') !! (pres, name) = Some ino ∧ Forall rec_ok rs ∧ (∀ k, replay rs k = D !! k) ∧ S (length (journal rs)) = open_fuel w.
Proof.
  intros [Hq Hnf Href Hfile] Hlen Hfuel. destruct fuel as [|fuel]; [lia|].
  unfold psfs_open, mbind, M_bind, modify, gets. destruct (Z.eqb_spec (Z.land ps_flags OSP_PS_RDWR) 0) as [E|_].
  { unfold ps_flags in E. by destruct pres. }
  rewrite flags_preserve. destruct (dir_open_ok (with_ps (λ _, PSFS_INIT) w)) as (d & -> & Hd); [apply Hq|done|].
  rewrite substring_full by done. set (w1 := with_ps _ (with_dirs d _)).
  assert (calm w1) as Hc1 by apply Hq. cbn [open_retry]. unfold mbind, M_bind, gets, modify.
  change (psfs_dirfd (pw_ps w1)) with (Some pres).
  assert (negb (Z.land ps_flags OSP_PS_WRITE =? 0) = true) as -> by (unfold ps_flags; by destruct pres).
  assert (∃ w2 ino rs, sys_openat (Some pres) name true false true true w1 = Some (pw_nfd w, w2) ∧ quiet w2 ∧
    pw_nfd w2 = pw_nfd w + 1 ∧ pw_dirs w2 = d ∧ fd_view w2 (pw_nfd w) ino (journal rs) 0 true true ∧
    d_names (pw_disk w2) !! (pres, name) = Some ino ∧ Forall rec_ok rs ∧ (∀ k, replay rs k = D !! k) ∧
    S (length (journal rs)) = open_fuel w ∧ pw_ps w2 = fresh_ps (-1)) as (w2 & ino & rs & -> & Hq2 & Hn2 & Hd2 & Hv2 & Hnm & Hok & Hrep & Hfu & Hps).
  { unfold open_fuel. destruct (d_names (pw_disk w) !! (pres, name)) as [ino|] eqn:En.
    - destruct Hfile as (rs & Hrs & Hok & Hrep). exists (opened w1 ino true true), ino, rs.
      rewrite (openat_old w1 pres name true true true ino) by done. rewrite Hrs.
      split_and!; try done. by apply (view_opened w1).
    - exists (created w1 pres name true true), (d_next (pw_disk w)), []. rewrite (openat_new w1 pres name false true true) by done.
      split_and!; try done; [apply (view_created w1 pres name true true)|apply lookup_insert_eq|by rewrite Hfile]. }
  destruct (Z.ltb_spec (pw_nfd w) 0); [lia|]. set (w3 := with_ps _ w2). assert (quiet w3) as Hq3 by done.
  rewrite (lock_quiet w3) by done. cbn [negb]. unfold sys_fd_ino, sys_name_ino, mbind, M_bind, gets.
  rewrite !(sys_ok_calm w3) by apply Hq3. change (pw_fds w3) with (pw_fds w2). rewrite (view_fd _ _ _ _ _ _ _ Hv2). cbn [fmap option_fmap option_map of_ino].
  unfold mret, M_ret. cbv beta iota. rewrite (sys_ok_calm w3) by apply Hq3. change (d_names (pw_disk w3)) with (d_names (pw_disk w2)).
  cbn [option_bind mbind]. rewrite Hnm, Nat.eqb_refl. exists w3, ino, rs. split_and!; try done.
  - unfold get_dir. change (pw_dirs w3) with (pw_dirs w2). rewrite Hd2. by destruct pres.
  - unfold w3. cbn. by rewrite Hps.
  - by apply view_ps.
Qed.
Lemma replay_as_read rs k : replay (as_read <$> rs) k = replay rs k.
Proof.
  assert (∀ v, foldl (replay1 k) v (as_read <$> rs) = foldl (replay1 k) v rs) as H; [|apply H].
  induction rs as [|r rs IH]; intros v; [done|]. apply IH.
Qed.
Lemma ps_open_ok w D : closed_inv w D → (String.length name ≤ 63)%nat → ∃ w',
  osp_ps_open (open_fuel w) name ps_flags w = Some (true, w') ∧ open_inv w' D D.
Proof.
  intros Hcl Hlen. destruct (open_ok w D (open_fuel w) Hcl Hlen) as (w1 & ino & rs & E & [Hc1 Hw1] & Hn1 & Hd1 & Hps1 & Hv1 & Hnm1 & Hok & Hrep & Hfu).
  { unfold open_fuel. destruct (_ !! _); lia. }
  assert (ps_inv (fresh_ps (pw_nfd w))) as Hinv by (split; [constructor|done..]).
  destruct (psfs_load_calm _ _ w1 (pw_nfd w) ino true (open_fuel w) (loads_journal rs Hok) Hv1 Hc1) as (q & El);
    [by rewrite Hps1|by rewrite Hps1|lia|].
  unfold osp_ps_open, mbind, M_bind. rewrite E. cbn [negb]. rewrite El. cbn [negb]. eexists. split; [done|].
  rewrite Hps1. set (p := ps_load (fresh_ps (pw_nfd w)) (as_read <$> rs)).
  assert (ps_inv p) as Hp by by apply ps_load_inv. destruct (ps_load_other (as_read <$> rs) (fresh_ps (pw_nfd w))) as (H1 & H2 & H3 & H4).
  fold p in H1, H2, H3, H4. assert (∀ k, live (psfs_root p) k = D !! k) as Hl by (intros k; by rewrite <- Hrep, <- replay_as_read, <- (ps_load_replay _ (fresh_ps (pw_nfd w)))).
  destruct (clean_after _ _ (inv_sorted _ Hp) Hl) as [Hclean Hload]. pose proof (cl_nfd _ _ Hcl).
  split; try done.
  - change (0 ≤ psfs_fd p < pw_nfd w1). rewrite H2, Hn1. cbn. lia.
  - by apply ps_rewind_inv.
  - apply Forall_forall. intros r Hr. destruct (ps_load_elem _ _ _ Hinv Hr) as [(x & -> & Hx)%list_elem_of_fmap|H5%not_elem_of_nil]; [|done].
    rewrite Forall_forall in Hok. destruct (Hok _ Hx). by split.
  - exists ino, q, true, rs. split_and!; [|done..]. change (fd_view (adv (pw_nfd w) (with_ps (λ _, ps_rewind p) w1) q 0) (psfs_fd p) ino (journal rs) q true true).
    rewrite H2. eapply view_adv, view_ps. exact Hv1.
Qed.

(** *** Sequences of calls *)

Lemma step_ok w a op ans a' : (String.length name ≤ 63)%nat → store_inv w a → op_ok op → spec_step op a = Some (ans, a') →
  ∃ w', run_op op w = Some (ans, w') ∧ store_inv w' a'.
Proof.
  intros Hlen Hi Hop Hs. unfold store_inv in *. destruct a as [D [Mm|] er]; cbn [a_mem a_disk a_erased] in *.
  - destruct op as [|k v|k n|force| | |]; simplify_eq/=; unfold mbind, M_bind.
    + destruct (set_ok _ _ _ _ _ Hi Hop) as (w' & -> & H). eauto.
    + rewrite (get_ok _ _ _ _ _ Hi). destruct (Mm !! k); eauto.
    + destruct (sync_ok _ _ _ force Hi) as (w' & -> & H & _). eauto.
    + destruct (erase_ok _ _ _ Hi) as (w' & -> & H). eauto.
    + destruct (close_ok _ _ _ Hi) as (w' & -> & H). eauto.
    + destruct er; [done|]. injection Hs as <- <-. destruct (crash_ok _ _ _ Hi) as (w' & -> & H). by exists w'.
  - destruct Hi as [Hi ->]. destruct op as [|k v|k n|force| | |]; simplify_eq/=; unfold mbind, M_bind.
    + unfold gets. destruct (ps_open_ok _ _ Hi Hlen) as (w' & -> & H). eauto.
    + destruct (crash_closed_ok _ _ Hi) as (w' & -> & H). eauto.
Qed.
Lemma psfs_run_ok ops : (String.length name ≤ 63)%nat → Forall op_ok ops → ∀ w a xs a', store_inv w a → spec_run ops a = Some (xs, a') →
  ∃ w', run_ops ops w = Some (xs, w') ∧ store_inv w' a'.
Proof.
  intros Hlen Hops. induction Hops as [|op ops Hop _ IH]; intros w a xs a' Hi Hs; simplify_eq/=; [eauto|].
  destruct (spec_step op a) as [[x a1]|] eqn:E1; simplify_eq/=. destruct (spec_run ops a1) as [[ys a2]|] eqn:E2; simplify_eq/=.
  destruct (step_ok _ _ _ _ _ Hlen Hi Hop E1) as (w1 & Hr1 & Hi1). destruct (IH _ _ _ _ Hi1 E2) as (w2 & Hr2 & Hi2).
  exists w2. split; [|done]. unfold mbind, M_bind. by rewrite Hr1, Hr2.
Qed.
End store.
