(* ===== verification/PsfsFault.v ===== *)
(** The persistent store when system calls fail: what a sync leaves behind, and opening a
    store while other processes replace its file. *)
From Stdlib Require Import Sorting.Sorted.
From S2P Require Import Prelude DsTreeInv KeySeq Psfs PsfsRec PsfsRead PsfsLoad PsfsSync.
Local Open Scope Z_scope.

(** *** Writing *)

(** The part of the plan that is used up is not said. *)
Lemma frame_adv fd ino w p n : frame fd ino w (adv fd w p n).
Proof. split; intros; try done. unfold adv. cbn. by rewrite lookup_alter_ne. Qed.
Lemma writev_any w fd ino c p rd b : fd_view w fd ino c p rd true →
  ∃ w' q n rc, sys_writev fd b w = Some (rc, w') ∧ frame fd ino w w' ∧ pw_ps w' = pw_ps w ∧
    fd_view w' fd ino (c ++ take n b) q rd true ∧ (rc < Zlen b ∨ (rc = Zlen b ∧ (length b ≤ n)%nat)).
Proof.
  intros Hv. pose proof (view_adv _ _ _ _ _ _ _ p 1 Hv) as Hv1. pose proof (Zlen_nonneg b).
  unfold sys_writev, mbind, M_bind. rewrite sys_run, (with_tail_adv _ _ _ _ _ _ _ Hv). unfold gets.
  rewrite (view_data _ _ _ _ _ _ _ Hv1).
  assert (∀ b' n, b' = take n b → ∃ w' q, (set_file ino (c ++ b');; set_pos fd (length c + length b');; mret (Z.of_nat (length b')))
    (adv fd w p 1) = Some (Zlen b', w') ∧ frame fd ino w w' ∧ pw_ps w' = pw_ps w ∧ fd_view w' fd ino (c ++ b') q rd true) as Hw.
  { intros b' n _. unfold set_file, modify, mbind, M_bind. rewrite set_pos_run.
    rewrite <- length_app. change (adv fd (with_disk _ ?x) _ 0) with (grow fd ino (c ++ b') x).
    eexists _, _. split; [done|]. split_and!; [|done|by eapply view_grow].
    eapply frame_trans; [apply frame_adv|apply frame_grow]. }
  destruct (default OK (head (pw_plan w))) as [|g|m]; cbn [of_wr negb of_ino].
  - destruct (Hw b (length b)) as (w' & q & E & Hf & Hps & Hv'); [by rewrite firstn_all|].
    exists w', q, (length b), (Zlen b). rewrite firstn_all. split_and!; [exact E|done..|]. right. split; [done|lia].
  - exists (adv fd w p 1), p, 0%nat, (-1). rewrite take_0, app_nil_r. split_and!; [done|apply frame_adv|done|done|lia].
  - destruct (Hw (take m b) m eq_refl) as (w' & q & E & Hf & Hps & Hv'). exists w', q, m, (Zlen (take m b)). split_and!; [exact E|done..|].
    unfold Zlen. rewrite length_take. lia.
Qed.
Lemma record_write_any w fd ino c p rd r : fd_view w fd ino c p rd true → aligned c →
  ∃ w' q n rc r', psfs_record_write fd r w = Some ((rc, r'), w') ∧ frame fd ino w w' ∧ pw_ps w' = pw_ps w ∧
    fd_view w' fd ino (c ++ take n (enc r)) q rd true ∧
    ((rc ≤ 0 ∧ r' = r) ∨ (0 < rc ∧ r' = set_clean r ∧ (length (enc r) ≤ n)%nat)).
Proof.
  intros Hv Ha. unfold psfs_record_write, mbind, M_bind.
  destruct (sys_fstat_spec _ _ _ _ _ _ _ Hv) as [[_ [g ->]]| ->]; cbv beta iota zeta; cbn [negb].
  { exists (adv fd w p 1), p, 0%nat, (-1), r. rewrite take_0, app_nil_r.
    split_and!; [done|apply frame_adv|done|by eapply view_adv|]. left. split; [lia|done]. }
  rewrite !psfs_crc32_app. change (pr_datasz r) with (Zlen (pr_data r)).
  replace (Zlen (pr_key r ++ [0]) + Zlen (pr_data r)) with (Zlen (payload r))
    by (rewrite Zlen_payload, Zlen_app; change (Zlen [0]) with 1; lia).
  replace (4 + 4 + Zlen (pr_key r ++ [0]) + Zlen (pr_data r) + 4) with (Zlen (rec_body r))
    by (rewrite Zlen_body, Zlen_payload, Zlen_app; change (Zlen [0]) with 1; lia).
  match goal with |- context [sys_writev fd ?b _] => replace b with (enc r) end.
  2: { rewrite aligned_pad by done. unfold enc, rec_body, rec_head, payload. cbn [app]. rewrite <- !app_assoc. done. }
  destruct (writev_any (adv fd w p 1) fd ino c p rd (enc r)) as (w' & q & n & rc & -> & Hf & Hps & Hv' & Hrc); [by eapply view_adv|].
  assert (padlen (Zlen c) = 0) as Hpad. { pose proof (padlen_shift (Zlen c) 0 Ha) as E. rewrite Z.add_0_r in E. by rewrite E. }
  assert (Zlen (rec_body r) + padlen (Zlen (rec_body r)) + padlen (Zlen c) = Zlen (enc r)) as ->
    by (unfold enc; rewrite Zlen_app, Zlen_wpad; lia).
  assert (frame fd ino w w') as Hfr by (eapply frame_trans; [apply frame_adv|done]).
  exists w', q, n. destruct (Z.ltb_spec rc (Zlen (enc r))) as [Hlt|Hge].
  - exists (-1), r. split_and!; [done..|]. left. split; [lia|done].
  - exists (Zlen (rec_body r)), (set_clean r). split_and!; [done..|]. right. split_and!; [|done|lia].
    rewrite Zlen_body. pose proof (Zlen_nonneg (payload r)). lia.
Qed.
(** A sync that appends leaves the old journal and a part of what it had to write. *)
Lemma append_any fd ino rd l : ∀ c p w, fd_view w fd ino c p rd true → aligned c →
  ∃ b w' q n, append_loop fd l w = Some (b, w') ∧ frame fd ino w w' ∧
    fd_view w' fd ino (c ++ take n (journal (dirties l))) q rd true ∧ (b = true → (length (journal (dirties l)) ≤ n)%nat).
Proof.
  induction l as [|r l IH]; intros c p w Hv Ha.
  { exists true, w, p, 0%nat. rewrite take_0, app_nil_r. split_and!; [done|apply frame_refl|done|done]. }
  cbn [append_loop]. unfold dirties. rewrite filter_cons. destruct (pr_dirty r) eqn:Ed; cbn [negb].
  2: { rewrite decide_False by congruence. by eapply IH. }
  rewrite decide_True by done. rewrite journal_cons. unfold mbind, M_bind.
  destruct (record_write_any _ _ _ _ _ _ r Hv Ha) as (w1 & q1 & n1 & rc & r' & -> & Hf1 & Hps1 & Hv1 & [[Hrc ->]|(Hrc & -> & Hn)]).
  - unfold rec_put, modify. destruct (Z.leb_spec rc 0); [|lia]. eexists false, _, q1, (Nat.min n1 (length (enc r))). split; [done|].
    rewrite take_app_le by lia. rewrite <- take_take, firstn_all. split_and!; [|by apply view_ps|done].
    eapply frame_trans; [done|]. by apply frame_ps.
  - unfold rec_put, modify. destruct (Z.leb_spec rc 0); [lia|]. rewrite take_ge in Hv1 by lia. set (w2 := with_ps _ w1).
    destruct (IH (c ++ enc r) q1 w2) as (b & w' & q & n & E & Hf & Hv' & Hb);
      [by apply view_ps|apply aligned_app; [done|apply enc_align]|].
    exists b, w', q, (length (enc r) + n)%nat. rewrite take_app_add. split_and!; [exact E| |by rewrite app_assoc|].
    + eapply frame_trans; [done|]. eapply frame_trans; [|done]. by apply frame_ps.
    + intros Hbt. rewrite length_app. specialize (Hb Hbt). unfold dirties in Hb. lia.
Qed.
Lemma sync_append_any fd ino rd c p w : fd_view w fd ino c p rd true → aligned c →
  Z.land (psfs_flags (pw_ps w)) OSP_PS_WRITE ≠ 0 → psfs_fd (pw_ps w) = fd →
  ∃ b w' q n, psfs_sync_append w = Some (b, w') ∧ let ds := dirties (psfs_root (pw_ps w)) in
    fd_view w' fd ino (c ++ take n (journal ds)) q rd true ∧ (b = true → (length (journal ds) ≤ n)%nat).
Proof.
  intros Hv Ha Hfl Hfd. destruct (append_any fd ino rd (psfs_root (pw_ps w)) c p w Hv Ha) as (b & w' & q & n & E & Hf & Hv' & Hb).
  unfold psfs_sync_append, mbind, M_bind, gets. destruct (Z.eqb_spec (Z.land (psfs_flags (pw_ps w)) OSP_PS_WRITE) 0); [done|].
  rewrite Hfd, E. destruct b; cbn [negb].
  - unfold sys_ok, mbind, M_bind. rewrite sys_run, (with_tail_adv _ _ _ _ _ _ _ Hv'). eexists true, _, q, n. split; [done|].
    split; [by eapply view_adv|done].
  - exists false, w', q, n. done.
Qed.

(** *** Opening *)

Lemma sys_ok_any w : ∃ b, sys_ok w = Some (b, with_plan tail w).
Proof. unfold sys_ok, mbind, M_bind. rewrite sys_run. by eexists. Qed.
Lemma openat_any w p name creat rd wr : ∃ fd w', sys_openat (Some p) name creat false rd wr w = Some (fd, w') ∧
  pw_wait w' = pw_wait w ∧ pw_ps w' = pw_ps w ∧
  (fd = -1 ∨ ∃ ino, pw_fds w' !! fd = Some (Ofd ino 0 rd wr) ∧ d_names (pw_disk w') !! (p, name) = Some ino).
Proof.
  unfold sys_openat, mbind, M_bind. destruct (sys_ok_any w) as (b & ->). unfold gets, modify, mret, M_ret.
  destruct b; cbn [negb]; [|eexists _, _; split_and!; [done..|by left]].
  change (d_names (pw_disk (with_plan tail w))) with (d_names (pw_disk w)).
  destruct (d_names (pw_disk w) !! (p, name)) as [ino|] eqn:E.
  - eexists _, _. split_and!; [done..|]. right. exists ino. split; [apply lookup_insert_eq|exact E].
  - destruct creat; cbn [negb]; [|eexists _, _; split_and!; [done..|by left]].
    eexists _, _. split_and!; [done..|]. right. eexists. split; apply lookup_insert_eq.
Qed.
Lemma dir_close_any pres w : ∃ b w', psfs_dir_close pres w = Some (b, w').
Proof.
  unfold psfs_dir_close, mbind, M_bind, gets. destruct (_ =? 0); [by eexists _, _|]. unfold set_dir, modify.
  destruct (_ <? _); [by eexists _, _|]. unfold sys_ok, mbind, M_bind. rewrite sys_run. by eexists _, _.
Qed.
Lemma open_error_any flags w : ∃ w', open_error flags w = Some (false, w').
Proof.
  unfold open_error, mbind, M_bind, gets, sys_close, modify, mret, M_ret.
  destruct (_ <=? _); edestruct dir_close_any as (b & w' & ->); by eexists.
Qed.
(** After the lock nobody else changes the directory: the file that is open is the one
    that has the name. *)
Definition is_current (p : bool) (name : string) (w : pworld) : Prop :=
  ∃ d, pw_fds w !! psfs_fd (pw_ps w) = Some d ∧ d_names (pw_disk w) !! (p, name) = Some (of_ino d).
Lemma open_retry_any p name flags fuel : ∀ w, psfs_dirfd (pw_ps w) = Some p → (length (pw_wait w) < fuel)%nat →
  ∃ b w', open_retry fuel name flags w = Some (b, w') ∧ (b = true → is_current p name w').
Proof.
  induction fuel as [|fuel IH]; intros w Hd Hf; [lia|]. cbn [open_retry]. unfold mbind at 1, M_bind at 1, gets at 1. rewrite Hd.
  set (wr := negb _). unfold mbind at 1, M_bind at 1.
  destruct (openat_any w p name wr true wr) as (fd & w1 & -> & Hw1 & Hps1 & Hfd). unfold mbind at 1, M_bind at 1, modify at 1.
  set (w2 := with_ps (with_fd fd) w1).
  assert (∀ m : PS bool, (∃ w', m w2 = Some (false, w')) → ∃ b w', m w2 = Some (b, w') ∧ (b = true → is_current p name w')) as Herr
    by (intros m (w' & E); exists false, w'; by rewrite E).
  destruct (Z.ltb_spec fd 0) as [Hneg|Hpos]; [apply Herr, open_error_any|]. destruct Hfd as [->|(ino & Hi & Hn)]; [lia|].
  unfold psfs_file_lock, mbind, M_bind, gets, modify. change (pw_wait w2) with (pw_wait w1). rewrite Hw1.
  set (w3 := with_wait tail _). destruct (sys_ok_any w3) as (ok & ->). destruct ok; cbn [negb].
  2: { destruct (open_error_any flags (with_plan tail w3)) as (w' & ->). by exists false, w'. }
  unfold sys_fd_ino, sys_name_ino, mbind, M_bind, gets, mret, M_ret. destruct (sys_ok_any (with_plan tail w3)) as (ok1 & ->).
  change (pw_fds (with_plan _ (with_plan _ w3))) with (pw_fds w1). rewrite Hi. destruct ok1; cbn [fmap option_fmap option_map of_ino]; [|by eexists false, _].
  set (w4 := with_plan tail (with_plan tail w3)). destruct (sys_ok_any w4) as (ok2 & ->). destruct ok2; [|by eexists false, _].
  set (w5 := with_plan tail w4). cbn [option_bind]. destruct (d_names (pw_disk w5) !! (p, name)) as [tino|] eqn:Et; [|by eexists false, _].
  destruct (Nat.eqb_spec ino tino) as [<-|Hne].
  - eexists true, _. split; [done|]. intros _. exists (Ofd ino 0 true wr). split; [exact Hi|exact Et].
  - unfold sys_close, modify. apply IH; [cbn; by rewrite Hps1|]. cbn. destruct (pw_wait w) as [|o ws] eqn:Ew; [|cbn in *; rewrite Hw1; simpl; lia].
    exfalso. apply Hne. change (d_names (pw_disk w5)) with (d_names (pw_disk w1)) in Et. congruence.
Qed.
