(* ===== verification/PsfsProps.v ===== *)
(** The theorems on the persistent store. *)
From Stdlib Require Import Sorting.Sorted.
From S2P Require Import Prelude DsTreeInv KeySeq Psfs PsfsRec PsfsRead PsfsLoad PsfsSync PsfsSpec.
From S2P Require Import PsfsFault.
Local Open Scope Z_scope.

(** An empty disk. *)
Definition psfs_world0 : pworld := PWorld (Disk ∅ ∅ 0) ∅ 3 [] [] (PsfsDir 0 None, PsfsDir 0 None) PSFS_INIT.

(** C4. The store behind [osp_ps_open], [osp_ps_set], [osp_ps_get], [psfs_sync],
    [osp_ps_erase] and [osp_ps_close] is a map on disk and a map in memory: every sequence of calls
    of one process, in which no system call fails, gets the answers of the maps.  Setting an
    empty value deletes, erasing empties the map in memory, a sync makes the map in memory the
    one on disk, closing syncs, opening reads the map on disk back whether the last process
    closed the store or stopped at any point between two calls, and pruning does not show.  The
    name of the store has at most 63 characters ([psfs_long_name_loses]), keys are C strings and
    records are smaller than 4 GB.  Nothing is said about a process that stops between an
    erase and the next sync: the comment of [psfs_erase] promises the old map on disk, the
    code has already emptied it ([psfs_erase_at_once]). *)
Theorem psfs_refines_map pres name ops xs a :
  (String.length name ≤ 63)%nat → Forall op_ok ops → spec_run ops (AStore ∅ None false) = Some (xs, a) →
  ∃ w, run_ops pres name ops psfs_world0 = Some (xs, w).
Proof.
  intros Hlen Hops Hrun. destruct (psfs_run_ok pres name ops Hlen Hops psfs_world0 (AStore ∅ None false) xs a) as (w & Hw & _); [|done|eauto].
  split; [split; [done|done|by destruct pres|done]|done].
Qed.
Definition psfs_example : list pop :=
  [POpen; PSet [65] (Some [1; 2; 3]); PSet [66] (Some [7]); PSync false; PSet [65] None; PCrash; POpen; PGet [65] 2;
   PSet [66] None; PSync true; PClose; POpen; PGet [66] 4; PErase; PSet [67] (Some [5]); PClose; PCrash; POpen; PGet [65] 2; PGet [67] 2].
Lemma psfs_refines_map_witness : ∃ w, run_ops false "store" psfs_example psfs_world0 =
  Some ([ABool true; ANum 3; ANum 1; ABool true; ANum 0; ANone; ABool true; AData 3 [1; 2]; ANum 0; ABool true; ABool true;
         ABool true; AData 0 []; ABool true; ANum 1; ABool true; ANone; ABool true; AData 0 []; AData 1 [5]], w).
Proof.
  apply (psfs_refines_map false "store" psfs_example _ (AStore {[ [67] := [5] ]} (Some {[ [67] := [5] ]}) false)).
  - simpl. lia.
  - repeat constructor; unfold u8; cbn; lia.
  - vm_compute. reflexivity.
Defined.

(** *** Failures *)

(** A handle that has just been opened: nothing is loaded, the file is read from its start. *)
Record fresh_handle (v : pworld) (c : list Z) : Prop := FreshHandle {
  fh_root : psfs_root (pw_ps v) = []; fh_used : psfs_used (pw_ps v) = 0; fh_next : ps_next (pw_ps v) = None;
  fh_file : ∃ ino wr, fd_view v (psfs_fd (pw_ps v)) ino c 0 true wr }.
Lemma fresh_inv v c : fresh_handle v c → ps_inv (pw_ps v).
Proof. intros [Hr Hu Hn _]. split; rewrite ?Hr, ?Hu, ?Hn; [constructor|done|done]. Qed.
Lemma load_fresh v c rs fuel : fresh_handle v c → calm v → loads c 0 (as_read <$> rs) → (length c < fuel)%nat →
  ∃ v', psfs_load fuel v = Some (true, v') ∧ ∀ key, live (psfs_root (pw_ps v')) key = replay rs key.
Proof.
  intros Hf Hc Hl Hfuel. pose proof (fresh_inv _ _ Hf) as Hi. destruct (fh_file _ _ Hf) as (ino & wr & Hv).
  destruct (psfs_load_calm _ _ _ _ _ _ fuel Hl Hv Hc eq_refl Hi Hfuel) as (q & E). eexists. split; [exact E|].
  intros key. etrans; [by apply ps_load_replay, fh_root with c|]. apply replay_as_read.
Qed.

(** C6. Whatever fails while a sync appends the dirty records, a write that stops in
    the middle included, and wherever the process ends: if no dirty record holds the magic
    number of records at a multiple of four behind its own ([tail_safe]), loading the file that is
    left gives the old map with the first [k] of the dirty records, none of them in part; with
    all of them if the sync said that it succeeded.  Without that condition a part of a value can
    be taken for a record ([psfs_torn_value_read_as_record]). *)
Theorem psfs_torn_sync_atomic w ino rs p rd :
  let ds := dirties (psfs_root (pw_ps w)) in
  fd_view w (psfs_fd (pw_ps w)) ino (journal rs) p rd true → Forall rec_ok rs → Forall rec_ok ds → Forall tail_safe ds →
  Z.land (psfs_flags (pw_ps w)) OSP_PS_WRITE ≠ 0 →
  ∃ b w', psfs_sync_append w = Some (b, w') ∧ ∃ c k, d_files (pw_disk w') !! ino = Some c ∧ (b = true → (length ds ≤ k)%nat) ∧
    ∀ v fuel, fresh_handle v c → calm v → (length c < fuel)%nat →
      ∃ v', psfs_load fuel v = Some (true, v') ∧ ∀ key, live (psfs_root (pw_ps v')) key = replay (rs ++ take k ds) key.
Proof.
  intros ds Hv Hrs Hds Hsafe Hfl.
  destruct (sync_append_any _ _ _ _ _ w Hv (aligned_journal rs) Hfl eq_refl) as (b & w' & q & n & E & Hv' & Hb). fold ds in Hv', Hb.
  assert (∃ k, loads (journal rs ++ take n (journal ds)) 0 (as_read <$> (rs ++ take k ds)) ∧ (b = true → (length ds ≤ k)%nat)) as (k & Hl & Hk).
  { destruct b.
    - exists (length ds). rewrite !take_ge by (done || by apply Hb). split; [|done]. rewrite <- journal_app. apply loads_journal.
      by apply Forall_app.
    - destruct (loads_cut ds n (journal rs) Hds Hsafe (aligned_journal rs)) as (k & Hcut). exists k. split; [|done].
      rewrite fmap_app. exact (loads_records rs [] (take n (journal ds)) _ Hrs Hcut 0%nat eq_refl). }
  exists b, w'. split; [done|]. exists (journal rs ++ take n (journal ds)), k. split_and!; [apply Hv'|done|].
  intros v fuel Hf Hc Hfuel. by eapply load_fresh.
Qed.
(** A store with one record on disk and another value for it in memory; the write stops
    after 13 bytes. *)
Definition torn_old : psfs_record := Rec [65] [1; 2] true 16.
Definition torn_new : psfs_record := Rec [65] [3] true 15.
Definition torn_world : pworld :=
  PWorld (Disk ∅ {[ 0%nat := journal [torn_old] ]} 1) {[ 5 := Ofd 0 16 true true ]} 6 [OK; SHORT 13] []
    (PsfsDir 1 (Some false), PsfsDir 0 None) (Psfs "s" 5 (Some false) 3 [torn_new] None 15).
Lemma rec_ok_small r : forallb (λ b, (0 <? b) && (b <? 256)) (pr_key r) && forallb (λ b, (0 <=? b) && (b <? 256)) (pr_data r) &&
  (Zlen (payload r) <? 2 ^ 32) = true → rec_ok r.
Proof.
  rewrite !andb_true_iff, Z.ltb_lt. intros [[Hk Hd] Hs]. split; [| |done].
  - apply Forall_forall. intros x Hx. rewrite forallb_forall in Hk.
    apply list_elem_of_In in Hx. specialize (Hk x Hx). lia.
  - apply Forall_forall. intros x Hx. rewrite forallb_forall in Hd. apply list_elem_of_In in Hx. specialize (Hd x Hx). unfold u8. lia.
Qed.
Lemma psfs_torn_sync_atomic_witness : ∃ b w', psfs_sync_append torn_world = Some (b, w') ∧ b = false ∧
  ∃ c k, d_files (pw_disk w') !! 0%nat = Some c ∧ length c = 29%nat ∧
    ∀ v fuel, fresh_handle v c → calm v → (length c < fuel)%nat →
      ∃ v', psfs_load fuel v = Some (true, v') ∧ ∀ key, live (psfs_root (pw_ps v')) key = replay ([torn_old] ++ take k [torn_new]) key.
Proof.
  destruct (psfs_torn_sync_atomic torn_world 0 [torn_old] 16 true) as (b & w' & E & c & k & Hc & _ & H).
  - split; reflexivity.
  - constructor; [apply rec_ok_small; reflexivity|constructor].
  - constructor; [apply rec_ok_small; reflexivity|constructor].
  - constructor; [|constructor]. intros [|[|[|i]]]; [vm_compute; discriminate..|].
    intros F. apply (f_equal length) in F. rewrite length_take, length_drop in F. vm_compute (length (drop 4 _)) in F.
    change (length (be32 PSFS_MAGIC)) with 4%nat in F. lia.
  - discriminate.
  - exists b, w'. split; [exact E|]. vm_compute in E. injection E as <- <-. split; [reflexivity|]. exists c, k. split; [exact Hc|].
    split; [vm_compute in Hc; injection Hc as <-; reflexivity|exact H].
Defined.

(** C10. Loading ends, whatever the file holds and whichever calls fail: with more fuel
    than there are bytes and failures to come, [psfs_load] returns, and the records
    it has found form a tree whose sizes are counted. *)
Theorem psfs_load_terminates w ino c p wr fuel :
  fd_view w (psfs_fd (pw_ps w)) ino c p true wr → Forall u8 c → (p ≤ length c)%nat → ps_inv (pw_ps w) →
  (length (pw_plan w) + (length c - p) < fuel)%nat →
  ∃ w', psfs_load fuel w = Some (true, w') ∧ ps_inv (pw_ps w').
Proof.
  intros Hv Hc Hp Hi Hf. destruct (load_loop_ends fuel w ino c p wr Hv Hc Hp Hi Hf) as (w' & E & Hi').
  unfold psfs_load, mbind, M_bind. rewrite E. eexists. split; [done|]. by apply ps_rewind_inv.
Qed.
Definition garbage_world : pworld :=
  PWorld (Disk ∅ {[ 0%nat := be32 PSFS_MAGIC ++ [0; 0; 0; 1; 9; 9; 9; 9; 9; 80] ]} 1) {[ 5 := Ofd 0 0 true true ]} 6
    [SHORT 2; FAIL 0; OK; FAIL 7] [] (PsfsDir 1 (Some false), PsfsDir 0 None) (Psfs "s" 5 (Some false) 3 [] None 0).
Lemma psfs_load_terminates_witness : ∃ w', psfs_load 20 garbage_world = Some (true, w') ∧ ps_inv (pw_ps w').
Proof.
  apply (psfs_load_terminates garbage_world 0 (be32 PSFS_MAGIC ++ [0; 0; 0; 1; 9; 9; 9; 9; 9; 80]) 0 true).
  - split; reflexivity.
  - repeat constructor; unfold u8; vm_compute; done.
  - vm_compute. lia.
  - split; [constructor|reflexivity|discriminate].
  - vm_compute. lia.
Defined.

(** *** Records *)

(** C29. Whatever a file holds, a record that is written to its end is what a read from the
    old end returns, with its size. *)
Theorem psfs_record_roundtrip w fd ino c p rd r : fd_view w fd ino c p rd true → calm w → rec_ok r →
  let size := 4 + 4 + (Zlen (pr_key r) + 1) + pr_datasz r + 4 in
  ∃ w' c', psfs_record_write fd r w = Some ((size, set_clean r), w') ∧ d_files (pw_disk w') !! ino = Some c' ∧
    ∀ v fd' ino' wr, fd_view v fd' ino' c' (length c) true wr → calm v →
      ∃ v', psfs_record_read fd' v = Some ((size, Some (Rec (pr_key r) (pr_data r) false size)), v').
Proof.
  intros Hv Hc Hr size. assert (size = Zlen (rec_body r)) as Es.
  { unfold size, pr_datasz. rewrite Zlen_body, Zlen_payload. unfold Zlen. lia. }
  rewrite Es. eexists _, _. split; [by apply (record_write_calm _ _ _ _ _ _ r Hv Hc)|].
  split; [by apply (view_file _ _ _ _ _ _ _ (view_grow _ _ _ _ _ _ _ _ Hv))|].
  intros v fd' ino' wr Hv' Hc'. eexists. rewrite app_assoc in Hv'. unfold enc in Hv'.
  refine (reads_record (c ++ wpad (padlen (Zlen c))) r _ (length c) Hr _ _ _ _ _ Hv' Hc').
  unfold leads. by rewrite Zlen_app, Zlen_wpad.
Qed.
Lemma psfs_record_roundtrip_witness : ∃ w' c', psfs_record_write 5 torn_new (with_plan (λ _, []) garbage_world) =
    Some ((15, set_clean torn_new), w') ∧ d_files (pw_disk w') !! 0%nat = Some c' ∧
    ∀ v fd' ino' wr, fd_view v fd' ino' c' 14 true wr → calm v →
      ∃ v', psfs_record_read fd' v = Some ((15, Some (Rec [65] [3] false 15)), v').
Proof.
  apply (psfs_record_roundtrip (with_plan (λ _, []) garbage_world) 5 0 (be32 PSFS_MAGIC ++ [0; 0; 0; 1; 9; 9; 9; 9; 9; 80]) 0 true torn_new).
  - split; reflexivity.
  - reflexivity.
  - apply rec_ok_small. reflexivity.
Defined.

(** C28. Damage is found: if four bytes in a row of the key, the data or the checksum of a
    record have become any others, the record is not returned and the search goes on
    behind its magic number. *)
Theorem psfs_damage_found r A B x y w1 w2 p : rec_ok r → rec_body r = rec_head r ++ x ++ w1 ++ y →
  length w1 = 4%nat → length w2 = 4%nat → Forall u8 w2 → w1 ≠ w2 → leads p A →
  reads (A ++ (rec_head r ++ x ++ w2 ++ y) ++ B) p (-1) None (length A + 4).
Proof.
  intros Hr Eb L1 L2 Hw2 Hne Hp. apply (reads_align _ _ A); [|by eexists|done]. intros w fd ino wr Hv Hc.
  set (d := x ++ w2 ++ y) in *. assert (length d = (length (payload r) + 4)%nat) as Hd.
  { pose proof (Zlen_body r) as Hl. rewrite Eb in Hl. rewrite !Zlen_app in Hl. change (Zlen (rec_head r)) with 8 in Hl.
    unfold d. rewrite !length_app. unfold Zlen in Hl. lia. }
  assert (rec_head r ++ d = be32 PSFS_MAGIC ++ be32 (wrapu 32 (Zlen (payload r))) ++ take (length (payload r)) d ++ drop (length (payload r)) d) as Ed
    by (unfold rec_head; rewrite take_drop; by rewrite <- app_assoc).
  rewrite Ed in Hv. pose proof (ok_size _ Hr). pose proof (Zlen_nonneg (payload r)).
  rewrite (record_magic_fits _ _ _ _ _ _ _ _ _ Hv Hc); [|done|rewrite length_drop; lia|].
  2: { unfold wrapu. rewrite Z.mod_small, of_be32_be32 by (unfold u32; lia). unfold Zlen. rewrite length_take. lia. }
  rewrite <- Ed. destruct (Z.eqb_spec (psfs_crc32 0 (rec_head r ++ d)) PSFS_CRC32_VERIFY) as [E|_]; [|done]. exfalso. apply Hne.
  assert (Forall u8 (rec_body r)) as Hu.
  { apply Forall_app. split; [apply head_u8|]. apply Forall_app. split; [by apply payload_u8|apply wcrc_u8]. }
  apply (psfs_crc32_burst 0 (rec_head r ++ x) (rec_head r ++ d) y w1 w2); [unfold u32; lia| |done|done|done|by rewrite <- app_assoc|].
  - by rewrite <- app_assoc, <- Eb.
  - rewrite E, <- app_assoc, <- Eb. unfold rec_body. rewrite app_assoc. apply psfs_crc32_residue; [unfold u32; lia|].
    apply Forall_app. split; [apply head_u8|by apply payload_u8].
Qed.
Lemma psfs_damage_found_witness : reads ([] ++ (rec_head torn_old ++ [65] ++ [0; 1; 9; 9] ++ drop 13 (rec_body torn_old)) ++ []) 0 (-1) None 4.
Proof.
  apply (psfs_damage_found torn_old [] [] [65] (drop 13 (rec_body torn_old)) (take 4 (drop 9 (rec_body torn_old))) [0; 1; 9; 9] 0).
  - apply rec_ok_small. reflexivity.
  - vm_compute. reflexivity.
  - reflexivity.
  - reflexivity.
  - repeat constructor; unfold u8; lia.
  - vm_compute. discriminate.
  - reflexivity.
Defined.

(** *** Opening *)

Lemma dir_open_any p w : psd_ref (get_dir p w) = 0 ∨ psd_fd (get_dir p w) = Some p →
  ∃ r w', psfs_dir_open p w = Some (r, w') ∧ pw_wait w' = pw_wait w ∧ (r = None ∨ r = Some p).
Proof.
  intros H. unfold psfs_dir_open, mbind, M_bind, gets. destruct (Z.eqb_spec (psd_ref (get_dir p w)) 0) as [E|E].
  - destruct (sys_ok_any w) as (b & ->). destruct b; cbn [negb]; [|eexists _, _; split_and!; [done..|by left]].
    destruct (sys_ok_any (with_plan tail w)) as (b & ->). unfold set_dir, modify, mret, M_ret.
    destruct b; cbn [negb]; [|eexists _, _; split_and!; [done..|by left]].
    eexists _, _. split_and!; [done..|]. right. by destruct p.
  - unfold set_dir, modify, mret, M_ret. cbn [negb]. eexists _, _. split_and!; [done..|]. destruct H; [done|by right].
Qed.
(** C19. While [psfs_open] waits for the lock other processes can replace the file; when it
    returns with success, the file that is open and locked is the one that has the name.
    It returns after at most one attempt more than others have interfered, whichever
    calls fail. *)
Theorem psfs_open_current fuel name flags w : let p := negb (Z.land flags OSP_PS_PRESERVE =? 0) in
  (length (pw_wait w) < fuel)%nat → psd_ref (get_dir p w) = 0 ∨ psd_fd (get_dir p w) = Some p →
  ∃ b w', psfs_open fuel name flags w = Some (b, w') ∧ (b = true → is_current p name w').
Proof.
  intros p Hf Hd. unfold psfs_open, mbind, M_bind, modify. destruct (Z.land flags OSP_PS_RDWR =? 0); [by eexists false, _|]. fold p.
  destruct (dir_open_any p (with_ps (λ _, PSFS_INIT) w) Hd) as (r & w1 & -> & Hw & [->| ->]); [by eexists false, _|].
  by apply open_retry_any; [|cbn; rewrite Hw].
Qed.
(** Another process prunes the store while the lock is waited for. *)
Definition pruning (d : disk) : disk := Disk (<[(false, "s") := 7%nat]> (d_names d)) (<[7%nat := [1]]> (d_files d)) 8.
Lemma psfs_open_current_witness : ∃ b w', psfs_open 2 "s" 3 (with_wait (λ _, [pruning]) psfs_world0) = Some (b, w') ∧
  b = true ∧ is_current false "s" w'.
Proof.
  destruct (psfs_open_current 2 "s" 3 (with_wait (λ _, [pruning]) psfs_world0)) as (b & w' & E & H).
  - simpl. lia.
  - by left.
  - exists b, w'. split; [exact E|]. assert (b = true) as Hb by (vm_compute in E; congruence). split; [exact Hb|exact (H Hb)].
Defined.

(** *** Behaviours to know *)

(** After a sync that prunes, the descriptor is open for writing only: every read
    fails, and the loop of [psfs_load] goes on for ever. *)
Theorem psfs_load_after_prune pres name ops xs D m er w fuel :
  (String.length name ≤ 63)%nat → Forall op_ok ops → spec_run ops (AStore ∅ None false) = Some (xs, AStore D (Some m) er) →
  run_ops pres name ops psfs_world0 = Some (xs, w) → (psfs_sync true;; psfs_load fuel) w = None.
Proof.
  intros Hlen Hops Hrun Hw. destruct (psfs_run_ok pres name ops Hlen Hops psfs_world0 (AStore ∅ None false) xs (AStore D (Some m) er))
    as (w1 & Hw1 & H); [split; [split; [done|done|by destruct pres|done]|done]|done|]. assert (w1 = w) as -> by congruence. cbn in H.
  unfold mbind, M_bind, psfs_sync, mbind, M_bind, gets. rewrite (op_flags _ _ _ _ _ H).
  destruct (Z.eqb_spec (Z.land (ps_flags pres) OSP_PS_WRITE) 0) as [E|_]; [by apply flags_write in E|].
  destruct (op_file _ _ _ _ _ H) as (ino & p & rd & rs & Hv & _). rewrite (sys_fstat_calm _ _ _ _ _ _ _ Hv) by apply H.
  rewrite orb_true_r. pose proof (op_nfd _ _ _ _ _ H).
  destruct (sync_prune_calm w pres) as (w' & q & ino' & -> & Hq' & _ & Hfd & Hv' & _); [apply H|apply H| |apply H|lia|lia|].
  { rewrite (op_flags _ _ _ _ _ H). apply flags_write. }
  unfold psfs_load, mbind, M_bind. rewrite <- Hfd in Hv'. by rewrite (load_loop_hangs _ _ _ _ _ _ Hv' (proj1 Hq')).
Qed.
(** An erase reaches the disk at once: a process that stops before the next sync has lost what
    the comment of [psfs_erase] says is still there. *)
Example psfs_erase_at_once :
  fst <$> run_ops false "s" [POpen; PSet [65] (Some [1]); PSync false; PErase; PCrash; POpen; PGet [65] 1] psfs_world0 =
  Some [ABool true; ANum 1; ABool true; ABool true; ANone; ABool true; AData 0 []].
Proof. vm_compute. reflexivity. Qed.
(** A write that fails while pruning is only logged: the sync returns true, and a record
    that was on disk is gone. *)
Example psfs_prune_loses_record :
  run (osp_ps_open 9 "s" 3;; osp_ps_set [65] (Some [1]);; osp_ps_sync;; modify (with_plan (λ _, [OK; OK; OK; OK; OK; FAIL 0]));;
       b ← psfs_sync true; osp_ps_close;; osp_ps_open 9 "s" 3;; '(z, _) ← osp_ps_get [65] 1; mret (b, z)) psfs_world0 = Some (true, 0).
Proof. vm_compute. reflexivity. Qed.
(** A store that is opened for writing and closed without being loaded counts all of its
    file as wasted: one of more than 8 kB is emptied. *)
Definition big_world (n : Z) : pworld :=
  PWorld (Disk {[ (false, "s") := 0%nat ]} {[ 0%nat := replicate (Z.to_nat n) 65 ]} 1) ∅ 3 [] [] (PsfsDir 0 None, PsfsDir 0 None) PSFS_INIT.
Definition file_size (w : pworld) : option Z :=
  ino ← d_names (pw_disk w) !! (false, "s"); Zlen <$> d_files (pw_disk w) !! ino.
Example psfs_close_unloaded :
  run (psfs_open 1 "s" OSP_PS_WRITE;; psfs_close;; gets file_size) (big_world 8192) = Some (Some 8192) ∧
  run (psfs_open 1 "s" OSP_PS_WRITE;; psfs_close;; gets file_size) (big_world 8193) = Some (Some 0).
Proof. vm_compute. done. Qed.
(** Iterating passes over deleted records, but for the first one; and a value that is set
    anew when the iteration stands at it is left out. *)
Example psfs_next_deleted :
  run (osp_ps_open 9 "s" 3;; osp_ps_set [65] (Some [1]);; osp_ps_set [66] (Some [1]);; osp_ps_set [67] (Some [1]);;
       osp_ps_set [65] None;; osp_ps_set [66] None;; osp_ps_rewind;;
       a ← osp_ps_next; b ← osp_ps_next; c ← osp_ps_next; mret (a, b, c)) psfs_world0 = Some (Some [65], Some [67], None) ∧
  run (osp_ps_open 9 "s" 3;; osp_ps_set [65] (Some [1]);; osp_ps_set [66] (Some [1]);; osp_ps_rewind;; osp_ps_set [65] (Some [2]);;
       a ← osp_ps_next; b ← osp_ps_next; mret (a, b)) psfs_world0 = Some (Some [66], None).
Proof. vm_compute. done. Qed.
(** The name of the handle is cut to 63 characters, the file is not: pruning writes to a
    file of another name, and the data set before is not found again. *)
Fixpoint long_name (n : nat) : string := match n with O => "" | S n => String "a" (long_name n) end.
Example psfs_long_name_loses :
  run (osp_ps_open 9 (long_name 64) 3;; osp_ps_set [65] (Some [1]);; psfs_sync true;; osp_ps_close;;
       osp_ps_open 9 (long_name 64) 3;; osp_ps_get [65] 1) psfs_world0 = Some (0, []) ∧
  run (osp_ps_open 9 (long_name 63) 3;; osp_ps_set [65] (Some [1]);; psfs_sync true;; osp_ps_close;;
       osp_ps_open 99 (long_name 63) 3;; osp_ps_get [65] 1) psfs_world0 = Some (1, [1]).
Proof. vm_compute. done. Qed.
(** A value that holds the image of a record becomes that record when the write around it
    is cut off. *)
Example psfs_torn_value_read_as_record :
  let inner := Rec [66] [6] true 15 in let outer := Rec [65; 65; 65] (rec_body inner ++ [0; 0; 0; 0; 0; 0]) true 37 in
  let c := take 30 (enc outer) in
  run (psfs_load 99;; psfs_get [66] 9) (PWorld (Disk ∅ {[ 0%nat := c ]} 1) {[ 5 := Ofd 0 0 true true ]} 6 [] []
    (PsfsDir 1 (Some false), PsfsDir 0 None) (Psfs "s" 5 (Some false) 3 [] None 0)) = Some (1, [6]).
Proof. vm_compute. reflexivity. Qed.
