(* ===== verification/PmTm.v ===== *)
(** Thermal management, src/pm/src/pm_tm.c with src/pm/src/pm_tm_ovsdb.c.

    [tm_ctx] is [struct osp_tm_ctx].  What the platform and the database answer in one
    period is an argument, [tm_env]: the names, readings and radios of the temperature
    sources, the speed of the fan, and the rows of Node_Config that override the table.
    What the callback of the timer does to the outside is a list of [tm_out].  [None] is an
    access outside of the table (or to a table that is NULL) or of the arrays.  Unsigned
    members wrap at 32 bits; sums of temperatures are [int]s that are taken not to
    overflow.  PM_TM_DEBUG is not defined. *)
From stdpp Require Import pretty.
From S2P Require Import Prelude.
Local Open Scope Z_scope.

Definition OSP_TM_TEMP_SRC_MAX : nat := 3.
Definition OSP_TM_TEMP_AVG_CNT : nat := 3.
Definition CONFIG_PM_TM_TEMPERATURE_HYSTERESIS : Z := 3.
Definition CONFIG_PM_TM_FAN_RPM_TOLERANCE : Z := 300.
Definition CONFIG_PM_TM_FAN_ERROR_PERIOD_TOLERANCE : Z := 1.
Definition CONFIG_PM_TM_CRITICAL_TEMPERATURE_PERIOD_TOLERANCE : Z := 2.
Definition CONFIG_PM_TM_DISABLE_NODE_CONFIG_OVERRIDE : bool := false.
Definition TM_OVSDBG_MAX_KEY_LEN : nat := 32.

(** [struct osp_tm_therm_state], [struct osp_tm_ctx] *)
Record therm_state := ThermState { temp_thrld : list Z; radio_txchainmask : list Z; fan_rpm : Z }.
Record tm_ctx := TmCtx {
  therm_tbl : list therm_state; therm_state_cnt : Z; temp_src_cnt : Z;
  crit_temp_periods : Z; prev_fan_rpm : Z; prev_state : Z; fan_failure : Z;
  temp_avg_sum : list Z; temp_avg_meas : list (list Z); temp_avg_idx : nat }.
Definition tm_ctx0 : tm_ctx :=
  TmCtx [] 0 0 0 0 0 0 (replicate OSP_TM_TEMP_SRC_MAX 0) (replicate OSP_TM_TEMP_SRC_MAX (replicate OSP_TM_TEMP_AVG_CNT 0)) 0.
Record tm_env := TmEnv {
  src_name : Z → option string; radio_state : gmap string bool; src_temp : Z → option Z; env_fan_rpm : option Z;
  node_config : gmap string string }.
Inductive led_state := OSP_LED_ST_HWERROR | OSP_LED_ST_THERMAL.
Inductive tm_out :=
  | OLed (led : led_state) (clear : bool) | OTxChainmask (if_name : option string) (mask : Z)
  | OState (state : Z) | OFanRpm (rpm : Z) | OReboot.
(** The context and what has been done so far *)
Record tm_state := TmState { tm_c : tm_ctx; tm_outs : list tm_out }.
Abbreviation TM := (M tm_state).
Definition out (o : tm_out) : TM unit := modify (λ s, TmState (tm_c s) (tm_outs s ++ [o])).
Definition upd (f : tm_ctx → tm_ctx) : TM unit := modify (λ s, TmState (f (tm_c s)) (tm_outs s)).
Definition with_crit (n : Z) (c : tm_ctx) : tm_ctx :=
  TmCtx (therm_tbl c) (therm_state_cnt c) (temp_src_cnt c) n (prev_fan_rpm c) (prev_state c) (fan_failure c)
    (temp_avg_sum c) (temp_avg_meas c) (temp_avg_idx c).
Definition with_failure (n : Z) (c : tm_ctx) : tm_ctx :=
  TmCtx (therm_tbl c) (therm_state_cnt c) (temp_src_cnt c) (crit_temp_periods c) (prev_fan_rpm c) (prev_state c) n
    (temp_avg_sum c) (temp_avg_meas c) (temp_avg_idx c).
Definition with_avg (s : list Z) (m : list (list Z)) (c : tm_ctx) : tm_ctx :=
  TmCtx (therm_tbl c) (therm_state_cnt c) (temp_src_cnt c) (crit_temp_periods c) (prev_fan_rpm c) (prev_state c)
    (fan_failure c) s m (temp_avg_idx c).
Definition with_prev (rpm state : Z) (idx : nat) (c : tm_ctx) : tm_ctx :=
  TmCtx (therm_tbl c) (therm_state_cnt c) (temp_src_cnt c) (crit_temp_periods c) rpm state (fan_failure c)
    (temp_avg_sum c) (temp_avg_meas c) idx.

(** *** The table, and the rows that override it *)

(** [sscanf] of a number: [None] if there is none. *)
Fixpoint scan_num (s : string) : option Z :=
  match s with
  | EmptyString => None
  | String c s' =>
      if is_space c then scan_num s'
      else
        let '(sign, rest) := if bool_decide (c = "-"%char) then (-1, s') else if bool_decide (c = "+"%char) then (1, s') else (1, s) in
        match rest with
        | String d _ => match digit d with Some _ => Some (sign * digits 0 rest) | None => None end
        | EmptyString => None
        end
  end.
Definition tm_key (s : string) : string := String.substring 0 (TM_OVSDBG_MAX_KEY_LEN - 1) s.
Definition tm_lookup (env : tm_env) (key : string) : option Z :=
  if CONFIG_PM_TM_DISABLE_NODE_CONFIG_OVERRIDE then None
  else row ← node_config env !! tm_key key; scan_num row.
(** [pm_tm_ovsdb_thermtbl_get_radio_temp], [pm_tm_ovsdb_thermtbl_get_radio_txchainmask],
    [pm_tm_ovsdb_thermtbl_get_fan_rpm] *)
Definition pm_tm_ovsdb_thermtbl_get_radio_temp (env : tm_env) (state idx : Z) : option Z :=
  wraps 32 <$> tm_lookup env ("SPFAN_state" +:+ pretty state +:+ "_wifi" +:+ pretty idx +:+ "_temp").
Definition pm_tm_ovsdb_thermtbl_get_radio_txchainmask (env : tm_env) (state idx : Z) : option Z :=
  wrapu 32 <$> tm_lookup env ("SPFAN_state" +:+ pretty state +:+ "_wifi" +:+ pretty idx +:+ "_txchainmask").
Definition pm_tm_ovsdb_thermtbl_get_fan_rpm (env : tm_env) (state : Z) : option Z :=
  wrapu 32 <$> tm_lookup env ("SPFAN_state" +:+ pretty state +:+ "_fanrpm").
(** [pm_tbl_get_fanrpm], [pm_tbl_get_temp_thresh], [pm_tbl_get_radio_txchainmask] *)
Definition tbl_at (c : tm_ctx) (state : Z) : option therm_state := therm_tbl c !! Z.to_nat state.
Definition pm_tbl_get_fanrpm (env : tm_env) (c : tm_ctx) (state : Z) : option Z :=
  match pm_tm_ovsdb_thermtbl_get_fan_rpm env state with
  | Some rpm => Some rpm
  | None => fan_rpm <$> tbl_at c state
  end.
Definition pm_tbl_get_temp_thresh (env : tm_env) (c : tm_ctx) (state src : Z) : option Z :=
  match pm_tm_ovsdb_thermtbl_get_radio_temp env state src with
  | Some t => Some t
  | None => st ← tbl_at c state; temp_thrld st !! Z.to_nat src
  end.
Definition pm_tbl_get_radio_txchainmask (env : tm_env) (c : tm_ctx) (state src : Z) : option Z :=
  match pm_tm_ovsdb_thermtbl_get_radio_txchainmask env state src with
  | Some m => Some m
  | None => st ← tbl_at c state; radio_txchainmask st !! Z.to_nat src
  end.

(** [pm_get_highest_state]; [n] states are left, from [state] on. *)
Fixpoint highest_loop (env : tm_env) (c : tm_ctx) (src temp prev : Z) (n : nat) (state hysteresis highest : Z) : option Z :=
  match n with
  | O => Some highest
  | S n =>
      let hysteresis := if prev <? state then 0 else hysteresis in
      thresh ← pm_tbl_get_temp_thresh env c state src;
      if temp <? thresh - hysteresis then Some highest
      else highest_loop env c src temp prev n (state + 1) hysteresis state
  end.
Definition pm_get_highest_state (env : tm_env) (c : tm_ctx) (src temp prev : Z) : option Z :=
  highest_loop env c src temp prev (Z.to_nat (therm_state_cnt c)) 0 CONFIG_PM_TM_TEMPERATURE_HYSTERESIS 0.

(** *** Detection *)

(** [pm_detect_fan_failure] *)
Definition pm_detect_fan_failure (desired rpm : Z) : TM unit :=
  let l := wraps 32 (desired - CONFIG_PM_TM_FAN_RPM_TOLERANCE) in
  let h := wraps 32 (desired + CONFIG_PM_TM_FAN_RPM_TOLERANCE) in
  c ← gets tm_c;
  if (wraps 32 rpm <? l) || (h <? wraps 32 rpm) then
    let n := wrapu 32 (fan_failure c + 1) in
    upd (with_failure n);;
    if CONFIG_PM_TM_FAN_ERROR_PERIOD_TOLERANCE <? n then out (OLed OSP_LED_ST_HWERROR false) else mret tt
  else if negb (fan_failure c =? 0) then upd (with_failure 0);; out (OLed OSP_LED_ST_HWERROR true)
  else mret tt.
(** [pm_tm_reboot] *)
Definition pm_tm_reboot : TM unit := out OReboot.
(** [pm_detect_over_temperature] *)
Definition pm_detect_over_temperature (current_state : Z) : TM unit :=
  c ← gets tm_c;
  if wrapu 32 (therm_state_cnt c - 1) <=? current_state then
    (if crit_temp_periods c =? 0 then out (OLed OSP_LED_ST_THERMAL false) else mret tt);;
    let n := wrapu 32 (crit_temp_periods c + 1) in
    upd (with_crit n);;
    if CONFIG_PM_TM_CRITICAL_TEMPERATURE_PERIOD_TOLERANCE <? n then pm_tm_reboot else mret tt
  else if 0 <? crit_temp_periods c then upd (with_crit 0);; out (OLed OSP_LED_ST_THERMAL true)
  else mret tt.

(** *** A new state *)

(** [pm_set_new_state]; the masks of [n] sources are left, from [src] on. *)
Fixpoint chainmask_loop (env : tm_env) (n : nat) (src new_state : Z) : TM unit :=
  match n with
  | O => mret tt
  | S n =>
      c ← gets tm_c;
      old ← deref (pm_tbl_get_radio_txchainmask env c (prev_state c) src);
      new ← deref (pm_tbl_get_radio_txchainmask env c new_state src);
      (if negb (new =? old) then out (OTxChainmask (src_name env src) new) else mret tt);;
      chainmask_loop env n (src + 1) new_state
  end.
Definition pm_set_new_state (env : tm_env) (new_state : Z) : TM unit :=
  c ← gets tm_c;
  chainmask_loop env (Z.to_nat (temp_src_cnt c)) 0 new_state;;
  out (OState new_state).

(** [pm_calc_temp_moving_avg] *)
Definition round_avg (sum meas_cnt : Z) : Z :=
  if 0 <? meas_cnt then
    let avg := Z.quot sum meas_cnt in
    if Z.quot meas_cnt 2 <=? Z.rem sum meas_cnt then avg + 1 else avg
  else 0.
Definition pm_calc_temp_moving_avg (c : tm_ctx) (src temperature : Z) : option (Z * tm_ctx) :=
  let i := Z.to_nat src in
  row ← temp_avg_meas c !! i;
  cur ← row !! temp_avg_idx c;
  sum ← temp_avg_sum c !! i;
  let sum := if negb (cur =? 0) then sum - cur else sum in
  let sum := sum + temperature in
  let row := <[temp_avg_idx c := temperature]> row in
  let meas_cnt := Z.of_nat (length (filter (λ t, t ≠ 0) row)) in
  Some (round_avg sum meas_cnt, with_avg (<[i := sum]> (temp_avg_sum c)) (<[i := row]> (temp_avg_meas c)) c).

(** [pm_tm_ovsdb_is_radio_enabled], [pm_is_temp_src_enabled] *)
Definition pm_tm_ovsdb_is_radio_enabled (env : tm_env) (if_name : string) : bool := default false (radio_state env !! if_name).
Definition pm_is_temp_src_enabled (env : tm_env) (src : Z) : bool :=
  match src_name env src with
  | None => false
  | Some if_name => pm_tm_ovsdb_is_radio_enabled env if_name
  end.

(** *** The callback *)

(** The loop of [pm_therm_cb] over the sources, and the highest state it finds *)
Fixpoint source_loop (env : tm_env) (n : nat) (src current_state : Z) : TM Z :=
  match n with
  | O => mret current_state
  | S n =>
      if negb (pm_is_temp_src_enabled env src) then source_loop env n (src + 1) current_state else
      match src_temp env src with
      | None => source_loop env n (src + 1) current_state
      | Some temp =>
          c ← gets tm_c;
          '(temp, c) ← deref (pm_calc_temp_moving_avg c src temp);
          upd (λ _, c);;
          state ← deref (pm_get_highest_state env c src temp (prev_state c));
          source_loop env n (src + 1) (if current_state <? state then state else current_state)
      end
  end.
(** One state at a time *)
Definition limit_state (current prev : Z) : Z :=
  if prev <? current then prev + 1 else if current <? prev then prev - 1 else current.
Definition pm_therm_cb (env : tm_env) : TM unit :=
  c ← gets tm_c;
  current ← source_loop env (Z.to_nat (temp_src_cnt c)) 0 0;
  let current := limit_state current (prev_state c) in
  let rpm := default 0 (env_fan_rpm env) in
  pm_detect_fan_failure (prev_fan_rpm c) rpm;;
  pm_detect_over_temperature current;;
  c ← gets tm_c;
  current_rpm ← deref (pm_tbl_get_fanrpm env c current);
  (if negb (current =? prev_state c) then pm_set_new_state env current else mret tt);;
  out (OFanRpm current_rpm);;
  upd (λ c, with_prev current_rpm current ((S (temp_avg_idx c)) mod OSP_TM_TEMP_AVG_CNT)%nat c).

(** [pm_tm_init]: what [osp_tm_init] gives, unless it fails, and the speed of the fan; the timer is
    started in any case. *)
Definition pm_tm_init (tbl : option (list therm_state * Z * Z)) (rpm : option Z) : tm_ctx :=
  match tbl with
  | None => tm_ctx0
  | Some (t, states, srcs) =>
      TmCtx t states srcs 0 (default 0 rpm) 0 0 (temp_avg_sum tm_ctx0) (temp_avg_meas tm_ctx0) 0
  end.
(** The periods one after the other: what each does, and the state it ends in. *)
Definition tm_tick (env : tm_env) (c : tm_ctx) : option (list tm_out * tm_ctx) :=
  '(_, s) ← pm_therm_cb env (TmState c []); Some (tm_outs s, tm_c s).
Fixpoint tm_run (envs : list tm_env) (c : tm_ctx) : option (list (list tm_out * Z) * tm_ctx) :=
  match envs with
  | [] => Some ([], c)
  | env :: envs => '(o, c) ← tm_tick env c; '(os, c') ← tm_run envs c; Some ((o, prev_state c) :: os, c')
  end.
