(* ===== verification/PmTmThms.v ===== *)
(** Thermal management: every period runs to its end, how the state moves, and that a source
    that stays hot drives it to the last one. *)
From S2P Require Import Prelude PmTm.
Local Open Scope Z_scope.

(** The table of the platform and the arrays, for [n] states. *)
Definition sum_list (l : list Z) : Z := foldr Z.add 0 l.
Definition row_ok (r : therm_state) : Prop := length (temp_thrld r) = OSP_TM_TEMP_SRC_MAX ∧ length (radio_txchainmask r) = OSP_TM_TEMP_SRC_MAX.
Record tm_ok (c : tm_ctx) : Prop := TmOk {
  ok_states : 1 ≤ therm_state_cnt c < 2 ^ 32; ok_tbl : Z.of_nat (length (therm_tbl c)) = therm_state_cnt c;
  ok_rows : Forall row_ok (therm_tbl c); ok_srcs : 0 ≤ temp_src_cnt c ≤ 3; ok_prev : 0 ≤ prev_state c < therm_state_cnt c;
  ok_idx : (temp_avg_idx c < OSP_TM_TEMP_AVG_CNT)%nat;
  ok_meas : Forall2 (λ sum row, length row = OSP_TM_TEMP_AVG_CNT ∧ sum = sum_list row) (temp_avg_sum c) (temp_avg_meas c);
  ok_len : length (temp_avg_sum c) = OSP_TM_TEMP_SRC_MAX }.
(** Nothing but the measurements differs. *)
Definition same_but_avg (c c' : tm_ctx) : Prop := c' = with_avg (temp_avg_sum c') (temp_avg_meas c') c.

Lemma same_refl c : same_but_avg c c.
Proof. by destruct c. Qed.
Lemma same_trans c1 c2 c3 : same_but_avg c1 c2 → same_but_avg c2 c3 → same_but_avg c1 c3.
Proof. unfold same_but_avg. intros H1 H2. rewrite H2, H1. done. Qed.
Lemma same_avg s m c : same_but_avg c (with_avg s m c).
Proof. done. Qed.

Lemma tbl_at_ok c state : tm_ok c → 0 ≤ state < therm_state_cnt c → ∃ st, tbl_at c state = Some st ∧ row_ok st.
Proof.
  intros H Hs. unfold tbl_at. destruct (lookup_lt_is_Some_2 (therm_tbl c) (Z.to_nat state)) as [st Hst].
  { pose proof (ok_tbl _ H). lia. }
  exists st. split; [done|]. pose proof (ok_rows _ H) as Hr. rewrite Forall_forall in Hr. apply Hr. by eapply list_elem_of_lookup_2.
Qed.
Lemma thresh_ok env c state src : tm_ok c → 0 ≤ state < therm_state_cnt c → 0 ≤ src < 3 → is_Some (pm_tbl_get_temp_thresh env c state src).
Proof.
  intros H Hs Hsrc. unfold pm_tbl_get_temp_thresh. destruct (pm_tm_ovsdb_thermtbl_get_radio_temp _ _ _); [by eexists|].
  destruct (tbl_at_ok c state H Hs) as (st & -> & Hl & _). apply lookup_lt_is_Some. rewrite Hl. unfold OSP_TM_TEMP_SRC_MAX. lia.
Qed.
Lemma mask_ok env c state src : tm_ok c → 0 ≤ state < therm_state_cnt c → 0 ≤ src < 3 → is_Some (pm_tbl_get_radio_txchainmask env c state src).
Proof.
  intros H Hs Hsrc. unfold pm_tbl_get_radio_txchainmask. destruct (pm_tm_ovsdb_thermtbl_get_radio_txchainmask _ _ _); [by eexists|].
  destruct (tbl_at_ok c state H Hs) as (st & -> & _ & Hl). apply lookup_lt_is_Some. rewrite Hl. unfold OSP_TM_TEMP_SRC_MAX. lia.
Qed.
Lemma fanrpm_ok env c state : tm_ok c → 0 ≤ state < therm_state_cnt c → is_Some (pm_tbl_get_fanrpm env c state).
Proof.
  intros H Hs. unfold pm_tbl_get_fanrpm. destruct (pm_tm_ovsdb_thermtbl_get_fan_rpm _ _); [by eexists|].
  destruct (tbl_at_ok c state H Hs) as (st & -> & _). by eexists.
Qed.

(** *** The moving average *)

Lemma sum_list_insert row i old new : row !! i = Some old → sum_list (<[i := new]> row) = sum_list row - old + new.
Proof. revert i. induction row as [|x row IH]; intros [|i] Hi; simplify_eq/=; [lia|]. rewrite IH by done. lia. Qed.
Lemma calc_avg_ok c src temp : tm_ok c → 0 ≤ src < 3 → ∃ row t s,
  temp_avg_meas c !! Z.to_nat src = Some row ∧ length row = OSP_TM_TEMP_AVG_CNT ∧
  let row' := <[temp_avg_idx c := temp]> row in
  t = round_avg (sum_list row') (Z.of_nat (length (filter (λ x, x ≠ 0) row'))) ∧
  pm_calc_temp_moving_avg c src temp = Some (t, with_avg s (<[Z.to_nat src := row']> (temp_avg_meas c)) c) ∧
  tm_ok (with_avg s (<[Z.to_nat src := row']> (temp_avg_meas c)) c).
Proof.
  intros H Hs. pose proof (ok_meas _ H) as Hm. pose proof (ok_len _ H) as Hl. unfold OSP_TM_TEMP_SRC_MAX in Hl.
  destruct (lookup_lt_is_Some_2 (temp_avg_sum c) (Z.to_nat src)) as [sum Hsum]; [lia|].
  destruct (Forall2_lookup_l _ _ _ _ _ Hm Hsum) as (row & Hrow & Hlen & Esum).
  destruct (lookup_lt_is_Some_2 row (temp_avg_idx c)) as [cur Hcur]; [pose proof (ok_idx _ H); lia|].
  set (row' := <[temp_avg_idx c := temp]> row). exists row, (round_avg (sum_list row') (Z.of_nat (length (filter (λ x, x ≠ 0) row')))),
    (<[Z.to_nat src := sum_list row']> (temp_avg_sum c)).
  assert ((if negb (cur =? 0) then sum - cur else sum) + temp = sum_list row') as Es.
  { unfold row'. rewrite (sum_list_insert _ _ cur) by done. destruct (Z.eqb_spec cur 0); cbn [negb]; lia. }
  split; [done|]. split; [done|]. split; [done|]. split.
  - unfold pm_calc_temp_moving_avg. rewrite Hrow. cbn. rewrite Hcur. cbn. rewrite Hsum. cbn. by rewrite Es.
  - destruct H. split; try done; [|cbn; by rewrite length_insert]. cbn. apply Forall2_insert; [done|]. split; [|done].
    unfold row'. by rewrite length_insert.
Qed.

(** *** The highest state *)

Lemma highest_range env c src temp prev n : ∀ state h hi, tm_ok c → 0 ≤ src < 3 → 0 ≤ state → state + Z.of_nat n ≤ therm_state_cnt c →
  0 ≤ hi < therm_state_cnt c → ∃ s, highest_loop env c src temp prev n state h hi = Some s ∧ 0 ≤ s < therm_state_cnt c.
Proof.
  induction n as [|n IH]; intros state h hi H Hs Hst Hn Hhi; [by exists hi|]. cbn [highest_loop].
  destruct (thresh_ok env c state src H) as [t ->]; [lia|done|]. cbn. destruct (_ <? _); [by exists hi|]. apply IH; [done..|lia|lia|lia].
Qed.
Lemma highest_ok env c src temp prev : tm_ok c → 0 ≤ src < 3 →
  ∃ s, pm_get_highest_state env c src temp prev = Some s ∧ 0 ≤ s < therm_state_cnt c.
Proof. intros H Hs. pose proof (ok_states _ H). apply highest_range; [done|done|lia|lia|lia]. Qed.
(** At a temperature above all thresholds it is the last state. *)
Lemma highest_top env c src temp prev n : ∀ state h hi, 0 ≤ h →
  (∀ s, state ≤ s < state + Z.of_nat n → ∃ t, pm_tbl_get_temp_thresh env c s src = Some t ∧ t ≤ temp) →
  highest_loop env c src temp prev n state h hi = Some (if (n =? 0)%nat then hi else state + Z.of_nat n - 1).
Proof.
  induction n as [|n IH]; intros state h hi Hh Ht; [done|]. cbn [highest_loop].
  destruct (Ht state) as (t & -> & Hle); [lia|]. cbn [mbind option_bind]. set (h' := if prev <? state then 0 else h).
  assert (0 ≤ h') by (unfold h'; destruct (_ <? _); lia). destruct (Z.ltb_spec temp (t - h')); [lia|].
  rewrite IH by (done || (intros s Hs; apply Ht; lia)). f_equal. destruct n; cbn; lia.
Qed.

(** *** The loop over the sources *)

Lemma source_loop_ok env n : ∀ src cur s, tm_ok (tm_c s) → 0 ≤ src → src + Z.of_nat n ≤ 3 → 0 ≤ cur < therm_state_cnt (tm_c s) →
  ∃ cur' c', source_loop env n src cur s = Some (cur', TmState c' (tm_outs s)) ∧ tm_ok c' ∧ same_but_avg (tm_c s) c' ∧
    cur ≤ cur' < therm_state_cnt (tm_c s).
Proof.
  induction n as [|n IH]; intros src cur s H Hs Hn Hc.
  { exists cur, (tm_c s). split_and!; [by destruct s|done|apply same_refl|lia|lia]. }
  cbn [source_loop]. destruct (pm_is_temp_src_enabled env src); cbn [negb]; [|apply IH; [done|lia..]].
  destruct (src_temp env src) as [temp|]; [|apply IH; [done|lia..]]. unfold mbind, M_bind, gets.
  destruct (calc_avg_ok (tm_c s) src temp H) as (row & t & sm & _ & _ & _ & -> & Hok); [lia|]. cbn [deref mret M_ret upd modify].
  set (c1 := with_avg _ _ _) in *. unfold deref at 1, mret, M_ret, upd, modify.
  destruct (highest_ok env c1 src t (prev_state c1) Hok) as (st & -> & Hst); [lia|]. unfold deref, mret, M_ret.
  change (therm_state_cnt c1) with (therm_state_cnt (tm_c s)) in Hst.
  destruct (IH (src + 1) (if cur <? st then st else cur) (TmState c1 (tm_outs s))) as (cur' & c' & E & Hok' & Hsame & Hr);
    [done|lia|lia|cbn; destruct (Z.ltb_spec cur st); lia|].
  exists cur', c'. split_and!; [exact E|done| |destruct (Z.ltb_spec cur st); cbn in Hr; lia|cbn in Hr; lia].
  eapply same_trans; [apply same_avg|exact Hsame].
Qed.

(** *** One period *)

Lemma fan_run desired rpm s : ∃ ff o, pm_detect_fan_failure desired rpm s =
  Some (tt, TmState (with_failure ff (tm_c s)) (tm_outs s ++ o)) ∧ OReboot ∉ o.
Proof.
  unfold pm_detect_fan_failure, mbind, M_bind, gets. destruct (_ || _).
  - unfold upd, out, modify, mret, M_ret. destruct (_ <? _); [eexists _, _; split; [done|set_solver]|].
    eexists _, []. rewrite app_nil_r. split; [done|set_solver].
  - destruct (negb _); unfold upd, out, modify, mret, M_ret.
    + eexists _, _. split; [done|set_solver].
    + exists (fan_failure (tm_c s)), []. rewrite app_nil_r. split; [by destruct s as [[]]|set_solver].
Qed.
(** The counter of periods in the last state, after one that ends in [cur]. *)
Definition next_crit (c : tm_ctx) (cur : Z) : Z :=
  if therm_state_cnt c - 1 <=? cur then wrapu 32 (crit_temp_periods c + 1) else 0.
Lemma over_run cur s : 1 ≤ therm_state_cnt (tm_c s) < 2 ^ 32 → 0 ≤ crit_temp_periods (tm_c s) → let n := next_crit (tm_c s) cur in
  ∃ o, pm_detect_over_temperature cur s = Some (tt, TmState (with_crit n (tm_c s)) (tm_outs s ++ o)) ∧
    (OReboot ∈ o ↔ CONFIG_PM_TM_CRITICAL_TEMPERATURE_PERIOD_TOLERANCE < n).
Proof.
  intros Hn Hc n. unfold pm_detect_over_temperature, mbind, M_bind, gets.
  assert (wrapu 32 (therm_state_cnt (tm_c s) - 1) = therm_state_cnt (tm_c s) - 1) as -> by (apply Z.mod_small; lia).
  unfold n, next_crit. destruct (Z.leb_spec (therm_state_cnt (tm_c s) - 1) cur) as [Htop|Hlow].
  - assert (∀ s' o, tm_c s' = tm_c s → tm_outs s' = tm_outs s ++ o → OReboot ∉ o → let k := wrapu 32 (crit_temp_periods (tm_c s) + 1) in
      ∃ o', (upd (with_crit k);; (if CONFIG_PM_TM_CRITICAL_TEMPERATURE_PERIOD_TOLERANCE <? k then pm_tm_reboot else mret tt)) s' =
        Some (tt, TmState (with_crit k (tm_c s)) (tm_outs s ++ o')) ∧ (OReboot ∈ o' ↔ CONFIG_PM_TM_CRITICAL_TEMPERATURE_PERIOD_TOLERANCE < k)) as Hend.
    { intros s' o Ec Eo Ho k. unfold mbind, M_bind, upd, modify, pm_tm_reboot, out, modify, mret, M_ret. cbn [tm_outs tm_c]. rewrite Ec, Eo.
      destruct (Z.ltb_spec CONFIG_PM_TM_CRITICAL_TEMPERATURE_PERIOD_TOLERANCE k).
      - cbn [tm_outs tm_c]. eexists. split; [by rewrite <- app_assoc|]. set_solver.
      - eexists. split; [done|]. split; [done|lia]. }
    destruct (_ =? 0); unfold out, modify, mret, M_ret.
    + apply (Hend (TmState (tm_c s) (tm_outs s ++ [OLed OSP_LED_ST_THERMAL false])) [OLed OSP_LED_ST_THERMAL false]); [done..|set_solver].
    + apply (Hend s []); [done|by rewrite app_nil_r|set_solver].
  - unfold CONFIG_PM_TM_CRITICAL_TEMPERATURE_PERIOD_TOLERANCE. destruct (Z.ltb_spec 0 (crit_temp_periods (tm_c s))) as [Hp|Hz]; unfold upd, out, modify, mret, M_ret.
    + eexists. split; [done|]. split; [set_solver|lia].
    + exists []. rewrite app_nil_r. assert (crit_temp_periods (tm_c s) = 0) as E by lia. split; [|split; [set_solver|lia]].
      destruct s as [[] ?]. cbn in *. by subst.
Qed.
Lemma chainmask_run env n : ∀ src new s, tm_ok (tm_c s) → 0 ≤ src → src + Z.of_nat n ≤ 3 → 0 ≤ new < therm_state_cnt (tm_c s) →
  ∃ o, chainmask_loop env n src new s = Some (tt, TmState (tm_c s) (tm_outs s ++ o)) ∧ OReboot ∉ o.
Proof.
  induction n as [|n IH]; intros src new s H Hs Hn Hnew; [exists []; rewrite app_nil_r; split; [by destruct s|set_solver]|].
  cbn [chainmask_loop]. unfold mbind, M_bind, gets. pose proof (ok_prev _ H).
  destruct (mask_ok env (tm_c s) (prev_state (tm_c s)) src H) as [old ->]; [done|lia|].
  destruct (mask_ok env (tm_c s) new src H) as [m ->]; [done|lia|]. unfold deref, mret, M_ret, out, modify.
  destruct (negb _).
  - destruct (IH (src + 1) new (TmState (tm_c s) (tm_outs s ++ [OTxChainmask (src_name env src) m])) H) as (o & -> & Ho); [lia|lia|cbn; lia|].
    eexists. cbn [tm_outs tm_c]. rewrite <- app_assoc. split; [done|set_solver].
  - apply IH; [done|lia..].
Qed.
Lemma with_ok rpm st i ff n c : tm_ok c → 0 ≤ st < therm_state_cnt c → (i < OSP_TM_TEMP_AVG_CNT)%nat →
  tm_ok (with_prev rpm st i (with_crit n (with_failure ff c))).
Proof. intros [] ? ?. by split. Qed.
(** A period: the sources give a state, which is limited to the next one; the counters
    follow; a reboot is asked for when the counter is beyond its limit. *)
Lemma tick_run env c : tm_ok c → 0 ≤ crit_temp_periods c → ∃ cur c1 o rpm ff,
  source_loop env (Z.to_nat (temp_src_cnt c)) 0 0 (TmState c []) = Some (cur, TmState c1 []) ∧ tm_ok c1 ∧ same_but_avg c c1 ∧
  0 ≤ cur < therm_state_cnt c ∧ let st := limit_state cur (prev_state c) in 0 ≤ st < therm_state_cnt c ∧ Z.abs (st - prev_state c) ≤ 1 ∧
  tm_tick env c = Some (o, with_prev rpm st (S (temp_avg_idx c) mod OSP_TM_TEMP_AVG_CNT) (with_crit (next_crit c st) (with_failure ff c1))) ∧
  (OReboot ∈ o ↔ CONFIG_PM_TM_CRITICAL_TEMPERATURE_PERIOD_TOLERANCE < next_crit c st).
Proof.
  intros H Hcrit. pose proof (ok_states _ H). pose proof (ok_prev _ H). pose proof (ok_srcs _ H).
  destruct (source_loop_ok env (Z.to_nat (temp_src_cnt c)) 0 0 (TmState c []) H) as (cur & c1 & E & Hok & Hsame & Hcur); [lia|lia|cbn; lia|].
  cbn [tm_c tm_outs] in *. pose proof Hsame as Es. unfold same_but_avg in Es. exists cur, c1.
  set (st := limit_state cur (prev_state c)).
  assert (0 ≤ st < therm_state_cnt c ∧ Z.abs (st - prev_state c) ≤ 1) as [Hst Hone].
  { unfold st, limit_state. destruct (Z.ltb_spec (prev_state c) cur); [lia|]. destruct (Z.ltb_spec cur (prev_state c)); lia. }
  unfold tm_tick, pm_therm_cb, mbind, M_bind, gets. cbn [tm_c]. rewrite E. fold st.
  destruct (fan_run (prev_fan_rpm c) (default 0 (env_fan_rpm env)) (TmState c1 [])) as (ff & o1 & -> & Ho1). cbn [tm_c tm_outs app].
  assert (therm_state_cnt c1 = therm_state_cnt c ∧ crit_temp_periods c1 = crit_temp_periods c ∧ prev_state c1 = prev_state c ∧
    temp_avg_idx c1 = temp_avg_idx c ∧ temp_src_cnt c1 = temp_src_cnt c) as (Ecnt & Ecrit & Eprev & Eidx & Esrc) by (rewrite Es; done).
  destruct (over_run st (TmState (with_failure ff c1) o1)) as (o2 & -> & Ho2); [cbn; lia|cbn; lia|]. cbn [tm_c tm_outs].
  set (c2 := with_crit _ _). assert (tm_ok c2) as Hok2 by (destruct Hok; by split).
  assert (next_crit (with_failure ff c1) st = next_crit c st) as En by (unfold next_crit; cbn; by rewrite Ecnt, Ecrit).
  destruct (fanrpm_ok env c2 st Hok2) as [rpm Erpm]; [cbn; lia|]. rewrite Erpm. unfold deref, mret, M_ret.
  assert (∃ o3, (if negb (st =? prev_state c2) then pm_set_new_state env st else λ s, Some (tt, s)) (TmState c2 (o1 ++ o2)) =
    Some (tt, TmState c2 ((o1 ++ o2) ++ o3)) ∧ OReboot ∉ o3) as (o3 & -> & Ho3).
  { destruct (negb _); [|exists []; rewrite app_nil_r; split; [done|set_solver]]. unfold pm_set_new_state, mbind, M_bind, gets. cbn [tm_c].
    destruct (chainmask_run env (Z.to_nat (temp_src_cnt c2)) 0 st (TmState c2 (o1 ++ o2)) Hok2) as (o & -> & Ho); [lia|cbn; lia|cbn; lia|].
    unfold out, modify. eexists. cbn [tm_c tm_outs]. rewrite <- app_assoc. split; [done|set_solver]. }
  unfold out, upd, modify. cbn [tm_c tm_outs]. eexists _, rpm, ff. split_and!; [done..|lia|lia|lia|lia|done| |].
  - cbn [option_bind]. do 2 f_equal. rewrite <- En. unfold c2. cbn. by rewrite Eidx.
  - rewrite <- En, <- Ho2. set_solver.
Qed.

(** ** Thermal management: a source that stays hot drives the state to the last one. *)

Lemma thresh_same env c c' s src : same_but_avg c c' → pm_tbl_get_temp_thresh env c' s src = pm_tbl_get_temp_thresh env c s src.
Proof. unfold same_but_avg. intros ->. done. Qed.

Section heat.
Context (src T : Z).
(** What the source shows in a period: it is on, reads at least [T], and [T] is beyond
    every threshold of the table. *)
Record hot_env (c : tm_ctx) (env : tm_env) (t : Z) : Prop := HotEnv {
  he_on : pm_is_temp_src_enabled env src = true; he_temp : src_temp env src = Some t; he_hot : T ≤ t;
  he_thresh : ∀ s, 0 ≤ s < therm_state_cnt c → ∃ x, pm_tbl_get_temp_thresh env c s src = Some x ∧ x ≤ T }.
Lemma hot_env_same c c' env t : same_but_avg c c' → hot_env c env t → hot_env c' env t.
Proof.
  intros Hs [H1 H2 H3 H4]. split; [done..|]. intros s. rewrite (thresh_same _ _ _ _ _ Hs). unfold same_but_avg in Hs. rewrite Hs. apply H4.
Qed.

(** A full window of hot readings has a hot average. *)
Lemma round_avg_ge row : length row = 3%nat → 0 < T → Forall (λ x, T ≤ x) row →
  T ≤ round_avg (sum_list row) (Z.of_nat (length (filter (λ x, x ≠ 0) row))).
Proof.
  intros Hl HT Hr. destruct row as [|a [|b [|d []]]]; try done. rewrite !Forall_cons in Hr. destruct Hr as (Ha & Hb & Hd & _).
  rewrite !filter_cons, !decide_True by lia. simpl. unfold round_avg. simpl.
  assert (T ≤ Z.quot (a + (b + (d + 0))) 3) by (rewrite Z.quot_div_nonneg by lia; apply Z.div_le_lower_bound; lia).
  destruct (_ <=? _); lia.
Qed.
Lemma highest_hot env c t temp : hot_env c env t → tm_ok c → T ≤ temp → pm_get_highest_state env c src temp (prev_state c) = Some (therm_state_cnt c - 1).
Proof.
  intros H Hok Ht. pose proof (ok_states _ Hok). unfold pm_get_highest_state. rewrite highest_top.
  - destruct (Nat.eqb_spec (Z.to_nat (therm_state_cnt c)) 0); [lia|]. f_equal. lia.
  - unfold CONFIG_PM_TM_TEMPERATURE_HYSTERESIS. lia.
  - intros s Hs. destruct (he_thresh _ _ _ H s) as (x & Hx & Hle); [lia|]. exists x. split; [done|lia].
Qed.

Definition row_of (c : tm_ctx) : option (list Z) := temp_avg_meas c !! Z.to_nat src.
(** The sources behind this one leave its measurements alone. *)
Lemma source_loop_keeps env n : ∀ s0 cur s cur' s', tm_ok (tm_c s) → src < s0 → 0 ≤ src → s0 + Z.of_nat n ≤ 3 →
  source_loop env n s0 cur s = Some (cur', s') → row_of (tm_c s') = row_of (tm_c s).
Proof.
  induction n as [|n IH]; intros s0 cur s cur' s' H Hs H0 Hn E; [by injection E as <- <-|]. cbn [source_loop] in E.
  destruct (pm_is_temp_src_enabled env s0); cbn [negb] in E; [|exact (IH (s0 + 1) _ _ _ _ H ltac:(lia) H0 ltac:(lia) E)].
  destruct (src_temp env s0) as [temp|]; [|exact (IH (s0 + 1) _ _ _ _ H ltac:(lia) H0 ltac:(lia) E)]. unfold mbind, M_bind, gets in E.
  destruct (calc_avg_ok (tm_c s) s0 temp H) as (row & t & sm & Hrow & _ & _ & Ec & Hok); [lia|]. rewrite Ec in E.
  unfold deref, mret, M_ret, upd, modify in E. set (c1 := with_avg _ _ _) in *. cbn [tm_c] in E.
  destruct (highest_ok env c1 s0 t (prev_state c1) Hok) as (st & Est & _); [lia|]. rewrite Est in E.
  rewrite (IH (s0 + 1) _ (TmState c1 (tm_outs s)) _ _ Hok ltac:(lia) H0 ltac:(lia) E). unfold row_of, c1. cbn. rewrite list_lookup_insert_ne by lia. done.
Qed.
(** The loop records the reading, and finds the last state if the window is hot. *)
Lemma source_loop_hot env n t : ∀ s0 cur s, tm_ok (tm_c s) → 0 ≤ s0 ≤ src → src < s0 + Z.of_nat n ≤ 3 →
  0 ≤ cur < therm_state_cnt (tm_c s) → hot_env (tm_c s) env t → 0 < T → ∃ row cur' s',
  source_loop env n s0 cur s = Some (cur', s') ∧ row_of (tm_c s) = Some row ∧ length row = 3%nat ∧
  let row' := <[temp_avg_idx (tm_c s) := t]> row in
  row_of (tm_c s') = Some row' ∧ (Forall (λ x, T ≤ x) row' → cur' = therm_state_cnt (tm_c s) - 1).
Proof.
  induction n as [|n IH]; intros s0 cur s H Hs Hn Hc He HT; [lia|]. cbn [source_loop].
  destruct (decide (s0 = src)) as [->|Hne].
  - rewrite (he_on _ _ _ He), (he_temp _ _ _ He). cbn [negb]. unfold mbind, M_bind, gets.
    destruct (calc_avg_ok (tm_c s) src t H) as (row & avg & sm & Hrow & Hlen & Havg & -> & Hok); [lia|].
    unfold deref at 1, mret, M_ret, upd, modify. set (c1 := with_avg _ _ _) in *. cbn [tm_c].
    destruct (highest_ok env c1 src avg (prev_state c1) Hok) as (st & Est & Hst); [lia|]. rewrite Est. unfold deref, mret, M_ret.
    change (therm_state_cnt c1) with (therm_state_cnt (tm_c s)) in Hst.
    destruct (source_loop_ok env n (src + 1) (if cur <? st then st else cur) (TmState c1 (tm_outs s))) as (cur' & c' & E & _ & _ & Hr);
      [done|lia|lia|cbn; destruct (Z.ltb_spec cur st); lia|]. exists row, cur', (TmState c' (tm_outs s)). split_and!; [exact E|done|done| |].
    + etrans; [exact (source_loop_keeps env n (src + 1) _ (TmState c1 (tm_outs s)) _ _ Hok ltac:(lia) ltac:(lia) ltac:(lia) E)|].
      unfold row_of, c1. cbn. rewrite list_lookup_insert_eq; [done|].
      by eapply lookup_lt_Some.
    + intros Hall. assert (T ≤ avg) as Hge.
      { rewrite Havg. apply round_avg_ge; [by rewrite length_insert|done|done]. }
      rewrite (highest_hot env c1 t avg (hot_env_same _ _ _ _ (same_avg _ _ _) He) Hok Hge) in Est. injection Est as <-.
      cbn in Hr. change (therm_state_cnt c1) with (therm_state_cnt (tm_c s)) in *. destruct (Z.ltb_spec cur (therm_state_cnt (tm_c s) - 1)); lia.
  - destruct (pm_is_temp_src_enabled env s0); cbn [negb]; [|apply IH; [done|lia..|done|done]].
    destruct (src_temp env s0) as [temp|]; [|apply IH; [done|lia..|done|done]]. unfold mbind, M_bind, gets.
    destruct (calc_avg_ok (tm_c s) s0 temp H) as (row0 & avg & sm & Hrow0 & _ & _ & -> & Hok); [lia|].
    unfold deref at 1, mret, M_ret, upd, modify. set (c1 := with_avg _ _ _) in *. cbn [tm_c].
    destruct (highest_ok env c1 s0 avg (prev_state c1) Hok) as (st & -> & Hst); [lia|]. unfold deref, mret, M_ret.
    change (therm_state_cnt c1) with (therm_state_cnt (tm_c s)) in Hst.
    destruct (IH (s0 + 1) (if cur <? st then st else cur) (TmState c1 (tm_outs s))) as (row & cur' & s' & E & Hrow & Hrest);
      [done|lia|lia|cbn; destruct (Z.ltb_spec cur st); lia|by apply (hot_env_same (tm_c s))|done|]. exists row, cur', s'. split; [exact E|].
    split; [|exact Hrest]. rewrite <- Hrow. unfold row_of, c1. cbn. by rewrite list_lookup_insert_ne by lia.
Qed.

(** The last [m] readings of the window are hot. *)
Definition recent (c : tm_ctx) (m : nat) : Prop := ∃ row, row_of c = Some row ∧ length row = 3%nat ∧
  ∀ j, (1 ≤ j ≤ m)%nat → ∃ x, row !! ((temp_avg_idx c + 3 - j) mod 3)%nat = Some x ∧ T ≤ x.
Lemma recent_step idx row t m : (idx < 3)%nat → length row = 3%nat → (m ≤ 3)%nat → T ≤ t →
  (∀ j, (1 ≤ j ≤ m)%nat → ∃ x, row !! ((idx + 3 - j) mod 3)%nat = Some x ∧ T ≤ x) →
  ∀ j, (1 ≤ j ≤ Nat.min 3 (S m))%nat → ∃ x, <[idx := t]> row !! ((S idx mod 3 + 3 - j) mod 3)%nat = Some x ∧ T ≤ x.
Proof.
  intros Hi Hl Hm Ht Hr j Hj. destruct (decide (j = 1)%nat) as [->|Hne].
  - exists t. split; [|done]. assert ((S idx mod 3 + 3 - 1) mod 3 = idx)%nat as -> by (destruct idx as [|[|[|]]]; [done..|lia]).
    apply list_lookup_insert_eq. lia.
  - destruct (Hr (j - 1)%nat) as (x & Hx & Hle); [lia|]. exists x. split; [|done].
    assert ((S idx mod 3 + 3 - j) mod 3 = (idx + 3 - (j - 1)) mod 3 ∧ (idx + 3 - (j - 1)) mod 3 ≠ idx)%nat as [-> Hd].
    { destruct idx as [|[|[|]]], j as [|[|[|[|]]]]; try lia; done. }
    by rewrite list_lookup_insert_ne.
Qed.
Lemma recent_full idx row : (idx < 3)%nat → length row = 3%nat →
  (∀ j, (1 ≤ j ≤ 3)%nat → ∃ x, row !! ((idx + 3 - j) mod 3)%nat = Some x ∧ T ≤ x) → Forall (λ x, T ≤ x) row.
Proof.
  intros Hi Hl Hr. apply Forall_lookup. intros i x Hx. assert (i < 3)%nat as Hi3 by (rewrite <- Hl; by eapply lookup_lt_Some).
  destruct (Hr (if decide (i < idx)%nat then idx - i else idx + 3 - i)%nat) as (y & Hy & Hle); [destruct (decide _); lia|].
  assert (((idx + 3 - (if decide (i < idx)%nat then idx - i else idx + 3 - i)) mod 3)%nat = i) as Em.
  { destruct (decide _); [replace (idx + 3 - (idx - i))%nat with (i + 1 * 3)%nat by lia; rewrite Nat.Div0.mod_add|
      replace (idx + 3 - (idx + 3 - i))%nat with i by lia]; by apply Nat.mod_small. }
  rewrite Em in Hy. congruence.
Qed.

(** *** Periods *)

Lemma hot_env_tbl c c' env t : therm_tbl c' = therm_tbl c → therm_state_cnt c' = therm_state_cnt c → hot_env c env t → hot_env c' env t.
Proof.
  intros Et En [H1 H2 H3 H4]. split; [done..|]. intros s. rewrite En. intros Hs. destruct (H4 s Hs) as (x & Hx & Hle). exists x.
  split; [|done]. rewrite <- Hx. unfold pm_tbl_get_temp_thresh, tbl_at. by rewrite Et.
Qed.
Lemma tick_hot env c t m : tm_ok c → 0 ≤ crit_temp_periods c → 0 ≤ src < temp_src_cnt c → hot_env c env t → 0 < T →
  recent c m → (m ≤ 3)%nat → ∃ o c', tm_tick env c = Some (o, c') ∧ tm_ok c' ∧ 0 ≤ crit_temp_periods c' ∧ recent c' (Nat.min 3 (S m)) ∧
  therm_tbl c' = therm_tbl c ∧ therm_state_cnt c' = therm_state_cnt c ∧ temp_src_cnt c' = temp_src_cnt c ∧
  ((2 ≤ m)%nat → Z.min (therm_state_cnt c - 1) (prev_state c + 1) ≤ prev_state c').
Proof.
  intros H Hcr Hsrc He HT (row & Hrow & Hlen & Hrec) Hm. pose proof (ok_srcs _ H). pose proof (ok_states _ H). pose proof (ok_idx _ H) as Hidx.
  destruct (tick_run env c H Hcr) as (cur & c1 & o & rpm & ff & E & Hok & Hsame & Hcur & Hst & Hone & Et & _).
  destruct (source_loop_hot env (Z.to_nat (temp_src_cnt c)) t 0 0 (TmState c [])) as (row0 & cur0 & s0 & E0 & Hrow0 & _ & Hrow1 & Htop);
    [done|lia|lia|cbn; lia|done|done|]. cbn [tm_c] in *. rewrite E in E0. injection E0 as <- <-. cbn [tm_c] in *.
  assert (row0 = row) as -> by congruence. unfold same_but_avg in Hsame. eexists _, _. split; [exact Et|].
  assert (∀ j, (1 ≤ j ≤ Nat.min 3 (S m))%nat → ∃ x, <[temp_avg_idx c := t]> row !! ((S (temp_avg_idx c) mod 3 + 3 - j) mod 3)%nat = Some x ∧ T ≤ x) as Hrec'
    by (apply recent_step; [done..|apply He|done]).
  split_and!.
  - apply with_ok; [done|by rewrite Hsame|]. by apply Nat.mod_upper_bound.
  - cbn. unfold next_crit. destruct (_ <=? _); [|lia]. unfold wrapu. apply Z.mod_pos_bound. lia.
  - exists (<[temp_avg_idx c := t]> row). split; [exact Hrow1|]. split; [by rewrite length_insert|exact Hrec'].
  - cbn. by rewrite Hsame.
  - cbn. by rewrite Hsame.
  - cbn. by rewrite Hsame.
  - intros Hm2. assert (cur = therm_state_cnt c - 1) as ->.
    { apply Htop. apply (recent_full (S (temp_avg_idx c) mod 3)); [by apply Nat.mod_upper_bound|by rewrite length_insert|].
      intros j Hj. apply Hrec'. lia. }
    cbn. unfold limit_state. pose proof (ok_prev _ H). destruct (Z.ltb_spec (prev_state c) (therm_state_cnt c - 1)); [lia|].
    destruct (Z.ltb_spec (therm_state_cnt c - 1) (prev_state c)); lia.
Qed.
(** The state is at least the number of periods since the window is full. *)
Lemma run_hot envs : ∀ c m L, tm_ok c → 0 ≤ crit_temp_periods c → 0 ≤ src < temp_src_cnt c → 0 < T →
  Forall (λ env, ∃ t, hot_env c env t) envs → recent c m → (m ≤ 3)%nat → 0 ≤ L ≤ prev_state c → ((m < 2)%nat → L = 0) →
  ∃ os c', tm_run envs c = Some (os, c') ∧ length os = length envs ∧ ∀ i o st, os !! i = Some (o, st) →
    Z.min (therm_state_cnt c - 1) (L + Z.of_nat i + 1 - (2 - Z.of_nat (Nat.min m 2))) ≤ st.
Proof.
  induction envs as [|env envs IH]; intros c m L H Hcr Hsrc HT He Hrec Hm HL HL0; [by exists [], c|].
  apply Forall_cons in He as [[t He] Hes]. pose proof (ok_states _ H).
  destruct (tick_hot env c t m H Hcr Hsrc He HT Hrec Hm) as (o & c1 & E & Hok1 & Hcr1 & Hrec1 & Et & En & Es & Hup).
  pose proof (ok_prev _ Hok1) as Hp1. rewrite En in Hp1.
  set (L1 := if decide (2 ≤ m)%nat then Z.min (therm_state_cnt c - 1) (L + 1) else 0).
  destruct (IH c1 (Nat.min 3 (S m)) L1 Hok1 Hcr1) as (os & c' & Er & Hlen & Hb); [lia|done| |done|lia| | |].
  - eapply Forall_impl; [exact Hes|]. intros env' [t' He']. exists t'. by apply (hot_env_tbl c).
  - unfold L1. destruct (decide _) as [Hm2|]; [specialize (Hup Hm2); lia|lia].
  - unfold L1. destruct (decide _); [lia|done].
  - cbn [tm_run]. rewrite E. cbn [option_bind mbind]. rewrite Er. cbn [option_bind mbind]. eexists _, c'. split; [done|].
    split; [cbn [length]; by rewrite Hlen|]. intros [|i] o' st Hi; [injection Hi as <- <-|change (os !! i = Some (o', st)) in Hi].
    + destruct (decide (2 ≤ m)%nat) as [Hm2|Hm2]; [specialize (Hup Hm2); lia|]. rewrite (HL0 ltac:(lia)). lia.
    + specialize (Hb i o' st Hi). rewrite En in Hb. unfold L1 in Hb. destruct (decide (2 ≤ m)%nat) as [Hm2|Hm2]; [lia|].
      rewrite (HL0 ltac:(lia)). lia.
Qed.
End heat.
