(* ===== verification/PmTmProps.v ===== *)
(** The theorems on thermal management. *)
From S2P Require Import Prelude PmTm PmTmThms.
Local Open Scope Z_scope.

(** A table as [osp_tm_init] documents it: one row per state, one entry per source. *)
Definition tbl_ok (tbl : list therm_state) (states srcs : Z) : Prop :=
  1 ≤ states < 2 ^ 32 ∧ Z.of_nat (length tbl) = states ∧ Forall row_ok tbl ∧ 0 ≤ srcs ≤ 3.
Lemma tm_init_ok tbl states srcs rpm : tbl_ok tbl states srcs → tm_ok (pm_tm_init (Some (tbl, states, srcs)) rpm).
Proof. intros (? & ? & ? & ?). split; cbn; try done; [lia|unfold OSP_TM_TEMP_AVG_CNT; lia|repeat constructor]. Qed.

Lemma tm_tick_ok env c : tm_ok c → 0 ≤ crit_temp_periods c → ∃ o c', tm_tick env c = Some (o, c') ∧ tm_ok c' ∧ 0 ≤ crit_temp_periods c' ∧
  therm_state_cnt c' = therm_state_cnt c ∧ Z.abs (prev_state c' - prev_state c) ≤ 1.
Proof.
  intros H Hc. destruct (tick_run env c H Hc) as (cur & c1 & o & rpm & ff & _ & Hok & Hsame & Hcur & Hst & Hone & E & _).
  unfold same_but_avg in Hsame. eexists _, _. split; [exact E|]. split_and!.
  - apply with_ok; [done|by rewrite Hsame|]. apply Nat.mod_upper_bound. done.
  - cbn. unfold next_crit. destruct (_ <=? _); [|lia]. unfold wrapu. apply Z.mod_pos_bound. lia.
  - cbn. by rewrite Hsame.
  - exact Hone.
Qed.
Lemma tm_run_ok envs : ∀ c, tm_ok c → 0 ≤ crit_temp_periods c → ∃ os c', tm_run envs c = Some (os, c') ∧ tm_ok c' ∧
  length os = length envs ∧ Forall (λ x, 0 ≤ x.2 < therm_state_cnt c) os ∧
  (∀ i a b, (prev_state c :: os.*2) !! i = Some a → os.*2 !! i = Some b → Z.abs (b - a) ≤ 1).
Proof.
  induction envs as [|env envs IH]; intros c H Hc; [by exists [], c|].
  destruct (tm_tick_ok env c H Hc) as (o & c1 & E & Hok & Hc1 & Hcnt & Hone). cbn [tm_run]. rewrite E. cbn [option_bind mbind].
  destruct (IH c1 Hok Hc1) as (os & c' & -> & Hok' & Hlen & Hr & Hstep). cbn [option_bind mbind]. eexists _, c'. split; [done|].
  split_and!; [done|by simpl; rewrite Hlen| |].
  - constructor; [cbn; rewrite <- Hcnt; apply Hok|by rewrite <- Hcnt].
  - intros [|i] a b Ha Hb; simplify_eq/=; [done|]. by apply (Hstep i).
Qed.

(** C15. From the table of the platform on, whatever the sensors, the fan and the rows that
    override the table answer: every period runs to its end without an access outside of
    the table or the arrays, the states stay inside of the table and move by one at
    most. *)
Theorem tm_states_safe tbl states srcs rpm envs : tbl_ok tbl states srcs →
  ∃ os c, tm_run envs (pm_tm_init (Some (tbl, states, srcs)) rpm) = Some (os, c) ∧ length os = length envs ∧
    Forall (λ x, 0 ≤ x.2 < states) os ∧ (∀ i a b, (0 :: os.*2) !! i = Some a → os.*2 !! i = Some b → Z.abs (b - a) ≤ 1).
Proof.
  intros H. destruct (tm_run_ok envs _ (tm_init_ok tbl states srcs rpm H) ltac:(done)) as (os & c & E & _ & Hl & Hr & Hs).
  by exists os, c.
Qed.
(** Two states for one source; the second from 90 degrees on. *)
Definition ex_tbl : list therm_state := [ThermState [0; 0; 0] [7; 7; 7] 1000; ThermState [90; 90; 90] [1; 1; 1] 3000].
Lemma ex_tbl_ok : tbl_ok ex_tbl 2 1.
Proof. repeat split; try lia. repeat constructor. Qed.
Definition ex_env (t : Z) : tm_env := TmEnv (λ _, Some "wifi0") {[ "wifi0" := true ]} (λ _, Some t) (Some 1000) ∅.
Lemma tm_states_safe_witness : ∃ os c, tm_run [ex_env 95; ex_env 40] (pm_tm_init (Some (ex_tbl, 2, 1)) None) = Some (os, c) ∧
  length os = 2%nat ∧ Forall (λ x, 0 ≤ x.2 < 2) os ∧
  (∀ i a b, (0 :: os.*2) !! i = Some a → os.*2 !! i = Some b → Z.abs (b - a) ≤ 1).
Proof. apply (tm_states_safe ex_tbl 2 1 None [ex_env 95; ex_env 40]). exact ex_tbl_ok. Defined.

(** *** Rebooting *)

Definition hot (states k st : Z) : Z := if states - 1 <=? st then k + 1 else 0.
Lemma run_reboots envs : ∀ c os c', tm_ok c → 0 ≤ crit_temp_periods c → crit_temp_periods c + Z.of_nat (length envs) < 2 ^ 32 →
  tm_run envs c = Some (os, c') → ∀ i o st, os !! i = Some (o, st) →
  (OReboot ∈ o ↔ CONFIG_PM_TM_CRITICAL_TEMPERATURE_PERIOD_TOLERANCE < foldl (hot (therm_state_cnt c)) (crit_temp_periods c) (take (S i) os.*2)).
Proof.
  induction envs as [|env envs IH]; intros c os c' H Hc Hb Hrun i o st Hi; [by simplify_eq/=|].
  destruct (tick_run env c H Hc) as (cur & c1 & o1 & rpm & ff & _ & Hok & Hsame & Hcur & Hst & Hone & E & Ho).
  unfold same_but_avg in Hsame. cbn [tm_run] in Hrun. rewrite E in Hrun. cbn [option_bind mbind] in Hrun.
  set (c2 := with_prev _ _ _ _) in *.
  assert (tm_ok c2) as Hok2 by (apply with_ok; [done|by rewrite Hsame|by apply Nat.mod_upper_bound]).
  destruct (tm_run envs c2) as [[os' c3]|] eqn:E2; simplify_eq/=.
  assert (therm_state_cnt c1 = therm_state_cnt c) as Hcnt by (by rewrite Hsame).
  assert (next_crit c (limit_state cur (prev_state c)) = hot (therm_state_cnt c) (crit_temp_periods c) (limit_state cur (prev_state c))) as En.
  { unfold next_crit, hot. destruct (_ <=? _); [|done]. apply Z.mod_small. simpl in Hb. lia. }
  destruct i as [|i]; simplify_eq/=; [by rewrite <- En|].
  assert (crit_temp_periods c2 = hot (therm_state_cnt c) (crit_temp_periods c) (limit_state cur (prev_state c))) as Ec2 by exact En.
  assert (0 ≤ crit_temp_periods c2 ≤ crit_temp_periods c + 1) as Hr by (rewrite Ec2; unfold hot; destruct (_ <=? _); lia).
  rewrite (IH c2 os' c' Hok2 ltac:(lia) ltac:(lia) E2 i o st Hi). rewrite Ec2. unfold c2. cbn. by rewrite Hcnt.
Qed.
(** The counter is at [k] or more exactly after [k] hot states in a row. *)
Lemma hot_run states l k : (0 < k)%nat → Z.of_nat k ≤ foldl (hot states) 0 l ↔
  (k ≤ length l)%nat ∧ Forall (λ st, states - 1 ≤ st) (drop (length l - k) l).
Proof.
  revert k. induction l as [|st l IH] using rev_ind; intros k Hk; [simpl; split; [lia|intros [? _]; lia]|].
  rewrite foldl_app, length_app. cbn [foldl length]. unfold hot at 1. destruct (Z.leb_spec (states - 1) st) as [Hhot|Hcold].
  - destruct (decide (k = 1)%nat) as [->|Hne].
    + replace (length l + 1 - 1)%nat with (length l) by lia. rewrite drop_app_length. split; [intros _; split; [lia|by constructor]|].
      intros _. assert (∀ l k, 0 ≤ k → 0 ≤ foldl (hot states) k l) as Hnn; [|specialize (Hnn l 0); lia].
      clear. induction l as [|x l IH]; intros k Hk; [done|]. cbn. apply IH. unfold hot. destruct (_ <=? _); lia.
    + replace (length l + 1 - k)%nat with (length l - (k - 1))%nat by lia. rewrite drop_app_le, Forall_app by lia.
      assert (Z.of_nat k ≤ foldl (hot states) 0 l + 1 ↔ Z.of_nat (k - 1) ≤ foldl (hot states) 0 l) as -> by lia.
      rewrite IH by lia. rewrite Forall_singleton. intuition lia.
  - split; [lia|]. intros [_ Hf]. rewrite drop_app_le, Forall_app, Forall_singleton in Hf by lia. lia.
Qed.

Lemma reboot_iff tbl states srcs rpm envs os c i o st : tbl_ok tbl states srcs → Z.of_nat (length envs) < 2 ^ 32 →
  tm_run envs (pm_tm_init (Some (tbl, states, srcs)) rpm) = Some (os, c) → os !! i = Some (o, st) →
  OReboot ∈ o ↔ (2 ≤ i)%nat ∧ ∀ j o' st', (i - 2 ≤ j ≤ i)%nat → os !! j = Some (o', st') → st' = states - 1.
Proof.
  intros H Hl Hrun Hi. pose proof (tm_init_ok tbl states srcs rpm H) as Hok.
  destruct (tm_run_ok envs _ Hok ltac:(done)) as (os' & c' & E & _ & _ & Hrange & _). assert (os' = os) as -> by congruence. cbn in Hrange.
  rewrite (run_reboots envs _ os c Hok ltac:(done) ltac:(cbn; lia) Hrun i o st Hi). cbn [pm_tm_init therm_state_cnt crit_temp_periods].
  pose proof (lookup_lt_Some _ _ _ Hi) as Hlt. assert (length (take (S i) os.*2) = S i) as Htk by (rewrite length_take, length_fmap; lia).
  pose proof (hot_run states (take (S i) os.*2) 3 ltac:(lia)) as Hh. rewrite Htk in Hh. unfold CONFIG_PM_TM_CRITICAL_TEMPERATURE_PERIOD_TOLERANCE.
  rewrite Forall_lookup in Hrange. transitivity (Z.of_nat 3 ≤ foldl (hot states) 0 (take (S i) os.*2)); [lia|]. rewrite Hh, Forall_lookup. split.
  - intros [Hi2 Hf]. split; [lia|]. intros j o' st' Hj Ho'. specialize (Hrange _ _ Ho'). cbn in Hrange.
    assert (states - 1 ≤ st'); [|lia]. apply (Hf (j - (S i - 3))%nat). rewrite lookup_drop, lookup_take_lt, list_lookup_fmap by lia.
    replace (S i - 3 + (j - (S i - 3)))%nat with j by lia. by rewrite Ho'.
  - intros [Hi2 Hf]. split; [lia|]. intros j x Hx. rewrite lookup_drop in Hx. apply lookup_take_Some in Hx as [Hx Hj].
    rewrite list_lookup_fmap in Hx. apply fmap_Some in Hx as ([o' st'] & Hx & ->). cbn. rewrite (Hf (S i - 3 + j)%nat o' st' ltac:(lia) Hx). lia.
Qed.
(** C30. A reboot is asked for in exactly the periods that end the third period in a row
    in the last state of the table (a run beyond 2^32 periods aside). *)
Theorem tm_reboot_exact tbl states srcs rpm envs os c i o st : tbl_ok tbl states srcs → Z.of_nat (length envs) < 2 ^ 32 →
  tm_run envs (pm_tm_init (Some (tbl, states, srcs)) rpm) = Some (os, c) → os !! i = Some (o, st) →
  OReboot ∈ o ↔ (2 ≤ i)%nat ∧ ∀ j o' st', (i - 2 ≤ j ≤ i)%nat → os !! j = Some (o', st') → st' = states - 1.
Proof. apply reboot_iff. Qed.
Lemma tm_reboot_exact_witness : ∃ os c o, tm_run (replicate 5 (ex_env 95)) (pm_tm_init (Some (ex_tbl, 2, 1)) None) = Some (os, c) ∧
  os !! 2%nat = Some (o, 1) ∧ OReboot ∈ o.
Proof.
  destruct (tm_run (replicate 5 (ex_env 95)) (pm_tm_init (Some (ex_tbl, 2, 1)) None)) as [[os c]|] eqn:E; [|vm_compute in E; discriminate].
  assert (∃ o, os !! 2%nat = Some (o, 1)) as [o Ho] by (vm_compute in E; injection E as <- <-; eexists; reflexivity).
  exists os, c, o. split; [reflexivity|]. split; [exact Ho|].
  apply (tm_reboot_exact ex_tbl 2 1 None (replicate 5 (ex_env 95)) os c 2 o 1 ex_tbl_ok ltac:(vm_compute; reflexivity) E Ho).
  split; [lia|]. intros j o' st' Hj Hlook. vm_compute in E. injection E as <- <-.
  destruct j as [|[|[|j]]]; [..|lia]; vm_compute in Hlook; injection Hlook as _ <-; reflexivity.
Defined.

(** C11. A device that overheats is rebooted: if a source that is on reads at least [T] in every
    period, where [T] is positive and not below a threshold of the table, a reboot is
    asked for after at most three periods more than there are states, whatever the
    other sources and the fan do.  The readings are taken to be small enough that the sums of
    the moving average do not overflow an int. *)
Theorem tm_overheat_reboots tbl states srcs rpm envs src T : let c0 := pm_tm_init (Some (tbl, states, srcs)) rpm in
  tbl_ok tbl states srcs → 0 ≤ src < srcs → 0 < T → Z.of_nat (length envs) = states + 3 → states + 3 < 2 ^ 32 →
  Forall (λ env, pm_is_temp_src_enabled env src = true ∧ (∃ t, src_temp env src = Some t ∧ T ≤ t) ∧
    ∀ s, 0 ≤ s < states → ∃ x, pm_tbl_get_temp_thresh env c0 s src = Some x ∧ x ≤ T) envs →
  ∃ os c i o st, tm_run envs c0 = Some (os, c) ∧ os !! i = Some (o, st) ∧ OReboot ∈ o.
Proof.
  intros c0 H Hsrc HT Hlen Hb He. pose proof (tm_init_ok tbl states srcs rpm H) as Hok. fold c0 in Hok. destruct H as (Hst & Htbl & Hrows & Hsr).
  assert (recent src T c0 0) as Hrec.
  { exists (replicate 3 0). split_and!; [|done|lia]. 
    assert (src = 0 ∨ src = 1 ∨ src = 2) as [->|[->| ->]] by lia; done. }
  destruct (run_hot src T envs c0 0 0 Hok) as (os & c & E & Hl & Hlow); [done|done|done| |done|lia|done|done|].
  { eapply Forall_impl; [exact He|]. intros env (Hon & (t & Ht & Hle) & Hth). exists t. by split. }
  destruct (tm_run_ok envs c0 Hok ltac:(done)) as (os' & c' & E' & _ & _ & Hrange & _). assert (os' = os) as -> by congruence.
  change (therm_state_cnt c0) with states in *. destruct (lookup_lt_is_Some_2 os (Z.to_nat (states + 2))) as [[o st] Hi]; [lia|].
  exists os, c, (Z.to_nat (states + 2)), o, st. split; [done|]. split; [done|].
  apply (reboot_iff tbl states srcs rpm envs os c _ o st ltac:(done) ltac:(lia) E Hi). split; [lia|]. intros j o' st' Hj Ho'.
  specialize (Hlow j o' st' Ho'). rewrite Forall_lookup in Hrange. specialize (Hrange _ _ Ho'). cbn in Hrange. lia.
Qed.
Lemma tm_overheat_reboots_witness : ∃ os c i o st, tm_run (replicate 5 (ex_env 95)) (pm_tm_init (Some (ex_tbl, 2, 1)) None) = Some (os, c) ∧
  os !! i = Some (o, st) ∧ OReboot ∈ o.
Proof.
  apply (tm_overheat_reboots ex_tbl 2 1 None (replicate 5 (ex_env 95)) 0 90 ex_tbl_ok ltac:(lia) ltac:(lia) eq_refl eq_refl).
  apply Forall_replicate. split; [reflexivity|]. split; [exists 95; split; [reflexivity|lia]|].
  intros s Hs. assert (s = 0 ∨ s = 1) as [->| ->] by lia; eexists; (split; [vm_compute; reflexivity|lia]).
Defined.

(** *** Behaviours to know *)

(** The average of one reading is one degree above it: the rest 0 is not below half of the
    number of readings, which is 0; and with three readings a third is rounded up. *)
Example tm_average_rounds_up : round_avg 40 1 = 41 ∧ round_avg 121 3 = 41 ∧ round_avg 120 3 = 40.
Proof. done. Qed.
(** Without a reading the state goes down, and the fan with it, however hot it was. *)
Theorem tm_blind_cools_down env c : tm_ok c → 0 ≤ crit_temp_periods c → 0 < prev_state c →
  (∀ src, pm_is_temp_src_enabled env src = false ∨ src_temp env src = None) →
  ∃ o c', tm_tick env c = Some (o, c') ∧ prev_state c' = prev_state c - 1.
Proof.
  intros H Hc Hp Hblind. assert (∀ n src s, source_loop env n src 0 s = Some (0, s)) as Hloop.
  { induction n as [|n IH]; intros src s; [done|]. cbn [source_loop].
    destruct (Hblind src) as [-> | Hn]; [apply IH|]. rewrite Hn. destruct (negb _); apply IH. }
  destruct (tick_run env c H Hc) as (cur & c1 & o & rpm & ff & E & _ & _ & _ & _ & _ & Et & _). rewrite Hloop in E. injection E as <- _.
  eexists _, _. split; [exact Et|]. cbn. unfold limit_state. destruct (Z.ltb_spec (prev_state c) 0); [lia|].
  destruct (Z.ltb_spec 0 (prev_state c)); lia.
Qed.
(** The timer runs although [osp_tm_init] has failed: its first callback reads the table
    through a NULL pointer. *)
Example tm_init_failed_faults : tm_tick (ex_env 40) (pm_tm_init None None) = None.
Proof. vm_compute. reflexivity. Qed.
(** The state that a source asks for: all states up to it have been reached, with the
    hysteresis taken off up to the state the device is in, and the next one has not. *)
Definition reached (env : tm_env) (c : tm_ctx) (src temp prev s : Z) : Prop :=
  ∃ t, pm_tbl_get_temp_thresh env c s src = Some t ∧ t - (if prev <? s then 0 else CONFIG_PM_TM_TEMPERATURE_HYSTERESIS) ≤ temp.
Lemma highest_loop_exact env c src temp prev : tm_ok c → 0 ≤ src < 3 → ∀ n state h hi,
  0 ≤ state → state + Z.of_nat n = therm_state_cnt c → (h = CONFIG_PM_TM_TEMPERATURE_HYSTERESIS ∨ h = 0 ∧ prev < state) →
  ∃ s, highest_loop env c src temp prev n state h hi = Some s ∧
    (s = hi ∧ (n = 0%nat ∨ ¬ reached env c src temp prev state) ∨
     state ≤ s < therm_state_cnt c ∧ (∀ s', state ≤ s' ≤ s → reached env c src temp prev s') ∧
     (s + 1 < therm_state_cnt c → ¬ reached env c src temp prev (s + 1))).
Proof.
  intros H Hs. induction n as [|n IH]; intros state h hi H0 Hn Hh; [by exists hi; split; [|left; split; [|left]]|].
  cbn [highest_loop]. destruct (thresh_ok env c state src H ltac:(lia) Hs) as [t Ht]. rewrite Ht. cbn [option_bind mbind].
  set (h' := if prev <? state then 0 else h).
  assert (h' = if prev <? state then 0 else CONFIG_PM_TM_TEMPERATURE_HYSTERESIS) as Eh.
  { unfold h'. destruct (Z.ltb_spec prev state); [done|lia]. }
  destruct (Z.ltb_spec temp (t - h')) as [Hlt|Hge].
  - exists hi. split; [done|]. left. split; [done|]. right. intros (t' & Ht' & Hle). rewrite <- Eh in Hle. simplify_eq. lia.
  - assert (reached env c src temp prev state) as Hr by (exists t; rewrite <- Eh; split; [done|lia]).
    destruct (IH (state + 1) h' state ltac:(lia) ltac:(lia)) as (s & -> & Hcase).
    { rewrite Eh. destruct (Z.ltb_spec prev state); [right; lia|by left]. }
    exists s. split; [done|]. right. destruct Hcase as [[-> Hnext]|(Hrange & Hall & Hnext)].
    + split; [lia|]. split; [intros s' ?; by replace s' with state by lia|].
      intros ?. destruct Hnext as [->|?]; [lia|done].
    + split; [lia|]. split; [|done]. intros s' ?. destruct (decide (s' = state)) as [->|]; [done|]. apply Hall. lia.
Qed.
Theorem tm_highest_state_exact env c src temp prev : tm_ok c → 0 ≤ src < 3 →
  ∃ s, pm_get_highest_state env c src temp prev = Some s ∧ 0 ≤ s < therm_state_cnt c ∧
    (s = 0 ∧ ¬ reached env c src temp prev 0 ∨
     (∀ s', 0 ≤ s' ≤ s → reached env c src temp prev s') ∧ (s + 1 < therm_state_cnt c → ¬ reached env c src temp prev (s + 1))).
Proof.
  intros H Hs. pose proof (ok_states _ H) as Hn.
  destruct (highest_loop_exact env c src temp prev H Hs (Z.to_nat (therm_state_cnt c)) 0 CONFIG_PM_TM_TEMPERATURE_HYSTERESIS 0) as (s & E & Hc);
    [lia|lia|by left|].
  exists s. split; [exact E|]. destruct Hc as [[-> [?|?]]|(? & ? & ?)]; [lia|..].
  - split; [lia|]. by left.
  - split; [lia|]. by right.
Qed.
