(* ===== verification/InetUnit.v ===== *)
(** Units, src/lib/inet/src/inet_unit.c: a tree of services that depend on each other, as a
    program on a store of units.

    [ustate] holds the units, the context of the client's commit function and [u_found], the
    variable [args.result] of the search that is under way.  The client's function is an
    argument; it works on its own context.  The walk follows pointers and gets fuel, one more
    than the number of units in the store. *)
From S2P Require Import Prelude.
Local Open Scope Z_scope.

(** [struct __inet_unit]; [un_ndeps] is the length of [un_deps]. *)
Record udata := UData {
  un_id : Z; un_status : bool; un_enabled : bool; un_pending : bool; un_error : bool }.
Record inet_unit_t := IUnit { un_parent : ptr; un_deps : list loc; un_data : udata }.
Record ustate (C : Type) := UState {
  u_units : gmap positive inet_unit_t; u_ctx : C; u_found : ptr }.
Arguments UState {C}.
Arguments u_units {C}.
Arguments u_ctx {C}.
Arguments u_found {C}.

Definition set_status (b : bool) (d : udata) : udata :=
  UData (un_id d) b (un_enabled d) (un_pending d) (un_error d).
Definition set_enabled (b : bool) (d : udata) : udata :=
  UData (un_id d) (un_status d) b (un_pending d) (un_error d).
Definition set_pending (b : bool) (d : udata) : udata :=
  UData (un_id d) (un_status d) (un_enabled d) b (un_error d).
Definition set_error (b : bool) (d : udata) : udata :=
  UData (un_id d) (un_status d) (un_enabled d) (un_pending d) b.

Section units.
Context {C : Type}.
#[local] Abbreviation US := (M (ustate C)).

Definition with_units f (s : ustate C) : ustate C := UState (f (u_units s)) (u_ctx s) (u_found s).
Definition with_found (p : ptr) (s : ustate C) : ustate C := UState (u_units s) (u_ctx s) p.
(** [*p], and an assignment to members of [*p]. *)
Definition uload (p : loc) : US inet_unit_t := λ s,
  match u_units s !! p with Some u => Some (u, s) | None => None end.
Definition uput (p : loc) (u : inet_unit_t) : US unit := modify (with_units (<[p := u]>)).
Definition ustore (p : loc) (f : udata → udata) : US unit :=
  u ← uload p; uput p (IUnit (un_parent u) (un_deps u) (f (un_data u))).

(** *** Construction *)

(** [__inet_unit] *)
Fixpoint parent_loop (ru : loc) (deps : list loc) : US unit :=
  match deps with
  | [] => mret tt
  | pu :: deps =>
      u ← uload pu;
      uput pu (IUnit (Some ru) (un_deps u) (un_data u));;
      parent_loop ru deps
  end.
Definition __inet_unit (unit_id : Z) (started : bool) (deps : list loc) : US loc :=
  units ← gets u_units;
  let ru := fresh (dom units) in
  uput ru (IUnit None deps (UData unit_id started false started false));;
  parent_loop ru deps;;
  mret ru.
Definition inet_unit (unit_id : Z) (deps : list loc) : US loc := __inet_unit unit_id false deps.
Definition inet_unit_s (unit_id : Z) (deps : list loc) : US loc := __inet_unit unit_id true deps.

(** *** The walk *)

Fixpoint walk_loop (walk : loc → US bool) (deps : list loc) (retval : bool) : US bool :=
  match deps with
  | [] => mret retval
  | u :: deps => b ← walk u; walk_loop walk deps (retval && b)
  end.
Fixpoint inet_unit_walk (fuel : nat) (fn : loc → bool → US bool) (unit : loc) : US bool :=
  match fuel with
  | O => fault
  | S fuel =>
      b ← fn unit true;
      if negb b then mret false else
      u ← uload unit;
      retval ← walk_loop (inet_unit_walk fuel fn) (un_deps u) true;
      if (retval : bool) then fn unit false else mret false
  end.
Definition walk_fuel : US nat := gets (λ s, S (size (u_units s))).
Definition do_walk (fn : loc → bool → US bool) (unit : loc) : US bool :=
  fuel ← walk_fuel; inet_unit_walk fuel fn unit.

(** [inet_unit_free] *)
Definition __inet_unit_free (unit : loc) (descend : bool) : US bool :=
  if negb descend then
    uload unit;;
    modify (with_units (delete unit));;
    mret true
  else mret true.
Definition inet_unit_free (unit : loc) : US () :=
  do_walk __inet_unit_free unit;;
  mret tt.

(** [inet_unit_find] *)
Definition __inet_unit_find (find : Z) (unit : loc) (descend : bool) : US bool :=
  if negb descend then mret true else
  u ← uload unit;
  if un_id (un_data u) =? find then
    modify (with_found (Some unit));;
    mret false
  else mret true.
Definition inet_unit_find (unit : loc) (id : Z) : US ptr :=
  modify (with_found None);;
  b ← do_walk (__inet_unit_find id) unit;
  if (b : bool) then mret None else gets u_found.

(** *** What is wanted *)

Definition inet_unit_start (unit : loc) (unit_id : Z) : US bool :=
  pu ← inet_unit_find unit unit_id;
  match pu with
  | None => mret false
  | Some pu => ustore pu (set_enabled true);; mret true
  end.
Definition __inet_unit_stop (unit : loc) (descend : bool) : US bool :=
  (if descend then ustore unit (set_pending true) else mret tt);;
  mret true.
Definition inet_unit_stop (unit : loc) (unit_id : Z) : US bool :=
  pu ← inet_unit_find unit unit_id;
  match pu with
  | None => mret false
  | Some pu =>
      ustore pu (set_enabled false);;
      do_walk __inet_unit_stop pu;;
      mret true
  end.
Definition inet_unit_restart (unit : loc) (unit_id : Z) (start_if_stopped : bool) : US bool :=
  pu ← inet_unit_find unit unit_id;
  match pu with
  | None => mret false
  | Some pu =>
      u ← uload pu;
      if start_if_stopped || un_enabled (un_data u) then
        b ← inet_unit_stop unit unit_id;
        if negb b then mret false else
        b ← inet_unit_start unit unit_id;
        if negb b then mret false else mret true
      else mret true
  end.
Definition inet_unit_enable (unit : loc) (unit_id : Z) (enable : bool) : US bool :=
  if enable then inet_unit_start unit unit_id else inet_unit_stop unit unit_id.
Definition inet_unit_status (unit : loc) (unit_id : Z) : US bool :=
  pu ← inet_unit_find unit unit_id;
  match pu with
  | None => mret false
  | Some pu => u ← uload pu; mret (un_status (un_data u))
  end.
Definition inet_unit_is_enabled (unit : loc) (unit_id : Z) : US bool :=
  pu ← inet_unit_find unit unit_id;
  match pu with
  | None => mret false
  | Some pu => u ← uload pu; mret (un_enabled (un_data u))
  end.

(** *** The commit *)

Section commit.
Context (fn : Z → bool → C → bool * C).
Definition call_fn (unit_id : Z) (enable : bool) : US bool := λ s,
  let '(b, c) := fn unit_id enable (u_ctx s) in Some (b, UState (u_units s) c (u_found s)).
Definition parent_status (u : inet_unit_t) : US bool :=
  match un_parent u with
  | None => mret true
  | Some p => pu ← uload p; mret (un_status (un_data pu))
  end.
Definition __inet_unit_commit_start (unit : loc) (descend : bool) : US bool :=
  if negb descend then mret true else
  u ← uload unit;
  up ← parent_status u;
  if negb up then mret true else
  if negb (un_enabled (un_data u)) || un_status (un_data u) then mret true else
  ok ← call_fn (un_id (un_data u)) true;
  ustore unit (set_error (negb ok));;
  ustore unit (set_status true);;
  ustore unit (set_pending false);;
  u ← uload unit;
  if un_error (un_data u) then mret false else mret true.
Definition __inet_unit_commit_stop (unit : loc) (descend : bool) : US bool :=
  if (descend : bool) then mret true else
  u ← uload unit;
  if negb (un_pending (un_data u)) && un_enabled (un_data u) then mret true else
  (if un_status (un_data u) then
     ok ← call_fn (un_id (un_data u)) false;
     ustore unit (set_error (negb ok))
   else mret tt);;
  ustore unit (set_pending false);;
  ustore unit (set_status false);;
  mret true.
Definition inet_unit_commit (unit : loc) : US bool :=
  b1 ← do_walk __inet_unit_commit_stop unit;
  b2 ← do_walk __inet_unit_commit_start unit;
  mret (b1 && b2).
End commit.

(** *** Nested calls of the constructors, and sequences of calls

    [UENode id s kids rest] is [inet_unit id kids...] ([inet_unit_s] if [s]) followed by the
    other arguments [rest] of the call around it. *)
Inductive uexp := UENil | UENode (id : Z) (s : bool) (kids rest : uexp).
Fixpoint build (e : uexp) : US (list loc) :=
  match e with
  | UENil => mret []
  | UENode id s kids rest =>
      deps ← build kids;
      u ← (if s then inet_unit_s id deps else inet_unit id deps);
      us ← build rest;
      mret (u :: us)
  end.
Inductive uop :=
  | UStart (id : Z) | UStop (id : Z) | URestart (id : Z) (start_if_stopped : bool)
  | UEnable (id : Z) (enable : bool) | UStatus (id : Z) | UIsEnabled (id : Z) | UCommit.
Definition uop_run (fn : Z → bool → C → bool * C) (unit : loc) (op : uop) : US bool :=
  match op with
  | UStart id => inet_unit_start unit id
  | UStop id => inet_unit_stop unit id
  | URestart id b => inet_unit_restart unit id b
  | UEnable id b => inet_unit_enable unit id b
  | UStatus id => inet_unit_status unit id
  | UIsEnabled id => inet_unit_is_enabled unit id
  | UCommit => inet_unit_commit fn unit
  end.
Fixpoint uops_run (fn : Z → bool → C → bool * C) (unit : loc) (ops : list uop) : US (list bool) :=
  match ops with
  | [] => mret []
  | op :: ops => b ← uop_run fn unit op; bs ← uops_run fn unit ops; mret (b :: bs)
  end.
End units.
