(* ===== verification/InetUnitRep.v ===== *)
(** Units: the tree in the store as a forest (first child, next sibling), the walk as a function
    on forests, the operations as functions on forests, and that the program does what they do. *)
From S2P Require Import Prelude InetUnit.
Local Open Scope Z_scope.

Inductive forest := FNil | FNode (l : loc) (d : udata) (kids rest : forest).
Fixpoint roots (f : forest) : list loc :=
  match f with FNil => [] | FNode l _ _ rest => l :: roots rest end.
Fixpoint flocs (f : forest) : list loc :=
  match f with FNil => [] | FNode l _ kids rest => l :: flocs kids ++ flocs rest end.
Fixpoint fheight (f : forest) : nat :=
  match f with FNil => 0 | FNode _ _ kids rest => S (fheight kids) `max` fheight rest end.
Fixpoint fdata (f : forest) : list udata :=
  match f with FNil => [] | FNode _ d kids rest => d :: fdata kids ++ fdata rest end.
Abbreviation fids f := (un_id <$> fdata f).
(** The store holds the forest; [p] is the parent of its roots. *)
Fixpoint frep (h : gmap positive inet_unit_t) (p : ptr) (f : forest) : Prop :=
  match f with
  | FNil => True
  | FNode l d kids rest =>
      h !! l = Some (IUnit p (roots kids) d) ∧ frep h (Some l) kids ∧ frep h p rest
  end.
(** The data of the parent *)
Definition pdata (h : gmap positive inet_unit_t) (p : ptr) (pd : option udata) : Prop :=
  match p, pd with
  | None, None => True
  | Some l, Some d => ∃ q deps, h !! l = Some (IUnit q deps d)
  | _, _ => False
  end.

Lemma frep_ext h h' f : ∀ p, (∀ x, x ∈ flocs f → h' !! x = h !! x) → frep h p f → frep h' p f.
Proof.
  induction f as [|l d kids IHk rest IHr]; intros p Hx; [done|]. cbn. intros (Hl & Hk & Hr). split_and!.
  - rewrite Hx; [done|]. cbn. set_solver.
  - apply IHk; [|done]. intros x ?. apply Hx. cbn. set_solver.
  - apply IHr; [|done]. intros x ?. apply Hx. cbn. set_solver.
Qed.
Lemma frep_dom h p f x : frep h p f → x ∈ flocs f → x ∈ dom h.
Proof.
  revert p. induction f as [|l d kids IHk rest IHr]; intros p; cbn; [set_solver|]. intros (Hl & Hk & Hr).
  rewrite elem_of_cons, elem_of_app. intros [->|[?|?]]; [by eapply elem_of_dom_2|eauto..].
Qed.
Lemma fheight_flocs f : (fheight f ≤ length (flocs f))%nat.
Proof. induction f; cbn; [lia|]. rewrite length_app. lia. Qed.
Lemma frep_fuel h p f : NoDup (flocs f) → frep h p f → (fheight f ≤ size h)%nat.
Proof.
  intros Hnd H. etransitivity; [apply fheight_flocs|]. rewrite <- size_dom, <- (size_list_to_set (C := gset positive)) by done.
  apply subseteq_size. intros x Hx. apply elem_of_list_to_set in Hx. by eapply frep_dom.
Qed.

Section walk.
Context {C : Type}.
(** What a callback sees and changes beside of the units: the context and the result of a
    search. *)
#[local] Abbreviation aux := (C * ptr)%type.
#[local] Abbreviation US := (M (ustate C)).
Definition st (h : gmap positive inet_unit_t) (a : aux) : ustate C := UState h a.1 a.2.
(** A callback that looks at the data of the unit and its parent and changes the data of
    the unit *)
Definition acall := option udata → loc → udata → bool → aux → bool * udata * aux.
Definition fn_sim (fn : loc → bool → US bool) (af : acall) : Prop :=
  ∀ h a l u pd desc, h !! l = Some u → pdata h (un_parent u) pd →
    let '(b, d, a') := af pd l (un_data u) desc a in
    fn l desc (st h a) = Some (b, st (<[l := IUnit (un_parent u) (un_deps u) d]> h) a').
Fixpoint fwalk (af : acall) (pd : option udata) (f : forest) (a : aux) : bool * forest * aux :=
  match f with
  | FNil => (true, FNil, a)
  | FNode l d kids rest =>
      let '(b, d, a) := af pd l d true a in
      let '(b, d, kids, a) :=
        if b then
          let '(b, kids, a) := fwalk af (Some d) kids a in
          if b then let '(b, d, a) := af pd l d false a in (b, d, kids, a) else (false, d, kids, a)
        else (false, d, kids, a) in
      let '(br, rest, a) := fwalk af pd rest a in
      (b && br, FNode l d kids rest, a)
  end.
Lemma fwalk_shape af f : ∀ pd a b f' a', fwalk af pd f a = (b, f', a') → roots f' = roots f ∧ flocs f' = flocs f.
Proof.
  induction f as [|l d kids IHk rest IHr]; intros pd a b f' a'; cbn; [by intros [= <- <- <-]|].
  destruct (af pd l d true a) as [[b1 d1] a1]. destruct b1.
  - destruct (fwalk af (Some d1) kids a1) as [[b2 k2] a2] eqn:E2. apply IHk in E2 as [_ Ek]. destruct b2.
    + destruct (af pd l d1 false a2) as [[b3 d3] a3]. destruct (fwalk af pd rest a3) as [[b4 r4] a4] eqn:E4.
      apply IHr in E4 as [Er1 Er2]. intros [= <- <- <-]. cbn. by rewrite Ek, Er1, Er2.
    + destruct (fwalk af pd rest a2) as [[b4 r4] a4] eqn:E4. apply IHr in E4 as [Er1 Er2]. intros [= <- <- <-]. cbn.
      by rewrite Ek, Er1, Er2.
  - destruct (fwalk af pd rest a1) as [[b4 r4] a4] eqn:E4. apply IHr in E4 as [Er1 Er2]. intros [= <- <- <-]. cbn.
    by rewrite Er1, Er2.
Qed.

Lemma pdata_insert h p pd l u : (∀ q, p = Some q → q ≠ l) → pdata h p pd → pdata (<[l := u]> h) p pd.
Proof. destruct p as [q|], pd as [d|]; cbn; try done. intros Hq (r & deps & Hr). exists r, deps.
  rewrite lookup_insert_ne; [done|]. specialize (Hq q eq_refl). done. Qed.
Lemma pdata_ext h h' p pd : (∀ q, p = Some q → h' !! q = h !! q) → pdata h p pd → pdata h' p pd.
Proof. destruct p as [q|], pd as [d|]; cbn; try done. intros Hq (r & deps & Hr). exists r, deps. by rewrite Hq. Qed.
Lemma uload_at h a l u : h !! l = Some u → uload l (st h a) = Some (u, st h a).
Proof. unfold uload. cbn. by intros ->. Qed.

(** One unit and what is below it, given the walk over its children *)
Lemma walk_one fn af fuel l d kids h p pd a : fn_sim fn af →
  (∀ h a d r, frep h (Some l) kids → pdata h (Some l) (Some d) →
     let '(b, kids', a') := fwalk af (Some d) kids a in
     ∃ h', walk_loop (inet_unit_walk fuel fn) (roots kids) r (st h a) = Some (r && b, st h' a') ∧ frep h' (Some l) kids' ∧
       (∀ x, x ∉ flocs kids → h' !! x = h !! x)) →
  l ∉ flocs kids → (∀ q, p = Some q → q ∉ l :: flocs kids) → frep h p (FNode l d kids FNil) → pdata h p pd →
  let '(b, f', a') := fwalk af pd (FNode l d kids FNil) a in
  ∃ h', inet_unit_walk (S fuel) fn l (st h a) = Some (b, st h' a') ∧ frep h' p f' ∧ (∀ x, x ∉ l :: flocs kids → h' !! x = h !! x).
Proof.
  intros Hfn Hloop Hl Hp (Hlk & Hk & _) Hpd. cbn [fwalk inet_unit_walk]. unfold mbind, M_bind, mret, M_ret.
  pose proof (Hfn h a l _ pd true Hlk Hpd) as H1. cbn [un_data un_parent un_deps] in H1.
  destruct (af pd l d true a) as [[b1 d1] a1]. rewrite H1.
  set (h1 := <[l := IUnit p (roots kids) d1]> h).
  assert (h1 !! l = Some (IUnit p (roots kids) d1)) as Hl1 by apply lookup_insert_eq.
  assert (frep h1 (Some l) kids) as Hk1. { apply (frep_ext h); [|done]. intros x Hx. apply lookup_insert_ne. set_solver. }
  assert (∀ x, x ≠ l → h1 !! x = h !! x) as Hne by (intros x ?; by apply lookup_insert_ne).
  destruct b1; cbn [negb].
  2:{ exists h1. split; [done|]. cbn. split_and!; [done..|]. intros x Hx. apply Hne. set_solver. }
  rewrite (uload_at _ _ _ _ Hl1). cbn [un_deps].
  assert (pdata h1 (Some l) (Some d1)) as Hpd1 by (by exists p, (roots kids)).
  specialize (Hloop h1 a1 d1 true Hk1 Hpd1). destruct (fwalk af (Some d1) kids a1) as [[b2 k2] a2] eqn:E2. cbn [andb] in Hloop.
  destruct Hloop as (h2 & -> & Hk2 & Hfr2). assert (roots k2 = roots kids ∧
    flocs k2 = flocs kids) as [Hroots Hlocs] by (by eapply fwalk_shape).
  assert (h2 !! l = Some (IUnit p (roots k2) d1)) as Hl2 by (rewrite Hfr2, Hroots; done).
  assert (∀ x, x ∉ l :: flocs kids → h2 !! x = h !! x) as Hout. { intros x Hx. rewrite Hfr2, Hne; [done|set_solver..]. }
  destruct b2; cbn [negb andb].
  2:{ exists h2. split; [done|]. cbn. done. }
  assert (pdata h2 p pd) as Hpd2. { apply (pdata_ext h); [|done]. intros q ->. apply Hout. by apply Hp. }
  pose proof (Hfn h2 a2 l _ pd false Hl2 Hpd2) as H3. cbn [un_data un_parent un_deps] in H3.
  destruct (af pd l d1 false a2) as [[b3 d3] a3]. rewrite H3.
  eexists. split; [by rewrite andb_true_r|]. cbn. split_and!; [by rewrite lookup_insert_eq| |done|].
  - apply (frep_ext h2); [|done]. intros x Hx. apply lookup_insert_ne. rewrite Hlocs in Hx. set_solver.
  - intros x Hx. rewrite lookup_insert_ne by set_solver. by apply Hout.
Qed.
Lemma fwalk_cons af pd l d kids rest a : fwalk af pd (FNode l d kids rest) a =
  match fwalk af pd (FNode l d kids FNil) a with
  | (b, FNode l d kids _, a) => let '(br, rest, a) := fwalk af pd rest a in (b && br, FNode l d kids rest, a)
  | (b, FNil, a) => (b, FNil, a)
  end.
Proof.
  cbn. destruct (af pd l d true a) as [[b1 d1] a1]. destruct b1; [|done].
  destruct (fwalk af (Some d1) kids a1) as [[b2 k2] a2]. destruct b2; [|done].
  destruct (af pd l d1 false a2) as [[b3 d3] a3]. by rewrite andb_true_r.
Qed.
Lemma fwalk_one af pd l d kids a : ∃ b d' kids' a', fwalk af pd (FNode l d kids FNil) a = (b, FNode l d' kids' FNil, a').
Proof.
  cbn. destruct (af pd l d true a) as [[b1 d1] a1]. destruct b1; [|by eexists _, _, _, _].
  destruct (fwalk af (Some d1) kids a1) as [[b2 k2] a2]. destruct b2; [|by eexists _, _, _, _].
  destruct (af pd l d1 false a2) as [[b3 d3] a3]. by eexists _, _, _, _.
Qed.

Lemma walk_sim fn af : fn_sim fn af → ∀ f fuel h p pd a r, (fheight f ≤ fuel)%nat → NoDup (flocs f) →
  (∀ q, p = Some q → q ∉ flocs f) → frep h p f → pdata h p pd →
  let '(b, f', a') := fwalk af pd f a in
  ∃ h', walk_loop (inet_unit_walk fuel fn) (roots f) r (st h a) = Some (r && b, st h' a') ∧ frep h' p f' ∧
    (∀ x, x ∉ flocs f → h' !! x = h !! x).
Proof.
  intros Hfn. induction f as [|l d kids IHk rest IHr]; intros fuel h p pd a r Hfu Hnd Hp Hrep Hpd.
  { cbn. exists h. by rewrite andb_true_r. }
  cbn [flocs fheight] in *. apply NoDup_cons in Hnd as [Hl Hnd]. apply NoDup_app in Hnd as (Hndk & Hdisj & Hndr).
  destruct fuel as [|fuel]; [lia|]. destruct Hrep as (Hlk & Hk & Hr). rewrite fwalk_cons.
  destruct (fwalk_one af pd l d kids a) as (b1 & d1 & k1 & a1 & E1). rewrite E1.
  pose proof (walk_one fn af fuel l d kids h p pd a Hfn) as H1. rewrite E1 in H1.
  destruct H1 as (h1 & Hw & (Hl1 & Hk1 & _) & Hfr1); [..|done| |].
  { intros h2 a2 d2 r2 Hrep2 Hpd2. apply (IHk fuel h2 (Some l) (Some d2) a2 r2); [lia|done| |done|done]. intros q [= <-].
    set_solver. }
  { set_solver. } { intros q ->. specialize (Hp q eq_refl). set_solver. } { cbn. done. }
  assert (frep h1 p rest) as Hr1. { apply (frep_ext h); [|done]. intros x Hx. apply Hfr1. set_solver. }
  assert (pdata h1 p pd) as Hpd1. { apply (pdata_ext h); [|done]. intros q ->. specialize (Hp q eq_refl). apply Hfr1.
  set_solver. }
  cbn [roots walk_loop]. unfold mbind at 1, M_bind at 1. rewrite Hw.
  specialize (IHr (S fuel) h1 p pd a1 (r && b1) ltac:(lia) Hndr). destruct (fwalk af pd rest a1) as [[br r'] a2] eqn:Er.
  apply fwalk_shape in E1 as [_ Elocs]. cbn in Elocs. rewrite !app_nil_r in Elocs. injection Elocs as Elocs.
  destruct IHr as (h2 & -> & Hr2 & Hfr2); [|done|done|]. { intros q ->. specialize (Hp q eq_refl). set_solver. }
  exists h2. split; [by rewrite andb_assoc|]. cbn. split_and!.
  - rewrite Hfr2; [done|set_solver].
  - apply (frep_ext h1); [|done]. intros x Hx. apply Hfr2. rewrite Elocs in Hx. set_solver.
  - done.
  - intros x Hx. rewrite Hfr2, Hfr1; [done|set_solver..].
Qed.

(** A whole tree, with the fuel that the operations give *)
Lemma do_walk_sim fn af l d kids h p pd a : fn_sim fn af → NoDup (l :: flocs kids) → (∀ q, p = Some q → q ∉ l :: flocs kids) →
  frep h p (FNode l d kids FNil) → pdata h p pd →
  let '(b, f', a') := fwalk af pd (FNode l d kids FNil) a in
  ∃ h', do_walk fn l (st h a) = Some (b, st h' a') ∧ frep h' p f' ∧ (∀ x, x ∉ l :: flocs kids → h' !! x = h !! x).
Proof.
  intros Hfn Hnd Hp Hrep Hpd. unfold do_walk, walk_fuel, gets, mbind, M_bind. cbn [u_units st].
  pose proof (frep_fuel h p (FNode l d kids FNil)) as Hfu. cbn [flocs fheight] in Hfu. rewrite app_nil_r in Hfu.
  specialize (Hfu Hnd Hrep). apply NoDup_cons in Hnd as [Hl Hnd].
  apply walk_one; [done| |done|done|done|done]. intros h1 a1 d1 r1 Hr1 Hp1.
  apply (walk_sim fn af Hfn kids (size h) h1 (Some l) (Some d1)); [lia|done| |done|done]. by intros q [= <-].
Qed.

(** *** Search *)

Definition af_find (id : Z) : acall := λ _ l d desc a,
  if desc && (un_id d =? id) then (false, d, (a.1, Some l)) else (true, d, a).
Lemma find_fn id : fn_sim (__inet_unit_find id) (af_find id).
Proof.
  intros h a l u pd desc Hl _. unfold af_find, __inet_unit_find. destruct desc; cbn [negb andb].
  - unfold mbind, M_bind. rewrite (uload_at _ _ _ _ Hl). destruct (_ =? _); cbn; rewrite insert_id by (by destruct u);
    by destruct a.
  - rewrite insert_id by (by destruct u). by destruct a.
Qed.
(** The first unit with an id *)
Fixpoint fget (id : Z) (f : forest) : option loc :=
  match f with
  | FNil => None
  | FNode l d kids rest =>
      if un_id d =? id then Some l else match fget id kids with Some l => Some l | None => fget id rest end
  end.
Lemma fget_none id f : fget id f = None ↔ id ∉ fids f.
Proof.
  induction f as [|l d kids IHk rest IHr]; cbn; [set_solver|]. rewrite fmap_app.
  destruct (Z.eqb_spec (un_id d) id) as [->|]; [set_solver|]. destruct (fget id kids); set_solver.
Qed.
Lemma fwalk_find id f : NoDup (fids f) → ∀ pd a, fwalk (af_find id) pd f a =
  (bool_decide (fget id f = None), f, match fget id f with Some l => (a.1, Some l) | None => a end).
Proof.
  induction f as [|l d kids IHk rest IHr]; intros Hnd pd a; [done|]. cbn in Hnd. rewrite fmap_app in Hnd.
  apply NoDup_cons in Hnd as [Hd Hnd]. apply NoDup_app in Hnd as (Hk & Hdisj & Hr). cbn [fwalk fget].
  unfold af_find at 1. cbn [andb].
  destruct (Z.eqb_spec (un_id d) id) as [<-|Hid].
  - assert (fget (un_id d) rest = None) as E by (apply fget_none; set_solver). by rewrite IHr, E by done.
  - rewrite IHk by done. destruct (fget id kids) as [l'|] eqn:Ek.
    + assert (fget id rest = None) as E.
      { apply fget_none. apply Hdisj. destruct (decide (id ∈ fids kids)) as [|Hn]; [done|]. apply fget_none in Hn. congruence. }
      rewrite bool_decide_eq_false_2 by done. by rewrite IHr, E by done.
    + rewrite bool_decide_eq_true_2 by done. unfold af_find at 1. cbn [andb]. rewrite IHr by done.
      destruct (fget id rest); [by rewrite bool_decide_eq_false_2|by rewrite bool_decide_eq_true_2].
Qed.

(** *** A tree in the store *)

Record urep (root : loc) (f : forest) (h : gmap positive inet_unit_t) : Prop := URep {
  urep_root : ∃ d kids, f = FNode root d kids FNil;
  urep_store : frep h None f; urep_locs : NoDup (flocs f); urep_ids : NoDup (fids f) }.
Lemma ufind_spec root f h a id : urep root f h →
  ∃ q, inet_unit_find root id (st h a) = Some (fget id f, st h (a.1, q)).
Proof.
  intros [(d & kids & ->) Hrep Hnd Hids]. unfold inet_unit_find, modify, mbind, M_bind.
  change (with_found None (st h a)) with (st h (a.1, None)).
  pose proof (do_walk_sim (__inet_unit_find id) (af_find id) root d kids h None None (a.1, None) (find_fn id)) as H.
  rewrite fwalk_find in H by done. destruct H as (h' & Hw & Hrep' & Hfr); [by cbn in Hnd;
    rewrite app_nil_r in Hnd|done|done|done|].
  assert (h' = h) as ->.
  { apply map_eq. intros x. destruct (decide (x ∈ root :: flocs kids)) as [Hx|]; [|by apply Hfr].
    clear -Hrep Hrep' Hx. assert (∀ f p, frep h p f → frep h' p f → x ∈ flocs f → h' !! x = h !! x) as Hsame.
    { induction f as [|l d0 k IHk r IHr]; intros p; cbn; [set_solver|]. intros (H1 & H2 & H3) (H1' & H2' & H3').
      rewrite elem_of_cons, elem_of_app. intros [->|[?|?]]; [congruence|eauto..]. }
    apply (Hsame (FNode root d kids FNil) None); [done..|]. cbn. by rewrite app_nil_r. }
  rewrite Hw. destruct (fget id _) as [l|].
  - rewrite bool_decide_eq_false_2 by done. by exists (Some l).
  - rewrite bool_decide_eq_true_2 by done. by exists None.
Qed.

(** *** One unit of the tree and what is below it *)

Fixpoint falter (id : Z) (g : udata → udata) (gk : forest → forest) (f : forest) : forest :=
  match f with
  | FNil => FNil
  | FNode l d kids rest =>
      if un_id d =? id then FNode l (g d) (gk kids) rest
      else FNode l d (falter id g gk kids) (falter id g gk rest)
  end.
Lemma falter_none id g gk f : fget id f = None → falter id g gk f = f.
Proof.
  induction f as [|l d kids IHk rest IHr]; cbn; [done|]. destruct (_ =? _); [done|]. destruct (fget id kids); [done|].
  intros E. by rewrite IHk, IHr.
Qed.
Lemma falter_shape id g gk f : (∀ k, roots (gk k) = roots k ∧ flocs (gk k) = flocs k) →
  roots (falter id g gk f) = roots f ∧ flocs (falter id g gk f) = flocs f.
Proof.
  intros Hgk. induction f as [|l d kids [IHk1 IHk2] rest [IHr1 IHr2]]; cbn; [done|].
  destruct (_ =? _); cbn; [by destruct (Hgk kids) as [_ ->]|]. by rewrite IHk2, IHr1, IHr2.
Qed.
Lemma focus id h f : ∀ p pd, frep h p f → pdata h p pd → NoDup (flocs f) → NoDup (fids f) → (∀ q, p = Some q →
  q ∉ flocs f) → ∀ l, fget id f = Some l →
  ∃ pl pdl d kids, un_id d = id ∧ frep h pl (FNode l d kids FNil) ∧ pdata h pl pdl ∧ NoDup (l :: flocs kids) ∧
    (∀ q, pl = Some q → q ∉ l :: flocs kids) ∧ l :: flocs kids ⊆ flocs f ∧
    ∀ h' g gk, (∀ k, roots (gk k) = roots k ∧ flocs (gk k) = flocs k) → frep h' pl (FNode l (g d) (gk kids) FNil) →
      (∀ x, x ∉ l :: flocs kids → h' !! x = h !! x) → frep h' p (falter id g gk f).
Proof.
  induction f as [|l d kids IHk rest IHr]; intros p pd; cbn [fget]; [done|]. intros (Hl & Hk & Hr) Hpd Hnd Hids Hp l0.
  cbn [fdata fmap list_fmap] in Hids. cbn [flocs] in *. apply NoDup_cons in Hnd as [Hln Hnd].
  apply NoDup_app in Hnd as (Hndk & Hdisj & Hndr).
  rewrite fmap_app in Hids. apply NoDup_cons in Hids as [Hdid Hids]. apply NoDup_app in Hids as (Hidk & Hidd & Hidr).
  cbn [falter]. destruct (Z.eqb_spec (un_id d) id) as [Hid|Hid].
  { intros [= <-]. exists p, pd, d, kids. split; [done|]. split; [by split_and!|]. split; [done|]. split_and!.
    - constructor; set_solver.
    - intros q ->. specialize (Hp q eq_refl). set_solver.
    - set_solver.
    - intros h' g gk Hgk (H1 & H2 & _) Hfr. split_and!; [done..|]. apply (frep_ext h); [|done]. intros x Hx. apply Hfr.
      set_solver. }
  destruct (fget id kids) as [lk|] eqn:Ek.
  - intros [= <-]. destruct (IHk (Some l) (Some d) Hk) with (l := lk) as (pl & pdl & d' & k' & Hid' & H1 & H2 & Hn & H3 & H4 & H5); [..|done|done| |done|].
    { by exists p, (roots kids). } { intros q [= <-]. set_solver. }
    assert (fget id rest = None) as Er.
    { apply fget_none, Hidd. destruct (decide (id ∈ fids kids)) as [|Hn']; [done|]. apply fget_none in Hn'. congruence. }
    exists pl, pdl, d', k'. do 5 (split; [done|]). split; [set_solver|]. intros h' g gk Hgk Hrep Hfr.
    rewrite (falter_none id g gk rest Er).
    split_and!; [|by apply H5|]; cbn; [|apply (frep_ext h); [|done]; intros x Hx; apply Hfr; set_solver].
    destruct (falter_shape id g gk kids Hgk) as [-> _]. rewrite Hfr; [done|set_solver].
  - intros Er. destruct (IHr p pd Hr Hpd Hndr Hidr) with (l := l0) as (pl & pdl & d' & k' & Hid' & H1 & H2 & Hn & H3 & H4 & H5); [|done|].
    { intros q ->. specialize (Hp q eq_refl). set_solver. }
    exists pl, pdl, d', k'. do 5 (split; [done|]). split; [set_solver|]. intros h' g gk Hgk Hrep Hfr.
    rewrite (falter_none id g gk kids Ek).
    split_and!; [| |by apply H5]; cbn; [rewrite Hfr; [done|set_solver]|]. apply (frep_ext h); [|done]. intros x Hx.
    apply Hfr. set_solver.
Qed.
End walk.

(** ** Units: the operations as functions on forests, and that the program does what they do. *)

(** *** The operations *)

Definition fpend1 (d : udata) : udata := set_pending true d.
Fixpoint fpend (f : forest) : forest :=
  match f with FNil => FNil | FNode l d kids rest => FNode l (fpend1 d) (fpend kids) (fpend rest) end.
Fixpoint fdata_of (id : Z) (f : forest) : option udata :=
  match f with
  | FNil => None
  | FNode l d kids rest =>
      if un_id d =? id then Some d else match fdata_of id kids with Some d => Some d | None => fdata_of id rest end
  end.
Definition fstart_op (id : Z) : forest → forest := falter id (set_enabled true) (λ k, k).
Definition fstop_op (id : Z) : forest → forest := falter id (λ d, set_pending true (set_enabled false d)) fpend.
Definition has (id : Z) (f : forest) : bool := match fget id f with Some _ => true | None => false end.
Definition flag (g : udata → bool) (id : Z) (f : forest) : bool := match fdata_of id f with Some d => g d | None => false end.

(** Whether a unit goes on running through a commit *)
Definition keeps (d : udata) : bool := un_status d && negb (un_pending d) && un_enabled d.
Section commit.
Context {C : Type} (fn : Z → bool → C → bool * C).
Definition stop1 (d : udata) (c : C) : udata * C :=
  if negb (un_pending d) && un_enabled d then (d, c)
  else if un_status d then
    let '(ok, c) := fn (un_id d) false c in (UData (un_id d) false (un_enabled d) false (negb ok), c)
  else (UData (un_id d) false (un_enabled d) false (un_error d), c).
Fixpoint fstop (f : forest) (c : C) : forest * C :=
  match f with
  | FNil => (FNil, c)
  | FNode l d kids rest =>
      let '(kids, c) := fstop kids c in
      let '(d, c) := stop1 d c in
      let '(rest, c) := fstop rest c in
      (FNode l d kids rest, c)
  end.
Definition start1 (up : bool) (d : udata) (c : C) : bool * udata * C :=
  if negb up || negb (un_enabled d) || un_status d then (true, d, c)
  else let '(ok, c) := fn (un_id d) true c in (ok, UData (un_id d) true (un_enabled d) false (negb ok), c).
Fixpoint fstart (up : bool) (f : forest) (c : C) : bool * forest * C :=
  match f with
  | FNil => (true, FNil, c)
  | FNode l d kids rest =>
      let '(ok, d, c) := start1 up d c in
      let '(b, kids, c) := if ok then fstart (un_status d) kids c else (false, kids, c) in
      let '(br, rest, c) := fstart up rest c in
      (b && br, FNode l d kids rest, c)
  end.
Definition fop (op : uop) (f : forest) (c : C) : bool * forest * C :=
  match op with
  | UStart id | UEnable id true => (has id f, fstart_op id f, c)
  | UStop id | UEnable id false => (has id f, fstop_op id f, c)
  | URestart id b =>
      (has id f, if has id f && (b || flag un_enabled id f) then fstart_op id (fstop_op id f) else f, c)
  | UStatus id => (flag un_status id f, f, c)
  | UIsEnabled id => (flag un_enabled id f, f, c)
  | UCommit => let '(f, c) := fstop f c in fstart true f c
  end.
Fixpoint fops (ops : list uop) (f : forest) (c : C) : list bool * forest * C :=
  match ops with
  | [] => ([], f, c)
  | op :: ops => let '(b, f, c) := fop op f c in let '(bs, f, c) := fops ops f c in (b :: bs, f, c)
  end.

(** *** Ids and places do not change *)

Definition alike (f f' : forest) : Prop := roots f' = roots f ∧ flocs f' = flocs f ∧ fids f' = fids f.
Lemma fpend_alike f : alike f (fpend f).
Proof. induction f as [|l d k (? & ? & ?) r (? & ? & ?)]; unfold alike in *; cbn; [done|]. rewrite !fmap_app. split_and!;
  congruence. Qed.
Lemma falter_ids id g gk f : (∀ d, un_id (g d) = un_id d) → (∀ k, fids (gk k) = fids k) → fids (falter id g gk f) = fids f.
Proof.
  intros Hg Hk. induction f as [|l d k IHk r IHr]; cbn; [done|]. destruct (_ =? _); cbn; rewrite !fmap_app; [by rewrite Hg, Hk|].
  by rewrite IHk, IHr.
Qed.
Lemma falter_alike id g gk f : (∀ d, un_id (g d) = un_id d) → (∀ k, alike k (gk k)) → alike f (falter id g gk f).
Proof.
  intros Hg Hk. destruct (falter_shape id g gk f) as [? ?]; [intros k; split; apply Hk|]. split_and!; [done..|].
  apply falter_ids; [done|]. intros k. apply Hk.
Qed.
Lemma stop1_id d c : un_id (stop1 d c).1 = un_id d.
Proof. unfold stop1. destruct (_ && _); [done|]. destruct (un_status d); [|done]. by destruct (fn _ _ _). Qed.
Lemma start1_id up d c : un_id (start1 up d c).1.2 = un_id d.
Proof. unfold start1. destruct (_ || _); [done|]. by destruct (fn _ _ _). Qed.
Lemma fstop_alike f : ∀ c, alike f (fstop f c).1.
Proof.
  induction f as [|l d k IHk r IHr]; intros c; [done|]. cbn. specialize (IHk c). destruct (fstop k c) as [k' c1].
  pose proof (stop1_id d c1) as Hid. destruct (stop1 d c1) as [d' c2]. specialize (IHr c2).
  destruct (fstop r c2) as [r' c3]. cbn in *.
  destruct IHk as (? & ? & ?), IHr as (? & ? & ?). unfold alike. cbn. rewrite !fmap_app. split_and!; congruence.
Qed.
Lemma fstart_alike f : ∀ up c, alike f (fstart up f c).1.2.
Proof.
  induction f as [|l d k IHk r IHr]; intros up c; [done|]. cbn. pose proof (start1_id up d c) as Hid.
  destruct (start1 up d c) as [[ok d'] c1].
  assert (∀ b k' c2, (if ok then fstart (un_status d') k c1 else (false, k, c1)) = (b, k', c2) → alike k k') as Hk.
  { intros b k' c2. destruct ok; [|by intros [= <- <- <-]]. intros E. specialize (IHk (un_status d') c1). by rewrite E in IHk. }
  destruct (if ok then _ else _) as [[b k'] c2]. specialize (Hk b k' c2 eq_refl). specialize (IHr up c2).
  destruct (fstart up r c2) as [[br r'] c3].
  cbn in *. destruct Hk as (? & ? & ?), IHr as (? & ? & ?). unfold alike. cbn. rewrite !fmap_app. split_and!; congruence.
Qed.
Lemma urep_alike root f f' h h' : urep root f h → alike f f' → (∃ d k, f' = FNode root d k FNil) → frep h' None f' →
  urep root f' h'.
Proof. intros [? ? ? ?] (? & ? & ?) ? ?. split; [done..|congruence|congruence]. Qed.
Lemma alike_root root f f' h : urep root f h → alike f f' → ∃ d k, f' = FNode root d k FNil.
Proof. intros [(d & k & ->) _ _ _] (Hr & _). destruct f' as [|l d' k' [|]]; [done| |done]. cbn in Hr. injection Hr as ->.
  eauto. Qed.

(** *** The callbacks *)

#[local] Abbreviation st := (st (C := C)).
Lemma ustore_at h a l u g : h !! l = Some u →
  ustore l g (st h a) = Some (tt, st (<[l := IUnit (un_parent u) (un_deps u) (g (un_data u))]> h) a).
Proof. intros Hl. unfold ustore, mbind, M_bind. by rewrite (uload_at _ _ _ _ Hl). Qed.
Definition af_pend : acall (C := C) := λ _ l d desc a, (true, if desc then set_pending true d else d, a).
Lemma pend_fn : fn_sim __inet_unit_stop af_pend.
Proof.
  intros h a l u pd desc Hl _. unfold af_pend, __inet_unit_stop, mbind, M_bind. destruct desc.
  - by rewrite (ustore_at _ _ _ _ _ Hl).
  - cbn. rewrite insert_id; [done|by destruct u].
Qed.
Lemma fwalk_pend f : ∀ pd a, fwalk af_pend pd f a = (true, fpend f, a).
Proof. induction f as [|l d k IHk r IHr]; intros pd a; [done|]. cbn. by rewrite IHk, IHr. Qed.
Definition af_stop : acall (C := C) := λ _ l d desc a,
  if (desc : bool) then (true, d, a) else let '(d, c) := stop1 d a.1 in (true, d, (c, a.2)).
Lemma stop_fn : fn_sim (__inet_unit_commit_stop fn) af_stop.
Proof.
  intros h a l u pd desc Hl _. unfold af_stop, __inet_unit_commit_stop, stop1. destruct desc;
    [by rewrite insert_id by (by destruct u)|].
  unfold mbind, M_bind. rewrite (uload_at _ _ _ _ Hl). destruct (_ && _); [by rewrite insert_id by (by destruct u); destruct a|].
  destruct u as [p deps d]. cbn [un_data un_parent un_deps] in *. destruct (un_status d).
  - unfold call_fn. cbn [u_ctx st InetUnitRep.st]. destruct (fn _ _ _) as [ok c].
    change (UState _ c _) with (st h (c, a.2)). erewrite ustore_at by exact Hl. cbn [un_parent un_deps un_data].
    erewrite ustore_at by apply lookup_insert_eq. cbn [un_parent un_deps un_data]. rewrite insert_insert_eq.
    erewrite ustore_at by apply lookup_insert_eq. cbn [un_parent un_deps un_data]. by rewrite insert_insert_eq.
  - unfold mret at 1, M_ret at 1. erewrite ustore_at by exact Hl. cbn [un_parent un_deps un_data].
    erewrite ustore_at by apply lookup_insert_eq. cbn [un_parent un_deps un_data]. rewrite insert_insert_eq. by destruct a.
Qed.
Lemma fwalk_stop f : ∀ pd a, fwalk af_stop pd f a = (true, (fstop f a.1).1, ((fstop f a.1).2, a.2)).
Proof.
  induction f as [|l d k IHk r IHr]; intros pd [c q]; [done|]. cbn. rewrite IHk. cbn. destruct (fstop k c) as [k' c1]. cbn.
  destruct (stop1 d c1) as [d' c2]. rewrite IHr. cbn. by destruct (fstop r c2).
Qed.
Definition up_of (pd : option udata) : bool := match pd with Some d => un_status d | None => true end.
Definition af_start : acall (C := C) := λ pd l d desc a,
  if (desc : bool) then let '(ok, d, c) := start1 (up_of pd) d a.1 in (ok, d, (c, a.2)) else (true, d, a).
Lemma start_fn : fn_sim (__inet_unit_commit_start fn) af_start.
Proof.
  intros h a l u pd desc Hl Hpd. unfold af_start, __inet_unit_commit_start. destruct desc; cbn [negb];
    [|by rewrite insert_id by (by destruct u)].
  unfold mbind, M_bind. rewrite (uload_at _ _ _ _ Hl).
  assert (parent_status u (st h a) = Some (up_of pd, st h a)) as ->.
  { unfold parent_status. destruct (un_parent u) as [q|], pd as [pd|]; cbn in Hpd; try done. destruct Hpd as (q' & deps & Hq).
    unfold mbind, M_bind. by rewrite (uload_at _ _ _ _ Hq). }
  unfold start1. destruct (up_of pd); cbn [negb orb]; [|by rewrite insert_id by (by destruct u); destruct a].
  destruct (negb (un_enabled (un_data u)) || un_status (un_data u)); [by rewrite insert_id by (by destruct u); destruct a|].
  destruct u as [p deps d]. cbn [un_data un_parent un_deps] in *. unfold call_fn. cbn [u_ctx st InetUnitRep.st].
  destruct (fn _ _ _) as [ok c].
  change (UState _ c _) with (st h (c, a.2)). erewrite ustore_at by exact Hl. cbn [un_parent un_deps un_data].
  erewrite ustore_at by apply lookup_insert_eq. cbn [un_parent un_deps un_data]. rewrite insert_insert_eq.
  erewrite ustore_at by apply lookup_insert_eq. cbn [un_parent un_deps un_data]. rewrite insert_insert_eq.
  erewrite uload_at by apply lookup_insert_eq. cbn. by destruct ok.
Qed.
Lemma fwalk_start f : ∀ pd a, fwalk af_start pd f a =
  ((fstart (up_of pd) f a.1).1.1, (fstart (up_of pd) f a.1).1.2, ((fstart (up_of pd) f a.1).2, a.2)).
Proof.
  induction f as [|l d k IHk r IHr]; intros pd [c q]; [done|]. cbn. destruct (start1 _ d c) as [[ok d'] c1]. destruct ok.
  - rewrite IHk. cbn. destruct (fstart (un_status d') k c1) as [[b k'] c2]. cbn. destruct b; rewrite IHr; cbn;
      by destruct (fstart (up_of pd) r c2) as [[br r'] c3].
  - rewrite IHr. cbn. by destruct (fstart (up_of pd) r c1) as [[br r'] c3].
Qed.
End commit.

(** *** The program does what the functions do *)

Section refine.
Context {C : Type}.
#[local] Abbreviation st := (st (C := C)).
Lemma fget_data id f l : fget id f = Some l ↔ (∃ d, fdata_of id f = Some d) ∧ fget id f = Some l.
Proof.
  split; [|by intros [_ ?]]. intros E. split; [|done]. revert E. induction f as [|l' d k IHk r IHr]; cbn; [done|].
  destruct (_ =? _); [by eexists|]. destruct (fget id k) eqn:Ek.
  - intros [= ->]. destruct (IHk eq_refl) as [d' ->]. by eexists.
  - intros Er. destruct (fdata_of id k); [by eexists|]. by apply IHr.
Qed.
Lemma fdata_none id f : fget id f = None → fdata_of id f = None.
Proof.
  induction f as [|l d k IHk r IHr]; cbn; [done|]. destruct (_ =? _); [done|]. destruct (fget id k); [done|]. intros E.
  by rewrite IHk, IHr.
Qed.
Lemma fget_at id h f : ∀ p l, frep h p f → fget id f = Some l → ∃ q deps d, h !! l = Some (IUnit q deps d) ∧
  fdata_of id f = Some d.
Proof.
  induction f as [|l' d k IHk r IHr]; intros p l; cbn; [done|]. intros (Hl & Hk & Hr). destruct (_ =? _); [intros [= <-];
    by eexists _, _, _|].
  destruct (fget id k) eqn:Ek.
  - intros [= <-]. destruct (IHk _ _ Hk eq_refl) as (q & deps & d' & H1 & ->). by eexists _, _, _.
  - intros Er. rewrite (fdata_none id k Ek). by apply (IHr p).
Qed.
Lemma urep_focus root f h id l : urep root f h → fget id f = Some l →
  ∃ pl pdl d kids, un_id d = id ∧ frep h pl (FNode l d kids FNil) ∧ pdata h pl pdl ∧ NoDup (l :: flocs kids) ∧
    (∀ q, pl = Some q → q ∉ l :: flocs kids) ∧
    ∀ h' g gk, (∀ d, un_id (g d) = un_id d) → (∀ k, alike k (gk k)) → frep h' pl (FNode l (g d) (gk kids) FNil) →
      (∀ x, x ∉ l :: flocs kids → h' !! x = h !! x) → urep root (falter id g gk f) h'.
Proof.
  intros H Hl. destruct (focus id h f None None) with (l := l) as (pl & pdl & d & kids & H1 & H2 & H3 & H4 & H5 & _ & H6); [apply H|done|apply H|apply H|done|done|].
  exists pl, pdl, d, kids. do 5 (split; [done|]). intros h' g gk Hg Hgk Hrep Hfr.
  pose proof (falter_alike id g gk f Hg Hgk) as Ha. eapply urep_alike; [exact H|exact Ha|by eapply alike_root|].
  apply H6; [|done|done]. intros k. split; apply Hgk.
Qed.
Lemma alike_refl k : alike k k.
Proof. done. Qed.

Lemma start_spec root f h a id : urep root f h → ∃ h' q,
  inet_unit_start root id (st h a) = Some (has id f, st h' (a.1, q)) ∧ urep root (fstart_op id f) h'.
Proof.
  intros H. destruct (ufind_spec root f h a id H) as [q E]. unfold inet_unit_start, mbind, M_bind. rewrite E.
  unfold has, fstart_op.
  destruct (fget id f) as [l|] eqn:El.
  - destruct (urep_focus root f h id l H El) as (pl & pdl & d & kids & _ & (Hl & Hk & _) & _ & Hnd & _ & Hback).
    erewrite ustore_at by exact Hl. eexists _, q. split; [done|]. apply Hback; [done|done| |].
    + cbn. rewrite lookup_insert_eq. split_and!; [done| |done]. apply (frep_ext h); [|done]. intros x Hx. apply lookup_insert_ne.
      apply NoDup_cons in Hnd as [? _]. set_solver.
    + intros x Hx. apply lookup_insert_ne. set_solver.
  - exists h, q. split; [done|]. by rewrite falter_none.
Qed.
Lemma stop_spec root f h a id : urep root f h → ∃ h' q,
  inet_unit_stop root id (st h a) = Some (has id f, st h' (a.1, q)) ∧ urep root (fstop_op id f) h'.
Proof.
  intros H. destruct (ufind_spec root f h a id H) as [q E]. unfold inet_unit_stop, mbind, M_bind. rewrite E. unfold has, fstop_op.
  destruct (fget id f) as [l|] eqn:El; [|exists h, q; split; [done|]; by rewrite falter_none].
  destruct (urep_focus root f h id l H El) as (pl & pdl & d & kids & _ & (Hl & Hk & _) & Hpd & Hnd & Hp & Hback).
  erewrite ustore_at by exact Hl. cbn [un_parent un_deps un_data]. set (h1 := <[l := _]> h).
  assert (frep h1 pl (FNode l (set_enabled false d) kids FNil)) as Hrep1.
  { cbn. unfold h1. rewrite lookup_insert_eq. split_and!; [done| |done]. apply (frep_ext h); [|done]. intros x Hx.
    apply lookup_insert_ne.
    apply NoDup_cons in Hnd as [? _]. set_solver. }
  pose proof (do_walk_sim __inet_unit_stop af_pend l (set_enabled false d) kids h1 pl pdl (a.1, q) pend_fn Hnd Hp Hrep1) as Hw.
  rewrite fwalk_pend in Hw. destruct Hw as (h2 & -> & Hrep2 & Hfr).
  { apply pdata_insert; [|done]. intros r ->. specialize (Hp r eq_refl). set_solver. }
  exists h2, q. split; [done|]. apply Hback; [done|apply fpend_alike|exact Hrep2|].
  intros x Hx. rewrite Hfr by done. apply lookup_insert_ne. set_solver.
Qed.
Lemma flag_spec root f h a id g : urep root f h → ∃ q,
  (pu ← inet_unit_find root id; match pu with None => mret false | Some pu => u ← uload pu; mret (g (un_data u)) end) (st h a) =
  Some (flag g id f, st h (a.1, q)).
Proof.
  intros H. destruct (ufind_spec root f h a id H) as [q E]. exists q. unfold mbind, M_bind. rewrite E. unfold flag.
  destruct (fget id f) as [l|] eqn:El; [|by rewrite fdata_none].
  destruct (fget_at id h f None l (urep_store _ _ _ H) El) as (p & deps & d & Hl & ->). by rewrite (uload_at _ _ _ _ Hl).
Qed.
Lemma alike_has f f' id : alike f f' → has id f' = has id f.
Proof.
  intros (_ & _ & E). unfold has. destruct (fget id f) eqn:E1, (fget id f') eqn:E2; try done.
  - apply fget_none in E2. rewrite E in E2. apply fget_none in E2. congruence.
  - apply fget_none in E1. rewrite <- E in E1. apply fget_none in E1. congruence.
Qed.
Lemma fstop_op_alike id f : alike f (fstop_op id f).
Proof. apply falter_alike; [done|apply fpend_alike]. Qed.
Lemma fstart_op_alike id f : alike f (fstart_op id f).
Proof. by apply falter_alike. Qed.
Lemma restart_spec root f h a id b : urep root f h → ∃ h' q,
  inet_unit_restart root id b (st h a) = Some (has id f, st h' (a.1, q)) ∧
  urep root (if has id f && (b || flag un_enabled id f) then fstart_op id (fstop_op id f) else f) h'.
Proof.
  intros H. destruct (ufind_spec root f h a id H) as [q E]. unfold inet_unit_restart, mbind, M_bind. rewrite E.
  pose proof (stop_spec root f h (a.1, q) id H) as (h1 & q1 & E1 & H1).
  pose proof (start_spec root _ h1 (a.1, q1) id H1) as (h2 & q2 & E2 & H2). rewrite (alike_has f) in E2 by apply fstop_op_alike.
  unfold flag, has in *. destruct (fget id f) as [l|] eqn:El; [|by exists h, q].
  destruct (fget_at id h f None l (urep_store _ _ _ H) El) as (p & deps & d & Hl & ->). rewrite (uload_at _ _ _ _ Hl).
  cbn [un_data andb].
  destruct (b || un_enabled d); [|by exists h, q].
  change (a.1, q).1 with a.1 in *. change (a.1, q1).1 with a.1 in *. unfold mbind, M_bind. rewrite E1. cbn [negb].
  rewrite E2. cbn [negb]. by exists h2, q2.
Qed.
Lemma commit_spec (fn : Z → bool → C → bool * C) root f h a : urep root f h →
  let '(f1, c1) := fstop fn f a.1 in let '(b, f2, c2) := fstart fn true f1 c1 in
  ∃ h', inet_unit_commit fn root (st h a) = Some (b, st h' (c2, a.2)) ∧ urep root f2 h'.
Proof.
  intros H. destruct (fstop fn f a.1) as [f1 c1] eqn:E1. destruct (fstart fn true f1 c1) as [[b f2] c2] eqn:E2.
  pose proof (fstop_alike fn f a.1) as Ha1. rewrite E1 in Ha1. cbn in Ha1.
  pose proof (fstart_alike fn f1 true c1) as Ha2. rewrite E2 in Ha2. cbn in Ha2.
  destruct (alike_root _ _ _ _ H Ha1) as (d1 & k1 & Ef1). pose proof (urep_root _ _ _ H) as (d & k & Ef).
  pose proof (do_walk_sim _ _ root d k h None None a (stop_fn fn)) as W1. rewrite fwalk_stop in W1.
  rewrite <- Ef, E1 in W1. cbn [fst snd] in W1.
  destruct W1 as (h1 & W1 & Hrep1 & _); [pose proof (urep_locs _ _ _ H) as Hn; subst f; cbn in Hn;
    by rewrite app_nil_r in Hn|done|apply H|done|].
  assert (urep root f1 h1) as H1 by (eapply urep_alike; eauto).
  pose proof (do_walk_sim _ _ root d1 k1 h1 None None (c1, a.2) (start_fn fn)) as W2. rewrite fwalk_start in W2.
  rewrite <- Ef1 in W2.
  cbn [fst snd up_of] in W2. rewrite E2 in W2. cbn [fst snd] in W2.
  destruct W2 as (h2 & W2 & Hrep2 & _); [pose proof (urep_locs _ _ _ H1) as Hn; subst f1; cbn in Hn;
    by rewrite app_nil_r in Hn|done|apply H1|done|].
  exists h2. unfold inet_unit_commit, mbind, M_bind. rewrite W1, W2. split; [done|]. eapply urep_alike; eauto.
  by eapply alike_root.
Qed.

Lemma uop_spec (fn : Z → bool → C → bool * C) root f h a op : urep root f h → ∃ h' q,
  let '(b, f', c') := fop fn op f a.1 in
  uop_run fn root op (st h a) = Some (b, st h' (c', q)) ∧ urep root f' h'.
Proof.
  intros H. destruct op as [id|id|id b|id [|]|id|id|]; cbn [uop_run fop].
  - by apply start_spec.
  - by apply stop_spec.
  - by apply restart_spec.
  - by apply start_spec.
  - by apply stop_spec.
  - destruct (flag_spec root f h a id un_status H) as [q E]. exists h, q. by split.
  - destruct (flag_spec root f h a id un_enabled H) as [q E]. exists h, q. by split.
  - pose proof (commit_spec fn root f h a H) as Hc. destruct (fstop fn f a.1) as [f1 c1].
    destruct (fstart fn true f1 c1) as [[b f2] c2].
    destruct Hc as (h' & E & Hu). exists h', a.2. by split.
Qed.
Lemma uops_spec (fn : Z → bool → C → bool * C) root ops : ∀ f h a, urep root f h → ∃ h' q,
  let '(bs, f', c') := fops fn ops f a.1 in
  uops_run fn root ops (st h a) = Some (bs, st h' (c', q)) ∧ urep root f' h'.
Proof.
  induction ops as [|op ops IH]; intros f h a H; [by exists h, a.2; destruct a|]. cbn [fops uops_run].
  destruct (uop_spec fn root f h a op H) as (h1 & q1 & E). destruct (fop fn op f a.1) as [[b f1] c1]. destruct E as [E H1].
  destruct (IH f1 h1 (c1, q1) H1) as (h2 & q2 & E2). exists h2, q2. cbn [fst] in E2. destruct (fops fn ops f1 c1) as [[bs f2] c2].
  destruct E2 as [E2 H2]. split; [|done]. unfold mbind, M_bind. by rewrite E, E2.
Qed.
End refine.
