(* ===== verification/InetUnitProps.v ===== *)
(** The theorems on units: which services run after a commit, and in which order they are
    started and stopped. *)
From S2P Require Import Prelude InetUnit InetUnitRep.
Local Open Scope Z_scope.

(** *** The tree that nested calls of the constructors build *)

Fixpoint eids (e : uexp) : list Z :=
  match e with UENil => [] | UENode i _ kids rest => i :: eids kids ++ eids rest end.
Fixpoint erids (e : uexp) : list Z := match e with UENil => [] | UENode i _ _ rest => i :: erids rest end.
Fixpoint built (e : uexp) (f : forest) : Prop :=
  match e, f with
  | UENil, FNil => True
  | UENode i s ek er, FNode l d fk fr => d = UData i s false s false ∧ built ek fk ∧ built er fr
  | _, _ => False
  end.
Fixpoint like (e : uexp) (f : forest) : Prop :=
  match e, f with
  | UENil, FNil => True
  | UENode i _ ek er, FNode l d fk fr => un_id d = i ∧ like ek fk ∧ like er fr
  | _, _ => False
  end.
Lemma built_like e : ∀ f, built e f → like e f.
Proof. induction e as [|i s ek IHk er IHr]; intros [|l d fk fr]; cbn; try done. intros (-> & ? & ?). eauto. Qed.
Lemma like_ids e : ∀ f, like e f → fids f = eids e.
Proof. induction e as [|i s ek IHk er IHr]; intros [|l d fk fr]; cbn; try done. intros (<- & ? & ?). rewrite fmap_app.
  f_equal. by f_equal; eauto. Qed.
(** A forest of the same shape: the same ids at the same places *)
Fixpoint fsame (f f' : forest) : Prop :=
  match f, f' with
  | FNil, FNil => True
  | FNode l d k r, FNode l' d' k' r' => l' = l ∧ un_id d' = un_id d ∧ fsame k k' ∧ fsame r r'
  | _, _ => False
  end.
Lemma fsame_refl f : fsame f f.
Proof. induction f; cbn; done. Qed.
Lemma fsame_trans f1 : ∀ f2 f3, fsame f1 f2 → fsame f2 f3 → fsame f1 f3.
Proof. induction f1 as [|l d k IHk r IHr]; intros [|] [|]; cbn; try done. intros (-> & -> & ? & ?) (-> & -> & ? & ?).
  eauto 10. Qed.
Lemma like_same e : ∀ f f', like e f → fsame f f' → like e f'.
Proof. induction e as [|i s ek IHk er IHr]; intros [|] [|]; cbn; try done. intros (<- & ? & ?) (-> & -> & ? & ?). eauto. Qed.

Section build.
Context {C : Type}.
#[local] Abbreviation st := (st (C := C)).
Lemma parent_loop_spec ru a f : ∀ h p, frep h p f → NoDup (flocs f) →
  ∃ h', parent_loop ru (roots f) (st h a) = Some (tt, st h' a) ∧ frep h' (Some ru) f ∧ (∀ x, x ∉ roots f → h' !! x = h !! x).
Proof.
  induction f as [|l d k IHk r IHr]; intros h p; [by exists h|]. cbn. intros (Hl & Hk & Hr) Hnd.
  apply NoDup_cons in Hnd as [Hln Hnd]. apply NoDup_app in Hnd as (Hndk & Hdisj & Hndr). unfold mbind, M_bind.
  rewrite (uload_at _ _ _ _ Hl).
  unfold uput, modify. cbn [un_deps un_data]. set (h1 := <[l := IUnit (Some ru) (roots k) d]> h).
  change (with_units _ (st h a)) with (st h1 a). destruct (IHr h1 p) as (h2 & -> & Hr2 & Hfr).
  { apply (frep_ext h); [|done]. intros x Hx. apply lookup_insert_ne. set_solver. } { done. }
  assert (∀ x, x ∈ roots r → x ∈ flocs r) as Hroots. { clear. induction r; cbn; set_solver. }
  exists h2. split; [done|]. split_and!; [| |done|].
  - rewrite Hfr by set_solver. apply lookup_insert_eq.
  - apply (frep_ext h); [|done]. intros x Hx. rewrite Hfr by set_solver. apply lookup_insert_ne. set_solver.
  - intros x Hx. rewrite Hfr by set_solver. apply lookup_insert_ne. set_solver.
Qed.
Lemma build_spec e : ∀ h a, ∃ h' f, build e (st h a) = Some (roots f, st h' a) ∧ frep h' None f ∧ built e f ∧ NoDup (flocs f) ∧
  (∀ x, x ∈ flocs f → h !! x = None) ∧ (∀ x, x ∉ flocs f → h' !! x = h !! x).
Proof.
  induction e as [|i s ek IHk er IHr]; intros h a.
  { exists h, FNil. cbn. split_and!; try done; [constructor|set_solver]. }
  cbn [build]. unfold mbind, M_bind. destruct (IHk h a) as (h1 & fk & -> & Hrk & Hbk & Hndk & Hfk & Hfr1).
  assert ((if s then inet_unit_s i (roots fk) else inet_unit i (roots fk)) = __inet_unit (C := C) i s (roots fk)) as -> by (by destruct s).
  unfold __inet_unit, mbind, M_bind, gets, uput, modify. cbn [u_units InetUnitRep.st]. set (ru := fresh (dom h1)).
  assert (h1 !! ru = None) as Hru by (apply not_elem_of_dom, is_fresh). set (d := UData i s false s false).
  change (with_units _ (st h1 a)) with (st (<[ru := IUnit None (roots fk) d]> h1) a). set (h2 := <[ru := _]> h1).
  assert (ru ∉ flocs fk) as Hrk'. { intros Hx. pose proof (frep_dom _ _ _ _ Hrk Hx) as Hd. by apply not_elem_of_dom in Hru. }
  destruct (parent_loop_spec ru a fk h2 None) as (h3 & -> & Hrk3 & Hfr3); [|done|].
  { apply (frep_ext h1); [|done]. intros x Hx. apply lookup_insert_ne. set_solver. }
  assert (∀ x, x ∈ roots fk → x ∈ flocs fk) as Hroots. { clear. induction fk; cbn; set_solver. }
  unfold mret, M_ret. destruct (IHr h3 a) as (h4 & fr & -> & Hrr & Hbr & Hndr & Hfr & Hfr4).
  assert (∀ x, x ∈ ru :: flocs fk → x ∉ flocs fr) as Hdisj.
  { intros x Hx Hxr. specialize (Hfr x Hxr). apply elem_of_cons in Hx as [->|Hx].
    - rewrite Hfr3 in Hfr by set_solver. unfold h2 in Hfr. by rewrite lookup_insert_eq in Hfr.
    - pose proof (frep_dom _ _ _ _ Hrk3 Hx) as Hd. by apply not_elem_of_dom in Hfr. }
  assert (∀ x, x ∉ ru :: flocs fk → h3 !! x = h !! x) as Hout.
  { intros x Hx. rewrite Hfr3 by set_solver. unfold h2. rewrite lookup_insert_ne by set_solver. apply Hfr1. set_solver. }
  exists h4, (FNode ru d fk fr). cbn. split; [done|]. split_and!; try done.
  - rewrite Hfr4 by (apply Hdisj; set_solver). rewrite Hfr3 by set_solver. apply lookup_insert_eq.
  - apply (frep_ext h3); [|done]. intros x Hx. apply Hfr4, Hdisj. set_solver.
  - constructor; [rewrite elem_of_app; intros [?|?]; [done|]; by apply (Hdisj ru); [set_solver|]|].
    apply NoDup_app. split_and!; [done| |done]. intros x Hx. apply Hdisj. set_solver.
  - intros x. rewrite elem_of_cons, elem_of_app. intros [->|[Hx|Hx]]; [|by apply Hfk|].
    + rewrite <- Hfr1 by done. done.
    + rewrite <- Hout; [by apply Hfr|]. intros ?. by apply (Hdisj x).
  - intros x Hx. rewrite Hfr4 by set_solver. apply Hout. set_solver.
Qed.
End build.

(** *** The invariant

    A running unit that is not enabled is pending; one that will not be stopped depends on one
    that will not be stopped.  [kp] is whether the parent goes on. *)
Fixpoint finv (kp : bool) (f : forest) : Prop :=
  match f with
  | FNil => True
  | FNode _ d k r =>
      (un_status d = true → un_enabled d = false → un_pending d = true) ∧ (keeps d = true → kp = true) ∧
      finv (keeps d) k ∧ finv kp r
  end.
(** After a commit: nothing is pending, what runs is enabled and its parent runs. *)
Fixpoint fpost (up : bool) (f : forest) : Prop :=
  match f with
  | FNil => True
  | FNode _ d k r =>
      un_pending d = false ∧ (un_status d = true → un_enabled d = true ∧ up = true) ∧ fpost (un_status d) k ∧ fpost up r
  end.
Lemma fpost_inv f : ∀ up, fpost up f → finv up f.
Proof.
  induction f as [|l d k IHk r IHr]; intros up; cbn; [done|]. intros (Hp & Hs & Hk & Hr). unfold keeps. rewrite Hp.
  destruct (un_status d); cbn in *; [destruct (Hs eq_refl) as [-> ->]|]; cbn; split_and!; try done; auto.
Qed.
Lemma fpost_up f : ∀ up, fpost false f → fpost up f.
Proof. induction f as [|l d k IHk r IHr]; intros up; cbn; [done|]. intros (Hp & Hs & Hk & Hr). split_and!; try done;
  [|auto]. intros E. by destruct (Hs E). Qed.
Lemma finv_pend f : ∀ kp, finv kp (fpend f).
Proof.
  induction f as [|l d k IHk r IHr]; intros kp; cbn; [done|]. unfold keeps. cbn. rewrite andb_false_r. cbn. split_and!; try done.
Qed.
Lemma finv_built e : ∀ f, built e f → finv true f.
Proof.
  assert (∀ f kp, built e f → finv kp f) as H; [|eauto]. induction e as [|i s ek IHk er IHr]; intros [|l d fk fr] kp;
    cbn; try done.
  intros (-> & Hk & Hr). unfold keeps. cbn. rewrite andb_false_r. split_and!; [by destruct s|done|auto|auto].
Qed.
Lemma finv_start id f : ∀ kp, finv kp f → finv kp (fstart_op id f).
Proof.
  induction f as [|l d k IHk r IHr]; intros kp; cbn; [done|]. intros (H1 & H2 & Hk & Hr).
  destruct (un_id d =? id); cbn; [|split_and!; auto]. assert (keeps (set_enabled true d) = keeps d) as E.
  { unfold keeps. cbn. destruct (un_status d), (un_enabled d), (un_pending d); try done. by specialize (H1 eq_refl eq_refl). }
  rewrite E. split_and!; done.
Qed.
Lemma finv_stop id f : ∀ kp, finv kp f → finv kp (fstop_op id f).
Proof.
  induction f as [|l d k IHk r IHr]; intros kp; cbn; [done|]. intros (H1 & H2 & Hk & Hr).
  destruct (un_id d =? id); cbn; [|split_and!; auto]. unfold keeps at 1 2. cbn. rewrite !andb_false_r. split_and!;
    try done. apply finv_pend.
Qed.

(** *** The commit *)

Section commit.
Context {C : Type} (fn : Z → bool → C → bool * C).
Lemma stop1_spec d c : ∃ e c', stop1 fn d c = (UData (un_id d) (keeps d) (un_enabled d) false e, c').
Proof.
  unfold stop1, keeps. destruct d as [i s en p e]. cbn. destruct p, en; cbn; [..|by rewrite !andb_true_r; eexists _, _|];
    destruct s; cbn; try (destruct (fn _ _ _)); by eexists _, _.
Qed.
Lemma fstop_post f : ∀ kp c, finv kp f → fpost kp (fstop fn f c).1.
Proof.
  induction f as [|l d k IHk r IHr]; intros kp c; cbn; [done|]. intros (H1 & H2 & Hk & Hr). specialize (IHk (keeps d) c Hk).
  destruct (fstop fn k c) as [k' c1]. destruct (stop1_spec d c1) as (e & c2 & ->). specialize (IHr kp c2 Hr).
  destruct (fstop fn r c2) as [r' c3].
  cbn in *. split_and!; try done. intros E. split; [|by apply H2]. unfold keeps in E. by destruct (un_enabled d);
    [|rewrite andb_false_r in E].
Qed.
Lemma start1_spec up d c : ∃ ok s p e c', start1 fn up d c = (ok, UData (un_id d) s (un_enabled d) p e, c') ∧
  s = un_status d || (up && un_enabled d) ∧
  (un_pending d = false → p = false) ∧ (ok = false → un_status d = false).
Proof.
  unfold start1. destruct d as [i s en p e]. cbn. destruct up, en, s; cbn; try (by eexists _, _, _, _, _).
  destruct (fn _ _ _) as [ok c']. by eexists _, _, _, _, _.
Qed.
Lemma fstart_post f : ∀ up c, fpost up f → fpost up (fstart fn up f c).1.2.
Proof.
  induction f as [|l d k IHk r IHr]; intros up c; cbn; [done|]. intros (Hp & Hs & Hk & Hr).
  destruct (start1_spec up d c) as (ok & s & p & e & c1 & -> & Es & Ep & Eok). cbn [un_status].
  assert (fpost s k) as Hk'. { subst s. destruct (un_status d); [done|]. by apply fpost_up. }
  assert (∀ b k' c2, (if ok then fstart fn s k c1 else (false, k, c1)) = (b, k', c2) → fpost s k') as Hkk.
  { intros b k' c2. destruct ok; [|by intros [= <- <- <-]]. intros E. specialize (IHk s c1 Hk'). by rewrite E in IHk. }
  destruct (if ok then _ else _) as [[b k'] c2]. specialize (Hkk b k' c2 eq_refl). specialize (IHr up c2 Hr).
  destruct (fstart fn up r c2) as [[br r'] c3]. cbn in *. split_and!; try done; [by apply Ep|].
  subst s. destruct (un_status d); [by intros _; destruct Hs|]. destruct up, (un_enabled d); done.
Qed.
Lemma fstop_same f : ∀ c, fsame f (fstop fn f c).1.
Proof.
  induction f as [|l d k IHk r IHr]; intros c; cbn; [done|]. specialize (IHk c). destruct (fstop fn k c) as [k' c1].
  destruct (stop1_spec d c1) as (e & c2 & ->). specialize (IHr c2). by destruct (fstop fn r c2).
Qed.
Lemma fstart_same f : ∀ up c, fsame f (fstart fn up f c).1.2.
Proof.
  induction f as [|l d k IHk r IHr]; intros up c; cbn; [done|].
  destruct (start1_spec up d c) as (ok & s & p & e & c1 & -> & _). cbn [un_status].
  assert (∀ b k' c2, (if ok then fstart fn s k c1 else (false, k, c1)) = (b, k', c2) → fsame k k') as Hkk.
  { intros b k' c2. destruct ok; [|intros [= <- <- <-]; apply fsame_refl]. intros E. specialize (IHk s c1). by rewrite E in IHk. }
  destruct (if ok then _ else _) as [[b k'] c2]. specialize (Hkk b k' c2 eq_refl). specialize (IHr up c2).
  by destruct (fstart fn up r c2) as [[br r'] c3].
Qed.
(** What is enabled is what the calls said. *)
Definition fen (E : gset Z) (f : forest) : Prop := Forall (λ d, un_enabled d = bool_decide (un_id d ∈ E)) (fdata f).
Lemma fen_node E l d k r : fen E (FNode l d k r) ↔ un_enabled d = bool_decide (un_id d ∈ E) ∧ fen E k ∧ fen E r.
Proof. unfold fen. cbn. rewrite Forall_cons, Forall_app. done. Qed.
Lemma fen_stop E f : ∀ c, fen E f → fen E (fstop fn f c).1.
Proof.
  induction f as [|l d k IHk r IHr]; intros c; cbn; [done|]. rewrite fen_node. intros (Hd & Hk & Hr).
  specialize (IHk c Hk). destruct (fstop fn k c) as [k' c1].
  destruct (stop1_spec d c1) as (e & c2 & ->). specialize (IHr c2 Hr). destruct (fstop fn r c2) as [r' c3]. by apply fen_node.
Qed.
Lemma fen_start E f : ∀ up c, fen E f → fen E (fstart fn up f c).1.2.
Proof.
  induction f as [|l d k IHk r IHr]; intros up c; cbn; [done|]. rewrite fen_node. intros (Hd & Hk & Hr).
  destruct (start1_spec up d c) as (ok & s & p & e & c1 & -> & _). cbn [un_status].
  assert (∀ b k' c2, (if ok then fstart fn s k c1 else (false, k, c1)) = (b, k', c2) → fen E k') as Hkk.
  { intros b k' c2. destruct ok; [|by intros [= <- <- <-]]. intros E'. specialize (IHk s c1 Hk). by rewrite E' in IHk. }
  destruct (if ok then _ else _) as [[b k'] c2]. specialize (Hkk b k' c2 eq_refl). specialize (IHr up c2 Hr).
  destruct (fstart fn up r c2) as [[br r'] c3]. by apply fen_node.
Qed.
(** Every unit that is enabled and whose parent runs, runs. *)
Fixpoint ffull (up : bool) (f : forest) : Prop :=
  match f with
  | FNil => True
  | FNode _ d k r => un_status d = up && un_enabled d ∧ ffull (un_status d) k ∧ ffull up r
  end.
Lemma fstart_full f : (∀ id c, (fn id true c).1 = true) → ∀ up c, fpost up f →
  (fstart fn up f c).1.1 = true ∧ ffull up (fstart fn up f c).1.2.
Proof.
  intros Hok. induction f as [|l d k IHk r IHr]; intros up c; cbn; [done|]. intros (Hp & Hs & Hk & Hr).
  assert (∃ p e c1, start1 fn up d c = (true, UData (un_id d) (up && un_enabled d) (un_enabled d) p e, c1)) as (p & e & c1 & ->).
  { unfold start1. specialize (Hok (un_id d) c). destruct d as [i s en p e]. cbn in *. destruct s;
    [destruct Hs as [-> ->]; [done|by eexists _, _, _]|].
    destruct up, en; cbn; try (by eexists _, _, _). destruct (fn i true c) as [ok c']. cbn in Hok. subst ok. by eexists _, _, _. }
  cbn [un_status]. assert (fpost (up && un_enabled d) k) as Hk'.
  { destruct (un_status d); [by destruct Hs as [-> ->]|]. by apply fpost_up. }
  destruct (IHk _ c1 Hk') as [E1 E2]. destruct (fstart fn _ k c1) as [[b k'] c2]. cbn in E1, E2. subst b.
  destruct (IHr up c2 Hr) as [E3 E4]. destruct (fstart fn up r c2) as [[br r'] c3]. cbn in *. by rewrite E3.
Qed.
(** A commit that finds nothing to do *)
Lemma commit_idle f : ∀ up c, fpost up f → ffull up f → fstop fn f c = (f, c) ∧ fstart fn up f c = (true, f, c).
Proof.
  induction f as [|l d k IHk r IHr]; intros up c; cbn; [done|]. intros (Hp & Hs & Hk & Hr) (Hd & Hdk & Hdr).
  destruct (IHk _ c Hk Hdk) as [-> Ek]. assert (stop1 fn d c = (d, c)) as ->.
  { unfold stop1. destruct d as [i s en p e]. cbn in *. subst p. destruct en; [done|]. destruct s; [|done]. by destruct Hs. }
  assert (start1 fn up d c = (true, d, c)) as ->.
  { unfold start1. rewrite Hd. by destruct up, (un_enabled d). }
  destruct (IHr up c Hr Hdr) as [-> Er]. by rewrite Ek, Er.
Qed.

(** *** Sequences of calls *)

Definition want (op : uop) (E : gset Z) : gset Z :=
  match op with
  | UStart id | UEnable id true => {[id]} ∪ E
  | UStop id | UEnable id false => E ∖ {[id]}
  | URestart id b => if b || bool_decide (id ∈ E) then {[id]} ∪ E else E
  | _ => E
  end.
Definition wants (ops : list uop) : gset Z := foldl (λ E op, want op E) ∅ ops.
Lemma fen_alter id g gk E E' f : (∀ d, un_id (g d) = un_id d) → (∀ d, un_id d = id → un_enabled (g d) = bool_decide (id ∈ E')) →
  (∀ k, fen E k → fen E (gk k)) → (∀ k, fids (gk k) = fids k) → (∀ i, i ≠ id → i ∈ E' ↔ i ∈ E) → NoDup (fids f) →
  fen E f → fen E' (falter id g gk f).
Proof.
  intros Hid Hg Hgk Hki Hne. assert (∀ k, id ∉ fids k → fen E k → fen E' k) as Hmove.
  { intros k Hk H. unfold fen in *. rewrite Forall_forall in *. intros d Hd. rewrite H by done. apply bool_decide_ext.
    symmetry. apply Hne.
    intros <-. apply Hk. by apply list_elem_of_fmap_2. }
  induction f as [|l d k IHk r IHr]; cbn; [by intros; constructor|]. rewrite fen_node, fmap_app. intros Hnd (Hd & Hk & Hr).
  apply NoDup_cons in Hnd as [Hdn Hnd]. apply NoDup_app in Hnd as (Hndk & Hdisj & Hndr).
  destruct (Z.eqb_spec (un_id d) id) as [<-|Hn]; apply fen_node.
  - split_and!; [by rewrite Hid; apply Hg| |apply Hmove; [set_solver|done]]. apply Hmove; [rewrite Hki; set_solver|by apply Hgk].
  - split_and!; [|auto..]. rewrite Hd. apply bool_decide_ext. symmetry. by apply Hne.
Qed.
Lemma fen_pend E k : fen E k → fen E (fpend k).
Proof. induction k as [|l d k IHk r IHr]; [done|]. cbn. rewrite !fen_node. intros (? & ? & ?). auto. Qed.
Lemma fen_start_op id E f : NoDup (fids f) → fen E f → fen ({[id]} ∪ E) (fstart_op id f).
Proof. apply fen_alter; try done; [|set_solver]. intros d _. cbn. symmetry. apply bool_decide_eq_true_2. set_solver. Qed.
Lemma fen_stop_op id E f : NoDup (fids f) → fen E f → fen (E ∖ {[id]}) (fstop_op id f).
Proof.
  apply fen_alter; try done; [|apply fen_pend|intros; apply fpend_alike|set_solver].
  intros d _. cbn. symmetry. apply bool_decide_eq_false_2. set_solver.
Qed.
Lemma flag_en id E f : fen E f → has id f = true → flag un_enabled id f = bool_decide (id ∈ E).
Proof.
  intros H Hh. unfold flag, has in *. destruct (fget id f) as [l|] eqn:El; [|done]. apply fget_data in El as [[d Hd] _].
  rewrite Hd.
  clear -H Hd. revert Hd H. induction f as [|l' d' k IHk r IHr]; cbn; [done|]. rewrite fen_node. intros Hd (H1 & H2 & H3).
  destruct (Z.eqb_spec (un_id d') id) as [<-|]; [by simplify_eq|]. destruct (fdata_of id k); [by apply IHk|by apply IHr].
Qed.
(** All that holds of a forest between two calls *)
Record fok (E : gset Z) (e : uexp) (f : forest) : Prop := FOk {
  fok_inv : finv true f; fok_en : fen E f; fok_like : like e f; fok_nodup : NoDup (fids f) }.
Lemma falter_like id g gk e : (∀ d, un_id (g d) = un_id d) → (∀ e k, like e k → like e (gk k)) → ∀ f, like e f →
  like e (falter id g gk f).
Proof.
  intros Hg Hk. induction e as [|i s ek IHk er IHr]; intros [|l d k r]; cbn; try done. intros (<- & ? & ?).
  destruct (_ =? _); cbn; split_and!; auto.
Qed.
Lemma like_pend e : ∀ k, like e k → like e (fpend k).
Proof. induction e as [|i s ek IHk er IHr]; intros [|l d k r]; cbn; try done. intros (<- & ? & ?). auto. Qed.
Lemma fok_start id E e f : fok E e f → fok ({[id]} ∪ E) e (fstart_op id f).
Proof.
  intros [H1 H2 H3 H4]. split; [by apply finv_start|by apply fen_start_op|by apply falter_like|].
  destruct (fstart_op_alike id f) as (_ & _ & ->). done.
Qed.
Lemma fok_stop id E e f : fok E e f → fok (E ∖ {[id]}) e (fstop_op id f).
Proof.
  intros [H1 H2 H3 H4]. split; [by apply finv_stop|by apply fen_stop_op|by apply falter_like, H3; [|apply like_pend]|].
  destruct (fstop_op_alike id f) as (_ & _ & ->). done.
Qed.
Lemma fok_other E E' e f : (∀ i, i ∈ fids f → i ∈ E' ↔ i ∈ E) → fok E e f → fok E' e f.
Proof.
  intros HE [H1 H2 H3 H4]. split; try done. unfold fen in *. rewrite Forall_forall in *. intros d Hd. rewrite H2 by done.
  apply bool_decide_ext. symmetry. apply HE. by apply list_elem_of_fmap_2.
Qed.
Lemma fok_commit E e f c : fok E e f →
  let '(f1, c1) := fstop fn f c in let '(b, f2, c2) := fstart fn true f1 c1 in fok E e f2 ∧ fpost true f1 ∧ fpost true f2.
Proof.
  intros [H1 H2 H3 H4]. pose proof (fstop_post f true c H1) as P1. pose proof (fstop_same f c) as S1.
  pose proof (fen_stop E f c H2) as E1.
  destruct (fstop fn f c) as [f1 c1]. cbn in *. pose proof (fstart_post f1 true c1 P1) as P2.
  pose proof (fstart_same f1 true c1) as S2.
  pose proof (fen_start E f1 true c1 E1) as E2. destruct (fstart fn true f1 c1) as [[b f2] c2]. cbn in *. split_and!; try done.
  assert (like e f2) as L2 by (eapply like_same, S2; by eapply like_same). split; [by apply fpost_inv|done|done|].
  by rewrite (like_ids _ _ L2), <- (like_ids _ _ H3).
Qed.
Lemma fok_op op E e f c : fok E e f → fok (want op E) e (fop fn op f c).1.2.
Proof.
  intros H. destruct op as [id|id|id b|id [|]|id|id|]; cbn [want fop fst snd]; try done; try (by apply fok_start);
    try (by apply fok_stop).
  - destruct (has id f) eqn:Hh; cbn [andb].
    + rewrite (flag_en id E f (fok_en _ _ _ H) Hh). destruct (b || bool_decide (id ∈ E)); [|done].
      apply (fok_other ({[id]} ∪ E ∖ {[id]})); [|by apply fok_start, fok_stop]. intros i _. destruct (decide (i = id));
        set_solver.
    + apply (fok_other E); [|done]. intros i Hi. assert (i ≠ id). { intros ->. unfold has in Hh.
      destruct (fget id f) eqn:E'; [done|]. by apply fget_none in E'. }
      destruct (b || _); set_solver.
  - pose proof (fok_commit E e f c H) as Hc. destruct (fstop fn f c) as [f1 c1].
    destruct (fstart fn true f1 c1) as [[b f2] c2]. apply Hc.
Qed.
Lemma fok_ops ops : ∀ E e f c, fok E e f → fok (foldl (λ E op, want op E) E ops) e (fops fn ops f c).1.2.
Proof.
  induction ops as [|op ops IH]; intros E e f c H; [done|]. cbn. pose proof (fok_op op E e f c H) as H1.
  destruct (fop fn op f c) as [[b f1] c1].
  specialize (IH (want op E) e f1 c1 H1). destruct (fops fn ops f1 c1) as [[bs f2] c2]. done.
Qed.
End commit.

(** *** What runs after a commit *)

(** The unit and all units above it are in [E]. *)
Inductive on_path (E : gset Z) : uexp → Z → Prop :=
  | path_here id s kids rest : id ∈ E → on_path E (UENode id s kids rest) id
  | path_below i s kids rest id : i ∈ E → on_path E kids id → on_path E (UENode i s kids rest) id
  | path_beside i s kids rest id : on_path E rest id → on_path E (UENode i s kids rest) id.
Lemma on_path_elem E e id : on_path E e id → id ∈ eids e.
Proof. induction 1; cbn; set_solver. Qed.
Lemma fdata_elem id f d : fdata_of id f = Some d → id ∈ fids f.
Proof.
  intros E. destruct (decide (id ∈ fids f)) as [|Hn]; [done|]. apply fget_none, fdata_none in Hn. congruence.
Qed.
Lemma full_path E e : ∀ up f id, like e f → fen E f → ffull up f → NoDup (fids f) →
  flag un_status id f = true ↔ up = true ∧ on_path E e id.
Proof.
  induction e as [|i s ek IHk er IHr]; intros up [|l d k r] id; try done.
  { intros _ _ _ _. split; [done|]. intros [_ Hp]. inversion Hp. }
  rewrite fen_node. cbn [like ffull]. intros (Hi & Lk & Lr) (Ed & Ek & Er) (Fd & Fk & Fr) Hnd. cbn in Hnd.
  rewrite fmap_app in Hnd.
  apply NoDup_cons in Hnd as [Hdn Hnd]. apply NoDup_app in Hnd as (Hndk & Hdisj & Hndr). unfold flag in *. cbn.
  rewrite (like_ids _ _ Lk), (like_ids _ _ Lr) in *. destruct (Z.eqb_spec (un_id d) id) as [Hid|Hid].
  - subst id i. rewrite Fd, Ed, andb_true_iff, bool_decide_eq_true. split.
    + intros [? ?]. split; [done|]. by constructor.
    + intros [? H]. split; [done|]. inversion H; subst; [done|done|].
      match goal with H : on_path _ er _ |- _ => apply on_path_elem in H end. set_solver.
  - specialize (IHk (un_status d) k id Lk Ek Fk). rewrite (like_ids _ _ Lk) in IHk. specialize (IHk Hndk).
    specialize (IHr up r id Lr Er Fr). rewrite (like_ids _ _ Lr) in IHr. specialize (IHr Hndr). rewrite Hi in Hid.
    destruct (fdata_of id k) as [d'|] eqn:Edk.
    + pose proof (fdata_elem _ _ _ Edk) as Hin. rewrite (like_ids _ _ Lk) in Hin.
      rewrite IHk, Fd, Ed, Hi, andb_true_iff, bool_decide_eq_true. split.
      * intros [[? ?] ?]. split; [done|]. by apply path_below.
      * intros [? H]. inversion H; subst; [done|done|].
        match goal with H : on_path _ er _ |- _ => apply on_path_elem in H end. set_solver.
    + rewrite IHr. split; intros [? H]; (split; [done|]); [by apply path_beside|]. inversion H; subst; [done| |done].
      assert (false = true); [|done]. apply IHk. rewrite Fd, Ed, andb_true_iff, bool_decide_eq_true. done.
Qed.

(** *** The order of the calls

    The client's context is the sequence of its calls (the unit, start or stop, and the
    answer), and its answers may depend on all that came before. *)
Abbreviation hist := (list (Z * bool * bool)).
Definition hfn (ans : hist → Z → bool → bool) (id : Z) (en : bool) (h : hist) : bool * hist :=
  (ans h id en, h ++ [(id, en, ans h id en)]).
(** The parent of a unit in the tree *)
Fixpoint below (e : uexp) (c p : Z) : Prop :=
  match e with
  | UENil => False
  | UENode i _ kids rest => i = p ∧ c ∈ erids kids ∨ below kids c p ∨ below rest c p
  end.
Fixpoint started (e : uexp) : gset Z :=
  match e with
  | UENil => ∅
  | UENode i s kids rest => (if s then {[i]} else ∅) ∪ started kids ∪ started rest
  end.
(** The last call for a unit, start or stop and the answer; a unit whose last call did not
    fail runs if that was a start, or if it was created as started. *)
Fixpoint last_call (id : Z) (log : hist) : option (bool * bool) :=
  match log with
  | [] => None
  | (i, en, a) :: log => match last_call id log with Some x => Some x | None => if i =? id then Some (en, a) else None end
  end.
Definition failed (log : hist) (id : Z) : Prop := ∃ en, last_call id log = Some (en, false).
Definition up (e : uexp) (log : hist) (id : Z) : Prop :=
  match last_call id log with Some (en, a) => en = true ∧ a = true | None => id ∈ started e end.
(** A call after [log]: a start of a unit that does not run and whose parent does, or a stop
    of a unit that runs and on which nothing that runs depends, of the units whose last call
    did not fail. *)
Definition call_safe (e : uexp) (log : hist) (x : Z * bool * bool) : Prop :=
  if x.1.2 then (¬ failed log x.1.1 → ¬ up e log x.1.1) ∧ ∀ p, below e x.1.1 p → ¬ failed log p → up e log p
  else (¬ failed log x.1.1 → up e log x.1.1) ∧ ∀ c, below e c x.1.1 → ¬ failed log c → ¬ up e log c.

(** The units marked as started: a call that fails counts, too. *)
Definition call1 (S : gset Z) (x : Z * bool * bool) : gset Z := if x.1.2 then {[x.1.1]} ∪ S else S ∖ {[x.1.1]}.
(** With [S] marked: a start of a unit that is not marked and whose parent is, or a stop of
    a unit that is marked and on which nothing that is marked depends *)
Definition call_ok (R : Z → Z → Prop) (S : gset Z) (x : Z * bool * bool) : Prop :=
  if x.1.2 then x.1.1 ∉ S ∧ (∀ p, R x.1.1 p → p ∈ S) else x.1.1 ∈ S ∧ (∀ c, R c x.1.1 → c ∉ S).
Fixpoint log_ok (R : Z → Z → Prop) (S : gset Z) (log : hist) : Prop :=
  match log with [] => True | x :: log => call_ok R S x ∧ log_ok R (call1 S x) log end.
Lemma log_ok_app R l1 : ∀ S l2, log_ok R S (l1 ++ l2) ↔ log_ok R S l1 ∧ log_ok R (foldl call1 S l1) l2.
Proof. induction l1 as [|x l1 IH]; intros S l2; cbn; [naive_solver|]. rewrite IH. naive_solver. Qed.

Fixpoint rdata (f : forest) : list udata := match f with FNil => [] | FNode _ d _ r => d :: rdata r end.
(** [R] at the units of a forest *)
Fixpoint links (R : Z → Z → Prop) (p : option Z) (f : forest) : Prop :=
  match f with
  | FNil => True
  | FNode _ d k r =>
      (∀ q, R (un_id d) q → p = Some q) ∧ (∀ c, R c (un_id d) → c ∈ un_id <$> rdata k) ∧ links R (Some (un_id d)) k ∧ links R p r
  end.
Lemma fsame_links R f : ∀ p f', fsame f f' → links R p f → links R p f'.
Proof.
  assert (∀ f f', fsame f f' → un_id <$> rdata f' = un_id <$> rdata f) as Hr.
  { intros f0. induction f0 as [|l d k _ r IHr]; intros [|]; cbn; try done. intros (_ & -> & _ & ?). f_equal. by apply IHr. }
  induction f as [|l d k IHk r IHr]; intros p [|l' d' k' r']; cbn; try done. intros (_ & -> & Hk & Hs) (H1 & H2 & H3 & H4).
  split_and!; [done| |by apply IHk|by apply IHr]. by rewrite (Hr k k').
Qed.
Lemma like_links R e : ∀ p f, like e f → NoDup (eids e) → (∀ c q, c ∈ eids e → R c q → p = Some q ∧ c ∈ erids e ∨ below e c q) →
  (∀ c q, q ∈ eids e → R c q → below e c q) → links R p f.
Proof.
  assert (∀ e c q, below e c q → c ∈ eids e ∧ q ∈ eids e) as Hin.
  { intros e0. assert (∀ e c, c ∈ erids e → c ∈ eids e) as Hre. { intros e1. induction e1; cbn; set_solver. }
    induction e0 as [|i s ek IHk er IHr]; cbn; [done|]. intros c q [[-> Hc]|[H|H]];
      [apply Hre in Hc|apply IHk in H|apply IHr in H]; set_solver. }
  assert (∀ e f, like e f → un_id <$> rdata f = erids e) as Hrd.
  { intros e0. induction e0 as [|i s ek _ er IHr]; intros [|]; cbn; try done. intros (<- & _ & ?). f_equal. by apply IHr. }
  assert (∀ e c, c ∈ erids e → c ∈ eids e) as Hre. { intros e0. induction e0; cbn; set_solver. }
  induction e as [|i s ek IHk er IHr]; intros p [|l d k r]; try done. cbn [like eids links].
  intros (Hi & Lk & Lr) Hnd Hc Hq. rewrite Hi.
  apply NoDup_cons in Hnd as [Hdn Hnd]. apply NoDup_app in Hnd as (Hndk & Hdisj & Hndr). cbn [below erids] in *.
  rewrite not_elem_of_app in Hdn. split_and!.
  - intros q HR. destruct (Hc i q) as [[? _]|[[<- Hx]|[Hx|Hx]]]; [set_solver|done|done|..]; exfalso.
    + apply Hre in Hx. naive_solver.
    + apply Hin in Hx. naive_solver.
    + apply Hin in Hx. naive_solver.
  - intros c HR. rewrite (Hrd _ _ Lk). destruct (Hq c i) as [[_ Hx]|[Hx|Hx]]; [set_solver|done|done|..]; apply Hin in Hx;
    naive_solver.
  - apply IHk; [done|done|..].
    + intros c q Hx HR. destruct (Hc c q) as [[_ Hy]|[[<- Hy]|[Hy|Hy]]]; [set_solver|done|..|by left|by right|].
      * exfalso. apply elem_of_cons in Hy as [->|Hy]; [naive_solver|]. apply Hre in Hy. by apply (Hdisj c).
      * exfalso. apply Hin in Hy as [Hy _]. by apply (Hdisj c).
    + intros c q Hx HR. destruct (Hq c q) as [[<- Hy]|[Hy|Hy]]; [set_solver|done|naive_solver|done|]. exfalso.
      apply Hin in Hy as [_ Hy]. by apply (Hdisj q).
  - apply IHr; [done|done|..].
    + intros c q Hx HR. destruct (Hc c q) as [[-> Hy]|[[<- Hy]|[Hy|Hy]]]; [set_solver|done|..|by right].
      * left. split; [done|]. apply elem_of_cons in Hy as [->|Hy]; [naive_solver|done].
      * exfalso. apply Hre in Hy. by apply (Hdisj c).
      * exfalso. apply Hin in Hy as [Hy _]. by apply (Hdisj c).
    + intros c q Hx HR. destruct (Hq c q) as [[<- Hy]|[Hy|Hy]]; [set_solver|done|naive_solver| |done]. exfalso.
      apply Hin in Hy as [_ Hy]. by apply (Hdisj q).
Qed.

Section order.
Context (ans : hist → Z → bool → bool) (R : Z → Z → Prop).
Definition on (S : gset Z) (d : udata) : Prop := un_id d ∈ S ↔ un_status d = true.
Lemma on_outside S S' ds : (∀ d, d ∈ ds → un_id d ∈ S' ↔ un_id d ∈ S) → Forall (on S) ds → Forall (on S') ds.
Proof. intros H. rewrite !Forall_forall. intros H' d Hd. unfold on. rewrite H by done. by apply H'. Qed.
Lemma rdata_fdata f d : d ∈ rdata f → d ∈ fdata f.
Proof. induction f; cbn; set_solver. Qed.
Lemma fsame_ids f : ∀ f', fsame f f' → fids f' = fids f ∧ un_id <$> rdata f' = un_id <$> rdata f.
Proof.
  induction f as [|l d k IHk r IHr]; intros [|l' d' k' r']; cbn; try done. intros (_ & -> & Hk & Hr). rewrite !fmap_app.
  destruct (IHk _ Hk) as [-> _], (IHr _ Hr) as [-> ->]. done.
Qed.
Lemma fpost_off f : fpost false f → Forall (λ d, un_status d = false) (rdata f).
Proof. induction f as [|l d k IHk r IHr]; cbn; [constructor|]. intros (_ & Hs & _ & Hr). constructor; [|auto].
  destruct (un_status d); [|done]. by destruct Hs. Qed.
Lemma stop1_log d c : ∃ d' l, stop1 (hfn ans) d c = (d', c ++ l) ∧ un_id d' = un_id d ∧
  (l = [] ∧ un_status d' = un_status d ∨ (∃ a, l = [(un_id d, false, a)]) ∧ un_status d = true ∧ keeps d = false ∧ un_status d' = false).
Proof.
  unfold stop1, keeps, hfn. destruct d as [i s en p e]. cbn. destruct (negb p && en) eqn:Ek.
  - eexists _, []. rewrite app_nil_r. split; [done|]. split; [done|]. by left.
  - destruct s; cbn.
    + eexists _, [(i, false, ans c i false)]. split; [done|]. split; [done|]. right. split; [by eexists|done].
    + eexists _, []. rewrite app_nil_r. split; [done|]. split; [done|]. by left.
Qed.
Lemma stop_log f : ∀ p kp c S, finv kp f → links R p f → NoDup (fids f) → Forall (on S) (fdata f) → ∃ l,
  (fstop (hfn ans) f c).2 = c ++ l ∧ log_ok R S l ∧ Forall (on (foldl call1 S l)) (fdata (fstop (hfn ans) f c).1) ∧
  (∀ i, i ∉ fids f → i ∈ foldl call1 S l ↔ i ∈ S).
Proof.
  induction f as [|l d k IHk r IHr]; intros p kp c S; cbn [finv links fstop fdata].
  { intros _ _ _ _. exists []. by rewrite app_nil_r. }
  intros (_ & _ & Hk & Hr) (_ & Hch & Lk & Lr) Hnd Hon. cbn in Hnd. rewrite fmap_app in Hnd.
  apply NoDup_cons in Hnd as [Hdn Hnd]. apply NoDup_app in Hnd as (Hndk & Hdisj & Hndr). rewrite not_elem_of_app in Hdn.
  apply Forall_cons in Hon as [Hd Hon]. apply Forall_app in Hon as [Honk Honr].
  destruct (IHk _ _ c S Hk Lk Hndk Honk) as (lk & E1 & Hlk & Hok & Hoi). pose proof (fstop_post (hfn ans) k _ c Hk) as Hpost.
  pose proof (fsame_ids k _ (fstop_same (hfn ans) k c)) as [Hids Hrids]. destruct (fstop (hfn ans) k c) as [k' c1].
  cbn [fst snd] in *. subst c1.
  destruct (stop1_log d (c ++ lk)) as (d' & ld & -> & Hid' & Hcase). set (S1 := foldl call1 S lk) in *.
  assert (un_id d ∈ S1 ↔ un_status d = true) as Hd1 by (rewrite Hoi by apply Hdn; done).
  assert (log_ok R S1 ld ∧ (∀ i, i ≠ un_id d → i ∈ foldl call1 S1 ld ↔ i ∈ S1) ∧
    on (foldl call1 S1 ld) d') as (Hld & Hoi1 & Hond).
  { destruct Hcase as [[-> Hs]|([a ->] & Hs & Hkp & Hs')]; cbn; unfold on; rewrite Hid'; [by rewrite Hs|]. unfold call1. cbn.
    split; [split; [|done]|split].
    - split; [by apply Hd1|]. intros x Hx. apply Hch in Hx. rewrite <- Hrids in Hx.
      apply list_elem_of_fmap in Hx as (dx & -> & Hdx).
      rewrite Hkp in Hpost. apply fpost_off in Hpost. rewrite Forall_forall in Hpost, Hok. 
      assert (on S1 dx) as Ho by (by apply Hok, rdata_fdata). unfold on in Ho. rewrite Ho, Hpost by done. done.
    - intros i Hi. set_solver.
    - rewrite Hs'. set_solver. }
  set (S2 := foldl call1 S1 ld) in *. assert (∀ i, i ∉ fids k → i ≠ un_id d → i ∈ S2 ↔ i ∈ S) as H2 by (intros i ? ?;
    rewrite Hoi1, Hoi by done; done).
  destruct (IHr p kp ((c ++ lk) ++ ld) S2 Hr Lr Hndr) as (lr & E3 & Hlr & Hor & Hoi3).
  { apply (on_outside S); [|done]. intros dx Hdx. apply (list_elem_of_fmap_2 un_id) in Hdx. apply H2; [intros ?;
    by apply (Hdisj (un_id dx))|intros E; rewrite E in Hdx; naive_solver]. }
  destruct (fstop (hfn ans) r _) as [r' c3]. cbn [fst snd] in *. subst c3. exists (lk ++ ld ++ lr). rewrite !foldl_app.
  fold S1 S2.
  split; [by rewrite <- !app_assoc|]. split; [rewrite !log_ok_app; done|]. split.
  - cbn. constructor; [|apply Forall_app; split; [|done]].
    + unfold on. rewrite Hoi3 by (rewrite Hid'; naive_solver). done.
    + apply (on_outside S1); [|done]. intros dx Hdx. apply (list_elem_of_fmap_2 un_id) in Hdx. rewrite Hids in Hdx.
      rewrite Hoi3 by (by apply Hdisj). apply Hoi1. intros E. rewrite E in Hdx. naive_solver.
  - cbn. rewrite fmap_app. intros i Hi. rewrite not_elem_of_cons, not_elem_of_app in Hi. destruct Hi as (? & ? & ?).
    rewrite Hoi3, H2 by done. done.
Qed.
Lemma start1_log up d c : ∃ ok d' l, start1 (hfn ans) up d c = (ok, d', c ++ l) ∧ un_id d' = un_id d ∧
  (l = [] ∧ un_status d' = un_status d ∧ ok = true ∨ (∃ a, l = [(un_id d, true, a)]) ∧ un_status d = false ∧ up = true ∧
    un_status d' = true).
Proof.
  unfold start1, hfn. destruct (negb up || negb (un_enabled d) || un_status d) eqn:Ek.
  - eexists _, _, []. rewrite app_nil_r. split; [done|]. split; [done|]. by left.
  - eexists _, _, [(un_id d, true, ans c (un_id d) true)]. split; [done|]. split; [done|]. right. split; [by eexists|]. cbn. destruct up, (un_status d); try done.
    by rewrite orb_true_r in Ek.
Qed.
Lemma start_log f : ∀ p up c S, links R p f → NoDup (fids f) → Forall (on S) (fdata f) → (∀ q, p = Some q → up = true →
  q ∈ S ∧ q ∉ fids f) → ∃ l,
  (fstart (hfn ans) up f c).2 = c ++ l ∧ log_ok R S l ∧ Forall (on (foldl call1 S l)) (fdata (fstart (hfn ans) up f c).1.2) ∧
  (∀ i, i ∉ fids f → i ∈ foldl call1 S l ↔ i ∈ S).
Proof.
  induction f as [|l d k IHk r IHr]; intros p up c S; cbn [links fstart fdata].
  { intros _ _ _ _. exists []. by rewrite app_nil_r. }
  intros (Hpar & _ & Lk & Lr) Hnd Hon Hp. cbn in Hnd, Hp. rewrite fmap_app in Hnd, Hp.
  apply NoDup_cons in Hnd as [Hdn Hnd]. apply NoDup_app in Hnd as (Hndk & Hdisj & Hndr). rewrite not_elem_of_app in Hdn.
  apply Forall_cons in Hon as [Hd Hon]. apply Forall_app in Hon as [Honk Honr].
  destruct (start1_log up d c) as (ok & d' & ld & -> & Hid' & Hcase).
  assert (log_ok R S ld ∧ (∀ i, i ≠ un_id d → i ∈ foldl call1 S ld ↔ i ∈ S) ∧ on (foldl call1 S ld) d') as (Hld & Hoi1 & Hond).
  { destruct Hcase as [(-> & Hs & _)|([a ->] & Hs & -> & Hs')]; cbn; unfold on; rewrite Hid'; [by rewrite Hs|]. unfold call1.
    cbn. split; [split; [|done]|split].
    - unfold call_ok. cbn. split; [unfold on in Hd; rewrite Hd, Hs; done|]. intros q Hq. apply (Hp q); [by apply Hpar|done].
    - intros i Hi. set_solver.
    - rewrite Hs'. set_solver. }
  set (S1 := foldl call1 S ld) in *.
  assert (∃ lk b k' , (if ok then fstart (hfn ans) (un_status d') k (c ++ ld) else (false, k, c ++ ld)) = (b, k', (c ++ ld) ++ lk) ∧ log_ok R S1 lk ∧
    Forall (on (foldl call1 S1 lk)) (fdata k') ∧ fids k' = fids k ∧ (∀ i, i ∉ fids k →
      i ∈ foldl call1 S1 lk ↔ i ∈ S1)) as (lk & b & k' & -> & Hlk & Hok & Hids & Hoi2).
  { assert (Forall (on S1) (fdata k)) as Hk1.
    { apply (on_outside S); [|done]. intros dx Hdx. apply (list_elem_of_fmap_2 un_id) in Hdx. apply Hoi1. intros E.
      rewrite E in Hdx. naive_solver. }
    destruct ok; [|exists [], false, k; by rewrite app_nil_r].
    destruct (IHk (Some (un_id d)) (un_status d') (c ++ ld) S1 Lk Hndk Hk1) as (lk & E & H1 & H2 & H3).
    { intros q [= <-] Hs. split; [|naive_solver]. unfold on in Hond. rewrite Hid' in Hond. by apply Hond. }
    destruct (fsame_ids k _ (fstart_same (hfn ans) k (un_status d') (c ++ ld))) as [Hids _].
    destruct (fstart _ _ k _) as [[b k'] c2]. cbn [fst snd] in *. subst c2. by eexists lk, b, k'. }
  set (S2 := foldl call1 S1 lk) in *. assert (∀ i, i ∉ fids k → i ≠ un_id d → i ∈ S2 ↔ i ∈ S) as H2 by (intros i ? ?;
    rewrite Hoi2, Hoi1 by done; done).
  destruct (IHr p up ((c ++ ld) ++ lk) S2 Lr Hndr) as (lr & E3 & Hlr & Hor & Hoi3).
  { apply (on_outside S); [|done]. intros dx Hdx. apply (list_elem_of_fmap_2 un_id) in Hdx. apply H2; [intros ?;
    by apply (Hdisj (un_id dx))|intros E; rewrite E in Hdx; naive_solver]. }
  { intros q -> Hu. destruct (Hp q eq_refl Hu) as [HS Hq]. rewrite not_elem_of_cons, not_elem_of_app in Hq. split;
    [|naive_solver]. apply H2; naive_solver. }
  destruct (fstart (hfn ans) up r _) as [[br r'] c3]. cbn [fst snd] in *. subst c3. exists (ld ++ lk ++ lr).
  rewrite !foldl_app. fold S1 S2.
  split; [by rewrite <- !app_assoc|]. split; [rewrite !log_ok_app; done|]. split.
  - cbn. constructor; [|apply Forall_app; split; [|done]].
    + unfold on. rewrite Hoi3, Hoi2 by (rewrite Hid'; naive_solver). done.
    + apply (on_outside S2); [|done]. intros dx Hdx. apply (list_elem_of_fmap_2 un_id) in Hdx. rewrite Hids in Hdx.
      rewrite Hoi3 by (by apply Hdisj). done.
  - cbn. rewrite fmap_app. intros i Hi. rewrite not_elem_of_cons, not_elem_of_app in Hi. destruct Hi as (? & ? & ?).
    rewrite Hoi3, H2 by done. done.
Qed.
End order.

(** *** Sequences of calls and their log *)

Lemma falter_same id g gk f : (∀ d, un_id (g d) = un_id d) → (∀ k, fsame k (gk k)) → fsame f (falter id g gk f).
Proof. intros Hg Hk. induction f as [|l d k IHk r IHr]; cbn; [done|]. destruct (_ =? _); cbn; split_and!; try done.
  apply fsame_refl. Qed.
Lemma fpend_same k : fsame k (fpend k).
Proof. induction k as [|l d k IHk r IHr]; cbn; done. Qed.
Abbreviation fstat f := ((λ d, (un_id d, un_status d)) <$> fdata f).
Lemma falter_stat id g gk f : (∀ d, (un_id (g d), un_status (g d)) = (un_id d, un_status d)) →
  (∀ k, fstat (gk k) = fstat k) → fstat (falter id g gk f) = fstat f.
Proof.
  intros Hg Hk. induction f as [|l d k IHk r IHr]; cbn; [done|]. destruct (_ =? _); cbn; rewrite !fmap_app;
    [by rewrite Hg, Hk|]. by rewrite IHk, IHr.
Qed.
Lemma fpend_stat k : fstat (fpend k) = fstat k.
Proof. induction k as [|l d k IHk r IHr]; cbn; [done|]. rewrite !fmap_app. by rewrite IHk, IHr. Qed.
Lemma on_stat S f f' : fstat f' = fstat f → Forall (on S) (fdata f) → Forall (on S) (fdata f').
Proof.
  intros E. assert (∀ ds, Forall (on S) ds ↔ Forall (λ x, x.1 ∈ S ↔ x.2 = true) ((λ d, (un_id d, un_status d)) <$> ds)) as H.
  { intros ds. by rewrite Forall_fmap. }
  by rewrite !H, E.
Qed.
Section log.
Context (ans : hist → Z → bool → bool) (e : uexp).
Record lok (S0 : gset Z) (f : forest) (c : hist) : Prop := LOk {
  lok_log : log_ok (below e) S0 c; lok_on : Forall (on (foldl call1 S0 c)) (fdata f); lok_links : links (below e) None f }.
Lemma lok_alter S0 id g gk f c : (∀ d, (un_id (g d), un_status (g d)) = (un_id d, un_status d)) → (∀ k, fsame k (gk k)) →
  (∀ k, fstat (gk k) = fstat k) →
  lok S0 f c → lok S0 (falter id g gk f) c.
Proof.
  intros Hg H1 H2 [? ? ?]. split; [done|by eapply on_stat; [apply falter_stat|]|]. eapply fsame_links; [|done].
  apply falter_same; [|done].
  intros d. specialize (Hg d). congruence.
Qed.
Lemma lok_start S0 id f c : lok S0 f c → lok S0 (fstart_op id f) c.
Proof. apply lok_alter; try done. apply fsame_refl. Qed.
Lemma lok_stop S0 id f c : lok S0 f c → lok S0 (fstop_op id f) c.
Proof. apply lok_alter; [done|apply fpend_same|apply fpend_stat]. Qed.
Lemma lok_op S0 E op f c : fok E e f → lok S0 f c → lok S0 (fop (hfn ans) op f c).1.2 (fop (hfn ans) op f c).2.
Proof.
  intros H HL. destruct op as [id|id|id b|id [|]|id|id|]; cbn [fop fst snd]; try done; try (by apply lok_start);
    try (by apply lok_stop).
  - destruct (has id f && _); [|done]. by apply lok_start, lok_stop.
  - destruct HL as [L1 L2 L3]. destruct (stop_log ans _ f None true c _ (fok_inv _ _ _ H) L3 (fok_nodup _ _ _ H) L2) as (l1 & E1 & K1 & O1 & _).
    pose proof (fstop_same (hfn ans) f c) as S1. pose proof (fok_commit (hfn ans) E e f c H) as Hc.
    destruct (fstop (hfn ans) f c) as [f1 c1]. cbn in *. subst c1.
    pose proof (fsame_links _ f None f1 S1 L3) as L4. destruct (fsame_ids _ _ S1) as [Hids _].
    destruct (start_log ans _ f1 None true (c ++ l1) (foldl call1 (foldl call1 S0 c) l1) L4) as (l2 & E2 & K2 & O2 & _);
      [rewrite Hids; apply H|done|done|].
    pose proof (fstart_same (hfn ans) f1 true (c ++ l1)) as S2. destruct (fstart _ true f1 _) as [[b f2] c2]. cbn in *. subst c2.
    split; [|by rewrite !foldl_app|by eapply fsame_links]. rewrite !log_ok_app, !foldl_app. done.
Qed.
Lemma lok_ops S0 ops : ∀ E f c, fok E e f → lok S0 f c → lok S0 (fops (hfn ans) ops f c).1.2 (fops (hfn ans) ops f c).2.
Proof.
  induction ops as [|op ops IH]; intros E f c H HL; [done|]. cbn. pose proof (fok_op (hfn ans) op E e f c H) as H1.
  pose proof (lok_op S0 E op f c H HL) as L1.
  destruct (fop (hfn ans) op f c) as [[b f1] c1]. specialize (IH _ f1 c1 H1 L1).
  by destruct (fops (hfn ans) ops f1 c1) as [[bs f2] c2].
Qed.
End log.

(** What is marked is what runs, for the units whose last call did not fail. *)
Lemma last_call_app id l x : last_call id (l ++ [x]) = if x.1.1 =? id then Some (x.1.2, x.2) else last_call id l.
Proof.
  destruct x as [[i en] a]. cbn. induction l as [|[[j en'] a'] l IH]; cbn; [done|]. rewrite IH.
  by destruct (i =? id).
Qed.
Lemma marked_up e id log : ¬ failed log id → id ∈ foldl call1 (started e) log ↔ up e log id.
Proof.
  unfold failed, up. induction log as [|[[i en] a] log IH] using rev_ind; [done|]. rewrite last_call_app, foldl_app. cbn.
  unfold call1 at 1. cbn. destruct (Z.eqb_spec i id) as [->|Hn].
  - intros Hf. destruct a; [|destruct Hf; by eexists]. destruct en; set_solver.
  - intros Hf. rewrite <- IH by done. destruct en; set_solver.
Qed.
Lemma log_safe e log l1 x l2 : log_ok (below e) (started e) log → log = l1 ++ x :: l2 → call_safe e l1 x.
Proof.
  intros Hlog ->. apply log_ok_app in Hlog as (_ & Hx & _). unfold call_safe, call_ok in *.
  destruct (x.1.2), Hx as [H1 H2]; (split; [intros Hf; rewrite <- marked_up by done; done|]);
    intros q Hq Hf; rewrite <- marked_up by done; by apply H2.
Qed.

Lemma fdata_of_some id f : id ∈ fids f → ∃ d, fdata_of id f = Some d ∧ d ∈ fdata f ∧ un_id d = id.
Proof.
  induction f as [|l d k IHk r IHr]; cbn; [set_solver|]. rewrite fmap_app.
  destruct (Z.eqb_spec (un_id d) id) as [Hi|Hn]; [intros _; exists d; split_and!; [done|left|done]|].
  intros [->|[Hx|Hx]%elem_of_app]%elem_of_cons; [done|..].
  - destruct (IHk Hx) as (d' & -> & ? & ?). exists d'. split_and!; [done|set_solver|done].
  - destruct (IHr Hx) as (d' & E & ? & ?). destruct (fdata_of id k) as [d''|] eqn:Ek; [|exists d'; split_and!; [done|set_solver|done]].
    exists d''. split; [done|]. destruct (IHk (fdata_elem _ _ _ Ek)) as (d0 & E0 & ? & ?). assert (d0 = d'') as -> by congruence. split; [set_solver|done].
Qed.
Lemma on_flag S f id : Forall (on S) (fdata f) → id ∈ fids f → id ∈ S ↔ flag un_status id f = true.
Proof.
  intros Hon (d & Ed & Hd & <-)%fdata_of_some. unfold flag. rewrite Ed. rewrite Forall_forall in Hon. by apply Hon.
Qed.

(** The start of every run *)
Definition ustate0 : ustate hist := UState ∅ [] None.
Lemma built_on e : ∀ f, built e f → NoDup (eids e) → Forall (on (started e)) (fdata f).
Proof.
  assert (∀ e i, i ∈ started e → i ∈ eids e) as Hin. { intros e0. induction e0 as [|i [|] ek IHk er IHr]; cbn; set_solver. }
  induction e as [|i s ek IHk er IHr]; intros [|l d k r]; cbn; try done. intros (-> & Hk & Hr) Hnd.
  apply NoDup_cons in Hnd as [Hdn Hnd]. apply NoDup_app in Hnd as (Hndk & Hdisj & Hndr). rewrite not_elem_of_app in Hdn.
  pose proof (like_ids _ _ (built_like _ _ Hk)) as Ik. pose proof (like_ids _ _ (built_like _ _ Hr)) as Ir.
  constructor; [|apply Forall_app; split].
  - unfold on. cbn. destruct s; [set_solver|]. split; [|done]. intros Hx. exfalso. pose proof (Hin ek i).
    pose proof (Hin er i). set_solver.
  - eapply on_outside, IHk; [|done|done]. intros d Hd. apply (list_elem_of_fmap_2 un_id) in Hd. rewrite Ik in Hd.
    pose proof (Hin er (un_id d)). pose proof (Hdisj (un_id d) Hd). destruct s; set_solver.
  - eapply on_outside, IHr; [|done|done]. intros d Hd. apply (list_elem_of_fmap_2 un_id) in Hd. rewrite Ir in Hd.
    pose proof (Hin ek (un_id d)). pose proof (Hdisj (un_id d)). destruct s; set_solver.
Qed.
Lemma built_fok e f : built e f → NoDup (eids e) → fok ∅ e f.
Proof.
  intros Hb Hnd. pose proof (built_like _ _ Hb) as Hl. split; [by eapply finv_built| |done|by rewrite (like_ids _ _ Hl)].
  clear Hnd Hl. revert f Hb. induction e as [|i0 s0 ek IHk er IHr]; intros [|l0 d0 fk fr]; cbn; try done; [by intros;
    constructor|].
  intros (-> & ? & ?). apply fen_node. cbn. split_and!; auto.
Qed.
Lemma build_start i s kids : NoDup (i :: eids kids) → let e := UENode i s kids UENil in
  ∃ root h f, build e ustate0 = Some ([root], st h ([], None)) ∧ urep root f h ∧ fok ∅ e f ∧ lok e (started e) f [].
Proof.
  intros Hnd e. assert (NoDup (eids e)) as Hnd' by (cbn; by rewrite app_nil_r).
  destruct (build_spec (C := hist) e ∅ ([], None)) as (h & f & E & Hrep & Hb & Hloc & _).
  pose proof (built_like _ _ Hb) as Hl. pose proof (like_ids _ _ Hl) as Hids.
  assert (∃ root d k, f = FNode root d k FNil) as (root & d & k & ->).
  { destruct f as [|l d k r]; [done|]. cbn in Hb. destruct Hb as (_ & _ & Hr). destruct r; [by eexists _, _, _|done]. }
  exists root, h, (FNode root d k FNil). split; [exact E|]. split; [split; [by eexists _, _|done|done|by rewrite Hids]|]. split.
  - by apply built_fok.
  - split; [done|cbn [foldl]; by apply built_on|]. apply (like_links _ e); [done|done|..]; naive_solver.
Qed.

(** C17. The services follow what was asked for: in a tree with distinct ids, after any
    sequence of starts, stops, restarts and commits, whatever the client's function
    answered, a commit in which it succeeds returns true; then the status of a unit is true
    if and only if it and all units above it are enabled, where the last start, stop or
    restart of a unit decides; of the units whose last call of the client's function did not
    fail, exactly these run; and one more commit calls nothing.  No call faults.

    The status alone does not say that a unit runs: it is also set by a start that failed,
    which no later commit repeats ([inet_unit_failed_counts_as_started]).  A unit created by
    [inet_unit_s] is started but not enabled, so the first commit stops it. *)
Theorem inet_unit_commit_exact ans ok i s kids ops : NoDup (i :: eids kids) → (∀ h id, ok h id true = true) →
  let e := UENode i s kids UENil in ∃ root s0 bs s1 s2 s4,
    build e ustate0 = Some ([root], s0) ∧ uops_run (hfn ans) root ops s0 = Some (bs, s1) ∧
    inet_unit_commit (hfn ok) root s1 = Some (true, s2) ∧
    (∀ id, ∃ b s3, inet_unit_status root id s2 = Some (b, s3) ∧ (b = true ↔ on_path (wants ops) e id)) ∧
    (∀ id, id ∈ i :: eids kids → ¬ failed (u_ctx s2) id → up e (u_ctx s2) id ↔ on_path (wants ops) e id) ∧
    inet_unit_commit (hfn ok) root s2 = Some (true, s4) ∧ u_ctx s4 = u_ctx s2.
Proof.
  intros Hnd Hok e. destruct (build_start i s kids Hnd) as (root & h & f & Eb & Hu & Hf & Hl). fold e in Eb, Hf, Hl.
  destruct (uops_spec (hfn ans) root ops f h ([], None) Hu) as (h1 & q1 & Eo).
  pose proof (fok_ops (hfn ans) ops ∅ e f [] Hf) as Hf1. pose proof (lok_ops ans e _ ops ∅ f [] Hf Hl) as Hl1.
  fold (wants ops) in Hf1. cbn [fst] in Eo. destruct (fops (hfn ans) ops f []) as [[bs f1] c1]. destruct Eo as [Eo Hu1].
  cbn [fst snd] in Hf1, Hl1. pose proof (lok_op ok e _ _ UCommit f1 c1 Hf1 Hl1) as Hl3. cbn [fop] in Hl3.
  pose proof (commit_spec (hfn ok) root f1 h1 (c1, q1) Hu1) as Hc. cbn [fst snd] in Hc.
  pose proof (fok_commit (hfn ok) _ e f1 c1 Hf1) as Hfc.
  destruct (fstop (hfn ok) f1 c1) as [f2 c2]. pose proof (fstart_full (hfn ok) f2) as Hfull.
  specialize (Hfull ltac:(intros id h0; apply Hok) true c2). destruct (fstart (hfn ok) true f2 c2) as [[b f3] c3].
  destruct Hfc as (Hf3 & Hp2 & Hp3). destruct (Hfull Hp2) as [Eb1 Hfl]. cbn in Eb1, Hfl. subst b. destruct Hc as (h3 & Ec & Hu3).
  pose proof (commit_spec (hfn ok) root f3 h3 (c3, q1) Hu3) as Hc2. cbn [fst snd] in Hc2.
  destruct (commit_idle (hfn ok) f3 true c3 Hp3 Hfl) as [Ei1 Ei2].
  rewrite Ei1, Ei2 in Hc2. destruct Hc2 as (h4 & Ec2 & _).
  exists root, (st h ([], None)), bs, (st h1 (c1, q1)), (st h3 (c3, q1)), (st h4 (c3, q1)). split_and!; try done.
  - intros id. destruct (flag_spec root f3 h3 (c3, q1) id un_status Hu3) as [q4 Es]. eexists _, _. split; [exact Es|].
    rewrite (full_path (wants ops) e true f3 id); [naive_solver|apply Hf3|apply Hf3|done|apply Hf3].
  - intros id Hid Hfail. rewrite <- marked_up by done. rewrite (on_flag _ f3 id (lok_on _ _ _ _ Hl3)).
    + rewrite (full_path (wants ops) e true f3 id); [naive_solver|apply Hf3|apply Hf3|done|apply Hf3].
    + rewrite (like_ids _ _ (fok_like _ _ _ Hf3)). cbn. by rewrite app_nil_r.
Qed.
(** C18. Order: whatever the client's function answers, in every sequence of operations on a
    tree with distinct ids every call is a start of a unit that does not run and whose parent
    does, or a stop of a unit that runs and none of whose dependants does, where all of this
    is about units whose last call did not fail: a call that failed counts as done, so the
    dependants of a unit that failed to start are started nevertheless
    ([inet_unit_failed_counts_as_started]).  No operation faults. *)
Theorem inet_unit_order_safe ans i s kids ops : NoDup (i :: eids kids) → let e := UENode i s kids UENil in
  ∃ root s0 bs s1, build e ustate0 = Some ([root], s0) ∧ uops_run (hfn ans) root ops s0 = Some (bs, s1) ∧
    ∀ l1 x l2, u_ctx s1 = l1 ++ x :: l2 → call_safe e l1 x.
Proof.
  intros Hnd e. destruct (build_start i s kids Hnd) as (root & h & f & Eb & Hu & Hf & Hl). fold e in Eb, Hf, Hl.
  destruct (uops_spec (hfn ans) root ops f h ([], None) Hu) as (h1 & q1 & Eo).
  pose proof (lok_ops ans e _ ops ∅ f [] Hf Hl) as Hl1.
  cbn [fst] in Eo. destruct (fops (hfn ans) ops f []) as [[bs f1] c1]. destruct Eo as [Eo _].
  exists root, (st h ([], None)), bs, (st h1 (c1, q1)). split_and!; try done. intros l1 x l2 Hx.
  eapply log_safe, Hx. apply Hl1.
Qed.
(** The unit 2 was started with its tree, 3 and 4 are started by hand, then the root. *)
Definition ex_units : uexp := UENode 2 true UENil (UENode 3 false (UENode 4 false UENil UENil) UENil).
Definition ex_uops : list uop := [UCommit; UStart 3; UStart 4; UStart 1; UCommit; URestart 3 false; UStop 2].
Lemma ex_units_nodup : NoDup (1 :: eids ex_units).
Proof. apply (bool_decide_unpack _). vm_compute. done. Qed.
Lemma inet_unit_commit_exact_witness : ∃ root s0 bs s1 s2 b s3, build (UENode 1 false ex_units UENil) ustate0 = Some ([root], s0) ∧
  uops_run (hfn (λ _ id _, negb (id =? 3))) root ex_uops s0 = Some (bs, s1) ∧
  inet_unit_commit (hfn (λ _ _ _, true)) root s1 = Some (true, s2) ∧
  inet_unit_status root 4 s2 = Some (b, s3) ∧ (b = true ↔ on_path (wants ex_uops) (UENode 1 false ex_units UENil) 4) ∧
  (up (UENode 1 false ex_units UENil) (u_ctx s2) 4 ↔ on_path (wants ex_uops) (UENode 1 false ex_units UENil) 4).
Proof.
  destruct (inet_unit_commit_exact (λ _ id _, negb (id =? 3)) (λ _ _ _, true) 1 false ex_units ex_uops ex_units_nodup ltac:(intros; reflexivity))
    as (root & s0 & bs & s1 & s2 & s4 & H1 & H2 & H3 & H4 & H5 & _).
  destruct (H4 4) as (b & s3 & H6 & H7). exists root, s0, bs, s1, s2, b, s3. split_and!; [exact H1|exact H2|exact H3|exact H6|exact H7|].
  apply H5; [by vm_compute; repeat constructor|]. vm_compute in H1. injection H1 as <- <-. vm_compute in H2. injection H2 as <- <-.
  vm_compute in H3. injection H3 as <-. intros [en He]. vm_compute in He. discriminate He.
Defined.
Lemma inet_unit_order_safe_witness : ∃ root s0 bs s1, build (UENode 1 false ex_units UENil) ustate0 = Some ([root], s0) ∧
  uops_run (hfn (λ _ id _, negb (id =? 3))) root ex_uops s0 = Some (bs, s1) ∧ u_ctx s1 = [(2, false, true); (1, true, true); (3, true, false)] ∧
  call_safe (UENode 1 false ex_units UENil) [(2, false, true)] (1, true, true).
Proof.
  destruct (inet_unit_order_safe (λ _ id _, negb (id =? 3)) 1 false ex_units ex_uops ex_units_nodup) as (root & s0 & bs & s1 & H1 & H2 & H3).
  exists root, s0, bs, s1. split; [exact H1|]. split; [exact H2|].
  assert (u_ctx s1 = [(2, false, true); (1, true, true); (3, true, false)]) as E.
  { vm_compute in H1. injection H1 as <- <-. vm_compute in H2. injection H2 as <- <-. reflexivity. }
  split; [exact E|]. exact (H3 [(2, false, true)] (1, true, true) [(3, true, false)] E).
Defined.

(** *** Freeing a tree *)

Section free.
Context {C : Type}.
#[local] Abbreviation st := (st (C := C)).
Lemma free_loop f : ∀ fuel h p a r, (fheight f ≤ fuel)%nat → NoDup (flocs f) → frep h p f → ∃ h',
  walk_loop (inet_unit_walk fuel __inet_unit_free) (roots f) r (st h a) = Some (r, st h' a) ∧
  (∀ x, x ∈ flocs f → h' !! x = None) ∧ (∀ x, x ∉ flocs f → h' !! x = h !! x).
Proof.
  induction f as [|l d k IHk r IHr]; intros fuel h p a b Hfu Hnd Hrep; [exists h; split; [done|]; cbn; set_solver|].
  cbn [flocs fheight] in *. apply NoDup_cons in Hnd as [Hl Hnd]. apply NoDup_app in Hnd as (Hndk & Hdisj & Hndr).
  destruct Hrep as (Hlk & Hk & Hr). destruct fuel as [|fuel]; [lia|].
  destruct (IHk fuel h (Some l) a true ltac:(lia) Hndk Hk) as (h1 & Ek & Hn1 & Hf1).
  assert (inet_unit_walk (S fuel) __inet_unit_free l (st h a) = Some (true, st (delete l h1) a)) as Hw.
  { cbn [inet_unit_walk]. unfold mbind, M_bind. unfold __inet_unit_free at 1. cbn [negb]. unfold mret, M_ret. cbn [negb].
    rewrite (uload_at _ _ _ _ Hlk). cbn [un_deps]. rewrite Ek. unfold __inet_unit_free. cbn [negb].
    unfold mbind, M_bind. rewrite (uload_at _ _ _ (IUnit p (roots k) d)) by (rewrite Hf1 by set_solver; done). done. }
  cbn [roots walk_loop]. unfold mbind at 1, M_bind at 1. rewrite Hw, andb_true_r.
  destruct (IHr (S fuel) (delete l h1) p a b ltac:(lia) Hndr) as (h2 & -> & Hn2 & Hf2).
  { apply (frep_ext h); [|done]. intros x Hx. rewrite lookup_delete_ne by set_solver. apply Hf1. set_solver. }
  exists h2. split; [done|]. split.
  - intros x. rewrite elem_of_cons, elem_of_app. intros [->|[Hx|Hx]]; [|..|by apply Hn2].
    + rewrite Hf2 by set_solver. apply lookup_delete_eq.
    + rewrite Hf2 by set_solver. rewrite lookup_delete_ne by set_solver. by apply Hn1.
  - intros x Hx. rewrite Hf2, lookup_delete_ne, Hf1 by set_solver. done.
Qed.
(** Freeing a tree frees all of its units and nothing else, and uses none after it is
    freed. *)
Theorem inet_unit_free_all root f h (a : C * ptr) : urep root f h → ∃ h', inet_unit_free root (st h a) = Some (tt, st h' a) ∧
  ∀ x, h' !! x = if bool_decide (x ∈ flocs f) then None else h !! x.
Proof.
  intros [(d & k & ->) Hrep Hnd _]. destruct (free_loop (FNode root d k FNil) (S (size h)) h None a true) as (h' & E & H1 & H2).
  { pose proof (frep_fuel h None _ Hnd Hrep). lia. } { done. } { done. }
  exists h'. split.
  - unfold inet_unit_free, do_walk, walk_fuel, gets, mbind, M_bind. cbn [u_units InetUnitRep.st].
    cbn [roots walk_loop] in E. unfold mbind, M_bind in E.
    destruct (inet_unit_walk _ _ _ _) as [[b s']|]; [|done]. cbn in E. unfold mret, M_ret in *. congruence.
  - intros x. destruct (bool_decide_reflect (x ∈ flocs (FNode root d k FNil))); auto.
Qed.
End free.

(** *** Behaviours to know *)

(** A unit that could not be started counts as started: the next commit does not try
    again, and starts the units that depend on it. *)
Example inet_unit_failed_counts_as_started : ∃ root s0 s1,
  build (UENode 1 false (UENode 2 false UENil UENil) UENil) ustate0 = Some ([root], s0) ∧
  uops_run (hfn (λ _ id _, negb (id =? 1))) root [UStart 1; UStart 2; UCommit; UStatus 1; UCommit; UStatus 2] s0 =
    Some ([true; true; false; true; true; true], s1) ∧ u_ctx s1 = [(1, true, false); (2, true, true)].
Proof. eexists _, _, _. split; [vm_compute; reflexivity|]. split; [vm_compute; reflexivity|]. reflexivity. Qed.
