(* ===== verification/InetBase.v ===== *)
(** The base class of network interfaces, src/lib/inet/src/inet_base.c, over the units of
    inet_unit.c.

    [inet_base] holds what the class caches, the state it reports and [in_drv], the calls to the
    drivers so far.  What the drivers (firewall, IGMP, UPnP, DHCP, DNS, routes, IPv6) answer is an
    environment that may depend on all calls before; it is an argument.  [in_units] and the
    context of the commit are the two halves of [ustate inet_base].  A pointer to an object of a
    driver is a truth value.  Not here: the creation of the objects in [inet_base_init] (which
    succeeds) and their destruction, the notification callbacks, and the members of the state
    that only derived classes set. *)
From S2P Require Import Prelude DsTree KeySeq OsnTypes InetUnit.
Local Open Scope Z_scope.

(** [enum inet_base_services] *)
Definition INET_BASE_IF_ENABLE : Z := 0.
Definition INET_BASE_IF_CREATE : Z := 1.
Definition INET_BASE_IF_READY : Z := 2.
Definition INET_BASE_FIREWALL : Z := 3.
Definition INET_BASE_UPNP : Z := 4.
Definition INET_BASE_IGMP : Z := 5.
Definition INET_BASE_NETWORK : Z := 6.
Definition INET_BASE_MTU : Z := 7.
Definition INET_BASE_SCHEME_NONE : Z := 8.
Definition INET_BASE_SCHEME_STATIC : Z := 9.
Definition INET_BASE_SCHEME_DHCP : Z := 10.
Definition INET_BASE_DHCP_SERVER : Z := 11.
Definition INET_BASE_DNS : Z := 12.
Definition INET_BASE_DHCPSNIFF : Z := 13.
Definition INET_BASE_INET6 : Z := 14.
Definition INET_BASE_DHCP6_CLIENT : Z := 15.
Definition INET_BASE_DHCP6_SERVER : Z := 16.
Definition INET_BASE_RADV : Z := 17.
Definition INET_BASE_ROUTES : Z := 18.
Definition INET_BASE_IPV4_READY : Z := 19.

(** [enum inet_assign_scheme], [enum osn_upnp_mode] *)
Inductive inet_assign_scheme := INET_ASSIGN_INVALID | INET_ASSIGN_NONE | INET_ASSIGN_STATIC | INET_ASSIGN_DHCP.
Inductive osn_upnp_mode :=
  UPNP_MODE_NONE | UPNP_MODE_INTERNAL | UPNP_MODE_EXTERNAL | UPNP_MODE_INTERNAL_IPTV | UPNP_MODE_EXTERNAL_IPTV.
#[export] Instance inet_assign_scheme_eq_dec : EqDecision inet_assign_scheme.
Proof. solve_decision. Defined.
#[export] Instance osn_upnp_mode_eq_dec : EqDecision osn_upnp_mode.
Proof. solve_decision. Defined.
#[export] Instance osn_ip_addr_eq_dec : EqDecision osn_ip_addr_t.
Proof. solve_decision. Defined.
Definition DHCP_OPTION_MAX : nat := 256.

(** [struct dhcp_reservation_node], [struct ip6_prefix_node], [struct osn_dhcpv6_server_prefix],
    [struct osn_dhcpv6_server_optsend_node], [struct osn_dhcpv6_server_lease],
    [struct osn_ip6_radv_options] *)
Record dhcp_reservation_node := RNode {
  rn_ipaddr : osn_ip_addr_t; rn_macaddr : list Z; rn_hostname : option string }.
Record ip6_prefix_node := PrefixNode { pr_addr : osn_ip6_addr_t; pr_autonomous : bool; pr_onlink : bool }.
Record osn_dhcpv6_server_prefix := D6Prefix { d6s_prefix : osn_ip6_addr_t; ds6_onlink : bool; ds6_autonomous : bool }.
Record osn_dhcpv6_server_optsend_node := OptNode { so_tag : Z; so_data : option string }.
Record osn_dhcpv6_server_lease := D6Lease {
  d6s_addr : osn_ip6_addr_t; d6s_duid : string; d6s_hwaddr : list Z; d6s_hostname : string; d6s_leased_time : Z }.
Record osn_ip6_radv_options := RadvOptions {
  ra_managed : bool; ra_other_config : bool; ra_home_agent : bool; ra_max_adv_interval : Z; ra_min_adv_interval : Z;
  ra_default_lft : Z; ra_preferred_router : Z; ra_mtu : Z; ra_reachable_time : Z; ra_retrans_timer : Z;
  ra_current_hop_limit : Z }.
#[export] Instance osn_ip6_radv_options_eq_dec : EqDecision osn_ip6_radv_options.
Proof. solve_decision. Defined.
(** [osn_dhcpv6_server_lease_cmp] *)
Definition osn_dhcpv6_server_lease_cmp (a b : osn_dhcpv6_server_lease) : Z :=
  let rc := osn_ip6_addr_cmp (d6s_addr a) (d6s_addr b) in
  if negb (rc =? 0) then rc else
  let rc := ds_str_cmp (d6s_duid a) (d6s_duid b) in
  if negb (rc =? 0) then rc else
  let rc := ds_str_cmp (d6s_hostname a) (d6s_hostname b) in
  if negb (rc =? 0) then rc else
  let rc := memcmp (d6s_hwaddr a) (d6s_hwaddr b) in
  if negb (rc =? 0) then rc else 0.

(** The calls to the drivers *)
Record inet_portforward := PortForward { pf_dst_port : Z; pf_src_port : Z; pf_tcp : bool; pf_dst_ipaddr : osn_ip_addr_t }.
Inductive dcall :=
  | inet_fw_nat_set (b : bool) | inet_fw_start | inet_fw_stop | inet_fw_state_get
  | inet_fw_portforward_get (pf : inet_portforward) | inet_fw_portforward_set (pf : inet_portforward)
  | inet_fw_portforward_del (pf : inet_portforward)
  | inet_igmp_set (enable : bool) (iage itsize : Z) | inet_igmp_start | inet_igmp_stop
  | osn_upnp_set (m : osn_upnp_mode) | osn_upnp_start | osn_upnp_stop | osn_upnp_get
  | osn_dhcp_client_start | osn_dhcp_client_stop | osn_dhcp_client_state_get | osn_dhcp_client_opt_get (opt : Z)
  | osn_dhcp_client_opt_request (opt : Z) (req : bool) | osn_dhcp_client_opt_set (opt : Z) (value : option string)
  | inet_dns_server_set (primary secondary : osn_ip_addr_t) | inet_dns_start | inet_dns_stop
  | inet_dhsnif_notify (fn : option Z) | inet_dhsnif_start | inet_dhsnif_stop
  | inet_routes_enable (start : bool)
  | osn_dhcp_server_new | osn_dhcp_server_del | osn_dhcp_server_cfg_set (lease_time : Z) (netmask ipaddr : osn_ip_addr_t)
  | osn_dhcp_server_range_add (start stop : osn_ip_addr_t) | osn_dhcp_server_option_set (opt : nat) (value : option string)
  | osn_dhcp_server_reservation_add (rn : dhcp_reservation_node) | osn_dhcp_server_apply
  | osn_ip6_new | osn_ip6_del | osn_ip6_addr_add (a : osn_ip6_addr_t) | osn_ip6_dns_add (a : osn_ip6_addr_t) | osn_ip6_apply
  | osn_dhcpv6_client_new | osn_dhcpv6_client_del | osn_dhcpv6_client_set (request_addr request_prefix rapid_commit : bool)
  | osn_dhcpv6_client_option_request (tag : nat) | osn_dhcpv6_client_option_send (tag : nat) (value : string)
  | osn_dhcpv6_client_apply
  | osn_ip6_radv_new | osn_ip6_radv_del | osn_ip6_radv_set (o : osn_ip6_radv_options)
  | osn_ip6_radv_add_prefix (p : ip6_prefix_node) | osn_ip6_radv_add_rdnss (a : osn_ip6_addr_t)
  | osn_ip6_radv_add_dnssl (sl : string) | osn_ip6_radv_apply
  | osn_dhcpv6_server_new | osn_dhcpv6_server_del | osn_dhcpv6_server_prefix_add (p : osn_dhcpv6_server_prefix)
  | osn_dhcpv6_server_option_send (o : osn_dhcpv6_server_optsend_node) | osn_dhcpv6_server_lease_add (l : osn_dhcpv6_server_lease)
  | osn_dhcpv6_server_apply.
(** What they answer: success, and the values of the getters *)
Record inet_env := InetEnv {
  drv : list dcall → dcall → bool; env_nat : list dcall → bool; env_dhcpc : list dcall → bool;
  env_upnp : list dcall → osn_upnp_mode; env_dhcpc_opt : list dcall → Z → bool * option string }.

(** [struct __inet_state] *)
Record inet_state_t := InetState {
  st_interface_enabled : bool; st_network_enabled : bool; st_assign_scheme : inet_assign_scheme; st_nat_enabled : bool;
  st_upnp_mode : osn_upnp_mode; st_dhcps_enabled : bool; st_dhcpc_enabled : bool; st_ipaddr : osn_ip_addr_t;
  st_netmask : osn_ip_addr_t; st_bcaddr : osn_ip_addr_t; st_gateway : osn_ip_addr_t }.
Definition st_set_enabled (v0 : bool) (v1 : bool) (x : inet_state_t) : inet_state_t :=
  InetState v0 v1 (st_assign_scheme x) (st_nat_enabled x) (st_upnp_mode x) (st_dhcps_enabled x) (st_dhcpc_enabled x)
    (st_ipaddr x) (st_netmask x) (st_bcaddr x) (st_gateway x).
Definition st_set_scheme (v0 : inet_assign_scheme) (x : inet_state_t) : inet_state_t :=
  InetState (st_interface_enabled x) (st_network_enabled x) v0 (st_nat_enabled x) (st_upnp_mode x) (st_dhcps_enabled
    x) (st_dhcpc_enabled x) (st_ipaddr x) (st_netmask x) (st_bcaddr x) (st_gateway x).
Definition st_set_nat (v0 : bool) (x : inet_state_t) : inet_state_t :=
  InetState (st_interface_enabled x) (st_network_enabled x) (st_assign_scheme x) v0 (st_upnp_mode x) (st_dhcps_enabled
    x) (st_dhcpc_enabled x) (st_ipaddr x) (st_netmask x) (st_bcaddr x) (st_gateway x).
Definition st_set_upnp (v0 : osn_upnp_mode) (x : inet_state_t) : inet_state_t :=
  InetState (st_interface_enabled x) (st_network_enabled x) (st_assign_scheme x) (st_nat_enabled x) v0
    (st_dhcps_enabled x) (st_dhcpc_enabled x) (st_ipaddr x) (st_netmask x) (st_bcaddr x) (st_gateway x).
Definition st_set_dhcps (v0 : bool) (x : inet_state_t) : inet_state_t :=
  InetState (st_interface_enabled x) (st_network_enabled x) (st_assign_scheme x) (st_nat_enabled x) (st_upnp_mode x)
    v0 (st_dhcpc_enabled x) (st_ipaddr x) (st_netmask x) (st_bcaddr x) (st_gateway x).
Definition st_set_dhcpc (v0 : bool) (x : inet_state_t) : inet_state_t :=
  InetState (st_interface_enabled x) (st_network_enabled x) (st_assign_scheme x) (st_nat_enabled x) (st_upnp_mode x)
    (st_dhcps_enabled x) v0 (st_ipaddr x) (st_netmask x) (st_bcaddr x) (st_gateway x).
Definition st_set_addrs (v0 : osn_ip_addr_t) (v1 : osn_ip_addr_t) (v2 : osn_ip_addr_t) (v3 : osn_ip_addr_t) (x :
    inet_state_t) : inet_state_t :=
  InetState (st_interface_enabled x) (st_network_enabled x) (st_assign_scheme x) (st_nat_enabled x) (st_upnp_mode x)
    (st_dhcps_enabled x) (st_dhcpc_enabled x) v0 v1 v2 v3.
#[export] Instance inet_state_eq_dec : EqDecision inet_state_t.
Proof. solve_decision. Defined.
Definition INET_STATE_INIT : inet_state_t :=
  InetState false false INET_ASSIGN_INVALID false UPNP_MODE_NONE false false
    OSN_IP_ADDR_INIT OSN_IP_ADDR_INIT OSN_IP_ADDR_INIT OSN_IP_ADDR_INIT.
(** [struct __inet_base], in groups: the interface and IPv4, the DHCPv4 server and DNS, IPv6 and
    the DHCPv6 client, router advertisement, the DHCPv6 server, the objects of drivers *)
Record inet_ip4 := InetIp4 {
  in_mtu : Z; in_assign_scheme : inet_assign_scheme; in_static_addr : osn_ip_addr_t; in_static_netmask : osn_ip_addr_t;
  in_static_bcast : osn_ip_addr_t; in_static_gwaddr : osn_ip_addr_t; in_interface_enabled : bool; in_network_enabled
  : bool; in_nat_enabled : bool; in_igmp_enabled : bool; in_igmp_age : Z; in_igmp_tsize : Z; in_upnp_mode :
  osn_upnp_mode }.
Definition set_mtu (v0 : Z) (x : inet_ip4) : inet_ip4 :=
  InetIp4 v0 (in_assign_scheme x) (in_static_addr x) (in_static_netmask x) (in_static_bcast x) (in_static_gwaddr x)
    (in_interface_enabled x) (in_network_enabled x) (in_nat_enabled x) (in_igmp_enabled x) (in_igmp_age x)
    (in_igmp_tsize x) (in_upnp_mode x).
Definition set_scheme (v0 : inet_assign_scheme) (x : inet_ip4) : inet_ip4 :=
  InetIp4 (in_mtu x) v0 (in_static_addr x) (in_static_netmask x) (in_static_bcast x) (in_static_gwaddr x)
    (in_interface_enabled x) (in_network_enabled x) (in_nat_enabled x) (in_igmp_enabled x) (in_igmp_age x)
    (in_igmp_tsize x) (in_upnp_mode x).
Definition set_static (v0 : osn_ip_addr_t) (v1 : osn_ip_addr_t) (v2 : osn_ip_addr_t) (x : inet_ip4) : inet_ip4 :=
  InetIp4 (in_mtu x) (in_assign_scheme x) v0 v1 v2 (in_static_gwaddr x) (in_interface_enabled x) (in_network_enabled
    x) (in_nat_enabled x) (in_igmp_enabled x) (in_igmp_age x) (in_igmp_tsize x) (in_upnp_mode x).
Definition set_static_gwaddr (v0 : osn_ip_addr_t) (x : inet_ip4) : inet_ip4 :=
  InetIp4 (in_mtu x) (in_assign_scheme x) (in_static_addr x) (in_static_netmask x) (in_static_bcast x) v0
    (in_interface_enabled x) (in_network_enabled x) (in_nat_enabled x) (in_igmp_enabled x) (in_igmp_age x)
    (in_igmp_tsize x) (in_upnp_mode x).
Definition set_interface_enabled (v0 : bool) (x : inet_ip4) : inet_ip4 :=
  InetIp4 (in_mtu x) (in_assign_scheme x) (in_static_addr x) (in_static_netmask x) (in_static_bcast x)
    (in_static_gwaddr x) v0 (in_network_enabled x) (in_nat_enabled x) (in_igmp_enabled x) (in_igmp_age x)
    (in_igmp_tsize x) (in_upnp_mode x).
Definition set_network_enabled (v0 : bool) (x : inet_ip4) : inet_ip4 :=
  InetIp4 (in_mtu x) (in_assign_scheme x) (in_static_addr x) (in_static_netmask x) (in_static_bcast x)
    (in_static_gwaddr x) (in_interface_enabled x) v0 (in_nat_enabled x) (in_igmp_enabled x) (in_igmp_age x)
    (in_igmp_tsize x) (in_upnp_mode x).
Definition set_nat_enabled (v0 : bool) (x : inet_ip4) : inet_ip4 :=
  InetIp4 (in_mtu x) (in_assign_scheme x) (in_static_addr x) (in_static_netmask x) (in_static_bcast x)
    (in_static_gwaddr x) (in_interface_enabled x) (in_network_enabled x) v0 (in_igmp_enabled x) (in_igmp_age x)
    (in_igmp_tsize x) (in_upnp_mode x).
Definition set_igmp (v0 : bool) (v1 : Z) (v2 : Z) (x : inet_ip4) : inet_ip4 :=
  InetIp4 (in_mtu x) (in_assign_scheme x) (in_static_addr x) (in_static_netmask x) (in_static_bcast x)
    (in_static_gwaddr x) (in_interface_enabled x) (in_network_enabled x) (in_nat_enabled x) v0 v1 v2 (in_upnp_mode x).
Definition set_upnp_mode (v0 : osn_upnp_mode) (x : inet_ip4) : inet_ip4 :=
  InetIp4 (in_mtu x) (in_assign_scheme x) (in_static_addr x) (in_static_netmask x) (in_static_bcast x)
    (in_static_gwaddr x) (in_interface_enabled x) (in_network_enabled x) (in_nat_enabled x) (in_igmp_enabled x)
    (in_igmp_age x) (in_igmp_tsize x) v0.
Record inet_dhcps := InetDhcps {
  in_dhcps_enabled : bool; in_dhcps_lease_time_s : Z; in_dhcps_lease_start : osn_ip_addr_t; in_dhcps_lease_stop :
  osn_ip_addr_t; in_dhcps_opts : list (option string); in_dhcps_reservation_list : list dhcp_reservation_node;
  in_dns_primary : osn_ip_addr_t; in_dns_secondary : osn_ip_addr_t; in_dhsnif_lease_fn : option Z }.
Definition set_dhcps_enabled (v0 : bool) (x : inet_dhcps) : inet_dhcps :=
  InetDhcps v0 (in_dhcps_lease_time_s x) (in_dhcps_lease_start x) (in_dhcps_lease_stop x) (in_dhcps_opts x)
    (in_dhcps_reservation_list x) (in_dns_primary x) (in_dns_secondary x) (in_dhsnif_lease_fn x).
Definition set_dhcps_lease_time_s (v0 : Z) (x : inet_dhcps) : inet_dhcps :=
  InetDhcps (in_dhcps_enabled x) v0 (in_dhcps_lease_start x) (in_dhcps_lease_stop x) (in_dhcps_opts x)
    (in_dhcps_reservation_list x) (in_dns_primary x) (in_dns_secondary x) (in_dhsnif_lease_fn x).
Definition set_dhcps_range (v0 : osn_ip_addr_t) (v1 : osn_ip_addr_t) (x : inet_dhcps) : inet_dhcps :=
  InetDhcps (in_dhcps_enabled x) (in_dhcps_lease_time_s x) v0 v1 (in_dhcps_opts x) (in_dhcps_reservation_list x)
    (in_dns_primary x) (in_dns_secondary x) (in_dhsnif_lease_fn x).
Definition set_dhcps_opts (v0 : list (option string)) (x : inet_dhcps) : inet_dhcps :=
  InetDhcps (in_dhcps_enabled x) (in_dhcps_lease_time_s x) (in_dhcps_lease_start x) (in_dhcps_lease_stop x) v0
    (in_dhcps_reservation_list x) (in_dns_primary x) (in_dns_secondary x) (in_dhsnif_lease_fn x).
Definition set_dhcps_reservation_list (v0 : list dhcp_reservation_node) (x : inet_dhcps) : inet_dhcps :=
  InetDhcps (in_dhcps_enabled x) (in_dhcps_lease_time_s x) (in_dhcps_lease_start x) (in_dhcps_lease_stop x)
    (in_dhcps_opts x) v0 (in_dns_primary x) (in_dns_secondary x) (in_dhsnif_lease_fn x).
Definition set_dhsnif_lease_fn (v0 : option Z) (x : inet_dhcps) : inet_dhcps :=
  InetDhcps (in_dhcps_enabled x) (in_dhcps_lease_time_s x) (in_dhcps_lease_start x) (in_dhcps_lease_stop x)
    (in_dhcps_opts x) (in_dhcps_reservation_list x) (in_dns_primary x) (in_dns_secondary x) v0.
Record inet_ip6 := InetIp6 {
  in_ip6addr_list : list osn_ip6_addr_t; in_ip6dns_list : list osn_ip6_addr_t; in_dhcp6_client_enable : bool;
  in_dhcp6_client_request_addr : bool; in_dhcp6_client_request_prefix : bool; in_dhcp6_client_rapid_commit : bool;
  in_dhcp6_client_request : list bool; in_dhcp6_client_send : list (option string) }.
Definition set_ip6addr_list (v0 : list osn_ip6_addr_t) (x : inet_ip6) : inet_ip6 :=
  InetIp6 v0 (in_ip6dns_list x) (in_dhcp6_client_enable x) (in_dhcp6_client_request_addr x)
    (in_dhcp6_client_request_prefix x) (in_dhcp6_client_rapid_commit x) (in_dhcp6_client_request x)
    (in_dhcp6_client_send x).
Definition set_ip6dns_list (v0 : list osn_ip6_addr_t) (x : inet_ip6) : inet_ip6 :=
  InetIp6 (in_ip6addr_list x) v0 (in_dhcp6_client_enable x) (in_dhcp6_client_request_addr x)
    (in_dhcp6_client_request_prefix x) (in_dhcp6_client_rapid_commit x) (in_dhcp6_client_request x)
    (in_dhcp6_client_send x).
Definition set_dhcp6_client (v0 : bool) (v1 : bool) (v2 : bool) (v3 : bool) (x : inet_ip6) : inet_ip6 :=
  InetIp6 (in_ip6addr_list x) (in_ip6dns_list x) v0 v1 v2 v3 (in_dhcp6_client_request x) (in_dhcp6_client_send x).
Definition set_dhcp6_client_request (v0 : list bool) (x : inet_ip6) : inet_ip6 :=
  InetIp6 (in_ip6addr_list x) (in_ip6dns_list x) (in_dhcp6_client_enable x) (in_dhcp6_client_request_addr x)
    (in_dhcp6_client_request_prefix x) (in_dhcp6_client_rapid_commit x) v0 (in_dhcp6_client_send x).
Definition set_dhcp6_client_send (v0 : list (option string)) (x : inet_ip6) : inet_ip6 :=
  InetIp6 (in_ip6addr_list x) (in_ip6dns_list x) (in_dhcp6_client_enable x) (in_dhcp6_client_request_addr x)
    (in_dhcp6_client_request_prefix x) (in_dhcp6_client_rapid_commit x) (in_dhcp6_client_request x) v0.
Record inet_radv := InetRadv {
  in_radv_enable : bool; in_radv_options : osn_ip6_radv_options; in_radv_prefix_list : list ip6_prefix_node;
  in_radv_rdnss_list : list osn_ip6_addr_t; in_radv_dnssl_list : list string }.
Definition set_radv (v0 : bool) (v1 : osn_ip6_radv_options) (x : inet_radv) : inet_radv :=
  InetRadv v0 v1 (in_radv_prefix_list x) (in_radv_rdnss_list x) (in_radv_dnssl_list x).
Definition set_radv_prefix_list (v0 : list ip6_prefix_node) (x : inet_radv) : inet_radv :=
  InetRadv (in_radv_enable x) (in_radv_options x) v0 (in_radv_rdnss_list x) (in_radv_dnssl_list x).
Definition set_radv_rdnss_list (v0 : list osn_ip6_addr_t) (x : inet_radv) : inet_radv :=
  InetRadv (in_radv_enable x) (in_radv_options x) (in_radv_prefix_list x) v0 (in_radv_dnssl_list x).
Definition set_radv_dnssl_list (v0 : list string) (x : inet_radv) : inet_radv :=
  InetRadv (in_radv_enable x) (in_radv_options x) (in_radv_prefix_list x) (in_radv_rdnss_list x) v0.
Record inet_dhcp6s := InetDhcp6s {
  in_dhcp6_server_enable : bool; in_dhcp6_server_prefix_list : list osn_dhcpv6_server_prefix;
  in_dhcp6_server_optsend_list : list osn_dhcpv6_server_optsend_node; in_dhcp6_server_lease_list : list
  osn_dhcpv6_server_lease }.
Definition set_dhcp6_server_enable (v0 : bool) (x : inet_dhcp6s) : inet_dhcp6s :=
  InetDhcp6s v0 (in_dhcp6_server_prefix_list x) (in_dhcp6_server_optsend_list x) (in_dhcp6_server_lease_list x).
Definition set_dhcp6_server_prefix_list (v0 : list osn_dhcpv6_server_prefix) (x : inet_dhcp6s) : inet_dhcp6s :=
  InetDhcp6s (in_dhcp6_server_enable x) v0 (in_dhcp6_server_optsend_list x) (in_dhcp6_server_lease_list x).
Definition set_dhcp6_server_optsend_list (v0 : list osn_dhcpv6_server_optsend_node) (x : inet_dhcp6s) : inet_dhcp6s :=
  InetDhcp6s (in_dhcp6_server_enable x) (in_dhcp6_server_prefix_list x) v0 (in_dhcp6_server_lease_list x).
Definition set_dhcp6_server_lease_list (v0 : list osn_dhcpv6_server_lease) (x : inet_dhcp6s) : inet_dhcp6s :=
  InetDhcp6s (in_dhcp6_server_enable x) (in_dhcp6_server_prefix_list x) (in_dhcp6_server_optsend_list x) v0.
Record inet_objs := InetObjs {
  in_dhcps : bool; in_ip6 : bool; in_radv : bool; in_dhcp6_client : bool; in_dhcp6_server : bool }.
Definition obj_dhcps (v0 : bool) (x : inet_objs) : inet_objs :=
  InetObjs v0 (in_ip6 x) (in_radv x) (in_dhcp6_client x) (in_dhcp6_server x).
Definition obj_ip6 (v0 : bool) (x : inet_objs) : inet_objs :=
  InetObjs (in_dhcps x) v0 (in_radv x) (in_dhcp6_client x) (in_dhcp6_server x).
Definition obj_radv (v0 : bool) (x : inet_objs) : inet_objs :=
  InetObjs (in_dhcps x) (in_ip6 x) v0 (in_dhcp6_client x) (in_dhcp6_server x).
Definition obj_dhcp6_client (v0 : bool) (x : inet_objs) : inet_objs :=
  InetObjs (in_dhcps x) (in_ip6 x) (in_radv x) v0 (in_dhcp6_server x).
Definition obj_dhcp6_server (v0 : bool) (x : inet_objs) : inet_objs :=
  InetObjs (in_dhcps x) (in_ip6 x) (in_radv x) (in_dhcp6_client x) v0.
Record inet_base := InetBase {
  in_units : loc; in_drv : list dcall; b4 : inet_ip4; bs : inet_dhcps; b6 : inet_ip6; ba : inet_radv; b6s : inet_dhcp6s;
  bo : inet_objs; in_state : inet_state_t; in_state_prev : inet_state_t; in_state_timer : bool }.
Definition with_drv (f : list dcall → list dcall) (x : inet_base) : inet_base :=
  InetBase (in_units x) (f (in_drv x)) (b4 x) (bs x) (b6 x) (ba x) (b6s x) (bo x) (in_state x) (in_state_prev x)
    (in_state_timer x).
Definition upd4 (f : inet_ip4 → inet_ip4) (x : inet_base) : inet_base :=
  InetBase (in_units x) (in_drv x) (f (b4 x)) (bs x) (b6 x) (ba x) (b6s x) (bo x) (in_state x) (in_state_prev x)
    (in_state_timer x).
Definition upds (f : inet_dhcps → inet_dhcps) (x : inet_base) : inet_base :=
  InetBase (in_units x) (in_drv x) (b4 x) (f (bs x)) (b6 x) (ba x) (b6s x) (bo x) (in_state x) (in_state_prev x)
    (in_state_timer x).
Definition upd6 (f : inet_ip6 → inet_ip6) (x : inet_base) : inet_base :=
  InetBase (in_units x) (in_drv x) (b4 x) (bs x) (f (b6 x)) (ba x) (b6s x) (bo x) (in_state x) (in_state_prev x)
    (in_state_timer x).
Definition upda (f : inet_radv → inet_radv) (x : inet_base) : inet_base :=
  InetBase (in_units x) (in_drv x) (b4 x) (bs x) (b6 x) (f (ba x)) (b6s x) (bo x) (in_state x) (in_state_prev x)
    (in_state_timer x).
Definition upd6s (f : inet_dhcp6s → inet_dhcp6s) (x : inet_base) : inet_base :=
  InetBase (in_units x) (in_drv x) (b4 x) (bs x) (b6 x) (ba x) (f (b6s x)) (bo x) (in_state x) (in_state_prev x)
    (in_state_timer x).
Definition updo (f : inet_objs → inet_objs) (x : inet_base) : inet_base :=
  InetBase (in_units x) (in_drv x) (b4 x) (bs x) (b6 x) (ba x) (b6s x) (f (bo x)) (in_state x) (in_state_prev x)
    (in_state_timer x).
Definition updst (f : inet_state_t → inet_state_t) (x : inet_base) : inet_base :=
  InetBase (in_units x) (in_drv x) (b4 x) (bs x) (b6 x) (ba x) (b6s x) (bo x) (f (in_state x)) (in_state_prev x)
    (in_state_timer x).
Definition sync_state (x : inet_base) : inet_base :=
  InetBase (in_units x) (in_drv x) (b4 x) (bs x) (b6 x) (ba x) (b6s x) (bo x) (in_state x) (in_state x) true.

(** *** The services

    Programs on [inet_base] alone; they do not fault. *)
Definition B (A : Type) : Type := inet_base → A * inet_base.
#[export] Instance B_ret : MRet B := λ A a s, (a, s).
#[export] Instance B_bind : MBind B := λ A A' f m s, let '(a, s) := m s in f a s.
Definition bget {A} (f : inet_base → A) : B A := λ s, (f s, s).
Definition bmod (f : inet_base → inet_base) : B unit := λ s, (tt, f s).

Section drivers.
Context (e : inet_env).
Definition call (c : dcall) : B bool := λ s, (drv e (in_drv s) c, with_drv (λ l, l ++ [c]) s).

(** [inet_base_state_update] *)
Definition inet_base_state_update : B unit := λ s,
  if bool_decide (in_state_prev s = in_state s) then (tt, s) else (tt, sync_state s).

(** The services that are one driver: [inet_base_firewall_commit], [inet_base_igmp_commit],
    [inet_base_upnp_commit], [inet_base_dhcp_client_commit], [inet_base_dns_commit],
    [inet_base_dhsnif_commit] *)
Definition start_stop (start_call stop_call : dcall) (start : bool) : B bool :=
  r ← (if start then call start_call else mret true);
  if (start && negb r) : bool then mret false else
  r ← (if negb start then call stop_call else mret true);
  if (negb start && negb r) : bool then mret false else mret true.
Definition inet_base_firewall_commit : bool → B bool := start_stop inet_fw_start inet_fw_stop.
Definition inet_base_igmp_commit : bool → B bool := start_stop inet_igmp_start inet_igmp_stop.
Definition inet_base_upnp_commit : bool → B bool := start_stop osn_upnp_start osn_upnp_stop.
Definition inet_base_dhcp_client_commit : bool → B bool := start_stop osn_dhcp_client_start osn_dhcp_client_stop.
Definition inet_base_dns_commit : bool → B bool := start_stop inet_dns_start inet_dns_stop.
Definition inet_base_dhsnif_commit : bool → B bool := start_stop inet_dhsnif_start inet_dhsnif_stop.
Definition inet_base_routes_commit (start : bool) : B bool := call (inet_routes_enable start).
Definition inet_base_scheme_static_commit (start : bool) : B bool :=
  i ← bget b4;
  bmod (updst (st_set_addrs (in_static_addr i) (in_static_netmask i) (in_static_bcast i) (in_static_gwaddr i)));;
  inet_base_state_update;;
  mret true.

(** Calls whose failure is only logged, and calls that end the function when they fail *)
Fixpoint try_all (l : list dcall) : B unit :=
  match l with [] => mret tt | c :: l => call c;; try_all l end.
Fixpoint all_or_fail (l : list dcall) : B bool :=
  match l with [] => mret true | c :: l => b ← call c; if (b : bool) then all_or_fail l else mret false end.

(** [inet_base_dhcp_server_commit] *)
Definition inet_base_dhcp_server_commit (start : bool) : B bool :=
  o ← bget bo;
  (if in_dhcps o then call osn_dhcp_server_del;; bmod (updo (obj_dhcps false)) else mret tt);;
  if negb start then mret true else
  n ← call osn_dhcp_server_new;
  bmod (updo (obj_dhcps n));;
  if negb n then mret false else
  d ← bget bs;
  i ← bget b4;
  b ← call (osn_dhcp_server_cfg_set (in_dhcps_lease_time_s d) (in_static_netmask i) (in_static_addr i));
  if negb b then mret false else
  b ← call (osn_dhcp_server_range_add (in_dhcps_lease_start d) (in_dhcps_lease_stop d));
  if negb b then mret false else
  try_all (imap (λ ii o, osn_dhcp_server_option_set ii o) (in_dhcps_opts d));;
  try_all (osn_dhcp_server_reservation_add <$> in_dhcps_reservation_list d);;
  b ← call osn_dhcp_server_apply;
  if negb b then mret false else mret true.

(** [inet_base_init_ip6], [inet_base_inet6_commit] *)
Definition inet_base_init_ip6 : B bool :=
  o ← bget bo;
  (if in_ip6 o then call osn_ip6_del;; mret tt else mret tt);;
  n ← call osn_ip6_new;
  bmod (updo (obj_ip6 n));;
  mret n.
Definition inet_base_inet6_commit (start : bool) : B bool :=
  b ← inet_base_init_ip6;
  if negb b then mret false else
  if negb start then mret true else
  i ← bget b6;
  try_all (osn_ip6_addr_add <$> in_ip6addr_list i);;
  try_all (osn_ip6_dns_add <$> in_ip6dns_list i);;
  b ← call osn_ip6_apply;
  if negb b then mret false else mret true.

(** Destroy an object that is there: [false] if that fails *)
Definition destroy (there : inet_objs → bool) (clear : inet_objs → inet_objs) (c : dcall) : B bool :=
  o ← bget bo;
  if there o then rc ← call c; bmod (updo clear);; mret rc else mret true.
(** [inet_base_dhcp6_client_commit] *)
Definition inet_base_dhcp6_client_commit (start : bool) : B bool :=
  rc ← destroy in_dhcp6_client (obj_dhcp6_client false) osn_dhcpv6_client_del;
  if negb rc then mret false else
  if negb start then mret true else
  n ← call osn_dhcpv6_client_new;
  bmod (updo (obj_dhcp6_client n));;
  if negb n then mret false else
  i ← bget b6;
  call (osn_dhcpv6_client_set (in_dhcp6_client_request_addr i) (in_dhcp6_client_request_prefix i) (in_dhcp6_client_rapid_commit i));;
  try_all (concat (imap (λ ii (r : bool), if r then [osn_dhcpv6_client_option_request ii] else []) (in_dhcp6_client_request i)));;
  try_all (concat (imap (λ ii v, match v with Some v => [osn_dhcpv6_client_option_send ii v] | None => [] end)
    (in_dhcp6_client_send i)));;
  b ← call osn_dhcpv6_client_apply;
  if negb b then mret false else mret true.
(** [inet_base_radv_commit] *)
Definition inet_base_radv_commit (start : bool) : B bool :=
  rc ← destroy in_radv (obj_radv false) osn_ip6_radv_del;
  if negb rc then mret false else
  if negb start then mret true else
  n ← call osn_ip6_radv_new;
  bmod (updo (obj_radv n));;
  if negb n then mret false else
  a ← bget ba;
  all_or_fail ([osn_ip6_radv_set (in_radv_options a)] ++ (osn_ip6_radv_add_prefix <$> in_radv_prefix_list a) ++
    (osn_ip6_radv_add_rdnss <$> in_radv_rdnss_list a) ++ (osn_ip6_radv_add_dnssl <$> in_radv_dnssl_list a) ++ [osn_ip6_radv_apply]).
(** [inet_base_dhcp6_server_commit]: the object is created when the service stops, too. *)
Definition inet_base_dhcp6_server_commit (start : bool) : B bool :=
  rc ← destroy in_dhcp6_server (obj_dhcp6_server false) osn_dhcpv6_server_del;
  if negb rc then mret false else
  n ← call osn_dhcpv6_server_new;
  bmod (updo (obj_dhcp6_server n));;
  if negb n then mret false else
  s ← bget b6s;
  b ← all_or_fail ((osn_dhcpv6_server_prefix_add <$> in_dhcp6_server_prefix_list s) ++
    (osn_dhcpv6_server_option_send <$> in_dhcp6_server_optsend_list s) ++
    (osn_dhcpv6_server_lease_add <$> in_dhcp6_server_lease_list s));
  if negb b then mret false else
  if negb start then mret true else
  b ← call osn_dhcpv6_server_apply;
  if negb b then mret false else mret true.

(** [inet_base_service_commit] *)
Definition inet_base_service_commit (srv : Z) (start : bool) : B bool :=
  if bool_decide (srv ∈ [INET_BASE_IF_ENABLE; INET_BASE_IF_CREATE; INET_BASE_IF_READY; INET_BASE_NETWORK]) then mret true else
  if srv =? INET_BASE_FIREWALL then inet_base_firewall_commit start else
  if srv =? INET_BASE_IGMP then inet_base_igmp_commit start else
  if srv =? INET_BASE_UPNP then inet_base_upnp_commit start else
  if srv =? INET_BASE_SCHEME_STATIC then inet_base_scheme_static_commit start else
  if srv =? INET_BASE_SCHEME_DHCP then inet_base_dhcp_client_commit start else
  if srv =? INET_BASE_IPV4_READY then mret true else
  if srv =? INET_BASE_ROUTES then inet_base_routes_commit start else
  if srv =? INET_BASE_DHCP_SERVER then inet_base_dhcp_server_commit start else
  if srv =? INET_BASE_DNS then inet_base_dns_commit start else
  if srv =? INET_BASE_DHCPSNIFF then inet_base_dhsnif_commit start else
  if srv =? INET_BASE_INET6 then inet_base_inet6_commit start else
  if srv =? INET_BASE_DHCP6_CLIENT then inet_base_dhcp6_client_commit start else
  if srv =? INET_BASE_RADV then inet_base_radv_commit start else
  if srv =? INET_BASE_DHCP6_SERVER then inet_base_dhcp6_server_commit start else
  mret true.
Definition __inet_base_commit (unitid : Z) (enable : bool) (self : inet_base) : bool * inet_base :=
  inet_base_service_commit unitid enable self.

(** *** The methods *)

#[local] Abbreviation IB := (M (ustate inet_base)).
Definition self {A} (f : inet_base → A) : IB A := gets (λ s, f (u_ctx s)).
Definition on_self {A} (m : B A) : IB A := λ s, let '(a, c) := m (u_ctx s) in Some (a, UState (u_units s) c (u_found s)).
Definition upd_self (f : inet_base → inet_base) : IB unit := on_self (bmod f).
Definition drive (c : dcall) : IB bool := on_self (call c).
Definition unit_enable (srv : Z) (b : bool) : IB bool := root ← self in_units; inet_unit_enable root srv b.
Definition unit_stop (srv : Z) : IB bool := root ← self in_units; inet_unit_stop root srv.
Definition unit_restart (srv : Z) (b : bool) : IB bool := root ← self in_units; inet_unit_restart root srv b.
Definition unit_is_enabled (srv : Z) : IB bool := root ← self in_units; inet_unit_is_enabled root srv.
Definition unit_status (srv : Z) : IB bool := root ← self in_units; inet_unit_status root srv.

Definition inet_base_interface_enable (enabled : bool) : IB bool :=
  i ← self b4;
  if eqb (in_interface_enabled i) enabled then mret true else
  upd_self (upd4 (set_interface_enabled enabled));;
  unit_enable INET_BASE_IF_ENABLE enabled.
Definition inet_base_network_enable (enable : bool) : IB bool :=
  i ← self b4;
  if eqb (in_network_enabled i) enable then mret true else
  upd_self (upd4 (set_network_enabled enable));;
  unit_enable INET_BASE_NETWORK enable.
Definition inet_base_upnp_start_stop : IB bool :=
  i ← self b4;
  match in_upnp_mode i with
  | UPNP_MODE_NONE => unit_stop INET_BASE_UPNP
  | UPNP_MODE_INTERNAL | UPNP_MODE_INTERNAL_IPTV =>
      rv ← unit_enable INET_BASE_UPNP (negb (in_nat_enabled i));
      if in_nat_enabled i then mret false else mret rv
  | UPNP_MODE_EXTERNAL | UPNP_MODE_EXTERNAL_IPTV =>
      rv ← unit_enable INET_BASE_UPNP (in_nat_enabled i);
      if negb (in_nat_enabled i) then mret false else mret rv
  end.
Definition inet_base_nat_enable (enabled : bool) : IB bool :=
  i ← self b4;
  fw ← (if eqb (in_nat_enabled i) enabled then unit_is_enabled INET_BASE_FIREWALL else mret false);
  if (fw : bool) then mret true else
  b ← drive (inet_fw_nat_set enabled);
  if negb b then mret false else
  upd_self (upd4 (set_nat_enabled enabled));;
  b ← unit_restart INET_BASE_FIREWALL true;
  if negb b then mret false else
  inet_base_upnp_start_stop;;
  mret true.
Definition inet_base_igmp_enable (enable : bool) (iage itsize : Z) : IB bool :=
  i ← self b4;
  same ← (if eqb (in_igmp_enabled i) enable && (iage =? in_igmp_age i) && (itsize =? in_igmp_tsize i)
          then unit_is_enabled INET_BASE_IGMP else mret false);
  if (same : bool) then mret true else
  b ← drive (inet_igmp_set enable iage itsize);
  if negb b then mret false else
  upd_self (upd4 (set_igmp enable iage itsize));;
  if enable then
    b ← unit_restart INET_BASE_IGMP true;
    if negb b then mret false else mret true
  else unit_stop INET_BASE_IGMP;; mret true.
Definition inet_base_upnp_mode_set (mode : osn_upnp_mode) : IB bool :=
  i ← self b4;
  ok ← (if bool_decide (in_upnp_mode i ≠ mode) then
          b ← drive (osn_upnp_set mode);
          if negb b then mret false else
          upd_self (upd4 (set_upnp_mode mode));;
          unit_stop INET_BASE_UPNP;;
          mret true
        else mret true);
  if negb ok then mret false else inet_base_upnp_start_stop.
Definition inet_base_mtu_set (mtu : Z) : IB bool :=
  i ← self b4;
  if mtu =? in_mtu i then mret true else
  upd_self (upd4 (set_mtu mtu));;
  b ← unit_restart INET_BASE_MTU true;
  if negb b then mret false else mret true.
Definition inet_base_assign_scheme_set (scheme : inet_assign_scheme) : IB bool :=
  i ← self b4;
  if bool_decide (in_assign_scheme i = scheme) then mret true else
  upd_self (upd4 (set_scheme scheme));;
  if bool_decide (scheme = INET_ASSIGN_INVALID) then mret false else
  upd_self (updst (st_set_scheme scheme));;
  on_self inet_base_state_update;;
  r1 ← unit_enable INET_BASE_SCHEME_NONE (bool_decide (scheme = INET_ASSIGN_NONE));
  r2 ← unit_enable INET_BASE_SCHEME_STATIC (bool_decide (scheme = INET_ASSIGN_STATIC));
  r3 ← unit_enable INET_BASE_SCHEME_DHCP (bool_decide (scheme = INET_ASSIGN_DHCP));
  mret (r1 && r2 && r3).
Definition ip_ne (a b : osn_ip_addr_t) : bool := negb (osn_ip_addr_cmp a b =? 0).
Definition inet_base_ipaddr_static_set (addr netmask bcast : osn_ip_addr_t) : IB bool :=
  i ← self b4;
  if negb (ip_ne (in_static_addr i) addr || ip_ne (in_static_netmask i) netmask || ip_ne (in_static_bcast i) bcast) then mret true else
  upd_self (upd4 (set_static addr netmask bcast));;
  unit_restart INET_BASE_SCHEME_STATIC false.
Definition inet_base_gateway_set (gwaddr : osn_ip_addr_t) : IB bool :=
  i ← self b4;
  if negb (ip_ne (in_static_gwaddr i) gwaddr) then mret true else
  upd_self (upd4 (set_static_gwaddr gwaddr));;
  unit_restart INET_BASE_SCHEME_STATIC false.
Definition inet_base_portforward_set (pf : inet_portforward) : IB bool :=
  b ← drive (inet_fw_portforward_get pf);
  if (b : bool) then mret true else
  b ← drive (inet_fw_portforward_set pf);
  if negb b then mret false else
  unit_restart INET_BASE_FIREWALL false.
Definition inet_base_portforward_del (pf : inet_portforward) : IB bool :=
  b ← drive (inet_fw_portforward_del pf);
  if negb b then mret false else
  unit_restart INET_BASE_FIREWALL false.

(** *** DHCP client and server, DNS, sniffing *)

(** [inet_base_dhcpc_option_get]: [None] is a failure. *)
Definition inet_base_dhcpc_option_get (opt : Z) : IB (option (bool * option string)) :=
  l ← self in_drv;
  b ← drive (osn_dhcp_client_opt_get opt);
  mret (if (b : bool) then Some (env_dhcpc_opt e l opt) else None).
Definition inet_base_dhcpc_option_request (opt : Z) (req : bool) : IB bool :=
  r ← inet_base_dhcpc_option_get opt;
  match r with
  | None => mret false
  | Some (req', _) =>
      if eqb req req' then mret true else
      b ← drive (osn_dhcp_client_opt_request opt req);
      if negb b then mret false else
      unit_restart INET_BASE_SCHEME_DHCP false
  end.
Definition inet_base_dhcpc_option_set (opt : Z) (value : option string) : IB bool :=
  r ← inet_base_dhcpc_option_get opt;
  match r with
  | None => mret false
  | Some (_, value') =>
      if bool_decide (value = value') then mret true else
      b ← drive (osn_dhcp_client_opt_set opt value);
      if negb b then mret false else
      unit_restart INET_BASE_SCHEME_DHCP false
  end.
Definition inet_base_dhcps_enable (enabled : bool) : IB bool :=
  d ← self bs;
  if eqb (in_dhcps_enabled d) enabled then mret true else
  upd_self (upds (set_dhcps_enabled enabled));;
  b ← unit_enable INET_BASE_DHCP_SERVER enabled;
  if negb b then mret false else
  upd_self (updst (st_set_dhcps enabled));;
  on_self inet_base_state_update;;
  mret true.
Definition restart_dhcps : IB bool :=
  b ← unit_restart INET_BASE_DHCP_SERVER false;
  if negb b then mret false else mret true.
Definition inet_base_dhcps_lease_set (lease_time_s : Z) : IB bool :=
  d ← self bs;
  if in_dhcps_lease_time_s d =? lease_time_s then mret true else
  upd_self (upds (set_dhcps_lease_time_s lease_time_s));;
  restart_dhcps.
Definition inet_base_dhcps_range_set (start stop : osn_ip_addr_t) : IB bool :=
  d ← self bs;
  if negb (ip_ne (in_dhcps_lease_start d) start || ip_ne (in_dhcps_lease_stop d) stop) then mret true else
  upd_self (upds (set_dhcps_range start stop));;
  restart_dhcps.
(** [inet_base_dhcps_option_set]: an option outside of the array is a fault. *)
Definition inet_base_dhcps_option_set (opt : nat) (value : option string) : IB bool :=
  d ← self bs;
  old ← deref (in_dhcps_opts d !! opt);
  if bool_decide (old = value) then mret true else
  upd_self (upds (set_dhcps_opts (<[opt := value]> (in_dhcps_opts d))));;
  restart_dhcps.
(** [inet_base_dhcps_rip_set]: the comparison of two host names forgets that the address
    has changed. *)
Definition ks_put {K A} (cmp : K → K → Z) (key : A → K) (a : A) (l : list A) : list A :=
  match ks_find cmp key (key a) l with Some n => <[n := a]> l | None => ks_insert cmp key a l end.
Definition ks_del {K A} (cmp : K → K → Z) (key : A → K) (k : K) (l : list A) : list A :=
  match ks_find cmp key k l with Some n => delete n l | None => l end.
Definition inet_base_dhcps_rip_set (macaddr : list Z) (ip4addr : osn_ip_addr_t) (hostname : option string) : IB bool :=
  d ← self bs;
  let l := in_dhcps_reservation_list d in
  let found := ks_get osn_mac_addr_cmp rn_macaddr macaddr l in
  let rn := default (RNode OSN_IP_ADDR_INIT macaddr None) found in
  let changed := match found with None => true | Some _ => false end in
  let changed := changed || ip_ne (rn_ipaddr rn) ip4addr in
  let rn := RNode (if ip_ne (rn_ipaddr rn) ip4addr then ip4addr else rn_ipaddr rn) (rn_macaddr rn) (rn_hostname rn) in
  let changed :=
    match rn_hostname rn, hostname with
    | Some h, Some h' => negb (ds_str_cmp h h' =? 0)
    | None, None => changed
    | _, _ => true
    end in
  upd_self (upds (set_dhcps_reservation_list (ks_put osn_mac_addr_cmp rn_macaddr rn l)));;
  if negb changed then mret true else
  upd_self (upds (set_dhcps_reservation_list
    (ks_put osn_mac_addr_cmp rn_macaddr (RNode (rn_ipaddr rn) (rn_macaddr rn) hostname) l)));;
  restart_dhcps.
Definition inet_base_dhcps_rip_del (macaddr : list Z) : IB bool :=
  d ← self bs;
  let l := in_dhcps_reservation_list d in
  match ks_get osn_mac_addr_cmp rn_macaddr macaddr l with
  | None => mret false
  | Some _ =>
      upd_self (upds (set_dhcps_reservation_list (ks_del osn_mac_addr_cmp rn_macaddr macaddr l)));;
      restart_dhcps
  end.
(** [inet_base_dns_set]: the addresses are compared, but never stored. *)
Definition inet_base_dns_set (primary secondary : osn_ip_addr_t) : IB bool :=
  d ← self bs;
  if negb (ip_ne (in_dns_primary d) primary) && negb (ip_ne (in_dns_secondary d) secondary) then mret true else
  b ← drive (inet_dns_server_set primary secondary);
  if negb b then mret false else
  b ← unit_restart INET_BASE_DNS true;
  if negb b then mret false else mret true.
Definition inet_base_dhsnif_lease_notify (func : option Z) : IB bool :=
  d ← self bs;
  if bool_decide (in_dhsnif_lease_fn d = func) then mret true else
  upd_self (upds (set_dhsnif_lease_fn func));;
  b ← drive (inet_dhsnif_notify func);
  if negb b then mret false else
  match func with
  | Some _ => b ← unit_restart INET_BASE_DHCPSNIFF true; if negb b then mret false else mret true
  | None => b ← unit_stop INET_BASE_DHCPSNIFF; if negb b then mret false else mret true
  end.

(** *** IPv6 *)

Definition inet_base_ip6_addr (add : bool) (addr : osn_ip6_addr_t) : IB bool :=
  i ← self b6;
  let l := in_ip6addr_list i in
  upd_self (upd6 (set_ip6addr_list
    (if add then ks_put osn_ip6_addr_nolft_cmp id addr l else ks_del osn_ip6_addr_nolft_cmp id addr l)));;
  b ← unit_restart INET_BASE_INET6 true;
  if negb b then mret false else mret true.
(** [inet_base_ip6_dns]: to remove an address that is not there dereferences NULL. *)
Definition inet_base_ip6_dns (add : bool) (addr : osn_ip6_addr_t) : IB bool :=
  i ← self b6;
  let l := in_ip6dns_list i in
  let node := ks_get osn_ip6_addr_cmp id addr l in
  (match add, node with
   | true, Some _ => mret false
   | true, None => upd_self (upd6 (set_ip6dns_list (ks_insert osn_ip6_addr_cmp id addr l)));; mret true
   | false, None => fault
   | false, Some _ => upd_self (upd6 (set_ip6dns_list (ks_del osn_ip6_addr_cmp id addr l)));; mret true
   end) ≫= λ ok : bool,
  if negb ok then mret false else
  b ← unit_restart INET_BASE_INET6 true;
  if negb b then mret false else mret true.
Definition inet_base_dhcp6_client (enable request_addr request_prefix rapid_commit : bool) : IB bool :=
  i ← self b6;
  if eqb (in_dhcp6_client_enable i) enable && eqb (in_dhcp6_client_request_addr i) request_addr &&
     eqb (in_dhcp6_client_request_prefix i) request_prefix && eqb (in_dhcp6_client_rapid_commit i) rapid_commit then mret true else
  upd_self (upd6 (set_dhcp6_client enable request_addr request_prefix rapid_commit));;
  unit_stop INET_BASE_DHCP6_CLIENT;;
  unit_enable INET_BASE_DHCP6_CLIENT enable;;
  mret true.
Definition inet_base_dhcp6_client_option_request (tag : nat) (request : bool) : IB bool :=
  i ← self b6;
  old ← deref (in_dhcp6_client_request i !! tag);
  if eqb old request then mret true else
  upd_self (upd6 (set_dhcp6_client_request (<[tag := request]> (in_dhcp6_client_request i))));;
  unit_restart INET_BASE_DHCP6_CLIENT false;;
  mret true.
Definition inet_base_dhcp6_client_option_send (tag : nat) (value : option string) : IB bool :=
  i ← self b6;
  old ← deref (in_dhcp6_client_send i !! tag);
  if bool_decide (old = value) then mret true else
  upd_self (upd6 (set_dhcp6_client_send (<[tag := value]> (in_dhcp6_client_send i))));;
  unit_restart INET_BASE_DHCP6_CLIENT false;;
  mret true.
Definition inet_base_radv (enable : bool) (opts : osn_ip6_radv_options) : IB bool :=
  a ← self ba;
  if eqb (in_radv_enable a) enable && bool_decide (in_radv_options a = opts) then mret true else
  upd_self (upda (set_radv enable opts));;
  unit_stop INET_BASE_RADV;;
  unit_enable INET_BASE_RADV enable;;
  mret true.
Definition inet_base_radv_prefix (add : bool) (prefix : osn_ip6_addr_t) (autonomous onlink : bool) : IB bool :=
  a ← self ba;
  let l := in_radv_prefix_list a in
  match add, ks_get osn_ip6_addr_cmp pr_addr prefix l with
  | false, None => mret true
  | false, Some _ =>
      upd_self (upda (set_radv_prefix_list (ks_del osn_ip6_addr_cmp pr_addr prefix l)));;
      unit_restart INET_BASE_RADV false;;
      mret true
  | true, None =>
      upd_self (upda (set_radv_prefix_list (ks_insert osn_ip6_addr_cmp pr_addr (PrefixNode prefix autonomous onlink) l)));;
      unit_restart INET_BASE_RADV false;;
      mret true
  | true, Some node =>
      if eqb (pr_autonomous node) autonomous && eqb (pr_onlink node) onlink then mret true else
      upd_self (upda (set_radv_prefix_list
        (ks_put osn_ip6_addr_cmp pr_addr (PrefixNode (pr_addr node) autonomous onlink) l)));;
      unit_restart INET_BASE_RADV false;;
      mret true
  end.
Definition inet_base_radv_rdnss (add : bool) (addr : osn_ip6_addr_t) : IB bool :=
  a ← self ba;
  let l := in_radv_rdnss_list a in
  match add, ks_get osn_ip6_addr_cmp id addr l with
  | true, Some _ | false, None => mret true
  | true, None =>
      upd_self (upda (set_radv_rdnss_list (ks_insert osn_ip6_addr_cmp id addr l)));;
      unit_restart INET_BASE_RADV false;;
      mret true
  | false, Some _ =>
      upd_self (upda (set_radv_rdnss_list (ks_del osn_ip6_addr_cmp id addr l)));;
      unit_restart INET_BASE_RADV false;;
      mret true
  end.
Definition inet_base_radv_dnssl (add : bool) (sl : string) : IB bool :=
  a ← self ba;
  let l := in_radv_dnssl_list a in
  match add, ks_get ds_str_cmp id sl l with
  | true, Some _ | false, None => mret true
  | true, None =>
      if (128 <=? String.length sl)%nat then mret false else
      upd_self (upda (set_radv_dnssl_list (ks_insert ds_str_cmp id sl l)));;
      unit_restart INET_BASE_RADV false;;
      mret true
  | false, Some _ =>
      upd_self (upda (set_radv_dnssl_list (ks_del ds_str_cmp id sl l)));;
      unit_restart INET_BASE_RADV false;;
      mret true
  end.
Definition inet_base_dhcp6_server (enable : bool) : IB bool :=
  s ← self b6s;
  if eqb (in_dhcp6_server_enable s) enable then mret true else
  upd_self (upd6s (set_dhcp6_server_enable enable));;
  unit_stop INET_BASE_DHCP6_SERVER;;
  unit_enable INET_BASE_DHCP6_SERVER enable;;
  mret true.
Definition inet_base_dhcp6_server_prefix (add : bool) (prefix : osn_dhcpv6_server_prefix) : IB bool :=
  s ← self b6s;
  let l := in_dhcp6_server_prefix_list s in
  match add, ks_get osn_ip6_addr_cmp d6s_prefix (d6s_prefix prefix) l with
  | true, Some _ | false, None => mret true
  | true, None =>
      upd_self (upd6s (set_dhcp6_server_prefix_list (ks_insert osn_ip6_addr_cmp d6s_prefix prefix l)));;
      unit_restart INET_BASE_DHCP6_SERVER false;;
      mret true
  | false, Some _ =>
      upd_self (upd6s (set_dhcp6_server_prefix_list (ks_del osn_ip6_addr_cmp d6s_prefix (d6s_prefix prefix) l)));;
      unit_restart INET_BASE_DHCP6_SERVER false;;
      mret true
  end.
Definition inet_base_dhcp6_server_option_send (tag : Z) (data : option string) : IB bool :=
  s ← self b6s;
  let l := in_dhcp6_server_optsend_list s in
  let node := ks_get ds_int_cmp so_tag tag l in
  match data with
  | None =>
      match node with
      | None => mret true
      | Some _ =>
          upd_self (upd6s (set_dhcp6_server_optsend_list (ks_del ds_int_cmp so_tag tag l)));;
          unit_restart INET_BASE_DHCP6_SERVER false;;
          mret true
      end
  | Some d =>
      let node := default (OptNode tag None) node in
      if match so_data node with Some d' => ds_str_cmp d' d =? 0 | None => false end then mret true else
      upd_self (upd6s (set_dhcp6_server_optsend_list (ks_put ds_int_cmp so_tag (OptNode (so_tag node) (Some d)) l)));;
      unit_restart INET_BASE_DHCP6_SERVER false;;
      mret true
  end.
Definition inet_base_dhcp6_server_lease (add : bool) (lease : osn_dhcpv6_server_lease) : IB bool :=
  s ← self b6s;
  let l := in_dhcp6_server_lease_list s in
  match add, ks_get osn_dhcpv6_server_lease_cmp id lease l with
  | true, Some _ | false, None => mret true
  | true, None =>
      upd_self (upd6s (set_dhcp6_server_lease_list (ks_insert osn_dhcpv6_server_lease_cmp id lease l)));;
      unit_restart INET_BASE_DHCP6_SERVER false;;
      mret true
  | false, Some _ =>
      upd_self (upd6s (set_dhcp6_server_lease_list (ks_del osn_dhcpv6_server_lease_cmp id lease l)));;
      unit_restart INET_BASE_DHCP6_SERVER false;;
      mret true
  end.

(** *** The commit, and the debounced update of the state *)

Definition inet_base_commit : IB bool :=
  root ← self in_units;
  retval ← inet_unit_commit __inet_base_commit root;
  en ← unit_status INET_BASE_IF_ENABLE;
  net ← unit_status INET_BASE_NETWORK;
  upd_self (updst (st_set_enabled en net));;
  upd_self (updst (st_set_nat false));;
  upd_self (updst (st_set_upnp UPNP_MODE_NONE));;
  l ← self in_drv;
  b ← drive inet_fw_state_get;
  (if (b : bool) then upd_self (updst (st_set_nat (env_nat e l))) else mret tt);;
  l ← self in_drv;
  b ← drive osn_dhcp_client_state_get;
  (if (b : bool) then upd_self (updst (st_set_dhcpc (env_dhcpc e l))) else mret tt);;
  l ← self in_drv;
  b ← drive osn_upnp_get;
  (if (b : bool) then upd_self (updst (st_set_upnp (env_upnp e l))) else mret tt);;
  on_self inet_base_state_update;;
  mret retval.
Definition inet_base_state_update_fn : IB unit :=
  st ← self in_state;
  unit_enable INET_BASE_IPV4_READY (bool_decide (st_ipaddr st ≠ OSN_IP_ADDR_INIT));;
  inet_base_commit;;
  mret tt.
End drivers.

(** [inet_base_init]: the object with its tree of units *)
Definition base_kids : uexp :=
  UENode INET_BASE_IF_CREATE false
    (UENode INET_BASE_FIREWALL false UENil
    (UENode INET_BASE_IF_READY false
      (UENode INET_BASE_MTU false UENil
      (UENode INET_BASE_NETWORK false
        (UENode INET_BASE_SCHEME_NONE true UENil
        (UENode INET_BASE_SCHEME_STATIC false
          (UENode INET_BASE_DHCP_SERVER true UENil (UENode INET_BASE_DNS false UENil UENil))
        (UENode INET_BASE_SCHEME_DHCP false UENil
        (UENode INET_BASE_DHCPSNIFF false UENil
        (UENode INET_BASE_IGMP false UENil
        (UENode INET_BASE_IPV4_READY false (UENode INET_BASE_ROUTES false UENil UENil) UENil))))))
      (UENode INET_BASE_INET6 false
        (UENode INET_BASE_RADV false UENil (UENode INET_BASE_DHCP6_SERVER false UENil UENil))
      (UENode INET_BASE_DHCP6_CLIENT false UENil
      (UENode INET_BASE_UPNP false UENil UENil)))))
    UENil)) UENil.
Definition base_units : uexp := UENode INET_BASE_IF_ENABLE false base_kids UENil.
Definition inet_base0 (root : loc) : inet_base :=
  let radv := RadvOptions false false false 0 0 0 0 0 0 0 0 in
  let ip := OSN_IP_ADDR_INIT in
  InetBase root []
    (InetIp4 0 INET_ASSIGN_INVALID ip ip ip ip false false false false 0 0 UPNP_MODE_NONE)
    (InetDhcps false 0 ip ip (replicate DHCP_OPTION_MAX None) [] ip ip None)
    (InetIp6 [] [] false false false false (replicate DHCP_OPTION_MAX false) (replicate DHCP_OPTION_MAX None))
    (InetRadv false radv [] [] []) (InetDhcp6s false [] [] []) (InetObjs false true false false false)
    INET_STATE_INIT INET_STATE_INIT false.
Definition inet_base_init : option (ustate inet_base) :=
  '(l, s) ← build base_units (UState ∅ (inet_base0 1%positive) None);
  root ← head l;
  let s := UState (u_units s) (inet_base0 root) (u_found s) in
  '(_, s) ← inet_unit_start root INET_BASE_IF_CREATE s;
  '(_, s) ← inet_unit_start root INET_BASE_IF_READY s;
  '(_, s) ← inet_unit_start root INET_BASE_ROUTES s;
  Some s.

(** The calls on an interface *)
Inductive iop :=
  | IInterface (b : bool) | INetwork (b : bool) | IUpnp (m : osn_upnp_mode) | INat (b : bool) | IIgmp (b : bool) (iage itsize : Z)
  | IMtu (mtu : Z) | IScheme (scheme : inet_assign_scheme) | IStatic (addr netmask bcast : osn_ip_addr_t) | IGateway (gw : osn_ip_addr_t)
  | IPortSet (pf : inet_portforward) | IPortDel (pf : inet_portforward) | IOptRequest (opt : Z) (req : bool)
  | IOptSet (opt : Z) (value : option string) | IDhcps (b : bool) | ILease (t : Z) | IRange (start stop : osn_ip_addr_t)
  | IOption (opt : nat) (value : option string) | IRipSet (mac : list Z) (ip : osn_ip_addr_t) (hostname : option string)
  | IRipDel (mac : list Z) | IDns (primary secondary : osn_ip_addr_t) | ISniff (func : option Z)
  | IIp6Addr (add : bool) (a : osn_ip6_addr_t) | IIp6Dns (add : bool) (a : osn_ip6_addr_t)
  | IDhcp6 (enable request_addr request_prefix rapid_commit : bool) | IDhcp6Request (tag : nat) (request : bool)
  | IDhcp6Send (tag : nat) (value : option string) | IRadv (enable : bool) (opts : osn_ip6_radv_options)
  | IRadvPrefix (add : bool) (p : osn_ip6_addr_t) (autonomous onlink : bool) | IRadvRdnss (add : bool) (a : osn_ip6_addr_t)
  | IRadvDnssl (add : bool) (sl : string) | IDhcp6s (enable : bool) | IDhcp6sPrefix (add : bool) (p : osn_dhcpv6_server_prefix)
  | IDhcp6sOption (tag : Z) (data : option string) | IDhcp6sLease (add : bool) (l : osn_dhcpv6_server_lease)
  | ICommit | IStateTimer.
Definition iop_run (e : inet_env) (op : iop) : M (ustate inet_base) bool :=
  match op with
  | IInterface b => inet_base_interface_enable b | INetwork b => inet_base_network_enable b
  | IUpnp m => inet_base_upnp_mode_set e m | INat b => inet_base_nat_enable e b | IIgmp b a t => inet_base_igmp_enable e b a t
  | IMtu m => inet_base_mtu_set m | IScheme s => inet_base_assign_scheme_set s | IStatic a m b => inet_base_ipaddr_static_set a m b
  | IGateway g => inet_base_gateway_set g | IPortSet pf => inet_base_portforward_set e pf | IPortDel pf => inet_base_portforward_del e pf
  | IOptRequest o r => inet_base_dhcpc_option_request e o r | IOptSet o v => inet_base_dhcpc_option_set e o v
  | IDhcps b => inet_base_dhcps_enable b | ILease t => inet_base_dhcps_lease_set t | IRange a b => inet_base_dhcps_range_set a b
  | IOption o v => inet_base_dhcps_option_set o v | IRipSet m i h => inet_base_dhcps_rip_set m i h | IRipDel m => inet_base_dhcps_rip_del m
  | IDns p s => inet_base_dns_set e p s | ISniff f => inet_base_dhsnif_lease_notify e f
  | IIp6Addr b a => inet_base_ip6_addr b a | IIp6Dns b a => inet_base_ip6_dns b a
  | IDhcp6 b x y z => inet_base_dhcp6_client b x y z | IDhcp6Request t r => inet_base_dhcp6_client_option_request t r
  | IDhcp6Send t v => inet_base_dhcp6_client_option_send t v | IRadv b o => inet_base_radv b o
  | IRadvPrefix b p x y => inet_base_radv_prefix b p x y | IRadvRdnss b a => inet_base_radv_rdnss b a
  | IRadvDnssl b s => inet_base_radv_dnssl b s | IDhcp6s b => inet_base_dhcp6_server b | IDhcp6sPrefix b p => inet_base_dhcp6_server_prefix b p
  | IDhcp6sOption t d => inet_base_dhcp6_server_option_send t d | IDhcp6sLease b l => inet_base_dhcp6_server_lease b l
  | ICommit => inet_base_commit e | IStateTimer => inet_base_state_update_fn e;; mret true
  end.
