(* ===== verification/InetBaseProps.v ===== *)
(** The theorems on the base class of network interfaces: the services that run after a commit
    are those of the configuration. *)
From S2P Require Import Prelude KeySeq OsnTypes InetUnit InetUnitRep InetUnitProps InetBase.
Local Open Scope Z_scope.

(** *** One unit through the operations

    [K] is what is known of a unit [i] that goes on running through the next commit. *)
Section known.
Context (i : Z).
Definition known (g : udata → bool) (K : Prop) (f : forest) : Prop := Forall (λ d, un_id d = i → g d = true → K) (fdata f).
Lemma known_node g K l d k r : known g K (FNode l d k r) ↔ (un_id d = i → g d = true → K) ∧ known g K k ∧ known g K r.
Proof. unfold known. cbn. rewrite Forall_cons, Forall_app. done. Qed.
Lemma known_mono g (K K' : Prop) f : (K → K') → known g K f → known g K' f.
Proof. intros HK. unfold known. rewrite !Forall_forall. intros H d Hd Hi Hg. by apply HK, (H d). Qed.
Lemma known_pend K f : known keeps K (fpend f).
Proof. induction f as [|l d k IHk r IHr]; cbn; [constructor|]. apply known_node. split_and!; [|done|done]. unfold keeps.
  cbn. by rewrite andb_false_r. Qed.
Lemma known_start K id f : ∀ kp, finv kp f → known keeps K f → known keeps K (fstart_op id f).
Proof.
  induction f as [|l d k IHk r IHr]; intros kp; cbn; [done|]. rewrite known_node. intros (H1 & H2 & Hk & Hr) (K1 & K2 & K3).
  destruct (un_id d =? id); apply known_node; cbn; split_and!; eauto. unfold keeps in *. cbn.
  destruct (un_status d), (un_enabled d), (un_pending d); try done; by auto.
Qed.
Lemma known_stop K id f : known keeps K f → known keeps K (fstop_op id f).
Proof.
  induction f as [|l d k IHk r IHr]; cbn; [done|]. rewrite known_node. intros (K1 & K2 & K3).
  destruct (un_id d =? id); apply known_node; cbn; split_and!; auto; [unfold keeps; cbn;
    by rewrite !andb_false_r|apply known_pend].
Qed.
(** Nothing goes on after the unit was stopped, or was not enabled. *)
Lemma known_stopped f K : NoDup (fids f) → known keeps K (fstart_op i (fstop_op i f)).
Proof.
  assert (∀ f, i ∉ fids f → known keeps K f) as Hno.
  { intros f0 Hi. apply Forall_forall. intros d Hd <-. exfalso. by apply Hi, list_elem_of_fmap_2. }
  induction f as [|l d k IHk r IHr]; cbn; [constructor|]. rewrite fmap_app. intros Hnd. apply NoDup_cons in Hnd as [Hdn Hnd].
  apply NoDup_app in Hnd as (Hndk & Hdisj & Hndr). rewrite not_elem_of_app in Hdn.
  destruct (Z.eqb_spec (un_id d) i) as [<-|Hne]; cbn.
  - rewrite Z.eqb_refl. apply known_node. cbn. split_and!; [unfold keeps; cbn;
    by rewrite andb_false_r|apply known_pend|apply Hno, Hdn].
  - destruct (Z.eqb_spec (un_id d) i); [done|]. apply known_node. split_and!; [done|by apply IHk|by apply IHr].
Qed.
Lemma known_disabled f E K : fen E f → i ∉ E → known keeps K f.
Proof.
  unfold fen, known. rewrite !Forall_forall. intros H Hi d Hd <- Hk. exfalso. specialize (H d Hd). unfold keeps in Hk.
  rewrite H, bool_decide_eq_false_2 in Hk by done. by rewrite andb_false_r in Hk.
Qed.
Lemma known_absent f K : i ∉ fids f → known keeps K f.
Proof. intros Hi. apply Forall_forall. intros d Hd <-. exfalso. by apply Hi, list_elem_of_fmap_2. Qed.

(** Through a commit: [Q] is kept by every call of the client's function and established by
    a start of the unit. *)
Context {C : Type} (fn : Z → bool → C → bool * C) (Q : C → Prop).
Hypothesis (Hkeep : ∀ id en c, Q c → Q (fn id en c).2) (Hset : ∀ c, Q (fn i true c).2).
Lemma stop1_keep d c : Q c → Q (stop1 fn d c).2.
Proof. intros H. unfold stop1. destruct (_ && _); [done|]. destruct (un_status d); [|done].
  pose proof (Hkeep (un_id d) false c H). by destruct (fn _ _ _). Qed.
Lemma known_fstop f : ∀ c, known keeps (Q c) f → known un_status (Q (fstop fn f c).2) (fstop fn f c).1 ∧ (Q c →
  Q (fstop fn f c).2).
Proof.
  induction f as [|l d k IHk r IHr]; intros c; cbn; [by split; [constructor|]|]. rewrite known_node. intros (K1 & K2 & K3).
  destruct (IHk c K2) as [Hk Hq1]. destruct (fstop fn k c) as [k' c1]. cbn [fst snd] in *. pose proof (stop1_keep d c1) as Hq2.
  destruct (stop1_spec fn d c1) as (e & c2 & E). rewrite E in *. cbn [fst snd] in *.
  destruct (IHr c2) as [Hr Hq3]; [eapply known_mono, K3; auto|]. destruct (fstop fn r c2) as [r' c3]. cbn [fst snd] in *.
  split; [|auto]. apply known_node. cbn. split_and!; [auto|eapply known_mono, Hk; auto|done].
Qed.
Lemma known_fstart f : ∀ up c, known un_status (Q c) f →
  known un_status (Q (fstart fn up f c).2) (fstart fn up f c).1.2 ∧ (Q c → Q (fstart fn up f c).2).
Proof.
  induction f as [|l d k IHk r IHr]; intros up c; cbn; [by split; [constructor|]|]. rewrite known_node. intros (K1 & K2 & K3).
  assert (∃ ok d' c1, start1 fn up d c = (ok, d', c1) ∧ un_id d' = un_id d ∧ (un_id d = i → un_status d' = true → Q c1) ∧
    (Q c → Q c1)) as (ok & d' & c1 & -> & Ei & H1 & Hq1).
  { unfold start1. destruct (_ || _); [exists true, d, c; split_and!; auto|]. pose proof (Hkeep (un_id d) true c) as H1.
    pose proof (Hset c) as H2.
    destruct (fn (un_id d) true c) as [ok c1] eqn:E. eexists _, _, _. split; [done|]. split; [done|]. cbn in *. split; [|done].
    intros Ei _. rewrite <- Ei, E in H2. done. }
  assert (∃ b k' c2, (if ok then fstart fn (un_status d') k c1 else (false, k, c1)) = (b, k', c2) ∧
    known un_status (Q c2) k' ∧ (Q c1 → Q c2)) as (b & k' & c2 & -> & Hk & Hq2).
  { assert (known un_status (Q c1) k) as Hk1 by (eapply known_mono, K2; auto). destruct ok; [|exists false, k, c1;
    split_and!; auto].
    destruct (IHk (un_status d') c1 Hk1) as [H2 H3]. destruct (fstart fn (un_status d') k c1) as [[b k'] c2].
    by eexists _, _, _. }
  destruct (IHr up c2) as [Hr Hq3]; [eapply known_mono, K3; auto|]. destruct (fstart fn up r c2) as [[br r'] c3].
  cbn [fst snd] in *.
  split; [|auto]. apply known_node. rewrite Ei. split_and!; [auto|eapply known_mono, Hk; auto|done].
Qed.
End known.
Lemma known_status_keeps i K f : known i un_status K f → known i keeps K f.
Proof. unfold known. rewrite !Forall_forall. intros H d Hd Hi Hk. apply (H d Hd Hi). unfold keeps in Hk.
  by destruct (un_status d). Qed.

(** *** Units that failed to start

    A unit whose start failed keeps its status and its error; it is started again only after
    it was stopped, or after it was asked to restart. *)
Definition well_started (d : udata) : bool := un_status d && negb (un_error d).
Definition ill_started (d : udata) : bool := un_status d && un_error d.
Definition is_stuck (d : udata) : bool := keeps d && un_error d.
(** [g] is false of the units in [X]. *)
Definition none_of (g : udata → bool) (X : Z → Prop) (f : forest) : Prop := Forall (λ d, X (un_id d) → g d = false) (fdata f).
Lemma none_node g X l d k r : none_of g X (FNode l d k r) ↔ (X (un_id d) → g d = false) ∧ none_of g X k ∧ none_of g X r.
Proof. unfold none_of. cbn. rewrite Forall_cons, Forall_app. done. Qed.
Section failing.
Context {C : Type} (fn : Z → bool → C → bool * C) (X : Z → Prop).
Lemma none_fstop f : ∀ c, none_of is_stuck X f → none_of ill_started X (fstop fn f c).1.
Proof.
  induction f as [|l d k IHk r IHr]; intros c; cbn; [by constructor|]. rewrite none_node. intros (Hd & Hk & Hr).
  specialize (IHk c Hk). destruct (fstop fn k c) as [k' c1].
  assert (∃ d' c2, stop1 fn d c1 = (d', c2) ∧ un_id d' = un_id d ∧ (X (un_id d) → ill_started d' = false)) as (d' & c2 & -> & Ei & Hd').
  { unfold stop1. unfold is_stuck, keeps, ill_started in *. destruct d as [i s en p e]. cbn in *.
    destruct p, en, s; cbn in *; try (by eexists _, _); by destruct (fn i false c1) as [ok c2]; eexists _, _. }
  specialize (IHr c2 Hr). destruct (fstop fn r c2) as [r' c3]. cbn in *. apply none_node. by rewrite Ei.
Qed.
Lemma none_fstart f : (∀ id c, (fn id true c).1 = true) → ∀ up c, none_of ill_started X f → none_of ill_started X (fstart fn up f c).1.2.
Proof.
  intros Hok. induction f as [|l d k IHk r IHr]; intros up c; cbn; [done|]. rewrite none_node. intros (Hd & Hk & Hr).
  assert (∃ d' c1, start1 fn up d c = (true, d', c1) ∧ un_id d' = un_id d ∧ (X (un_id d) → ill_started d' = false)) as (d' & c1 & -> & Ei & Hd').
  { unfold start1. destruct (_ || _ || _); [by eexists _, _|]. specialize (Hok (un_id d) c).
    destruct (fn (un_id d) true c) as [ok c1]. cbn in Hok. subst ok. by eexists _, _. }
  specialize (IHk (un_status d') c1 Hk). destruct (fstart fn _ k c1) as [[b k'] c2].
  specialize (IHr up c2 Hr). destruct (fstart fn up r c2) as [[br r'] c3]. cbn in *. apply none_node. by rewrite Ei.
Qed.
End failing.

(** *** What the services leave alone *)

Definition same_cfg (c c' : inet_base) : Prop :=
  in_units c' = in_units c ∧ b4 c' = b4 c ∧ bs c' = bs c ∧ b6 c' = b6 c ∧ ba c' = ba c ∧ b6s c' = b6s c ∧
  st_assign_scheme (in_state c') = st_assign_scheme (in_state c).
(** The addresses in the reported state *)
Definition addrs (c : inet_base) : list osn_ip_addr_t := [st_ipaddr (in_state c); st_netmask (in_state c);
  st_bcaddr (in_state c); st_gateway (in_state c)].
Definition statics (c : inet_base) : list osn_ip_addr_t :=
  [in_static_addr (b4 c); in_static_netmask (b4 c); in_static_bcast (b4 c); in_static_gwaddr (b4 c)].
Definition keepsB {A} (m : B A) : Prop := ∀ c, same_cfg c (m c).2 ∧ (addrs (m c).2 = addrs c ∨ addrs (m c).2 = statics c).
Lemma same_cfg_refl c : same_cfg c c.
Proof. by split_and!. Qed.
Lemma same_cfg_trans c1 c2 c3 : same_cfg c1 c2 → same_cfg c2 c3 → same_cfg c1 c3.
Proof. unfold same_cfg. intros (? & ? & ? & ? & ? & ? & ?) (? & ? & ? & ? & ? & ? & ?). split_and!; congruence. Qed.
Lemma same_statics c c' : same_cfg c c' → statics c' = statics c.
Proof. intros (_ & E & _). unfold statics. by rewrite E. Qed.
Lemma keepsB_ret {A} (a : A) : keepsB (mret a).
Proof. intros c. split; [apply same_cfg_refl|by left]. Qed.
Lemma keepsB_bind {A A'} (m : B A) (g : A → B A') : keepsB m → (∀ a, keepsB (g a)) → keepsB (m ≫= g).
Proof.
  intros Hm Hg c. unfold mbind, B_bind. destruct (Hm c) as [S1 A1]. destruct (m c) as [a c1].
  destruct (Hg a c1) as [S2 A2]. cbn in *.
  split; [by eapply same_cfg_trans|]. rewrite (same_statics _ _ S1) in A2. destruct A1, A2; [left|right..]; congruence.
Qed.
Lemma keepsB_get {A} (g : inet_base → A) : keepsB (bget g).
Proof. intros c. split; [apply same_cfg_refl|by left]. Qed.
Lemma keepsB_call e x : keepsB (call e x).
Proof. intros c. split; [by split_and!|by left]. Qed.
Lemma keepsB_updo g : keepsB (bmod (updo g)).
Proof. intros c. split; [by split_and!|by left]. Qed.
Lemma keepsB_update : keepsB inet_base_state_update.
Proof. intros c. unfold inet_base_state_update. destruct (bool_decide _); split; try (by split_and!); by left. Qed.
Lemma keepsB_static start : keepsB (inet_base_scheme_static_commit start).
Proof.
  intros c. unfold inet_base_scheme_static_commit, mbind, B_bind, bget, bmod, inet_base_state_update, mret, B_ret.
  destruct (bool_decide _); split; try (by split_and!); by right.
Qed.
Ltac keepsB := repeat first
  [ progress intros | apply keepsB_static | apply keepsB_ret | apply keepsB_bind | apply keepsB_get | apply keepsB_call | apply keepsB_updo | apply keepsB_update
  | match goal with |- keepsB (if ?b then _ else _) => destruct b end ].
Lemma keepsB_try e l : keepsB (try_all e l).
Proof. induction l as [|x l IH]; cbn; keepsB. done. Qed.
Lemma keepsB_all e l : keepsB (all_or_fail e l).
Proof. induction l as [|x l IH]; cbn; keepsB. done. Qed.
Lemma keepsB_service e srv start : keepsB (inet_base_service_commit e srv start).
Proof.
  unfold inet_base_service_commit, inet_base_firewall_commit, inet_base_igmp_commit, inet_base_upnp_commit, inet_base_dhcp_client_commit,
    inet_base_dns_commit, inet_base_dhsnif_commit, inet_base_routes_commit, start_stop, inet_base_dhcp_server_commit, inet_base_inet6_commit,
    inet_base_init_ip6, inet_base_dhcp6_client_commit, inet_base_radv_commit, inet_base_dhcp6_server_commit, destroy.
  keepsB; try apply keepsB_try; try apply keepsB_all; keepsB.
Qed.
Lemma commit_keeps e id en c : same_cfg c (__inet_base_commit e id en c).2 ∧ (addrs c = statics c →
  addrs (__inet_base_commit e id en c).2 = statics c).
Proof. unfold __inet_base_commit. destruct (keepsB_service e id en c) as [H [H1|H1]]; (split; [done|]); intros E; congruence. Qed.
Lemma commit_sets_static e c : addrs (__inet_base_commit e INET_BASE_SCHEME_STATIC true c).2 = statics (__inet_base_commit e INET_BASE_SCHEME_STATIC true c).2.
Proof.
  change (__inet_base_commit e INET_BASE_SCHEME_STATIC true c) with (inet_base_scheme_static_commit true c).
  unfold inet_base_scheme_static_commit, mbind, B_bind, bget, bmod, inet_base_state_update, mret, B_ret.
  destruct (bool_decide _); done.
Qed.
(** With drivers that succeed every service starts. *)
Definition ok_drv (e : inet_env) : Prop := ∀ l c, drv e l c = true.
Definition trueB (m : B bool) : Prop := ∀ c, (m c).1 = true.
Lemma trueB_ret : trueB (mret true).
Proof. done. Qed.
Lemma trueB_bind {A} (m : B A) (g : A → B bool) : (∀ a, trueB (g a)) → trueB (m ≫= g).
Proof. intros Hg c. unfold mbind, B_bind. destruct (m c) as [a c1]. apply Hg. Qed.
Lemma trueB_bindb (m : B bool) (g : bool → B bool) : trueB m → trueB (g true) → trueB (m ≫= g).
Proof. intros Hm Hg c. unfold mbind, B_bind. specialize (Hm c). destruct (m c) as [a c1]. cbn in Hm. subst a. apply Hg. Qed.
Lemma trueB_call e c : ok_drv e → trueB (call e c).
Proof. intros H s. apply H. Qed.
Lemma trueB_all e l : ok_drv e → trueB (all_or_fail e l).
Proof. intros H. induction l as [|x l IH]; cbn; [done|]. by apply trueB_bindb; [apply trueB_call|]. Qed.
Lemma trueB_destroy e there clear c : ok_drv e → trueB (destroy e there clear c).
Proof.
  intros H. unfold destroy. apply trueB_bind. intros o. destruct (there o); [|done].
  apply trueB_bindb; [by apply trueB_call|]. by apply trueB_bind.
Qed.
Ltac trueB := repeat first
  [ progress intros | apply trueB_ret | by apply trueB_call | by apply trueB_all
  | apply trueB_bindb; [first [by apply trueB_call | by apply trueB_all | by apply trueB_destroy | assumption]|cbn [negb andb]]
  | apply trueB_bind | match goal with |- trueB (if ?b then _ else _) => destruct b end ].
Lemma commit_succeeds e id c : ok_drv e → (__inet_base_commit e id true c).1 = true.
Proof.
  intros He. assert (trueB (inet_base_service_commit e id true)) as H; [|apply H].
  assert (∀ a b, trueB (start_stop e a b true)) as Hss. { intros a b. unfold start_stop. cbn. apply trueB_bindb;
    [by apply trueB_call|]. cbn. trueB. }
  assert (trueB (inet_base_init_ip6 e)) as Hi6.
  { unfold inet_base_init_ip6. apply trueB_bind. intros o. apply trueB_bind. intros []. apply trueB_bindb;
    [by apply trueB_call|]. trueB. }
  unfold inet_base_service_commit, inet_base_firewall_commit, inet_base_igmp_commit, inet_base_upnp_commit, inet_base_dhcp_client_commit,
    inet_base_dns_commit, inet_base_dhsnif_commit, inet_base_routes_commit, inet_base_dhcp_server_commit, inet_base_inet6_commit,
    inet_base_dhcp6_client_commit, inet_base_radv_commit, inet_base_dhcp6_server_commit, inet_base_scheme_static_commit.
  repeat (match goal with |- trueB (if ?b then _ else _) => destruct b end); try apply Hss; cbn [negb]; trueB.
Qed.

(** *** What is enabled, and the configuration *)

Definition mem (E : gset Z) (x : Z) : bool := bool_decide (x ∈ E).
Lemma want_mem op E x : mem (want op E) x =
  match op with
  | UStart y => (x =? y) || mem E x | UStop y => negb (x =? y) && mem E x
  | UEnable y b => if x =? y then b else mem E x
  | URestart y b => if x =? y then b || mem E x else mem E x
  | _ => mem E x
  end.
Proof.
  unfold mem. destruct op as [y|y|y b|y [|]|y|y|]; cbn [want]; try done; destruct (Z.eqb_spec x y) as [->|Hne]; cbn;
    try (by apply bool_decide_ext; set_solver);
    try (by apply bool_decide_eq_true_2; set_solver); try (by apply bool_decide_eq_false_2; set_solver).
  - destruct b; cbn; [apply bool_decide_eq_true_2; set_solver|]. destruct (bool_decide_reflect (y ∈ E));
    [apply bool_decide_eq_true_2; set_solver|by apply bool_decide_eq_false_2].
  - destruct (_ || _); apply bool_decide_ext; set_solver.
Qed.
Definition upnp_wanted (mode : osn_upnp_mode) (nat : bool) : bool :=
  match mode with
  | UPNP_MODE_NONE => false
  | UPNP_MODE_INTERNAL | UPNP_MODE_INTERNAL_IPTV => negb nat
  | UPNP_MODE_EXTERNAL | UPNP_MODE_EXTERNAL_IPTV => nat
  end.
(** The services that the configuration decides on *)
Definition cfg_services : list Z :=
  [INET_BASE_IF_ENABLE; INET_BASE_IF_CREATE; INET_BASE_IF_READY; INET_BASE_NETWORK; INET_BASE_SCHEME_NONE;
    INET_BASE_SCHEME_STATIC;
   INET_BASE_SCHEME_DHCP; INET_BASE_DHCP_SERVER; INET_BASE_IGMP; INET_BASE_UPNP; INET_BASE_DHCP6_CLIENT; INET_BASE_RADV;
     INET_BASE_DHCP6_SERVER].
Definition is_scheme (c : inet_base) (x : inet_assign_scheme) : bool := bool_decide (st_assign_scheme (in_state c) = x).
Definition cfg_values (c : inet_base) : list bool :=
  [in_interface_enabled (b4 c); true; true; in_network_enabled (b4 c); is_scheme c INET_ASSIGN_NONE;
    is_scheme c INET_ASSIGN_STATIC;
   is_scheme c INET_ASSIGN_DHCP; in_dhcps_enabled (bs c); in_igmp_enabled (b4 c);
     upnp_wanted (in_upnp_mode (b4 c)) (in_nat_enabled (b4 c));
   in_dhcp6_client_enable (b6 c); in_radv_enable (ba c); in_dhcp6_server_enable (b6s c)].
Definition cfg_ok (c : inet_base) (E : gset Z) : Prop := mem E <$> cfg_services = cfg_values c.

(** *** The state between two steps of a method *)

Definition at_ (s : ustate inet_base) (c : inet_base) (P : forest → Prop) : Prop :=
  u_ctx s = c ∧ ∃ f, urep (in_units c) f (u_units s) ∧ P f.
(** The units [E] are enabled; [K] is known if the static addresses go on. *)
Definition fits (E : gset Z) (K : Prop) (f : forest) : Prop := fok E base_units f ∧ known INET_BASE_SCHEME_STATIC keeps K f.
Section rules.
Context (e : inet_env).
Lemma wp_self {A} (g : inet_base → A) Q s c P : at_ s c P → Q (g c) s → wp (self g) Q s.
Proof. intros [<- _] H. exact H. Qed.
Lemma at_set s c c' P : at_ s c P → in_units c' = in_units c → at_ (UState (u_units s) c' (u_found s)) c' P.
Proof. intros [Hc (f & H1 & H2)] Hu. split; [done|]. exists f. cbn. by rewrite Hu. Qed.
Lemma wp_on_self {A} (m : B A) Q s c P : at_ s c P → in_units (m c).2 = in_units c → (∀ s', at_ s' (m c).2 P →
  Q (m c).1 s') → wp (on_self m) Q s.
Proof.
  intros Ha Hu H. pose proof (at_set s c (m c).2 P Ha Hu) as Ha'. destruct Ha as [Hc _]. unfold wp, on_self. rewrite Hc.
  destruct (m c) as [a c']. by apply H.
Qed.
Lemma wp_upd_self g Q s c P : at_ s c P → in_units (g c) = in_units c → (∀ s', at_ s' (g c) P → Q tt s') → wp (upd_self g) Q s.
Proof. intros Ha Hu H. by eapply (wp_on_self (bmod g)). Qed.
Lemma wp_drive x Q s c P : at_ s c P → (∀ s' b, at_ s' (with_drv (λ l, l ++ [x]) c) P → Q b s') → wp (drive e x) Q s.
Proof. intros Ha H. eapply (wp_on_self (call e x)); [done|done|]. intros s' Ha'. by eapply H. Qed.
Lemma wp_update Q s c P : at_ s c P → (∀ s' c', same_cfg c c' → in_state c' = in_state c → at_ s' c' P → Q tt s') →
  wp (on_self inet_base_state_update) Q s.
Proof.
  intros Ha H. eapply wp_on_self; [done|unfold inet_base_state_update; by case_bool_decide|]. intros s'.
  unfold inet_base_state_update.
  case_bool_decide; cbn; apply H; done || by split_and!.
Qed.
Lemma at_mono s c (P P' : forest → Prop) : (∀ f, P f → P' f) → at_ s c P → at_ s c P'.
Proof. intros HP [H (f & H1 & H2)]. split; [done|]. exists f. auto. Qed.
Lemma at_known s c E (K K' : Prop) : (K → K') → at_ s c (fits E K) → at_ s c (fits E K').
Proof. intros HK. apply at_mono. intros f [H1 H2]. split; [done|]. by eapply known_mono. Qed.
Lemma wp_unit_status y Q s c P : at_ s c P → (∀ s' b, at_ s' c P → Q b s') → wp (unit_status y) Q s.
Proof.
  intros [Hc (f & H1 & H2)] H. apply wp_bind, (wp_self _ _ _ c P); [by split; eauto|].
  destruct (flag_spec (in_units c) f (u_units s) (u_ctx s, u_found s) y un_status H1) as [q E]. destruct s as [h0 c0 q0].
  unfold wp, inet_unit_status.
  unfold st in E. cbn [fst snd u_units u_ctx u_found] in E. rewrite E. apply H. split; eauto.
Qed.

Lemma unit_rule (op : uop) (P : bool → Prop) Q s c E K (m : loc → M (ustate inet_base) bool) : at_ s c (fits E K) → op ≠ UCommit →
  (∀ root, m root = uop_run (λ _ _ c, (true, c)) root op) →
  (∀ f, fok E base_units f → P (fop (λ (_ : Z) (_ : bool) (c : unit), (true, c)) op f tt).1.1) →
  (∀ s' b, at_ s' c (fits (want op E) K) → P b → Q b s') → wp (root ← self in_units; m root) Q s.
Proof.
  intros [Hc (f & H1 & H2 & H3)] Hop Hm HP H. apply wp_bind, (wp_self _ _ _ c (fits E K)); [by split; eauto; exists f|].
  rewrite Hm.
  destruct (uop_spec (λ _ _ c, (true, c)) (in_units c) f (u_units s) (u_ctx s, u_found s) op H1) as (h' & q & Hr).
  pose proof (fok_op (λ _ _ c, (true, c)) op E base_units f (u_ctx s) H2) as Hf.
  assert (∀ x, (fop (λ (_ : Z) (_ : bool) (c : inet_base), (true, c)) op f x) = ((fop (λ (_ : Z) (_ : bool) (c : unit), (true, c)) op f tt).1.1,
    (fop (λ (_ : Z) (_ : bool) (c : unit), (true, c)) op f tt).1.2, x)) as Eop by (intros x; by destruct op as [| | |? [|]| | |]).
  cbn [fst] in Hr. rewrite Eop in Hr, Hf. destruct Hr as [Hr Hu]. destruct s as [h0 c0 q0]. cbn in Hc. subst c0.
  unfold wp. cbn [st u_units u_ctx u_found fst snd] in Hr. unfold st in Hr. cbn [fst snd] in Hr. rewrite Hr.
  apply H; [|by apply HP]. split; [done|]. eexists. split; [exact Hu|]. split; [exact Hf|].
  pose proof (fok_inv _ _ _ H2) as Hi. destruct op as [y|y|y b|y [|]|y|y|]; cbn; try done.
  - by eapply known_start.
  - by apply known_stop.
  - destruct (_ && _); [|done]. eapply known_start; [by apply finv_stop|by apply known_stop].
  - by eapply known_start.
  - by apply known_stop.
Qed.
Lemma fok_has E f x : fok E base_units f → x ∈ eids base_units → has x f = true.
Proof.
  intros [_ _ Hl _] Hx. unfold has. destruct (fget x f) eqn:E1; [done|]. apply fget_none in E1.
  rewrite (like_ids _ _ Hl) in E1. done.
Qed.
Lemma wp_unit_enable y b Q s c E K : y ∈ eids base_units → at_ s c (fits E K) →
  (∀ s', at_ s' c (fits (want (UEnable y b) E) K) → Q true s') → wp (unit_enable y b) Q s.
Proof.
  intros Hy Ha H. eapply (unit_rule (UEnable y b) (λ r, r = true)); [done|done|done| |by intros s' ? ? ->; apply H].
  intros f Hf. destruct b; by apply (fok_has E).
Qed.
Lemma wp_unit_stop y Q s c E K : y ∈ eids base_units → at_ s c (fits E K) → (∀ s', at_ s' c (fits (want (UStop y) E) K) →
  Q true s') → wp (unit_stop y) Q s.
Proof.
  intros Hy Ha H. eapply (unit_rule (UStop y) (λ r, r = true)); [done|done|done| |by intros s' ? ? ->; apply H].
  intros f Hf. by apply (fok_has E).
Qed.
Lemma wp_unit_restart y b Q s c E K : y ∈ eids base_units → at_ s c (fits E K) →
  (∀ s', at_ s' c (fits (want (URestart y b) E) K) → Q true s') → wp (unit_restart y b) Q s.
Proof.
  intros Hy Ha H. eapply (unit_rule (URestart y b) (λ r, r = true)); [done|done|done| |by intros s' ? ? ->; apply H].
  intros f Hf. by apply (fok_has E).
Qed.
Lemma wp_unit_is_enabled y Q s c E K : y ∈ eids base_units → at_ s c (fits E K) → (∀ s', at_ s' c (fits E K) →
  Q (mem E y) s') → wp (unit_is_enabled y) Q s.
Proof.
  intros Hy Ha H. eapply (unit_rule (UIsEnabled y) (λ r, r = mem E y)); [done|done|done| |by intros s' ? ? ->; apply H].
  intros f Hf. apply flag_en; [apply Hf|by apply (fok_has E)].
Qed.
(** A restart of the service that holds the static addresses: what was started before does
    not go on. *)
Lemma wp_restart_static Q s c E K : at_ s c (fits E K) →
  (∀ s', at_ s' c (fits (want (URestart INET_BASE_SCHEME_STATIC false) E) False) → Q true s') →
    wp (unit_restart INET_BASE_SCHEME_STATIC false) Q s.
Proof.
  intros [Hc (f & H1 & H2 & H3)] H. unfold unit_restart. apply wp_bind, (wp_self _ _ _ c (fits E K)); [by split; eauto;
    exists f|].
  destruct (restart_spec (C := inet_base) (in_units c) f (u_units s) (u_ctx s, u_found s) INET_BASE_SCHEME_STATIC false H1) as (h' & q & Hr & Hu).
  assert (INET_BASE_SCHEME_STATIC ∈ eids base_units) as Hin by (apply (bool_decide_unpack _); by vm_compute).
  rewrite (fok_has E f _ H2 Hin) in Hr, Hu. destruct s as [h0 c0 q0]. cbn in Hc. subst c0. unfold wp. unfold st in Hr.
  cbn [st u_units u_ctx u_found fst snd] in Hr. rewrite Hr.
  apply H. split; [done|]. eexists. split; [exact Hu|].
  pose proof (fok_op (λ (_ : Z) (_ : bool) (x : unit), (true, x)) (URestart INET_BASE_SCHEME_STATIC false) E base_units f tt H2) as Hf.
  cbn [fop fst snd] in Hf. rewrite (fok_has E f _ H2 Hin) in Hf. split; [exact Hf|]. cbn [andb orb].
  rewrite (flag_en _ E f) by (by apply H2 || by apply (fok_has E)). destruct (bool_decide_reflect (INET_BASE_SCHEME_STATIC ∈ E)).
  - apply known_stopped, H2.
  - eapply known_disabled; [apply H2|done].
Qed.

(** *** The commit *)

Lemma cfg_same c c' E : same_cfg c c' → cfg_ok c E → cfg_ok c' E.
Proof.
  intros (_ & H4 & Hs & H6 & Ha & H6s & Hst). unfold cfg_ok. intros ->. unfold cfg_values, is_scheme.
  rewrite H4, Hs, H6, Ha, H6s, Hst. done.
Qed.
Lemma fstop_same_cfg f : ∀ c, same_cfg c (fstop (__inet_base_commit e) f c).2.
Proof.
  induction f as [|l d k IHk r IHr]; intros c; cbn; [apply same_cfg_refl|]. specialize (IHk c). destruct (fstop _ k c) as [k' c1].
  assert (same_cfg c1 (stop1 (__inet_base_commit e) d c1).2) as Hd.
  { unfold stop1. destruct (_ && _); [apply same_cfg_refl|]. destruct (un_status d); [|apply same_cfg_refl].
    pose proof (commit_keeps e (un_id d) false c1) as [H _]. by destruct (__inet_base_commit _ _ _ _). }
  destruct (stop1 _ d c1) as [d' c2]. specialize (IHr c2). destruct (fstop _ r c2) as [r' c3]. cbn in *.
  eauto using same_cfg_trans.
Qed.
Lemma fstart_same_cfg f : ∀ up c, same_cfg c (fstart (__inet_base_commit e) up f c).2.
Proof.
  induction f as [|l d k IHk r IHr]; intros up c; cbn; [apply same_cfg_refl|].
  assert (same_cfg c (start1 (__inet_base_commit e) up d c).2) as Hd.
  { unfold start1. destruct (_ || _); [apply same_cfg_refl|].
    pose proof (commit_keeps e (un_id d) true c) as [H _]. by destruct (__inet_base_commit _ _ _ _). }
  destruct (start1 _ up d c) as [[ok d'] c1].
  assert (∃ b k' c2, (if ok then fstart (__inet_base_commit e) (un_status d') k c1 else (false, k, c1)) = (b, k', c2) ∧
    same_cfg c1 c2) as (b & k' & c2 & -> & Hk).
  { destruct ok; [|exists false, k, c1; split; [done|apply same_cfg_refl]]. specialize (IHk (un_status d') c1).
    destruct (fstart _ _ k c1) as [[b k'] c2]. by eexists _, _, _. }
  specialize (IHr up c2). destruct (fstart _ up r c2) as [[br r'] c3]. cbn in *. eauto using same_cfg_trans.
Qed.
(** What one commit leaves: with drivers that succeed, all units that can run do. *)
Definition committed (E : gset Z) (K : Prop) (X : Z → Prop) (b : bool) (f : forest) : Prop :=
  fok E base_units f ∧ known INET_BASE_SCHEME_STATIC un_status K f ∧
  (ok_drv e → b = true ∧ ffull true f ∧ none_of ill_started X f).
(** [X]: units that are not stuck *)
Definition fits_but (E : gset Z) (K : Prop) (X : Z → Prop) (f : forest) : Prop := fits E K f ∧ none_of is_stuck X f.
Lemma unit_commit_rule s c E X : at_ s c (fits_but E (addrs c = statics c) X) →
  wp (inet_unit_commit (__inet_base_commit e) (in_units c)) (λ b s', ∃ c', same_cfg c c' ∧
    at_ s' c' (committed E (addrs c' = statics c') X b)) s.
Proof.
  intros [Hc (f & H1 & (H2 & H3) & H4)].
  pose proof (commit_spec (__inet_base_commit e) (in_units c) f (u_units s) (c, u_found s) H1) as Hs. cbn [fst snd] in Hs.
  pose proof (fok_commit (__inet_base_commit e) E base_units f c H2) as Hf. pose proof (fstop_same_cfg f c) as Sc1.
  set (Q := λ c, addrs c = statics c). assert (∀ id en c, Q c → Q (__inet_base_commit e id en c).2) as HQ1.
  { intros id en c1 E1. unfold Q in *. destruct (commit_keeps e id en c1) as [Hsame Hq]. rewrite (Hq E1).
    by rewrite (same_statics _ _ Hsame). }
  assert (∀ c, Q (__inet_base_commit e INET_BASE_SCHEME_STATIC true c).2) as HQ2 by (intros; apply commit_sets_static).
  destruct (known_fstop INET_BASE_SCHEME_STATIC (__inet_base_commit e) Q HQ1 f c H3) as [Hk1 _].
  pose proof (none_fstop (__inet_base_commit e) X f c H4) as Hn1.
  destruct (fstop (__inet_base_commit e) f c) as [f1 c1]. cbn [fst snd] in *. pose proof (fstart_same_cfg f1 true c1) as Sc2.
  destruct (known_fstart INET_BASE_SCHEME_STATIC (__inet_base_commit e) Q HQ1 HQ2 f1 true c1 Hk1) as [Hk2 _].
  pose proof (fstart_full (__inet_base_commit e) f1) as Hfull. pose proof (none_fstart (__inet_base_commit e) X f1) as Hn2.
  destruct (fstart (__inet_base_commit e) true f1 c1) as [[b f2] c2] eqn:Est. cbn [fst snd] in *.
  destruct Hs as (h' & Hs & Hu). destruct Hf as (Hf2 & Hp1 & _).
  assert (same_cfg c c2) as Sc by (by eapply same_cfg_trans). destruct s as [h0 c0 q0]. cbn in Hc. subst c0. unfold wp.
  unfold st in Hs. cbn [fst snd u_units u_ctx u_found] in *. rewrite Hs. exists c2. split; [done|]. split; [done|]. exists f2.
  split; [by destruct Sc as [-> _]|]. split; [done|]. split; [done|].
  intros He. destruct (Hfull (λ id c, commit_succeeds e id c He) true c1 Hp1) as [E1 E2]. rewrite Est in E1, E2.
  specialize (Hn2 (λ id c, commit_succeeds e id c He) true c1 Hn1). by rewrite Est in Hn2.
Qed.

(** The rest of [inet_base_commit] reports the state; the configuration stays. *)
Definition reports (c c' : inet_base) : Prop := same_cfg c c' ∧ addrs c' = addrs c.
Lemma reports_trans c1 c2 c3 : reports c1 c2 → reports c2 c3 → reports c1 c3.
Proof. intros [S1 A1] [S2 A2]. split; [by eapply same_cfg_trans|congruence]. Qed.
Lemma reports_refl c : reports c c.
Proof. by split; [apply same_cfg_refl|]. Qed.
Lemma reports_drv c0 c x : reports c0 c → reports c0 (with_drv (λ l, l ++ [x]) c).
Proof. intros H. eapply reports_trans; [exact H|]. by split; [split_and!|]. Qed.
Definition flags_only (g : inet_state_t → inet_state_t) : Prop := ∀ c, reports c (updst g c).
Lemma wp_flags g (k : M (ustate inet_base) bool) Q s c0 c P : at_ s c P → reports c0 c → flags_only g →
  (∀ s' c', at_ s' c' P → reports c0 c' → wp k Q s') → wp (upd_self (updst g);; k) Q s.
Proof. intros Ha Hr Hg H. apply wp_bind. eapply wp_upd_self; [done|done|]. intros s1 H1. eapply H; [done|].
  by eapply reports_trans. Qed.
Lemma wp_poll x g (k : M (ustate inet_base) bool) Q s c0 c P : at_ s c P → reports c0 c → (∀ l, flags_only (g l)) →
  (∀ s' c', at_ s' c' P → reports c0 c' → wp k Q s') →
  wp (l ← self in_drv; b ← drive e x; (if (b : bool) then upd_self (updst (g l)) else mret tt);; k) Q s.
Proof.
  intros Ha Hr Hg H. apply wp_bind, (wp_self _ _ _ c P); [done|]. apply wp_bind, (wp_drive _ _ _ c P); [done|]. intros s1 [] H1.
  - eapply wp_flags; [done|by apply reports_drv|done|done].
  - apply wp_bind, wp_ret. eapply H; [done|]. by apply reports_drv.
Qed.
Lemma wp_base_commit s c E X : at_ s c (fits_but E (addrs c = statics c) X) →
  wp (inet_base_commit e) (λ b s', ∃ c', same_cfg c c' ∧ at_ s' c' (committed E (addrs c' = statics c') X b)) s.
Proof.
  intros Ha. unfold inet_base_commit. apply wp_bind. eapply wp_self; [done|]. apply wp_bind. eapply wp_mono;
    [by apply unit_commit_rule|]. cbn beta.
  intros b s1 (c1 & S1 & H1). apply wp_bind. eapply wp_unit_status; [done|]. intros s2 en H2. apply wp_bind.
  eapply wp_unit_status; [done|]. intros s3 net H3. pose proof (reports_refl c1) as R.
  eapply wp_flags; [done|done|done|]. intros s4 c4 H4 R4. eapply wp_flags; [done|done|done|]. intros s5 c5 H5 R5.
  eapply wp_flags; [done|done|done|]. intros s6 c6 H6 R6.
  eapply (wp_poll inet_fw_state_get (λ l, st_set_nat (env_nat e l))); [done..|]. intros s7 c7 H7 R7.
  eapply (wp_poll osn_dhcp_client_state_get (λ l, st_set_dhcpc (env_dhcpc e l))); [done..|]. intros s8 c8 H8 R8.
  eapply (wp_poll osn_upnp_get (λ l, st_set_upnp (env_upnp e l))); [done..|]. intros s9 c9 H9 [S9 A9].
  apply wp_bind. eapply wp_update; [done|]. intros s' c' S' A' H'. apply wp_ret. exists c'. split; [eauto using same_cfg_trans|].
  eapply at_mono; [|exact H']. intros f (F1 & F2 & F3). split; [done|]. split; [|done]. eapply known_mono; [|exact F2].
  assert (addrs c' = addrs c1) as -> by (unfold addrs in *; by rewrite A'). intros ->.
  by rewrite (same_statics _ _ S'), (same_statics _ _ S9).
Qed.
End rules.

(** *** Every call on an interface *)

Definition lens (c : inet_base) : Prop :=
  length (in_dhcps_opts (bs c)) = DHCP_OPTION_MAX ∧ length (in_dhcp6_client_request (b6 c)) = DHCP_OPTION_MAX ∧
  length (in_dhcp6_client_send (b6 c)) = DHCP_OPTION_MAX.
(** What holds between two calls: the units that are enabled are those of the configuration,
    and the static addresses that go on are those that were configured. *)
Definition iface_ok (s : ustate inet_base) : Prop :=
  ∃ c E, at_ s c (fits E (addrs c = statics c)) ∧ cfg_ok c E ∧ lens c.
(** The callers' part: option numbers are below the size of the arrays, and a DNS server that
    is removed is there. *)
Definition op_pre (op : iop) (c : inet_base) : bool :=
  match op with
  | IOption n _ | IDhcp6Request n _ | IDhcp6Send n _ => (n <? DHCP_OPTION_MAX)%nat
  | IIp6Dns false a => bool_decide (is_Some (ks_get osn_ip6_addr_cmp id a (in_ip6dns_list (b6 c))))
  | _ => true
  end.
Lemma eids_base y : bool_decide (y ∈ eids base_units) = true → y ∈ eids base_units.
Proof. apply bool_decide_eq_true_1. Qed.
Lemma same_lens c c' : same_cfg c c' → lens c → lens c'.
Proof. intros (_ & _ & Hs & H6 & _). unfold lens. by rewrite Hs, H6. Qed.
Ltac cfg :=
  match goal with H : cfg_ok _ _ |- _ => revert H end;
  unfold cfg_ok, cfg_services, cfg_values; cbn [fmap list_fmap]; rewrite ?want_mem; intros Hcfg; injection Hcfg;
    clear Hcfg; intros;
  repeat match goal with H : mem _ _ = _ |- _ => rewrite H; clear H end; cbn;
  repeat match goal with |- _ :: _ = _ :: _ => apply f_equal2; [|try reflexivity] end; try done;
  repeat match goal with H : @eq osn_upnp_mode _ _ |- _ => cbn in H; first [rewrite H | subst];
    clear H | H : in_nat_enabled _ = _ |- _ => cbn in H; rewrite H; clear H end;
  rewrite ?andb_true_r, ?andb_false_r, ?orb_false_r; try done.
Ltac lens := unfold lens in *; cbn; rewrite ?length_insert; done.
Ltac fin := match goal with Ha : at_ _ ?c (fits ?E _) |- _ =>
  exists c, E; split; [eapply at_known; [|exact Ha]; first [exact (λ x, x) | done]|split; [cfg|lens]] end.
Ltac step := match goal with
  | |- wp (mret _) _ _ => apply wp_ret
  | |- wp (if ?b then _ else _) _ _ => destruct b eqn:?
  | |- wp (match ?b with _ => _ end) _ _ => destruct b eqn:?
  | |- wp (_ ≫= _) _ _ => apply wp_bind
  | H : at_ ?s _ _ |- wp (self _) _ ?s => eapply wp_self; [exact H|]
  | H : at_ ?s _ _ |- wp (upd_self _) _ ?s => eapply wp_upd_self; [exact H|done|]; clear H; intros ? H
  | H : at_ ?s _ _ |- wp (drive _ _) _ ?s => eapply wp_drive; [exact H|]; clear H; intros ? ? H
  | H : at_ ?s _ _ |- wp (unit_restart INET_BASE_SCHEME_STATIC false) _ ?s => eapply wp_restart_static; [exact H|];
    clear H; intros ? H
  | H : at_ ?s _ _ |- wp (unit_restart _ _) _ ?s => eapply wp_unit_restart; [apply eids_base; reflexivity|exact H|];
    clear H; intros ? H
  | H : at_ ?s _ _ |- wp (unit_enable _ _) _ ?s => eapply wp_unit_enable; [apply eids_base; reflexivity|exact H|];
    clear H; intros ? H
  | H : at_ ?s _ _ |- wp (unit_stop _) _ ?s => eapply wp_unit_stop; [apply eids_base; reflexivity|exact H|]; clear H; intros ? H
  | H : at_ ?s _ _ |- wp (unit_is_enabled _) _ ?s => eapply wp_unit_is_enabled; [apply eids_base; reflexivity|exact H|];
    clear H; intros ? H
  end; cbn beta.
Lemma op_ip4 e s op : iface_ok s →
  match op with IInterface _ | INetwork _ | IUpnp _ | INat _ | IIgmp _ _ _ | IMtu _ | IStatic _ _ _ | IGateway _
  | IPortSet _ | IPortDel _ | IOptRequest _ _ | IOptSet _ _ | ILease _ | IRange _ _ => true | _ => false end = true →
    wp (iop_run e op) (λ _, iface_ok) s.
Proof.
  intros (c & E & Ha & Hcfg & Hl) Hop. destruct op; try discriminate Hop; clear Hop; cbn [iop_run];
  unfold inet_base_interface_enable, inet_base_network_enable, inet_base_upnp_mode_set, inet_base_nat_enable, inet_base_igmp_enable, inet_base_mtu_set,
    inet_base_ipaddr_static_set, inet_base_gateway_set, inet_base_portforward_set, inet_base_portforward_del, inet_base_dhcpc_option_request,
    inet_base_dhcpc_option_set, inet_base_dhcpc_option_get, inet_base_upnp_start_stop, inet_base_dhcps_lease_set, inet_base_dhcps_range_set, restart_dhcps; repeat step; fin.
Qed.
Lemma iface_same s c c' E P : at_ s c' (fits E P) → same_cfg c c' → in_state c' = in_state c → (P →
  addrs c = statics c) → cfg_ok c E → lens c → iface_ok s.
Proof.
  intros Ha Hs Hst HP Hc Hl. exists c', E. split; [|split; [by eapply cfg_same|by eapply same_lens]]. eapply at_known;
    [|exact Ha]. intros HK.
  rewrite (same_statics _ _ Hs), <- HP by done. unfold addrs. by rewrite Hst.
Qed.
Lemma op_state e s op : iface_ok s → match op with IScheme _ | IDhcps _ => true | _ => false end = true →
  wp (iop_run e op) (λ _, iface_ok) s.
Proof.
  intros (c & E & Ha & Hcfg & Hl) Hop. destruct op; try discriminate Hop; clear Hop; cbn [iop_run];
  unfold inet_base_assign_scheme_set, inet_base_dhcps_enable;
  repeat first [step|match goal with H : at_ ?s _ _ |- wp (on_self _) _ ?s => eapply wp_update; [exact H|]; clear H;
    intros ? ? Hsame Hst H; cbn beta end];
  first [match goal with Hs : same_cfg _ _ |- _ => eapply iface_same;
    [exact Ha|exact Hs|exact Hst|exact (λ x, x)|clear Hs Hst|lens] end; cfg | fin].
Qed.
Ltac deref H := match goal with |- wp (deref (?l !! ?n)) _ _ =>
  let x := fresh in let Hx := fresh in destruct (lookup_lt_is_Some_2 l n ltac:(rewrite H; by apply Nat.ltb_lt)) as [x Hx];
  eapply wp_deref; [exact Hx|] end; cbn beta.
Lemma op_arrays e s op : iface_ok s → op_pre op (u_ctx s) = true →
  match op with IOption _ _ | IDhcp6Request _ _ | IDhcp6Send _ _ => true | _ => false end = true →
  wp (iop_run e op) (λ _, iface_ok) s.
Proof.
  intros (c & E & Ha & Hcfg & Hl) Hpre Hop. pose proof Hl as (L1 & L2 & L3).
  destruct op; try discriminate Hop; clear Hop; cbn [iop_run op_pre] in *;
  unfold inet_base_dhcps_option_set, inet_base_dhcp6_client_option_request, inet_base_dhcp6_client_option_send, restart_dhcps.
  - do 2 step. step. deref L1. repeat step; fin.
  - do 2 step. step. deref L2. repeat step; fin.
  - do 2 step. step. deref L3. repeat step; fin.
Qed.
Lemma op_dns6 e s add a : iface_ok s → op_pre (IIp6Dns add a) (u_ctx s) = true → wp (iop_run e (IIp6Dns add a)) (λ _, iface_ok) s.
Proof.
  intros (c & E & Ha & Hcfg & Hl) Hpre. pose proof Ha as [Hc _]. rewrite Hc in Hpre. clear Hc. cbn [iop_run op_pre] in *.
  unfold inet_base_ip6_dns.
  do 2 step. cbv zeta. destruct add.
  - repeat step; fin.
  - apply bool_decide_eq_true in Hpre as [x ->]. repeat step; fin.
Qed.
Lemma op_rest e s op : iface_ok s → match op with IRipSet _ _ _ | IRipDel _ | IDns _ _ | ISniff _
  | IIp6Addr _ _ | IDhcp6 _ _ _ _ | IRadv _ _ | IRadvPrefix _ _ _ _ | IRadvRdnss _ _
  | IRadvDnssl _ _ | IDhcp6s _ | IDhcp6sPrefix _ _ | IDhcp6sOption _ _ | IDhcp6sLease _ _ => true | _ => false end = true →
  wp (iop_run e op) (λ _, iface_ok) s.
Proof.
  intros (c & E & Ha & Hcfg & Hl) Hop. destruct op; try discriminate Hop; clear Hop; cbn [iop_run];
  unfold inet_base_dhcps_rip_set, inet_base_dhcps_rip_del, inet_base_dns_set, inet_base_dhsnif_lease_notify,
    inet_base_ip6_addr, inet_base_dhcp6_client, inet_base_radv, inet_base_radv_prefix, inet_base_radv_rdnss, inet_base_radv_dnssl,
    inet_base_dhcp6_server, inet_base_dhcp6_server_prefix, inet_base_dhcp6_server_option_send, inet_base_dhcp6_server_lease, restart_dhcps; cbv zeta;
  repeat step; fin.
Qed.
Lemma after_commit e s c E : at_ s c (fits E (addrs c = statics c)) → cfg_ok c E → lens c →
  wp (inet_base_commit e) (λ _, iface_ok) s.
Proof.
  intros Ha Hc Hl. eapply wp_mono; [apply (wp_base_commit e s c E (λ _, False))|].
  { eapply at_mono; [|exact Ha]. intros f Hf. split; [done|]. by apply Forall_forall. }
  cbn. intros b s' (c' & S' & H'). exists c', E.
  split; [|split; [by eapply cfg_same|by eapply same_lens]]. eapply at_mono; [|exact H']. intros f (F1 & F2 & _). split;
    [done|]. by apply known_status_keeps.
Qed.
Lemma op_commits e s op : iface_ok s → match op with ICommit | IStateTimer => true | _ => false end = true →
  wp (iop_run e op) (λ _, iface_ok) s.
Proof.
  intros (c & E & Ha & Hcfg & Hl) Hop. destruct op; try discriminate Hop; clear Hop; cbn [iop_run]; [by eapply after_commit|].
  apply wp_bind. unfold inet_base_state_update_fn. do 4 step. apply wp_bind. eapply wp_mono; [eapply after_commit;
    [exact Ha|cfg|done]|].
  intros b s1 H1. do 2 apply wp_ret. exact H1.
Qed.
Lemma iface_step e s op : iface_ok s → op_pre op (u_ctx s) = true → wp (iop_run e op) (λ _, iface_ok) s.
Proof.
  intros Hs Hp. pose proof (op_ip4 e s op Hs) as H1. pose proof (op_state e s op Hs) as H2.
  pose proof (op_arrays e s op Hs Hp) as H3.
  pose proof (op_rest e s op Hs) as H4. pose proof (op_commits e s op Hs) as H5. destruct op; auto; [].
  by apply op_dns6.
Qed.

(** *** From the initialisation on *)

Inductive iface_reach : ustate inet_base → Prop :=
  | reach_init s : inet_base_init = Some s → iface_reach s
  | reach_op e op s b s' : iface_reach s → op_pre op (u_ctx s) = true → iop_run e op s = Some (b, s') → iface_reach s'.
Lemma known_true i g (K : Prop) f : K → known i g K f.
Proof. intros HK. by apply Forall_forall. Qed.
Lemma base_nodup : NoDup (eids base_units).
Proof. apply (bool_decide_unpack _). by vm_compute. Qed.
Lemma init_ok : ∃ s, inet_base_init = Some s ∧ iface_ok s.
Proof.
  unfold inet_base_init. destruct (build_spec base_units ∅ (inet_base0 1%positive, None)) as (h & f & Eb & Hrep & Hb & Hloc & _).
  unfold st in Eb. cbn [fst snd] in Eb. rewrite Eb. cbn [mbind option_bind].
  pose proof (built_fok _ _ Hb base_nodup) as Hf. assert (∃ root d k, f = FNode root d k FNil) as (root & d & k & Ef).
  { clear -Hb. destruct f as [|l d k r]; [done|]. cbn in Hb. destruct Hb as (_ & _ & Hr). destruct r; [by eexists _, _, _|done]. }
  rewrite Ef. cbn [roots head mbind option_bind u_units u_found].
  assert (urep root f h) as Hu by (split; [by eexists _, _|done|done|by apply Hf]).
  destruct (start_spec root f h (inet_base0 root, None) INET_BASE_IF_CREATE Hu) as (h1 & q1 & E1 & Hu1).
  destruct (start_spec root _ h1 (inet_base0 root, q1) INET_BASE_IF_READY Hu1) as (h2 & q2 & E2 & Hu2).
  destruct (start_spec root _ h2 (inet_base0 root, q2) INET_BASE_ROUTES Hu2) as (h3 & q3 & E3 & Hu3).
  unfold st in E1, E2, E3. cbn [fst snd] in E1, E2, E3. rewrite E1. cbn [mbind option_bind]. rewrite E2.
  cbn [mbind option_bind]. rewrite E3.
  eexists. split; [done|]. exists (inet_base0 root). eexists. split; [split; [done|]; eexists; split; [exact Hu3|]; split|split].
  - by do 3 apply (fok_start (λ (_ : Z) (_ : bool) (x : unit), (true, x))).

  - by apply known_true.
  - by vm_compute.
  - by split_and!.
Qed.
Lemma reach_ok s : iface_reach s → iface_ok s.
Proof.
  induction 1 as [s Hi|e op s b s' _ IH Hp Hr]; [destruct init_ok as (s0 & E0 & H0); congruence|].
  pose proof (iface_step e s op IH Hp) as H. unfold wp in H. by rewrite Hr in H.
Qed.

(** *** The services that the configuration asks for *)

(** A property of the unit of a service *)
Definition service (g : udata → bool) (srv : Z) (s : ustate inet_base) : option bool :=
  fst <$> (root ← self in_units; pu ← inet_unit_find root srv;
           match pu with None => mret false | Some pu => u ← uload pu; mret (g (un_data u)) end) s.
(** A service runs when it was started and the last call to its driver succeeded.  It is stuck when
    its last start failed and nothing stopped or restarted it since: the next commit leaves it
    as it is. *)
Definition runs : Z → ustate inet_base → option bool := service well_started.
Definition stuck : Z → ustate inet_base → option bool := service is_stuck.
(** [v6]: whether the IPv6 addresses are configured *)
Definition expected (c : inet_base) (v6 : bool) : list (Z * bool) :=
  let i := b4 c in
  let up := in_interface_enabled i in
  let net := up && in_network_enabled i in
  let static := net && is_scheme c INET_ASSIGN_STATIC in
  [(INET_BASE_IF_ENABLE, up); (INET_BASE_IF_CREATE, up); (INET_BASE_IF_READY, up); (INET_BASE_NETWORK, net);
   (INET_BASE_SCHEME_NONE, net && is_scheme c INET_ASSIGN_NONE); (INET_BASE_SCHEME_STATIC, static);
   (INET_BASE_SCHEME_DHCP, net && is_scheme c INET_ASSIGN_DHCP); (INET_BASE_DHCP_SERVER, static && in_dhcps_enabled (bs c));
   (INET_BASE_IGMP, net && in_igmp_enabled i); (INET_BASE_UPNP, up && upnp_wanted (in_upnp_mode i) (in_nat_enabled i));
   (INET_BASE_DHCP6_CLIENT, up && in_dhcp6_client_enable (b6 c)); (INET_BASE_RADV, v6 && in_radv_enable (ba c));
   (INET_BASE_DHCP6_SERVER, v6 && in_dhcp6_server_enable (b6s c))].
Fixpoint upb (E : gset Z) (e : uexp) (id : Z) : bool :=
  match e with
  | UENil => false
  | UENode i _ kids rest => mem E i && ((i =? id) || upb E kids id) || upb E rest id
  end.
Lemma upb_path E e id : upb E e id = true ↔ on_path E e id.
Proof.
  induction e as [|i s k IHk r IHr]; cbn; [split; [done|inversion 1]|].
  rewrite orb_true_iff, andb_true_iff, orb_true_iff, IHk, IHr, Z.eqb_eq.
  unfold mem. rewrite bool_decide_eq_true. split.
  - intros [[Hi [->|H]]|H]; by constructor.
  - inversion 1; subst; auto.
Qed.
Lemma service_at s c P : at_ s c P → ∃ f, P f ∧ ∀ g srv, service g srv s = Some (flag g srv f).
Proof.
  intros [Hc (f & H1 & H2)]. exists f. split; [done|]. intros g srv.
  destruct (flag_spec (in_units c) f (u_units s) (u_ctx s, u_found s) srv g H1) as [q E].
  destruct s as [h0 c0 q0]. unfold st in E. cbn [fst snd u_units u_ctx u_found] in *. subst c0.
  unfold service, self, gets, mbind at 1, M_bind at 1. cbn [u_ctx]. by rewrite E.
Qed.
Lemma fdata_of_elem i f d : fdata_of i f = Some d → d ∈ fdata f ∧ un_id d = i.
Proof.
  induction f as [|l d0 k IHk r IHr]; cbn; [done|]. destruct (Z.eqb_spec (un_id d0) i) as [He|]; [intros [= <-]; split;
    [by left|done]|].
  rewrite elem_of_cons, elem_of_app. destruct (fdata_of i k); intros E; [destruct (IHk E); auto|destruct (IHr E); auto].
Qed.
Lemma known_flag i (K : Prop) f : known i un_status K f → flag un_status i f = true → K.
Proof.
  unfold known, flag. rewrite Forall_forall. intros H. destruct (fdata_of i f) as [d|] eqn:E; [|done].
  apply fdata_of_elem in E as [Hd Hi]. by apply H.
Qed.
(** Not being stuck is a property of all data with that id, as ids are distinct. *)
Lemma not_stuck s f : NoDup (fids f) → (∀ g srv, service g srv s = Some (flag g srv f)) →
  none_of is_stuck (λ i, stuck i s = Some false) f.
Proof.
  intros Hnd Hs. apply Forall_forall. intros d Hd. unfold stuck. rewrite Hs. unfold flag.
  assert (un_id d ∈ fids f) as (d' & -> & Hd' & Hid)%fdata_of_some by by apply list_elem_of_fmap_2.
  assert (d' = d) as ->; [|by intros [= ->]]. apply list_elem_of_lookup in Hd as [i Hi], Hd' as [j Hj].
  assert (i = j) as <-; [|congruence]. eapply NoDup_lookup; [exact Hnd|rewrite list_lookup_fmap, Hi; done|].
  rewrite list_lookup_fmap, Hj. simpl. by rewrite Hid.
Qed.
Lemma well_flag (X : Z → Prop) srv f : none_of ill_started X f → X srv → flag well_started srv f = flag un_status srv f.
Proof.
  intros Hn HX. unfold flag. destruct (fdata_of srv f) as [d|] eqn:E; [|done]. apply fdata_of_elem in E as [Hd <-].
  unfold none_of in Hn. rewrite Forall_forall in Hn. specialize (Hn d Hd HX). unfold well_started, ill_started in *.
  destruct (un_status d), (un_error d); done.
Qed.
Lemma committed_runs e s c E K X : ok_drv e → at_ s c (committed e E K X true) →
  ∀ srv, service un_status srv s = Some (upb E base_units srv) ∧ (X srv → runs srv s = Some (upb E base_units srv)).
Proof.
  intros He Ha srv. destruct (service_at _ _ _ Ha) as (f & (Hf & _ & Hfull) & Hs). destruct (Hfull He) as (_ & Hff & Hn).
  assert (flag un_status srv f = upb E base_units srv) as Hu.
  { apply eq_true_iff_eq. rewrite upb_path, (full_path E base_units true f); [naive_solver|apply Hf|apply Hf|done|apply Hf]. }
  split; [by rewrite Hs, Hu|]. intros HX. unfold runs. by rewrite Hs, (well_flag X), Hu.
Qed.
Lemma expected_runs c E srv b : cfg_ok c E → (srv, b) ∈ expected c (upb E base_units INET_BASE_INET6) → upb E base_units srv = b.
Proof.
  unfold cfg_ok, cfg_services, cfg_values. cbn [fmap list_fmap]. intros Hcfg. injection Hcfg. clear Hcfg. intros.
  assert (Forall (λ x, upb E base_units x.1 = x.2) (expected c (upb E base_units INET_BASE_INET6))) as HF;
    [|by rewrite Forall_forall in HF; apply (HF (srv, b))].
  unfold expected. cbv zeta. cbn.
  repeat match goal with H : mem _ _ = _ |- _ => cbn in H; rewrite H; clear H end.
  repeat (apply Forall_cons; split); try apply Forall_nil; cbn;
    destruct (in_interface_enabled (b4 c)), (in_network_enabled (b4 c)), (is_scheme c INET_ASSIGN_STATIC); cbn;
    repeat (progress rewrite ?andb_false_r, ?orb_true_r, ?orb_false_r, ?andb_true_r; cbn); done.
Qed.

(** C16. The services follow the configuration.  In every state reached from the
    initialisation by calls on the interface, with drivers that answer anything at any time,
    every call is safe and no step faults, except for a call with an option number out of
    range (the callers check it) and the removal of an IPv6 DNS server that is not there
    (which follows a NULL pointer).  After a commit the addresses in the reported state are
    the configured static ones if the static scheme is marked as started; and with drivers that succeed the
    commit returns true and each service that was not stuck runs (its last start succeeded) if and only
    if the configuration asks for it: the interface, the network, the reported address
    scheme, DHCP servers and client, IGMP, UPnP (which also depends on NAT), router
    advertisement.  A service is stuck if its last start failed and nothing stopped or restarted it
    since; a commit does not start it again ([inet_stuck_service_stays_down]). *)
Theorem inet_services_follow_config e s : iface_reach s →
  (∀ op, op_pre op (u_ctx s) = true → ∃ b s', iop_run e op s = Some (b, s')) ∧
  ∃ b s', iop_run e ICommit s = Some (b, s') ∧ same_cfg (u_ctx s) (u_ctx s') ∧
    (service un_status INET_BASE_SCHEME_STATIC s' = Some true → addrs (u_ctx s') = statics (u_ctx s')) ∧
    (ok_drv e → b = true ∧ ∃ v6, service un_status INET_BASE_INET6 s' = Some v6 ∧
      ∀ srv w, (srv, w) ∈ expected (u_ctx s') v6 → stuck srv s = Some false → runs srv s' = Some w).
Proof.
  intros Hr. pose proof (reach_ok s Hr) as Hok. split.
  { intros op Hp. pose proof (iface_step e s op Hok Hp) as H. apply wp_some in H as (b & s' & H & _). eauto. }
  destruct Hok as (c & E & Ha & Hcfg & _). set (X i := stuck i s = Some false).
  assert (at_ s c (fits_but E (addrs c = statics c) X)) as Hb.
  { pose proof Ha as [Hc (f & H1 & H2)]. split; [done|]. exists f. split; [done|]. split; [done|].
    destruct (service_at s c (λ f', f' = f)) as (f' & -> & Hs); [by split; [|exists f]|].
    apply not_stuck; [apply H2|done]. }
  pose proof (wp_base_commit e s c E X Hb) as H. apply wp_some in H as (b & s' & H & c' & Hs & H').
  exists b, s'. split; [exact H|]. destruct Ha as [-> _]. pose proof H' as [Hc' _]. rewrite Hc'. split; [done|]. split.
  - destruct (service_at _ _ _ H') as (f & (Hf & Hk & _) & ->). intros [= Hst]. by eapply known_flag.
  - intros He. assert (b = true) as -> by (destruct H' as [_ (f & _ & _ & _ & Hfull)]; by apply Hfull). split; [done|].
    destruct (committed_runs e s' c' E _ X He H' INET_BASE_INET6) as [H6 _].
    exists (upb E base_units INET_BASE_INET6). split; [done|]. intros srv w Hin HX.
    destruct (committed_runs e s' c' E _ X He H' srv) as [_ Hrun]. rewrite Hrun by done. f_equal.
    eapply expected_runs; [|done]. by eapply cfg_same.
Qed.

(** A sequence of calls, [None] when one is out of range *)
Fixpoint iops_run (e : inet_env) (ops : list iop) (s : ustate inet_base) : option (ustate inet_base) :=
  match ops with
  | [] => Some s
  | op :: ops => if op_pre op (u_ctx s) then '(_, s) ← iop_run e op s; iops_run e ops s else None
  end.
Lemma iops_reach e ops : ∀ s s', iface_reach s → iops_run e ops s = Some s' → iface_reach s'.
Proof.
  induction ops as [|op ops IH]; cbn; intros s s' Hs H; [by simplify_eq|]. destruct (op_pre op (u_ctx s)) eqn:Hp; [|done].
  destruct (iop_run e op s) as [[b s1]|] eqn:Hr; [|done]. cbn in H. eapply IH; [|done]. by eapply reach_op.
Qed.
Lemma expected_same c c' v6 : same_cfg c c' → expected c' v6 = expected c v6.
Proof. intros (_ & H4 & Hs & H6 & Ha & H6s & Hst). unfold expected, is_scheme. by rewrite H4, Hs, H6, Ha, H6s, Hst. Qed.
(** A router: static addresses, a DHCP server, NAT with UPnP on the external interface; the
    IGMP driver fails at first, and is asked to restart with other values. *)
Definition ex_drv (b : bool) : inet_env :=
  InetEnv (λ _ c, match c with inet_igmp_start => b | _ => true end) (λ _, true) (λ _, false) (λ _, UPNP_MODE_EXTERNAL) (λ _ _, (false, None)).
Definition ex_iops : list iop :=
  let ip a := IpAddr a (-1) in
  [IInterface true; INetwork true; IScheme INET_ASSIGN_STATIC;
   IStatic (ip [192; 168; 0; 1]) (ip [255; 255; 255; 0]) (ip [192; 168; 0; 255]); IDhcps true; IUpnp UPNP_MODE_EXTERNAL;
     INat true; IIgmp true 1 2;
   ICommit; IGateway (ip [192; 168; 0; 254]); IIgmp true 1 3;
   IOption 6 (Some "dns"%string); IScheme INET_ASSIGN_INVALID; IRadv true (in_radv_options (ba (inet_base0 1%positive)))].
Definition ex_iface : ustate inet_base :=
  default (UState ∅ (inet_base0 1%positive) None) (s ← inet_base_init; iops_run (ex_drv false) ex_iops s).
Lemma ex_iface_reach : iface_reach ex_iface.
Proof.
  destruct init_ok as (s0 & E0 & _). assert (bool_decide (is_Some (s ← inet_base_init;
    iops_run (ex_drv false) ex_iops s)) = true) as Hs by (vm_compute; reflexivity).
  apply bool_decide_eq_true in Hs as [s1 E1]. unfold ex_iface. rewrite E1. cbn. rewrite E0 in E1. eapply iops_reach;
    [by apply reach_init|exact E1].
Qed.
Lemma inet_services_follow_config_witness : ∃ s', iop_run (ex_drv true) ICommit ex_iface = Some (true, s') ∧
  runs INET_BASE_SCHEME_STATIC s' = Some true ∧ runs INET_BASE_DHCP_SERVER s' = Some true ∧ runs INET_BASE_UPNP s' = Some true ∧
  runs INET_BASE_IGMP s' = Some true ∧ runs INET_BASE_SCHEME_DHCP s' = Some false ∧ addrs (u_ctx s') = statics (u_ctx s').
Proof.
  destruct (inet_services_follow_config (ex_drv true) ex_iface ex_iface_reach) as [_ (b & s' & Hrun & Hs & Hst & Hok)].
  destruct (Hok (λ l c, match c with inet_igmp_start | _ => eq_refl end)) as (-> & v6 & _ & Hex).
  assert (∀ n srv w, expected (u_ctx ex_iface) v6 !! n = Some (srv, w) → stuck srv ex_iface = Some false → runs srv s' = Some w) as Hex'.
  { intros n srv w Hn. apply Hex. rewrite (expected_same _ _ v6 Hs). by eapply list_elem_of_lookup_2. }
  assert (service un_status INET_BASE_SCHEME_STATIC s' = Some true) as Hm.
  { pose proof Hrun as Hc. vm_compute in Hc. injection Hc as <-. vm_compute. reflexivity. }
  exists s'. split; [exact Hrun|]. split; [apply (Hex' 5%nat); vm_compute; reflexivity|].
  split; [apply (Hex' 7%nat); vm_compute; reflexivity|].
  split; [apply (Hex' 9%nat); vm_compute; reflexivity|]. split; [apply (Hex' 8%nat); vm_compute; reflexivity|].
  split; [apply (Hex' 6%nat); vm_compute; reflexivity|exact (Hst Hm)].
Defined.

(** *** Behaviours to know *)

(** The IGMP daemon failed to start once: later commits, with a driver that would succeed,
    do not start it, until it is configured again. *)
Example inet_stuck_service_stays_down :
  let ops l := [IInterface true; INetwork true; IIgmp true 1 2] ++ l in
  let after l := s0 ← inet_base_init; s1 ← iops_run (ex_drv false) (ops [ICommit]) s0; s2 ← iops_run (ex_drv true) l s1;
                 runs INET_BASE_IGMP s2 in
  after [ICommit; ICommit] = Some false ∧ after [IIgmp true 1 3; ICommit] = Some true.
Proof. vm_compute. auto. Qed.
